(* ===== verification/_CoqProject ===== *)
-Q . S2P
Prelude.v
Msgbuf.v
Layout.v
Edac.v
Utils.v
Base.v
Legacy.v
Exchange.v
Safety.v
Control.v
FwUpdate.v
UpdateAgent.v
FirmwareDevice.v
FdSpec.v
FdSafe.v
FdRun.v
FdDemo.v
FdTrace.v
FdTransfer.v
FdProps.v
PdrHeap.v
Pdr.v
PdrRepo.v
PdrProps.v
PdrRuns.v
EntityTree.v
TreeProps.v
TreeBuild.v
TreeRuns.v
PdrAssociation.v
AssociationProps.v
AssociationRuns.v
InstanceId.v
Responder.v
Transport.v
TransportProps.v
Socket.v
AfMctp.v
AfMctpProps.v
MctpDemux.v
TransportTest.v
Fru.v
FruProps.v
FruMessages.v
Package.v
PackageSpec.v
PackageProps.v
PackageRuns.v
PackageRound.v
BiosTable.v
BiosMessages.v
BiosRound.v
BiosSpec.v
BiosProps.v
BiosRuns.v
Platform.v
PlatformEvents.v
PlatformPdr.v
PlatformSafe.v
PlatformRound.v
PlatformStates.v
Downstream.v
DownstreamProps.v
FileTransfer.v
OemIbm.v
OemOthers.v
