(* ===== verification/Prelude.v ===== *)
(** * libpldm, verified

    libpldm encodes and decodes the messages of DMTF's Platform Level Data Model, keeps
    the data structures its requesters and responders share, and implements a control
    responder, a firmware device responder and transports.  This library models the C sources under
    src/ function by function and proves what makes each component correct.

    ** How the program is modelled

    A C function is a function to [outcome]: it returns, or it faults.  A fault is an
    assertion that fails ([FAssert]), an access outside an object or to freed memory
    ([FMemory]), or a loop of the model that runs out of fuel ([FFuel]).  No theorem
    assumes that a function returns: each says which result it gives, and so that it
    does not fault.  Memory that is passed around is a [cmem], bytes at an address; a
    pointer into it is a [cmem] again, with the bytes from there on.  Out-parameters are
    options, [None] for NULL, and are returned next to the return code.  State that is
    shared through pointers is a heap: src/dsp/pdr.c in PdrHeap.v, src/responder.c in
    Responder.v, the messages of transports in Transport.v.  Integers are Z, with the wrap-around of their
    C type written out.

    The host is little endian and LP64, as on the targets of the project: htole16() and
    its like are the identity on values and choose the bytes where a packed struct is laid
    over a message; on such a host the in-place swaps of the encoders of state PDRs
    change nothing.  The build options are those of meson.build's defaults with the ABI
    levels stable, testing and deprecated.  malloc(3) is an argument wherever it is used:
    it may fail at any call.

    ** The files

    - Prelude.v: outcomes, memory, integers, little-endian codecs and the lemmas and
      tactics all files share.
    - Msgbuf.v (src/msgbuf/core.h, src/msgbuf.h): the checked cursor that the codecs read
      and write through; a weakest-precondition calculus ([wp]) for programs over it, and
      the abstraction [mb_rd], [mb_wr] of a cursor as a position.
    - Layout.v: what lies at a position of an object ([lies], [mem_le]).
    - Edac.v (src/edac.c): CRC-32 and CRC-8.
    - Utils.v (src/utils.c, src/bcd.c): timestamps, versions and BCD numbers.
    - Base.v (src/dsp/base.c, base.h, src/api.h): message header, errno translation,
      the base commands and multipart transfers.
    - Legacy.v: the shapes the older codecs repeat, named once.
    - Safety.v: decoders on any bytes, the rules behind the safety theorems: [returns],
      [refusal], [errno] and the tactics that run a decoder.
    - Control.v (src/control.c): the control responder.
    - FwUpdate.v, UpdateAgent.v (src/dsp/firmware_update.c): the firmware update messages
      of the device and of the update agent.
    - FirmwareDevice.v (src/firmware_device/fd.c): the firmware device responder.  FdSpec.v
      has its contract with the application, an automaton and a class; FdSafe.v the
      invariant and every handler against it; FdRun.v, FdTrace.v and FdTransfer.v runs,
      recorded runs and downloads; FdDemo.v a concrete application; FdProps.v the theorems.
    - PdrHeap.v, Pdr.v (src/dsp/pdr.c): the PDR repository, a linked list on a heap;
      PdrRepo.v relates it to a list of records; PdrProps.v, PdrRuns.v the theorems.
    - EntityTree.v (src/dsp/pdr.c): entity association trees; TreeProps.v, TreeBuild.v,
      TreeRuns.v.  PdrAssociation.v, AssociationProps.v, AssociationRuns.v: the records
      that are made of them.
    - InstanceId.v (src/requester/instance-id.c): instance ids over the locks of a file.
    - Package.v (src/dsp/firmware_update.c): firmware update packages.  PackageSpec.v has
      the contents of a package and their layout; PackageProps.v the record decoders;
      PackageRuns.v safety and the header; PackageRound.v the round trip.
    - BiosTable.v (src/dsp/bios_table.c): BIOS tables; BiosSpec.v the tables as lists of
      entries and the interface between the iterator and the three kinds of entry;
      BiosProps.v, BiosRuns.v.
    - Platform.v, PlatformEvents.v, PlatformPdr.v (src/dsp/platform.c, src/msgbuf/platform.h):
      commands, events and descriptor records of platform monitoring and control;
      PlatformSafe.v, PlatformRound.v, PlatformStates.v the theorems.
    - Fru.v (src/dsp/fru.c): FRU messages, the encoder of a record and the selection of
      records from a table; FruProps.v the selection as a filter; FruMessages.v round trips.
    - BiosMessages.v (src/dsp/bios.c): date and time, and the messages that carry BIOS
      tables and values; BiosRound.v their round trips.
    - Downstream.v (src/dsp/firmware_update.c): what an update agent asks a device about
      itself and the devices behind it, with the iterators over the answers;
      DownstreamProps.v.
    - FileTransfer.v (src/dsp/file.c): file transfer messages.
    - OemIbm.v, OemOthers.v (src/oem): the messages of IBM, Meta and NVIDIA.
    - Exchange.v: rules for round trips of codecs that lay packed structs over a message.
    - Responder.v (src/responder.c): the cookies of requests that wait for a response, a
      linked list on a heap that refines a finite map.
    - Transport.v (src/transport/transport.c): the interface of a transport, a class with
      laws, and the generic layer; TransportProps.v the exchange of a request and its
      response over any instance.
    - Socket.v (src/transport/socket.c), AfMctp.v (af-mctp.c), MctpDemux.v (mctp-demux.c)
      and TransportTest.v (test.c): the transports.  AF_MCTP and the demultiplexer
      keep the laws of the interface; AfMctpProps.v has this for AF_MCTP and what it
      answers when it is bound.

    How the parts meet in the program they meet here: fd.c calls the encoders and
    decoders of FwUpdate.v and Control.v, and the download of FdTransfer.v runs it against
    the codecs of UpdateAgent.v; pdr.c writes trees of EntityTree.v as records of Pdr.v;
    the tables and packages are checked with the CRC of Edac.v; the AF_MCTP transport keeps
    its requests in a jar of Responder.v; the transports run under the exchange of
    Transport.v, which matches a response with Base.v's header; every codec runs on
    Msgbuf.v or, in the older files, on the members of packed structs (Legacy.v).

    ** What the theorems show

    - Safety: whatever bytes arrive, the decoders, the responders, the package parser and
      the BIOS tables neither fault nor read outside what they were given; where one does,
      the theorem has the exact condition, and it is a finding.
    - Round trips: what one side encodes the other decodes, with the exact bytes between
      them; packages, BIOS tables, descriptor records and trees come back as written.
    - Refinement: the PDR repository is a list of records, the type table of the control
      responder a bounded list, the callbacks of the firmware device a word of its
      protocol, an update of a BIOS table a replacement in a list, a cookie
      jar a finite map, a bound AF_MCTP transport a map from requests to addresses.
    - State: the firmware device's states and its timeout; unique entities in trees whose
      explicit numbers ascend (and the collisions otherwise);
      at most one owner of an instance id under any interleaving.  Of messages in
      flight: an exchange ends if time passes, and frees or hands over each message once.
    - Functional behaviour: what file transfer decoders, package header checks and the
      registrations of the control responder answer for any input, error by error.
    - Liveness and termination: a download completes, unless its last piece is
      shorter than the library's own decoder of the request allows; walking a repository
      ends.
    - Equivalence and bounds: CRCs against the bit-serial definition; exactly which
      requests and package headers are accepted.

    ** Fuel

    Recursion that is not structural has fuel: the loops of pdr.c the number of blocks of
    the heap, which no chain of distinct blocks exceeds; the iterators of packages and
    tables the bytes that are left, of which every round uses some; the loops over
    possible states 257 rounds, since their index has eight bits; the loops over
    downstream devices and descriptors one round more than their count; draining a
    transport 8193 rounds, its limit and one; waiting for a response one round more than
    the readings of the clock in the 4.8 seconds it may take, if the clock runs; on a clock
    that stands still the wait does not end, which is proved too.  The theorems show that
    the fuel is enough.

    ** Not modelled

    Enumerations and constants of the headers stand where they are used and not in a file
    of their own: they have no operations.  The strings that errors are printed with,
    environ and compiler headers, the functions that only free a transport or an iterator,
    the command line tools, the bindings and the tests.  The operating system is a
    parameter throughout: sockets, poll(2), clocks, timers and locks are arguments or
    classes with the documented behaviour as laws; so are the callbacks of the application
    and malloc(3). *)

From Stdlib Require Export ZArith Lia Bool.
From stdpp Require Export base list option numbers.

#[global] Open Scope Z_scope.

(** ** Outcomes

    A C function either returns, or it reaches a state the C standard or the
    source itself rules out.  The second case is a [Fault], so that "this code
    never faults" is a statement that can be proved and not a convention. *)

Inductive fault :=
  | FAssert   (* an assert() of the source does not hold *)
  | FMemory   (* an access outside the object a pointer designates *)
  | FFuel.    (* a loop of the model ran out of fuel *)

Inductive outcome (A : Type) :=
  | Ok (a : A)
  | Fault (f : fault).
Arguments Ok {A} a.
Arguments Fault {A} f.

#[export] Instance outcome_ret : MRet outcome := fun A a => Ok a.
#[export] Instance outcome_bind : MBind outcome := fun A B k m =>
  match m with Ok a => k a | Fault f => Fault f end.

(** State-passing computations that may fault. *)
Definition stM (S A : Type) : Type := S -> outcome (A * S).

#[export] Instance stM_ret {S} : MRet (stM S) := fun A a s => Ok (a, s).
#[export] Instance stM_bind {S} : MBind (stM S) := fun A B k m s =>
  match m s with Ok (a, s') => k a s' | Fault f => Fault f end.

Definition get {S} : stM S S := fun s => Ok (s, s).
Definition put {S} (s : S) : stM S unit := fun _ => Ok (tt, s).
Definition lift {S A} (m : outcome A) : stM S A := fun s =>
  match m with Ok a => Ok (a, s) | Fault f => Fault f end.

(** [assert(cond)] of the source. *)
Definition c_assert (b : bool) : outcome unit := if b then Ok tt else Fault FAssert.

(** Early return on a non-zero return code: [if (rc) { return e; } k]. *)
Notation "'if_err' rc 'return_' e ';;' k" := (if Z.eqb rc 0 then k else e)
  (at level 10, rc at level 99, e at level 99, k at level 200,
   format "'[v' 'if_err'  rc  'return_'  e  ';;' '/' k ']'").

(** ** Machine integers: LP64, two's complement *)

Definition u8 (x : Z) : Z := x mod 256.
Definition u16 (x : Z) : Z := x mod 65536.
Definition u32 (x : Z) : Z := x mod 4294967296.
Definition u64 (x : Z) : Z := x mod 18446744073709551616.

(** The value of the low [bits] bits read as two's complement. *)
Definition to_signed (bits : Z) (x : Z) : Z :=
  if x <? 2 ^ (bits - 1) then x else x - 2 ^ bits.

Abbreviation UINT8_MAX := 255 (only parsing).
Abbreviation UINT16_MAX := 65535 (only parsing).
Abbreviation UINT32_MAX := 4294967295 (only parsing).
Abbreviation SIZE_MAX := 18446744073709551615 (only parsing).
Abbreviation UINTPTR_MAX := 18446744073709551615 (only parsing).
Abbreviation INTMAX_MAX := 9223372036854775807 (only parsing).
Abbreviation INTMAX_MIN := (-9223372036854775808) (only parsing).
Abbreviation SSIZE_MAX := 9223372036854775807 (only parsing).

(** errno values of the Linux ABI; [EUCLEAN] as in src/environ/errno.h. *)
Abbreviation ENOENT := 2 (only parsing).
Abbreviation EINTR := 4 (only parsing).
Abbreviation EAGAIN := 11 (only parsing).
Abbreviation ENOMEM := 12 (only parsing).
Abbreviation EBUSY := 16 (only parsing).
Abbreviation EINVAL := 22 (only parsing).
Abbreviation ENOMSG := 42 (only parsing).
Abbreviation EPROTO := 71 (only parsing).
Abbreviation EBADMSG := 74 (only parsing).
Abbreviation EOVERFLOW := 75 (only parsing).
Abbreviation ENOTSUP := 95 (only parsing).
Abbreviation EUCLEAN := 117 (only parsing).

(** ** Lists *)

(** The [n] elements from position [c]. *)
Definition slice {A} (c n : nat) (l : list A) : list A := take n (drop c l).

Lemma drop_slice {A} k c n (l : list A) : drop k (slice c n l) = slice (c + k) (n - k) l.
Proof. unfold slice. rewrite skipn_firstn_comm, drop_drop. done. Qed.

Lemma take_slice {A} k c n (l : list A) : (k <= n)%nat -> take k (slice c n l) = slice c k l.
Proof. intros. unfold slice. rewrite take_take. f_equal. lia. Qed.

Lemma length_slice {A} c n (l : list A) : length (slice c n l) = Nat.min n (length l - c).
Proof. unfold slice. rewrite length_take, length_drop. done. Qed.

Lemma slice_slice {A} a k c n (l : list A) :
  (a + k <= n)%nat -> slice a k (slice c n l) = slice (c + a) k l.
Proof. intros. unfold slice at 1. rewrite drop_slice, take_slice by lia. done. Qed.

Lemma Forall_slice {A} (P : A -> Prop) c n l : Forall P l -> Forall P (slice c n l).
Proof. intros. apply Forall_take, Forall_drop; done. Qed.

Lemma Forall_elem {A} (P : A -> Prop) l : Forall P l <-> forall x, x ∈ l -> P x.
Proof. rewrite List.Forall_forall. by setoid_rewrite list_elem_of_In. Qed.

(** Induction two elements at a time. *)
Lemma list_ind2 {A} (P : list A -> Prop) :
  P [] -> (forall x, P [x]) -> (forall x y l, P l -> P (x :: y :: l)) -> forall l, P l.
Proof.
  intros H0 H1 H2 l. enough (P l /\ forall x, P (x :: l)) by tauto.
  induction l as [|x l [IH1 IH2]]; split; auto.
Qed.

(** ** Bytes and little-endian words *)

Definition byte_ok (b : Z) : Prop := 0 <= b < 256.

Definition u16_ok (v : Z) : Prop := 0 <= v < 65536.
Definition u32_ok (v : Z) : Prop := 0 <= v < 4294967296.
Abbreviation bytes_ok := (Forall byte_ok) (only parsing).

(** The value of a little-endian byte sequence: le16toh and friends applied to
    an object filled by memcpy. *)
Fixpoint le_dec (l : list Z) : Z :=
  match l with [] => 0 | b :: t => b + 256 * le_dec t end.

(** The [n] bytes htoleN leaves in memory. *)
Fixpoint le_enc (n : nat) (v : Z) : list Z :=
  match n with O => [] | S n' => v mod 256 :: le_enc n' (v / 256) end.

Lemma le_enc_length n v : length (le_enc n v) = n.
Proof. revert v; induction n as [|n IH]; intros v; simpl; [done|by rewrite IH]. Qed.

Lemma le_enc_ok n v : bytes_ok (le_enc n v).
Proof.
  revert v; induction n as [|n IH]; intros v; simpl; constructor; [|apply IH].
  apply Z.mod_pos_bound; lia.
Qed.

Lemma pow256_S (n : nat) : 256 ^ Z.of_nat (S n) = 256 * 256 ^ Z.of_nat n.
Proof. rewrite Nat2Z.inj_succ, Z.pow_succ_r; lia. Qed.

Lemma pow256_pos (n : nat) : 0 < 256 ^ Z.of_nat n.
Proof. apply Z.pow_pos_nonneg; lia. Qed.

Lemma le_dec_enc n v : le_dec (le_enc n v) = v mod 256 ^ Z.of_nat n.
Proof.
  revert v; induction n as [|n IH]; intros v.
  - simpl. rewrite Z.mod_1_r. done.
  - cbn [le_enc le_dec]. rewrite IH, pow256_S.
    pose proof (pow256_pos n). rewrite Z.rem_mul_r by lia. lia.
Qed.

Lemma le_dec_bound l : bytes_ok l -> 0 <= le_dec l < 256 ^ Z.of_nat (length l).
Proof.
  induction 1 as [|b l Hb Hl IH]; [simpl; lia|].
  cbn [le_dec length]. rewrite pow256_S. unfold byte_ok in Hb. nia.
Qed.

Lemma le_enc_dec l : bytes_ok l -> le_enc (length l) (le_dec l) = l.
Proof.
  induction 1 as [|b l Hb Hl IH]; [done|]. cbn [le_dec length le_enc].
  unfold byte_ok in Hb. f_equal.
  - rewrite Z.mul_comm, Z.mod_add by lia. apply Z.mod_small; lia.
  - rewrite Z.mul_comm, Z.div_add by lia. rewrite Z.div_small by lia. done.
Qed.

Lemma le_dec_enc_id n v : 0 <= v < 256 ^ Z.of_nat n -> le_dec (le_enc n v) = v.
Proof. intros. rewrite le_dec_enc. apply Z.mod_small; lia. Qed.

Lemma slice_app_mid {A} (l k r : list A) c n :
  c = length l -> n = length k -> slice c n (l ++ k ++ r) = k.
Proof. intros -> ->. unfold slice. by rewrite drop_app_length, take_app_length. Qed.

(** Two's complement reads back what was stored. *)
Lemma to_signed_mod bits v :
  1 <= bits -> - 2 ^ (bits - 1) <= v < 2 ^ (bits - 1) -> to_signed bits (v mod 2 ^ bits) = v.
Proof.
  intros Hb Hv. unfold to_signed.
  assert (2 ^ bits = 2 * 2 ^ (bits - 1)) as E.
  { rewrite <- Z.pow_succ_r by lia. f_equal. lia. }
  rewrite E. destruct (Z.le_gt_cases 0 v).
  - rewrite Z.mod_small by lia. destruct (Z.ltb_spec v (2 ^ (bits - 1))); lia.
  - replace (v mod _) with (v + 2 * 2 ^ (bits - 1)).
    + match goal with |- context [?a <? ?b] => destruct (Z.ltb_spec a b) end; lia.
    + symmetry. rewrite <- (Z_mod_plus_full v 1), Z.mul_1_l. apply Z.mod_small. lia.
Qed.

(** ** Bit fields *)

Lemma shiftr_div x n k : 0 <= n -> k = 2 ^ n -> Z.shiftr x n = x / k.
Proof. intros ? ->. by apply Z.shiftr_div_pow2. Qed.

Lemma land_mod x n k : 0 <= n -> k = 2 ^ n - 1 -> Z.land x k = x mod 2 ^ n.
Proof. intros ? ->. rewrite <- Z.land_ones by lia. f_equal. rewrite Z.ones_equiv. lia. Qed.

(** A low part below bit [n] and a part from bit [n] up do not overlap. *)
Lemma land_shiftl_0 x y n : 0 <= n -> 0 <= x < 2 ^ n -> Z.land x (Z.shiftl y n) = 0.
Proof.
  intros Hn Hx. apply Z.bits_inj'. intros i Hi. rewrite Z.land_spec, Z.bits_0.
  destruct (Z.lt_ge_cases i n).
  - by rewrite Z.shiftl_spec_low, andb_false_r.
  - rewrite <- (Z.mod_small x (2 ^ n)), Z.mod_pow2_bits_high by lia. done.
Qed.

Lemma lor_shiftl x y n : 0 <= n -> 0 <= x < 2 ^ n -> Z.lor x (Z.shiftl y n) = x + y * 2 ^ n.
Proof.
  intros Hn Hx. rewrite <- Z.shiftl_mul_pow2, <- Z.add_lor_land, land_shiftl_0 by done. lia.
Qed.

(** ** Memory objects

    A pointer to [n] accessible bytes is the address and the bytes from there to
    the end of the object.  Reading or writing past the end is a fault. *)

Record cmem := CMem { addr : Z; bytes : list Z }.

Definition mem_size (m : cmem) : Z := Z.of_nat (length (bytes m)).

Definition mem_read (m : cmem) (off n : Z) : outcome (list Z) :=
  if (0 <=? off) && (0 <=? n) && (off + n <=? mem_size m)
  then Ok (slice (Z.to_nat off) (Z.to_nat n) (bytes m))
  else Fault FMemory.

Definition splice (off : nat) (new old : list Z) : list Z :=
  take off old ++ new ++ drop (off + length new) old.

Definition mem_write (m : cmem) (off : Z) (new : list Z) : outcome cmem :=
  if (0 <=? off) && (off + Z.of_nat (length new) <=? mem_size m)
  then Ok (CMem (addr m) (splice (Z.to_nat off) new (bytes m)))
  else Fault FMemory.

(** An object that exists: its last byte is addressable and it holds bytes. *)
Record mem_ok (m : cmem) : Prop := {
  mem_ok_addr : 0 <= addr m;
  mem_ok_end : addr m + mem_size m <= UINTPTR_MAX;
  mem_ok_intmax : mem_size m <= INTMAX_MAX;
  mem_ok_bytes : bytes_ok (bytes m)
}.

(** The object is where [m] is, whatever it holds now. *)
Definition same_place (m m' : cmem) : Prop := addr m' = addr m /\ mem_size m' = mem_size m.

Lemma same_place_refl m : same_place m m.
Proof. done. Qed.

Lemma same_place_trans m1 m2 m3 : same_place m1 m2 -> same_place m2 m3 -> same_place m1 m3.
Proof. unfold same_place. intros [-> ->] [-> ->]. done. Qed.

(** An object that exists, whatever bytes it holds. *)
Record mem_place (m : cmem) : Prop := {
  mem_place_addr : 0 <= addr m;
  mem_place_end : addr m + mem_size m <= UINTPTR_MAX;
  mem_place_intmax : mem_size m <= INTMAX_MAX
}.

Lemma mem_ok_place m : mem_ok m -> mem_place m.
Proof. by intros []. Qed.

Lemma mem_place_same m m' : mem_place m -> same_place m m' -> mem_place m'.
Proof. intros [] [Ha Hs]. constructor; rewrite ?Ha, ?Hs; done. Qed.

Lemma splice_length off new old :
  (off + length new <= length old)%nat -> length (splice off new old) = length old.
Proof.
  intros H. unfold splice. rewrite !length_app, length_take, length_drop. lia.
Qed.

Lemma splice_ok off new old :
  bytes_ok new -> bytes_ok old -> bytes_ok (splice off new old).
Proof.
  intros Hn Ho. unfold splice. rewrite !Forall_app.
  split_and!; [apply Forall_take|done|apply Forall_drop]; done.
Qed.

Lemma splice_append (done new old : list Z) :
  (length done + length new <= length old)%nat ->
  splice (length done) new (done ++ drop (length done) old)
  = (done ++ new) ++ drop (length (done ++ new)) old.
Proof.
  intros H. unfold splice. rewrite take_app_length' by done.
  rewrite drop_app_ge by lia. rewrite drop_drop, length_app, <- app_assoc.
  repeat f_equal; lia.
Qed.

Lemma mem_read_ok m off n l :
  0 <= off -> 0 <= n -> off + n <= mem_size m ->
  slice (Z.to_nat off) (Z.to_nat n) (bytes m) = l -> mem_read m off n = Ok l.
Proof.
  intros ??? <-. unfold mem_read. repeat (rewrite (proj2 (Z.leb_le _ _)) by lia). done.
Qed.

Lemma mem_write_ok m off new :
  0 <= off -> off + Z.of_nat (length new) <= mem_size m ->
  mem_write m off new = Ok (CMem (addr m) (splice (Z.to_nat off) new (bytes m))).
Proof.
  intros ??. unfold mem_write. repeat (rewrite (proj2 (Z.leb_le _ _)) by lia). done.
Qed.

(** ** Weakest preconditions

    [wp m s Q]: from [s] the computation returns, without a fault, a result and
    a state that satisfy [Q]. *)

Definition wp {S A} (m : stM S A) (s : S) (Q : A -> S -> Prop) : Prop :=
  match m s with Ok (a, s') => Q a s' | Fault _ => False end.

Section wp.
Context {S : Type}.

Lemma wp_ret {A} (a : A) (s : S) Q : Q a s -> wp (mret a) s Q.
Proof. done. Qed.

Lemma wp_bind {A B} (m : stM S A) (k : A -> stM S B) s Q :
  wp m s (fun a s' => wp (k a) s' Q) -> wp (m ≫= k) s Q.
Proof. unfold wp, mbind, stM_bind. destruct (m s) as [[a s']|f]; done. Qed.

Lemma wp_mono {A} (m : stM S A) s (Q Q' : A -> S -> Prop) :
  wp m s Q -> (forall a s', Q a s' -> Q' a s') -> wp m s Q'.
Proof. unfold wp. destruct (m s) as [[a s']|f]; auto. Qed.

Lemma wp_run {A} (m : stM S A) s a s' Q : m s = Ok (a, s') -> Q a s' -> wp m s Q.
Proof. unfold wp. intros ->. done. Qed.

Lemma wp_elim {A} (m : stM S A) s Q :
  wp m s Q -> exists a s', m s = Ok (a, s') /\ Q a s'.
Proof. unfold wp. destruct (m s) as [[a s']|f]; [eauto|done]. Qed.
End wp.

(** Case analysis on the guards of the source. *)
Ltac bool_case c :=
  lazymatch c with
  | ?a <=? ?b => destruct (Z.leb_spec a b)
  | ?a <? ?b => destruct (Z.ltb_spec a b)
  | ?a =? ?b => destruct (Z.eqb_spec a b)
  | negb ?d => bool_case d
  | ?d && _ => bool_case d
  | ?d || _ => bool_case d
  | _ => let E := fresh "E" in destruct c eqn:E
  end; cbn [negb andb orb].

(** Case on the first guard of the goal; [cmp_solve] settles it with [lia]. *)
Ltac cmp_case :=
  match goal with |- context [if ?c then _ else _] => bool_case c end.

Ltac cmp_solve :=
  match goal with
  | |- context [if ?c then _ else _] =>
      first [ replace c with true by lia | replace c with false by lia ]
  end; cbn [negb andb orb].

Lemma mem_read_in m off n :
  0 <= off -> 0 <= n -> off + n <= mem_size m ->
  exists l, mem_read m off n = Ok l /\ Z.of_nat (length l) = n /\
    l = slice (Z.to_nat off) (Z.to_nat n) (bytes m).
Proof.
  intros. eexists; split_and!; [by apply mem_read_ok | | done].
  unfold mem_size in *. rewrite length_slice. lia.
Qed.

Lemma mem_write_in m off new :
  0 <= off -> off + Z.of_nat (length new) <= mem_size m ->
  exists m', mem_write m off new = Ok m' /\ mem_size m' = mem_size m /\ addr m' = addr m.
Proof.
  intros. eexists; split_and!; [by apply mem_write_ok | | done].
  unfold mem_size in *; simpl. rewrite splice_length; lia.
Qed.

(** Side conditions at a concrete input: bounds of literals, bytes of literal
    lists, well-formedness of literal objects. *)
Ltac concrete :=
  cbn; repeat first [ lia | done | progress (unfold byte_ok, mem_size; cbn) | split | constructor ].
