(* ===== verification/Msgbuf.v ===== *)
(** * Message buffers (src/msgbuf/core.h, src/msgbuf.h)

    The checked cursor every codec of the library reads and writes through.
    [struct pldm_msgbuf_ro] and [struct pldm_msgbuf_rw] differ only in [const]:
    both are [msgbuf] here.  The definitions follow the C functions one by one;
    the lemmas give the position abstraction ([mb_rd], [mb_wr]) the codecs'
    proofs step with. *)

From S2P Require Import Prelude.

(** [obj] is the object [cursor] points into; [cursor] is the offset in it, or
    [None] for NULL. *)
Record msgbuf := MsgBuf { obj : cmem; cursor : option Z; remaining : Z }.

(** A pointer value: NULL, or the object from the pointed-to byte on. *)
Abbreviation ptr := (option cmem) (only parsing).

Definition ptr_at (m : cmem) (off : Z) : cmem :=
  CMem (addr m + off) (drop (Z.to_nat off) (bytes m)).

(** Store through an out-parameter the caller may have passed as NULL. *)
Definition set_out {A} (p : option A) (v : A) : option A :=
  match p with Some _ => Some v | None => None end.

(** struct variable_field (include/libpldm/pldm_types.h). *)
Record variable_field := VarField { vf_ptr : ptr; vf_length : Z }.

Abbreviation B := (stM msgbuf) (only parsing).

(** ** Construction and completion *)

Definition pldm__msgbuf_set_invalid : B Z := fun b =>
  Ok (- EOVERFLOW, MsgBuf (obj b) (cursor b) INTMAX_MIN).

Definition pldm__msgbuf_rw_invalidate : B Z := pldm__msgbuf_set_invalid.
Definition pldm__msgbuf_ro_invalidate : B Z := pldm__msgbuf_set_invalid.

(** The state PLDM_MSGBUF_RO_DEFINE_P and PLDM_MSGBUF_RW_DEFINE_P declare. *)
Definition pldm__msgbuf_define (m : cmem) : msgbuf := MsgBuf m None INTMAX_MIN.

(** The cleanup attribute of the same macros: every exit from the scope must
    have completed or discarded the buffer. *)
Definition pldm__msgbuf_cleanup (b : msgbuf) : outcome unit :=
  c_assert (match cursor b with None => true | Some _ => false end
            && (remaining b =? INTMAX_MIN)).

(** The scope of a PLDM_MSGBUF_*_DEFINE_P declaration.  [m] is the object the
    buffer will be attached to; its final contents are returned. *)
Definition msgbuf_scope {A} (m : cmem) (body : B A) : outcome (A * cmem) :=
  '(a, b) ← body (pldm__msgbuf_define m);
  _ ← pldm__msgbuf_cleanup b;
  mret (a, obj b).

Definition pldm__msgbuf_init_errno (minsize : Z) (buf : cmem) (len : Z) : B Z := fun _ =>
  let b := MsgBuf buf None INTMAX_MIN in
  if len <? minsize then pldm__msgbuf_set_invalid b
  else if INTMAX_MAX <? len then pldm__msgbuf_set_invalid b
  else if UINTPTR_MAX - addr buf <? len then pldm__msgbuf_set_invalid b
  else Ok (0, MsgBuf buf (Some 0) len).

Definition pldm_msgbuf_rw_init_errno := pldm__msgbuf_init_errno.
Definition pldm_msgbuf_ro_init_errno := pldm__msgbuf_init_errno.

Definition pldm__msgbuf_validate (remaining : Z) : Z :=
  if remaining <? 0 then - EOVERFLOW else 0.

Definition pldm_msgbuf_ro_validate : B Z := fun b => Ok (pldm__msgbuf_validate (remaining b), b).
Definition pldm_msgbuf_rw_validate : B Z := fun b => Ok (pldm__msgbuf_validate (remaining b), b).

Definition pldm__msgbuf_consumed (remaining : Z) : Z :=
  if 0 <? remaining then - EBADMSG
  else if remaining <? 0 then - EOVERFLOW
  else 0.

Definition pldm_msgbuf_ro_consumed : B Z := fun b => Ok (pldm__msgbuf_consumed (remaining b), b).
Definition pldm_msgbuf_rw_consumed : B Z := fun b => Ok (pldm__msgbuf_consumed (remaining b), b).

Definition pldm__msgbuf_discard (error : Z) : B Z := fun b =>
  '(_, b) ← pldm__msgbuf_set_invalid (MsgBuf (obj b) None (remaining b));
  mret (error, b).

Definition pldm_msgbuf_rw_discard (error : Z) : B Z := pldm__msgbuf_discard error.
Definition pldm_msgbuf_ro_discard (error : Z) : B Z := pldm__msgbuf_discard error.

Definition pldm_msgbuf_rw_complete : B Z :=
  rc ← pldm_msgbuf_rw_validate; pldm_msgbuf_rw_discard rc.
Definition pldm_msgbuf_ro_complete : B Z :=
  rc ← pldm_msgbuf_ro_validate; pldm_msgbuf_ro_discard rc.
Definition pldm_msgbuf_rw_complete_consumed : B Z :=
  rc ← pldm_msgbuf_rw_consumed; pldm_msgbuf_rw_discard rc.
Definition pldm_msgbuf_ro_complete_consumed : B Z :=
  rc ← pldm_msgbuf_ro_consumed; pldm_msgbuf_ro_discard rc.

(** ** Moving the cursor

    Every access below has the same three-way shape: enough bytes left; too few,
    with the shortfall still representable; too few, and the shortfall is not. *)

(** The two failing branches: account for [n] missing bytes. *)
Definition msgbuf_shortfall (n : Z) : B Z := fun b =>
  if INTMAX_MIN + n <? remaining b
  then Ok (- EOVERFLOW, MsgBuf (obj b) (cursor b) (remaining b - n))
  else pldm__msgbuf_set_invalid b.

(** The successful branch: [assert(ctx->cursor)], then advance past [n] bytes. *)
Definition msgbuf_advance (n : Z) : B Z := fun b =>
  match cursor b with
  | None => Fault FAssert
  | Some c => Ok (c, MsgBuf (obj b) (Some (c + n)) (remaining b - n))
  end.

(** ** Extraction *)

Definition msgbuf_extract (n : Z) (conv : list Z -> Z) (dst : Z) : B (Z * Z) := fun b =>
  if n <=? remaining b then
    '(c, b) ← msgbuf_advance n b;
    raw ← mem_read (obj b) c n;
    mret ((0, conv raw), b)
  else
    '(rc, b) ← msgbuf_shortfall n b;
    mret ((rc, dst), b).

Definition pldm__msgbuf_extract_uint8 : Z -> B (Z * Z) := msgbuf_extract 1 le_dec.
Definition pldm__msgbuf_extract_int8 : Z -> B (Z * Z) :=
  msgbuf_extract 1 (fun l => to_signed 8 (le_dec l)).
Definition pldm__msgbuf_extract_uint16 : Z -> B (Z * Z) := msgbuf_extract 2 le_dec.
Definition pldm__msgbuf_extract_int16 : Z -> B (Z * Z) :=
  msgbuf_extract 2 (fun l => to_signed 16 (le_dec l)).
Definition pldm__msgbuf_extract_uint32 : Z -> B (Z * Z) := msgbuf_extract 4 le_dec.
Definition pldm__msgbuf_extract_int32 : Z -> B (Z * Z) :=
  msgbuf_extract 4 (fun l => to_signed 32 (le_dec l)).
(** A real32_t is carried as its 32-bit representation. *)
Definition pldm__msgbuf_extract_real32 : Z -> B (Z * Z) := msgbuf_extract 4 le_dec.

Definition pldm__msgbuf_extract_uint64 : Z -> B (Z * Z) := msgbuf_extract 8 le_dec.
Definition pldm__msgbuf_extract_int64 : Z -> B (Z * Z) :=
  msgbuf_extract 8 (fun l => to_signed 64 (le_dec l)).

(** memcpy into the front of the caller's array [dst]. *)
Definition array_store (dst raw : list Z) : outcome (list Z) :=
  if (length raw <=? length dst)%nat then Ok (splice 0 raw dst) else Fault FMemory.

Definition pldm__msgbuf_extract_array_void (count : Z) (dst : list Z) (dst_count : Z)
  : B (Z * list Z) := fun b =>
  if dst_count <? count then Ok ((- EINVAL, dst), b)
  else if count =? 0 then Ok ((0, dst), b)
  else if INTMAX_MAX <? count then
    '(rc, b) ← pldm__msgbuf_ro_invalidate b; mret ((rc, dst), b)
  else if count <=? remaining b then
    '(c, b) ← msgbuf_advance count b;
    raw ← mem_read (obj b) c count;
    dst ← array_store dst raw;
    mret ((0, dst), b)
  else
    '(rc, b) ← msgbuf_shortfall count b;
    mret ((rc, dst), b).

Definition pldm_msgbuf_extract_array_char := pldm__msgbuf_extract_array_void.
Definition pldm_msgbuf_extract_array_uint8 := pldm__msgbuf_extract_array_void.

(** The value is only promoted to size_t when it was there. *)
Definition msgbuf_to_size (extract : Z -> B (Z * Z)) (dst : Z) : B (Z * Z) :=
  '(rc, value) ← extract 0;
  if_err rc return_ mret (rc, dst);;
  mret (0, value).

Definition pldm__msgbuf_extract_uint8_to_size := msgbuf_to_size pldm__msgbuf_extract_uint8.
Definition pldm__msgbuf_extract_uint16_to_size := msgbuf_to_size pldm__msgbuf_extract_uint16.
Definition pldm__msgbuf_extract_uint32_to_size := msgbuf_to_size pldm__msgbuf_extract_uint32.

(** ** Insertion *)

Definition msgbuf_store (val : list Z) : B Z := fun b =>
  '(c, b) ← msgbuf_advance (Z.of_nat (length val)) b;
  m ← mem_write (obj b) c val;
  mret (0, MsgBuf m (cursor b) (remaining b)).

Definition msgbuf_insert (n : nat) (src : Z) : B Z := fun b =>
  if Z.of_nat n <=? remaining b then msgbuf_store (le_enc n src) b
  else msgbuf_shortfall (Z.of_nat n) b.

Definition pldm_msgbuf_insert_uint64 : Z -> B Z := msgbuf_insert 8.
Definition pldm_msgbuf_insert_real32 : Z -> B Z := msgbuf_insert 4.
Definition pldm_msgbuf_insert_uint32 : Z -> B Z := msgbuf_insert 4.
Definition pldm_msgbuf_insert_uint16 : Z -> B Z := msgbuf_insert 2.
Definition pldm_msgbuf_insert_uint8 : Z -> B Z := msgbuf_insert 1.
Definition pldm_msgbuf_insert_int32 : Z -> B Z := msgbuf_insert 4.
Definition pldm_msgbuf_insert_int16 : Z -> B Z := msgbuf_insert 2.
Definition pldm_msgbuf_insert_int8 : Z -> B Z := msgbuf_insert 1.

(** [src] is the object behind the source pointer. *)
Definition pldm__msgbuf_insert_array_void (count : Z) (src : cmem) (src_count : Z) : B Z := fun b =>
  if src_count <? count then Ok (- EINVAL, b)
  else if count =? 0 then Ok (0, b)
  else if INTMAX_MAX <? count then pldm__msgbuf_rw_invalidate b
  else if count <=? remaining b then
    raw ← mem_read src 0 count;
    msgbuf_store raw b
  else msgbuf_shortfall count b.

Definition pldm_msgbuf_insert_array_char := pldm__msgbuf_insert_array_void.
Definition pldm_msgbuf_insert_array_uint8 := pldm__msgbuf_insert_array_void.

(** ** Spans *)

Definition pldm__msgbuf_span_required (required : Z) (out : option ptr) : B (Z * option ptr) := fun b =>
  if INTMAX_MAX <? required then
    '(rc, b) ← pldm__msgbuf_set_invalid b; mret ((rc, out), b)
  else if required <=? remaining b then
    '(c, b) ← msgbuf_advance required b;
    mret ((0, set_out out (Some (ptr_at (obj b) c))), b)
  else
    '(rc, b) ← msgbuf_shortfall required b;
    mret ((rc, out), b).

Definition pldm_msgbuf_ro_span_required := pldm__msgbuf_span_required.
Definition pldm_msgbuf_rw_span_required := pldm__msgbuf_span_required.

(** strnlen(3): the number of bytes before the first NUL, all of them if none. *)
Fixpoint strnlen (l : list Z) : nat :=
  match l with
  | [] => O
  | c :: t => if c =? 0 then O else S (strnlen t)
  end.

Definition pldm__msgbuf_span_string_ascii (out : option ptr) (length : option Z)
  : B (Z * option ptr * option Z) := fun b =>
  let invalid b :=
    '(rc, b) ← pldm__msgbuf_set_invalid b; mret ((rc, out, length), b) in
  if remaining b <? 0 then invalid b
  else match cursor b with
  | None => Fault FAssert
  | Some c =>
    hay ← mem_read (obj b) c (remaining b);
    let measured := Z.of_nat (strnlen hay) in
    if measured =? remaining b then invalid b
    else
      let measured := measured + 1 in
      if measured <=? remaining b then
        '(c, b) ← msgbuf_advance measured b;
        mret ((0, set_out out (Some (ptr_at (obj b) c)), set_out length measured), b)
      else
        '(rc, b) ← msgbuf_shortfall measured b;
        mret ((rc, out, length), b)
  end.

Definition pldm_msgbuf_rw_span_string_ascii := pldm__msgbuf_span_string_ascii.
Definition pldm_msgbuf_ro_span_string_ascii := pldm__msgbuf_span_string_ascii.

(** memmem(3) for the two-byte needle [{0, 0}]: the index of its first
    occurrence. *)
Fixpoint memmem_nul16 (l : list Z) : option nat :=
  match l with
  | x :: (y :: _) as t =>
      if (x =? 0) && (y =? 0) then Some O else S <$> memmem_nul16 t
  | _ => None
  end.

(** The do-while loop of the UTF-16 scan: [c] is the start of the string, [r] the
    bytes left from there, [e] the variable [end] (all as offsets). *)
Fixpoint span_utf16_scan (fuel : nat) (m : cmem) (c r e : Z) : outcome (option Z) :=
  match fuel with
  | O => Fault FFuel
  | S fuel =>
    let e := if negb (e =? c) then e + 1 else e in
    let measured := e - c in
    hay ← mem_read m e (r - measured);
    match memmem_nul16 hay with
    | None => Ok None
    | Some i =>
      let e := e + Z.of_nat i in
      if negb (Z.land (addr m + e) 1 =? Z.land (addr m + c) 1)
      then span_utf16_scan fuel m c r e
      else Ok (Some e)
    end
  end.

Definition pldm__msgbuf_span_string_utf16 (out : option ptr) (length : option Z)
  : B (Z * option ptr * option Z) := fun b =>
  let invalid b :=
    '(rc, b) ← pldm__msgbuf_set_invalid b; mret ((rc, out, length), b) in
  if remaining b <? 0 then invalid b
  else match cursor b with
  | None => Fault FAssert
  | Some c =>
    e ← span_utf16_scan (S (Z.to_nat (remaining b))) (obj b) c (remaining b) c;
    match e with
    | None => invalid b
    | Some e =>
      let measured := e + 2 - c in
      if measured <=? remaining b then
        '(c, b) ← msgbuf_advance measured b;
        mret ((0, set_out out (Some (ptr_at (obj b) c)), set_out length measured), b)
      else
        '(rc, b) ← msgbuf_shortfall measured b;
        mret ((rc, out, length), b)
    end
  end.

Definition pldm_msgbuf_ro_span_string_utf16 := pldm__msgbuf_span_string_utf16.
Definition pldm_msgbuf_rw_span_string_utf16 := pldm__msgbuf_span_string_utf16.

Definition pldm__msgbuf_span_remaining (out : ptr) (len : Z) : B (Z * ptr * Z) := fun b =>
  if remaining b <? 0 then Ok ((- EOVERFLOW, out, len), b)
  else
    let n := remaining b in
    '(c, b) ← msgbuf_advance n b;
    mret ((0, Some (ptr_at (obj b) c), n), b).

Definition pldm_msgbuf_rw_span_remaining := pldm__msgbuf_span_remaining.
Definition pldm_msgbuf_ro_span_remaining := pldm__msgbuf_span_remaining.

Definition pldm__msgbuf_span_until (trailer : Z) (out : option ptr) (length : option Z)
  : B (Z * option ptr * option Z) := fun b =>
  let invalid b :=
    '(rc, b) ← pldm__msgbuf_set_invalid b; mret ((rc, out, length), b) in
  if INTMAX_MAX <? trailer then invalid b
  else if trailer <=? remaining b then
    let delta := remaining b - trailer in
    '(c, b) ← msgbuf_advance delta b;
    mret ((0, set_out out (Some (ptr_at (obj b) c)), set_out length delta), b)
  else if INTMAX_MIN + trailer <? remaining b then
    Ok ((- EOVERFLOW, out, length), MsgBuf (obj b) (cursor b) (INTMAX_MIN + trailer))
  else invalid b.

Definition pldm_msgbuf_ro_span_until := pldm__msgbuf_span_until.
Definition pldm_msgbuf_rw_span_until := pldm__msgbuf_span_until.

Definition pldm_msgbuf_peek_remaining (out : ptr) (len : Z) : B (Z * ptr * Z) := fun b =>
  if remaining b <? 0 then Ok ((- EOVERFLOW, out, len), b)
  else match cursor b with
  | None => Fault FAssert
  | Some c => Ok ((0, Some (ptr_at (obj b) c), remaining b), b)
  end.

Definition pldm_msgbuf_skip (count : Z) : B Z := fun b =>
  if INTMAX_MAX <? count then pldm__msgbuf_rw_invalidate b
  else if count <=? remaining b then
    '(_, b) ← msgbuf_advance count b; mret (0, b)
  else msgbuf_shortfall count b.

Definition pldm_msgbuf_complete_used (orig_len ret_used_len : Z) : B (Z * Z) := fun b =>
  let b := MsgBuf (obj b) None (remaining b) in
  let rc := pldm__msgbuf_validate (remaining b) in
  if_err rc return_
    ('(_, b) ← pldm__msgbuf_rw_invalidate b; mret ((rc, ret_used_len), b));;
  if orig_len <? remaining b then
    '(rc, b) ← pldm__msgbuf_rw_invalidate b; mret ((rc, ret_used_len), b)
  else
    let used := orig_len - remaining b in
    '(_, b) ← pldm__msgbuf_rw_invalidate b;
    mret ((0, used), b).

(** ** Copies between two buffers *)

Definition pldm__msgbuf_copy (size : Z) (dst src : msgbuf) : outcome (Z * msgbuf * msgbuf) :=
  if INTMAX_MAX <? size then
    '(_, src) ← pldm__msgbuf_ro_invalidate src;
    '(_, dst) ← pldm__msgbuf_rw_invalidate dst;
    mret (- EOVERFLOW, dst, src)
  else if (size <=? remaining src) && (size <=? remaining dst) then
    '(c, src) ← msgbuf_advance size src;
    raw ← mem_read (obj src) c size;
    '(_, dst) ← msgbuf_store raw dst;
    mret (0, dst, src)
  else
    '(_, src) ← msgbuf_shortfall size src;
    '(_, dst) ← msgbuf_shortfall size dst;
    mret (- EOVERFLOW, dst, src).

(** The body the two string copies share, over the span function they call. *)
Definition msgbuf_copy_string
    (span : option ptr -> option Z -> B (Z * option ptr * option Z))
    (dst src : msgbuf) : outcome (Z * msgbuf * msgbuf) :=
  '((rc, p, len), src) ← span (Some None) (Some 0) src;
  if rc <? 0 then mret (rc, dst, src)
  else
    match p, len with
    | Some (Some s), Some len =>
        '(rc, dst) ← pldm__msgbuf_insert_array_void len s len dst;
        mret (rc, dst, src)
    | _, _ => Fault FMemory
    end.

Definition pldm_msgbuf_copy_string_ascii :=
  msgbuf_copy_string pldm_msgbuf_ro_span_string_ascii.
Definition pldm_msgbuf_copy_string_utf16 :=
  msgbuf_copy_string pldm_msgbuf_ro_span_string_utf16.

(** ** Variable fields delimited by two cursor positions *)

Definition cursor_ptr (b : msgbuf) : ptr := ptr_at (obj b) <$> cursor b.

Definition pldm__msgbuf_field_begin (b : msgbuf) : Z * variable_field :=
  if 0 <=? remaining b then (0, VarField (cursor_ptr b) (remaining b))
  else (- EOVERFLOW, VarField None 0).

Definition pldm__msgbuf_field_end (b : msgbuf) (field : variable_field) : Z * variable_field :=
  match vf_ptr field with
  | None => (- EINVAL, field)
  | Some p =>
    if INTMAX_MAX <? vf_length field then (- EINVAL, field)
    else if 0 <=? remaining b then
      if vf_length field <? remaining b then (- EINVAL, field)
      else if negb (match cursor b with
                    | Some c => addr p + (vf_length field - remaining b) =? addr (obj b) + c
                    | None => false
                    end)
      then (- EINVAL, field)
      else (0, VarField (Some p) (vf_length field - remaining b))
    else (- EOVERFLOW, field)
  end.

(** The ro/rw variants the C macros select between. *)
Create HintDb msgbuf.
#[export] Hint Unfold
  pldm__msgbuf_rw_invalidate pldm__msgbuf_ro_invalidate
  pldm_msgbuf_rw_init_errno pldm_msgbuf_ro_init_errno
  pldm_msgbuf_rw_discard pldm_msgbuf_ro_discard
  pldm_msgbuf_extract_array_char pldm_msgbuf_extract_array_uint8
  pldm_msgbuf_insert_array_char pldm_msgbuf_insert_array_uint8
  pldm_msgbuf_ro_span_required pldm_msgbuf_rw_span_required
  pldm_msgbuf_ro_span_string_ascii pldm_msgbuf_rw_span_string_ascii
  pldm_msgbuf_ro_span_string_utf16 pldm_msgbuf_rw_span_string_utf16
  pldm_msgbuf_ro_span_remaining pldm_msgbuf_rw_span_remaining
  pldm_msgbuf_ro_span_until pldm_msgbuf_rw_span_until
  pldm__msgbuf_extract_uint8 pldm__msgbuf_extract_int8
  pldm__msgbuf_extract_uint16 pldm__msgbuf_extract_int16
  pldm__msgbuf_extract_uint32 pldm__msgbuf_extract_int32
  pldm__msgbuf_extract_real32 pldm__msgbuf_extract_uint64 pldm__msgbuf_extract_int64
  pldm_msgbuf_insert_uint64 pldm_msgbuf_insert_real32 pldm_msgbuf_insert_uint32
  pldm_msgbuf_insert_uint16 pldm_msgbuf_insert_uint8 pldm_msgbuf_insert_int32
  pldm_msgbuf_insert_int16 pldm_msgbuf_insert_int8 : msgbuf.

(** ** The invariant of every buffer

    [remaining] is an intmax_t; while it is not negative the cursor is set and
    that many bytes are accessible behind it. *)

Record mb_inv (b : msgbuf) : Prop := {
  mb_inv_min : INTMAX_MIN <= remaining b;
  mb_inv_max : remaining b <= INTMAX_MAX;
  mb_inv_cursor : 0 <= remaining b ->
    exists c, cursor b = Some c /\ 0 <= c /\ c + remaining b <= mem_size (obj b)
}.

(** What an operation that returned [rc] does to the overflow state: the buffer
    is overflowed afterwards iff it was before or the operation says so. *)
Definition overflow_step (rc : Z) (b b' : msgbuf) : Prop :=
  remaining b' < 0 <-> remaining b < 0 \/ rc = - EOVERFLOW.

(** The combined postcondition of an operation with result code [code a]. *)
Definition op_post {A} (code : A -> Z) (b : msgbuf) (a : A) (b' : msgbuf) : Prop :=
  mb_inv b' /\ mem_size (obj b') = mem_size (obj b) /\ overflow_step (code a) b b'.

Lemma set_invalid_post b : mb_inv b -> wp pldm__msgbuf_set_invalid b (op_post id b).
Proof.
  intros [? ? ?]. split_and!; simpl; [constructor; simpl; lia | done | ].
  unfold overflow_step, id; simpl. lia.
Qed.

Lemma shortfall_post n b :
  mb_inv b -> remaining b < n -> 0 <= n <= INTMAX_MAX ->
  wp (msgbuf_shortfall n) b (op_post id b).
Proof.
  intros Hb Hlt Hn. unfold wp, msgbuf_shortfall. cmp_case.
  - destruct Hb. split_and!; simpl; [constructor; simpl; lia | done |].
    unfold overflow_step, id; simpl. lia.
  - by apply set_invalid_post.
Qed.

(** The successful branch: the bytes are there, and the rest of them still is. *)
Lemma advance_post n b :
  mb_inv b -> 0 <= n <= remaining b ->
  wp (msgbuf_advance n) b (fun c b' =>
    mb_inv b' /\ obj b' = obj b /\ remaining b' = remaining b - n /\
    0 <= c /\ c + n <= mem_size (obj b) /\ cursor b = Some c).
Proof.
  intros [? ? Hc] Hn. destruct Hc as (c & Hc & ? & ?); [lia|].
  unfold wp, msgbuf_advance. rewrite Hc. simpl.
  split_and!; simpl; try done; try lia. constructor; simpl; [lia..|].
  intros. exists (c + n). split_and!; [done|lia..].
Qed.

(** Open the successful branch ([bytes_advance]) or the failing one
    ([bytes_short]) of an operation whose guard has been decided. *)
Ltac bytes_advance n b c b1 :=
  let E := fresh in
  destruct (wp_elim _ _ _ (advance_post n b ltac:(done) ltac:(lia)))
    as (c & b1 & E & ? & ? & ? & ? & ? & ?);
  rewrite E; clear E; cbn [mbind outcome_bind].

Ltac bytes_short lem :=
  let E := fresh in let rc := fresh "rc" in let b1 := fresh "b1" in
  destruct (wp_elim _ _ _ lem) as (rc & b1 & E & ? & ? & ?);
  rewrite E; clear E; cbn; split_and!; done.

Ltac fetch m c n l :=
  let E := fresh in
  destruct (mem_read_in m c n) as (l & E & ? & ?); [lia|lia|try congruence; lia|];
  rewrite E; clear E; cbn [mbind outcome_bind].

Lemma step_ok (b b' : msgbuf) (rc : Z) :
  0 <= remaining b -> 0 <= remaining b' -> rc <> - EOVERFLOW -> overflow_step rc b b'.
Proof. unfold overflow_step. lia. Qed.

Lemma extract_post n conv dst b :
  mb_inv b -> 0 <= n <= INTMAX_MAX ->
  wp (msgbuf_extract n conv dst) b (op_post fst b).
Proof.
  intros Hb Hn. unfold wp, msgbuf_extract. cmp_case.
  - bytes_advance n b c b1. fetch (obj b1) c n raw. cbn.
    split_and!; [done|congruence|apply step_ok; cbn; lia].
  - bytes_short (shortfall_post n b Hb ltac:(lia) ltac:(lia)).
Qed.

Lemma extract_array_post count dst dst_count b :
  mb_inv b -> 0 <= count -> dst_count <= Z.of_nat (length dst) ->
  wp (pldm__msgbuf_extract_array_void count dst dst_count) b (op_post fst b).
Proof.
  intros Hb Hn Hd. unfold wp, pldm__msgbuf_extract_array_void. cmp_case.
  { split_and!; cbn; [done|done|unfold overflow_step; cbn; lia]. }
  cmp_case. { split_and!; cbn; [done|done|unfold overflow_step; cbn; lia]. }
  cmp_case. { autounfold with msgbuf. bytes_short (set_invalid_post b Hb). }
  cmp_case.
  - bytes_advance count b c b1. fetch (obj b1) c count raw. unfold array_store.
    replace (length raw <=? length dst)%nat with true by (symmetry; apply Nat.leb_le; lia).
    cbn. split_and!; [done|congruence|apply step_ok; cbn; lia].
  - bytes_short (shortfall_post count b Hb ltac:(lia) ltac:(lia)).
Qed.

Lemma store_post val b :
  mb_inv b -> Z.of_nat (length val) <= remaining b ->
  wp (msgbuf_store val) b (op_post id b).
Proof.
  intros Hb Hn. unfold wp, msgbuf_store. bytes_advance (Z.of_nat (length val)) b c b1.
  destruct (mem_write_in (obj b1) c val) as (m' & E & Hs & _); [lia|congruence|].
  rewrite E; cbn. split_and!; cbn; [|congruence|apply step_ok; cbn; lia].
  match goal with H : mb_inv b1 |- _ => destruct H as [? ? Hc] end.
  constructor; cbn; [done..|]. rewrite Hs. exact Hc.
Qed.

Lemma insert_post n src b :
  mb_inv b -> (n <= 8)%nat -> wp (msgbuf_insert n src) b (op_post id b).
Proof.
  intros Hb Hn. unfold msgbuf_insert. unfold wp. cmp_case.
  - apply store_post; [done|]. rewrite le_enc_length. lia.
  - apply shortfall_post; [done|lia..].
Qed.

Lemma insert_array_post count src src_count b :
  mb_inv b -> 0 <= count -> src_count <= mem_size src ->
  wp (pldm__msgbuf_insert_array_void count src src_count) b (op_post id b).
Proof.
  intros Hb Hn Hd. unfold wp, pldm__msgbuf_insert_array_void. cmp_case.
  { split_and!; cbn; [done|done|unfold overflow_step, id; cbn; lia]. }
  cmp_case. { split_and!; cbn; [done|done|unfold overflow_step, id; cbn; lia]. }
  cmp_case. { by apply set_invalid_post. }
  cmp_case.
  - fetch src 0 count raw. apply store_post; [done|lia].
  - apply shortfall_post; [done|lia..].
Qed.

Lemma span_required_post required out b :
  mb_inv b -> 0 <= required ->
  wp (pldm__msgbuf_span_required required out) b (op_post fst b).
Proof.
  intros Hb Hn. unfold wp, pldm__msgbuf_span_required. cmp_case.
  { bytes_short (set_invalid_post b Hb). }
  cmp_case.
  - bytes_advance required b c b1. cbn.
    split_and!; [done|congruence|apply step_ok; cbn; lia].
  - bytes_short (shortfall_post required b Hb ltac:(lia) ltac:(lia)).
Qed.

(** *** Strings *)

Lemma strnlen_le l : (strnlen l <= length l)%nat.
Proof. induction l as [|c l IH]; simpl; [lia|]. case_match; simpl; lia. Qed.

(** What strnlen measures: the bytes before [strnlen l] are not NUL, and the
    byte there, if it exists, is. *)
Lemma strnlen_spec l :
  Forall (fun c => c <> 0) (take (strnlen l) l) /\
  ((strnlen l < length l)%nat -> l !! strnlen l = Some 0).
Proof.
  induction l as [|c l [IH1 IH2]]; simpl; [split; [constructor|lia]|].
  destruct (Z.eqb_spec c 0); simpl; [by subst|].
  split; [by constructor|]. intros. apply IH2. lia.
Qed.

Lemma span_string_ascii_post out len b :
  mb_inv b -> wp (pldm__msgbuf_span_string_ascii out len) b (op_post (fun a => a.1.1) b).
Proof.
  intros Hb. unfold wp, pldm__msgbuf_span_string_ascii. cmp_case.
  { bytes_short (set_invalid_post b Hb). }
  destruct (mb_inv_cursor b Hb) as (c & Hc & ? & ?); [done|]. rewrite Hc.
  fetch (obj b) c (remaining b) hay. pose proof (strnlen_le hay). cmp_case.
  { bytes_short (set_invalid_post b Hb). }
  cmp_case; [|lia]. bytes_advance (Z.of_nat (strnlen hay) + 1) b c' b1. cbn.
  split_and!; [done|congruence|apply step_ok; cbn; lia].
Qed.

(** The first NUL code unit of a UTF-16 string: an aligned pair of NUL bytes. *)
Fixpoint utf16_nul (l : list Z) : option nat :=
  match l with
  | x :: y :: t =>
      if (x =? 0) && (y =? 0) then Some O else (fun i => S (S i)) <$> utf16_nul t
  | _ => None
  end.

(** How an unaligned search relates to the aligned one: nothing found, found at
    an aligned place, or found unaligned and the search goes on just after. *)
Lemma memmem_utf16 l :
  match memmem_nul16 l with
  | None => utf16_nul l = None
  | Some i =>
      (i + 2 <= length l)%nat /\
      if Nat.even i then utf16_nul l = Some i
      else utf16_nul l = Nat.add (S i) <$> utf16_nul (drop (S i) l)
  end.
Proof.
  induction l as [|x|x y t IH] using list_ind2; [done|done|].
  cbn [memmem_nul16 utf16_nul]. destruct ((x =? 0) && (y =? 0)); [cbn; split; [lia|done]|].
  destruct t as [|z t]; [done|]. destruct ((y =? 0) && (z =? 0)) eqn:Eyz.
  { cbn [fmap option_fmap option_map]. split; [simpl; lia|]. cbn [Nat.even drop].
    destruct (utf16_nul (z :: t)); done. }
  destruct (memmem_nul16 (z :: t)) as [i|] eqn:Em; cbn [fmap option_fmap option_map];
    [|by rewrite IH].
  destruct IH as [Hi IH]. split; [simpl in *; lia|]. cbn [Nat.even].
  destruct (Nat.even i); rewrite IH; [done|].
  change (drop (S (S (S i))) (x :: y :: z :: t)) with (drop (S i) (z :: t)).
  by destruct (utf16_nul (drop (S i) (z :: t))).
Qed.

Lemma parity_eq a b : (Z.land a 1 =? Z.land b 1) = Z.even (b - a).
Proof.
  change 1 with (Z.ones 1). rewrite !Z.land_ones by lia.
  rewrite !Zmod_even, Z.even_sub. by destruct (Z.even a), (Z.even b).
Qed.

Lemma even_of_nat n : Z.even (Z.of_nat n) = Nat.even n.
Proof.
  induction n as [|n IH]; [done|].
  rewrite Nat2Z.inj_succ, Z.even_succ, <- Z.negb_even, IH, Nat.even_succ, <- Nat.negb_even.
  done.
Qed.

(** The scan loop from an aligned restart point [2 * k] bytes into the string. *)
Lemma span_utf16_scan_from fuel m c r k e :
  0 <= c -> 0 <= r -> c + r <= mem_size m ->
  (2 * k <= Z.to_nat r)%nat -> (Z.to_nat r < fuel + 2 * k)%nat ->
  (if negb (e =? c) then e + 1 else e) = c + Z.of_nat (2 * k) ->
  let s := slice (Z.to_nat c) (Z.to_nat r) (bytes m) in
  span_utf16_scan fuel m c r e
  = Ok ((fun i => c + Z.of_nat (2 * k + i)) <$> utf16_nul (drop (2 * k) s)).
Proof.
  intros Hc Hr Hsz. revert k e. induction fuel as [|fuel IH]; intros k e Hk Hf He s; [lia|].
  cbn [span_utf16_scan]. rewrite He.
  rewrite (mem_read_ok m _ _ (drop (2 * k) s)); [|lia|lia|lia|].
  2: { unfold s. rewrite drop_slice. f_equal; lia. }
  cbn [mbind outcome_bind]. pose proof (memmem_utf16 (drop (2 * k) s)) as Hm.
  destruct (memmem_nul16 _) as [i|]; [|by rewrite Hm]. destruct Hm as [Hlen Hm].
  assert (length (drop (2 * k) s) <= Z.to_nat r - 2 * k)%nat.
  { unfold s. rewrite drop_slice, length_slice. lia. }
  rewrite parity_eq.
  replace (addr m + c - (addr m + (c + Z.of_nat (2 * k) + Z.of_nat i)))
    with (- Z.of_nat (2 * k + i)) by lia.
  rewrite Z.even_opp, even_of_nat, Nat.even_add, Nat.even_even. cbn [Bool.eqb].
  destruct (Nat.even i) eqn:Ei; cbn [Bool.eqb negb]; rewrite Hm.
  { cbn. do 2 f_equal. lia. }
  apply not_true_iff_false in Ei. assert (exists j, S i = 2 * j)%nat as [j Hj].
  { rewrite Nat.even_spec in Ei.
    destruct (Nat.Even_or_Odd i) as [?|[j ?]]; [done|]. exists (S j). lia. }
  rewrite (IH (k + j)%nat); [|lia|lia|].
  - fold s. rewrite drop_drop. replace (2 * k + S i)%nat with (2 * (k + j))%nat by lia.
    generalize (utf16_nul (drop (2 * (k + j)) s)). intros [n|]; [|done].
    cbn [fmap option_fmap option_map].
    replace (2 * k + (S i + n))%nat with (2 * (k + j) + n)%nat by lia. done.
  - destruct (Z.eqb_spec (c + Z.of_nat (2 * k) + Z.of_nat i) c); cbn [negb]; lia.
Qed.

(** The whole scan: enough fuel is one more than the bytes left. *)
Lemma span_utf16_scan_spec m c r :
  0 <= c -> 0 <= r -> c + r <= mem_size m ->
  span_utf16_scan (S (Z.to_nat r)) m c r c
  = Ok ((fun i => c + Z.of_nat i) <$> utf16_nul (slice (Z.to_nat c) (Z.to_nat r) (bytes m))).
Proof.
  intros. rewrite (span_utf16_scan_from _ _ _ _ 0); [done|lia..|].
  rewrite Z.eqb_refl. cbn. lia.
Qed.

Lemma utf16_nul_bound l i : utf16_nul l = Some i -> (i + 2 <= length l)%nat.
Proof.
  revert i. induction l as [|x|x y t IH] using list_ind2; intros i; [done|done|].
  cbn [utf16_nul length]. case_match; [intros [= <-]; lia|].
  destruct (utf16_nul t) as [j|]; [|done]. intros [= <-]. specialize (IH j eq_refl). lia.
Qed.

Lemma span_string_utf16_post out len b :
  mb_inv b -> wp (pldm__msgbuf_span_string_utf16 out len) b (op_post (fun a => a.1.1) b).
Proof.
  intros Hb. unfold wp, pldm__msgbuf_span_string_utf16. cmp_case.
  { bytes_short (set_invalid_post b Hb). }
  destruct (mb_inv_cursor b Hb) as (c & Hc & ? & ?); [done|]. rewrite Hc.
  rewrite span_utf16_scan_spec by lia. cbn [mbind outcome_bind].
  destruct (utf16_nul _) as [i|] eqn:Ei; cbn [fmap option_fmap option_map];
    [|bytes_short (set_invalid_post b Hb)].
  apply utf16_nul_bound in Ei. rewrite length_slice in Ei. cmp_case; [|lia].
  bytes_advance (c + Z.of_nat i + 2 - c) b c' b1. cbn.
  split_and!; [done|congruence|apply step_ok; cbn; lia].
Qed.

Lemma span_remaining_post out len b :
  mb_inv b -> wp (pldm__msgbuf_span_remaining out len) b (op_post (fun a => a.1.1) b).
Proof.
  intros Hb. unfold wp, pldm__msgbuf_span_remaining. cmp_case.
  { split_and!; cbn; [done|done|unfold overflow_step; lia]. }
  bytes_advance (remaining b) b c b1. cbn.
  split_and!; [done|congruence|apply step_ok; cbn; lia].
Qed.

Lemma span_until_post trailer out len b :
  mb_inv b -> 0 <= trailer ->
  wp (pldm__msgbuf_span_until trailer out len) b (op_post (fun a => a.1.1) b).
Proof.
  intros Hb Ht. unfold wp, pldm__msgbuf_span_until. cmp_case.
  { bytes_short (set_invalid_post b Hb). }
  cmp_case.
  { bytes_advance (remaining b - trailer) b c b1. cbn.
    split_and!; [done|congruence|apply step_ok; cbn; lia]. }
  cmp_case; [|bytes_short (set_invalid_post b Hb)].
  destruct Hb. split_and!; cbn; [constructor; cbn; lia|done|unfold overflow_step; cbn; lia].
Qed.

Lemma peek_remaining_post out len b :
  mb_inv b -> wp (pldm_msgbuf_peek_remaining out len) b (op_post (fun a => a.1.1) b).
Proof.
  intros Hb. unfold wp, pldm_msgbuf_peek_remaining. cmp_case.
  { split_and!; cbn; [done|done|unfold overflow_step; lia]. }
  destruct (mb_inv_cursor b Hb) as (c & Hc & ? & ?); [done|]. rewrite Hc. cbn.
  split_and!; [done|done|apply step_ok; cbn; lia].
Qed.

Lemma skip_post count b :
  mb_inv b -> 0 <= count -> wp (pldm_msgbuf_skip count) b (op_post id b).
Proof.
  intros Hb Hn. unfold wp, pldm_msgbuf_skip. cmp_case; [by apply set_invalid_post|].
  cmp_case; [|apply shortfall_post; [done|lia..]].
  bytes_advance count b c b1. cbn. split_and!; [done|congruence|apply step_ok; cbn; lia].
Qed.

Lemma to_size_post extract dst b :
  (forall v, wp (extract v) b (op_post fst b)) -> wp (msgbuf_to_size extract dst) b (op_post fst b).
Proof.
  intros H. unfold msgbuf_to_size. apply wp_bind. eapply wp_mono; [apply H|].
  intros [rc v] b' (? & ? & ?). cmp_case; apply wp_ret; split_and!; cbn in *; try done.
  subst; done.
Qed.

(** ** Stepping through a codec

    [mb_rd m len c b]: [b] reads the first [len] bytes of [m] and the accesses so
    far asked for [c] bytes (more than [len] once the buffer overflowed). *)

Record mb_rd (m : cmem) (len c : Z) (b : msgbuf) : Prop := {
  rd_obj : obj b = m;
  rd_remaining : remaining b = len - c;
  rd_pos : 0 <= c;
  rd_len : 0 <= len <= mem_size m;
  rd_max : len <= INTMAX_MAX;
  rd_cursor : exists k, cursor b = Some k /\ (c <= len -> k = c)
}.

(** [mb_wr m len out b]: [b] writes to the first [len] bytes of [m] and was asked
    to write [out] so far. *)
Record mb_wr (m : cmem) (len : Z) (out : list Z) (b : msgbuf) : Prop := {
  wr_addr : addr (obj b) = addr m;
  wr_size : mem_size (obj b) = mem_size m;
  wr_remaining : remaining b = len - Z.of_nat (length out);
  wr_len : 0 <= len <= mem_size m;
  wr_max : len <= INTMAX_MAX;
  wr_cursor : exists k, cursor b = Some k /\
    (Z.of_nat (length out) <= len ->
     k = Z.of_nat (length out) /\ bytes (obj b) = out ++ drop (length out) (bytes m))
}.

(** A buffer that was completed or discarded. *)
Definition mb_done (b : msgbuf) : Prop := cursor b = None /\ remaining b = INTMAX_MIN.

Definition wrote (m : cmem) (out : list Z) : cmem :=
  CMem (addr m) (out ++ drop (length out) (bytes m)).

Section stepping.
Context (m : cmem) (len : Z).

Lemma wp_init_rd minsize b Q :
  0 <= addr m -> 0 <= len <= mem_size m -> len <= INTMAX_MAX ->
  addr m + len <= UINTPTR_MAX ->
  (forall b', obj b' = m ->
     (if minsize <=? len then mb_rd m len 0 b' else mb_done b') ->
     Q (if minsize <=? len then 0 else - EOVERFLOW) b') ->
  wp (pldm__msgbuf_init_errno minsize m len) b Q.
Proof.
  intros ???? HQ. unfold wp, pldm__msgbuf_init_errno.
  destruct (Z.leb_spec minsize len).
  - do 3 (cmp_case; [lia|]). apply HQ; [done|].
    constructor; cbn; try lia; [done|]. exists 0. done.
  - cmp_case; [|lia]. by apply HQ.
Qed.

Lemma wp_init_wr minsize b Q :
  0 <= addr m -> 0 <= len <= mem_size m -> len <= INTMAX_MAX ->
  addr m + len <= UINTPTR_MAX ->
  (forall b', obj b' = m ->
     (if minsize <=? len then mb_wr m len [] b' else mb_done b') ->
     Q (if minsize <=? len then 0 else - EOVERFLOW) b') ->
  wp (pldm__msgbuf_init_errno minsize m len) b Q.
Proof.
  intros ???? HQ. apply wp_init_rd; [done..|]. intros b' Hobj Hb. apply HQ; [done|].
  destruct (minsize <=? len); [|done]. destruct Hb as [? Hr ? ? ? (k & ? & Hk)].
  constructor; cbn [length Z.of_nat]; try congruence; try lia.
  exists k. split; [done|]. intros. rewrite Hk by lia. cbn. by subst.
Qed.

Lemma wp_extract_rd n conv dst c b Q :
  mb_rd m len c b -> 0 <= n -> c + n <= INTMAX_MAX ->
  (forall b', mb_rd m len (c + n) b' ->
     Q (if c + n <=? len then (0, conv (slice (Z.to_nat c) (Z.to_nat n) (bytes m)))
        else (- EOVERFLOW, dst)) b') ->
  wp (msgbuf_extract n conv dst) b Q.
Proof.
  intros [Ho Hr ? ? ? (k & Hk & Hkc)] Hn Hc HQ. unfold wp, msgbuf_extract. rewrite Hr.
  destruct (Z.leb_spec (c + n) len); cmp_case; try lia.
  - unfold msgbuf_advance. rewrite Hk. cbn [mbind outcome_bind obj].
    rewrite Hkc, Ho by lia.
    rewrite (mem_read_ok m c n (slice (Z.to_nat c) (Z.to_nat n) (bytes m))) by (done || lia).
    apply HQ.
    constructor; cbn; try lia; [done|]. exists (c + n). done.
  - unfold msgbuf_shortfall. cmp_case; [|lia]. apply HQ.
    constructor; cbn; try lia; [done|]. exists k. split; [done|lia].
Qed.

Lemma wr_step out new b :
  mb_wr m len out b -> Z.of_nat (length out + length new) <= len ->
  wp (msgbuf_store new) b (fun rc b' => rc = 0 /\ mb_wr m len (out ++ new) b').
Proof.
  intros [? Hs Hr ? ? (k & Hk & Hkc)] Hn. destruct Hkc as [-> Hb]; [lia|].
  unfold wp, msgbuf_store, msgbuf_advance. rewrite Hk. cbn [mbind outcome_bind obj].
  rewrite mem_write_ok by lia. cbn [mbind outcome_bind]. cbn. split; [done|].
  rewrite Hb, Nat2Z.id. unfold mem_size in *.
  assert (length (bytes (obj b)) = length (bytes m)) as Hlen by lia.
  constructor; cbn [obj remaining cursor addr bytes]; try done; try lia.
  - unfold mem_size; cbn. rewrite splice_length; [by rewrite <- Hb|].
    rewrite <- Hb, Hlen. lia.
  - rewrite Hr, length_app. lia.
  - eexists; split; [done|]. intros. rewrite length_app. split; [lia|].
    rewrite splice_append by lia. by rewrite length_app.
Qed.

Lemma wr_short out new n b :
  mb_wr m len out b -> Z.of_nat (length new) = n ->
  len < Z.of_nat (length out) + n -> Z.of_nat (length out) + n <= INTMAX_MAX ->
  wp (msgbuf_shortfall n) b (fun rc b' => rc = - EOVERFLOW /\ mb_wr m len (out ++ new) b').
Proof.
  intros [? ? Hr ? ? (k & Hk & _)] Hn Hlt Hmax. unfold wp, msgbuf_shortfall.
  cmp_case; [|lia]. split; [done|].
  constructor; cbn; try done; try (rewrite length_app; lia).
  exists k. rewrite length_app. split; [done|lia].
Qed.

Lemma wp_insert_wr n v out b Q :
  mb_wr m len out b -> Z.of_nat (length out + n) <= INTMAX_MAX ->
  (forall b', mb_wr m len (out ++ le_enc n v) b' ->
     Q (if Z.of_nat (length out + n) <=? len then 0 else - EOVERFLOW) b') ->
  wp (msgbuf_insert n v) b Q.
Proof.
  intros Hb Hmax HQ. pose proof (wr_remaining _ _ _ _ Hb) as Hr.
  pose proof (le_enc_length n v). unfold msgbuf_insert. unfold wp.
  destruct (Z.leb_spec (Z.of_nat (length out + n)) len); cmp_case; try lia.
  - eapply (wp_mono _ _ _ _ (wr_step out (le_enc n v) b Hb ltac:(lia))).
    intros rc b' [-> ?]. by apply HQ.
  - eapply (wp_mono _ _ _ _ (wr_short out (le_enc n v) (Z.of_nat n) b Hb
             ltac:(lia) ltac:(lia) ltac:(lia))).
    intros rc b' [-> ?]. by apply HQ.
Qed.

Lemma wp_insert_array_wr count src src_count out b Q :
  mb_wr m len out b -> 0 <= count <= src_count -> count <= mem_size src ->
  Z.of_nat (length out) + count <= INTMAX_MAX ->
  (forall b', mb_wr m len (out ++ slice 0 (Z.to_nat count) (bytes src)) b' ->
     Q (if (count =? 0) || (Z.of_nat (length out) + count <=? len) then 0 else - EOVERFLOW) b') ->
  wp (pldm__msgbuf_insert_array_void count src src_count) b Q.
Proof.
  intros Hb Hc Hs Hmax HQ. pose proof (wr_remaining _ _ _ _ Hb) as Hr.
  assert (length (slice 0 (Z.to_nat count) (bytes src)) = Z.to_nat count) as Hl.
  { unfold mem_size in Hs. rewrite length_slice. lia. }
  unfold wp, pldm__msgbuf_insert_array_void. cmp_case; [lia|].
  cmp_case.
  { subst count. change (Z.to_nat 0) with 0%nat in *.
    apply HQ. change (slice 0 0 (bytes src)) with (@nil Z). by rewrite app_nil_r. }
  cbn [orb] in HQ. cmp_case; [lia|]. cmp_case.
  - rewrite (mem_read_ok src 0 count (slice 0 (Z.to_nat count) (bytes src))) by (done || lia).
    cbn [mbind outcome_bind].
    eapply (wp_mono _ _ _ _ (wr_step out (slice 0 (Z.to_nat count) (bytes src)) b Hb
             ltac:(lia))). intros rc b' [-> ?].
    replace (Z.of_nat (length out) + count <=? len) with true in HQ by lia. by apply HQ.
  - eapply (wp_mono _ _ _ _ (wr_short out (slice 0 (Z.to_nat count) (bytes src)) count b Hb
             ltac:(lia) ltac:(lia) ltac:(lia))).
    intros rc b' [-> ?].
    replace (Z.of_nat (length out) + count <=? len) with false in HQ by lia. by apply HQ.
Qed.

Lemma wp_extract_array_rd count dst dst_count c b Q :
  mb_rd m len c b -> 0 <= count -> dst_count <= Z.of_nat (length dst) ->
  c + count <= INTMAX_MAX ->
  (forall b', (if dst_count <? count then mb_rd m len c b' else mb_rd m len (c + count) b') ->
     Q (if dst_count <? count then (- EINVAL, dst)
        else if count =? 0 then (0, dst)
        else if c + count <=? len
        then (0, splice 0 (slice (Z.to_nat c) (Z.to_nat count) (bytes m)) dst)
        else (- EOVERFLOW, dst)) b') ->
  wp (pldm__msgbuf_extract_array_void count dst dst_count) b Q.
Proof.
  intros Hb Hn Hd Hc HQ. pose proof (rd_pos _ _ _ _ Hb).
  unfold wp, pldm__msgbuf_extract_array_void. cmp_case; [by apply HQ|]. cmp_case.
  { subst. apply HQ. by rewrite Z.add_0_r. }
  cmp_case; [lia|]. destruct Hb as [Ho Hr ? ? ? (k & Hk & Hkc)]. rewrite Hr.
  destruct (Z.leb_spec (c + count) len); cmp_case; try lia.
  - unfold msgbuf_advance. rewrite Hk. cbn [mbind outcome_bind obj]. rewrite Hkc, Ho by lia.
    rewrite (mem_read_ok m c count (slice (Z.to_nat c) (Z.to_nat count) (bytes m))) by (done || lia).
    cbn [mbind outcome_bind]. unfold array_store.
    rewrite (proj2 (Nat.leb_le _ _)) by (rewrite length_slice; lia). apply HQ.
    constructor; cbn; try lia; [done|]. exists (c + count). done.
  - unfold msgbuf_shortfall. cmp_case; [|lia]. apply HQ.
    constructor; cbn; try lia; [done|]. exists k. split; [done|lia].
Qed.

Lemma wp_span_required_rd required out c b Q :
  mb_rd m len c b -> 0 <= required -> c + required <= INTMAX_MAX ->
  (forall b', mb_rd m len (c + required) b' ->
     Q (if c + required <=? len then (0, set_out out (Some (ptr_at m c)))
        else (- EOVERFLOW, out)) b') ->
  wp (pldm__msgbuf_span_required required out) b Q.
Proof.
  intros [Ho Hr ? ? ? (k & Hk & Hkc)] Hn Hc HQ. unfold wp, pldm__msgbuf_span_required.
  cmp_case; [lia|]. rewrite Hr.
  destruct (Z.leb_spec (c + required) len); cmp_case; try lia.
  - unfold msgbuf_advance. rewrite Hk. cbn [mbind outcome_bind obj].
    rewrite Hkc, Ho by lia. apply HQ.
    constructor; cbn; try lia; [done|]. exists (c + required). done.
  - unfold msgbuf_shortfall. cmp_case; [|lia]. apply HQ.
    constructor; cbn; try lia; [done|]. exists k. split; [done|lia].
Qed.
End stepping.

(** *** Finishing *)

Lemma wp_discard e b Q :
  (forall b', mb_done b' -> obj b' = obj b -> Q e b') -> wp (pldm__msgbuf_discard e) b Q.
Proof. intros HQ. unfold wp; cbn. by apply HQ. Qed.

Lemma wp_complete_rd m len c b Q :
  mb_rd m len c b ->
  (forall b', mb_done b' -> obj b' = m -> Q (if c <=? len then 0 else - EOVERFLOW) b') ->
  wp pldm_msgbuf_ro_complete b Q.
Proof.
  intros [? Hr ? ? ? ?] HQ.
  change (Q (pldm__msgbuf_validate (remaining b)) (MsgBuf (obj b) None INTMAX_MIN)).
  unfold pldm__msgbuf_validate. rewrite Hr.
  destruct (Z.leb_spec c len); cmp_case; try lia; by apply HQ.
Qed.

Lemma wp_complete_consumed_rd m len c b Q :
  mb_rd m len c b ->
  (forall b', mb_done b' -> obj b' = m ->
     Q (if c =? len then 0 else if c <? len then - EBADMSG else - EOVERFLOW) b') ->
  wp pldm_msgbuf_ro_complete_consumed b Q.
Proof.
  intros [? Hr ? ? ? ?] HQ.
  change (Q (pldm__msgbuf_consumed (remaining b)) (MsgBuf (obj b) None INTMAX_MIN)).
  unfold pldm__msgbuf_consumed. rewrite Hr.
  destruct (Z.eqb_spec c len), (Z.ltb_spec c len); try lia; repeat (cmp_case; try lia);
    by apply HQ.
Qed.

Lemma wp_complete_used_wr m len out used b Q :
  mb_wr m len out b ->
  (forall b', mb_done b' -> same_place m (obj b') ->
     (if Z.of_nat (length out) <=? len then obj b' = wrote m out else True) ->
     Q (if Z.of_nat (length out) <=? len then (0, Z.of_nat (length out))
        else (- EOVERFLOW, used)) b') ->
  wp (pldm_msgbuf_complete_used len used) b Q.
Proof.
  intros [Ha ? Hr ? ? (k & ? & Hk)] HQ. unfold wp, pldm_msgbuf_complete_used. cbn [remaining obj].
  rewrite Hr. unfold pldm__msgbuf_validate.
  destruct (Z.leb_spec (Z.of_nat (length out)) len).
  - replace (len - Z.of_nat (length out) <? 0) with false by lia. cbn.
    cmp_case; [lia|]. cbn. replace (len - (len - _)) with (Z.of_nat (length out)) by lia.
    apply HQ; [done|done|]. destruct Hk as [_ Hk]; [done|]. unfold wrote. rewrite <- Ha, <- Hk.
    cbn. by destruct (obj b).
  - replace (len - Z.of_nat (length out) <? 0) with true by lia. cbn. by apply HQ.
Qed.

Lemma msgbuf_scope_wp {A} m (body : B A) (P : A -> cmem -> Prop) :
  wp body (pldm__msgbuf_define m) (fun a b => mb_done b /\ P a (obj b)) ->
  exists a m', msgbuf_scope m body = Ok (a, m') /\ P a m'.
Proof.
  intros Hwp. destruct (wp_elim _ _ _ Hwp) as (a & b & E & [Hc Hr] & HP).
  exists a, (obj b). split; [|done]. unfold msgbuf_scope. rewrite E. cbn.
  unfold pldm__msgbuf_cleanup. by rewrite Hc, Hr.
Qed.

(** ** Sessions

    What a codec does with a buffer between its initialisation and its
    completion is a sequence of these calls.  Result values are dropped: the
    codecs mostly ignore the intermediate return codes, and the theorems say why
    they may. *)

Inductive mb_op :=
  | Extract_uint8 | Extract_int8 | Extract_uint16 | Extract_int16
  | Extract_uint32 | Extract_int32 | Extract_real32
  | Extract_uint8_to_size | Extract_uint16_to_size | Extract_uint32_to_size
  | Extract_array (count : Z) (dst : list Z) (dst_count : Z)
  | Insert_uint8 (v : Z) | Insert_int8 (v : Z) | Insert_uint16 (v : Z) | Insert_int16 (v : Z)
  | Insert_uint32 (v : Z) | Insert_int32 (v : Z) | Insert_real32 (v : Z) | Insert_uint64 (v : Z)
  | Insert_array (count : Z) (src : cmem) (src_count : Z)
  | Span_required (required : Z) | Span_string_ascii | Span_string_utf16
  | Span_remaining | Span_until (trailer : Z) | Peek_remaining | Skip (count : Z).

(** What the C types and the callers' contract impose on the arguments: counts are
    size_t, the arrays are as long as their callers say. *)
Definition op_ok (op : mb_op) : Prop :=
  match op with
  | Extract_array count dst dst_count => 0 <= count /\ dst_count <= Z.of_nat (length dst)
  | Insert_array count src src_count => 0 <= count /\ src_count <= mem_size src
  | Span_required n | Span_until n | Skip n => 0 <= n
  | _ => True
  end.

Definition code {A} (f : A -> Z) (m : B A) : B Z := a ← m; mret (f a).

Definition run_op (op : mb_op) : B Z :=
  match op with
  | Extract_uint8 => code fst (pldm__msgbuf_extract_uint8 0)
  | Extract_int8 => code fst (pldm__msgbuf_extract_int8 0)
  | Extract_uint16 => code fst (pldm__msgbuf_extract_uint16 0)
  | Extract_int16 => code fst (pldm__msgbuf_extract_int16 0)
  | Extract_uint32 => code fst (pldm__msgbuf_extract_uint32 0)
  | Extract_int32 => code fst (pldm__msgbuf_extract_int32 0)
  | Extract_real32 => code fst (pldm__msgbuf_extract_real32 0)
  | Extract_uint8_to_size => code fst (pldm__msgbuf_extract_uint8_to_size 0)
  | Extract_uint16_to_size => code fst (pldm__msgbuf_extract_uint16_to_size 0)
  | Extract_uint32_to_size => code fst (pldm__msgbuf_extract_uint32_to_size 0)
  | Extract_array count dst n => code fst (pldm_msgbuf_extract_array_uint8 count dst n)
  | Insert_uint8 v => pldm_msgbuf_insert_uint8 v
  | Insert_int8 v => pldm_msgbuf_insert_int8 v
  | Insert_uint16 v => pldm_msgbuf_insert_uint16 v
  | Insert_int16 v => pldm_msgbuf_insert_int16 v
  | Insert_uint32 v => pldm_msgbuf_insert_uint32 v
  | Insert_int32 v => pldm_msgbuf_insert_int32 v
  | Insert_real32 v => pldm_msgbuf_insert_real32 v
  | Insert_uint64 v => pldm_msgbuf_insert_uint64 v
  | Insert_array count src n => pldm_msgbuf_insert_array_uint8 count src n
  | Span_required n => code fst (pldm_msgbuf_ro_span_required n (Some None))
  | Span_string_ascii => code (fun a => a.1.1) (pldm_msgbuf_ro_span_string_ascii (Some None) (Some 0))
  | Span_string_utf16 => code (fun a => a.1.1) (pldm_msgbuf_ro_span_string_utf16 (Some None) (Some 0))
  | Span_remaining => code (fun a => a.1.1) (pldm_msgbuf_ro_span_remaining None 0)
  | Span_until n => code (fun a => a.1.1) (pldm_msgbuf_ro_span_until n (Some None) (Some 0))
  | Peek_remaining => code (fun a => a.1.1) (pldm_msgbuf_peek_remaining None 0)
  | Skip n => pldm_msgbuf_skip n
  end.

Fixpoint run_ops (ops : list mb_op) : B (list Z) :=
  match ops with
  | [] => mret []
  | op :: ops => rc ← run_op op; rcs ← run_ops ops; mret (rc :: rcs)
  end.

(** Initialise on [len] bytes of [m], run [ops], complete: the return codes of
    the calls and of the completion. *)
Definition session (m : cmem) (minsize len : Z) (ops : list mb_op) : B (list Z * Z) :=
  rc ← pldm_msgbuf_ro_init_errno minsize m len;
  if_err rc return_ mret ([], rc);;
  rcs ← run_ops ops;
  rc ← pldm_msgbuf_ro_complete;
  mret (rcs, rc).

Lemma code_post {A} (f : A -> Z) (m : B A) b :
  wp m b (op_post f b) -> wp (code f m) b (op_post id b).
Proof. intros H. apply wp_bind. eapply wp_mono; [exact H|]. done. Qed.

(** Every call keeps the invariant and accounts for its overflow. *)
Lemma run_op_post op b : op_ok op -> mb_inv b -> wp (run_op op) b (op_post id b).
Proof.
  intros Hop Hb. destruct op; cbn [run_op op_ok] in *; autounfold with msgbuf;
    try (apply code_post);
    first [ apply extract_post; [done|lia]
          | apply insert_post; [done|lia]
          | apply to_size_post; intros; autounfold with msgbuf; apply extract_post; [done|lia]
          | apply extract_array_post; [done|lia..]
          | apply insert_array_post; [done|lia..]
          | apply span_required_post; [done|lia]
          | by apply span_string_ascii_post
          | by apply span_string_utf16_post
          | by apply span_remaining_post
          | apply span_until_post; [done|lia]
          | by apply peek_remaining_post
          | apply skip_post; [done|lia] ].
Qed.

Lemma run_ops_post ops b :
  Forall op_ok ops -> mb_inv b ->
  wp (run_ops ops) b (fun rcs b' => mb_inv b' /\
    (remaining b' < 0 <-> remaining b < 0 \/ (- EOVERFLOW) ∈ rcs)).
Proof.
  intros Hops. revert b. induction Hops as [|op ops Hop _ IH]; intros b Hb; cbn [run_ops].
  { apply wp_ret. split; [done|]. rewrite elem_of_nil. tauto. }
  apply wp_bind. eapply wp_mono; [by apply run_op_post|]. intros rc b1 (Hb1 & _ & Hrc).
  apply wp_bind. eapply wp_mono; [by apply IH|]. intros rcs b2 (Hb2 & Hrcs).
  apply wp_ret. split; [done|]. rewrite Hrcs, elem_of_cons.
  unfold overflow_step, id in Hrc. rewrite Hrc. intuition congruence.
Qed.

Lemma mb_rd_inv m len b : mb_rd m len 0 b -> mb_inv b.
Proof.
  intros [Ho Hr ? ? ? (k & Hk & Hkc)]. constructor; try lia.
  intros. exists k. rewrite Ho. split_and!; [done|lia..].
Qed.

(** C9: a buffer session is memory safe and its overflow is sticky.  Whatever
    calls a codec makes on a buffer, in whatever order, with whatever lengths,
    none of them reads or writes outside the buffer, fails an assertion or leaves
    the buffer open at the end of its scope; and the completion reports success
    exactly when the buffer had the minimum size and not one of the calls
    overflowed.  This is what allows the codecs to ignore the return codes of the
    individual calls. *)
Theorem session_sticky_overflow m minsize len ops :
  mem_ok m -> 0 <= len <= mem_size m -> Forall op_ok ops ->
  exists rcs rc m',
    msgbuf_scope m (session m minsize len ops) = Ok ((rcs, rc), m') /\
    (rc = 0 <-> minsize <= len /\ (- EOVERFLOW) ∉ rcs) /\
    (rc <> 0 -> rc = - EOVERFLOW).
Proof.
  intros [? ? ? ?] Hlen Hops.
  destruct (msgbuf_scope_wp m (session m minsize len ops)
    (fun '(rcs, rc) _ => (rc = 0 <-> minsize <= len /\ (- EOVERFLOW) ∉ rcs) /\
                         (rc <> 0 -> rc = - EOVERFLOW))) as ([rcs rc] & m' & E & HP);
    [|by exists rcs, rc, m'].
  unfold session. autounfold with msgbuf. apply wp_bind. apply wp_init_rd; [lia..|].
  intros b Hobj Hb. destruct (Z.leb_spec minsize len); cmp_case; try lia.
  - apply wp_bind. eapply wp_mono; [by apply run_ops_post, (mb_rd_inv _ _ _ Hb)|].
    intros rcs b' [Hb' Hrcs]. apply wp_bind.
    unfold wp, pldm_msgbuf_ro_complete. cbn. split; [done|].
    rewrite (rd_remaining _ _ _ _ Hb) in Hrcs. unfold pldm__msgbuf_validate.
    destruct (Z.ltb_spec (remaining b') 0); (split; [|lia]).
    + split; [done|]. intros [_ []]. destruct Hrcs as [[]]; [done|lia|done].
    + split; [|done]. intros _. split; [done|]. intros Hin. destruct Hrcs as [_ Hrcs].
      specialize (Hrcs (or_intror Hin)). lia.
  - apply wp_ret. split; [done|]. split; [|done]. split; [done|intros [? _]; lia].
Qed.

Lemma session_sticky_overflow_witness :
  let m := CMem 4096 [1; 2; 3; 4; 5] in
  let ops := [Extract_uint16; Insert_uint16 7; Extract_uint32; Skip 0] in
  msgbuf_scope m (session m 1 5 ops)
    = Ok (([0; 0; - EOVERFLOW; - EOVERFLOW], - EOVERFLOW), CMem 4096 [1; 2; 7; 0; 5]) /\
  exists rcs rc m', msgbuf_scope m (session m 1 5 ops) = Ok ((rcs, rc), m') /\
    (rc = 0 <-> 1 <= 5 /\ (- EOVERFLOW) ∉ rcs) /\ (rc <> 0 -> rc = - EOVERFLOW).
Proof.
  split; [reflexivity|]. apply (session_sticky_overflow (CMem 4096 [1; 2; 3; 4; 5]) 1 5).
  all: concrete.
Defined.

(** *** Typed fields *)

Inductive kind := KU8 | KI8 | KU16 | KI16 | KU32 | KI32 | KR32 | KU64 | KI64.

Definition kind_size (k : kind) : nat :=
  match k with KU8 | KI8 => 1 | KU16 | KI16 => 2 | KU32 | KI32 | KR32 => 4 | KU64 | KI64 => 8 end.

(** The values of the C type. *)
Definition kind_ok (k : kind) (v : Z) : Prop :=
  match k with
  | KI8 | KI16 | KI32 | KI64 =>
      - 2 ^ (8 * Z.of_nat (kind_size k) - 1) <= v < 2 ^ (8 * Z.of_nat (kind_size k) - 1)
  | _ => 0 <= v < 256 ^ Z.of_nat (kind_size k)
  end.

(** pldm_msgbuf_insert() and pldm_msgbuf_extract(): select by type.  An int64_t has an
    extractor only: the macro has no inserter for it, and the caller converts to uint64_t. *)
Definition pldm_msgbuf_insert (k : kind) (v : Z) : B Z :=
  match k with
  | KU8 => pldm_msgbuf_insert_uint8 v | KI8 => pldm_msgbuf_insert_int8 v
  | KU16 => pldm_msgbuf_insert_uint16 v | KI16 => pldm_msgbuf_insert_int16 v
  | KU32 => pldm_msgbuf_insert_uint32 v | KI32 => pldm_msgbuf_insert_int32 v
  | KR32 => pldm_msgbuf_insert_real32 v
  | KU64 | KI64 => pldm_msgbuf_insert_uint64 v
  end.

Definition pldm_msgbuf_extract (k : kind) (dst : Z) : B (Z * Z) :=
  match k with
  | KU8 => pldm__msgbuf_extract_uint8 dst | KI8 => pldm__msgbuf_extract_int8 dst
  | KU16 => pldm__msgbuf_extract_uint16 dst | KI16 => pldm__msgbuf_extract_int16 dst
  | KU32 => pldm__msgbuf_extract_uint32 dst | KI32 => pldm__msgbuf_extract_int32 dst
  | KR32 => pldm__msgbuf_extract_real32 dst
  | KU64 => pldm__msgbuf_extract_uint64 dst | KI64 => pldm__msgbuf_extract_int64 dst
  end.

Fixpoint insert_fields (fs : list (kind * Z)) : B unit :=
  match fs with
  | [] => mret tt
  | (k, v) :: fs => _ ← pldm_msgbuf_insert k v; insert_fields fs
  end.

Fixpoint extract_fields (ks : list kind) : B (list Z) :=
  match ks with
  | [] => mret []
  | k :: ks => '(_, v) ← pldm_msgbuf_extract k 0; vs ← extract_fields ks; mret (v :: vs)
  end.

Definition encode_fields (m : cmem) (fs : list (kind * Z)) : B (Z * Z) :=
  rc ← pldm_msgbuf_rw_init_errno 0 m (mem_size m);
  if_err rc return_ mret (rc, 0);;
  _ ← insert_fields fs;
  pldm_msgbuf_complete_used (mem_size m) 0.

Definition decode_fields (m : cmem) (len : Z) (ks : list kind) : B (Z * list Z) :=
  rc ← pldm_msgbuf_ro_init_errno 0 m len;
  if_err rc return_ mret (rc, []);;
  vs ← extract_fields ks;
  rc ← pldm_msgbuf_ro_complete_consumed;
  mret (rc, vs).

(** The wire image of a field list. *)
Definition fields_bytes (fs : list (kind * Z)) : list Z :=
  concat ((fun '(k, v) => le_enc (kind_size k) v) <$> fs).

Definition kind_conv (k : kind) (raw : list Z) : Z :=
  match k with
  | KI8 | KI16 | KI32 | KI64 => to_signed (8 * Z.of_nat (kind_size k)) (le_dec raw)
  | _ => le_dec raw
  end.

Lemma insert_kind k v : pldm_msgbuf_insert k v = msgbuf_insert (kind_size k) v.
Proof. by destruct k. Qed.

Lemma extract_kind k dst :
  pldm_msgbuf_extract k dst = msgbuf_extract (Z.of_nat (kind_size k)) (kind_conv k) dst.
Proof. by destruct k. Qed.

Lemma kind_size_bound k : (1 <= kind_size k <= 8)%nat.
Proof. destruct k; cbn; lia. Qed.

Lemma kind_conv_enc k v : kind_ok k v -> kind_conv k (le_enc (kind_size k) v) = v.
Proof.
  intros Hv. unfold kind_conv. rewrite le_dec_enc.
  destruct k; cbn [kind_size kind_ok] in *;
    try (apply Z.mod_small; exact Hv); apply to_signed_mod; lia || exact Hv.
Qed.

Lemma insert_fields_wr m len fs out b :
  mb_wr m len out b -> Z.of_nat (length (out ++ fields_bytes fs)) <= INTMAX_MAX ->
  wp (insert_fields fs) b (fun _ b' => mb_wr m len (out ++ fields_bytes fs) b').
Proof.
  revert out b. induction fs as [|[k v] fs IH]; intros out b Hb Hlen; cbn [insert_fields].
  { apply wp_ret. unfold fields_bytes. cbn. by rewrite app_nil_r. }
  unfold fields_bytes in *. cbn [fmap list_fmap concat] in *.
  rewrite app_assoc in *. pose proof (wr_max _ _ _ _ Hb).
  pose proof Hlen as Hlen'. rewrite !length_app, le_enc_length in Hlen'.
  apply wp_bind. rewrite insert_kind. eapply wp_insert_wr; [exact Hb|lia|].
  intros b' Hb'. by apply IH.
Qed.

Lemma extract_fields_rd m len fs pre post b :
  mb_rd m len (Z.of_nat (length pre)) b -> bytes m = pre ++ fields_bytes fs ++ post ->
  Z.of_nat (length (pre ++ fields_bytes fs)) <= len ->
  Forall (fun '(k, v) => kind_ok k v) fs ->
  wp (extract_fields fs.*1) b (fun vs b' => vs = fs.*2 /\
    mb_rd m len (Z.of_nat (length (pre ++ fields_bytes fs))) b').
Proof.
  revert pre b. induction fs as [|[k v] fs IH]; intros pre b Hb Hm Hlen Hok;
    cbn [fmap list_fmap extract_fields fst snd].
  { apply wp_ret. unfold fields_bytes. cbn. by rewrite app_nil_r. }
  apply Forall_cons_1 in Hok as [Hv Hok].
  unfold fields_bytes in *. cbn [fmap list_fmap concat] in *.
  rewrite <- (app_assoc (le_enc _ _)) in Hm. rewrite app_assoc in *. pose proof (rd_max _ _ _ _ Hb).
  pose proof Hlen as Hlen'. rewrite !length_app, le_enc_length in Hlen'.
  apply wp_bind. rewrite extract_kind. eapply wp_extract_rd; [exact Hb|lia|lia|].
  intros b' Hb'. rewrite (proj2 (Z.leb_le _ _)) by lia. rewrite !Nat2Z.id, Hm.
  rewrite <- app_assoc.
  rewrite slice_app_mid by (done || by rewrite le_enc_length). rewrite kind_conv_enc by done.
  rewrite <- Nat2Z.inj_add in Hb'.
  replace (length pre + kind_size k)%nat with (length (pre ++ le_enc (kind_size k) v)) in Hb'
    by by rewrite length_app, le_enc_length.
  apply wp_bind. eapply wp_mono; [apply IH; try done|]. intros vs b2 [-> ?].
  by apply wp_ret.
Qed.

Lemma fields_bytes_ok fs : bytes_ok (fields_bytes fs).
Proof.
  unfold fields_bytes. induction fs as [|[k v] fs IH]; cbn; [constructor|].
  apply Forall_app. split; [apply le_enc_ok|done].
Qed.

(** what the inserters write, the extractors read back.  For every list of
    typed fields whose values fit their C types and every buffer they fit in,
    encoding succeeds, reports the number of bytes written, leaves the bytes after
    them alone, and decoding the same list of types from the bytes written yields
    the same values and consumes them exactly. *)
Theorem fields_roundtrip m fs :
  mem_ok m -> Forall (fun '(k, v) => kind_ok k v) fs ->
  Z.of_nat (length (fields_bytes fs)) <= mem_size m ->
  let used := Z.of_nat (length (fields_bytes fs)) in
  exists m',
    msgbuf_scope m (encode_fields m fs) = Ok ((0, used), m') /\
    bytes m' = fields_bytes fs ++ drop (length (fields_bytes fs)) (bytes m) /\
    msgbuf_scope m' (decode_fields m' used fs.*1) = Ok ((0, fs.*2), m').
Proof.
  intros [? ? ? ?] Hok Hfit used. unfold used. exists (wrote m (fields_bytes fs)).
  assert (mem_size (wrote m (fields_bytes fs)) = mem_size m) as Hsz.
  { unfold mem_size, wrote in *. cbn. rewrite length_app, length_drop. lia. }
  split_and!; [|done|].
  - destruct (msgbuf_scope_wp m (encode_fields m fs) (fun a m' =>
      a = (0, Z.of_nat (length (fields_bytes fs))) /\ m' = wrote m (fields_bytes fs)))
      as (? & ? & -> & -> & ->); [|done].
    unfold encode_fields. autounfold with msgbuf. apply wp_bind.
    apply wp_init_wr; [lia..|]. intros b _. cmp_case; [|lia]. intros Hb. cmp_case; [|done].
    apply wp_bind. eapply wp_mono; [apply (insert_fields_wr _ _ _ _ _ Hb); cbn [app]; lia|].
    intros [] b' Hb'. cbn [app] in Hb'. eapply wp_complete_used_wr; [exact Hb'|].
    intros b2 Hdone _. cmp_case; [|lia]. done.
  - destruct (msgbuf_scope_wp (wrote m (fields_bytes fs))
      (decode_fields (wrote m (fields_bytes fs)) (Z.of_nat (length (fields_bytes fs))) fs.*1)
      (fun a m' => a = (0, fs.*2) /\ m' = wrote m (fields_bytes fs)))
      as (? & ? & -> & -> & ->); [|done].
    unfold decode_fields. autounfold with msgbuf. apply wp_bind.
    apply wp_init_rd; [cbn; lia..|]. intros b _. cmp_case; [|lia]. intros Hb. cmp_case; [|done].
    apply wp_bind.
    eapply wp_mono; [eapply (extract_fields_rd (wrote m (fields_bytes fs)) _ fs []); done|].
    intros vs b' [-> Hb']. apply wp_bind. eapply wp_complete_consumed_rd; [exact Hb'|].
    intros b2 Hdone Ho. rewrite Z.eqb_refl. apply wp_ret. done.
Qed.

Lemma fields_roundtrip_witness :
  let m := CMem 64 (replicate 12 9) in
  let fs := [(KU8, 200); (KI16, -2); (KU32, 4294967295); (KI32, -70000)] in
  fields_bytes fs = [200; 254; 255; 255; 255; 255; 255; 144; 238; 254; 255] /\
  exists m', msgbuf_scope m (encode_fields m fs) = Ok ((0, 11), m') /\
    bytes m' = fields_bytes fs ++ drop (length (fields_bytes fs)) (bytes m) /\
    msgbuf_scope m' (decode_fields m' 11 fs.*1) = Ok ((0, fs.*2), m').
Proof.
  split; [reflexivity|].
  apply (fields_roundtrip (CMem 64 (replicate 12 9))
           [(KU8, 200); (KI16, -2); (KU32, 4294967295); (KI32, -70000)]).
  all: concrete.
Defined.

(** *** String spans *)

(** The code unit [j] of a UTF-16 string is the NUL code unit. *)
Definition nul_unit (l : list Z) (j : nat) : Prop :=
  l !! (2 * j)%nat = Some 0 /\ l !! (2 * j + 1)%nat = Some 0.

Lemma utf16_nul_first l :
  match utf16_nul l with
  | Some i => exists k, i = (2 * k)%nat /\ nul_unit l k /\ forall j, (j < k)%nat -> ~ nul_unit l j
  | None => forall j, ~ nul_unit l j
  end.
Proof.
  unfold nul_unit. induction l as [|x|x y t IH] using list_ind2; cbn [utf16_nul].
  - intros j [H _]. done.
  - intros [|j] [H H']; cbn in *; [done|]. by rewrite Nat.add_succ_r in H.
  - assert (forall j, (x :: y :: t) !! (2 * S j)%nat = t !! (2 * j)%nat /\
      (x :: y :: t) !! (2 * S j + 1)%nat = t !! (2 * j + 1)%nat) as Hs.
    { intros j. replace (2 * S j)%nat with (S (S (2 * j))) by lia. done. }
    destruct (Z.eqb_spec x 0), (Z.eqb_spec y 0); cbn [andb];
      [exists 0%nat; subst; split_and!; [done..|lia]|..].
    all: destruct (utf16_nul t) as [i|]; cbn [fmap option_fmap option_map];
      try (destruct IH as (k & -> & Hk & Hlt); exists (S k);
           split; [lia|]; split; [destruct (Hs k); intuition congruence|]).
    all: intros [|j]; [cbn; intros; intuition congruence|];
      destruct (Hs j) as [-> ->]; first [apply IH | intros; apply Hlt; lia].
Qed.

(** a UTF-16 span is the shortest one that ends in a NUL code unit.  The span
    search looks for two NUL bytes at any address and restarts when they straddle
    two code units; it always terminates, whatever the bytes, and it either
    reports the string from the cursor to its first NUL code unit and moves the
    cursor just past it, or, when there is no such unit in the buffer, invalidates
    the buffer and leaves the outputs alone.  The buffer may start at an odd
    address. *)
Theorem span_utf16_first_nul b c :
  mb_inv b -> cursor b = Some c -> 0 <= remaining b ->
  let s := slice (Z.to_nat c) (Z.to_nat (remaining b)) (bytes (obj b)) in
  (exists k, nul_unit s k /\ (forall j, (j < k)%nat -> ~ nul_unit s j) /\
     let n := Z.of_nat (2 * k + 2) in
     pldm__msgbuf_span_string_utf16 (Some None) (Some 0) b
     = Ok ((0, Some (Some (ptr_at (obj b) c)), Some n),
           MsgBuf (obj b) (Some (c + n)) (remaining b - n))) \/
  ((forall j, ~ nul_unit s j) /\
   pldm__msgbuf_span_string_utf16 (Some None) (Some 0) b
   = Ok ((- EOVERFLOW, Some None, Some 0), MsgBuf (obj b) (Some c) INTMAX_MIN)).
Proof.
  intros Hb Hc Hr s. destruct (mb_inv_cursor b Hb) as (c' & Hc' & ? & ?); [done|].
  assert (c' = c) as -> by congruence. clear Hc'.
  pose proof (utf16_nul_first s) as Hs. pose proof (utf16_nul_bound s) as Hbound.
  unfold pldm__msgbuf_span_string_utf16, pldm__msgbuf_set_invalid, msgbuf_advance.
  cmp_case; [lia|]. rewrite Hc, span_utf16_scan_spec by lia. fold s.
  destruct (utf16_nul s) as [i|]; cbn [mbind outcome_bind fmap option_fmap option_map];
    [left|by right].
  destruct Hs as (k & -> & Hk & Hlt). exists k. split_and!; [done..|].
  specialize (Hbound _ eq_refl). unfold s in Hbound. rewrite length_slice in Hbound.
  replace (c + Z.of_nat (2 * k) + 2 - c) with (Z.of_nat (2 * k + 2)) by lia.
  cmp_case; [done|lia].
Qed.

Lemma span_utf16_first_nul_witness :
  let b := MsgBuf (CMem 101 [9; 65; 0; 0; 66; 0; 0; 7]) (Some 1) 7 in
  let s := [65; 0; 0; 66; 0; 0; 7] in
  mb_inv b /\
  ((exists k, nul_unit s k /\ (forall j, (j < k)%nat -> ~ nul_unit s j) /\
     let n := Z.of_nat (2 * k + 2) in
     pldm__msgbuf_span_string_utf16 (Some None) (Some 0) b
     = Ok ((0, Some (Some (ptr_at (obj b) 1)), Some n), MsgBuf (obj b) (Some (1 + n)) (7 - n))) \/
   ((forall j, ~ nul_unit s j) /\
   pldm__msgbuf_span_string_utf16 (Some None) (Some 0) b
   = Ok ((- EOVERFLOW, Some None, Some 0), MsgBuf (obj b) (Some 1) INTMAX_MIN))).
Proof.
  assert (mb_inv (MsgBuf (CMem 101 [9; 65; 0; 0; 66; 0; 0; 7]) (Some 1) 7)) as Hb.
  { constructor; cbn; [lia..|]. intros. exists 1. concrete. }
  split; [exact Hb|].
  apply (span_utf16_first_nul (MsgBuf (CMem 101 [9; 65; 0; 0; 66; 0; 0; 7]) (Some 1) 7) 1 Hb);
    concrete.
Defined.

(** ** Stepping tactics

    The codecs' proofs run the buffer calls one at a time: each tactic applies the
    rule of the call at the head of the goal to the position hypothesis in the
    context. *)

Lemma wp_extract_kind m len k d c c' b Q :
  mb_rd m len c b -> c' = c + Z.of_nat (kind_size k) -> c' <= INTMAX_MAX ->
  (forall b', mb_rd m len c' b' ->
     Q (if c' <=? len
        then (0, kind_conv k (slice (Z.to_nat c) (kind_size k) (bytes m)))
        else (- EOVERFLOW, d)) b') ->
  wp (pldm_msgbuf_extract k d) b Q.
Proof.
  intros Hb -> Hc HQ. rewrite extract_kind. eapply wp_extract_rd; [exact Hb|lia|lia|].
  by rewrite Nat2Z.id.
Qed.

Lemma wp_insert_kind m len k v out b Q :
  mb_wr m len out b -> Z.of_nat (length out + kind_size k) <= INTMAX_MAX ->
  (forall b', mb_wr m len (out ++ le_enc (kind_size k) v) b' ->
     Q (if Z.of_nat (length out + kind_size k) <=? len then 0 else - EOVERFLOW) b') ->
  wp (pldm_msgbuf_insert k v) b Q.
Proof. intros. rewrite insert_kind. by eapply wp_insert_wr. Qed.

Lemma wp_to_size_rd m len k extract d c c' b Q :
  (forall v, extract v = pldm_msgbuf_extract k v) ->
  mb_rd m len c b -> c' = c + Z.of_nat (kind_size k) -> c' <= INTMAX_MAX ->
  (forall b', mb_rd m len c' b' ->
     Q (if c' <=? len
        then (0, kind_conv k (slice (Z.to_nat c) (kind_size k) (bytes m)))
        else (- EOVERFLOW, d)) b') ->
  wp (msgbuf_to_size extract d) b Q.
Proof.
  intros He Hb Hc' Hc HQ. unfold msgbuf_to_size. apply wp_bind. rewrite He.
  eapply wp_extract_kind; [exact Hb|exact Hc'|exact Hc|]. intros b' Hb'. specialize (HQ b' Hb').
  destruct (c' <=? len); by apply wp_ret.
Qed.

Lemma wp_span_kind m len n c c' b Q :
  mb_rd m len c b -> 0 <= n -> c' = c + n -> c' <= INTMAX_MAX ->
  (forall b', mb_rd m len c' b' ->
     Q (if c' <=? len then (0, Some (Some (ptr_at m c))) else (- EOVERFLOW, Some None)) b') ->
  wp (pldm__msgbuf_span_required n (Some None)) b Q.
Proof. intros Hb Hn -> Hc HQ. by eapply wp_span_required_rd. Qed.

(** The little-endian field of [n] bytes at offset [off] of an object. *)
Definition fld (m : cmem) (off n : nat) : Z := le_dec (slice off n (bytes m)).

Lemma fld_bound m off n : bytes_ok (bytes m) -> 0 <= fld m off n < 256 ^ Z.of_nat n.
Proof.
  intros Hm. assert (bytes_ok (slice off n (bytes m))) as Hs by by apply Forall_slice.
  pose proof (le_dec_bound _ Hs) as Hd. fold (fld m off n) in Hd. rewrite length_slice in Hd.
  pose proof (Z.pow_le_mono_r 256 (Z.of_nat (n `min` (length (bytes m) - off))) (Z.of_nat n)). lia.
Qed.

(** A completed message that fitted: its bytes are in the object. *)
Lemma wp_used_fits m len out w used n b Q :
  mb_wr m len out b -> out = w -> Z.of_nat (length w) = n -> n <= len ->
  (forall b', mb_done b' -> obj b' = wrote m w -> Q (0, n) b') ->
  wp (pldm_msgbuf_complete_used len used) b Q.
Proof.
  intros Hb -> <- Hn HQ. eapply wp_complete_used_wr; [exact Hb|]. intros b' Hd _.
  cmp_case; [|lia]. by apply HQ.
Qed.

Ltac wr_len := rewrite ?length_app, ?le_enc_length; cbn [length kind_size]; lia.

(** A sum of offsets, as a numeral when it is closed. *)
Ltac mb_offset c n :=
  lazymatch eval cbv in (c + n) with
  | Zpos ?p => constr:(Zpos p)
  | Z0 => constr:(Z0)
  | _ => lazymatch eval cbv in n with Zpos ?p => constr:(c + Zpos p) | _ => constr:(c + n) end
  end.

(** Present what an extraction at [c] yielded as a field. *)
Ltac mb_field m c n :=
  lazymatch eval cbv in (Z.to_nat c) with
  | O => change (Z.to_nat c) with O
  | S ?k => let o := eval cbv in (Z.to_nat c) in change (Z.to_nat c) with o
  | _ => idtac
  end;
  repeat match goal with
  | |- context [le_dec (slice ?o ?n (bytes m))] =>
      change (le_dec (slice o n (bytes m))) with (fld m o n)
  end.

Ltac mb_extract_with m k c tac :=
  let c' := mb_offset c (Z.of_nat (kind_size k)) in
  lazymatch goal with
  | H : mb_rd m _ c ?b |- wp _ ?b ?Q =>
      tac c' Q H; [cbn; lia|cbn; lia|];
      clear H; let b' := fresh "b" in intros b' H; cbn [kind_size kind_conv];
      mb_field m c (kind_size k)
  end.

Ltac mb_extract :=
  lazymatch goal with
  | _ : mb_rd ?m ?len ?c ?b |- wp (?p ≫= _) ?b _ =>
      apply wp_bind;
      lazymatch p with
      | pldm_msgbuf_extract ?k ?d =>
          mb_extract_with m k c ltac:(fun c' Q H => apply (wp_extract_kind m len k d c c' b Q H))
      | pldm__msgbuf_extract_uint32_to_size ?d =>
          mb_extract_with m KU32 c ltac:(fun c' Q H =>
            apply (wp_to_size_rd m len KU32 _ d c c' b Q (fun _ => eq_refl) H))
      | pldm__msgbuf_extract_uint16_to_size ?d =>
          mb_extract_with m KU16 c ltac:(fun c' Q H =>
            apply (wp_to_size_rd m len KU16 _ d c c' b Q (fun _ => eq_refl) H))
      | pldm__msgbuf_extract_uint8_to_size ?d =>
          mb_extract_with m KU8 c ltac:(fun c' Q H =>
            apply (wp_to_size_rd m len KU8 _ d c c' b Q (fun _ => eq_refl) H))
      end
  end.

(** An extraction the minimum size of the buffer already pays for. *)
Ltac mb_extract_in := mb_extract; (cmp_case; [|lia]); rewrite ?Z.eqb_refl.

Ltac mb_span :=
  lazymatch goal with
  | H : mb_rd ?m ?len ?c ?b |- wp (_ ?n (Some None) ≫= _) ?b _ =>
      apply wp_bind; autounfold with msgbuf; let c' := mb_offset c n in
      apply (wp_span_kind m len n c c' b _ H); [lia|lia|lia|];
      clear H; let b' := fresh "b" in intros b' H
  end.

Ltac mb_insert :=
  lazymatch goal with
  | H : mb_wr ?m ?len ?out ?b |- wp (pldm_msgbuf_insert ?k ?v ≫= _) ?b _ =>
      apply wp_bind; apply (wp_insert_kind m len k v out b _ H); [wr_len|];
      clear H; let b' := fresh "b" in intros b' H
  | H : mb_wr ?m ?len ?out ?b |- wp (pldm_msgbuf_insert_uint32 ?v ≫= _) ?b _ =>
      apply wp_bind; apply (wp_insert_kind m len KU32 v out b _ H); [wr_len|];
      clear H; let b' := fresh "b" in intros b' H
  end; cbn [kind_size app] in *.

Ltac mb_insert_array :=
  lazymatch goal with
  | H : mb_wr ?m ?len ?out ?b |- wp (_ ?n ?src ?n ≫= _) ?b ?Q =>
      apply wp_bind; autounfold with msgbuf;
      apply (wp_insert_array_wr m len n src n out b _ H); [lia|lia|wr_len|];
      clear H; let b' := fresh "b" in intros b' H
  end.

(** The array just inserted was within the buffer. *)
Ltac mb_fits :=
  match goal with
  | |- context [if ?c then 0 else - EOVERFLOW] =>
      replace c with true by (symmetry; apply orb_true_iff; right; apply Z.leb_le; wr_len)
  end; rewrite Z.eqb_refl.

Ltac mb_consumed :=
  lazymatch goal with
  | H : mb_rd ?m ?len ?c ?b |- wp (pldm_msgbuf_ro_complete_consumed ≫= _) ?b _ =>
      apply wp_bind; apply (wp_complete_consumed_rd m len c b _ H);
      let b' := fresh "b" in let Hd := fresh "Hdone" in let Ho := fresh "Hobj" in
      intros b' Hd Ho; clear H
  end.

Ltac mb_discard :=
  apply wp_bind; autounfold with msgbuf; apply wp_discard;
  let b' := fresh "b" in let Hd := fresh "Hdone" in let Ho := fresh "Hobj" in
  intros b' Hd Ho.

Ltac mb_used :=
  lazymatch goal with
  | H : mb_wr ?m ?len ?out ?b |- wp (pldm_msgbuf_complete_used ?len ?u) ?b _ =>
      apply (wp_complete_used_wr m len out u b _ H);
      let b' := fresh "b" in let Hd := fresh "Hdone" in let Hs := fresh "Hsize" in
      let Hw := fresh "Hwrote" in
      intros b' Hd Hs Hw; clear H
  end.

(** *** Reading fields of a message just written *)

Lemma fld_skip a l r c n :
  (length l <= c)%nat -> fld (CMem a (l ++ r)) c n = fld (CMem a r) (c - length l) n.
Proof. intros. unfold fld, slice. cbn [bytes]. by rewrite drop_app_ge. Qed.

Lemma fld_hit a n v r : fld (CMem a (le_enc n v ++ r)) 0 n = v mod 256 ^ Z.of_nat n.
Proof.
  unfold fld, slice. cbn [bytes]. rewrite drop_0, take_app_length' by by rewrite le_enc_length.
  apply le_dec_enc.
Qed.

Lemma slice_skip {A} (l r : list A) c n :
  (length l <= c)%nat -> slice c n (l ++ r) = slice (c - length l) n r.
Proof. intros. unfold slice. by rewrite drop_app_ge. Qed.

Lemma slice_hit {A} (l r : list A) n : n = length l -> slice 0 n (l ++ r) = l.
Proof. intros ->. unfold slice. by rewrite drop_0, take_app_length. Qed.

Lemma mem_size_wrote m out : (length out <= length (bytes m))%nat -> mem_size (wrote m out) = mem_size m.
Proof. intros. unfold mem_size, wrote; cbn. rewrite length_app, length_drop. lia. Qed.

Lemma mem_ok_wrote m out :
  mem_ok m -> bytes_ok out -> Z.of_nat (length out) <= mem_size m -> mem_ok (wrote m out).
Proof.
  intros [] Ho Hl. unfold mem_size in Hl. constructor; rewrite ?mem_size_wrote by lia; try done.
  cbn. apply Forall_app. split; [done|by apply Forall_drop].
Qed.

(** Rewrite every field of a message written from [le_enc] pieces to the value
    that was inserted there. *)
Ltac wire_len := rewrite ?length_app, ?le_enc_length; lia.
Ltac wire :=
  repeat first
    [ rewrite fld_hit
    | rewrite fld_skip by wire_len; rewrite ?le_enc_length; cbn [Nat.sub] ].

Lemma Forall_le_enc_app n v l : bytes_ok l -> bytes_ok (le_enc n v ++ l).
Proof. intros. apply Forall_app. split; [apply le_enc_ok|done]. Qed.

(** Finish an encoder whose message is [w]. *)
Ltac mb_finish w :=
  lazymatch goal with
  | H : mb_wr ?m ?len ?out ?b |- wp (pldm_msgbuf_complete_used ?len ?u) ?b ?Q =>
      eapply (wp_used_fits m len out w u _ b Q H);
      [ let w' := eval red in w in change w with w'; by rewrite <- ?app_assoc
      | let w' := eval red in w in change w with w'; rewrite ?length_app, ?le_enc_length; reflexivity || lia
      | try lia
      | let b' := fresh "b" in let Hd := fresh "Hdone" in let Ho := fresh "Hobj" in
        intros b' Hd Ho; split; [exact Hd|] ]
  end.
