(* ===== verification/Layout.v ===== *)
(** * Bytes at a position

    What lies where in an object, and the fields read from there: shared by the
    components whose data is a sequence of variable-sized records. *)

From S2P Require Import Prelude Msgbuf.

(** A value of [n] bytes at offset [off], little endian. *)
Definition mem_le (m : cmem) (off n : Z) : outcome Z :=
  raw ← mem_read m off n; mret (le_dec raw).

(** ** Lengths *)

Definition len {A} (l : list A) : Z := Z.of_nat (length l).

Lemma len_app {A} (l1 l2 : list A) : len (l1 ++ l2) = len l1 + len l2.
Proof. unfold len. rewrite length_app. lia. Qed.

Lemma len_le_enc n v : len (le_enc n v) = Z.of_nat n.
Proof. unfold len. by rewrite le_enc_length. Qed.

Lemma len_nonneg {A} (l : list A) : 0 <= len l.
Proof. unfold len. lia. Qed.

Lemma len_cons {A} (x : A) l : len (x :: l) = 1 + len l.
Proof. unfold len. rewrite length_cons. lia. Qed.

(** ** Interior pointers *)

Lemma ptr_at_0 m : ptr_at m 0 = m.
Proof. unfold ptr_at. rewrite Z.add_0_r. by destruct m. Qed.

Lemma ptr_at_ptr_at m a b : 0 <= a -> 0 <= b -> ptr_at (ptr_at m a) b = ptr_at m (a + b).
Proof.
  intros. unfold ptr_at. cbn. rewrite drop_drop. f_equal; [lia|]. f_equal. lia.
Qed.

Lemma mem_size_ptr_at m k : 0 <= k <= mem_size m -> mem_size (ptr_at m k) = mem_size m - k.
Proof. unfold mem_size, ptr_at. cbn. rewrite length_drop. lia. Qed.

Lemma mem_ok_ptr_at m k : mem_ok m -> 0 <= k <= mem_size m -> mem_ok (ptr_at m k).
Proof.
  intros [] Hk. constructor; rewrite ?mem_size_ptr_at by done; cbn; try lia. by apply Forall_drop.
Qed.

(** ** What lies where *)

(** The bytes [l] lie at [k] in the object [m]. *)
Definition lies (m : cmem) (k : Z) (l : list Z) : Prop :=
  0 <= k <= mem_size m /\ exists post, drop (Z.to_nat k) (bytes m) = l ++ post.

Lemma lies_size m k l : lies m k l -> 0 <= k /\ k + len l <= mem_size m.
Proof.
  intros [Hk [post E]]. split; [lia|]. apply (f_equal length) in E.
  rewrite length_drop, length_app in E. unfold mem_size, len in *. lia.
Qed.

Lemma lies_app m k l1 l2 : lies m k (l1 ++ l2) -> lies m k l1 /\ lies m (k + len l1) l2.
Proof.
  intros Hl. pose proof (lies_size _ _ _ Hl) as Hs. rewrite len_app in Hs.
  pose proof (len_nonneg l1). pose proof (len_nonneg l2). destruct Hl as [Hk [post E]].
  rewrite <- app_assoc in E. split; (split; [lia|]); [by eexists|].
  exists post. rewrite Z2Nat.inj_add by lia. rewrite <- drop_drop, E.
  unfold len. rewrite Nat2Z.id. by rewrite drop_app_length.
Qed.

Lemma lies_nil m k : 0 <= k <= mem_size m -> lies m k [].
Proof. intros. split; [done|]. by eexists. Qed.

(** At the start of an object. *)
Lemma lies_prefix a l post : lies (CMem a (l ++ post)) 0 l.
Proof. split; [unfold mem_size; lia|]. by exists post. Qed.

Lemma lies_slice m k l : lies m k l -> slice (Z.to_nat k) (length l) (bytes m) = l.
Proof. intros [_ [post E]]. unfold slice. by rewrite E, take_app_length. Qed.

Lemma lies_ptr_at m k o l : 0 <= k <= mem_size m -> 0 <= o -> lies (ptr_at m k) o l <-> lies m (k + o) l.
Proof.
  intros Hk Ho. unfold lies, ptr_at, mem_size in *. cbn. rewrite drop_drop, length_drop, <- Z2Nat.inj_add by lia.
  split; intros [? E]; (split; [lia|exact E]).
Qed.

Lemma mem_read_lies m k l : lies m k l -> mem_read m k (len l) = Ok l.
Proof.
  intros Hl. pose proof (lies_size _ _ _ Hl). apply mem_read_ok; [lia|unfold len; lia|lia|].
  unfold len. rewrite Nat2Z.id. by apply lies_slice.
Qed.

Lemma mem_le_lies m k n v :
  lies m k (le_enc n v) -> 0 <= v < 256 ^ Z.of_nat n -> mem_le m k (Z.of_nat n) = Ok v.
Proof.
  intros Hl Hv. unfold mem_le. rewrite <- (len_le_enc n v), (mem_read_lies m k) by done.
  cbn [mbind outcome_bind mret outcome_ret]. by rewrite le_dec_enc_id.
Qed.

Lemma mem_le_at m p q k n v :
  lies m p (le_enc k v) -> p = q -> n = Z.of_nat k -> 0 <= v < 256 ^ Z.of_nat k -> mem_le m q n = Ok v.
Proof. intros Hl -> -> Hv. by apply mem_le_lies. Qed.

Lemma mem_read_at m p q n l : lies m p l -> p = q -> n = len l -> mem_read m q n = Ok l.
Proof. intros Hl -> ->. by apply mem_read_lies. Qed.

(** Writing behind what has been written. *)
Lemma mem_write_next a pre new old :
  (length pre + length new <= length old)%nat ->
  mem_write (CMem a (pre ++ drop (length pre) old)) (len pre) new
  = Ok (CMem a ((pre ++ new) ++ drop (length (pre ++ new)) old)).
Proof.
  intros Hn. rewrite mem_write_ok; [|unfold len; lia|unfold mem_size, len; cbn; rewrite length_app, length_drop; lia].
  cbn [addr bytes]. unfold len. rewrite Nat2Z.id. by rewrite splice_append.
Qed.

Lemma mem_write_first a new old :
  (length new <= length old)%nat ->
  mem_write (CMem a old) 0 new = Ok (CMem a (new ++ drop (length new) old)).
Proof. intros Hn. exact (mem_write_next a [] new old Hn). Qed.

Lemma mem_write_at a off pre new old :
  off = len pre -> len pre + len new <= len old ->
  mem_write (CMem a (pre ++ drop (length pre) old)) off new
  = Ok (CMem a ((pre ++ new) ++ drop (length (pre ++ new)) old)).
Proof. unfold len. intros -> ?. apply mem_write_next. lia. Qed.

(** A run of bytes written before the field in front of it. *)
Lemma mem_write_gap a pre gap text old :
  len pre + len gap + len text <= len old ->
  exists m, mem_write (CMem a (pre ++ drop (length pre) old)) (len pre + len gap) text = Ok m /\
    mem_write m (len pre) gap
    = Ok (CMem a ((pre ++ gap ++ text) ++ drop (length (pre ++ gap ++ text)) old)).
Proof.
  intros Hl. unfold len in *.
  eexists. split; [apply mem_write_ok; [lia|unfold mem_size; cbn; rewrite length_app, length_drop; lia]|].
  cbn [addr bytes]. replace (Z.to_nat (_ + _)) with (length pre + length gap)%nat by lia.
  unfold splice. rewrite mem_write_ok; [|lia|unfold mem_size; cbn; rewrite !length_app, !length_take, !length_drop,
    !length_app, !length_drop; lia].
  cbn [addr bytes]. rewrite Nat2Z.id. f_equal. f_equal. unfold splice.
  assert (length (take (length pre + length gap) (pre ++ drop (length pre) old)) = length pre + length gap)%nat as El
    by (rewrite length_take, length_app, length_drop; lia).
  rewrite take_app_le, take_take, Nat.min_l, take_app_length by lia. rewrite <- app_assoc. f_equal.
  rewrite <- app_assoc. f_equal. rewrite (drop_app_ge (take _ _)), El by lia.
  rewrite Nat.sub_diag, drop_0. f_equal.
  rewrite drop_app_ge, drop_drop, !length_app by lia. f_equal. lia.
Qed.

Lemma le_enc_1 v : 0 <= v < 256 -> le_enc 1 v = [v].
Proof. intros. cbn. by rewrite Z.mod_small. Qed.

Lemma fld_lies m k o n v :
  lies m (k + Z.of_nat o) (le_enc n v) -> 0 <= k -> 0 <= v < 256 ^ Z.of_nat n -> fld (ptr_at m k) o n = v.
Proof.
  intros [Hk [post E]] Hk0 Hv. unfold fld, slice, ptr_at. cbn [bytes]. rewrite drop_drop.
  replace (Z.to_nat k + o)%nat with (Z.to_nat (k + Z.of_nat o)) by lia. rewrite E.
  rewrite take_app_length' by by rewrite le_enc_length. by apply le_dec_enc_id.
Qed.

(** Split what lies at [k] into its pieces. *)
Ltac pieces H :=
  repeat (let H' := fresh "P" in apply lies_app in H as [H' H];
          rewrite ?len_le_enc in H;
          change (Z.of_nat 1) with 1 in H; change (Z.of_nat 2) with 2 in H; change (Z.of_nat 4) with 4 in H;
          change (Z.of_nat 8) with 8 in H; change (len (@nil Z)) with 0 in H).

(** The first field or run of bytes the goal reads is one of the pieces. *)
Ltac read_piece :=
  match goal with
  | |- context [mem_le ?m ?q ?n] =>
      match goal with
      | P : lies m ?p (le_enc ?k ?v) |- _ =>
          rewrite (mem_le_at m p q k n v P) by first [reflexivity | assumption | lia | (cbn; lia)]
      end
  | |- context [mem_read ?m ?q ?n] =>
      match goal with
      | P : lies m ?p ?l |- _ => rewrite (mem_read_at m p q n l P) by first [reflexivity | lia]
      end
  end; cbn [mbind outcome_bind mret outcome_ret].

(** A write behind what has been written so far, or at the start. *)
Ltac write_piece :=
  match goal with
  | |- context [mem_write (CMem ?a (?pre ++ drop (length ?pre) ?old)) ?off ?new] =>
      rewrite (mem_write_at a off pre new old)
        by (rewrite ?len_app, ?len_le_enc; cbn in *; lia)
  | |- context [mem_write (CMem ?a ?old) 0 ?new] =>
      rewrite (mem_write_first a new old) by (rewrite ?le_enc_length; unfold len in *; cbn in *; lia)
  end; cbn [mbind outcome_bind mret outcome_ret].

Lemma bind_ok {S A B} (m : stM S A) (k : A -> stM S B) s a s' : m s = Ok (a, s') -> (m ≫= k) s = k a s'.
Proof. unfold mbind, stM_bind. by intros ->. Qed.

(** A step that cannot touch the state. *)
Lemma lift_ok {S A B} (m : outcome A) a (k : A -> stM S B) s : m = Ok a -> (lift m ≫= k) s = k a s.
Proof. by intros ->. Qed.

(** Writing over what lies between. *)
Lemma mem_write_over a pre old new post off :
  off = len pre -> length new = length old ->
  mem_write (CMem a (pre ++ old ++ post)) off new = Ok (CMem a (pre ++ new ++ post)).
Proof.
  intros -> Hl. rewrite mem_write_ok; [|unfold len; lia|].
  2: { unfold len, mem_size. cbn. rewrite !length_app. lia. }
  cbn [addr bytes]. unfold len. rewrite Nat2Z.id. do 2 f_equal. unfold splice.
  rewrite take_app_length, drop_app_ge by lia. replace (_ + _ - _)%nat with (length old) by lia.
  by rewrite drop_app_length.
Qed.
