(* ===== verification/Edac.v ===== *)
(** * Error detecting codes (src/edac.c)

    The table-driven CRC-32 and CRC-8, against the bit-serial registers the
    tables were made from, and what a checksum mismatch can be relied on to
    catch. *)

From S2P Require Import Prelude.

Definition crc32_tab : list Z := [
   0x00000000; 0x77073096; 0xee0e612c; 0x990951ba; 0x076dc419; 0x706af48f;
   0xe963a535; 0x9e6495a3; 0x0edb8832; 0x79dcb8a4; 0xe0d5e91e; 0x97d2d988;
   0x09b64c2b; 0x7eb17cbd; 0xe7b82d07; 0x90bf1d91; 0x1db71064; 0x6ab020f2;
   0xf3b97148; 0x84be41de; 0x1adad47d; 0x6ddde4eb; 0xf4d4b551; 0x83d385c7;
   0x136c9856; 0x646ba8c0; 0xfd62f97a; 0x8a65c9ec; 0x14015c4f; 0x63066cd9;
   0xfa0f3d63; 0x8d080df5; 0x3b6e20c8; 0x4c69105e; 0xd56041e4; 0xa2677172;
   0x3c03e4d1; 0x4b04d447; 0xd20d85fd; 0xa50ab56b; 0x35b5a8fa; 0x42b2986c;
   0xdbbbc9d6; 0xacbcf940; 0x32d86ce3; 0x45df5c75; 0xdcd60dcf; 0xabd13d59;
   0x26d930ac; 0x51de003a; 0xc8d75180; 0xbfd06116; 0x21b4f4b5; 0x56b3c423;
   0xcfba9599; 0xb8bda50f; 0x2802b89e; 0x5f058808; 0xc60cd9b2; 0xb10be924;
   0x2f6f7c87; 0x58684c11; 0xc1611dab; 0xb6662d3d; 0x76dc4190; 0x01db7106;
   0x98d220bc; 0xefd5102a; 0x71b18589; 0x06b6b51f; 0x9fbfe4a5; 0xe8b8d433;
   0x7807c9a2; 0x0f00f934; 0x9609a88e; 0xe10e9818; 0x7f6a0dbb; 0x086d3d2d;
   0x91646c97; 0xe6635c01; 0x6b6b51f4; 0x1c6c6162; 0x856530d8; 0xf262004e;
   0x6c0695ed; 0x1b01a57b; 0x8208f4c1; 0xf50fc457; 0x65b0d9c6; 0x12b7e950;
   0x8bbeb8ea; 0xfcb9887c; 0x62dd1ddf; 0x15da2d49; 0x8cd37cf3; 0xfbd44c65;
   0x4db26158; 0x3ab551ce; 0xa3bc0074; 0xd4bb30e2; 0x4adfa541; 0x3dd895d7;
   0xa4d1c46d; 0xd3d6f4fb; 0x4369e96a; 0x346ed9fc; 0xad678846; 0xda60b8d0;
   0x44042d73; 0x33031de5; 0xaa0a4c5f; 0xdd0d7cc9; 0x5005713c; 0x270241aa;
   0xbe0b1010; 0xc90c2086; 0x5768b525; 0x206f85b3; 0xb966d409; 0xce61e49f;
   0x5edef90e; 0x29d9c998; 0xb0d09822; 0xc7d7a8b4; 0x59b33d17; 0x2eb40d81;
   0xb7bd5c3b; 0xc0ba6cad; 0xedb88320; 0x9abfb3b6; 0x03b6e20c; 0x74b1d29a;
   0xead54739; 0x9dd277af; 0x04db2615; 0x73dc1683; 0xe3630b12; 0x94643b84;
   0x0d6d6a3e; 0x7a6a5aa8; 0xe40ecf0b; 0x9309ff9d; 0x0a00ae27; 0x7d079eb1;
   0xf00f9344; 0x8708a3d2; 0x1e01f268; 0x6906c2fe; 0xf762575d; 0x806567cb;
   0x196c3671; 0x6e6b06e7; 0xfed41b76; 0x89d32be0; 0x10da7a5a; 0x67dd4acc;
   0xf9b9df6f; 0x8ebeeff9; 0x17b7be43; 0x60b08ed5; 0xd6d6a3e8; 0xa1d1937e;
   0x38d8c2c4; 0x4fdff252; 0xd1bb67f1; 0xa6bc5767; 0x3fb506dd; 0x48b2364b;
   0xd80d2bda; 0xaf0a1b4c; 0x36034af6; 0x41047a60; 0xdf60efc3; 0xa867df55;
   0x316e8eef; 0x4669be79; 0xcb61b38c; 0xbc66831a; 0x256fd2a0; 0x5268e236;
   0xcc0c7795; 0xbb0b4703; 0x220216b9; 0x5505262f; 0xc5ba3bbe; 0xb2bd0b28;
   0x2bb45a92; 0x5cb36a04; 0xc2d7ffa7; 0xb5d0cf31; 0x2cd99e8b; 0x5bdeae1d;
   0x9b64c2b0; 0xec63f226; 0x756aa39c; 0x026d930a; 0x9c0906a9; 0xeb0e363f;
   0x72076785; 0x05005713; 0x95bf4a82; 0xe2b87a14; 0x7bb12bae; 0x0cb61b38;
   0x92d28e9b; 0xe5d5be0d; 0x7cdcefb7; 0x0bdbdf21; 0x86d3d2d4; 0xf1d4e242;
   0x68ddb3f8; 0x1fda836e; 0x81be16cd; 0xf6b9265b; 0x6fb077e1; 0x18b74777;
   0x88085ae6; 0xff0f6a70; 0x66063bca; 0x11010b5c; 0x8f659eff; 0xf862ae69;
   0x616bffd3; 0x166ccf45; 0xa00ae278; 0xd70dd2ee; 0x4e048354; 0x3903b3c2;
   0xa7672661; 0xd06016f7; 0x4969474d; 0x3e6e77db; 0xaed16a4a; 0xd9d65adc;
   0x40df0b66; 0x37d83bf0; 0xa9bcae53; 0xdebb9ec5; 0x47b2cf7f; 0x30b5ffe9;
   0xbdbdf21c; 0xcabac28a; 0x53b39330; 0x24b4a3a6; 0xbad03605; 0xcdd70693;
   0x54de5729; 0x23d967bf; 0xb3667a2e; 0xc4614ab8; 0x5d681b02; 0x2a6f2b94;
   0xb40bbe37; 0xc30c8ea1; 0x5a05df1b; 0x2d02ef8d].

Definition crc8_table : list Z := [
   0x00; 0x07; 0x0e; 0x09; 0x1c; 0x1b; 0x12; 0x15; 0x38; 0x3f; 0x36; 0x31;
   0x24; 0x23; 0x2a; 0x2d; 0x70; 0x77; 0x7e; 0x79; 0x6c; 0x6b; 0x62; 0x65;
   0x48; 0x4f; 0x46; 0x41; 0x54; 0x53; 0x5a; 0x5d; 0xe0; 0xe7; 0xee; 0xe9;
   0xfc; 0xfb; 0xf2; 0xf5; 0xd8; 0xdf; 0xd6; 0xd1; 0xc4; 0xc3; 0xca; 0xcd;
   0x90; 0x97; 0x9e; 0x99; 0x8c; 0x8b; 0x82; 0x85; 0xa8; 0xaf; 0xa6; 0xa1;
   0xb4; 0xb3; 0xba; 0xbd; 0xc7; 0xc0; 0xc9; 0xce; 0xdb; 0xdc; 0xd5; 0xd2;
   0xff; 0xf8; 0xf1; 0xf6; 0xe3; 0xe4; 0xed; 0xea; 0xb7; 0xb0; 0xb9; 0xbe;
   0xab; 0xac; 0xa5; 0xa2; 0x8f; 0x88; 0x81; 0x86; 0x93; 0x94; 0x9d; 0x9a;
   0x27; 0x20; 0x29; 0x2e; 0x3b; 0x3c; 0x35; 0x32; 0x1f; 0x18; 0x11; 0x16;
   0x03; 0x04; 0x0d; 0x0a; 0x57; 0x50; 0x59; 0x5e; 0x4b; 0x4c; 0x45; 0x42;
   0x6f; 0x68; 0x61; 0x66; 0x73; 0x74; 0x7d; 0x7a; 0x89; 0x8e; 0x87; 0x80;
   0x95; 0x92; 0x9b; 0x9c; 0xb1; 0xb6; 0xbf; 0xb8; 0xad; 0xaa; 0xa3; 0xa4;
   0xf9; 0xfe; 0xf7; 0xf0; 0xe5; 0xe2; 0xeb; 0xec; 0xc1; 0xc6; 0xcf; 0xc8;
   0xdd; 0xda; 0xd3; 0xd4; 0x69; 0x6e; 0x67; 0x60; 0x75; 0x72; 0x7b; 0x7c;
   0x51; 0x56; 0x5f; 0x58; 0x4d; 0x4a; 0x43; 0x44; 0x19; 0x1e; 0x17; 0x10;
   0x05; 0x02; 0x0b; 0x0c; 0x21; 0x26; 0x2f; 0x28; 0x3d; 0x3a; 0x33; 0x34;
   0x4e; 0x49; 0x40; 0x47; 0x52; 0x55; 0x5c; 0x5b; 0x76; 0x71; 0x78; 0x7f;
   0x6a; 0x6d; 0x64; 0x63; 0x3e; 0x39; 0x30; 0x37; 0x22; 0x25; 0x2c; 0x2b;
   0x06; 0x01; 0x08; 0x0f; 0x1a; 0x1d; 0x14; 0x13; 0xae; 0xa9; 0xa0; 0xa7;
   0xb2; 0xb5; 0xbc; 0xbb; 0x96; 0x91; 0x98; 0x9f; 0x8a; 0x8d; 0x84; 0x83;
   0xde; 0xd9; 0xd0; 0xd7; 0xc2; 0xc5; 0xcc; 0xcb; 0xe6; 0xe1; 0xe8; 0xef;
   0xfa; 0xfd; 0xf4; 0xf3].

(** Indexing a table: outside it is an out-of-bounds read. *)
Definition tab_at (tab : list Z) (i : Z) : outcome Z :=
  if i <? 0 then Fault FMemory
  else match tab !! Z.to_nat i with Some v => Ok v | None => Fault FMemory end.

(** [while (size--)] over [*p++]. *)
Fixpoint crc32_loop (size : nat) (p : list Z) (crc : Z) : outcome Z :=
  match size, p with
  | O, _ => Ok crc
  | S _, [] => Fault FMemory
  | S size, b :: p =>
      t ← tab_at crc32_tab (Z.land (Z.lxor crc b) 0xff);
      crc32_loop size p (Z.lxor t (Z.shiftr crc 8))
  end.

Definition data_bytes (data : option cmem) : list Z :=
  match data with Some m => bytes m | None => [] end.

Definition pldm_edac_crc32_extend (data : option cmem) (size crc : Z) : outcome Z :=
  crc ← crc32_loop (Z.to_nat size) (data_bytes data) (Z.lxor crc UINT32_MAX);
  mret (Z.lxor crc UINT32_MAX).

Definition pldm_edac_crc32 (data : option cmem) (size : Z) : outcome Z :=
  pldm_edac_crc32_extend data size 0.

Definition pldm_edac_crc32_validate (expected : Z) (data : option cmem) (size : Z) : outcome Z :=
  if (match data with None => true | Some _ => false end) && negb (size =? 0) then
    Ok (- EINVAL)
  else
    actual ← pldm_edac_crc32 data size;
    mret (if expected =? actual then 0 else - EUCLEAN).

Fixpoint crc8_loop (size : nat) (p : list Z) (crc : Z) : outcome Z :=
  match size, p with
  | O, _ => Ok crc
  | S _, [] => Fault FMemory
  | S size, b :: p =>
      crc ← tab_at crc8_table (Z.lxor crc b);
      crc8_loop size p crc
  end.

Definition pldm_edac_crc8 (data : option cmem) (size : Z) : outcome Z :=
  crc8_loop (Z.to_nat size) (data_bytes data) 0.

(** ** The shift registers

    One bit of input at a time: CRC-32 (IEEE 802.3) least significant bit first
    with the reflected polynomial, CRC-8 (SMBus) most significant bit first. *)

Definition crc32_bit (c : Z) : Z :=
  if Z.odd c then Z.lxor (Z.shiftr c 1) 0xEDB88320 else Z.shiftr c 1.

Definition crc32_byte (c b : Z) : Z := Nat.iter 8 crc32_bit (Z.lxor c b).

Definition crc32_ref (crc : Z) (data : list Z) : Z :=
  Z.lxor (foldl crc32_byte (Z.lxor crc UINT32_MAX) data) UINT32_MAX.

Definition crc8_bit (c : Z) : Z :=
  u8 (if Z.testbit c 7 then Z.lxor (Z.shiftl c 1) 0x07 else Z.shiftl c 1).

Definition crc8_byte (c b : Z) : Z := Nat.iter 8 crc8_bit (Z.lxor c b).

Definition crc8_ref (data : list Z) : Z := foldl crc8_byte 0 data.

(** *** Tables against registers *)

(** A table of 256 entries holds a function if every entry does. *)
Definition tabulates (tab : list Z) (f : Z -> Z) : bool :=
  forallb (fun n => match tab !! n with Some v => v =? f (Z.of_nat n) | None => false end)
          (seq 0 256).

Lemma tab_at_ok tab f i : tabulates tab f = true -> 0 <= i < 256 -> tab_at tab i = Ok (f i).
Proof.
  unfold tabulates, tab_at. rewrite forallb_forall. intros Htab Hi. cmp_case; [lia|].
  specialize (Htab (Z.to_nat i)). rewrite in_seq in Htab.
  destruct (tab !! Z.to_nat i) as [v|]; [|by discriminate Htab; lia].
  rewrite Z2Nat.id in Htab by lia. f_equal. apply Z.eqb_eq, Htab. lia.
Qed.

Lemma crc32_tab_ok i : 0 <= i < 256 -> tab_at crc32_tab i = Ok (Nat.iter 8 crc32_bit i).
Proof. apply (tab_at_ok _ (Nat.iter 8 crc32_bit)). by vm_compute. Qed.

Lemma crc8_table_ok i : 0 <= i < 256 -> tab_at crc8_table i = Ok (Nat.iter 8 crc8_bit i).
Proof. apply (tab_at_ok _ (Nat.iter 8 crc8_bit)). by vm_compute. Qed.

(** Bits above the one shifted out just move down. *)
Lemma crc32_bit_shift x y :
  crc32_bit (Z.lxor x (Z.shiftl y 1)) = Z.lxor (crc32_bit x) y.
Proof.
  unfold crc32_bit. rewrite <- !Z.bit0_odd, Z.lxor_spec, Z.shiftl_spec_low, xorb_false_r by lia.
  rewrite Z.shiftr_lxor, Z.shiftr_shiftl_l by lia. rewrite Z.shiftl_0_r.
  destruct (Z.testbit x 0); [|done]. by rewrite !Z.lxor_assoc, (Z.lxor_comm y).
Qed.

Lemma crc32_iter_shift n x y :
  Nat.iter n crc32_bit (Z.lxor x (Z.shiftl y (Z.of_nat n))) = Z.lxor (Nat.iter n crc32_bit x) y.
Proof.
  revert y. induction n as [|n IH]; intros y; [by rewrite Z.shiftl_0_r|].
  rewrite !Nat.iter_succ, Nat2Z.inj_succ, <- Z.add_1_l, <- Z.shiftl_shiftl by lia.
  rewrite IH. apply crc32_bit_shift.
Qed.

Lemma land_255 x : Z.land x 255 = x mod 256.
Proof. change 255 with (Z.ones 8). by rewrite Z.land_ones by lia. Qed.

Lemma low_high x : x = Z.lxor (Z.land x 255) (Z.shiftl (Z.shiftr x 8) 8).
Proof.
  apply Z.bits_inj'. intros i Hi.
  rewrite Z.lxor_spec, land_255. change 256 with (2 ^ 8). rewrite Z.testbit_mod_pow2 by lia.
  destruct (Z.lt_ge_cases i 8).
  - rewrite Z.shiftl_spec_low by lia. rewrite (proj2 (Z.ltb_lt _ _)) by lia.
    by rewrite xorb_false_r.
  - rewrite Z.shiftl_spec_high, Z.shiftr_spec by lia.
    rewrite (proj2 (Z.ltb_ge _ _)) by lia. cbn. f_equal. lia.
Qed.

Lemma shiftr_byte b : 0 <= b < 256 -> Z.shiftr b 8 = 0.
Proof. intros. rewrite Z.shiftr_div_pow2 by lia. apply Z.div_small. cbn; lia. Qed.

(** One table step is eight register steps. *)
Lemma crc32_step c b :
  byte_ok b ->
  (t ← tab_at crc32_tab (Z.land (Z.lxor c b) 0xff); Ok (Z.lxor t (Z.shiftr c 8)))
  = Ok (crc32_byte c b).
Proof.
  intros Hb. rewrite crc32_tab_ok by (rewrite land_255; apply Z.mod_pos_bound; lia).
  cbn [mbind outcome_bind]. unfold crc32_byte. rewrite (low_high (Z.lxor c b)) at 2.
  rewrite (crc32_iter_shift 8), Z.shiftr_lxor, (shiftr_byte b), Z.lxor_0_r by done. done.
Qed.

Lemma crc32_loop_ref n p c :
  bytes_ok p -> (n <= length p)%nat -> crc32_loop n p c = Ok (foldl crc32_byte c (take n p)).
Proof.
  intros Hp. revert n c. induction Hp as [|b p Hb Hp IH]; intros [|n] c Hn; [done|simpl in Hn; lia|done|].
  cbn [crc32_loop take firstn foldl length] in *. rewrite <- IH by lia.
  pose proof (crc32_step c b Hb) as E. cbn [mbind outcome_bind] in *.
  destruct (tab_at crc32_tab _); cbn [mbind outcome_bind] in *; [|done]. by injection E as ->.
Qed.

(** *** What a checksum catches *)

Lemma crc32_bit_range c : 0 <= c < 2 ^ 32 -> 0 <= crc32_bit c < 2 ^ 32.
Proof.
  intros Hc. assert (0 <= Z.shiftr c 1 < 2 ^ 31).
  { rewrite Z.shiftr_div_pow2 by lia. change (2 ^ 1) with 2. split; [apply Z.div_pos; lia|].
    apply Z.div_lt_upper_bound; lia. }
  unfold crc32_bit. destruct (Z.odd c); [|lia].
  assert (0 <= Z.lxor (Z.shiftr c 1) 0xEDB88320) by (rewrite Z.lxor_nonneg; lia).
  split; [done|]. apply Z.log2_lt_cancel. rewrite Z.log2_pow2 by lia.
  pose proof (Z.log2_lxor (Z.shiftr c 1) 0xEDB88320 ltac:(lia) ltac:(lia)).
  assert (Z.log2 (Z.shiftr c 1) <= 31) by (transitivity (Z.log2 (2 ^ 31)); [apply Z.log2_le_mono; lia|done]).
  change (Z.log2 0xEDB88320) with 31 in *. lia.
Qed.

(** The bit shifted out is readable off the top bit, so a register step can be
    undone. *)
Lemma crc32_bit_inj c d :
  0 <= c < 2 ^ 32 -> 0 <= d < 2 ^ 32 -> crc32_bit c = crc32_bit d -> c = d.
Proof.
  assert (forall x, 0 <= x < 2 ^ 32 -> Z.testbit (crc32_bit x) 31 = Z.odd x) as Htop.
  { intros x Hx. unfold crc32_bit.
    assert (Z.testbit (Z.shiftr x 1) 31 = false) as E.
    { rewrite Z.shiftr_spec, Z.testbit_eqb by lia. change (2 ^ (31 + 1)) with (2 ^ 32).
      by rewrite Z.div_small by lia. }
    destruct (Z.odd x); rewrite ?Z.lxor_spec, E; done. }
  intros Hc Hd E. pose proof (Htop c Hc) as Hoc. pose proof (Htop d Hd) as Hod.
  assert (Z.odd c = Z.odd d) as Ho by congruence.
  assert (Z.shiftr c 1 = Z.shiftr d 1) as Es.
  { unfold crc32_bit in E. rewrite <- Ho in E. destruct (Z.odd c); [|done].
    apply (f_equal (fun z => Z.lxor z 0xEDB88320)) in E.
    by rewrite !Z.lxor_assoc, !Z.lxor_nilpotent, !Z.lxor_0_r in E. }
  rewrite <- !Z.div2_spec in Es. rewrite (Z.div2_odd c), (Z.div2_odd d). congruence.
Qed.

Lemma crc32_iter_range n c : 0 <= c < 2 ^ 32 -> 0 <= Nat.iter n crc32_bit c < 2 ^ 32.
Proof. intros. induction n; [done|]. by apply crc32_bit_range. Qed.

Lemma crc32_iter_inj n c d :
  0 <= c < 2 ^ 32 -> 0 <= d < 2 ^ 32 ->
  Nat.iter n crc32_bit c = Nat.iter n crc32_bit d -> c = d.
Proof.
  intros. induction n as [|n IH]; [done|]. apply IH.
  apply crc32_bit_inj; [by apply crc32_iter_range..|done].
Qed.

Lemma lxor_range n x y : 0 <= x < 2 ^ n -> 0 <= y < 2 ^ n -> 0 <= n -> 0 <= Z.lxor x y < 2 ^ n.
Proof.
  intros Hx Hy Hn. assert (0 <= Z.lxor x y) by (rewrite Z.lxor_nonneg; lia). split; [done|].
  destruct (Z.eq_dec (Z.lxor x y) 0) as [->|]; [lia|].
  apply Z.log2_lt_pow2; [lia|]. pose proof (Z.log2_lxor x y ltac:(lia) ltac:(lia)).
  assert (forall z, 0 <= z < 2 ^ n -> z = 0 \/ Z.log2 z < n) as Hl.
  { intros z Hz. destruct (Z.eq_dec z 0); [by left|]. right. apply Z.log2_lt_pow2; lia. }
  destruct (Hl x Hx) as [->|], (Hl y Hy) as [->|]; rewrite ?Z.lxor_0_l, ?Z.lxor_0_r in *; lia.
Qed.

(** A run of bytes enters the register like the little-endian number they spell. *)
Lemma crc32_run c w :
  bytes_ok w -> foldl crc32_byte c w = Nat.iter (8 * length w) crc32_bit (Z.lxor c (le_dec w)).
Proof.
  intros Hw. revert c. induction Hw as [|b w Hb Hw IH]; intros c; cbn [foldl length le_dec].
  { by rewrite Z.lxor_0_r. }
  rewrite IH. unfold crc32_byte. rewrite <- (crc32_iter_shift 8).
  rewrite <- Nat.iter_add. replace (8 * length w + 8)%nat with (8 * S (length w))%nat by lia.
  f_equal. rewrite Z.lxor_assoc. f_equal.
  change (Z.of_nat 8) with 8. unfold byte_ok in Hb.
  rewrite <- Z.add_nocarry_lxor by (apply land_shiftl_0; lia).
  rewrite Z.shiftl_mul_pow2 by lia. lia.
Qed.

Lemma crc32_byte_range c b : 0 <= c < 2 ^ 32 -> byte_ok b -> 0 <= crc32_byte c b < 2 ^ 32.
Proof.
  intros Hc Hb. unfold crc32_byte. apply (crc32_iter_range 8), lxor_range; [done| |lia].
  unfold byte_ok in Hb. lia.
Qed.

Lemma crc32_foldl_range p c :
  bytes_ok p -> 0 <= c < 2 ^ 32 -> 0 <= foldl crc32_byte c p < 2 ^ 32.
Proof. intros Hp. revert c. induction Hp; intros c Hc; [done|]. by apply IHHp, crc32_byte_range. Qed.

Lemma crc32_ref_range l : bytes_ok l -> 0 <= crc32_ref 0 l < 4294967296.
Proof.
  intros Hl. unfold crc32_ref. rewrite Z.lxor_0_l. apply (lxor_range 32); [|lia..].
  apply crc32_foldl_range; [done|lia].
Qed.

(** Different registers stay different over the same bytes. *)
Lemma crc32_foldl_inj p c d :
  bytes_ok p -> 0 <= c < 2 ^ 32 -> 0 <= d < 2 ^ 32 ->
  foldl crc32_byte c p = foldl crc32_byte d p -> c = d.
Proof.
  intros Hp. revert c d. induction Hp as [|b p Hb Hp IH]; intros c d Hc Hd E; [done|].
  cbn [foldl] in E. apply IH in E; [|by apply crc32_byte_range..].
  unfold crc32_byte in E. apply (crc32_iter_inj 8) in E;
    [|apply lxor_range; unfold byte_ok in *; lia..].
  apply (f_equal (fun z => Z.lxor z b)) in E.
  by rewrite !Z.lxor_assoc, !Z.lxor_nilpotent, !Z.lxor_0_r in E.
Qed.

Lemma crc32_burst_neq c w w' :
  0 <= c < 2 ^ 32 -> bytes_ok w -> bytes_ok w' -> length w = length w' ->
  (length w <= 4)%nat -> w <> w' -> foldl crc32_byte c w <> foldl crc32_byte c w'.
Proof.
  intros Hc Hw Hw' Hlen H4 Hne E. apply Hne.
  rewrite !crc32_run, <- Hlen in E by done.
  assert (forall v, bytes_ok v -> (length v <= 4)%nat -> 0 <= le_dec v < 2 ^ 32) as Hv.
  { intros v Hv Hv4. pose proof (le_dec_bound v Hv).
    assert (256 ^ Z.of_nat (length v) <= 256 ^ 4) by (apply Z.pow_le_mono_r; lia). lia. }
  apply crc32_iter_inj in E;
    [|apply lxor_range; [done|apply Hv; [done|lia]|lia]..].
  apply (f_equal (Z.lxor c)) in E.
  rewrite <- !Z.lxor_assoc, Z.lxor_nilpotent, !Z.lxor_0_l in E.
  rewrite <- (le_enc_dec w), <- (le_enc_dec w') by done. congruence.
Qed.

Lemma crc32_extend_ref m size crc :
  bytes_ok (bytes m) -> 0 <= size <= mem_size m ->
  pldm_edac_crc32_extend (Some m) size crc = Ok (crc32_ref crc (take (Z.to_nat size) (bytes m))).
Proof.
  intros Hm Hs. unfold pldm_edac_crc32_extend. cbn [data_bytes].
  rewrite crc32_loop_ref; [done|done|]. unfold mem_size in Hs. lia.
Qed.

Lemma crc8_loop_ref n p c :
  bytes_ok p -> byte_ok c -> (n <= length p)%nat ->
  crc8_loop n p c = Ok (foldl crc8_byte c (take n p)).
Proof.
  intros Hp. revert n c. induction Hp as [|b p Hb Hp IH]; intros [|n] c Hc Hn;
    [done|simpl in Hn; lia|done|].
  cbn [crc8_loop take firstn foldl length] in *.
  rewrite crc8_table_ok by (apply (lxor_range 8); [done..|lia]). apply IH; [|lia].
  change (Nat.iter 8 crc8_bit (Z.lxor c b)) with (u8 (if Z.testbit (Nat.iter 7 crc8_bit (Z.lxor c b)) 7
    then Z.lxor (Z.shiftl (Nat.iter 7 crc8_bit (Z.lxor c b)) 1) 0x07
    else Z.shiftl (Nat.iter 7 crc8_bit (Z.lxor c b)) 1)).
  unfold u8, byte_ok. apply Z.mod_pos_bound. lia.
Qed.

(** ** Properties *)

(** C6: the table-driven checksums are the CRC-32 of IEEE 802.3 and the CRC-8 of
    SMBus.  For any accessible buffer they read exactly the [size] bytes they are
    given and return what the bit-serial shift registers return; a CRC-32 extended
    piece by piece is the CRC-32 of the pieces together. *)
Theorem crc_is_reference m size crc k :
  bytes_ok (bytes m) -> 0 <= k <= size -> size <= mem_size m ->
  let data := take (Z.to_nat size) (bytes m) in
  pldm_edac_crc32 (Some m) size = Ok (crc32_ref 0 data) /\
  pldm_edac_crc8 (Some m) size = Ok (crc8_ref data) /\
  pldm_edac_crc32_extend (Some m) size crc
  = (crc' ← pldm_edac_crc32_extend (Some m) k crc;
     pldm_edac_crc32_extend
       (Some (CMem (addr m + k) (drop (Z.to_nat k) (bytes m)))) (size - k) crc').
Proof.
  intros Hm Hk Hs data. unfold mem_size in Hs. split_and!.
  - unfold pldm_edac_crc32. apply crc32_extend_ref; [done|unfold mem_size; lia].
  - unfold pldm_edac_crc8. cbn [data_bytes]. apply crc8_loop_ref; [done|done|lia].
  - rewrite !crc32_extend_ref by (done || unfold mem_size; lia). cbn [mbind outcome_bind].
    rewrite crc32_extend_ref.
    + unfold crc32_ref. rewrite Z.lxor_assoc, Z.lxor_nilpotent, Z.lxor_0_r, <- foldl_app.
      cbn [bytes]. do 3 f_equal. rewrite <- (take_drop (Z.to_nat k) (take (Z.to_nat size) _)).
      rewrite take_take, skipn_firstn_comm. do 2 f_equal; [lia|]. f_equal. lia.
    + by apply Forall_drop.
    + unfold mem_size. cbn. rewrite length_drop. lia.
Qed.

Lemma crc_is_reference_witness :
  let m := CMem 16 [49; 50; 51; 52; 53; 54; 55; 56; 57] in
  pldm_edac_crc32 (Some m) 9 = Ok 0xCBF43926 /\ pldm_edac_crc8 (Some m) 9 = Ok 0xF4 /\
  let data := take (Z.to_nat 9) (bytes m) in
  pldm_edac_crc32 (Some m) 9 = Ok (crc32_ref 0 data) /\
  pldm_edac_crc8 (Some m) 9 = Ok (crc8_ref data) /\
  pldm_edac_crc32_extend (Some m) 9 7
  = (crc' ← pldm_edac_crc32_extend (Some m) 4 7;
     pldm_edac_crc32_extend
       (Some (CMem (addr m + 4) (drop (Z.to_nat 4) (bytes m)))) (9 - 4) crc').
Proof.
  split; [by vm_compute|]. split; [by vm_compute|].
  apply (crc_is_reference (CMem 16 [49; 50; 51; 52; 53; 54; 55; 56; 57]) 9 7 4).
  all: concrete.
Defined.

(** validation accepts the data the checksum was computed over and rejects
    every burst error: if two messages differ, and only within four consecutive
    bytes, the checksum of one does not validate the other and the answer is
    -EUCLEAN. *)
Theorem crc32_validate_burst a a' pre w w' post crc :
  let m := CMem a (pre ++ w ++ post) in
  let m' := CMem a' (pre ++ w' ++ post) in
  bytes_ok (bytes m) -> bytes_ok (bytes m') ->
  length w = length w' -> (length w <= 4)%nat -> w <> w' ->
  pldm_edac_crc32 (Some m) (mem_size m) = Ok crc ->
  pldm_edac_crc32_validate crc (Some m) (mem_size m) = Ok 0 /\
  pldm_edac_crc32_validate crc (Some m') (mem_size m') = Ok (- EUCLEAN).
Proof.
  intros m m' Hm Hm' Hlen H4 Hne Hcrc. unfold pldm_edac_crc32_validate. cbn [andb].
  rewrite Hcrc. cbn. rewrite Z.eqb_refl. split; [done|]. revert Hcrc.
  unfold pldm_edac_crc32.
  assert (forall x, 0 <= mem_size x <= mem_size x) as Hsz by (intros; unfold mem_size; lia).
  rewrite !crc32_extend_ref by done.
  intros [= <-]. cbn. cmp_case; [|done]. exfalso. revert e. unfold crc32_ref, mem_size.
  rewrite !Nat2Z.id, !firstn_all. cbn [bytes m m'].
  intros E. apply (f_equal (fun z => Z.lxor z UINT32_MAX)) in E.
  rewrite !Z.lxor_assoc, !Z.lxor_nilpotent, !Z.lxor_0_r, !foldl_app in E. cbn [bytes m m'] in Hm, Hm'.
  rewrite !Forall_app in Hm, Hm'. destruct Hm as (Hpre & Hw & Hpost), Hm' as (_ & Hw' & _).
  assert (0 <= foldl crc32_byte (Z.lxor 0 UINT32_MAX) pre < 2 ^ 32) as Hr.
  { apply crc32_foldl_range; [done|]. rewrite Z.lxor_0_l; lia. }
  apply crc32_foldl_inj in E; [|done|by apply crc32_foldl_range..].
  by apply crc32_burst_neq in E.
Qed.

Lemma crc32_validate_burst_witness :
  let m := CMem 0 ([1; 2] ++ [3; 4; 5; 6] ++ [7]) in
  let m' := CMem 0 ([1; 2] ++ [255; 4; 0; 6] ++ [7]) in
  pldm_edac_crc32_validate 0x70E46888 (Some m) (mem_size m) = Ok 0 /\
  pldm_edac_crc32_validate 0x70E46888 (Some m') (mem_size m') = Ok (- EUCLEAN).
Proof.
  apply (crc32_validate_burst 0 0 [1; 2] [3; 4; 5; 6] [255; 4; 0; 6] [7]).
  all: first [by vm_compute | concrete].
Defined.
