(* ===== verification/Utils.v ===== *)
(** * Small conversions and checks (src/bcd.c, src/utils.c)

    Binary coded decimal in the three widths the library converts, the legality
    of a timestamp, and the transfer flag check the multi-part commands share. *)

From S2P Require Import Prelude.

(** ** Binary coded decimal *)

Definition pldm_bcd_bcd2dec8 (bcd : Z) : Z := u8 (Z.shiftr bcd 4 * 10 + Z.land bcd 0x0f).

Definition pldm_bcd_dec2bcd8 (dec : Z) : Z := u8 (Z.shiftl (dec / 10) 4 + dec mod 10).

(** Arguments are converted to the parameter's type at each call. *)
Definition pldm_bcd_bcd2dec16 (bcd : Z) : Z :=
  u16 (pldm_bcd_bcd2dec8 (u8 (Z.shiftr bcd 8)) * 100
       + pldm_bcd_bcd2dec8 (u8 (Z.land bcd 0xff))).

Definition pldm_bcd_dec2bcd16 (dec : Z) : Z :=
  u16 (Z.lor (pldm_bcd_dec2bcd8 (u8 (dec mod 100)))
             (Z.shiftl (pldm_bcd_dec2bcd8 (u8 (dec / 100))) 8)).

Definition pldm_bcd_bcd2dec32 (bcd : Z) : Z :=
  u32 (pldm_bcd_bcd2dec16 (u16 (Z.shiftr bcd 16)) * 10000
       + pldm_bcd_bcd2dec16 (u16 (Z.land bcd 0xffff))).

Definition pldm_bcd_dec2bcd32 (dec : Z) : Z :=
  u32 (Z.lor (pldm_bcd_dec2bcd16 (u16 (dec mod 10000)))
             (Z.shiftl (pldm_bcd_dec2bcd16 (u16 (dec / 10000))) 16)).

(** The number whose base-[r] digits are those of [x] in base [s]. *)
Fixpoint rebase (n : nat) (r s x : Z) : Z :=
  match n with O => 0 | S n => x mod s + r * rebase n r s (x / s) end.

(** Two digits in one byte, and two parts in one wider number. *)
Lemma bcd2dec8_rebase x : 0 <= x < 256 -> pldm_bcd_bcd2dec8 x = rebase 2 10 16 x.
Proof.
  intros Hx. unfold pldm_bcd_bcd2dec8, u8. cbn [rebase].
  rewrite (shiftr_div _ _ 16), (land_mod _ 4) by done. change (2 ^ 4) with 16.
  pose proof (Z.mod_pos_bound x 16). rewrite (Z.mod_small (x / 16)) by (split; [apply Z.div_pos|apply Z.div_lt_upper_bound]; lia).
  rewrite Z.mod_small; [lia|]. pose proof (Z.div_lt_upper_bound x 16 16).
  pose proof (Z.div_pos x 16). lia.
Qed.

Lemma dec2bcd8_rebase x : 0 <= x < 100 -> pldm_bcd_dec2bcd8 x = rebase 2 16 10 x.
Proof.
  intros Hx. unfold pldm_bcd_dec2bcd8, u8. cbn [rebase].
  rewrite Z.shiftl_mul_pow2 by lia. change (2 ^ 4) with 16.
  pose proof (Z.mod_pos_bound x 10). pose proof (Z.div_lt_upper_bound x 10 10).
  pose proof (Z.div_pos x 10). rewrite (Z.mod_small (x / 10)) by lia.
  rewrite Z.mod_small; lia.
Qed.

Lemma rebase_app k n r s x :
  0 < s -> 0 <= x ->
  rebase (k + n) r s x = rebase k r s (x mod s ^ Z.of_nat k) + r ^ Z.of_nat k * rebase n r s (x / s ^ Z.of_nat k).
Proof.
  intros Hs. revert x. induction k as [|k IH]; intros x Hx.
  { cbn [rebase Nat.add]. change (s ^ Z.of_nat 0) with 1. rewrite Z.div_1_r. lia. }
  cbn [rebase Nat.add]. rewrite IH by (apply Z.div_pos; lia).
  rewrite Nat2Z.inj_succ, !Z.pow_succ_r, <- Z.div_div by lia.
  assert (0 < s ^ Z.of_nat k) by (apply Z.pow_pos_nonneg; lia).
  rewrite Z.rem_mul_r by lia. rewrite (Z.mul_comm s ((x / s) mod _)).
  rewrite Z.mod_add, Z.div_add, Zmod_mod, (Z.div_small (x mod s)) by
    (lia || apply Z.mod_pos_bound; lia). rewrite Z.add_0_l. lia.
Qed.

Lemma rebase_bound n r s x :
  1 <= r -> 0 < s -> 0 <= rebase n r s x /\ (r - 1) * rebase n r s x <= (s - 1) * (r ^ Z.of_nat n - 1).
Proof.
  intros Hr Hs. revert x. induction n as [|n IH]; intros x; [cbn; lia|].
  rewrite Nat2Z.inj_succ, Z.pow_succ_r by lia. cbn [rebase].
  specialize (IH (x / s)). pose proof (Z.mod_pos_bound x s). nia.
Qed.

(** The digits of [x] in base [s] are digits in base [r]: reading them back. *)
Fixpoint digits_below (n : nat) (r s x : Z) : Prop :=
  match n with O => x = 0 | S n => x mod s < r /\ digits_below n r s (x / s) end.

Lemma rebase_rebase n r s x :
  0 < r -> 0 < s -> digits_below n r s x -> rebase n s r (rebase n r s x) = x.
Proof.
  intros Hr Hs. revert x. induction n as [|n IH]; intros x; cbn [rebase digits_below]; [done|].
  intros [Hd Hx]. pose proof (Z.mod_pos_bound x s Hs).
  rewrite (Z.mul_comm r), Z.mod_add, Z.div_add by lia.
  rewrite (Z.mod_small (x mod s)), (Z.div_small (x mod s)) by lia. rewrite Z.add_0_l, IH by done.
  rewrite (Z.div_mod x s) at 3 by lia. lia.
Qed.

Lemma rebase_digits n r s x :
  0 < r -> 0 < s -> digits_below n r s x -> 0 <= rebase n r s x < r ^ Z.of_nat n.
Proof.
  intros Hr Hs. revert x. induction n as [|n IH]; intros x; cbn [rebase digits_below]; [done|].
  rewrite Nat2Z.inj_succ, Z.pow_succ_r by lia. intros [Hd Hx].
  specialize (IH _ Hx). pose proof (Z.mod_pos_bound x s Hs). nia.
Qed.

(** The wider conversions are the narrower one applied to both halves. *)
Lemma bcd2dec_join k b d f x :
  b = 256 ^ Z.of_nat k -> d = 100 ^ Z.of_nat k -> 0 <= x < b * b ->
  (forall y, 0 <= y < b -> f y = rebase (2 * k) 10 16 y) ->
  f (x / b) * d + f (x mod b) = rebase (2 * k + 2 * k) 10 16 x.
Proof.
  intros Hb Hd Hx Hf. assert (0 < b) by (subst; apply Z.pow_pos_nonneg; lia).
  rewrite rebase_app by lia.
  assert (16 ^ Z.of_nat (2 * k) = b) as -> by (rewrite Nat2Z.inj_mul, Z.pow_mul_r by lia; done).
  assert (10 ^ Z.of_nat (2 * k) = d) as -> by (rewrite Nat2Z.inj_mul, Z.pow_mul_r by lia; done).
  rewrite !Hf; [lia|by apply Z.mod_pos_bound|].
  split; [apply Z.div_pos|apply Z.div_lt_upper_bound]; lia.
Qed.

Lemma dec2bcd_join k b d f x :
  b = 256 ^ Z.of_nat k -> d = 100 ^ Z.of_nat k -> 0 <= x < d * d ->
  (forall y, 0 <= y < d -> f y = rebase (2 * k) 16 10 y) ->
  Z.lor (f (x mod d)) (Z.shiftl (f (x / d)) (8 * Z.of_nat k)) = rebase (2 * k + 2 * k) 16 10 x.
Proof.
  intros Hb Hd Hx Hf. assert (0 < d) by (subst; apply Z.pow_pos_nonneg; lia).
  rewrite rebase_app by lia.
  assert (10 ^ Z.of_nat (2 * k) = d) as -> by (rewrite Nat2Z.inj_mul, Z.pow_mul_r by lia; done).
  rewrite !Hf; [|split; [apply Z.div_pos|apply Z.div_lt_upper_bound]; lia|by apply Z.mod_pos_bound].
  pose proof (rebase_bound (2 * k) 16 10 (x mod d) ltac:(lia) ltac:(lia)) as Hr.
  assert (16 ^ Z.of_nat (2 * k) = 2 ^ (8 * Z.of_nat k)) as E.
  { rewrite Nat2Z.inj_mul, !Z.pow_mul_r by lia. done. }
  rewrite E in *. rewrite lor_shiftl by lia. lia.
Qed.

Lemma div_range x k : 0 < k -> 0 <= x < k * k -> 0 <= x / k < k.
Proof. intros. split; [apply Z.div_pos|apply Z.div_lt_upper_bound]; lia. Qed.

Lemma bcd2dec16_rebase x : 0 <= x < 65536 -> pldm_bcd_bcd2dec16 x = rebase 4 10 16 x.
Proof.
  intros Hx. pose proof (Z.mod_pos_bound x 256). pose proof (div_range x 256).
  assert (pldm_bcd_bcd2dec8 (x / 256) * 100 + pldm_bcd_bcd2dec8 (x mod 256) = rebase 4 10 16 x)
    as E by (apply (bcd2dec_join 1 256 100); [done..|apply bcd2dec8_rebase]).
  unfold pldm_bcd_bcd2dec16, u8, u16. rewrite (shiftr_div _ _ 256), (land_mod _ 8) by done.
  change (2 ^ 8) with 256. rewrite Zmod_mod, (Z.mod_small (x / 256)), E by lia.
  pose proof (rebase_bound 4 10 16 x). apply Z.mod_small. lia.
Qed.

Lemma dec2bcd16_rebase x : 0 <= x < 10000 -> pldm_bcd_dec2bcd16 x = rebase 4 16 10 x.
Proof.
  intros Hx. pose proof (Z.mod_pos_bound x 100). pose proof (div_range x 100).
  assert (Z.lor (pldm_bcd_dec2bcd8 (x mod 100)) (Z.shiftl (pldm_bcd_dec2bcd8 (x / 100)) 8)
    = rebase 4 16 10 x) as E by (apply (dec2bcd_join 1 256 100); [done..|apply dec2bcd8_rebase]).
  unfold pldm_bcd_dec2bcd16, u8, u16.
  rewrite (Z.mod_small (x / 100)), (Z.mod_small (x mod 100)), E by lia.
  pose proof (rebase_bound 4 16 10 x). apply Z.mod_small. lia.
Qed.

Lemma bcd2dec32_rebase x : 0 <= x < 4294967296 -> pldm_bcd_bcd2dec32 x = rebase 8 10 16 x.
Proof.
  intros Hx. pose proof (Z.mod_pos_bound x 65536). pose proof (div_range x 65536).
  assert (pldm_bcd_bcd2dec16 (x / 65536) * 10000 + pldm_bcd_bcd2dec16 (x mod 65536)
    = rebase 8 10 16 x) as E by (apply (bcd2dec_join 2 65536 10000); [done..|apply bcd2dec16_rebase]).
  unfold pldm_bcd_bcd2dec32, u16, u32. rewrite (shiftr_div _ _ 65536), (land_mod _ 16) by done.
  change (2 ^ 16) with 65536. rewrite Zmod_mod, (Z.mod_small (x / 65536)), E by lia.
  pose proof (rebase_bound 8 10 16 x). apply Z.mod_small. lia.
Qed.

Lemma dec2bcd32_rebase x : 0 <= x < 100000000 -> pldm_bcd_dec2bcd32 x = rebase 8 16 10 x.
Proof.
  intros Hx. pose proof (Z.mod_pos_bound x 10000). pose proof (div_range x 10000).
  assert (Z.lor (pldm_bcd_dec2bcd16 (x mod 10000)) (Z.shiftl (pldm_bcd_dec2bcd16 (x / 10000)) 16)
    = rebase 8 16 10 x) as E by (apply (dec2bcd_join 2 65536 10000); [done..|apply dec2bcd16_rebase]).
  unfold pldm_bcd_dec2bcd32, u16, u32.
  rewrite (Z.mod_small (x / 10000)), (Z.mod_small (x mod 10000)), E by lia.
  pose proof (rebase_bound 8 16 10 x). apply Z.mod_small. lia.
Qed.

(** Decimal digits all fit a nibble. *)
Lemma decimal_digits n x : 0 <= x < 10 ^ Z.of_nat n -> digits_below n 16 10 x.
Proof.
  revert x. induction n as [|n IH]; intros x Hx; [cbn in *; lia|].
  rewrite Nat2Z.inj_succ, Z.pow_succ_r in Hx by lia. cbn [digits_below].
  split; [pose proof (Z.mod_pos_bound x 10); lia|]. apply IH.
  split; [apply Z.div_pos|apply Z.div_lt_upper_bound]; lia.
Qed.

(** binary coded decimal.  In each of the three widths, the decimal-to-BCD
    conversion of a number that fits the digits puts each decimal digit in its own
    nibble, converting back gives the number, and converting any word whose nibbles
    are all decimal digits to decimal and back gives the word. *)
Theorem bcd_roundtrip x :
  (0 <= x < 100 -> pldm_bcd_dec2bcd8 x = rebase 2 16 10 x /\
                   pldm_bcd_bcd2dec8 (pldm_bcd_dec2bcd8 x) = x) /\
  (0 <= x < 10000 -> pldm_bcd_dec2bcd16 x = rebase 4 16 10 x /\
                     pldm_bcd_bcd2dec16 (pldm_bcd_dec2bcd16 x) = x) /\
  (0 <= x < 100000000 -> pldm_bcd_dec2bcd32 x = rebase 8 16 10 x /\
                         pldm_bcd_bcd2dec32 (pldm_bcd_dec2bcd32 x) = x) /\
  (0 <= x < 256 -> digits_below 2 10 16 x -> pldm_bcd_dec2bcd8 (pldm_bcd_bcd2dec8 x) = x) /\
  (0 <= x < 65536 -> digits_below 4 10 16 x -> pldm_bcd_dec2bcd16 (pldm_bcd_bcd2dec16 x) = x) /\
  (0 <= x < 4294967296 -> digits_below 8 10 16 x -> pldm_bcd_dec2bcd32 (pldm_bcd_bcd2dec32 x) = x).
Proof.
  split_and!; intros Hx; try intros Hd.
  1-3: split; [by first [apply dec2bcd8_rebase|apply dec2bcd16_rebase|apply dec2bcd32_rebase]|].
  - pose proof (rebase_bound 2 16 10 x). rewrite dec2bcd8_rebase, bcd2dec8_rebase by lia.
    apply rebase_rebase; [lia..|]. by apply decimal_digits.
  - pose proof (rebase_bound 4 16 10 x). rewrite dec2bcd16_rebase, bcd2dec16_rebase by lia.
    apply rebase_rebase; [lia..|]. by apply decimal_digits.
  - pose proof (rebase_bound 8 16 10 x). rewrite dec2bcd32_rebase, bcd2dec32_rebase by lia.
    apply rebase_rebase; [lia..|]. by apply decimal_digits.
  - pose proof (rebase_digits 2 10 16 x ltac:(lia) ltac:(lia) Hd). rewrite bcd2dec8_rebase, dec2bcd8_rebase by (done || lia).
    by apply rebase_rebase.
  - pose proof (rebase_digits 4 10 16 x ltac:(lia) ltac:(lia) Hd). rewrite bcd2dec16_rebase, dec2bcd16_rebase by (done || lia).
    by apply rebase_rebase.
  - pose proof (rebase_digits 8 10 16 x ltac:(lia) ltac:(lia) Hd). rewrite bcd2dec32_rebase, dec2bcd32_rebase by (done || lia).
    by apply rebase_rebase.
Qed.

Lemma bcd_roundtrip_witness :
  pldm_bcd_dec2bcd32 20240229 = 0x20240229 /\ pldm_bcd_bcd2dec32 0x20240229 = 20240229 /\
  pldm_bcd_bcd2dec16 (pldm_bcd_dec2bcd16 1999) = 1999.
Proof.
  split; [by vm_compute|]. split; [by vm_compute|].
  destruct (bcd_roundtrip 1999) as (_ & H & _). apply H. lia.
Defined.

(** ** Timestamps and transfer flags *)

Definition day_map (month : Z) : Z :=
  match month with
  | 1 => 31 | 2 => 28 | 3 => 31 | 4 => 30 | 5 => 31 | 6 => 30
  | 7 | 8 => 31 | 9 => 30 | 10 => 31 | 11 => 30 | 12 => 31
  | _ => 0
  end.

Definition is_time_legal (seconds minutes hours day month year : Z) : bool :=
  if (month <? 1) || (12 <? month) then false
  else
    let rday := day_map month in
    let rday :=
      if (month =? 2) && ((year mod 4 =? 0) && negb (year mod 100 =? 0) || (year mod 400 =? 0))
      then rday + 1 else rday in
    if (year <? 1970) || (day <? 1) || (rday <? day) || (59 <? seconds)
       || (59 <? minutes) || (23 <? hours)
    then false
    else true.

(** enum transfer_resp_flag (include/libpldm/base.h). *)
Abbreviation PLDM_START := 1 (only parsing).
Abbreviation PLDM_MIDDLE := 2 (only parsing).
Abbreviation PLDM_END := 4 (only parsing).
Abbreviation PLDM_START_AND_END := 5 (only parsing).

Definition is_transfer_flag_valid (transfer_flag : Z) : bool :=
  match transfer_flag with
  | PLDM_START | PLDM_MIDDLE | PLDM_END | PLDM_START_AND_END => true
  | _ => false
  end.
