(* ===== verification/Base.v ===== *)
(** * PLDM messages and the base command set (src/dsp/base.c, src/dsp/base.h, src/api.h)

    The three-byte message header, the translation of errno values to completion
    codes, version strings, and the encoders and decoders of the base commands.
    The legacy codecs cast the payload to a packed struct: they read and write at
    the struct's offsets, without a length.  The newer ones go through a message
    buffer. *)

From S2P Require Import Prelude Msgbuf.

(** ** Constants (include/libpldm/base.h) *)

Abbreviation PLDM_BASE := 0 (only parsing).
Abbreviation PLDM_FWUP := 5 (only parsing).
Abbreviation PLDM_FILE := 7 (only parsing).

Abbreviation PLDM_SET_TID := 0x1 (only parsing).
Abbreviation PLDM_GET_TID := 0x2 (only parsing).
Abbreviation PLDM_GET_PLDM_VERSION := 0x3 (only parsing).
Abbreviation PLDM_GET_PLDM_TYPES := 0x4 (only parsing).
Abbreviation PLDM_GET_PLDM_COMMANDS := 0x5 (only parsing).
Abbreviation PLDM_NEGOTIATE_TRANSFER_PARAMETERS := 0x7 (only parsing).
Abbreviation PLDM_MULTIPART_SEND := 0x8 (only parsing).
Abbreviation PLDM_MULTIPART_RECEIVE := 0x9 (only parsing).

Abbreviation PLDM_SUCCESS := 0 (only parsing).
Abbreviation PLDM_ERROR := 0x01 (only parsing).
Abbreviation PLDM_ERROR_INVALID_DATA := 0x02 (only parsing).
Abbreviation PLDM_ERROR_INVALID_LENGTH := 0x03 (only parsing).
Abbreviation PLDM_ERROR_NOT_READY := 0x04 (only parsing).
Abbreviation PLDM_ERROR_UNSUPPORTED_PLDM_CMD := 0x05 (only parsing).
Abbreviation PLDM_ERROR_INVALID_PLDM_TYPE := 0x20 (only parsing).

Abbreviation PLDM_XFER_NEXT_PART := 1 (only parsing).
Abbreviation PLDM_XFER_CURRENT_PART := 4 (only parsing).
Abbreviation PLDM_BASE_MULTIPART_SEND_TRANSFER_FLAG_START := 1 (only parsing).
Abbreviation PLDM_BASE_MULTIPART_SEND_TRANSFER_FLAG_START_AND_END := 5 (only parsing).
Abbreviation PLDM_BASE_MULTIPART_RECEIVE_TRANSFER_FLAG_ACK_COMPLETION := 8 (only parsing).

Abbreviation PLDM_RESPONSE := 0 (only parsing).
Abbreviation PLDM_REQUEST := 1 (only parsing).
Abbreviation PLDM_RESERVED := 2 (only parsing).
Abbreviation PLDM_ASYNC_REQUEST_NOTIFY := 3 (only parsing).

Abbreviation PLDM_INSTANCE_MAX := 31 (only parsing).
Abbreviation PLDM_MAX_TYPES := 64 (only parsing).
Abbreviation PLDM_MAX_CMDS_PER_TYPE := 256 (only parsing).
Abbreviation PLDM_CURRENT_VERSION := 0 (only parsing).
Abbreviation PLDM_GET_COMMANDS_REQ_BYTES := 5 (only parsing).
Abbreviation PLDM_GET_VERSION_REQ_BYTES := 6 (only parsing).
Abbreviation PLDM_SET_TID_REQ_BYTES := 1 (only parsing).
Abbreviation PLDM_GET_COMMANDS_RESP_BYTES := 33 (only parsing).
Abbreviation PLDM_GET_VERSION_RESP_BYTES := 10 (only parsing).
Abbreviation PLDM_MULTIPART_RECEIVE_REQ_BYTES := 18 (only parsing).
Abbreviation PLDM_BASE_MULTIPART_RECEIVE_RESP_MIN_BYTES := 10 (only parsing).
Abbreviation PLDM_BASE_MULTIPART_SEND_REQ_MIN_BYTES := 26 (only parsing).
Abbreviation PLDM_BASE_MULTIPART_SEND_RESP_BYTES := 2 (only parsing).
Abbreviation PLDM_BASE_NEGOTIATE_TRANSFER_PARAMETERS_REQ_BYTES := 10 (only parsing).
Abbreviation PLDM_BASE_NEGOTIATE_TRANSFER_PARAMETERS_RESP_BYTES := 11 (only parsing).
Abbreviation PLDM_BASE_MIN_PART_SIZE := 256 (only parsing).
Abbreviation PLDM_BASE_GET_TID_RESP_BYTES := 2 (only parsing).
Abbreviation PLDM_BASE_GET_PLDM_TYPES_RESP_BYTES := 9 (only parsing).
Abbreviation PLDM_CC_ONLY_RESP_BYTES := 1 (only parsing).

(** ** Messages *)

Record pldm_msg_hdr := MsgHdr {
  request : Z; datagram : Z; reserved : Z; instance_id : Z;
  header_ver : Z; type : Z; command : Z
}.

(** The three bytes of the header: bit fields from the least significant bit. *)
Definition hdr_bytes (h : pldm_msg_hdr) : list Z := [
  Z.lor (instance_id h) (Z.shiftl (Z.lor (reserved h)
    (Z.shiftl (Z.lor (datagram h) (Z.shiftl (request h) 1)) 1)) 5);
  Z.lor (type h) (Z.shiftl (header_ver h) 6);
  command h].

Definition hdr_parse (l : list Z) : option pldm_msg_hdr :=
  match l with
  | [b0; b1; b2] => Some (MsgHdr (Z.shiftr b0 7) (Z.land (Z.shiftr b0 6) 1)
      (Z.land (Z.shiftr b0 5) 1) (Z.land b0 31) (Z.shiftr b1 6) (Z.land b1 63) b2)
  | _ => None
  end.

Record pldm_msg := Msg { hdr : pldm_msg_hdr; payload : cmem }.

Record pldm_header_info := HeaderInfo {
  msg_type : Z; instance : Z; pldm_type : Z; hi_command : Z; hi_completion_code : Z
}.

(** A header_info zeroed and then given these members. *)
Definition header_info (ty inst pty cmd : Z) : pldm_header_info := HeaderInfo ty inst pty cmd 0.

Definition pldm_xlate_errno (err : Z) : outcome Z :=
  _ ← c_assert (err <? 0);
  rc ← (if (err =? - EBADMSG) || (err =? - EINVAL) || (err =? - EPROTO) || (err =? - EUCLEAN)
        then Ok PLDM_ERROR_INVALID_DATA
        else if err =? - ENOMSG then Ok PLDM_ERROR_INVALID_PLDM_TYPE
        else if err =? - EOVERFLOW then Ok PLDM_ERROR_INVALID_LENGTH
        else if err =? - ENOTSUP then Ok PLDM_ERROR
        else (_ ← c_assert false; mret PLDM_ERROR));
  _ ← c_assert (0 <? rc);
  mret rc.

Definition pack_pldm_header_errno (hdr : option pldm_header_info) (msg : option pldm_msg_hdr)
  : Z * option pldm_msg_hdr :=
  match msg, hdr with
  | Some m, Some hdr =>
    if negb (msg_type hdr =? PLDM_RESPONSE) && negb (msg_type hdr =? PLDM_REQUEST)
       && negb (msg_type hdr =? PLDM_ASYNC_REQUEST_NOTIFY) then (- EINVAL, msg)
    else if PLDM_INSTANCE_MAX <? instance hdr then (- EINVAL, msg)
    else if PLDM_MAX_TYPES - 1 <? pldm_type hdr then (- ENOMSG, msg)
    else
      let datagram := if msg_type hdr =? PLDM_ASYNC_REQUEST_NOTIFY then 1 else 0 in
      let request :=
        if msg_type hdr =? PLDM_RESPONSE then PLDM_RESPONSE
        else if (msg_type hdr =? PLDM_REQUEST) || (msg_type hdr =? PLDM_ASYNC_REQUEST_NOTIFY)
        then PLDM_REQUEST else request m in
      (0, Some {| request := request; datagram := datagram; reserved := 0;
                  instance_id := instance hdr mod 32;
                  header_ver := PLDM_CURRENT_VERSION;
                  type := pldm_type hdr mod 64; command := hi_command hdr |})
  | _, _ => (- EINVAL, msg)
  end.

(** [hdr] is dereferenced without a check, but only after [msg] was checked. *)
Definition unpack_pldm_header_errno (msg : option pldm_msg_hdr) (hdr : option pldm_header_info)
  : outcome (Z * option pldm_header_info) :=
  match msg with
  | None => Ok (- EINVAL, hdr)
  | Some m =>
    match hdr with
    | None => Fault FMemory
    | Some h =>
      let ty := if request m =? PLDM_RESPONSE then PLDM_RESPONSE
                else if negb (datagram m =? 0) then PLDM_ASYNC_REQUEST_NOTIFY
                else PLDM_REQUEST in
      Ok (0, Some (HeaderInfo ty (instance_id m) (type m) (command m) (hi_completion_code h)))
    end
  end.

(** The completion code the legacy header functions make of an errno. *)
Definition header_cc (rc : Z) : outcome Z :=
  if rc =? 0 then Ok PLDM_SUCCESS
  else
    cc ← pldm_xlate_errno rc;
    _ ← c_assert (cc <? UINT8_MAX);
    mret (if UINT8_MAX <? cc then PLDM_ERROR else u8 cc).

Definition pack_pldm_header (hdr : option pldm_header_info) (msg : option pldm_msg_hdr)
  : outcome (Z * option pldm_msg_hdr) :=
  let '(rc, msg) := pack_pldm_header_errno hdr msg in
  cc ← header_cc rc;
  mret (cc, msg).

Definition unpack_pldm_header (msg : option pldm_msg_hdr) (hdr : option pldm_header_info)
  : outcome (Z * option pldm_header_info) :=
  '(rc, hdr) ← unpack_pldm_header_errno msg hdr;
  cc ← header_cc rc;
  mret (cc, hdr).

Definition pldm_msg_hdr_correlate_response (req resp : pldm_msg_hdr) : bool :=
  (instance_id req =? instance_id resp) && negb (request req =? 0) && (request resp =? 0)
  && (type req =? type resp) && (command req =? command resp).

(** ** Version strings *)

Record ver32_t := Ver32 { alpha : Z; update : Z; minor : Z; major : Z }.

Definition BCD_H (v : Z) : Z := Z.land (Z.shiftr v 4) 0xf.
Definition BCD_L (v : Z) : Z := Z.land v 0xf.
Definition AS_CHAR (digit : Z) : Z := digit + 48.

(** The buffer, the offset of [cursor] in it and [remaining]. *)
Record strbuf := StrBuf { sb_buffer : cmem; sb_cursor : Z; sb_remaining : Z }.

Definition INSERT_CHAR (c : Z) : stM strbuf unit := fun s =>
  if 1 <? sb_remaining s then
    b ← mem_write (sb_buffer s) (sb_cursor s) [u8 c];
    mret (tt, StrBuf b (sb_cursor s + 1) (sb_remaining s - 1))
  else Ok (tt, s).

Definition INSERT_INT (i : Z) : stM strbuf unit := INSERT_CHAR (AS_CHAR i).

Definition when {S} (c : bool) (m : stM S unit) : stM S unit := if c then m else mret tt.

Definition ver2str_body (version : ver32_t) : stM strbuf unit :=
  _ ← when (major version <? 0xf0) (INSERT_INT (BCD_H (major version)));
  _ ← INSERT_INT (BCD_L (major version));
  _ ← INSERT_CHAR 46;
  _ ← when (minor version <? 0xf0) (INSERT_INT (BCD_H (minor version)));
  _ ← INSERT_INT (BCD_L (minor version));
  _ ← when (update version <? 0xff)
        (_ ← INSERT_CHAR 46;
         _ ← when (update version <? 0xf0) (INSERT_INT (BCD_H (update version)));
         INSERT_INT (BCD_L (update version)));
  when (negb (alpha version =? 0)) (INSERT_CHAR (alpha version)).

Definition pldm_base_ver2str (version : option ver32_t) (buffer : option cmem) (buffer_size : Z)
  : outcome (Z * option cmem) :=
  match version, buffer with
  | Some version, Some b =>
    if buffer_size =? 0 then Ok (- 1, buffer)
    else if SSIZE_MAX <? buffer_size then Ok (- 1, buffer)
    else
      '(_, s) ← ver2str_body version (StrBuf b 0 buffer_size);
      b ← mem_write (sb_buffer s) (sb_cursor s) [0];
      mret (buffer_size - sb_remaining s, Some b)
  | _, _ => Ok (- 1, buffer)
  end.

(** ** The header *)

Record hdr_ok (h : pldm_msg_hdr) : Prop := {
  hdr_request : 0 <= request h < 2; hdr_datagram : 0 <= datagram h < 2;
  hdr_reserved : 0 <= reserved h < 2; hdr_instance : 0 <= instance_id h < 32;
  hdr_version : 0 <= header_ver h < 4; hdr_type : 0 <= type h < 64;
  hdr_command : 0 <= command h < 256
}.

(** What the C types admit in a [struct pldm_header_info]. *)
Definition info_ok (i : pldm_header_info) : Prop :=
  0 <= msg_type i < 4294967296 /\ 0 <= instance i < 256 /\ 0 <= pldm_type i < 256 /\
  0 <= hi_command i < 256.

Ltac bits_arith :=
  repeat match goal with
  | |- context [Z.land ?x 1] => rewrite (land_mod x 1 1) by done
  | |- context [Z.land ?x 31] => rewrite (land_mod x 5 31) by done
  | |- context [Z.land ?x 63] => rewrite (land_mod x 6 63) by done
  | |- context [Z.shiftr ?x 7] => rewrite (shiftr_div x 7 128) by done
  | |- context [Z.shiftr ?x 6] => rewrite (shiftr_div x 6 64) by done
  | |- context [Z.shiftr ?x 5] => rewrite (shiftr_div x 5 32) by done
  end.

Lemma hdr_bytes_shape h :
  hdr_ok h ->
  hdr_bytes h = [instance_id h + 32 * reserved h + 64 * datagram h + 128 * request h;
                 type h + 64 * header_ver h; command h].
Proof.
  intros []. unfold hdr_bytes. rewrite !lor_shiftl by (cbn; lia).
  f_equal; [lia|]. f_equal. lia.
Qed.

Lemma hdr_bytes_parse h :
  hdr_ok h -> hdr_parse (hdr_bytes h) = Some h /\ bytes_ok (hdr_bytes h).
Proof.
  intros Hh. rewrite hdr_bytes_shape by done. destruct h as [rq dg rs i v t c], Hh; cbn in *.
  split; [|repeat constructor; unfold byte_ok; lia].
  bits_arith. change (2 ^ 1) with 2. change (2 ^ 5) with 32. change (2 ^ 6) with 64.
  f_equal. f_equal; Z.div_mod_to_equations; lia.
Qed.

(** Packing a header.  A header is packed exactly when its message type is
    request, response or asynchronous notification, its instance ID is at most 31
    and its type below 64; otherwise the message is left alone and the legacy
    wrapper answers ERROR_INVALID_DATA, or ERROR_INVALID_PLDM_TYPE when only the
    type is at fault, without failing an assertion.  The three bytes of a packed
    header parse back to it and unpacking them yields the packed fields. *)
Lemma header_pack_unpack info m i0 :
  info_ok info ->
  (exists h,
     pack_pldm_header (Some info) (Some m) = Ok (PLDM_SUCCESS, Some h) /\
     msg_type info ∈ [PLDM_RESPONSE; PLDM_REQUEST; PLDM_ASYNC_REQUEST_NOTIFY] /\
     instance info <= 31 /\ pldm_type info < 64 /\
     bytes_ok (hdr_bytes h) /\ hdr_parse (hdr_bytes h) = Some h /\
     unpack_pldm_header (Some h) (Some i0)
     = Ok (PLDM_SUCCESS, Some (HeaderInfo (msg_type info) (instance info) (pldm_type info)
                                 (hi_command info) (hi_completion_code i0)))) \/
  (pack_pldm_header (Some info) (Some m) = Ok (PLDM_ERROR_INVALID_DATA, Some m) /\
     (msg_type info ∉ [PLDM_RESPONSE; PLDM_REQUEST; PLDM_ASYNC_REQUEST_NOTIFY] \/
      31 < instance info)) \/
  (pack_pldm_header (Some info) (Some m) = Ok (PLDM_ERROR_INVALID_PLDM_TYPE, Some m) /\
     64 <= pldm_type info).
Proof.
  intros (Hm & Hi & Ht & Hc). unfold pack_pldm_header, pack_pldm_header_errno.
  destruct (decide (msg_type info ∈ [PLDM_RESPONSE; PLDM_REQUEST; PLDM_ASYNC_REQUEST_NOTIFY]))
    as [Hty|Hty].
  all: pose proof Hty as Hty'; rewrite !elem_of_cons, elem_of_nil in Hty'.
  2: { right; left. replace (_ && _ && _) with true by lia. split; [done|by left]. }
  replace (negb (msg_type info =? 0) && negb (msg_type info =? 1) && negb (msg_type info =? 3))
    with false by lia.
  cmp_case; [right; left; split; [done|by right]|].
  cmp_case; [right; right; split; [done|lia]|].
  left. eexists. split; [reflexivity|]. split; [done|]. split; [lia|]. split; [lia|].
  rewrite !Z.mod_small by lia.
  match goal with |- bytes_ok (hdr_bytes ?h) /\ _ => assert (hdr_ok h) as Hh end.
  { rewrite !elem_of_cons, elem_of_nil in Hty.
    destruct Hty as [->|[->|[->|[]]]]; constructor; cbn; lia. }
  apply hdr_bytes_parse in Hh as [Hp Hb]. split_and!; [done|done|].
  rewrite !elem_of_cons, elem_of_nil in Hty.
  destruct info, Hty as [Hty|[Hty|[Hty|[]]]]; cbn in *; rewrite Hty; done.
Qed.

(** A packed header is the one the encoder's arguments call for. *)
Definition packed (ty inst pty cmd : Z) : pldm_msg_hdr :=
  MsgHdr (if ty =? PLDM_RESPONSE then 0 else 1)
         (if ty =? PLDM_ASYNC_REQUEST_NOTIFY then 1 else 0) 0 inst 0 pty cmd.

Lemma pack_ok ty inst pty cmd m :
  ty ∈ [PLDM_RESPONSE; PLDM_REQUEST; PLDM_ASYNC_REQUEST_NOTIFY] ->
  0 <= inst <= 31 -> 0 <= pty < 64 ->
  pack_pldm_header_errno (Some (header_info ty inst pty cmd)) (Some m)
  = (0, Some (packed ty inst pty cmd)).
Proof.
  intros Hty Hi Hp. rewrite !elem_of_cons, elem_of_nil in Hty. unfold packed.
  unfold pack_pldm_header_errno, header_info; cbn [msg_type instance pldm_type hi_command].
  destruct Hty as [->|[->|[->|[]]]]; cbn; do 2 (cmp_case; [lia|]);
    rewrite !Z.mod_small by lia; done.
Qed.

(** Correlating a response.  Of two packed headers, the second correlates with
    the first exactly when the first is a request (or notification), the second a
    response, and instance ID, type and command agree.  So a requester that has one
    request outstanding per instance ID cannot take the response to another command
    for its own. *)
Lemma correlate_packed ty inst pty cmd ty' inst' pty' cmd' :
  pldm_msg_hdr_correlate_response (packed ty inst pty cmd) (packed ty' inst' pty' cmd') = true <->
  ty <> PLDM_RESPONSE /\ ty' = PLDM_RESPONSE /\ inst = inst' /\ pty = pty' /\ cmd = cmd'.
Proof.
  unfold pldm_msg_hdr_correlate_response, packed.
  cbn [instance_id request type command].
  destruct (Z.eqb_spec ty 0), (Z.eqb_spec ty' 0); cbn [negb Z.eqb andb]; lia.
Qed.

(** C26: headers.  A header is packed exactly when its message type is request,
    response or asynchronous notification, its instance ID at most 31 and its type
    below 64; otherwise the message is left alone and the legacy wrapper answers with
    the code of what is at fault.  The three bytes of a packed header parse back to it
    and unpacking them gives the packed fields.  Of two packed headers the second
    correlates with the first exactly when the first is no response, the second is,
    and instance ID, type and command agree. *)
Theorem headers_pack_and_correlate :
  (forall info m i0,
     info_ok info ->
     (exists h,
        pack_pldm_header (Some info) (Some m) = Ok (PLDM_SUCCESS, Some h) /\
        msg_type info ∈ [PLDM_RESPONSE; PLDM_REQUEST; PLDM_ASYNC_REQUEST_NOTIFY] /\
        instance info <= 31 /\ pldm_type info < 64 /\
        bytes_ok (hdr_bytes h) /\ hdr_parse (hdr_bytes h) = Some h /\
        unpack_pldm_header (Some h) (Some i0)
        = Ok (PLDM_SUCCESS, Some (HeaderInfo (msg_type info) (instance info) (pldm_type info)
                                    (hi_command info) (hi_completion_code i0)))) \/
     (pack_pldm_header (Some info) (Some m) = Ok (PLDM_ERROR_INVALID_DATA, Some m) /\
        (msg_type info ∉ [PLDM_RESPONSE; PLDM_REQUEST; PLDM_ASYNC_REQUEST_NOTIFY] \/
         31 < instance info)) \/
     (pack_pldm_header (Some info) (Some m) = Ok (PLDM_ERROR_INVALID_PLDM_TYPE, Some m) /\
        64 <= pldm_type info)) /\
  (forall ty inst pty cmd ty' inst' pty' cmd',
     pldm_msg_hdr_correlate_response (packed ty inst pty cmd) (packed ty' inst' pty' cmd') = true <->
     ty <> PLDM_RESPONSE /\ ty' = PLDM_RESPONSE /\ inst = inst' /\ pty = pty' /\ cmd = cmd').
Proof. exact (conj header_pack_unpack correlate_packed). Qed.

Lemma headers_pack_and_correlate_witness :
  (let info := HeaderInfo PLDM_ASYNC_REQUEST_NOTIFY 31 PLDM_FWUP 7 0 in
     let m := MsgHdr 0 0 1 3 2 1 0 in
     pack_pldm_header (Some info) (Some m) = Ok (0, Some (MsgHdr 1 1 0 31 0 5 7)) /\
     hdr_bytes (MsgHdr 1 1 0 31 0 5 7) = [0xdf; 0x05; 7] /\
     ((exists h,
        pack_pldm_header (Some info) (Some m) = Ok (PLDM_SUCCESS, Some h) /\
        msg_type info ∈ [PLDM_RESPONSE; PLDM_REQUEST; PLDM_ASYNC_REQUEST_NOTIFY] /\
        instance info <= 31 /\ pldm_type info < 64 /\
        bytes_ok (hdr_bytes h) /\ hdr_parse (hdr_bytes h) = Some h /\
        unpack_pldm_header (Some h) (Some info)
        = Ok (PLDM_SUCCESS, Some (HeaderInfo (msg_type info) (instance info) (pldm_type info)
                                    (hi_command info) (hi_completion_code info)))) \/
     (pack_pldm_header (Some info) (Some m) = Ok (PLDM_ERROR_INVALID_DATA, Some m) /\
        (msg_type info ∉ [PLDM_RESPONSE; PLDM_REQUEST; PLDM_ASYNC_REQUEST_NOTIFY] \/
         31 < instance info)) \/
     (pack_pldm_header (Some info) (Some m) = Ok (PLDM_ERROR_INVALID_PLDM_TYPE, Some m) /\
        64 <= pldm_type info))).
Proof.
  split; [reflexivity|]. split; [reflexivity|].
    apply (proj1 headers_pack_and_correlate (HeaderInfo PLDM_ASYNC_REQUEST_NOTIFY 31 PLDM_FWUP 7 0)).
    unfold info_ok. concrete.
Defined.

(** ** Version strings: the text they come from *)

Definition ver_string (v : ver32_t) : list Z :=
  (if major v <? 0xf0 then [AS_CHAR (BCD_H (major v))] else []) ++
  [AS_CHAR (BCD_L (major v)); 46] ++
  (if minor v <? 0xf0 then [AS_CHAR (BCD_H (minor v))] else []) ++
  [AS_CHAR (BCD_L (minor v))] ++
  (if update v <? 0xff
   then 46 :: (if update v <? 0xf0 then [AS_CHAR (BCD_H (update v))] else [])
          ++ [AS_CHAR (BCD_L (update v))]
   else []) ++
  (if alpha v =? 0 then [] else [alpha v]).

(** [s] holds as much of [out] as leaves room for a NUL in [n] bytes. *)
Record str_inv (m : cmem) (n : Z) (out : list Z) (s : strbuf) : Prop := {
  str_addr : addr (sb_buffer s) = addr m;
  str_bytes : bytes (sb_buffer s)
    = take (Z.to_nat (n - 1)) out ++ drop (length (take (Z.to_nat (n - 1)) out)) (bytes m);
  str_cursor : sb_cursor s = Z.of_nat (length (take (Z.to_nat (n - 1)) out));
  str_remaining : sb_remaining s = n - Z.of_nat (length (take (Z.to_nat (n - 1)) out))
}.

Section ver2str.
Context (m : cmem) (n : Z).
Hypothesis Hn : 0 < n <= mem_size m.

Lemma wp_insert_char c out s :
  0 <= c < 256 -> str_inv m n out s -> wp (INSERT_CHAR c) s (fun _ => str_inv m n (out ++ [c])).
Proof.
  intros Hc [Ha Hb Hcur Hrem]. unfold wp, INSERT_CHAR, mem_size in *. rewrite Hrem.
  rewrite length_take in *. cmp_case.
  - assert (length out < Z.to_nat (n - 1))%nat as Hlt by lia.
    rewrite take_ge in Hb by lia. rewrite mem_write_ok; [|lia|].
    2: { unfold mem_size. rewrite Hb, Hcur. cbn [length]. rewrite length_app, length_drop. lia. }
    cbn. unfold u8. rewrite (Z.mod_small c) by done.
    assert (take (Z.to_nat (n - 1)) (out ++ [c]) = out ++ [c]) as E
      by (apply take_ge; rewrite length_app; cbn; lia).
    constructor; cbn; rewrite ?E, ?length_app; cbn [length]; try lia.
    rewrite Hb, Hcur, Nat2Z.id, Nat.min_r by lia.
    rewrite splice_append by (cbn; lia). by rewrite length_app.
  - assert (Z.to_nat (n - 1) <= length out)%nat as Hge by lia.
    assert (take (Z.to_nat (n - 1)) (out ++ [c]) = take (Z.to_nat (n - 1)) out) as E
      by (apply take_app_le; lia).
    constructor; rewrite ?E, ?length_take; try done; lia.
Qed.

Lemma wp_when (b : bool) (p : stM strbuf unit) l out s :
  str_inv m n out s ->
  (b = true -> wp p s (fun _ => str_inv m n (out ++ l))) ->
  wp (when b p) s (fun _ => str_inv m n (out ++ if b then l else [])).
Proof.
  intros Hs Hp. destruct b; [by apply Hp|]. apply wp_ret. by rewrite app_nil_r.
Qed.

Lemma digit_range v : 0 <= AS_CHAR (BCD_H v) < 256 /\ 0 <= AS_CHAR (BCD_L v) < 256.
Proof.
  unfold AS_CHAR, BCD_H, BCD_L. rewrite !(land_mod _ 4) by done.
  pose proof (Z.mod_pos_bound v (2 ^ 4)). pose proof (Z.mod_pos_bound (Z.shiftr v 4) (2 ^ 4)). lia.
Qed.

Lemma ver2str_body_inv v s :
  0 <= alpha v < 256 -> str_inv m n [] s ->
  wp (ver2str_body v) s (fun _ => str_inv m n (ver_string v)).
Proof.
  intros Hal Hs. unfold ver2str_body, INSERT_INT.
  pose proof digit_range as D.
  assert (forall c out s (k : stM strbuf unit) Q, 0 <= c < 256 -> str_inv m n out s ->
    (forall s', str_inv m n (out ++ [c]) s' -> wp k s' Q) ->
    wp (_ ← INSERT_CHAR c; k) s Q) as Hins.
  { intros. apply wp_bind. eapply wp_mono; [by apply wp_insert_char|]. auto. }
  assert (forall (b : bool) c out s (k : stM strbuf unit) Q, 0 <= c < 256 -> str_inv m n out s ->
    (forall s', str_inv m n (out ++ if b then [c] else []) s' -> wp k s' Q) ->
    wp (_ ← when b (INSERT_CHAR c); k) s Q) as Hwh.
  { intros. apply wp_bind. eapply wp_mono; [apply wp_when; [done|]; intros; by apply wp_insert_char|].
    auto. }
  unfold ver_string. apply (Hwh _ _ [] s); [apply D|done|]. intros s1 H1.
  eapply Hins; [apply D|exact H1|]. intros s2 H2. eapply Hins; [lia|exact H2|]. intros s3 H3.
  eapply Hwh; [apply D|exact H3|]. intros s4 H4. eapply Hins; [apply D|exact H4|]. intros s5 H5.
  apply wp_bind. eapply wp_mono.
  { eapply (wp_when _ _ (46 :: (if update v <? 0xf0 then [AS_CHAR (BCD_H (update v))] else [])
      ++ [AS_CHAR (BCD_L (update v))])); [exact H5|]. intros _.
    eapply Hins; [lia|exact H5|]. intros s6 H6. eapply Hwh; [apply D|exact H6|]. intros s7 H7.
    eapply wp_mono; [apply wp_insert_char; [apply D|exact H7]|]. intros [] s8.
    by rewrite <- !app_assoc. }
  intros [] s6 H6. eapply wp_mono; [eapply (wp_when _ _ [alpha v]); [exact H6|]; intros _;
    by apply wp_insert_char|].
  intros [] s7 H7. rewrite <- !app_assoc in H7. by destruct (alpha v =? 0).
Qed.
End ver2str.

(** version strings are formatted safely.  For any version, buffer and
    buffer size from 1 up to what the buffer holds, the call writes the version's
    text, cut off to leave room, and a NUL, touches nothing after the NUL, and
    returns the number of characters before it. *)
Theorem ver2str_truncates v m n :
  0 <= alpha v < 256 -> 0 < n <= mem_size m -> n <= SSIZE_MAX ->
  let text := take (Z.to_nat (n - 1)) (ver_string v) in
  pldm_base_ver2str (Some v) (Some m) n
  = Ok (Z.of_nat (length text),
        Some (CMem (addr m) (text ++ [0] ++ drop (length text + 1) (bytes m)))).
Proof.
  intros Hal Hn Hmax text. unfold pldm_base_ver2str. do 2 (cmp_case; [lia|]).
  assert (str_inv m n [] (StrBuf m 0 n)) as H0.
  { constructor; cbn; rewrite ?take_nil; cbn; [done|done|done|lia]. }
  destruct (wp_elim _ _ _ (ver2str_body_inv m n Hn v _ Hal H0)) as ([] & s & -> & Hs).
  cbn [mbind outcome_bind]. destruct Hs as [Ha Hb Hc Hr]. fold text in Hb, Hc, Hr.
  assert (length text <= Z.to_nat (n - 1))%nat by (unfold text; rewrite length_take; lia).
  unfold mem_size in Hn. rewrite mem_write_ok; [|lia|].
  - cbn. rewrite Hr, Ha, Hb, Hc, Nat2Z.id.
    rewrite splice_append by (cbn; lia). rewrite length_app, <- app_assoc. cbn.
    do 2 f_equal. lia.
  - unfold mem_size. rewrite Hb, Hc. cbn [length]. rewrite length_app, length_drop. lia.
Qed.

Lemma ver2str_truncates_witness :
  let v := Ver32 97 0xff 0x10 0xf2 in
  let m := CMem 32 (replicate 8 170) in
  ver_string v = [50; 46; 49; 48; 97] /\
  pldm_base_ver2str (Some v) (Some m) 5
  = Ok (4, Some (CMem 32 ([50; 46; 49; 48] ++ [0] ++ [170; 170; 170]))).
Proof.
  split; [reflexivity|].
  apply (ver2str_truncates (Ver32 97 0xff 0x10 0xf2) (CMem 32 (replicate 8 170)) 5); concrete.
Defined.

(** ** Codec frames

    The encoders that use a message buffer share their first half: pack the header
    into the message, attach the buffer to the payload, give up if either fails.
    [len] is the caller's [*payload_length]. *)

Definition pack_into (ty inst pty cmd : Z) (msg : pldm_msg) : Z * pldm_msg :=
  let '(rc, h) := pack_pldm_header_errno (Some (header_info ty inst pty cmd)) (Some (hdr msg)) in
  (rc, Msg (default (hdr msg) h) (payload msg)).

Definition encode_frame (ty inst pty cmd minsize : Z) (msg : pldm_msg) (len : Z) (body : B (Z * Z))
  : outcome (Z * option pldm_msg * option Z) :=
  let '(rc, msg) := pack_into ty inst pty cmd msg in
  if_err rc return_ mret (rc, Some msg, Some len);;
  '(rc, len, m) ← msgbuf_scope (payload msg) (
    rc ← pldm_msgbuf_rw_init_errno minsize (payload msg) len;
    if_err rc return_ mret (rc, len);;
    body);
  mret (rc, Some (Msg (hdr msg) m), Some len).

(** The decoders attach the buffer and fill the caller's object, [init] until they
    reach it. *)
Definition decode_frame {A} (minsize : Z) (msg : pldm_msg) (payload_length : Z) (init : A)
    (body : B (Z * A)) : outcome (Z * A) :=
  '(r, _) ← msgbuf_scope (payload msg) (
    rc ← pldm_msgbuf_ro_init_errno minsize (payload msg) payload_length;
    if_err rc return_ mret (rc, init);;
    body);
  mret r.

(** [msg->payload\[0\]] if there is a payload. *)
Definition pldm_msg_has_error (msg : pldm_msg) (payload_length : Z) : outcome Z :=
  if payload_length <? 1 then Ok 0
  else l ← mem_read (payload msg) 0 1; mret (le_dec l).

Definition payload_write (msg : pldm_msg) (off : Z) (l : list Z) : outcome pldm_msg :=
  m ← mem_write (payload msg) off l; mret (Msg (hdr msg) m).

Definition payload_read (msg : pldm_msg) (off n : Z) : outcome (list Z) :=
  mem_read (payload msg) off n.

(** ** Buffer codecs of the base commands *)

Definition decode_set_tid_req (msg : option pldm_msg) (payload_length : Z) (tid : option Z)
  : outcome (Z * option Z) :=
  match msg, tid with
  | Some msg, Some tid =>
    '(rc, tid) ← decode_frame PLDM_SET_TID_REQ_BYTES msg payload_length tid (
      '(_, tid) ← pldm_msgbuf_extract KU8 tid;
      rc ← pldm_msgbuf_ro_complete_consumed;
      mret (rc, tid));
    mret (rc, Some tid)
  | _, _ => Ok (- EINVAL, tid)
  end.

Record pldm_base_multipart_receive_req := MrReq {
  mr_pldm_type : Z; mr_transfer_opflag : Z; mr_transfer_ctx : Z;
  mr_transfer_handle : Z; mr_section_offset : Z; mr_section_length : Z
}.

Definition decode_pldm_base_multipart_receive_req (msg : option pldm_msg) (payload_length : Z)
    (req : option pldm_base_multipart_receive_req)
  : outcome (Z * option pldm_base_multipart_receive_req) :=
  match msg, req with
  | Some msg, Some req =>
    '(rc, req) ← decode_frame PLDM_MULTIPART_RECEIVE_REQ_BYTES msg payload_length req (
      '(_, ty) ← pldm_msgbuf_extract KU8 (mr_pldm_type req);
      '(_, opflag) ← pldm_msgbuf_extract KU8 (mr_transfer_opflag req);
      '(_, ctx) ← pldm_msgbuf_extract KU32 (mr_transfer_ctx req);
      '(_, handle) ← pldm_msgbuf_extract KU32 (mr_transfer_handle req);
      '(_, offset) ← pldm_msgbuf_extract KU32 (mr_section_offset req);
      '(_, length) ← pldm_msgbuf_extract KU32 (mr_section_length req);
      let req := MrReq ty opflag ctx handle offset length in
      rc ← pldm_msgbuf_ro_complete_consumed;
      if_err rc return_ mret (rc, req);;
      if PLDM_XFER_CURRENT_PART <? mr_transfer_opflag req then mret (- EPROTO, req)
      else if (mr_transfer_handle req =? 0) && (mr_transfer_opflag req =? PLDM_XFER_NEXT_PART)
      then mret (- EPROTO, req)
      else mret (0, req));
    mret (rc, Some req)
  | _, _ => Ok (- EINVAL, req)
  end.

Definition encode_pldm_base_multipart_receive_req (instance_id : Z)
    (req : option pldm_base_multipart_receive_req) (msg : option pldm_msg)
    (payload_length : option Z) : outcome (Z * option pldm_msg * option Z) :=
  match req, msg, payload_length with
  | Some req, Some msg, Some len =>
    encode_frame PLDM_REQUEST instance_id PLDM_BASE PLDM_MULTIPART_RECEIVE
        PLDM_MULTIPART_RECEIVE_REQ_BYTES msg len (
      _ ← pldm_msgbuf_insert KU8 (mr_pldm_type req);
      _ ← pldm_msgbuf_insert KU8 (mr_transfer_opflag req);
      _ ← pldm_msgbuf_insert KU32 (mr_transfer_ctx req);
      _ ← pldm_msgbuf_insert KU32 (mr_transfer_handle req);
      _ ← pldm_msgbuf_insert KU32 (mr_section_offset req);
      _ ← pldm_msgbuf_insert KU32 (mr_section_length req);
      pldm_msgbuf_complete_used len len)
  | _, _, _ => Ok (- EINVAL, msg, payload_length)
  end.

Record pldm_base_multipart_receive_resp := MrResp {
  mrr_completion_code : Z; mrr_transfer_flag : Z; mrr_next_transfer_handle : Z;
  mrr_data : variable_field
}.

Definition decode_pldm_base_multipart_receive_resp (msg : option pldm_msg) (payload_length : Z)
    (resp : option pldm_base_multipart_receive_resp) (data_integrity_checksum : option Z)
  : outcome (Z * option pldm_base_multipart_receive_resp * option Z) :=
  match msg, resp, data_integrity_checksum with
  | Some msg, Some r, Some sum =>
    rc ← pldm_msg_has_error msg payload_length;
    if negb (rc =? 0) then
      mret (0, Some (MrResp rc (mrr_transfer_flag r) (mrr_next_transfer_handle r) (mrr_data r)),
            Some sum)
    else
    '(rc, (r, sum)) ← decode_frame PLDM_BASE_MULTIPART_RECEIVE_RESP_MIN_BYTES msg payload_length
        (r, sum) (
      '(_, cc) ← pldm_msgbuf_extract KU8 (mrr_completion_code r);
      '(rc, flag) ← pldm_msgbuf_extract KU8 (mrr_transfer_flag r);
      if_err rc return_
        (rc ← pldm_msgbuf_ro_discard rc;
         mret (rc, (MrResp cc flag (mrr_next_transfer_handle r) (mrr_data r), sum)));;
      '(_, handle) ← pldm_msgbuf_extract KU32 (mrr_next_transfer_handle r);
      '(rc, length) ← pldm__msgbuf_extract_uint32_to_size (vf_length (mrr_data r));
      if_err rc return_
        (rc ← pldm_msgbuf_ro_discard rc;
         mret (rc, (MrResp cc flag handle (VarField (vf_ptr (mrr_data r)) length), sum)));;
      p ← (if 0 <? length then
             '(_, p) ← pldm_msgbuf_ro_span_required length (Some None);
             mret (default None p)
           else mret (vf_ptr (mrr_data r)));
      sum ← (if negb (flag =? PLDM_BASE_MULTIPART_RECEIVE_TRANSFER_FLAG_ACK_COMPLETION) then
               '(_, sum) ← pldm_msgbuf_extract KU32 sum; mret sum
             else mret sum);
      rc ← pldm_msgbuf_ro_complete_consumed;
      mret (rc, (MrResp cc flag handle (VarField p length), sum)));
    mret (rc, Some r, Some sum)
  | _, _, _ => Ok (- EINVAL, resp, data_integrity_checksum)
  end.

(** The object behind [data.ptr], for a copy of [data.length] bytes from it. *)
Definition field_object (f : variable_field) : cmem := default (CMem 0 []) (vf_ptr f).

Definition data_missing (f : variable_field) : bool :=
  (0 <? vf_length f) && match vf_ptr f with None => true | Some _ => false end.

Definition encode_base_multipart_receive_resp (instance_id : Z)
    (resp : option pldm_base_multipart_receive_resp) (checksum : Z) (msg : option pldm_msg)
    (payload_length : option Z) : outcome (Z * option pldm_msg * option Z) :=
  match msg, resp, payload_length with
  | Some m, Some resp, Some len =>
    if data_missing (mrr_data resp) then Ok (- EINVAL, msg, payload_length)
    else
    encode_frame PLDM_RESPONSE instance_id PLDM_BASE PLDM_MULTIPART_RECEIVE
        PLDM_BASE_MULTIPART_RECEIVE_RESP_MIN_BYTES m len (
      _ ← pldm_msgbuf_insert KU8 (mrr_completion_code resp);
      if negb (mrr_completion_code resp =? PLDM_SUCCESS) then pldm_msgbuf_complete_used len len
      else
      _ ← pldm_msgbuf_insert KU8 (mrr_transfer_flag resp);
      _ ← pldm_msgbuf_insert KU32 (mrr_next_transfer_handle resp);
      _ ← pldm_msgbuf_insert_uint32 (u32 (vf_length (mrr_data resp)));
      if vf_length (mrr_data resp) =? 0 then pldm_msgbuf_complete_used len len
      else
      rc ← pldm_msgbuf_insert_array_uint8 (vf_length (mrr_data resp))
             (field_object (mrr_data resp)) (vf_length (mrr_data resp));
      if_err rc return_ (rc ← pldm_msgbuf_rw_discard rc; mret (rc, len));;
      _ ← (if negb (mrr_transfer_flag resp
                    =? PLDM_BASE_MULTIPART_RECEIVE_TRANSFER_FLAG_ACK_COMPLETION)
           then pldm_msgbuf_insert KU32 checksum else mret 0);
      pldm_msgbuf_complete_used len len)
  | _, _, _ => Ok (- EINVAL, msg, payload_length)
  end.

Record pldm_base_multipart_send_resp := MsResp {
  msr_completion_code : Z; msr_next_transfer_operation : Z
}.

Definition decode_pldm_base_multipart_send_resp (msg : option pldm_msg) (payload_length : Z)
    (resp : option pldm_base_multipart_send_resp)
  : outcome (Z * option pldm_base_multipart_send_resp) :=
  match msg, resp with
  | Some msg, Some r =>
    rc ← pldm_msg_has_error msg payload_length;
    if negb (rc =? 0) then mret (0, Some (MsResp rc (msr_next_transfer_operation r)))
    else
    '(rc, r) ← decode_frame PLDM_BASE_MULTIPART_SEND_RESP_BYTES msg payload_length r (
      '(_, cc) ← pldm_msgbuf_extract KU8 (msr_completion_code r);
      '(_, op) ← pldm_msgbuf_extract KU8 (msr_next_transfer_operation r);
      rc ← pldm_msgbuf_ro_complete_consumed;
      mret (rc, MsResp cc op));
    mret (rc, Some r)
  | _, _ => Ok (- EINVAL, resp)
  end.

Definition encode_pldm_base_multipart_send_resp (instance_id : Z)
    (resp : option pldm_base_multipart_send_resp) (msg : option pldm_msg)
    (payload_length : option Z) : outcome (Z * option pldm_msg * option Z) :=
  match msg, resp, payload_length with
  | Some msg, Some resp, Some len =>
    encode_frame PLDM_RESPONSE instance_id PLDM_BASE PLDM_MULTIPART_SEND
        PLDM_BASE_MULTIPART_SEND_RESP_BYTES msg len (
      _ ← pldm_msgbuf_insert KU8 (msr_completion_code resp);
      _ ← pldm_msgbuf_insert KU8 (msr_next_transfer_operation resp);
      pldm_msgbuf_complete_used len len)
  | _, _, _ => Ok (- EINVAL, msg, payload_length)
  end.

Record pldm_base_multipart_send_req := MsReq {
  ms_pldm_type : Z; ms_transfer_flag : Z; ms_transfer_ctx : Z; ms_transfer_handle : Z;
  ms_next_transfer_handle : Z; ms_section_offset : Z; ms_section_length : Z;
  ms_data : variable_field
}.

(** The rule both directions check: a section is only given with the first part. *)
Definition send_section_misplaced (flag offset length : Z) : bool :=
  negb (flag =? PLDM_BASE_MULTIPART_SEND_TRANSFER_FLAG_START)
  && negb (flag =? PLDM_BASE_MULTIPART_SEND_TRANSFER_FLAG_START_AND_END)
  && (negb (offset =? 0) || negb (length =? 0)).

Definition decode_pldm_base_multipart_send_req (msg : option pldm_msg) (payload_length : Z)
    (req : option pldm_base_multipart_send_req) (data_integrity_checksum : option Z)
  : outcome (Z * option pldm_base_multipart_send_req * option Z) :=
  match msg, req, data_integrity_checksum with
  | Some msg, Some r, Some sum =>
    '(rc, (r, sum)) ← decode_frame PLDM_BASE_MULTIPART_SEND_REQ_MIN_BYTES msg payload_length
        (r, sum) (
      '(_, ty) ← pldm_msgbuf_extract KU8 (ms_pldm_type r);
      '(_, flag) ← pldm_msgbuf_extract KU8 (ms_transfer_flag r);
      '(_, ctx) ← pldm_msgbuf_extract KU32 (ms_transfer_ctx r);
      '(_, handle) ← pldm_msgbuf_extract KU32 (ms_transfer_handle r);
      '(_, next) ← pldm_msgbuf_extract KU32 (ms_next_transfer_handle r);
      '(_, soff) ← pldm_msgbuf_extract KU32 (ms_section_offset r);
      '(_, slen) ← pldm_msgbuf_extract KU32 (ms_section_length r);
      let set data := MsReq ty flag ctx handle next soff slen data in
      if negb (ty =? PLDM_BASE) && negb (ty =? PLDM_FILE) then
        rc ← pldm_msgbuf_ro_discard (- ENOTSUP); mret (rc, (set (ms_data r), sum))
      else if send_section_misplaced flag soff slen then
        rc ← pldm_msgbuf_ro_discard (- EPROTO); mret (rc, (set (ms_data r), sum))
      else
      '(rc, length) ← pldm__msgbuf_extract_uint32_to_size (vf_length (ms_data r));
      if_err rc return_
        (rc ← pldm_msgbuf_ro_discard rc;
         mret (rc, (set (VarField (vf_ptr (ms_data r)) length), sum)));;
      '(p, sum) ← (if 0 <? length then
             '(_, p) ← pldm_msgbuf_ro_span_required length (Some None);
             '(_, sum) ← pldm_msgbuf_extract KU32 sum;
             mret (default None p, sum)
           else mret (vf_ptr (ms_data r), sum));
      rc ← pldm_msgbuf_ro_complete_consumed;
      mret (rc, (set (VarField p length), sum)));
    mret (rc, Some r, Some sum)
  | _, _, _ => Ok (- EINVAL, req, data_integrity_checksum)
  end.

Definition encode_pldm_base_multipart_send_req (instance_id : Z)
    (req : option pldm_base_multipart_send_req) (checksum : Z) (msg : option pldm_msg)
    (payload_length : option Z) : outcome (Z * option pldm_msg * option Z) :=
  match msg, req, payload_length with
  | Some m, Some req, Some len =>
    if data_missing (ms_data req) then Ok (- EINVAL, msg, payload_length)
    else
    encode_frame PLDM_REQUEST instance_id PLDM_BASE PLDM_MULTIPART_SEND
        PLDM_BASE_MULTIPART_SEND_REQ_MIN_BYTES m len (
      _ ← pldm_msgbuf_insert KU8 (ms_pldm_type req);
      _ ← pldm_msgbuf_insert KU8 (ms_transfer_flag req);
      _ ← pldm_msgbuf_insert KU32 (ms_transfer_ctx req);
      _ ← pldm_msgbuf_insert KU32 (ms_transfer_handle req);
      _ ← pldm_msgbuf_insert KU32 (ms_next_transfer_handle req);
      _ ← pldm_msgbuf_insert KU32 (ms_section_offset req);
      _ ← pldm_msgbuf_insert KU32 (ms_section_length req);
      if send_section_misplaced (ms_transfer_flag req) (ms_section_offset req)
           (ms_section_length req) then
        rc ← pldm_msgbuf_rw_discard (- EPROTO); mret (rc, len)
      else
      _ ← pldm_msgbuf_insert_uint32 (u32 (vf_length (ms_data req)));
      if vf_length (ms_data req) =? 0 then pldm_msgbuf_complete_used len len
      else
      rc ← pldm_msgbuf_insert_array_uint8 (vf_length (ms_data req))
             (field_object (ms_data req)) (vf_length (ms_data req));
      if_err rc return_ (rc ← pldm_msgbuf_rw_discard rc; mret (rc, len));;
      _ ← pldm_msgbuf_insert KU32 checksum;
      pldm_msgbuf_complete_used len len)
  | _, _, _ => Ok (- EINVAL, msg, payload_length)
  end.

(** The two eight-byte protocol support arrays are lists of bytes. *)
Record pldm_base_negotiate_transfer_params_req := NegReq {
  neg_requester_part_size : Z; neg_requester_protocol_support : list Z
}.

Record pldm_base_negotiate_transfer_params_resp := NegResp {
  neg_completion_code : Z; neg_responder_part_size : Z; neg_responder_protocol_support : list Z
}.

Definition encode_pldm_base_negotiate_transfer_params_req (instance_id : Z)
    (req : option pldm_base_negotiate_transfer_params_req) (msg : option pldm_msg)
    (payload_length : option Z) : outcome (Z * option pldm_msg * option Z) :=
  match req, msg, payload_length with
  | Some req, Some msg, Some len =>
    encode_frame PLDM_REQUEST instance_id PLDM_BASE PLDM_NEGOTIATE_TRANSFER_PARAMETERS
        PLDM_BASE_NEGOTIATE_TRANSFER_PARAMETERS_REQ_BYTES msg len (
      _ ← pldm_msgbuf_insert KU16 (neg_requester_part_size req);
      rc ← pldm_msgbuf_insert_array_uint8 8 (CMem 0 (neg_requester_protocol_support req)) 8;
      if_err rc return_ (rc ← pldm_msgbuf_rw_discard rc; mret (rc, len));;
      pldm_msgbuf_complete_used len len)
  | _, _, _ => Ok (- EINVAL, msg, payload_length)
  end.

(** [payload_length] is dereferenced without a check. *)
Definition encode_pldm_base_negotiate_transfer_params_resp (instance_id : Z)
    (resp : option pldm_base_negotiate_transfer_params_resp) (msg : option pldm_msg)
    (payload_length : option Z) : outcome (Z * option pldm_msg * option Z) :=
  match resp, msg with
  | Some resp, Some m =>
    if neg_responder_part_size resp <? PLDM_BASE_MIN_PART_SIZE then
      Ok (- EINVAL, msg, payload_length)
    else match payload_length with
    | None =>
      let '(rc, m) := pack_into PLDM_RESPONSE instance_id PLDM_BASE
                        PLDM_NEGOTIATE_TRANSFER_PARAMETERS m in
      if_err rc return_ Ok (rc, Some m, payload_length);;
      Fault FMemory
    | Some len =>
    encode_frame PLDM_RESPONSE instance_id PLDM_BASE PLDM_NEGOTIATE_TRANSFER_PARAMETERS
        PLDM_BASE_NEGOTIATE_TRANSFER_PARAMETERS_RESP_BYTES m len (
      _ ← pldm_msgbuf_insert KU8 (neg_completion_code resp);
      _ ← pldm_msgbuf_insert KU16 (neg_responder_part_size resp);
      rc ← pldm_msgbuf_insert_array_uint8 8 (CMem 0 (neg_responder_protocol_support resp)) 8;
      if_err rc return_ (rc ← pldm_msgbuf_rw_discard rc; mret (rc, len));;
      pldm_msgbuf_complete_used len len)
    end
  | _, _ => Ok (- EINVAL, msg, payload_length)
  end.

Definition decode_pldm_base_negotiate_transfer_params_req (msg : option pldm_msg)
    (payload_length : Z) (req : option pldm_base_negotiate_transfer_params_req)
  : outcome (Z * option pldm_base_negotiate_transfer_params_req) :=
  match msg, req with
  | Some msg, Some r =>
    '(rc, r) ← decode_frame PLDM_BASE_NEGOTIATE_TRANSFER_PARAMETERS_REQ_BYTES msg payload_length r (
      '(_, size) ← pldm_msgbuf_extract KU16 (neg_requester_part_size r);
      '(rc, support) ← pldm_msgbuf_extract_array_uint8 8 (neg_requester_protocol_support r) 8;
      if_err rc return_ (rc ← pldm_msgbuf_ro_discard rc; mret (rc, NegReq size support));;
      rc ← pldm_msgbuf_ro_complete_consumed;
      mret (rc, NegReq size support));
    mret (rc, Some r)
  | _, _ => Ok (- EINVAL, req)
  end.

Definition decode_pldm_base_negotiate_transfer_params_resp (msg : option pldm_msg)
    (payload_length : Z) (resp : option pldm_base_negotiate_transfer_params_resp)
  : outcome (Z * option pldm_base_negotiate_transfer_params_resp) :=
  match msg, resp with
  | Some msg, Some r =>
    rc ← pldm_msg_has_error msg payload_length;
    if negb (rc =? 0) then
      mret (0, Some (NegResp rc (neg_responder_part_size r) (neg_responder_protocol_support r)))
    else
    '(rc, r) ← decode_frame PLDM_BASE_NEGOTIATE_TRANSFER_PARAMETERS_RESP_BYTES msg payload_length r (
      '(_, cc) ← pldm_msgbuf_extract KU8 (neg_completion_code r);
      '(_, size) ← pldm_msgbuf_extract KU16 (neg_responder_part_size r);
      '(rc, support) ← pldm_msgbuf_extract_array_uint8 8 (neg_responder_protocol_support r) 8;
      if_err rc return_ (rc ← pldm_msgbuf_ro_discard rc; mret (rc, NegResp cc size support));;
      rc ← pldm_msgbuf_ro_complete_consumed;
      mret (rc, NegResp cc size support));
    mret (rc, Some r)
  | _, _ => Ok (- EINVAL, resp)
  end.

(** GetTID and GetPLDMTypes responses share the shape of their encoder: an error
    response is its completion code alone. *)
Definition encode_resp_frame (instance_id cmd cc minsize : Z) (msg : pldm_msg) (len : Z)
    (body : B (Z * Z)) : outcome (Z * option pldm_msg * option Z) :=
  if len <? 1 then Ok (- EOVERFLOW, Some msg, Some len)
  else
    let '(rc, m) := pack_into PLDM_RESPONSE instance_id PLDM_BASE cmd msg in
    if_err rc return_ mret (rc, Some m, Some len);;
    if negb (cc =? PLDM_SUCCESS) then
      m ← payload_write m 0 [cc];
      mret (0, Some m, Some 1)
    else
    '(rc, len, p) ← msgbuf_scope (payload m) (
      rc ← pldm_msgbuf_rw_init_errno minsize (payload m) len;
      if_err rc return_ mret (rc, len);;
      _ ← lift (c_assert (cc =? PLDM_SUCCESS));
      _ ← pldm_msgbuf_insert KU8 cc;
      body);
    mret (rc, Some (Msg (hdr m) p), Some len).

Record pldm_base_get_tid_resp := TidResp { tid_completion_code : Z; tid_tid : Z }.

Definition encode_pldm_base_get_tid_resp (instance_id : Z) (resp : option pldm_base_get_tid_resp)
    (msg : option pldm_msg) (payload_length : option Z)
  : outcome (Z * option pldm_msg * option Z) :=
  match resp, msg, payload_length with
  | Some resp, Some msg, Some len =>
    encode_resp_frame instance_id PLDM_GET_TID (tid_completion_code resp)
        PLDM_BASE_GET_TID_RESP_BYTES msg len (
      _ ← pldm_msgbuf_insert KU8 (tid_tid resp);
      pldm_msgbuf_complete_used len len)
  | _, _, _ => Ok (- EINVAL, msg, payload_length)
  end.

Definition decode_pldm_base_get_tid_resp (msg : option pldm_msg) (payload_length : Z)
    (resp : option pldm_base_get_tid_resp) : outcome (Z * option pldm_base_get_tid_resp) :=
  match msg, resp with
  | Some msg, Some r =>
    rc ← pldm_msg_has_error msg payload_length;
    if negb (rc =? 0) then mret (0, Some (TidResp rc (tid_tid r)))
    else
    '(rc, r) ← decode_frame PLDM_BASE_GET_TID_RESP_BYTES msg payload_length r (
      '(_, cc) ← pldm_msgbuf_extract KU8 (tid_completion_code r);
      '(_, tid) ← pldm_msgbuf_extract KU8 (tid_tid r);
      rc ← pldm_msgbuf_ro_complete_consumed;
      mret (rc, TidResp cc tid));
    mret (rc, Some r)
  | _, _ => Ok (- EINVAL, resp)
  end.

(** [pldm_types]: eight bitfield8_t. *)
Record pldm_base_get_pldm_types_resp := TypesResp {
  types_completion_code : Z; types_pldm_types : list Z
}.

Fixpoint insert_types (l : list Z) : B unit :=
  match l with
  | [] => mret tt
  | t :: l => _ ← pldm_msgbuf_insert KU8 t; insert_types l
  end.

Fixpoint extract_types (l : list Z) : B (list Z) :=
  match l with
  | [] => mret []
  | t :: l => '(_, t) ← pldm_msgbuf_extract KU8 t; l ← extract_types l; mret (t :: l)
  end.

Definition encode_pldm_base_get_pldm_types_resp (instance_id : Z)
    (resp : option pldm_base_get_pldm_types_resp) (msg : option pldm_msg)
    (payload_length : option Z) : outcome (Z * option pldm_msg * option Z) :=
  match resp, msg, payload_length with
  | Some resp, Some msg, Some len =>
    encode_resp_frame instance_id PLDM_GET_PLDM_TYPES (types_completion_code resp)
        PLDM_BASE_GET_PLDM_TYPES_RESP_BYTES msg len (
      _ ← insert_types (types_pldm_types resp);
      pldm_msgbuf_complete_used len len)
  | _, _, _ => Ok (- EINVAL, msg, payload_length)
  end.

Definition decode_pldm_base_get_pldm_types_resp (msg : option pldm_msg) (payload_length : Z)
    (resp : option pldm_base_get_pldm_types_resp)
  : outcome (Z * option pldm_base_get_pldm_types_resp) :=
  match msg, resp with
  | Some msg, Some r =>
    rc ← pldm_msg_has_error msg payload_length;
    if negb (rc =? 0) then mret (0, Some (TypesResp rc (types_pldm_types r)))
    else
    '(rc, r) ← decode_frame PLDM_BASE_GET_PLDM_TYPES_RESP_BYTES msg payload_length r (
      '(_, cc) ← pldm_msgbuf_extract KU8 (types_completion_code r);
      types ← extract_types (types_pldm_types r);
      rc ← pldm_msgbuf_ro_complete_consumed;
      mret (rc, TypesResp cc types));
    mret (rc, Some r)
  | _, _ => Ok (- EINVAL, resp)
  end.

(** ** Legacy codecs

    The result is a completion code, and the payload is written as a struct. *)

(** [pack_pldm_header(&header, &msg->hdr)], and [k] if it succeeds. *)
Definition legacy_frame (ty inst pty cmd : Z) (msg : pldm_msg)
    (k : pldm_msg -> outcome (Z * option pldm_msg)) : outcome (Z * option pldm_msg) :=
  '(rc, h) ← pack_pldm_header (Some (header_info ty inst pty cmd)) (Some (hdr msg));
  let msg := Msg (default (hdr msg) h) (payload msg) in
  if negb (rc =? PLDM_SUCCESS) then mret (rc, Some msg) else k msg.

Definition header_only (msg : pldm_msg) : outcome (Z * option pldm_msg) :=
  Ok (PLDM_SUCCESS, Some msg).

Definition encode_get_types_req (instance_id : Z) (msg : option pldm_msg) : outcome (Z * option pldm_msg) :=
  match msg with
  | None => Ok (PLDM_ERROR_INVALID_DATA, msg)
  | Some m => legacy_frame PLDM_REQUEST instance_id PLDM_BASE PLDM_GET_PLDM_TYPES m header_only
  end.

Definition encode_get_tid_req (instance_id : Z) (msg : option pldm_msg) : outcome (Z * option pldm_msg) :=
  match msg with
  | None => Ok (PLDM_ERROR_INVALID_DATA, msg)
  | Some m => legacy_frame PLDM_REQUEST instance_id PLDM_BASE PLDM_GET_TID m header_only
  end.

Definition encode_set_tid_req (instance_id tid : Z) (msg : option pldm_msg)
  : outcome (Z * option pldm_msg) :=
  match msg with
  | None => Ok (PLDM_ERROR_INVALID_DATA, msg)
  | Some m =>
    if (tid =? 0) || (tid =? 0xff) then Ok (PLDM_ERROR_INVALID_DATA, msg)
    else legacy_frame PLDM_REQUEST instance_id PLDM_BASE PLDM_SET_TID m (fun m =>
      m ← payload_write m 0 [tid];
      mret (PLDM_SUCCESS, Some m))
  end.

Definition ver32_bytes (v : ver32_t) : list Z := [alpha v; update v; minor v; major v].

Definition ver32_parse (l : list Z) : ver32_t :=
  Ver32 (nth 0 l 0) (nth 1 l 0) (nth 2 l 0) (nth 3 l 0).

Definition encode_get_commands_req (instance_id type : Z) (version : ver32_t)
    (msg : option pldm_msg) : outcome (Z * option pldm_msg) :=
  match msg with
  | None => Ok (PLDM_ERROR_INVALID_DATA, msg)
  | Some m =>
    legacy_frame PLDM_REQUEST instance_id PLDM_BASE PLDM_GET_PLDM_COMMANDS m (fun m =>
      m ← payload_write m 0 [type];
      m ← payload_write m 1 (ver32_bytes version);
      mret (PLDM_SUCCESS, Some m))
  end.

Definition decode_get_commands_req (msg : option pldm_msg) (payload_length : Z)
    (type : option Z) (version : option ver32_t) : outcome (Z * option Z * option ver32_t) :=
  match msg, type, version with
  | Some m, Some _, Some _ =>
    if negb (payload_length =? PLDM_GET_COMMANDS_REQ_BYTES) then
      Ok (PLDM_ERROR_INVALID_LENGTH, type, version)
    else
      t ← payload_read m 0 1;
      v ← payload_read m 1 4;
      mret (PLDM_SUCCESS, Some (le_dec t), Some (ver32_parse v))
  | _, _, _ => Ok (PLDM_ERROR_INVALID_DATA, type, version)
  end.

(** [commands] is the caller's array of 32 bitfield8_t. *)
Definition encode_get_commands_resp (instance_id completion_code : Z) (commands : option cmem)
    (msg : option pldm_msg) : outcome (Z * option pldm_msg) :=
  match msg with
  | None => Ok (PLDM_ERROR_INVALID_DATA, msg)
  | Some m =>
    legacy_frame PLDM_RESPONSE instance_id PLDM_BASE PLDM_GET_PLDM_COMMANDS m (fun m =>
      m ← payload_write m 0 [completion_code];
      if completion_code =? PLDM_SUCCESS then
        match commands with
        | None => mret (PLDM_ERROR_INVALID_DATA, Some m)
        | Some commands =>
          l ← mem_read commands 0 (PLDM_MAX_CMDS_PER_TYPE / 8);
          m ← payload_write m 1 l;
          mret (PLDM_SUCCESS, Some m)
        end
      else mret (PLDM_SUCCESS, Some m))
  end.

Definition decode_get_commands_resp (msg : option pldm_msg) (payload_length : Z)
    (completion_code : option Z) (commands : option cmem)
  : outcome (Z * option Z * option cmem) :=
  match msg, commands, completion_code with
  | Some m, Some c, Some _ =>
    cc ← payload_read m 0 1;
    if negb (le_dec cc =? PLDM_SUCCESS) then mret (PLDM_SUCCESS, Some (le_dec cc), commands)
    else if negb (payload_length =? PLDM_GET_COMMANDS_RESP_BYTES) then
      mret (PLDM_ERROR_INVALID_LENGTH, Some (le_dec cc), commands)
    else
      l ← payload_read m 1 (PLDM_MAX_CMDS_PER_TYPE / 8);
      c ← mem_write c 0 l;
      mret (PLDM_SUCCESS, Some (le_dec cc), Some c)
  | _, _, _ => Ok (PLDM_ERROR_INVALID_DATA, completion_code, commands)
  end.

Definition encode_get_version_req (instance_id transfer_handle transfer_opflag type : Z)
    (msg : option pldm_msg) : outcome (Z * option pldm_msg) :=
  match msg with
  | None => Ok (PLDM_ERROR_INVALID_DATA, msg)
  | Some m =>
    legacy_frame PLDM_REQUEST instance_id PLDM_BASE PLDM_GET_PLDM_VERSION m (fun m =>
      m ← payload_write m 0 (le_enc 4 transfer_handle);
      m ← payload_write m 4 [transfer_opflag];
      m ← payload_write m 5 [type];
      mret (PLDM_SUCCESS, Some m))
  end.

(** [version_data] is the object behind the pointer. *)
Definition encode_get_version_resp (instance_id completion_code next_transfer_handle
    transfer_flag : Z) (version_data : option cmem) (version_size : Z) (msg : option pldm_msg)
  : outcome (Z * option pldm_msg) :=
  match msg, version_data with
  | Some m, Some version_data =>
    legacy_frame PLDM_RESPONSE instance_id PLDM_BASE PLDM_GET_PLDM_VERSION m (fun m =>
      m ← payload_write m 0 [completion_code];
      if completion_code =? PLDM_SUCCESS then
        m ← payload_write m 1 (le_enc 4 next_transfer_handle);
        m ← payload_write m 5 [transfer_flag];
        l ← mem_read version_data 0 version_size;
        m ← payload_write m 6 l;
        mret (PLDM_SUCCESS, Some m)
      else mret (PLDM_SUCCESS, Some m))
  | _, _ => Ok (PLDM_ERROR_INVALID_DATA, msg)
  end.

(** No argument is checked: all are objects here. *)
Definition decode_get_version_req (msg : pldm_msg) (payload_length : Z)
    (transfer_handle transfer_opflag type : Z) : outcome (Z * Z * Z * Z) :=
  if negb (payload_length =? PLDM_GET_VERSION_REQ_BYTES) then
    Ok (PLDM_ERROR_INVALID_LENGTH, transfer_handle, transfer_opflag, type)
  else
    h ← payload_read msg 0 4;
    o ← payload_read msg 4 1;
    t ← payload_read msg 5 1;
    mret (PLDM_SUCCESS, le_dec h, le_dec o, le_dec t).

(** [version] is written through without a check. *)
Definition decode_get_version_resp (msg : option pldm_msg) (payload_length : Z)
    (completion_code next_transfer_handle transfer_flag : option Z) (version : ver32_t)
  : outcome (Z * option Z * option Z * option Z * ver32_t) :=
  match msg, next_transfer_handle, transfer_flag, completion_code with
  | Some m, Some _, Some _, Some _ =>
    cc ← payload_read m 0 1;
    if negb (le_dec cc =? PLDM_SUCCESS) then
      mret (PLDM_SUCCESS, Some (le_dec cc), next_transfer_handle, transfer_flag, version)
    else if payload_length <? PLDM_GET_VERSION_RESP_BYTES then
      mret (PLDM_ERROR_INVALID_LENGTH, Some (le_dec cc), next_transfer_handle, transfer_flag, version)
    else
      h ← payload_read m 1 4;
      f ← payload_read m 5 1;
      v ← payload_read m 6 4;
      mret (PLDM_SUCCESS, Some (le_dec cc), Some (le_dec h), Some (le_dec f), ver32_parse v)
  | _, _, _, _ =>
    Ok (PLDM_ERROR_INVALID_DATA, completion_code, next_transfer_handle, transfer_flag, version)
  end.

Definition encode_cc_only_resp (instance_id type command cc : Z) (msg : option pldm_msg)
  : outcome (Z * option pldm_msg) :=
  match msg with
  | None => Ok (PLDM_ERROR_INVALID_DATA, msg)
  | Some m =>
    legacy_frame PLDM_RESPONSE instance_id type command m (fun m =>
      m ← payload_write m 0 [cc];
      mret (PLDM_SUCCESS, Some m))
  end.

Definition decode_cc_only_resp (msg : option pldm_msg) (payload_length : Z)
    (completion_code : option Z) : outcome (Z * option Z) :=
  match msg, completion_code with
  | Some m, Some _ =>
    if negb (payload_length =? PLDM_CC_ONLY_RESP_BYTES) then
      Ok (PLDM_ERROR_INVALID_LENGTH, completion_code)
    else
      cc ← payload_read m 0 1;
      mret (PLDM_SUCCESS, Some (le_dec cc))
  | _, _ => Ok (PLDM_ERROR_INVALID_DATA, completion_code)
  end.

Definition encode_pldm_header_only_errno (msg_type instance_id pldm_type command : Z)
    (msg : option pldm_msg) : Z * option pldm_msg :=
  match msg with
  | None => (- EINVAL, msg)
  | Some m =>
    let '(rc, m) := pack_into msg_type instance_id pldm_type command m in (rc, Some m)
  end.

Definition encode_pldm_header_only (msg_type instance_id pldm_type command : Z)
    (msg : option pldm_msg) : outcome (Z * option pldm_msg) :=
  let '(rc, msg) := encode_pldm_header_only_errno msg_type instance_id pldm_type command msg in
  if negb (rc =? 0) then cc ← pldm_xlate_errno rc; mret (cc, msg)
  else mret (PLDM_SUCCESS, msg).

(** ** Proving codecs *)

Section frames.
Context (ty inst pty cmd minsize : Z) (msg : pldm_msg) (len : Z).
Hypothesis Hty : ty ∈ [PLDM_RESPONSE; PLDM_REQUEST; PLDM_ASYNC_REQUEST_NOTIFY].
Hypothesis Hinst : 0 <= inst <= 31.
Hypothesis Hpty : 0 <= pty < 64.
Hypothesis Hmem : mem_ok (payload msg).
Hypothesis Hlen : 0 <= len <= mem_size (payload msg).

Lemma pack_into_ok : pack_into ty inst pty cmd msg = (0, Msg (packed ty inst pty cmd) (payload msg)).
Proof. unfold pack_into. by rewrite pack_ok. Qed.

(** A frame that fits: what its body leaves is the result. *)
Lemma encode_frame_fits body (P : Z -> Z -> cmem -> Prop) :
  minsize <= len ->
  (forall b, mb_wr (payload msg) len [] b ->
     wp body b (fun '(rc, l) b' => mb_done b' /\ P rc l (obj b'))) ->
  exists rc l m, encode_frame ty inst pty cmd minsize msg len body
    = Ok (rc, Some (Msg (packed ty inst pty cmd) m), Some l) /\ P rc l m.
Proof.
  intros Hmin Hbody. destruct Hmem. unfold encode_frame. rewrite pack_into_ok. cbn [payload hdr].
  rewrite Z.eqb_refl.
  match goal with |- context [msgbuf_scope ?o ?k] =>
    destruct (msgbuf_scope_wp o k (fun '(rc, l) m => P rc l m)) as ([rc l] & m' & -> & HP) end;
    [|by exists rc, l, m'].
  apply wp_bind, wp_init_wr; [lia..|]. intros b _. cmp_case; [|lia]. intros Hb. cmp_case; [|done].
  eapply wp_mono; [by apply Hbody|]. by intros [].
Qed.

(** A payload shorter than the minimum is refused, with the header packed. *)
Lemma encode_frame_short body :
  len < minsize ->
  encode_frame ty inst pty cmd minsize msg len body
  = Ok (- EOVERFLOW, Some (Msg (packed ty inst pty cmd) (payload msg)), Some len).
Proof.
  intros Hmin. unfold encode_frame. rewrite pack_into_ok. cbn [payload hdr]. rewrite Z.eqb_refl.
  unfold msgbuf_scope, pldm_msgbuf_rw_init_errno, pldm__msgbuf_init_errno.
  cbn [mbind stM_bind]. unfold stM_bind. cmp_case; [|lia]. done.
Qed.

Lemma decode_frame_fits {A} (init : A) body (P : Z -> A -> Prop) :
  minsize <= len ->
  (forall b, mb_rd (payload msg) len 0 b ->
     wp body b (fun '(rc, a) b' => mb_done b' /\ P rc a)) ->
  exists rc a, decode_frame minsize msg len init body = Ok (rc, a) /\ P rc a.
Proof.
  intros Hmin Hbody. destruct Hmem. unfold decode_frame.
  match goal with |- context [msgbuf_scope ?o ?k] =>
    destruct (msgbuf_scope_wp o k (fun '(rc, a) _ => P rc a)) as ([rc a] & m' & -> & HP) end;
    [|by exists rc, a].
  apply wp_bind, wp_init_rd; [lia..|]. intros b _. cmp_case; [|lia]. intros Hb. cmp_case; [|done].
  eapply wp_mono; [by apply Hbody|]. by intros [].
Qed.

Lemma decode_frame_short {A} (init : A) body :
  len < minsize -> decode_frame minsize msg len init body = Ok (- EOVERFLOW, init).
Proof.
  intros Hmin. unfold decode_frame, msgbuf_scope, pldm_msgbuf_ro_init_errno, pldm__msgbuf_init_errno.
  cbn [mbind stM_bind]. unfold stM_bind. cmp_case; [|lia]. done.
Qed.
End frames.

(** A field of the payload. *)
Abbreviation field msg := (fld (payload msg)) (only parsing).

(** What complete_consumed answers when [need] of [len] bytes were asked for. *)
Definition consumed_rc (need len : Z) : Z :=
  if need =? len then 0 else if need <? len then - EBADMSG else - EOVERFLOW.

(** MultipartReceive responses: every payload of every length. *)
Lemma mrr_decode_spec msg len r sum :
  mem_ok (payload msg) -> 0 <= len <= mem_size (payload msg) ->
  decode_pldm_base_multipart_receive_resp (Some msg) len (Some r) (Some sum)
  = Ok (if len <? 1 then (- EOVERFLOW, Some r, Some sum)
        else if negb (field msg 0 1 =? 0) then
          (0, Some (MrResp (field msg 0 1) (mrr_transfer_flag r) (mrr_next_transfer_handle r)
                      (mrr_data r)), Some sum)
        else if len <? 10 then (- EOVERFLOW, Some r, Some sum)
        else
          let flag := field msg 1 1 in let n := field msg 6 4 in
          let need := 10 + n + (if flag =? 8 then 0 else 4) in
          (consumed_rc need len,
           Some (MrResp 0 flag (field msg 2 4)
                   (VarField (if n =? 0 then vf_ptr (mrr_data r)
                              else if 10 + n <=? len then Some (ptr_at (payload msg) 10) else None) n)),
           Some (if negb (flag =? 8) && (need <=? len)
                 then field msg (Z.to_nat (10 + n)) 4 else sum))).
Proof.
  intros Hm Hlen. unfold decode_pldm_base_multipart_receive_resp, pldm_msg_has_error.
  pose proof (fld_bound (payload msg) 6 4 (mem_ok_bytes _ Hm)) as Hn.
  destruct (Z.ltb_spec len 1).
  { cbn [mbind outcome_bind]. rewrite decode_frame_short by lia. done. }
  rewrite (mem_read_ok _ 0 1 (slice 0 1 (bytes (payload msg)))) by (done || lia).
  cbn [mbind outcome_bind mret outcome_ret]. fold (field msg 0 1).
  cmp_case; [|done].
  destruct (Z.ltb_spec len 10). { rewrite decode_frame_short by lia. done. }
  match goal with |- context [decode_frame 10 msg len (r, sum) ?k] =>
    destruct (decode_frame_fits 10 msg len Hm Hlen (r, sum) k (fun rc a =>
      rc = consumed_rc (10 + field msg 6 4 + (if field msg 1 1 =? 8 then 0 else 4)) len /\
      a = (MrResp 0 (field msg 1 1) (field msg 2 4) (VarField (if field msg 6 4 =? 0 then vf_ptr (mrr_data r)
                              else if 10 + field msg 6 4 <=? len then Some (ptr_at (payload msg) 10) else None) (field msg 6 4)),
          if negb (field msg 1 1 =? 8) && (10 + field msg 6 4 + (if field msg 1 1 =? 8 then 0 else 4) <=? len)
                 then field msg (Z.to_nat (10 + field msg 6 4)) 4 else sum)))
     as (rc & a & -> & -> & ->); [lia| |done] end.
  intros b Hb. do 4 mb_extract_in. apply wp_bind.
  set (n := field msg 6 4) in *. set (flag := field msg 1 1).
  eapply (wp_mono _ _ (fun p b' => mb_rd (payload msg) len (10 + n) b' /\
    p = if n =? 0 then vf_ptr (mrr_data r)
        else if 10 + n <=? len then Some (ptr_at (payload msg) 10) else None)).
  { destruct (Z.ltb_spec 0 n), (Z.eqb_spec n 0); try lia.
    - mb_span. destruct (10 + n <=? len); by apply wp_ret.
    - apply wp_ret. split; [|done]. by replace (10 + n) with 10 by lia. }
  intros p b4 [Hb4 ->]. apply wp_bind. clear Hb.
  eapply (wp_mono _ _ (fun s b' => 
    mb_rd (payload msg) len (10 + n + (if flag =? 8 then 0 else 4)) b' /\
    s = if negb (flag =? 8) && (10 + n + (if flag =? 8 then 0 else 4) <=? len)
        then field msg (Z.to_nat (10 + n)) 4 else sum)).
  { destruct (flag =? 8); cbn [negb andb].
    { apply wp_ret. split; [by rewrite Z.add_0_r|done]. }
    mb_extract. destruct (10 + n + 4 <=? len); by apply wp_ret. }
  intros s b5 [Hb5 ->]. mb_consumed. apply wp_ret. by rewrite e.
Qed.

(** The bytes of a MultipartReceive response with data. *)
Definition mrr_wire (r : pldm_base_multipart_receive_resp) (data : list Z) (checksum : Z) : list Z :=
  le_enc 1 0 ++ le_enc 1 (mrr_transfer_flag r) ++ le_enc 4 (mrr_next_transfer_handle r) ++
  le_enc 4 (Z.of_nat (length data)) ++ data ++
  (if mrr_transfer_flag r =? 8 then [] else le_enc 4 checksum).

Lemma mrr_encode_spec inst r d checksum msg len :
  mem_ok (payload msg) -> 0 <= len <= mem_size (payload msg) -> 0 <= inst <= 31 ->
  mrr_completion_code r = 0 -> vf_ptr (mrr_data r) = Some d ->
  0 < vf_length (mrr_data r) < 4294967296 -> vf_length (mrr_data r) <= mem_size d ->
  let data := slice 0 (Z.to_nat (vf_length (mrr_data r))) (bytes d) in
  let total := Z.of_nat (length (mrr_wire r data checksum)) in
  total <= len ->
  encode_base_multipart_receive_resp inst (Some r) checksum (Some msg) (Some len)
  = Ok (0, Some (Msg (packed PLDM_RESPONSE inst PLDM_BASE PLDM_MULTIPART_RECEIVE)
                     (wrote (payload msg) (mrr_wire r data checksum))), Some total).
Proof.
  intros Hm Hlen Hinst Hcc Hp Hn Hd data total Htot.
  unfold encode_base_multipart_receive_resp, data_missing. rewrite Hp, andb_false_r.
  remember (vf_length (mrr_data r)) as n eqn:En.
  assert (Z.of_nat (length data) = n) as Hdata.
  { unfold data, mem_size in *. rewrite length_slice. lia. }
  assert (10 + n <= total) as Htot'.
  { unfold total, mrr_wire. rewrite !length_app, !le_enc_length. lia. }
  match goal with |- context [encode_frame _ _ _ _ ?mn msg len ?k] =>
    destruct (encode_frame_fits PLDM_RESPONSE inst PLDM_BASE PLDM_MULTIPART_RECEIVE mn msg len
      ltac:(repeat constructor) Hinst ltac:(lia) Hm Hlen k
      (fun rc l m => rc = 0 /\ l = total /\ m = wrote (payload msg) (mrr_wire r data checksum)))
      as (rc & l & m & -> & -> & -> & ->); [lia| |done] end.
  intros b Hb. mb_insert. rewrite Hcc. cbn [negb Z.eqb]. do 3 mb_insert. cmp_case; [lia|].
  assert (field_object (mrr_data r) = d) as Hobj by (unfold field_object; by rewrite Hp).
  rewrite Hobj. mb_insert_array. mb_fits.
  fold data in Hb. apply wp_bind. clear Hobj Hp.
  assert (forall b' out, mb_wr (payload msg) len out b' -> out = mrr_wire r data checksum ->
    wp (pldm_msgbuf_complete_used len len) b' (fun '(rc, l) b' => mb_done b' /\
      rc = 0 /\ l = total /\ obj b' = wrote (payload msg) (mrr_wire r data checksum))) as Hend.
  { intros b' out Hb' ->. mb_used. fold total. revert Hwrote. fold total. cmp_case; [done|lia]. }
  assert (mrr_wire r data checksum = (((((le_enc 1 (mrr_completion_code r) ++
    le_enc 1 (mrr_transfer_flag r)) ++ le_enc 4 (mrr_next_transfer_handle r)) ++
    le_enc 4 (u32 n)) ++ data) ++ if mrr_transfer_flag r =? 8 then [] else le_enc 4 checksum))
    as Hw.
  { unfold mrr_wire, u32. rewrite Hcc, Hdata, Z.mod_small by lia. by rewrite <- !app_assoc. }
  destruct (mrr_transfer_flag r =? 8); cbn [negb].
  - apply wp_ret. eapply Hend; [exact Hb|]. by rewrite Hw, app_nil_r.
  - eapply wp_insert_kind; [exact Hb|wr_len|].
    intros b' Hb'. by eapply Hend; [exact Hb'|].
Qed.

Lemma mrr_wire_ok r data checksum : bytes_ok data -> bytes_ok (mrr_wire r data checksum).
Proof.
  intros. unfold mrr_wire. do 4 apply Forall_le_enc_app. apply Forall_app. split; [done|].
  case_match; [constructor|apply le_enc_ok].
Qed.

(** The MultipartReceive response decoder is total and exact.  Whatever the
    payload and its length, the decoder returns, touches no memory outside the
    payload, and succeeds on a success response exactly when the length is that of
    the fixed fields, the announced data and the checksum, which only an
    acknowledgement of completion leaves out.  An error response yields its
    completion code, and longer and shorter payloads are told apart. *)
Lemma multipart_receive_resp_exact msg len r sum :
  mem_ok (payload msg) -> 0 <= len <= mem_size (payload msg) ->
  exists rc r' sum',
    decode_pldm_base_multipart_receive_resp (Some msg) len (Some r) (Some sum)
    = Ok (rc, Some r', Some sum') /\
    let need := 10 + field msg 6 4 + (if field msg 1 1 =? 8 then 0 else 4) in
    (rc = 0 <-> 1 <= len /\ (field msg 0 1 <> 0 \/ len = need)) /\
    (rc = - EBADMSG <-> need < len /\ field msg 0 1 = 0) /\
    (rc <> 0 -> rc = - EBADMSG \/ rc = - EOVERFLOW) /\
    (rc = 0 -> mrr_completion_code r' = field msg 0 1) /\
    (rc = 0 -> field msg 0 1 = 0 -> vf_length (mrr_data r') <> 0 ->
       exists p, vf_ptr (mrr_data r') = Some p /\ 0 <= vf_length (mrr_data r') <= mem_size p).
Proof.
  intros Hm Hlen. rewrite mrr_decode_spec by done. cbv zeta.
  pose proof (fld_bound (payload msg) 6 4 (mem_ok_bytes _ Hm)) as Hn.
  set (n := field msg 6 4) in *. set (flag := field msg 1 1) in *.
  set (need := 10 + n + (if flag =? 8 then 0 else 4)) in *.
  assert (need <= 10 + n + 4 /\ 10 + n <= need) as Hneed by (unfold need; destruct (flag =? 8); lia).
  unfold consumed_rc.
  destruct (Z.ltb_spec len 1); [|destruct (Z.eqb_spec (field msg 0 1) 0); cbn [negb];
    [destruct (Z.ltb_spec len 10);
     [|destruct (Z.eqb_spec need len); [|destruct (Z.ltb_spec need len)]]|]];
    do 3 eexists; (split; [reflexivity|]); cbn [mrr_completion_code mrr_data vf_length vf_ptr];
    split_and!; try lia; try (intros ?; exfalso; lia); try (intros _ ?; exfalso; lia).
  intros _ _ Hn0. destruct (Z.eqb_spec n 0); [done|]. cmp_case; [|lia].
  eexists. split; [done|]. unfold mem_size in *. cbn. rewrite length_drop. lia.
Qed.

(** A MultipartReceive response with data survives the wire.  If the message
    fits the payload, encoding reports its length and decoding that many bytes
    gives back the flag, the next handle, a pointer to a copy of the data inside
    the message, and the checksum unless the flag is the one without checksum. *)
Lemma multipart_receive_resp_roundtrip inst r d checksum msg len r0 sum0 :
  mem_ok (payload msg) -> 0 <= len <= mem_size (payload msg) -> 0 <= inst <= 31 ->
  mrr_completion_code r = 0 -> 0 <= mrr_transfer_flag r < 256 ->
  0 <= mrr_next_transfer_handle r < 4294967296 -> 0 <= checksum < 4294967296 ->
  vf_ptr (mrr_data r) = Some d -> bytes_ok (bytes d) ->
  0 < vf_length (mrr_data r) < 4294967296 -> vf_length (mrr_data r) <= mem_size d ->
  let n := vf_length (mrr_data r) in
  let total := 10 + n + (if mrr_transfer_flag r =? 8 then 0 else 4) in
  total <= len ->
  exists msg' p,
    encode_base_multipart_receive_resp inst (Some r) checksum (Some msg) (Some len)
    = Ok (0, Some msg', Some total) /\
    hdr msg' = packed PLDM_RESPONSE inst PLDM_BASE PLDM_MULTIPART_RECEIVE /\
    decode_pldm_base_multipart_receive_resp (Some msg') total (Some r0) (Some sum0)
    = Ok (0, Some (MrResp 0 (mrr_transfer_flag r) (mrr_next_transfer_handle r)
                     (VarField (Some p) n)),
          Some (if mrr_transfer_flag r =? 8 then sum0 else checksum)) /\
    slice 0 (Z.to_nat n) (bytes p) = slice 0 (Z.to_nat n) (bytes d).
Proof.
  intros Hm Hlen Hinst Hcc Hflag Hhandle Hsum Hp Hdok Hn Hd n total Htot.
  set (data := slice 0 (Z.to_nat n) (bytes d)).
  assert (Z.of_nat (length data) = n) as Hdata.
  { unfold data, mem_size in *. rewrite length_slice. lia. }
  assert (Z.of_nat (length (mrr_wire r data checksum)) = total) as Hwire.
  { unfold mrr_wire, total. rewrite !length_app, !le_enc_length.
    destruct (mrr_transfer_flag r =? 8); cbn [length]; rewrite ?le_enc_length; lia. }
  rewrite (mrr_encode_spec inst r d checksum msg len) by (try done; fold n data; lia).
  fold n data. rewrite Hwire.
  eexists _, (ptr_at (wrote (payload msg) (mrr_wire r data checksum)) 10).
  do 2 (split; [reflexivity|]).
  assert (bytes_ok data) by by apply Forall_slice.
  rewrite mrr_decode_spec; cbn [payload].
  2: { apply mem_ok_wrote; [done|by apply mrr_wire_ok|lia]. }
  2: { rewrite mem_size_wrote; [|unfold mem_size in Hlen; lia].
       unfold total. destruct (mrr_transfer_flag r =? 8); lia. }
  unfold wrote, mrr_wire. rewrite <- !app_assoc. wire.
  rewrite Hdata, !Z.mod_small by (cbn; lia). fold total.
  split.
  - replace (total <? 1) with false by (unfold total; destruct (mrr_transfer_flag r =? 8); lia).
    replace (total <? 10) with false by (unfold total; destruct (mrr_transfer_flag r =? 8); lia).
    cbn [negb Z.eqb]. unfold consumed_rc. rewrite Z.eqb_refl, Z.leb_refl, andb_true_r.
    replace (n =? 0) with false by lia.
    replace (10 + n <=? total) with true by (unfold total; destruct (mrr_transfer_flag r =? 8); lia).
    destruct (mrr_transfer_flag r =? 8); cbn [negb]; [reflexivity|].
    match goal with |- context [fld ?m ?o 4] =>
      assert (fld m o 4 = checksum) as ->; [|reflexivity] end.
    wire. replace (_ - _)%nat with 0%nat by lia. rewrite fld_hit, Z.mod_small by (cbn; lia). done.
  - match goal with |- slice 0 _ (bytes (ptr_at (CMem _ ?l) _)) = _ =>
      change (slice 10 (Z.to_nat n) l = data) end.
    rewrite !slice_skip by wire_len. rewrite ?le_enc_length. cbn [Nat.sub]. apply slice_hit. lia.
Qed.

(** MultipartReceive responses.  For any payload and length the decoder returns,
    reads nothing outside the payload, and accepts a success response exactly when the
    length is that of the fixed fields, the announced data and the checksum, which
    only an acknowledgement of completion leaves out.  What the encoder writes, which
    reports its length, decodes to the same flag, handle, data and checksum. *)
Theorem multipart_receive_resp_codec :
  (forall msg len r sum,
     mem_ok (payload msg) -> 0 <= len <= mem_size (payload msg) ->
     exists rc r' sum',
       decode_pldm_base_multipart_receive_resp (Some msg) len (Some r) (Some sum)
       = Ok (rc, Some r', Some sum') /\
       let need := 10 + field msg 6 4 + (if field msg 1 1 =? 8 then 0 else 4) in
       (rc = 0 <-> 1 <= len /\ (field msg 0 1 <> 0 \/ len = need)) /\
       (rc = - EBADMSG <-> need < len /\ field msg 0 1 = 0) /\
       (rc <> 0 -> rc = - EBADMSG \/ rc = - EOVERFLOW) /\
       (rc = 0 -> mrr_completion_code r' = field msg 0 1) /\
       (rc = 0 -> field msg 0 1 = 0 -> vf_length (mrr_data r') <> 0 ->
          exists p, vf_ptr (mrr_data r') = Some p /\ 0 <= vf_length (mrr_data r') <= mem_size p)) /\
  (forall inst r d checksum msg len r0 sum0,
     mem_ok (payload msg) -> 0 <= len <= mem_size (payload msg) -> 0 <= inst <= 31 ->
     mrr_completion_code r = 0 -> 0 <= mrr_transfer_flag r < 256 ->
     0 <= mrr_next_transfer_handle r < 4294967296 -> 0 <= checksum < 4294967296 ->
     vf_ptr (mrr_data r) = Some d -> bytes_ok (bytes d) ->
     0 < vf_length (mrr_data r) < 4294967296 -> vf_length (mrr_data r) <= mem_size d ->
     let n := vf_length (mrr_data r) in
     let total := 10 + n + (if mrr_transfer_flag r =? 8 then 0 else 4) in
     total <= len ->
     exists msg' p,
       encode_base_multipart_receive_resp inst (Some r) checksum (Some msg) (Some len)
       = Ok (0, Some msg', Some total) /\
       hdr msg' = packed PLDM_RESPONSE inst PLDM_BASE PLDM_MULTIPART_RECEIVE /\
       decode_pldm_base_multipart_receive_resp (Some msg') total (Some r0) (Some sum0)
       = Ok (0, Some (MrResp 0 (mrr_transfer_flag r) (mrr_next_transfer_handle r)
                        (VarField (Some p) n)),
             Some (if mrr_transfer_flag r =? 8 then sum0 else checksum)) /\
       slice 0 (Z.to_nat n) (bytes p) = slice 0 (Z.to_nat n) (bytes d)).
Proof. exact (conj multipart_receive_resp_exact multipart_receive_resp_roundtrip). Qed.

Lemma multipart_receive_resp_codec_witness :
  (let msg := Msg (packed 0 3 0 9) (CMem 256 [0; 5; 1; 0; 0; 0; 2; 0; 0; 0; 170; 187; 1; 2; 3; 4; 9]) in
     decode_pldm_base_multipart_receive_resp (Some msg) 16
       (Some (MrResp 9 9 9 (VarField None 9))) (Some 0)
     = Ok (0, Some (MrResp 0 5 1 (VarField (Some (CMem 266 [170; 187; 1; 2; 3; 4; 9])) 2)),
           Some 0x04030201) /\
     exists rc r' sum',
       decode_pldm_base_multipart_receive_resp (Some msg) 17
         (Some (MrResp 9 9 9 (VarField None 9))) (Some 0) = Ok (rc, Some r', Some sum') /\
       let need := 10 + field msg 6 4 + (if field msg 1 1 =? 8 then 0 else 4) in
       (rc = 0 <-> 1 <= 17 /\ (field msg 0 1 <> 0 \/ 17 = need)) /\
       (rc = - EBADMSG <-> need < 17 /\ field msg 0 1 = 0) /\
       (rc <> 0 -> rc = - EBADMSG \/ rc = - EOVERFLOW) /\
       (rc = 0 -> mrr_completion_code r' = field msg 0 1) /\
       (rc = 0 -> field msg 0 1 = 0 -> vf_length (mrr_data r') <> 0 ->
          exists p, vf_ptr (mrr_data r') = Some p /\ 0 <= vf_length (mrr_data r') <= mem_size p)) /\
  (let d := CMem 4096 [11; 22; 33] in
     let r := MrResp 0 4 0xdeadbeef (VarField (Some d) 3) in
     let msg := Msg (packed 1 0 0 0) (CMem 64 (replicate 20 0)) in
     let n := vf_length (mrr_data r) in
     let total := 10 + n + (if mrr_transfer_flag r =? 8 then 0 else 4) in
     total = 17 /\
     exists msg' p,
       encode_base_multipart_receive_resp 5 (Some r) 0xcafe (Some msg) (Some 20)
       = Ok (0, Some msg', Some total) /\
       hdr msg' = packed PLDM_RESPONSE 5 PLDM_BASE PLDM_MULTIPART_RECEIVE /\
       decode_pldm_base_multipart_receive_resp (Some msg') total (Some r) (Some 0)
       = Ok (0, Some (MrResp 0 (mrr_transfer_flag r) (mrr_next_transfer_handle r)
                        (VarField (Some p) n)),
             Some (if mrr_transfer_flag r =? 8 then 0 else 0xcafe)) /\
       slice 0 (Z.to_nat n) (bytes p) = slice 0 (Z.to_nat n) (bytes d)).
Proof.
  split.
  - split; [reflexivity|].
    apply (proj1 multipart_receive_resp_codec (Msg (packed 0 3 0 9)
      (CMem 256 [0; 5; 1; 0; 0; 0; 2; 0; 0; 0; 170; 187; 1; 2; 3; 4; 9])) 17); concrete.
  - intros d r msg n total. split; [reflexivity|].
    apply (proj2 multipart_receive_resp_codec 5 r d 0xcafe msg 20 r 0).
    all: concrete.
Defined.

(** An empty part is encoded without the checksum the decoder then asks for. *)
Lemma multipart_receive_resp_empty_mismatch :
  let r := MrResp 0 5 0 (VarField None 0) in
  let msg := Msg (packed 1 0 0 0) (CMem 64 (replicate 20 0)) in
  exists msg',
    encode_base_multipart_receive_resp 5 (Some r) 0 (Some msg) (Some 20)
    = Ok (0, Some msg', Some 10) /\
    exists r' sum',
    decode_pldm_base_multipart_receive_resp (Some msg') 10 (Some r) (Some 0)
    = Ok (- EOVERFLOW, Some r', Some sum').
Proof.
  eexists. split; [vm_compute; reflexivity|]. do 2 eexists. vm_compute. reflexivity.
Qed.

(** *** Requests of the multi-part transfers *)

Definition mr_wire (r : pldm_base_multipart_receive_req) : list Z :=
  le_enc 1 (mr_pldm_type r) ++ le_enc 1 (mr_transfer_opflag r) ++ le_enc 4 (mr_transfer_ctx r) ++
  le_enc 4 (mr_transfer_handle r) ++ le_enc 4 (mr_section_offset r) ++
  le_enc 4 (mr_section_length r).

Lemma mr_encode_spec inst r msg len :
  mem_ok (payload msg) -> 0 <= len <= mem_size (payload msg) -> 0 <= inst <= 31 -> 18 <= len ->
  encode_pldm_base_multipart_receive_req inst (Some r) (Some msg) (Some len)
  = Ok (0, Some (Msg (packed PLDM_REQUEST inst PLDM_BASE PLDM_MULTIPART_RECEIVE)
                     (wrote (payload msg) (mr_wire r))), Some 18).
Proof.
  intros Hm Hlen Hinst Hmin. unfold encode_pldm_base_multipart_receive_req.
  match goal with |- context [encode_frame _ _ _ _ ?mn msg len ?k] =>
    destruct (encode_frame_fits PLDM_REQUEST inst PLDM_BASE PLDM_MULTIPART_RECEIVE mn msg len
      ltac:(repeat constructor) Hinst ltac:(lia) Hm Hlen k
      (fun rc l m => rc = 0 /\ l = 18 /\ m = wrote (payload msg) (mr_wire r)))
      as (rc & l & m & -> & -> & -> & ->); [lia| |done] end.
  intros b Hb. do 6 mb_insert. mb_finish (mr_wire r). done.
Qed.

Definition mr_ok (r : pldm_base_multipart_receive_req) : Prop :=
  byte_ok (mr_pldm_type r) /\ byte_ok (mr_transfer_opflag r) /\
  0 <= mr_transfer_ctx r < 4294967296 /\ 0 <= mr_transfer_handle r < 4294967296 /\
  0 <= mr_section_offset r < 4294967296 /\ 0 <= mr_section_length r < 4294967296.

(** What the decoder refuses in a request it could read. *)
Definition mr_refused (r : pldm_base_multipart_receive_req) : bool :=
  (4 <? mr_transfer_opflag r) || (mr_transfer_handle r =? 0) && (mr_transfer_opflag r =? 1).

Lemma mr_decode_spec msg len r :
  mem_ok (payload msg) -> 0 <= len <= mem_size (payload msg) ->
  decode_pldm_base_multipart_receive_req (Some msg) len (Some r)
  = Ok (if len <? 18 then (- EOVERFLOW, Some r)
        else
          let r' := MrReq (field msg 0 1) (field msg 1 1) (field msg 2 4) (field msg 6 4)
                      (field msg 10 4) (field msg 14 4) in
          (if 18 <? len then - EBADMSG else if mr_refused r' then - EPROTO else 0, Some r')).
Proof.
  intros Hm Hlen. unfold decode_pldm_base_multipart_receive_req.
  destruct (Z.ltb_spec len 18). { by rewrite decode_frame_short by lia. }
  match goal with |- context [decode_frame 18 msg len r ?k] =>
    destruct (decode_frame_fits 18 msg len Hm Hlen r k (fun rc a =>
      let r' := MrReq (field msg 0 1) (field msg 1 1) (field msg 2 4) (field msg 6 4)
                      (field msg 10 4) (field msg 14 4) in
      rc = (if 18 <? len then - EBADMSG else if mr_refused r' then - EPROTO else 0) /\ a = r'))
     as (rc & a & -> & -> & ->); [lia| |done] end.
  intros b Hb. do 6 mb_extract_in. mb_consumed.
  destruct (Z.eqb_spec 18 len), (Z.ltb_spec 18 len); try lia; cbn [Z.eqb].
  - unfold mr_refused. cbn [mr_transfer_opflag mr_transfer_handle].
    destruct (4 <? field msg 1 1); [by apply wp_ret|]. cbn [orb].
    destruct (_ && _); by apply wp_ret.
  - by apply wp_ret.
Qed.

(** MultipartReceive requests survive the wire, and the decoder enforces the
    transfer rules.  Any request is encoded in 18 bytes if they are there and the
    decoder reads every field back; it then answers -EPROTO exactly when the
    operation flag is not one of the defined ones, or asks for the next part
    without a transfer handle. *)
Lemma multipart_receive_req_roundtrip inst r msg len r0 :
  mem_ok (payload msg) -> 0 <= len <= mem_size (payload msg) -> 0 <= inst <= 31 -> mr_ok r ->
  if len <? 18
  then encode_pldm_base_multipart_receive_req inst (Some r) (Some msg) (Some len)
       = Ok (- EOVERFLOW, Some (Msg (packed PLDM_REQUEST inst PLDM_BASE PLDM_MULTIPART_RECEIVE)
                                    (payload msg)), Some len)
  else exists msg',
    encode_pldm_base_multipart_receive_req inst (Some r) (Some msg) (Some len)
    = Ok (0, Some msg', Some 18) /\
    hdr msg' = packed PLDM_REQUEST inst PLDM_BASE PLDM_MULTIPART_RECEIVE /\
    decode_pldm_base_multipart_receive_req (Some msg') 18 (Some r0)
    = Ok (if (4 <? mr_transfer_opflag r)
             || (mr_transfer_handle r =? 0) && (mr_transfer_opflag r =? PLDM_XFER_NEXT_PART)
          then - EPROTO else 0, Some r).
Proof.
  intros Hm Hlen Hinst (H1 & H2 & H3 & H4 & H5 & H6).
  destruct (Z.ltb_spec len 18).
  { unfold encode_pldm_base_multipart_receive_req. apply encode_frame_short; try done.
    repeat constructor. }
  rewrite mr_encode_spec by (done || lia). eexists. do 2 (split; [reflexivity|]).
  assert (Z.of_nat (length (mr_wire r)) = 18) as Hw
    by (unfold mr_wire; rewrite !length_app, !le_enc_length; done).
  rewrite mr_decode_spec; cbn [payload].
  2: { apply mem_ok_wrote; [done| |lia]. unfold mr_wire. do 5 apply Forall_le_enc_app. apply le_enc_ok. }
  2: { rewrite mem_size_wrote; unfold mem_size in *; lia. }
  unfold wrote, mr_wire. rewrite <- !app_assoc. wire. unfold byte_ok in *.
  rewrite !Z.mod_small by (cbn; lia). by destruct r.
Qed.

(** MultipartSend requests: the fixed part, the data, and a checksum if there is
    data. *)
Definition ms_wire (r : pldm_base_multipart_send_req) (data : list Z) (checksum : Z) : list Z :=
  le_enc 1 (ms_pldm_type r) ++ le_enc 1 (ms_transfer_flag r) ++ le_enc 4 (ms_transfer_ctx r) ++
  le_enc 4 (ms_transfer_handle r) ++ le_enc 4 (ms_next_transfer_handle r) ++
  le_enc 4 (ms_section_offset r) ++ le_enc 4 (ms_section_length r) ++
  le_enc 4 (Z.of_nat (length data)) ++ data ++
  (if Z.of_nat (length data) =? 0 then [] else le_enc 4 checksum).

Definition ms_misplaced (r : pldm_base_multipart_send_req) : bool :=
  send_section_misplaced (ms_transfer_flag r) (ms_section_offset r) (ms_section_length r).

Definition ms_data_bytes (r : pldm_base_multipart_send_req) : list Z :=
  slice 0 (Z.to_nat (vf_length (ms_data r))) (bytes (field_object (ms_data r))).

(** The length of the field is one its object can supply. *)
Definition vf_ok (f : variable_field) : Prop :=
  0 <= vf_length f < 4294967296 /\ vf_length f <= mem_size (field_object f) /\
  bytes_ok (bytes (field_object f)) /\ (vf_ptr f = None -> vf_length f = 0).

Lemma vf_data_length f :
  vf_ok f -> Z.of_nat (length (slice 0 (Z.to_nat (vf_length f)) (bytes (field_object f)))) = vf_length f.
Proof. intros (? & ? & _). unfold mem_size in *. rewrite length_slice. lia. Qed.

Lemma vf_not_missing f : vf_ok f -> data_missing f = false.
Proof.
  intros (? & ? & ? & Hnone). unfold data_missing. destruct (vf_ptr f); [apply andb_false_r|].
  by rewrite Hnone.
Qed.

Lemma ms_encode_spec inst r checksum msg len :
  mem_ok (payload msg) -> 0 <= len <= mem_size (payload msg) -> 0 <= inst <= 31 ->
  vf_ok (ms_data r) ->
  let n := vf_length (ms_data r) in
  let total := 26 + n + (if n =? 0 then 0 else 4) in
  total <= len ->
  (ms_misplaced r = true -> exists m,
   encode_pldm_base_multipart_send_req inst (Some r) checksum (Some msg) (Some len)
   = Ok (- EPROTO, Some (Msg (packed PLDM_REQUEST inst PLDM_BASE PLDM_MULTIPART_SEND) m), Some len)) /\
  (ms_misplaced r = false ->
   encode_pldm_base_multipart_send_req inst (Some r) checksum (Some msg) (Some len)
   = Ok (0, Some (Msg (packed PLDM_REQUEST inst PLDM_BASE PLDM_MULTIPART_SEND)
                      (wrote (payload msg) (ms_wire r (ms_data_bytes r) checksum))), Some total)).
Proof.
  intros Hm Hlen Hinst Hvf n total Htot. unfold encode_pldm_base_multipart_send_req.
  pose proof (vf_data_length _ Hvf) as Hdata. fold (ms_data_bytes r) n in Hdata.
  pose proof Hvf as (Hn & Hd & _). fold n in Hn, Hd. rewrite vf_not_missing by done.
  assert (26 + n <= total) by (unfold total; destruct (n =? 0); lia).
  match goal with |- context [encode_frame _ _ _ _ ?mn msg len ?k] =>
    destruct (encode_frame_fits PLDM_REQUEST inst PLDM_BASE PLDM_MULTIPART_SEND mn msg len
      ltac:(repeat constructor) Hinst ltac:(lia) Hm Hlen k
      (fun rc l m => if ms_misplaced r then rc = - EPROTO /\ l = len
                     else rc = 0 /\ l = total /\
                          m = wrote (payload msg) (ms_wire r (ms_data_bytes r) checksum)))
      as (rc & l & m & -> & HP); [lia| |] end.
  2: { split; intros Hmis; rewrite Hmis in HP; [|by destruct HP as (-> & -> & ->)].
       destruct HP as [-> ->]. by exists m. }
  intros b Hb. do 7 mb_insert. unfold ms_misplaced at 1. unfold ms_misplaced.
  destruct (send_section_misplaced _ _ _).
  { mb_discard. by apply wp_ret. }
  mb_insert. fold n in Hb |- *. unfold u32 in Hb. rewrite (Z.mod_small n), <- Hdata in Hb by lia.
  assert (Z.of_nat (length (ms_wire r (ms_data_bytes r) checksum)) = total) as Hw.
  { unfold ms_wire, total. rewrite Hdata, !length_app, !le_enc_length.
    destruct (n =? 0); cbn [length]; rewrite ?le_enc_length; lia. }
  assert (forall b' out, mb_wr (payload msg) len out b' ->
    out = ms_wire r (ms_data_bytes r) checksum ->
    wp (pldm_msgbuf_complete_used len len) b' (fun '(rc, l) b' => mb_done b' /\ rc = 0 /\
      l = total /\ obj b' = wrote (payload msg) (ms_wire r (ms_data_bytes r) checksum))) as Hend.
  { intros b' out Hb' Hout. by eapply wp_used_fits; [exact Hb'|exact Hout|exact Hw|lia|]. }
  destruct (Z.eqb_spec n 0) as [Hn0|Hn0].
  - eapply Hend; [exact Hb|]. unfold ms_wire. rewrite Hdata, Hn0.
    destruct (ms_data_bytes r); [|cbn in Hdata; lia]. cbn [Z.eqb app]. by rewrite <- !app_assoc.
  - mb_insert_array. mb_fits. apply wp_bind.
    change (slice 0 (Z.to_nat n) (bytes (field_object (ms_data r)))) with (ms_data_bytes r) in Hb.
    eapply wp_insert_kind; [exact Hb|wr_len|]. clear Hb. intros b' Hb. cbn [kind_size] in Hb.
    eapply Hend; [exact Hb|]. unfold ms_wire.
    replace (Z.of_nat (length (ms_data_bytes r)) =? 0) with false by lia. by rewrite <- !app_assoc.
Qed.

Lemma ms_decode_spec msg len r sum :
  mem_ok (payload msg) -> 0 <= len <= mem_size (payload msg) ->
  let n := field msg 22 4 in
  let r' data := MsReq (field msg 0 1) (field msg 1 1) (field msg 2 4) (field msg 6 4)
                 (field msg 10 4) (field msg 14 4) (field msg 18 4) data in
  decode_pldm_base_multipart_send_req (Some msg) len (Some r) (Some sum)
  = Ok (if len <? 26 then (- EOVERFLOW, Some r, Some sum)
        else if negb (field msg 0 1 =? PLDM_BASE) && negb (field msg 0 1 =? PLDM_FILE)
        then (- ENOTSUP, Some (r' (ms_data r)), Some sum)
        else if ms_misplaced (r' (ms_data r)) then (- EPROTO, Some (r' (ms_data r)), Some sum)
        else if n =? 0 then
          (consumed_rc 26 len, Some (r' (VarField (vf_ptr (ms_data r)) 0)), Some sum)
        else
          (consumed_rc (30 + n) len,
           Some (r' (VarField (if 26 + n <=? len then Some (ptr_at (payload msg) 26) else None) n)),
           Some (if 30 + n <=? len then field msg (Z.to_nat (26 + n)) 4 else sum))).
Proof.
  intros Hm Hlen n r'. unfold decode_pldm_base_multipart_send_req.
  pose proof (fld_bound (payload msg) 22 4 (mem_ok_bytes _ Hm)) as Hn. fold n in Hn.
  destruct (Z.ltb_spec len 26). { by rewrite decode_frame_short by lia. }
  match goal with |- context [decode_frame 26 msg len (r, sum) ?k] =>
    edestruct (decode_frame_fits 26 msg len Hm Hlen (r, sum) k (fun rc a =>
      (rc, Some a.1, Some a.2) =
        if negb (field msg 0 1 =? PLDM_BASE) && negb (field msg 0 1 =? PLDM_FILE)
        then (- ENOTSUP, Some (r' (ms_data r)), Some sum)
        else if ms_misplaced (r' (ms_data r)) then (- EPROTO, Some (r' (ms_data r)), Some sum)
        else if n =? 0 then
          (consumed_rc 26 len, Some (r' (VarField (vf_ptr (ms_data r)) 0)), Some sum)
        else
          (consumed_rc (30 + n) len,
           Some (r' (VarField (if 26 + n <=? len then Some (ptr_at (payload msg) 26) else None) n)),
           Some (if 30 + n <=? len then field msg (Z.to_nat (26 + n)) 4 else sum))))
     as (rc & [a s] & -> & <-); [lia| |done] end.
  intros b Hb. do 7 mb_extract_in. unfold ms_misplaced, r'.
  cbn [ms_transfer_flag ms_section_offset ms_section_length].
  destruct (negb _ && negb _). { mb_discard. by apply wp_ret. }
  destruct (send_section_misplaced _ _ _). { mb_discard. by apply wp_ret. }
  mb_extract_in. fold n. destruct (Z.ltb_spec 0 n), (Z.eqb_spec n 0) as [Hn0|Hn0]; try lia.
  - apply wp_bind. mb_span.
    destruct (Z.leb_spec (26 + n) len); mb_extract;
      replace (26 + n + 4) with (30 + n) in * by lia;
      destruct (Z.leb_spec (30 + n) len); try lia; apply wp_ret; mb_consumed; by apply wp_ret.
  - rewrite Hn0. apply wp_bind, wp_ret. mb_consumed. by apply wp_ret.
Qed.

Definition ms_ok (r : pldm_base_multipart_send_req) : Prop :=
  byte_ok (ms_pldm_type r) /\ byte_ok (ms_transfer_flag r) /\
  0 <= ms_transfer_ctx r < 4294967296 /\ 0 <= ms_transfer_handle r < 4294967296 /\
  0 <= ms_next_transfer_handle r < 4294967296 /\
  0 <= ms_section_offset r < 4294967296 /\ 0 <= ms_section_length r < 4294967296.

(** MultipartSend requests survive the wire under one rule on both sides.  The
    encoder refuses a section that does not come with the first part, and leaves the
    caller's length alone; any other request that fits is encoded, and decoding
    it gives every field, the data and, if there is data, the checksum back when the
    type is one the transfer is defined for, and -ENOTSUP otherwise. *)
Lemma multipart_send_req_roundtrip inst r checksum msg len r0 sum0 :
  mem_ok (payload msg) -> 0 <= len <= mem_size (payload msg) -> 0 <= inst <= 31 ->
  ms_ok r -> vf_ok (ms_data r) -> 0 <= checksum < 4294967296 ->
  let n := vf_length (ms_data r) in
  let total := 26 + n + (if n =? 0 then 0 else 4) in
  total <= len ->
  if ms_misplaced r
  then exists msg', encode_pldm_base_multipart_send_req inst (Some r) checksum (Some msg) (Some len)
       = Ok (- EPROTO, Some msg', Some len)
  else exists msg' r' sum',
    encode_pldm_base_multipart_send_req inst (Some r) checksum (Some msg) (Some len)
    = Ok (0, Some msg', Some total) /\
    hdr msg' = packed PLDM_REQUEST inst PLDM_BASE PLDM_MULTIPART_SEND /\
    decode_pldm_base_multipart_send_req (Some msg') total (Some r0) (Some sum0)
    = Ok (if (ms_pldm_type r =? PLDM_BASE) || (ms_pldm_type r =? PLDM_FILE) then 0 else - ENOTSUP,
          Some r', Some sum') /\
    ((ms_pldm_type r =? PLDM_BASE) || (ms_pldm_type r =? PLDM_FILE) = true ->
      MsReq (ms_pldm_type r') (ms_transfer_flag r') (ms_transfer_ctx r') (ms_transfer_handle r')
        (ms_next_transfer_handle r') (ms_section_offset r') (ms_section_length r') (ms_data r) = r /\
      vf_length (ms_data r') = n /\ ms_data_bytes r' = ms_data_bytes r /\
      sum' = (if n =? 0 then sum0 else checksum)).
Proof.
  intros Hm Hlen Hinst (H1 & H2 & H3 & H4 & H5 & H6 & H7) Hvf Hsum n total Htot.
  destruct (ms_encode_spec inst r checksum msg len Hm Hlen Hinst Hvf Htot) as [Hbad Hgood].
  destruct (ms_misplaced r) eqn:Hmis.
  { destruct (Hbad eq_refl) as [m E]. eexists. exact E. }
  rewrite (Hgood eq_refl). clear Hbad Hgood. fold n. fold total.
  pose proof (vf_data_length _ Hvf) as Hdata. fold (ms_data_bytes r) n in Hdata.
  pose proof Hvf as (Hn & Hd & Hdok & _). fold n in Hn, Hd.
  assert (26 + n <= total) by (unfold total; destruct (n =? 0); lia).
  assert (Z.of_nat (length (ms_wire r (ms_data_bytes r) checksum)) = total) as Hw.
  { unfold ms_wire, total. rewrite Hdata, !length_app, !le_enc_length.
    destruct (n =? 0); cbn [length]; rewrite ?le_enc_length; lia. }
  assert (bytes_ok (ms_wire r (ms_data_bytes r) checksum)) as Hwok.
  { unfold ms_wire. do 8 apply Forall_le_enc_app. apply Forall_app.
    split; [by apply Forall_slice|]. case_match; [constructor|apply le_enc_ok]. }
  assert (total = 26 + n + (if n =? 0 then 0 else 4)) as Htotal by done. clearbody total.
  set (msg' := Msg (packed PLDM_REQUEST inst PLDM_BASE PLDM_MULTIPART_SEND)
    (wrote (payload msg) (ms_wire r (ms_data_bytes r) checksum))).
  exists msg'. rewrite ms_decode_spec; unfold msg'; cbn [payload];
    [|by apply mem_ok_wrote; try done; lia|rewrite mem_size_wrote; unfold mem_size in *; lia].
  unfold wrote. set (rest := drop _ (bytes (payload msg))).
  unfold ms_wire. rewrite <- !app_assoc. wire. unfold byte_ok in *. rewrite Hdata.
  rewrite !Z.mod_small by (cbn; lia). rewrite <- negb_orb. unfold ms_misplaced in *.
  cbn [ms_transfer_flag ms_section_offset ms_section_length]. rewrite Hmis.
  replace (total <? 26) with false by lia.
  destruct (_ || _); cbn [negb]; [|by do 2 eexists].
  destruct (Z.eqb_spec n 0) as [Hn0|Hn0].
  - do 2 eexists. do 2 (split; [reflexivity|]). split.
    { unfold consumed_rc. by rewrite Htotal, Hn0. }
    intros _. split; [by destruct r|]. split; [by rewrite Hn0|]. split; [|done].
    unfold ms_data_bytes, slice. cbn [ms_data vf_length]. fold n. by rewrite Hn0.
  - assert (total = 30 + n) as -> by lia. unfold consumed_rc. rewrite Z.eqb_refl.
    do 2 (cmp_case; [|lia]). do 2 eexists. do 3 (split; [reflexivity|]).
    intros _. split; [by destruct r|]. split; [done|]. split.
    + unfold ms_data_bytes at 1, field_object. cbn [ms_data vf_length vf_ptr from_option id ptr_at bytes].
      match goal with |- slice 0 _ (drop _ ?l) = _ =>
        change (slice 26 (Z.to_nat n) l = ms_data_bytes r) end.
      rewrite !slice_skip by wire_len. rewrite ?le_enc_length. cbn [Nat.sub]. apply slice_hit. lia.
    + wire. replace (_ - _)%nat with 0%nat by lia. rewrite fld_hit, Z.mod_small by (cbn; lia). done.
Qed.

(** MultipartReceive and MultipartSend requests survive the wire.  A receive
    request is 18 bytes, and its decoder refuses exactly an undefined operation flag
    and a next part without a transfer handle.  A send request whose section does not
    come with the first part is refused by its encoder; any other is given back with
    its data and checksum if its type is one the transfer is defined for. *)
Theorem multipart_requests_roundtrip :
  (forall inst r msg len r0,
     mem_ok (payload msg) -> 0 <= len <= mem_size (payload msg) -> 0 <= inst <= 31 -> mr_ok r ->
     if len <? 18
     then encode_pldm_base_multipart_receive_req inst (Some r) (Some msg) (Some len)
          = Ok (- EOVERFLOW, Some (Msg (packed PLDM_REQUEST inst PLDM_BASE PLDM_MULTIPART_RECEIVE)
                                       (payload msg)), Some len)
     else exists msg',
       encode_pldm_base_multipart_receive_req inst (Some r) (Some msg) (Some len)
       = Ok (0, Some msg', Some 18) /\
       hdr msg' = packed PLDM_REQUEST inst PLDM_BASE PLDM_MULTIPART_RECEIVE /\
       decode_pldm_base_multipart_receive_req (Some msg') 18 (Some r0)
       = Ok (if (4 <? mr_transfer_opflag r)
                || (mr_transfer_handle r =? 0) && (mr_transfer_opflag r =? PLDM_XFER_NEXT_PART)
             then - EPROTO else 0, Some r)) /\
  (forall inst r checksum msg len r0 sum0,
     mem_ok (payload msg) -> 0 <= len <= mem_size (payload msg) -> 0 <= inst <= 31 ->
     ms_ok r -> vf_ok (ms_data r) -> 0 <= checksum < 4294967296 ->
     let n := vf_length (ms_data r) in
     let total := 26 + n + (if n =? 0 then 0 else 4) in
     total <= len ->
     if ms_misplaced r
     then exists msg', encode_pldm_base_multipart_send_req inst (Some r) checksum (Some msg) (Some len)
          = Ok (- EPROTO, Some msg', Some len)
     else exists msg' r' sum',
       encode_pldm_base_multipart_send_req inst (Some r) checksum (Some msg) (Some len)
       = Ok (0, Some msg', Some total) /\
       hdr msg' = packed PLDM_REQUEST inst PLDM_BASE PLDM_MULTIPART_SEND /\
       decode_pldm_base_multipart_send_req (Some msg') total (Some r0) (Some sum0)
       = Ok (if (ms_pldm_type r =? PLDM_BASE) || (ms_pldm_type r =? PLDM_FILE) then 0 else - ENOTSUP,
             Some r', Some sum') /\
       ((ms_pldm_type r =? PLDM_BASE) || (ms_pldm_type r =? PLDM_FILE) = true ->
         MsReq (ms_pldm_type r') (ms_transfer_flag r') (ms_transfer_ctx r') (ms_transfer_handle r')
           (ms_next_transfer_handle r') (ms_section_offset r') (ms_section_length r') (ms_data r) = r /\
         vf_length (ms_data r') = n /\ ms_data_bytes r' = ms_data_bytes r /\
         sum' = (if n =? 0 then sum0 else checksum))).
Proof. exact (conj multipart_receive_req_roundtrip multipart_send_req_roundtrip). Qed.

Lemma multipart_requests_roundtrip_witness :
  (let r := MrReq 7 1 99 0 0 512 in
     let msg := Msg (packed 1 0 0 0) (CMem 64 (replicate 20 0)) in
     if 20 <? 18
     then encode_pldm_base_multipart_receive_req 5 (Some r) (Some msg) (Some 20)
          = Ok (- EOVERFLOW, Some (Msg (packed PLDM_REQUEST 5 PLDM_BASE PLDM_MULTIPART_RECEIVE)
                                       (payload msg)), Some 20)
     else exists msg',
       encode_pldm_base_multipart_receive_req 5 (Some r) (Some msg) (Some 20)
       = Ok (0, Some msg', Some 18) /\
       hdr msg' = packed PLDM_REQUEST 5 PLDM_BASE PLDM_MULTIPART_RECEIVE /\
       decode_pldm_base_multipart_receive_req (Some msg') 18 (Some r)
       = Ok (if (4 <? mr_transfer_opflag r)
                || (mr_transfer_handle r =? 0) && (mr_transfer_opflag r =? PLDM_XFER_NEXT_PART)
             then - EPROTO else 0, Some r)) /\
  (let r := MsReq 7 1 5 0 1 16 512 (VarField (Some (CMem 4096 [11; 22; 33])) 3) in
     let msg := Msg (packed 1 0 0 0) (CMem 64 (replicate 40 0)) in
     let n := vf_length (ms_data r) in
     let total := 26 + n + (if n =? 0 then 0 else 4) in
     ms_misplaced r = false /\
     if ms_misplaced r
     then exists msg', encode_pldm_base_multipart_send_req 5 (Some r) 77 (Some msg) (Some 40)
          = Ok (- EPROTO, Some msg', Some 40)
     else exists msg' r' sum',
       encode_pldm_base_multipart_send_req 5 (Some r) 77 (Some msg) (Some 40)
       = Ok (0, Some msg', Some total) /\
       hdr msg' = packed PLDM_REQUEST 5 PLDM_BASE PLDM_MULTIPART_SEND /\
       decode_pldm_base_multipart_send_req (Some msg') total (Some r) (Some 0)
       = Ok (if (ms_pldm_type r =? PLDM_BASE) || (ms_pldm_type r =? PLDM_FILE) then 0 else - ENOTSUP,
             Some r', Some sum') /\
       ((ms_pldm_type r =? PLDM_BASE) || (ms_pldm_type r =? PLDM_FILE) = true ->
         MsReq (ms_pldm_type r') (ms_transfer_flag r') (ms_transfer_ctx r') (ms_transfer_handle r')
           (ms_next_transfer_handle r') (ms_section_offset r') (ms_section_length r') (ms_data r) = r /\
         vf_length (ms_data r') = n /\ ms_data_bytes r' = ms_data_bytes r /\
         sum' = (if n =? 0 then 0 else 77))).
Proof.
  split.
  - intros r msg. apply (proj1 multipart_requests_roundtrip 5 r msg 20 r). all: concrete.
  - intros r msg n total. split; [reflexivity|].
    apply (proj2 multipart_requests_roundtrip 5 r 77 msg 40 r 0).
    all: concrete.
Defined.

(** *** Responses of fixed size *)

Lemma encode_resp_frame_ok inst cmd minsize msg len body w :
  mem_ok (payload msg) -> 1 <= len <= mem_size (payload msg) -> 0 <= inst <= 31 ->
  minsize <= len ->
  (forall b, mb_wr (payload msg) len (le_enc 1 0) b ->
     wp body b (fun r b' => mb_done b' /\ r = (0, Z.of_nat (length w)) /\
                            obj b' = wrote (payload msg) w)) ->
  encode_resp_frame inst cmd 0 minsize msg len body
  = Ok (0, Some (Msg (packed PLDM_RESPONSE inst PLDM_BASE cmd) (wrote (payload msg) w)),
        Some (Z.of_nat (length w))).
Proof.
  intros Hm Hlen Hinst Hmin Hbody. unfold encode_resp_frame. cmp_case; [lia|].
  rewrite pack_into_ok by (repeat constructor || lia). cbn [payload hdr negb]. rewrite Z.eqb_refl.
  destruct Hm. match goal with |- context [msgbuf_scope ?o ?k] =>
    destruct (msgbuf_scope_wp o k (fun r m => r = (0, Z.of_nat (length w)) /\ m = wrote o w))
      as (? & ? & -> & -> & ->) end; [|done].
  apply wp_bind, wp_init_wr; [lia..|]. intros b _. cmp_case; [|lia]. intros Hb. cmp_case; [|done].
  change (lift (c_assert true)) with (mret (M := stM msgbuf) tt).
  apply wp_bind, wp_ret. mb_insert. by apply Hbody.
Qed.

Lemma encode_resp_frame_error inst cmd cc minsize msg len body :
  mem_ok (payload msg) -> 1 <= len <= mem_size (payload msg) -> 0 <= inst <= 31 ->
  1 <= cc < 256 ->
  encode_resp_frame inst cmd cc minsize msg len body
  = Ok (0, Some (Msg (packed PLDM_RESPONSE inst PLDM_BASE cmd) (wrote (payload msg) (le_enc 1 cc))),
        Some 1).
Proof.
  intros Hm Hlen Hinst Hcc. unfold encode_resp_frame. cmp_case; [lia|].
  rewrite pack_into_ok by (repeat constructor || lia). cbn [payload hdr negb]. rewrite Z.eqb_refl.
  cmp_case; [lia|]. unfold payload_write. rewrite mem_write_ok by (cbn; lia). cbn.
  rewrite Z.mod_small by lia. done.
Qed.

Lemma has_error_wire h a cc l len :
  0 <= cc < 256 -> 1 <= len ->
  pldm_msg_has_error (Msg h (CMem a (le_enc 1 cc ++ l))) len = Ok cc.
Proof.
  intros Hcc Hlen. unfold pldm_msg_has_error. cmp_case; [lia|].
  rewrite (mem_read_ok _ 0 1 (le_enc 1 cc)); [|lia|lia| |done].
  - cbn [mbind outcome_bind]. by rewrite le_dec_enc, Z.mod_small.
  - unfold mem_size. cbn [payload bytes]. rewrite length_app, le_enc_length. lia.
Qed.

Definition tid_wire (tid : Z) : list Z := le_enc 1 0 ++ le_enc 1 tid.
Definition types_wire (types : list Z) : list Z := le_enc 1 0 ++ concat (le_enc 1 <$> types).

Lemma insert_types_wr m len types out b :
  mb_wr m len out b -> Z.of_nat (length out + length types) <= INTMAX_MAX ->
  wp (insert_types types) b (fun _ => mb_wr m len (out ++ concat (le_enc 1 <$> types))).
Proof.
  revert out b. induction types as [|t types IH]; intros out b Hb Hlen; cbn [insert_types].
  { apply wp_ret. cbn. by rewrite app_nil_r. }
  cbn [length] in Hlen. mb_insert. cbn [fmap list_fmap concat]. rewrite app_assoc.
  apply IH; [done|]. rewrite length_app, le_enc_length. lia.
Qed.

Lemma extract_types_rd m len ts dst pre post b :
  mb_rd m len (Z.of_nat (length pre)) b -> bytes m = pre ++ concat (le_enc 1 <$> ts) ++ post ->
  length dst = length ts -> bytes_ok ts -> Z.of_nat (length pre + length ts) <= len ->
  wp (extract_types dst) b (fun l b' => l = ts /\
    mb_rd m len (Z.of_nat (length pre + length ts)) b').
Proof.
  revert dst pre b. induction ts as [|t ts IH]; intros [|d dst] pre b Hb Hm Hd Hok Hlen;
    try done; cbn [extract_types].
  { apply wp_ret. by rewrite Nat.add_0_r. }
  cbn [length] in *. apply Forall_cons_1 in Hok as [Ht Hok].
  cbn [fmap list_fmap concat] in Hm. pose proof (rd_max _ _ _ _ Hb).
  apply wp_bind. eapply (wp_extract_kind m len KU8 d (Z.of_nat (length pre))
    (Z.of_nat (length (pre ++ le_enc 1 t)))); [exact Hb|rewrite length_app, le_enc_length; cbn; lia|
    rewrite length_app, le_enc_length; lia|].
  intros b' Hb'. cmp_case; [|rewrite length_app, le_enc_length in *; lia].
  rewrite Nat2Z.id, Hm, <- app_assoc, slice_app_mid by (done || by rewrite le_enc_length).
  cbn [kind_conv]. rewrite le_dec_enc, Z.mod_small by done.
  apply wp_bind. eapply wp_mono; [eapply (IH dst (pre ++ le_enc 1 t)); try done|].
  - rewrite Hm. by rewrite <- !app_assoc.
  - lia.
  - rewrite length_app, le_enc_length. lia.
  - intros l b2 [-> Hb2]. apply wp_ret. split; [done|].
    rewrite length_app, le_enc_length in Hb2. by rewrite <- Nat.add_assoc in Hb2.
Qed.

Lemma length_concat_enc1 l : length (concat (le_enc 1 <$> l)) = length l.
Proof. induction l as [|x l IH]; [done|]. cbn [fmap list_fmap concat length]. by rewrite length_app, IH. Qed.

Lemma types_wire_ok types : bytes_ok types -> bytes_ok (types_wire types).
Proof.
  intros Ht. apply Forall_le_enc_app. induction Ht; [constructor|]. by apply (Forall_le_enc_app 1).
Qed.

Lemma tid_encode inst tid msg len :
  mem_ok (payload msg) -> 2 <= len <= mem_size (payload msg) -> 0 <= inst <= 31 ->
  encode_pldm_base_get_tid_resp inst (Some (TidResp 0 tid)) (Some msg) (Some len)
  = Ok (0, Some (Msg (packed PLDM_RESPONSE inst PLDM_BASE PLDM_GET_TID)
                     (wrote (payload msg) (tid_wire tid))), Some 2).
Proof.
  intros Hm Hlen Hinst. unfold encode_pldm_base_get_tid_resp.
  apply (encode_resp_frame_ok _ _ _ _ _ _ (tid_wire tid)); [done|lia|done|lia|].
  intros b Hb. cbn [tid_tid]. mb_insert. mb_finish (tid_wire tid). done.
Qed.

Lemma types_encode inst types msg len :
  mem_ok (payload msg) -> 9 <= len <= mem_size (payload msg) -> 0 <= inst <= 31 ->
  length types = 8%nat ->
  encode_pldm_base_get_pldm_types_resp inst (Some (TypesResp 0 types)) (Some msg) (Some len)
  = Ok (0, Some (Msg (packed PLDM_RESPONSE inst PLDM_BASE PLDM_GET_PLDM_TYPES)
                     (wrote (payload msg) (types_wire types))), Some 9).
Proof.
  intros Hm Hlen Hinst Hty. unfold encode_pldm_base_get_pldm_types_resp.
  assert (length (types_wire types) = 9%nat) as Hw.
  { unfold types_wire. by rewrite length_app, length_concat_enc1, Hty. }
  replace (Some 9) with (Some (Z.of_nat (length (types_wire types)))) by by rewrite Hw.
  apply (encode_resp_frame_ok _ _ _ _ _ _ (types_wire types)); [done|lia|done|lia|].
  intros b Hb. cbn [types_pldm_types]. apply wp_bind.
  eapply wp_mono; [apply (insert_types_wr _ _ _ _ _ Hb); rewrite Hty; cbn; lia|].
  intros [] b' Hb'. eapply wp_used_fits; [exact Hb'|done|reflexivity| |done].
  fold (types_wire types). rewrite Hw. lia.
Qed.

Lemma tid_decode_wire h a tid rest r :
  byte_ok tid -> mem_ok (CMem a (tid_wire tid ++ rest)) ->
  decode_pldm_base_get_tid_resp (Some (Msg h (CMem a (tid_wire tid ++ rest)))) 2 (Some r)
  = Ok (0, Some (TidResp 0 tid)).
Proof.
  intros Ht Hm. unfold decode_pldm_base_get_tid_resp.
  set (msg := Msg h _). assert (0 <= 2 <= mem_size (payload msg)) as Hlen.
  { unfold mem_size. cbn. lia. }
  assert (pldm_msg_has_error msg 2 = Ok 0) as ->.
  { unfold msg, tid_wire. rewrite <- app_assoc. by apply has_error_wire. }
  cbn [mbind outcome_bind negb Z.eqb].
  match goal with |- context [decode_frame 2 msg 2 r ?k] =>
    destruct (decode_frame_fits 2 msg 2 Hm Hlen r k (fun rc a => rc = 0 /\ a = TidResp 0 tid))
      as (rc & ? & -> & -> & ->); [lia| |done] end.
  intros b Hb. do 2 mb_extract_in. mb_consumed. apply wp_ret. split; [done|]. split; [done|].
  unfold msg, tid_wire. cbn [payload]. rewrite <- app_assoc. wire. unfold byte_ok in Ht.
  by rewrite !Z.mod_small by (cbn; lia).
Qed.

Lemma types_decode_wire h a types rest r :
  bytes_ok types -> length types = 8%nat -> length (types_pldm_types r) = 8%nat ->
  mem_ok (CMem a (types_wire types ++ rest)) ->
  decode_pldm_base_get_pldm_types_resp (Some (Msg h (CMem a (types_wire types ++ rest)))) 9 (Some r)
  = Ok (0, Some (TypesResp 0 types)).
Proof.
  intros Ht Hn Hr Hm. unfold decode_pldm_base_get_pldm_types_resp.
  set (msg := Msg h _). assert (0 <= 9 <= mem_size (payload msg)) as Hlen.
  { unfold mem_size. cbn [msg payload bytes]. unfold types_wire.
    rewrite !length_app, length_concat_enc1, le_enc_length. lia. }
  assert (pldm_msg_has_error msg 9 = Ok 0) as ->.
  { unfold msg, types_wire. rewrite <- app_assoc. by apply has_error_wire. }
  cbn [mbind outcome_bind negb Z.eqb].
  match goal with |- context [decode_frame 9 msg 9 r ?k] =>
    destruct (decode_frame_fits 9 msg 9 Hm Hlen r k (fun rc a => rc = 0 /\ a = TypesResp 0 types))
      as (rc & ? & -> & -> & ->); [lia| |done] end.
  intros b Hb. mb_extract_in. apply wp_bind.
  eapply wp_mono; [apply (extract_types_rd _ 9 types _ (le_enc 1 0) rest _ Hb)|]; try done.
  - congruence.
  - rewrite le_enc_length, Hn. done.
  - intros l b' [-> Hb']. rewrite le_enc_length, Hn in Hb'. clear Hb. mb_consumed.
    apply wp_ret. split; [done|]. split; [done|].
    unfold msg, types_wire. cbn [payload]. rewrite <- app_assoc. wire.
    by rewrite !Z.mod_small by (cbn; lia).
Qed.

(** The message a frame leaves in [msg]: the header of the command, and [out] at the front
    of the payload. *)
Definition sent_as (ty inst pty cmd : Z) (msg : pldm_msg) (out : list Z) : pldm_msg :=
  Msg (packed ty inst pty cmd) (wrote (payload msg) out).

Lemma le_enc1 v : byte_ok v -> le_enc 1 v = [v].
Proof. unfold byte_ok. intros. cbn. by rewrite Z.mod_small by lia. Qed.

Lemma concat_enc1 l : bytes_ok l -> concat (le_enc 1 <$> l) = l.
Proof.
  induction 1 as [|v l Hv Hl IH]; [done|]. cbn [fmap list_fmap concat]. by rewrite le_enc1, IH.
Qed.

(** GetTID and GetPLDMTypes responses survive the wire.  A success response is
    encoded in 2 and 9 bytes and decodes to the same TID and type bitmaps; an error
    response is encoded as its completion code alone, needs one byte only, and
    decodes to that code with the caller's other fields untouched. *)
Lemma query_resp_roundtrip inst cc tid types msg len r0 t0 :
  mem_ok (payload msg) -> 1 <= len <= mem_size (payload msg) -> 0 <= inst <= 31 ->
  byte_ok cc -> byte_ok tid -> bytes_ok types -> length types = 8%nat ->
  length (types_pldm_types t0) = 8%nat ->
  let tid_msg := sent_as PLDM_RESPONSE inst PLDM_BASE PLDM_GET_TID msg in
  let types_msg := sent_as PLDM_RESPONSE inst PLDM_BASE PLDM_GET_PLDM_TYPES msg in
  (cc = 0 -> 2 <= len ->
     encode_pldm_base_get_tid_resp inst (Some (TidResp cc tid)) (Some msg) (Some len)
     = Ok (0, Some (tid_msg [0; tid]), Some 2) /\
     decode_pldm_base_get_tid_resp (Some (tid_msg [0; tid])) 2 (Some r0) = Ok (0, Some (TidResp 0 tid))) /\
  (cc = 0 -> 9 <= len ->
     encode_pldm_base_get_pldm_types_resp inst (Some (TypesResp cc types)) (Some msg) (Some len)
     = Ok (0, Some (types_msg (0 :: types)), Some 9) /\
     decode_pldm_base_get_pldm_types_resp (Some (types_msg (0 :: types))) 9 (Some t0)
     = Ok (0, Some (TypesResp 0 types))) /\
  (cc <> 0 ->
     encode_pldm_base_get_tid_resp inst (Some (TidResp cc tid)) (Some msg) (Some len)
     = Ok (0, Some (tid_msg [cc]), Some 1) /\
     encode_pldm_base_get_pldm_types_resp inst (Some (TypesResp cc types)) (Some msg) (Some len)
     = Ok (0, Some (types_msg [cc]), Some 1) /\
     decode_pldm_base_get_tid_resp (Some (tid_msg [cc])) 1 (Some r0) = Ok (0, Some (TidResp cc (tid_tid r0))) /\
     decode_pldm_base_get_pldm_types_resp (Some (types_msg [cc])) 1 (Some t0)
     = Ok (0, Some (TypesResp cc (types_pldm_types t0)))).
Proof.
  intros Hm Hlen Hinst Hcc Htid Htypes H8 Ht0 tid_msg types_msg.
  assert (forall w, bytes_ok w -> Z.of_nat (length w) <= len -> mem_ok (wrote (payload msg) w))
    as Hwok by (intros; apply mem_ok_wrote; done || lia).
  assert (tid_wire tid = [0; tid]) as Ewt by (unfold tid_wire; by rewrite (le_enc1 tid)).
  assert (types_wire types = 0 :: types) as Ewy by (unfold types_wire; by rewrite concat_enc1).
  unfold tid_msg, types_msg, sent_as. rewrite <- Ewt, <- Ewy. split_and!.
  - intros -> H2. split; [apply tid_encode; done || lia|].
    apply tid_decode_wire; [done|]. apply (Hwok (tid_wire tid)); [|cbn; lia].
    apply Forall_le_enc_app, le_enc_ok.
  - intros -> H9. split; [apply types_encode; done || lia|].
    apply types_decode_wire; try done. apply (Hwok (types_wire types)).
    + by apply types_wire_ok.
    + unfold types_wire. rewrite length_app, length_concat_enc1, le_enc_length, H8. lia.
  - intros Hne. rewrite <- (le_enc1 cc) by done. unfold byte_ok in Hcc.
    unfold encode_pldm_base_get_tid_resp, encode_pldm_base_get_pldm_types_resp.
    cbn [tid_completion_code types_completion_code].
    rewrite !encode_resp_frame_error by (done || lia).
    do 2 (split; [reflexivity|]). unfold wrote.
    unfold decode_pldm_base_get_tid_resp, decode_pldm_base_get_pldm_types_resp.
    rewrite !has_error_wire by lia. cbn [mbind outcome_bind]. by cmp_case.
Qed.

(** *** Legacy codecs *)

Lemma wrote_nil m : wrote m [] = m.
Proof. by destruct m. Qed.

Lemma payload_write_next h m out off l :
  off = Z.of_nat (length out) -> off + Z.of_nat (length l) <= mem_size m ->
  payload_write (Msg h (wrote m out)) off l = Ok (Msg h (wrote m (out ++ l))).
Proof.
  intros -> Hl. unfold payload_write. cbn [payload hdr].
  assert (length out <= length (bytes m))%nat as Ho by (unfold mem_size in Hl; lia).
  rewrite mem_write_ok by (rewrite ?mem_size_wrote by done; lia). cbn [mbind outcome_bind].
  do 2 f_equal. unfold wrote. cbn [addr bytes]. f_equal.
  rewrite Nat2Z.id, splice_append; [done|]. unfold mem_size in Hl. lia.
Qed.

Lemma legacy_frame_ok ty inst pty cmd msg k :
  ty ∈ [PLDM_RESPONSE; PLDM_REQUEST; PLDM_ASYNC_REQUEST_NOTIFY] ->
  0 <= inst <= 31 -> 0 <= pty < 64 ->
  legacy_frame ty inst pty cmd msg k = k (Msg (packed ty inst pty cmd) (wrote (payload msg) [])).
Proof.
  intros. unfold legacy_frame, pack_pldm_header. rewrite pack_ok by done. rewrite wrote_nil.
  cbn. done.
Qed.

Lemma payload_read_at o h m off n l :
  off = Z.of_nat o -> n = Z.of_nat (length l) -> off + n <= mem_size m ->
  slice o (length l) (bytes m) = l -> payload_read (Msg h m) off n = Ok l.
Proof.
  intros -> -> Hs Hl. unfold payload_read. cbn [payload]. apply mem_read_ok; [lia|lia|done|].
  by rewrite !Nat2Z.id.
Qed.

(** Read a piece of a written payload back. *)
Ltac payload_at o n l :=
  let off := eval cbv in (Z.of_nat o) in
  rewrite (payload_read_at o _ _ off n l);
  [ cbn [mbind outcome_bind] | reflexivity | rewrite ?le_enc_length; cbn [length]; lia
  | unfold mem_size in *; cbn [bytes]; rewrite ?length_app, ?length_drop, ?le_enc_length;
    cbn [length]; lia
  | cbn [bytes];
    repeat (rewrite slice_skip by (rewrite ?le_enc_length; cbn [length]; lia);
            rewrite ?le_enc_length; cbn [length Nat.sub]);
    apply slice_hit; reflexivity ].

Definition ver32_ok (v : ver32_t) : Prop :=
  byte_ok (alpha v) /\ byte_ok (update v) /\ byte_ok (minor v) /\ byte_ok (major v).

(** The struct-cast codecs agree with each other.  GetPLDMVersion requests and
    responses and GetPLDMCommands responses that are given a payload large enough
    are written at the offsets their decoders read: every field and every command
    bitmap byte comes back.  A response with an error code is its code alone. *)
Lemma legacy_roundtrip inst h op ty cc flag v commands msg vsize h0 o0 t0 z0 n0 f0 v0 c0 :
  35 <= mem_size (payload msg) -> 0 <= inst <= 31 -> byte_ok cc -> byte_ok op -> byte_ok ty ->
  byte_ok flag -> 0 <= h < 4294967296 -> length commands = 32%nat -> mem_size c0 = 32 ->
  vsize = 4 ->
  (let m := sent_as PLDM_REQUEST inst PLDM_BASE PLDM_GET_PLDM_VERSION msg (le_enc 4 h ++ [op; ty]) in
     encode_get_version_req inst h op ty (Some msg) = Ok (PLDM_SUCCESS, Some m) /\
     decode_get_version_req m 6 h0 o0 t0 = Ok (PLDM_SUCCESS, h, op, ty)) /\
  (let m := sent_as PLDM_RESPONSE inst PLDM_BASE PLDM_GET_PLDM_VERSION msg
       (if cc =? 0 then [0] ++ le_enc 4 h ++ [flag] ++ ver32_bytes v else [cc]) in
     encode_get_version_resp inst cc h flag (Some (CMem 8 (ver32_bytes v))) vsize (Some msg)
     = Ok (PLDM_SUCCESS, Some m) /\
     decode_get_version_resp (Some m) 10 (Some z0) (Some n0) (Some f0) v0
     = Ok (if cc =? 0 then (PLDM_SUCCESS, Some 0, Some h, Some flag, v)
           else (PLDM_SUCCESS, Some cc, Some n0, Some f0, v0))) /\
  (let m := sent_as PLDM_REQUEST inst PLDM_BASE PLDM_GET_PLDM_COMMANDS msg (ty :: ver32_bytes v) in
     encode_get_commands_req inst ty v (Some msg) = Ok (PLDM_SUCCESS, Some m) /\
     decode_get_commands_req (Some m) 5 (Some t0) (Some v0) = Ok (PLDM_SUCCESS, Some ty, Some v)) /\
  (let m := sent_as PLDM_RESPONSE inst PLDM_BASE PLDM_GET_PLDM_COMMANDS msg
       (if cc =? 0 then 0 :: commands else [cc]) in
     encode_get_commands_resp inst cc (Some (CMem 8 commands)) (Some msg)
     = Ok (PLDM_SUCCESS, Some m) /\
     decode_get_commands_resp (Some m) 33 (Some z0) (Some c0)
     = Ok (PLDM_SUCCESS, Some cc, Some (if cc =? 0 then CMem (addr c0) commands else c0))).
Proof.
  intros Hsz Hinst Hcc Hop Hty Hflag Hh Hcmd Hc0 ->. unfold byte_ok in *. unfold sent_as.
  assert (le_dec [cc] = cc /\ le_dec [op] = op /\ le_dec [ty] = ty /\ le_dec [flag] = flag) as D.
  { cbn; lia. } destruct D as (Dcc & Dop & Dty & Dfl).
  assert (le_dec (le_enc 4 h) = h) as Dh by (rewrite le_dec_enc, Z.mod_small; [done|cbn; lia]).
  cbv zeta. split; [|split; [|split]].
  - unfold encode_get_version_req. rewrite legacy_frame_ok by (repeat constructor || lia).
    do 3 (rewrite payload_write_next by (rewrite ?length_app, ?le_enc_length; cbn; lia); cbn [mbind outcome_bind]).
    split; [by rewrite app_nil_l, <- app_assoc|]. unfold decode_get_version_req, wrote. cbn [negb Z.eqb].
    rewrite <- !app_assoc. change ([op; ty] ++ ?r) with ([op] ++ [ty] ++ r).
    payload_at 0%nat 4 (le_enc 4 h). payload_at 4%nat 1 [op]. payload_at 5%nat 1 [ty].
    by rewrite Dh, Dop, Dty.
  - unfold encode_get_version_resp. rewrite legacy_frame_ok by (repeat constructor || lia).
    rewrite payload_write_next by (cbn; lia). cbn [mbind outcome_bind]. rewrite app_nil_l.
    unfold decode_get_version_resp. destruct (Z.eqb_spec cc 0) as [->|Hne].
    + do 2 (rewrite payload_write_next by (rewrite ?length_app, ?le_enc_length; cbn; lia);
            cbn [mbind outcome_bind]).
      change (mem_read _ 0 4) with (Ok (ver32_bytes v)). cbn [mbind outcome_bind].
      rewrite payload_write_next by (rewrite ?length_app, ?le_enc_length; cbn; lia).
      cbn [mbind outcome_bind]. split; [by rewrite <- !app_assoc|]. unfold wrote, ver32_bytes.
      rewrite <- !app_assoc. payload_at 0%nat 1 [0]. cbn [le_dec negb Z.eqb Z.add Z.mul Z.ltb Z.compare].
      payload_at 1%nat 4 (le_enc 4 h). payload_at 5%nat 1 [flag]. payload_at 6%nat 4 [alpha v; update v; minor v; major v].
      rewrite Dh, Dfl. by destruct v.
    + split; [reflexivity|]. unfold wrote. payload_at 0%nat 1 [cc]. rewrite Dcc.
      by cmp_case.
  - unfold encode_get_commands_req. rewrite legacy_frame_ok by (repeat constructor || lia).
    do 2 (rewrite payload_write_next by (rewrite ?length_app, ?le_enc_length; cbn; lia); cbn [mbind outcome_bind]).
    split; [done|]. unfold decode_get_commands_req, wrote. cbn [negb Z.eqb].
    change (ty :: ver32_bytes v) with ([ty] ++ [alpha v; update v; minor v; major v]). rewrite <- !app_assoc.
    payload_at 0%nat 1 [ty]. payload_at 1%nat 4 [alpha v; update v; minor v; major v]. rewrite Dty. by destruct v.
  - unfold encode_get_commands_resp. rewrite legacy_frame_ok by (repeat constructor || lia).
    rewrite payload_write_next by (cbn; lia). cbn [mbind outcome_bind]. rewrite app_nil_l.
    unfold decode_get_commands_resp. destruct (Z.eqb_spec cc 0) as [->|Hne].
    + rewrite (mem_read_ok _ 0 _ commands); [|lia|done|unfold mem_size; cbn [bytes]; rewrite Hcmd; done|].
      2: { change (Z.to_nat 0) with 0%nat. cbn [bytes]. unfold slice. by apply take_ge; rewrite Hcmd. }
      cbn [mbind outcome_bind].
      rewrite payload_write_next by (cbn [length]; lia). cbn [mbind outcome_bind].
      split; [reflexivity|]. unfold wrote. change (0 :: commands) with ([0] ++ commands).
      rewrite <- !app_assoc. payload_at 0%nat 1 [0]. cbn [le_dec negb Z.eqb Z.add Z.mul].
      payload_at 1%nat 32 commands. rewrite mem_write_ok by lia. cbn. do 4 f_equal.
      unfold splice. cbn. rewrite drop_ge by (unfold mem_size in Hc0; lia). by rewrite app_nil_r.
    + split; [reflexivity|]. unfold wrote. payload_at 0%nat 1 [cc]. rewrite Dcc.
      by cmp_case.
Qed.

(** C27: the codecs of the base commands.  GetTID and GetPLDMTypes responses, GetPLDMVersion
    and GetPLDMCommands requests and responses are encoded behind the header of their
    command as exactly the bytes of the specification, and decode to what was encoded,
    whatever the caller's objects held before.  A response with an error is its completion
    code alone, and decodes to that code with the other objects untouched. *)
Theorem base_codecs_roundtrip :
  (forall inst cc tid types msg len r0 t0,
    mem_ok (payload msg) -> 1 <= len <= mem_size (payload msg) -> 0 <= inst <= 31 ->
    byte_ok cc -> byte_ok tid -> bytes_ok types -> length types = 8%nat ->
    length (types_pldm_types t0) = 8%nat ->
    let tid_msg := sent_as PLDM_RESPONSE inst PLDM_BASE PLDM_GET_TID msg in
    let types_msg := sent_as PLDM_RESPONSE inst PLDM_BASE PLDM_GET_PLDM_TYPES msg in
    (cc = 0 -> 2 <= len ->
       encode_pldm_base_get_tid_resp inst (Some (TidResp cc tid)) (Some msg) (Some len)
       = Ok (0, Some (tid_msg [0; tid]), Some 2) /\
       decode_pldm_base_get_tid_resp (Some (tid_msg [0; tid])) 2 (Some r0) = Ok (0, Some (TidResp 0 tid))) /\
    (cc = 0 -> 9 <= len ->
       encode_pldm_base_get_pldm_types_resp inst (Some (TypesResp cc types)) (Some msg) (Some len)
       = Ok (0, Some (types_msg (0 :: types)), Some 9) /\
       decode_pldm_base_get_pldm_types_resp (Some (types_msg (0 :: types))) 9 (Some t0)
       = Ok (0, Some (TypesResp 0 types))) /\
    (cc <> 0 ->
       encode_pldm_base_get_tid_resp inst (Some (TidResp cc tid)) (Some msg) (Some len)
       = Ok (0, Some (tid_msg [cc]), Some 1) /\
       encode_pldm_base_get_pldm_types_resp inst (Some (TypesResp cc types)) (Some msg) (Some len)
       = Ok (0, Some (types_msg [cc]), Some 1) /\
       decode_pldm_base_get_tid_resp (Some (tid_msg [cc])) 1 (Some r0) = Ok (0, Some (TidResp cc (tid_tid r0))) /\
       decode_pldm_base_get_pldm_types_resp (Some (types_msg [cc])) 1 (Some t0)
       = Ok (0, Some (TypesResp cc (types_pldm_types t0))))) /\
  (forall inst h op ty cc flag v commands msg vsize h0 o0 t0 z0 n0 f0 v0 c0,
    35 <= mem_size (payload msg) -> 0 <= inst <= 31 -> byte_ok cc -> byte_ok op -> byte_ok ty ->
    byte_ok flag -> 0 <= h < 4294967296 -> length commands = 32%nat -> mem_size c0 = 32 ->
    vsize = 4 ->
    (let m := sent_as PLDM_REQUEST inst PLDM_BASE PLDM_GET_PLDM_VERSION msg (le_enc 4 h ++ [op; ty]) in
       encode_get_version_req inst h op ty (Some msg) = Ok (PLDM_SUCCESS, Some m) /\
       decode_get_version_req m 6 h0 o0 t0 = Ok (PLDM_SUCCESS, h, op, ty)) /\
    (let m := sent_as PLDM_RESPONSE inst PLDM_BASE PLDM_GET_PLDM_VERSION msg
         (if cc =? 0 then [0] ++ le_enc 4 h ++ [flag] ++ ver32_bytes v else [cc]) in
       encode_get_version_resp inst cc h flag (Some (CMem 8 (ver32_bytes v))) vsize (Some msg)
       = Ok (PLDM_SUCCESS, Some m) /\
       decode_get_version_resp (Some m) 10 (Some z0) (Some n0) (Some f0) v0
       = Ok (if cc =? 0 then (PLDM_SUCCESS, Some 0, Some h, Some flag, v)
             else (PLDM_SUCCESS, Some cc, Some n0, Some f0, v0))) /\
    (let m := sent_as PLDM_REQUEST inst PLDM_BASE PLDM_GET_PLDM_COMMANDS msg (ty :: ver32_bytes v) in
       encode_get_commands_req inst ty v (Some msg) = Ok (PLDM_SUCCESS, Some m) /\
       decode_get_commands_req (Some m) 5 (Some t0) (Some v0) = Ok (PLDM_SUCCESS, Some ty, Some v)) /\
    (let m := sent_as PLDM_RESPONSE inst PLDM_BASE PLDM_GET_PLDM_COMMANDS msg
         (if cc =? 0 then 0 :: commands else [cc]) in
       encode_get_commands_resp inst cc (Some (CMem 8 commands)) (Some msg)
       = Ok (PLDM_SUCCESS, Some m) /\
       decode_get_commands_resp (Some m) 33 (Some z0) (Some c0)
       = Ok (PLDM_SUCCESS, Some cc, Some (if cc =? 0 then CMem (addr c0) commands else c0)))).
Proof. exact (conj query_resp_roundtrip legacy_roundtrip). Qed.

Lemma base_codecs_roundtrip_witness :
  (let msg := Msg (packed 1 0 0 0) (CMem 64 (replicate 12 0)) in
     let types := [0x25; 0; 0; 0; 0; 0; 0; 0x80] in
     let msg' := sent_as PLDM_RESPONSE 9 PLDM_BASE PLDM_GET_PLDM_TYPES msg (0 :: types) in
     encode_pldm_base_get_pldm_types_resp 9 (Some (TypesResp 0 types)) (Some msg) (Some 12)
     = Ok (0, Some msg', Some 9) /\
     decode_pldm_base_get_pldm_types_resp (Some msg') 9 (Some (TypesResp 7 (replicate 8 1)))
     = Ok (0, Some (TypesResp 0 types))) /\
  (let msg := Msg (packed 1 0 0 0) (CMem 64 (replicate 35 0)) in
     let v := Ver32 0 0xff 0xf1 0xf2 in
     let m := Msg (MsgHdr 0 0 0 3 0 0 3) (CMem 64 ([0; 4; 3; 2; 1; 5; 0; 0xff; 0xf1; 0xf2] ++ replicate 25 0)) in
     encode_get_version_resp 3 0 0x01020304 5 (Some (CMem 8 (ver32_bytes v))) 4 (Some msg)
     = Ok (PLDM_SUCCESS, Some m) /\
     decode_get_version_resp (Some m) 10 (Some 77) (Some 1) (Some 2) (Ver32 9 9 9 9)
     = Ok (PLDM_SUCCESS, Some 0, Some 0x01020304, Some 5, v)).
Proof.
  split.
  - intros msg types.
    destruct (proj1 base_codecs_roundtrip 9 0 1 types msg 12 (TidResp 0 0) (TypesResp 7 (replicate 8 1)))
      as (_ & H & _); [concrete..|].
    apply H; [reflexivity|lia].
  - intros msg v.
    destruct (proj2 base_codecs_roundtrip 3 0x01020304 1 2 0 5 v (replicate 32 7) msg 4 0 0 0 77 1 2 (Ver32 9 9 9 9)
      (CMem 8 (replicate 32 0))) as (_ & H & _); [concrete..|exact H].
Defined.

(** ** Messages in transport buffers

    A handler is given a buffer that starts with the header. *)

Abbreviation PLDM_MSG_HDR_SIZE := 3 (only parsing).

Definition msg_at (m : cmem) : outcome pldm_msg :=
  h ← mem_read m 0 PLDM_MSG_HDR_SIZE;
  match hdr_parse h with
  | Some h => Ok (Msg h (ptr_at m PLDM_MSG_HDR_SIZE))
  | None => Fault FMemory
  end.

(** The buffer at address [a] that holds the message. *)
Definition msg_bytes (a : Z) (msg : pldm_msg) : cmem :=
  CMem a (hdr_bytes (hdr msg) ++ bytes (payload msg)).

Lemma hdr_parse_ok l : bytes_ok l -> length l = 3%nat -> exists h, hdr_parse l = Some h /\ hdr_ok h.
Proof.
  intros Hl H3. destruct l as [|b0 [|b1 [|b2 [|]]]]; try done.
  repeat (apply Forall_cons_1 in Hl as [? Hl]). unfold byte_ok in *.
  eexists. split; [reflexivity|]. bits_arith. change (2 ^ 1) with 2. change (2 ^ 5) with 32.
  change (2 ^ 6) with 64. constructor; cbn; Z.div_mod_to_equations; lia.
Qed.

Lemma msg_at_ok m :
  mem_ok m -> 3 <= mem_size m ->
  exists h, msg_at m = Ok (Msg h (ptr_at m 3)) /\ hdr_ok h /\ mem_ok (ptr_at m 3) /\
    mem_size (ptr_at m 3) = mem_size m - 3.
Proof.
  intros [? ? ? Hb] H3. unfold msg_at.
  destruct (mem_read_in m 0 3) as (l & -> & Hl & ->); [lia..|]. cbn [mbind outcome_bind].
  destruct (hdr_parse_ok (slice (Z.to_nat 0) (Z.to_nat 3) (bytes m))) as (h & -> & Hh);
    [by apply Forall_slice|lia|].
  assert (mem_size (ptr_at m 3) = mem_size m - 3) as Hsz.
  { unfold mem_size, ptr_at. cbn [bytes]. rewrite length_drop. change (Z.to_nat 3) with 3%nat.
    unfold mem_size in H3. lia. }
  exists h. split_and!; try done. constructor; rewrite ?Hsz; cbn [ptr_at addr bytes]; try lia.
  by apply Forall_drop.
Qed.
