(* ===== verification/Legacy.v ===== *)
(** * The shape of the older codecs

    The codecs of platform.c and the older half of firmware_update.c answer with
    completion codes.  Their encoders pack the header and lay a struct over the
    payload, which is [put_members]; their decoders either read such a struct, which is
    [member], or run a message buffer and translate its errors, which is
    [legacy_decode] with the ways out of it. *)

From S2P Require Import Prelude Msgbuf Base.

(** ** Reading and writing structs *)

(** A little-endian member of the struct laid over the payload. *)
Definition member (msg : pldm_msg) (off n : Z) : outcome Z :=
  l ← payload_read msg off n; mret (le_dec l).

(** Assignments to the members of a packed struct, in order from [off], and the bytes
    that memcpy() puts behind them. *)
Fixpoint put_members (msg : pldm_msg) (off : Z) (fs : list (nat * Z)) : outcome pldm_msg :=
  match fs with
  | [] => mret msg
  | (n, v) :: fs =>
    m ← payload_write msg off (le_enc n v);
    put_members m (off + Z.of_nat n) fs
  end.

(** A pointer is not NULL. *)
Definition given {A} (p : option A) : bool := match p with Some _ => true | None => false end.

(** ** Message buffers with completion codes *)

(** [return pldm_xlate_errno(pldm_msgbuf_discard(buf, rc))]. *)
Definition discard_xlate (rc : Z) : B Z :=
  rc ← pldm_msgbuf_ro_discard rc; lift (pldm_xlate_errno rc).

(** [rc = complete(buf); if (rc) return pldm_xlate_errno(rc); return PLDM_SUCCESS]. *)
Definition finish_xlate (complete : B Z) : B Z :=
  rc ← complete;
  if_err rc return_ lift (pldm_xlate_errno rc);;
  mret PLDM_SUCCESS.

(** [rc = m; if (rc) return pldm_xlate_errno(pldm_msgbuf_discard(buf, rc));] and on with
    what [m] yielded.  [o] is what the caller's objects then hold. *)
Definition checked {A O} (m : B (Z * A)) (o : A -> O) (k : A -> B (Z * O)) : B (Z * O) :=
  '(rc, a) ← m;
  if_err rc return_ (rc ← discard_xlate rc; mret (rc, o a));;
  k a.

(** The same where the function answers with the errno. *)
Definition checked_errno {A O} (m : B (Z * A)) (o : A -> O) (k : A -> B (Z * O)) : B (Z * O) :=
  '(rc, a) ← m;
  if_err rc return_ (rc ← pldm_msgbuf_ro_discard rc; mret (rc, o a));;
  k a.

(** [return pldm_msgbuf_discard(buf, rc)]. *)
Definition refuse {O} (rc : Z) (o : O) : B (Z * O) := rc ← pldm_msgbuf_ro_discard rc; mret (rc, o).

Definition finish {O} (complete : B Z) (o : O) : B (Z * O) := rc ← finish_xlate complete; mret (rc, o).
Definition finish_errno {O} (complete : B Z) (o : O) : B (Z * O) := rc ← complete; mret (rc, o).

(** A completion code that is not a success ends the message. *)
Definition checked_cc {O} (dst : Z) (o : Z -> O) (k : Z -> B (Z * O)) : B (Z * O) :=
  checked (pldm_msgbuf_extract KU8 dst) o (fun cc =>
    if negb (cc =? PLDM_SUCCESS) then refuse PLDM_SUCCESS (o cc) else k cc).

(** A loop over the first [n] elements of the caller's array [l].  An index past its
    end is a fault. *)
Fixpoint each {A} (step : A -> B A) (n : nat) (l : list A) : B (list A) :=
  match n, l with
  | O, _ => mret l
  | S n, a :: l => a ← step a; l ← each step n l; mret (a :: l)
  | S _, [] => fun _ => Fault FMemory
  end.

(** [memcpy] from the first [n] elements of an array of structs. *)
Definition array_first {A} (l : list A) (n : Z) : outcome (list A) :=
  if (0 <=? n) && (n <=? Z.of_nat (length l)) then Ok (take (Z.to_nat n) l) else Fault FMemory.

Definition legacy_scope {A} (minsize : Z) (data : cmem) (length : Z) (init : A) (body : B (Z * A))
  : outcome (Z * A) :=
  '(r, _) ← msgbuf_scope data (
    rc ← pldm_msgbuf_ro_init_errno minsize data length;
    if_err rc return_ (rc ← lift (pldm_xlate_errno rc); mret (rc, init));;
    body);
  mret r.

Definition legacy_decode {A} (minsize : Z) (msg : pldm_msg) (payload_length : Z) (init : A)
    (body : B (Z * A)) : outcome (Z * A) :=
  legacy_scope minsize (payload msg) payload_length init body.

(** An encoder that runs a message buffer over the payload behind a packed header. *)
Definition legacy_encode (minsize : Z) (m : pldm_msg) (payload_length : Z) (body : B Z)
  : outcome (Z * option pldm_msg) :=
  '(rc, p) ← msgbuf_scope (payload m) (
    rc ← pldm_msgbuf_rw_init_errno minsize (payload m) payload_length;
    if_err rc return_ lift (pldm_xlate_errno rc);;
    body);
  mret (rc, Some (Msg (hdr m) p)).

(** [decode_frame] of Base.v for an object that is not a message. *)
Definition errno_scope {A} (minsize : Z) (data : cmem) (length : Z) (init : A) (body : B (Z * A))
  : outcome (Z * A) :=
  '(r, _) ← msgbuf_scope data (
    rc ← pldm_msgbuf_ro_init_errno minsize data length;
    if_err rc return_ mret (rc, init);;
    body);
  mret r.

(** ** Structs on the wire *)

Definition members_bytes (fs : list (nat * Z)) : list Z := concat ((fun '(n, v) => le_enc n v) <$> fs).

Lemma put_members_ok h m fs out off :
  off = Z.of_nat (length out) -> off + Z.of_nat (length (members_bytes fs)) <= mem_size m ->
  put_members (Msg h (wrote m out)) off fs = Ok (Msg h (wrote m (out ++ members_bytes fs))).
Proof.
  revert out off. induction fs as [|[n v] fs IH]; intros out off -> Hl; cbn [put_members members_bytes fmap list_fmap concat] in *.
  { by rewrite app_nil_r. }
  rewrite length_app, le_enc_length in Hl.
  rewrite payload_write_next by (rewrite ?le_enc_length; lia). cbn [mbind outcome_bind].
  rewrite IH; [by rewrite <- app_assoc|rewrite length_app, le_enc_length; lia|unfold members_bytes; lia].
Qed.

Lemma member_ok h m (off n : nat) :
  Z.of_nat off + Z.of_nat n <= mem_size m -> member (Msg h m) (Z.of_nat off) (Z.of_nat n) = Ok (fld m off n).
Proof.
  intros Hl. unfold member, payload_read. cbn [payload].
  destruct (mem_read_in m (Z.of_nat off) (Z.of_nat n)) as (l & -> & _ & ->); [lia..|].
  unfold fld. cbn. by rewrite !Nat2Z.id.
Qed.

(** Read the members of a payload large enough. *)
Ltac read_members :=
  repeat match goal with
  | |- context [member (Msg ?h ?m) ?o ?k] =>
    let o' := eval cbv in (Z.to_nat o) in let k' := eval cbv in (Z.to_nat k) in
    change (member (Msg h m) o k) with (member (Msg h m) (Z.of_nat o') (Z.of_nat k'));
    rewrite (member_ok h m o' k') by lia; cbn [mbind outcome_bind]
  end.

Ltac small := rewrite ?Z.mod_small by (unfold byte_ok, u16_ok, u32_ok in *; cbn; lia).

(** ** Running a decoder *)

Section legacy.
Context (minsize : Z) (m : cmem) (len : Z).
Hypothesis Hmem : mem_ok m.
Hypothesis Hlen : 0 <= len <= mem_size m.

Lemma legacy_scope_fits {A} (init : A) body (P : Z -> A -> Prop) :
  minsize <= len ->
  (forall b, mb_rd m len 0 b -> wp body b (fun '(rc, a) b' => mb_done b' /\ P rc a)) ->
  exists rc a, legacy_scope minsize m len init body = Ok (rc, a) /\ P rc a.
Proof.
  intros Hmin Hbody. destruct Hmem. unfold legacy_scope.
  match goal with |- context [msgbuf_scope ?o ?k] =>
    destruct (msgbuf_scope_wp o k (fun '(rc, a) _ => P rc a)) as ([rc a] & m' & -> & HP) end;
    [|by exists rc, a].
  apply wp_bind, wp_init_rd; [lia..|]. intros b _. cmp_case; [|lia]. intros Hb. cmp_case; [|done].
  eapply wp_mono; [by apply Hbody|]. by intros [].
Qed.

Lemma legacy_scope_short {A} (init : A) body :
  len < minsize -> legacy_scope minsize m len init body = Ok (PLDM_ERROR_INVALID_LENGTH, init).
Proof.
  intros Hmin. unfold legacy_scope, msgbuf_scope, pldm_msgbuf_ro_init_errno, pldm__msgbuf_init_errno.
  cbn [mbind stM_bind]. unfold stM_bind. cmp_case; [|lia]. done.
Qed.
End legacy.
