(* ===== verification/Exchange.v ===== *)
(** * A message from its encoder to its decoder

    What the encoders that lay structs over a payload leave in it, as a list of pieces,
    and the steps of a proof that runs a decoder on those: shared by the round trips of
    the messages of all types. *)

From S2P Require Import Prelude Msgbuf Layout Base Legacy.

Lemma splice_whole (l d : list Z) : length l = length d -> splice 0 l d = l.
Proof. intros Hl. unfold splice. cbn. rewrite drop_ge by lia. apply app_nil_r. Qed.

Lemma splice_nil (d : list Z) : splice 0 [] d = d.
Proof. done. Qed.

Lemma mem_read_all a l n : n = Z.of_nat (length l) -> mem_read (CMem a l) 0 n = Ok l.
Proof.
  intros ->. apply mem_read_ok; unfold mem_size; cbn [bytes]; [lia..|]. unfold slice. rewrite Nat2Z.id, drop_0.
  apply firstn_all.
Qed.

(** What is written at the front of the payload leaves it an object. *)
Lemma sent_known m out :
  mem_ok m -> bytes_ok out -> Z.of_nat (length out) <= mem_size m ->
  mem_ok (wrote m out) /\ mem_size (wrote m out) = mem_size m.
Proof.
  intros Hm Ho Hl. split; [by apply mem_ok_wrote|]. apply mem_size_wrote. unfold mem_size in Hl. lia.
Qed.

(** ** Tactics *)

(** The payload an encoder wrote, as one list of pieces. *)
Ltac as_pieces :=
  unfold wrote, members_bytes, fields_bytes; cbn [fmap list_fmap concat kind_size app];
  rewrite <- ?app_assoc; cbn [app].

Lemma fld_hit_at a o n v r : o = 0%nat -> fld (CMem a (le_enc n v ++ r)) o n = v mod 256 ^ Z.of_nat n.
Proof. intros ->. apply fld_hit. Qed.

Lemma slice_hit_at {A} (l r : list A) o n : o = 0%nat -> n = length l -> slice o n (l ++ r) = l.
Proof. intros ->. apply slice_hit. Qed.

(** Present the fields and runs of bytes read as what was put there. *)
Ltac wire_at :=
  repeat first
    [ rewrite fld_hit | rewrite fld_hit_at by wire_len
    | rewrite fld_skip by wire_len; rewrite ?le_enc_length; cbn [Nat.sub] ]; small.
Ltac wire_run :=
  repeat first
    [ rewrite slice_hit_at by wire_len
    | rewrite slice_skip by wire_len; rewrite ?le_enc_length; cbn [Nat.sub] ].

(** The steps of an encoder: a header, members, bytes behind them. *)
Ltac send_side := first [reflexivity | (rewrite ?length_app, ?le_enc_length; cbn [members_bytes fmap list_fmap concat length app le_enc]; rewrite ?length_app, ?le_enc_length; cbn [length]; lia)].
Ltac send_call :=
  first
    [ rewrite legacy_frame_ok by (done || (repeat constructor))
    | rewrite put_members_ok by send_side
    | rewrite payload_write_next by send_side
    | rewrite mem_read_all by send_side ];
  cbn [mbind outcome_bind app Z.eqb Pos.eqb negb].
Ltac send_members := repeat send_call.

Ltac bytes_side :=
  unfold members_bytes, fields_bytes; cbn [fmap list_fmap concat]; rewrite ?list.Forall_app; split_and?;
  first [apply le_enc_ok | assumption | solve [repeat first [assumption | constructor]]].

(** What is known of the message that was just sent. *)
Ltac known_message :=
  match goal with |- context [wrote (payload ?msg) ?out] =>
    let Hm := fresh "Hm" in let Hw := fresh "Hw" in
    destruct (sent_known (payload msg) out) as [Hm Hw];
    [assumption|bytes_side|cbn; rewrite ?length_app; cbn; lia|];
    revert Hm Hw; as_pieces; intros Hm Hw
  end.

(** ** Decoders that lay structs over the payload *)

(** Read the members of the message that was sent. *)
Ltac read_sent :=
  known_message; cbn [given payload]; read_members; wire_at; cbn [mbind outcome_bind Z.eqb Pos.eqb negb].

(** Bytes a decoder hands out a pointer to. *)
Definition points_to (f : variable_field) (l : list Z) : Prop :=
  exists p, vf_ptr f = Some p /\ vf_length f = len l /\ lies p 0 l.

(** Run over the bytes [l] of the message that was sent. *)
Ltac read_bytes l :=
  unfold payload_read; cbn [payload];
  rewrite (mem_read_ok _ _ _ l) by
    first [lia | (cbn [bytes]; rewrite ?Nat2Z.id;
                  repeat match goal with |- context [Z.to_nat ?z] => let n := eval cbv in (Z.to_nat z) in change (Z.to_nat z) with n end;
                  by wire_run)];
  cbn [mbind outcome_bind].

Ltac points_here :=
  eexists; split_and!; [reflexivity|reflexivity|];
  apply lies_ptr_at; [lia|lia|]; split; [lia|]; eexists; unfold drop; cbn [le_enc app bytes Z.to_nat Z.add Pos.to_nat Pos.iter_op Init.Nat.add];
  rewrite <- ?app_assoc; reflexivity.
