(* ===== verification/Safety.v ===== *)
(** * Any bytes in a decoder

    The rules that step a decoder through a message of which nothing is known but that
    it is there.  [live] is what holds of its buffer between two calls, [step] what a
    call does to it; the tactic [run_safe] applies the rule of the call at the head of
    the goal until the buffer is completed or discarded. *)

From S2P Require Import Prelude Msgbuf Layout Base Legacy.

(** ** The state of the buffer *)

Record live (b : msgbuf) : Prop := {
  live_inv : mb_inv b;
  live_object : mem_ok (obj b)
}.

(** No call so far asked for more than there was. *)
Definition clean (b : msgbuf) : Prop := 0 <= remaining b.

(** Where what is left of the buffer ends. *)
Definition buf_end (b : msgbuf) : Z := default 0 (cursor b) + remaining b.

(** A call that answered [rc].  After an overflow the buffer is never clean again. *)
Record step (rc : Z) (b b' : msgbuf) : Prop := {
  step_live : live b';
  step_obj : obj b' = obj b;
  step_clean : clean b' -> clean b /\ (rc = 0 \/ rc = - EINVAL);
  step_end : clean b' -> buf_end b' = buf_end b;
  step_ok : rc = 0 \/ rc = - EOVERFLOW \/ rc = - EINVAL
}.

Lemma step_same rc b : live b -> rc = 0 \/ rc = - EINVAL -> step rc b b.
Proof. intros Hb Hrc. constructor; [done|done|tauto|done|tauto]. Qed.

(** The buffer after an overflow, whatever it says is missing. *)
Lemma live_overflow r b :
  live b -> INTMAX_MIN <= r < 0 -> live (MsgBuf (obj b) (cursor b) r).
Proof. intros [] Hr. constructor; cbn; [constructor; cbn; lia|done..]. Qed.

Lemma overflow_step_ok r b :
  live b -> INTMAX_MIN <= r < 0 ->
  step (- EOVERFLOW) b (MsgBuf (obj b) (cursor b) r) /\ ~ clean (MsgBuf (obj b) (cursor b) r).
Proof.
  intros Hb Hr. unfold clean; cbn. split; [|lia].
  constructor; [by apply live_overflow|done|unfold clean; cbn; lia|unfold clean; cbn; lia|lia].
Qed.

Lemma live_shortfall n b Q :
  live b -> 0 <= n <= INTMAX_MAX -> remaining b < n ->
  (forall b', step (- EOVERFLOW) b b' -> ~ clean b' -> Q (- EOVERFLOW) b') -> wp (msgbuf_shortfall n) b Q.
Proof.
  intros Hb Hn Hlt HQ. unfold wp, msgbuf_shortfall. pose proof (mb_inv_min _ (live_inv _ Hb)).
  cmp_case; apply HQ; apply overflow_step_ok; (done || lia).
Qed.

Lemma live_invalid b Q :
  live b -> (forall b', step (- EOVERFLOW) b b' -> ~ clean b' -> Q (- EOVERFLOW) b') ->
  wp pldm__msgbuf_set_invalid b Q.
Proof. intros Hb HQ. apply HQ; apply overflow_step_ok; (done || lia). Qed.

Lemma live_advance n b Q :
  live b -> 0 <= n <= remaining b ->
  (forall c b', step 0 b b' -> clean b' -> 0 <= c -> c + n <= mem_size (obj b) ->
     obj b' = obj b -> c + n <= buf_end b -> Q c b') ->
  wp (msgbuf_advance n) b Q.
Proof.
  intros [Hb ?] Hn HQ. unfold wp, msgbuf_advance.
  destruct (mb_inv_cursor _ Hb) as (c & Hc & ? & ?); [lia|]. rewrite Hc. cbn [mbind outcome_bind mret outcome_ret].
  apply HQ; unfold clean, buf_end; cbn [obj cursor remaining]; rewrite ?Hc; cbn [default id]; [|lia..|done|lia].
  constructor; unfold clean, buf_end; cbn [obj cursor remaining]; rewrite ?Hc; cbn [default id]; [|done|lia..].
  constructor; [|done]. constructor; cbn; [pose proof (mb_inv_min _ Hb); pose proof (mb_inv_max _ Hb); lia..|].
  intros _. exists (c + n). split_and!; [done|lia..].
Qed.

(** ** The calls *)

Lemma live_extract n conv dst b Q :
  live b -> 0 <= n <= INTMAX_MAX ->
  (forall rc v b', step rc b b' -> rc = 0 \/ rc = - EOVERFLOW ->
     (rc = 0 -> clean b' /\ exists raw, bytes_ok raw /\ Z.of_nat (length raw) = n /\ v = conv raw) ->
     (rc <> 0 -> v = dst) -> Q (rc, v) b') ->
  wp (msgbuf_extract n conv dst) b Q.
Proof.
  intros Hb Hn HQ. unfold wp, msgbuf_extract. cmp_case.
  - destruct (wp_elim _ _ _ (live_advance n b (fun c b' => step 0 b b' /\ clean b' /\ 0 <= c /\
      c + n <= mem_size (obj b) /\ obj b' = obj b) Hb ltac:(lia) ltac:(by intros)))
      as (c & b' & -> & Hs & Hc & ? & ? & Ho). cbn [mbind outcome_bind]. rewrite Ho.
    destruct (mem_read_in (obj b) c n) as (raw & -> & Hl & ->); [lia..|]. cbn [mbind outcome_bind].
    apply HQ; [done|lia| |done]. intros _. split; [done|]. eexists. split_and!; [|exact Hl|done].
    apply Forall_slice. apply (live_object _ Hb).
  - destruct (wp_elim _ _ _ (live_shortfall n b (fun rc b' => rc = - EOVERFLOW /\ step rc b b')
      Hb ltac:(lia) ltac:(lia) ltac:(by intros))) as (rc & b' & -> & -> & Hs). cbn [mbind outcome_bind].
    apply HQ; [done|lia|done|done].
Qed.

(** The C type of an unsigned value. *)
Definition kind_nonneg (k : kind) (v : Z) : Prop :=
  match k with KI8 | KI16 | KI32 | KI64 => True | _ => 0 <= v < 256 ^ Z.of_nat (kind_size k) end.

Lemma safe_extract k dst b Q :
  live b ->
  (forall rc v b', step rc b b' -> rc = 0 \/ rc = - EOVERFLOW -> (rc = 0 -> kind_nonneg k v /\ clean b') ->
     (rc <> 0 -> v = dst) -> Q (rc, v) b') ->
  wp (pldm_msgbuf_extract k dst) b Q.
Proof.
  intros Hb HQ. rewrite extract_kind. pose proof (kind_size_bound k).
  apply live_extract; [done|lia|]. intros rc v b' Hs Hrc Hv Hd. apply HQ; try done.
  intros Hz. destruct (Hv Hz) as (Hc & raw & Hr & Hl & ->). split; [|exact Hc]. clear Hc. pose proof (le_dec_bound raw Hr) as Hd'.
  rewrite Hl in Hd'. by destruct k.
Qed.

Lemma safe_to_size extract k dst b Q :
  (forall v, extract v = pldm_msgbuf_extract k v) -> live b ->
  (forall rc v b', step rc b b' -> rc = 0 \/ rc = - EOVERFLOW -> (rc = 0 -> kind_nonneg k v /\ clean b') ->
     (rc <> 0 -> v = dst) -> Q (rc, v) b') ->
  wp (msgbuf_to_size extract dst) b Q.
Proof.
  intros He Hb HQ. unfold msgbuf_to_size. apply wp_bind. rewrite He. apply safe_extract; [done|].
  intros rc v b' Hs Hrc Hv Hd. cmp_case; apply wp_ret; apply HQ; try done; subst; auto.
Qed.

Lemma live_array_store raw dst Q :
  (length raw <= length dst)%nat -> Q (splice 0 raw dst) -> exists d, array_store dst raw = Ok d /\ Q d.
Proof. intros Hl HQ. unfold array_store. rewrite (proj2 (Nat.leb_le _ _)) by done. eauto. Qed.

Lemma safe_array count dst dst_count b Q :
  live b -> 0 <= count -> dst_count <= Z.of_nat (length dst) ->
  (forall rc d b', step rc b b' -> rc = 0 \/ rc = - EOVERFLOW \/ rc = - EINVAL -> (rc = 0 -> count <= dst_count) -> length d = length dst ->
     (bytes_ok dst -> bytes_ok d) -> Q (rc, d) b') ->
  wp (pldm__msgbuf_extract_array_void count dst dst_count) b Q.
Proof.
  intros Hb Hn Hd HQ. unfold wp, pldm__msgbuf_extract_array_void.
  cmp_case; [apply HQ; try done; [apply step_same; [done|lia]|lia]|].
  cmp_case; [apply HQ; auto; apply step_same; [done|lia]|].
  cmp_case.
  { autounfold with msgbuf.
    destruct (wp_elim _ _ _ (live_invalid b (fun rc b' => rc = - EOVERFLOW /\ step rc b b') Hb
      ltac:(by intros))) as (rc & b' & -> & -> & Hs). cbn [mbind outcome_bind]. apply HQ; auto; lia. }
  cmp_case.
  - destruct (wp_elim _ _ _ (live_advance count b (fun c b' => step 0 b b' /\ 0 <= c /\
      c + count <= mem_size (obj b) /\ obj b' = obj b) Hb ltac:(lia) ltac:(by intros)))
      as (c & b' & -> & Hs & ? & ? & Ho). cbn [mbind outcome_bind]. rewrite Ho.
    destruct (mem_read_in (obj b) c count) as (raw & -> & Hl & Hr); [lia..|]. cbn [mbind outcome_bind].
    destruct (live_array_store raw dst (fun d => d = splice 0 raw dst)) as (d & -> & ->); [lia|done|].
    cbn [mbind outcome_bind]. apply HQ; [done|lia..|apply splice_length; lia|].
    intros. apply splice_ok; [|done]. subst raw. apply Forall_slice, (live_object _ Hb).
  - destruct (wp_elim _ _ _ (live_shortfall count b (fun rc b' => rc = - EOVERFLOW /\ step rc b b')
      Hb ltac:(lia) ltac:(lia) ltac:(by intros))) as (rc & b' & -> & -> & Hs). cbn [mbind outcome_bind].
    apply HQ; auto; lia.
Qed.

(** A pointer to [n] bytes of what is left of the buffer. *)
Definition spans (b : msgbuf) (p : ptr) (n : Z) : Prop :=
  exists c, p = Some (ptr_at (obj b) c) /\ 0 <= c /\ 0 <= n /\ c + n <= buf_end b.

Lemma safe_span n out b Q :
  live b -> 0 <= n ->
  (forall rc p b', step rc b b' -> rc = 0 \/ rc = - EOVERFLOW ->
     (rc = 0 -> match p with Some p => spans b p n | None => out = None end) ->
     (rc <> 0 -> p = out) -> Q (rc, p) b') ->
  wp (pldm__msgbuf_span_required n out) b Q.
Proof.
  intros Hb Hn HQ. unfold wp, pldm__msgbuf_span_required. cmp_case.
  { destruct (wp_elim _ _ _ (live_invalid b (fun rc b' => rc = - EOVERFLOW /\ step rc b b') Hb
      ltac:(by intros))) as (rc & b' & -> & -> & Hs). cbn [mbind outcome_bind]. apply HQ; auto; lia. }
  cmp_case.
  - destruct (wp_elim _ _ _ (live_advance n b (fun c b' => step 0 b b' /\ 0 <= c /\
      c + n <= buf_end b /\ obj b' = obj b) Hb ltac:(lia) ltac:(by intros)))
      as (c & b' & -> & Hs & ? & ? & Ho). cbn [mbind outcome_bind]. rewrite Ho.
    apply HQ; [done|lia| |done]. intros _. destruct out; cbn [set_out]; [by exists c|done].
  - destruct (wp_elim _ _ _ (live_shortfall n b (fun rc b' => rc = - EOVERFLOW /\ step rc b b')
      Hb ltac:(lia) ltac:(lia) ltac:(by intros))) as (rc & b' & -> & -> & Hs). cbn [mbind outcome_bind].
    apply HQ; auto; lia.
Qed.

Lemma safe_span_remaining out len b Q :
  live b ->
  (forall rc p n b', step rc b b' -> rc = 0 \/ rc = - EOVERFLOW -> (rc = 0 -> spans b p n) ->
     (rc <> 0 -> p = out /\ n = len) -> Q (rc, p, n) b') ->
  wp (pldm__msgbuf_span_remaining out len) b Q.
Proof.
  intros Hb HQ. unfold wp, pldm__msgbuf_span_remaining. cmp_case.
  { apply HQ; [|lia|done|done]. constructor; unfold clean; [done|done|lia..]. }
  destruct (wp_elim _ _ _ (live_advance (remaining b) b (fun c b' => step 0 b b' /\ 0 <= c /\
    c + remaining b <= buf_end b /\ obj b' = obj b) Hb ltac:(lia) ltac:(by intros)))
    as (c & b' & -> & Hs & ? & ? & Ho). cbn [mbind outcome_bind]. rewrite Ho.
  apply HQ; [done|lia| |done]. intros _. exists c. unfold clean in *. split_and!; [done|lia..].
Qed.

(** ** Completion *)

Lemma safe_complete b Q :
  (forall rc b', mb_done b' -> rc = 0 \/ rc = - EOVERFLOW -> (rc = 0 <-> clean b) -> Q rc b') ->
  wp pldm_msgbuf_ro_complete b Q.
Proof.
  intros HQ. unfold wp, pldm_msgbuf_ro_complete. cbn. apply HQ; [done|..].
  all: unfold pldm__msgbuf_validate, clean; cmp_case; lia.
Qed.

Lemma safe_consumed b Q :
  (forall rc b', mb_done b' -> rc = 0 \/ rc = - EOVERFLOW \/ rc = - EBADMSG -> (rc = 0 -> clean b) ->
     Q rc b') ->
  wp pldm_msgbuf_ro_complete_consumed b Q.
Proof.
  intros HQ. unfold wp, pldm_msgbuf_ro_complete_consumed. cbn. apply HQ; [done|..].
  all: unfold pldm__msgbuf_consumed, clean; repeat cmp_case; lia.
Qed.

(** The errors of a buffer and of the checks of the decoders. *)
Definition errno (rc : Z) : Prop :=
  rc = - EINVAL \/ rc = - EOVERFLOW \/ rc = - EBADMSG \/ rc = - EPROTO \/ rc = - ENOTSUP.

(** What the completion codes of the decoders can be. *)
Definition refusal (rc : Z) : Prop :=
  rc = PLDM_ERROR_INVALID_DATA \/ rc = PLDM_ERROR_INVALID_LENGTH \/ rc = PLDM_ERROR.

Lemma xlate_refusal e : errno e -> exists rc, pldm_xlate_errno e = Ok rc /\ refusal rc.
Proof.
  unfold errno, refusal, pldm_xlate_errno.
  intros [-> | [-> | [-> | [-> | ->]]]]; eexists; (split; [reflexivity|]); auto.
Qed.

Lemma safe_xlate e b (Q : Z -> msgbuf -> Prop) :
  errno e -> (forall rc, refusal rc -> Q rc b) -> wp (lift (pldm_xlate_errno e)) b Q.
Proof. intros He HQ. destruct (xlate_refusal e He) as (rc & E & Hr). unfold wp, lift. rewrite E. cbn. auto. Qed.

Lemma safe_discard_xlate e b Q :
  errno e -> (forall rc b', mb_done b' -> refusal rc -> Q rc b') -> wp (discard_xlate e) b Q.
Proof.
  intros He HQ. unfold discard_xlate. autounfold with msgbuf. apply wp_bind, wp_discard.
  intros b' Hd _. apply safe_xlate; auto.
Qed.

(** ** Decoders *)

(** It answers, without a fault, success or a code that [code] allows; a success comes
    with [P] of what it yields. *)
Definition returns {A} (code : Z -> Prop) (P : A -> Prop) (r : outcome (Z * A)) : Prop :=
  exists rc a, r = Ok (rc, a) /\ (rc = 0 \/ code rc) /\ (rc = 0 -> P a).

Definition ends {A} (code : Z -> Prop) (P : A -> Prop) : Z * A -> msgbuf -> Prop :=
  fun '(rc, a) b => mb_done b /\ (rc = 0 \/ code rc) /\ (rc = 0 -> P a).

Definition anything {A} (_ : A) : Prop := True.

Lemma rd_live m len c b : mem_ok m -> mb_rd m len c b -> c <= len -> live b.
Proof.
  intros Hm [Ho Hr ? ? ? (k & Hk & Hkc)] Hc. constructor; [|by rewrite Ho]. constructor; [lia..|].
  intros. exists k. rewrite Ho. split_and!; [done|lia..].
Qed.

Section decoders.
Context {A : Type} (code : Z -> Prop) (P : A -> Prop) (minsize : Z) (m : cmem) (len : Z) (init : A).
Hypothesis Hmem : mem_ok m.
Hypothesis Hlen : 0 <= len <= mem_size m.

(** The body of a scope, from a buffer that has the minimum size. *)
Lemma scope_reads (short : Z -> B (Z * A)) body :
  (forall b, mb_done b -> wp (short (- EOVERFLOW)) b (ends code P)) ->
  (forall b, mb_rd m len 0 b -> minsize <= len -> wp body b (ends code P)) ->
  returns code P (
    '(r, _) ← msgbuf_scope m (
      rc ← pldm_msgbuf_ro_init_errno minsize m len; if_err rc return_ short rc;; body);
    mret r).
Proof.
  intros Hshort Hbody. pose proof Hmem as [].
  match goal with |- context [msgbuf_scope ?o ?k] =>
    destruct (msgbuf_scope_wp o k (fun '(rc, a) _ => (rc = 0 \/ code rc) /\ (rc = 0 -> P a)))
      as ([rc a] & m' & -> & HP) end; [|by exists rc, a].
  autounfold with msgbuf. apply wp_bind, wp_init_rd; [lia..|]. intros b _. cmp_case; intros Hb.
  - rewrite Z.eqb_refl. eapply wp_mono; [by apply Hbody|]. by intros [].
  - cbn. eapply wp_mono; [by apply Hshort|]. by intros [].
Qed.

Lemma errno_scope_reads body :
  code (- EOVERFLOW) ->
  (forall b, mb_rd m len 0 b -> minsize <= len -> wp body b (ends code P)) ->
  returns code P (errno_scope minsize m len init body).
Proof.
  intros Hcode Hbody. apply (scope_reads (fun rc => mret (rc, init))); [|done].
  intros b Hb. apply wp_ret. split; [done|]. split; [by right|done].
Qed.

Lemma legacy_scope_reads body :
  code PLDM_ERROR_INVALID_LENGTH ->
  (forall b, mb_rd m len 0 b -> minsize <= len -> wp body b (ends code P)) ->
  returns code P (legacy_scope minsize m len init body).
Proof.
  intros Hcode Hbody. apply (scope_reads (fun rc => rc ← lift (pldm_xlate_errno rc); mret (rc, init))); [|done].
  intros b Hb. split; [done|]. split; [by right|done].
Qed.

Lemma errno_scope_safe body :
  code (- EOVERFLOW) ->
  (forall b, live b -> minsize <= len -> wp body b (ends code P)) ->
  returns code P (errno_scope minsize m len init body).
Proof.
  intros Hcode Hbody. apply errno_scope_reads; [done|]. intros b Hb Hmin.
  apply Hbody; [|done]. by apply (rd_live m len 0); [..|lia].
Qed.

(** The same, for a body that says where in the object its fields are. *)
Lemma errno_scope_within body :
  code (- EOVERFLOW) ->
  (forall b, live b -> obj b = m -> buf_end b = len -> minsize <= len -> wp body b (ends code P)) ->
  returns code P (errno_scope minsize m len init body).
Proof.
  intros Hcode Hbody. apply errno_scope_reads; [done|]. intros b Hb Hmin.
  apply Hbody; [by apply (rd_live m len 0); [..|lia]| | |done]; destruct Hb as [Ho Hr ? ? ? (k & Hk & Hkc)]; [done|].
  unfold buf_end. rewrite Hk. cbn. lia.
Qed.

Lemma legacy_scope_safe body :
  code PLDM_ERROR_INVALID_LENGTH ->
  (forall b, live b -> minsize <= len -> wp body b (ends code P)) ->
  returns code P (legacy_scope minsize m len init body).
Proof.
  intros Hcode Hbody. apply legacy_scope_reads; [done|]. intros b Hb Hmin.
  apply Hbody; [|done]. by apply (rd_live m len 0); [..|lia].
Qed.

(** A body that leaves the buffer as it is fails the assertion of its destructor. *)
Lemma scope_left_open (short : Z -> B (Z * A)) body :
  minsize <= len ->
  (forall b, mb_rd m len 0 b -> wp body b (fun _ b' => exists c, cursor b' = Some c)) ->
  msgbuf_scope m (rc ← pldm_msgbuf_ro_init_errno minsize m len; if_err rc return_ short rc;; body)
  = Fault FAssert.
Proof.
  intros Hmin Hbody. pose proof Hmem as [].
  assert (wp (rc ← pldm_msgbuf_ro_init_errno minsize m len; if_err rc return_ short rc;; body)
            (pldm__msgbuf_define m) (fun _ b' => exists c, cursor b' = Some c)) as Hwp.
  { autounfold with msgbuf. apply wp_bind, wp_init_rd; [lia..|]. intros b _. cmp_case; [|lia].
    intros Hb. rewrite Z.eqb_refl. by apply Hbody. }
  destruct (wp_elim _ _ _ Hwp) as (a & b & E & c & Hc). unfold msgbuf_scope. rewrite E. cbn.
  unfold pldm__msgbuf_cleanup. by rewrite Hc.
Qed.
End decoders.

(** The outputs of a function with several, as one. *)
Definition outs2 {A C} (r : outcome (Z * A * C)) : outcome (Z * (A * C)) :=
  '(rc, a, c) ← r; mret (rc, (a, c)).
Definition outs3 {A C D} (r : outcome (Z * A * C * D)) : outcome (Z * (A * C * D)) :=
  '(rc, a, c, d) ← r; mret (rc, (a, c, d)).

Lemma outs2_bind {A C D} (r : outcome D) (k : D -> outcome (Z * A * C)) :
  outs2 (r ≫= k) = r ≫= fun x => outs2 (k x).
Proof. by destruct r. Qed.

Lemma outs3_bind {A C D E} (r : outcome E) (k : E -> outcome (Z * A * C * D)) :
  outs3 (r ≫= k) = r ≫= fun x => outs3 (k x).
Proof. by destruct r. Qed.

Lemma returns_bind {A C} code (P : A -> Prop) (P' : C -> Prop) r k :
  returns code P r -> (forall rc a, (rc = 0 \/ code rc) -> (rc = 0 -> P a) -> returns code P' (k (rc, a))) ->
  returns code P' (r ≫= k).
Proof. intros (rc & a & -> & Hrc & HP) Hk. cbn. by apply Hk. Qed.

Lemma returns_ok {A} code (P : A -> Prop) rc a :
  (rc = 0 \/ code rc) -> (rc = 0 -> P a) -> returns code P (Ok (rc, a)).
Proof. intros. by exists rc, a. Qed.

(** A read of memory that is not there. *)
Lemma mem_read_outside m off n : mem_size m < off + n -> mem_read m off n = Fault FMemory.
Proof. intros H. unfold mem_read. replace (off + n <=? mem_size m) with false by lia. by rewrite andb_false_r. Qed.

(** A read of memory that is there. *)
Lemma returns_read {A} code (P : A -> Prop) m off n k :
  0 <= off /\ 0 <= n /\ off + n <= mem_size m ->
  (forall l, Z.of_nat (length l) = n -> returns code P (k l)) ->
  returns code P (mem_read m off n ≫= k).
Proof. intros Hn Hk. destruct (mem_read_in m off n) as (l & -> & Hl & _); [lia..|]. by apply Hk. Qed.

Lemma returns_store {A} code (P : A -> Prop) raw dst k :
  (length raw <= length dst)%nat -> returns code P (k (splice 0 raw dst)) ->
  returns code P (array_store dst raw ≫= k).
Proof. intros Hl Hk. unfold array_store. by rewrite (proj2 (Nat.leb_le _ _)). Qed.

Lemma obind_bind {A C D} (m : outcome A) (f : A -> outcome C) (g : C -> outcome D) :
  (m ≫= f) ≫= g = m ≫= fun x => f x ≫= g.
Proof. by destruct m. Qed.

(** A decoder that only hands its outputs on. *)
Lemma returns_some {A} code (P : A -> Prop) r :
  returns code P r ->
  returns code (fun o => exists a, o = Some a /\ P a) ('(rc, a) ← r; mret (rc, Some a)).
Proof.
  intros H. eapply returns_bind; [exact H|]. intros rc a Hrc HP. apply returns_ok; eauto.
Qed.

(** A step of a loop over the elements of an array. *)
Definition safe_element {A} (f : A -> B A) : Prop :=
  forall a b Q, live b -> (forall a' b', live b' -> obj b' = obj b -> (clean b' -> clean b) -> Q a' b') ->
  wp (f a) b Q.

Lemma safe_each {A} (f : A -> B A) n l b Q :
  safe_element f -> live b -> (n <= length l)%nat ->
  (forall l' b', live b' -> obj b' = obj b -> (clean b' -> clean b) -> length l' = length l -> Q l' b') ->
  wp (each f n l) b Q.
Proof.
  intros Hf. revert l b Q. induction n as [|n IH]; intros [|a l] b Q Hb Hn HQ; cbn [each length] in *;
    try lia; try by apply wp_ret, HQ.
  apply wp_bind, Hf; [done|]. intros a' b1 Hb1 Ho1 Hc1. apply wp_bind, IH; [done|lia|].
  intros l' b2 Hb2 Ho2 Hc2 Hl. apply wp_ret, HQ; cbn; [done|congruence|auto|lia].
Qed.

Lemma has_error_ok h m len :
  0 <= len <= mem_size m ->
  pldm_msg_has_error (Msg h m) len = Ok (if len <? 1 then 0 else fld m 0 1).
Proof.
  intros Hl. unfold pldm_msg_has_error. cbn [payload]. cmp_case; [done|].
  destruct (mem_read_in m 0 1) as (l & -> & _ & ->); [lia..|]. done.
Qed.

(** ** The tactic *)

Ltac step_done :=
  match goal with H : step _ _ ?b |- live ?b => exact (step_live _ _ _ H) | |- live _ => assumption end.

Create HintDb safe.

(** Use what is known of the calls that succeeded. *)
Ltac safe_facts :=
  repeat match goal with
  | H : ?rc = 0 -> _, E : ?rc = 0 |- _ => specialize (H E)
  | H : _ /\ clean _ |- _ => destruct H
  end.
(** Forget the calls the goal is not about. *)
Ltac safe_trim :=
  safe_facts;
  repeat match goal with
  | H : ?rc = 0 \/ _ |- ?G => lazymatch G with context [rc] => fail | _ => clear H end
  | H : ?rc = 0 -> _ |- _ => clear H
  | H : ?rc <> 0 -> _ |- _ => clear H
  | H : step _ _ _ |- _ => clear H
  end.
Ltac kind_bounds := repeat match goal with H : kind_nonneg _ _ |- _ => cbn in H end.

Ltac safe_code := unfold errno, refusal in *; safe_trim; unfold clean in *; first [lia | kind_bounds; lia].

Ltac safe_side := first [step_done | assumption | reflexivity | (safe_trim; kind_bounds; lia)].

Ltac safe_call :=
  lazymatch goal with
  | |- wp (mret _) _ _ => apply wp_ret
  | |- wp (_ ≫= _) _ _ => apply wp_bind
  | |- wp (checked _ _ _) _ _ => unfold checked at 1
  | |- wp (checked_errno _ _ _) _ _ => unfold checked_errno at 1
  | |- wp (checked_cc _ _ _) _ _ => unfold checked_cc at 1
  | |- wp (finish _ _) _ _ => unfold finish, finish_xlate
  | |- wp (finish_errno _ _) _ _ => unfold finish_errno
  | |- wp (refuse _ _) _ _ => unfold refuse
  | |- wp (pldm_msgbuf_extract _ _) _ _ => apply safe_extract; [step_done|intros ? ? ? ? ? ? ?]
  | |- wp (pldm__msgbuf_extract_uint8_to_size _) _ _ =>
      apply (safe_to_size _ KU8 _ _ _ (fun _ => eq_refl)); [step_done|intros ? ? ? ? ? ? ?]
  | |- wp (pldm__msgbuf_extract_uint16_to_size _) _ _ =>
      apply (safe_to_size _ KU16 _ _ _ (fun _ => eq_refl)); [step_done|intros ? ? ? ? ? ? ?]
  | |- wp (pldm__msgbuf_extract_uint32_to_size _) _ _ =>
      apply (safe_to_size _ KU32 _ _ _ (fun _ => eq_refl)); [step_done|intros ? ? ? ? ? ? ?]
  | |- wp (pldm__msgbuf_extract_array_void _ _ _) _ _ =>
      apply safe_array; [step_done|safe_side|safe_side|intros ? ? ? ? ? ? ? ?]
  | |- wp (pldm_msgbuf_extract_array_uint8 _ _ _) _ _ => unfold pldm_msgbuf_extract_array_uint8
  | |- wp (pldm_msgbuf_ro_span_required _ _) _ _ => unfold pldm_msgbuf_ro_span_required
  | |- wp (pldm__msgbuf_span_required _ _) _ _ => apply safe_span; [step_done|safe_side|intros ? ? ? ? ? ? ?]
  | |- wp (pldm_msgbuf_ro_span_remaining _ _) _ _ => unfold pldm_msgbuf_ro_span_remaining
  | |- wp (pldm__msgbuf_span_remaining _ _) _ _ =>
      apply safe_span_remaining; [step_done|intros ? ? ? ? ? ? ? ?]
  | |- wp pldm_msgbuf_ro_complete _ _ => apply safe_complete; intros ? ? ? ? ?
  | |- wp pldm_msgbuf_ro_complete_consumed _ _ => apply safe_consumed; intros ? ? ? ? ?
  | |- wp (pldm_msgbuf_ro_discard _) _ _ => unfold pldm_msgbuf_ro_discard; apply wp_discard; intros ? ? ?
  | |- wp (discard_xlate _) _ _ => apply safe_discard_xlate; [safe_code|intros ? ? ? ?]
  | |- wp (lift (pldm_xlate_errno _)) _ _ => apply safe_xlate; [safe_code|intros ? ?]
  | |- wp (each ?f _ _) _ _ =>
      apply (safe_each f);
      [solve [auto with safe]|step_done|first [safe_side | (eapply Nat.le_trans; [|eassumption]; safe_side)]|intros ? ? ? ? ? ?]
  | |- wp (if _ then _ else _) _ _ => cmp_case
  | |- wp (match ?o with Some _ => _ | None => _ end) _ _ => let E := fresh "E" in destruct o eqn:E
  | |- wp _ _ _ => progress autounfold with safe
  | |- ends _ _ _ _ => unfold ends; split; [assumption|]; split; [safe_code|]
  end; cbv beta iota.

Ltac run_safe := repeat safe_call.


Ltac split_pairs := repeat match goal with x : (_ * _)%type |- _ => destruct x end.

(** A message decoder around its buffer. *)
Ltac safe_scope :=
  lazymatch goal with
  | |- returns _ _ (if _ then _ else _) => cmp_case
  | |- returns _ _ (outs2 (_ ≫= _)) => rewrite outs2_bind
  | |- returns _ _ (outs3 (_ ≫= _)) => rewrite outs3_bind
  | |- returns _ _ (outs2 (if _ then _ else _)) => cmp_case
  | |- returns _ _ (outs3 (if _ then _ else _)) => cmp_case
  | |- returns _ _ (outs2 _) => unfold outs2; cbn [mbind outcome_bind mret outcome_ret]
  | |- returns _ _ (outs3 _) => unfold outs3; cbn [mbind outcome_bind mret outcome_ret]
  | |- returns _ _ (Ok _) => apply returns_ok; [safe_code|done]
  | |- returns _ _ (mret _) => apply returns_ok; [safe_code|done]
  | |- returns _ _ (pldm_msg_has_error _ _ ≫= _) =>
      rewrite has_error_ok by assumption; cbn [mbind outcome_bind]
  | |- returns _ _ (errno_scope _ _ _ _ _) => apply errno_scope_safe; [assumption..|safe_code|intros]
  | |- returns ?code _ (legacy_decode _ _ _ _ _ ≫= _) =>
      unfold legacy_decode; cbn [payload]
  | |- returns ?code _ (decode_frame ?k (Msg _ ?m) ?l ?i ?b ≫= ?c) =>
      change (decode_frame k (Msg _ m) l i b) with (errno_scope k m l i b)
  | |- returns _ _ (decode_frame ?k (Msg _ ?m) ?l ?i ?b) =>
      change (decode_frame k (Msg _ m) l i b) with (errno_scope k m l i b)
  | |- returns _ _ (member (Msg _ _) _ _ ≫= _) =>
      unfold member, payload_read; rewrite obind_bind; cbn [payload]
  | |- returns _ _ (payload_read (Msg _ _) _ _ ≫= _) => unfold payload_read; cbn [payload]
  | |- returns _ _ (mem_le _ _ _ ≫= _) => unfold mem_le
  | |- returns _ _ ((_ ≫= _) ≫= _) => rewrite obind_bind
  | |- returns _ _ (mem_read _ _ _ ≫= _) =>
      apply returns_read; [lia|intros ? ?]; cbn [mbind outcome_bind mret outcome_ret]
  | |- returns _ _ (array_store _ _ ≫= _) => apply returns_store; [lia|]
  | |- returns ?code _ (legacy_scope _ _ _ _ _ ≫= _) =>
      eapply (returns_bind code anything); [apply legacy_scope_safe; [assumption..|safe_code|intros]|intros ? ?; split_pairs; intros ? ?]
  | |- returns ?code _ (errno_scope _ _ _ _ _ ≫= _) =>
      eapply (returns_bind code anything); [apply errno_scope_safe; [assumption..|safe_code|intros]|intros ? ?; split_pairs; intros ? ?]
  end; cbv beta iota.

Ltac safe_decode := repeat safe_scope; run_safe; try done.
