(* ===== verification/Control.v ===== *)
(** * The control responder (src/control.c)

    A terminus that answers GetTID, GetPLDMVersion, GetPLDMTypes and
    GetPLDMCommands from a small table of registered types. *)

From S2P Require Import Prelude Msgbuf Utils Base.

Abbreviation PLDM_CONTROL_MAX_VERSION_TYPES := 6%nat (only parsing).
Abbreviation PLDM_CONTROL_INVALID_TRANSFER_OPERATION_FLAG := 0x81 (only parsing).
Abbreviation PLDM_CONTROL_INVALID_PLDM_TYPE_IN_REQUEST_DATA := 0x83 (only parsing).
Abbreviation PLDM_GET_FIRSTPART := 1 (only parsing).
Abbreviation PLDM_GET_TID_REQ_BYTES := 0 (only parsing).
Abbreviation PLDM_GET_TYPES_REQ_BYTES := 0 (only parsing).
Abbreviation PLDM_TID_UNASSIGNED := 0 (only parsing).

(** ** State *)

(** [tv_versions] is NULL for an unused entry. *)
Record pldm_type_versions := TypeVersions {
  tv_versions : ptr; tv_versions_count : Z; tv_commands : ptr; tv_pldm_type : Z
}.

Record pldm_control := Control { types : list pldm_type_versions }.

(** sizeof(struct pldm_control): two pointers and two padded bytes per entry. *)
Definition sizeof_pldm_control : Z := 32 * Z.of_nat PLDM_CONTROL_MAX_VERSION_TYPES.

Definition is_null (p : ptr) : bool := match p with None => true | Some _ => false end.

(** The first entry the search loops of the handlers stop at. *)
Fixpoint find_entry (p : pldm_type_versions -> bool) (l : list pldm_type_versions) : option nat :=
  match l with
  | [] => None
  | v :: l => if p v then Some O else S <$> find_entry p l
  end.

(** ** Registration *)

Definition pldm_control_add_type (control : pldm_control) (pldm_type : Z) (versions : ptr)
    (versions_count : Z) (commands : ptr) : Z * pldm_control :=
  if versions_count <? 2 then (- EINVAL, control)
  else
    match find_entry (fun v => is_null (tv_versions v)
             || negb (is_null (tv_versions v)) && (tv_pldm_type v =? pldm_type)) (types control) with
    | None => (- ENOMEM, control)
    | Some i =>
      (0, Control (<[i := TypeVersions versions (u8 versions_count) commands pldm_type]> (types control)))
    end.

(** The static objects the base type is registered with. *)
Definition PLDM_BASE_VERSIONS : cmem :=
  CMem 0x1000 (le_enc 4 0xf1f1f000 ++ le_enc 4 0x539dbeba).
Abbreviation PLDM_BASE_VERSIONS_COUNT := 2 (only parsing).
Definition PLDM_CONTROL_COMMANDS : cmem :=
  CMem 0x2000 (Z.lor (Z.shiftl 1 PLDM_GET_TID) (Z.lor (Z.shiftl 1 PLDM_GET_PLDM_VERSION)
    (Z.lor (Z.shiftl 1 PLDM_GET_PLDM_TYPES) (Z.shiftl 1 PLDM_GET_PLDM_COMMANDS)))
    :: replicate 31 0).

Definition pldm_control_setup (control : pldm_control) (pldm_control_size : Z) : Z * pldm_control :=
  if pldm_control_size <? sizeof_pldm_control then (- EINVAL, control)
  else
    let control := Control (replicate PLDM_CONTROL_MAX_VERSION_TYPES (TypeVersions None 0 None 0)) in
    let '(rc, control) := pldm_control_add_type control PLDM_BASE (Some PLDM_BASE_VERSIONS)
                            PLDM_BASE_VERSIONS_COUNT (Some PLDM_CONTROL_COMMANDS) in
    if_err rc return_ (rc, control);;
    (0, control).

(** ** Requests

    Every handler takes the response message and its payload length, and returns
    both. *)

Definition pldm_control_reply_error (ccode : Z) (req_hdr : pldm_header_info) (resp : pldm_msg)
    (resp_payload_len : Z) : outcome (Z * pldm_msg * Z) :=
  if resp_payload_len <? 1 then Ok (- EOVERFLOW, resp, resp_payload_len)
  else
    '(rc, r) ← encode_cc_only_resp (instance req_hdr) PLDM_BASE (hi_command req_hdr) ccode (Some resp);
    let resp := default resp r in
    if negb (rc =? PLDM_SUCCESS) then mret (- EINVAL, resp, 1) else mret (0, resp, 1).

(** The results of an encoder that was given a message and a length. *)
Definition encoded (resp : pldm_msg) (len : Z) (r : Z * option pldm_msg * option Z) : Z * pldm_msg * Z :=
  let '(rc, m, l) := r in (rc, default resp m, default len l).

Definition pldm_control_get_tid (hdr : pldm_header_info) (req_payload_len : Z) (resp : pldm_msg)
    (resp_payload_len : Z) : outcome (Z * pldm_msg * Z) :=
  if negb (req_payload_len =? PLDM_GET_TID_REQ_BYTES) then
    pldm_control_reply_error PLDM_ERROR_INVALID_LENGTH hdr resp resp_payload_len
  else
    r ← encode_pldm_base_get_tid_resp (instance hdr)
          (Some (TidResp PLDM_SUCCESS PLDM_TID_UNASSIGNED)) (Some resp) (Some resp_payload_len);
    mret (encoded resp resp_payload_len r).

Definition pldm_control_get_version (control : pldm_control) (hdr : pldm_header_info)
    (req : pldm_msg) (req_payload_len : Z) (resp : pldm_msg) (resp_payload_len : Z)
  : outcome (Z * pldm_msg * Z) :=
  '(cc, handle, opflag, type) ← decode_get_version_req req req_payload_len 0 0 0;
  if negb (cc =? 0) then pldm_control_reply_error cc hdr resp resp_payload_len
  else if negb (opflag =? PLDM_GET_FIRSTPART) then
    pldm_control_reply_error PLDM_CONTROL_INVALID_TRANSFER_OPERATION_FLAG hdr resp resp_payload_len
  else
    match find_entry (fun v => (tv_pldm_type v =? type) && negb (is_null (tv_versions v)))
            (types control) with
    | None =>
      pldm_control_reply_error PLDM_CONTROL_INVALID_PLDM_TYPE_IN_REQUEST_DATA hdr resp
        resp_payload_len
    | Some i =>
      match types control !! i with
      | None => Fault FMemory
      | Some v =>
        let required := u32 (1 + 4 + 1 + tv_versions_count v * 4) in
        if resp_payload_len <? required then Ok (- EOVERFLOW, resp, resp_payload_len)
        else
          '(cc, r) ← encode_get_version_resp (instance hdr) PLDM_SUCCESS 0 PLDM_START_AND_END
                       (tv_versions v) (tv_versions_count v * 4) (Some resp);
          let resp := default resp r in
          if negb (cc =? 0) then pldm_control_reply_error cc hdr resp required
          else mret (0, resp, required)
      end
    end.

(** [1 << (ty % 8)] in byte [ty / 8]. *)
Definition set_type_bit (l : list Z) (ty : Z) : list Z :=
  let i := Z.to_nat (ty / 8) in
  match l !! i with
  | Some b => <[i := u8 (Z.lor b (u8 (Z.shiftl 1 (ty mod 8))))]> l
  | None => l
  end.

Definition types_bitmap (l : list pldm_type_versions) : list Z :=
  foldl (fun acc v =>
    if (tv_pldm_type v <? 64) && negb (is_null (tv_versions v))
    then set_type_bit acc (tv_pldm_type v) else acc) (replicate 8 0) l.

Definition pldm_control_get_types (control : pldm_control) (hdr : pldm_header_info)
    (req_payload_len : Z) (resp : pldm_msg) (resp_payload_len : Z) : outcome (Z * pldm_msg * Z) :=
  if negb (req_payload_len =? PLDM_GET_TYPES_REQ_BYTES) then
    pldm_control_reply_error PLDM_ERROR_INVALID_LENGTH hdr resp resp_payload_len
  else
    r ← encode_pldm_base_get_pldm_types_resp (instance hdr)
          (Some (TypesResp PLDM_SUCCESS (types_bitmap (types control)))) (Some resp)
          (Some resp_payload_len);
    mret (encoded resp resp_payload_len r).

Definition pldm_control_get_commands (control : pldm_control) (hdr : pldm_header_info)
    (req : pldm_msg) (req_payload_len : Z) (resp : pldm_msg) (resp_payload_len : Z)
  : outcome (Z * pldm_msg * Z) :=
  '(cc, ty, _) ← decode_get_commands_req (Some req) req_payload_len (Some 0) (Some (Ver32 0 0 0 0));
  if negb (cc =? 0) then pldm_control_reply_error cc hdr resp resp_payload_len
  else
    match find_entry (fun v => (tv_pldm_type v =? default 0 ty) && negb (is_null (tv_versions v))
                               && negb (is_null (tv_commands v))) (types control) with
    | None =>
      pldm_control_reply_error PLDM_CONTROL_INVALID_PLDM_TYPE_IN_REQUEST_DATA hdr resp
        resp_payload_len
    | Some i =>
      match types control !! i with
      | None => Fault FMemory
      | Some v =>
        let required := 1 + 32 in
        if resp_payload_len <? required then Ok (- EOVERFLOW, resp, resp_payload_len)
        else
          '(cc, r) ← encode_get_commands_resp (instance hdr) PLDM_SUCCESS (tv_commands v) (Some resp);
          let resp := default resp r in
          if negb (cc =? 0) then pldm_control_reply_error cc hdr resp required
          else mret (0, resp, required)
      end
    end.

(** The response buffer and [*resp_len] are returned as they are left. *)
Definition pldm_control_handle_msg (control : pldm_control) (req_msg : cmem) (req_len : Z)
    (resp_msg : cmem) (resp_len : Z) : outcome (Z * cmem * Z) :=
  if resp_len <? PLDM_MSG_HDR_SIZE + 1 then Ok (- EOVERFLOW, resp_msg, resp_len)
  else
  let resp_payload_len := resp_len - PLDM_MSG_HDR_SIZE in
  if req_len <? PLDM_MSG_HDR_SIZE then Ok (- EOVERFLOW, resp_msg, resp_len)
  else
  let req_payload_len := req_len - PLDM_MSG_HDR_SIZE in
  req ← msg_at req_msg;
  resp ← msg_at resp_msg;
  '(rc, hdr) ← unpack_pldm_header (Some (hdr req)) (Some (HeaderInfo 0 0 0 0 0));
  match hdr with
  | None => Fault FMemory
  | Some hdr =>
    if negb (rc =? PLDM_SUCCESS) then Ok (- EINVAL, resp_msg, resp_len)
    else if negb (pldm_type hdr =? PLDM_BASE) then Ok (- ENOMSG, resp_msg, resp_len)
    else if negb (msg_type hdr =? PLDM_REQUEST) then Ok (- EINVAL, resp_msg, resp_len)
    else
      '(rc, resp, resp_payload_len) ←
        (if hi_command hdr =? PLDM_GET_TID then
           pldm_control_get_tid hdr req_payload_len resp resp_payload_len
         else if hi_command hdr =? PLDM_GET_PLDM_VERSION then
           pldm_control_get_version control hdr req req_payload_len resp resp_payload_len
         else if hi_command hdr =? PLDM_GET_PLDM_TYPES then
           pldm_control_get_types control hdr req_payload_len resp resp_payload_len
         else if hi_command hdr =? PLDM_GET_PLDM_COMMANDS then
           pldm_control_get_commands control hdr req req_payload_len resp resp_payload_len
         else pldm_control_reply_error PLDM_ERROR_UNSUPPORTED_PLDM_CMD hdr resp resp_payload_len);
      mret (rc, msg_bytes (addr resp_msg) resp,
            if rc =? 0 then resp_payload_len + PLDM_MSG_HDR_SIZE else resp_len)
  end.

(** ** Registration as a map *)

(** The entry a type is served from. *)
Fixpoint lookup_type (l : list pldm_type_versions) (t : Z) : option pldm_type_versions :=
  match l with
  | [] => None
  | v :: l => if (tv_pldm_type v =? t) && negb (is_null (tv_versions v)) then Some v else lookup_type l t
  end.

Abbreviation unused v := (tv_versions v = None) (only parsing).

(** Used entries come first and no type has two. *)
Fixpoint slots_ok (l : list pldm_type_versions) : Prop :=
  match l with
  | [] => True
  | v :: l =>
    match tv_versions v with
    | None => Forall (fun w => unused w) l
    | Some _ => Forall (fun w => unused w \/ tv_pldm_type w <> tv_pldm_type v) l /\ slots_ok l
    end
  end.

Lemma slots_ok_unused l : Forall (fun w => unused w) l -> slots_ok l.
Proof. destruct 1 as [|v l Hv Hl]; [done|]. cbn. by rewrite Hv. Qed.

Lemma lookup_unused l t : Forall (fun w => unused w) l -> lookup_type l t = None.
Proof. induction 1 as [|v l Hv Hl IH]; [done|]. cbn. rewrite Hv, andb_false_r. exact IH. Qed.

Lemma lookup_other l v t :
  Forall (fun w => unused w \/ tv_pldm_type w <> tv_pldm_type v) l -> tv_pldm_type v = t ->
  lookup_type l t = None.
Proof.
  induction 1 as [|w l Hw Hl IH]; intros Ht; [done|]. cbn.
  destruct Hw as [Hw|Hw]; [by rewrite Hw, andb_false_r, IH|].
  destruct (Z.eqb_spec (tv_pldm_type w) t); [congruence|]. by rewrite IH.
Qed.

(** The guard of the slot search in pldm_control_add_type(). *)
Abbreviation slot_for ty := (fun v => is_null (tv_versions v)
  || negb (is_null (tv_versions v)) && (tv_pldm_type v =? ty)) (only parsing).

Lemma find_slot_insert l ty i new p :
  slots_ok l -> find_entry (slot_for ty) l = Some i ->
  tv_versions new = Some p -> tv_pldm_type new = ty ->
  slots_ok (<[i := new]> l) /\
  (forall w, w ∈ <[i := new]> l -> w = new \/ w ∈ l) /\
  forall t, lookup_type (<[i := new]> l) t = if t =? ty then Some new else lookup_type l t.
Proof.
  intros Hl Hi Hp Hty. revert i Hi. induction l as [|v l IH]; intros i; [done|]. cbn [find_entry].
  destruct (tv_versions v) as [pv|] eqn:Ev; cbn [is_null negb andb orb slots_ok] in *; rewrite Ev in Hl.
  - destruct Hl as [Hne Hl]. destruct (Z.eqb_spec (tv_pldm_type v) ty) as [Ety|Ety].
    + intros [= <-]. cbn [insert list_insert slots_ok lookup_type]. rewrite Hp, Hty. cbn [is_null negb].
      rewrite ?Ev. cbn [is_null negb]. split_and!.
      * by rewrite <- Ety.
      * done.
      * intros w. rewrite !elem_of_cons. tauto.
      * intros t. rewrite !andb_true_r, (Z.eqb_sym t), Ety. by destruct (ty =? t).
    + destruct (find_entry _ l) as [j|] eqn:Ej; [|done]. intros [= <-].
      destruct (IH Hl j eq_refl) as (Hok & Hin & Hlk).
      cbn [insert list_insert slots_ok lookup_type]. rewrite ?Ev. cbn [is_null negb].
      split_and!.
      * apply Forall_elem. intros w Hw. destruct (Hin w Hw) as [->|Hw']; [right; congruence|].
        rewrite Forall_elem in Hne. by apply Hne.
      * done.
      * intros w. rewrite !elem_of_cons. intros [->|Hw]; [tauto|]. destruct (Hin w Hw); tauto.
      * intros t. rewrite andb_true_r, Hlk. destruct (Z.eqb_spec (tv_pldm_type v) t), (Z.eqb_spec t ty); congruence.
  - intros [= <-]. cbn [insert list_insert slots_ok lookup_type]. rewrite Hp, Hty, ?Ev. cbn [is_null negb].
    split_and!.
    + eapply Forall_impl; [|exact Hl]. intros w ?. by left.
    + by apply slots_ok_unused.
    + intros w. rewrite !elem_of_cons. tauto.
    + intros t. rewrite andb_true_r, andb_false_r, (Z.eqb_sym t), lookup_unused by done. done.
Qed.

Lemma find_slot_full l ty :
  find_entry (slot_for ty) l = None ->
  lookup_type l ty = None /\ Forall (fun v => tv_versions v <> None) l.
Proof.
  induction l as [|v l IH]; [done|]. cbn [find_entry lookup_type].
  destruct (tv_versions v) as [p|] eqn:Ev; cbn [is_null negb andb orb]; [|done].
  destruct (tv_pldm_type v =? ty); [done|]. cbn [andb].
  destruct (find_entry _ l); [done|]. intros _. destruct IH as [IH1 IH2]; [done|].
  split; [done|]. constructor; [congruence|done].
Qed.

(** What the handlers rely on: six entries, and the registered objects are as
    large as their counts say. *)
Definition entry_ok (v : pldm_type_versions) : Prop :=
  0 <= tv_versions_count v < 256 /\ byte_ok (tv_pldm_type v) /\
  match tv_versions v with
  | Some m => 4 * tv_versions_count v <= mem_size m
  | None => True
  end /\
  match tv_commands v with Some m => 32 <= mem_size m | None => True end.

Record control_ok (c : pldm_control) : Prop := {
  control_length : length (types c) = PLDM_CONTROL_MAX_VERSION_TYPES;
  control_slots : slots_ok (types c);
  control_entries : Forall entry_ok (types c)
}.

Lemma control_initial_ok :
  control_ok (Control (TypeVersions (Some PLDM_BASE_VERSIONS) 2 (Some PLDM_CONTROL_COMMANDS) PLDM_BASE
    :: replicate 5 (TypeVersions None 0 None 0))).
Proof.
  constructor; [done|cbn; split; repeat constructor|].
  cbn [types replicate].
  repeat (apply List.Forall_cons; [unfold entry_ok, byte_ok, mem_size; cbn; split_and!; done || lia|]).
  constructor.
Qed.

Lemma add_type_ok c ty m count commands :
  control_ok c -> byte_ok ty -> count < 256 -> 4 * count <= mem_size m ->
  match commands with Some m => 32 <= mem_size m | None => True end ->
  let '(rc, c') := pldm_control_add_type c ty (Some m) count commands in
  control_ok c' /\
  (rc = 0 -> 2 <= count /\ forall t, lookup_type (types c') t =
     if t =? ty then Some (TypeVersions (Some m) count commands ty) else lookup_type (types c) t) /\
  (rc <> 0 -> c' = c) /\
  (rc = - EINVAL <-> count < 2) /\
  (rc = - ENOMEM <-> 2 <= count /\ lookup_type (types c) ty = None /\
                     Forall (fun v => tv_versions v <> None) (types c)) /\
  (rc = 0 \/ rc = - EINVAL \/ rc = - ENOMEM).
Proof.
  intros [Hlen Hslots Hent] Hty Hcount Hm Hcmd. unfold pldm_control_add_type.
  destruct (Z.ltb_spec count 2).
  { split; [by constructor|]. split_and!; try lia; done. }
  destruct (find_entry _ (types c)) as [i|] eqn:Ei.
  - assert (u8 count = count) as Hu by (unfold u8; apply Z.mod_small; lia). rewrite Hu.
    destruct (find_slot_insert (types c) ty i (TypeVersions (Some m) count commands ty) m)
      as (H1 & H2 & H3); [done..|].
    split.
    { constructor; cbn [types]; [by rewrite length_insert|done|]. apply Forall_elem. intros w Hw.
      destruct (H2 w Hw) as [->|Hin]; [|rewrite Forall_elem in Hent; by apply Hent].
      split_and!; cbn; try done; try lia. }
    split; [intros _; split; [lia|exact H3]|]. split; [done|]. split; [lia|].
    split; [|by left]. split; [done|]. intros (_ & Hnone & Hfull).
    exfalso. clear -Ei Hnone Hfull. revert i Ei. induction (types c) as [|v l IH]; intros i; [done|].
    apply Forall_cons_1 in Hfull as [Hv Hfull]. cbn [find_entry lookup_type] in *.
    destruct (tv_versions v); [|done]. cbn [is_null negb andb orb] in *. rewrite andb_true_r in Hnone.
    destruct (tv_pldm_type v =? ty); [done|]. destruct (find_entry _ l) as [j|]; [|done].
    intros _. by eapply IH.
  - apply find_slot_full in Ei as [H1 H2]. split; [by constructor|]. split_and!; try lia; done.
Qed.

(** C7: the type table is a bounded map.  Setting up a control and adding types to
    it keep the table well formed; a successful registration binds the type to the
    versions and commands given and leaves the bindings of the other types alone,
    replacing an earlier registration of the same type in place.  It fails, without
    effect, with -EINVAL exactly for fewer than two version entries and with
    -ENOMEM exactly when all six entries are taken by other types. *)
Theorem control_add_type_map c ty m count commands :
  control_ok c -> byte_ok ty -> count < 256 -> 4 * count <= mem_size m ->
  match commands with Some m => 32 <= mem_size m | None => True end ->
  (let '(rc, c') := pldm_control_add_type c ty (Some m) count commands in
   control_ok c' /\
   (rc = 0 -> 2 <= count /\ forall t, lookup_type (types c') t =
      if t =? ty then Some (TypeVersions (Some m) count commands ty) else lookup_type (types c) t) /\
   (rc <> 0 -> c' = c) /\
   (rc = - EINVAL <-> count < 2) /\
   (rc = - ENOMEM <-> 2 <= count /\ lookup_type (types c) ty = None /\
                      Forall (fun v => tv_versions v <> None) (types c)) /\
   (rc = 0 \/ rc = - EINVAL \/ rc = - ENOMEM)) /\
  (let '(rc, c') := pldm_control_setup c sizeof_pldm_control in
   rc = 0 /\ control_ok c' /\
   forall t, lookup_type (types c') t =
     if t =? PLDM_BASE
     then Some (TypeVersions (Some PLDM_BASE_VERSIONS) 2 (Some PLDM_CONTROL_COMMANDS) PLDM_BASE)
     else None).
Proof.
  intros Hc Hty Hcount Hm Hcmd. split; [by apply add_type_ok|].
  cbn. split; [done|]. split.
  - apply control_initial_ok.
  - intros t. by destruct t.
Qed.

Lemma control_add_type_map_witness :
  let c := snd (pldm_control_setup (Control []) sizeof_pldm_control) in
  let m := CMem 512 (replicate 8 7) in
  control_ok c /\
  (let '(rc, c') := pldm_control_add_type c PLDM_FWUP (Some m) 2 None in
   control_ok c' /\
   (rc = 0 -> 2 <= 2 /\ forall t, lookup_type (types c') t =
      if t =? PLDM_FWUP then Some (TypeVersions (Some m) 2 None PLDM_FWUP) else lookup_type (types c) t) /\
   (rc <> 0 -> c' = c) /\
   (rc = - EINVAL <-> 2 < 2) /\
   (rc = - ENOMEM <-> 2 <= 2 /\ lookup_type (types c) PLDM_FWUP = None /\
                      Forall (fun v => tv_versions v <> None) (types c)) /\
   (rc = 0 \/ rc = - EINVAL \/ rc = - ENOMEM)).
Proof.
  intros c m. assert (control_ok c) as Hc.
  { apply control_initial_ok. }
  split; [exact Hc|]. apply (control_add_type_map c PLDM_FWUP m 2 None); [exact Hc|concrete..].
Defined.

(** ** The type bitmap *)

Definition bitmap_bit (bm : list Z) (t : Z) : bool :=
  Z.testbit (default 0 (bm !! Z.to_nat (t / 8))) (t mod 8).

Lemma testbit_u8 x j : 0 <= j < 8 -> Z.testbit (u8 x) j = Z.testbit x j.
Proof. intros. unfold u8. change 256 with (2 ^ 8). apply Z.mod_pow2_bits_low. lia. Qed.

Lemma set_type_bit_ok bm ty :
  length bm = 8%nat -> bytes_ok bm -> 0 <= ty < 64 ->
  length (set_type_bit bm ty) = 8%nat /\ bytes_ok (set_type_bit bm ty) /\
  forall t, 0 <= t < 64 -> bitmap_bit (set_type_bit bm ty) t = (t =? ty) || bitmap_bit bm t.
Proof.
  intros Hlen Hok Hty. unfold set_type_bit.
  assert (0 <= ty / 8 < 8) by (split; [apply Z.div_pos|apply Z.div_lt_upper_bound]; lia).
  destruct (lookup_lt_is_Some_2 bm (Z.to_nat (ty / 8))) as [b Hb]; [lia|]. rewrite Hb.
  split; [by rewrite length_insert|]. split.
  { apply Forall_insert; [done|]. unfold byte_ok, u8. apply Z.mod_pos_bound. lia. }
  intros t Ht. unfold bitmap_bit.
  pose proof (Z.mod_pos_bound t 8). pose proof (Z.mod_pos_bound ty 8).
  assert (0 <= t / 8) by (apply Z.div_pos; lia).
  destruct (Z.eqb_spec (t / 8) (ty / 8)) as [E|E].
  - rewrite E, list_lookup_insert_eq by lia. rewrite Hb. cbn [default from_option id].
    rewrite testbit_u8, Z.lor_spec, testbit_u8 by lia. rewrite orb_comm. f_equal.
    destruct (Z.eqb_spec t ty) as [->|Hne].
    + rewrite Z.shiftl_spec, Z.sub_diag by lia. done.
    + assert (t mod 8 <> ty mod 8) by (intros E'; apply Hne; Z.div_mod_to_equations; lia).
      destruct (Z.lt_ge_cases (t mod 8) (ty mod 8)).
      * by rewrite Z.shiftl_spec_low.
      * rewrite Z.shiftl_spec_high by lia. apply Z.bits_above_log2; [lia|]. cbn. lia.
  - rewrite list_lookup_insert_ne by lia. destruct (Z.eqb_spec t ty) as [->|]; [done|]. done.
Qed.

Lemma lookup_type_existsb l t :
  existsb (fun v => (tv_pldm_type v =? t) && negb (is_null (tv_versions v))) l
  = match lookup_type l t with Some _ => true | None => false end.
Proof. induction l as [|v l IH]; [done|]. cbn. by destruct (_ && _). Qed.

Lemma types_bitmap_ok l :
  Forall entry_ok l ->
  length (types_bitmap l) = 8%nat /\ bytes_ok (types_bitmap l) /\
  forall t, 0 <= t < 64 ->
    bitmap_bit (types_bitmap l) t = match lookup_type l t with Some _ => true | None => false end.
Proof.
  intros Hl. unfold types_bitmap.
  enough (forall acc, length acc = 8%nat -> bytes_ok acc ->
    let bm := foldl (fun acc v =>
      if (tv_pldm_type v <? 64) && negb (is_null (tv_versions v))
      then set_type_bit acc (tv_pldm_type v) else acc) acc l in
    length bm = 8%nat /\ bytes_ok bm /\
    forall t, 0 <= t < 64 -> bitmap_bit bm t
      = bitmap_bit acc t || existsb (fun v => (tv_pldm_type v =? t) && negb (is_null (tv_versions v))) l)
    as Hfold.
  { destruct (Hfold (replicate 8 0)) as (H1 & H2 & H3); [done|repeat constructor; done|].
    split_and!; [done|done|]. intros t Ht. rewrite H3, <- lookup_type_existsb by done.
    unfold bitmap_bit. rewrite lookup_replicate_2; [by rewrite Z.testbit_0_l|].
    pose proof (Z.div_lt_upper_bound t 8 8). pose proof (Z.div_pos t 8). lia. }
  induction Hl as [|v l (Hv1 & Hv2 & _) Hl IH]; intros acc Hlen Hok; cbn [foldl existsb].
  { split_and!; [done|done|]. intros. by rewrite orb_false_r. }
  unfold byte_ok in Hv2. destruct (Z.ltb_spec (tv_pldm_type v) 64); cbn [andb].
  - destruct (negb (is_null (tv_versions v))).
    + destruct (set_type_bit_ok acc (tv_pldm_type v)) as (H1 & H2 & H3); [done|done|lia|].
      destruct (IH _ H1 H2) as (H4 & H5 & H6). split_and!; [done|done|].
      intros t Ht. rewrite H6, H3 by done. rewrite (Z.eqb_sym t), andb_true_r.
      rewrite (orb_comm (_ =? _)), <- orb_assoc. done.
    + destruct (IH _ Hlen Hok) as (H4 & H5 & H6). split_and!; [done|done|].
      intros t Ht. rewrite H6, andb_false_r by done. done.
  - destruct (IH _ Hlen Hok) as (H4 & H5 & H6). split_and!; [done|done|].
    intros t Ht. rewrite H6 by done. replace (tv_pldm_type v =? t) with false by lia. done.
Qed.

(** GetPLDMTypes reports the table.  For a well-formed table and a response
    buffer with room for it, the answer decodes to a bitmap in which the bit of each
    type below 64 is set exactly when versions are registered for the type. *)
Lemma get_types_reports c hdr resp len t0 :
  control_ok c -> 0 <= instance hdr <= 31 -> mem_ok (payload resp) ->
  9 <= len <= mem_size (payload resp) -> length (types_pldm_types t0) = 8%nat ->
  exists resp' bm,
    pldm_control_get_types c hdr 0 resp len = Ok (0, resp', 9) /\
    decode_pldm_base_get_pldm_types_resp (Some resp') 9 (Some t0)
    = Ok (0, Some (TypesResp PLDM_SUCCESS bm)) /\
    forall t, 0 <= t < 64 ->
      bitmap_bit bm t = match lookup_type (types c) t with Some _ => true | None => false end.
Proof.
  intros [_ _ Hent] Hinst Hm Hlen Ht0.
  destruct (types_bitmap_ok _ Hent) as (H8 & Hok & Hbits).
  unfold pldm_control_get_types. cbn [negb Z.eqb].
  rewrite types_encode by (done || lia). cbn [mbind outcome_bind].
  do 2 eexists. split; [reflexivity|]. cbn [encoded default from_option]. split; [|exact Hbits].
  assert (Z.of_nat (length (types_wire (types_bitmap (types c)))) = 9) as Hw.
  { unfold types_wire. by rewrite length_app, length_concat_enc1, H8. }
  apply types_decode_wire; [done..|].
  apply (mem_ok_wrote (payload resp) (types_wire _)); [done| |lia].
  by apply types_wire_ok.
Qed.

(** ** Answers *)

(** What a handler may do to the response it was given: fill it in as the response
    to [h] within the payload length, or fail for want of room. *)
Definition answers (h : pldm_header_info) (resp : pldm_msg) (len : Z) (r : Z * pldm_msg * Z) : Prop :=
  let '(rc, resp', len') := r in
  mem_size (payload resp') = mem_size (payload resp) /\
  (rc = 0 -> hdr resp' = packed PLDM_RESPONSE (instance h) PLDM_BASE (hi_command h) /\
             1 <= len' <= len) /\
  (rc <> 0 -> rc = - EOVERFLOW).

Lemma encode_resp_frame_short inst cmd minsize msg len body :
  0 <= inst <= 31 -> 1 <= len -> len < minsize ->
  encode_resp_frame inst cmd 0 minsize msg len body
  = Ok (- EOVERFLOW, Some (Msg (packed PLDM_RESPONSE inst PLDM_BASE cmd) (payload msg)), Some len).
Proof.
  intros Hinst Hlen Hmin. unfold encode_resp_frame. cmp_case; [lia|].
  rewrite pack_into_ok by (repeat constructor || lia). cbn [payload hdr negb]. rewrite Z.eqb_refl.
  unfold msgbuf_scope, pldm_msgbuf_rw_init_errno, pldm__msgbuf_init_errno.
  cbn [negb Z.eqb]. unfold mbind, outcome_bind, stM_bind. cmp_case; [|lia]. done.
Qed.

Section answers.
Context (h : pldm_header_info) (resp : pldm_msg) (len : Z).
Hypothesis Hinst : 0 <= instance h <= 31.
Hypothesis Hmem : mem_ok (payload resp).
Hypothesis Hlen : 1 <= len <= mem_size (payload resp).

Lemma size_wrote out : Z.of_nat (length out) <= mem_size (payload resp) ->
  mem_size (wrote (payload resp) out) = mem_size (payload resp).
Proof. intros. apply mem_size_wrote. unfold mem_size in *. lia. Qed.

Lemma reply_error_answers cc :
  exists r, pldm_control_reply_error cc h resp len = Ok r /\ answers h resp len r.
Proof.
  unfold pldm_control_reply_error, encode_cc_only_resp. cmp_case; [lia|].
  rewrite legacy_frame_ok by (repeat constructor || lia).
  rewrite payload_write_next by (cbn; lia). cbn [mbind outcome_bind].
  eexists. split; [reflexivity|]. cbn. rewrite size_wrote by (cbn; lia).
  split_and!; [done| |done]. intros _. split; [done|lia].
Qed.

(** An answer that [w] describes, of [n] bytes. *)
Lemma answers_wrote w n cmd :
  cmd = hi_command h -> Z.of_nat (length w) <= mem_size (payload resp) -> 1 <= n <= len ->
  answers h resp len
    (0, Msg (packed PLDM_RESPONSE (instance h) PLDM_BASE cmd) (wrote (payload resp) w), n).
Proof. intros -> Hw Hn. cbn. rewrite size_wrote by done. split; [done|]. split; done. Qed.

Lemma get_tid_answers req_len :
  hi_command h = PLDM_GET_TID ->
  exists r, pldm_control_get_tid h req_len resp len = Ok r /\ answers h resp len r.
Proof.
  intros Hcmd. unfold pldm_control_get_tid. destruct (negb _); [apply reply_error_answers|].
  destruct (Z.lt_ge_cases len 2).
  - unfold encode_pldm_base_get_tid_resp. rewrite encode_resp_frame_short by (done || lia).
    eexists. split; [reflexivity|]. cbn. split_and!; done.
  - rewrite tid_encode by (done || lia). eexists. split; [reflexivity|].
    apply answers_wrote; cbn; [done|lia|lia].
Qed.

Lemma get_types_answers c req_len :
  control_ok c -> hi_command h = PLDM_GET_PLDM_TYPES ->
  exists r, pldm_control_get_types c h req_len resp len = Ok r /\ answers h resp len r.
Proof.
  intros [_ _ Hent] Hcmd. unfold pldm_control_get_types.
  destruct (negb _); [apply reply_error_answers|].
  destruct (types_bitmap_ok _ Hent) as (H8 & Hok & _).
  destruct (Z.lt_ge_cases len 9).
  - unfold encode_pldm_base_get_pldm_types_resp. rewrite encode_resp_frame_short by (done || lia).
    eexists. split; [reflexivity|]. cbn. split_and!; done.
  - rewrite types_encode by (done || lia). eexists. split; [reflexivity|].
    apply answers_wrote; [done| |cbn; lia].
    unfold types_wire. rewrite length_app, length_concat_enc1, H8. cbn. lia.
Qed.

Lemma find_entry_some p l i :
  find_entry p l = Some i -> exists v, l !! i = Some v /\ p v = true.
Proof.
  revert i. induction l as [|v l IH]; intros i; [done|]. cbn [find_entry].
  destruct (p v) eqn:Ep; [intros [= <-]; by exists v|].
  destruct (find_entry p l) as [j|]; [|done]. intros [= <-]. cbn [lookup list_lookup]. by apply IH.
Qed.

Lemma found_entry c p i :
  control_ok c -> find_entry p (types c) = Some i ->
  exists v, types c !! i = Some v /\ p v = true /\ entry_ok v.
Proof.
  intros [_ _ Hent] Hi. apply find_entry_some in Hi as (v & Hv & Hp). exists v.
  split_and!; [done|done|]. rewrite Forall_elem in Hent. by apply Hent, list_elem_of_lookup_2 with i.
Qed.

Lemma get_version_answers c req req_len :
  control_ok c -> hi_command h = PLDM_GET_PLDM_VERSION -> 0 <= req_len <= mem_size (payload req) ->
  exists r, pldm_control_get_version c h req req_len resp len = Ok r /\ answers h resp len r.
Proof.
  intros Hc Hcmd Hreq. unfold pldm_control_get_version, decode_get_version_req.
  destruct (Z.eqb_spec req_len 6) as [->|]; cbn [negb mbind outcome_bind];
    [|apply reply_error_answers].
  unfold payload_read.
  destruct (mem_read_in (payload req) 0 4) as (? & -> & _); [lia..|].
  destruct (mem_read_in (payload req) 4 1) as (? & -> & _); [lia..|].
  destruct (mem_read_in (payload req) 5 1) as (? & -> & _); [lia..|].
  cbn [mbind outcome_bind mret outcome_ret negb Z.eqb].
  destruct (negb _); [apply reply_error_answers|].
  destruct (find_entry _ _) as [i|] eqn:Ei; [|apply reply_error_answers].
  destruct (found_entry c _ i Hc Ei) as (v & -> & Hp & Hcnt & _ & Hver & _).
  apply andb_prop in Hp as [_ Hp]. destruct (tv_versions v) as [m|]; [|done].
  unfold u32. rewrite Z.mod_small by lia. cmp_case.
  { eexists. split; [reflexivity|]. cbn. split_and!; done. }
  unfold encode_get_version_resp. rewrite legacy_frame_ok by (repeat constructor || lia).
  rewrite payload_write_next by (cbn; lia). cbn [mbind outcome_bind Z.eqb].
  rewrite payload_write_next by (rewrite ?length_app, ?le_enc_length; cbn; lia). cbn [mbind outcome_bind].
  rewrite payload_write_next by (rewrite ?length_app, ?le_enc_length; cbn; lia). cbn [mbind outcome_bind].
  destruct (mem_read_in m 0 (tv_versions_count v * 4)) as (l & -> & Hl & _); [lia..|].
  cbn [mbind outcome_bind].
  rewrite payload_write_next by (rewrite ?length_app, ?le_enc_length; cbn; lia). cbn [mbind outcome_bind].
  eexists. split; [reflexivity|]. apply answers_wrote; [done| |lia].
  rewrite !length_app, le_enc_length. cbn. lia.
Qed.

Lemma get_commands_answers c req req_len :
  control_ok c -> hi_command h = PLDM_GET_PLDM_COMMANDS -> 0 <= req_len <= mem_size (payload req) ->
  exists r, pldm_control_get_commands c h req req_len resp len = Ok r /\ answers h resp len r.
Proof.
  intros Hc Hcmd Hreq. unfold pldm_control_get_commands, decode_get_commands_req.
  destruct (Z.eqb_spec req_len 5) as [->|]; cbn [negb mbind outcome_bind];
    [|apply reply_error_answers].
  unfold payload_read.
  destruct (mem_read_in (payload req) 0 1) as (? & -> & _); [lia..|].
  destruct (mem_read_in (payload req) 1 4) as (? & -> & _); [lia..|].
  cbn [mbind outcome_bind mret outcome_ret negb Z.eqb default from_option id].
  destruct (find_entry _ _) as [i|] eqn:Ei; [|apply reply_error_answers].
  destruct (found_entry c _ i Hc Ei) as (v & -> & Hp & _ & _ & _ & Hcom).
  apply andb_prop in Hp as [_ Hp]. destruct (tv_commands v) as [m|]; [|done].
  cmp_case. { eexists. split; [reflexivity|]. cbn. split_and!; done. }
  unfold encode_get_commands_resp. rewrite legacy_frame_ok by (repeat constructor || lia).
  rewrite payload_write_next by (cbn; lia). cbn [mbind outcome_bind Z.eqb].
  destruct (mem_read_in m 0 32) as (l & E & Hl & _); [lia..|]. change (256 / 8) with 32. rewrite E.
  cbn [mbind outcome_bind].
  rewrite payload_write_next by (rewrite ?length_app; cbn; lia). cbn [mbind outcome_bind].
  eexists. split; [reflexivity|]. apply answers_wrote; [done| |lia].
  rewrite !length_app. cbn. lia.
Qed.
End answers.

Lemma packed_ok ty inst pty cmd :
  0 <= inst <= 31 -> 0 <= pty < 64 -> 0 <= cmd < 256 -> hdr_ok (packed ty inst pty cmd).
Proof. intros. constructor; cbn; try lia; by case_match. Qed.

(** A packed message laid out in a buffer is found there again. *)
Lemma msg_at_bytes a msg :
  hdr_ok (hdr msg) -> exists p, msg_at (msg_bytes a msg) = Ok (Msg (hdr msg) p).
Proof.
  intros Hh. unfold msg_at, msg_bytes.
  rewrite (mem_read_ok _ 0 3 (hdr_bytes (hdr msg))); [|lia|lia| |done].
  - cbn [mbind outcome_bind]. destruct (hdr_bytes_parse _ Hh) as [-> _]. by eexists.
  - unfold mem_size. cbn [bytes]. rewrite length_app. cbn. lia.
Qed.

(** A refusal leaves everything as it was. *)
Ltac refuse :=
  do 3 eexists; split; [reflexivity|]; do 3 (split; [done|]); intros _; split; [done|];
  repeat constructor.

(** Every control request is answered, or refused, safely.  For any request
    bytes, any response buffer and any well-formed table the responder returns; it
    reads and writes only the two buffers and the registered objects and fails no
    assertion.  When it returns zero, the response fits the buffer, holds at least a
    completion code, and is the response that correlates with the request; when it
    does not, the length is as it was and the code is one of three. *)
Lemma control_handle_msg_answers c req_msg req_len resp_msg resp_len :
  control_ok c -> mem_ok req_msg -> mem_ok resp_msg ->
  0 <= req_len <= mem_size req_msg -> 0 <= resp_len <= mem_size resp_msg ->
  exists rc resp' len',
    pldm_control_handle_msg c req_msg req_len resp_msg resp_len = Ok (rc, resp', len') /\
    addr resp' = addr resp_msg /\ mem_size resp' = mem_size resp_msg /\
    (rc = 0 -> 4 <= len' <= resp_len /\ exists q p,
       msg_at req_msg = Ok q /\ msg_at resp' = Ok p /\
       pldm_msg_hdr_correlate_response (hdr q) (hdr p) = true) /\
    (rc <> 0 -> len' = resp_len /\ rc ∈ [- EOVERFLOW; - EINVAL; - ENOMSG]).
Proof.
  intros Hc Hreq Hresp Hrl Hsl. unfold pldm_control_handle_msg.
  do 2 (cmp_case; [refuse|]).
  destruct (msg_at_ok req_msg) as (hq & Eq & Hq & Hqm & Hqs); [done|lia|]. rewrite Eq.
  destruct (msg_at_ok resp_msg) as (hr & Er & Hr & Hrm & Hrs); [done|lia|]. rewrite Er.
  cbn [mbind outcome_bind hdr unpack_pldm_header unpack_pldm_header_errno header_cc Z.eqb mret outcome_ret].
  cbn [negb pldm_type msg_type hi_command instance].
  destruct Hq as [Hrq Hdg Hrs' Hi Hv Ht Hcm].
  destruct (Z.eqb_spec (type hq) 0) as [Ety|]; cbn [negb]; [|refuse].
  destruct (Z.eqb_spec (request hq) 0) as [|Erq]; cbn [negb Z.eqb]; [refuse|].
  destruct (Z.eqb_spec (datagram hq) 0) as [Edg|]; cbn [negb Z.eqb]; [|refuse].
  set (h := HeaderInfo _ _ _ _ _).
  match goal with |- context [mbind ?k ?r] =>
    assert (exists x, r = Ok x /\ answers h (Msg hr (ptr_at resp_msg 3)) (resp_len - 3) x)
      as ([[rc resp'] len'] & -> & Hans) end.
  { assert (0 <= instance h <= 31) by (cbn; lia).
    assert (1 <= resp_len - 3 <= mem_size (payload (Msg hr (ptr_at resp_msg 3)))) by (cbn [payload]; lia).
    assert (0 <= req_len - 3 <= mem_size (payload (Msg hq (ptr_at req_msg 3)))) by (cbn [payload]; lia).
    destruct (Z.eqb_spec (command hq) 2); [by apply get_tid_answers|].
    destruct (Z.eqb_spec (command hq) 3); [by apply get_version_answers|].
    destruct (Z.eqb_spec (command hq) 4); [by apply get_types_answers|].
    destruct (Z.eqb_spec (command hq) 5); [by apply get_commands_answers|].
    by apply reply_error_answers. }
  destruct Hans as (Hsize & Hzero & Hnz). cbn [mbind outcome_bind mret outcome_ret].
  do 3 eexists. split; [reflexivity|]. split; [done|]. split.
  { unfold mem_size, msg_bytes in *. cbn [bytes payload] in *. rewrite length_app. cbn [hdr_bytes length]. lia. }
  destruct (Z.eqb_spec rc 0) as [E0|E0]; (split; [intros _|done]) || (split; [done|intros _]).
  - destruct (Hzero E0) as [Hhdr Hl]. split; [lia|].
    destruct (msg_at_bytes (addr resp_msg) resp') as [p Ep].
    { rewrite Hhdr. apply packed_ok; cbn; lia. }
    exists (Msg hq (ptr_at req_msg 3)), (Msg (hdr resp') p). split_and!; [done|done|].
    rewrite Hhdr. unfold pldm_msg_hdr_correlate_response. cbn.
    rewrite Ety, !Z.eqb_refl. destruct (Z.eqb_spec (request hq) 0); done.
  - split; [done|]. rewrite (Hnz E0). repeat constructor.
Qed.

(** C28: every control request is answered, or refused, safely.  The GetPLDMTypes
    answer decodes to a bitmap with exactly the registered types.  For any request
    bytes, response buffer and well-formed table the responder returns, reads and
    writes only these, and fails no assertion; when it returns zero the response fits
    the buffer and correlates with the request, when it does not the length is as it
    was and the code is one of three. *)
Theorem control_answers :
  (forall c hdr resp len t0,
     control_ok c -> 0 <= instance hdr <= 31 -> mem_ok (payload resp) ->
     9 <= len <= mem_size (payload resp) -> length (types_pldm_types t0) = 8%nat ->
     exists resp' bm,
       pldm_control_get_types c hdr 0 resp len = Ok (0, resp', 9) /\
       decode_pldm_base_get_pldm_types_resp (Some resp') 9 (Some t0)
       = Ok (0, Some (TypesResp PLDM_SUCCESS bm)) /\
       forall t, 0 <= t < 64 ->
         bitmap_bit bm t = match lookup_type (types c) t with Some _ => true | None => false end) /\
  (forall c req_msg req_len resp_msg resp_len,
     control_ok c -> mem_ok req_msg -> mem_ok resp_msg ->
     0 <= req_len <= mem_size req_msg -> 0 <= resp_len <= mem_size resp_msg ->
     exists rc resp' len',
       pldm_control_handle_msg c req_msg req_len resp_msg resp_len = Ok (rc, resp', len') /\
       addr resp' = addr resp_msg /\ mem_size resp' = mem_size resp_msg /\
       (rc = 0 -> 4 <= len' <= resp_len /\ exists q p,
          msg_at req_msg = Ok q /\ msg_at resp' = Ok p /\
          pldm_msg_hdr_correlate_response (hdr q) (hdr p) = true) /\
       (rc <> 0 -> len' = resp_len /\ rc ∈ [- EOVERFLOW; - EINVAL; - ENOMSG])).
Proof. exact (conj get_types_reports control_handle_msg_answers). Qed.

Lemma control_answers_witness :
  (let c := snd (pldm_control_setup (Control []) sizeof_pldm_control) in
     let c := snd (pldm_control_add_type c PLDM_FWUP (Some (CMem 512 (replicate 8 7))) 2 None) in
     let hdr := HeaderInfo PLDM_REQUEST 4 0 4 0 in
     let resp := Msg (packed 0 0 0 0) (CMem 64 (replicate 10 0)) in
     types_bitmap (types c) = [0x21; 0; 0; 0; 0; 0; 0; 0] /\
     exists resp' bm,
       pldm_control_get_types c hdr 0 resp 10 = Ok (0, resp', 9) /\
       decode_pldm_base_get_pldm_types_resp (Some resp') 9 (Some (TypesResp 0 (replicate 8 0)))
       = Ok (0, Some (TypesResp PLDM_SUCCESS bm)) /\
       forall t, 0 <= t < 64 ->
         bitmap_bit bm t = match lookup_type (types c) t with Some _ => true | None => false end) /\
  (let c := snd (pldm_control_setup (Control []) sizeof_pldm_control) in
     let req := CMem 64 [0x85; 0; 4] in
     let resp := CMem 128 (replicate 16 0xaa) in
     pldm_control_handle_msg c req 3 resp 16
     = Ok (0, CMem 128 [5; 0; 4; 0; 1; 0; 0; 0; 0; 0; 0; 0; 0xaa; 0xaa; 0xaa; 0xaa], 12) /\
     exists rc resp' len',
       pldm_control_handle_msg c req 3 resp 16 = Ok (rc, resp', len') /\
       addr resp' = addr resp /\ mem_size resp' = mem_size resp /\
       (rc = 0 -> 4 <= len' <= 16 /\ exists q p,
          msg_at req = Ok q /\ msg_at resp' = Ok p /\
          pldm_msg_hdr_correlate_response (hdr q) (hdr p) = true) /\
       (rc <> 0 -> len' = 16 /\ rc ∈ [- EOVERFLOW; - EINVAL; - ENOMSG])).
Proof.
  split.
  - intros c0 c hdr resp. split; [reflexivity|].
    apply (proj1 control_answers c hdr resp 10 (TypesResp 0 (replicate 8 0))); [|concrete..].
    unfold c. assert (control_ok c0) as H0 by apply control_initial_ok.
    pose proof (add_type_ok c0 PLDM_FWUP (CMem 512 (replicate 8 7)) 2 None H0) as H.
    destruct (pldm_control_add_type c0 _ _ _ _) as [rc c']. apply H; concrete.
  - intros c req resp. split; [vm_compute; reflexivity|].
    apply (proj2 control_answers c req 3 resp 16); [apply control_initial_ok|concrete..].
Defined.

