(* ===== verification/FwUpdate.v ===== *)
(** * The firmware update messages of a firmware device (src/dsp/firmware_update.c)

    The encoders and decoders of the commands a firmware device answers and sends:
    the ones src/firmware_device/fd.c calls. *)

From S2P Require Import Prelude Msgbuf Base.

(** ** Constants (include/libpldm/firmware_update.h) *)

Abbreviation PLDM_QUERY_DEVICE_IDENTIFIERS := 0x01 (only parsing).
Abbreviation PLDM_GET_FIRMWARE_PARAMETERS := 0x02 (only parsing).
Abbreviation PLDM_QUERY_DOWNSTREAM_DEVICES := 0x03 (only parsing).
Abbreviation PLDM_QUERY_DOWNSTREAM_IDENTIFIERS := 0x04 (only parsing).
Abbreviation PLDM_QUERY_DOWNSTREAM_FIRMWARE_PARAMETERS := 0x05 (only parsing).
Abbreviation PLDM_REQUEST_UPDATE := 0x10 (only parsing).
Abbreviation PLDM_PASS_COMPONENT_TABLE := 0x13 (only parsing).
Abbreviation PLDM_UPDATE_COMPONENT := 0x14 (only parsing).
Abbreviation PLDM_REQUEST_FIRMWARE_DATA := 0x15 (only parsing).
Abbreviation PLDM_TRANSFER_COMPLETE := 0x16 (only parsing).
Abbreviation PLDM_VERIFY_COMPLETE := 0x17 (only parsing).
Abbreviation PLDM_APPLY_COMPLETE := 0x18 (only parsing).
Abbreviation PLDM_ACTIVATE_FIRMWARE := 0x1a (only parsing).
Abbreviation PLDM_GET_STATUS := 0x1b (only parsing).
Abbreviation PLDM_CANCEL_UPDATE_COMPONENT := 0x1c (only parsing).
Abbreviation PLDM_CANCEL_UPDATE := 0x1d (only parsing).

Abbreviation PLDM_FWUP_NOT_IN_UPDATE_MODE := 0x80 (only parsing).
Abbreviation PLDM_FWUP_ALREADY_IN_UPDATE_MODE := 0x81 (only parsing).
Abbreviation PLDM_FWUP_INVALID_STATE_FOR_COMMAND := 0x84 (only parsing).
Abbreviation PLDM_FWUP_RETRY_REQUEST_FW_DATA := 0x89 (only parsing).
Abbreviation PLDM_FWUP_ACTIVATION_NOT_REQUIRED := 0x8b (only parsing).

Abbreviation PLDM_STR_TYPE_UNKNOWN := 0 (only parsing).
Abbreviation PLDM_STR_TYPE_UTF_16BE := 5 (only parsing).
Abbreviation PLDM_FIRMWARE_MAX_STRING := 64 (only parsing).
Abbreviation PLDM_FWUP_COMPONENT_RELEASE_DATA_LEN := 8 (only parsing).
Abbreviation PLDM_FWUP_BASELINE_TRANSFER_SIZE := 32 (only parsing).

(** ** Data *)

(** [str_data] is the whole array of PLDM_FIRMWARE_MAX_STRING bytes. *)
Record pldm_firmware_string := FwString { str_type : Z; str_len : Z; str_data : list Z }.

Record pldm_firmware_version := FwVersion {
  comparison_stamp : Z; str : pldm_firmware_string; date : list Z
}.

Record pldm_descriptor := Descriptor {
  descriptor_type : Z; descriptor_length : Z; descriptor_data : ptr
}.

Record pldm_get_firmware_parameters_resp_full := FwParams {
  fwp_completion_code : Z; fwp_capabilities_during_update : Z; fwp_comp_count : Z;
  active_comp_image_set_ver_str : pldm_firmware_string;
  pending_comp_image_set_ver_str : pldm_firmware_string
}.

Record pldm_component_parameter_entry_full := CompEntry {
  ce_comp_classification : Z; ce_comp_identifier : Z; ce_comp_classification_index : Z;
  ce_active_ver : pldm_firmware_version; ce_pending_ver : pldm_firmware_version;
  ce_comp_activation_methods : Z; ce_capabilities_during_update : Z
}.

Record pldm_request_update_req_full := RuReq {
  ru_max_transfer_size : Z; ru_num_of_comp : Z; ru_max_outstanding_transfer_req : Z;
  ru_pkg_data_len : Z; ru_image_set_ver : pldm_firmware_string
}.

Record pldm_request_update_resp := RuResp {
  ru_fd_meta_data_len : Z; ru_fd_will_send_pkg_data : Z
}.

Record pldm_pass_component_table_req_full := PassReq {
  pc_transfer_flag : Z; pc_comp_classification : Z; pc_comp_identifier : Z;
  pc_comp_classification_index : Z; pc_comp_comparison_stamp : Z;
  pc_version : pldm_firmware_string
}.

Record pldm_pass_component_table_resp := PassResp { pc_comp_resp : Z; pc_comp_resp_code : Z }.

Record pldm_update_component_req_full := UpReq {
  up_comp_classification : Z; up_comp_identifier : Z; up_comp_classification_index : Z;
  up_comp_comparison_stamp : Z; up_version : pldm_firmware_string;
  up_comp_image_size : Z; up_update_option_flags : Z
}.

Record pldm_update_component_resp := UpResp {
  up_comp_compatibility_resp : Z; up_comp_compatibility_resp_code : Z;
  up_update_option_flags_enabled : Z; up_time_before_req_fw_data : Z
}.

Record pldm_request_firmware_data_req := RfdReq { rfd_offset : Z; rfd_length : Z }.

Record pldm_apply_complete_req := AcReq {
  ac_apply_result : Z; ac_comp_activation_methods_modification : Z
}.

Record pldm_activate_firmware_resp := ActResp { estimated_time_activation : Z }.

Record pldm_get_status_resp := StatusResp {
  st_completion_code : Z; st_current_state : Z; st_previous_state : Z; st_aux_state : Z;
  st_aux_state_status : Z; st_progress_percent : Z; st_reason_code : Z;
  st_update_option_flags_enabled : Z
}.

Record pldm_cancel_update_resp := CancelResp {
  non_functioning_component_indication : Z; non_functioning_component_bitmap : Z
}.

Definition is_string_type_valid (string_type : Z) : bool :=
  match string_type with
  | 0 => false
  | 1 | 2 | 3 | 4 | 5 => true
  | _ => false
  end.

(** ** Encoders

    All of them pack the header, answer [err] (the source's -EINVAL; one of them
    says EINVAL) if that fails, and write the payload through a buffer of whatever
    length is left. *)

Definition fwup_frame (ty inst cmd err : Z) (msg : pldm_msg) (len : Z) (body : B (Z * Z))
  : outcome (Z * option pldm_msg * option Z) :=
  '(rc, m) ← encode_pldm_header_only ty inst PLDM_FWUP cmd (Some msg);
  let msg := default msg m in
  if_err rc return_ mret (err, Some msg, Some len);;
  '(rc, len, p) ← msgbuf_scope (payload msg) (
    rc ← pldm_msgbuf_rw_init_errno 0 (payload msg) len;
    if_err rc return_ mret (rc, len);;
    body);
  mret (rc, Some (Msg (hdr msg) p), Some len).

(** A payload of fixed fields: insertions whose results are not looked at. *)
Definition fwup_fields (ty inst cmd err : Z) (msg : pldm_msg) (len : Z) (fs : list (kind * Z))
  : outcome (Z * option pldm_msg * option Z) :=
  fwup_frame ty inst cmd err msg len (
    _ ← insert_fields fs;
    pldm_msgbuf_complete_used len len).

Definition encode_request_update_resp (instance_id : Z) (resp_data : pldm_request_update_resp)
    (msg : option pldm_msg) (payload_length : option Z)
  : outcome (Z * option pldm_msg * option Z) :=
  match msg, payload_length with
  | Some msg, Some len =>
    fwup_fields PLDM_RESPONSE instance_id PLDM_REQUEST_UPDATE (- EINVAL) msg len
      [(KU8, PLDM_SUCCESS); (KU16, ru_fd_meta_data_len resp_data);
       (KU8, ru_fd_will_send_pkg_data resp_data)]
  | _, _ => Ok (- EINVAL, msg, payload_length)
  end.

Definition encode_pass_component_table_resp (instance_id : Z)
    (resp_data : pldm_pass_component_table_resp) (msg : option pldm_msg)
    (payload_length : option Z) : outcome (Z * option pldm_msg * option Z) :=
  match msg, payload_length with
  | Some msg, Some len =>
    fwup_fields PLDM_RESPONSE instance_id PLDM_PASS_COMPONENT_TABLE (- EINVAL) msg len
      [(KU8, PLDM_SUCCESS); (KU8, pc_comp_resp resp_data); (KU8, pc_comp_resp_code resp_data)]
  | _, _ => Ok (- EINVAL, msg, payload_length)
  end.

Definition encode_update_component_resp (instance_id : Z) (resp_data : pldm_update_component_resp)
    (msg : option pldm_msg) (payload_length : option Z)
  : outcome (Z * option pldm_msg * option Z) :=
  match msg, payload_length with
  | Some msg, Some len =>
    fwup_fields PLDM_RESPONSE instance_id PLDM_UPDATE_COMPONENT (- EINVAL) msg len
      [(KU8, PLDM_SUCCESS); (KU8, up_comp_compatibility_resp resp_data);
       (KU8, up_comp_compatibility_resp_code resp_data);
       (KU32, up_update_option_flags_enabled resp_data);
       (KU16, up_time_before_req_fw_data resp_data)]
  | _, _ => Ok (- EINVAL, msg, payload_length)
  end.

Definition encode_request_firmware_data_req (instance_id : Z)
    (req_params : pldm_request_firmware_data_req) (msg : option pldm_msg)
    (payload_length : option Z) : outcome (Z * option pldm_msg * option Z) :=
  match msg, payload_length with
  | Some msg, Some len =>
    fwup_fields PLDM_REQUEST instance_id PLDM_REQUEST_FIRMWARE_DATA (- EINVAL) msg len
      [(KU32, rfd_offset req_params); (KU32, rfd_length req_params)]
  | _, _ => Ok (- EINVAL, msg, payload_length)
  end.

Definition encode_transfer_complete_req (instance_id transfer_result : Z) (msg : option pldm_msg)
    (payload_length : option Z) : outcome (Z * option pldm_msg * option Z) :=
  match msg, payload_length with
  | Some msg, Some len =>
    fwup_fields PLDM_REQUEST instance_id PLDM_TRANSFER_COMPLETE (- EINVAL) msg len
      [(KU8, transfer_result)]
  | _, _ => Ok (- EINVAL, msg, payload_length)
  end.

(** A header that cannot be packed is answered with the positive EINVAL. *)
Definition encode_verify_complete_req (instance_id verify_result : Z) (msg : option pldm_msg)
    (payload_length : option Z) : outcome (Z * option pldm_msg * option Z) :=
  match msg, payload_length with
  | Some msg, Some len =>
    fwup_fields PLDM_REQUEST instance_id PLDM_VERIFY_COMPLETE EINVAL msg len
      [(KU8, verify_result)]
  | _, _ => Ok (- EINVAL, msg, payload_length)
  end.

Definition encode_apply_complete_req (instance_id : Z) (req_data : pldm_apply_complete_req)
    (msg : option pldm_msg) (payload_length : option Z)
  : outcome (Z * option pldm_msg * option Z) :=
  match msg, payload_length with
  | Some msg, Some len =>
    fwup_fields PLDM_REQUEST instance_id PLDM_APPLY_COMPLETE (- EINVAL) msg len
      [(KU8, ac_apply_result req_data); (KU16, ac_comp_activation_methods_modification req_data)]
  | _, _ => Ok (- EINVAL, msg, payload_length)
  end.

Definition encode_activate_firmware_resp (instance_id : Z) (resp_data : pldm_activate_firmware_resp)
    (msg : option pldm_msg) (payload_length : option Z)
  : outcome (Z * option pldm_msg * option Z) :=
  match msg, payload_length with
  | Some msg, Some len =>
    fwup_fields PLDM_RESPONSE instance_id PLDM_ACTIVATE_FIRMWARE (- EINVAL) msg len
      [(KU8, PLDM_SUCCESS); (KU16, estimated_time_activation resp_data)]
  | _, _ => Ok (- EINVAL, msg, payload_length)
  end.

Definition encode_get_status_resp (instance_id : Z) (status : option pldm_get_status_resp)
    (msg : option pldm_msg) (payload_length : option Z)
  : outcome (Z * option pldm_msg * option Z) :=
  match status, msg, payload_length with
  | Some status, Some m, Some len =>
    if negb (st_completion_code status =? PLDM_SUCCESS) then Ok (- EINVAL, msg, payload_length)
    else
    fwup_fields PLDM_RESPONSE instance_id PLDM_GET_STATUS (- EINVAL) m len
      [(KU8, PLDM_SUCCESS); (KU8, st_current_state status); (KU8, st_previous_state status);
       (KU8, st_aux_state status); (KU8, st_aux_state_status status);
       (KU8, st_progress_percent status); (KU8, st_reason_code status);
       (KU32, st_update_option_flags_enabled status)]
  | _, _, _ => Ok (- EINVAL, msg, payload_length)
  end.

Definition encode_cancel_update_resp (instance_id : Z) (resp_data : pldm_cancel_update_resp)
    (msg : option pldm_msg) (payload_length : option Z)
  : outcome (Z * option pldm_msg * option Z) :=
  match msg, payload_length with
  | Some msg, Some len =>
    fwup_frame PLDM_RESPONSE instance_id PLDM_CANCEL_UPDATE (- EINVAL) msg len (
      _ ← insert_fields [(KU8, PLDM_SUCCESS); (KU8, non_functioning_component_indication resp_data)];
      _ ← pldm_msgbuf_insert_uint64 (non_functioning_component_bitmap resp_data);
      pldm_msgbuf_complete_used len len)
  | _, _ => Ok (- EINVAL, msg, payload_length)
  end.

(** [descriptors] points to an array; the loops read its first [n] elements. *)
Fixpoint descriptors_length (descriptors : list pldm_descriptor) (n : nat) (acc : Z) : outcome Z :=
  match n, descriptors with
  | O, _ => Ok acc
  | S n, [] => Fault FMemory
  | S n, d :: ds => descriptors_length ds n (u32 (acc + (2 * 2 + descriptor_length d)))
  end.

Fixpoint insert_descriptors (descriptors : list pldm_descriptor) (n : nat) : B Z :=
  match n, descriptors with
  | O, _ => mret 0
  | S n, [] => lift (Fault FMemory)
  | S n, d :: ds =>
    _ ← insert_fields [(KU16, descriptor_type d); (KU16, descriptor_length d)];
    match descriptor_data d with
    | None => pldm_msgbuf_rw_discard (- EINVAL)
    | Some data =>
      rc ← pldm_msgbuf_insert_array_uint8 (descriptor_length d) data (descriptor_length d);
      if_err rc return_ pldm_msgbuf_rw_discard rc;;
      insert_descriptors ds n
    end
  end.

Definition encode_query_device_identifiers_resp (instance_id descriptor_count : Z)
    (descriptors : option (list pldm_descriptor)) (msg : option pldm_msg)
    (payload_length : option Z) : outcome (Z * option pldm_msg * option Z) :=
  match descriptors, msg, payload_length with
  | Some descriptors, Some m, Some len =>
    if descriptor_count <? 1 then Ok (- EINVAL, msg, payload_length)
    else
    fwup_frame PLDM_RESPONSE instance_id PLDM_QUERY_DEVICE_IDENTIFIERS (- EINVAL) m len (
      device_identifiers_len ← lift (descriptors_length descriptors (Z.to_nat descriptor_count) 0);
      _ ← insert_fields [(KU8, PLDM_SUCCESS); (KU32, device_identifiers_len);
                         (KU8, descriptor_count)];
      rc ← insert_descriptors descriptors (Z.to_nat descriptor_count);
      if_err rc return_ mret (rc, len);;
      pldm_msgbuf_complete_used len len)
  | _, _, _ => Ok (- EINVAL, msg, payload_length)
  end.

(** pldm_msgbuf_insert_array() of a member array of a struct. *)
Definition insert_member_array (count : Z) (src : list Z) : B Z :=
  pldm_msgbuf_insert_array_uint8 count (CMem 0 src) count.

Definition encode_get_firmware_parameters_resp (instance_id : Z)
    (resp_data : option pldm_get_firmware_parameters_resp_full) (msg : option pldm_msg)
    (payload_length : option Z) : outcome (Z * option pldm_msg * option Z) :=
  match resp_data, msg, payload_length with
  | Some r, Some m, Some len =>
    let active := active_comp_image_set_ver_str r in
    let pending := pending_comp_image_set_ver_str r in
    if negb (is_string_type_valid (str_type active)) || (str_len active =? 0) then
      Ok (- EINVAL, msg, payload_length)
    else if (if str_len pending =? 0 then negb (str_type pending =? PLDM_STR_TYPE_UNKNOWN)
             else negb (is_string_type_valid (str_type pending))) then
      Ok (- EINVAL, msg, payload_length)
    else
    fwup_frame PLDM_RESPONSE instance_id PLDM_GET_FIRMWARE_PARAMETERS (- EINVAL) m len (
      _ ← insert_fields [(KU8, fwp_completion_code r); (KU32, fwp_capabilities_during_update r);
            (KU16, fwp_comp_count r); (KU8, u8 (str_type active)); (KU8, str_len active);
            (KU8, u8 (str_type pending)); (KU8, str_len pending)];
      rc ← insert_member_array (str_len active) (str_data active);
      if_err rc return_ (rc ← pldm_msgbuf_rw_discard rc; mret (rc, len));;
      rc ← insert_member_array (str_len pending) (str_data pending);
      if_err rc return_ (rc ← pldm_msgbuf_rw_discard rc; mret (rc, len));;
      pldm_msgbuf_complete_used len len)
  | _, _, _ => Ok (- EINVAL, msg, payload_length)
  end.

(** [payload] is a bare pointer here. *)
Definition encode_get_firmware_parameters_resp_comp_entry
    (comp : option pldm_component_parameter_entry_full) (payload : ptr) (payload_length : option Z)
  : outcome (Z * ptr * option Z) :=
  match comp, payload, payload_length with
  | Some comp, Some p, Some len =>
    let active := ce_active_ver comp in
    let pending := ce_pending_ver comp in
    '(rc, len, p) ← msgbuf_scope p (
      rc ← pldm_msgbuf_rw_init_errno 0 p len;
      if_err rc return_ mret (rc, len);;
      _ ← insert_fields [(KU16, ce_comp_classification comp); (KU16, ce_comp_identifier comp);
            (KU8, ce_comp_classification_index comp);
            (KU32, comparison_stamp active); (KU8, u8 (str_type (str active)));
            (KU8, str_len (str active))];
      rc ← insert_member_array PLDM_FWUP_COMPONENT_RELEASE_DATA_LEN (date active);
      if_err rc return_ (rc ← pldm_msgbuf_rw_discard rc; mret (rc, len));;
      _ ← insert_fields [(KU32, comparison_stamp pending); (KU8, u8 (str_type (str pending)));
            (KU8, str_len (str pending))];
      rc ← insert_member_array PLDM_FWUP_COMPONENT_RELEASE_DATA_LEN (date pending);
      if_err rc return_ (rc ← pldm_msgbuf_rw_discard rc; mret (rc, len));;
      _ ← insert_fields [(KU16, ce_comp_activation_methods comp);
            (KU32, ce_capabilities_during_update comp)];
      rc ← insert_member_array (str_len (str active)) (str_data (str active));
      if_err rc return_ (rc ← pldm_msgbuf_rw_discard rc; mret (rc, len));;
      rc ← insert_member_array (str_len (str pending)) (str_data (str pending));
      if_err rc return_ (rc ← pldm_msgbuf_rw_discard rc; mret (rc, len));;
      pldm_msgbuf_complete_used len len);
    mret (rc, Some p, Some len)
  | _, _, _ => Ok (- EINVAL, payload, payload_length)
  end.

(** ** Decoders *)

Definition decode_request_update_req (msg : option pldm_msg) (payload_length : Z)
    (req : option pldm_request_update_req_full)
  : outcome (Z * option pldm_request_update_req_full) :=
  match msg, req with
  | Some msg, Some r =>
    '(rc, r) ← decode_frame 0 msg payload_length r (
      '(_, size) ← pldm_msgbuf_extract KU32 (ru_max_transfer_size r);
      '(_, num) ← pldm_msgbuf_extract KU16 (ru_num_of_comp r);
      '(_, outstanding) ← pldm_msgbuf_extract KU8 (ru_max_outstanding_transfer_req r);
      '(_, pkg) ← pldm_msgbuf_extract KU16 (ru_pkg_data_len r);
      '(rc, t) ← pldm_msgbuf_extract KU8 0;
      let ver := ru_image_set_ver r in
      let set := RuReq size num outstanding pkg in
      if_err rc return_ (rc ← pldm_msgbuf_ro_discard rc; mret (rc, set ver));;
      if PLDM_STR_TYPE_UTF_16BE <? t then
        rc ← pldm_msgbuf_ro_discard (- EBADMSG); mret (rc, set ver)
      else
      (* the result of this extraction is not the [rc] the source tests next *)
      '(_, slen) ← pldm_msgbuf_extract KU8 (str_len ver);
      '(rc, data) ← pldm_msgbuf_extract_array_uint8 slen (str_data ver) PLDM_FIRMWARE_MAX_STRING;
      if_err rc return_ (rc ← pldm_msgbuf_ro_discard rc; mret (rc, set (FwString t slen data)));;
      rc ← pldm_msgbuf_ro_complete_consumed;
      mret (rc, set (FwString t slen data)));
    mret (rc, Some r)
  | _, _ => Ok (- EINVAL, req)
  end.

(** The version string that ends PassComponentTable and UpdateComponent requests:
    type, length and text, then the end of the message. *)
Definition decode_version {A} (version : pldm_firmware_string)
    (set : pldm_firmware_string -> A) : B (Z * A) :=
  '(rc, t) ← pldm_msgbuf_extract KU8 0;
  if_err rc return_ (rc ← pldm_msgbuf_ro_discard rc; mret (rc, set version));;
  if PLDM_STR_TYPE_UTF_16BE <? t then
    rc ← pldm_msgbuf_ro_discard (- EBADMSG); mret (rc, set version)
  else
  '(rc, slen) ← pldm_msgbuf_extract KU8 (str_len version);
  if_err rc return_
    (rc ← pldm_msgbuf_ro_discard rc; mret (rc, set (FwString t slen (str_data version))));;
  '(rc, data) ← pldm_msgbuf_extract_array_uint8 slen (str_data version) PLDM_FIRMWARE_MAX_STRING;
  if_err rc return_ (rc ← pldm_msgbuf_ro_discard rc; mret (rc, set (FwString t slen data)));;
  rc ← pldm_msgbuf_ro_complete_consumed;
  mret (rc, set (FwString t slen data)).

Definition decode_pass_component_table_req (msg : option pldm_msg) (payload_length : Z)
    (pcomp : option pldm_pass_component_table_req_full)
  : outcome (Z * option pldm_pass_component_table_req_full) :=
  match msg, pcomp with
  | Some msg, Some r =>
    '(rc, r) ← decode_frame 0 msg payload_length r (
      '(_, flag) ← pldm_msgbuf_extract KU8 (pc_transfer_flag r);
      '(_, class) ← pldm_msgbuf_extract KU16 (pc_comp_classification r);
      '(_, id) ← pldm_msgbuf_extract KU16 (pc_comp_identifier r);
      '(_, index) ← pldm_msgbuf_extract KU8 (pc_comp_classification_index r);
      '(_, stamp) ← pldm_msgbuf_extract KU32 (pc_comp_comparison_stamp r);
      decode_version (pc_version r) (PassReq flag class id index stamp));
    mret (rc, Some r)
  | _, _ => Ok (- EINVAL, pcomp)
  end.

Definition decode_update_component_req (msg : option pldm_msg) (payload_length : Z)
    (up : option pldm_update_component_req_full)
  : outcome (Z * option pldm_update_component_req_full) :=
  match msg, up with
  | Some msg, Some r =>
    '(rc, r) ← decode_frame 0 msg payload_length r (
      '(_, class) ← pldm_msgbuf_extract KU16 (up_comp_classification r);
      '(_, id) ← pldm_msgbuf_extract KU16 (up_comp_identifier r);
      '(_, index) ← pldm_msgbuf_extract KU8 (up_comp_classification_index r);
      '(_, stamp) ← pldm_msgbuf_extract KU32 (up_comp_comparison_stamp r);
      '(_, size) ← pldm_msgbuf_extract KU32 (up_comp_image_size r);
      '(_, flags) ← pldm_msgbuf_extract KU32 (up_update_option_flags r);
      decode_version (up_version r) (fun v => UpReq class id index stamp v size flags));
    mret (rc, Some r)
  | _, _ => Ok (- EINVAL, up)
  end.

(** A buffer that cannot be attached is reported as success. *)
Definition decode_activate_firmware_req (msg : option pldm_msg) (payload_length : Z)
    (self_contained : option bool) : outcome (Z * option bool) :=
  match msg, self_contained with
  | Some msg, Some sc =>
    '(r, _) ← msgbuf_scope (payload msg) (
      rc ← pldm_msgbuf_ro_init_errno 0 (payload msg) payload_length;
      if_err rc return_ mret (0, sc);;
      '(_, v) ← pldm_msgbuf_extract KU8 0;
      rc ← pldm_msgbuf_ro_complete_consumed;
      if_err rc return_ mret (rc, sc);;
      mret (0, negb (v =? 0)));
    mret (fst r, Some (snd r))
  | _, _ => Ok (- EINVAL, self_contained)
  end.

(** ** What the encoders do *)

(** The result of an encoder that was given [msg] and [len]: the header is packed,
    the payload object is the same object, and a success reports a length within
    [len]. *)
Definition framed (ty inst cmd : Z) (msg : pldm_msg) (len : Z)
    (r : outcome (Z * option pldm_msg * option Z)) (P : Z -> Z -> cmem -> Prop) : Prop :=
  exists rc l m,
    r = Ok (rc, Some (Msg (packed ty inst PLDM_FWUP cmd) m), Some l) /\
    same_place (payload msg) m /\ P rc l m.

(** Success within the buffer, or one of two errors. *)
Definition fits_or_fails (len rc l : Z) : Prop :=
  (rc = 0 /\ 1 <= l <= len) \/ (rc = - EOVERFLOW \/ rc = - EINVAL) /\ l = len.

Section frames.
Context (ty inst cmd err : Z) (msg : pldm_msg) (len : Z).
Hypothesis Hty : ty ∈ [PLDM_RESPONSE; PLDM_REQUEST; PLDM_ASYNC_REQUEST_NOTIFY].
Hypothesis Hinst : 0 <= inst <= 31.
Hypothesis Hmem : mem_place (payload msg).
Hypothesis Hlen : 0 <= len <= mem_size (payload msg).

Lemma fwup_frame_ok body (P : Z -> Z -> cmem -> Prop) :
  (forall b, mb_wr (payload msg) len [] b ->
     wp body b (fun '(rc, l) b' =>
       mb_done b' /\ same_place (payload msg) (obj b') /\ P rc l (obj b'))) ->
  framed ty inst cmd msg len (fwup_frame ty inst cmd err msg len body) P.
Proof.
  intros Hbody. destruct Hmem. unfold fwup_frame, encode_pldm_header_only, encode_pldm_header_only_errno.
  rewrite pack_into_ok by (done || lia). cbn [negb Z.eqb mbind outcome_bind mret outcome_ret default from_option id payload hdr].
  match goal with |- context [msgbuf_scope ?o ?k] =>
    destruct (msgbuf_scope_wp o k (fun '(rc, l) m => same_place (payload msg) m /\ P rc l m))
      as ([rc l] & m' & E & HP) end.
  { apply wp_bind, wp_init_wr; [lia..|]. intros b _. cmp_case; [|lia]. intros Hb. cmp_case; [|done].
    eapply wp_mono; [by apply Hbody|]. by intros []. }
  rewrite E. cbn. exists rc, l, m'. destruct HP. done.
Qed.

Lemma fields_bytes_small fs : Z.of_nat (length (fields_bytes fs)) <= 8 * Z.of_nat (length fs).
Proof.
  unfold fields_bytes. induction fs as [|[k v] fs IH]; [done|].
  cbn [fmap list_fmap concat]. rewrite length_app, le_enc_length. cbn [length].
  pose proof (kind_size_bound k). lia.
Qed.

Lemma fwup_fields_ok fs :
  Z.of_nat (length fs) <= 1024 ->
  framed ty inst cmd msg len (fwup_fields ty inst cmd err msg len fs) (fun rc l m =>
    if Z.of_nat (length (fields_bytes fs)) <=? len
    then rc = 0 /\ l = Z.of_nat (length (fields_bytes fs)) /\ m = wrote (payload msg) (fields_bytes fs)
    else rc = - EOVERFLOW /\ l = len).
Proof.
  intros Hfs. apply fwup_frame_ok. intros b Hb. pose proof (fields_bytes_small fs).
  apply wp_bind. eapply wp_mono; [apply (insert_fields_wr _ _ _ _ _ Hb); cbn [app]; lia|].
  intros [] b' Hb'. cbn [app] in Hb'. mb_used.
  revert Hwrote. destruct (_ <=? len); intros; done.
Qed.

Lemma fields_fit_or_fail fs :
  1 <= Z.of_nat (length (fields_bytes fs)) -> Z.of_nat (length fs) <= 1024 ->
  framed ty inst cmd msg len (fwup_fields ty inst cmd err msg len fs)
    (fun rc l m => fits_or_fails len rc l).
Proof.
  intros H1 Hfs. destruct (fwup_fields_ok fs Hfs) as (rc & l & m & -> & Hs & H).
  do 3 eexists. split; [reflexivity|]. split; [done|]. unfold fits_or_fails.
  destruct (Z.leb_spec (Z.of_nat (length (fields_bytes fs))) len).
  - destruct H as (-> & -> & _). left. lia.
  - right. tauto.
Qed.
End frames.

(** *** Response encoders with variable parts *)

Definition descriptor_ok (d : pldm_descriptor) : Prop :=
  0 <= descriptor_length d < 65536 /\
  match descriptor_data d with Some m => descriptor_length d <= mem_size m | None => True end.

Lemma descriptors_length_ok ds n acc :
  (n <= length ds)%nat -> exists v, descriptors_length ds n acc = Ok v.
Proof.
  revert n acc. induction ds as [|d ds IH]; intros [|n] acc Hn; cbn in *; try by eexists.
  - lia.
  - apply IH. lia.
Qed.

Lemma wr_size_obj m len out b : mb_wr m len out b -> same_place m (obj b).
Proof. by intros []. Qed.

Lemma insert_descriptors_wr m len ds n out b :
  mb_wr m len out b -> (n <= length ds)%nat -> Forall descriptor_ok ds ->
  Z.of_nat (length out) + 65540 * Z.of_nat n <= INTMAX_MAX ->
  wp (insert_descriptors ds n) b (fun rc b' =>
    rc = 0 /\ (exists out', mb_wr m len (out ++ out') b') \/
    (rc = - EOVERFLOW \/ rc = - EINVAL) /\ mb_done b' /\ same_place m (obj b')).
Proof.
  revert n out b. induction ds as [|d ds IH]; intros [|n] out b Hb Hn Hok Hmax; cbn [length] in *;
    cbn [insert_descriptors]; try lia.
  1, 2: apply wp_ret; left; split; [done|]; exists []; by rewrite app_nil_r.
  apply Forall_cons_1 in Hok as [[Hl Hd] Hok].
  apply wp_bind. eapply wp_mono; [apply (insert_fields_wr _ _ _ _ _ Hb)|].
  { rewrite length_app. cbn. lia. }
  intros [] b1 Hb1. clear Hb. set (o1 := out ++ fields_bytes _) in *.
  assert (Z.of_nat (length o1) = Z.of_nat (length out) + 4) as Ho1
    by (unfold o1; rewrite length_app; cbn; lia).
  destruct (descriptor_data d) as [data|].
  2: { unfold pldm_msgbuf_rw_discard. apply wp_discard. intros b2 Hdone Hobj. right.
       split; [by right|]. split; [done|]. rewrite Hobj. by eapply wr_size_obj. }
  mb_insert_array. destruct (_ || _).
  - rewrite Z.eqb_refl. eapply wp_mono; [apply IH; [exact Hb1|lia|done|]|].
    { rewrite length_app, length_slice. lia. }
    intros rc b2 [[-> [out' H]]|H]; [|by right]. left. split; [done|].
    unfold o1 in H. rewrite <- !app_assoc in H. eexists. exact H.
  - cbn [Z.eqb Z.opp]. unfold pldm_msgbuf_rw_discard. apply wp_discard. intros b2 Hdone Hobj. right.
    split; [by left|]. split; [done|]. rewrite Hobj. by eapply wr_size_obj.
Qed.

Section variable_parts.
Context (inst : Z) (msg : pldm_msg) (len : Z).
Hypothesis Hinst : 0 <= inst <= 31.
Hypothesis Hmem : mem_place (payload msg).
Hypothesis Hlen : 0 <= len <= mem_size (payload msg).

Lemma query_device_identifiers_ok count ds :
  0 <= count <= 255 -> Forall descriptor_ok ds -> count <= Z.of_nat (length ds) ->
  exists r h m,
    encode_query_device_identifiers_resp inst count (Some ds) (Some msg) (Some len)
    = Ok (fst r, Some (Msg h m), Some (snd r)) /\
    same_place (payload msg) m /\ fits_or_fails len (fst r) (snd r) /\
    (fst r = 0 -> h = packed PLDM_RESPONSE inst PLDM_FWUP PLDM_QUERY_DEVICE_IDENTIFIERS).
Proof.
  intros Hc Hds Hn. unfold encode_query_device_identifiers_resp. cmp_case.
  { exists (- EINVAL, len), (hdr msg), (payload msg). destruct msg. split; [done|].
    unfold fits_or_fails. cbn. split_and!; [done|right; split; [by right|done]|done]. }
  match goal with |- context [fwup_frame ?ty ?i ?c ?e msg len ?k] =>
    destruct (fwup_frame_ok ty i c e msg len ltac:(repeat constructor) Hinst Hmem Hlen k
      (fun rc l _ => fits_or_fails len rc l)) as (rc & l & m & -> & Hs & Hf) end.
  2: { by exists (rc, l), (packed PLDM_RESPONSE inst PLDM_FWUP PLDM_QUERY_DEVICE_IDENTIFIERS), m. }
  intros b Hb. destruct (descriptors_length_ok ds (Z.to_nat count) 0) as [total Ht]; [lia|].
  apply wp_bind. unfold wp, lift. rewrite Ht. apply wp_bind.
  eapply wp_mono; [apply (insert_fields_wr _ _ _ _ _ Hb); cbn; lia|].
  intros [] b1 Hb1. apply wp_bind. eapply wp_mono.
  { eapply insert_descriptors_wr; [exact Hb1|lia|done|]. cbn [app]. cbn. lia. }
  intros rc b2 [[-> [out' Hw]]|(Hrc & Hdone & Hobj)].
  - clear Hb Hb1. cbn [Z.eqb]. mb_used. unfold fits_or_fails.
    cmp_case; (split; [done|]); (split; [done|]); [left|right; split; [by left|done]].
    split; [done|]. cbn in *. lia.
  - replace (rc =? 0) with false by lia. apply wp_ret. split; [done|]. split; [done|].
    right. tauto.
Qed.
End variable_parts.

(** A string the application hands out has its text inside its array. *)
Definition string_ok (s : pldm_firmware_string) : Prop :=
  0 <= str_len s <= PLDM_FIRMWARE_MAX_STRING /\ length (str_data s) = 64%nat.

Definition version_ok (v : pldm_firmware_version) : Prop :=
  string_ok (str v) /\ length (date v) = 8%nat.

(** Insert the array [src] of [n] bytes, or discard and stop. *)
Lemma insert_member_wr m len n src out b Q :
  mb_wr m len out b -> 0 <= n <= Z.of_nat (length src) -> n <= 64 -> Z.of_nat (length out) <= 4096 ->
  (forall out' b', mb_wr m len out' b' -> Z.of_nat (length out') = Z.of_nat (length out) + n ->
     (exists k, out' = out ++ k) -> Q 0 b') ->
  (forall b', same_place m (obj b') -> Q (- EOVERFLOW) b') ->
  wp (insert_member_array n src) b Q.
Proof.
  intros Hb Hn Hn64 Hout HQ0 HQ1. unfold insert_member_array. autounfold with msgbuf.
  eapply wp_insert_array_wr; [exact Hb|lia|unfold mem_size; cbn; lia|lia|].
  intros b' Hb'. destruct (_ || _).
  - eapply HQ0; [exact Hb'| |by eexists]. rewrite length_app, length_slice. cbn. lia.
  - apply HQ1. by eapply wr_size_obj.
Qed.

Lemma insert_fields_step {A} m len fs out b (k : B A) Q :
  mb_wr m len out b -> Z.of_nat (length out) <= 4096 -> (length fs <= 8)%nat ->
  (forall b', mb_wr m len (out ++ fields_bytes fs) b' -> wp k b' Q) ->
  wp (_ ← insert_fields fs; k) b Q.
Proof.
  intros Hb Hout Hfs Hk. apply wp_bind. pose proof (fields_bytes_small fs).
  eapply wp_mono; [apply (insert_fields_wr _ _ _ _ _ Hb); rewrite length_app; lia|].
  intros [] b' Hb'. by apply Hk.
Qed.

(** What is left to do when everything has been inserted. *)
Lemma complete_fits m len out b (Q : Z * Z -> msgbuf -> Prop) :
  mb_wr m len out b -> 1 <= Z.of_nat (length out) ->
  (forall rc l b', mb_done b' -> same_place m (obj b') -> fits_or_fails len rc l -> Q (rc, l) b') ->
  wp (pldm_msgbuf_complete_used len len) b Q.
Proof.
  intros Hb Hout HQ. mb_used. cmp_case; apply HQ; try done; unfold fits_or_fails; [left; lia|right; auto].
Qed.

(** Step over a group of fields, or an array and the early return behind it. *)
Ltac fw_fields :=
  lazymatch goal with
  | Hb : mb_wr ?m ?len ?out ?b |- wp (mbind _ (insert_fields ?fs)) ?b _ =>
      apply (insert_fields_step m len fs out b _ _ Hb); [wr_len|cbn; lia|];
      clear Hb; let b' := fresh "b" in let o := fresh "o" in let Eo := fresh "Eo" in
      intros b' Hb; remember (out ++ fields_bytes fs) as o eqn:Eo;
      apply (f_equal (fun l => Z.of_nat (length l))) in Eo; rewrite length_app in Eo;
      cbn [length fields_bytes fmap list_fmap concat app kind_size] in Eo;
      rewrite ?length_app, ?le_enc_length in Eo; cbn [length] in Eo
  end.

Ltac fw_member :=
  lazymatch goal with
  | Hb : mb_wr ?m ?len ?out ?b |- wp (mbind _ (insert_member_array ?n ?src)) ?b _ =>
      apply wp_bind; apply (insert_member_wr m len n src out b _ Hb); [lia|lia|lia| |];
      clear Hb;
      [ let o := fresh "o" in let b' := fresh "b" in let E := fresh "E" in
        intros o b' Hb E _; rewrite Z.eqb_refl
      | let b' := fresh "b" in let Hs := fresh "Hs" in
        intros b' Hs; cbn [Z.eqb Z.opp]; mb_discard; apply wp_ret;
        split; [done|]; split; [congruence|]; right; split; [by left|done] ]
  end.

Section variable_parts.
Context (inst : Z) (msg : pldm_msg) (len : Z).
Hypothesis Hinst : 0 <= inst <= 31.
Hypothesis Hmem : mem_place (payload msg).
Hypothesis Hlen : 0 <= len <= mem_size (payload msg).

Lemma get_firmware_parameters_ok r :
  string_ok (active_comp_image_set_ver_str r) -> string_ok (pending_comp_image_set_ver_str r) ->
  exists rc l h m,
    encode_get_firmware_parameters_resp inst (Some r) (Some msg) (Some len)
    = Ok (rc, Some (Msg h m), Some l) /\
    same_place (payload msg) m /\ fits_or_fails len rc l /\
    (rc = 0 -> h = packed PLDM_RESPONSE inst PLDM_FWUP PLDM_GET_FIRMWARE_PARAMETERS).
Proof.
  intros [Ha1 Ha2] [Hp1 Hp2]. unfold encode_get_firmware_parameters_resp.
  do 2 (match goal with |- context [if ?c then Ok _ else _] => destruct c end;
    [exists (- EINVAL), len, (hdr msg), (payload msg); destruct msg;
     unfold fits_or_fails; split_and!; [done|done|right; split; [by right|done]|done]|]).
  match goal with |- context [fwup_frame ?ty ?i ?c ?e msg len ?k] =>
    destruct (fwup_frame_ok ty i c e msg len ltac:(repeat constructor) Hinst Hmem Hlen k
      (fun rc l _ => fits_or_fails len rc l)) as (rc & l & m & -> & Hs & Hf) end.
  2: { by exists rc, l, (packed PLDM_RESPONSE inst PLDM_FWUP PLDM_GET_FIRMWARE_PARAMETERS), m. }
  intros b Hb. fw_fields. do 2 fw_member.
  eapply complete_fits; [exact Hb|lia|]. intros; done.
Qed.
End variable_parts.

(** A component entry is written where the pointer says, and no more than there is
    room for. *)
Lemma comp_entry_ok comp p len :
  version_ok (ce_active_ver comp) -> version_ok (ce_pending_ver comp) ->
  mem_place p -> 0 <= len <= mem_size p ->
  exists rc l p',
    encode_get_firmware_parameters_resp_comp_entry (Some comp) (Some p) (Some len)
    = Ok (rc, Some p', Some l) /\ same_place p p' /\ fits_or_fails len rc l.
Proof.
  intros [[Ha1 Ha2] Ha3] [[Hp1 Hp2] Hp3] [] Hlen.
  unfold encode_get_firmware_parameters_resp_comp_entry.
  match goal with |- context [msgbuf_scope ?o ?k] =>
    destruct (msgbuf_scope_wp o k (fun '(rc, l) m => same_place p m /\ fits_or_fails len rc l))
      as ([rc l] & m' & E & HP) end.
  2: { rewrite E. by exists rc, l, m'. }
  apply wp_bind, wp_init_wr; [lia..|]. intros b _. cmp_case; [|lia]. intros Hb. cmp_case; [|done].
  fw_fields. fw_member. fw_fields. fw_member. fw_fields. do 2 fw_member.
  eapply complete_fits; [exact Hb|lia|]. intros; done.
Qed.

(** ** What the decoders do *)

Definition decode_errors : list Z := [- EOVERFLOW; - EBADMSG; - EINVAL].

(** The string of [n] bytes of type [t] at [c], in the array [old]. *)
Definition string_at (m : cmem) (t n c : Z) (old : list Z) : pldm_firmware_string :=
  FwString t n (splice 0 (slice (Z.to_nat c) (Z.to_nat n) (bytes m)) old).

Lemma string_at_ok m t n c old :
  0 <= n <= 64 -> length old = 64%nat -> string_ok (string_at m t n c old).
Proof.
  intros Hn Hold. split; [done|]. cbn. rewrite splice_length; [done|]. rewrite length_slice. lia.
Qed.

(** Finish a decoder's branch that failed with one of the errors. *)
Ltac fw_refused :=
  first [mb_discard | idtac]; apply wp_ret; split; [done|]; eexists; split; [reflexivity|];
  rewrite bool_decide_false by lia; repeat constructor.

(** The text of a string, and the end of the message. *)
Lemma string_tail_rd {A} m len c b n old (set : list Z -> A) :
  mb_rd m len c b -> 0 <= n < 256 -> c <= 4096 -> length old = 64%nat ->
  wp ('(rc, data) ← pldm__msgbuf_extract_array_void n old PLDM_FIRMWARE_MAX_STRING;
      if_err rc return_ (rc ← pldm__msgbuf_discard rc; mret (rc, set data));;
      rc ← pldm_msgbuf_ro_complete_consumed;
      mret (rc, set data)) b
    (fun '(rc, a) b' => mb_done b' /\ exists data, a = set data /\
     if bool_decide (n <= 64 /\ c + n = len)
     then rc = 0 /\ data = splice 0 (slice (Z.to_nat c) (Z.to_nat n) (bytes m)) old
     else rc ∈ decode_errors).
Proof.
  intros Hb Hn Hc Hold. apply wp_bind.
  eapply (wp_extract_array_rd m len n old 64 c); [exact Hb|lia|lia|lia|].
  intros b3 Hb3. clear Hb. destruct (Z.ltb_spec 64 n); cbn [Z.eqb Z.opp]; [fw_refused|].
  assert (wp (rc ← pldm_msgbuf_ro_complete_consumed;
              mret (rc, set (splice 0 (slice (Z.to_nat c) (Z.to_nat n) (bytes m)) old))) b3
    (fun '(rc, a) b' => mb_done b' /\ exists data, a = set data /\
     if bool_decide (n <= 64 /\ c + n = len)
     then rc = 0 /\ data = splice 0 (slice (Z.to_nat c) (Z.to_nat n) (bytes m)) old
     else rc ∈ decode_errors)) as Hend.
  { mb_consumed. apply wp_ret. split; [done|]. eexists. split; [reflexivity|].
    destruct (Z.eqb_spec (c + n) len).
    - by rewrite bool_decide_true by lia.
    - rewrite bool_decide_false by lia. destruct (_ <? _); repeat constructor. }
  destruct (Z.eqb_spec n 0) as [->|]; [|destruct (Z.leb_spec (c + n) len)]; cbn [Z.eqb Z.opp];
    [exact Hend|exact Hend|fw_refused].
Qed.

Lemma decode_version_rd {A} m len c b v (set : pldm_firmware_string -> A) :
  mem_ok m -> mb_rd m len c b -> 0 <= c <= 4000 -> length (str_data v) = 64%nat ->
  let t := fld m (Z.to_nat c) 1 in let n := fld m (Z.to_nat (c + 1)) 1 in
  wp (decode_version v set) b (fun '(rc, a) b' => mb_done b' /\ exists v', a = set v' /\
    if bool_decide (t <= 5 /\ n <= 64 /\ c + 2 + n = len)
    then rc = 0 /\ v' = string_at m t n (c + 2) (str_data v)
    else rc ∈ decode_errors).
Proof.
  intros Hm Hb Hc Hv t n. unfold decode_version.
  pose proof (fld_bound m (Z.to_nat c) 1 (mem_ok_bytes _ Hm)) as Ht. fold t in Ht.
  pose proof (fld_bound m (Z.to_nat (c + 1)) 1 (mem_ok_bytes _ Hm)) as Hn. fold n in Hn.
  mb_extract. fold t. destruct (Z.leb_spec (c + 1) len); cbn [Z.eqb Z.opp]; [|fw_refused].
  cmp_case; [fw_refused|].
  mb_extract. fold n. destruct (Z.leb_spec (c + 1 + 1) len); cbn [Z.eqb Z.opp]; [|fw_refused].
  autounfold with msgbuf. eapply wp_mono.
  { apply (string_tail_rd m len (c + 1 + 1) b1 n (str_data v) (fun data => set (FwString t n data)));
      cbn in *; done || lia. }
  intros [rc a] b' (Hd & data & -> & H3). split; [done|]. eexists. split; [reflexivity|].
  unfold string_at. replace (c + 2) with (c + 1 + 1) by lia.
  rewrite (bool_decide_ext _ (t <= 5 /\ n <= 64 /\ c + 1 + 1 + n = len)) in H3 by tauto.
  destruct (bool_decide _); [|done]. by destruct H3 as [-> ->].
Qed.

(** An extraction whose outcome does not matter. *)
Ltac mb_extract_any :=
  mb_extract; match goal with |- wp (let '(_, _) := ?p in _) _ _ => destruct p as [? ?] end.

Section decoders.
Context (msg : pldm_msg) (len : Z).
Hypothesis Hmem : mem_ok (payload msg).
Hypothesis Hlen : 0 <= len <= mem_size (payload msg).

(** The condition a request with its version string at [c] has to meet. *)
Definition version_fits (c : nat) : bool :=
  bool_decide (field msg c 1 <= 5 /\ field msg (c + 1) 1 <= 64 /\
               Z.of_nat c + 2 + field msg (c + 1) 1 = len).

Definition version_at (c : nat) (old : list Z) : pldm_firmware_string :=
  string_at (payload msg) (field msg c 1) (field msg (c + 1) 1) (Z.of_nat c + 2) old.

Lemma version_at_ok c old :
  version_fits c = true -> length old = 64%nat -> string_ok (version_at c old).
Proof.
  intros (_ & Hn & _)%bool_decide_eq_true Hold. apply string_at_ok; [|done].
  pose proof (fld_bound (payload msg) (c + 1) 1 (mem_ok_bytes _ Hmem)). lia.
Qed.

Lemma version_fits_short c : len < Z.of_nat c -> version_fits c = false.
Proof.
  intros Hl. apply bool_decide_false.
  pose proof (fld_bound (payload msg) (c + 1) 1 (mem_ok_bytes _ Hmem)). lia.
Qed.

Lemma decode_version_at {A} (c : nat) b v (set : pldm_firmware_string -> A) Q :
  mb_rd (payload msg) len (Z.of_nat c) b -> (c <= 4000)%nat -> length (str_data v) = 64%nat ->
  (forall rc v' b', mb_done b' ->
     (if version_fits c then rc = 0 /\ v' = version_at c (str_data v) else rc ∈ decode_errors) ->
     Q (rc, set v') b') ->
  wp (decode_version v set) b Q.
Proof.
  intros Hb Hc Hv HQ.
  eapply wp_mono; [apply (decode_version_rd (payload msg) len (Z.of_nat c) b v set); done || lia|].
  intros [rc a] b' (Hd & v' & -> & H). apply HQ; [done|].
  replace (Z.of_nat c + 1) with (Z.of_nat (c + 1)) in H by lia. rewrite !Nat2Z.id in H.
  exact H.
Qed.

(** The decoders accept exactly the requests that end with their version string. *)
Lemma pass_component_table_ok r :
  length (str_data (pc_version r)) = 64%nat ->
  exists rc r', decode_pass_component_table_req (Some msg) len (Some r) = Ok (rc, Some r') /\
  if version_fits 10
  then rc = 0 /\ r' = PassReq (field msg 0 1) (field msg 1 2) (field msg 3 2) (field msg 5 1)
                        (field msg 6 4) (version_at 10 (str_data (pc_version r)))
  else rc ∈ decode_errors.
Proof.
  intros Hv. unfold decode_pass_component_table_req.
  match goal with |- context [decode_frame 0 msg len r ?k] =>
    destruct (decode_frame_fits 0 msg len Hmem Hlen r k (fun rc r' =>
      if version_fits 10
      then rc = 0 /\ r' = PassReq (field msg 0 1) (field msg 1 2) (field msg 3 2) (field msg 5 1)
                        (field msg 6 4) (version_at 10 (str_data (pc_version r)))
      else rc ∈ decode_errors)) as (rc & a & -> & H); [lia| |by exists rc, a] end.
  intros b Hb. destruct (Z.ltb_spec len 10).
  - do 5 mb_extract_any. apply (decode_version_at 10 _ _ _ _ Hb); [lia|done|].
    rewrite version_fits_short by lia. intros; done.
  - do 5 mb_extract_in. apply (decode_version_at 10 _ _ _ _ Hb); [lia|done|].
    intros rc v' b' Hd Hf. split; [done|]. destruct (version_fits 10); [|done]. by destruct Hf as [-> ->].
Qed.

Lemma update_component_ok r :
  length (str_data (up_version r)) = 64%nat ->
  exists rc r', decode_update_component_req (Some msg) len (Some r) = Ok (rc, Some r') /\
  if version_fits 17
  then rc = 0 /\ r' = UpReq (field msg 0 2) (field msg 2 2) (field msg 4 1) (field msg 5 4)
                        (version_at 17 (str_data (up_version r))) (field msg 9 4) (field msg 13 4)
  else rc ∈ decode_errors.
Proof.
  intros Hv. unfold decode_update_component_req.
  match goal with |- context [decode_frame 0 msg len r ?k] =>
    destruct (decode_frame_fits 0 msg len Hmem Hlen r k (fun rc r' =>
      if version_fits 17
      then rc = 0 /\ r' = UpReq (field msg 0 2) (field msg 2 2) (field msg 4 1) (field msg 5 4)
                        (version_at 17 (str_data (up_version r))) (field msg 9 4) (field msg 13 4)
      else rc ∈ decode_errors)) as (rc & a & -> & H); [lia| |by exists rc, a] end.
  intros b Hb. destruct (Z.ltb_spec len 17).
  - do 6 mb_extract_any. apply (decode_version_at 17 _ _ _ _ Hb); [lia|done|].
    rewrite version_fits_short by lia. intros; done.
  - do 6 mb_extract_in. apply (decode_version_at 17 _ _ _ _ Hb); [lia|done|].
    intros rc v' b' Hd Hf. split; [done|]. destruct (version_fits 17); [|done]. by destruct Hf as [-> ->].
Qed.

(** The text of the string is asked for with a length that may not have been read. *)
Lemma request_update_ok r :
  length (str_data (ru_image_set_ver r)) = 64%nat -> 0 <= str_len (ru_image_set_ver r) < 256 ->
  exists rc r', decode_request_update_req (Some msg) len (Some r) = Ok (rc, Some r') /\
  if version_fits 9
  then rc = 0 /\ r' = RuReq (field msg 0 4) (field msg 4 2) (field msg 6 1) (field msg 7 2)
                        (version_at 9 (str_data (ru_image_set_ver r)))
  else rc ∈ decode_errors.
Proof.
  intros Hv Hs. unfold decode_request_update_req.
  set (P := fun rc r' => if version_fits 9
      then rc = 0 /\ r' = RuReq (field msg 0 4) (field msg 4 2) (field msg 6 1) (field msg 7 2)
                        (version_at 9 (str_data (ru_image_set_ver r)))
      else rc ∈ decode_errors).
  match goal with |- context [decode_frame 0 msg len r ?k] =>
    destruct (decode_frame_fits 0 msg len Hmem Hlen r k P) as (rc & a & -> & H);
      [lia| |by exists rc, a] end.
  assert (forall rc (r' : pldm_request_update_req_full) b', mb_done b' -> version_fits 9 = false ->
    rc ∈ decode_errors -> mb_done b' /\ P rc r') as Hbad by (by intros rc r' b' ? E ?; unfold P; rewrite E).
  pose proof (fld_bound (payload msg) 10 1 (mem_ok_bytes _ Hmem)) as Hn.
  intros b Hb. unfold P, version_fits in *. change (9 + 1)%nat with 10%nat in *.
  destruct (Z.ltb_spec len 11).
  - rewrite bool_decide_false in * by lia. do 4 mb_extract_any.
    mb_extract. destruct (10 <=? len); cbn [Z.eqb Z.opp].
    2: { mb_discard. apply wp_ret, Hbad; [done..|repeat constructor]. }
    cmp_case. { mb_discard. apply wp_ret, Hbad; [done..|repeat constructor]. }
    mb_extract. cmp_case; [lia|]. autounfold with msgbuf. eapply wp_mono.
    { apply (string_tail_rd (payload msg) len 11 _ _ _ (fun data => RuReq _ _ _ _ (FwString _ _ data)) Hb);
        done || lia. }
    intros [rc a] b' (Hd & data & _ & Hdec). rewrite bool_decide_false in Hdec by lia. by apply Hbad.
  - do 5 mb_extract_in. cmp_case.
    { mb_discard. apply wp_ret. rewrite bool_decide_false by lia. split; [done|repeat constructor]. }
    mb_extract_in. autounfold with msgbuf. eapply wp_mono.
    { apply (string_tail_rd (payload msg) len 11 _ _ _ (fun data => RuReq _ _ _ _ (FwString _ _ data)) Hb);
        cbn in *; done || lia. }
    intros [rc a] b' (Hd & data & -> & Hdec). split; [done|].
    rewrite (bool_decide_ext _ (field msg 9 1 <= 5 /\ field msg 10 1 <= 64 /\
      Z.of_nat 9 + 2 + field msg 10 1 = len)) in Hdec by (cbn; tauto).
    destruct (bool_decide _); [|done]. by destruct Hdec as [-> ->].
Qed.

(** One byte, or an error: an attached buffer is never too short to attach. *)
Lemma activate_firmware_ok sc :
  decode_activate_firmware_req (Some msg) len (Some sc)
  = Ok (if len =? 1 then (0, Some (negb (field msg 0 1 =? 0)))
        else (if len <? 1 then - EOVERFLOW else - EBADMSG, Some sc)).
Proof.
  destruct Hmem. unfold decode_activate_firmware_req.
  match goal with |- context [msgbuf_scope ?o ?k] =>
    destruct (msgbuf_scope_wp o k (fun '(rc, v) _ =>
      (rc, Some v) = if len =? 1 then (0, Some (negb (field msg 0 1 =? 0)))
        else (if len <? 1 then - EOVERFLOW else - EBADMSG, Some sc)))
      as ([rc v] & m' & -> & HP) end.
  2: { by rewrite <- HP. }
  apply wp_bind, wp_init_rd; [lia..|]. intros b _. cmp_case; [|lia]. intros Hb. cmp_case; [|done].
  mb_extract. destruct (Z.leb_spec 1 len).
  - mb_consumed. destruct (Z.eqb_spec 1 len), (Z.eqb_spec len 1); try lia; cbn [Z.eqb Z.opp].
    + by apply wp_ret.
    + destruct (Z.ltb_spec 1 len), (Z.ltb_spec len 1); try lia. cbn [Z.eqb Z.opp]. by apply wp_ret.
  - mb_consumed. destruct (Z.eqb_spec 1 len), (Z.eqb_spec len 1); try lia; cbn [Z.eqb Z.opp].
    destruct (Z.ltb_spec 1 len), (Z.ltb_spec len 1); try lia. cbn [Z.eqb Z.opp]. by apply wp_ret.
Qed.
End decoders.

Lemma cancel_update_ok inst r msg len :
  0 <= inst <= 31 -> mem_place (payload msg) -> 0 <= len <= mem_size (payload msg) ->
  framed PLDM_RESPONSE inst PLDM_CANCEL_UPDATE msg len
    (encode_cancel_update_resp inst r (Some msg) (Some len)) (fun rc l _ => fits_or_fails len rc l).
Proof.
  intros Hinst Hmem Hlen. apply fwup_frame_ok; [repeat constructor|done..|].
  intros b Hb. fw_fields. apply wp_bind.
  eapply (wp_insert_wr _ _ 8 (non_functioning_component_bitmap r) _ _ _ Hb); [lia|].
  intros b1 Hb1. clear Hb. cbn [Z.opp].
  eapply complete_fits; [exact Hb1|wr_len|]. intros; done.
Qed.

(** C25: which requests a device accepts.  For any payload whatever, the decoders
    of PassComponentTable, UpdateComponent, RequestUpdate and ActivateFirmware
    requests return without reading outside it, and answer 0 exactly if it ends with
    its version string, of a type of the standard and at most 64 bytes, respectively
    if it is one byte; then every field is the little-endian value at its offset and
    the string is as long as it says. Otherwise they answer one of three errors. *)
Theorem request_decoders_accept msg len pc up ru sc :
  mem_ok (payload msg) -> 0 <= len <= mem_size (payload msg) ->
  length (str_data (pc_version pc)) = 64%nat -> length (str_data (up_version up)) = 64%nat ->
  length (str_data (ru_image_set_ver ru)) = 64%nat -> 0 <= str_len (ru_image_set_ver ru) < 256 ->
  (exists rc r, decode_pass_component_table_req (Some msg) len (Some pc) = Ok (rc, Some r) /\
     (if version_fits msg len 10
      then rc = 0 /\ string_ok (pc_version r) /\
        r = PassReq (field msg 0 1) (field msg 1 2) (field msg 3 2) (field msg 5 1) (field msg 6 4)
              (version_at msg 10 (str_data (pc_version pc)))
      else rc ∈ decode_errors)) /\
  (exists rc r, decode_update_component_req (Some msg) len (Some up) = Ok (rc, Some r) /\
     (if version_fits msg len 17
      then rc = 0 /\ string_ok (up_version r) /\
        r = UpReq (field msg 0 2) (field msg 2 2) (field msg 4 1) (field msg 5 4)
              (version_at msg 17 (str_data (up_version up))) (field msg 9 4) (field msg 13 4)
      else rc ∈ decode_errors)) /\
  (exists rc r, decode_request_update_req (Some msg) len (Some ru) = Ok (rc, Some r) /\
     (if version_fits msg len 9
      then rc = 0 /\ string_ok (ru_image_set_ver r) /\
        r = RuReq (field msg 0 4) (field msg 4 2) (field msg 6 1) (field msg 7 2)
              (version_at msg 9 (str_data (ru_image_set_ver ru)))
      else rc ∈ decode_errors)) /\
  decode_activate_firmware_req (Some msg) len (Some sc)
  = Ok (if len =? 1 then (0, Some (negb (field msg 0 1 =? 0)))
        else (if len <? 1 then - EOVERFLOW else - EBADMSG, Some sc)).
Proof.
  intros Hm Hl H1 H2 H3 H4. split_and!.
  - destruct (pass_component_table_ok msg len Hm Hl pc H1) as (rc & r & E & H). exists rc, r. split; [done|].
    destruct (version_fits msg len 10) eqn:Ef; [|done]. destruct H as [-> ->]. split_and!; [done| |done].
    by eapply version_at_ok.
  - destruct (update_component_ok msg len Hm Hl up H2) as (rc & r & E & H). exists rc, r. split; [done|].
    destruct (version_fits msg len 17) eqn:Ef; [|done]. destruct H as [-> ->]. split_and!; [done| |done].
    by eapply version_at_ok.
  - destruct (request_update_ok msg len Hm Hl ru H3 H4) as (rc & r & E & H). exists rc, r. split; [done|].
    destruct (version_fits msg len 9) eqn:Ef; [|done]. destruct H as [-> ->]. split_and!; [done| |done].
    by eapply version_at_ok.
  - by apply activate_firmware_ok.
Qed.

Lemma request_decoders_accept_witness :
  let msg := Msg (packed 1 0 0 0) (CMem 64 [5; 10; 0; 20; 0; 0; 1; 0; 0; 0; 1; 2; 65; 66]) in
  let old := FwString 0 0 (replicate 64 0) in
  version_fits msg 14 10 = true /\
  exists rc r, decode_pass_component_table_req (Some msg) 14 (Some (PassReq 0 0 0 0 0 old)) = Ok (rc, Some r) /\
     (if version_fits msg 14 10
      then rc = 0 /\ string_ok (pc_version r) /\
        r = PassReq (field msg 0 1) (field msg 1 2) (field msg 3 2) (field msg 5 1) (field msg 6 4)
              (version_at msg 10 (str_data old))
      else rc ∈ decode_errors).
Proof.
  intros msg old. split; [reflexivity|].
  destruct (request_decoders_accept msg 14 (PassReq 0 0 0 0 0 old) (UpReq 0 0 0 0 old 0 0)
    (RuReq 0 0 0 0 old) false) as (H & _); [concrete..|exact H].
Defined.
