(* ===== verification/UpdateAgent.v ===== *)
(** * The firmware update messages of an update agent (src/dsp/firmware_update.c)

    The other half of the dialogue: the encoders of the commands an update agent
    sends, the decoders of what the device sends, and that the two halves fit.  These
    are the older functions of the file, which lay structs over the payload and
    answer with completion codes. *)

From S2P Require Import Prelude Msgbuf Utils Base Legacy FwUpdate.

(** ** Constants *)

Abbreviation PLDM_FWUP_INVALID_TRANSFER_LENGTH := 0x83 (only parsing).
Abbreviation PLDM_FWUP_INVALID_TRANSFER_OPERATION_FLAG := 0x91 (only parsing).
Abbreviation PLDM_FWUP_MIN_OUTSTANDING_REQ := 1 (only parsing).
Abbreviation PLDM_FWUP_MAX_PROGRESS_PERCENT := 0x65 (only parsing).

(** ** Enumerations a message may carry *)

Definition is_comp_resp_valid (comp_resp : Z) : bool :=
  match comp_resp with 0 | 1 => true | _ => false end.

Definition is_comp_resp_code_valid (comp_resp_code : Z) : bool :=
  match comp_resp_code with
  | 0 | 1 | 2 | 3 | 4 | 5 | 6 | 7 | 8 | 9 | 10 | 11 => true
  | _ => (0xd0 <=? comp_resp_code) && (comp_resp_code <=? 0xef)
  end.

Definition is_comp_compatibility_resp_valid (comp_compatibility_resp : Z) : bool :=
  match comp_compatibility_resp with 0 | 1 => true | _ => false end.

Definition is_comp_compatibility_resp_code_valid (comp_compatibility_resp_code : Z) : bool :=
  match comp_compatibility_resp_code with
  | 0 | 1 | 2 | 3 | 4 | 5 | 6 | 7 | 8 | 9 | 10 | 11 => true
  | _ => (0xd0 <=? comp_compatibility_resp_code) && (comp_compatibility_resp_code <=? 0xef)
  end.

Definition is_self_contained_activation_req_valid (self_contained_activation_req : Z) : bool :=
  match self_contained_activation_req with 0 | 1 => true | _ => false end.

Definition is_state_valid (state : Z) : bool :=
  match state with 0 | 1 | 2 | 3 | 4 | 5 | 6 => true | _ => false end.

Definition is_aux_state_valid (aux_state : Z) : bool :=
  match aux_state with 0 | 1 | 2 | 3 | 4 => true | _ => false end.

Definition is_aux_state_status_valid (aux_state_status : Z) : bool :=
  (aux_state_status =? 0x00) || (aux_state_status =? 0x09) || (aux_state_status =? 0x0a)
  || ((0x70 <=? aux_state_status) && (aux_state_status <=? 0xef)).

Definition is_reason_code_valid (reason_code : Z) : bool :=
  match reason_code with
  | 0 | 1 | 2 | 3 | 4 | 5 | 6 | 7 => true
  | _ => 200 <=? reason_code
  end.

Definition is_non_functioning_component_indication_valid (indication : Z) : bool :=
  match indication with 0 | 1 => true | _ => false end.

(** ** Requests of the update agent *)

Definition encode_request_update_req (instance_id max_transfer_size num_of_comp
    max_outstanding_transfer_req pkg_data_len comp_image_set_ver_str_type
    comp_image_set_ver_str_len : Z) (comp_img_set_ver_str : option variable_field)
    (msg : option pldm_msg) (payload_length : Z) : outcome (Z * option pldm_msg) :=
  match comp_img_set_ver_str, msg with
  | Some (VarField (Some ver) ver_length), Some m =>
    if negb (payload_length =? u64 (11 + ver_length)) then Ok (PLDM_ERROR_INVALID_LENGTH, msg)
    else if (comp_image_set_ver_str_len =? 0) || negb (comp_image_set_ver_str_len =? ver_length) then
      Ok (PLDM_ERROR_INVALID_DATA, msg)
    else if (max_transfer_size <? PLDM_FWUP_BASELINE_TRANSFER_SIZE)
            || (max_outstanding_transfer_req <? PLDM_FWUP_MIN_OUTSTANDING_REQ) then
      Ok (PLDM_ERROR_INVALID_DATA, msg)
    else if negb (is_string_type_valid comp_image_set_ver_str_type) then
      Ok (PLDM_ERROR_INVALID_DATA, msg)
    else
    legacy_frame PLDM_REQUEST instance_id PLDM_FWUP PLDM_REQUEST_UPDATE m (fun m =>
      m ← put_members m 0 [(4%nat, max_transfer_size); (2%nat, num_of_comp);
            (1%nat, max_outstanding_transfer_req); (2%nat, pkg_data_len);
            (1%nat, comp_image_set_ver_str_type); (1%nat, comp_image_set_ver_str_len)];
      l ← mem_read ver 0 ver_length;
      m ← payload_write m 11 l;
      mret (PLDM_SUCCESS, Some m))
  | _, _ => Ok (PLDM_ERROR_INVALID_DATA, msg)
  end.

Definition encode_pass_component_table_req (instance_id transfer_flag comp_classification
    comp_identifier comp_classification_index comp_comparison_stamp comp_ver_str_type
    comp_ver_str_len : Z) (comp_ver_str : option variable_field) (msg : option pldm_msg)
    (payload_length : Z) : outcome (Z * option pldm_msg) :=
  match comp_ver_str, msg with
  | Some (VarField (Some ver) ver_length), Some m =>
    if negb (payload_length =? u64 (12 + ver_length)) then Ok (PLDM_ERROR_INVALID_LENGTH, msg)
    else if (comp_ver_str_len =? 0) || negb (comp_ver_str_len =? ver_length) then
      Ok (PLDM_ERROR_INVALID_DATA, msg)
    else if negb (is_transfer_flag_valid transfer_flag) then
      Ok (PLDM_FWUP_INVALID_TRANSFER_OPERATION_FLAG, msg)
    else if negb (is_string_type_valid comp_ver_str_type) then Ok (PLDM_ERROR_INVALID_DATA, msg)
    else
    legacy_frame PLDM_REQUEST instance_id PLDM_FWUP PLDM_PASS_COMPONENT_TABLE m (fun m =>
      m ← put_members m 0 [(1%nat, transfer_flag); (2%nat, comp_classification);
            (2%nat, comp_identifier); (1%nat, comp_classification_index);
            (4%nat, comp_comparison_stamp); (1%nat, comp_ver_str_type); (1%nat, comp_ver_str_len)];
      l ← mem_read ver 0 ver_length;
      m ← payload_write m 12 l;
      mret (PLDM_SUCCESS, Some m))
  | _, _ => Ok (PLDM_ERROR_INVALID_DATA, msg)
  end.

Definition encode_update_component_req (instance_id comp_classification comp_identifier
    comp_classification_index comp_comparison_stamp comp_image_size update_option_flags
    comp_ver_str_type comp_ver_str_len : Z) (comp_ver_str : option variable_field)
    (msg : option pldm_msg) (payload_length : Z) : outcome (Z * option pldm_msg) :=
  match comp_ver_str, msg with
  | Some (VarField (Some ver) ver_length), Some m =>
    if negb (payload_length =? u64 (19 + ver_length)) then Ok (PLDM_ERROR_INVALID_LENGTH, msg)
    else if comp_image_size =? 0 then Ok (PLDM_ERROR_INVALID_DATA, msg)
    else if (comp_ver_str_len =? 0) || negb (comp_ver_str_len =? ver_length) then
      Ok (PLDM_ERROR_INVALID_DATA, msg)
    else if negb (is_string_type_valid comp_ver_str_type) then Ok (PLDM_ERROR_INVALID_DATA, msg)
    else
    legacy_frame PLDM_REQUEST instance_id PLDM_FWUP PLDM_UPDATE_COMPONENT m (fun m =>
      m ← put_members m 0 [(2%nat, comp_classification); (2%nat, comp_identifier);
            (1%nat, comp_classification_index); (4%nat, comp_comparison_stamp);
            (4%nat, comp_image_size); (4%nat, update_option_flags);
            (1%nat, comp_ver_str_type); (1%nat, comp_ver_str_len)];
      l ← mem_read ver 0 ver_length;
      m ← payload_write m 19 l;
      mret (PLDM_SUCCESS, Some m))
  | _, _ => Ok (PLDM_ERROR_INVALID_DATA, msg)
  end.

Definition encode_activate_firmware_req (instance_id self_contained_activation_req : Z)
    (msg : option pldm_msg) (payload_length : Z) : outcome (Z * option pldm_msg) :=
  match msg with
  | None => Ok (PLDM_ERROR_INVALID_DATA, msg)
  | Some m =>
    if negb (payload_length =? 1) then Ok (PLDM_ERROR_INVALID_LENGTH, msg)
    else if negb (is_self_contained_activation_req_valid self_contained_activation_req) then
      Ok (PLDM_ERROR_INVALID_DATA, msg)
    else
    legacy_frame PLDM_REQUEST instance_id PLDM_FWUP PLDM_ACTIVATE_FIRMWARE m (fun m =>
      m ← payload_write m 0 [self_contained_activation_req];
      mret (PLDM_SUCCESS, Some m))
  end.

(** A request without a payload, as [encode_get_status_req] and the two
    cancellations are. *)
Definition empty_req (instance_id command : Z) (msg : option pldm_msg) (payload_length : Z)
  : outcome (Z * option pldm_msg) :=
  match msg with
  | None => Ok (PLDM_ERROR_INVALID_DATA, msg)
  | Some m =>
    if negb (payload_length =? 0) then Ok (PLDM_ERROR_INVALID_LENGTH, msg)
    else legacy_frame PLDM_REQUEST instance_id PLDM_FWUP command m header_only
  end.

Definition encode_get_status_req (instance_id : Z) (msg : option pldm_msg) (payload_length : Z)
  : outcome (Z * option pldm_msg) := empty_req instance_id PLDM_GET_STATUS msg payload_length.
Definition encode_cancel_update_component_req (instance_id : Z) (msg : option pldm_msg)
    (payload_length : Z) : outcome (Z * option pldm_msg) :=
  empty_req instance_id PLDM_CANCEL_UPDATE_COMPONENT msg payload_length.
Definition encode_cancel_update_req (instance_id : Z) (msg : option pldm_msg) (payload_length : Z)
  : outcome (Z * option pldm_msg) := empty_req instance_id PLDM_CANCEL_UPDATE msg payload_length.

(** ** Responses of the device *)

(** The start of every decoder of a response: the completion code, and [k] if it is a
    success and the payload has the length of the struct.  [none] is what the
    decoder leaves of its other outputs otherwise. *)
Definition decode_resp {A} (msg : option pldm_msg) (payload_length size : Z)
    (completion_code : option Z) (none : A) (outputs : bool)
    (k : pldm_msg -> outcome (Z * A)) : outcome (Z * option Z * A) :=
  match msg, completion_code with
  | Some m, Some _ =>
    if negb outputs || (payload_length =? 0) then Ok (PLDM_ERROR_INVALID_DATA, completion_code, none)
    else
    cc ← member m 0 1;
    if negb (cc =? PLDM_SUCCESS) then mret (PLDM_SUCCESS, Some cc, none)
    else if negb (payload_length =? size) then mret (PLDM_ERROR_INVALID_LENGTH, Some cc, none)
    else
    '(rc, a) ← k m;
    mret (rc, Some cc, a)
  | _, _ => Ok (PLDM_ERROR_INVALID_DATA, completion_code, none)
  end.

Definition decode_request_update_resp (msg : option pldm_msg) (payload_length : Z)
    (completion_code fd_meta_data_len fd_will_send_pkg_data : option Z)
  : outcome (Z * option Z * (option Z * option Z)) :=
  decode_resp msg payload_length 4 completion_code (fd_meta_data_len, fd_will_send_pkg_data)
    (given fd_meta_data_len && given fd_will_send_pkg_data) (fun m =>
      len ← member m 1 2;
      will ← member m 3 1;
      mret (PLDM_SUCCESS, (Some len, Some will))).

Definition decode_pass_component_table_resp (msg : option pldm_msg) (payload_length : Z)
    (completion_code comp_resp comp_resp_code : option Z)
  : outcome (Z * option Z * (option Z * option Z)) :=
  decode_resp msg payload_length 3 completion_code (comp_resp, comp_resp_code)
    (given comp_resp && given comp_resp_code) (fun m =>
      r ← member m 1 1;
      c ← member m 2 1;
      if negb (is_comp_resp_valid r) then
        mret (PLDM_ERROR_INVALID_DATA, (comp_resp, comp_resp_code))
      else if negb (is_comp_resp_code_valid c) then
        mret (PLDM_ERROR_INVALID_DATA, (comp_resp, comp_resp_code))
      else mret (PLDM_SUCCESS, (Some r, Some c))).

Definition decode_update_component_resp (msg : option pldm_msg) (payload_length : Z)
    (completion_code comp_compatibility_resp comp_compatibility_resp_code
     update_option_flags_enabled time_before_req_fw_data : option Z)
  : outcome (Z * option Z * (option Z * option Z * option Z * option Z)) :=
  let none := (comp_compatibility_resp, comp_compatibility_resp_code,
               update_option_flags_enabled, time_before_req_fw_data) in
  decode_resp msg payload_length 9 completion_code none
    (given comp_compatibility_resp && given comp_compatibility_resp_code
     && given update_option_flags_enabled && given time_before_req_fw_data) (fun m =>
      r ← member m 1 1;
      c ← member m 2 1;
      if negb (is_comp_compatibility_resp_valid r) then mret (PLDM_ERROR_INVALID_DATA, none)
      else if negb (is_comp_compatibility_resp_code_valid c) then mret (PLDM_ERROR_INVALID_DATA, none)
      else
      flags ← member m 3 4;
      time ← member m 7 2;
      mret (PLDM_SUCCESS, (Some r, Some c, Some flags, Some time))).

Definition decode_activate_firmware_resp (msg : option pldm_msg) (payload_length : Z)
    (completion_code estimated_time_activation : option Z) : outcome (Z * option Z * option Z) :=
  decode_resp msg payload_length 3 completion_code estimated_time_activation
    (given estimated_time_activation) (fun m =>
      t ← member m 1 2;
      mret (PLDM_SUCCESS, Some t)).

(** The checks of GetStatus's decoder, in order. *)
Definition status_valid (s : pldm_get_status_resp) : bool :=
  is_state_valid (st_current_state s) && is_state_valid (st_previous_state s)
  && is_aux_state_valid (st_aux_state s) && is_aux_state_status_valid (st_aux_state_status s)
  && negb (PLDM_FWUP_MAX_PROGRESS_PERCENT <? st_progress_percent s)
  && is_reason_code_valid (st_reason_code s)
  && (if st_current_state s =? 0 then (st_aux_state s =? 3) || (st_aux_state s =? 4)
      else if (st_current_state s =? 1) || (st_current_state s =? 2) then st_aux_state s =? 3
      else true).

(** The outputs are the members of a struct here; the completion code is one of them. *)
Definition decode_get_status_resp (msg : option pldm_msg) (payload_length : Z)
    (status : option pldm_get_status_resp) : outcome (Z * option pldm_get_status_resp) :=
  match status with
  | None => Ok (PLDM_ERROR_INVALID_DATA, None)
  | Some s =>
    let with_cc cc := StatusResp cc (st_current_state s) (st_previous_state s) (st_aux_state s)
      (st_aux_state_status s) (st_progress_percent s) (st_reason_code s)
      (st_update_option_flags_enabled s) in
    '(rc, cc, r) ← decode_resp msg payload_length 11 (Some (st_completion_code s)) None true (fun m =>
      current ← member m 1 1;
      previous ← member m 2 1;
      aux ← member m 3 1;
      aux_status ← member m 4 1;
      progress ← member m 5 1;
      reason ← member m 6 1;
      flags ← member m 7 4;
      let r := StatusResp PLDM_SUCCESS current previous aux aux_status progress reason flags in
      if negb (status_valid r) then mret (PLDM_ERROR_INVALID_DATA, None)
      else mret (PLDM_SUCCESS, Some r));
    mret (rc, Some (default (with_cc (default (st_completion_code s) cc)) r))
  end.

Definition decode_cancel_update_component_resp (msg : option pldm_msg) (payload_length : Z)
    (completion_code : option Z) : outcome (Z * option Z) :=
  match msg, completion_code with
  | Some m, Some _ =>
    if negb (payload_length =? 1) then Ok (PLDM_ERROR_INVALID_LENGTH, completion_code)
    else cc ← member m 0 1; mret (PLDM_SUCCESS, Some cc)
  | _, _ => Ok (PLDM_ERROR_INVALID_DATA, completion_code)
  end.

Definition decode_cancel_update_resp (msg : option pldm_msg) (payload_length : Z)
    (completion_code non_functioning_component_indication non_functioning_component_bitmap : option Z)
  : outcome (Z * option Z * (option Z * option Z)) :=
  let none := (non_functioning_component_indication, non_functioning_component_bitmap) in
  decode_resp msg payload_length 10 completion_code none
    (given non_functioning_component_indication && given non_functioning_component_bitmap) (fun m =>
      i ← member m 1 1;
      if negb (is_non_functioning_component_indication_valid i) then
        mret (PLDM_ERROR_INVALID_DATA, none)
      else if negb (i =? 0) then
        b ← member m 2 8;
        mret (PLDM_SUCCESS, (Some i, Some b))
      else mret (PLDM_SUCCESS, (Some i, non_functioning_component_bitmap))).

(** ** Requests of the device, and the agent's answers *)

(** The offset and the length are stored before the length is judged. *)
Definition decode_request_firmware_data_req (msg : option pldm_msg) (payload_length : Z)
    (offset length : option Z) : outcome (Z * option Z * option Z) :=
  match msg, offset, length with
  | Some m, Some _, Some _ =>
    if negb (payload_length =? 8) then Ok (PLDM_ERROR_INVALID_LENGTH, offset, length)
    else
    off ← member m 0 4;
    len ← member m 4 4;
    if len <? PLDM_FWUP_BASELINE_TRANSFER_SIZE then
      mret (PLDM_FWUP_INVALID_TRANSFER_LENGTH, Some off, Some len)
    else mret (PLDM_SUCCESS, Some off, Some len)
  | _, _, _ => Ok (PLDM_ERROR_INVALID_DATA, offset, length)
  end.

(** The data behind the completion code is the caller's to fill in. *)
Definition encode_request_firmware_data_resp (instance_id completion_code : Z)
    (msg : option pldm_msg) (payload_length : Z) : outcome (Z * option pldm_msg) :=
  match msg with
  | None => Ok (PLDM_ERROR_INVALID_DATA, msg)
  | Some m =>
    if payload_length =? 0 then Ok (PLDM_ERROR_INVALID_DATA, msg)
    else
    legacy_frame PLDM_RESPONSE instance_id PLDM_FWUP PLDM_REQUEST_FIRMWARE_DATA m (fun m =>
      m ← payload_write m 0 [completion_code];
      mret (PLDM_SUCCESS, Some m))
  end.

(** TransferComplete and VerifyComplete carry one byte. *)
Definition decode_result_req (msg : option pldm_msg) (payload_length : Z) (result : option Z)
  : outcome (Z * option Z) :=
  match msg, result with
  | Some m, Some _ =>
    if negb (payload_length =? 1) then Ok (PLDM_ERROR_INVALID_LENGTH, result)
    else r ← member m 0 1; mret (PLDM_SUCCESS, Some r)
  | _, _ => Ok (PLDM_ERROR_INVALID_DATA, result)
  end.

Definition encode_result_resp (instance_id command completion_code : Z) (msg : option pldm_msg)
    (payload_length : Z) : outcome (Z * option pldm_msg) :=
  match msg with
  | None => Ok (PLDM_ERROR_INVALID_DATA, msg)
  | Some m =>
    if negb (payload_length =? 1) then Ok (PLDM_ERROR_INVALID_LENGTH, msg)
    else
    legacy_frame PLDM_RESPONSE instance_id PLDM_FWUP command m (fun m =>
      m ← payload_write m 0 [completion_code];
      mret (PLDM_SUCCESS, Some m))
  end.

Definition decode_transfer_complete_req := decode_result_req.
Definition decode_verify_complete_req := decode_result_req.
Definition encode_transfer_complete_resp (instance_id completion_code : Z) :=
  encode_result_resp instance_id PLDM_TRANSFER_COMPLETE completion_code.
Definition encode_verify_complete_resp (instance_id completion_code : Z) :=
  encode_result_resp instance_id PLDM_VERIFY_COMPLETE completion_code.
Definition encode_apply_complete_resp (instance_id completion_code : Z) :=
  encode_result_resp instance_id PLDM_APPLY_COMPLETE completion_code.

Definition decode_apply_complete_req (msg : option pldm_msg) (payload_length : Z)
    (apply_result comp_activation_methods_modification : option Z)
  : outcome (Z * option Z * option Z) :=
  match msg, apply_result, comp_activation_methods_modification with
  | Some m, Some _, Some _ =>
    if negb (payload_length =? 3) then
      Ok (PLDM_ERROR_INVALID_LENGTH, apply_result, comp_activation_methods_modification)
    else
    r ← member m 0 1;
    mods ← member m 1 2;
    if negb (r =? 1) && negb (mods =? 0) then mret (PLDM_ERROR_INVALID_DATA, Some r, Some mods)
    else mret (PLDM_SUCCESS, Some r, Some mods)
  | _, _, _ =>
    Ok (PLDM_ERROR_INVALID_DATA, apply_result, comp_activation_methods_modification)
  end.

(** ** The codecs on the wire *)

(** An encoder whose fields fit. *)
Lemma fields_sent ty inst cmd err msg len fs :
  ty ∈ [PLDM_RESPONSE; PLDM_REQUEST; PLDM_ASYNC_REQUEST_NOTIFY] -> 0 <= inst <= 31 ->
  mem_place (payload msg) -> 0 <= len <= mem_size (payload msg) ->
  Z.of_nat (length fs) <= 1024 -> Z.of_nat (length (fields_bytes fs)) <= len ->
  fwup_fields ty inst cmd err msg len fs
  = Ok (0, Some (Msg (packed ty inst PLDM_FWUP cmd) (wrote (payload msg) (fields_bytes fs))),
        Some (Z.of_nat (length (fields_bytes fs)))).
Proof.
  intros Hty Hi Hm Hlen Hn Hfit.
  destruct (fwup_fields_ok ty inst cmd err msg len Hty Hi Hm Hlen fs Hn) as (rc & l & m & -> & _ & H).
  destruct (Z.leb_spec (Z.of_nat (length (fields_bytes fs))) len); [|lia]. by destruct H as (-> & -> & ->).
Qed.

Definition result_ok (v : Z) : Prop := byte_ok v.
(** An encoder of the device and the decoder of its message. *)
Ltac device_message enc dec :=
  unfold enc; rewrite fields_sent by (done || (cbn; lia) || (repeat constructor));
  eexists; split; [reflexivity|];
  match goal with H : forall fs, _ -> mem_size _ = _ |- context [wrote _ (fields_bytes ?fs)] =>
    let E := fresh in pose proof (H fs ltac:(cbn; lia)) as E end;
  unfold decode_transfer_complete_req, decode_verify_complete_req, dec, decode_resp, given;
  cbn [negb andb orb Z.eqb Pos.eqb]; read_members;
  unfold wrote, fields_bytes; cbn [fmap list_fmap concat kind_size]; rewrite <- ?app_assoc;
  wire; small;
  cbn [negb Z.eqb rfd_offset rfd_length ac_apply_result ac_comp_activation_methods_modification
    ru_fd_meta_data_len ru_fd_will_send_pkg_data pc_comp_resp pc_comp_resp_code
    up_comp_compatibility_resp up_comp_compatibility_resp_code up_update_option_flags_enabled
    up_time_before_req_fw_data estimated_time_activation].

Lemma get_status_roundtrip inst msg len st st0 :
  mem_place (payload msg) -> 11 <= len <= mem_size (payload msg) -> 0 <= inst <= 31 ->
  st_completion_code st = 0 -> byte_ok (st_current_state st) -> byte_ok (st_previous_state st) ->
  byte_ok (st_aux_state st) -> byte_ok (st_aux_state_status st) -> byte_ok (st_progress_percent st) ->
  byte_ok (st_reason_code st) -> u32_ok (st_update_option_flags_enabled st) ->
  exists m, encode_get_status_resp inst (Some st) (Some msg) (Some len) = Ok (0, Some m, Some 11) /\
   hdr m = packed PLDM_RESPONSE inst PLDM_FWUP PLDM_GET_STATUS /\ same_place (payload msg) (payload m) /\
   decode_get_status_resp (Some m) 11 (Some st0)
   = Ok (if status_valid st then (PLDM_SUCCESS, Some st)
         else (PLDM_ERROR_INVALID_DATA, Some (StatusResp 0 (st_current_state st0)
           (st_previous_state st0) (st_aux_state st0) (st_aux_state_status st0)
           (st_progress_percent st0) (st_reason_code st0) (st_update_option_flags_enabled st0)))).
Proof.
  intros Hm Hlen Hi Hst0 Hs1 Hs2 Hs3 Hs4 Hs5 Hs6 Hs7.
  unfold encode_get_status_resp. rewrite Hst0. destruct st as [cc s1 s2 s3 s4 s5 s6 s7]; cbn in * |-. subst cc.
  rewrite fields_sent by (done || (cbn; lia) || (repeat constructor)).
  match goal with |- context [wrote ?m ?l] => assert (mem_size (wrote m l) = mem_size m) as Hw
    by (apply mem_size_wrote; unfold mem_size in *; cbn; lia) end.
  eexists. split; [reflexivity|]. split; [done|]. split; [by split|].
  unfold decode_get_status_resp, decode_resp. cbn [negb andb orb Z.eqb Pos.eqb]. read_members.
  unfold wrote, fields_bytes. cbn [fmap list_fmap concat kind_size]. rewrite <- ?app_assoc.
  wire. small. cbn [negb Z.eqb]. by destruct (status_valid _).
Qed.

(** C23: what the device sends, the update agent reads.  RequestFirmwareData,
    TransferComplete, VerifyComplete and ApplyComplete requests and the responses to
    RequestUpdate, PassComponentTable, UpdateComponent, ActivateFirmware and GetStatus
    decode to the values that were encoded, except that a RequestFirmwareData for
    less than the baseline transfer size is called an invalid length with its
    offset and length filled in, and that answers outside the enumerations of the
    standard are invalid data. *)
Theorem device_messages_roundtrip inst msg len off size res mods est ccr code flags time st st0 :
  mem_place (payload msg) -> 11 <= len <= mem_size (payload msg) -> 0 <= inst <= 31 ->
  u32_ok off -> u32_ok size -> byte_ok res -> u16_ok mods -> u16_ok est ->
  byte_ok ccr -> byte_ok code -> u32_ok flags -> u16_ok time ->
  st_completion_code st = 0 -> byte_ok (st_current_state st) -> byte_ok (st_previous_state st) ->
  byte_ok (st_aux_state st) -> byte_ok (st_aux_state_status st) -> byte_ok (st_progress_percent st) ->
  byte_ok (st_reason_code st) -> u32_ok (st_update_option_flags_enabled st) ->
  (exists m, encode_request_firmware_data_req inst (RfdReq off size) (Some msg) (Some len)
     = Ok (0, Some m, Some 8) /\
   decode_request_firmware_data_req (Some m) 8 (Some 0) (Some 0)
   = Ok (if size <? 32 then PLDM_FWUP_INVALID_TRANSFER_LENGTH else PLDM_SUCCESS, Some off, Some size)) /\
  (exists m, encode_transfer_complete_req inst res (Some msg) (Some len) = Ok (0, Some m, Some 1) /\
   decode_transfer_complete_req (Some m) 1 (Some 0) = Ok (PLDM_SUCCESS, Some res)) /\
  (exists m, encode_verify_complete_req inst res (Some msg) (Some len) = Ok (0, Some m, Some 1) /\
   decode_verify_complete_req (Some m) 1 (Some 0) = Ok (PLDM_SUCCESS, Some res)) /\
  (exists m, encode_apply_complete_req inst (AcReq res mods) (Some msg) (Some len)
     = Ok (0, Some m, Some 3) /\
   decode_apply_complete_req (Some m) 3 (Some 0) (Some 0)
   = Ok (if negb (res =? 1) && negb (mods =? 0) then PLDM_ERROR_INVALID_DATA else PLDM_SUCCESS,
         Some res, Some mods)) /\
  (exists m, encode_request_update_resp inst (RuResp est res) (Some msg) (Some len)
     = Ok (0, Some m, Some 4) /\
   decode_request_update_resp (Some m) 4 (Some 0) (Some 0) (Some 0)
   = Ok (PLDM_SUCCESS, Some PLDM_SUCCESS, (Some est, Some res))) /\
  (exists m, encode_pass_component_table_resp inst (PassResp ccr code) (Some msg) (Some len)
     = Ok (0, Some m, Some 3) /\
   decode_pass_component_table_resp (Some m) 3 (Some 0) (Some 0) (Some 0)
   = Ok (if is_comp_resp_valid ccr && is_comp_resp_code_valid code
         then (PLDM_SUCCESS, Some PLDM_SUCCESS, (Some ccr, Some code))
         else (PLDM_ERROR_INVALID_DATA, Some PLDM_SUCCESS, (Some 0, Some 0)))) /\
  (exists m, encode_update_component_resp inst (UpResp ccr code flags time) (Some msg) (Some len)
     = Ok (0, Some m, Some 9) /\
   decode_update_component_resp (Some m) 9 (Some 0) (Some 0) (Some 0) (Some 0) (Some 0)
   = Ok (if is_comp_compatibility_resp_valid ccr && is_comp_compatibility_resp_code_valid code
         then (PLDM_SUCCESS, Some PLDM_SUCCESS, (Some ccr, Some code, Some flags, Some time))
         else (PLDM_ERROR_INVALID_DATA, Some PLDM_SUCCESS, (Some 0, Some 0, Some 0, Some 0)))) /\
  (exists m, encode_activate_firmware_resp inst (ActResp est) (Some msg) (Some len)
     = Ok (0, Some m, Some 3) /\
   decode_activate_firmware_resp (Some m) 3 (Some 0) (Some 0)
   = Ok (PLDM_SUCCESS, Some PLDM_SUCCESS, Some est)) /\
  (exists m, encode_get_status_resp inst (Some st) (Some msg) (Some len) = Ok (0, Some m, Some 11) /\
   decode_get_status_resp (Some m) 11 (Some st0)
   = Ok (if status_valid st then (PLDM_SUCCESS, Some st)
         else (PLDM_ERROR_INVALID_DATA, Some (StatusResp 0 (st_current_state st0)
           (st_previous_state st0) (st_aux_state st0) (st_aux_state_status st0)
           (st_progress_percent st0) (st_reason_code st0) (st_update_option_flags_enabled st0))))).
Proof.
  intros Hm Hlen Hi Hoff Hsize Hres Hmods Hest Hccr Hcode Hfl Htime Hst0 Hs1 Hs2 Hs3 Hs4 Hs5 Hs6 Hs7.
  assert (forall fs, Z.of_nat (length (fields_bytes fs)) <= 11 ->
    mem_size (wrote (payload msg) (fields_bytes fs)) = mem_size (payload msg)) as Hw.
  { intros fs Hf. apply mem_size_wrote. unfold mem_size in *. lia. }
  split_and!.
  - device_message encode_request_firmware_data_req decode_request_firmware_data_req. by destruct (size <? 32).
  - device_message encode_transfer_complete_req decode_result_req. done.
  - device_message encode_verify_complete_req decode_result_req. done.
  - device_message encode_apply_complete_req decode_apply_complete_req. by destruct (negb _ && _).
  - device_message encode_request_update_resp decode_request_update_resp. done.
  - device_message encode_pass_component_table_resp decode_pass_component_table_resp.
    destruct (is_comp_resp_valid _), (is_comp_resp_code_valid _); done.
  - device_message encode_update_component_resp decode_update_component_resp.
    destruct (is_comp_compatibility_resp_valid _), (is_comp_compatibility_resp_code_valid _); done.
  - device_message encode_activate_firmware_resp decode_activate_firmware_resp. done.
  - destruct (get_status_roundtrip inst msg len st st0) as (m & E & _ & _ & D); [done..|by exists m].
Qed.

Lemma device_messages_roundtrip_witness :
  let msg := Msg (packed 1 0 0 0) (CMem 64 (replicate 12 0)) in
  let st := StatusResp 0 3 2 0 0 17 0 1 in
  exists m, encode_get_status_resp 5 (Some st) (Some msg) (Some 12) = Ok (0, Some m, Some 11) /\
   decode_get_status_resp (Some m) 11 (Some (StatusResp 9 9 9 9 9 9 9 9))
   = Ok (if status_valid st then (PLDM_SUCCESS, Some st)
         else (PLDM_ERROR_INVALID_DATA, Some (StatusResp 0 9 9 9 9 9 9 9))).
Proof.
  intros msg st.
  destruct (device_messages_roundtrip 5 msg 12 0 32 0 0 0 0 0 0 0 st (StatusResp 9 9 9 9 9 9 9 9))
    as (_ & _ & _ & _ & _ & _ & _ & _ & H); [concrete..|exact H].
Defined.

(** *** Requests with a version string *)

(** A version string as an agent gives it: a type of the standard and the text. *)
Definition version_text (v : pldm_firmware_string) : list Z := slice 0 (Z.to_nat (str_len v)) (str_data v).

Definition version_sent (v : pldm_firmware_string) : Prop :=
  1 <= str_type v <= 5 /\ 1 <= str_len v <= 64 /\ length (str_data v) = 64%nat /\ bytes_ok (str_data v).

(** The argument the encoders take for it. *)
Definition version_arg (v : pldm_firmware_string) : option variable_field :=
  Some (VarField (Some (CMem 8 (str_data v))) (str_len v)).

(** The string in the device's array: the text, and what was there behind it. *)
Definition version_into (v old : pldm_firmware_string) : pldm_firmware_string :=
  FwString (str_type v) (str_len v) (splice 0 (version_text v) (str_data old)).

Lemma version_text_length v : version_sent v -> Z.of_nat (length (version_text v)) = str_len v.
Proof. intros (_ & Hl & Hd & _). unfold version_text. rewrite length_slice, Hd. lia. Qed.

Lemma version_type_valid v : version_sent v -> is_string_type_valid (str_type v) = true.
Proof.
  intros (Ht & _). unfold is_string_type_valid.
  assert (str_type v = 1 \/ str_type v = 2 \/ str_type v = 3 \/ str_type v = 4 \/ str_type v = 5) as H by lia.
  by destruct H as [->|[->|[->|[->| ->]]]].
Qed.

(** The body the three encoders share: members, then the text. *)
Lemma request_body_ok inst cmd fs v m :
  0 <= inst <= 31 -> version_sent v ->
  Z.of_nat (length (members_bytes fs)) + str_len v <= mem_size (payload m) ->
  legacy_frame PLDM_REQUEST inst PLDM_FWUP cmd m (fun m =>
    m ← put_members m 0 fs;
    l ← mem_read (CMem 8 (str_data v)) 0 (str_len v);
    m ← payload_write m (Z.of_nat (length (members_bytes fs))) l;
    mret (PLDM_SUCCESS, Some m))
  = Ok (PLDM_SUCCESS, Some (Msg (packed PLDM_REQUEST inst PLDM_FWUP cmd)
          (wrote (payload m) (members_bytes fs ++ version_text v)))).
Proof.
  intros Hi Hv Hfit. pose proof (version_text_length v Hv) as Htext. pose proof Hv as (_ & Hl & Hd & _).
  rewrite legacy_frame_ok by (lia || (repeat constructor)).
  rewrite put_members_ok by (cbn; lia). cbn [mbind outcome_bind app].
  rewrite (mem_read_ok _ 0 (str_len v) (version_text v));
    [|lia|lia|unfold mem_size; cbn; lia|done].
  cbn [mbind outcome_bind]. rewrite payload_write_next by (done || lia). done.
Qed.

(** The string is found behind the members, and ends the message. *)
Lemma version_read h m fs v old n :
  mem_ok m -> version_sent v -> length (str_data old) = 64%nat ->
  Z.of_nat (length (members_bytes fs)) + 2 + str_len v = n -> n <= mem_size m ->
  let msg := Msg h (wrote m (members_bytes (fs ++ [(1%nat, str_type v); (1%nat, str_len v)]) ++ version_text v)) in
  let c := length (members_bytes fs) in
  version_fits msg n c = true /\ version_at msg c (str_data old) = version_into v old.
Proof.
  intros Hm Hv Hold Hn Hsize msg c. pose proof Hv as (Ht & Hl & Hd & Hb).
  pose proof (version_text_length v Hv) as Htext.
  assert (bytes (payload msg) = members_bytes fs ++ le_enc 1 (str_type v) ++ le_enc 1 (str_len v) ++
    version_text v ++ drop (Z.to_nat n) (bytes m)) as Hbytes.
  { unfold msg, members_bytes. cbn [payload wrote bytes]. rewrite fmap_app, concat_app. cbn [fmap list_fmap concat].
    rewrite <- !app_assoc. do 3 f_equal. cbn [app]. do 2 f_equal.
    rewrite !length_app, !le_enc_length. unfold members_bytes in *. lia. }
  assert (payload msg = CMem (addr m) (members_bytes fs ++ le_enc 1 (str_type v) ++ le_enc 1 (str_len v) ++
    version_text v ++ drop (Z.to_nat n) (bytes m))) as Hp.
  { unfold msg in *. cbn [payload] in *. rewrite <- Hbytes. done. }
  assert (field msg c 1 = str_type v) as Hft.
  { rewrite Hp. rewrite fld_skip by (unfold c; lia). unfold c. rewrite Nat.sub_diag, fld_hit.
    apply Z.mod_small. cbn. lia. }
  assert (field msg (c + 1) 1 = str_len v) as Hfl.
  { rewrite Hp. rewrite fld_skip by (unfold c; lia).
    replace (c + 1 - length (members_bytes fs))%nat with 1%nat by (unfold c; lia).
    rewrite fld_skip by (rewrite le_enc_length; lia). rewrite le_enc_length, fld_hit.
    apply Z.mod_small. cbn. lia. }
  split.
  - apply bool_decide_true. rewrite Hft, Hfl. unfold c. lia.
  - unfold version_at, string_at, version_into. rewrite Hft, Hfl. f_equal. f_equal.
    replace (Z.to_nat (Z.of_nat c + 2)) with (length (members_bytes fs) + 2)%nat by (unfold c; lia).
    rewrite Hbytes, slice_skip by lia. replace (_ + 2 - _)%nat with 2%nat by lia.
    do 2 (rewrite slice_skip by (rewrite le_enc_length; lia); rewrite le_enc_length; cbn [Nat.sub]).
    apply slice_hit. lia.
Qed.

Lemma members_app_ok fs v :
  version_sent v -> bytes_ok (members_bytes fs ++ version_text v).
Proof.
  intros (_ & _ & _ & Hb). apply Forall_app. split; [|by apply Forall_slice].
  induction fs as [|[n x] fs IH]; [constructor|]. apply Forall_app. split; [apply le_enc_ok|exact IH].
Qed.



Section agent.
Context (inst : Z) (msg : pldm_msg).
Hypothesis Hm : mem_ok (payload msg).
Hypothesis Hsize : 83 <= mem_size (payload msg).
Hypothesis Hi : 0 <= inst <= 31.

(** A message with the members [fs] and the string [v], whose decoder was asked. *)
Lemma request_msg_ok fs v :
  version_sent v -> Z.of_nat (length (members_bytes fs)) + str_len v <= 83 ->
  let w := wrote (payload msg) (members_bytes fs ++ version_text v) in
  mem_ok w /\ Z.of_nat (length (members_bytes fs)) + str_len v <= mem_size w.
Proof.
  intros Hv Hfit w. pose proof (version_text_length v Hv) as Ht.
  assert (mem_size w = mem_size (payload msg)) as E.
  { apply mem_size_wrote. rewrite length_app. unfold mem_size in Hsize. lia. }
  split; [|lia]. apply mem_ok_wrote; [done|by apply members_app_ok|]. rewrite length_app. lia.
Qed.

(** A message with the members [fs], the string [v] and its text: it is written, and
    the string is where the decoder with the command's layout looks for it. *)
Lemma agent_request_ok cmd fs v old n size (c : nat) :
  version_sent v -> length (str_data old) = 64%nat -> n = size + str_len v -> size <= 19 ->
  let all := fs ++ [(1%nat, str_type v); (1%nat, str_len v)] in
  let m := Msg (packed PLDM_REQUEST inst PLDM_FWUP cmd)
             (wrote (payload msg) (members_bytes all ++ version_text v)) in
  size = Z.of_nat (length (members_bytes all)) -> c = length (members_bytes fs) ->
  legacy_frame PLDM_REQUEST inst PLDM_FWUP cmd msg (fun m =>
    m ← put_members m 0 all;
    l ← mem_read (CMem 8 (str_data v)) 0 (str_len v);
    m ← payload_write m size l;
    mret (PLDM_SUCCESS, Some m)) = Ok (PLDM_SUCCESS, Some m) /\
  mem_ok (payload m) /\ 0 <= n <= mem_size (payload m) /\
  version_fits m n c = true /\ version_at m c (str_data old) = version_into v old.
Proof.
  intros Hv Hold -> H19 all m -> ->. pose proof Hv as (_ & Hl & _).
  destruct (request_msg_ok all v Hv) as [Hw Hws]; [lia|].
  split; [apply request_body_ok; done || lia|]. split; [done|]. split; [cbn [payload m]; lia|].
  apply (version_read _ _ fs v old); [done..| |lia].
  unfold all, members_bytes. rewrite fmap_app, concat_app, length_app. cbn. lia.
Qed.

(** Past the checks of an encoder, and through the decoder. *)
Ltac agent_request enc cmd fs c size v old n Hv Hold :=
  unfold enc, version_arg; rewrite (version_type_valid v Hv);
  replace (u64 (size + _)) with n by (unfold u64; rewrite Z.mod_small by lia; done);
  rewrite !Z.eqb_refl; cbn [negb orb];
  destruct (agent_request_ok cmd fs v old n size c Hv Hold eq_refl ltac:(lia) eq_refl eq_refl)
    as (E & Hw & Hn & Hfits & Hat);
  let all := eval cbv [app fs] in (fs ++ [(1%nat, str_type v); (1%nat, str_len v)]) in
  change (fs ++ [(1%nat, str_type v); (1%nat, str_len v)]) with all in *;
  repeat (cmp_case; [lia|]; cbn [negb orb]);
  rewrite E; eexists; split; [reflexivity|]; split; [done|].
Ltac agent_decode dec :=
  destruct dec as (rc & u & -> & Hd);
  match goal with H1 : version_fits _ _ _ = true, H2 : version_at _ _ _ = _ |- _ => rewrite H1, H2 in Hd end; destruct Hd as [-> ->];
  unfold wrote, members_bytes; cbn [payload fmap list_fmap concat app];
  rewrite <- !app_assoc; wire; by small.

Lemma request_update_roundtrip (r r0 : pldm_request_update_req_full) :
  32 <= ru_max_transfer_size r < 4294967296 -> u16_ok (ru_num_of_comp r) ->
  1 <= ru_max_outstanding_transfer_req r < 256 -> u16_ok (ru_pkg_data_len r) ->
  version_sent (ru_image_set_ver r) ->
  length (str_data (ru_image_set_ver r0)) = 64%nat -> 0 <= str_len (ru_image_set_ver r0) < 256 ->
  let n := 11 + str_len (ru_image_set_ver r) in
  exists m, encode_request_update_req inst (ru_max_transfer_size r) (ru_num_of_comp r)
       (ru_max_outstanding_transfer_req r) (ru_pkg_data_len r) (str_type (ru_image_set_ver r))
       (str_len (ru_image_set_ver r)) (version_arg (ru_image_set_ver r)) (Some msg) n
     = Ok (PLDM_SUCCESS, Some m) /\ hdr m = packed PLDM_REQUEST inst PLDM_FWUP PLDM_REQUEST_UPDATE /\
   decode_request_update_req (Some m) n (Some r0)
   = Ok (0, Some (RuReq (ru_max_transfer_size r) (ru_num_of_comp r)
       (ru_max_outstanding_transfer_req r) (ru_pkg_data_len r)
       (version_into (ru_image_set_ver r) (ru_image_set_ver r0)))).
Proof.
  intros H1 H2 H3 H4 Hv D1 D2 n. pose proof Hv as (_ & Hl & _). 
  set (fs := [(4%nat, ru_max_transfer_size r); (2%nat, ru_num_of_comp r);
    (1%nat, ru_max_outstanding_transfer_req r); (2%nat, ru_pkg_data_len r)]).
  agent_request encode_request_update_req constr:(PLDM_REQUEST_UPDATE) fs 9%nat 11 (ru_image_set_ver r)
    (ru_image_set_ver r0) n Hv D1.
  agent_decode (request_update_ok _ n Hw Hn r0 D1 D2).
Qed.

Lemma pass_component_table_roundtrip (r r0 : pldm_pass_component_table_req_full) :
  pc_transfer_flag r ∈ [1; 2; 4; 5] -> u16_ok (pc_comp_classification r) ->
  u16_ok (pc_comp_identifier r) -> byte_ok (pc_comp_classification_index r) ->
  u32_ok (pc_comp_comparison_stamp r) -> version_sent (pc_version r) ->
  length (str_data (pc_version r0)) = 64%nat ->
  let n := 12 + str_len (pc_version r) in
  exists m, encode_pass_component_table_req inst (pc_transfer_flag r) (pc_comp_classification r)
       (pc_comp_identifier r) (pc_comp_classification_index r) (pc_comp_comparison_stamp r)
       (str_type (pc_version r)) (str_len (pc_version r)) (version_arg (pc_version r)) (Some msg) n
     = Ok (PLDM_SUCCESS, Some m) /\ hdr m = packed PLDM_REQUEST inst PLDM_FWUP PLDM_PASS_COMPONENT_TABLE /\
   decode_pass_component_table_req (Some m) n (Some r0)
   = Ok (0, Some (PassReq (pc_transfer_flag r) (pc_comp_classification r) (pc_comp_identifier r)
       (pc_comp_classification_index r) (pc_comp_comparison_stamp r)
       (version_into (pc_version r) (pc_version r0)))).
Proof.
  intros H1 H2 H3 H4 H5 Hv D1 n. pose proof Hv as (_ & Hl & _).
  assert (is_transfer_flag_valid (pc_transfer_flag r) = true /\ byte_ok (pc_transfer_flag r)) as [Hf Hb].
  { rewrite !elem_of_cons, elem_of_nil in H1. destruct H1 as [->|[->|[->|[->|[]]]]]; done. }
  set (fs := [(1%nat, pc_transfer_flag r); (2%nat, pc_comp_classification r);
    (2%nat, pc_comp_identifier r); (1%nat, pc_comp_classification_index r);
    (4%nat, pc_comp_comparison_stamp r)]).
  unfold encode_pass_component_table_req. rewrite Hf.
  agent_request encode_pass_component_table_req constr:(PLDM_PASS_COMPONENT_TABLE) fs 10%nat 12 (pc_version r)
    (pc_version r0) n Hv D1.
  agent_decode (pass_component_table_ok _ n Hw Hn r0 D1).
Qed.

Lemma update_component_roundtrip (r r0 : pldm_update_component_req_full) :
  u16_ok (up_comp_classification r) -> u16_ok (up_comp_identifier r) ->
  byte_ok (up_comp_classification_index r) -> u32_ok (up_comp_comparison_stamp r) ->
  1 <= up_comp_image_size r < 4294967296 -> u32_ok (up_update_option_flags r) ->
  version_sent (up_version r) -> length (str_data (up_version r0)) = 64%nat ->
  let n := 19 + str_len (up_version r) in
  exists m, encode_update_component_req inst (up_comp_classification r) (up_comp_identifier r)
       (up_comp_classification_index r) (up_comp_comparison_stamp r) (up_comp_image_size r)
       (up_update_option_flags r) (str_type (up_version r)) (str_len (up_version r))
       (version_arg (up_version r)) (Some msg) n
     = Ok (PLDM_SUCCESS, Some m) /\ hdr m = packed PLDM_REQUEST inst PLDM_FWUP PLDM_UPDATE_COMPONENT /\
   decode_update_component_req (Some m) n (Some r0)
   = Ok (0, Some (UpReq (up_comp_classification r) (up_comp_identifier r)
       (up_comp_classification_index r) (up_comp_comparison_stamp r)
       (version_into (up_version r) (up_version r0)) (up_comp_image_size r)
       (up_update_option_flags r))).
Proof.
  intros H1 H2 H3 H4 H5 H6 Hv D1 n. pose proof Hv as (_ & Hl & _).
  set (fs := [(2%nat, up_comp_classification r); (2%nat, up_comp_identifier r);
    (1%nat, up_comp_classification_index r); (4%nat, up_comp_comparison_stamp r);
    (4%nat, up_comp_image_size r); (4%nat, up_update_option_flags r)]).
  agent_request encode_update_component_req constr:(PLDM_UPDATE_COMPONENT) fs 17%nat 19 (up_version r)
    (up_version r0) n Hv D1.
  agent_decode (update_component_ok _ n Hw Hn r0 D1).
Qed.

Lemma activate_roundtrip sc sc0 :
  sc = 0 \/ sc = 1 ->
  exists m, encode_activate_firmware_req inst sc (Some msg) 1 = Ok (PLDM_SUCCESS, Some m) /\
   hdr m = packed PLDM_REQUEST inst PLDM_FWUP PLDM_ACTIVATE_FIRMWARE /\
   decode_activate_firmware_req (Some m) 1 (Some sc0) = Ok (0, Some (sc =? 1)).
Proof.
  intros Hsc. unfold encode_activate_firmware_req.
  replace (is_self_contained_activation_req_valid sc) with true by (by destruct Hsc as [->| ->]).
  cbn [negb Z.eqb Pos.eqb]. rewrite legacy_frame_ok by (lia || (repeat constructor)).
  rewrite payload_write_next by (cbn; lia). cbn [mbind outcome_bind app].
  eexists. split; [reflexivity|]. split; [done|].
  assert (mem_size (wrote (payload msg) [sc]) = mem_size (payload msg)) as E.
  { apply mem_size_wrote. unfold mem_size in Hsize. cbn. lia. }
  assert (mem_ok (wrote (payload msg) [sc])) as Hw.
  { apply mem_ok_wrote; [done| |cbn; lia]. constructor; [unfold byte_ok; lia|constructor]. }
  rewrite (activate_firmware_ok (Msg _ (wrote (payload msg) [sc])) 1 Hw) by (cbn [payload]; lia).
  cbn [Z.eqb Pos.eqb]. unfold fld. cbn. by destruct Hsc as [->| ->].
Qed.
End agent.
(** C24: what the update agent sends, the device reads: RequestUpdate,
    PassComponentTable and UpdateComponent requests with a version string of at most
    64 bytes, and ActivateFirmware requests, decode to the values that were
    encoded; the device's array keeps what it held behind the string. *)
Theorem agent_requests_roundtrip inst msg (ru ru0 : pldm_request_update_req_full)
    (pc pc0 : pldm_pass_component_table_req_full) (up up0 : pldm_update_component_req_full) sc sc0 :
  mem_ok (payload msg) -> 83 <= mem_size (payload msg) -> 0 <= inst <= 31 ->
  32 <= ru_max_transfer_size ru < 4294967296 -> u16_ok (ru_num_of_comp ru) ->
  1 <= ru_max_outstanding_transfer_req ru < 256 -> u16_ok (ru_pkg_data_len ru) ->
  version_sent (ru_image_set_ver ru) ->
  pc_transfer_flag pc ∈ [1; 2; 4; 5] -> u16_ok (pc_comp_classification pc) ->
  u16_ok (pc_comp_identifier pc) -> byte_ok (pc_comp_classification_index pc) ->
  u32_ok (pc_comp_comparison_stamp pc) -> version_sent (pc_version pc) ->
  u16_ok (up_comp_classification up) -> u16_ok (up_comp_identifier up) ->
  byte_ok (up_comp_classification_index up) -> u32_ok (up_comp_comparison_stamp up) ->
  1 <= up_comp_image_size up < 4294967296 -> u32_ok (up_update_option_flags up) ->
  version_sent (up_version up) -> sc = 0 \/ sc = 1 ->
  length (str_data (ru_image_set_ver ru0)) = 64%nat -> 0 <= str_len (ru_image_set_ver ru0) < 256 ->
  length (str_data (pc_version pc0)) = 64%nat -> length (str_data (up_version up0)) = 64%nat ->
  let n1 := 11 + str_len (ru_image_set_ver ru) in
  let n2 := 12 + str_len (pc_version pc) in
  let n3 := 19 + str_len (up_version up) in
  (exists m, encode_request_update_req inst (ru_max_transfer_size ru) (ru_num_of_comp ru)
       (ru_max_outstanding_transfer_req ru) (ru_pkg_data_len ru) (str_type (ru_image_set_ver ru))
       (str_len (ru_image_set_ver ru)) (version_arg (ru_image_set_ver ru)) (Some msg) n1
     = Ok (PLDM_SUCCESS, Some m) /\ hdr m = packed PLDM_REQUEST inst PLDM_FWUP PLDM_REQUEST_UPDATE /\
   decode_request_update_req (Some m) n1 (Some ru0)
   = Ok (0, Some (RuReq (ru_max_transfer_size ru) (ru_num_of_comp ru)
       (ru_max_outstanding_transfer_req ru) (ru_pkg_data_len ru)
       (version_into (ru_image_set_ver ru) (ru_image_set_ver ru0))))) /\
  (exists m, encode_pass_component_table_req inst (pc_transfer_flag pc) (pc_comp_classification pc)
       (pc_comp_identifier pc) (pc_comp_classification_index pc) (pc_comp_comparison_stamp pc)
       (str_type (pc_version pc)) (str_len (pc_version pc)) (version_arg (pc_version pc)) (Some msg) n2
     = Ok (PLDM_SUCCESS, Some m) /\ hdr m = packed PLDM_REQUEST inst PLDM_FWUP PLDM_PASS_COMPONENT_TABLE /\
   decode_pass_component_table_req (Some m) n2 (Some pc0)
   = Ok (0, Some (PassReq (pc_transfer_flag pc) (pc_comp_classification pc) (pc_comp_identifier pc)
       (pc_comp_classification_index pc) (pc_comp_comparison_stamp pc)
       (version_into (pc_version pc) (pc_version pc0))))) /\
  (exists m, encode_update_component_req inst (up_comp_classification up) (up_comp_identifier up)
       (up_comp_classification_index up) (up_comp_comparison_stamp up) (up_comp_image_size up)
       (up_update_option_flags up) (str_type (up_version up)) (str_len (up_version up))
       (version_arg (up_version up)) (Some msg) n3
     = Ok (PLDM_SUCCESS, Some m) /\ hdr m = packed PLDM_REQUEST inst PLDM_FWUP PLDM_UPDATE_COMPONENT /\
   decode_update_component_req (Some m) n3 (Some up0)
   = Ok (0, Some (UpReq (up_comp_classification up) (up_comp_identifier up)
       (up_comp_classification_index up) (up_comp_comparison_stamp up)
       (version_into (up_version up) (up_version up0)) (up_comp_image_size up)
       (up_update_option_flags up)))) /\
  (exists m, encode_activate_firmware_req inst sc (Some msg) 1 = Ok (PLDM_SUCCESS, Some m) /\
   hdr m = packed PLDM_REQUEST inst PLDM_FWUP PLDM_ACTIVATE_FIRMWARE /\
   decode_activate_firmware_req (Some m) 1 (Some sc0) = Ok (0, Some (sc =? 1))).
Proof.
  intros Hm Hsize Hi R1 R2 R3 R4 Rv P1 P2 P3 P4 P5 Pv U1 U2 U3 U4 U5 U6 Uv Hsc D1 D2 D3 D4 n1 n2 n3.
  split; [by apply request_update_roundtrip|]. split; [by apply pass_component_table_roundtrip|].
  split; [by apply update_component_roundtrip|by apply activate_roundtrip].
Qed.

Lemma agent_requests_roundtrip_witness :
  let msg := Msg (packed 1 0 0 0) (CMem 64 (replicate 83 0)) in
  let ver := FwString 1 3 ([86; 49; 48] ++ replicate 61 0) in
  let old := FwString 0 0 (replicate 64 255) in
  let up := UpReq 10 20 0 7 ver 4096 1 in
  exists m, encode_update_component_req 5 10 20 0 7 4096 1 1 3 (version_arg ver) (Some msg) 22
     = Ok (PLDM_SUCCESS, Some m) /\ hdr m = packed PLDM_REQUEST 5 PLDM_FWUP PLDM_UPDATE_COMPONENT /\
   decode_update_component_req (Some m) 22 (Some (UpReq 0 0 0 0 old 0 0))
   = Ok (0, Some (UpReq 10 20 0 7 (version_into ver old) 4096 1)).
Proof.
  intros msg ver old up.
  assert (version_sent ver) as Hver.
  { split; [concrete|]. split; [concrete|]. split; [done|]. repeat (constructor; [concrete|]). constructor. }
  destruct (agent_requests_roundtrip 5 msg (RuReq 64 1 1 0 ver) (RuReq 0 0 0 0 old)
    (PassReq 5 10 20 0 7 ver) (PassReq 0 0 0 0 0 old) up (UpReq 0 0 0 0 old 0 0) 1 false)
    as (_ & _ & H & _); [concrete..| |exact H]. all: first [exact Hver | concrete].
Defined.
