(* ===== verification/FirmwareDevice.v ===== *)
(** * The firmware device responder (src/firmware_device/fd.c, fd-internal.h)

    The state machine of an updatable device: it answers the update agent's
    requests, asks for the image piece by piece, and drives the application's
    verify, apply and activate callbacks.  The application is a record of callbacks
    over a context of any type, which the responder only passes on. *)

From S2P Require Import Prelude Msgbuf Utils Base Control FwUpdate.

(** ** State *)

Inductive pldm_firmware_device_states :=
  | PLDM_FD_STATE_IDLE | PLDM_FD_STATE_LEARN_COMPONENTS | PLDM_FD_STATE_READY_XFER
  | PLDM_FD_STATE_DOWNLOAD | PLDM_FD_STATE_VERIFY | PLDM_FD_STATE_APPLY | PLDM_FD_STATE_ACTIVATE.

#[export] Instance fd_states_eq_dec : EqDecision pldm_firmware_device_states.
Proof. solve_decision. Defined.

(** The values of the enumerators. *)
Definition fd_state_value (s : pldm_firmware_device_states) : Z :=
  match s with
  | PLDM_FD_STATE_IDLE => 0 | PLDM_FD_STATE_LEARN_COMPONENTS => 1
  | PLDM_FD_STATE_READY_XFER => 2 | PLDM_FD_STATE_DOWNLOAD => 3 | PLDM_FD_STATE_VERIFY => 4
  | PLDM_FD_STATE_APPLY => 5 | PLDM_FD_STATE_ACTIVATE => 6
  end.

Abbreviation PLDM_FD_INITIALIZATION := 0 (only parsing).
Abbreviation PLDM_FD_ACTIVATE_FW := 1 (only parsing).
Abbreviation PLDM_FD_CANCEL_UPDATE := 2 (only parsing).
Abbreviation PLDM_FD_TIMEOUT_LEARN_COMPONENT := 3 (only parsing).
Abbreviation PLDM_FD_TIMEOUT_READY_XFER := 4 (only parsing).
Abbreviation PLDM_FD_TIMEOUT_DOWNLOAD := 5 (only parsing).
Abbreviation PLDM_FD_TIMEOUT_VERIFY := 6 (only parsing).
Abbreviation PLDM_FD_TIMEOUT_APPLY := 7 (only parsing).

Abbreviation PLDM_FD_OPERATION_IN_PROGRESS := 0 (only parsing).
Abbreviation PLDM_FD_OPERATION_SUCCESSFUL := 1 (only parsing).
Abbreviation PLDM_FD_OPERATION_FAILED := 2 (only parsing).
Abbreviation PLDM_FD_IDLE_LEARN_COMPONENTS_READ_XFER := 3 (only parsing).

Abbreviation PLDM_CRC_COMP_CAN_BE_UPDATED := 0 (only parsing).
Abbreviation PLDM_CRC_COMP_NOT_SUPPORTED := 6 (only parsing).
Abbreviation PLDM_FWUP_TRANSFER_SUCCESS := 0 (only parsing).
Abbreviation PLDM_FWUP_FD_ABORTED_TRANSFER := 3 (only parsing).
Abbreviation PLDM_FWUP_VERIFY_SUCCESS := 0 (only parsing).
Abbreviation PLDM_FWUP_VENDOR_VERIFY_RESULT_RANGE_MAX := 0xaf (only parsing).
Abbreviation PLDM_FWUP_APPLY_SUCCESS := 0 (only parsing).
Abbreviation PLDM_FWUP_APPLY_SUCCESS_WITH_ACTIVATION_METHOD := 1 (only parsing).
Abbreviation PLDM_FWUP_VENDOR_APPLY_RESULT_RANGE_MAX := 0xcf (only parsing).
Abbreviation DEFAULT_FD_T1_TIMEOUT := 120000 (only parsing).
Abbreviation DEFAULT_FD_T2_RETRY_TIME := 1000 (only parsing).
Abbreviation INSTANCE_ID_COUNT := 32 (only parsing).
Abbreviation PROGRESS_PERCENT_NOT_SUPPORTED := 101 (only parsing).

Inductive pldm_fd_req_state :=
  | PLDM_FD_REQ_UNUSED | PLDM_FD_REQ_READY | PLDM_FD_REQ_SENT | PLDM_FD_REQ_FAILED.

#[export] Instance fd_req_state_eq_dec : EqDecision pldm_fd_req_state.
Proof. solve_decision. Defined.

Record pldm_fd_req := FdReq {
  req_state : pldm_fd_req_state; req_complete : bool; req_result : Z;
  req_instance_id : Z; req_command : Z; req_sent_time : Z
}.

(** The union [specific]: the member written last, or nothing since memset() cleared
    it.  Every member of a cleared union reads as zero; reading another member than
    the one written is a fault, so the model does not depend on the layout. *)
Inductive pldm_fd_specific :=
  | SpCleared
  | SpDownload (offset : Z)
  | SpVerify (progress_percent : Z)
  | SpApply (progress_percent : Z).

Record pldm_firmware_component_standalone := Standalone {
  sa_comp_classification : Z; sa_comp_identifier : Z; sa_comp_classification_index : Z;
  sa_active_ver : pldm_firmware_version; sa_pending_ver : pldm_firmware_version;
  sa_comp_activation_methods : Z; sa_capabilities_during_update : Z
}.

Record pldm_firmware_update_component := UpdateComp {
  uc_comp_classification : Z; uc_comp_identifier : Z; uc_comp_classification_index : Z;
  uc_comp_comparison_stamp : Z; uc_version : pldm_firmware_string;
  uc_comp_image_size : Z; uc_update_option_flags : Z
}.

Record pldm_fd := Fd {
  state : pldm_firmware_device_states;
  prev_state : pldm_firmware_device_states;
  reason : Z;
  specific : pldm_fd_specific;
  update_comp : pldm_firmware_update_component;
  update_flags : Z;
  req : pldm_fd_req;
  ua_address : Z;
  ua_address_set : bool;
  max_transfer : Z;
  update_timestamp_fd_t1 : Z;
  fd_t1_timeout : Z;
  fd_t2_retry_time : Z
}.

(** Assignments to the members. *)
Definition with_states s p r (fd : pldm_fd) : pldm_fd :=
  Fd s p r (specific fd) (update_comp fd) (update_flags fd) (req fd) (ua_address fd)
    (ua_address_set fd) (max_transfer fd) (update_timestamp_fd_t1 fd) (fd_t1_timeout fd)
    (fd_t2_retry_time fd).
Definition with_specific x (fd : pldm_fd) : pldm_fd :=
  Fd (state fd) (prev_state fd) (reason fd) x (update_comp fd) (update_flags fd) (req fd)
    (ua_address fd) (ua_address_set fd) (max_transfer fd) (update_timestamp_fd_t1 fd)
    (fd_t1_timeout fd) (fd_t2_retry_time fd).
Definition with_update_comp x (fd : pldm_fd) : pldm_fd :=
  Fd (state fd) (prev_state fd) (reason fd) (specific fd) x (update_flags fd) (req fd)
    (ua_address fd) (ua_address_set fd) (max_transfer fd) (update_timestamp_fd_t1 fd)
    (fd_t1_timeout fd) (fd_t2_retry_time fd).
Definition with_update_flags x (fd : pldm_fd) : pldm_fd :=
  Fd (state fd) (prev_state fd) (reason fd) (specific fd) (update_comp fd) x (req fd)
    (ua_address fd) (ua_address_set fd) (max_transfer fd) (update_timestamp_fd_t1 fd)
    (fd_t1_timeout fd) (fd_t2_retry_time fd).
Definition with_req x (fd : pldm_fd) : pldm_fd :=
  Fd (state fd) (prev_state fd) (reason fd) (specific fd) (update_comp fd) (update_flags fd) x
    (ua_address fd) (ua_address_set fd) (max_transfer fd) (update_timestamp_fd_t1 fd)
    (fd_t1_timeout fd) (fd_t2_retry_time fd).
Definition with_ua a set (fd : pldm_fd) : pldm_fd :=
  Fd (state fd) (prev_state fd) (reason fd) (specific fd) (update_comp fd) (update_flags fd)
    (req fd) a set (max_transfer fd) (update_timestamp_fd_t1 fd)
    (fd_t1_timeout fd) (fd_t2_retry_time fd).
Definition with_max_transfer x (fd : pldm_fd) : pldm_fd :=
  Fd (state fd) (prev_state fd) (reason fd) (specific fd) (update_comp fd) (update_flags fd)
    (req fd) (ua_address fd) (ua_address_set fd) x (update_timestamp_fd_t1 fd)
    (fd_t1_timeout fd) (fd_t2_retry_time fd).
Definition with_times ts t1 t2 (fd : pldm_fd) : pldm_fd :=
  Fd (state fd) (prev_state fd) (reason fd) (specific fd) (update_comp fd) (update_flags fd)
    (req fd) (ua_address fd) (ua_address_set fd) (max_transfer fd) ts t1 t2.

Definition req_with_state s (r : pldm_fd_req) : pldm_fd_req :=
  FdReq s (req_complete r) (req_result r) (req_instance_id r) (req_command r) (req_sent_time r).
Definition req_with_complete c res (r : pldm_fd_req) : pldm_fd_req :=
  FdReq (req_state r) c res (req_instance_id r) (req_command r) (req_sent_time r).
Definition req_with_instance i (r : pldm_fd_req) : pldm_fd_req :=
  FdReq (req_state r) (req_complete r) (req_result r) i (req_command r) (req_sent_time r).

(** ** The application

    A callback takes the context and its arguments, the values its output pointers
    point to included, and returns its result, the outputs and the context.  Any
    of the function pointers may be NULL. *)
Record pldm_fd_ops (C : Type) := FdOps {
  device_identifiers : option (C -> (Z * Z * option (list pldm_descriptor)) * C);
  components : option (C -> (Z * Z * list pldm_firmware_component_standalone) * C);
  imageset_versions : option (C -> pldm_firmware_string -> pldm_firmware_string ->
    (Z * pldm_firmware_string * pldm_firmware_string) * C);
  update_component : option (C -> bool -> pldm_firmware_update_component -> Z * C);
  transfer_size : option (C -> Z -> Z * C);
  firmware_data : option (C -> Z -> cmem -> Z -> pldm_firmware_update_component -> Z * C);
  verify : option (C -> pldm_firmware_update_component -> bool -> Z -> (Z * bool * Z) * C);
  apply : option (C -> pldm_firmware_update_component -> bool -> Z -> (Z * bool * Z) * C);
  activate : option (C -> bool -> Z -> (Z * Z) * C);
  cancel_update_component : option (C -> pldm_firmware_update_component -> C);
  now : option (C -> Z * C)
}.
Arguments FdOps {C} _ _ _ _ _ _ _ _ _ _ _.
Arguments device_identifiers {C} _.
Arguments components {C} _.
Arguments imageset_versions {C} _.
Arguments update_component {C} _.
Arguments transfer_size {C} _.
Arguments firmware_data {C} _.
Arguments verify {C} _.
Arguments apply {C} _.
Arguments activate {C} _.
Arguments cancel_update_component {C} _.
Arguments now {C} _.

(** The responder's state and the application's. *)
Record fd_world (C : Type) := World { fd : pldm_fd; ops_ctx : C }.
Arguments World {C} _ _.
Arguments fd {C} _.
Arguments ops_ctx {C} _.

(** The result of a handler: the return code, the response and its payload length. *)
Abbreviation reply := (Z * pldm_msg * Z)%type (only parsing).

(** ** Replies *)

Definition pldm_fd_reply_cc (ccode : Z) (req_hdr : pldm_header_info) (resp : pldm_msg)
    (resp_payload_len : Z) : outcome reply :=
  if resp_payload_len <? 1 then Ok (- EOVERFLOW, resp, resp_payload_len)
  else
    '(status, r) ← encode_cc_only_resp (instance req_hdr) PLDM_FWUP (hi_command req_hdr) ccode
                     (Some resp);
    let resp := default resp r in
    if negb (status =? PLDM_SUCCESS) then mret (- EINVAL, resp, 1) else mret (0, resp, 1).

Definition pldm_fd_reply_errno (err : Z) (req_hdr : pldm_header_info) (resp : pldm_msg)
    (resp_payload_len : Z) : outcome reply :=
  _ ← c_assert (err <? 0);
  let ccode :=
    if err =? - EINVAL then PLDM_ERROR
    else if err =? - EPROTO then PLDM_ERROR_INVALID_DATA
    else if (err =? - EOVERFLOW) || (err =? - EBADMSG) then PLDM_ERROR_INVALID_LENGTH
    else PLDM_ERROR in
  pldm_fd_reply_cc ccode req_hdr resp resp_payload_len.

(** ** Handlers *)

Section responder.
Context {C : Type} (ops : pldm_fd_ops C).

Abbreviation F := (stM (fd_world C)) (only parsing).

Definition get_fd : F pldm_fd := fun w => Ok (fd w, w).
Definition mod_fd (f : pldm_fd -> pldm_fd) : F unit := fun w => Ok (tt, World (f (fd w)) (ops_ctx w)).

(** [fd->ops->fn(fd->ops_ctx, ...)] *)
Definition call {Fn A} (fn : option Fn) (k : Fn -> C -> A * C) : F A := fun w =>
  match fn with
  | None => Fault FMemory
  | Some f => let '(a, c) := k f (ops_ctx w) in Ok (a, World (fd w) c)
  end.

Definition pldm_fd_now : F Z := call (now ops) (fun f c => f c).

Definition pldm_fd_set_state (s : pldm_firmware_device_states) : F unit :=
  _ ← lift (c_assert (negb (bool_decide (s = PLDM_FD_STATE_IDLE))));
  fd ← get_fd;
  if bool_decide (state fd = s) then mret tt
  else mod_fd (with_states s (state fd) (reason fd)).

Definition pldm_fd_set_idle (r : Z) : F unit :=
  fd ← get_fd;
  mod_fd (fun fd => with_ua (ua_address fd) false (with_states PLDM_FD_STATE_IDLE (state fd) r fd)).

Definition pldm_fd_idle_timeout : F unit :=
  fd ← get_fd;
  match state fd with
  | PLDM_FD_STATE_IDLE => mret tt
  | PLDM_FD_STATE_LEARN_COMPONENTS => pldm_fd_set_idle PLDM_FD_TIMEOUT_LEARN_COMPONENT
  | PLDM_FD_STATE_READY_XFER => pldm_fd_set_idle PLDM_FD_TIMEOUT_READY_XFER
  | PLDM_FD_STATE_DOWNLOAD => pldm_fd_set_idle PLDM_FD_TIMEOUT_DOWNLOAD
  | PLDM_FD_STATE_VERIFY => pldm_fd_set_idle PLDM_FD_TIMEOUT_VERIFY
  | PLDM_FD_STATE_APPLY => pldm_fd_set_idle PLDM_FD_TIMEOUT_APPLY
  | PLDM_FD_STATE_ACTIVATE => pldm_fd_set_idle PLDM_FD_ACTIVATE_FW
  end.

(** [*aux_state] and [*aux_state_status]. *)
Definition pldm_fd_get_aux_state (fd : pldm_fd) : Z * Z :=
  match req_state (req fd) with
  | PLDM_FD_REQ_UNUSED => (PLDM_FD_IDLE_LEARN_COMPONENTS_READ_XFER, 0)
  | PLDM_FD_REQ_SENT => (PLDM_FD_OPERATION_IN_PROGRESS, 0)
  | PLDM_FD_REQ_READY =>
    if req_complete (req fd) then (PLDM_FD_OPERATION_SUCCESSFUL, 0)
    else (PLDM_FD_OPERATION_IN_PROGRESS, 0)
  | PLDM_FD_REQ_FAILED => (PLDM_FD_OPERATION_FAILED, req_result (req fd))
  end.

Definition pldm_fd_req_should_send : F bool :=
  now ← pldm_fd_now;
  fd ← get_fd;
  match req_state (req fd) with
  | PLDM_FD_REQ_UNUSED => _ ← lift (c_assert false); mret false
  | PLDM_FD_REQ_READY => mret true
  | PLDM_FD_REQ_FAILED => mret false
  | PLDM_FD_REQ_SENT =>
    if now <? req_sent_time (req fd) then mret false
    else mret (fd_t2_retry_time fd <=? now - req_sent_time (req fd))
  end.

Definition pldm_fd_req_next_instance : F Z :=
  fd ← get_fd;
  let i := (req_instance_id (req fd) + 1) mod INSTANCE_ID_COUNT in
  _ ← mod_fd (with_req (req_with_instance i (req fd)));
  mret i.

(** *** Information *)

Definition pldm_fd_qdi (hdr : pldm_header_info) (req_payload_len : Z) (resp : pldm_msg)
    (resp_payload_len : Z) : F reply :=
  if negb (req_payload_len =? 0) then
    lift (pldm_fd_reply_cc PLDM_ERROR_INVALID_LENGTH hdr resp resp_payload_len)
  else
  '(rc, descriptor_count, descriptors) ← call (device_identifiers ops) (fun f c => f c);
  if negb (rc =? 0) then lift (pldm_fd_reply_cc PLDM_ERROR hdr resp resp_payload_len)
  else
  r ← lift (encode_query_device_identifiers_resp (instance hdr) descriptor_count descriptors
              (Some resp) (Some resp_payload_len));
  let '(rc, resp, resp_payload_len) := encoded resp resp_payload_len r in
  if negb (rc =? 0) then lift (pldm_fd_reply_errno rc hdr resp resp_payload_len)
  else mret (0, resp, resp_payload_len).

(** The buffer of GetFirmwareParameters and the encoders it calls write to one
    object, the payload of the response: the buffer takes over what they wrote. *)
Definition buf_sync (m : cmem) (b : msgbuf) : msgbuf := MsgBuf m (cursor b) (remaining b).

(** Write back the object behind a pointer into [m]. *)
Definition put_at (m p : cmem) : cmem :=
  CMem (addr m) (take (Z.to_nat (addr p - addr m)) (bytes m) ++ bytes p).

(** [return pldm_msgbuf_discard(buf, r)] *)
Definition discard_reply (buf : msgbuf) (r : reply) : outcome reply :=
  let '(rc, resp, len) := r in
  '(rc, buf) ← pldm_msgbuf_rw_discard rc buf;
  _ ← pldm__msgbuf_cleanup buf;
  mret (rc, resp, len).

(** The loop over the component entries, and the return behind it. *)
Fixpoint fw_param_entries (hdr : pldm_header_info) (entry_count : nat)
    (entries : list pldm_firmware_component_standalone) (resp : pldm_msg)
    (resp_payload_len : Z) (buf : msgbuf) : outcome reply :=
  match entry_count, entries with
  | O, _ =>
    '(rc, used, buf) ← pldm_msgbuf_complete_used resp_payload_len resp_payload_len buf;
    _ ← pldm__msgbuf_cleanup buf;
    mret (rc, resp, used)
  | S _, [] => Fault FMemory
  | S n, e :: entries =>
    let comp := CompEntry (sa_comp_classification e) (sa_comp_identifier e)
                  (sa_comp_classification_index e) (sa_active_ver e) (sa_pending_ver e)
                  (sa_comp_activation_methods e) (sa_capabilities_during_update e) in
    '(peeked, out, len, buf) ← pldm_msgbuf_peek_remaining None 0 buf;
    if negb (peeked =? 0) then
      (* [rc] still holds the zero of the last successful call *)
      discard_reply buf (0, resp, resp_payload_len)
    else
    '(rc, out, len) ← encode_get_firmware_parameters_resp_comp_entry (Some comp) out (Some len);
    let resp := Msg (Base.hdr resp) (from_option (put_at (payload resp)) (payload resp) out) in
    if negb (rc =? 0) then
      r ← pldm_fd_reply_errno rc hdr resp resp_payload_len;
      discard_reply buf r
    else
    '(_, buf) ← pldm_msgbuf_skip (default 0 len) (buf_sync (payload resp) buf);
    fw_param_entries hdr n entries resp resp_payload_len buf
  end.

Definition fw_string_empty : pldm_firmware_string := FwString 0 0 (replicate 64 0).

Definition pldm_fd_fw_param (hdr : pldm_header_info) (req_payload_len : Z) (resp : pldm_msg)
    (resp_payload_len : Z) : F reply :=
  if negb (req_payload_len =? 0) then
    lift (pldm_fd_reply_cc PLDM_ERROR_INVALID_LENGTH hdr resp resp_payload_len)
  else
  '(rc, entry_count, entries) ← call (components ops) (fun f c => f c);
  if negb (rc =? 0) then lift (pldm_fd_reply_cc PLDM_ERROR hdr resp resp_payload_len)
  else
  '(rc, buf) ← lift (pldm_msgbuf_rw_init_errno 0 (payload resp) resp_payload_len
                       (pldm__msgbuf_define (payload resp)));
  if_err rc return_ (_ ← lift (pldm__msgbuf_cleanup buf); mret (rc, resp, resp_payload_len));;
  '(rc, active, pending) ← call (imageset_versions ops)
                             (fun f c => f c fw_string_empty fw_string_empty);
  if negb (rc =? 0) then
    r ← lift (pldm_fd_reply_cc PLDM_ERROR hdr resp resp_payload_len);
    lift (discard_reply buf r)
  else
  let fwp := FwParams PLDM_SUCCESS 0 entry_count active pending in
  r ← lift (encode_get_firmware_parameters_resp (instance hdr) (Some fwp) (Some resp)
              (Some (remaining buf)));
  let '(rc, resp, len) := encoded resp (remaining buf) r in
  if negb (rc =? 0) then
    r ← lift (pldm_fd_reply_errno rc hdr resp resp_payload_len);
    lift (discard_reply buf r)
  else
  '(rc, buf) ← lift (pldm_msgbuf_skip len (buf_sync (payload resp) buf));
  if_err rc return_ lift (discard_reply buf (rc, resp, resp_payload_len));;
  lift (fw_param_entries hdr (Z.to_nat entry_count) entries resp resp_payload_len buf).

Definition pldm_fd_get_status (hdr : pldm_header_info) (req_payload_len : Z) (resp : pldm_msg)
    (resp_payload_len : Z) : F reply :=
  if negb (req_payload_len =? 0) then
    lift (pldm_fd_reply_cc PLDM_ERROR_INVALID_LENGTH hdr resp resp_payload_len)
  else
  fd ← get_fd;
  let '(aux_state, aux_state_status) := pldm_fd_get_aux_state fd in
  '(progress, reason_code, flags) ← lift
    match state fd with
    | PLDM_FD_STATE_IDLE => Ok (PROGRESS_PERCENT_NOT_SUPPORTED, reason fd, 0)
    | PLDM_FD_STATE_DOWNLOAD =>
      let size := uc_comp_image_size (update_comp fd) in
      if 0 <? size then
        let one_percent := size / 100 + (if size mod 100 =? 0 then 0 else 1) in
        match specific fd with
        | SpCleared => Ok (u8 (0 / one_percent), 0, update_flags fd)
        | SpDownload offset => Ok (u8 (offset / one_percent), 0, update_flags fd)
        | _ => Fault FMemory
        end
      else Ok (PROGRESS_PERCENT_NOT_SUPPORTED, 0, update_flags fd)
    | PLDM_FD_STATE_VERIFY =>
      match specific fd with
      | SpCleared => Ok (0, 0, update_flags fd)
      | SpVerify p => Ok (p, 0, update_flags fd)
      | _ => Fault FMemory
      end
    | PLDM_FD_STATE_APPLY =>
      match specific fd with
      | SpCleared => Ok (0, 0, update_flags fd)
      | SpApply p => Ok (p, 0, update_flags fd)
      | _ => Fault FMemory
      end
    | _ => Ok (PROGRESS_PERCENT_NOT_SUPPORTED, 0, 0)
    end;
  let st := StatusResp PLDM_SUCCESS (fd_state_value (state fd)) (fd_state_value (prev_state fd))
              aux_state aux_state_status progress reason_code flags in
  r ← lift (encode_get_status_resp (instance hdr) (Some st) (Some resp) (Some resp_payload_len));
  let '(rc, resp, resp_payload_len) := encoded resp resp_payload_len r in
  if negb (rc =? 0) then lift (pldm_fd_reply_errno rc hdr resp resp_payload_len)
  else mret (0, resp, resp_payload_len).

(** *** Starting an update *)

(** [upd] is the handler's uninitialised local. *)
Definition pldm_fd_request_update (upd : pldm_request_update_req_full) (hdr : pldm_header_info)
    (req : pldm_msg) (req_payload_len : Z) (resp : pldm_msg) (resp_payload_len address : Z)
  : F reply :=
  fd ← get_fd;
  if negb (bool_decide (state fd = PLDM_FD_STATE_IDLE)) then
    lift (pldm_fd_reply_cc PLDM_FWUP_ALREADY_IN_UPDATE_MODE hdr resp resp_payload_len)
  else
  '(rc, u) ← lift (decode_request_update_req (Some req) req_payload_len (Some upd));
  let upd := default upd u in
  if negb (rc =? 0) then lift (pldm_fd_reply_errno rc hdr resp resp_payload_len)
  else
  r ← lift (encode_request_update_resp (instance hdr) (RuResp 0 0) (Some resp) (Some resp_payload_len));
  let '(rc, resp, resp_payload_len) := encoded resp resp_payload_len r in
  if negb (rc =? 0) then lift (pldm_fd_reply_errno rc hdr resp resp_payload_len)
  else
  size ← call (transfer_size ops) (fun f c => f c (ru_max_transfer_size upd));
  let size := if ru_max_transfer_size upd <? size then ru_max_transfer_size upd else size in
  let size := if size <? PLDM_FWUP_BASELINE_TRANSFER_SIZE
              then PLDM_FWUP_BASELINE_TRANSFER_SIZE else size in
  _ ← mod_fd (with_max_transfer size);
  _ ← mod_fd (with_ua address true);
  _ ← pldm_fd_set_state PLDM_FD_STATE_LEARN_COMPONENTS;
  mret (0, resp, resp_payload_len).

Definition pldm_fd_maybe_cancel_component : F unit :=
  fd ← get_fd;
  let cancel :=
    match state fd with
    | PLDM_FD_STATE_DOWNLOAD | PLDM_FD_STATE_VERIFY => true
    | PLDM_FD_STATE_APPLY =>
      negb (req_complete (req fd)
            && (req_result (req fd) =? PLDM_FWUP_APPLY_SUCCESS))
    | _ => false
    end in
  if cancel then call (cancel_update_component ops) (fun f c => (tt, f c (update_comp fd)))
  else mret tt.

(** Is the component among the first [entry_count] entries? *)
Fixpoint find_component (comp : pldm_firmware_update_component) (entry_count : nat)
    (entries : list pldm_firmware_component_standalone) : outcome bool :=
  match entry_count, entries with
  | O, _ => Ok false
  | S _, [] => Fault FMemory
  | S n, e :: entries =>
    if (sa_comp_classification e =? uc_comp_classification comp)
       && (sa_comp_identifier e =? uc_comp_identifier comp)
       && (sa_comp_classification_index e =? uc_comp_classification_index comp)
    then Ok true else find_component comp n entries
  end.

Definition pldm_fd_check_update_component (update : bool) (comp : pldm_firmware_update_component)
  : F Z :=
  '(rc, entry_count, entries) ← call (components ops) (fun f c => f c);
  if_err rc return_ mret PLDM_CRC_COMP_NOT_SUPPORTED;;
  found ← lift (find_component comp (Z.to_nat entry_count) entries);
  if found : bool then call (update_component ops) (fun f c => f c update comp)
  else mret PLDM_CRC_COMP_NOT_SUPPORTED.

(** *** Components *)

Definition pldm_fd_pass_comp (pcomp : pldm_pass_component_table_req_full) (hdr : pldm_header_info)
    (msg : pldm_msg) (req_payload_len : Z) (resp : pldm_msg) (resp_payload_len : Z) : F reply :=
  fd ← get_fd;
  if negb (bool_decide (state fd = PLDM_FD_STATE_LEARN_COMPONENTS)) then
    lift (pldm_fd_reply_cc PLDM_FWUP_INVALID_STATE_FOR_COMMAND hdr resp resp_payload_len)
  else
  let c := update_comp fd in
  _ ← mod_fd (with_update_comp (UpdateComp (uc_comp_classification c) (uc_comp_identifier c)
        (uc_comp_classification_index c) (uc_comp_comparison_stamp c) (uc_version c) 0 0));
  '(rc, p) ← lift (decode_pass_component_table_req (Some msg) req_payload_len (Some pcomp));
  let pcomp := default pcomp p in
  if negb (rc =? 0) then lift (pldm_fd_reply_errno rc hdr resp resp_payload_len)
  else
  let comp := UpdateComp (pc_comp_classification pcomp) (pc_comp_identifier pcomp)
        (pc_comp_classification_index pcomp) (pc_comp_comparison_stamp pcomp) (pc_version pcomp) 0 0 in
  _ ← mod_fd (with_update_comp comp);
  code ← pldm_fd_check_update_component false comp;
  let comp_response_code := u8 code in
  let resp_data := PassResp (if comp_response_code =? 0 then 0 else 1) comp_response_code in
  r ← lift (encode_pass_component_table_resp (instance hdr) resp_data (Some resp)
              (Some resp_payload_len));
  let '(rc, resp, resp_payload_len) := encoded resp resp_payload_len r in
  if negb (rc =? 0) then lift (pldm_fd_reply_errno rc hdr resp resp_payload_len)
  else
  _ ← (if negb (Z.land (pc_transfer_flag pcomp) PLDM_END =? 0)
       then pldm_fd_set_state PLDM_FD_STATE_READY_XFER else mret tt);
  mret (0, resp, resp_payload_len).

Definition pldm_fd_update_comp (up : pldm_update_component_req_full) (hdr : pldm_header_info)
    (msg : pldm_msg) (req_payload_len : Z) (resp : pldm_msg) (resp_payload_len : Z) : F reply :=
  fd ← get_fd;
  if negb (bool_decide (state fd = PLDM_FD_STATE_READY_XFER)) then
    lift (pldm_fd_reply_cc PLDM_FWUP_INVALID_STATE_FOR_COMMAND hdr resp resp_payload_len)
  else
  '(rc, u) ← lift (decode_update_component_req (Some msg) req_payload_len (Some up));
  let up := default up u in
  if negb (rc =? 0) then lift (pldm_fd_reply_errno rc hdr resp resp_payload_len)
  else
  let comp := UpdateComp (up_comp_classification up) (up_comp_identifier up)
        (up_comp_classification_index up) (up_comp_comparison_stamp up) (up_version up)
        (up_comp_image_size up) (up_update_option_flags up) in
  _ ← mod_fd (with_update_comp comp);
  code ← pldm_fd_check_update_component true comp;
  let comp_response_code := u8 code in
  (* only the Force Update flag, bit 0, is kept *)
  let flags := Z.land (uc_update_option_flags comp) 1 in
  let resp_data := UpResp (if comp_response_code =? 0 then 0 else 1) comp_response_code flags 0 in
  r ← lift (encode_update_component_resp (instance hdr) resp_data (Some resp)
              (Some resp_payload_len));
  let '(rc, resp, resp_payload_len) := encoded resp resp_payload_len r in
  if negb (rc =? 0) then
    _ ← (if comp_response_code =? PLDM_CRC_COMP_CAN_BE_UPDATED
         then call (cancel_update_component ops) (fun f c => (tt, f c comp)) else mret tt);
    lift (pldm_fd_reply_errno rc hdr resp resp_payload_len)
  else
  _ ← (if comp_response_code =? PLDM_CRC_COMP_CAN_BE_UPDATED then
         _ ← mod_fd (with_specific SpCleared);
         _ ← mod_fd (with_update_flags flags);
         _ ← mod_fd (fun fd => with_req (req_with_complete false (req_result (req fd))
                                 (req_with_state PLDM_FD_REQ_READY (req fd))) fd);
         pldm_fd_set_state PLDM_FD_STATE_DOWNLOAD
       else mret tt);
  mret (0, resp, resp_payload_len).

(** *** Cancelling and activating *)

Definition pldm_fd_cancel_update_comp (hdr : pldm_header_info) (req_payload_len : Z)
    (resp : pldm_msg) (resp_payload_len : Z) : F reply :=
  if negb (req_payload_len =? 0) then
    lift (pldm_fd_reply_cc PLDM_ERROR_INVALID_LENGTH hdr resp resp_payload_len)
  else
  fd ← get_fd;
  match state fd with
  | PLDM_FD_STATE_DOWNLOAD | PLDM_FD_STATE_VERIFY | PLDM_FD_STATE_APPLY =>
    '(rc, resp, resp_payload_len) ← lift (pldm_fd_reply_cc PLDM_SUCCESS hdr resp resp_payload_len);
    if_err rc return_ mret (rc, resp, resp_payload_len);;
    _ ← pldm_fd_maybe_cancel_component;
    _ ← pldm_fd_set_state PLDM_FD_STATE_READY_XFER;
    mret (0, resp, resp_payload_len)
  | _ => lift (pldm_fd_reply_cc PLDM_FWUP_NOT_IN_UPDATE_MODE hdr resp resp_payload_len)
  end.

Definition pldm_fd_cancel_update (hdr : pldm_header_info) (req_payload_len : Z)
    (resp : pldm_msg) (resp_payload_len : Z) : F reply :=
  if negb (req_payload_len =? 0) then
    lift (pldm_fd_reply_cc PLDM_ERROR_INVALID_LENGTH hdr resp resp_payload_len)
  else
  fd ← get_fd;
  if bool_decide (state fd = PLDM_FD_STATE_IDLE) then
    lift (pldm_fd_reply_cc PLDM_FWUP_NOT_IN_UPDATE_MODE hdr resp resp_payload_len)
  else
  r ← lift (encode_cancel_update_resp (instance hdr) (CancelResp 0 0) (Some resp)
              (Some resp_payload_len));
  let '(rc, resp, resp_payload_len) := encoded resp resp_payload_len r in
  if negb (rc =? 0) then lift (pldm_fd_reply_errno rc hdr resp resp_payload_len)
  else
  _ ← pldm_fd_maybe_cancel_component;
  _ ← pldm_fd_set_idle PLDM_FD_CANCEL_UPDATE;
  mret (0, resp, resp_payload_len).

(** [self_contained] is written whenever the decoder answers 0 and its buffer could be
    attached; otherwise it is what the stack held. *)
Definition pldm_fd_activate_firmware (self_contained : bool) (hdr : pldm_header_info)
    (msg : pldm_msg) (req_payload_len : Z) (resp : pldm_msg) (resp_payload_len : Z) : F reply :=
  '(rc, sc) ← lift (decode_activate_firmware_req (Some msg) req_payload_len (Some self_contained));
  let self_contained := default self_contained sc in
  if negb (rc =? 0) then lift (pldm_fd_reply_errno rc hdr resp resp_payload_len)
  else
  fd ← get_fd;
  if negb (bool_decide (state fd = PLDM_FD_STATE_READY_XFER)) then
    lift (pldm_fd_reply_cc PLDM_FWUP_INVALID_STATE_FOR_COMMAND hdr resp resp_payload_len)
  else
  '(ccode, estimated_time) ← call (activate ops) (fun f c => f c self_contained 0);
  _ ← (if (ccode =? PLDM_SUCCESS) || (ccode =? PLDM_FWUP_ACTIVATION_NOT_REQUIRED) then
         _ ← pldm_fd_set_state PLDM_FD_STATE_ACTIVATE;
         pldm_fd_set_idle PLDM_FD_ACTIVATE_FW
       else mret tt);
  if ccode =? PLDM_SUCCESS then
    r ← lift (encode_activate_firmware_resp (instance hdr) (ActResp estimated_time) (Some resp)
                (Some resp_payload_len));
    let '(rc, resp, resp_payload_len) := encoded resp resp_payload_len r in
    if negb (rc =? 0) then lift (pldm_fd_reply_errno rc hdr resp resp_payload_len)
    else mret (0, resp, resp_payload_len)
  else lift (pldm_fd_reply_cc ccode hdr resp resp_payload_len).

(** *** Responses of the update agent *)

(** [specific.download.offset] *)
Definition download_offset (fd : pldm_fd) : outcome Z :=
  match specific fd with
  | SpCleared => Ok 0
  | SpDownload offset => Ok offset
  | _ => Fault FMemory
  end.

Definition pldm_fd_fwdata_size (fd : pldm_fd) : outcome Z :=
  if negb (bool_decide (state fd = PLDM_FD_STATE_DOWNLOAD)) then _ ← c_assert false; mret 0
  else
  offset ← download_offset fd;
  if uc_comp_image_size (update_comp fd) <? offset then _ ← c_assert false; mret 0
  else
  let size := uc_comp_image_size (update_comp fd) - offset in
  mret (if max_transfer fd <? size then max_transfer fd else size).

Definition set_req_state (s : pldm_fd_req_state) : F unit :=
  mod_fd (fun fd => with_req (req_with_state s (req fd)) fd).
Definition set_req_complete (c : bool) (res : Z) : F unit :=
  mod_fd (fun fd => with_req (req_with_complete c res (req fd)) fd).

Definition pldm_fd_handle_fwdata_resp (resp : pldm_msg) (resp_payload_len : Z) : F Z :=
  fd ← get_fd;
  if negb (bool_decide (state fd = PLDM_FD_STATE_DOWNLOAD)) then mret (- EPROTO)
  else if negb (bool_decide (req_state (req fd) = PLDM_FD_REQ_SENT)) then mret (- EPROTO)
  else if req_complete (req fd) then mret (- EPROTO)
  else
  cc ← lift (payload_read resp 0 1);
  if le_dec cc =? PLDM_FWUP_RETRY_REQUEST_FW_DATA then mret 0
  else if negb (le_dec cc =? PLDM_SUCCESS) then
    _ ← set_req_state PLDM_FD_REQ_READY;
    _ ← set_req_complete true PLDM_FWUP_FD_ABORTED_TRANSFER;
    mret 0
  else
  fwdata_size ← lift (pldm_fd_fwdata_size fd);
  if negb (resp_payload_len =? u32 (fwdata_size + 1)) then mret (- EOVERFLOW)
  else
  offset ← lift (download_offset fd);
  let next := u32 (offset + fwdata_size) in
  let size := uc_comp_image_size (update_comp fd) in
  if (next <? offset) || (size <? next) then _ ← lift (c_assert false); mret (- EINVAL)
  else
  res ← call (firmware_data ops)
          (fun f c => f c offset (ptr_at (payload resp) 1) fwdata_size (update_comp fd));
  _ ← set_req_state PLDM_FD_REQ_READY;
  _ ← (if res =? PLDM_FWUP_TRANSFER_SUCCESS then
         _ ← mod_fd (with_specific (SpDownload next));
         if next =? size then set_req_complete true PLDM_FWUP_TRANSFER_SUCCESS else mret tt
       else set_req_complete true res);
  mret 0.

Definition pldm_fd_handle_transfer_complete_resp : F Z :=
  fd ← get_fd;
  if negb (bool_decide (state fd = PLDM_FD_STATE_DOWNLOAD)) then mret (- EPROTO)
  else if negb (bool_decide (req_state (req fd) = PLDM_FD_REQ_SENT)) then mret (- EPROTO)
  else if negb (req_complete (req fd)) then mret (- EPROTO)
  else
  _ ← (if req_result (req fd) =? PLDM_FWUP_TRANSFER_SUCCESS then
         _ ← mod_fd (with_specific (SpVerify PROGRESS_PERCENT_NOT_SUPPORTED));
         _ ← set_req_state PLDM_FD_REQ_READY;
         _ ← set_req_complete false (req_result (req fd));
         pldm_fd_set_state PLDM_FD_STATE_VERIFY
       else set_req_state PLDM_FD_REQ_FAILED);
  mret 0.

Definition pldm_fd_handle_verify_complete_resp : F Z :=
  fd ← get_fd;
  if negb (bool_decide (state fd = PLDM_FD_STATE_VERIFY)) then mret (- EPROTO)
  else if negb (bool_decide (req_state (req fd) = PLDM_FD_REQ_SENT)) then mret (- EPROTO)
  else
  _ ← lift (c_assert (req_complete (req fd)));
  _ ← (if req_result (req fd) =? PLDM_FWUP_VERIFY_SUCCESS then
         _ ← mod_fd (with_specific (SpApply PROGRESS_PERCENT_NOT_SUPPORTED));
         _ ← set_req_state PLDM_FD_REQ_READY;
         _ ← set_req_complete false (req_result (req fd));
         pldm_fd_set_state PLDM_FD_STATE_APPLY
       else set_req_state PLDM_FD_REQ_FAILED);
  mret 0.

Definition pldm_fd_handle_apply_complete_resp : F Z :=
  fd ← get_fd;
  if negb (bool_decide (state fd = PLDM_FD_STATE_APPLY)) then mret (- EPROTO)
  else if negb (bool_decide (req_state (req fd) = PLDM_FD_REQ_SENT)) then mret (- EPROTO)
  else
  _ ← lift (c_assert (req_complete (req fd)));
  _ ← (if req_result (req fd) =? PLDM_FWUP_APPLY_SUCCESS then
         _ ← set_req_state PLDM_FD_REQ_UNUSED;
         pldm_fd_set_state PLDM_FD_STATE_READY_XFER
       else set_req_state PLDM_FD_REQ_FAILED);
  mret 0.

Definition pldm_fd_handle_resp (address : Z) (resp_msg : cmem) (resp_len : Z) : F Z :=
  fd ← get_fd;
  if negb (ua_address_set fd && (ua_address fd =? address)) then mret (- EBUSY)
  else if resp_len <? PLDM_MSG_HDR_SIZE + 1 then mret (- EINVAL)
  else
  let resp_payload_len := resp_len - PLDM_MSG_HDR_SIZE in
  if negb (bool_decide (req_state (req fd) = PLDM_FD_REQ_SENT)) then mret (- EPROTO)
  else
  resp ← lift (msg_at resp_msg);
  if negb (req_instance_id (req fd) =? instance_id (hdr resp)) then mret (- EPROTO)
  else if negb (req_command (req fd) =? command (hdr resp)) then mret (- EPROTO)
  else
  now ← pldm_fd_now;
  _ ← mod_fd (fun fd => with_times now (fd_t1_timeout fd) (fd_t2_retry_time fd) fd);
  if command (hdr resp) =? PLDM_REQUEST_FIRMWARE_DATA then
    pldm_fd_handle_fwdata_resp resp resp_payload_len
  else if command (hdr resp) =? PLDM_TRANSFER_COMPLETE then pldm_fd_handle_transfer_complete_resp
  else if command (hdr resp) =? PLDM_VERIFY_COMPLETE then pldm_fd_handle_verify_complete_resp
  else if command (hdr resp) =? PLDM_APPLY_COMPLETE then pldm_fd_handle_apply_complete_resp
  else _ ← lift (c_assert false); mret (- EINVAL).

(** *** Requests of the device

    [msg] is the message to fill in; the result is the return code, the message and
    its payload length, zero when there is nothing to send. *)

Definition await_response (msg : pldm_msg) : F unit :=
  _ ← set_req_state PLDM_FD_REQ_SENT;
  _ ← mod_fd (fun fd => with_req (FdReq (req_state (req fd)) (req_complete (req fd))
        (req_result (req fd)) (instance_id (hdr msg)) (command (hdr msg))
        (req_sent_time (req fd))) fd);
  now ← pldm_fd_now;
  mod_fd (fun fd => with_req (FdReq (req_state (req fd)) (req_complete (req fd))
        (req_result (req fd)) (req_instance_id (req fd)) (req_command (req fd)) now) fd).

Definition pldm_fd_progress_download (msg : pldm_msg) (req_payload_len : Z) : F reply :=
  send ← pldm_fd_req_should_send;
  if negb send then mret (0, msg, 0)
  else
  instance_id ← pldm_fd_req_next_instance;
  fd ← get_fd;
  r ← lift (if req_complete (req fd) then
         encode_transfer_complete_req instance_id (req_result (req fd)) (Some msg)
           (Some req_payload_len)
       else
         offset ← download_offset fd;
         length ← pldm_fd_fwdata_size fd;
         encode_request_firmware_data_req instance_id (RfdReq offset length) (Some msg)
           (Some req_payload_len));
  let '(rc, msg, req_payload_len) := encoded msg req_payload_len r in
  if_err rc return_ mret (rc, msg, req_payload_len);;
  _ ← await_response msg;
  mret (0, msg, req_payload_len).

Definition pldm_fd_progress_verify (msg : pldm_msg) (req_payload_len : Z) : F reply :=
  send ← pldm_fd_req_should_send;
  if negb send then mret (0, msg, 0)
  else
  fd ← get_fd;
  waiting ← (if req_complete (req fd) then mret false
    else
      progress ← lift (match specific fd with
                       | SpCleared => Ok 0 | SpVerify p => Ok p | _ => Fault FMemory end);
      '(res, pending, progress) ← call (verify ops)
                                    (fun f c => f c (update_comp fd) false progress);
      _ ← mod_fd (with_specific (SpVerify progress));
      if pending && (res =? PLDM_FWUP_VERIFY_SUCCESS) then mret true
      else
        _ ← set_req_complete true
              (if pending : bool then PLDM_FWUP_VENDOR_VERIFY_RESULT_RANGE_MAX else res);
        mret false);
  if waiting : bool then mret (0, msg, 0)
  else
  instance_id ← pldm_fd_req_next_instance;
  fd ← get_fd;
  r ← lift (encode_verify_complete_req instance_id (req_result (req fd)) (Some msg)
              (Some req_payload_len));
  let '(rc, msg, req_payload_len) := encoded msg req_payload_len r in
  if_err rc return_ mret (rc, msg, req_payload_len);;
  _ ← await_response msg;
  mret (0, msg, req_payload_len).

Definition pldm_fd_progress_apply (msg : pldm_msg) (req_payload_len : Z) : F reply :=
  send ← pldm_fd_req_should_send;
  if negb send then mret (0, msg, 0)
  else
  fd ← get_fd;
  waiting ← (if req_complete (req fd) then mret false
    else
      progress ← lift (match specific fd with
                       | SpCleared => Ok 0 | SpApply p => Ok p | _ => Fault FMemory end);
      '(res, pending, progress) ← call (apply ops)
                                    (fun f c => f c (update_comp fd) false progress);
      _ ← mod_fd (with_specific (SpApply progress));
      if pending && (res =? PLDM_FWUP_APPLY_SUCCESS) then mret true
      else
        let res := if pending : bool then PLDM_FWUP_VENDOR_APPLY_RESULT_RANGE_MAX else res in
        _ ← set_req_complete true
              (if res =? PLDM_FWUP_APPLY_SUCCESS_WITH_ACTIVATION_METHOD
               then PLDM_FWUP_APPLY_SUCCESS else res);
        mret false);
  if waiting : bool then mret (0, msg, 0)
  else
  instance_id ← pldm_fd_req_next_instance;
  fd ← get_fd;
  r ← lift (encode_apply_complete_req instance_id (AcReq (req_result (req fd)) 0) (Some msg)
              (Some req_payload_len));
  let '(rc, msg, req_payload_len) := encoded msg req_payload_len r in
  if_err rc return_ mret (rc, msg, req_payload_len);;
  _ ← await_response msg;
  mret (0, msg, req_payload_len).

(** ** The interface *)

(** The contents of the handlers' uninitialised locals. *)
Record fd_stack := Stack {
  stack_upd : pldm_request_update_req_full;
  stack_pcomp : pldm_pass_component_table_req_full;
  stack_up : pldm_update_component_req_full;
  stack_self_contained : bool
}.

Definition ua_check_exempt (command : Z) : bool :=
  match command with
  | PLDM_QUERY_DEVICE_IDENTIFIERS | PLDM_GET_FIRMWARE_PARAMETERS | PLDM_GET_STATUS
  | PLDM_CANCEL_UPDATE | PLDM_QUERY_DOWNSTREAM_DEVICES | PLDM_QUERY_DOWNSTREAM_IDENTIFIERS
  | PLDM_QUERY_DOWNSTREAM_FIRMWARE_PARAMETERS | PLDM_REQUEST_UPDATE => true
  | _ => false
  end.

Definition updates_timeout (command : Z) : bool :=
  match command with
  | PLDM_REQUEST_UPDATE | PLDM_PASS_COMPONENT_TABLE | PLDM_UPDATE_COMPONENT
  | PLDM_CANCEL_UPDATE => true
  | _ => false
  end.

(** The dispatch on the command of a request. *)
Definition pldm_fd_dispatch (stack : fd_stack) (hdr : pldm_header_info) (msg : pldm_msg)
    (req_payload_len : Z) (resp : pldm_msg) (resp_payload_len remote_address : Z) : F reply :=
  match hi_command hdr with
  | PLDM_QUERY_DEVICE_IDENTIFIERS => pldm_fd_qdi hdr req_payload_len resp resp_payload_len
  | PLDM_GET_FIRMWARE_PARAMETERS => pldm_fd_fw_param hdr req_payload_len resp resp_payload_len
  | PLDM_REQUEST_UPDATE =>
    pldm_fd_request_update (stack_upd stack) hdr msg req_payload_len resp resp_payload_len
      remote_address
  | PLDM_PASS_COMPONENT_TABLE =>
    pldm_fd_pass_comp (stack_pcomp stack) hdr msg req_payload_len resp resp_payload_len
  | PLDM_UPDATE_COMPONENT =>
    pldm_fd_update_comp (stack_up stack) hdr msg req_payload_len resp resp_payload_len
  | PLDM_GET_STATUS => pldm_fd_get_status hdr req_payload_len resp resp_payload_len
  | PLDM_CANCEL_UPDATE_COMPONENT =>
    pldm_fd_cancel_update_comp hdr req_payload_len resp resp_payload_len
  | PLDM_CANCEL_UPDATE => pldm_fd_cancel_update hdr req_payload_len resp resp_payload_len
  | PLDM_ACTIVATE_FIRMWARE =>
    pldm_fd_activate_firmware (stack_self_contained stack) hdr msg req_payload_len resp
      resp_payload_len
  | _ => lift (pldm_fd_reply_cc PLDM_ERROR_UNSUPPORTED_PLDM_CMD hdr resp resp_payload_len)
  end.

(** A message from [remote_address]; [fd] is an object here, the two messages do not
    overlap, and [out_msg] and [out_len] are returned as they are left. *)
Definition pldm_fd_handle_msg (stack : fd_stack) (remote_address : Z) (in_msg : ptr) (in_len : Z)
    (out_msg : ptr) (out_len : option Z) : F (Z * ptr * option Z) :=
  match in_msg, out_msg, out_len with
  | Some in_obj, Some out_obj, Some out_len =>
    if in_len <? PLDM_MSG_HDR_SIZE then mret (- EOVERFLOW, out_msg, Some out_len)
    else
    let req_payload_len := in_len - PLDM_MSG_HDR_SIZE in
    msg ← lift (msg_at in_obj);
    '(rc, hdr) ← lift (unpack_pldm_header (Some (Base.hdr msg)) (Some (HeaderInfo 0 0 0 0 0)));
    let hdr := default (HeaderInfo 0 0 0 0 0) hdr in
    if negb (rc =? PLDM_SUCCESS) then mret (- EINVAL, out_msg, Some out_len)
    else if negb (pldm_type hdr =? PLDM_FWUP) then mret (- ENOMSG, out_msg, Some out_len)
    else if msg_type hdr =? PLDM_RESPONSE then
      rc ← pldm_fd_handle_resp remote_address in_obj in_len;
      mret (rc, out_msg, Some 0)
    else if negb (msg_type hdr =? PLDM_REQUEST) then mret (- EPROTO, out_msg, Some out_len)
    else if out_len <? PLDM_MSG_HDR_SIZE + 1 then mret (- EOVERFLOW, out_msg, Some out_len)
    else
    let resp_payload_len := out_len - PLDM_MSG_HDR_SIZE in
    resp ← lift (msg_at out_obj);
    fd ← get_fd;
    if negb (ua_check_exempt (hi_command hdr))
       && (negb (ua_address_set fd) || negb (remote_address =? ua_address fd)) then
      (* returned at once: [*out_len] is not updated *)
      '(rc, resp, _) ← lift (pldm_fd_reply_cc PLDM_ERROR_NOT_READY hdr resp resp_payload_len);
      mret (rc, Some (msg_bytes (addr out_obj) resp), Some out_len)
    else
    _ ← (if updates_timeout (hi_command hdr) then
           now ← pldm_fd_now;
           mod_fd (fun fd => with_times now (fd_t1_timeout fd) (fd_t2_retry_time fd) fd)
         else mret tt);
    '(rc, resp, resp_payload_len) ←
      pldm_fd_dispatch stack hdr msg req_payload_len resp resp_payload_len remote_address;
    (* [rc] is a uint8_t *)
    let rc := u8 rc in
    mret (rc, Some (msg_bytes (addr out_obj) resp),
          Some (if rc =? 0 then resp_payload_len + PLDM_MSG_HDR_SIZE else out_len))
  | _, _, _ => mret (- EINVAL, out_msg, out_len)
  end.

(** [*address] is returned as it is left, too. *)
Definition pldm_fd_progress (out_msg : ptr) (out_len : option Z) (address : Z)
  : F (Z * ptr * option Z * Z) :=
  match out_msg, out_len with
  | Some out_obj, Some out_len =>
    if out_len <? PLDM_MSG_HDR_SIZE then mret (- EOVERFLOW, out_msg, Some out_len, address)
    else
    let req_payload_len := out_len - PLDM_MSG_HDR_SIZE in
    msg ← lift (msg_at out_obj);
    fd ← get_fd;
    '(rc, msg, req_payload_len) ←
      match state fd with
      | PLDM_FD_STATE_DOWNLOAD => pldm_fd_progress_download msg req_payload_len
      | PLDM_FD_STATE_VERIFY => pldm_fd_progress_verify msg req_payload_len
      | PLDM_FD_STATE_APPLY => pldm_fd_progress_apply msg req_payload_len
      | _ => mret (- EINVAL, msg, 0)
      end;
    fd ← get_fd;
    let ua_timeout_check :=
      match state fd with
      | PLDM_FD_STATE_DOWNLOAD | PLDM_FD_STATE_VERIFY | PLDM_FD_STATE_APPLY =>
        bool_decide (req_state (req fd) = PLDM_FD_REQ_SENT)
      | PLDM_FD_STATE_IDLE => false
      | _ => true
      end in
    req_payload_len ←
      (if ua_timeout_check then
         now ← pldm_fd_now;
         if fd_t1_timeout fd <? u64 (now - update_timestamp_fd_t1 fd) then
           _ ← pldm_fd_maybe_cancel_component;
           _ ← pldm_fd_idle_timeout;
           mret 0
         else mret req_payload_len
       else mret req_payload_len);
    fd ← get_fd;
    let out := Some (msg_bytes (addr out_obj) msg) in
    if (rc =? 0) && ua_address_set fd && (0 <? req_payload_len) then
      mret (rc, out, Some (req_payload_len + PLDM_MSG_HDR_SIZE), ua_address fd)
    else mret (rc, out, Some 0, address)
  | _, _ => mret (- EINVAL, out_msg, out_len, address)
  end.

Definition pldm_fd_set_update_idle_timeout (time : Z) : F Z :=
  _ ← mod_fd (fun fd => with_times (update_timestamp_fd_t1 fd) time (fd_t2_retry_time fd) fd);
  mret 0.

Definition pldm_fd_set_request_retry_time (time : Z) : F Z :=
  _ ← mod_fd (fun fd => with_times (update_timestamp_fd_t1 fd) (fd_t1_timeout fd) time fd);
  mret 0.
End responder.

(** ** Setting up *)

(** sizeof(struct pldm_fd) on an LP64 target. *)
Definition sizeof_pldm_fd : Z := 176.

(** The static objects the firmware update type is registered with. *)
Definition PLDM_FD_VERSIONS : cmem :=
  CMem 0x3000 (le_enc 4 0xf1f1f000 ++ le_enc 4 0x539dbeba).
Abbreviation PLDM_FD_VERSIONS_COUNT := 2 (only parsing).
Definition PLDM_FD_COMMANDS : cmem :=
  CMem 0x4000 ([u8 (Z.lor (Z.shiftl 1 PLDM_QUERY_DEVICE_IDENTIFIERS)
                   (Z.shiftl 1 PLDM_GET_FIRMWARE_PARAMETERS)); 0;
    u8 (Z.shiftr (Z.lor (Z.shiftl 1 PLDM_REQUEST_UPDATE)
         (Z.lor (Z.shiftl 1 PLDM_PASS_COMPONENT_TABLE) (Z.shiftl 1 PLDM_UPDATE_COMPONENT))) 0x10);
    u8 (Z.shiftr (Z.lor (Z.shiftl 1 PLDM_ACTIVATE_FIRMWARE) (Z.lor (Z.shiftl 1 PLDM_GET_STATUS)
         (Z.lor (Z.shiftl 1 PLDM_CANCEL_UPDATE_COMPONENT) (Z.shiftl 1 PLDM_CANCEL_UPDATE)))) 0x18)]
    ++ replicate 28 0).

Definition missing {A} (f : option A) : bool := match f with None => true | Some _ => false end.

(** memset(fd, 0, sizeof( *fd)) *)
Definition fd_zero : pldm_fd :=
  Fd PLDM_FD_STATE_IDLE PLDM_FD_STATE_IDLE 0 SpCleared
    (UpdateComp 0 0 0 0 fw_string_empty 0 0) 0
    (FdReq PLDM_FD_REQ_UNUSED false 0 0 0 0) 0 false 0 0 0 0.

(** The storage [fd] and the control, if there is one, are returned as they are
    left.  All callbacks but [apply] are checked. *)
Definition pldm_fd_setup {C} (fd : option pldm_fd) (pldm_fd_size : Z)
    (ops : option (pldm_fd_ops C)) (control : option pldm_control)
  : Z * option pldm_fd * option pldm_control :=
  match fd, ops with
  | Some _, Some o =>
    if missing (device_identifiers o) || missing (components o) || missing (imageset_versions o)
       || missing (update_component o) || missing (transfer_size o) || missing (firmware_data o)
       || missing (verify o) || missing (activate o) || missing (cancel_update_component o)
       || missing (now o) then (- EINVAL, fd, control)
    else if pldm_fd_size <? sizeof_pldm_fd then (- EINVAL, fd, control)
    else
      let fd := Some (with_times 0 DEFAULT_FD_T1_TIMEOUT DEFAULT_FD_T2_RETRY_TIME fd_zero) in
      match control with
      | None => (0, fd, control)
      | Some ctl =>
        let '(rc, ctl) := pldm_control_add_type ctl PLDM_FWUP (Some PLDM_FD_VERSIONS)
                            PLDM_FD_VERSIONS_COUNT (Some PLDM_FD_COMMANDS) in
        if_err rc return_ (rc, fd, Some ctl);;
        (0, fd, Some ctl)
      end
  | _, _ => (- EINVAL, fd, control)
  end.

(** malloc() gives uninitialised storage, or NULL. *)
Definition pldm_fd_new {C} (malloc : option pldm_fd) (ops : option (pldm_fd_ops C))
    (control : option pldm_control) : option pldm_fd * option pldm_control :=
  match malloc with
  | None => (None, control)
  | Some _ =>
    let '(rc, fd, control) := pldm_fd_setup malloc sizeof_pldm_fd ops control in
    if rc =? 0 then (fd, control) else (None, control)
  end.
