(* ===== verification/FdSpec.v ===== *)
(** * What a firmware device promises its application (include/libpldm/firmware_fd.h)

    The order in which the callbacks of one component update are called, as an
    automaton, and the interface [FdApp] against which the responder is verified: an
    application may rely on the protocol and promises values of the C types. *)

From S2P Require Import Prelude Msgbuf Utils Base Control FwUpdate FirmwareDevice.

(** ** The protocol *)

(** Where the update of a component stands, as far as the callbacks can tell. *)
Inductive app_state :=
  | AppIdle
  | AppDownload (comp : pldm_firmware_update_component) (received : list Z)
  | AppVerifying (comp : pldm_firmware_update_component)
  | AppVerified (comp : pldm_firmware_update_component)
  | AppApplying (comp : pldm_firmware_update_component)
  | AppBroken (comp : pldm_firmware_update_component).

(** The callbacks that belong to the protocol, with what they answered. *)
Inductive app_event :=
  | EvUpdateComponent (update : bool) (comp : pldm_firmware_update_component) (code : Z)
  | EvFirmwareData (offset : Z) (data : list Z) (comp : pldm_firmware_update_component) (res : Z)
  | EvVerify (comp : pldm_firmware_update_component) (res : Z) (pending : bool)
  | EvApply (comp : pldm_firmware_update_component) (res : Z) (pending : bool)
  | EvCancel (comp : pldm_firmware_update_component)
  | EvActivate.

#[export] Instance fw_string_eq_dec : EqDecision pldm_firmware_string.
Proof. solve_decision. Defined.
#[export] Instance update_component_eq_dec : EqDecision pldm_firmware_update_component.
Proof. solve_decision. Defined.

(** The component a cancellation would be about. *)
Definition app_component (s : app_state) : option pldm_firmware_update_component :=
  match s with
  | AppIdle => None
  | AppDownload c _ | AppVerifying c | AppVerified c | AppApplying c | AppBroken c => Some c
  end.

(** verify() needs the whole image, and its own pending answer before a second call. *)
Definition may_verify (s : app_state) (comp : pldm_firmware_update_component) : Prop :=
  match s with
  | AppDownload c rcv => c = comp /\ Z.of_nat (length rcv) = uc_comp_image_size comp
  | AppVerifying c => c = comp
  | _ => False
  end.

(** apply() needs a successful verify(). *)
Definition may_apply (s : app_state) (comp : pldm_firmware_update_component) : Prop :=
  match s with
  | AppVerified c | AppApplying c => c = comp
  | _ => False
  end.

#[export] Instance may_verify_dec s comp : Decision (may_verify s comp).
Proof. destruct s; cbn; apply _. Defined.
#[export] Instance may_apply_dec s comp : Decision (may_apply s comp).
Proof. destruct s; cbn; apply _. Defined.

Definition after_verify (comp : pldm_firmware_update_component) (res : Z) (pending : bool) : app_state :=
  if negb (res =? PLDM_FWUP_VERIFY_SUCCESS) then AppBroken comp
  else if pending then AppVerifying comp else AppVerified comp.

Definition apply_succeeded (res : Z) : bool :=
  (res =? PLDM_FWUP_APPLY_SUCCESS) || (res =? PLDM_FWUP_APPLY_SUCCESS_WITH_ACTIVATION_METHOD).

(** A component that was applied is no longer being updated.  A pending answer has
    to be a plain success. *)
Definition after_apply (comp : pldm_firmware_update_component) (res : Z) (pending : bool) : app_state :=
  if pending then
    if res =? PLDM_FWUP_APPLY_SUCCESS then AppApplying comp else AppBroken comp
  else if apply_succeeded res then AppIdle else AppBroken comp.

(** One call; [None] if the protocol does not allow it. *)
Definition app_step (s : app_state) (e : app_event) : option app_state :=
  match e with
  | EvUpdateComponent update comp code =>
    if negb (bool_decide (app_component s = None)) then None
    else Some (if update && (u8 code =? PLDM_CRC_COMP_CAN_BE_UPDATED) then AppDownload comp [] else s)
  | EvFirmwareData offset data comp res =>
    match s with
    | AppDownload c rcv =>
      if bool_decide (c = comp) && (offset =? Z.of_nat (length rcv))
         && (offset + Z.of_nat (length data) <=? uc_comp_image_size comp)
         && ((0 <? Z.of_nat (length data)) || (uc_comp_image_size comp =? 0))
      then Some (if res =? PLDM_FWUP_TRANSFER_SUCCESS then AppDownload comp (rcv ++ data)
                 else AppBroken comp)
      else None
    | _ => None
    end
  | EvVerify comp res pending =>
    if decide (may_verify s comp) then Some (after_verify comp res pending) else None
  | EvApply comp res pending =>
    if decide (may_apply s comp) then Some (after_apply comp res pending) else None
  | EvCancel comp => if bool_decide (app_component s = Some comp) then Some AppIdle else None
  | EvActivate => if bool_decide (app_component s = None) then Some s else None
  end.

Fixpoint app_run (s : app_state) (es : list app_event) : option app_state :=
  match es with
  | [] => Some s
  | e :: es => s' ← app_step s e; app_run s' es
  end.

Lemma app_run_app s es es' : app_run s (es ++ es') = s' ← app_run s es; app_run s' es'.
Proof.
  revert s. induction es as [|e es IH]; intros s; [done|]. cbn [app app_run].
  destruct (app_step s e) as [s'|]; cbn [mbind option_bind]; [apply IH|done].
Qed.

(** ** The interface *)

(** A component as components() describes it. *)
Definition standalone_ok (e : pldm_firmware_component_standalone) : Prop :=
  version_ok (sa_active_ver e) /\ version_ok (sa_pending_ver e).

Definition u64_ok (t : Z) : Prop := 0 <= t < 18446744073709551616.

(** [app s c]: in the protocol state [s] the application may be in the context [c].
    Every callback exists, returns values of its C type and objects as large as it
    says, and may rely on being called when the protocol allows it. *)
Class FdApp {C : Type} (ops : pldm_fd_ops C) (app : app_state -> C -> Prop) : Prop := {
  app_device_identifiers : exists f, device_identifiers ops = Some f /\ forall s c, app s c ->
    let '((rc, count, ds), c') := f c in
    app s c' /\ (rc = 0 -> 0 <= count <= 255 /\
      match ds with Some ds => count <= Z.of_nat (length ds) /\ Forall descriptor_ok ds | None => True end);
  app_components : exists f, components ops = Some f /\ forall s c, app s c ->
    let '((rc, count, es), c') := f c in
    app s c' /\ (rc = 0 -> 0 <= count <= Z.of_nat (length es) /\ Forall standalone_ok es);
  app_imageset_versions : exists f, imageset_versions ops = Some f /\ forall s c a p, app s c ->
    let '((rc, a, p), c') := f c a p in app s c' /\ (rc = 0 -> string_ok a /\ string_ok p);
  app_update_component : exists f, update_component ops = Some f /\ forall c update comp,
    app AppIdle c ->
    let '(code, c') := f c update comp in
    app (if update && (u8 code =? PLDM_CRC_COMP_CAN_BE_UPDATED) then AppDownload comp [] else AppIdle) c';
  app_transfer_size : exists f, transfer_size ops = Some f /\ forall s c n, app s c ->
    let '(size, c') := f c n in app s c' /\ 0 <= size < 4294967296;
  app_firmware_data : exists f, firmware_data ops = Some f /\ forall comp rcv c data len,
    app (AppDownload comp rcv) c -> 0 <= len <= mem_size data ->
    Z.of_nat (length rcv) + len <= uc_comp_image_size comp ->
    0 < len \/ uc_comp_image_size comp = 0 ->
    let '(res, c') := f c (Z.of_nat (length rcv)) data len comp in
    byte_ok res /\
    app (if res =? PLDM_FWUP_TRANSFER_SUCCESS
         then AppDownload comp (rcv ++ slice 0 (Z.to_nat len) (bytes data)) else AppBroken comp) c';
  app_verify : exists f, verify ops = Some f /\ forall s c comp p,
    app s c -> may_verify s comp -> byte_ok p ->
    let '((res, pending, p'), c') := f c comp false p in
    byte_ok res /\ byte_ok p' /\ app (after_verify comp res pending) c';
  app_apply : exists f, apply ops = Some f /\ forall s c comp p,
    app s c -> may_apply s comp -> byte_ok p ->
    let '((res, pending, p'), c') := f c comp false p in
    byte_ok res /\ byte_ok p' /\ app (after_apply comp res pending) c';
  app_activate : exists f, activate ops = Some f /\ forall c sc t, app AppIdle c ->
    let '((cc, t'), c') := f c sc t in byte_ok cc /\ app AppIdle c';
  app_cancel : exists f, cancel_update_component ops = Some f /\ forall s c comp,
    app s c -> app_component s = Some comp -> app AppIdle (f c comp);
  app_now : exists f, now ops = Some f /\ forall s c, app s c ->
    let '(t, c') := f c in app s c' /\ u64_ok t
}.
