(* ===== verification/FdSafe.v ===== *)
(** * The firmware device keeps its promises

    The invariant of the responder's state, and for every handler of fd.c: under the
    invariant it returns, fails no assertion, stays within the messages it was given,
    keeps the invariant and calls the application as the protocol of [FdSpec] allows. *)

From S2P Require Import Prelude Msgbuf Utils Base Control FwUpdate FirmwareDevice FdSpec.

(** ** The invariant *)

(** The state's own data, and the protocol state it stands for. *)
Definition phase_ok (f : pldm_fd) (s : app_state) : Prop :=
  let c := update_comp f in
  let r := req f in
  let sent cmd := req_state r = PLDM_FD_REQ_SENT -> req_command r = cmd in
  match state f with
  | PLDM_FD_STATE_DOWNLOAD =>
    req_state r <> PLDM_FD_REQ_UNUSED /\
    exists off, download_offset f = Ok off /\ 0 <= off <= uc_comp_image_size c /\
    if req_complete r then
      sent PLDM_TRANSFER_COMPLETE /\
      if req_result r =? PLDM_FWUP_TRANSFER_SUCCESS then
        off = uc_comp_image_size c /\
        exists rcv, s = AppDownload c rcv /\ Z.of_nat (length rcv) = off
      else app_component s = Some c
    else
      req_state r <> PLDM_FD_REQ_FAILED /\ sent PLDM_REQUEST_FIRMWARE_DATA /\
      (off < uc_comp_image_size c \/ uc_comp_image_size c = 0) /\
      exists rcv, s = AppDownload c rcv /\ Z.of_nat (length rcv) = off
  | PLDM_FD_STATE_VERIFY =>
    req_state r <> PLDM_FD_REQ_UNUSED /\ sent PLDM_VERIFY_COMPLETE /\
    exists p, specific f = SpVerify p /\ byte_ok p /\
    if req_complete r then
      if req_result r =? PLDM_FWUP_VERIFY_SUCCESS then s = AppVerified c
      else app_component s = Some c
    else req_state r = PLDM_FD_REQ_READY /\ may_verify s c
  | PLDM_FD_STATE_APPLY =>
    req_state r <> PLDM_FD_REQ_UNUSED /\ sent PLDM_APPLY_COMPLETE /\
    exists p, specific f = SpApply p /\ byte_ok p /\
    if req_complete r then
      if req_result r =? PLDM_FWUP_APPLY_SUCCESS then s = AppIdle
      else app_component s = Some c
    else req_state r = PLDM_FD_REQ_READY /\ may_apply s c
  | PLDM_FD_STATE_ACTIVATE => False
  | _ => s = AppIdle
  end.

Record fd_ok (f : pldm_fd) (s : app_state) : Prop := {
  fd_ua : ua_address_set f = negb (bool_decide (state f = PLDM_FD_STATE_IDLE));
  fd_size : 0 <= uc_comp_image_size (update_comp f) < 4294967296;
  fd_max : state f <> PLDM_FD_STATE_IDLE -> 32 <= max_transfer f < 4294967296;
  fd_instance : 0 <= req_instance_id (req f) < 32;
  fd_command : req_state (req f) = PLDM_FD_REQ_SENT ->
    req_command (req f) ∈ [PLDM_REQUEST_FIRMWARE_DATA; PLDM_TRANSFER_COMPLETE;
                           PLDM_VERIFY_COMPLETE; PLDM_APPLY_COMPLETE];
  fd_result : byte_ok (req_result (req f));
  fd_phase : phase_ok f s
}.

(** What handlers find on the stack, as far as it matters. *)
Record stack_ok (st : fd_stack) : Prop := {
  stack_upd_ok : length (str_data (ru_image_set_ver (stack_upd st))) = 64%nat /\
                 0 <= str_len (ru_image_set_ver (stack_upd st)) < 256;
  stack_pcomp_ok : length (str_data (pc_version (stack_pcomp st))) = 64%nat;
  stack_up_ok : length (str_data (up_version (stack_up st))) = 64%nat
}.

(** ** Rules for the handlers' monad *)

Section rules.
Context {C : Type}.
Implicit Types w : fd_world C.

Lemma wp_get_fd w Q : Q (fd w) w -> wp get_fd w Q.
Proof. done. Qed.

Lemma wp_mod_fd f w Q : Q tt (World (f (fd w)) (ops_ctx w)) -> wp (mod_fd f) w Q.
Proof. done. Qed.

Lemma wp_lift {A} (m : outcome A) a w Q : m = Ok a -> Q a w -> wp (lift m) w Q.
Proof. intros ->. done. Qed.

Lemma wp_call {Fn A} (fn : option Fn) f (k : Fn -> C -> A * C) w Q :
  fn = Some f -> Q (fst (k f (ops_ctx w))) (World (fd w) (snd (k f (ops_ctx w)))) ->
  wp (call fn k) w Q.
Proof. intros -> HQ. unfold wp, call. by destruct (k f (ops_ctx w)). Qed.
End rules.

(** ** Replies *)

(** A handler's response to a request with header [h]: packed as such and within the
    payload, or one of two errors. *)
Definition replied (h : pldm_header_info) (resp : pldm_msg) (len : Z) (r : Z * pldm_msg * Z) : Prop :=
  let '(rc, resp', len') := r in
  same_place (payload resp) (payload resp') /\
  (rc = 0 -> hdr resp' = packed PLDM_RESPONSE (instance h) PLDM_FWUP (hi_command h) /\
             1 <= len' <= len) /\
  (rc <> 0 -> rc = - EOVERFLOW \/ rc = - EINVAL).

Section replies.
Context (h : pldm_header_info) (resp : pldm_msg) (len : Z).
Hypothesis Hinst : 0 <= instance h <= 31.
Hypothesis Hmem : mem_place (payload resp).
Hypothesis Hlen : 1 <= len <= mem_size (payload resp).

(** Any message that went through the encoders can still be replied to. *)
Lemma reply_cc_any cc r l :
  same_place (payload resp) (payload r) -> 1 <= l <= len ->
  exists x, pldm_fd_reply_cc cc h r l = Ok x /\ replied h resp len x.
Proof.
  intros [Ha Hr] Hl. unfold pldm_fd_reply_cc, encode_cc_only_resp. cmp_case; [lia|].
  rewrite legacy_frame_ok by (repeat constructor || lia).
  rewrite payload_write_next by (cbn; lia). cbn [mbind outcome_bind].
  eexists. split; [reflexivity|]. cbn.
  split; [split; cbn; [done|by rewrite size_wrote by (cbn; lia)]|]. split; [|by intros []]. intros _. split; [done|lia].
Qed.

Lemma reply_cc_ok cc : exists x, pldm_fd_reply_cc cc h resp len = Ok x /\ replied h resp len x.
Proof. apply reply_cc_any; done || lia. Qed.

Lemma reply_errno_any e r l :
  e < 0 -> same_place (payload resp) (payload r) -> 1 <= l <= len ->
  exists x, pldm_fd_reply_errno e h r l = Ok x /\ replied h resp len x.
Proof.
  intros He Hr Hl. unfold pldm_fd_reply_errno, c_assert.
  replace (e <? 0) with true by lia. cbn [mbind outcome_bind]. by apply reply_cc_any.
Qed.

(** An encoder's result: the response, or the completion code for its error. *)
Lemma encoded_cases cmd r (P : Z -> Z -> cmem -> Prop) :
  framed PLDM_RESPONSE (instance h) cmd resp len r P ->
  (forall rc l m, P rc l m -> fits_or_fails len rc l) -> cmd = hi_command h ->
  exists x, r = Ok x /\ let '(rc, resp', len') := encoded resp len x in
    same_place (payload resp) (payload resp') /\ 1 <= len' <= len /\
    (rc = 0 \/ rc < 0) /\ replied h resp len (rc, resp', len').
Proof.
  intros (rc & l & m & -> & Hm & HP) Hf ->. apply Hf in HP. eexists. split; [reflexivity|].
  cbn. unfold fits_or_fails in HP. split; [done|]. split; [lia|]. split; [lia|].
  split; [done|]. split; [|lia]. intros ->. split; [done|lia].
Qed.
End replies.

Lemma discard_reply_ok buf r : discard_reply buf r = Ok r.
Proof. by destruct r as [[rc m] l]. Qed.

Lemma ptr_at_place m k : mem_place m -> 0 <= k <= mem_size m ->
  mem_place (ptr_at m k) /\ mem_size (ptr_at m k) = mem_size m - k.
Proof.
  intros [] Hk. assert (mem_size (ptr_at m k) = mem_size m - k) as Hs.
  { unfold ptr_at, mem_size in *. cbn. rewrite length_drop. lia. }
  split; [|done]. constructor; rewrite ?Hs; cbn; lia.
Qed.

Lemma put_at_place m k p :
  0 <= k <= mem_size m -> same_place (ptr_at m k) p -> same_place m (put_at m p).
Proof.
  intros Hk [Ha Hs]. split; [done|]. unfold put_at, ptr_at, mem_size in *. cbn in *.
  rewrite length_app, length_take. rewrite length_drop in Hs. rewrite Ha.
  replace (addr m + k - addr m) with k by lia. lia.
Qed.

(** ** The callbacks, through the interface *)

Section handlers.
Context {C : Type} (ops : pldm_fd_ops C) (app : app_state -> C -> Prop) `{!FdApp ops app}.
Implicit Types w : fd_world C.

(** The responder and the application agree on where the update stands. *)
Definition good w : Prop := exists s, fd_ok (fd w) s /\ app s (ops_ctx w).

Lemma wp_callback {Fn A} (fn : option Fn) (k : Fn -> C -> A * C) (P : A -> C -> Prop) w Q :
  (exists f, fn = Some f /\ let '(a, c') := k f (ops_ctx w) in P a c') ->
  (forall a c', P a c' -> Q a (World (fd w) c')) ->
  wp (call fn k) w Q.
Proof.
  intros (f & Hf & HP) HQ. apply (wp_call fn f); [done|].
  destruct (k f (ops_ctx w)) as [a c']. by apply HQ.
Qed.

Lemma wp_now w s Q :
  app s (ops_ctx w) ->
  (forall t c', app s c' -> u64_ok t -> Q t (World (fd w) c')) ->
  wp (pldm_fd_now ops) w Q.
Proof.
  intros Hs HQ. destruct app_now as (f & Hf & H). specialize (H s (ops_ctx w) Hs).
  apply (wp_callback _ _ (fun t c' => app s c' /\ u64_ok t)); [by exists f|].
  intros t c' []. by apply HQ.
Qed.

Lemma wp_cancel w s comp Q :
  app s (ops_ctx w) -> app_component s = Some comp ->
  (forall c', app AppIdle c' -> Q tt (World (fd w) c')) ->
  wp (call (cancel_update_component ops) (fun f c => (tt, f c comp))) w Q.
Proof.
  intros Hs Hc HQ. destruct app_cancel as (f & Hf & H).
  apply (wp_callback _ _ (fun _ c' => app AppIdle c')).
  { exists f. split; [done|]. by apply (H s). }
  intros [] c'. apply HQ.
Qed.

(** [fd->ops->components], for the handlers that look at its result. *)
Lemma wp_components w s Q :
  app s (ops_ctx w) ->
  (forall rc count es c', app s c' ->
     (rc = 0 -> 0 <= count <= Z.of_nat (length es) /\ Forall standalone_ok es) ->
     Q (rc, count, es) (World (fd w) c')) ->
  wp (call (components ops) (fun f c => f c)) w Q.
Proof.
  intros Hs HQ. destruct app_components as (f & Hf & H). specialize (H s (ops_ctx w) Hs).
  apply (wp_callback _ _ (fun '(rc, count, es) c' => app s c' /\
    (rc = 0 -> 0 <= count <= Z.of_nat (length es) /\ Forall standalone_ok es)));
    [exists f; split; [done|]; by destruct (f (ops_ctx w)) as [[[? ?] ?] ?]|].
  intros [[rc count] es] c' []. by apply HQ.
Qed.

(** A step of the responder that leaves its own state alone. *)
Lemma good_ctx w s c' : fd_ok (fd w) s -> app s c' -> good (World (fd w) c').
Proof. intros ??. by exists s. Qed.

Section request.
Context (h : pldm_header_info) (resp : pldm_msg) (len : Z).
Hypothesis Hinst : 0 <= instance h <= 31.
Hypothesis Hmem : mem_place (payload resp).
Hypothesis Hlen : 1 <= len <= mem_size (payload resp).

(** A handler: it returns, answers, and changes the device state along [edge]. *)
Definition handles (edge : pldm_fd -> pldm_fd -> Prop) (p : stM (fd_world C) (Z * pldm_msg * Z)) : Prop :=
  forall w, good w ->
  wp p w (fun r w' => good w' /\ replied h resp len r /\ edge (fd w) (fd w')).

Definition unchanged (f f' : pldm_fd) : Prop := f' = f.

(** Answer with a completion code, or the one for an errno. *)
Lemma wp_reply_cc cc w (Q : Z * pldm_msg * Z -> fd_world C -> Prop) :
  (forall r, replied h resp len r -> Q r w) -> wp (lift (pldm_fd_reply_cc cc h resp len)) w Q.
Proof.
  intros HQ. destruct (reply_cc_ok h resp len Hinst Hlen cc) as (x & E & Hx).
  eapply wp_lift; [exact E|auto].
Qed.

Lemma wp_reply_errno e r l w (Q : Z * pldm_msg * Z -> fd_world C -> Prop) :
  e < 0 -> same_place (payload resp) (payload r) -> 1 <= l <= len ->
  (forall x, replied h resp len x -> Q x w) -> wp (lift (pldm_fd_reply_errno e h r l)) w Q.
Proof.
  intros He Hr Hl HQ. destruct (reply_errno_any h resp len Hinst Hlen e r l He Hr Hl) as (x & E & Hx).
  eapply wp_lift; [exact E|auto].
Qed.

(** The end of most handlers: an encoder was run, and [k] goes on if it succeeded. *)
Lemma wp_encoded cmd r (P : Z -> Z -> cmem -> Prop) w
    (fail k : Z -> pldm_msg -> Z -> stM (fd_world C) (Z * pldm_msg * Z))
    (Q : Z * pldm_msg * Z -> fd_world C -> Prop) :
  framed PLDM_RESPONSE (instance h) cmd resp len r P ->
  (forall rc l m, P rc l m -> fits_or_fails len rc l) -> cmd = hi_command h ->
  (forall rc resp' len', rc < 0 -> same_place (payload resp) (payload resp') -> 1 <= len' <= len ->
     wp (fail rc resp' len') w Q) ->
  (forall resp' len', replied h resp len (0, resp', len') -> wp (k 0 resp' len') w Q) ->
  wp (r ← lift r; let '(rc, resp, len) := encoded resp len r in
      if negb (rc =? 0) then fail rc resp len else k rc resp len) w Q.
Proof.
  intros Hr HP Hcmd Hfail Hk.
  destruct (encoded_cases h resp len Hlen cmd r P Hr HP Hcmd) as (x & -> & Hx).
  apply wp_bind. eapply wp_lift; [reflexivity|].
  destruct (encoded resp len x) as [[rc resp'] len']. destruct Hx as (Hs & Hl & Hrc & Hrep).
  destruct (Z.eqb_spec rc 0) as [->|]; cbn [negb]; [by apply Hk|]. apply Hfail; done || lia.
Qed.

Lemma qdi_ok n :
  hi_command h = PLDM_QUERY_DEVICE_IDENTIFIERS ->
  handles unchanged (pldm_fd_qdi ops h n resp len).
Proof.
  intros Hcmd w (s & Hok & Happ). unfold pldm_fd_qdi.
  assert (forall c' r, app s c' -> replied h resp len r ->
    good (World (fd w) c') /\ replied h resp len r /\ unchanged (fd w) (fd (World (fd w) c'))) as Hend
    by (intros; split; [by eapply good_ctx|done]).
  destruct w as [f c]. destruct (negb (n =? 0)). { apply wp_reply_cc. intros. by apply Hend. }
  apply wp_bind. destruct app_device_identifiers as (fn & Hf & H).
  specialize (H s c Happ).
  apply (wp_callback _ _ (fun '(rc, count, ds) c' => app s c' /\ (rc = 0 -> 0 <= count <= 255 /\
      match ds with Some ds => count <= Z.of_nat (length ds) /\ Forall descriptor_ok ds | None => True end)));
    [exists fn; split; [done|]; cbn [ops_ctx] in *; by destruct (fn c) as [[[? ?] ?] ?]|].
  intros [[rc count] ds] c' [Happ' Hds].
  destruct (Z.eqb_spec rc 0) as [->|]; cbn [negb]; [|apply wp_reply_cc; intros; by apply Hend].
  destruct Hds as [Hcount Hds]; [done|]. apply wp_bind. destruct ds as [ds|].
  - destruct (query_device_identifiers_ok (instance h) resp len Hinst Hmem ltac:(lia) count ds)
      as ([rc l] & hd & m & E & Hm & Hfit & Hhd); [done|apply Hds|apply Hds|].
    eapply wp_lift; [exact E|]. cbn [encoded default from_option fst snd id] in *. unfold fits_or_fails in Hfit.
    destruct (Z.eqb_spec rc 0) as [->|]; cbn [negb].
    + apply wp_ret, Hend; [done|]. split; [done|]. split; [|done]. intros _. cbn [hdr].
      rewrite Hhd, Hcmd by done. split; [done|lia].
    + apply wp_reply_errno; [lia|done|lia|]. intros. by apply Hend.
  - eapply wp_lift; [reflexivity|]. cbn [encoded default from_option id negb Z.eqb Z.opp].
    apply wp_reply_errno; [lia|done|lia|]. intros. by apply Hend.
Qed.

(** The buffer of GetFirmwareParameters after [k] bytes. *)
Record buf_at (m : cmem) (k : Z) (buf : msgbuf) : Prop := {
  buf_obj : obj buf = m;
  buf_cursor : cursor buf = Some k;
  buf_remaining : remaining buf = len - k
}.

Lemma skip_ok m k n buf :
  buf_at m k buf -> 0 <= n <= len - k -> len <= INTMAX_MAX ->  0 <= k ->
  exists buf', pldm_msgbuf_skip n buf = Ok (0, buf') /\ buf_at m (k + n) buf'.
Proof.
  intros [Ho Hc Hr] Hn Hmax Hk. unfold pldm_msgbuf_skip. rewrite Hr. cmp_case; [lia|].
  cmp_case; [|lia]. unfold msgbuf_advance. rewrite Hc. cbn. eexists. split; [reflexivity|].
  constructor; cbn; try done. rewrite Hr. lia.
Qed.

Lemma fw_param_entries_ok n es r k buf :
  same_place (payload resp) (payload r) ->
  hdr r = packed PLDM_RESPONSE (instance h) PLDM_FWUP (hi_command h) ->
  buf_at (payload r) k buf -> 1 <= k <= len -> (n <= length es)%nat -> Forall standalone_ok es ->
  exists x, fw_param_entries h n es r len buf = Ok x /\ replied h resp len x.
Proof.
  intros Hr Hh Hb Hk Hn Hes. revert r es k buf Hr Hh Hb Hk Hn Hes.
  induction n as [|n IH]; intros r es k buf Hr Hh Hb Hk Hn Hes.
  { assert (fw_param_entries h 0 es r len buf = Ok (0, r, k)) as E.
    { destruct Hb as [Ho Hc Hrem]. cbn [fw_param_entries].
      unfold pldm_msgbuf_complete_used. cbn [remaining obj]. rewrite Hrem.
      unfold pldm__msgbuf_validate. replace (len - k <? 0) with false by lia. cbn.
      cmp_case; [lia|]. cbn. do 2 f_equal. lia. }
    rewrite E. eexists. split; [reflexivity|]. split; [done|]. split; [|done]. intros _. by rewrite Hh. }
  destruct es as [|e es]; [cbn in Hn; lia|]. apply Forall_cons_1 in Hes as [[He1 He2] Hes].
  pose proof Hb as [Ho Hc Hrem]. cbn [fw_param_entries].
  assert (mem_place (payload r)) as Hplace by by eapply mem_place_same.
  pose proof Hr as [_ Hsize].
  destruct (ptr_at_place (payload r) k Hplace) as [Hp Hps]; [lia|].
  unfold pldm_msgbuf_peek_remaining. rewrite Hrem, Hc, Ho. cmp_case; [lia|].
  cbn [mbind outcome_bind negb Z.eqb].
  match goal with |- context [encode_get_firmware_parameters_resp_comp_entry (Some ?c) _ _] =>
    destruct (comp_entry_ok c (ptr_at (payload r) k) (len - k)) as (rc & l & p & -> & Hsp & Hfit);
      [done|done|done|lia|] end.
  cbn [mbind outcome_bind from_option].
  set (r' := Msg (hdr r) (put_at (payload r) p)).
  assert (same_place (payload resp) (payload r')) as Hr'.
  { eapply same_place_trans; [exact Hr|]. apply (put_at_place _ k); [lia|done]. }
  unfold fits_or_fails in Hfit. destruct (Z.eqb_spec rc 0) as [->|]; cbn [negb].
  - destruct (skip_ok (payload r') k l (buf_sync (payload r') buf)) as (buf' & E & Hb');
      [by constructor|lia|destruct Hmem; lia|lia|].
    cbn [default from_option id]. rewrite E. cbn [mbind outcome_bind].
    eapply IH; [done|done|exact Hb'|lia|cbn in Hn; lia|done].
  - destruct (reply_errno_any h resp len Hinst Hlen rc r' len) as (x & -> & Hx); [lia|done|lia|].
    cbn [mbind outcome_bind]. rewrite discard_reply_ok. by exists x.
Qed.

Lemma fw_param_ok n :
  hi_command h = PLDM_GET_FIRMWARE_PARAMETERS ->
  handles unchanged (pldm_fd_fw_param ops h n resp len).
Proof.
  intros Hcmd w (s & Hok & Happ). unfold pldm_fd_fw_param.
  assert (forall c' r, app s c' -> replied h resp len r ->
    good (World (fd w) c') /\ replied h resp len r /\ unchanged (fd w) (fd (World (fd w) c'))) as Hend
    by (intros; split; [by eapply good_ctx|done]).
  destruct w as [f c]. destruct (negb (n =? 0)). { apply wp_reply_cc. intros. by apply Hend. }
  apply wp_bind, (wp_components _ s); [done|]. intros rc count es c1 Happ1 Hes. cbn [fd].
  destruct (Z.eqb_spec rc 0) as [->|]; cbn [negb]; [|apply wp_reply_cc; intros; by apply Hend].
  destruct Hes as [Hcount Hes]; [done|]. pose proof Hmem as [Ha He Hi].
  apply wp_bind. eapply wp_lift.
  { unfold pldm_msgbuf_rw_init_errno, pldm__msgbuf_init_errno. do 3 (cmp_case; [lia|]). reflexivity. }
  cbn [Z.eqb]. apply wp_bind. destruct app_imageset_versions as (fi & Hfi & H).
  apply (wp_callback _ _ (fun '(rc, a, p) c' => app s c' /\ (rc = 0 -> string_ok a /\ string_ok p))).
  { exists fi. split; [done|]. specialize (H s c1 fw_string_empty fw_string_empty Happ1).
    cbn [ops_ctx]. by destruct (fi c1 _ _) as [[[? ?] ?] ?]. }
  intros [[rc a] p] c2 [Happ2 Hap]. cbn [fd].
  assert (forall x, replied h resp len x -> wp (lift (discard_reply (MsgBuf (payload resp) (Some 0) len) x))
    (World f c2) (fun r w' => good w' /\ replied h resp len r /\ unchanged f (fd w'))) as Hdiscard.
  { intros x Hx. eapply wp_lift; [apply discard_reply_ok|]. by apply Hend. }
  destruct (Z.eqb_spec rc 0) as [->|]; cbn [negb].
  2: { apply wp_bind, wp_reply_cc. intros. by apply Hdiscard. }
  destruct Hap as [Hsa Hsp]; [done|]. apply wp_bind.
  destruct (get_firmware_parameters_ok (instance h) resp len Hinst Hmem ltac:(lia)
    (FwParams PLDM_SUCCESS 0 count a p)) as (rc & l & hd & m & E & Hm & Hfit & Hhd); [done|done|].
  eapply wp_lift; [exact E|]. cbn [encoded default from_option id remaining]. unfold fits_or_fails in Hfit.
  destruct (Z.eqb_spec rc 0) as [->|]; cbn [negb].
  2: { apply wp_bind, wp_reply_errno; [lia|done|lia|]. intros. by apply Hdiscard. }
  destruct (skip_ok m 0 l (buf_sync m (MsgBuf (payload resp) (Some 0) len))) as (buf & Es & Hb);
    [by constructor; cbn; rewrite ?Z.sub_0_r|lia|lia|lia|].
  apply wp_bind. eapply wp_lift; [exact Es|]. cbn [Z.eqb].
  destruct (fw_param_entries_ok (Z.to_nat count) es (Msg hd m) (0 + l) buf) as (x & Ex & Hx);
    [done|cbn [hdr]; by rewrite Hhd, Hcmd|done|lia|lia|done|].
  eapply wp_lift; [exact Ex|]. by apply Hend.
Qed.

Lemma get_status_ok n :
  hi_command h = PLDM_GET_STATUS -> handles unchanged (pldm_fd_get_status h n resp len).
Proof.
  intros Hcmd w (s & Hok & Happ). unfold pldm_fd_get_status.
  assert (forall r, replied h resp len r ->
    good w /\ replied h resp len r /\ unchanged (fd w) (fd w)) as Hend
    by (intros; split; [by exists s|done]).
  destruct (negb (n =? 0)). { apply wp_reply_cc. intros. by apply Hend. }
  apply wp_bind, wp_get_fd. destruct (pldm_fd_get_aux_state (fd w)) as [aux status].
  apply wp_bind.
  match goal with |- wp (lift ?m) _ _ => assert (exists x, m = Ok x) as ([[progress code] flags] & ->) end.
  { destruct Hok as [_ _ _ _ _ _ Hph]. unfold phase_ok in Hph. destruct (state (fd w)); try by eexists.
    - destruct Hph as (_ & off & Hoff & _). unfold download_offset in Hoff.
      destruct (0 <? _); [|by eexists]. destruct (specific (fd w)); try done; by eexists.
    - destruct Hph as (_ & _ & p & -> & _). by eexists.
    - destruct Hph as (_ & _ & p & -> & _). by eexists. }
  eapply wp_lift; [reflexivity|]. unfold encode_get_status_resp. cbn [negb Z.eqb st_completion_code].
  eapply wp_encoded.
  - apply fields_fit_or_fail; [repeat constructor|done|done|lia|cbn; lia|cbn; lia].
  - done.
  - done.
  - intros. apply wp_reply_errno; [lia|done|lia|]. intros. by apply Hend.
  - intros. apply wp_ret, Hend. done.
Qed.

(** Entering update mode. *)
Definition enters_update (address : Z) (f f' : pldm_fd) : Prop :=
  unchanged f f' \/
  state f = PLDM_FD_STATE_IDLE /\ state f' = PLDM_FD_STATE_LEARN_COMPONENTS /\
  ua_address_set f' = true /\ ua_address f' = address.

Lemma request_update_handles upd msg n address :
  hi_command h = PLDM_REQUEST_UPDATE ->
  length (str_data (ru_image_set_ver upd)) = 64%nat -> 0 <= str_len (ru_image_set_ver upd) < 256 ->
  mem_ok (payload msg) -> 0 <= n <= mem_size (payload msg) ->
  handles (enters_update address) (pldm_fd_request_update ops upd h msg n resp len address).
Proof.
  intros Hcmd Hu1 Hu2 Hmsg Hn w (s & Hok & Happ). unfold pldm_fd_request_update.
  assert (forall r, replied h resp len r ->
    good w /\ replied h resp len r /\ enters_update address (fd w) (fd w)) as Hend
    by (intros; split; [by exists s|split; [done|by left]]).
  apply wp_bind, wp_get_fd. case_bool_decide as Hidle; cbn [negb].
  2: { apply wp_reply_cc. intros. by apply Hend. }
  destruct (request_update_ok msg n Hmsg Hn upd Hu1 Hu2) as (rc & u & E & Hdec).
  apply wp_bind. eapply wp_lift; [exact E|]. cbn [default from_option id].
  destruct (version_fits msg n 9).
  2: { unfold decode_errors in Hdec. rewrite !elem_of_cons, elem_of_nil in Hdec.
       replace (rc =? 0) with false by lia. cbn [negb]. apply wp_reply_errno; [lia|done|lia|].
       intros. by apply Hend. }
  destruct Hdec as [-> ->]. cbn [negb Z.eqb ru_max_transfer_size]. unfold encode_request_update_resp.
  eapply wp_encoded; [apply fields_fit_or_fail; [repeat constructor|done|done|lia|cbn; lia|cbn; lia]|done|done| |].
  { intros. apply wp_reply_errno; [lia|done|lia|]. intros. by apply Hend. }
  intros resp' len' Hrep. apply wp_bind. destruct app_transfer_size as (ft & Hft & H).
  pose proof (fld_bound (payload msg) 0 4 (mem_ok_bytes _ Hmsg)) as Hmax. set (max := field msg 0 4) in *.
  apply (wp_callback _ _ (fun size c' => app s c' /\ 0 <= size < 4294967296)).
  { exists ft. split; [done|]. by apply H. }
  intros size c' [Happ' Hsize].
  do 2 (apply wp_bind, wp_mod_fd). cbn [fd ops_ctx]. apply wp_bind. unfold pldm_fd_set_state.
  apply wp_bind. eapply wp_lift; [reflexivity|]. apply wp_bind, wp_get_fd.
  cbn [fd with_ua with_max_transfer state]. rewrite Hidle. rewrite bool_decide_false by done.
  apply wp_mod_fd. apply wp_ret. cbn [fd ops_ctx]. split; [|split; [done|right]].
  2: { by rewrite Hidle. }
  exists s. split; [|done]. destruct Hok as [H1 H2 H3 H4 H5 H6 H7]. unfold phase_ok in H7.
  rewrite Hidle in H7. constructor; cbn; try done.
  intros _. destruct (Z.ltb_spec max size); cmp_case; cbn in Hmax; lia.
Qed.

Lemma maybe_cancel_ok w s Q :
  fd_ok (fd w) s -> app s (ops_ctx w) ->
  (forall c', app AppIdle c' -> Q tt (World (fd w) c')) ->
  wp (pldm_fd_maybe_cancel_component ops) w Q.
Proof.
  intros [_ _ _ _ _ _ Hph] Happ HQ. unfold pldm_fd_maybe_cancel_component.
  apply wp_bind, wp_get_fd. unfold phase_ok in Hph.
  assert (s = AppIdle -> wp (mret tt) w Q) as Hidle.
  { intros ->. apply wp_ret. destruct w. by apply HQ. }
  assert (app_component s = Some (update_comp (fd w)) ->
    wp (call (cancel_update_component ops) (fun f c => (tt, f c (update_comp (fd w))))) w Q) as Hcancel
    by (intros; by eapply wp_cancel).
  destruct (state (fd w)); try (by apply Hidle); try done; apply Hcancel || idtac.
  - destruct Hph as (_ & off & _ & _ & H). destruct (req_complete _).
    + destruct H as [_ H]. destruct (_ =? _); [|done]. by destruct H as (_ & rcv & -> & _).
    + by destruct H as (_ & _ & _ & rcv & -> & _).
  - destruct Hph as (_ & _ & p & _ & _ & H). destruct (req_complete _).
    + destruct (_ =? _); [by subst|done].
    + destruct H as [_ H]. destruct s; cbn in *; try done; [by destruct H as [-> _]|by subst].
  - destruct Hph as (_ & _ & p & _ & _ & H). destruct (req_complete _); cbn [andb].
    + destruct (_ =? _); cbn [negb]; [by apply Hidle|by apply Hcancel].
    + apply Hcancel. destruct H as [_ H]. destruct s; cbn in *; try done; by subst.
Qed.

(** Dropping out of update mode. *)
Lemma idle_ok f s r :
  fd_ok f s -> fd_ok (with_ua (ua_address f) false (with_states PLDM_FD_STATE_IDLE (state f) r f)) AppIdle.
Proof. intros []. by constructor. Qed.

(** Back to waiting for the update agent's next command. *)
Lemma ready_xfer_ok f s :
  fd_ok f s -> state f <> PLDM_FD_STATE_IDLE ->
  fd_ok (with_states PLDM_FD_STATE_READY_XFER (state f) (reason f) f) AppIdle.
Proof.
  intros [] Hne. constructor; cbn; try done.
  - rewrite fd_ua0. by rewrite !bool_decide_false.
  - intros _. by apply fd_max0.
Qed.

Definition component_active (f : pldm_fd) : Prop :=
  state f = PLDM_FD_STATE_DOWNLOAD \/ state f = PLDM_FD_STATE_VERIFY \/ state f = PLDM_FD_STATE_APPLY.

Definition leaves_component (f f' : pldm_fd) : Prop :=
  unchanged f f' \/ component_active f /\ state f' = PLDM_FD_STATE_READY_XFER.

Lemma cancel_update_comp_handles n :
  hi_command h = PLDM_CANCEL_UPDATE_COMPONENT ->
  handles leaves_component (pldm_fd_cancel_update_comp ops h n resp len).
Proof.
  intros Hcmd w (s & Hok & Happ). unfold pldm_fd_cancel_update_comp.
  assert (forall r, replied h resp len r ->
    good w /\ replied h resp len r /\ leaves_component (fd w) (fd w)) as Hend
    by (intros; split; [by exists s|split; [done|by left]]).
  destruct (negb (n =? 0)). { apply wp_reply_cc. intros. by apply Hend. }
  apply wp_bind, wp_get_fd.
  destruct (state (fd w)) eqn:Est; try (apply wp_reply_cc; intros; by apply Hend).
  all: apply wp_bind, wp_reply_cc; intros [[rc resp'] len'] Hrep.
  all: destruct (Z.eqb_spec rc 0) as [->|]; [|apply wp_ret, Hend; done].
  all: apply wp_bind; eapply maybe_cancel_ok; [done|done|]; intros c' Happ'.
  all: unfold pldm_fd_set_state; do 2 apply wp_bind; (eapply wp_lift; [reflexivity|]).
  all: apply wp_bind, wp_get_fd; cbn [fd]; rewrite Est, bool_decide_false by done.
  all: apply wp_mod_fd, wp_ret; cbn [fd ops_ctx].
  all: split; [exists AppIdle; split; [|done]; cbn [fd]; rewrite <- Est; eapply ready_xfer_ok; [done|by rewrite Est]|].
  all: split; [done|right; split; [unfold component_active; tauto|done]].
Qed.

Definition leaves_update (r : Z) (f f' : pldm_fd) : Prop :=
  unchanged f f' \/
  state f <> PLDM_FD_STATE_IDLE /\ state f' = PLDM_FD_STATE_IDLE /\ reason f' = r /\
  ua_address_set f' = false.

Lemma cancel_update_handles n :
  hi_command h = PLDM_CANCEL_UPDATE ->
  handles (leaves_update PLDM_FD_CANCEL_UPDATE) (pldm_fd_cancel_update ops h n resp len).
Proof.
  intros Hcmd w (s & Hok & Happ). unfold pldm_fd_cancel_update.
  assert (forall r, replied h resp len r ->
    good w /\ replied h resp len r /\ leaves_update 2 (fd w) (fd w)) as Hend
    by (intros; split; [by exists s|split; [done|by left]]).
  destruct (negb (n =? 0)). { apply wp_reply_cc. intros. by apply Hend. }
  apply wp_bind, wp_get_fd. case_bool_decide as Hidle. { apply wp_reply_cc. intros. by apply Hend. }
  eapply wp_encoded; [apply cancel_update_ok; done || lia|done|done| |].
  { intros. apply wp_reply_errno; [lia|done|lia|]. intros. by apply Hend. }
  intros resp' len' Hrep. apply wp_bind. eapply maybe_cancel_ok; [done|done|]. intros c' Happ'.
  apply wp_bind. unfold pldm_fd_set_idle. apply wp_bind, wp_get_fd, wp_mod_fd, wp_ret.
  cbn [fd ops_ctx]. split; [exists AppIdle; split; [|done]; by eapply idle_ok|].
  split; [done|]. right. done.
Qed.

(** Activation passes through ACTIVATE to IDLE. *)
Definition activates (f f' : pldm_fd) : Prop :=
  unchanged f f' \/
  state f = PLDM_FD_STATE_READY_XFER /\ state f' = PLDM_FD_STATE_IDLE /\
  prev_state f' = PLDM_FD_STATE_ACTIVATE /\ reason f' = PLDM_FD_ACTIVATE_FW /\
  ua_address_set f' = false.

Lemma activate_handles sc msg n :
  hi_command h = PLDM_ACTIVATE_FIRMWARE -> mem_ok (payload msg) -> 0 <= n <= mem_size (payload msg) ->
  handles activates (pldm_fd_activate_firmware ops sc h msg n resp len).
Proof.
  intros Hcmd Hmsg Hn w (s & Hok & Happ). unfold pldm_fd_activate_firmware.
  assert (forall r, replied h resp len r ->
    good w /\ replied h resp len r /\ activates (fd w) (fd w)) as Hend
    by (intros; split; [by exists s|split; [done|by left]]).
  rewrite (activate_firmware_ok msg n Hmsg Hn sc). apply wp_bind. eapply wp_lift; [reflexivity|].
  destruct (n =? 1); cbn [default from_option id negb Z.eqb].
  2: { destruct (n <? 1); cbn [negb Z.eqb Z.opp]; apply wp_reply_errno; try lia; try done;
       intros; by apply Hend. }
  apply wp_bind, wp_get_fd. case_bool_decide as Hst; cbn [negb].
  2: { apply wp_reply_cc. intros. by apply Hend. }
  assert (s = AppIdle) as ->. { destruct Hok as [_ _ _ _ _ _ H]. unfold phase_ok in H. by rewrite Hst in H. }
  apply wp_bind. destruct app_activate as (fa & Hfa & H).
  apply (wp_callback _ _ (fun '(cc, t) c' => byte_ok cc /\ app AppIdle c')).
  { exists fa. split; [done|]. specialize (H (ops_ctx w) (negb (fld (payload msg) 0 1 =? 0)) 0 Happ).
    by destruct (fa _ _ _) as [[? ?] ?]. }
  intros [cc t] c' [Hcc Happ']. apply wp_bind.
  eapply (wp_mono _ _ (fun _ w' => good w' /\ activates (fd w) (fd w'))).
  { destruct (_ || _).
    - unfold pldm_fd_set_state. do 2 apply wp_bind. eapply wp_lift; [reflexivity|].
      apply wp_bind, wp_get_fd. cbn [fd]. rewrite Hst, bool_decide_false by done.
      apply wp_mod_fd. unfold pldm_fd_set_idle. apply wp_bind, wp_get_fd, wp_mod_fd. cbn [fd ops_ctx].
      split; [|right; by rewrite Hst]. exists AppIdle. split; [|done]. cbn [fd].
      destruct Hok. by constructor.
    - apply wp_ret. split; [exists AppIdle; done|by left]. }
  intros [] w' [Hgood Hact].
  assert (forall r, replied h resp len r ->
    good w' /\ replied h resp len r /\ activates (fd w) (fd w')) as Hend' by done.
  destruct (cc =? PLDM_SUCCESS); [|apply wp_reply_cc; intros; by apply Hend'].
  eapply wp_encoded; [apply fields_fit_or_fail; [repeat constructor|done|done|lia|cbn; lia|cbn; lia]|done|done| |].
  { intros. apply wp_reply_errno; [lia|done|lia|]. intros. by apply Hend'. }
  intros. apply wp_ret. by apply Hend'.
Qed.

Lemma find_component_ok comp n es :
  (n <= length es)%nat -> exists b, find_component comp n es = Ok b.
Proof.
  revert n. induction es as [|e es IH]; intros [|n] Hn; cbn in *; try by eexists.
  - lia.
  - destruct (_ && _); [by eexists|]. apply IH. lia.
Qed.

Lemma check_update_ok (update : bool) comp w (Q : Z -> fd_world C -> Prop) :
  app AppIdle (ops_ctx w) ->
  (forall code c',
     app (if update && (u8 code =? PLDM_CRC_COMP_CAN_BE_UPDATED) then AppDownload comp [] else AppIdle) c' ->
     Q code (World (fd w) c')) ->
  wp (pldm_fd_check_update_component ops update comp) w Q.
Proof.
  intros Happ HQ. unfold pldm_fd_check_update_component.
  apply wp_bind, (wp_components _ AppIdle); [done|]. intros rc count es c1 Happ1 Hes.
  assert (wp (mret PLDM_CRC_COMP_NOT_SUPPORTED) (World (fd w) c1) Q) as Hno.
  { apply wp_ret, HQ. change (u8 6 =? 0) with false. by rewrite andb_false_r. }
  destruct (Z.eqb_spec rc 0) as [->|]; [|done]. destruct Hes as [Hcount _]; [done|].
  destruct (find_component_ok comp (Z.to_nat count) es) as [found E]; [lia|].
  apply wp_bind. eapply wp_lift; [exact E|]. destruct found; [|done].
  destruct app_update_component as (fu & Hfu & H). specialize (H c1 update comp Happ1).
  apply (wp_callback _ _ (fun code c' => app (if update && (u8 code =? PLDM_CRC_COMP_CAN_BE_UPDATED)
     then AppDownload comp [] else AppIdle) c')); [by exists fu|]. intros code c'. apply HQ.
Qed.

(** A component is being considered: the update stays where it is. *)
Lemma considered_ok f comp :
  fd_ok f AppIdle -> state f = PLDM_FD_STATE_LEARN_COMPONENTS \/ state f = PLDM_FD_STATE_READY_XFER ->
  0 <= uc_comp_image_size comp < 4294967296 -> fd_ok (with_update_comp comp f) AppIdle.
Proof.
  intros [] Hst Hs. constructor; cbn; try done. unfold phase_ok. cbn. by destruct Hst as [-> | ->].
Qed.

Lemma quiet_phase f s :
  fd_ok f s -> state f = PLDM_FD_STATE_LEARN_COMPONENTS \/ state f = PLDM_FD_STATE_READY_XFER -> s = AppIdle.
Proof. intros [_ _ _ _ _ _ H] Hst. unfold phase_ok in H. by destruct Hst as [E|E]; rewrite E in H. Qed.

Definition passes_table (f f' : pldm_fd) : Prop :=
  unchanged f f' \/
  state f = PLDM_FD_STATE_LEARN_COMPONENTS /\ ua_address_set f' = ua_address_set f /\
  ua_address f' = ua_address f /\
  (state f' = PLDM_FD_STATE_LEARN_COMPONENTS \/ state f' = PLDM_FD_STATE_READY_XFER).

Lemma pass_comp_handles pcomp msg n :
  hi_command h = PLDM_PASS_COMPONENT_TABLE -> length (str_data (pc_version pcomp)) = 64%nat ->
  mem_ok (payload msg) -> 0 <= n <= mem_size (payload msg) ->
  handles passes_table (pldm_fd_pass_comp ops pcomp h msg n resp len).
Proof.
  intros Hcmd Hpc Hmsg Hn w (s & Hok & Happ). unfold pldm_fd_pass_comp.
  assert (forall r, replied h resp len r ->
    good w /\ replied h resp len r /\ passes_table (fd w) (fd w)) as Hend
    by (intros; split; [by exists s|split; [done|by left]]).
  apply wp_bind, wp_get_fd. case_bool_decide as Hst; cbn [negb].
  2: { apply wp_reply_cc. intros. by apply Hend. }
  assert (s = AppIdle) as -> by (eapply quiet_phase; eauto).
  assert (forall f' c' r, fd_ok f' AppIdle -> app AppIdle c' -> replied h resp len r ->
    state f' = PLDM_FD_STATE_LEARN_COMPONENTS \/ state f' = PLDM_FD_STATE_READY_XFER ->
    ua_address_set f' = ua_address_set (fd w) -> ua_address f' = ua_address (fd w) ->
    good (World f' c') /\ replied h resp len r /\ passes_table (fd w) f') as Hend'.
  { intros. split; [by exists AppIdle|]. split; [done|]. right. tauto. }
  apply wp_bind, wp_mod_fd. cbn [fd ops_ctx].
  set (f1 := with_update_comp _ (fd w)). assert (fd_ok f1 AppIdle) as Hok1 by (by apply considered_ok; auto).
  destruct (pass_component_table_ok msg n Hmsg Hn pcomp Hpc) as (rc & p & E & Hdec).
  apply wp_bind. eapply wp_lift; [exact E|]. cbn [default from_option id].
  destruct (version_fits msg n 10).
  2: { unfold decode_errors in Hdec. rewrite !elem_of_cons, elem_of_nil in Hdec.
       replace (rc =? 0) with false by lia. cbn [negb]. apply wp_reply_errno; [lia|done|lia|].
       intros. apply Hend'; auto. }
  destruct Hdec as [-> ->]. cbn [negb Z.eqb]. apply wp_bind, wp_mod_fd. cbn [fd ops_ctx].
  set (comp := UpdateComp _ _ _ _ _ 0 0). set (f2 := with_update_comp comp f1).
  assert (fd_ok f2 AppIdle) as Hok2 by (by apply considered_ok; auto).
  apply wp_bind, check_update_ok; [done|]. intros code c' Happ'. cbn [andb] in Happ'. cbn [fd].
  unfold encode_pass_component_table_resp.
  eapply wp_encoded; [apply fields_fit_or_fail; [repeat constructor|done|done|lia|cbn; lia|cbn; lia]|done|done| |].
  { intros. apply wp_reply_errno; [lia|done|lia|]. intros. apply Hend'; auto. }
  intros resp' len' Hrep. destruct (negb _).
  2: { apply wp_bind, wp_ret, wp_ret. apply Hend'; auto. }
  apply wp_bind. unfold pldm_fd_set_state. apply wp_bind. eapply wp_lift; [reflexivity|].
  apply wp_bind, wp_get_fd. change (state (fd (World f2 c'))) with (state (fd w)).
  rewrite Hst, bool_decide_false by done. apply wp_mod_fd, wp_ret. cbn [fd ops_ctx].
  apply Hend'; try done; [|by right].
  rewrite <- Hst. eapply (ready_xfer_ok f2); [done|]. cbn. by rewrite Hst.
Qed.

Definition starts_component (f f' : pldm_fd) : Prop :=
  unchanged f f' \/
  state f = PLDM_FD_STATE_READY_XFER /\ ua_address_set f' = ua_address_set f /\
  ua_address f' = ua_address f /\
  (state f' = PLDM_FD_STATE_READY_XFER \/
   state f' = PLDM_FD_STATE_DOWNLOAD /\ download_offset f' = Ok 0).

(** A download that has just begun. *)
Lemma download_ok f comp flags :
  fd_ok (with_update_comp comp f) AppIdle -> state f = PLDM_FD_STATE_READY_XFER ->
  fd_ok (with_states PLDM_FD_STATE_DOWNLOAD PLDM_FD_STATE_READY_XFER (reason f)
    (with_req (req_with_complete false (req_result (req f)) (req_with_state PLDM_FD_REQ_READY (req f)))
      (with_update_flags flags (with_specific SpCleared (with_update_comp comp f)))))
    (AppDownload comp []).
Proof.
  intros [Hua Hs Hm Hi Hc Hr _] Hst. cbn in *. rewrite Hst in *. constructor; cbn; try done.
  - intros _. by apply Hm.
  - unfold phase_ok. cbn. split; [done|]. exists 0. split; [done|]. split; [lia|].
    split; [done|]. split; [done|]. split; [lia|]. by exists [].
Qed.

Lemma update_comp_handles up msg n :
  hi_command h = PLDM_UPDATE_COMPONENT -> length (str_data (up_version up)) = 64%nat ->
  mem_ok (payload msg) -> 0 <= n <= mem_size (payload msg) ->
  handles starts_component (pldm_fd_update_comp ops up h msg n resp len).
Proof.
  intros Hcmd Hup Hmsg Hn w (s & Hok & Happ). unfold pldm_fd_update_comp.
  assert (forall r, replied h resp len r ->
    good w /\ replied h resp len r /\ starts_component (fd w) (fd w)) as Hend
    by (intros; split; [by exists s|split; [done|by left]]).
  apply wp_bind, wp_get_fd. case_bool_decide as Hst; cbn [negb].
  2: { apply wp_reply_cc. intros. by apply Hend. }
  assert (s = AppIdle) as -> by (eapply quiet_phase; eauto).
  destruct (update_component_ok msg n Hmsg Hn up Hup) as (rc & u & E & Hdec).
  apply wp_bind. eapply wp_lift; [exact E|]. cbn [default from_option id].
  destruct (version_fits msg n 17).
  2: { unfold decode_errors in Hdec. rewrite !elem_of_cons, elem_of_nil in Hdec.
       replace (rc =? 0) with false by lia. cbn [negb]. apply wp_reply_errno; [lia|done|lia|].
       intros. by apply Hend. }
  destruct Hdec as [-> ->]. cbn [negb Z.eqb]. apply wp_bind, wp_mod_fd. cbn [fd ops_ctx].
  match goal with |- context [with_update_comp ?c] => set (comp := c) end.
  set (f1 := with_update_comp comp (fd w)). assert (fd_ok f1 AppIdle) as Hok1.
  { apply considered_ok; [done|by right|]. cbn. pose proof (fld_bound (payload msg) 9 4 (mem_ok_bytes _ Hmsg)).
    change (256 ^ Z.of_nat 4) with 4294967296 in *. done. }
  assert (forall c' r, app AppIdle c' -> replied h resp len r ->
    good (World f1 c') /\ replied h resp len r /\ starts_component (fd w) f1) as Hend'.
  { intros. split; [by exists AppIdle|]. split; [done|]. right. cbn. tauto. }
  apply wp_bind, check_update_ok; [done|]. intros code c' Happ'. cbn [andb] in Happ'. cbn [fd].
  unfold encode_update_component_resp.
  eapply wp_encoded; [apply fields_fit_or_fail; [repeat constructor|done|done|lia|cbn; lia|cbn; lia]|done|done| |].
  { intros rc r' l' Hrc Hr' Hl'. apply wp_bind. destruct (u8 code =? PLDM_CRC_COMP_CAN_BE_UPDATED).
    - eapply wp_cancel; [exact Happ'|done|]. intros c2 Happ2. apply wp_reply_errno; [done..|].
      intros. by apply Hend'.
    - apply wp_ret, wp_reply_errno; [done..|]. intros. by apply Hend'. }
  intros resp' len' Hrep. apply wp_bind. destruct (u8 code =? PLDM_CRC_COMP_CAN_BE_UPDATED).
  2: { apply wp_ret, wp_ret. by apply Hend'. }
  do 3 (apply wp_bind, wp_mod_fd). unfold pldm_fd_set_state. apply wp_bind.
  eapply wp_lift; [reflexivity|]. apply wp_bind, wp_get_fd.
  match goal with |- context [bool_decide (state (fd (World ?f ?c)) = _)] =>
    change (state (fd (World f c))) with (state (fd w)) end.
  rewrite Hst, bool_decide_false by done. apply wp_mod_fd, wp_ret. cbn [fd ops_ctx].
  split; [|split; [done|right; cbn; tauto]].
  exists (AppDownload comp []). split; [|done]. by apply (download_ok (fd w)).
Qed.
End request.

(** The dispatcher: what each command may do to the state of the device. *)
Definition request_edge (cmd address : Z) (f f' : pldm_fd) : Prop :=
  match cmd with
  | PLDM_REQUEST_UPDATE => enters_update address f f'
  | PLDM_PASS_COMPONENT_TABLE => passes_table f f'
  | PLDM_UPDATE_COMPONENT => starts_component f f'
  | PLDM_CANCEL_UPDATE_COMPONENT => leaves_component f f'
  | PLDM_CANCEL_UPDATE => leaves_update PLDM_FD_CANCEL_UPDATE f f'
  | PLDM_ACTIVATE_FIRMWARE => activates f f'
  | _ => unchanged f f'
  end.

Lemma dispatch_handles h resp len stack msg n address :
  0 <= instance h <= 31 -> mem_place (payload resp) -> 1 <= len <= mem_size (payload resp) ->
  stack_ok stack -> mem_ok (payload msg) -> 0 <= n <= mem_size (payload msg) ->
  handles h resp len (request_edge (hi_command h) address)
    (pldm_fd_dispatch ops stack h msg n resp len address).
Proof.
  intros Hinst Hmem Hlen [[] ? ?] Hmsg Hn. unfold pldm_fd_dispatch.
  assert (handles h resp len unchanged
    (lift (pldm_fd_reply_cc PLDM_ERROR_UNSUPPORTED_PLDM_CMD h resp len))) as Hother.
  { intros w Hw. apply wp_reply_cc; [done..|]. intros. done. }
  unfold request_edge. destruct (hi_command h) as [|p|p] eqn:Hcmd; [exact Hother| |exact Hother].
  repeat (destruct p as [p|p|]; try exact Hother).
  all: first [by apply qdi_ok | by apply fw_param_ok | by apply request_update_handles
    | by apply pass_comp_handles | by apply update_comp_handles | by apply get_status_ok
    | by apply cancel_update_comp_handles | by apply cancel_update_handles | by apply activate_handles].
Qed.

(** ** Responses to the device's requests *)

Lemma times_ok f s a b c : fd_ok f s -> fd_ok (with_times a b c f) s.
Proof. intros []. by constructor. Qed.

(** What a response may do: finish a phase, and nothing to the update agent's address. *)
Definition advances (f f' : pldm_fd) : Prop :=
  ua_address_set f' = ua_address_set f /\ ua_address f' = ua_address f /\
  (state f' = state f \/
   state f = PLDM_FD_STATE_DOWNLOAD /\ state f' = PLDM_FD_STATE_VERIFY \/
   state f = PLDM_FD_STATE_VERIFY /\ state f' = PLDM_FD_STATE_APPLY \/
   state f = PLDM_FD_STATE_APPLY /\ state f' = PLDM_FD_STATE_READY_XFER).

Definition resp_codes : list Z := [0; - EPROTO; - EOVERFLOW].

(** [p] may be run on any good state: it answers 0 or an errno. *)
Definition responds (p : stM (fd_world C) Z) : Prop :=
  forall w, good w -> wp p w (fun rc w' => good w' /\ rc ∈ resp_codes /\ advances (fd w) (fd w')).

Lemma fwdata_size_ok f s off :
  fd_ok f s -> state f = PLDM_FD_STATE_DOWNLOAD -> download_offset f = Ok off ->
  0 <= off <= uc_comp_image_size (update_comp f) ->
  pldm_fd_fwdata_size f = Ok (Z.min (uc_comp_image_size (update_comp f) - off) (max_transfer f)).
Proof.
  intros Hok Hst Hoff Hr. unfold pldm_fd_fwdata_size. rewrite Hst, Hoff. cbn [negb mbind outcome_bind].
  rewrite bool_decide_true by done. cbn [negb]. cmp_case; [lia|]. unfold mret, outcome_ret. f_equal.
  cmp_case; lia.
Qed.

(** A failed request waits for the update agent to cancel. *)
Lemma fails_ok f s :
  fd_ok f s -> component_active f -> req_state (req f) = PLDM_FD_REQ_SENT ->
  req_complete (req f) = true -> req_result (req f) <> 0 ->
  fd_ok (with_req (req_with_state PLDM_FD_REQ_FAILED (req f)) f) s.
Proof.
  intros [? ? ? ? ? ? Hph] Hact Hsent Hc Hr. constructor; cbn; try done. unfold phase_ok in *. cbn.
  destruct Hact as [E|[E|E]]; rewrite E in *; rewrite Hc in *.
  - destruct Hph as (? & off & ? & ? & ? & H). split; [done|]. exists off. split; [done|]. split; [done|].
    split; [done|]. replace (req_result (req f) =? 0) with false in * by lia. done.
  - destruct Hph as (? & ? & p & ? & ? & H). split; [done|]. split; [done|]. exists p.
    replace (req_result (req f) =? 0) with false in * by lia. done.
  - destruct Hph as (? & ? & p & ? & ? & H). split; [done|]. split; [done|]. exists p.
    replace (req_result (req f) =? 0) with false in * by lia. done.
Qed.

Ltac refuses w s :=
  apply wp_ret; split; [by exists s|]; split; [repeat constructor|]; split_and!; auto.

Lemma handle_fwdata_responds msg n :
  mem_ok (payload msg) -> 1 <= n <= mem_size (payload msg) ->
  responds (pldm_fd_handle_fwdata_resp ops msg n).
Proof.
  intros Hmsg Hn w (s & Hok & Happ). unfold pldm_fd_handle_fwdata_resp.
  apply wp_bind, wp_get_fd. case_bool_decide as Hst; cbn [negb]; [|refuses w s].
  case_bool_decide as Hsent; cbn [negb]; [|refuses w s].
  destruct (req_complete (req (fd w))) eqn:Hc; [refuses w s|].
  pose proof Hok as [Hua Hsize Hmax Hinst Hcmd Hres Hph]. unfold phase_ok in Hph. rewrite Hst, Hc in Hph.
  destruct Hph as (Hu & off & Hoff & Hr & Hf & Hrfd & Hpos & rcv & -> & Hrcv).
  rewrite Hst in Hua, Hmax. specialize (Hmax ltac:(done)).
  set (c := update_comp (fd w)) in *. set (size := uc_comp_image_size c) in *.
  apply wp_bind. destruct (mem_read_in (payload msg) 0 1) as (cc & Ecc & _); [lia..|].
  eapply wp_lift; [exact Ecc|].
  destruct (Z.eqb_spec (le_dec cc) 0x89); [refuses w (AppDownload c rcv)|].
  assert (forall res, byte_ok res -> res <> 0 -> forall s', app_component s' = Some c ->
    fd_ok (with_req (req_with_complete true res (req_with_state PLDM_FD_REQ_READY (req (fd w)))) (fd w)) s')
    as Habort.
  { intros res Hb Hne s' Hs'. constructor; cbn; try done; [by rewrite Hst|].
    unfold phase_ok. cbn. rewrite Hst. split; [done|]. exists off. split; [done|]. split; [done|].
    split; [done|]. by replace (res =? 0) with false by lia. }
  destruct (Z.eqb_spec (le_dec cc) 0); cbn [negb].
  2: { do 2 (apply wp_bind, wp_mod_fd). apply wp_ret. cbn [fd ops_ctx]. split.
    - exists (AppDownload c rcv). split; [|done]. cbn [fd]. apply (Habort 3); [unfold byte_ok; lia|done|done].
    - split; [repeat constructor|]. split_and!; auto. }
  set (fs := Z.min (size - off) (max_transfer (fd w))).
  apply wp_bind. eapply wp_lift; [by eapply fwdata_size_ok|]. fold c size fs.
  destruct (Z.eqb_spec n (u32 (fs + 1))) as [En|]; cbn [negb]; [|refuses w (AppDownload c rcv)].
  assert (n = fs + 1) as ->.
  { destruct (Z.eq_dec fs 4294967295) as [E|]; [rewrite E in En; change (u32 _) with 0 in En; lia|].
    rewrite En. unfold u32. apply Z.mod_small. lia. }
  clear En. apply wp_bind. eapply wp_lift; [exact Hoff|].
  assert (u32 (off + fs) = off + fs) as -> by (unfold u32; apply Z.mod_small; lia).
  do 2 (cmp_case; [lia|]). apply wp_bind.
  destruct (ptr_at_place (payload msg) 1) as [_ Hps]; [by apply mem_ok_place|lia|].
  destruct app_firmware_data as (ff & Hff & Hlaw).
  specialize (Hlaw c rcv (ops_ctx w) (ptr_at (payload msg) 1) fs Happ ltac:(lia) ltac:(fold size; lia) ltac:(fold size; lia)).
  set (data := slice 0 (Z.to_nat fs) (bytes (ptr_at (payload msg) 1))) in *.
  apply (wp_callback _ _ (fun res c' => byte_ok res /\ app (if res =? 0 then AppDownload c (rcv ++ data)
    else AppBroken c) c')). { exists ff. split; [done|]. by rewrite <- Hrcv. }
  intros res c' [Hb Happ']. apply wp_bind, wp_mod_fd. apply wp_bind.
  assert (Z.of_nat (length (rcv ++ data)) = off + fs) as Hnew.
  { rewrite length_app. unfold data. rewrite length_slice. unfold mem_size in Hps, Hn. lia. }
  destruct (Z.eqb_spec res 0) as [->|Hres0].
  - apply wp_bind, wp_mod_fd.
    eapply (wp_mono _ _ (fun _ w' => good w' /\ advances (fd w) (fd w')));
      [|intros [] w' []; apply wp_ret; split_and!; try done; repeat constructor].
    destruct (Z.eqb_spec (off + fs) size).
    + apply wp_mod_fd. cbn [fd ops_ctx]. split; [|by split_and!; auto].
      exists (AppDownload c (rcv ++ data)). split; [|done]. constructor; cbn; try done; [by rewrite Hst|].
      unfold phase_ok. cbn. rewrite Hst. split; [done|]. eexists. split; [reflexivity|]. fold c size.
      split; [lia|]. split; [done|]. split; [done|]. by exists (rcv ++ data).
    + apply wp_ret. cbn [fd ops_ctx]. split; [|split_and!; auto].
      exists (AppDownload c (rcv ++ data)). split; [|done]. constructor; cbn; try done; [by rewrite Hst|].
      unfold phase_ok. cbn. rewrite Hst, Hc. split; [done|]. eexists. split; [reflexivity|]. fold c size.
      split; [lia|]. split; [done|]. split; [done|]. split; [lia|]. by exists (rcv ++ data).
  - apply wp_mod_fd, wp_ret. cbn [fd ops_ctx]. split; [|split; [repeat constructor|split_and!; auto]].
    exists (AppBroken c). split; [|done]. by apply Habort.
Qed.

Lemma set_state_run (s : pldm_firmware_device_states) w (Q : unit -> fd_world C -> Prop) :
  s <> PLDM_FD_STATE_IDLE -> state (fd w) <> s ->
  Q tt (World (with_states s (state (fd w)) (reason (fd w)) (fd w)) (ops_ctx w)) ->
  wp (pldm_fd_set_state s) w Q.
Proof.
  intros Hs Hne HQ. unfold pldm_fd_set_state. apply wp_bind. eapply (wp_lift _ tt).
  { unfold c_assert. by rewrite bool_decide_false. }
  apply wp_bind, wp_get_fd. rewrite bool_decide_false by done. by apply wp_mod_fd.
Qed.

Lemma transfer_complete_responds : responds pldm_fd_handle_transfer_complete_resp.
Proof.
  intros w (s & Hok & Happ). unfold pldm_fd_handle_transfer_complete_resp.
  apply wp_bind, wp_get_fd. case_bool_decide as Hst; cbn [negb]; [|refuses w s].
  case_bool_decide as Hsent; cbn [negb]; [|refuses w s].
  destruct (req_complete (req (fd w))) eqn:Hc; cbn [negb]; [|refuses w s].
  apply wp_bind. destruct (Z.eqb_spec (req_result (req (fd w))) 0) as [Hr|Hr].
  - pose proof Hok as [Hua Hsize Hmax Hinst Hcmd Hres Hph]. unfold phase_ok in Hph.
    rewrite Hst, Hc, Hr in Hph. destruct Hph as (_ & off & _ & _ & _ & Hoff & rcv & -> & Hrcv).
    unfold set_req_state, set_req_complete. do 3 (apply wp_bind, wp_mod_fd). cbn [fd ops_ctx].
    apply set_state_run; [done|cbn; by rewrite Hst|]. apply wp_ret. cbn [fd ops_ctx].
    split; [|split; [repeat constructor|split_and!; auto]].
    exists (AppDownload (update_comp (fd w)) rcv). split; [|done]. constructor; cbn; try done; [by rewrite Hst in Hua| |].
    { intros _. apply Hmax. by rewrite Hst. }
    unfold phase_ok. cbn. split; [done|]. split; [done|]. eexists. split; [reflexivity|].
    split; [unfold byte_ok; lia|]. split; [done|]. split; [done|lia].
  - apply wp_mod_fd, wp_ret. cbn [fd ops_ctx]. split; [|split; [repeat constructor|split_and!; auto]].
    exists s. split; [|done]. apply fails_ok; [done|by left|done..].
Qed.

Lemma verify_complete_responds : responds pldm_fd_handle_verify_complete_resp.
Proof.
  intros w (s & Hok & Happ). unfold pldm_fd_handle_verify_complete_resp.
  apply wp_bind, wp_get_fd. case_bool_decide as Hst; cbn [negb]; [|refuses w s].
  case_bool_decide as Hsent; cbn [negb]; [|refuses w s].
  pose proof Hok as [Hua Hsize Hmax Hinst Hcmd Hres Hph]. unfold phase_ok in Hph. rewrite Hst in Hph.
  destruct Hph as (_ & _ & p & _ & _ & H).
  destruct (req_complete (req (fd w))) eqn:Hc; [|destruct H as [H _]; congruence].
  apply wp_bind. eapply wp_lift; [reflexivity|].
  apply wp_bind. destruct (Z.eqb_spec (req_result (req (fd w))) 0) as [Hr|Hr].
  - subst s. unfold set_req_state, set_req_complete. do 3 (apply wp_bind, wp_mod_fd). cbn [fd ops_ctx].
    apply set_state_run; [done|cbn; by rewrite Hst|]. apply wp_ret. cbn [fd ops_ctx].
    split; [|split; [repeat constructor|split_and!; auto]].
    exists (AppVerified (update_comp (fd w))). split; [|done]. constructor; cbn; try done; [by rewrite Hst in Hua| |].
    { intros _. apply Hmax. by rewrite Hst. }
    unfold phase_ok. cbn. split; [done|]. split; [done|]. eexists. split; [reflexivity|].
    split; [unfold byte_ok; lia|]. done.
  - apply wp_mod_fd, wp_ret. cbn [fd ops_ctx]. split; [|split; [repeat constructor|split_and!; auto]].
    exists s. split; [|done]. apply fails_ok; [done|right; by left|done..].
Qed.

Lemma apply_complete_responds : responds pldm_fd_handle_apply_complete_resp.
Proof.
  intros w (s & Hok & Happ). unfold pldm_fd_handle_apply_complete_resp.
  apply wp_bind, wp_get_fd. case_bool_decide as Hst; cbn [negb]; [|refuses w s].
  case_bool_decide as Hsent; cbn [negb]; [|refuses w s].
  pose proof Hok as [Hua Hsize Hmax Hinst Hcmd Hres Hph]. unfold phase_ok in Hph. rewrite Hst in Hph.
  destruct Hph as (_ & _ & p & _ & _ & H).
  destruct (req_complete (req (fd w))) eqn:Hc; [|destruct H as [H _]; congruence].
  apply wp_bind. eapply wp_lift; [reflexivity|].
  apply wp_bind. destruct (Z.eqb_spec (req_result (req (fd w))) 0) as [Hr|Hr].
  - subst s. unfold set_req_state. apply wp_bind, wp_mod_fd. cbn [fd ops_ctx].
    apply set_state_run; [done|cbn; by rewrite Hst|]. apply wp_ret. cbn [fd ops_ctx].
    split; [|split; [repeat constructor|split_and!; auto 6]].
    exists AppIdle. split; [|done]. constructor; cbn; try done; [by rewrite Hst in Hua|].
    intros _. apply Hmax. by rewrite Hst.
  - apply wp_mod_fd, wp_ret. cbn [fd ops_ctx]. split; [|split; [repeat constructor|split_and!; auto]].
    exists s. split; [|done]. apply fails_ok; [done|right; by right|done..].
Qed.

Lemma handle_resp_ok address m n w :
  good w -> mem_ok m -> 3 <= n <= mem_size m ->
  wp (pldm_fd_handle_resp ops address m n) w (fun rc w' => good w' /\
    rc ∈ [0; - EBUSY; - EINVAL; - EPROTO; - EOVERFLOW] /\ advances (fd w) (fd w') /\
    (negb (ua_address_set (fd w) && (ua_address (fd w) =? address)) = true -> fd w' = fd w)).
Proof.
  intros (s & Hok & Happ) Hm Hn. unfold pldm_fd_handle_resp.
  apply wp_bind, wp_get_fd. destruct (negb _) eqn:Hua.
  { apply wp_ret. split; [by exists s|]. split; [repeat constructor|]. split; [split_and!; auto|done]. }
  assert (forall e, e ∈ [0; - EBUSY; - EINVAL; - EPROTO; - EOVERFLOW] ->
    wp (mret e) w (fun rc w' => good w' /\
    rc ∈ [0; - EBUSY; - EINVAL; - EPROTO; - EOVERFLOW] /\ advances (fd w) (fd w') /\ (false = true -> fd w' = fd w)))
    as Hrefuse.
  { intros e He. apply wp_ret. split; [by exists s|]. split; [done|]. split; [split_and!; auto|done]. }
  cmp_case; [apply Hrefuse; repeat constructor|].
  case_bool_decide as Hsent; cbn [negb]; [|apply Hrefuse; repeat constructor].
  destruct (msg_at_ok m) as (hd & E & Hhd & Hmp & Hms); [done|lia|]. apply wp_bind.
  eapply wp_lift; [exact E|]. cbn [hdr].
  destruct (Z.eqb_spec (req_instance_id (req (fd w))) (instance_id hd)); cbn [negb];
    [|apply Hrefuse; repeat constructor].
  destruct (Z.eqb_spec (req_command (req (fd w))) (command hd)) as [Hcmd|]; cbn [negb];
    [|apply Hrefuse; repeat constructor].
  apply wp_bind, (wp_now _ s); [done|]. intros t c' Happ' Ht.
  apply wp_bind, wp_mod_fd. cbn [fd ops_ctx].
  set (w1 := World _ c'). assert (good w1) as Hgood.
  { exists s. split; [by apply times_ok|done]. }
  assert (forall p, responds p -> wp p w1 (fun rc w' => good w' /\
    rc ∈ [0; - EBUSY; - EINVAL; - EPROTO; - EOVERFLOW] /\ advances (fd w) (fd w') /\ (false = true -> fd w' = fd w)))
    as Hresp.
  { intros p Hp. eapply wp_mono; [by apply Hp|]. intros rc w' (Hg & Hrc & Had).
    split; [done|]. split; [|by split].
    unfold resp_codes in Hrc. rewrite !elem_of_cons, elem_of_nil in Hrc.
    destruct Hrc as [->|[->|[->|[]]]]; repeat constructor. }
  destruct Hok as [_ _ _ _ Hcmds _ _]. specialize (Hcmds Hsent). rewrite <- Hcmd.
  repeat case_match; try (apply Hresp).
  - apply handle_fwdata_responds; [done|]. cbn [payload]. lia.
  - apply transfer_complete_responds.
  - apply verify_complete_responds.
  - apply apply_complete_responds.
  - rewrite !elem_of_cons, elem_of_nil in Hcmds. lia.
Qed.

(** ** Requests of the device *)

(** The request the device has to send next. *)
Definition expected_command (f : pldm_fd) : Z :=
  match state f with
  | PLDM_FD_STATE_DOWNLOAD =>
    if req_complete (req f) then PLDM_TRANSFER_COMPLETE else PLDM_REQUEST_FIRMWARE_DATA
  | PLDM_FD_STATE_VERIFY => PLDM_VERIFY_COMPLETE
  | _ => PLDM_APPLY_COMPLETE
  end.

Lemma instance_ok f s i :
  fd_ok f s -> 0 <= i < 32 -> fd_ok (with_req (req_with_instance i (req f)) f) s.
Proof. intros [] Hi. by constructor. Qed.

Lemma sent_ok f s i t :
  fd_ok f s -> component_active f -> 0 <= i < 32 -> req_state (req f) <> PLDM_FD_REQ_FAILED ->
  (state f <> PLDM_FD_STATE_DOWNLOAD -> req_complete (req f) = true) ->
  fd_ok (with_req (FdReq PLDM_FD_REQ_SENT (req_complete (req f)) (req_result (req f)) i
                     (expected_command f) t) f) s.
Proof.
  intros [? ? ? ? ? ? Hph] Hact Hi Hf Hc. unfold expected_command. constructor; cbn; try done.
  - intros _. destruct Hact as [E|[E|E]]; rewrite E; [case_match|..]; repeat constructor.
  - unfold phase_ok in *. cbn. destruct Hact as [E|[E|E]]; rewrite E in *.
    + destruct Hph as (? & off & ? & ? & H). split; [done|]. exists off. split; [done|]. split; [done|].
      destruct (req_complete (req f)); [by destruct H|]. by destruct H as (_ & _ & ? & ?).
    + destruct Hph as (? & ? & p & ? & ? & H). rewrite (Hc ltac:(done)) in *.
      split; [done|]. split; [done|]. by exists p.
    + destruct Hph as (? & ? & p & ? & ? & H). rewrite (Hc ltac:(done)) in *.
      split; [done|]. split; [done|]. by exists p.
Qed.

Section progress.
Context (msg : pldm_msg) (len : Z).
Hypothesis Hmem : mem_place (payload msg).
Hypothesis Hlen : 0 <= len <= mem_size (payload msg).

(** Nothing to send, a request, or an error; the phase and the agent stay. *)
Definition asks (f : pldm_fd) (r : Z * pldm_msg * Z) (w' : fd_world C) : Prop :=
  let '(rc, msg', len') := r in
  good w' /\ same_place (payload msg) (payload msg') /\
  state (fd w') = state f /\ ua_address_set (fd w') = ua_address_set f /\
  ua_address (fd w') = ua_address f /\
  update_timestamp_fd_t1 (fd w') = update_timestamp_fd_t1 f /\ fd_t1_timeout (fd w') = fd_t1_timeout f /\
  (req_state (req f) = PLDM_FD_REQ_SENT -> req_state (req (fd w')) = PLDM_FD_REQ_SENT) /\
  (rc = 0 \/ rc = - EOVERFLOW \/ rc = - EINVAL) /\
  (rc = 0 -> len' = 0 /\ hdr msg' = hdr msg \/
     1 <= len' <= len /\ req_state (req (fd w')) = PLDM_FD_REQ_SENT /\
     hdr msg' = packed PLDM_REQUEST (req_instance_id (req (fd w'))) PLDM_FWUP
                  (expected_command (fd w'))).

Lemma asks_nothing f w' :
  good w' -> state (fd w') = state f -> ua_address_set (fd w') = ua_address_set f ->
  ua_address (fd w') = ua_address f ->
  update_timestamp_fd_t1 (fd w') = update_timestamp_fd_t1 f -> fd_t1_timeout (fd w') = fd_t1_timeout f ->
  req_state (req (fd w')) = req_state (req f) -> asks f (0, msg, 0) w'.
Proof. intros ? ? ? ? ? ? E. unfold asks. rewrite E. split_and!; auto using same_place_refl. Qed.

Lemma should_send_ok w s Q :
  fd_ok (fd w) s -> app s (ops_ctx w) -> component_active (fd w) ->
  (forall b c', app s c' ->
     (b = true -> req_state (req (fd w)) <> PLDM_FD_REQ_FAILED /\
                  req_state (req (fd w)) <> PLDM_FD_REQ_UNUSED) ->
     Q b (World (fd w) c')) ->
  wp (pldm_fd_req_should_send ops) w Q.
Proof.
  intros Hok Happ Hact HQ. unfold pldm_fd_req_should_send.
  apply wp_bind, (wp_now _ s); [done|]. intros t c' Happ' Ht. apply wp_bind, wp_get_fd. cbn [fd].
  assert (req_state (req (fd w)) <> PLDM_FD_REQ_UNUSED) as Hu.
  { destruct Hok as [_ _ _ _ _ _ H]. unfold phase_ok in H.
    destruct Hact as [E|[E|E]]; rewrite E in H; by destruct H. }
  destruct (req_state (req (fd w))) eqn:Er; [done| | |]; rewrite ?Er.
  - apply wp_ret, HQ; done.
  - cmp_case; apply wp_ret, HQ; done.
  - apply wp_ret, HQ; done.
Qed.

Lemma send_ok w s f (enc : Z -> pldm_fd -> outcome (Z * option pldm_msg * option Z)) :
  fd_ok (fd w) s -> app s (ops_ctx w) -> component_active (fd w) ->
  req_state (req (fd w)) <> PLDM_FD_REQ_FAILED ->
  (state (fd w) <> PLDM_FD_STATE_DOWNLOAD -> req_complete (req (fd w)) = true) ->
  state (fd w) = state f -> ua_address_set (fd w) = ua_address_set f ->
  ua_address (fd w) = ua_address f ->
  update_timestamp_fd_t1 (fd w) = update_timestamp_fd_t1 f -> fd_t1_timeout (fd w) = fd_t1_timeout f ->
  req_state (req (fd w)) = req_state (req f) ->
  (forall i, 0 <= i < 32 ->
     framed PLDM_REQUEST i (expected_command (fd w)) msg len
       (enc i (with_req (req_with_instance i (req (fd w))) (fd w)))
       (fun rc l _ => fits_or_fails len rc l)) ->
  wp (instance_id ← pldm_fd_req_next_instance;
      fd ← get_fd;
      r ← lift (enc instance_id fd);
      let '(rc, m, l) := encoded msg len r in
      if_err rc return_ mret (rc, m, l);;
      _ ← await_response ops m;
      mret (0, m, l)) w (asks f).
Proof.
  intros Hok Happ Hact Hfail Hcomp Hst Hua Haddr Hts Hto Hrs Henc. unfold pldm_fd_req_next_instance.
  do 2 apply wp_bind. apply wp_get_fd.
  assert (0 <= (req_instance_id (req (fd w)) + 1) mod 32 < 32) as Hi by (apply Z.mod_pos_bound; lia).
  set (i := (req_instance_id (req (fd w)) + 1) mod 32) in *.
  apply wp_bind, wp_mod_fd, wp_ret. apply wp_bind, wp_get_fd. cbn [fd ops_ctx].
  set (f1 := with_req (req_with_instance i (req (fd w))) (fd w)).
  assert (fd_ok f1 s) as Hok1 by by apply instance_ok.
  destruct (Henc i Hi) as (rc & l & m & E & Hm & Hfit). apply wp_bind.
  eapply wp_lift; [exact E|]. cbn [encoded default from_option id]. unfold fits_or_fails in Hfit.
  destruct (Z.eqb_spec rc 0) as [->|Hrc].
  2: { apply wp_ret. unfold asks. split; [by exists s|]. cbn. split_and!; try done; try congruence; lia. }
  apply wp_bind. unfold await_response, set_req_state. do 2 (apply wp_bind, wp_mod_fd). cbn [fd ops_ctx].
  apply wp_bind, (wp_now _ s); [done|]. intros t c' Happ' Ht. apply wp_mod_fd, wp_ret. cbn [fd ops_ctx].
  pose proof (sent_ok f1 s i t Hok1 Hact Hi Hfail Hcomp) as Hok2.
  split; [by exists s|]. split; [done|]. cbn. split_and!; try done; [by left|].
  intros _. right. split; [lia|]. done.
Qed.

Lemma fields_framed i cmd fs :
  0 <= i < 32 -> 1 <= Z.of_nat (length (fields_bytes fs)) -> (length fs <= 8)%nat ->
  framed PLDM_REQUEST i cmd msg len (fwup_fields PLDM_REQUEST i cmd (- EINVAL) msg len fs)
    (fun rc l _ => fits_or_fails len rc l).
Proof. intros. apply fields_fit_or_fail; done || lia || (repeat constructor). Qed.

Lemma progress_download_ok w :
  good w -> state (fd w) = PLDM_FD_STATE_DOWNLOAD ->
  wp (pldm_fd_progress_download ops msg len) w (asks (fd w)).
Proof.
  intros (s & Hok & Happ) Hst. unfold pldm_fd_progress_download.
  assert (component_active (fd w)) as Hact by by left.
  apply wp_bind. eapply should_send_ok; [done..|]. intros b c' Happ' Hb.
  destruct b; cbn [negb]; [|apply wp_ret, asks_nothing; try done; by exists s].
  destruct (Hb eq_refl) as [Hb1 Hb2].
  eapply send_ok; try done. intros i Hi. cbn [fd].
  pose proof (instance_ok (fd w) s i Hok Hi) as Hok1. set (f1 := with_req _ (fd w)) in *.
  unfold expected_command. rewrite Hst. change (req_complete (req f1)) with (req_complete (req (fd w))).
  destruct (req_complete (req (fd w))) eqn:Hc.
  - apply fields_framed; [done|cbn; lia|cbn; lia].
  - pose proof Hok1 as [_ _ _ _ _ _ Hph]. unfold phase_ok in Hph.
    change (state f1) with (state (fd w)) in Hph. rewrite Hst in Hph.
    destruct Hph as (_ & off & Hoff & Hr & _). rewrite Hoff. cbn [mbind outcome_bind].
    erewrite fwdata_size_ok; [|exact Hok1|done|exact Hoff|done]. cbn [mbind outcome_bind].
    apply fields_framed; [done|cbn; lia|cbn; lia].
Qed.

(** verify() and apply() leave the phase in one of these. *)
Lemma verified_ok f s c res (pending : bool) p :
  fd_ok f s -> state f = PLDM_FD_STATE_VERIFY -> c = update_comp f -> byte_ok res -> byte_ok p ->
  req_state (req f) = PLDM_FD_REQ_READY ->
  if pending && (res =? 0) then req_complete (req f) = false -> fd_ok (with_specific (SpVerify p) f) (after_verify c res pending)
  else fd_ok (with_req (req_with_complete true (if pending then 0xaf else res) (req f))
                (with_specific (SpVerify p) f)) (after_verify c res pending).
Proof.
  intros [Hua Hs Hm Hi Hcm Hr Hph] Hst -> Hres Hp Hready. unfold phase_ok in Hph. rewrite Hst in Hph.
  destruct Hph as (Hu & Hsent & _). unfold after_verify.
  destruct pending, (Z.eqb_spec res 0) as [->|]; cbn [andb negb].
  - intros Hc. constructor; cbn; try done. unfold phase_ok. cbn. rewrite Hst, Hc.
    split; [done|]. split; [done|]. by exists p.
  - constructor; cbn; try done. unfold phase_ok. cbn. rewrite Hst. split; [done|]. split; [done|]. by exists p.
  - constructor; cbn; try done. unfold phase_ok. cbn. rewrite Hst. split; [done|]. split; [done|]. by exists p.
  - constructor; cbn; try done. unfold phase_ok. cbn. rewrite Hst. split; [done|]. split; [done|]. exists p.
    by replace (res =? 0) with false by lia.
Qed.

Lemma applied_ok f s c res (pending : bool) p :
  fd_ok f s -> state f = PLDM_FD_STATE_APPLY -> c = update_comp f -> byte_ok res -> byte_ok p ->
  req_state (req f) = PLDM_FD_REQ_READY ->
  if pending && (res =? 0) then req_complete (req f) = false -> fd_ok (with_specific (SpApply p) f) (after_apply c res pending)
  else fd_ok (with_req (req_with_complete true
                (let r := if pending then 0xcf else res in if r =? 1 then 0 else r) (req f))
                (with_specific (SpApply p) f)) (after_apply c res pending).
Proof.
  intros [Hua Hs Hm Hi Hcm Hr Hph] Hst -> Hres Hp Hready. unfold phase_ok in Hph. rewrite Hst in Hph.
  destruct Hph as (Hu & Hsent & _). unfold after_apply, apply_succeeded.
  destruct pending; cbn [andb].
  - destruct (Z.eqb_spec res 0) as [->|].
    + intros Hc. constructor; cbn; try done. unfold phase_ok. cbn. rewrite Hst, Hc.
      split; [done|]. split; [done|]. by exists p.
    + constructor; cbn; try done. unfold phase_ok. cbn. rewrite Hst. split; [done|]. split; [done|]. by exists p.
  - constructor; cbn; try done; [by destruct (res =? 1)|].
    unfold phase_ok. cbn. rewrite Hst. split; [done|]. split; [done|]. exists p. split; [done|]. split; [done|].
    destruct (Z.eqb_spec res 1) as [->|]; [done|]. cbn. rewrite orb_false_r. by destruct (res =? 0).
Qed.

(** A request that is not yet complete has not been sent either. *)
Lemma incomplete_ready f s :
  fd_ok f s -> state f = PLDM_FD_STATE_VERIFY \/ state f = PLDM_FD_STATE_APPLY ->
  req_complete (req f) = false ->
  req_state (req f) = PLDM_FD_REQ_READY /\
  exists p, byte_ok p /\ if decide (state f = PLDM_FD_STATE_VERIFY)
    then specific f = SpVerify p /\ may_verify s (update_comp f)
    else specific f = SpApply p /\ may_apply s (update_comp f).
Proof.
  intros [_ _ _ _ _ _ Hph] Hst Hc. unfold phase_ok in Hph.
  destruct Hst as [E|E]; rewrite E in *; rewrite Hc in Hph; destruct Hph as (_ & _ & p & ? & ? & ? & ?);
    (split; [done|]); by exists p.
Qed.

Lemma progress_verify_ok w :
  good w -> state (fd w) = PLDM_FD_STATE_VERIFY ->
  wp (pldm_fd_progress_verify ops msg len) w (asks (fd w)).
Proof.
  intros (s & Hok & Happ) Hst. unfold pldm_fd_progress_verify.
  assert (component_active (fd w)) as Hact by (right; by left).
  apply wp_bind. eapply should_send_ok; [done..|]. intros b c' Happ' Hb.
  destruct b; cbn [negb]; [|apply wp_ret, asks_nothing; try done; by exists s].
  destruct (Hb eq_refl) as [Hb1 Hb2]. apply wp_bind, wp_get_fd. cbn [fd].
  set (Qsend := fun (f' : pldm_fd) (s' : app_state) => fd_ok f' s' /\ state f' = PLDM_FD_STATE_VERIFY /\
     req_state (req f') <> PLDM_FD_REQ_FAILED /\ ua_address_set f' = ua_address_set (fd w) /\
     ua_address f' = ua_address (fd w) /\ update_timestamp_fd_t1 f' = update_timestamp_fd_t1 (fd w) /\
     fd_t1_timeout f' = fd_t1_timeout (fd w) /\ req_state (req f') = req_state (req (fd w))).
  apply wp_bind. eapply (wp_mono _ _ (fun (waiting : bool) w' => exists s', app s' (ops_ctx w') /\
     Qsend (fd w') s' /\ (waiting = false -> req_complete (req (fd w')) = true))).
  { destruct (req_complete (req (fd w))) eqn:Hc.
    - apply wp_ret. by exists s.
    - destruct (incomplete_ready (fd w) s) as (Hready & p & Hp & H); [done|by left|done|].
      rewrite decide_True in H by done. destruct H as [Hsp Hmay]. rewrite Hsp.
      apply wp_bind. eapply wp_lift; [reflexivity|]. apply wp_bind.
      destruct app_verify as (fv & Hfv & Hlaw). specialize (Hlaw s c' _ p Happ' Hmay Hp).
      apply (wp_callback _ _ (fun '(res, pending, p') c2 => byte_ok res /\ byte_ok p' /\
        app (after_verify (update_comp (fd w)) res pending) c2)).
      { exists fv. split; [done|]. cbn [ops_ctx]. by destruct (fv c' _ _ _) as [[[? ?] ?] ?]. }
      intros [[res pending] p'] c2 (Hres & Hp' & Happ2). apply wp_bind, wp_mod_fd. cbn [fd ops_ctx].
      pose proof (verified_ok (fd w) s _ res pending p' Hok Hst eq_refl Hres Hp' Hready) as Hv.
      destruct (pending && (res =? 0)).
      + apply wp_ret. eexists. split; [exact Happ2|]. split; [|done]. split; [by apply Hv|]. done.
      + apply wp_bind, wp_mod_fd, wp_ret. eexists. split; [exact Happ2|]. split; [|done].
        split; [exact Hv|]. done. }
  intros waiting [f' c2] (s' & Happ2 & (Hok' & Hst' & Hf' & Hua' & Hadd' & Hts' & Hto' & Hrs') & Hw). cbn [fd ops_ctx] in *.
  destruct waiting.
  - apply wp_ret, asks_nothing; cbn [fd]; try congruence. by exists s'.
  - eapply send_ok; cbn [fd]; try done; try congruence.
    + right; by left.
    + by intros; apply Hw.
    + intros i Hi. unfold expected_command. rewrite Hst'. unfold encode_verify_complete_req.
      apply fields_fit_or_fail; done || lia || (repeat constructor).
Qed.

Lemma progress_apply_ok w :
  good w -> state (fd w) = PLDM_FD_STATE_APPLY ->
  wp (pldm_fd_progress_apply ops msg len) w (asks (fd w)).
Proof.
  intros (s & Hok & Happ) Hst. unfold pldm_fd_progress_apply.
  assert (component_active (fd w)) as Hact by (right; by right).
  apply wp_bind. eapply should_send_ok; [done..|]. intros b c' Happ' Hb.
  destruct b; cbn [negb]; [|apply wp_ret, asks_nothing; try done; by exists s].
  destruct (Hb eq_refl) as [Hb1 Hb2]. apply wp_bind, wp_get_fd. cbn [fd].
  set (Qsend := fun (f' : pldm_fd) (s' : app_state) => fd_ok f' s' /\ state f' = PLDM_FD_STATE_APPLY /\
     req_state (req f') <> PLDM_FD_REQ_FAILED /\ ua_address_set f' = ua_address_set (fd w) /\
     ua_address f' = ua_address (fd w) /\ update_timestamp_fd_t1 f' = update_timestamp_fd_t1 (fd w) /\
     fd_t1_timeout f' = fd_t1_timeout (fd w) /\ req_state (req f') = req_state (req (fd w))).
  apply wp_bind. eapply (wp_mono _ _ (fun (waiting : bool) w' => exists s', app s' (ops_ctx w') /\
     Qsend (fd w') s' /\ (waiting = false -> req_complete (req (fd w')) = true))).
  { destruct (req_complete (req (fd w))) eqn:Hc.
    - apply wp_ret. by exists s.
    - destruct (incomplete_ready (fd w) s) as (Hready & p & Hp & H); [done|by right|done|].
      rewrite decide_False in H by (by rewrite Hst). destruct H as [Hsp Hmay]. rewrite Hsp.
      apply wp_bind. eapply wp_lift; [reflexivity|]. apply wp_bind.
      destruct app_apply as (fv & Hfv & Hlaw). specialize (Hlaw s c' _ p Happ' Hmay Hp).
      apply (wp_callback _ _ (fun '(res, pending, p') c2 => byte_ok res /\ byte_ok p' /\
        app (after_apply (update_comp (fd w)) res pending) c2)).
      { exists fv. split; [done|]. cbn [ops_ctx]. by destruct (fv c' _ _ _) as [[[? ?] ?] ?]. }
      intros [[res pending] p'] c2 (Hres & Hp' & Happ2). apply wp_bind, wp_mod_fd. cbn [fd ops_ctx].
      pose proof (applied_ok (fd w) s _ res pending p' Hok Hst eq_refl Hres Hp' Hready) as Hv.
      destruct (pending && (res =? 0)).
      + apply wp_ret. eexists. split; [exact Happ2|]. split; [|done]. split; [by apply Hv|]. done.
      + apply wp_bind, wp_mod_fd, wp_ret. eexists. split; [exact Happ2|]. split; [|done].
        split; [exact Hv|]. done. }
  intros waiting [f' c2] (s' & Happ2 & (Hok' & Hst' & Hf' & Hua' & Hadd' & Hts' & Hto' & Hrs') & Hw). cbn [fd ops_ctx] in *.
  destruct waiting.
  - apply wp_ret, asks_nothing; cbn [fd]; try congruence. by exists s'.
  - eapply send_ok; cbn [fd]; try done; try congruence.
    + right; by right.
    + by intros; apply Hw.
    + intros i Hi. unfold expected_command. rewrite Hst'. apply fields_framed; [done|cbn; lia|cbn; lia].
Qed.
End progress.

(** ** The two entry points *)

(** The reason the update timeout gives in each state. *)
Definition timeout_reason (s : pldm_firmware_device_states) : Z :=
  match s with
  | PLDM_FD_STATE_LEARN_COMPONENTS => PLDM_FD_TIMEOUT_LEARN_COMPONENT
  | PLDM_FD_STATE_READY_XFER => PLDM_FD_TIMEOUT_READY_XFER
  | PLDM_FD_STATE_DOWNLOAD => PLDM_FD_TIMEOUT_DOWNLOAD
  | PLDM_FD_STATE_VERIFY => PLDM_FD_TIMEOUT_VERIFY
  | PLDM_FD_STATE_APPLY => PLDM_FD_TIMEOUT_APPLY
  | _ => PLDM_FD_ACTIVATE_FW
  end.

(** The state after the update timeout. *)
Definition timed_out (f f' : pldm_fd) : Prop :=
  state f <> PLDM_FD_STATE_IDLE /\ state f' = PLDM_FD_STATE_IDLE /\
  prev_state f' = state f /\ reason f' = timeout_reason (state f) /\ ua_address_set f' = false.

Definition keeps_phase (f f' : pldm_fd) : Prop :=
  state f' = state f /\ ua_address_set f' = ua_address_set f /\ ua_address f' = ua_address f.

(** The states whose timeout is checked after the device did its part. *)
Definition timeout_applies (f : pldm_fd) : bool :=
  match state f with
  | PLDM_FD_STATE_DOWNLOAD | PLDM_FD_STATE_VERIFY | PLDM_FD_STATE_APPLY =>
    bool_decide (req_state (req f) = PLDM_FD_REQ_SENT)
  | PLDM_FD_STATE_IDLE => false
  | _ => true
  end.

(** The buffer holds a request of the device. *)
Definition holds_request (out : ptr) (f : pldm_fd) : Prop :=
  exists o p, out = Some o /\
    msg_at o = Ok (Msg (packed PLDM_REQUEST (req_instance_id (req f)) PLDM_FWUP (expected_command f)) p).

Lemma msg_bytes_place o m : 
  mem_ok o -> 3 <= mem_size o -> same_place (ptr_at o 3) (payload m) -> same_place o (msg_bytes (addr o) m).
Proof.
  intros Ho H3 [_ Hs]. split; [done|].
  destruct (ptr_at_place o 3) as [_ E]; [by apply mem_ok_place|lia|]. rewrite E in Hs.
  unfold mem_size, msg_bytes in *. cbn [bytes]. rewrite length_app. cbn [hdr_bytes length]. lia.
Qed.

(** What the application's clock says in context [c]. *)
Definition clock_at (c : C) : option Z := (fun f => fst (f c)) <$> now ops.

Lemma wp_now_reads w s Q :
  app s (ops_ctx w) ->
  (forall t c', app s c' -> clock_at (ops_ctx w) = Some t -> Q t (World (fd w) c')) ->
  wp (pldm_fd_now ops) w Q.
Proof.
  intros Hs HQ. destruct app_now as (f & Hf & H). specialize (H s (ops_ctx w) Hs).
  apply (wp_callback _ _ (fun t c' => app s c' /\ clock_at (ops_ctx w) = Some t)).
  - exists f. split; [done|]. unfold clock_at. rewrite Hf. destruct (f (ops_ctx w)) as [t c'] eqn:E.
    split; [by destruct H|]. cbn. by rewrite E.
  - intros t c' []. by apply HQ.
Qed.

(** The update has timed out when the clock says [t]. *)
Definition overdue (f : pldm_fd) (t : Z) : bool :=
  timeout_applies f && (fd_t1_timeout f <? u64 (t - update_timestamp_fd_t1 f)).

Lemma timeout_check_ok w s l Q :
  fd_ok (fd w) s -> app s (ops_ctx w) ->
  (forall t c', app s c' -> clock_at (ops_ctx w) = Some t -> overdue (fd w) t = false ->
     Q l (World (fd w) c')) ->
  (forall t c' f', app AppIdle c' -> clock_at (ops_ctx w) = Some t -> fd_ok f' AppIdle ->
     overdue (fd w) t = true -> timed_out (fd w) f' -> Q 0 (World f' c')) ->
  wp (if timeout_applies (fd w) then
        now ← pldm_fd_now ops;
        if fd_t1_timeout (fd w) <? u64 (now - update_timestamp_fd_t1 (fd w)) then
          _ ← pldm_fd_maybe_cancel_component ops;
          _ ← pldm_fd_idle_timeout;
          mret 0
        else mret l
      else mret l) w Q.
Proof.
  unfold overdue. intros Hok Happ Hno Hyes. destruct (timeout_applies (fd w)) eqn:Et.
  2: { apply wp_ret. destruct app_now as (g & Hg & _), w as [f c].
       apply (Hno (fst (g c))); [done|unfold clock_at; by rewrite Hg|done]. }
  cbn [andb] in Hno, Hyes.
  apply wp_bind, (wp_now_reads _ s); [done|]. intros t c' Happ' Ht.
  destruct (_ <? _) eqn:Elt; [|by apply wp_ret, (Hno t)].
  apply wp_bind. eapply (maybe_cancel_ok (World (fd w) c') s); [done|done|]. intros c2 Happ2. cbn [fd].
  apply wp_bind. unfold pldm_fd_idle_timeout. apply wp_bind, wp_get_fd. cbn [fd].
  assert (forall r, r = timeout_reason (state (fd w)) -> wp (pldm_fd_set_idle r) (World (fd w) c2)
    (fun _ w' => wp (mret 0) w' Q)) as Hidle.
  { intros r ->. unfold pldm_fd_set_idle. apply wp_bind, wp_get_fd, wp_mod_fd, wp_ret. cbn [fd ops_ctx].
    apply (Hyes t); [done|done| |done|].
    - by eapply idle_ok.
    - unfold timed_out. cbn. split_and!; try done. intros E. unfold timeout_applies in Et. by rewrite E in Et. }
  destruct (state (fd w)) eqn:Est; try (by apply Hidle).
  unfold timeout_applies in Et. by rewrite Est in Et.
Qed.

(** The part of pldm_fd_progress() before it looks at the time: the request of the state. *)
Definition device_turn (msg : pldm_msg) (len : Z) : stM (fd_world C) (Z * pldm_msg * Z) :=
  f ← get_fd;
  match state f with
  | PLDM_FD_STATE_DOWNLOAD => pldm_fd_progress_download ops msg len
  | PLDM_FD_STATE_VERIFY => pldm_fd_progress_verify ops msg len
  | PLDM_FD_STATE_APPLY => pldm_fd_progress_apply ops msg len
  | _ => mret (- EINVAL, msg, 0)
  end.

(** What one call of pldm_fd_progress() does: the message it leaves, if any, is the
    device's next request, addressed to the update agent; the update is given up when
    the timeout has passed at the time the clock says behind the device's own part, and
    only then. *)
Definition progressed (o : cmem) (out_len : Z) (f : pldm_fd) (c : C) (r : Z * ptr * option Z * Z)
    (w' : fd_world C) : Prop :=
  let '(rc, out', len', addr') := r in
  good w' /\ (exists o', out' = Some o' /\ same_place o o') /\
  rc ∈ [0; - EOVERFLOW; - EINVAL] /\
  (len' = Some 0 \/
   rc = 0 /\ (exists l, len' = Some l /\ 4 <= l <= out_len) /\ addr' = ua_address (fd w') /\
   component_active f /\ keeps_phase f (fd w') /\
   req_state (req (fd w')) = PLDM_FD_REQ_SENT /\ holds_request out' (fd w')) /\
  (exists msg r1 w1 t, msg_at o = Ok msg /\ device_turn msg (out_len - 3) (World f c) = Ok (r1, w1) /\
     keeps_phase f (fd w1) /\ (timeout_applies f = true -> timeout_applies (fd w1) = true) /\
     fd_t1_timeout (fd w1) = fd_t1_timeout f /\ update_timestamp_fd_t1 (fd w1) = update_timestamp_fd_t1 f /\
     clock_at (ops_ctx w1) = Some t /\
     if overdue (fd w1) t then timed_out f (fd w') else fd w' = fd w1) /\
  (state f = PLDM_FD_STATE_IDLE -> fd w' = f).

(** The message phase, whatever the state. *)
Lemma progress_phase_ok msg len w :
  good w -> mem_place (payload msg) -> 0 <= len <= mem_size (payload msg) ->
  wp (device_turn msg len) w (fun r w' => asks msg len (fd w) r w' /\
       (component_active (fd w) \/ fst (fst r) = - EINVAL /\ w' = w)).
Proof.
  intros Hw Hm Hl. match goal with |- wp _ _ ?Q0 => set (Q := Q0) end.
  assert (wp (mret (- EINVAL, msg, 0)) w Q) as Hquiet.
  { apply wp_ret. split; [|by right]. split_and!; auto using same_place_refl; done. }
  assert (forall r w', asks msg len (fd w) r w' -> component_active (fd w) -> Q r w') as Hasks
    by (split; [done|by left]).
  unfold device_turn. apply wp_bind, wp_get_fd. destruct (state (fd w)) eqn:Est; try exact Hquiet.
  - eapply wp_mono; [by apply progress_download_ok|]. intros. apply Hasks; [done|by left].
  - eapply wp_mono; [by apply progress_verify_ok|]. intros. apply Hasks; [done|right; by left].
  - eapply wp_mono; [by apply progress_apply_ok|]. intros. apply Hasks; [done|right; by right].
Qed.

Lemma quiet_inactive f s : fd_ok f s -> ~ component_active f -> 
  state f = PLDM_FD_STATE_IDLE \/ state f = PLDM_FD_STATE_LEARN_COMPONENTS \/ state f = PLDM_FD_STATE_READY_XFER.
Proof.
  intros [_ _ _ _ _ _ Hph] Ha. unfold phase_ok, component_active in *.
  destruct (state f); tauto || done.
Qed.

Lemma timeout_applies_kept f f' :
  state f' = state f -> (req_state (req f) = PLDM_FD_REQ_SENT -> req_state (req f') = PLDM_FD_REQ_SENT) ->
  timeout_applies f = true -> timeout_applies f' = true.
Proof.
  intros Hst Hs. unfold timeout_applies. rewrite Hst.
  destruct (state f); try done; rewrite !bool_decide_eq_true; done.
Qed.

Lemma progress_ok w o out_len address :
  good w -> mem_ok o -> 3 <= out_len <= mem_size o ->
  wp (pldm_fd_progress ops (Some o) (Some out_len) address) w (progressed o out_len (fd w) (ops_ctx w)).
Proof.
  intros Hw Ho Hlen. unfold pldm_fd_progress. cmp_case; [lia|].
  destruct (msg_at_ok o) as (hd & E & Hhd & Hmp & Hms); [done|lia|].
  apply wp_bind. eapply wp_lift; [exact E|]. apply wp_bind, wp_get_fd. apply wp_bind.
  destruct (wp_elim _ _ _ (progress_phase_ok (Msg hd (ptr_at o 3)) (out_len - 3) w Hw ltac:(by apply mem_ok_place)
    ltac:(cbn [payload]; lia))) as ([[rc msg'] len'] & w1 & Eturn & Hturn & Hact).
  eapply (wp_run _ _ _ w1).
  { exact Eturn. }
  destruct Hturn as ((s1 & Hok1 & Happ1) & Hplace & Hst & Hua & Haddr & Hts & Hto & Hsent & Hrc & Hzero).
  cbn [payload] in Hplace. pose proof (msg_bytes_place o msg' Ho ltac:(lia) Hplace) as Hbytes.
  assert (rc ∈ [0; - EOVERFLOW; - EINVAL]) as Hrc' by (destruct Hrc as [->|[->| ->]]; repeat constructor).
  apply wp_bind, wp_get_fd.
  apply wp_bind. change (match state (fd w1) with
      | PLDM_FD_STATE_DOWNLOAD | PLDM_FD_STATE_VERIFY | PLDM_FD_STATE_APPLY =>
        bool_decide (req_state (req (fd w1)) = PLDM_FD_REQ_SENT)
      | PLDM_FD_STATE_IDLE => false
      | _ => true end) with (timeout_applies (fd w1)).
  assert (keeps_phase (fd w) (fd w1)) as Hkeep by done.
  assert (timeout_applies (fd w) = true -> timeout_applies (fd w1) = true) as Hkept by by apply timeout_applies_kept.
  assert (forall t f', clock_at (ops_ctx w1) = Some t ->
    (if overdue (fd w1) t then timed_out (fd w) f' else f' = fd w1) ->
    exists msg r1 w2 t, msg_at o = Ok msg /\ device_turn msg (out_len - 3) (World (fd w) (ops_ctx w)) = Ok (r1, w2) /\
     keeps_phase (fd w) (fd w2) /\ (timeout_applies (fd w) = true -> timeout_applies (fd w2) = true) /\
     fd_t1_timeout (fd w2) = fd_t1_timeout (fd w) /\ update_timestamp_fd_t1 (fd w2) = update_timestamp_fd_t1 (fd w) /\
     clock_at (ops_ctx w2) = Some t /\
     if overdue (fd w2) t then timed_out (fd w) f' else f' = fd w2) as Htime.
  { intros t f' Ht Hf. eexists _, _, w1, t. split; [exact E|]. split; [destruct w; exact Eturn|]. by split_and!. }
  eapply timeout_check_ok; [done|done| |].
  - intros t c' Happ' Ht Hno. apply wp_bind, wp_get_fd. cbn [fd].
    specialize (Htime t (fd w1) Ht ltac:(by rewrite Hno)).
    assert (state (fd w) = PLDM_FD_STATE_IDLE -> fd w1 = fd w) as Hidle.
    { intros Ei. destruct Hact as [[Ea|[Ea|Ea]]|[_ ->]]; [by rewrite Ei in Ea..|done]. }
    destruct (_ && _) eqn:Ec; apply wp_ret; cbn [fd ops_ctx].
    + apply andb_prop in Ec as [Ec Hl]. apply andb_prop in Ec as [Hr0 Hset]. apply Z.eqb_eq in Hr0 as ->.
      split; [by exists s1|]. split; [by eexists|]. split; [done|]. split; [|done]. right.
      destruct Hact as [Hact|[? _]]; [|done].
      destruct (Hzero eq_refl) as [[-> _]|(Hl1 & Hss & Hhdr)]; [lia|].
      split; [done|]. split; [eexists; split; [reflexivity|lia]|]. split; [done|]. split; [done|]. split; [done|].
      split; [done|]. destruct (msg_at_bytes (addr o) msg') as [p Ep].
      { rewrite Hhdr. apply packed_ok; [|lia|].
        - destruct Hok1; lia.
        - unfold expected_command. repeat case_match; lia. }
      exists (msg_bytes (addr o) msg'), p. split; [done|]. by rewrite Ep, Hhdr.
    + split; [by exists s1|]. split; [by eexists|]. split; [done|]. split; [by left|]. done.
  - intros t c' f' Happ' Ht Hok' Hlt Hto'. apply wp_bind, wp_get_fd. cbn [fd].
    destruct Hto' as (Hne & Hi & Hp & Hr & Hs). rewrite Hs, andb_false_r. cbn [andb].
    apply wp_ret. cbn [fd ops_ctx].
    split; [by exists AppIdle|]. split; [by eexists|]. split; [done|]. split; [by left|].
    split; [|intros Ei; by rewrite Hst in Hne]. apply (Htime t); [done|]. rewrite Hlt.
    by unfold timed_out; rewrite <- Hst.
Qed.

Definition is_ua (f : pldm_fd) (address : Z) : Prop := ua_address_set f = true /\ ua_address f = address.

(** What a message with header [q] from [address] may do to the device. *)
Definition msg_effect (q : pldm_msg_hdr) (address : Z) (f f' : pldm_fd) : Prop :=
  f' = f \/
  request q = 0 /\ is_ua f address /\ advances f f' \/
  request q <> 0 /\ (ua_check_exempt (command q) = true \/ is_ua f address) /\
  exists ts, request_edge (command q) address (with_times ts (fd_t1_timeout f) (fd_t2_retry_time f) f) f'.

Definition handle_codes : list Z :=
  [0; - EOVERFLOW; - ENOMSG; - EPROTO; - EBUSY; - EINVAL; u8 (- EOVERFLOW); u8 (- EINVAL)].

(** What one call of pldm_fd_handle_msg() does: a zero result on a request leaves the
    response that correlates with it, and a response is never answered. *)
Definition handled (i o : cmem) (address out_len : Z) (f : pldm_fd) (r : Z * ptr * option Z)
    (w' : fd_world C) : Prop :=
  let '(rc, out', len') := r in
  good w' /\ rc ∈ handle_codes /\
  (exists o', out' = Some o' /\ same_place o o' /\
   (exists l, len' = Some l /\ 0 <= l <= out_len /\
     (rc = 0 -> exists q, msg_at i = Ok q /\
       (request (hdr q) = 0 /\ l = 0 /\ o' = o \/
        4 <= l /\ exists p, msg_at o' = Ok p /\
          pldm_msg_hdr_correlate_response (hdr q) (hdr p) = true)))) /\
  (f = fd w' \/ exists q, msg_at i = Ok q /\ msg_effect (hdr q) address f (fd w')).

Lemma handled_refused i o address out_len w rc len :
  good w -> rc ∈ [- EOVERFLOW; - ENOMSG; - EPROTO; - EINVAL] -> len = out_len -> 0 <= out_len ->
  handled i o address out_len (fd w) (rc, Some o, Some len) w.
Proof.
  intros Hw Hrc -> Hl. rewrite !elem_of_cons, elem_of_nil in Hrc. split; [done|]. split.
  { destruct Hrc as [->|[->|[->|[->|[]]]]]; repeat constructor. }
  split; [|by left]. exists o. split; [done|]. split; [done|]. exists out_len.
  split; [done|]. split; [lia|]. intros ->. exfalso. destruct Hrc as [?|[?|[?|[?|[]]]]]; done.
Qed.

Lemma u8_reply_code rc : rc = 0 \/ rc = - EOVERFLOW \/ rc = - EINVAL ->
  u8 rc ∈ handle_codes /\ rc ∈ handle_codes /\ (u8 rc = 0 <-> rc = 0).
Proof. intros [->|[->| ->]]; (split; [repeat constructor|]); (split; [repeat constructor|]); done. Qed.

(** Any reply laid out in the buffer is an answer. *)
Lemma handled_reply i o address out_len f w' hq q h resp rc resp' l final l' :
  msg_at i = Ok (Msg hq q) -> hdr_ok hq -> request hq <> 0 -> type hq = PLDM_FWUP ->
  instance h = instance_id hq -> hi_command h = command hq ->
  mem_ok o -> 4 <= out_len <= mem_size o -> payload resp = ptr_at o 3 ->
  good w' -> replied h resp (out_len - 3) (rc, resp', l) -> final = rc \/ final = u8 rc ->
  (f = fd w' \/ msg_effect hq address f (fd w')) ->
  (rc = 0 -> 4 <= l' <= out_len) -> (rc <> 0 -> l' = out_len) ->
  handled i o address out_len f (final, Some (msg_bytes (addr o) resp'), Some l') w'.
Proof.
  intros Eq [Hrq Hdg Hrs' Hqi Hv Hty Hcm] Erq Ety Hinst Hcmd Ho Hol Hpay Hg (Hs & Hz & Hnz) Hfin Heff Hl1 Hl2.
  assert (rc = 0 \/ rc = - EOVERFLOW \/ rc = - EINVAL) as Hrc
    by (destruct (Z.eq_dec rc 0); [by left|right; by apply Hnz]).
  destruct (u8_reply_code rc Hrc) as (Hu & Hr1 & Hu0).
  split; [done|]. split; [by destruct Hfin as [->| ->]|]. split.
  - exists (msg_bytes (addr o) resp'). split; [done|].
    split; [rewrite Hpay in Hs; by apply msg_bytes_place; [done|lia|]|].
    exists l'. split; [done|]. split; [destruct (Z.eq_dec rc 0); [specialize (Hl1 e)|specialize (Hl2 n)]; lia|].
    intros Hf0. assert (rc = 0) as -> by (destruct Hfin; [by subst|by apply Hu0; subst]).
    eexists. split; [exact Eq|]. right. specialize (Hl1 eq_refl). split; [lia|].
    destruct (Hz eq_refl) as [Hhdr _]. rewrite Hinst, Hcmd in Hhdr. destruct (msg_at_bytes (addr o) resp') as [p Ep].
    { rewrite Hhdr. apply packed_ok; cbn; lia. }
    eexists. split; [exact Ep|]. cbn [hdr]. rewrite Hhdr. unfold pldm_msg_hdr_correlate_response. cbn.
    rewrite Ety, !Z.eqb_refl. destruct (Z.eqb_spec (request hq) 0); done.
  - destruct Heff as [->|Heff]; [by left|right]. eexists. by split; [exact Eq|].
Qed.

(** A response is passed on, and nothing is answered. *)
Lemma handle_resp_handled address i in_len o out_len hq q w :
  good w -> mem_ok i -> 3 <= in_len <= mem_size i -> 0 <= out_len ->
  msg_at i = Ok (Msg hq q) -> request hq = 0 ->
  wp (rc ← pldm_fd_handle_resp ops address i in_len; mret (rc, Some o, Some 0)) w (handled i o address out_len (fd w)).
Proof.
  intros Hw Hi Hil Hol Eq Erq.
  apply wp_bind. eapply wp_mono; [apply handle_resp_ok; [done|done|lia]|].
  intros rc w' (Hg & Hrc & Hadv & Hother). apply wp_ret. rewrite !elem_of_cons, elem_of_nil in Hrc.
  split; [done|]. split; [destruct Hrc as [->|[->|[->|[->|[->|[]]]]]]; repeat constructor|].
  split.
  - exists o. split; [done|]. split; [done|]. exists 0. split; [done|]. split; [lia|]. intros _.
    eexists. split; [exact Eq|]. by left.
  - right. eexists. split; [exact Eq|]. unfold msg_effect, is_ua. cbn [hdr].
    destruct (ua_address_set (fd w)), (Z.eqb_spec (ua_address (fd w)) address); cbn [negb andb] in Hother;
      try (left; by apply Hother). right. left. tauto.
Qed.

(** The timeout starts again with a command of the update agent. *)
Lemma refresh_timeout_ok cmd w :
  good w ->
  wp (if updates_timeout cmd then
        now ← pldm_fd_now ops;
        mod_fd (fun fd => with_times now (fd_t1_timeout fd) (fd_t2_retry_time fd) fd)
      else mret tt) w (fun _ w' => good w' /\
    exists ts, fd w' = with_times ts (fd_t1_timeout (fd w)) (fd_t2_retry_time (fd w)) (fd w)).
Proof.
  intros Hw. destruct (updates_timeout _).
  - destruct Hw as (s & Hok & Happ). apply wp_bind, (wp_now _ s); [done|]. intros t c' Happ' Ht.
    apply wp_mod_fd. cbn [fd ops_ctx]. split; [|by exists t]. exists s. split; [by apply times_ok|done].
  - apply wp_ret. split; [done|]. exists (update_timestamp_fd_t1 (fd w)). by destruct (fd w).
Qed.

Lemma handle_msg_ok stack address i in_len o out_len w :
  good w -> stack_ok stack -> mem_ok i -> mem_ok o ->
  0 <= in_len <= mem_size i -> 0 <= out_len <= mem_size o ->
  wp (pldm_fd_handle_msg ops stack address (Some i) in_len (Some o) (Some out_len)) w
    (handled i o address out_len (fd w)).
Proof.
  intros Hw Hstack Hi Ho Hil Hol. unfold pldm_fd_handle_msg.
  cmp_case; [apply wp_ret, handled_refused; done || lia || (repeat constructor)|].
  destruct (msg_at_ok i) as (hq & Eq & Hq & Hqm & Hqs); [done|lia|].
  apply wp_bind. eapply wp_lift; [exact Eq|]. apply wp_bind. eapply wp_lift; [reflexivity|].
  cbn [default from_option id negb Z.eqb pldm_type msg_type hi_command].
  pose proof Hq as [Hrq Hdg Hrs' Hqi Hv Hty Hcm]. cbn [hdr] in *.
  destruct (Z.eqb_spec (type hq) PLDM_FWUP) as [Ety|]; cbn [negb];
    [|apply wp_ret, handled_refused; done || lia || (repeat constructor)].
  destruct (Z.eqb_spec (request hq) 0) as [Erq|Erq]; cbn [negb Z.eqb].
  { eapply handle_resp_handled; (exact Eq || done || lia). }
  destruct (Z.eqb_spec (datagram hq) 0) as [Edg|]; cbn [negb Z.eqb Pos.eqb];
    [|apply wp_ret, handled_refused; done || lia || (repeat constructor)].
  cmp_case; [apply wp_ret, handled_refused; done || lia || (repeat constructor)|].
  destruct (msg_at_ok o) as (hr & Er & Hr & Hrm & Hrs); [done|lia|].
  apply wp_bind. eapply wp_lift; [exact Er|]. apply wp_bind, wp_get_fd.
  cbn [hi_completion_code].
  match goal with |- context [pldm_fd_reply_cc _ ?h' _ _] => set (h := h') end. set (resp := Msg hr (ptr_at o 3)).
  assert (0 <= instance h <= 31) as Hinst by (cbn; lia).
  assert (mem_place (payload resp)) as Hplace by by apply mem_ok_place.
  assert (1 <= out_len - 3 <= mem_size (payload resp)) as Hlen by (cbn [payload resp]; lia).
  pose proof (fun w' rc resp' l final l' => handled_reply i o address out_len (fd w) w' hq (ptr_at i 3) h resp rc resp' l final l'
    Eq Hq Erq Ety eq_refl eq_refl Ho ltac:(lia) eq_refl) as Hreply.
  match goal with |- wp (if ?c then _ else _) _ _ => destruct c eqn:Eua end.
  { apply wp_bind. eapply wp_reply_cc; [done..|]. intros [[rc resp'] l'] Hrep. apply wp_ret.
    eapply Hreply; [done|exact Hrep|by left|by left|lia|done]. }
  assert (ua_check_exempt (command hq) = true \/ is_ua (fd w) address) as Hfrom.
  { unfold is_ua. destruct (ua_check_exempt _); [by left|right]. cbn [negb andb] in Eua.
    destruct (ua_address_set (fd w)); [|done]. split; [done|]. cbn [negb orb] in Eua.
    destruct (Z.eqb_spec address (ua_address (fd w))); done. }
  apply wp_bind. eapply wp_mono; [by apply refresh_timeout_ok|].
  intros [] w1 [Hw1 [ts Ets]]. apply wp_bind.
  eapply wp_mono.
  { apply (dispatch_handles h resp (out_len - 3) stack (Msg hq (ptr_at i 3)) (in_len - 3) address);
      [done|done|done|done|done|cbn [payload]; lia|done]. }
  intros [[rc resp'] l'] w' (Hg & Hrep & Hedge). apply wp_ret.
  eapply Hreply; [done|exact Hrep|by right| | |].
  - right. right. right. split; [done|]. split; [done|]. exists ts. by rewrite <- Ets.
  - intros ->. change (u8 0 =? 0) with true. cbn [Z.eqb]. destruct Hrep as (_ & Hz & _).
    destruct (Hz eq_refl). lia.
  - intros Hrc. destruct Hrep as (_ & _ & Hnz). destruct (Hnz Hrc) as [->| ->]; done.
Qed.

End handlers.
