(* ===== verification/FdRun.v ===== *)
(** * Runs of a firmware device

    Sequences of messages, polls and settings, from pldm_fd_setup() on: they always
    return, keep the invariant, move the state machine along its edges, and only the
    update agent drives it. *)

From S2P Require Import Prelude Msgbuf Utils Base Control FwUpdate FirmwareDevice FdSpec FdSafe.

(** ** Events *)

(** What the transport and the application's main loop do to the device. *)
Inductive fd_event :=
  | FdMsg (stack : fd_stack) (address : Z) (in_msg : cmem) (in_len : Z) (out : cmem) (out_len : Z)
  | FdProgress (out : cmem) (out_len address : Z)
  | FdSetIdleTimeout (time : Z)
  | FdSetRetryTime (time : Z).

(** Buffers exist and are as large as they are said to be. *)
Definition fd_event_ok (e : fd_event) : Prop :=
  match e with
  | FdMsg stack address i in_len o out_len =>
    stack_ok stack /\ mem_ok i /\ mem_ok o /\ 0 <= in_len <= mem_size i /\ 0 <= out_len <= mem_size o
  | FdProgress o out_len address => mem_ok o /\ 0 <= out_len <= mem_size o
  | FdSetIdleTimeout t | FdSetRetryTime t => u64_ok t
  end.

(** The return code, and the buffer and length as they are left. *)
Definition fd_answer : Type := Z * ptr * option Z.

Definition fd_do {C} (ops : pldm_fd_ops C) (e : fd_event) : stM (fd_world C) fd_answer :=
  match e with
  | FdMsg stack address i in_len o out_len =>
    pldm_fd_handle_msg ops stack address (Some i) in_len (Some o) (Some out_len)
  | FdProgress o out_len address =>
    '(rc, out, len, _) ← pldm_fd_progress ops (Some o) (Some out_len) address;
    mret (rc, out, len)
  | FdSetIdleTimeout t => rc ← pldm_fd_set_update_idle_timeout t; mret (rc, None, None)
  | FdSetRetryTime t => rc ← pldm_fd_set_request_retry_time t; mret (rc, None, None)
  end.

Fixpoint fd_run {C} (ops : pldm_fd_ops C) (es : list fd_event) : stM (fd_world C) (list fd_answer) :=
  match es with
  | [] => mret []
  | e :: es => a ← fd_do ops e; rest ← fd_run ops es; mret (a :: rest)
  end.

(** *** What a caller may rely on *)

(** [o'] is [o], written to at most; the length is within what was given. *)
Definition buffer_kept (o : cmem) (out_len : Z) (a : fd_answer) : Prop :=
  let '(_, out, len) := a in
  exists o' l, out = Some o' /\ same_place o o' /\ len = Some l /\ 0 <= l <= out_len.

(** A successful answer to a request correlates with it; a response gets none. *)
Definition answers_request (i : cmem) (a : fd_answer) : Prop :=
  let '(rc, out, len) := a in
  rc = 0 -> exists q, msg_at i = Ok q /\
    if request (hdr q) =? 0 then len = Some 0
    else exists o' p l, out = Some o' /\ len = Some l /\ 4 <= l /\ msg_at o' = Ok p /\
           pldm_msg_hdr_correlate_response (hdr q) (hdr p) = true.

Definition fd_answer_ok (e : fd_event) (a : fd_answer) : Prop :=
  match e with
  | FdMsg _ _ i _ o out_len =>
    fst (fst a) ∈ handle_codes /\ buffer_kept o out_len a /\ answers_request i a
  | FdProgress o out_len _ => fst (fst a) ∈ [0; - EOVERFLOW; - EINVAL] /\ buffer_kept o out_len a
  | _ => fst (fst a) = 0
  end.

(** The edges of the state machine of DSP0267, as fd.c walks them. *)
Definition fd_edges : list (pldm_firmware_device_states * pldm_firmware_device_states) :=
  [(PLDM_FD_STATE_IDLE, PLDM_FD_STATE_LEARN_COMPONENTS);
   (PLDM_FD_STATE_LEARN_COMPONENTS, PLDM_FD_STATE_READY_XFER);
   (PLDM_FD_STATE_READY_XFER, PLDM_FD_STATE_DOWNLOAD);
   (PLDM_FD_STATE_DOWNLOAD, PLDM_FD_STATE_VERIFY);
   (PLDM_FD_STATE_VERIFY, PLDM_FD_STATE_APPLY);
   (PLDM_FD_STATE_DOWNLOAD, PLDM_FD_STATE_READY_XFER);
   (PLDM_FD_STATE_VERIFY, PLDM_FD_STATE_READY_XFER);
   (PLDM_FD_STATE_APPLY, PLDM_FD_STATE_READY_XFER);
   (PLDM_FD_STATE_LEARN_COMPONENTS, PLDM_FD_STATE_IDLE);
   (PLDM_FD_STATE_READY_XFER, PLDM_FD_STATE_IDLE);
   (PLDM_FD_STATE_DOWNLOAD, PLDM_FD_STATE_IDLE);
   (PLDM_FD_STATE_VERIFY, PLDM_FD_STATE_IDLE);
   (PLDM_FD_STATE_APPLY, PLDM_FD_STATE_IDLE)].

Definition legal_edge (s s' : pldm_firmware_device_states) : Prop := s' = s \/ (s, s') ∈ fd_edges.

#[export] Instance legal_edge_dec s s' : Decision (legal_edge s s').
Proof. unfold legal_edge. apply _. Defined.

(** A request of the given command, from an address other than the update agent's. *)
Definition is_request (i : cmem) (cmd : Z) : Prop :=
  exists q, msg_at i = Ok q /\ request (hdr q) <> 0 /\ command (hdr q) = cmd.

Definition only_timestamp (f f' : pldm_fd) : Prop :=
  exists ts, f' = with_times ts (fd_t1_timeout f) (fd_t2_retry_time f) f.

Section run.
Context {C : Type} (ops : pldm_fd_ops C) (app : app_state -> C -> Prop) `{!FdApp ops app}.
Implicit Types w : fd_world C.

(** One event: the answer, the invariant and the edge. *)
Definition fd_stepped (e : fd_event) (f : pldm_fd) (a : fd_answer) (w' : fd_world C) : Prop :=
  good app w' /\ fd_answer_ok e a /\ legal_edge (state f) (state (fd w')) /\
  match e with
  | FdMsg _ address i _ _ _ => f = fd w' \/ exists q, msg_at i = Ok q /\ msg_effect (hdr q) address f (fd w')
  | _ => True
  end.

Lemma legal_edge_refl s : legal_edge s s.
Proof. by left. Qed.

Ltac edge := unfold legal_edge; repeat match goal with H : state _ = _ |- _ => rewrite ?H; clear H end;
  first [by left | right; apply (bool_decide_unpack _); vm_compute; exact I].

Lemma unchanged_edge f f' : unchanged f f' -> legal_edge (state f) (state f').
Proof. intros ->. by left. Qed.

Lemma request_edge_legal cmd address f f' :
  (state f <> PLDM_FD_STATE_ACTIVATE) ->
  request_edge cmd address f f' -> legal_edge (state f) (state f').
Proof.
  intros Hna. unfold request_edge.
  assert (leaves_update PLDM_FD_CANCEL_UPDATE f f' -> legal_edge (state f) (state f')) as Hleave.
  { intros [->|(Hs & Hs' & _)]; [by left|]. destruct (state f) eqn:E; try done; edge. }
  assert (enters_update address f f' -> legal_edge (state f) (state f')) as Henter
    by (intros [->|(Hs & Hs' & _)]; [by left|edge]).
  assert (passes_table f f' -> legal_edge (state f) (state f')) as Hpass
    by (intros [->|(Hs & _ & _ & [Hs'|Hs'])]; [by left|edge|edge]).
  assert (starts_component f f' -> legal_edge (state f) (state f')) as Hstart
    by (intros [->|(Hs & _ & _ & [Hs'|[Hs' _]])]; [by left|edge|edge]).
  assert (leaves_component f f' -> legal_edge (state f) (state f')) as Hcancel
    by (intros [->|([Hs|[Hs|Hs]] & Hs')]; [by left|edge|edge|edge]).
  assert (activates f f' -> legal_edge (state f) (state f')) as Hact
    by (intros [->|(Hs & Hs' & _)]; [by left|edge]).
  repeat case_match; auto using unchanged_edge.
Qed.

Lemma advances_legal f f' : advances f f' -> legal_edge (state f) (state f').
Proof. intros (_ & _ & [H|[[H H']|[[H H']|[H H']]]]); [by left|edge..]. Qed.

Lemma good_not_activate w : good app w -> state (fd w) <> PLDM_FD_STATE_ACTIVATE.
Proof. intros (s & [_ _ _ _ _ _ H] & _) E. unfold phase_ok in H. by rewrite E in H. Qed.

Lemma msg_effect_legal q address f f' :
  state f <> PLDM_FD_STATE_ACTIVATE -> msg_effect q address f f' -> legal_edge (state f) (state f').
Proof.
  intros Hna [->|[(_ & _ & H)|(_ & _ & ts & H)]]; [by left|by apply advances_legal|].
  by apply request_edge_legal in H.
Qed.

Lemma timed_out_legal f f' : state f <> PLDM_FD_STATE_ACTIVATE -> timed_out f f' -> legal_edge (state f) (state f').
Proof. intros Hna (Hne & Hs' & _). destruct (state f) eqn:E; try done; edge. Qed.

Lemma fd_do_ok w e : good app w -> fd_event_ok e -> wp (fd_do ops e) w (fd_stepped e (fd w)).
Proof.
  intros Hw He. pose proof (good_not_activate w Hw) as Hna.
  destruct e as [st a i il o ol|o ol a|t|t]; cbn [fd_do fd_event_ok] in *.
  - destruct He as (Hst & Hi & Ho & Hil & Hol).
    eapply wp_mono; [by apply (handle_msg_ok ops app)|].
    intros [[rc out] len] w' (Hg & Hrc & (o' & -> & Hp & l & -> & Hl & Hz) & Heff).
    split; [done|]. split; [|split; [|done]].
    + split; [done|]. split; [by exists o', l|]. intros ->.
      destruct (Hz eq_refl) as (q & Hq & [(Hr & -> & _)|(H4 & p & Hp' & Hc)]); exists q; (split; [done|]).
      * by rewrite Hr.
      * destruct (Z.eqb_spec (request (hdr q)) 0) as [E|E]; [|by exists o', p, l].
        unfold pldm_msg_hdr_correlate_response in Hc. rewrite E, andb_false_r in Hc. done.
    + destruct Heff as [<-|(q & _ & H)]; [by left|]. by eapply msg_effect_legal.
  - destruct He as (Ho & Hol). destruct (Z.lt_ge_cases ol 3) as [Hlt|Hge].
    { unfold pldm_fd_progress. cmp_case; [|lia]. apply wp_bind, wp_ret, wp_ret.
      split; [done|]. split; [|split; [by left|done]]. split; [repeat constructor|]. exists o, ol. split_and!; done || lia. }
    apply wp_bind. eapply wp_mono; [apply (progress_ok ops app); done || lia|].
    intros [[[rc out] len] a'] w' (Hg & (o' & -> & Hp) & Hrc & Hlen & (msg & r1 & w1 & t & _ & _ & Hkeep & _ & _ & _ & _ & Ht) & _).
    apply wp_ret. split; [done|]. split; [|split; [|done]].
    + split; [done|]. destruct Hlen as [->|(_ & (l & -> & Hl) & _)]; [exists o', 0|exists o', l]; split_and!; done || lia.
    + destruct (overdue _ t); [by apply timed_out_legal|left]. rewrite Ht. apply Hkeep.
  - apply wp_bind, wp_bind, wp_mod_fd, wp_ret, wp_ret. cbn [fd]. split; [|split; [done|split; [by left|done]]].
    destruct Hw as (s & Hok & Happ). exists s. split; [by apply times_ok|done].
  - apply wp_bind, wp_bind, wp_mod_fd, wp_ret, wp_ret. cbn [fd]. split; [|split; [done|split; [by left|done]]].
    destruct Hw as (s & Hok & Happ). exists s. split; [by apply times_ok|done].
Qed.

Lemma fd_run_ok es w :
  good app w -> Forall fd_event_ok es ->
  wp (fd_run ops es) w (fun rs w' => good app w' /\ Forall2 fd_answer_ok es rs).
Proof.
  revert w. induction es as [|e es IH]; intros w Hw Hes; cbn [fd_run].
  { apply wp_ret. split; [done|constructor]. }
  apply Forall_cons_1 in Hes as [He Hes].
  apply wp_bind. eapply wp_mono; [by apply fd_do_ok|]. intros a w1 (Hg1 & Ha & _).
  apply wp_bind. eapply wp_mono; [by apply IH|]. intros rs w2 [Hg2 Hrs]. apply wp_ret. auto.
Qed.
End run.

(** ** From pldm_fd_setup() *)

Lemma setup_good {C} (ops : pldm_fd_ops C) (app : app_state -> C -> Prop) raw size control f control' c :
  pldm_fd_setup raw size (Some ops) control = (0, Some f, control') -> app AppIdle c ->
  good app (World f c).
Proof.
  intros Hs Hc. exists AppIdle. split; [|done]. cbn [fd].
  enough (f = with_times 0 DEFAULT_FD_T1_TIMEOUT DEFAULT_FD_T2_RETRY_TIME fd_zero) as ->.
  { constructor; cbn; try done. }
  unfold pldm_fd_setup in Hs. destruct raw as [raw|]; [|done]. destruct (_ || _); [done|].
  destruct (_ <? _); [done|]. destruct control as [ctl|]; [|by simplify_eq].
  destruct (pldm_control_add_type _ _ _ _ _) as [rc ctl']. destruct (Z.eqb_spec rc 0); by simplify_eq.
Qed.
