(* ===== verification/FdDemo.v ===== *)
(** * A small application

    A device with one component whose callbacks agree to everything at once, and the
    messages of an update of 40 bytes: the concrete inputs the theorems about the
    firmware device are applied to. *)

From S2P Require Import Prelude Msgbuf Utils Base Control FwUpdate FirmwareDevice FdSpec FdSafe FdRun.

Definition demo_str : pldm_firmware_string := FwString 1 2 ([65; 66] ++ replicate 62 0).
Definition demo_ver : pldm_firmware_version := FwVersion 7 demo_str (replicate 8 48).

(** The context collects the image; the clock stands still. *)
Definition demo_ops : pldm_fd_ops (list Z) := {|
  device_identifiers := Some (fun c => ((0, 1, Some [Descriptor 0 2 (Some (CMem 64 [1; 2]))]), c));
  components := Some (fun c => ((0, 1, [Standalone 10 20 0 demo_ver demo_ver 0 0]), c));
  imageset_versions := Some (fun c _ _ => ((0, demo_str, demo_str), c));
  update_component := Some (fun c update _ => (0, if update : bool then [] else c));
  transfer_size := Some (fun c n => (if n <? 4294967296 then Z.max 0 n else 32, c));
  firmware_data := Some (fun c off data len _ => (0, c ++ slice 0 (Z.to_nat len) (bytes data)));
  verify := Some (fun c _ _ p => ((0, false, p), c));
  apply := Some (fun c _ _ p => ((0, false, p), c));
  activate := Some (fun c _ _ => ((0, 5), c));
  cancel_update_component := Some (fun c _ => c);
  now := Some (fun c => (1000, c))
|}.

(** During a download it holds the bytes it was given. *)
Definition demo_app (s : app_state) (c : list Z) : Prop :=
  match s with AppDownload _ rcv => c = rcv | _ => True end.

#[export] Instance demo_ops_app : FdApp demo_ops demo_app.
Proof.
  constructor; (eexists; split; [reflexivity|]).
  - intros s c Hs. concrete.
  - intros s c Hs. concrete.
  - intros s c a p Hs. concrete.
  - intros c update comp Hs. by destruct update.
  - intros s c n Hs. split; [done|]. cmp_case; lia.
  - intros comp rcv c data len -> Hlen Hfit Hpos. concrete.
  - intros s c comp p Hs Hmay Hp. concrete.
  - intros s c comp p Hs Hmay Hp. concrete.
  - intros c sc t Hs. concrete.
  - intros s c comp Hs Hc. done.
  - intros s c Hs. concrete.
Qed.

Definition demo_msg (inst cmd : Z) (body : list Z) : cmem :=
  CMem 64 (hdr_bytes (packed PLDM_REQUEST inst PLDM_FWUP cmd) ++ body).
Definition demo_resp (inst cmd : Z) (body : list Z) : cmem :=
  CMem 64 (hdr_bytes (packed PLDM_RESPONSE inst PLDM_FWUP cmd) ++ body).
Definition demo_out : cmem := CMem 512 (replicate 64 0).

Definition demo_stack : fd_stack :=
  Stack (RuReq 0 0 0 0 fw_string_empty) (PassReq 0 0 0 0 0 fw_string_empty)
    (UpReq 0 0 0 0 fw_string_empty 0 0) false.

Definition demo_send (m : cmem) : fd_event := FdMsg demo_stack 8 m (mem_size m) demo_out 64.
Definition demo_poll : fd_event := FdProgress demo_out 64 0.

(** From IDLE to the first chunk. *)
Definition demo_start : list fd_event :=
  [demo_send (demo_msg 1 PLDM_REQUEST_UPDATE (le_enc 4 32 ++ [1; 0; 1; 0; 0; 1; 2; 65; 66]));
   demo_send (demo_msg 1 PLDM_PASS_COMPONENT_TABLE [5; 10; 0; 20; 0; 0; 1; 0; 0; 0; 1; 2; 65; 66]);
   demo_send (demo_msg 1 PLDM_UPDATE_COMPONENT
     [10; 0; 20; 0; 0; 1; 0; 0; 0; 40; 0; 0; 0; 0; 0; 0; 0; 1; 2; 65; 66])].

Definition demo_download : list fd_event :=
  [demo_poll; demo_send (demo_resp 1 PLDM_REQUEST_FIRMWARE_DATA (0 :: replicate 32 9));
   demo_poll; demo_send (demo_resp 2 PLDM_REQUEST_FIRMWARE_DATA (0 :: replicate 8 7))].

Definition demo_finish : list fd_event :=
  [demo_poll; demo_send (demo_resp 3 PLDM_TRANSFER_COMPLETE [0]);
   demo_poll; demo_send (demo_resp 4 PLDM_VERIFY_COMPLETE [0]);
   demo_poll; demo_send (demo_resp 5 PLDM_APPLY_COMPLETE [0]);
   demo_send (demo_msg 1 PLDM_ACTIVATE_FIRMWARE [1])].

Definition demo_update : list fd_event := demo_start ++ demo_download ++ demo_finish.

Definition demo_raw : pldm_fd := fd_zero.
Definition demo_fd : pldm_fd := with_times 0 DEFAULT_FD_T1_TIMEOUT DEFAULT_FD_T2_RETRY_TIME fd_zero.

(** The device after the events [es], for the witnesses to start from. *)
Definition demo_after (es : list fd_event) : fd_world (list Z) :=
  match fd_run demo_ops es (World demo_fd []) with
  | Ok (_, w) => w
  | Fault _ => World demo_fd []
  end.

Lemma demo_setup : pldm_fd_setup (Some demo_raw) sizeof_pldm_fd (Some demo_ops) None = (0, Some demo_fd, None).
Proof. reflexivity. Qed.

Lemma demo_stack_ok : stack_ok demo_stack.
Proof. constructor; cbn; [split; [done|lia]|done|done]. Qed.

Lemma demo_update_ok : Forall fd_event_ok demo_update.
Proof.
  repeat (constructor; [first [split; [exact demo_stack_ok|concrete] | concrete]|]). constructor.
Qed.

Lemma demo_after_good es : Forall fd_event_ok es -> good demo_app (demo_after es).
Proof.
  intros Hes. unfold demo_after.
  assert (good demo_app (World demo_fd [])) as H0 by (eapply setup_good; [apply demo_setup|done]).
  pose proof (fd_run_ok demo_ops demo_app es _ H0 Hes) as H. unfold wp in H.
  destruct (fd_run _ _ _) as [[rs w]|]; [by destruct H|done].
Qed.

(** The update above succeeds step by step and leaves the image behind. *)
Example demo_update_runs :
  match fd_run demo_ops demo_update (World demo_fd []) with
  | Ok (rs, w) =>
    forallb (fun '(rc, _, _) => rc =? 0) rs = true /\
    ops_ctx w = replicate 32 9 ++ replicate 8 7 /\
    state (fd w) = PLDM_FD_STATE_IDLE /\ prev_state (fd w) = PLDM_FD_STATE_ACTIVATE
  | Fault _ => False
  end.
Proof. vm_compute. done. Qed.
