(* ===== verification/FdTrace.v ===== *)
(** * The calls of a firmware device

    The application's callbacks, recorded.  The recording application is itself an
    [FdApp] whose state is the one the protocol of [FdSpec] is in after the calls so
    far, so every run of the device leaves a log the protocol accepts. *)

From S2P Require Import Prelude Msgbuf Utils Base Control FwUpdate FirmwareDevice FdSpec FdSafe FdRun FdDemo.

(** ** Recording *)

Definition traced {C} (ops : pldm_fd_ops C) : pldm_fd_ops (C * list app_event) := {|
  device_identifiers := (fun f '(c, log) => let '(r, c) := f c in (r, (c, log))) <$> device_identifiers ops;
  components := (fun f '(c, log) => let '(r, c) := f c in (r, (c, log))) <$> components ops;
  imageset_versions := (fun f '(c, log) a p => let '(r, c) := f c a p in (r, (c, log))) <$> imageset_versions ops;
  update_component := (fun f '(c, log) update comp =>
    let '(code, c) := f c update comp in
    (code, (c, log ++ [EvUpdateComponent update comp code]))) <$> update_component ops;
  transfer_size := (fun f '(c, log) n => let '(r, c) := f c n in (r, (c, log))) <$> transfer_size ops;
  firmware_data := (fun f '(c, log) off data len comp =>
    let '(res, c) := f c off data len comp in
    (res, (c, log ++ [EvFirmwareData off (slice 0 (Z.to_nat len) (bytes data)) comp res])))
    <$> firmware_data ops;
  verify := (fun f '(c, log) comp pending p =>
    let '((res, pending, p), c) := f c comp pending p in
    ((res, pending, p), (c, log ++ [EvVerify comp res pending]))) <$> verify ops;
  apply := (fun f '(c, log) comp pending p =>
    let '((res, pending, p), c) := f c comp pending p in
    ((res, pending, p), (c, log ++ [EvApply comp res pending]))) <$> apply ops;
  activate := (fun f '(c, log) sc t =>
    let '(r, c) := f c sc t in (r, (c, log ++ [EvActivate]))) <$> activate ops;
  cancel_update_component := (fun f '(c, log) comp =>
    (f c comp, log ++ [EvCancel comp])) <$> cancel_update_component ops;
  now := (fun f '(c, log) => let '(r, c) := f c in (r, (c, log))) <$> now ops
|}.

(** The application is where the log says. *)
Definition traced_app {C} (app : app_state -> C -> Prop) (s : app_state) (cl : C * list app_event) : Prop :=
  app s (fst cl) /\ app_run AppIdle (snd cl) = Some s.

Lemma app_run_snoc s es e s1 s2 :
  app_run s es = Some s1 -> app_step s1 e = Some s2 -> app_run s (es ++ [e]) = Some s2.
Proof. intros H1 H2. rewrite app_run_app, H1. cbn. by rewrite H2. Qed.

#[export] Instance traced_FdApp {C} (ops : pldm_fd_ops C) app `{!FdApp ops app} :
  FdApp (traced ops) (traced_app app).
Proof.
  constructor; cbn [traced device_identifiers components imageset_versions update_component
    transfer_size firmware_data verify apply activate cancel_update_component now].
  - destruct app_device_identifiers as (f & -> & H). eexists. split; [reflexivity|].
    intros s [c log] [Hs Hl]. specialize (H s c Hs). destruct (f c) as [[[rc n] ds] c'].
    destruct H. done.
  - destruct app_components as (f & -> & H). eexists. split; [reflexivity|].
    intros s [c log] [Hs Hl]. specialize (H s c Hs). destruct (f c) as [[[rc n] ds] c'].
    destruct H. done.
  - destruct app_imageset_versions as (f & -> & H). eexists. split; [reflexivity|].
    intros s [c log] a p [Hs Hl]. specialize (H s c a p Hs). destruct (f c a p) as [[[rc x] y] c'].
    destruct H. done.
  - destruct app_update_component as (f & -> & H). eexists. split; [reflexivity|].
    intros [c log] update comp [Hs Hl]. specialize (H c update comp Hs).
    destruct (f c update comp) as [code c']. split; [done|]. by eapply app_run_snoc.
  - destruct app_transfer_size as (f & -> & H). eexists. split; [reflexivity|].
    intros s [c log] n [Hs Hl]. specialize (H s c n Hs). destruct (f c n) as [x c'].
    destruct H. done.
  - destruct app_firmware_data as (f & -> & H). eexists. split; [reflexivity|].
    intros comp rcv [c log] data len [Hs Hl] Hlen Hfit Hpos. specialize (H comp rcv c data len Hs Hlen Hfit Hpos).
    destruct (f c _ data len comp) as [res c']. destruct H as [Hres H]. split; [done|]. split; [done|].
    eapply app_run_snoc; [exact Hl|]. cbn [app_step]. rewrite bool_decide_true, Z.eqb_refl by done.
    assert (Z.of_nat (length (slice 0 (Z.to_nat len) (bytes data))) = len) as ->.
    { rewrite length_slice. unfold mem_size in Hlen. lia. }
    cbn [andb]. cmp_case; [|lia]. destruct (Z.ltb_spec 0 len), (Z.eqb_spec (uc_comp_image_size comp) 0);
      cbn [andb orb]; done || lia.
  - destruct app_verify as (f & -> & H). eexists. split; [reflexivity|].
    intros s [c log] comp p [Hs Hl] Hmay Hp. specialize (H s c comp p Hs Hmay Hp).
    destruct (f c comp false p) as [[[res pending] p'] c']. destruct H as (? & ? & ?).
    split; [done|]. split; [done|]. split; [done|]. eapply app_run_snoc; [exact Hl|]. cbn [app_step].
    by rewrite decide_True.
  - destruct app_apply as (f & -> & H). eexists. split; [reflexivity|].
    intros s [c log] comp p [Hs Hl] Hmay Hp. specialize (H s c comp p Hs Hmay Hp).
    destruct (f c comp false p) as [[[res pending] p'] c']. destruct H as (? & ? & ?).
    split; [done|]. split; [done|]. split; [done|]. eapply app_run_snoc; [exact Hl|]. cbn [app_step].
    by rewrite decide_True.
  - destruct app_activate as (f & -> & H). eexists. split; [reflexivity|].
    intros [c log] sc t [Hs Hl]. specialize (H c sc t Hs). destruct (f c sc t) as [[cc t'] c'].
    destruct H. split; [done|]. split; [done|]. by eapply app_run_snoc.
  - destruct app_cancel as (f & -> & H). eexists. split; [reflexivity|].
    intros s [c log] comp [Hs Hl] Hc. specialize (H s c comp Hs Hc). split; [done|].
    eapply app_run_snoc; [exact Hl|]. cbn [app_step]. by rewrite bool_decide_true.
  - destruct app_now as (f & -> & H). eexists. split; [reflexivity|].
    intros s [c log] [Hs Hl]. specialize (H s c Hs). destruct (f c) as [t c']. destruct H. done.
Qed.

(** ** What an accepted log says *)

(** The bytes handed to firmware_data() with success since the component was
    accepted, computed from the calls alone. *)
Definition received_step (rcv : list Z) (e : app_event) : list Z :=
  match e with
  | EvUpdateComponent true _ code => if u8 code =? PLDM_CRC_COMP_CAN_BE_UPDATED then [] else rcv
  | EvFirmwareData _ data _ res => if res =? PLDM_FWUP_TRANSFER_SUCCESS then rcv ++ data else rcv
  | _ => rcv
  end.

Definition received (log : list app_event) : list Z := foldl received_step [] log.

(** The component the device was last told to update. *)
Definition accepted_step (comp : option pldm_firmware_update_component) (e : app_event) :=
  match e with
  | EvUpdateComponent true c code => if u8 code =? PLDM_CRC_COMP_CAN_BE_UPDATED then Some c else comp
  | _ => comp
  end.

Definition accepted (log : list app_event) : option pldm_firmware_update_component :=
  foldl accepted_step None log.

(** The last verify() or apply() that was not asked to be repeated. *)
Definition verified_step (v : bool) (e : app_event) : bool :=
  match e with
  | EvUpdateComponent true _ code => if u8 code =? PLDM_CRC_COMP_CAN_BE_UPDATED then false else v
  | EvVerify _ res pending => (res =? PLDM_FWUP_VERIFY_SUCCESS) && negb pending
  | _ => v
  end.

Definition verified (log : list app_event) : bool := foldl verified_step false log.

(** What the protocol state says about the log. *)
Definition log_ok (log : list app_event) (s : app_state) : Prop :=
  match s with
  | AppIdle => True
  | AppDownload c rcv => accepted log = Some c /\ received log = rcv
  | AppVerifying c => accepted log = Some c /\ Z.of_nat (length (received log)) = uc_comp_image_size c
  | AppVerified c | AppApplying c =>
    accepted log = Some c /\ Z.of_nat (length (received log)) = uc_comp_image_size c /\ verified log = true
  | AppBroken c => accepted log = Some c
  end.

Lemma log_ok_step log s e s' : log_ok log s -> app_step s e = Some s' -> log_ok (log ++ [e]) s'.
Proof.
  assert (received (log ++ [e]) = received_step (received log) e) as Hr by apply foldl_snoc.
  assert (accepted (log ++ [e]) = accepted_step (accepted log) e) as Ha by apply foldl_snoc.
  assert (verified (log ++ [e]) = verified_step (verified log) e) as Hv by apply foldl_snoc.
  destruct e as [u c code|off data c res|c res p|c res p|c|]; cbn [app_step received_step accepted_step verified_step] in *.
  - destruct s; cbn [app_component]; try (rewrite bool_decide_false by done; done). rewrite bool_decide_true by done.
    intros _ ?. simplify_eq/=. destruct u; cbn [andb]; [|done]. destruct (_ =? _); [|done]. by split.
  - destruct s as [|c' rcv| | | |]; try done. intros [Hc Hrcv] Hs. case_match eqn:E; [|done]. simplify_eq.
    destruct (bool_decide_reflect (c' = c)) as [->|]; [|done].
    destruct (res =? _); cbn [log_ok]; rewrite ?Ha; [|done]. by rewrite Hr.
  - case_decide as Hmay; [|done]. intros Hok Hs. simplify_eq. unfold after_verify.
    assert (accepted log = Some c /\ Z.of_nat (length (received log)) = uc_comp_image_size c) as [Hc Hn].
    { destruct s as [|c' rcv|c'| | |]; cbn in *; try done; [|by destruct Hmay].
      destruct Hmay as [-> <-]. destruct Hok as [? ->]. done. }
    rewrite <- Ha in Hc. rewrite <- Hr in Hn.
    destruct (res =? 0) eqn:E; cbn [negb]; [|done]. destruct p; cbn [log_ok]; [done|].
    rewrite Hv. split_and!; done.
  - case_decide as Hmay; [|done]. intros Hok Hs. simplify_eq. unfold after_apply.
    destruct s as [| | |c'|c'|]; try done; cbn in Hmay; subst; destruct Hok as (Hc & Hn & Hver);
      rewrite <- Ha in Hc; rewrite <- Hr in Hn; rewrite <- Hv in Hver; repeat case_match; done.
  - case_bool_decide; intros _ ?; by simplify_eq.
  - case_bool_decide; [|done]. intros _ ?. simplify_eq. destruct s'; done.
Qed.

Lemma app_run_log_ok log s : app_run AppIdle log = Some s -> log_ok log s.
Proof.
  revert s. induction log as [|e log IH] using rev_ind; intros s.
  { intros [= <-]. done. }
  rewrite app_run_app. destruct (app_run AppIdle log) as [s1|]; [|done]. cbn [mbind option_bind app_run].
  destruct (app_step s1 e) as [s2|] eqn:E; [|done]. cbn. intros ?. simplify_eq.
  eapply log_ok_step; [by apply IH|done].
Qed.

(** ** The refinement *)

Lemma traced_run {C} (ops : pldm_fd_ops C) app `{!FdApp ops app} raw size control f control' c es :
  pldm_fd_setup raw size (Some (traced ops)) control = (0, Some f, control') ->
  app AppIdle c -> Forall fd_event_ok es ->
  exists rs w s, fd_run (traced ops) es (World f (c, [])) = Ok (rs, w) /\
    app s (fst (ops_ctx w)) /\ app_run AppIdle (snd (ops_ctx w)) = Some s.
Proof.
  intros Hs Hc Hes.
  assert (good (traced_app app) (World f (c, []))) as Hg by by (eapply setup_good; [exact Hs|split]).
  destruct (wp_elim _ _ _ (fd_run_ok (traced ops) (traced_app app) es _ Hg Hes)) as (rs & w & E & (s & _ & Ha & Hl) & _).
  by exists rs, w, s.
Qed.
