(* ===== verification/FdTransfer.v ===== *)
(** * A download, end to end

    The device against an update agent that answers what it is asked: as many rounds
    as the image has pieces, and the application has been given the image. *)

From S2P Require Import Prelude Msgbuf Layout Utils Base Control FwUpdate Legacy UpdateAgent FirmwareDevice FdSpec FdSafe FdRun.

(** ** The agent

    It decodes the request in the device's buffer.  If the decoder accepts it, the agent
    answers with the piece of the image behind the completion code.  If the decoder
    refuses it the agent says so, as the code of the decoder, unless it is [lenient] and
    the complaint is only that the device asks for less than the baseline transfer size:
    then it serves what was asked for. *)
Definition agent_serve (lenient : bool) (image : list Z) (out : cmem) (out_len : Z) : outcome cmem :=
  q ← msg_at out;
  '(rc, off, size) ← decode_request_firmware_data_req (Some q) (out_len - 3) (Some 0) (Some 0);
  let off := default 0 off in
  let size := default 0 size in
  let served := (rc =? PLDM_SUCCESS) || lenient && (rc =? PLDM_FWUP_INVALID_TRANSFER_LENGTH) in
  let cc := if served then PLDM_SUCCESS else rc in
  let data := if served then slice (Z.to_nat off) (Z.to_nat size) image else [] in
  let used := 1 + len data in
  let blank := Msg (packed PLDM_RESPONSE 0 PLDM_FWUP 0) (CMem 4099 (replicate (Z.to_nat used) 0)) in
  '(_, resp) ← encode_request_firmware_data_resp (instance_id (hdr q)) cc (Some blank) used;
  resp ← payload_write (default blank resp) 1 data;
  mret (msg_bytes 4096 resp).

(** The device asks, and is answered by whom it asked. *)
Definition transfer_round {C} (ops : pldm_fd_ops C) (stack : fd_stack) (lenient : bool) (image : list Z) (out : cmem)
    (out_len : Z) : stM (fd_world C) unit :=
  '(_, o, l, to) ← pldm_fd_progress ops (Some out) (Some out_len) 0;
  resp ← lift (agent_serve lenient image (default out o) (default 0 l));
  _ ← pldm_fd_handle_msg ops stack to (Some resp) (mem_size resp) (Some out) (Some out_len);
  mret tt.

Fixpoint transfer_rounds {C} (ops : pldm_fd_ops C) (stack : fd_stack) (lenient : bool) (image : list Z)
    (out : cmem) (out_len : Z) (n : nat) : stM (fd_world C) unit :=
  match n with
  | O => mret tt
  | S n =>
    _ ← transfer_round ops stack lenient image out out_len;
    transfer_rounds ops stack lenient image out out_len n
  end.

(** The application takes every piece, and its clock is monotone and never more than
    [d] milliseconds further when it is read again. *)
Class FdPrompt {C : Type} (ops : pldm_fd_ops C) (app : app_state -> C -> Prop) (clock : C -> Z) (d : Z) : Prop := {
  prompt_now : forall f s c, now ops = Some f -> app s c ->
    let '(t, c') := f c in clock c' = t /\ clock c <= t <= clock c + d;
  prompt_data : forall f comp rcv c data len, firmware_data ops = Some f -> app (AppDownload comp rcv) c ->
    let '(res, c') := f c (Z.of_nat (length rcv)) data len comp in
    res = PLDM_FWUP_TRANSFER_SUCCESS /\ clock c' = clock c
}.

Lemma msg_at_written a msg :
  hdr_ok (hdr msg) -> msg_at (msg_bytes a msg) = Ok (Msg (hdr msg) (CMem (a + 3) (bytes (payload msg)))).
Proof.
  intros Hh. destruct (msg_at_bytes a msg Hh) as [p E]. rewrite E. f_equal. f_equal.
  unfold msg_at in E. destruct (mem_read _ _ _) as [l|]; [|done]. cbn [mbind outcome_bind] in E.
  destruct (hdr_parse l); [|done]. by simplify_eq.
Qed.

Section transfer.
Context {C : Type} (ops : pldm_fd_ops C) (app : app_state -> C -> Prop) `{!FdApp ops app}.
Context (clock : C -> Z) (d : Z) `{!FdPrompt ops app clock d}.
Implicit Types w : fd_world C.

Lemma wp_now_prompt w s Q :
  app s (ops_ctx w) ->
  (forall t c', app s c' -> clock c' = t -> clock (ops_ctx w) <= t <= clock (ops_ctx w) + d ->
     0 <= t < 18446744073709551616 -> Q t (World (fd w) c')) ->
  wp (pldm_fd_now ops) w Q.
Proof.
  intros Hs HQ. destruct app_now as (f & Hf & H). specialize (H s (ops_ctx w) Hs).
  pose proof (prompt_now f s (ops_ctx w) Hf Hs) as Hp.
  apply (wp_callback _ _ (fun t c' => app s c' /\ clock c' = t /\
    clock (ops_ctx w) <= t <= clock (ops_ctx w) + d /\ u64_ok t)).
  - exists f. split; [done|]. destruct (f (ops_ctx w)) as [t c']. destruct H, Hp. done.
  - intros t c' (? & ? & ? & ?). by apply HQ.
Qed.

Context (lenient : bool) (image : list Z) (out : cmem) (out_len : Z) (stack : fd_stack).
Hypothesis Himage : bytes_ok image.
Hypothesis Hsize : Z.of_nat (length image) < 4294967295.
Hypothesis Hout : mem_ok out.
Hypothesis Hlen : 11 <= out_len <= mem_size out.

(** The device has [off] bytes of the image and wants more. *)
Record downloading (w : fd_world C) (off : Z) : Prop := {
  dl_state : state (fd w) = PLDM_FD_STATE_DOWNLOAD;
  dl_ready : req_state (req (fd w)) = PLDM_FD_REQ_READY;
  dl_complete : req_complete (req (fd w)) = false;
  dl_offset : download_offset (fd w) = Ok off;
  dl_image : uc_comp_image_size (update_comp (fd w)) = Z.of_nat (length image);
  dl_good : fd_ok (fd w) (AppDownload (update_comp (fd w)) (take (Z.to_nat off) image));
  dl_app : app (AppDownload (update_comp (fd w)) (take (Z.to_nat off) image)) (ops_ctx w);
  dl_clock : 0 <= update_timestamp_fd_t1 (fd w) <= clock (ops_ctx w);
  dl_prompt : 0 <= d /\ 3 * d <= fd_t1_timeout (fd w) /\
    clock (ops_ctx w) + 3 * d - update_timestamp_fd_t1 (fd w) <= fd_t1_timeout (fd w)
}.

(** The image has been transferred. *)
Record downloaded (comp : pldm_firmware_update_component) (w : fd_world C) : Prop := {
  dd_state : state (fd w) = PLDM_FD_STATE_DOWNLOAD;
  dd_ready : req_state (req (fd w)) = PLDM_FD_REQ_READY;
  dd_complete : req_complete (req (fd w)) = true;
  dd_result : req_result (req (fd w)) = PLDM_FWUP_TRANSFER_SUCCESS;
  dd_good : fd_ok (fd w) (AppDownload comp image);
  dd_app : app (AppDownload comp image) (ops_ctx w)
}.

(** The agent refused what the device asked for behind the first [off] bytes, and the
    device is about to report that it gave up. *)
Record given_up (comp : pldm_firmware_update_component) (off : Z) (w : fd_world C) : Prop := {
  gu_state : state (fd w) = PLDM_FD_STATE_DOWNLOAD;
  gu_ready : req_state (req (fd w)) = PLDM_FD_REQ_READY;
  gu_complete : req_complete (req (fd w)) = true;
  gu_result : req_result (req (fd w)) = PLDM_FWUP_FD_ABORTED_TRANSFER;
  gu_app : app (AppDownload comp (take (Z.to_nat off) image)) (ops_ctx w)
}.

Lemma downloading_range w off : downloading w off -> 0 <= off <= Z.of_nat (length image).
Proof.
  intros []. destruct dl_good0 as [_ _ _ _ _ _ Hph]. unfold phase_ok in Hph.
  rewrite dl_state0 in Hph. destruct Hph as (_ & off' & E & Hr & _). rewrite dl_offset0 in E.
  simplify_eq. by rewrite <- dl_image0.
Qed.

Lemma downloading_max w off : downloading w off -> 32 <= max_transfer (fd w) < 4294967296.
Proof. intros []. destruct dl_good0. apply fd_max. by rewrite dl_state0. Qed.

(** *** The request *)

(** The device after it has sent its request. *)
Definition requested (f : pldm_fd) (t : Z) : pldm_fd :=
  with_req (FdReq PLDM_FD_REQ_SENT (req_complete (req f)) (req_result (req f))
    ((req_instance_id (req f) + 1) mod 32) PLDM_REQUEST_FIRMWARE_DATA t) f.

Lemma progress_requests w off :
  downloading w off ->
  let i := (req_instance_id (req (fd w)) + 1) mod 32 in
  let size := Z.min (Z.of_nat (length image) - off) (max_transfer (fd w)) in
  wp (pldm_fd_progress ops (Some out) (Some out_len) 0) w (fun '(rc, o, len, to) w' =>
    rc = 0 /\ to = ua_address (fd w) /\ len = Some 11 /\
    (exists o' rest, o = Some o' /\
       msg_at o' = Ok (Msg (packed PLDM_REQUEST i PLDM_FWUP PLDM_REQUEST_FIRMWARE_DATA)
         (CMem (addr out + 3) (fields_bytes [(KU32, off); (KU32, size)] ++ rest)))) /\
    exists t, fd w' = requested (fd w) t /\
      app (AppDownload (update_comp (fd w)) (take (Z.to_nat off) image)) (ops_ctx w') /\
      update_timestamp_fd_t1 (fd w) <= clock (ops_ctx w')).
Proof.
  intros Hdl i size. pose proof (downloading_range w off Hdl) as Hoff. pose proof (downloading_max w off Hdl) as Hmax.
  destruct Hdl as [Hst Hready Hcomp Hofs Him Hok Happ Hclk (Hd & H3d & Hd3)].
  assert (0 <= i < 32) as Hi by (apply Z.mod_pos_bound; lia).
  unfold pldm_fd_progress. cmp_case; [lia|].
  destruct (msg_at_ok out) as (hd & E & Hhd & Hmp & Hms); [done|lia|].
  apply wp_bind. eapply wp_lift; [exact E|]. apply wp_bind, wp_get_fd. rewrite Hst. cbv iota.
  apply wp_bind. unfold pldm_fd_progress_download. apply wp_bind. unfold pldm_fd_req_should_send.
  apply wp_bind, (wp_now_prompt _ _ _ Happ). intros t1 c1 Happ1 Ht1 Hb1 Hr1. apply wp_bind, wp_get_fd. cbn [fd].
  rewrite Hready. apply wp_ret. cbn [negb]. apply wp_bind. unfold pldm_fd_req_next_instance.
  apply wp_bind, wp_get_fd. cbn [fd]. fold i. apply wp_bind, wp_mod_fd, wp_ret. apply wp_bind, wp_get_fd.
  cbn [fd ops_ctx]. set (f1 := with_req _ (fd w)).
  change (req_complete (req f1)) with (req_complete (req (fd w))). rewrite Hcomp.
  change (download_offset f1) with (download_offset (fd w)). rewrite Hofs.
  assert (pldm_fd_fwdata_size f1 = Ok size) as Hfs.
  { erewrite (fwdata_size_ok f1 _ off); [|by apply instance_ok|done|exact Hofs|rewrite <- Him in Hoff; exact Hoff].
    change (update_comp f1) with (update_comp (fd w)). by rewrite Him. }
  rewrite Hfs. cbn [mbind outcome_bind]. unfold encode_request_firmware_data_req.
  rewrite fields_sent by ((cbn [payload]; lia) || (by apply mem_ok_place) || (cbn; lia) || (repeat constructor)).
  apply wp_bind. eapply wp_lift; [reflexivity|]. cbn [encoded default from_option id Z.eqb].
  apply wp_bind. unfold await_response, set_req_state. do 2 (apply wp_bind, wp_mod_fd). cbn [fd ops_ctx].
  apply wp_bind, (wp_now_prompt _ (AppDownload (update_comp (fd w)) (take (Z.to_nat off) image))); [done|].
  cbn [fd ops_ctx]. intros t2 c2 Happ2 Ht2 Hb2 Hr2. apply wp_mod_fd, wp_ret. cbn [fd ops_ctx].
  apply wp_bind, wp_get_fd. cbn [fd]. change (state _) with (state (fd w)). rewrite Hst.
  cbn [req with_req req_state]. rewrite bool_decide_true by done. cbv iota.
  apply wp_bind, wp_bind, (wp_now_prompt _ (AppDownload (update_comp (fd w)) (take (Z.to_nat off) image))); [done|].
  cbn [fd ops_ctx]. intros t3 c3 Happ3 Ht3 Hb3 Hr3.
  match goal with |- context [fd_t1_timeout ?f <? u64 (t3 - update_timestamp_fd_t1 ?f)] => set (f3 := f) end.
  change (fd_t1_timeout f3) with (fd_t1_timeout (fd w)).
  change (update_timestamp_fd_t1 f3) with (update_timestamp_fd_t1 (fd w)).
  assert (u64 (t3 - update_timestamp_fd_t1 (fd w)) = t3 - update_timestamp_fd_t1 (fd w)) as ->.
  { unfold u64. apply Z.mod_small. lia. }
  cmp_case; [lia|]. apply wp_ret, wp_bind, wp_get_fd. cbn [fd].
  change (ua_address_set f3) with (ua_address_set (fd w)).
  destruct Hok as [Hua _ _ _ _ _ _]. rewrite Hst in Hua. rewrite Hua. cbn.
  apply wp_ret. split; [done|]. split; [done|]. split; [done|]. split.
  - eexists _, _. split; [reflexivity|]. rewrite msg_at_written; [reflexivity|].
    apply packed_ok; cbn; lia.
  - exists t2. split; [done|]. split; [done|]. cbn [ops_ctx]. lia.
Qed.

(** *** The answer *)

(** Whether the agent answers a request for [size] bytes with them. *)
Definition serves (size : Z) : bool := (PLDM_FWUP_BASELINE_TRANSFER_SIZE <=? size) || lenient.

Lemma agent_answers o i off size rest a :
  0 <= i < 32 -> u32_ok off -> 0 <= size -> off + size <= Z.of_nat (length image) ->
  msg_at o = Ok (Msg (packed PLDM_REQUEST i PLDM_FWUP PLDM_REQUEST_FIRMWARE_DATA)
    (CMem a (fields_bytes [(KU32, off); (KU32, size)] ++ rest))) ->
  let answer := if serves size then PLDM_SUCCESS :: slice (Z.to_nat off) (Z.to_nat size) image
                else [PLDM_FWUP_INVALID_TRANSFER_LENGTH] in
  exists resp, agent_serve lenient image o 11 = Ok resp /\ mem_ok resp /\ mem_size resp = 3 + len answer /\
    msg_at resp = Ok (Msg (packed PLDM_RESPONSE i PLDM_FWUP PLDM_REQUEST_FIRMWARE_DATA) (CMem 4099 answer)).
Proof.
  intros Hi Hoff Hs Hfit E. unfold agent_serve. rewrite E. cbn [mbind outcome_bind].
  unfold u32_ok in Hoff. set (p := CMem a _).
  assert (8 <= mem_size p) as Hp.
  { unfold p, mem_size. cbn [bytes]. rewrite length_app. cbn. lia. }
  unfold decode_request_firmware_data_req. change (11 - 3 =? 8) with true. cbn [negb]. read_members.
  assert (fld p 0 4 = off /\ fld p 4 4 = size) as [-> ->].
  { unfold p, fields_bytes. cbn [fmap list_fmap concat kind_size]. rewrite <- !app_assoc. wire.
    rewrite !Z.mod_small by (cbn; lia). done. }
  match goal with |- context [(if size <? 32 then ?x else ?y) ≫= _] =>
    assert ((if size <? 32 then x else y) = Ok (if size <? 32 then 131 else 0, Some off, Some size)) as ->
      by by cmp_case end.
  cbn [mbind outcome_bind mret outcome_ret default from_option id].
  assert (((if size <? 32 then 131 else 0) =? 0) || lenient && ((if size <? 32 then 131 else 0) =? 131) = serves size) as ->.
  { unfold serves. destruct (Z.ltb_spec size 32); destruct (Z.leb_spec 32 size); try lia; by destruct lenient. }
  set (data := if serves size then slice _ _ image else []).
  set (cc := if serves size then 0 else if size <? 32 then 131 else 0).
  assert (exists answer, cc :: data = answer /\ answer = if serves size then 0 :: slice (Z.to_nat off) (Z.to_nat size) image else [131])
    as (answer & Ea & Eans).
  { eexists. split; [reflexivity|]. unfold cc, data, serves in *.
    destruct (Z.ltb_spec size 32); destruct (Z.leb_spec 32 size); try lia; by destruct lenient. }
  rewrite <- Eans. rewrite <- Ea. set (blank := Msg _ (CMem 4099 _)).
  assert (mem_size (payload blank) = 1 + len data) as Hblank.
  { unfold blank, mem_size, len. cbn [payload bytes]. rewrite length_replicate. lia. }
  pose proof (len_nonneg data) as Hd.
  unfold encode_request_firmware_data_resp. cmp_case; [lia|].
  cbn [hdr]. change (instance_id _) with i. rewrite legacy_frame_ok by (lia || (repeat constructor)).
  rewrite payload_write_next by (cbn [length]; lia). cbn [mbind outcome_bind mret outcome_ret default from_option id].
  rewrite app_nil_l. rewrite payload_write_next by (unfold len in *; cbn [length]; lia).
  cbn [mbind outcome_bind]. eexists. split; [reflexivity|].
  change ([cc] ++ data) with (cc :: data).
  assert (wrote (payload blank) (cc :: data) = CMem 4099 (cc :: data)) as ->.
  { unfold wrote. f_equal. rewrite drop_ge, app_nil_r; [done|]. unfold mem_size, len in *. cbn [length]. lia. }
  assert (bytes_ok (cc :: data)) as Hb.
  { rewrite Ea, Eans. destruct (serves size); [constructor; [unfold byte_ok; lia|by apply Forall_slice]|].
    constructor; [unfold byte_ok; lia|constructor]. }
  assert (len data <= Z.of_nat (length image)) as Hdl.
  { unfold data, len. destruct (serves size); [rewrite length_slice; lia|cbn; lia]. }
  unfold len in *. split; [|split].
  - constructor; unfold msg_bytes, mem_size; cbn [addr bytes hdr payload length].
    + lia.
    + rewrite length_app. cbn [length hdr_bytes]. lia.
    + rewrite length_app. cbn [length hdr_bytes]. lia.
    + apply Forall_app. split; [apply hdr_bytes_parse, packed_ok; cbn; lia|]. exact Hb.
  - unfold msg_bytes, mem_size. cbn [bytes hdr payload]. rewrite length_app. cbn [length hdr_bytes]. lia.
  - rewrite msg_at_written; [done|]. apply packed_ok; cbn; lia.
Qed.

(** *** Taking the piece *)

(** The device once it has taken the bytes up to [next]. *)
Definition taken (f : pldm_fd) (t next : Z) (done : bool) : pldm_fd :=
  with_req (FdReq PLDM_FD_REQ_READY done (if done then PLDM_FWUP_TRANSFER_SUCCESS else req_result (req f))
      (req_instance_id (req f)) (req_command (req f)) (req_sent_time (req f)))
    (with_specific (SpDownload next) (with_times t (fd_t1_timeout f) (fd_t2_retry_time f) f)).

Lemma taken_ok f s t next rcv (done : bool) :
  fd_ok f s -> state f = PLDM_FD_STATE_DOWNLOAD -> Z.of_nat (length rcv) = next ->
  (if done then next = uc_comp_image_size (update_comp f) else next < uc_comp_image_size (update_comp f)) ->
  fd_ok (taken f t next done) (AppDownload (update_comp f) rcv).
Proof.
  intros [Hua Hs Hm Hi Hc Hr _] Hst Hn Hd. rewrite Hst in Hua, Hm. constructor; cbn; try done.
  - by rewrite Hst.
  - intros _. by apply Hm.
  - destruct done; [unfold byte_ok; lia|done].
  - unfold phase_ok. cbn. rewrite Hst. split; [done|]. exists next. split; [done|].
    destruct done.
    + split; [lia|]. split; [done|]. split; [done|]. by exists rcv.
    + split; [lia|]. split; [done|]. split; [done|]. split; [by left|]. by exists rcv.
Qed.

Lemma sent_requested f s t :
  fd_ok f s -> state f = PLDM_FD_STATE_DOWNLOAD -> req_state (req f) <> PLDM_FD_REQ_FAILED ->
  req_complete (req f) = false -> fd_ok (requested f t) s.
Proof.
  intros Hok Hst Hf Hc. pose proof (sent_ok f s ((req_instance_id (req f) + 1) mod 32) t Hok) as H.
  unfold expected_command in H. rewrite Hst, Hc in H. unfold requested. rewrite Hc. apply H; try done.
  - by left.
  - apply Z.mod_pos_bound. lia.
Qed.

(** A response to the device's request, on its way to the handler of its command. *)
Lemma response_dispatched f t s w1 resp p Q :
  let i := (req_instance_id (req f) + 1) mod 32 in
  fd w1 = requested f t -> fd_ok f s -> state f = PLDM_FD_STATE_DOWNLOAD ->
  app s (ops_ctx w1) -> 4 <= mem_size resp ->
  msg_at resp = Ok (Msg (packed PLDM_RESPONSE i PLDM_FWUP PLDM_REQUEST_FIRMWARE_DATA) p) ->
  (forall t2 c2, app s c2 -> clock c2 = t2 -> clock (ops_ctx w1) <= t2 ->
     wp (pldm_fd_handle_fwdata_resp ops (Msg (packed PLDM_RESPONSE i PLDM_FWUP PLDM_REQUEST_FIRMWARE_DATA) p)
           (mem_size resp - 3))
        (World (with_times t2 (fd_t1_timeout f) (fd_t2_retry_time f) (requested f t)) c2) Q) ->
  wp (pldm_fd_handle_msg ops stack (ua_address f) (Some resp) (mem_size resp) (Some out) (Some out_len)) w1
    (fun r w2 => Q (fst (fst r)) w2).
Proof.
  intros i Hf Hok Hst Happ Hrs Hmsg Hk.
  unfold pldm_fd_handle_msg. cmp_case; [lia|]. apply wp_bind. eapply wp_lift; [exact Hmsg|].
  apply wp_bind. eapply wp_lift; [reflexivity|]. cbn [default from_option id negb Z.eqb pldm_type msg_type hi_command].
  cbn -[pldm_fd_handle_resp].
  apply wp_bind. unfold pldm_fd_handle_resp. apply wp_bind, wp_get_fd. rewrite Hf.
  change (ua_address_set (requested f t)) with (ua_address_set f).
  change (ua_address (requested f t)) with (ua_address f).
  pose proof Hok as [Hua _ _ _ _ _ _]. rewrite Hst in Hua. rewrite Hua, Z.eqb_refl. cbn [negb andb].
  rewrite bool_decide_false by done. cbn [negb andb]. cmp_case; [lia|].
  change (req_state (req (requested f t))) with PLDM_FD_REQ_SENT. rewrite bool_decide_true by done. cbn [negb].
  apply wp_bind. eapply wp_lift; [exact Hmsg|].
  change (req_instance_id (req (requested f t))) with i. cbn [hdr packed instance_id]. rewrite Z.eqb_refl.
  cbn [negb]. change (req_command _) with PLDM_REQUEST_FIRMWARE_DATA. cbn [command negb Z.eqb Pos.eqb].
  apply wp_bind, (wp_now_prompt _ _ _ Happ). intros t2 c2 Happ2 Ht2 Hb2 Hr2. apply wp_bind, wp_mod_fd.
  cbn [fd ops_ctx]. rewrite Hf. change (command (packed 0 i 5 21) =? 21) with true. cbv iota.
  eapply wp_mono; [apply (Hk t2 c2); [done|done|lia]|]. intros rc w2 HQ. by apply wp_ret.
Qed.

(** The agent refused: the device gives the transfer up. *)
Lemma response_refused f t s w1 resp cc :
  let i := (req_instance_id (req f) + 1) mod 32 in
  fd w1 = requested f t -> fd_ok f s -> state f = PLDM_FD_STATE_DOWNLOAD -> req_complete (req f) = false ->
  app s (ops_ctx w1) -> mem_size resp = 4 -> byte_ok cc -> cc <> PLDM_SUCCESS -> cc <> 0x89 ->
  msg_at resp = Ok (Msg (packed PLDM_RESPONSE i PLDM_FWUP PLDM_REQUEST_FIRMWARE_DATA) (CMem 4099 [cc])) ->
  wp (pldm_fd_handle_msg ops stack (ua_address f) (Some resp) (mem_size resp) (Some out) (Some out_len)) w1
    (fun _ w2 => state (fd w2) = PLDM_FD_STATE_DOWNLOAD /\ req_state (req (fd w2)) = PLDM_FD_REQ_READY /\
       req_complete (req (fd w2)) = true /\ req_result (req (fd w2)) = PLDM_FWUP_FD_ABORTED_TRANSFER /\
       update_comp (fd w2) = update_comp f /\ max_transfer (fd w2) = max_transfer f /\ app s (ops_ctx w2)).
Proof.
  intros i Hf Hok Hst Hcomp Happ Hrs Hcc Hne Hretry Hmsg.
  eapply (response_dispatched f t s w1 resp _ (fun _ w2 => _)); [done..|lia|exact Hmsg|].
  intros t2 c2 Happ2 _ _. unfold pldm_fd_handle_fwdata_resp. apply wp_bind, wp_get_fd. cbn [fd].
  set (f1 := with_times _ _ _ _). change (state f1) with (state f). rewrite Hst.
  change (req_state (req f1)) with PLDM_FD_REQ_SENT. change (req_complete (req f1)) with (req_complete (req f)).
  rewrite Hcomp, !bool_decide_true by done. cbn [negb].
  apply wp_bind. eapply (wp_lift _ [cc]).
  { unfold payload_read. cbn [payload]. apply mem_read_ok; [lia|lia| |done]. unfold mem_size. cbn [bytes length]. lia. }
  assert (le_dec [cc] = cc) as -> by (cbn; lia).
  replace (cc =? 0x89) with false by lia. replace (cc =? PLDM_SUCCESS) with false by lia. cbn [negb].
  do 2 (apply wp_bind, wp_mod_fd). by apply wp_ret.
Qed.

Lemma response_taken f off t w1 resp :
  let comp := update_comp f in
  let size := Z.min (Z.of_nat (length image) - off) (max_transfer f) in
  let i := (req_instance_id (req f) + 1) mod 32 in
  fd w1 = requested f t -> fd_ok f (AppDownload comp (take (Z.to_nat off) image)) ->
  state f = PLDM_FD_STATE_DOWNLOAD -> req_state (req f) <> PLDM_FD_REQ_FAILED ->
  req_complete (req f) = false -> download_offset f = Ok off ->
  uc_comp_image_size comp = Z.of_nat (length image) -> 0 <= off <= Z.of_nat (length image) ->
  off < Z.of_nat (length image) \/ Z.of_nat (length image) = 0 ->
  32 <= max_transfer f < 4294967296 ->
  app (AppDownload comp (take (Z.to_nat off) image)) (ops_ctx w1) ->
  mem_size resp = 4 + size ->
  msg_at resp = Ok (Msg (packed PLDM_RESPONSE i PLDM_FWUP PLDM_REQUEST_FIRMWARE_DATA)
      (CMem 4099 (0 :: slice (Z.to_nat off) (Z.to_nat size) image))) ->
  wp (pldm_fd_handle_msg ops stack (ua_address f) (Some resp) (mem_size resp) (Some out) (Some out_len)) w1
    (fun r w2 => fst (fst r) = 0 /\ exists t2,
       fd w2 = taken (requested f t) t2 (off + size) (off + size =? Z.of_nat (length image)) /\
       app (AppDownload comp (take (Z.to_nat (off + size)) image)) (ops_ctx w2) /\
       clock (ops_ctx w2) = t2 /\ clock (ops_ctx w1) <= t2).
Proof.
  intros comp size i Hf Hok Hst Hnf Hcomp Hofs Him Hoff Hmore Hmax Happ Hrs Hmsg.
  assert (0 <= size) as Hsz by lia.
  eapply (response_dispatched f t _ w1 resp _ (fun rc w2 => rc = 0 /\ _)); [done..|lia|exact Hmsg|].
  intros t2 c2 Happ2 Hb2 Ht2. set (f1 := with_times t2 _ _ (requested f t)).
  set (data := slice (Z.to_nat off) (Z.to_nat size) image).
  assert (Z.of_nat (length data) = size) as Hdata by (unfold data; rewrite length_slice; lia).
  unfold pldm_fd_handle_fwdata_resp. apply wp_bind, wp_get_fd. cbn [fd]. change (state f1) with (state f). rewrite Hst.
  change (req_state (req f1)) with PLDM_FD_REQ_SENT. change (req_complete (req f1)) with (req_complete (req f)).
  rewrite Hcomp, !bool_decide_true by done. cbn [negb].
  apply wp_bind. eapply (wp_lift _ [0]).
  { unfold payload_read. cbn [payload]. apply mem_read_ok; [lia|lia| |done]. unfold mem_size. cbn [bytes length]. lia. }
  cbn [le_dec Z.eqb negb Z.add Z.mul]. apply wp_bind.
  assert (fd_ok f1 (AppDownload comp (take (Z.to_nat off) image))) as Hok1.
  { apply times_ok. apply sent_requested; done. }
  eapply wp_lift; [eapply (fwdata_size_ok f1 _ off Hok1); [done|exact Hofs|]|].
  { change (update_comp f1) with comp. lia. }
  change (max_transfer f1) with (max_transfer f). change (update_comp f1) with comp. rewrite Him. fold size.
  assert (u32 (size + 1) = size + 1) as -> by (apply Z.mod_small; lia).
  cmp_case; [|lia]. apply wp_bind. eapply wp_lift; [exact Hofs|]. cbv zeta. cbn [fd].
  change (update_comp f1) with comp. rewrite ?Him.
  assert (u32 (off + size) = off + size) as -> by (apply Z.mod_small; lia).
  do 2 (cmp_case; [lia|]).
  assert (ptr_at (CMem 4099 (0 :: data)) 1 = CMem 4100 data) as Hptr by done. cbn [payload]. rewrite Hptr.
  apply wp_bind. destruct app_firmware_data as (ff & Hff & Hlaw).
  assert (Z.of_nat (length (take (Z.to_nat off) image)) = off) as Hrcv by (rewrite length_take; lia).
  pose proof (prompt_data ff comp _ c2 (CMem 4100 data) size Hff Happ2) as Hp.
  specialize (Hlaw comp _ c2 (CMem 4100 data) size Happ2). rewrite Hrcv in Hlaw, Hp.
  specialize (Hlaw ltac:(unfold mem_size; cbn [bytes]; lia) ltac:(lia) ltac:(lia)). cbn [bytes] in Hlaw.
  apply (wp_callback _ _ (fun res c' => res = 0 /\ clock c' = t2 /\
    app (AppDownload comp (take (Z.to_nat (off + size)) image)) c')).
  { exists ff. split; [done|]. cbn [ops_ctx]. destruct (ff c2 off _ size comp) as [res c'].
    destruct Hp as [-> Hck]. destruct Hlaw as [_ Hlaw]. cbn [Z.eqb] in Hlaw. split; [done|]. split; [by rewrite Hck|].
    replace (take (Z.to_nat (off + size)) image) with (take (Z.to_nat off) image ++ slice 0 (Z.to_nat size) data);
      [done|]. unfold data. rewrite slice_slice by lia. rewrite Nat.add_0_r, Z2Nat.inj_add by lia.
    unfold slice. by rewrite take_take_drop. }
  intros res c' (-> & Hck & Happ'). apply wp_bind, wp_mod_fd. cbn [Z.eqb fd ops_ctx].
  apply wp_bind, wp_bind, wp_mod_fd. cbn [fd ops_ctx].
  eapply (wp_mono _ _ (fun _ w2 => w2 = World (taken (requested f t) t2 (off + size)
      (off + size =? Z.of_nat (length image))) c')).
  { destruct (off + size =? _); [apply wp_mod_fd; done|apply wp_ret]. unfold taken. cbn. by rewrite Hcomp. }
  intros [] w2 ->. apply wp_ret. cbn [fd ops_ctx]. split; [done|]. exists t2. split_and!; done || lia.
Qed.

(** *** Rounds *)

Lemma downloading_more w off : downloading w off ->
  off < Z.of_nat (length image) \/ Z.of_nat (length image) = 0.
Proof.
  intros []. destruct dl_good0 as [_ _ _ _ _ _ Hph]. unfold phase_ok in Hph.
  rewrite dl_state0, dl_complete0 in Hph. destruct Hph as (_ & off' & E & _ & _ & _ & H & _).
  rewrite dl_offset0 in E. simplify_eq. by rewrite dl_image0 in H.
Qed.

Lemma transfer_round_ok w off :
  downloading w off ->
  let size := Z.min (Z.of_nat (length image) - off) (max_transfer (fd w)) in
  wp (transfer_round ops stack lenient image out out_len) w (fun _ w' =>
    update_comp (fd w') = update_comp (fd w) /\ max_transfer (fd w') = max_transfer (fd w) /\
    if negb (serves size) then given_up (update_comp (fd w)) off w'
    else if off + size =? Z.of_nat (length image) then downloaded (update_comp (fd w)) w'
    else downloading w' (off + size)).
Proof.
  intros Hdl size. pose proof (downloading_range w off Hdl) as Hoff.
  pose proof (downloading_max w off Hdl) as Hmax. pose proof (downloading_more w off Hdl) as Hmore.
  unfold transfer_round. apply wp_bind. eapply wp_mono; [by apply progress_requests|].
  intros [[[rc o] l] to] w1 (-> & -> & -> & (o' & rest & -> & Hmsg) & t & Hf1 & Happ1 & Hts).
  destruct Hdl as [Hst Hready Hcomp Hofs Him Hok Happ Hclk (Hd & H3d & Hd3)]. cbn [default from_option id].
  fold size in Hmsg. set (i := (_ + 1) mod 32) in *.
  assert (0 <= i < 32) as Hi by (apply Z.mod_pos_bound; lia).
  destruct (agent_answers o' i off size rest _ Hi ltac:(unfold u32_ok; lia) ltac:(lia) ltac:(lia) Hmsg)
    as (resp & E & Hrok & Hrs & Hrm).
  apply wp_bind. eapply wp_lift; [exact E|]. apply wp_bind. destruct (serves size); cbn [negb].
  2: { eapply wp_mono; [apply (response_refused (fd w) t _ w1 resp PLDM_FWUP_INVALID_TRANSFER_LENGTH Hf1 Hok Hst Hcomp Happ1 Hrs); [unfold byte_ok; lia|done|done|exact Hrm]|].
       intros r w2 (? & ? & ? & ? & ? & ? & ?). by apply wp_ret. }
  rewrite len_cons in Hrs.
  assert (len (slice (Z.to_nat off) (Z.to_nat size) image) = size) as Hsl by (unfold len; rewrite length_slice; lia).
  eapply wp_mono; [apply (response_taken (fd w) off t w1 resp); (done || congruence || lia || by rewrite Hready)|].
  set (next := off + size).
  intros r w2 (_ & t2 & Hf2 & Happ2 & Hck2 & Ht2). apply wp_ret.
  assert (Z.of_nat (length (take (Z.to_nat next) image)) = next) as Hn by (rewrite length_take; unfold next; lia).
  fold size in Hf2, Happ2. fold next in Hf2, Happ2. rewrite Hf2. split; [done|]. split; [done|].
  assert (fd_ok (requested (fd w) t) (AppDownload (update_comp (fd w)) (take (Z.to_nat off) image))) as Hreq
    by (apply sent_requested; done || by rewrite Hready).
  assert (fd_ok (fd w2) (AppDownload (update_comp (fd w)) (take (Z.to_nat next) image))) as Hok2.
  { rewrite Hf2. eapply (taken_ok (requested (fd w) t)); [exact Hreq|done|done|].
    change (update_comp (requested _ _)) with (update_comp (fd w)). rewrite Him.
    destruct (Z.eqb_spec next (Z.of_nat (length image))); lia. }
  destruct (Z.eqb_spec next (Z.of_nat (length image))) as [En|En].
  - assert (take (Z.to_nat next) image = image) as Himg by (apply take_ge; lia).
    rewrite Himg in Happ2, Hok2. constructor; first [done | by rewrite Hf2].
  - rewrite Hf2 in Hok2. constructor; rewrite ?Hf2; try done.
    all: cbn [taken requested with_req with_specific with_times update_timestamp_fd_t1 fd_t1_timeout]; lia.
Qed.

(** The bytes of the last piece. *)
Definition last_piece (max : Z) : Z := (Z.of_nat (length image) - 1) mod max + 1.

(** [n] pieces from [off] on: all but the last are of the agreed size, which is no less
    than the baseline size. *)
Lemma transfer_rounds_ok n w off :
  downloading w off -> off < Z.of_nat (length image) ->
  off mod max_transfer (fd w) = 0 ->
  (Z.of_nat n - 1) * max_transfer (fd w) < Z.of_nat (length image) - off <= Z.of_nat n * max_transfer (fd w) ->
  wp (transfer_rounds ops stack lenient image out out_len n) w (fun _ w' =>
    if serves (last_piece (max_transfer (fd w))) then downloaded (update_comp (fd w)) w'
    else given_up (update_comp (fd w)) (Z.of_nat (length image) - last_piece (max_transfer (fd w))) w').
Proof.
  revert w off. induction n as [|n IH]; intros w off Hdl Hlt Hmod Hn; cbn [transfer_rounds]; [lia|].
  pose proof (downloading_max w off Hdl) as Hmax. pose proof (downloading_range w off Hdl) as Hoff.
  set (m := max_transfer (fd w)) in *. set (N := Z.of_nat (length image)) in *.
  assert (Z.min (N - off) m = N - off -> last_piece m = N - off) as Hlast.
  { intros Hmin. unfold last_piece. fold N. apply Z.mod_divide in Hmod as [k Hk]; [|lia].
    replace (N - 1) with (N - off - 1 + k * m) by lia. rewrite Z.mod_add by lia. rewrite Z.mod_small by lia. lia. }
  apply wp_bind. eapply wp_mono; [by apply transfer_round_ok|]. intros [] w' (Hc & Hm & H). fold m N in H, Hm.
  destruct (Z.le_gt_cases (N - off) m) as [Hle|Hgt].
  - rewrite (Z.min_l (N - off) m) in H, Hlast by lia. specialize (Hlast eq_refl). rewrite Hlast.
    assert (n = 0)%nat as -> by nia. apply wp_ret. destruct (serves (N - off)); cbn [negb] in H.
    + by replace (off + (N - off) =? N) with true in H by lia.
    + by replace (N - (N - off)) with off by lia.
  - rewrite (Z.min_r (N - off) m) in H by lia. unfold serves at 1 in H.
    replace (PLDM_FWUP_BASELINE_TRANSFER_SIZE <=? m) with true in H by lia. cbn [orb negb] in H.
    replace (off + m =? N) with false in H by lia. rewrite <- Hm, <- Hc.
    eapply IH; [exact H|lia| |rewrite Hm; lia]. rewrite Hm. rewrite <- Zplus_mod_idemp_l, Hmod. apply Z.mod_same. lia.
Qed.
End transfer.
