(* ===== verification/FdProps.v ===== *)
(** * What the firmware device responder guarantees

    The theorems about src/firmware_device/fd.c: safety of every run, the order of
    the application's callbacks, the download, the state machine, the timeout and the
    reported status. *)

From S2P Require Import Prelude Msgbuf Edac Utils Base Control FwUpdate Legacy UpdateAgent FirmwareDevice FdSpec FdSafe FdRun FdDemo FdTrace FdTransfer.

(** ** Safety *)

(** C2: no sequence of messages and polls makes the device fail.  Start it with
    pldm_fd_setup() on an application that keeps its side of the interface, and feed
    it any messages from any addresses, polls and timeout settings: every call
    returns without a memory fault or a failed assertion, leaves the buffers in
    place with a length within them, and a message that is answered with 0 has in
    the buffer the response that correlates with it. *)
Theorem fd_runs_safely {C} (ops : pldm_fd_ops C) app `{!FdApp ops app} raw size control f control' c es :
  pldm_fd_setup raw size (Some ops) control = (0, Some f, control') -> app AppIdle c ->
  Forall fd_event_ok es ->
  exists answers w, fd_run ops es (World f c) = Ok (answers, w) /\ Forall2 fd_answer_ok es answers.
Proof.
  intros Hs Hc Hes. pose proof (setup_good ops app raw size control f control' c Hs Hc) as Hg.
  destruct (wp_elim _ _ _ (fd_run_ok ops app es _ Hg Hes)) as (rs & w & E & _ & H). by exists rs, w.
Qed.

Lemma fd_runs_safely_witness :
  exists answers w, fd_run demo_ops demo_update (World demo_fd []) = Ok (answers, w) /\
    Forall2 fd_answer_ok demo_update answers.
Proof. apply (fd_runs_safely demo_ops demo_app _ _ _ _ _ [] demo_update demo_setup I demo_update_ok). Defined.

(** C1: the application is called in the order of an update.  Whatever messages
    arrive, the device hands firmware_data() the bytes of the component it was told
    to update, each at the offset behind the last ones it took and within the
    component's size; calls verify() only when the application has taken exactly the
    whole image; and calls apply() only when, besides, the last word of verify()
    was success. *)
Theorem fd_callbacks_in_order {C} (ops : pldm_fd_ops C) app `{!FdApp ops app} raw size control f control' c es :
  pldm_fd_setup raw size (Some (traced ops)) control = (0, Some f, control') -> app AppIdle c ->
  Forall fd_event_ok es ->
  exists answers w, fd_run (traced ops) es (World f (c, [])) = Ok (answers, w) /\
  forall pre e post, snd (ops_ctx w) = pre ++ e :: post ->
    match e with
    | EvFirmwareData off data comp _ =>
      accepted pre = Some comp /\ off = Z.of_nat (length (received pre)) /\
      off + Z.of_nat (length data) <= uc_comp_image_size comp
    | EvVerify comp _ _ =>
      accepted pre = Some comp /\ Z.of_nat (length (received pre)) = uc_comp_image_size comp
    | EvApply comp _ _ =>
      accepted pre = Some comp /\ Z.of_nat (length (received pre)) = uc_comp_image_size comp /\
      verified pre = true
    | _ => True
    end.
Proof.
  intros Hs Hc Hes. destruct (traced_run ops app raw size control f control' c es Hs Hc Hes) as (rs & w & s & E & _ & Hl).
  exists rs, w. split; [done|]. intros pre e post Hlog. rewrite Hlog, app_run_app in Hl.
  destruct (app_run AppIdle pre) as [s1|] eqn:Hpre; [|done]. cbn [mbind option_bind app_run] in Hl.
  destruct (app_step s1 e) as [s2|] eqn:Hstep; [|done]. apply app_run_log_ok in Hpre. clear Hl Hlog.
  destruct e as [| off data comp res | comp res p | comp res p | |]; cbn [app_step] in Hstep; try done.
  - destruct s1 as [|c' rcv| | | |]; try done. destruct Hpre as [Ha <-].
    destruct (bool_decide_reflect (c' = comp)) as [->|]; [|done]. cbn [andb] in Hstep.
    destruct (Z.eqb_spec off (Z.of_nat (length (received pre)))) as [->|]; [|done]. cbn [andb] in Hstep.
    destruct (Z.leb_spec (Z.of_nat (length (received pre)) + Z.of_nat (length data)) (uc_comp_image_size comp));
      [|done]. done.
  - case_decide as Hmay; [|done]. destruct s1 as [|c' rcv|c'| | |]; try done; cbn in Hmay.
    + destruct Hmay as [-> Hn], Hpre as [Ha <-]. done.
    + by subst.
  - case_decide as Hmay; [|done]. destruct s1 as [| | |c'|c'|]; try done; cbn in Hmay; by subst.
Qed.

Lemma fd_callbacks_in_order_witness :
  exists answers w, fd_run (traced demo_ops) demo_update (World demo_fd ([], [])) = Ok (answers, w) /\
  forall pre e post, snd (ops_ctx w) = pre ++ e :: post ->
    match e with
    | EvFirmwareData off data comp _ =>
      accepted pre = Some comp /\ off = Z.of_nat (length (received pre)) /\
      off + Z.of_nat (length data) <= uc_comp_image_size comp
    | EvVerify comp _ _ =>
      accepted pre = Some comp /\ Z.of_nat (length (received pre)) = uc_comp_image_size comp
    | EvApply comp _ _ =>
      accepted pre = Some comp /\ Z.of_nat (length (received pre)) = uc_comp_image_size comp /\
      verified pre = true
    | _ => True
    end.
Proof.
  apply (fd_callbacks_in_order demo_ops demo_app (Some demo_raw) sizeof_pldm_fd None demo_fd None [] demo_update);
    [reflexivity|exact I|exact demo_update_ok].
Defined.

(** C4: the device implements the protocol of component updates.  The callbacks
    that belong to it, in the order of any run, are a word the automaton of [FdSpec]
    accepts: one component at a time, data before verify() before apply(), a
    cancellation exactly for the component in progress, no activation in between. *)
Theorem fd_refines_protocol {C} (ops : pldm_fd_ops C) app `{!FdApp ops app} raw size control f control' c es :
  pldm_fd_setup raw size (Some (traced ops)) control = (0, Some f, control') -> app AppIdle c ->
  Forall fd_event_ok es ->
  exists answers w s, fd_run (traced ops) es (World f (c, [])) = Ok (answers, w) /\
    app_run AppIdle (snd (ops_ctx w)) = Some s /\ app s (fst (ops_ctx w)).
Proof.
  intros Hs Hc Hes. destruct (traced_run ops app raw size control f control' c es Hs Hc Hes)
    as (rs & w & s & E & Ha & Hl). by exists rs, w, s.
Qed.

Lemma fd_refines_protocol_witness :
  exists answers w s, fd_run (traced demo_ops) demo_update (World demo_fd ([], [])) = Ok (answers, w) /\
    app_run AppIdle (snd (ops_ctx w)) = Some s /\ demo_app s (fst (ops_ctx w)).
Proof.
  apply (fd_refines_protocol demo_ops demo_app (Some demo_raw) sizeof_pldm_fd None demo_fd None [] demo_update);
    [reflexivity|exact I|exact demo_update_ok].
Defined.

(** ** The download *)

(** C3: a download ends, and delivers the image.  Let the device be at the start of
    a download of an image of fewer than 2^32 - 1 bytes, with an application that
    takes every piece and a clock read often enough for the update timeout, and an
    update agent that decodes each request with decode_request_firmware_data_req() and
    answers it with the bytes asked for, or with the decoder's refusal.  After as many
    rounds as the image has pieces of the agreed size, every call has returned and the
    device is ready to report how the transfer ended.  If the last piece has the
    baseline transfer size of 32 bytes at least, or the agent is lenient about shorter
    requests, the application has been given exactly the image.  Otherwise the agent's
    decoder refuses the last request of the device, the application has everything but
    the last piece, and the device reports that it aborted the transfer. *)
Theorem download_completes {C} (ops : pldm_fd_ops C) app `{!FdApp ops app} clock d
    `{!FdPrompt ops app clock d} lenient image out out_len stack w :
  bytes_ok image -> 0 < Z.of_nat (length image) < 4294967295 ->
  mem_ok out -> 11 <= out_len <= mem_size out ->
  good app w -> state (fd w) = PLDM_FD_STATE_DOWNLOAD -> req_state (req (fd w)) = PLDM_FD_REQ_READY ->
  req_complete (req (fd w)) = false -> download_offset (fd w) = Ok 0 ->
  uc_comp_image_size (update_comp (fd w)) = Z.of_nat (length image) ->
  0 <= d -> 3 * d <= fd_t1_timeout (fd w) ->
  0 <= update_timestamp_fd_t1 (fd w) <= clock (ops_ctx w) ->
  clock (ops_ctx w) + 3 * d - update_timestamp_fd_t1 (fd w) <= fd_t1_timeout (fd w) ->
  let size := Z.of_nat (length image) in
  let pieces := (size + max_transfer (fd w) - 1) / max_transfer (fd w) in
  let last := (size - 1) mod max_transfer (fd w) + 1 in
  exists w', transfer_rounds ops stack lenient image out out_len (Z.to_nat pieces) w = Ok (tt, w') /\
    state (fd w') = PLDM_FD_STATE_DOWNLOAD /\ req_state (req (fd w')) = PLDM_FD_REQ_READY /\
    req_complete (req (fd w')) = true /\
    if (PLDM_FWUP_BASELINE_TRANSFER_SIZE <=? last) || lenient then
      app (AppDownload (update_comp (fd w)) image) (ops_ctx w') /\
      req_result (req (fd w')) = PLDM_FWUP_TRANSFER_SUCCESS
    else
      app (AppDownload (update_comp (fd w)) (take (Z.to_nat (size - last)) image)) (ops_ctx w') /\
      req_result (req (fd w')) = PLDM_FWUP_FD_ABORTED_TRANSFER.
Proof.
  intros Hi Hn Ho Hl (s & Hok & Happ) Hst Hr Hc Hoff Him Hd H3 Hts Hck size pieces last.
  assert (s = AppDownload (update_comp (fd w)) []) as ->.
  { destruct Hok as [_ _ _ _ _ _ Hph]. unfold phase_ok in Hph. rewrite Hst, Hc in Hph.
    destruct Hph as (_ & off & E & _ & _ & _ & _ & rcv & -> & Hlen). rewrite Hoff in E. simplify_eq.
    by destruct rcv. }
  assert (32 <= max_transfer (fd w)) as Hmax by (destruct Hok; apply fd_max; by rewrite Hst).
  assert (downloading app clock d image w 0) as Hdl by (by constructor).
  assert (1 <= pieces /\ (pieces - 1) * max_transfer (fd w) < Z.of_nat (length image) <= pieces * max_transfer (fd w)) as Hp.
  { unfold pieces, size. pose proof (Z.div_mod (Z.of_nat (length image) + max_transfer (fd w) - 1) (max_transfer (fd w)) ltac:(lia)).
    pose proof (Z.mod_pos_bound (Z.of_nat (length image) + max_transfer (fd w) - 1) (max_transfer (fd w)) ltac:(lia)).
    nia. }
  destruct (wp_elim _ _ _ (transfer_rounds_ok ops app clock d lenient image out out_len stack Hi ltac:(lia) Ho Hl
    (Z.to_nat pieces) w 0 Hdl ltac:(lia) ltac:(apply Z.mod_0_l; lia) ltac:(rewrite Z2Nat.id by lia; lia))) as ([] & w' & E & Hend).
  exists w'. split; [done|]. change (last_piece image (max_transfer (fd w))) with last in Hend.
  unfold serves in Hend. destruct (_ || lenient); by destruct Hend.
Qed.

(** The clock of the demonstration stands still at 1000. *)
#[export] Instance demo_prompt : FdPrompt demo_ops demo_app (fun _ => 1000) 0.
Proof. constructor; intros f; intros; cbn in *; simplify_eq; concrete. Qed.

(** An image of 40 bytes in pieces of 32: the last one is short. *)
Lemma download_completes_witness :
  let image := seqZ 1 40 in
  let w := demo_after demo_start in
  let ends lenient w' := transfer_rounds demo_ops demo_stack lenient image demo_out 64 2 w = Ok (tt, w') in
  max_transfer (fd w) = 32 /\
  (exists w', ends true w' /\ demo_app (AppDownload (update_comp (fd w)) image) (ops_ctx w') /\
     req_complete (req (fd w')) = true /\ req_result (req (fd w')) = PLDM_FWUP_TRANSFER_SUCCESS) /\
  (exists w', ends false w' /\ demo_app (AppDownload (update_comp (fd w)) (seqZ 1 32)) (ops_ctx w') /\
     req_complete (req (fd w')) = true /\ req_result (req (fd w')) = PLDM_FWUP_FD_ABORTED_TRANSFER).
Proof.
  intros image w ends. split; [reflexivity|].
  pose proof (fun lenient => download_completes demo_ops demo_app (fun _ => 1000) 0 lenient image demo_out 64 demo_stack w
    ltac:(apply (bool_decide_unpack _); vm_compute; exact I) ltac:(by vm_compute) ltac:(concrete) ltac:(concrete)
    ltac:(apply demo_after_good; repeat (constructor; [split; [exact demo_stack_ok|concrete]|]); constructor)
    eq_refl eq_refl eq_refl eq_refl eq_refl ltac:(lia) ltac:(by vm_compute) ltac:(by vm_compute) ltac:(by vm_compute)) as H.
  cbv zeta in H. replace (max_transfer (fd w)) with 32 in H by (vm_compute; reflexivity).
  change ((Z.of_nat (length image) - 1) mod 32 + 1) with 8 in H. change (Z.of_nat (length image)) with 40 in H.
  change (Z.to_nat ((40 + 32 - 1) / 32)) with 2%nat in H. change (take (Z.to_nat (40 - 8)) image) with (seqZ 1 32) in H.
  split.
  - destruct (H true) as (w' & E & _ & _ & Hc & Ha & Hr).
    exists w'. split; [exact E|]. split; [exact Ha|]. split; [exact Hc|exact Hr].
  - destruct (H false) as (w' & E & _ & _ & Hc & Ha & Hr).
    exists w'. split; [exact E|]. split; [exact Ha|]. split; [exact Hc|exact Hr].
Defined.

(** ** The state machine *)

(** C8: the device changes state along the edges of the update's state machine, and
    only its update agent moves it.  In any reachable state every call either stays
    or takes one of the edges of [fd_edges]; and while it is in update mode a message
    from an address other than the agent's changes nothing but the time the update
    timeout counts from, unless it is a CancelUpdate request. *)
Theorem fd_state_machine {C} (ops : pldm_fd_ops C) app `{!FdApp ops app} w e :
  good app w -> fd_event_ok e ->
  exists a w', fd_do ops e w = Ok (a, w') /\ legal_edge (state (fd w)) (state (fd w')) /\
    match e with
    | FdMsg _ address i _ _ _ =>
      state (fd w) <> PLDM_FD_STATE_IDLE -> ua_address (fd w) <> address ->
      only_timestamp (fd w) (fd w') \/ is_request i PLDM_CANCEL_UPDATE
    | _ => True
    end.
Proof.
  intros Hw He. destruct (wp_elim _ _ _ (fd_do_ok ops app w e Hw He)) as (a & w' & E & _ & _ & Hedge & Hm).
  exists a, w'. split; [done|]. split; [done|]. destruct e as [st address i il o ol| | |]; try done.
  intros Hidle Hother. assert (~ is_ua (fd w) address) as Hnot by (by intros [_ ?]).
  assert (fd w = fd w' -> only_timestamp (fd w) (fd w')) as Hsame.
  { intros <-. exists (update_timestamp_fd_t1 (fd w)). by destruct (fd w). }
  destruct Hm as [Heq|(q & Hq & Hm)]; [left; by apply Hsame|].
  destruct Hm as [Heq|[(_ & Hua & _)|(Hr & [Hex|Hua] & ts & Hm)]]; [left; by apply Hsame|done| |done].
  assert (forall f', unchanged (with_times ts (fd_t1_timeout (fd w)) (fd_t2_retry_time (fd w)) (fd w)) f' ->
    only_timestamp (fd w) f') as Hunch by (intros f' ->; by exists ts).
  destruct (Z.eq_dec (command (hdr q)) PLDM_CANCEL_UPDATE); [right; by exists q|left].
  unfold request_edge in Hm. unfold ua_check_exempt in Hex.
  repeat case_match; try done; try (by apply Hunch).
  destruct Hm as [Hm|(Hst & _)]; [by apply Hunch|]. done.
Qed.

Lemma fd_state_machine_witness :
  let w := demo_after demo_start in
  let e := FdMsg demo_stack 9 (demo_msg 1 PLDM_REQUEST_UPDATE []) 3 demo_out 64 in
  exists a w', fd_do demo_ops e w = Ok (a, w') /\ legal_edge (state (fd w)) (state (fd w')) /\
    (state (fd w) <> PLDM_FD_STATE_IDLE -> ua_address (fd w) <> 9 ->
     only_timestamp (fd w) (fd w') \/ is_request (demo_msg 1 PLDM_REQUEST_UPDATE []) PLDM_CANCEL_UPDATE).
Proof.
  intros w e. apply (fd_state_machine demo_ops demo_app w e).
  - apply demo_after_good. repeat (constructor; [split; [exact demo_stack_ok|concrete]|]). constructor.
  - split; [exact demo_stack_ok|concrete].
Defined.

(** ** Polling *)

(** C10: what a poll does, and the update timeout.  In any reachable state
    pldm_fd_progress() returns; if it leaves a length, that is the device's next
    request, in the buffer, marked as sent and addressed to the update agent;
    otherwise the length is zero.  The poll first does the device's own part in its
    state, which keeps the state, the agent and the time the agent was last heard, and
    leads to [w1]; then it reads the clock, which says [t] in the context of [w1].  The
    update is abandoned if in [w1] the timeout applies and more than the configured
    time lies between the agent's last message and [t]: the device is then in IDLE, with
    the reason of the state it left.  Otherwise the poll leaves the device as in [w1]. *)
Theorem fd_poll {C} (ops : pldm_fd_ops C) app `{!FdApp ops app} w o out_len address :
  good app w -> mem_ok o -> 3 <= out_len <= mem_size o ->
  exists rc out' len' address' w' msg r1 w1 t,
    pldm_fd_progress ops (Some o) (Some out_len) address w = Ok ((rc, out', len', address'), w') /\
    (len' = Some 0 \/
     rc = 0 /\ (exists l, len' = Some l /\ 4 <= l <= out_len) /\ address' = ua_address (fd w') /\
     component_active (fd w) /\ req_state (req (fd w')) = PLDM_FD_REQ_SENT /\
     holds_request out' (fd w')) /\
    msg_at o = Ok msg /\ device_turn ops msg (out_len - 3) w = Ok (r1, w1) /\
    keeps_phase (fd w) (fd w1) /\ (timeout_applies (fd w) = true -> timeout_applies (fd w1) = true) /\
    clock_at ops (ops_ctx w1) = Some t /\
    if timeout_applies (fd w1) && (fd_t1_timeout (fd w) <? u64 (t - update_timestamp_fd_t1 (fd w)))
    then timed_out (fd w) (fd w') else fd w' = fd w1.
Proof.
  intros Hw Ho Hl. destruct (wp_elim _ _ _ (progress_ok ops app w o out_len address Hw Ho Hl))
    as ([[[rc out'] len'] a'] & w' & E & _ & _ & _ & Hlen & (msg & r1 & w1 & t & Em & Et & Hk & Ha & Hto & Hts & Hc & Htime) & _).
  unfold overdue in Htime. rewrite Hto, Hts in Htime.
  exists rc, out', len', a', w', msg, r1, w1, t. split; [done|]. split.
  - destruct Hlen as [->|(-> & Hl' & -> & Hact & _ & Hs & Hh)]; [by left|right]. done.
  - split_and!; try done. by destruct w.
Qed.

(** The clock of the demonstration says 1000; the agent was last heard at 0. *)
Lemma fd_poll_witness :
  let w t1 := World (with_times 0 t1 1000 (fd (demo_after demo_start))) [] in
  (forall t1, state (fd (w t1)) = PLDM_FD_STATE_DOWNLOAD) /\
  (exists r w', pldm_fd_progress demo_ops (Some demo_out) (Some 64) 0 (w 100) = Ok (r, w') /\
     timed_out (fd (w 100)) (fd w')) /\
  (exists r w', pldm_fd_progress demo_ops (Some demo_out) (Some 64) 0 (w 1000) = Ok (r, w') /\
     state (fd w') = PLDM_FD_STATE_DOWNLOAD).
Proof.
  intros w. assert (forall t1, good demo_app (w t1)) as Hg.
  { intros t1. destruct (demo_after_good demo_start) as (s & Hok & Happ).
    { repeat (constructor; [split; [exact demo_stack_ok|concrete]|]). constructor. }
    exists s. split; [by apply times_ok|]. exact Happ. }
  split; [reflexivity|]. split.
  - destruct (fd_poll demo_ops demo_app (w 100) demo_out 64 0 (Hg 100) ltac:(concrete) ltac:(concrete))
      as (rc & o & l & a & w' & msg & r1 & w1 & t & E & _ & Em & Et & _ & _ & Ec & Ht).
    exists (rc, o, l, a), w'. split; [exact E|]. vm_compute in Em. injection Em as <-.
    vm_compute in Et. injection Et as <- <-. vm_compute in Ec. injection Ec as <-. exact Ht.
  - destruct (fd_poll demo_ops demo_app (w 1000) demo_out 64 0 (Hg 1000) ltac:(concrete) ltac:(concrete))
      as (rc & o & l & a & w' & msg & r1 & w1 & t & E & _ & Em & Et & _ & _ & Ec & Ht).
    exists (rc, o, l, a), w'. split; [exact E|]. vm_compute in Em. injection Em as <-.
    vm_compute in Et. injection Et as <- <-. vm_compute in Ec. injection Ec as <-.
    assert (fd w' = _) as -> by exact Ht. reflexivity.
Defined.

(** ** The status *)

(** The states in which nothing is going on. *)
Definition resting (s : pldm_firmware_device_states) : bool :=
  match s with
  | PLDM_FD_STATE_IDLE | PLDM_FD_STATE_LEARN_COMPONENTS | PLDM_FD_STATE_READY_XFER => true
  | _ => false
  end.

(** The progress the device reports. *)
Definition progress_reported (f : pldm_fd) : Z :=
  match state f, specific f with
  | PLDM_FD_STATE_DOWNLOAD, sp =>
    let size := uc_comp_image_size (update_comp f) in
    if 0 <? size then
      match sp with SpDownload off => off / ((size + 99) / 100) | _ => 0 end
    else PROGRESS_PERCENT_NOT_SUPPORTED
  | PLDM_FD_STATE_VERIFY, SpVerify p | PLDM_FD_STATE_APPLY, SpApply p => p
  | _, _ => PROGRESS_PERCENT_NOT_SUPPORTED
  end.

Lemma hundredth size : 0 < size ->
  size / 100 + (if size mod 100 =? 0 then 0 else 1) = (size + 99) / 100 /\
  0 < (size + 99) / 100 /\ size <= 100 * ((size + 99) / 100).
Proof.
  intros Hs. pose proof (Z.div_mod size 100 ltac:(lia)). pose proof (Z.mod_pos_bound size 100 ltac:(lia)).
  pose proof (Z.div_mod (size + 99) 100 ltac:(lia)). pose proof (Z.mod_pos_bound (size + 99) 100 ltac:(lia)).
  destruct (Z.eqb_spec (size mod 100) 0); lia.
Qed.

(** What GetStatus reads from a state that satisfies the invariant. *)
Lemma status_read f s :
  fd_ok f s ->
  exists progress,
    match state f with
    | PLDM_FD_STATE_IDLE => Ok (PROGRESS_PERCENT_NOT_SUPPORTED, reason f, 0)
    | PLDM_FD_STATE_DOWNLOAD =>
      let size := uc_comp_image_size (update_comp f) in
      if 0 <? size then
        let one_percent := size / 100 + (if size mod 100 =? 0 then 0 else 1) in
        match specific f with
        | SpCleared => Ok (u8 (0 / one_percent), 0, update_flags f)
        | SpDownload offset => Ok (u8 (offset / one_percent), 0, update_flags f)
        | _ => Fault FMemory
        end
      else Ok (PROGRESS_PERCENT_NOT_SUPPORTED, 0, update_flags f)
    | PLDM_FD_STATE_VERIFY =>
      match specific f with
      | SpCleared => Ok (0, 0, update_flags f) | SpVerify p => Ok (p, 0, update_flags f)
      | _ => Fault FMemory
      end
    | PLDM_FD_STATE_APPLY =>
      match specific f with
      | SpCleared => Ok (0, 0, update_flags f) | SpApply p => Ok (p, 0, update_flags f)
      | _ => Fault FMemory
      end
    | _ => Ok (PROGRESS_PERCENT_NOT_SUPPORTED, 0, 0)
    end = Ok (progress, if bool_decide (state f = PLDM_FD_STATE_IDLE) then reason f else 0,
              if resting (state f) then 0 else update_flags f) /\
    progress = progress_reported f /\ byte_ok progress /\
    (state f = PLDM_FD_STATE_DOWNLOAD -> 0 < uc_comp_image_size (update_comp f) -> progress <= 100).
Proof.
  intros [_ _ _ _ _ _ Hph]. unfold phase_ok, progress_reported in *. unfold byte_ok.
  destruct (state f); try done; try (eexists; split; [reflexivity|]; split_and!; done || lia).
  - destruct Hph as (_ & off & Hoff & Hr & _). cbv zeta.
    destruct (Z.ltb_spec 0 (uc_comp_image_size (update_comp f))) as [Hs|Hs];
      [|eexists; split; [reflexivity|]; split_and!; done || lia].
    destruct (hundredth _ Hs) as (E & Hpos & Hle). rewrite E.
    assert (forall o, 0 <= o <= uc_comp_image_size (update_comp f) ->
      0 <= o / ((uc_comp_image_size (update_comp f) + 99) / 100) <= 100) as Hb.
    { intros o Ho. split; [apply Z.div_pos; lia|]. apply Z.div_le_upper_bound; lia. }
    unfold download_offset in Hoff. destruct (specific f) as [|o|p|p]; try done; simplify_eq.
    + eexists. split; [reflexivity|]. rewrite Z.div_0_l by lia. cbn. split_and!; done || lia.
    + specialize (Hb off Hr). eexists. split; [reflexivity|]. unfold u8. rewrite Z.mod_small by lia.
      split_and!; done || lia.
  - destruct Hph as (_ & _ & p & -> & Hp & _). eexists. split; [reflexivity|]. split_and!; done || apply Hp.
  - destruct Hph as (_ & _ & p & -> & Hp & _). eexists. split; [reflexivity|]. split_and!; done || apply Hp.
Qed.

(** The states whose status the agent's decoder takes: a resting device has no
    request on its books, and a failed one failed with a code that is an auxiliary
    status. *)
Definition status_readable (f : pldm_fd) : Prop :=
  (resting (state f) = true -> req_state (req f) = PLDM_FD_REQ_UNUSED) /\
  (req_state (req f) = PLDM_FD_REQ_FAILED -> is_aux_state_status_valid (req_result (req f)) = true) /\
  progress_reported f <= PLDM_FWUP_MAX_PROGRESS_PERCENT.

(** What GetStatus answers in the state [f]. *)
Definition status_of (f : pldm_fd) : pldm_get_status_resp :=
  StatusResp PLDM_SUCCESS (fd_state_value (state f)) (fd_state_value (prev_state f))
    (fst (pldm_fd_get_aux_state f)) (snd (pldm_fd_get_aux_state f)) (progress_reported f)
    (if bool_decide (state f = PLDM_FD_STATE_IDLE) then reason f else 0)
    (if resting (state f) then 0 else update_flags f).

Lemma status_of_valid f :
  0 <= reason f <= 7 -> status_valid (status_of f) = true <-> status_readable f.
Proof.
  intros Hr. unfold status_valid, status_of, status_readable.
  cbn [st_current_state st_previous_state st_aux_state st_aux_state_status st_progress_percent st_reason_code].
  assert (forall s, is_state_valid (fd_state_value s) = true) as Hs by by intros [].
  assert (forall b : bool, is_reason_code_valid (if b then reason f else 0) = true) as Hb.
  { intros []; [|done]. assert (reason f = 0 \/ reason f = 1 \/ reason f = 2 \/ reason f = 3 \/ reason f = 4 \/
      reason f = 5 \/ reason f = 6 \/ reason f = 7) as H by lia.
    repeat (destruct H as [->|H]; [done|]). by rewrite H. }
  assert (is_aux_state_valid (fst (pldm_fd_get_aux_state f)) = true) as Ha.
  { unfold pldm_fd_get_aux_state. destruct (req_state (req f)); try done. by destruct (req_complete _). }
  rewrite !Hs, Ha, Hb. cbn [andb]. rewrite andb_true_r, !andb_true_iff, negb_true_iff, Z.ltb_ge.
  unfold pldm_fd_get_aux_state. destruct (req_state (req f)) eqn:Ereq; cbn [fst snd].
  - change (is_aux_state_status_valid 0) with true. destruct (state f); cbn; intuition congruence.
  - replace (snd _) with 0 by by destruct (req_complete (req f)).
    change (is_aux_state_status_valid 0) with true.
    destruct (state f), (req_complete (req f)); cbn; intuition congruence.
  - change (is_aux_state_status_valid 0) with true. destruct (state f); cbn; intuition congruence.
  - destruct (state f); cbn; intuition congruence.
Qed.

(** the reported status is the device's.  In any reachable state GetStatus
    answers with the state, the one before it, the auxiliary state, the reason and
    the progress, which during a download is the number of whole hundredths (rounded
    up) received, at most 100; nothing changes.  The update agent's decoder returns
    exactly that, if the device is not resting with a request still on its books and
    did not fail with a code that is no auxiliary status; otherwise the decoder
    calls the response invalid data. *)
Theorem get_status_reports {C} (ops : pldm_fd_ops C) app `{!FdApp ops app} w h resp len st0 :
  good app w -> hi_command h = PLDM_GET_STATUS -> 0 <= instance h <= 31 ->
  mem_place (payload resp) -> 11 <= len <= mem_size (payload resp) ->
  0 <= reason (fd w) <= 7 -> u32_ok (update_flags (fd w)) ->
  exists resp',
    pldm_fd_get_status h 0 resp len w = Ok ((0, resp', 11), w) /\
    (decode_get_status_resp (Some resp') 11 (Some st0) = Ok (PLDM_SUCCESS, Some (status_of (fd w)))
       <-> status_readable (fd w)) /\
    (state (fd w) = PLDM_FD_STATE_DOWNLOAD -> 0 < uc_comp_image_size (update_comp (fd w)) ->
       0 <= progress_reported (fd w) <= 100).
Proof.
  intros (s & Hok & _) Hcmd Hi Hm Hl Hr Hf.
  destruct (status_read (fd w) s Hok) as (progress & E & -> & Hp & H100).
  pose proof Hok as [_ _ _ _ _ Hres _].
  assert (forall x, byte_ok (fd_state_value x)) as Hsv by (intros []; unfold byte_ok; cbn; lia).
  destruct (get_status_roundtrip (instance h) resp len (status_of (fd w)) st0) as (m & Em & _ & _ & Hd);
    try done; try apply Hsv.
  - unfold status_of, pldm_fd_get_aux_state, byte_ok. cbn. repeat case_match; cbn; lia.
  - unfold status_of, pldm_fd_get_aux_state, byte_ok. cbn. repeat case_match; cbn; unfold byte_ok in Hres; lia.
  - unfold status_of, byte_ok. cbn. case_bool_decide; lia.
  - unfold status_of, u32_ok in *. cbn. destruct (resting _); lia.
  - exists m. split; [|split].
    + assert (wp (pldm_fd_get_status h 0 resp len) w (fun r w' => r = (0, m, 11) /\ w' = w)) as Hrun.
      { unfold pldm_fd_get_status. cbn [negb Z.eqb]. apply wp_bind, wp_get_fd.
        destruct (pldm_fd_get_aux_state (fd w)) as [aux aux_status] eqn:Eaux.
        apply wp_bind. eapply wp_lift; [exact E|]. apply wp_bind. eapply wp_lift.
        { unfold status_of in Em. rewrite Eaux in Em. exact Em. }
        by apply wp_ret. }
      destruct (wp_elim _ _ _ Hrun) as (r & w' & -> & -> & ->). done.
    + rewrite Hd, <- status_of_valid by done. destruct (status_valid _); [done|]. split; [|done]. intros [=].
    + intros Hst Hs. specialize (H100 Hst Hs). unfold byte_ok in Hp. lia.
Qed.

(** The device with the first of two pieces. *)
Definition demo_halfway : list fd_event :=
  demo_start ++ [demo_poll; demo_send (demo_resp 1 PLDM_REQUEST_FIRMWARE_DATA (0 :: replicate 32 9))].

Example demo_halfway_status : status_of (fd (demo_after demo_halfway)) = StatusResp 0 3 2 0 0 32 0 0.
Proof. vm_compute. reflexivity. Qed.

Lemma get_status_reports_witness :
  let w := demo_after demo_halfway in
  let h := HeaderInfo PLDM_REQUEST 4 PLDM_FWUP PLDM_GET_STATUS 0 in
  let resp := Msg (packed 0 0 0 0) (CMem 64 (replicate 12 0)) in
  let st0 := StatusResp 9 9 9 9 9 9 9 9 in
  status_of (fd w) = StatusResp 0 3 2 0 0 32 0 0 /\
  exists resp',
    pldm_fd_get_status h 0 resp 12 w = Ok ((0, resp', 11), w) /\
    (decode_get_status_resp (Some resp') 11 (Some st0) = Ok (PLDM_SUCCESS, Some (status_of (fd w)))
       <-> status_readable (fd w)) /\
    (state (fd w) = PLDM_FD_STATE_DOWNLOAD -> 0 < uc_comp_image_size (update_comp (fd w)) ->
       0 <= progress_reported (fd w) <= 100).
Proof.
  intros w h resp st0. split; [exact demo_halfway_status|].
  apply (get_status_reports demo_ops demo_app w h resp 12 st0).
  - apply demo_after_good.
    repeat (constructor; [first [split; [exact demo_stack_ok|concrete] | concrete]|]). constructor.
  - reflexivity.
  - concrete.
  - concrete.
  - concrete.
  - vm_compute. done.
  - vm_compute. done.
Defined.

(** The component is cancelled while a request is outstanding, and the agent asks for
    the status. *)
Definition demo_cancelled : list fd_event :=
  demo_start ++ [demo_poll; demo_send (demo_msg 2 PLDM_CANCEL_UPDATE_COMPONENT [])].

(** a status the agent cannot read.  Cancelling a component while the device
    waits for firmware data leaves that request on its books: the device is in
    READY XFER with the auxiliary state of an operation in progress, and the
    library's own decoder rejects its GetStatus response. *)
Theorem status_after_cancel_unreadable :
  let w := demo_after demo_cancelled in
  state (fd w) = PLDM_FD_STATE_READY_XFER /\ req_state (req (fd w)) = PLDM_FD_REQ_SENT /\
  exists resp',
    pldm_fd_get_status (HeaderInfo PLDM_REQUEST 4 PLDM_FWUP PLDM_GET_STATUS 0) 0
      (Msg (packed 0 0 0 0) (CMem 64 (replicate 12 0))) 12 w = Ok ((0, resp', 11), w) /\
    decode_get_status_resp (Some resp') 11 (Some (StatusResp 9 9 9 9 9 9 9 9))
    = Ok (PLDM_ERROR_INVALID_DATA, Some (StatusResp 0 9 9 9 9 9 9 9)).
Proof.
  intros w. split; [vm_compute; reflexivity|]. split; [vm_compute; reflexivity|].
  eexists. split; vm_compute; reflexivity.
Qed.

(** ** Setting up *)

(** Every callback pldm_fd_setup() looks at is there. *)
Definition ops_complete {C} (o : pldm_fd_ops C) : bool :=
  negb (missing (device_identifiers o) || missing (components o) || missing (imageset_versions o)
        || missing (update_component o) || missing (transfer_size o) || missing (firmware_data o)
        || missing (verify o) || missing (activate o) || missing (cancel_update_component o)
        || missing (now o)).

(** setting a device up.  pldm_fd_setup() succeeds exactly if the storage is
    large enough, the callbacks it checks are there and the control has a place for
    the firmware update type.  The device then is in IDLE, without an update agent
    and with the default times, and the control reports the type with the device's
    versions and commands, its other types untouched; the version list ends with the
    CRC-32 of the versions before it.  A failure leaves the control as it was. *)
Theorem fd_setup_registers {C} (ops : pldm_fd_ops C) raw size ctl :
  control_ok ctl ->
  (let '(rc, f, ctl') := pldm_fd_setup (Some raw) size (Some ops) (Some ctl) in
   (rc = 0 <-> sizeof_pldm_fd <= size /\ ops_complete ops = true /\
      ~ (lookup_type (types ctl) PLDM_FWUP = None /\ Forall (fun v => tv_versions v <> None) (types ctl))) /\
   (rc = 0 -> exists c', ctl' = Some c' /\ control_ok c' /\
      f = Some (with_times 0 DEFAULT_FD_T1_TIMEOUT DEFAULT_FD_T2_RETRY_TIME fd_zero) /\
      forall t, lookup_type (types c') t =
        if t =? PLDM_FWUP
        then Some (TypeVersions (Some PLDM_FD_VERSIONS) PLDM_FD_VERSIONS_COUNT (Some PLDM_FD_COMMANDS) PLDM_FWUP)
        else lookup_type (types ctl) t) /\
   (rc <> 0 -> ctl' = Some ctl /\ (rc = - EINVAL \/ rc = - ENOMEM))) /\
  pldm_edac_crc32 (Some PLDM_FD_VERSIONS) 4 = Ok (fld PLDM_FD_VERSIONS 4 4).
Proof.
  intros Hc. split; [|vm_compute; reflexivity]. unfold pldm_fd_setup. fold (ops_complete ops).
  rewrite <- (negb_involutive (_ || missing (now ops))). fold (ops_complete ops).
  destruct (ops_complete ops) eqn:Eo; cbn [negb].
  2: { split_and!; try done; [split; [lia|intros (_ & ? & _); done]|split; [done|by left]]. }
  cmp_case. { split_and!; try done; [lia|split; [done|by left]]. }
  pose proof (add_type_ok ctl PLDM_FWUP PLDM_FD_VERSIONS 2 (Some PLDM_FD_COMMANDS) Hc) as Hadd.
  destruct (pldm_control_add_type ctl PLDM_FWUP (Some PLDM_FD_VERSIONS) 2 (Some PLDM_FD_COMMANDS)) as [rc ctl'].
  destruct Hadd as (Hok & H0 & Hn0 & Hinval & Hnomem & Hrc); [done|done|vm_compute; done|vm_compute; done|].
  destruct (Z.eqb_spec rc 0) as [->|Hne].
  - split; [|split; [|done]].
    + split; [|done]. intros _. split; [done|]. split; [done|]. intros [? ?]. assert (0 = - ENOMEM) by (by apply Hnomem). done.
    + intros _. exists ctl'. split; [done|]. split; [done|]. split; [done|]. by apply H0.
  - split; [|split; [done|]].
    + split; [done|]. intros (_ & _ & Hplace). exfalso. destruct Hrc as [?|[->| ->]]; [done| |].
      * assert (2 < 2) by (by apply Hinval). lia.
      * apply Hplace. by apply Hnomem.
    + intros _. split; [by rewrite Hn0|]. by destruct Hrc as [?|?].
Qed.

Lemma fd_setup_registers_witness :
  let ctl := snd (pldm_control_setup (Control []) sizeof_pldm_control) in
  control_ok ctl /\
  (let '(rc, f, ctl') := pldm_fd_setup (Some demo_raw) sizeof_pldm_fd (Some demo_ops) (Some ctl) in
   (rc = 0 <-> sizeof_pldm_fd <= sizeof_pldm_fd /\ ops_complete demo_ops = true /\
      ~ (lookup_type (types ctl) PLDM_FWUP = None /\ Forall (fun v => tv_versions v <> None) (types ctl))) /\
   (rc = 0 -> exists c', ctl' = Some c' /\ control_ok c' /\
      f = Some (with_times 0 DEFAULT_FD_T1_TIMEOUT DEFAULT_FD_T2_RETRY_TIME fd_zero) /\
      forall t, lookup_type (types c') t =
        if t =? PLDM_FWUP
        then Some (TypeVersions (Some PLDM_FD_VERSIONS) PLDM_FD_VERSIONS_COUNT (Some PLDM_FD_COMMANDS) PLDM_FWUP)
        else lookup_type (types ctl) t) /\
   (rc <> 0 -> ctl' = Some ctl /\ (rc = - EINVAL \/ rc = - ENOMEM))) /\
  pldm_edac_crc32 (Some PLDM_FD_VERSIONS) 4 = Ok (fld PLDM_FD_VERSIONS 4 4).
Proof.
  intros ctl. split; [exact control_initial_ok|].
  apply (fd_setup_registers demo_ops demo_raw sizeof_pldm_fd ctl control_initial_ok).
Defined.
