(* ===== verification/PdrHeap.v ===== *)
(** * The heap of src/dsp/pdr.c

    The C structures pdr.c allocates, and the part of the C memory that holds them:
    a PDR repository is a linked list of malloc'ed records with a malloc'ed copy of
    each record's data, an entity association tree is malloc'ed nodes linked by
    first child and next sibling.  Pointers are block names, never reused; a load
    or store through NULL or a freed block, and a second free, are faults. *)

From stdpp Require Import gmap.
From S2P Require Import Prelude Msgbuf.

#[global] Open Scope Z_scope.

(** A pointer to the start of a block, or NULL. *)
Abbreviation hptr := (option positive) (only parsing).

(** ** Structures *)

(** typedef struct pldm_pdr_record: one record of a repository. *)
Record pldm_pdr_record := PdrRecord {
  record_handle : Z; rec_size : Z; rec_data : hptr; rec_next : hptr;
  is_remote : bool; terminus_handle : Z
}.

(** typedef struct pldm_pdr: the repository. *)
Record pldm_pdr := Pdr {
  record_count : Z; repo_size : Z; repo_first : hptr; repo_last : hptr
}.

(** struct pldm_entity (include/libpldm/pdr.h). *)
Record pldm_entity := Entity {
  entity_type : Z; entity_instance_num : Z; entity_container_id : Z
}.

(** typedef struct pldm_entity_node. *)
Record pldm_entity_node := Node {
  node_entity : pldm_entity; node_parent : pldm_entity; remote_container_id : Z;
  first_child : hptr; next_sibling : hptr; association_type : Z
}.

(** typedef struct pldm_entity_association_tree. *)
Record pldm_entity_association_tree := Tree { tree_root : hptr; last_used_container_id : Z }.

#[export] Instance pldm_entity_eq_dec : EqDecision pldm_entity.
Proof. solve_decision. Defined.

(** sizeof of each of them on an LP64 target. *)
Abbreviation SIZEOF_PDR_RECORD := 32 (only parsing).
Abbreviation SIZEOF_PDR := 24 (only parsing).
Abbreviation SIZEOF_ENTITY := 6 (only parsing).
Abbreviation SIZEOF_ENTITY_NODE := 40 (only parsing).
Abbreviation SIZEOF_ENTITY_TREE := 16 (only parsing).

(** ** malloc

    What the C library decides: whether the [n]-th request of a run succeeds, at
    which address the block is, and what it holds.  The standard promises that the
    block fits the address space. *)

Class Allocator := {
  malloc_addr : nat -> Z -> option Z;
  malloc_junk : nat -> Z -> list Z;
  malloc_fits : forall n size a, malloc_addr n size = Some a -> 0 <= a /\ a + size <= UINTPTR_MAX;
  malloc_length : forall n size, 0 <= size -> Z.of_nat (length (malloc_junk n size)) = size;
  malloc_bytes : forall n size, bytes_ok (malloc_junk n size)
}.

(** An allocator with memory left, and one that runs out after [k] requests. *)
Definition zeros (size : Z) : list Z := replicate (Z.to_nat size) 0.

Lemma zeros_length size : 0 <= size -> Z.of_nat (length (zeros size)) = size.
Proof. intros. unfold zeros. rewrite length_replicate. lia. Qed.

Lemma zeros_ok size : bytes_ok (zeros size).
Proof. apply Forall_replicate. unfold byte_ok. lia. Qed.

Program Definition bounded_allocator (k : nat) : Allocator := {|
  malloc_addr n size := if (n <? k)%nat && (size <? 4294967296) then Some 4096 else None;
  malloc_junk _ size := zeros size
|}.
Next Obligation. intros k n size a. cbn. case_match eqn:E; [|done]. intros [= <-]. lia. Qed.
Next Obligation. intros. by apply zeros_length. Qed.
Next Obligation. intros. apply zeros_ok. Qed.

(** ** The heap *)

(** [allocs] counts the requests so far; block [n] is the one request [n] made. *)
Record heap := Heap {
  allocs : nat;
  h_bufs : gmap positive cmem;
  h_recs : gmap positive pldm_pdr_record;
  h_repos : gmap positive pldm_pdr;
  h_nodes : gmap positive pldm_entity_node;
  h_trees : gmap positive pldm_entity_association_tree
}.

Definition empty_heap : heap := Heap 0 ∅ ∅ ∅ ∅ ∅.

Abbreviation H := (stM heap) (only parsing).

(** The blocks of one type. *)
Class Region (T : Type) := {
  region : heap -> gmap positive T;
  set_region : gmap positive T -> heap -> heap
}.

#[export] Instance buf_region : Region cmem := {|
  region := h_bufs;
  set_region m h := Heap (allocs h) m (h_recs h) (h_repos h) (h_nodes h) (h_trees h) |}.
#[export] Instance record_region : Region pldm_pdr_record := {|
  region := h_recs;
  set_region m h := Heap (allocs h) (h_bufs h) m (h_repos h) (h_nodes h) (h_trees h) |}.
#[export] Instance repo_region : Region pldm_pdr := {|
  region := h_repos;
  set_region m h := Heap (allocs h) (h_bufs h) (h_recs h) m (h_nodes h) (h_trees h) |}.
#[export] Instance node_region : Region pldm_entity_node := {|
  region := h_nodes;
  set_region m h := Heap (allocs h) (h_bufs h) (h_recs h) (h_repos h) m (h_trees h) |}.
#[export] Instance tree_region : Region pldm_entity_association_tree := {|
  region := h_trees;
  set_region m h := Heap (allocs h) (h_bufs h) (h_recs h) (h_repos h) (h_nodes h) m |}.

Definition load {T} `{Region T} (p : hptr) : H T := fun h =>
  match p with
  | None => Fault FMemory
  | Some a => match region h !! a with Some v => Ok (v, h) | None => Fault FMemory end
  end.

Definition store {T} `{Region T} (p : hptr) (v : T) : H unit := fun h =>
  match p with
  | None => Fault FMemory
  | Some a =>
      match region h !! a with
      | Some _ => Ok (tt, set_region (<[a := v]> (region h)) h)
      | None => Fault FMemory
      end
  end.

(** Assign to a member. *)
Definition update {T} `{Region T} (p : hptr) (f : T -> T) : H unit :=
  v ← load p; store p (f v).

(** free(3): NULL is allowed. *)
Definition free (T : Type) `{Region T} (p : hptr) : H unit := fun h =>
  match p with
  | None => Ok (tt, h)
  | Some a =>
      match region h !! a with
      | Some _ => Ok (tt, set_region (delete a (region h)) h)
      | None => Fault FMemory
      end
  end.

(** The name of the block the next successful request returns. *)
Definition next_block (h : heap) : positive := Pos.of_succ_nat (allocs h).

Definition tick (h : heap) : heap :=
  Heap (S (allocs h)) (h_bufs h) (h_recs h) (h_repos h) (h_nodes h) (h_trees h).

(** malloc(size); [init] views the address and the bytes as an object of the type. *)
Definition malloc {T} `{Allocator} `{Region T} (size : Z) (init : Z -> list Z -> T) : H hptr := fun h =>
  match malloc_addr (allocs h) size with
  | None => Ok (None, tick h)
  | Some a =>
      Ok (Some (next_block h),
          set_region (<[next_block h := init a (malloc_junk (allocs h) size)]> (region h)) (tick h))
  end.

(** calloc(n, size): the same with zeroed memory. *)
Definition calloc {T} `{Allocator} `{Region T} (size : Z) (init : Z -> list Z -> T) : H hptr :=
  malloc size (fun a _ => init a (zeros size)).

(** malloc of an object that becomes the caller's: whether it succeeded. *)
Definition malloc_given `{Allocator} (size : Z) : H bool := fun h =>
  Ok (match malloc_addr (allocs h) size with Some _ => true | None => false end, tick h).

(** A record as malloc leaves it: its numeric members are whatever bytes were there. *)
Definition raw_record (_ : Z) (junk : list Z) : pldm_pdr_record :=
  PdrRecord (le_dec (slice 0 4 junk)) (le_dec (slice 4 4 junk)) None None
            (negb (nth 24 junk 0 =? 0)) (le_dec (slice 26 2 junk)).

(** ** Setters the source writes as member assignments *)

Definition set_rec_next (n : hptr) (r : pldm_pdr_record) : pldm_pdr_record :=
  PdrRecord (record_handle r) (rec_size r) (rec_data r) n (is_remote r) (terminus_handle r).
Definition set_rec_handle (v : Z) (r : pldm_pdr_record) : pldm_pdr_record :=
  PdrRecord v (rec_size r) (rec_data r) (rec_next r) (is_remote r) (terminus_handle r).

Definition set_first_child (p : hptr) (n : pldm_entity_node) : pldm_entity_node :=
  Node (node_entity n) (node_parent n) (remote_container_id n) p (next_sibling n) (association_type n).
Definition set_next_sibling (p : hptr) (n : pldm_entity_node) : pldm_entity_node :=
  Node (node_entity n) (node_parent n) (remote_container_id n) (first_child n) p (association_type n).

(** ** Laws of the operations *)

Class RegionOk (T : Type) `{Region T} : Prop := {
  region_set : forall m h, region (set_region m h) = m;
  region_set_set : forall m m' h, set_region m (set_region m' h) = set_region m h;
  region_tick : forall h, region (tick h) = region h
}.

#[export] Instance buf_region_ok : RegionOk cmem. Proof. done. Qed.
#[export] Instance record_region_ok : RegionOk pldm_pdr_record. Proof. done. Qed.
#[export] Instance repo_region_ok : RegionOk pldm_pdr. Proof. done. Qed.
#[export] Instance node_region_ok : RegionOk pldm_entity_node. Proof. done. Qed.
#[export] Instance tree_region_ok : RegionOk pldm_entity_association_tree. Proof. done. Qed.
