(* ===== verification/Pdr.v ===== *)
(** * The PDR repository (src/dsp/pdr.c)

    Every operation of pdr.c on a repository of records, over the heap of
    PdrHeap.v: adding, finding, walking, deleting and renumbering.  The entity
    association PDRs, which pdr.c builds and edits through the same list, are in
    PdrAssociation.v. *)

From stdpp Require Import gmap.
From S2P Require Import Prelude Msgbuf PdrHeap.

(** ** Constants (include/libpldm/platform.h) *)

Abbreviation PLDM_TERMINUS_LOCATOR_PDR := 1 (only parsing).
Abbreviation PLDM_STATE_SENSOR_PDR := 4 (only parsing).
Abbreviation PLDM_STATE_EFFECTER_PDR := 11 (only parsing).
Abbreviation PLDM_PDR_ENTITY_ASSOCIATION := 15 (only parsing).
Abbreviation PLDM_PDR_FRU_RECORD_SET := 20 (only parsing).

(** sizeof of the packed structures. *)
Abbreviation SIZEOF_PDR_HDR := 10 (only parsing).
Abbreviation SIZEOF_FRU_RECORD_SET := 10 (only parsing).
Abbreviation SIZEOF_PDR_ENTITY_ASSOCIATION := 16 (only parsing).
Abbreviation SIZEOF_STATE_SENSOR_PDR := 24 (only parsing).
Abbreviation SIZEOF_STATE_EFFECTER_PDR := 26 (only parsing).
Abbreviation PDR_ENTITY_ASSOCIATION_MIN_SIZE := 26 (only parsing).
Abbreviation PDR_FRU_RECORD_SET_MIN_SIZE := 20 (only parsing).

(** ** Access to record data *)

(** A little-endian member of the object behind a data pointer. *)
Definition data_member (data : hptr) (off n : Z) : H Z :=
  m ← load data;
  raw ← lift (mem_read m off n);
  mret (le_dec raw).

Definition set_data_member (data : hptr) (off : Z) (n : nat) (v : Z) : H unit :=
  m ← load data;
  m ← lift (mem_write m off (le_enc n v));
  store data m.

(** hdr->type of struct pldm_pdr_hdr. *)
Definition hdr_type (data : hptr) : H Z := data_member data 5 1.

(** ** Walking the list

    [for (record = start; record; record = record->next)], the body returning
    early with [Some] result.  The list has at most as many records as the heap,
    which is the fuel the callers pass. *)

Fixpoint walk {R} (fuel : nat) (record : hptr)
    (body : hptr -> pldm_pdr_record -> H (option R)) : H (option R) :=
  match record with
  | None => mret None
  | Some _ =>
    match fuel with
    | O => lift (Fault FFuel)
    | S fuel =>
      r ← load record;
      x ← body record r;
      match x with
      | Some v => mret (Some v)
      | None => r ← load record; walk fuel (rec_next r) body
      end
    end
  end.

Definition list_fuel : H nat := fun h => Ok (S (size (h_recs h)), h).

Definition for_records {R} (start : hptr) (body : hptr -> pldm_pdr_record -> H (option R))
  : H (option R) :=
  fuel ← list_fuel; walk fuel start body.

Definition get_next_record_handle (repo record : hptr) : H Z :=
  r ← load repo;
  if bool_decide (record = repo_last r) then mret 0
  else
    c ← load record;
    n ← load (rec_next c);
    mret (record_handle n).

(** ** Construction and destruction *)

Section alloc.
Context `{Allocator}.

(** Allocate a record and the [size] bytes of its data. *)
Definition new_record (data_size : Z) : H (option (hptr * hptr)) :=
  record ← malloc SIZEOF_PDR_RECORD raw_record;
  match record with
  | None => mret None
  | Some _ =>
      data ← malloc data_size CMem;
      match data with
      | None => _ ← free pldm_pdr_record record; mret None
      | Some _ => mret (Some (record, data))
      end
  end.

Definition pldm_pdr_init : H hptr :=
  malloc SIZEOF_PDR (fun _ _ => Pdr 0 0 None None).

(** The record handle the new record gets; [None] when there is none left. *)
Definition choose_handle (r : pldm_pdr) (handle : option Z) : H (option Z) :=
  let given := default 0 handle in
  if negb (given =? 0) then mret (Some given)
  else
    match repo_last r with
    | Some _ =>
        l ← load (repo_last r);
        let curr := record_handle l in
        if curr =? UINT32_MAX then mret None else mret (Some (u32 (curr + 1)))
    | None => mret (Some 1)
    end.

(** The end of [pldm_pdr_add]: link the record, count it. *)
Definition append_record (repo : hptr) (r : pldm_pdr) (record : hptr) (size : Z) : H unit :=
  let empty (p : hptr) := match p with None => true | Some _ => false end in
  _ ← lift (c_assert (Bool.eqb (empty (repo_first r)) (empty (repo_last r))));
  r ← (match repo_first r with
       | None => mret (Pdr (record_count r) (repo_size r) record record)
       | Some _ =>
           _ ← update (repo_last r) (set_rec_next record);
           mret (Pdr (record_count r) (repo_size r) (repo_first r) record)
       end);
  store repo (Pdr (u32 (record_count r + 1)) (u32 (repo_size r + size)) (repo_first r) (repo_last r)).

(** [handle] is the in/out parameter [record_handle]: NULL or what it points to. *)
Definition pldm_pdr_add (repo : hptr) (data : option cmem) (size : Z) (is_remote : bool)
    (terminus_handle : Z) (handle : option Z) : H (Z * option Z) :=
  match repo, data with
  | Some _, Some data =>
    if size <? SIZEOF_PDR_HDR then mret (- EINVAL, handle) else
    r ← load repo;
    curr ← choose_handle r handle;
    match curr with
    | None => mret (- EOVERFLOW, handle)
    | Some curr =>
      new ← new_record size;
      match new with
      | None => mret (- ENOMEM, handle)
      | Some (record, copy) =>
        raw ← lift (mem_read data 0 size);
        m ← load copy;
        m ← lift (mem_write m 0 raw);
        _ ← store copy m;
        _ ← store record (PdrRecord curr size copy None is_remote terminus_handle);
        _ ← (match handle with
             | Some h => if h =? 0 then set_data_member copy 0 4 curr else mret tt
             | None => mret tt
             end);
        _ ← append_record repo r record size;
        mret (0, set_out handle curr)
      end
    end
  | _, _ => mret (- EINVAL, handle)
  end.

Definition pldm_pdr_add_fru_record_set (repo : hptr) (terminus_handle fru_rsi entity_type
    entity_instance_num container_id : Z) (bmc_record_handle : option Z) : H (Z * option Z) :=
  match repo, bmc_record_handle with
  | Some _, Some h =>
      let data := le_enc 4 h ++ le_enc 1 1 ++ le_enc 1 PLDM_PDR_FRU_RECORD_SET ++ le_enc 2 0 ++
        le_enc 2 SIZEOF_FRU_RECORD_SET ++
        le_enc 2 terminus_handle ++ le_enc 2 fru_rsi ++ le_enc 2 entity_type ++
        le_enc 2 entity_instance_num ++ le_enc 2 container_id in
      pldm_pdr_add repo (Some (CMem 0 data)) (SIZEOF_PDR_HDR + SIZEOF_FRU_RECORD_SET)
        false terminus_handle bmc_record_handle
  | _, _ => mret (- EINVAL, bmc_record_handle)
  end.
End alloc.

Fixpoint destroy_records (fuel : nat) (record : hptr) : H unit :=
  match record with
  | None => mret tt
  | Some _ =>
    match fuel with
    | O => lift (Fault FFuel)
    | S fuel =>
      r ← load record;
      let next := rec_next r in
      _ ← free cmem (rec_data r);
      _ ← free pldm_pdr_record record;
      destroy_records fuel next
    end
  end.

Definition pldm_pdr_destroy (repo : hptr) : H unit :=
  match repo with
  | None => mret tt
  | Some _ =>
      r ← load repo;
      fuel ← list_fuel;
      _ ← destroy_records fuel (repo_first r);
      free pldm_pdr repo
  end.

(** ** Queries *)

(** The three out-parameters are required to be there; what the source leaves in
    [data] when nothing is found is what the caller had, [None] here. *)
Record found_record := Found {
  found_ptr : hptr; found_data : hptr; found_size : Z; found_next_handle : Z
}.

Definition pldm_pdr_find_record (repo : hptr) (handle : Z) : H found_record :=
  match repo with
  | None => mret (Found None None 0 0)
  | Some _ =>
      r ← load repo;
      handle ← (match repo_first r with
                | Some _ =>
                    if handle =? 0 then f ← load (repo_first r); mret (record_handle f)
                    else mret handle
                | None => mret handle
                end);
      x ← for_records (repo_first r) (fun record c =>
            if record_handle c =? handle then
              next ← get_next_record_handle repo record;
              mret (Some (Found record (rec_data c) (rec_size c) next))
            else mret None);
      mret (default (Found None None 0 0) x)
  end.

Definition pldm_pdr_get_next_record (repo curr_record : hptr) : H found_record :=
  match repo, curr_record with
  | Some _, Some _ =>
      r ← load repo;
      if bool_decide (curr_record = repo_last r) then
        next ← get_next_record_handle repo curr_record;
        mret (Found None None 0 next)
      else
        c ← load curr_record;
        next ← get_next_record_handle repo (rec_next c);
        n ← load (rec_next c);
        mret (Found (rec_next c) (rec_data n) (rec_size n) next)
  | _, _ => mret (Found None None 0 0)
  end.

(** Returns the record with its data and size. *)
Definition pldm_pdr_find_record_by_type (repo : hptr) (pdr_type : Z) (curr_record : hptr)
  : H (hptr * hptr * Z) :=
  match repo with
  | None => mret (None, None, 0)
  | Some _ =>
      r ← load repo;
      start ← (match curr_record with
               | Some _ => c ← load curr_record; mret (rec_next c)
               | None => mret (repo_first r)
               end);
      x ← for_records start (fun record c =>
            type ← hdr_type (rec_data c);
            if type =? pdr_type then mret (Some (record, rec_data c, rec_size c)) else mret None);
      mret (default (None, None, 0) x)
  end.

Definition pldm_pdr_get_record_count (repo : hptr) : H Z :=
  _ ← lift (c_assert (bool_decide (repo <> None)));
  r ← load repo; mret (record_count r).

Definition pldm_pdr_get_repo_size (repo : hptr) : H Z :=
  _ ← lift (c_assert (bool_decide (repo <> None)));
  r ← load repo; mret (repo_size r).

Definition pldm_pdr_get_record_handle (repo record : hptr) : H Z :=
  _ ← lift (c_assert (bool_decide (repo <> None)));
  _ ← lift (c_assert (bool_decide (record <> None)));
  c ← load record; mret (record_handle c).

Definition pldm_pdr_get_terminus_handle (repo record : hptr) : H Z :=
  _ ← lift (c_assert (bool_decide (repo <> None)));
  _ ← lift (c_assert (bool_decide (record <> None)));
  c ← load record; mret (terminus_handle c).

Definition pldm_pdr_record_is_remote (record : hptr) : H bool :=
  _ ← lift (c_assert (bool_decide (record <> None)));
  c ← load record; mret (is_remote c).

(** *** FRU record sets *)

(** The do/while over the FRU record set PDRs; [curr] is the last one found. *)
Fixpoint find_by_rsi_loop (fuel : nat) (repo : hptr) (fru_rsi : Z) (curr : hptr * hptr * Z)
  : H (option (hptr * Z * Z * Z * Z)) :=
  match fuel with
  | O => lift (Fault FFuel)
  | S fuel =>
    let '(record, data, _) := curr in
    match record with
    | None => mret None
    | Some _ =>
      rsi ← data_member data (SIZEOF_PDR_HDR + 2) 2;
      if rsi =? fru_rsi then
        th ← data_member data SIZEOF_PDR_HDR 2;
        et ← data_member data (SIZEOF_PDR_HDR + 4) 2;
        ei ← data_member data (SIZEOF_PDR_HDR + 6) 2;
        ci ← data_member data (SIZEOF_PDR_HDR + 8) 2;
        mret (Some (record, th, et, ei, ci))
      else
        curr ← pldm_pdr_find_record_by_type repo PLDM_PDR_FRU_RECORD_SET record;
        find_by_rsi_loop fuel repo fru_rsi curr
    end
  end.

(** The record with its terminus handle, entity type, instance and container. *)
Definition pldm_pdr_fru_record_set_find_by_rsi (repo : hptr) (fru_rsi : Z)
  : H (hptr * Z * Z * Z * Z) :=
  match repo with
  | None => mret (None, 0, 0, 0, 0)
  | Some _ =>
      curr ← pldm_pdr_find_record_by_type repo PLDM_PDR_FRU_RECORD_SET None;
      fuel ← list_fuel;
      x ← find_by_rsi_loop fuel repo fru_rsi curr;
      mret (default (None, 0, 0, 0, 0) x)
  end.

(** *** Terminus locators *)

Fixpoint update_TL_loop (fuel : nat) (repo : hptr) (terminus_handle tid tl_eid : Z)
    (valid_bit : bool) (curr : hptr * hptr * Z) : H unit :=
  match fuel with
  | O => lift (Fault FFuel)
  | S fuel =>
    let '(record, out_data, _) := curr in
    let again :=
      curr ← pldm_pdr_find_record_by_type repo PLDM_TERMINUS_LOCATOR_PDR record;
      match curr.1.1 with
      | Some _ => update_TL_loop fuel repo terminus_handle tid tl_eid valid_bit curr
      | None => mret tt
      end in
    match record with
    | None => again
    | Some _ =>
      th ← data_member out_data 10 2;
      if negb (th =? terminus_handle) then again else
      t ← data_member out_data 13 1;
      if negb (t =? tid) then again else
      eid ← data_member out_data 18 1;
      if negb (eid =? tl_eid) then again else
      set_data_member out_data 12 1 (Z.b2z valid_bit)
    end
  end.

Definition pldm_pdr_update_TL_pdr (repo : hptr) (terminus_handle tid tl_eid : Z) (valid_bit : bool)
  : H unit :=
  curr ← pldm_pdr_find_record_by_type repo PLDM_TERMINUS_LOCATOR_PDR None;
  fuel ← list_fuel;
  update_TL_loop (S fuel) repo terminus_handle tid tl_eid valid_bit curr.

(** *** Ranges of record handles *)

Definition pldm_record_handle_in_range (handle first_record_handle last_record_handle : Z) : bool :=
  (first_record_handle <=? handle) && (handle <=? last_record_handle).

(** The loop keeps the best record so far. *)
Fixpoint find_last_loop (fuel : nat) (curr : hptr) (first last : Z) (record : hptr) : H hptr :=
  match curr with
  | None => mret record
  | Some _ =>
    match fuel with
    | O => lift (Fault FFuel)
    | S fuel =>
      c ← load curr;
      record ← (if (record_handle c <? first) || (last <? record_handle c) then mret record
                else
                  match record with
                  | None => mret curr
                  | Some _ =>
                      b ← load record;
                      if record_handle b <? record_handle c then mret curr else mret record
                  end);
      find_last_loop fuel (rec_next c) first last record
    end
  end.

Definition pldm_pdr_find_last_in_range (repo : hptr) (first last : Z) : H hptr :=
  match repo with
  | None => mret None
  | Some _ =>
      r ← load repo;
      fuel ← list_fuel;
      find_last_loop fuel (repo_first r) first last None
  end.

(** The return code and, when found, the container id. *)
Definition pldm_pdr_find_child_container_id_index_range_exclude (repo : hptr) (entity_type
    entity_instance child_index range_exclude_start_handle range_exclude_end_handle : Z)
    (container_id : Z) : H (Z * Z) :=
  match repo with
  | None => mret (- EINVAL, container_id)
  | Some _ =>
      r ← load repo;
      x ← for_records (repo_first r) (fun _ c =>
            type ← hdr_type (rec_data c);
            if negb (type =? PLDM_PDR_ENTITY_ASSOCIATION) then mret None
            else if pldm_record_handle_in_range (record_handle c) range_exclude_start_handle
                      range_exclude_end_handle then mret None
            else
              num_children ← data_member (rec_data c) (SIZEOF_PDR_HDR + 9) 1;
              if num_children <=? child_index then mret None else
              et ← data_member (rec_data c) (SIZEOF_PDR_HDR + 3) 2;
              ei ← data_member (rec_data c) (SIZEOF_PDR_HDR + 5) 2;
              if (et =? entity_type) && (ei =? entity_instance) then
                cid ← data_member (rec_data c) (SIZEOF_PDR_HDR + 10 + 6 * child_index + 4) 2;
                mret (Some cid)
              else mret None);
      mret (match x with Some cid => (0, cid) | None => (- ENOENT, container_id) end)
  end.

(** ** Editing the list *)

(** [record] and [prev] are in/out: the search starts from them. *)
Fixpoint find_by_handle_loop (fuel : nat) (record prev : hptr) (handle : Z) : H (bool * hptr * hptr) :=
  match record with
  | None => mret (false, record, prev)
  | Some _ =>
    match fuel with
    | O => lift (Fault FFuel)
    | S fuel =>
      c ← load record;
      if record_handle c =? handle then mret (true, record, prev)
      else find_by_handle_loop fuel (rec_next c) record handle
    end
  end.

Definition pldm_pdr_find_record_by_handle (record prev : hptr) (handle : Z)
  : H (bool * hptr * hptr) :=
  fuel ← list_fuel; find_by_handle_loop fuel record prev handle.

Fixpoint get_prev_loop (fuel : nat) (curr prev : hptr) (handle : Z) : H hptr :=
  match curr with
  | None => mret prev
  | Some _ =>
    match fuel with
    | O => lift (Fault FFuel)
    | S fuel =>
      c ← load curr;
      if record_handle c =? handle then mret prev
      else get_prev_loop fuel (rec_next c) curr handle
    end
  end.

(** The comparison is by record handle, not by address. *)
Definition pldm_pdr_get_prev_record (repo record : hptr) : H hptr :=
  r ← load repo;
  c ← load record;
  fuel ← list_fuel;
  get_prev_loop fuel (repo_first r) None (record_handle c).

Definition is_prev_record_present (repo record : hptr) : H bool :=
  r ← load repo;
  if bool_decide (repo_first r = record) then mret true
  else
    prev ← pldm_pdr_get_prev_record repo record;
    mret (match prev with Some _ => true | None => false end).

Definition pldm_pdr_remove_record (repo record prev : hptr) : H Z :=
  present ← is_prev_record_present repo record;
  if negb present then mret (- EINVAL) else
  r ← load repo;
  c ← load record;
  _ ← lift (c_assert (rec_size c <=? repo_size r));
  if repo_size r <? rec_size c then mret (- EOVERFLOW) else
  first ← (if bool_decide (repo_first r = record) then mret (rec_next c)
           else
             _ ← (match prev with
                  | Some _ => update prev (set_rec_next (rec_next c))
                  | None => mret tt
                  end);
             mret (repo_first r));
  last ← (if bool_decide (repo_last r = record) then
            _ ← (match prev with
                 | Some _ => update prev (set_rec_next None)
                 | None => mret tt
                 end);
            mret prev
          else mret (repo_last r));
  _ ← store repo (Pdr (u32 (record_count r - 1)) (u32 (repo_size r - rec_size c)) first last);
  _ ← free cmem (rec_data c);
  _ ← free pldm_pdr_record record;
  mret 0.

(** Put [new] where [record] is. *)
Definition pldm_pdr_replace_record (repo record prev new : hptr) : H Z :=
  r ← load repo;
  c ← load record;
  n ← load new;
  if repo_size r <? rec_size c then mret (- EOVERFLOW) else
  if u32 (repo_size r + rec_size n) <? rec_size n then mret (- EOVERFLOW) else
  first ← (if bool_decide (repo_first r = record) then mret new
           else _ ← update prev (set_rec_next new); mret (repo_first r));
  _ ← update new (set_rec_next (rec_next c));
  let last := if bool_decide (repo_last r = record) then new else repo_last r in
  _ ← store repo (Pdr (record_count r)
                      (u32 (u32 (repo_size r - rec_size c) + rec_size n)) first last);
  mret 0.

(** Put [new] behind [record]. *)
Definition pldm_pdr_insert_record (repo record new : hptr) : H Z :=
  r ← load repo;
  n ← load new;
  if u32 (repo_size r + rec_size n) <? rec_size n then mret (- EOVERFLOW) else
  if record_count r =? UINT32_MAX then mret (- EOVERFLOW) else
  c ← load record;
  _ ← update new (set_rec_next (rec_next c));
  _ ← update record (set_rec_next new);
  let last := if bool_decide (repo_last r = record) then new else repo_last r in
  _ ← store repo (Pdr (u32 (record_count r + 1)) (u32 (repo_size r + rec_size n))
                      (repo_first r) last);
  mret 0.

(** *** Deleting by key *)

(** struct pldm_pdr_hdr and the two state PDRs (include/libpldm/platform.h). *)
Record pldm_pdr_hdr := PdrHdr {
  hdr_record_handle : Z; hdr_version : Z; hdr_pdr_type : Z; hdr_record_change_num : Z; hdr_length : Z
}.

Record pldm_state_sensor_pdr := StateSensor {
  ss_hdr : pldm_pdr_hdr; ss_terminus_handle : Z; sensor_id : Z; ss_entity_type : Z;
  ss_entity_instance : Z; ss_container_id : Z; sensor_init : Z;
  sensor_auxiliary_names_pdr : Z; composite_sensor_count : Z
}.

Record pldm_state_effecter_pdr := StateEffecter {
  se_hdr : pldm_pdr_hdr; se_terminus_handle : Z; effecter_id : Z; se_entity_type : Z;
  se_entity_instance : Z; se_container_id : Z; effecter_semantic_id : Z; effecter_init : Z;
  has_description_pdr : Z; composite_effecter_count : Z
}.

Definition extract_pdr_hdr : B pldm_pdr_hdr :=
  '(_, handle) ← pldm_msgbuf_extract KU32 0;
  '(_, version) ← pldm_msgbuf_extract KU8 0;
  '(_, type) ← pldm_msgbuf_extract KU8 0;
  '(_, change) ← pldm_msgbuf_extract KU16 0;
  '(_, length) ← pldm_msgbuf_extract KU16 0;
  mret (PdrHdr handle version type change length).

(** A decoder over its own buffer: the source declares it with
    PLDM_MSGBUF_RO_DEFINE_P, whose cleanup checks it was completed. *)
Definition decode_record {A} (data : cmem) (size minsize : Z) (body : B A) : outcome (Z * option A) :=
  '(rc, v, _) ← msgbuf_scope data (
    rc ← pldm_msgbuf_ro_init_errno minsize data size;
    if_err rc return_ mret (rc, None);;
    v ← body;
    rc ← pldm_msgbuf_ro_complete;
    mret (rc, Some v));
  mret (rc, v).

Definition decode_pldm_state_sensor_pdr (data : cmem) (size : Z)
  : outcome (Z * option pldm_state_sensor_pdr) :=
  decode_record data size SIZEOF_STATE_SENSOR_PDR (
    h ← extract_pdr_hdr;
    '(_, th) ← pldm_msgbuf_extract KU16 0;
    '(_, sid) ← pldm_msgbuf_extract KU16 0;
    '(_, et) ← pldm_msgbuf_extract KU16 0;
    '(_, ei) ← pldm_msgbuf_extract KU16 0;
    '(_, ci) ← pldm_msgbuf_extract KU16 0;
    '(_, init) ← pldm_msgbuf_extract KU8 0;
    '(_, aux) ← pldm_msgbuf_extract KU8 0;
    '(_, count) ← pldm_msgbuf_extract KU8 0;
    mret (StateSensor h th sid et ei ci init aux count)).

Definition decode_pldm_state_effecter_pdr (data : cmem) (size : Z)
  : outcome (Z * option pldm_state_effecter_pdr) :=
  decode_record data size SIZEOF_STATE_EFFECTER_PDR (
    h ← extract_pdr_hdr;
    '(_, th) ← pldm_msgbuf_extract KU16 0;
    '(_, eid) ← pldm_msgbuf_extract KU16 0;
    '(_, et) ← pldm_msgbuf_extract KU16 0;
    '(_, ei) ← pldm_msgbuf_extract KU16 0;
    '(_, ci) ← pldm_msgbuf_extract KU16 0;
    '(_, sem) ← pldm_msgbuf_extract KU16 0;
    '(_, init) ← pldm_msgbuf_extract KU8 0;
    '(_, desc) ← pldm_msgbuf_extract KU8 0;
    '(_, count) ← pldm_msgbuf_extract KU8 0;
    mret (StateEffecter h th eid et ei ci sem init desc count)).

(** Remove [record], whose predecessor is looked up first. *)
Definition remove_found (repo record : hptr) : H Z :=
  prev ← pldm_pdr_get_prev_record repo record;
  pldm_pdr_remove_record repo record prev.

Definition pldm_pdr_delete_by_sensor_id (repo : hptr) (sensor : Z) (remote : bool)
    (handle : option Z) : H (Z * option Z) :=
  match repo with
  | None => mret (- EINVAL, handle)
  | Some _ =>
      r ← load repo;
      x ← for_records (repo_first r) (fun record c =>
            match rec_data c with
            | None => mret None
            | Some _ =>
                m ← load (rec_data c);
                '(rc, pdr) ← lift (decode_pldm_state_sensor_pdr m (rec_size c));
                match pdr with
                | None => mret (Some (rc, handle))
                | Some pdr =>
                    if negb (rc =? 0) then mret (Some (rc, handle))
                    else if negb (Bool.eqb (is_remote c) remote)
                       || negb (hdr_pdr_type (ss_hdr pdr) =? PLDM_STATE_SENSOR_PDR) then mret None
                    else if sensor_id pdr =? sensor then
                      rc ← remove_found repo record;
                      mret (Some (rc, set_out handle (record_handle c)))
                    else mret None
                end
            end);
      mret (default (- ENOENT, handle) x)
  end.

(** The loop ends with the [rc] of the last record it decoded: 0. *)
Definition pldm_pdr_delete_by_effecter_id (repo : hptr) (effecter : Z) (remote : bool)
    (handle : option Z) : H (Z * option Z) :=
  match repo with
  | None => mret (- EINVAL, handle)
  | Some _ =>
      r ← load repo;
      x ← for_records (repo_first r) (fun record c =>
            match rec_data c with
            | None => mret None
            | Some _ =>
                m ← load (rec_data c);
                '(rc, pdr) ← lift (decode_pldm_state_effecter_pdr m (rec_size c));
                match pdr with
                | None => mret (Some (rc, handle))
                | Some pdr =>
                    if negb (rc =? 0) then mret (Some (rc, handle))
                    else if negb (Bool.eqb (is_remote c) remote)
                       || negb (hdr_pdr_type (se_hdr pdr) =? PLDM_STATE_EFFECTER_PDR) then mret None
                    else if effecter_id pdr =? effecter then
                      rc ← remove_found repo record;
                      mret (Some (rc, set_out handle (record_handle c)))
                    else mret None
                end
            end);
      mret (default (0, handle) x)
  end.

(** The buffer is a plain struct here: the early returns leave it as it is.  The
    handle is extracted into a uint16_t. *)
Definition read_low_handle (m : cmem) (size : Z) : outcome (Z * Z * msgbuf) :=
  '(rc, b) ← pldm_msgbuf_ro_init_errno SIZEOF_PDR_HDR m size (pldm__msgbuf_define m);
  if_err rc return_ mret (rc, 0, b);;
  '((rc, v), b) ← pldm_msgbuf_extract KU16 0 b;
  mret (rc, v, b).

Definition pldm_pdr_delete_by_record_handle (repo : hptr) (handle : Z) (remote : bool) : H Z :=
  match repo with
  | None => mret (- EINVAL)
  | Some _ =>
      r ← load repo;
      x ← for_records (repo_first r) (fun record c =>
            m ← load (rec_data c);
            '(rc, rec_handle, b) ← lift (read_low_handle m (rec_size c));
            if negb (rc =? 0) then mret (Some rc)
            else if Bool.eqb (is_remote c) remote && (rec_handle =? handle) then
              rc ← remove_found repo record; mret (Some rc)
            else
              '(rc, _) ← lift (pldm_msgbuf_ro_complete b);
              if negb (rc =? 0) then mret (Some rc) else mret None);
      mret (default (- ENOENT) x)
  end.

(** 1 if it matches, 0 if not, an error code if the record is too short. *)
Definition pldm_pdr_record_matches_fru_rsi (record : hptr) (rsi : Z) : H Z :=
  c ← load record;
  m ← load (rec_data c);
  '(rc, v) ← lift (decode_record m (rec_size c) PDR_FRU_RECORD_SET_MIN_SIZE (
     _ ← pldm_msgbuf_ro_span_required (SIZEOF_PDR_HDR + 2) (Some None);
     '(_, v) ← pldm_msgbuf_extract KU16 0;
     mret v));
  match v with
  | None => mret rc
  | Some v => if negb (rc =? 0) then mret rc else mret (Z.b2z (v =? rsi))
  end.

Definition pldm_pdr_remove_fru_record_set_by_rsi (repo : hptr) (fru_rsi : Z) (remote : bool)
    (handle : option Z) : H (Z * option Z) :=
  match repo, handle with
  | Some _, Some _ =>
      r ← load repo;
      x ← for_records (repo_first r) (fun record c =>
            m ← load (rec_data c);
            '(rc, type) ← lift (decode_record m (rec_size c) PDR_FRU_RECORD_SET_MIN_SIZE (
               _ ← pldm_msgbuf_ro_span_required 5 None;
               '(_, v) ← pldm_msgbuf_extract KU8 0;
               mret v));
            if negb (rc =? 0) then mret (Some (rc, handle))
            else if negb (Bool.eqb (is_remote c) remote)
               || negb (default 0 type =? PLDM_PDR_FRU_RECORD_SET) then mret None
            else
              matched ← pldm_pdr_record_matches_fru_rsi record fru_rsi;
              if matched <? 0 then mret (Some (matched, handle))
              else if negb (matched =? 0) then
                rc ← remove_found repo record;
                mret (Some (rc, Some (record_handle c)))
              else mret None);
      mret (default (0, handle) x)
  | _, _ => mret (- EINVAL, handle)
  end.

(** *** Deleting whole termini, and renumbering *)

(** Take [record], whose contents are [c], out of the list and free it. *)
Definition drop_record (repo record prev : hptr) (c : pldm_pdr_record) : H unit :=
  let next := rec_next c in
  r ← load repo;
  first ← (match prev with
           | None =>
               _ ← lift (c_assert (bool_decide (repo_first r = record)));
               mret next
           | Some _ => _ ← update prev (set_rec_next next); mret (repo_first r)
           end);
  let last := if bool_decide (repo_last r = record) then prev else repo_last r in
  _ ← free cmem (rec_data c);
  _ ← store repo (Pdr (u32 (record_count r - 1)) (u32 (repo_size r - rec_size c)) first last);
  free pldm_pdr_record record.

(** The loop of both functions; [drop_it] is the condition they differ in.  The
    result says whether anything was removed. *)
Fixpoint remove_loop (fuel : nat) (drop_it : pldm_pdr_record -> bool) (repo record prev : hptr)
    (removed : bool) : H bool :=
  match record with
  | None => mret removed
  | Some _ =>
    match fuel with
    | O => lift (Fault FFuel)
    | S fuel =>
      c ← load record;
      let next := rec_next c in
      if drop_it c then
        _ ← drop_record repo record prev c;
        remove_loop fuel drop_it repo next prev true
      else remove_loop fuel drop_it repo next record removed
    end
  end.

Definition renumber_record (record : hptr) (handle : Z) : H hptr :=
  _ ← update record (set_rec_handle handle);
  c ← load record;
  _ ← (match rec_data c with
       | Some _ => set_data_member (rec_data c) 0 4 handle
       | None => mret tt
       end);
  mret (rec_next c).

(** The second loop: the records left get the handles 1, 2, 3, ... *)
Fixpoint renumber_loop (fuel : nat) (record : hptr) (handle : Z) : H unit :=
  match record with
  | None => mret tt
  | Some _ =>
    match fuel with
    | O => lift (Fault FFuel)
    | S fuel =>
      let handle := u32 (handle + 1) in
      next ← renumber_record record handle;
      renumber_loop fuel next handle
    end
  end.

Definition remove_and_renumber (repo : hptr) (drop_it : pldm_pdr_record -> bool) : H unit :=
  match repo with
  | None => mret tt
  | Some _ =>
      r ← load repo;
      fuel ← list_fuel;
      removed ← remove_loop fuel drop_it repo (repo_first r) None false;
      if removed : bool then r ← load repo; renumber_loop fuel (repo_first r) 0 else mret tt
  end.

Definition pldm_pdr_remove_pdrs_by_terminus_handle (repo : hptr) (handle : Z) : H unit :=
  remove_and_renumber repo (fun c => terminus_handle c =? handle).

Definition pldm_pdr_remove_remote_pdrs (repo : hptr) : H unit :=
  remove_and_renumber repo is_remote.
