(* ===== verification/PdrRepo.v ===== *)
(** * What the PDR repository is (src/dsp/pdr.c)

    The linked list of Pdr.v represents a list of entries: [repo_at] relates a
    heap to the list of its cells, and every operation is shown to be the function
    on lists it stands for.  [repo_at] also says that the records and their data
    are all the record and data blocks there are, so that nothing leaks. *)

From stdpp Require Import gmap.
From S2P Require Import Prelude Msgbuf PdrHeap Pdr.

(** ** Laws of the heap *)

Section heap.
Context {T : Type} `{!Region T, !RegionOk T}.

Lemma load_ok a v h : region h !! a = Some v -> load (Some a) h = Ok (v, h).
Proof. intros E. unfold load. by rewrite E. Qed.

Lemma store_ok a v w h :
  region h !! a = Some v -> store (Some a) w h = Ok (tt, set_region (<[a := w]> (region h)) h).
Proof. intros E. unfold store. by rewrite E. Qed.

Lemma update_ok a v (f : T -> T) h :
  region h !! a = Some v ->
  update (Some a) f h = Ok (tt, set_region (<[a := f v]> (region h)) h).
Proof. intros E. unfold update, mbind, stM_bind. rewrite (load_ok a v h E). by eapply store_ok. Qed.

Lemma free_ok a v h :
  region h !! a = Some v -> free T (Some a) h = Ok (tt, set_region (delete a (region h)) h).
Proof. intros E. unfold free. by rewrite E. Qed.
End heap.

(** Step a computation by an equation for its first part. *)
Lemma wp_step {S A B} (m : stM S A) (k : A -> stM S B) s a s' Q :
  m s = Ok (a, s') -> wp (k a) s' Q -> wp (m ≫= k) s Q.
Proof. intros E HQ. apply wp_bind. by apply (wp_run _ _ a s'). Qed.

Lemma run_step {S A B} (m : stM S A) (k : A -> stM S B) s a s' r :
  m s = Ok (a, s') -> k a s' = r -> (m ≫= k) s = r.
Proof. intros E HQ. unfold mbind, stM_bind. by rewrite E. Qed.

(** ** Entries and cells *)

Record entry := Entry { e_handle : Z; e_data : list Z; e_remote : bool; e_terminus : Z }.

Definition e_size (e : entry) : Z := Z.of_nat (length (e_data e)).

(** Where an entry is kept: its record block, its data block and the address of
    the latter. *)
Record cell := Cell { c_rec : positive; c_buf : positive; c_addr : Z; c_entry : entry }.

Definition c_mem (c : cell) : cmem := CMem (c_addr c) (e_data (c_entry c)).

Definition rec_of (c : cell) (next : hptr) : pldm_pdr_record :=
  PdrRecord (e_handle (c_entry c)) (e_size (c_entry c)) (Some (c_buf c)) next
            (e_remote (c_entry c)) (e_terminus (c_entry c)).

Definition head_ptr (l : list cell) (q : hptr) : hptr :=
  match l with [] => q | c :: _ => Some (c_rec c) end.

Fixpoint last_ptr (l : list cell) (p : hptr) : hptr :=
  match l with [] => p | c :: l => last_ptr l (Some (c_rec c)) end.

(** The records of [l] are linked in order, the last one to [q]. *)
Fixpoint chain (m : gmap positive pldm_pdr_record) (l : list cell) (q : hptr) : Prop :=
  match l with
  | [] => True
  | c :: l => m !! c_rec c = Some (rec_of c (head_ptr l q)) /\ chain m l q
  end.

Definition total (l : list cell) : Z := foldr (fun c t => e_size (c_entry c) + t) 0 l.

Record entry_ok (e : entry) : Prop := {
  eo_handle : 1 <= e_handle e <= UINT32_MAX;
  eo_size : SIZEOF_PDR_HDR <= e_size e <= UINT32_MAX;
  eo_bytes : bytes_ok (e_data e)
}.

Record cell_ok (c : cell) : Prop := {
  co_entry : entry_ok (c_entry c);
  co_addr : 0 <= c_addr c;
  co_end : c_addr c + e_size (c_entry c) <= UINTPTR_MAX
}.

Definition holds (m : gmap positive cmem) (l : list cell) : Prop :=
  Forall (fun c => m !! c_buf c = Some (c_mem c)) l.

(** No block has a name a later request could return. *)
Definition names_below {V} (h : heap) (m : gmap positive V) : Prop :=
  forall a, is_Some (m !! a) -> (a < next_block h)%positive.

Record repo_at (p : positive) (l : list cell) (h : heap) : Prop := {
  ra_repo : h_repos h !! p
            = Some (Pdr (Z.of_nat (length l)) (total l) (head_ptr l None) (last_ptr l None));
  ra_chain : chain (h_recs h) l None;
  ra_bufs : holds (h_bufs h) l;
  ra_cells : Forall cell_ok l;
  ra_rec_names : NoDup (c_rec <$> l);
  ra_buf_names : NoDup (c_buf <$> l);
  ra_recs_dom : dom (h_recs h) = list_to_set (c_rec <$> l);
  ra_bufs_dom : dom (h_bufs h) = list_to_set (c_buf <$> l);
  ra_rec_fresh : names_below h (h_recs h);
  ra_buf_fresh : names_below h (h_bufs h);
  ra_count : Z.of_nat (length l) <= UINT32_MAX;
  ra_total : total l <= UINT32_MAX
}.

Definition entries (l : list cell) : list entry := c_entry <$> l.

(** ** Lists of cells *)

Lemma head_ptr_app l1 l2 q : head_ptr (l1 ++ l2) q = head_ptr l1 (head_ptr l2 q).
Proof. by destruct l1. Qed.

Lemma last_ptr_app l1 l2 p : last_ptr (l1 ++ l2) p = last_ptr l2 (last_ptr l1 p).
Proof. revert p. induction l1 as [|c l1 IH]; intros p; simpl; [done|apply IH]. Qed.

Lemma total_app l1 l2 : total (l1 ++ l2) = total l1 + total l2.
Proof. induction l1 as [|c l1 IH]; simpl; [done|]. rewrite IH. lia. Qed.

Lemma total_nonneg l : 0 <= total l.
Proof. induction l as [|c l IH]; simpl; [done|]. unfold e_size. lia. Qed.

Lemma chain_app m l1 l2 q : chain m (l1 ++ l2) q <-> chain m l1 (head_ptr l2 q) /\ chain m l2 q.
Proof.
  induction l1 as [|c l1 IH]; simpl; [tauto|]. rewrite IH, head_ptr_app. tauto.
Qed.

Lemma chain_lookup m l1 c l2 q :
  chain m (l1 ++ c :: l2) q -> m !! c_rec c = Some (rec_of c (head_ptr l2 q)).
Proof. rewrite chain_app. simpl. tauto. Qed.

(** The links of a list do not depend on other records. *)
Lemma chain_insert m l q a r : a ∉ c_rec <$> l -> chain m l q -> chain (<[a := r]> m) l q.
Proof.
  induction l as [|c l IH]; [done|]. rewrite fmap_cons, not_elem_of_cons. cbn [chain].
  intros [Ha Hl] [E Hc]. split; [by rewrite lookup_insert_ne by done|by apply IH].
Qed.

Lemma chain_delete m l q a : a ∉ c_rec <$> l -> chain m l q -> chain (delete a m) l q.
Proof.
  induction l as [|c l IH]; [done|]. rewrite fmap_cons, not_elem_of_cons. cbn [chain].
  intros [Ha Hl] [E Hc]. split; [by rewrite lookup_delete_ne by done|by apply IH].
Qed.

Lemma holds_insert m l a b : a ∉ c_buf <$> l -> holds m l -> holds (<[a := b]> m) l.
Proof.
  intros Ha. unfold holds. rewrite !Forall_elem. intros Hl c Hc.
  rewrite lookup_insert_ne; [by apply Hl|]. intros ->. apply Ha. by apply list_elem_of_fmap_2.
Qed.

Lemma holds_delete m l a : a ∉ c_buf <$> l -> holds m l -> holds (delete a m) l.
Proof.
  intros Ha. unfold holds. rewrite !Forall_elem. intros Hl c Hc.
  rewrite lookup_delete_ne; [by apply Hl|]. intros ->. apply Ha. by apply list_elem_of_fmap_2.
Qed.

Lemma last_ptr_none l : last_ptr l None = None -> l = [].
Proof. destruct l as [|c l] using rev_ind; [done|]. by rewrite last_ptr_app. Qed.

(** The list has no more cells than the heap has records: the fuel of the loops. *)
Lemma chain_length m l q : NoDup (c_rec <$> l) -> chain m l q -> (length l <= size m)%nat.
Proof.
  intros Hn Hc. rewrite <- (length_fmap c_rec).
  rewrite <- (size_list_to_set (C := gset positive) (c_rec <$> l)) by done.
  rewrite <- (size_dom (D := gset positive) m).
  apply subseteq_size. clear Hn. induction l as [|c l IH]; [apply empty_subseteq|].
  destruct Hc as [E Hc]. rewrite fmap_cons, list_to_set_cons.
  apply union_subseteq. split; [|by apply IH]. apply singleton_subseteq_l, elem_of_dom. by rewrite E.
Qed.

(** ** Reading *)

(** The first cell that satisfies [P], with the cells behind it. *)
Fixpoint first_cell (P : cell -> bool) (l : list cell) : option (cell * list cell) :=
  match l with
  | [] => None
  | c :: l => if P c then Some (c, l) else first_cell P l
  end.

Lemma first_cell_none P l : Forall (fun x : cell => P x = false) l <-> first_cell P l = None.
Proof.
  induction l as [|c l IH]; simpl; [by split; constructor|].
  rewrite list.Forall_cons. destruct (P c); [split; [intros [? _]; congruence|done]|]. rewrite IH. tauto.
Qed.

Lemma first_cell_at P l1 c l2 :
  Forall (fun x => P x = false) l1 -> P c = true -> first_cell P (l1 ++ c :: l2) = Some (c, l2).
Proof. induction 1 as [|x l1 Hx _ IH]; simpl; intros E; [by rewrite E|]. rewrite Hx. auto. Qed.

Lemma first_cell_split P l c rest :
  first_cell P l = Some (c, rest) ->
  exists l1, l = l1 ++ c :: rest /\ Forall (fun x => P x = false) l1 /\ P c = true.
Proof.
  induction l as [|d l IH]; simpl; [done|]. destruct (P d) eqn:E.
  - intros [= -> ->]. by exists [].
  - intros Hf. destruct (IH Hf) as (l1 & -> & Hl & Hc). exists (d :: l1).
    split; [done|]. split; [by constructor|done].
Qed.

Section reading.
Context (p : positive) (l : list cell) (h : heap) (Hr : repo_at p l h).

Lemma load_repo :
  load (T := pldm_pdr) (Some p) h
  = Ok (Pdr (Z.of_nat (length l)) (total l) (head_ptr l None) (last_ptr l None), h).
Proof. apply load_ok, Hr. Qed.

Lemma load_rec l1 c l2 :
  l = l1 ++ c :: l2 ->
  load (T := pldm_pdr_record) (Some (c_rec c)) h = Ok (rec_of c (head_ptr l2 None), h).
Proof. intros E. apply load_ok. eapply chain_lookup. rewrite <- E. apply Hr. Qed.

Lemma load_buf c : c ∈ l -> load (T := cmem) (Some (c_buf c)) h = Ok (c_mem c, h).
Proof. intros Hc. apply load_ok. pose proof (ra_bufs _ _ _ Hr) as Hb.
  unfold holds in Hb. rewrite Forall_elem in Hb. by apply Hb. Qed.

Lemma cell_in l1 c l2 : l = l1 ++ c :: l2 -> c ∈ l.
Proof. intros ->. rewrite elem_of_app, elem_of_cons. auto. Qed.

Lemma fuel_enough : list_fuel h = Ok (S (size (h_recs h)), h) /\ (length l <= size (h_recs h))%nat.
Proof. split; [done|]. eapply chain_length; apply Hr. Qed.

(** The walk from some cell on stops at the first one [stop] says; there and before
    it the body is as described. *)
Lemma walk_from {R} (pre rest : list cell) (stop : cell -> bool) (Q : option R -> heap -> Prop) body :
  l = pre ++ rest ->
  (forall l1 c l2, rest = l1 ++ c :: l2 -> Forall (fun x => stop x = false) l1 ->
     wp (body (Some (c_rec c)) (rec_of c (head_ptr l2 None))) h (fun x h' =>
       if stop c then is_Some x /\ Q x h' else x = None /\ h' = h)) ->
  (Forall (fun x => stop x = false) rest -> Q None h) ->
  wp (for_records (head_ptr rest None) body) h Q.
Proof.
  intros El Hbody Hnone. destruct fuel_enough as [Hf Hle]. unfold for_records.
  eapply wp_step; [exact Hf|]. rewrite El, length_app in Hle. revert Hle.
  generalize (size (h_recs h)). intros n Hn.
  enough (forall fuel l2 l1, rest = l1 ++ l2 -> (length l2 <= fuel)%nat ->
            Forall (fun x => stop x = false) l1 ->
            wp (walk fuel (head_ptr l2 None) body) h Q) as Hgo
    by (by apply (Hgo (S n) rest []); [done|lia|constructor]).
  clear n Hn. intros fuel l2. revert fuel.
  induction l2 as [|c l2 IH]; intros fuel l1 E Hl Hs.
  { rewrite app_nil_r in E. subst l1. destruct fuel; by apply wp_ret, Hnone. }
  destruct fuel as [|fuel]; [simpl in Hl; lia|]. cbn [walk head_ptr].
  assert (l = (pre ++ l1) ++ c :: l2) as Ec by (rewrite El, E; apply app_assoc).
  eapply wp_step; [by apply (load_rec (pre ++ l1) c l2)|]. apply wp_bind.
  eapply wp_mono; [by apply (Hbody l1 c l2)|]. intros x h'. cbn beta.
  destruct (stop c) eqn:Es; [intros [[v ->] ?]; by apply wp_ret|]. intros [-> ->].
  eapply wp_step; [by apply (load_rec (pre ++ l1) c l2)|]. cbn [rec_of rec_next].
  apply (IH fuel (l1 ++ [c])); [by rewrite <- app_assoc|simpl in Hl; lia|].
  apply Forall_app. split; [done|]. by constructor.
Qed.

Lemma walk_wp {R} (stop : cell -> bool) (Q : option R -> heap -> Prop) body :
  (forall l1 c l2, l = l1 ++ c :: l2 -> Forall (fun x => stop x = false) l1 ->
     wp (body (Some (c_rec c)) (rec_of c (head_ptr l2 None))) h (fun x h' =>
       if stop c then is_Some x /\ Q x h' else x = None /\ h' = h)) ->
  (Forall (fun x => stop x = false) l -> Q None h) ->
  wp (for_records (head_ptr l None) body) h Q.
Proof. by apply (walk_from []). Qed.

(** A walk that only reads: it returns what [answer] says of the first cell. *)
Lemma walk_reads {R} (pre rest : list cell) (stop : cell -> bool) (answer : cell -> list cell -> R) body :
  l = pre ++ rest ->
  (forall l1 c l2, rest = l1 ++ c :: l2 ->
     body (Some (c_rec c)) (rec_of c (head_ptr l2 None)) h
     = Ok (if stop c then Some (answer c l2) else None, h)) ->
  for_records (head_ptr rest None) body h
  = Ok ((fun '(c, l2) => answer c l2) <$> first_cell stop rest, h).
Proof.
  intros El Hbody.
  enough (wp (for_records (head_ptr rest None) body) h (fun x h' => h' = h /\
    x = (fun '(c, l2) => answer c l2) <$> first_cell stop rest)) as Hw.
  { apply wp_elim in Hw as (x & h' & E & -> & ->). done. }
  apply (walk_from pre rest stop); [done| |].
  - intros l1 c l2 E Hs. eapply wp_run; [by apply (Hbody l1 c l2)|].
    destruct (stop c) eqn:Ec; [|done]. split; [by eexists|]. split; [done|].
    rewrite E. by rewrite first_cell_at.
  - intros Hs. split; [done|]. by rewrite (proj1 (first_cell_none _ _) Hs).
Qed.
End reading.

(** ** Queries as functions of the list *)

(** A member of the record's data, as the host reads it. *)
Definition e_member (e : entry) (off n : nat) : Z := le_dec (slice off n (e_data e)).

Definition e_type (e : entry) : Z := e_member e 5 1.

Definition next_handle (l : list cell) : Z :=
  match l with [] => 0 | c :: _ => e_handle (c_entry c) end.

Definition not_found : found_record := Found None None 0 0.

Definition found_cell (c : cell) (rest : list cell) : found_record :=
  Found (Some (c_rec c)) (Some (c_buf c)) (e_size (c_entry c)) (next_handle rest).

Section queries.
Context (p : positive) (l : list cell) (h : heap) (Hr : repo_at p l h).

Lemma data_member_ok c (off n : nat) :
  c ∈ l -> Z.of_nat (off + n) <= e_size (c_entry c) ->
  data_member (Some (c_buf c)) (Z.of_nat off) (Z.of_nat n) h = Ok (e_member (c_entry c) off n, h).
Proof.
  intros Hc Hle. unfold data_member. eapply run_step; [by eapply load_buf|].
  eapply run_step.
  - unfold lift. erewrite mem_read_ok; [done|lia..| |done].
    unfold mem_size. cbn. unfold e_size in Hle. lia.
  - by rewrite !Nat2Z.id.
Qed.

Lemma cell_size c : c ∈ l -> 10 <= e_size (c_entry c) <= UINT32_MAX.
Proof.
  intros Hc. pose proof (ra_cells _ _ _ Hr) as Hall. rewrite Forall_elem in Hall.
  apply Hall, Hc.
Qed.

Lemma hdr_type_ok c : c ∈ l -> hdr_type (Some (c_buf c)) h = Ok (e_type (c_entry c), h).
Proof. intros Hc. pose proof (cell_size c Hc). apply (data_member_ok c 5 1); [done|lia]. Qed.

(** Two cells with the same record block are one cell. *)
Lemma at_last l1 c l2 :
  l = l1 ++ c :: l2 ->
  bool_decide (Some (c_rec c) = last_ptr l None) = match l2 with [] => true | _ => false end.
Proof.
  intros ->. rewrite last_ptr_app. pose proof (ra_rec_names _ _ _ Hr) as Hn.
  rewrite fmap_app, fmap_cons in Hn. apply list.NoDup_app in Hn as (_ & _ & Hn).
  apply list.NoDup_cons in Hn as [Hc _]. cbn [last_ptr].
  destruct l2 as [|d l2] using rev_ind; [by apply bool_decide_eq_true|].
  clear IHl2. rewrite last_ptr_app. cbn.
  rewrite fmap_app, not_elem_of_app in Hc. destruct Hc as [_ Hc].
  rewrite bool_decide_false; [by destruct l2|]. intros [= E]. apply Hc. cbn. rewrite E. set_solver.
Qed.

Lemma next_handle_ok l1 c l2 :
  l = l1 ++ c :: l2 -> get_next_record_handle (Some p) (Some (c_rec c)) h = Ok (next_handle l2, h).
Proof.
  intros E. unfold get_next_record_handle. eapply run_step; [by apply (load_repo p l)|].
  cbn [repo_last]. rewrite (at_last l1 c l2) by done. destruct l2 as [|d l2]; [done|].
  eapply run_step; [by apply (load_rec p l h Hr l1 c (d :: l2))|]. cbn [rec_of rec_next head_ptr].
  eapply run_step; [apply (load_rec p l h Hr (l1 ++ [c]) d l2)|done].
  by rewrite <- app_assoc.
Qed.

(** What [pldm_pdr_find_record] is asked for: handle 0 means the first record. *)
Definition asked_handle (handle : Z) : Z :=
  match l with c :: _ => if handle =? 0 then e_handle (c_entry c) else handle | [] => handle end.

Definition find_spec (handle : Z) : found_record :=
  match first_cell (fun c => e_handle (c_entry c) =? asked_handle handle) l with
  | Some (c, rest) => found_cell c rest
  | None => not_found
  end.

Lemma find_record_ok handle : pldm_pdr_find_record (Some p) handle h = Ok (find_spec handle, h).
Proof.
  unfold pldm_pdr_find_record. eapply run_step; [by apply (load_repo p l)|]. cbn [repo_first].
  eapply (run_step _ _ _ (asked_handle handle)).
  { unfold asked_handle. pose proof Hr as Hr'. destruct l as [|c l']; [done|]. cbn [head_ptr].
    destruct (handle =? 0); [|done].
    eapply run_step; [apply (load_rec p (c :: l') h Hr' [] c l' eq_refl)|done]. }
  eapply run_step.
  { apply (walk_reads p l h Hr [] l (fun c => e_handle (c_entry c) =? asked_handle handle) found_cell);
      [done|].
    intros l1 c l2 E. cbn [rec_of record_handle].
    destruct (e_handle (c_entry c) =? asked_handle handle); [|done].
    eapply run_step; [by apply (next_handle_ok l1 c l2)|done]. }
  unfold find_spec. by destruct (first_cell _ l) as [[c l2]|].
Qed.

Lemma get_next_record_ok l1 c l2 :
  l = l1 ++ c :: l2 ->
  pldm_pdr_get_next_record (Some p) (Some (c_rec c)) h
  = Ok (match l2 with [] => not_found | d :: l3 => found_cell d l3 end, h).
Proof.
  intros E. unfold pldm_pdr_get_next_record. eapply run_step; [by apply (load_repo p l)|].
  cbn [repo_last]. rewrite (at_last l1 c l2) by done. destruct l2 as [|d l3].
  { eapply run_step; [by apply (next_handle_ok l1 c [])|done]. }
  assert (l = (l1 ++ [c]) ++ d :: l3) as E' by (by rewrite <- app_assoc).
  eapply run_step; [by apply (load_rec p l h Hr l1 c (d :: l3))|]. cbn [rec_of rec_next head_ptr].
  eapply run_step; [by apply (next_handle_ok (l1 ++ [c]) d l3)|].
  eapply run_step; [by apply (load_rec p l h Hr (l1 ++ [c]) d l3)|done].
Qed.
End queries.

(** ** Removing a record *)

(** The handles of the records are all different. *)
Definition distinct (l : list cell) : Prop := NoDup ((fun c => e_handle (c_entry c)) <$> l).

Lemma distinct_before l1 c l2 x :
  distinct (l1 ++ c :: l2) -> x ∈ l1 -> e_handle (c_entry x) <> e_handle (c_entry c).
Proof.
  unfold distinct. rewrite fmap_app, fmap_cons. intros (_ & Hd & _)%list.NoDup_app Hx E.
  apply (Hd (e_handle (c_entry x))); [by apply (list_elem_of_fmap_2 (fun c => e_handle (c_entry c)))|].
  rewrite E. apply elem_of_cons. by left.
Qed.

Lemma distinct_sublist l l' : l' `sublist_of` l -> distinct l -> distinct l'.
Proof. intros Hs Hd. eapply sublist_NoDup; [exact Hd|]. by apply fmap_sublist. Qed.

(** The record before a position, linked to [n]. *)
Definition unlink (m : gmap positive pldm_pdr_record) (l1 : list cell) (n : hptr) :=
  match list.last l1 with Some d => <[c_rec d := rec_of d n]> m | None => m end.

Lemma chain_unlink m l1 l l2 q :
  NoDup (c_rec <$> (l1 ++ l ++ l2)) -> chain m (l1 ++ l ++ l2) q ->
  chain (unlink m l1 (head_ptr l2 q)) (l1 ++ l2) q.
Proof.
  intros Hn Hc. unfold unlink. destruct l1 as [|d l1 _] using rev_ind.
  { apply chain_app in Hc as [_ Hc]. apply chain_app in Hc as [_ Hc]. exact Hc. }
  rewrite last_snoc. rewrite <- !app_assoc in *. cbn [app] in *.
  rewrite fmap_app in Hn. apply list.NoDup_app in Hn as (_ & Hd1 & Hn).
  rewrite fmap_cons, fmap_app in Hn. apply list.NoDup_cons in Hn as [Hd2 _].
  apply chain_app in Hc as [Hc1 [E Hc]]. apply chain_app in Hc as [_ Hc2].
  rewrite not_elem_of_app in Hd2. apply chain_app. split; [|split].
  - apply chain_insert; [|done]. intros Hin. by eapply Hd1; [|left].
  - by rewrite lookup_insert_eq.
  - by apply chain_insert; [apply Hd2|].
Qed.

Lemma unlink_dom m l1 n :
  (forall d, d ∈ l1 -> is_Some (m !! c_rec d)) -> dom (unlink m l1 n) = dom m.
Proof.
  intros Hd. unfold unlink. destruct (list.last l1) as [d|] eqn:E; [|done].
  apply leibniz_equiv, dom_insert_lookup, Hd. by apply last_Some_elem_of.
Qed.

(** The blocks of a list once a cell in it is dropped. *)
Lemma names_drop (f : cell -> positive) l1 c l2 :
  NoDup (f <$> (l1 ++ c :: l2)) ->
  f c ∉ f <$> (l1 ++ l2) /\ NoDup (f <$> (l1 ++ l2)) /\
  (list_to_set (f <$> (l1 ++ c :: l2)) : gset positive) ∖ {[f c]} = list_to_set (f <$> (l1 ++ l2)).
Proof.
  rewrite !fmap_app, fmap_cons. intros Hn. rewrite <- Permutation_middle in Hn.
  apply list.NoDup_cons in Hn as [Hc Hn]. split_and!; [done..|].
  rewrite !list_to_set_app_L, list_to_set_cons. clear Hn. set_solver.
Qed.

Lemma chain_is_some m l q d : chain m l q -> d ∈ l -> is_Some (m !! c_rec d).
Proof.
  intros Hc (l1 & l2 & ->)%list_elem_of_split. by rewrite (chain_lookup _ _ _ _ _ Hc).
Qed.

Lemma names_below_dom {V W} h h' (m : gmap positive V) (m' : gmap positive W) :
  names_below h m -> allocs h' = allocs h -> dom m' ⊆ dom m -> names_below h' m'.
Proof.
  intros Hb Ha Hd a Hs. unfold next_block. rewrite Ha. apply Hb, elem_of_dom, Hd, elem_of_dom, Hs.
Qed.

Lemma difference_sub (X Y : gset positive) : X ∖ Y ⊆ X.
Proof. intros a [? _]%elem_of_difference. done. Qed.

(** The heap after a cell has been taken out. *)
Definition removed_heap (p : positive) (l1 : list cell) (c : cell) (l2 : list cell) (h : heap) : heap :=
  Heap (allocs h) (delete (c_buf c) (h_bufs h))
       (delete (c_rec c) (unlink (h_recs h) l1 (head_ptr l2 None)))
       (<[p := Pdr (Z.of_nat (length (l1 ++ l2))) (total (l1 ++ l2))
                   (head_ptr (l1 ++ l2) None) (last_ptr (l1 ++ l2) None)]> (h_repos h))
       (h_nodes h) (h_trees h).

Lemma repo_at_removed p l1 c l2 h :
  repo_at p (l1 ++ c :: l2) h -> repo_at p (l1 ++ l2) (removed_heap p l1 c l2 h).
Proof.
  intros Hr. destruct (names_drop c_rec l1 c l2 (ra_rec_names _ _ _ Hr)) as (Hc & Hn & Hs).
  destruct (names_drop c_buf l1 c l2 (ra_buf_names _ _ _ Hr)) as (Hcb & Hnb & Hsb).
  assert (forall P : cell -> Prop, Forall P (l1 ++ c :: l2) -> Forall P (l1 ++ l2)) as HF.
  { intros P. rewrite !Forall_app, list.Forall_cons. tauto. }
  pose proof (total_app l1 (c :: l2)) as Ht. cbn [total foldr] in Ht. fold (total l2) in Ht.
  pose proof (ra_total _ _ _ Hr). pose proof (ra_count _ _ _ Hr) as Hl.
  rewrite length_app in Hl. cbn [length] in Hl.
  assert (dom (unlink (h_recs h) l1 (head_ptr l2 None)) = dom (h_recs h)) as Hu.
  { apply unlink_dom. intros d Hd. eapply chain_is_some; [apply Hr|]. apply elem_of_app. by left. }
  constructor; cbn [removed_heap h_recs h_bufs h_repos].
  - by rewrite lookup_insert_eq.
  - apply chain_delete; [done|]. apply (chain_unlink _ l1 [c] l2); apply Hr.
  - apply holds_delete; [done|]. apply HF, Hr.
  - apply HF, Hr.
  - done.
  - done.
  - by rewrite dom_delete_L, Hu, (ra_recs_dom _ _ _ Hr).
  - by rewrite dom_delete_L, (ra_bufs_dom _ _ _ Hr).
  - eapply names_below_dom; [apply (ra_rec_fresh _ _ _ Hr)|done|]. rewrite dom_delete_L, Hu. apply difference_sub.
  - eapply names_below_dom; [apply (ra_buf_fresh _ _ _ Hr)|done|]. rewrite dom_delete_L. apply difference_sub.
  - rewrite length_app. lia.
  - rewrite total_app. unfold e_size in Ht. pose proof (total_nonneg l2). lia.
Qed.

(** What is left after the removal, as the code computes it. *)
Lemma removed_sums p l1 c l2 h :
  repo_at p (l1 ++ c :: l2) h ->
  u32 (Z.of_nat (length (l1 ++ c :: l2)) - 1) = Z.of_nat (length (l1 ++ l2)) /\
  u32 (total (l1 ++ c :: l2) - e_size (c_entry c)) = total (l1 ++ l2) /\
  e_size (c_entry c) <= total (l1 ++ c :: l2).
Proof.
  intros Hr. pose proof (total_nonneg l1). pose proof (total_nonneg l2).
  pose proof (ra_count _ _ _ Hr) as Hl. pose proof (ra_total _ _ _ Hr).
  pose proof (total_app l1 (c :: l2)) as Ht. cbn [total foldr] in Ht. fold (total l2) in Ht.
  rewrite length_app in *. cbn [length] in *. unfold u32. split_and!; [|rewrite (total_app l1 l2), Ht|lia].
  - rewrite length_app, Z.mod_small; lia.
  - unfold e_size in *. rewrite Z.mod_small; lia.
Qed.

(** The blocks of a cell and of the one before it. *)
Lemma buf_at_cell p l1 c l2 h :
  repo_at p (l1 ++ c :: l2) h -> h_bufs h !! c_buf c = Some (c_mem c).
Proof.
  intros Hr. pose proof (ra_bufs _ _ _ Hr) as Hb. unfold holds in Hb. rewrite Forall_elem in Hb.
  apply Hb, elem_of_app. right. by left.
Qed.

Lemma before_at p l0 d c l2 h :
  repo_at p (l0 ++ d :: c :: l2) h ->
  h_recs h !! c_rec d = Some (rec_of d (Some (c_rec c))) /\
  h_recs h !! c_rec c = Some (rec_of c (head_ptr l2 None)) /\ c_rec d <> c_rec c.
Proof.
  intros Hr. pose proof (ra_chain _ _ _ Hr) as Hch. split_and!.
  - apply (chain_lookup _ _ _ _ _ Hch).
  - apply (chain_lookup _ (l0 ++ [d]) _ _ None). by rewrite <- app_assoc.
  - pose proof (ra_rec_names _ _ _ Hr) as Hn. rewrite fmap_app in Hn.
    apply list.NoDup_app in Hn as (_ & _ & Hn). rewrite !fmap_cons in Hn.
    apply list.NoDup_cons in Hn as [Hn _]. rewrite not_elem_of_cons in Hn. apply Hn.
Qed.

Section removing.
Context (p : positive) (l1 : list cell) (c : cell) (l2 : list cell) (h : heap).
Context (Hr : repo_at p (l1 ++ c :: l2) h).
Context (Hd : forall x, x ∈ l1 -> e_handle (c_entry x) <> e_handle (c_entry c)).
#[local] Abbreviation l := (l1 ++ c :: l2).

Lemma get_prev_ok : pldm_pdr_get_prev_record (Some p) (Some (c_rec c)) h = Ok (last_ptr l1 None, h).
Proof using Hr Hd.
  unfold pldm_pdr_get_prev_record. eapply run_step; [by apply (load_repo p l)|].
  eapply run_step; [by apply (load_rec p l h Hr l1 c l2)|].
  destruct (fuel_enough p l h Hr) as [Hf Hle]. eapply run_step; [exact Hf|].
  revert Hle. generalize (size (h_recs h)). intros n Hn. cbn [repo_first rec_of record_handle].
  enough (forall k fuel l0 prev, l1 = l0 ++ k -> (length (k ++ c :: l2) <= fuel)%nat ->
            get_prev_loop fuel (head_ptr (k ++ c :: l2) None) prev (e_handle (c_entry c)) h
            = Ok (last_ptr k prev, h)) as Hgo by (by apply (Hgo l1 (S n) []); [|lia]).
  induction k as [|d k IH]; intros fuel l0 prev E Hl; (destruct fuel as [|fuel]; [simpl in Hl; lia|]).
  - cbn [app head_ptr get_prev_loop]. eapply run_step; [by apply (load_rec p l h Hr l1 c l2)|].
    cbn [rec_of record_handle]. by rewrite Z.eqb_refl.
  - cbn [app head_ptr get_prev_loop last_ptr].
    eapply run_step; [apply (load_rec p l h Hr l0 d (k ++ c :: l2)); by rewrite E, <- app_assoc|].
    cbn [rec_of record_handle rec_next]. rewrite (proj2 (Z.eqb_neq _ _)).
    + apply (IH fuel (l0 ++ [d])); [by rewrite <- app_assoc|simpl in Hl; lia].
    + apply Hd. rewrite E, elem_of_app, elem_of_cons. auto.
Qed.

Lemma first_is_record :
  bool_decide (head_ptr l None = Some (c_rec c)) = match l1 with [] => true | _ => false end.
Proof using Hr.
  clear Hd. pose proof (ra_rec_names _ _ _ Hr) as Hn. destruct l1 as [|d l0]; [by apply bool_decide_eq_true|].
  cbn [app head_ptr] in *. rewrite fmap_cons in Hn. apply list.NoDup_cons in Hn as [Hn _].
  apply bool_decide_false. intros [= E]. apply Hn. rewrite E, fmap_app, fmap_cons. set_solver.
Qed.

Lemma last_is_record :
  bool_decide (last_ptr l None = Some (c_rec c)) = match l2 with [] => true | _ => false end.
Proof using Hr.
  rewrite <- (at_last p l h Hr l1 c l2 eq_refl). apply bool_decide_ext. split; congruence.
Qed.

Lemma prev_present_ok : is_prev_record_present (Some p) (Some (c_rec c)) h = Ok (true, h).
Proof using Hr Hd.
  unfold is_prev_record_present. eapply run_step; [by apply (load_repo p l)|]. cbn [repo_first].
  rewrite first_is_record. pose proof get_prev_ok as E. destruct l1 as [|d l0] using rev_ind; [done|].
  clear IHl0. replace (match l0 ++ [d] with [] => true | _ => false end) with false by (by destruct l0).
  eapply run_step; [exact E|]. by rewrite last_ptr_app.
Qed.

Lemma remove_record_ok :
  pldm_pdr_remove_record (Some p) (Some (c_rec c)) (last_ptr l1 None) h
  = Ok (0, removed_heap p l1 c l2 h).
Proof using Hr Hd.
  unfold pldm_pdr_remove_record. eapply run_step; [apply prev_present_ok|]. cbn [negb].
  eapply run_step; [by apply (load_repo p l)|].
  eapply run_step; [by apply (load_rec p l h Hr l1 c l2)|].
  destruct (removed_sums p l1 c l2 h Hr) as (Ecount & Etotal & Hle).
  cbn [rec_of rec_size repo_size repo_first repo_last rec_next rec_data record_count].
  rewrite (proj2 (Z.leb_le _ _)) by lia. eapply run_step; [done|].
  rewrite (proj2 (Z.ltb_ge _ _)) by lia. rewrite first_is_record, last_is_record.
  rewrite Ecount, Etotal. unfold removed_heap, unlink.
  pose proof (ra_repo _ _ _ Hr) as Hrepo. pose proof (buf_at_cell p l1 c l2 h Hr) as Hbuf.
  pose proof (ra_chain _ _ _ Hr) as Hch.
  destruct l1 as [|d l0] using rev_ind.
  - cbn [list.last app] in *. eapply run_step; [done|].
    destruct l2 as [|d l3]; (eapply run_step; [done|]);
      (eapply run_step; [eapply store_ok, Hrepo|]);
      (eapply run_step; [eapply free_ok, Hbuf|]); (eapply run_step; [eapply free_ok, Hch|]); done.
  - clear IHl0. rewrite last_snoc. rewrite <- app_assoc in *.
    replace (match l0 ++ [d] with [] => true | _ => false end) with false by (by destruct l0).
    rewrite <- !app_assoc in *. cbn [app] in *. rewrite !last_ptr_app, !head_ptr_app. cbn [last_ptr head_ptr].
    destruct (before_at p l0 d c l2 h Hr) as (Ed & Ec & Hne).
    eapply run_step. { eapply run_step; [eapply update_ok, Ed|reflexivity]. }
    destruct l2 as [|e l3].
    + eapply run_step.
      { eapply run_step; [eapply update_ok; apply lookup_insert_eq|reflexivity]. }
      eapply run_step; [eapply store_ok, Hrepo|]. eapply run_step; [eapply free_ok, Hbuf|].
      eapply run_step; [eapply free_ok|].
      { cbn. by rewrite insert_insert_eq, lookup_insert_ne. }
      cbn. rewrite insert_insert_eq. done.
    + eapply run_step; [done|].
      eapply run_step; [eapply store_ok, Hrepo|]. eapply run_step; [eapply free_ok, Hbuf|].
      eapply run_step; [eapply free_ok|]; [by cbn; rewrite lookup_insert_ne|done].
Qed.
End removing.

(** ** Decoding a record *)

Section decoding.
Context (c : cell) (Hc : cell_ok c).

Lemma c_mem_ok : mem_ok (c_mem c).
Proof.
  destruct Hc as [[] ? ?]. unfold e_size in *. constructor; cbn; unfold mem_size; cbn; try done; lia.
Qed.

(** A record decoder: too short a record is refused, else the body sees a
    buffer at the start of the record. *)
Lemma decode_record_ok {A} minsize (body : B A) (P : A -> Prop) :
  0 <= minsize <= e_size (c_entry c) ->
  (forall b, mb_rd (c_mem c) (e_size (c_entry c)) 0 b ->
     wp body b (fun a b' => P a /\ exists k, k <= minsize /\ mb_rd (c_mem c) (e_size (c_entry c)) k b')) ->
  exists a, decode_record (c_mem c) (e_size (c_entry c)) minsize body = Ok (0, Some a) /\ P a.
Proof.
  intros Hm Hbody. pose proof c_mem_ok as [? ? ? _]. set (e := e_size (c_entry c)) in *.
  assert (mem_size (c_mem c) = e) as Hs by done.
  unfold decode_record.
  match goal with |- context [msgbuf_scope ?o ?k] =>
    destruct (msgbuf_scope_wp o k (fun '(rc, v) _ => rc = 0 /\ exists a, v = Some a /\ P a))
      as ([rc v] & m' & -> & -> & a & -> & HP) end.
  2: { by exists a. }
  apply wp_bind, wp_init_rd; [lia..|]. intros b _. cmp_case; [|lia]. intros Hb. cmp_case; [|done].
  apply wp_bind. eapply wp_mono; [by apply Hbody|]. intros a b1 (HP & k & Hk & Hb1).
  apply wp_bind. eapply wp_complete_rd; [exact Hb1|]. intros b2 Hd _. cmp_case; [|lia].
  apply wp_ret. split; [done|]. split; [done|]. by exists a.
Qed.

Lemma decode_record_short {A} minsize (body : B A) :
  e_size (c_entry c) < minsize ->
  decode_record (c_mem c) (e_size (c_entry c)) minsize body = Ok (- EOVERFLOW, None).
Proof.
  intros Hm. unfold decode_record.
  match goal with |- context [msgbuf_scope ?o ?k] =>
    destruct (msgbuf_scope_wp o k (fun a _ => a = (- EOVERFLOW, None)))
      as ([rc v] & m' & -> & E) end.
  2: { by injection E as -> ->. }
  pose proof c_mem_ok as [? ? ? _]. assert (mem_size (c_mem c) = e_size (c_entry c)) as Hs by done.
  assert (0 <= e_size (c_entry c)) by (unfold e_size; lia).
  apply wp_bind, wp_init_rd; [lia..|]. intros b _. cmp_case; [lia|]. intros Hb. cmp_case; [done|].
  by apply wp_ret.
Qed.

Lemma wp_pdr_hdr b Q :
  mb_rd (c_mem c) (e_size (c_entry c)) 0 b -> 10 <= e_size (c_entry c) ->
  (forall b', mb_rd (c_mem c) (e_size (c_entry c)) 10 b' -> forall hd,
     hdr_pdr_type hd = e_type (c_entry c) -> Q hd b') ->
  wp extract_pdr_hdr b Q.
Proof.
  intros Hb Hs HQ. unfold extract_pdr_hdr. do 5 mb_extract_in. apply wp_ret.
  by apply HQ.
Qed.

Lemma sensor_decoded :
  if 24 <=? e_size (c_entry c)
  then exists pdr, decode_pldm_state_sensor_pdr (c_mem c) (e_size (c_entry c)) = Ok (0, Some pdr) /\
         hdr_pdr_type (ss_hdr pdr) = e_type (c_entry c) /\ sensor_id pdr = e_member (c_entry c) 12 2
  else decode_pldm_state_sensor_pdr (c_mem c) (e_size (c_entry c)) = Ok (- EOVERFLOW, None).
Proof.
  cmp_case; [|by apply decode_record_short]. apply decode_record_ok; [lia|]. intros b Hb.
  apply wp_bind. eapply wp_pdr_hdr; [exact Hb|lia|]. clear b Hb. intros b Hb hd Hhd.
  do 8 mb_extract_in. apply wp_ret. split; [done|]. eexists; split; [|exact Hb]. lia.
Qed.

Lemma effecter_decoded :
  if 26 <=? e_size (c_entry c)
  then exists pdr, decode_pldm_state_effecter_pdr (c_mem c) (e_size (c_entry c)) = Ok (0, Some pdr) /\
         hdr_pdr_type (se_hdr pdr) = e_type (c_entry c) /\ effecter_id pdr = e_member (c_entry c) 12 2
  else decode_pldm_state_effecter_pdr (c_mem c) (e_size (c_entry c)) = Ok (- EOVERFLOW, None).
Proof.
  cmp_case; [|by apply decode_record_short]. apply decode_record_ok; [lia|]. intros b Hb.
  apply wp_bind. eapply wp_pdr_hdr; [exact Hb|lia|]. clear b Hb. intros b Hb hd Hhd.
  do 9 mb_extract_in. apply wp_ret. split; [done|]. eexists; split; [|exact Hb]. lia.
Qed.

Lemma low_handle_read :
  exists b, read_low_handle (c_mem c) (e_size (c_entry c)) = Ok (0, e_member (c_entry c) 0 2, b) /\
    exists b', pldm_msgbuf_ro_complete b = Ok (0, b').
Proof.
  pose proof c_mem_ok as [? ? ? _]. assert (mem_size (c_mem c) = e_size (c_entry c)) as Hs by done.
  pose proof (eo_size _ (co_entry _ Hc)) as [? _].
  set (e := e_size (c_entry c)) in *.
  assert (wp (rc ← pldm_msgbuf_ro_init_errno SIZEOF_PDR_HDR (c_mem c) e;
              '(rc', v) ← pldm_msgbuf_extract KU16 0; mret (rc, rc', v))
             (pldm__msgbuf_define (c_mem c))
             (fun '(rc, rc', v) b => rc = 0 /\ rc' = 0 /\ v = e_member (c_entry c) 0 2 /\
                mb_rd (c_mem c) e 2 b)) as Hw.
  { apply wp_bind, wp_init_rd; [lia..|]. intros b _. cmp_case; [|lia]. intros Hb.
    mb_extract_in. by apply wp_ret. }
  apply wp_elim in Hw as ([[rc rc'] v] & b & E & -> & -> & -> & Hb).
  unfold read_low_handle. unfold mbind, stM_bind in E.
  destruct (pldm_msgbuf_ro_init_errno _ _ _ _) as [[rc b0]|]; [|done]. cbn [mbind outcome_bind].
  destruct (pldm_msgbuf_extract KU16 0 b0) as [[[rc' v] b1]|]; [|done]. injection E as -> -> -> ->.
  cbn. eexists; split; [done|].
  assert (wp pldm_msgbuf_ro_complete b (fun rc _ => rc = 0)) as Hw.
  { eapply wp_complete_rd; [exact Hb|]. intros b' _ _. cmp_case; [done|lia]. }
  apply wp_elim in Hw as (rc & b' & E & ->). by exists b'.
Qed.
End decoding.

(** ** Deleting by key

    All four functions walk the list, pass over some records, give up with an
    error at a record they cannot decode, and remove the first one that matches. *)

Inductive verdict := Pass | Refuse (rc : Z) | Remove.

(** What is returned, the handle reported, and what is left. *)
Fixpoint delete_first (v : entry -> verdict) (missing : Z) (l : list entry)
  : Z * option Z * list entry :=
  match l with
  | [] => (missing, None, [])
  | e :: l =>
      match v e with
      | Pass => let '(rc, hd, l') := delete_first v missing l in (rc, hd, e :: l')
      | Refuse rc => (rc, None, e :: l)
      | Remove => (0, Some (e_handle e), l)
      end
  end.

Definition stops (v : entry -> verdict) (c : cell) : bool :=
  match v (c_entry c) with Pass => false | _ => true end.

Lemma all_pass v l :
  Forall (fun c => stops v c = false) l -> Forall (fun e => v e = Pass) (entries l).
Proof.
  intros Hs. unfold entries. rewrite Forall_fmap. eapply list.Forall_impl; [exact Hs|].
  intros x. unfold stops. cbn. by destruct (v (c_entry x)).
Qed.

Lemma delete_first_app v missing l1 l2 :
  Forall (fun e => v e = Pass) l1 ->
  delete_first v missing (l1 ++ l2)
  = let '(rc, hd, l') := delete_first v missing l2 in (rc, hd, l1 ++ l').
Proof.
  induction 1 as [|e l1 He _ IH]; cbn [app delete_first].
  - by destruct (delete_first v missing l2) as [[? ?] ?].
  - rewrite He, IH. by destruct (delete_first v missing l2) as [[? ?] ?].
Qed.

Section deleting.
Context (p : positive) (l : list cell) (h : heap).
Context (Hr : repo_at p l h) (Hd : distinct l).

Lemma remove_found_ok l1 c l2 :
  l = l1 ++ c :: l2 ->
  remove_found (Some p) (Some (c_rec c)) h = Ok (0, removed_heap p l1 c l2 h).
Proof using Hr Hd.
  intros E. subst l. pose proof (distinct_before l1 c l2) as Hb.
  unfold remove_found. eapply run_step.
  - apply (get_prev_ok p l1 c l2 h Hr). intros x. by apply Hb.
  - apply remove_record_ok; [done|]. intros x. by apply Hb.
Qed.

(** [answer rc found] is what the function returns for a result and the handle of
    the removed record. *)
Context {R : Type} (v : entry -> verdict) (missing : Z) (answer : Z -> option Z -> R).
Context (body : hptr -> pldm_pdr_record -> stM heap (option R)).
Context (Hbody : forall l1 c l2, l = l1 ++ c :: l2 ->
  match v (c_entry c) with
  | Pass => body (Some (c_rec c)) (rec_of c (head_ptr l2 None)) h = Ok (None, h)
  | Refuse rc => body (Some (c_rec c)) (rec_of c (head_ptr l2 None)) h = Ok (Some (answer rc None), h)
  | Remove => body (Some (c_rec c)) (rec_of c (head_ptr l2 None)) h
      = (rc ← remove_found (Some p) (Some (c_rec c));
         mret (Some (answer rc (Some (e_handle (c_entry c)))))) h
  end).

Lemma delete_wp :
  wp (for_records (head_ptr l None) body) h (fun x h' =>
    exists l', repo_at p l' h' /\ l' `sublist_of` l /\
      let '(rc, hd, es) := delete_first v missing (entries l) in
      entries l' = es /\ default (answer missing None) x = answer rc hd).
Proof using Hr Hd Hbody.
  apply (walk_wp p l h Hr (stops v)).
  - intros l1 c l2 E Hs. specialize (Hbody l1 c l2 E).
    assert (Forall (fun e => v e = Pass) (entries l1)) as Hp by by apply all_pass.
    assert (entries l = entries l1 ++ c_entry c :: entries l2) as El.
    { rewrite E. unfold entries. by rewrite fmap_app, fmap_cons. }
    rewrite El, (delete_first_app v missing _ _ Hp). cbn [delete_first].
    unfold stops at 1. destruct (v (c_entry c)) eqn:Ev.
    + eapply wp_run; [exact Hbody|done].
    + eapply wp_run; [exact Hbody|]. split; [by eexists|]. exists l. rewrite <- El. by split_and!.
    + unfold wp. rewrite Hbody. pose proof (remove_found_ok l1 c l2 E) as Er.
      unfold mbind, stM_bind. rewrite Er. cbn. split; [by eexists|].
      exists (l1 ++ l2). split; [|split; [|split; [|done]]].
      * apply repo_at_removed. by rewrite <- E.
      * rewrite E. apply sublist_app; [reflexivity|]. apply sublist_cons. reflexivity.
      * unfold entries. by rewrite fmap_app.
  - intros Hs. exists l. split; [done|]. split; [reflexivity|].
    assert (Forall (fun e => v e = Pass) (entries l)) as Hp by by apply all_pass.
    pose proof (delete_first_app v missing _ [] Hp) as E. cbn in E. rewrite !app_nil_r in E. by rewrite E.
Qed.
End deleting.

(** *** The verdicts *)

Definition verdict_sensor (sensor : Z) (remote : bool) (e : entry) : verdict :=
  if e_size e <? SIZEOF_STATE_SENSOR_PDR then Refuse (- EOVERFLOW)
  else if bool_decide (e_remote e = remote) && (e_type e =? PLDM_STATE_SENSOR_PDR)
            && (e_member e 12 2 =? sensor) then Remove
  else Pass.

Definition verdict_effecter (effecter : Z) (remote : bool) (e : entry) : verdict :=
  if e_size e <? SIZEOF_STATE_EFFECTER_PDR then Refuse (- EOVERFLOW)
  else if bool_decide (e_remote e = remote) && (e_type e =? PLDM_STATE_EFFECTER_PDR)
            && (e_member e 12 2 =? effecter) then Remove
  else Pass.

(** Only the low half of the header's record handle is compared. *)
Definition verdict_handle (handle : Z) (remote : bool) (e : entry) : verdict :=
  if bool_decide (e_remote e = remote) && (e_member e 0 2 =? handle) then Remove else Pass.

Definition verdict_fru (fru_rsi : Z) (remote : bool) (e : entry) : verdict :=
  if e_size e <? PDR_FRU_RECORD_SET_MIN_SIZE then Refuse (- EOVERFLOW)
  else if bool_decide (e_remote e = remote) && (e_type e =? PLDM_PDR_FRU_RECORD_SET)
            && (e_member e 12 2 =? fru_rsi) then Remove
  else Pass.

(** What a delete operation leaves: a sub-list, as the specification says. *)
Definition deleted (p : positive) (l : list cell) (v : entry -> verdict) (missing : Z)
    (P : Z -> option Z -> Prop) (h' : heap) : Prop :=
  exists l', repo_at p l' h' /\ l' `sublist_of` l /\
    let '(rc, hd, es) := delete_first v missing (entries l) in entries l' = es /\ P rc hd.

Lemma eqb_bool_decide (a b : bool) : Bool.eqb a b = bool_decide (a = b).
Proof. destruct a, b; done. Qed.

(** Load and decode the record at hand. *)
Ltac decoded Eb Ed :=
  eapply run_step; [exact Eb|];
  eapply run_step; [unfold lift; rewrite Ed; reflexivity|]; cbn [Z.eqb Z.opp negb].

Section delete_ops.
Context (p : positive) (l : list cell) (h : heap).
Context (Hr : repo_at p l h) (Hd : distinct l).

Lemma cell_ok_in l1 c l2 : l = l1 ++ c :: l2 -> cell_ok c.
Proof using Hr.
  intros E. pose proof (ra_cells _ _ _ Hr) as Hall. rewrite Forall_elem in Hall.
  apply Hall. by eapply cell_in.
Qed.

Lemma buf_at l1 c l2 :
  l = l1 ++ c :: l2 -> load (T := cmem) (Some (c_buf c)) h = Ok (c_mem c, h).
Proof using Hr. intros E. apply (load_buf p l h Hr). by eapply cell_in. Qed.

Lemma delete_by_sensor_ok sensor remote handle :
  wp (pldm_pdr_delete_by_sensor_id (Some p) sensor remote handle) h
    (fun r => deleted p l (verdict_sensor sensor remote) (- ENOENT) (fun rc hd =>
       r = (rc, match hd with Some v => set_out handle v | None => handle end))).
Proof using Hr Hd.
  unfold pldm_pdr_delete_by_sensor_id. eapply wp_step; [by apply (load_repo p l)|]. cbn [repo_first].
  apply wp_bind. eapply wp_mono.
  { apply (delete_wp p l h Hr Hd (verdict_sensor sensor remote) (- ENOENT)
      (fun rc hd => (rc, match hd with Some v => set_out handle v | None => handle end))).
    intros l1 c l2 E. pose proof (cell_ok_in l1 c l2 E) as Hc. pose proof (sensor_decoded c Hc) as Hdec.
    cbn [rec_of rec_data rec_size is_remote record_handle]. unfold verdict_sensor.
    pose proof (buf_at l1 c l2 E) as Eb. rewrite Z.leb_antisym in Hdec.
    destruct (e_size (c_entry c) <? 24); cbn [negb] in Hdec; [by decoded Eb Hdec|].
    destruct Hdec as (pdr & Ed & Et & Es). rewrite <- eqb_bool_decide, <- Et, <- Es.
    destruct (Bool.eqb _ _) eqn:E1, (hdr_pdr_type _ =? _) eqn:E2, (sensor_id _ =? _) eqn:E3;
      cbn [andb]; decoded Eb Ed; rewrite ?E1, ?E2, ?E3; done. }
  intros x h' (l' & Hr' & Hs & Hres). apply wp_ret. exists l'. split; [done|]. split; [done|].
  by destruct (delete_first _ _ _) as [[rc hd] es].
Qed.

Lemma delete_by_effecter_ok effecter remote handle :
  wp (pldm_pdr_delete_by_effecter_id (Some p) effecter remote handle) h
    (fun r => deleted p l (verdict_effecter effecter remote) 0 (fun rc hd =>
       r = (rc, match hd with Some v => set_out handle v | None => handle end))).
Proof using Hr Hd.
  unfold pldm_pdr_delete_by_effecter_id. eapply wp_step; [by apply (load_repo p l)|]. cbn [repo_first].
  apply wp_bind. eapply wp_mono.
  { apply (delete_wp p l h Hr Hd (verdict_effecter effecter remote) 0
      (fun rc hd => (rc, match hd with Some v => set_out handle v | None => handle end))).
    intros l1 c l2 E. pose proof (cell_ok_in l1 c l2 E) as Hc. pose proof (effecter_decoded c Hc) as Hdec.
    cbn [rec_of rec_data rec_size is_remote record_handle]. unfold verdict_effecter.
    pose proof (buf_at l1 c l2 E) as Eb. rewrite Z.leb_antisym in Hdec.
    destruct (e_size (c_entry c) <? 26); cbn [negb] in Hdec; [by decoded Eb Hdec|].
    destruct Hdec as (pdr & Ed & Et & Es). rewrite <- eqb_bool_decide, <- Et, <- Es.
    destruct (Bool.eqb _ _) eqn:E1, (hdr_pdr_type _ =? _) eqn:E2, (effecter_id _ =? _) eqn:E3;
      cbn [andb]; decoded Eb Ed; rewrite ?E1, ?E2, ?E3; done. }
  intros x h' (l' & Hr' & Hs & Hres). apply wp_ret. exists l'. split; [done|]. split; [done|].
  by destruct (delete_first _ _ _) as [[rc hd] es].
Qed.

Lemma delete_by_handle_ok handle remote :
  wp (pldm_pdr_delete_by_record_handle (Some p) handle remote) h
    (fun r => deleted p l (verdict_handle handle remote) (- ENOENT) (fun rc hd => r = rc)).
Proof using Hr Hd.
  unfold pldm_pdr_delete_by_record_handle. eapply wp_step; [by apply (load_repo p l)|]. cbn [repo_first].
  apply wp_bind. eapply wp_mono.
  { apply (delete_wp p l h Hr Hd (verdict_handle handle remote) (- ENOENT) (fun rc hd => rc)).
    intros l1 c l2 E. pose proof (cell_ok_in l1 c l2 E) as Hc.
    destruct (low_handle_read c Hc) as (b & Ed & b' & Ef).
    cbn [rec_of rec_data rec_size is_remote record_handle]. unfold verdict_handle.
    pose proof (buf_at l1 c l2 E) as Eb. rewrite <- eqb_bool_decide.
    destruct (Bool.eqb _ _) eqn:E1, (e_member _ _ _ =? _) eqn:E2; cbn [andb]; decoded Eb Ed;
      rewrite ?E1, ?E2; [done|..]; by (eapply run_step; [unfold lift; rewrite Ef; reflexivity|]). }
  intros x h' (l' & Hr' & Hs & Hres). apply wp_ret. exists l'. split; [done|]. split; [done|].
  by destruct (delete_first _ _ _) as [[rc hd] es].
Qed.
End delete_ops.

Lemma skip_extract_ok c k n (o : option (option cmem)) minsize :
  cell_ok c -> 0 <= n -> n + Z.of_nat (kind_size k) <= minsize <= e_size (c_entry c) ->
  decode_record (c_mem c) (e_size (c_entry c)) minsize (
    _ ← pldm_msgbuf_ro_span_required n o; '(_, v) ← pldm_msgbuf_extract k 0; mret v)
  = Ok (0, Some (kind_conv k (slice (Z.to_nat n) (kind_size k) (e_data (c_entry c))))).
Proof.
  intros Hc Hn Hm. pose proof (eo_size _ (co_entry _ Hc)).
  edestruct (decode_record_ok c Hc minsize
    (_ ← pldm_msgbuf_ro_span_required n o; '(_, v) ← pldm_msgbuf_extract k 0; mret v)
    (fun v => v = kind_conv k (slice (Z.to_nat n) (kind_size k) (e_data (c_entry c)))))
    as (v & -> & ->); [lia| |done].
  intros b Hb. apply wp_bind. eapply (wp_span_required_rd _ _ n); [exact Hb|lia|lia|].
  clear b Hb. intros b Hb. rewrite Z.add_0_l in *.
  apply wp_bind. eapply wp_extract_kind; [exact Hb|reflexivity|lia|]. clear b Hb. intros b Hb.
  cmp_case; [|lia]. apply wp_ret. split; [done|]. eexists; split; [|exact Hb]. lia.
Qed.

Section delete_fru.
Context (p : positive) (l : list cell) (h : heap).
Context (Hr : repo_at p l h) (Hd : distinct l).

Lemma matches_rsi_ok l1 c l2 rsi :
  l = l1 ++ c :: l2 -> 20 <= e_size (c_entry c) ->
  pldm_pdr_record_matches_fru_rsi (Some (c_rec c)) rsi h
  = Ok (Z.b2z (e_member (c_entry c) 12 2 =? rsi), h).
Proof using Hr.
  intros E Hs. unfold pldm_pdr_record_matches_fru_rsi.
  eapply run_step; [by apply (load_rec p l h Hr l1 c l2)|].
  cbn [rec_of rec_data rec_size is_remote record_handle].
  eapply run_step; [by eapply (buf_at p l h Hr l1 c l2)|]. eapply run_step.
  { unfold lift. rewrite (skip_extract_ok c KU16); [done| |lia|cbn; lia].
    by eapply (cell_ok_in p l h Hr l1 c l2). }
  done.
Qed.

Lemma remove_fru_ok rsi remote handle :
  wp (pldm_pdr_remove_fru_record_set_by_rsi (Some p) rsi remote (Some handle)) h
    (fun r => deleted p l (verdict_fru rsi remote) 0 (fun rc hd =>
       r = (rc, Some (default handle hd)))).
Proof using Hr Hd.
  unfold pldm_pdr_remove_fru_record_set_by_rsi. eapply wp_step; [by apply (load_repo p l)|].
  cbn [repo_first]. apply wp_bind. eapply wp_mono.
  { apply (delete_wp p l h Hr Hd (verdict_fru rsi remote) 0
      (fun rc hd => (rc, Some (default handle hd)))).
    intros l1 c l2 E. pose proof (cell_ok_in p l h Hr l1 c l2 E) as Hc.
    cbn [rec_of rec_data rec_size is_remote record_handle]. unfold verdict_fru.
    pose proof (buf_at p l h Hr l1 c l2 E) as Eb.
    destruct (Z.ltb_spec (e_size (c_entry c)) 20).
    { pose proof (decode_record_short c Hc 20
        (_ ← pldm_msgbuf_ro_span_required 5 None; '(_, v) ← pldm_msgbuf_extract KU8 0; mret v)
        ltac:(lia)) as Ed.
      by decoded Eb Ed. }
    pose proof (skip_extract_ok c KU8 5 None 20 Hc ltac:(lia) ltac:(cbn; lia)) as Ed.
    change (kind_conv KU8 _) with (e_type (c_entry c)) in Ed. rewrite <- eqb_bool_decide.
    pose proof (matches_rsi_ok l1 c l2 rsi E ltac:(lia)) as Em.
    destruct (Bool.eqb _ _) eqn:E1, (e_type _ =? _) eqn:E2, (e_member _ _ _ =? _) eqn:E3;
      cbn [andb]; decoded Eb Ed; cbn [default from_option id] in *; rewrite ?E1, ?E2; try done;
      cbn [negb orb]; (eapply run_step; [exact Em|]); done. }
  intros x h' (l' & Hr' & Hs & Hres). apply wp_ret. exists l'. split; [done|]. split; [done|].
  by destruct (delete_first _ _ _) as [[rc hd] es].
Qed.
End delete_fru.

(** ** Adding a record *)

Lemma chain_relink m l q n : NoDup (c_rec <$> l) -> chain m l q -> chain (unlink m l n) l n.
Proof.
  intros Hn Hc. unfold unlink. destruct l as [|d l _] using rev_ind; [done|].
  rewrite last_snoc. rewrite fmap_app in Hn. apply list.NoDup_app in Hn as (_ & Hd & _).
  apply chain_app in Hc as [Hc [E _]]. apply chain_app. split; [|split; [|done]].
  - apply chain_insert; [|done]. intros Hin. by eapply Hd; [|left].
  - by rewrite lookup_insert_eq.
Qed.

Lemma unlink_insert_ne m l1 n a r :
  a ∉ c_rec <$> l1 -> unlink (<[a := r]> m) l1 n = <[a := r]> (unlink m l1 n).
Proof.
  intros Ha. unfold unlink. destruct (list.last l1) as [d|] eqn:E; [|done].
  apply insert_insert_ne. intros <-. apply Ha.
  by apply list_elem_of_fmap_2, last_Some_elem_of.
Qed.

Lemma chain_unlink_disjoint m l1 l2 n q :
  NoDup (c_rec <$> (l1 ++ l2)) -> chain m l2 q -> chain (unlink m l1 n) l2 q.
Proof.
  intros Hn Hc. unfold unlink. destruct (list.last l1) as [d|] eqn:E; [|done].
  apply chain_insert; [|done]. rewrite fmap_app in Hn. apply list.NoDup_app in Hn as (_ & Hd & _).
  apply Hd, list_elem_of_fmap_2. by apply last_Some_elem_of.
Qed.

Lemma names_below_weaken {V} h h' (m : gmap positive V) :
  names_below h m -> (allocs h <= allocs h')%nat -> names_below h' m.
Proof. intros Hb Ha a Hs. specialize (Hb a Hs). unfold next_block in *. lia. Qed.

Lemma names_below_insert {V} h (m : gmap positive V) a v :
  names_below h m -> (a < next_block h)%positive -> names_below h (<[a := v]> m).
Proof.
  intros Hb Ha x [w Hx]. destruct (decide (x = a)) as [->|]; [done|].
  apply Hb. rewrite lookup_insert_ne in Hx by done. by exists w.
Qed.

Lemma names_add (f : cell -> positive) l1 c l2 :
  NoDup (f <$> (l1 ++ l2)) -> f c ∉ f <$> (l1 ++ l2) ->
  NoDup (f <$> (l1 ++ c :: l2)) /\
  (list_to_set (f <$> (l1 ++ c :: l2)) : gset positive) = {[f c]} ∪ list_to_set (f <$> (l1 ++ l2)).
Proof.
  rewrite !fmap_app, fmap_cons. intros Hn Hc. rewrite <- Permutation_middle. split.
  - by apply list.NoDup_cons.
  - rewrite !list_to_set_app_L, list_to_set_cons. clear. set_solver.
Qed.

(** The heap with a cell put in; [n] requests were made to get its blocks. *)
Definition inserted_heap (n : nat) (p : positive) (l1 : list cell) (c : cell) (l2 : list cell)
    (h : heap) : heap :=
  Heap n (<[c_buf c := c_mem c]> (h_bufs h))
       (unlink (<[c_rec c := rec_of c (head_ptr l2 None)]> (h_recs h)) l1 (Some (c_rec c)))
       (<[p := Pdr (Z.of_nat (length (l1 ++ c :: l2))) (total (l1 ++ c :: l2))
                   (head_ptr (l1 ++ c :: l2) None) (last_ptr (l1 ++ c :: l2) None)]> (h_repos h))
       (h_nodes h) (h_trees h).

(** Blocks the repository does not have yet. *)
Record fresh_cell (n : nat) (h : heap) (c : cell) : Prop := {
  fc_rec : (next_block h <= c_rec c < Pos.of_succ_nat n)%positive;
  fc_buf : (next_block h <= c_buf c < Pos.of_succ_nat n)%positive;
  fc_ok : cell_ok c
}.

Lemma fresh_name {V} h (m : gmap positive V) l (f : cell -> positive) a :
  names_below h m -> dom m = list_to_set (f <$> l) -> (next_block h <= a)%positive -> a ∉ f <$> l.
Proof.
  intros Hb Hd Ha Hin. assert (is_Some (m !! a)) as Hs.
  { apply elem_of_dom. rewrite Hd. by apply elem_of_list_to_set. }
  specialize (Hb a Hs). lia.
Qed.

Lemma repo_at_inserted n p l1 c l2 h :
  repo_at p (l1 ++ l2) h -> fresh_cell n h c ->
  Z.of_nat (length (l1 ++ c :: l2)) <= UINT32_MAX -> total (l1 ++ c :: l2) <= UINT32_MAX ->
  repo_at p (l1 ++ c :: l2) (inserted_heap n p l1 c l2 h).
Proof.
  intros Hr [Hfr Hfb Hok] Hlen Htot.
  assert (c_rec c ∉ c_rec <$> (l1 ++ l2)) as Hc.
  { eapply fresh_name; [apply (ra_rec_fresh _ _ _ Hr)|apply Hr|lia]. }
  assert (c_buf c ∉ c_buf <$> (l1 ++ l2)) as Hcb.
  { eapply fresh_name; [apply (ra_buf_fresh _ _ _ Hr)|apply Hr|lia]. }
  destruct (names_add c_rec l1 c l2 (ra_rec_names _ _ _ Hr) Hc) as [Hn Hs].
  destruct (names_add c_buf l1 c l2 (ra_buf_names _ _ _ Hr) Hcb) as [Hnb Hsb].
  pose proof Hc as Hc12. rewrite fmap_app, not_elem_of_app in Hc12. destruct Hc12 as [Hc1 Hc2].
  pose proof (ra_chain _ _ _ Hr) as Hch. apply chain_app in Hch as [Hch1 Hch2].
  pose proof (ra_rec_names _ _ _ Hr) as Hn12.
  assert (forall P : cell -> Prop, P c -> Forall P (l1 ++ l2) -> Forall P (l1 ++ c :: l2)) as HF.
  { intros P. rewrite !Forall_app, list.Forall_cons. tauto. }
  assert (dom (unlink (h_recs h) l1 (Some (c_rec c))) = dom (h_recs h)) as Hu.
  { apply unlink_dom. intros d Hd. eapply chain_is_some; [apply Hr|]. apply elem_of_app. by left. }
  assert (names_below (Heap n ∅ ∅ ∅ ∅ ∅) (h_recs h)) as Hb1.
  { apply (names_below_weaken h); [apply Hr|]. cbn. unfold next_block in *. lia. }
  constructor; cbn [inserted_heap h_recs h_bufs h_repos]; try done.
  - by rewrite lookup_insert_eq.
  - apply chain_app. rewrite unlink_insert_ne by done. cbn [head_ptr chain]. split; [|split].
    + apply chain_insert; [done|]. eapply chain_relink; [|exact Hch1].
      rewrite fmap_app in Hn12. by apply list.NoDup_app in Hn12 as [? _].
    + by rewrite lookup_insert_eq.
    + apply chain_insert; [done|]. by apply chain_unlink_disjoint.
  - apply HF; [by rewrite lookup_insert_eq|]. apply holds_insert; [done|]. apply Hr.
  - apply HF; [done|]. apply Hr.
  - rewrite unlink_insert_ne by done. by rewrite dom_insert_L, Hu, Hs, (ra_recs_dom _ _ _ Hr).
  - by rewrite dom_insert_L, Hsb, (ra_bufs_dom _ _ _ Hr).
  - rewrite unlink_insert_ne by done. apply names_below_insert; [|unfold next_block; cbn; lia].
    eapply names_below_dom; [exact Hb1|done|]. by rewrite Hu.
  - apply names_below_insert; [|unfold next_block; cbn; lia].
    apply (names_below_weaken h); [apply Hr|]. cbn. unfold next_block in *. lia.
Qed.

Definition with_allocs (n : nat) (h : heap) : heap :=
  Heap n (h_bufs h) (h_recs h) (h_repos h) (h_nodes h) (h_trees h).

Lemma repo_at_allocs p l h n : repo_at p l h -> (allocs h <= n)%nat -> repo_at p l (with_allocs n h).
Proof.
  intros Hr Hn. constructor; try apply Hr.
  - by apply (names_below_weaken h); [apply Hr|].
  - by apply (names_below_weaken h); [apply Hr|].
Qed.

(** The handle a new record gets. *)
Definition choose (l : list entry) (handle : option Z) : option Z :=
  let given := default 0 handle in
  if negb (given =? 0) then Some given
  else match list.last l with
       | Some e => if e_handle e =? UINT32_MAX then None else Some (e_handle e + 1)
       | None => Some 1
       end.

(** The data a new record keeps: the handle is written into the header when it was
    asked for with a zero handle. *)
Definition stored_data (data : list Z) (handle : option Z) (curr : Z) : list Z :=
  match handle with
  | Some h => if h =? 0 then splice 0 (le_enc 4 curr) data else data
  | None => data
  end.

Lemma stored_length data handle curr :
  (4 <= length data)%nat -> length (stored_data data handle curr) = length data.
Proof.
  intros. unfold stored_data. destruct handle as [h|]; [|done]. case_match; [|done].
  apply splice_length. rewrite le_enc_length. lia.
Qed.

Lemma stored_bytes data handle curr : bytes_ok data -> bytes_ok (stored_data data handle curr).
Proof.
  intros. unfold stored_data. destruct handle as [h|]; [|done]. case_match; [|done].
  apply splice_ok; [apply le_enc_ok|done].
Qed.

Section adding.
Context `{Allocator} (p : positive) (l : list cell) (h : heap) (Hr : repo_at p l h).

Lemma new_record_cases size :
  0 <= size ->
  (exists n, (allocs h <= n)%nat /\ new_record size h = Ok (None, with_allocs n h)) \/
  exists ad, 0 <= ad /\ ad + size <= UINTPTR_MAX /\
    let a := next_block h in
    let b := Pos.of_succ_nat (S (allocs h)) in
    new_record size h = Ok (Some (Some a, Some b),
      Heap (S (S (allocs h))) (<[b := CMem ad (malloc_junk (S (allocs h)) size)]> (h_bufs h))
        (<[a := raw_record 0 (malloc_junk (allocs h) SIZEOF_PDR_RECORD)]> (h_recs h)) (h_repos h) (h_nodes h) (h_trees h)).
Proof.
  intros Hs. unfold new_record, malloc, mbind, stM_bind.
  destruct (malloc_addr (allocs h) SIZEOF_PDR_RECORD) as [ad1|] eqn:E1.
  2: { left. exists (S (allocs h)). split; [lia|]. done. }
  cbn [tick allocs set_region record_region].
  destruct (malloc_addr (S (allocs h)) size) as [ad|] eqn:E2.
  - right. exists ad. apply malloc_fits in E2 as [? ?]. by split_and!.
  - left. exists (S (S (allocs h))). split; [lia|]. unfold free. cbn.
    rewrite lookup_insert_eq. cbn. unfold with_allocs. rewrite delete_insert_id; [done|].
    destruct (h_recs h !! next_block h) eqn:E; [|done].
    pose proof (ra_rec_fresh _ _ _ Hr (next_block h) ltac:(by eexists)). lia.
Qed.

Lemma choose_handle_ok handle :
  choose_handle (Pdr (Z.of_nat (length l)) (total l) (head_ptr l None) (last_ptr l None)) handle h
  = Ok (choose (entries l) handle, h).
Proof using Hr.
  unfold choose_handle, choose. destruct (negb _); [done|]. cbn [repo_last].
  pose proof Hr as Hr'. destruct l as [|c l1 _] using rev_ind; [done|].
  rewrite last_ptr_app. unfold entries. rewrite fmap_app. cbn. rewrite last_snoc.
  eapply run_step; [apply (load_rec p (l1 ++ [c]) h Hr' l1 c [] eq_refl)|]. cbn [rec_of record_handle].
  pose proof (cell_ok_in p (l1 ++ [c]) h Hr' l1 c [] eq_refl) as Hc.
  pose proof (eo_handle _ (co_entry _ Hc)).
  destruct (Z.eqb_spec (e_handle (c_entry c)) 4294967295); [done|].
  unfold u32. rewrite Z.mod_small by lia. done.
Qed.

(** The record handle written into the copied header. *)
Lemma header_ok b ad raw handle curr h0 :
  h_bufs h0 !! b = Some (CMem ad raw) -> (4 <= length raw)%nat ->
  match handle with
  | Some h => if h =? 0 then set_data_member (Some b) 0 4 curr else mret tt
  | None => mret tt
  end h0 = Ok (tt, set_region (<[b := CMem ad (stored_data raw handle curr)]> (h_bufs h0)) h0).
Proof.
  intros E Hl. assert (forall s, <[b := CMem ad raw]> (h_bufs h0) = s -> set_region s h0 = h0) as Hid.
  { intros s <-. rewrite insert_id by done. by destruct h0. }
  unfold stored_data. destruct handle as [x|]; [|by rewrite (Hid _ eq_refl)].
  destruct (x =? 0); [|by rewrite (Hid _ eq_refl)].
  unfold set_data_member. eapply run_step; [by apply (load_ok (T := cmem) b (CMem ad raw))|].
  eapply run_step.
  { unfold lift. rewrite mem_write_ok; [done|lia|]. rewrite le_enc_length.
    unfold mem_size. cbn. lia. }
  cbn [addr bytes]. change (Z.to_nat 0) with O. erewrite store_ok; [reflexivity|exact E].
Qed.

(** Linking a record whose blocks are filled. *)
Lemma link_ok n c :
  fresh_cell n h c -> Z.of_nat (length l) < UINT32_MAX -> total l + e_size (c_entry c) <= UINT32_MAX ->
  let h1 := Heap n (<[c_buf c := c_mem c]> (h_bufs h)) (<[c_rec c := rec_of c None]> (h_recs h))
                 (h_repos h) (h_nodes h) (h_trees h) in
  append_record (Some p) (Pdr (Z.of_nat (length l)) (total l) (head_ptr l None) (last_ptr l None))
    (Some (c_rec c)) (e_size (c_entry c)) h1
  = Ok (tt, inserted_heap n p l c [] h).
Proof using Hr.
  intros Hf Hlen Htot h1. unfold append_record. cbn [repo_first repo_last record_count repo_size]. pose proof (total_nonneg l).
  assert (u32 (Z.of_nat (length l) + 1) = Z.of_nat (length (l ++ [c]))) as El.
  { unfold u32. rewrite Z.mod_small by lia. rewrite length_app. cbn. lia. }
  assert (u32 (total l + e_size (c_entry c)) = total (l ++ [c])) as Et.
  { unfold u32. rewrite total_app. cbn. unfold e_size in *. rewrite Z.mod_small by lia. lia. }
  assert (h_repos h1 !! p = Some _) as Hp by apply Hr.
  unfold inserted_heap. rewrite head_ptr_app, last_ptr_app, <- El, <- Et. cbn [head_ptr last_ptr].
  pose proof Hr as Hr'. destruct l as [|d l0 _] using rev_ind.
  { eapply run_step; [done|]. eapply run_step; [done|]. erewrite store_ok; [reflexivity|exact Hp]. }
  rewrite head_ptr_app, last_ptr_app. cbn [head_ptr last_ptr]. unfold unlink. rewrite last_snoc.
  replace (match head_ptr l0 (Some (c_rec d)) with
           | None => mret (Pdr _ _ _ _) | Some _ => _ end)
    with (_ ← update (Some (c_rec d)) (set_rec_next (Some (c_rec c)));
          mret (M := stM heap) (Pdr (Z.of_nat (length (l0 ++ [d]))) (total (l0 ++ [d]))
            (head_ptr l0 (Some (c_rec d))) (Some (c_rec c))))
    by (by destruct l0).
  eapply run_step; [by destruct l0|].
  assert (h_recs h1 !! c_rec d = Some (rec_of d None)) as Ed.
  { cbn. rewrite lookup_insert_ne.
    - pose proof (ra_chain _ _ _ Hr') as Hc. by apply (chain_lookup _ l0 d [] None) in Hc.
    - intros Ee. apply (fresh_name h (h_recs h) (l0 ++ [d]) c_rec (c_rec c));
        [apply Hr'|apply Hr'|apply Hf|]. rewrite Ee, fmap_app. set_solver. }
  eapply run_step. { eapply run_step; [eapply update_ok, Ed|reflexivity]. }
  replace (head_ptr l0 (Some (c_rec d))) with (head_ptr (l0 ++ [d]) None) by apply head_ptr_app.
  replace (head_ptr (l0 ++ [d]) (Some (c_rec c))) with (head_ptr (l0 ++ [d]) None)
    by (by rewrite !head_ptr_app).
  erewrite store_ok; [reflexivity|exact Hp].
Qed.

Lemma choose_bound es handle x :
  Forall entry_ok es -> 0 <= default 0 handle <= UINT32_MAX ->
  choose es handle = Some x -> 1 <= x <= UINT32_MAX.
Proof.
  intros Hes Hh. unfold choose. destruct (Z.eqb_spec (default 0 handle) 0); cbn [negb].
  - destruct (list.last es) as [d|] eqn:E; [|intros [= <-]; lia].
    rewrite Forall_elem in Hes. pose proof (eo_handle _ (Hes d (last_Some_elem_of _ _ E))).
    cmp_case; [done|]. intros [= <-]. lia.
  - intros [= <-]. lia.
Qed.

Lemma entries_ok : Forall entry_ok (entries l).
Proof using Hr.
  unfold entries. rewrite Forall_fmap. eapply list.Forall_impl; [apply (ra_cells _ _ _ Hr)|].
  by intros c [].
Qed.

(** What [pldm_pdr_add] does: nothing when there is no handle or no memory left,
    else the record is appended. *)
Lemma add_ok data size remote th handle :
  SIZEOF_PDR_HDR <= size <= UINT32_MAX -> size <= mem_size data -> bytes_ok (take (Z.to_nat size) (bytes data)) ->
  0 <= default 0 handle <= UINT32_MAX ->
  Z.of_nat (length l) < UINT32_MAX -> total l + size <= UINT32_MAX ->
  wp (pldm_pdr_add (Some p) (Some data) size remote th handle) h (fun r h' =>
    match choose (entries l) handle with
    | None => r = (- EOVERFLOW, handle) /\ h' = h
    | Some curr =>
        (r = (- ENOMEM, handle) /\ repo_at p l h') \/
        (exists c, r = (0, set_out handle curr) /\ repo_at p (l ++ [c]) h' /\
           c_entry c = Entry curr (stored_data (take (Z.to_nat size) (bytes data)) handle curr) remote th)
    end).
Proof using Hr.
  intros Hsz Hm Hby Hh Hlen Htot. unfold pldm_pdr_add. cmp_case; [lia|].
  eapply wp_step; [by apply (load_repo p l)|]. eapply wp_step; [apply choose_handle_ok|].
  destruct (choose (entries l) handle) as [curr|] eqn:Ec; [|by apply wp_ret].
  destruct (new_record_cases size ltac:(lia)) as [(n & Hn & E)|(ad & Ha1 & Ha2 & E)].
  { eapply wp_step; [exact E|]. apply wp_ret. left. split; [done|]. by apply repo_at_allocs. }
  set (a := next_block h) in *. set (b := Pos.of_succ_nat (S (allocs h))) in *.
  set (raw := take (Z.to_nat size) (bytes data)).
  assert (Z.of_nat (length raw) = size) as Hraw.
  { unfold raw, mem_size in *. rewrite length_take. lia. }
  set (c := Cell a b ad (Entry curr (stored_data raw handle curr) remote th)).
  assert (e_size (c_entry c) = size) as Hcs.
  { unfold e_size. cbn. rewrite stored_length; lia. }
  pose proof (malloc_length (S (allocs h)) size ltac:(lia)) as Hj.
  eapply wp_step; [exact E|]. eapply wp_step.
  { unfold lift. rewrite (mem_read_ok data 0 size raw); [done|lia|lia|lia|done]. }
  eapply wp_step. { apply (load_ok (T := cmem) b). cbn. apply lookup_insert_eq. }
  eapply wp_step.
  { unfold lift. rewrite mem_write_ok; [done|lia|]. unfold mem_size. cbn [bytes]. lia. }
  eapply wp_step. { eapply (store_ok (T := cmem) b). cbn. apply lookup_insert_eq. }
  cbn [region set_region buf_region h_bufs]. rewrite insert_insert_eq.
  eapply wp_step. { eapply (store_ok a). cbn. apply lookup_insert_eq. }
  eapply wp_step.
  { apply (header_ok b ad raw handle curr); [|lia]. cbn. rewrite lookup_insert_eq.
    do 2 f_equal. unfold splice. cbn. rewrite drop_ge; [by rewrite app_nil_r|lia]. }
  assert (fresh_cell (S (S (allocs h))) h c) as Hf.
  { pose proof (choose_bound (entries l) handle curr entries_ok Hh Ec) as Hch.
    constructor; [cbn; unfold a, b, next_block; clear; lia..|].
    constructor; [|done|rewrite Hcs; cbn; lia].
    constructor; [done|by rewrite Hcs|]. by apply stored_bytes. }
  pose proof (link_ok (S (S (allocs h))) c Hf Hlen ltac:(lia)) as El.
  rewrite Hcs in El. cbn zeta in El. eapply wp_step.
  { cbn. rewrite !insert_insert_eq. unfold c_mem, rec_of in El. rewrite Hcs in El. exact El. }
  apply wp_ret. right. exists c. split; [done|]. split; [|done].
  pose proof (repo_at_inserted (S (S (allocs h))) p l c [] h) as Hi. rewrite app_nil_r in Hi.
  apply Hi; [done|done|rewrite length_app; cbn; lia|rewrite total_app; unfold total at 2; cbn [foldr]; lia].
Qed.
End adding.

(** ** Changing a record in place *)

Definition altered_heap (c : cell) (l2 : list cell) (h : heap) : heap :=
  Heap (allocs h) (<[c_buf c := c_mem c]> (h_bufs h))
       (<[c_rec c := rec_of c (head_ptr l2 None)]> (h_recs h)) (h_repos h) (h_nodes h) (h_trees h).

Record same_blocks (c c' : cell) : Prop := {
  sb_rec : c_rec c' = c_rec c;
  sb_buf : c_buf c' = c_buf c;
  sb_size : e_size (c_entry c') = e_size (c_entry c)
}.

Lemma repo_at_altered p l1 c c' l2 h :
  repo_at p (l1 ++ c :: l2) h -> same_blocks c c' -> cell_ok c' ->
  repo_at p (l1 ++ c' :: l2) (altered_heap c' l2 h).
Proof.
  intros Hr [Er Eb Es] Hok. pose proof (ra_chain _ _ _ Hr) as Hch.
  pose proof (chain_lookup _ _ _ _ _ Hch) as Elook. apply chain_app in Hch as [Hch1 [_ Hch2]].
  pose proof (ra_rec_names _ _ _ Hr) as Hn. pose proof (ra_buf_names _ _ _ Hr) as Hnb.
  assert (forall f : cell -> positive, f c' = f c -> f <$> (l1 ++ c' :: l2) = f <$> (l1 ++ c :: l2)) as Ef.
  { intros f E. by rewrite !fmap_app, !fmap_cons, E. }
  assert (total (l1 ++ c' :: l2) = total (l1 ++ c :: l2)) as Et by (rewrite !total_app; cbn; lia).
  assert (length (l1 ++ c' :: l2) = length (l1 ++ c :: l2)) as El by (by rewrite !length_app).
  destruct (names_drop c_rec l1 c l2 Hn) as (Hc & _ & _).
  destruct (names_drop c_buf l1 c l2 Hnb) as (Hcb & _ & _).
  rewrite fmap_app, not_elem_of_app in Hc, Hcb.
  pose proof (buf_at_cell p l1 c l2 h Hr) as Ebuf.
  constructor; cbn [altered_heap h_repos h_recs h_bufs];
    rewrite ?(Ef c_rec Er), ?(Ef c_buf Eb), ?Et, ?El; try apply Hr.
  - rewrite (ra_repo _ _ _ Hr), !head_ptr_app, !last_ptr_app. cbn. by rewrite Er.
  - apply chain_app. cbn [head_ptr chain]. rewrite Er. split; [by apply chain_insert; [apply Hc|]|].
    split; [by rewrite lookup_insert_eq|]. by apply chain_insert; [apply Hc|].
  - pose proof (ra_bufs _ _ _ Hr) as Hb. unfold holds in Hb.
    apply Forall_app in Hb as [Hb1 Hb2]. apply list.Forall_cons in Hb2 as [_ Hb2].
    rewrite Eb. apply Forall_app. split; [by apply holds_insert; [apply Hcb|]|].
    apply list.Forall_cons. split; [by rewrite Eb, lookup_insert_eq|].
    by apply holds_insert; [apply Hcb|].
  - pose proof (ra_cells _ _ _ Hr) as Ha. apply Forall_app in Ha as [Ha1 Ha2].
    apply list.Forall_cons in Ha2 as [_ Ha2]. apply Forall_app. split; [done|]. by apply list.Forall_cons.
  - rewrite Er, dom_insert_lookup_L by by eexists. apply Hr.
  - rewrite Eb, dom_insert_lookup_L by by eexists. apply Hr.
  - eapply names_below_dom; [apply (ra_rec_fresh _ _ _ Hr)|done|].
    by rewrite Er, dom_insert_lookup_L by by eexists.
  - eapply names_below_dom; [apply (ra_buf_fresh _ _ _ Hr)|done|].
    by rewrite Eb, dom_insert_lookup_L by by eexists.
Qed.

(** ** Removing the records of a terminus *)

Section dropping.
Context (p : positive).

Lemma drop_record_ok l1 c l2 h :
  repo_at p (l1 ++ c :: l2) h ->
  drop_record (Some p) (Some (c_rec c)) (last_ptr l1 None) (rec_of c (head_ptr l2 None)) h
  = Ok (tt, removed_heap p l1 c l2 h).
Proof.
  intros Hr. unfold drop_record. eapply run_step; [by apply (load_repo p (l1 ++ c :: l2))|].
  cbn [repo_first repo_last record_count repo_size rec_of rec_next rec_data rec_size].
  rewrite (first_is_record p l1 c l2 h Hr), (last_is_record p l1 c l2 h Hr).
  destruct (removed_sums p l1 c l2 h Hr) as (Ec & Et & _). rewrite Ec, Et. unfold removed_heap, unlink.
  pose proof (ra_repo _ _ _ Hr) as Hrepo. pose proof (ra_chain _ _ _ Hr) as Hch.
  pose proof (buf_at_cell p l1 c l2 h Hr) as Hbuf.
  destruct l1 as [|d l0 _] using rev_ind.
  - cbn [last_ptr list.last app]. eapply run_step; [done|].
    destruct l2 as [|e l3]; cbn [last_ptr head_ptr];
      (eapply run_step; [eapply free_ok, Hbuf|]); (eapply run_step; [eapply store_ok, Hrepo|]);
      erewrite free_ok; try apply Hch; done.
  - rewrite last_snoc. rewrite <- !app_assoc in *. cbn [app] in *.
    rewrite !last_ptr_app, !head_ptr_app. cbn [last_ptr head_ptr].
    destruct (before_at p l0 d c l2 h Hr) as (Ed & Ecc & Hne).
    eapply run_step. { eapply run_step; [eapply update_ok, Ed|reflexivity]. }
    eapply run_step; [eapply free_ok, Hbuf|]. eapply run_step; [eapply store_ok, Hrepo|].
    erewrite free_ok by (cbn; by rewrite lookup_insert_ne). by destruct l2.
Qed.
End dropping.
