(* ===== verification/PdrProps.v ===== *)
(** * The contract of the PDR repository

    What the operations of Pdr.v do to the list of entries a repository stands
    for, for every sequence of calls: no call faults, each returns what the list
    function says, and the heap keeps representing the list, with nothing leaked. *)

From stdpp Require Import gmap.
From S2P Require Import Prelude Msgbuf PdrHeap Pdr PdrRepo.

(** ** Removing a terminus: filter and renumber *)

Definition keep (d : entry -> bool) (l : list entry) : list entry := List.filter (fun e => negb (d e)) l.

Definition set_handle (n : Z) (e : entry) : entry :=
  Entry n (splice 0 (le_enc 4 n) (e_data e)) (e_remote e) (e_terminus e).

Fixpoint renumber (n : Z) (l : list entry) : list entry :=
  match l with [] => [] | e :: l => set_handle (n + 1) e :: renumber (n + 1) l end.

Definition without (d : entry -> bool) (l : list entry) : list entry :=
  if existsb d l then renumber 0 (keep d l) else l.

Definition keep_cells (d : entry -> bool) (l : list cell) : list cell :=
  List.filter (fun c => negb (d (c_entry c))) l.

Definition number_cell (n : Z) (c : cell) : cell :=
  Cell (c_rec c) (c_buf c) (c_addr c) (set_handle n (c_entry c)).

Fixpoint renumber_cells (n : Z) (l : list cell) : list cell :=
  match l with [] => [] | c :: l => number_cell (n + 1) c :: renumber_cells (n + 1) l end.

Lemma entries_keep d l : entries (keep_cells d l) = keep d (entries l).
Proof.
  unfold entries, keep_cells, keep. induction l as [|c l IH]; [done|]. cbn.
  destruct (d (c_entry c)); cbn; [apply IH|]. f_equal. apply IH.
Qed.

Lemma entries_renumber n l : entries (renumber_cells n l) = renumber n (entries l).
Proof. unfold entries. revert n. induction l as [|c l IH]; intros n; cbn; f_equal. apply IH. Qed.

Lemma entries_app l1 l2 : entries (l1 ++ l2) = entries l1 ++ entries l2.
Proof. apply fmap_app. Qed.

Lemma set_handle_size n e : SIZEOF_PDR_HDR <= e_size e -> e_size (set_handle n e) = e_size e.
Proof.
  unfold e_size, set_handle. cbn [e_data]. intros. rewrite splice_length; [done|]. rewrite le_enc_length. lia.
Qed.

Lemma number_cell_ok n c :
  cell_ok c -> 1 <= n <= UINT32_MAX -> same_blocks c (number_cell n c) /\ cell_ok (number_cell n c).
Proof.
  intros [[? [? ?] ?] ? ?] Hn.
  assert (e_size (c_entry (number_cell n c)) = e_size (c_entry c)) as Es by by apply set_handle_size.
  split; [by constructor|]. constructor; [|done|by rewrite Es].
  constructor; [done|by rewrite Es|]. by apply splice_ok; [apply le_enc_ok|].
Qed.

Section loops.
Context (p : positive) (d : entry -> bool) (drop_it : pldm_pdr_record -> bool).
Context (Hdrop : forall c n, drop_it (rec_of c n) = d (c_entry c)).

Lemma remove_loop_ok fuel rest : forall kept h removed,
  repo_at p (kept ++ rest) h -> (length rest <= fuel)%nat ->
  wp (remove_loop fuel drop_it (Some p) (head_ptr rest None) (last_ptr kept None) removed) h
    (fun b h' => b = removed || existsb d (entries rest) /\ repo_at p (kept ++ keep_cells d rest) h').
Proof using Hdrop.
  revert fuel. induction rest as [|c rest IH]; intros fuel kept h removed Hr Hf.
  { destruct fuel; apply wp_ret; by rewrite orb_false_r. }
  destruct fuel as [|fuel]; [cbn in Hf; lia|]. cbn [remove_loop head_ptr].
  eapply wp_step; [by apply (load_rec p (kept ++ c :: rest) h Hr kept c rest)|].
  rewrite Hdrop. cbn [entries fmap list_fmap existsb keep_cells List.filter].
  destruct (d (c_entry c)) eqn:Ed; cbn [negb].
  - eapply wp_step; [by apply drop_record_ok|]. cbn [rec_of rec_next]. eapply wp_mono.
    { apply IH; [by apply repo_at_removed|cbn in Hf; lia]. }
    intros b h' [-> Hr']. by rewrite orb_true_r.
  - cbn [rec_of rec_next]. eapply wp_mono.
    { pose proof (IH fuel (kept ++ [c]) h removed) as IH'. rewrite last_ptr_app in IH'.
      apply IH'; [by rewrite <- app_assoc|cbn in Hf; lia]. }
    intros b h' [-> Hr']. split; [done|]. by rewrite <- app_assoc in Hr'.
Qed.
End loops.

Lemma renumber_record_ok p l1 c l2 n h :
  repo_at p (l1 ++ c :: l2) h ->
  renumber_record (Some (c_rec c)) n h
  = Ok (head_ptr l2 None, altered_heap (number_cell n c) l2 h).
Proof.
  intros Hr. unfold renumber_record. pose proof (chain_lookup _ _ _ _ _ (ra_chain _ _ _ Hr)) as Ec.
  pose proof (buf_at_cell p l1 c l2 h Hr) as Eb.
  pose proof (cell_size p (l1 ++ c :: l2) h Hr c ltac:(set_solver)) as Hs. unfold e_size in Hs.
  eapply run_step; [eapply update_ok, Ec|]. eapply run_step.
  { apply load_ok. cbn. apply lookup_insert_eq. }
  cbn [set_rec_handle rec_of rec_data]. eapply run_step; [|done].
  unfold set_data_member. eapply run_step; [eapply load_ok; exact Eb|].
  eapply run_step.
  { unfold lift. rewrite mem_write_ok; [done|lia|]. rewrite le_enc_length. unfold mem_size. cbn. lia. }
  erewrite store_ok by exact Eb. unfold altered_heap, rec_of. cbn [number_cell c_entry c_rec c_buf].
  rewrite set_handle_size by (unfold e_size; lia). done.
Qed.

Lemma renumber_loop_ok p fuel l2 : forall l1 n h,
  repo_at p (l1 ++ l2) h -> (length l2 <= fuel)%nat -> 0 <= n -> n + Z.of_nat (length l2) <= UINT32_MAX ->
  wp (renumber_loop fuel (head_ptr l2 None) n) h
    (fun _ h' => repo_at p (l1 ++ renumber_cells n l2) h').
Proof.
  revert fuel. induction l2 as [|c l2 IH]; intros fuel l1 n h Hr Hf Hn Hm.
  { by destruct fuel; apply wp_ret. }
  destruct fuel as [|fuel]; [cbn in Hf; lia|]. cbn [length] in *. cbn [renumber_loop head_ptr].
  unfold u32. rewrite Z.mod_small by lia.
  eapply wp_step; [by eapply renumber_record_ok|].
  assert (cell_ok c) as Hc by by eapply (cell_ok_in p (l1 ++ c :: l2) h Hr l1 c l2).
  destruct (number_cell_ok (n + 1) c Hc ltac:(lia)) as [Hs Hok].
  eapply wp_mono.
  { apply (IH fuel (l1 ++ [number_cell (n + 1) c])); [|lia..]. rewrite <- app_assoc.
    by apply repo_at_altered with c. }
  intros [] h' Hr'. by rewrite <- app_assoc in Hr'.
Qed.

Lemma length_keep_cells d l : (length (keep_cells d l) <= length l)%nat.
Proof. unfold keep_cells. induction l as [|c l IH]; [done|]. cbn. case_match; cbn; lia. Qed.

Lemma remove_and_renumber_ok p l h d drop_it :
  repo_at p l h -> (forall c n, drop_it (rec_of c n) = d (c_entry c)) ->
  wp (remove_and_renumber (Some p) drop_it) h (fun _ h' =>
    exists l', repo_at p l' h' /\ entries l' = without d (entries l)).
Proof.
  intros Hr Hd. unfold remove_and_renumber. eapply wp_step; [by apply (load_repo p l)|].
  destruct (fuel_enough p l h Hr) as [Hf Hle]. eapply wp_step; [exact Hf|].
  apply wp_bind. eapply wp_mono.
  { by apply (remove_loop_ok p d drop_it Hd _ l [] h false); [|lia]. }
  intros b h' [-> Hr']. cbn [orb app] in *. unfold without. destruct (existsb d (entries l)) eqn:E.
  - eapply wp_step; [by apply (load_repo p (keep_cells d l))|]. cbn [repo_first].
    pose proof (length_keep_cells d l). pose proof (ra_count _ _ _ Hr).
    eapply wp_mono; [by apply (renumber_loop_ok p _ _ [] 0 h'); [|lia..]|].
    intros [] h2 Hr2. exists (renumber_cells 0 (keep_cells d l)). split; [done|].
    by rewrite entries_renumber, entries_keep.
  - apply wp_ret. exists (keep_cells d l). split; [done|]. rewrite entries_keep.
    unfold keep. revert E. clear. induction (entries l) as [|e es IH]; [done|].
    cbn. intros [E1 E2]%orb_false_iff. rewrite E1. cbn. f_equal. auto.
Qed.

(** ** Queries by content *)

(** A record long enough for what its type makes the library read from it. *)
Definition entry_wf (e : entry) : Prop :=
  (e_type e = PLDM_TERMINUS_LOCATOR_PDR -> 19 <= e_size e) /\
  (e_type e = PLDM_PDR_FRU_RECORD_SET -> 20 <= e_size e) /\
  (e_type e = PLDM_PDR_ENTITY_ASSOCIATION -> 20 + 6 * e_member e 19 1 <= e_size e).

Definition typed (t : Z) (c : cell) : bool := e_type (c_entry c) =? t.

Definition found_type (r : option (cell * list cell)) : hptr * hptr * Z :=
  match r with
  | Some (c, _) => (Some (c_rec c), Some (c_buf c), e_size (c_entry c))
  | None => (None, None, 0)
  end.

Section contents.
Context (p : positive) (l : list cell) (h : heap) (Hr : repo_at p l h).
Context (Hwf : Forall entry_wf (entries l)).

Lemma wf_in c : c ∈ l -> entry_wf (c_entry c).
Proof using Hwf.
  intros Hc. rewrite Forall_elem in Hwf. apply Hwf. by apply list_elem_of_fmap_2.
Qed.

(** The search from behind the cells [pre]. *)
Lemma find_by_type_ok pre rest t :
  l = pre ++ rest ->
  pldm_pdr_find_record_by_type (Some p) t (last_ptr pre None) h
  = Ok (found_type (first_cell (typed t) rest), h).
Proof using Hr.
  intros E. unfold pldm_pdr_find_record_by_type. eapply run_step; [by apply (load_repo p l)|].
  cbn [repo_first]. eapply (run_step _ _ _ (head_ptr rest None)).
  { destruct pre as [|d pre _] using rev_ind; [by rewrite E|]. rewrite last_ptr_app. cbn [last_ptr].
    eapply run_step; [apply (load_rec p l h Hr pre d rest); by rewrite E, <- app_assoc|done]. }
  eapply run_step.
  { apply (walk_reads p l h Hr pre rest (typed t)
      (fun c _ => (Some (c_rec c), Some (c_buf c), e_size (c_entry c)))); [done|].
    intros l1 c l2 E2. cbn [rec_of rec_data rec_size].
    eapply run_step; [apply (hdr_type_ok p l h Hr)|]; [|unfold typed; by destruct (_ =? t)].
    rewrite E, E2, !elem_of_app, elem_of_cons. auto. }
  by destruct (first_cell (typed t) rest) as [[c l2]|].
Qed.

(** Where the search stopped, and how to go on from there. *)
Lemma first_cell_next pre rest P c l2 :
  l = pre ++ rest -> first_cell P rest = Some (c, l2) ->
  exists l1, rest = l1 ++ c :: l2 /\ l = ((pre ++ l1) ++ [c]) ++ l2 /\
    last_ptr ((pre ++ l1) ++ [c]) None = Some (c_rec c) /\ c ∈ l /\
    Forall (fun x => P x = false) l1 /\ P c = true.
Proof.
  intros E Hf. destruct (first_cell_split _ _ _ _ Hf) as (l1 & El & Hp & Hc). exists l1.
  split; [done|]. split; [by rewrite E, El, <- !app_assoc|]. split; [by rewrite last_ptr_app|].
  split; [|done]. rewrite E, El, !elem_of_app, elem_of_cons. auto.
Qed.

Definition rsi_match (rsi : Z) (c : cell) : bool :=
  typed PLDM_PDR_FRU_RECORD_SET c && (e_member (c_entry c) 12 2 =? rsi).

(** The FRU record set found, with its contents. *)
Definition rsi_answer (r : option (cell * list cell)) : hptr * Z * Z * Z * Z :=
  match r with
  | Some (c, _) =>
      let e := c_entry c in
      (Some (c_rec c), e_member e 10 2, e_member e 14 2, e_member e 16 2, e_member e 18 2)
  | None => (None, 0, 0, 0, 0)
  end.

Lemma first_cell_skip P l1 l2 : Forall (fun x => P x = false) l1 -> first_cell P (l1 ++ l2) = first_cell P l2.
Proof. induction 1 as [|c l1 E _ IH]; cbn; [done|]. by rewrite E. Qed.

Lemma find_by_rsi_loop_ok rsi fuel : forall pre rest,
  l = pre ++ rest -> (length rest < fuel)%nat ->
  exists x, find_by_rsi_loop fuel (Some p) rsi (found_type (first_cell (typed PLDM_PDR_FRU_RECORD_SET) rest)) h
            = Ok (x, h) /\ default (None, 0, 0, 0, 0) x = rsi_answer (first_cell (rsi_match rsi) rest).
Proof using Hr Hwf.
  induction fuel as [|fuel IH]; intros pre rest E Hf; [lia|].
  destruct (first_cell (typed PLDM_PDR_FRU_RECORD_SET) rest) as [[c l2]|] eqn:Ec.
  2: { exists None. split; [done|]. replace (first_cell (rsi_match rsi) rest) with (@None (cell * list cell)); [done|].
       symmetry. apply first_cell_none. apply first_cell_none in Ec.
       eapply list.Forall_impl; [exact Ec|]. intros x Hx. unfold rsi_match. by rewrite Hx. }
  destruct (first_cell_next _ _ _ _ _ E Ec) as (l1 & El & E' & Elast & Hin & Hp & Ht).
  pose proof (wf_in c Hin) as (_ & Hs & _).
  assert (20 <= e_size (c_entry c)) as Hsz by (apply Hs; unfold typed in Ht; lia). clear Hs.
  assert (Forall (fun x => rsi_match rsi x = false) l1) as Hp2.
  { eapply list.Forall_impl; [exact Hp|]. intros x Hx. unfold rsi_match. by rewrite Hx. }
  assert (forall off n : nat, Z.of_nat (off + n) <= 20 ->
    data_member (Some (c_buf c)) (Z.of_nat off) (Z.of_nat n) h = Ok (e_member (c_entry c) off n, h)) as Hm.
  { intros. apply (data_member_ok p l h Hr); [done|lia]. }
  rewrite El, (first_cell_skip _ _ _ Hp2). cbn [first_cell found_type find_by_rsi_loop].
  unfold rsi_match at 1. rewrite Ht. cbn [andb].
  destruct (e_member (c_entry c) 12 2 =? rsi) eqn:Er.
  - exists (Some (rsi_answer (Some (c, l2)))). split; [|done]. eapply run_step; [by apply (Hm 12%nat 2%nat)|]. rewrite Er.
    eapply run_step; [by apply (Hm 10%nat 2%nat)|]. eapply run_step; [by apply (Hm 14%nat 2%nat)|].
    eapply run_step; [by apply (Hm 16%nat 2%nat)|]. eapply run_step; [by apply (Hm 18%nat 2%nat)|done].
  - destruct (IH ((pre ++ l1) ++ [c]) l2 E') as (x & Ex & Hx).
    { rewrite El, length_app in Hf. cbn in Hf. lia. }
    exists x. split; [|done]. eapply run_step; [by apply (Hm 12%nat 2%nat)|]. rewrite Er.
    eapply run_step; [|exact Ex]. rewrite <- Elast. by apply find_by_type_ok.
Qed.

Lemma find_by_rsi_ok rsi :
  pldm_pdr_fru_record_set_find_by_rsi (Some p) rsi h = Ok (rsi_answer (first_cell (rsi_match rsi) l), h).
Proof using Hr Hwf.
  unfold pldm_pdr_fru_record_set_find_by_rsi. eapply run_step; [by apply (find_by_type_ok [] l)|].
  destruct (fuel_enough p l h Hr) as [Hf Hle]. eapply run_step; [exact Hf|].
  destruct (find_by_rsi_loop_ok rsi (S (size (h_recs h))) [] l eq_refl ltac:(lia)) as (x & Ex & Hx).
  eapply run_step; [exact Ex|]. by rewrite Hx.
Qed.
End contents.

(** ** Terminus locators *)

Definition tl_match (th tid eid : Z) (e : entry) : bool :=
  (e_type e =? PLDM_TERMINUS_LOCATOR_PDR) && (e_member e 10 2 =? th)
  && (e_member e 13 1 =? tid) && (e_member e 18 1 =? eid).

Definition set_validity (v : bool) (e : entry) : entry :=
  Entry (e_handle e) (splice 12 (le_enc 1 (Z.b2z v)) (e_data e)) (e_remote e) (e_terminus e).

Fixpoint alter_first {A} (P : A -> bool) (f : A -> A) (l : list A) : list A :=
  match l with [] => [] | x :: l => if P x then f x :: l else x :: alter_first P f l end.

Lemma alter_first_app {A} (P : A -> bool) f l1 l2 :
  Forall (fun x => P x = false) l1 -> alter_first P f (l1 ++ l2) = l1 ++ alter_first P f l2.
Proof. induction 1 as [|x l1 E _ IH]; cbn; [done|]. by rewrite E, IH. Qed.

Lemma alter_first_none {A} (P : A -> bool) f l : Forall (fun x => P x = false) l -> alter_first P f l = l.
Proof. induction 1 as [|x l E _ IH]; cbn; [done|]. by rewrite E, IH. Qed.

Lemma alter_first_fmap {A B} (P : A -> bool) f (g : A -> B) l :
  (forall x, g (f x) = g x) -> g <$> alter_first P f l = g <$> l.
Proof.
  intros Hg. induction l as [|x l IH]; cbn; [done|].
  destruct (P x); cbn; f_equal; [apply Hg|apply IH].
Qed.

Lemma alter_first_forall {A} (P : A -> bool) f (Q : A -> Prop) l :
  (forall x, P x = true -> Q x -> Q (f x)) -> Forall Q l -> Forall Q (alter_first P f l).
Proof.
  intros Hf. induction 1 as [|x l Hx Hl IH]; cbn; [constructor|].
  destruct (P x) eqn:E; constructor; auto.
Qed.

Section locators.
Context (p : positive) (l : list cell) (h : heap) (Hr : repo_at p l h).
Context (Hwf : Forall entry_wf (entries l)).
Context (th tid eid : Z) (v : bool).
#[local] Abbreviation hit := (tl_match th tid eid) (only parsing).

Definition relocated (h' : heap) : Prop :=
  exists l', repo_at p l' h' /\
    entries l' = alter_first (tl_match th tid eid) (set_validity v) (entries l).

Lemma not_typed_no_match l1 :
  Forall (fun c => typed PLDM_TERMINUS_LOCATOR_PDR c = false) l1 ->
  Forall (fun e => tl_match th tid eid e = false) (entries l1).
Proof.
  intros Hl. unfold entries. rewrite Forall_fmap. eapply list.Forall_impl; [exact Hl|].
  unfold typed, tl_match. intros c Hc. cbn. by rewrite Hc.
Qed.

Lemma set_validity_ok c :
  cell_ok c -> 19 <= e_size (c_entry c) ->
  let c' := Cell (c_rec c) (c_buf c) (c_addr c) (set_validity v (c_entry c)) in
  same_blocks c c' /\ cell_ok c'.
Proof.
  intros [[? [? ?] ?] ? ?] Hs c'.
  assert (e_size (c_entry c') = e_size (c_entry c)) as Es.
  { unfold e_size in *. cbn [c' c_entry set_validity e_data]. rewrite splice_length; [done|].
    rewrite le_enc_length. lia. }
  split; [by constructor|]. constructor; [|done|by rewrite Es].
  constructor; [done|by rewrite Es|]. by apply splice_ok; [apply le_enc_ok|].
Qed.

(** Setting the validity of the record at hand. *)
Lemma relocate_hit l1 c l2 :
  l = l1 ++ c :: l2 -> 19 <= e_size (c_entry c) -> tl_match th tid eid (c_entry c) = true ->
  Forall (fun e => tl_match th tid eid e = false) (entries l1) ->
  wp (set_data_member (Some (c_buf c)) 12 1 (Z.b2z v)) h (fun _ => relocated).
Proof using Hr.
  intros E Hs Hc Hp. pose proof (cell_ok_in p l h Hr l1 c l2 E) as Hok.
  destruct (set_validity_ok c Hok Hs) as [Hsb Hok'].
  set (c' := Cell _ _ _ _) in *. pose proof Hr as Hr'. rewrite E in Hr'.
  pose proof (buf_at_cell p l1 c l2 h Hr') as Eb.
  pose proof (chain_lookup _ _ _ _ _ (ra_chain _ _ _ Hr')) as Ec.
  eapply (wp_run _ _ tt (altered_heap c' l2 h)).
  { unfold set_data_member. eapply run_step; [eapply load_ok; exact Eb|]. eapply run_step.
    { unfold lift. rewrite mem_write_ok; [done|lia|]. rewrite le_enc_length. unfold mem_size.
      unfold e_size in Hs. cbn. lia. }
    erewrite store_ok by exact Eb. unfold altered_heap.
    rewrite (insert_id (h_recs h)); [done|]. cbn [c' c_rec]. rewrite Ec. unfold rec_of.
    by rewrite (sb_size _ _ Hsb). }
  exists (l1 ++ c' :: l2). split; [by apply repo_at_altered with c|].
  rewrite E, !entries_app, (alter_first_app _ _ _ _ Hp). cbn. by rewrite Hc.
Qed.

Lemma update_TL_loop_ok fuel : forall pre rest c l2,
  l = pre ++ rest -> first_cell (typed PLDM_TERMINUS_LOCATOR_PDR) rest = Some (c, l2) ->
  (length rest <= fuel)%nat -> Forall (fun e => tl_match th tid eid e = false) (entries pre) ->
  wp (update_TL_loop fuel (Some p) th tid eid v (found_type (Some (c, l2)))) h (fun _ => relocated).
Proof using Hr Hwf.
  induction fuel as [|fuel IH]; intros pre rest c l2 E Ec Hf Hpre.
  { destruct rest; [done|cbn in Hf; lia]. }
  destruct (first_cell_next _ _ _ _ _ _ E Ec) as (l1 & El & E' & Elast & Hin & Hp & Ht).
  pose proof (wf_in l Hwf c Hin) as (Hs & _ & _).
  assert (19 <= e_size (c_entry c)) as Hsz by (apply Hs; unfold typed in Ht; lia). clear Hs.
  assert (forall off n : nat, Z.of_nat (off + n) <= 19 ->
    data_member (Some (c_buf c)) (Z.of_nat off) (Z.of_nat n) h = Ok (e_member (c_entry c) off n, h)) as Hm.
  { intros. apply (data_member_ok p l h Hr); [done|lia]. }
  assert (Forall (fun e => tl_match th tid eid e = false) (entries (pre ++ l1))) as Hpl.
  { rewrite entries_app. apply Forall_app. split; [done|by apply not_typed_no_match]. }
  assert (tl_match th tid eid (c_entry c) = false ->
    wp (curr ← pldm_pdr_find_record_by_type (Some p) PLDM_TERMINUS_LOCATOR_PDR (Some (c_rec c));
        match curr.1.1 with
        | Some _ => update_TL_loop fuel (Some p) th tid eid v curr
        | None => mret tt
        end) h (fun _ => relocated)) as Hagain.
  { intros Hc. assert (Forall (fun e => tl_match th tid eid e = false)
                         (entries ((pre ++ l1) ++ [c]))) as Hpc.
    { rewrite entries_app. apply Forall_app. split; [done|]. by constructor. }
    eapply wp_step. { rewrite <- Elast. by apply (find_by_type_ok p l h Hr _ l2). }
    destruct (first_cell (typed PLDM_TERMINUS_LOCATOR_PDR) l2) as [[d l3]|] eqn:Ed; cbn [found_type fst].
    - apply (IH _ l2 d l3 E' Ed); [|done]. rewrite El, length_app in Hf. cbn in Hf. lia.
    - apply wp_ret. exists l. split; [done|]. symmetry. apply alter_first_none.
      rewrite E', entries_app. apply Forall_app. split; [done|]. by apply not_typed_no_match, first_cell_none. }
  assert (l = (pre ++ l1) ++ c :: l2) as E2 by (by rewrite E', <- app_assoc).
  pose proof (relocate_hit (pre ++ l1) c l2 E2 Hsz) as Hhit.
  unfold tl_match in Hhit at 1, Hagain at 1. unfold typed in Ht. rewrite Ht in Hhit, Hagain.
  cbn [update_TL_loop found_type].
  eapply wp_step; [by apply (Hm 10%nat 2%nat)|].
  destruct (e_member (c_entry c) 10 2 =? th); cbn [negb andb] in *; [|by apply Hagain].
  eapply wp_step; [by apply (Hm 13%nat 1%nat)|].
  destruct (e_member (c_entry c) 13 1 =? tid); cbn [negb andb] in *; [|by apply Hagain].
  eapply wp_step; [by apply (Hm 18%nat 1%nat)|].
  destruct (e_member (c_entry c) 18 1 =? eid); cbn [negb andb] in *; [|by apply Hagain].
  by apply Hhit.
Qed.

Lemma update_TL_ok : wp (pldm_pdr_update_TL_pdr (Some p) th tid eid v) h (fun _ => relocated).
Proof using Hr Hwf.
  unfold pldm_pdr_update_TL_pdr. eapply wp_step; [by apply (find_by_type_ok p l h Hr [] l)|].
  destruct (fuel_enough p l h Hr) as [Hf Hle]. eapply wp_step; [exact Hf|].
  destruct (first_cell (typed PLDM_TERMINUS_LOCATOR_PDR) l) as [[c l2]|] eqn:Ec.
  - by apply (update_TL_loop_ok _ [] l c l2); [done|done|lia|constructor].
  - cbn [found_type update_TL_loop].
    eapply wp_step; [by apply (find_by_type_ok p l h Hr [] l)|]. rewrite Ec. cbn [found_type fst].
    apply wp_ret. exists l. split; [done|]. symmetry. apply alter_first_none.
    by apply not_typed_no_match, first_cell_none.
Qed.
End locators.

(** ** Ranges of handles, children *)

Definition in_range (a b : Z) (e : entry) : Prop := a <= e_handle e <= b.

(** The entry with the largest handle of those in the range. *)
Definition last_in_range (a b : Z) (l : list entry) (o : option entry) : Prop :=
  match o with
  | None => Forall (fun e => ~ in_range a b e) l
  | Some e => e ∈ l /\ in_range a b e /\ Forall (fun x => in_range a b x -> e_handle x <= e_handle e) l
  end.

Lemma last_in_range_snoc a b l o e :
  last_in_range a b l o ->
  last_in_range a b (l ++ [e])
    (if (e_handle e <? a) || (b <? e_handle e) then o
     else match o with
          | None => Some e
          | Some d => if e_handle d <? e_handle e then Some e else o
          end).
Proof.
  unfold last_in_range, in_range. intros Ho. destruct (_ || _) eqn:Eout.
  - assert (~ (a <= e_handle e <= b)) by lia. destruct o as [d|].
    + destruct Ho as (Hin & Hd & Hall). rewrite elem_of_app, Forall_app, Forall_singleton.
      split_and!; [auto|lia|lia|done|done].
    + by rewrite Forall_app, Forall_singleton.
  - assert (a <= e_handle e <= b) by lia. destruct o as [d|].
    + destruct Ho as (Hin & Hd & Hall). destruct (Z.ltb_spec (e_handle d) (e_handle e));
        rewrite elem_of_app, Forall_app, Forall_singleton; split_and!; try lia; auto.
      * right. by left.
      * eapply list.Forall_impl; [exact Hall|]. cbn. intros x Hx Hr. specialize (Hx Hr). lia.
    + rewrite elem_of_app, Forall_app, Forall_singleton. split_and!; try lia; [right; by left|].
      eapply list.Forall_impl; [exact Ho|]. cbn. tauto.
Qed.

Definition child_match (et ei idx a b : Z) (c : cell) : bool :=
  let e := c_entry c in
  (e_type e =? PLDM_PDR_ENTITY_ASSOCIATION) && negb (pldm_record_handle_in_range (e_handle e) a b)
  && (idx <? e_member e 19 1) && ((e_member e 13 2 =? et) && (e_member e 15 2 =? ei)).

Section ranges.
Context (p : positive) (l : list cell) (h : heap) (Hr : repo_at p l h).

Lemma find_last_loop_ok a b fuel : forall pre rest o,
  l = pre ++ rest -> (length rest <= fuel)%nat -> last_in_range a b (entries pre) (c_entry <$> o) ->
  (forall c, o = Some c -> c ∈ l) ->
  exists o', find_last_loop fuel (head_ptr rest None) a b (c_rec <$> o) h = Ok (c_rec <$> o', h) /\
    last_in_range a b (entries l) (c_entry <$> o') /\ (forall c, o' = Some c -> c ∈ l).
Proof using Hr.
  induction fuel as [|fuel IH]; intros pre rest o E Hf Ho Hin.
  { destruct rest; [|cbn in Hf; lia]. exists o. rewrite app_nil_r in E. by subst. }
  destruct rest as [|c rest]. { exists o. rewrite app_nil_r in E. by subst. }
  cbn [find_last_loop head_ptr length] in *.
  pose proof (load_rec p l h Hr pre c rest E) as Ec.
  pose proof (last_in_range_snoc a b _ _ (c_entry c) Ho) as Hs.
  assert (l = (pre ++ [c]) ++ rest) as E' by (by rewrite <- app_assoc).
  assert (c ∈ l) as Hc by by eapply (cell_in p l h Hr pre).
  set (o1 := if (e_handle (c_entry c) <? a) || (b <? e_handle (c_entry c)) then o
             else match o with
                  | None => Some c
                  | Some d => if e_handle (c_entry d) <? e_handle (c_entry c) then Some c else o
                  end).
  destruct (IH (pre ++ [c]) rest o1 E' ltac:(lia)) as (o' & Ex & Ho' & Hin').
  { rewrite entries_app. subst o1. destruct (_ || _); [done|]. destruct o as [d|]; [|done].
    cbn [fmap option_fmap option_map] in *. by destruct (_ <? _). }
  { subst o1. intros x. destruct (_ || _); [by apply Hin|]. destruct o as [d|]; [|by intros [= <-]].
    destruct (_ <? _); [by intros [= <-]|by apply Hin]. }
  exists o'. split; [|by split]. eapply run_step; [exact Ec|]. cbn [rec_of record_handle rec_next].
  eapply run_step; [|exact Ex]. subst o1. destruct (_ || _); [done|]. destruct o as [d|]; [|done].
  cbn [fmap option_fmap option_map].
  destruct (list_elem_of_split l d (Hin d eq_refl)) as (l1 & l2 & El).
  eapply run_step; [by apply (load_rec p l h Hr l1 d l2)|]. cbn [rec_of record_handle].
  by destruct (_ <? _).
Qed.

Lemma find_last_ok a b :
  exists o, pldm_pdr_find_last_in_range (Some p) a b h = Ok (c_rec <$> o, h) /\
    last_in_range a b (entries l) (c_entry <$> o) /\ (forall c, o = Some c -> c ∈ l).
Proof using Hr.
  destruct (fuel_enough p l h Hr) as [Hf Hle].
  destruct (find_last_loop_ok a b (S (size (h_recs h))) [] l None eq_refl ltac:(lia)) as (o & E & Ho & Hin);
    [constructor|done|].
  exists o. split; [|by split]. unfold pldm_pdr_find_last_in_range.
  eapply run_step; [by apply (load_repo p l)|]. by eapply run_step; [exact Hf|].
Qed.

Lemma find_child_ok et ei idx a b cid :
  Forall entry_wf (entries l) -> 0 <= idx ->
  pldm_pdr_find_child_container_id_index_range_exclude (Some p) et ei idx a b cid h
  = Ok (match first_cell (child_match et ei idx a b) l with
        | Some (c, _) => (0, e_member (c_entry c) (24 + 6 * Z.to_nat idx) 2)
        | None => (- ENOENT, cid)
        end, h).
Proof using Hr.
  intros Hwf Hidx. unfold pldm_pdr_find_child_container_id_index_range_exclude.
  eapply run_step; [by apply (load_repo p l)|]. cbn [repo_first].
  eapply run_step.
  { apply (walk_reads p l h Hr [] l (child_match et ei idx a b)
      (fun c _ => e_member (c_entry c) (24 + 6 * Z.to_nat idx) 2)); [done|].
    intros l1 c l2 E. assert (c ∈ l) as Hc by by eapply (cell_in p l h Hr l1).
    destruct (wf_in l Hwf c Hc) as (_ & _ & Hs). cbn [rec_of rec_data record_handle].
    eapply run_step; [by apply (hdr_type_ok p l h Hr)|]. unfold child_match.
    destruct (Z.eqb_spec (e_type (c_entry c)) 15) as [Et|]; cbn [negb andb]; [|done].
    specialize (Hs Et).
    destruct (pldm_record_handle_in_range _ _ _); cbn [negb andb]; [done|].
    assert (0 <= e_member (c_entry c) 19 1) as Hn.
    { pose proof (cell_ok_in p l h Hr l1 c l2 E) as Hok. apply le_dec_bound, Forall_slice, Hok. }
    assert (forall off n : nat, Z.of_nat (off + n) <= 20 + 6 * e_member (c_entry c) 19 1 ->
      data_member (Some (c_buf c)) (Z.of_nat off) (Z.of_nat n) h = Ok (e_member (c_entry c) off n, h)) as Hm.
    { intros. apply (data_member_ok p l h Hr); [done|lia]. }
    eapply run_step; [apply (Hm 19%nat 1%nat); lia|]. rewrite Z.leb_antisym.
    destruct (Z.ltb_spec idx (e_member (c_entry c) 19 1)); cbn [negb andb]; [|done].
    eapply run_step; [apply (Hm 13%nat 2%nat); lia|]. eapply run_step; [apply (Hm 15%nat 2%nat); lia|].
    destruct (_ && _); [|done].
    eapply run_step; [|done]. replace (SIZEOF_PDR_HDR + 10 + 6 * idx + 4) with (Z.of_nat (24 + 6 * Z.to_nat idx)) by lia.
    apply (Hm _ 2%nat). lia. }
  by destruct (first_cell _ l) as [[c l2]|].
Qed.
End ranges.

(** ** Construction and destruction *)

Lemma init_ok `{Allocator} :
  match pldm_pdr_init empty_heap with
  | Ok (Some p, h) => repo_at p [] h
  | Ok (None, h) => h = tick empty_heap
  | Fault _ => False
  end.
Proof.
  unfold pldm_pdr_init, malloc. destruct (malloc_addr _ _); [|done].
  constructor; cbn; try done; try constructor.
  - intros a [v Hv]. by rewrite lookup_empty in Hv.
  - intros a [v Hv]. by rewrite lookup_empty in Hv.
Qed.

Definition drop_keys {V} (m : gmap positive V) (ks : list positive) : gmap positive V :=
  foldl (fun m k => delete k m) m ks.

Lemma dom_drop_keys {V} (m : gmap positive V) ks : dom (drop_keys m ks) = dom m ∖ list_to_set ks.
Proof.
  revert m. induction ks as [|k ks IH]; intros m; [cbn; set_solver|].
  change (drop_keys m (k :: ks)) with (drop_keys (delete k m) ks). rewrite IH, dom_delete_L. set_solver.
Qed.

Lemma destroy_records_ok fuel l : forall h,
  chain (h_recs h) l None -> holds (h_bufs h) l -> NoDup (c_rec <$> l) -> NoDup (c_buf <$> l) ->
  (length l <= fuel)%nat ->
  destroy_records fuel (head_ptr l None) h
  = Ok (tt, Heap (allocs h) (drop_keys (h_bufs h) (c_buf <$> l)) (drop_keys (h_recs h) (c_rec <$> l))
                 (h_repos h) (h_nodes h) (h_trees h)).
Proof.
  revert fuel. induction l as [|c l IH]; intros fuel h Hc Hh Hn Hnb Hf.
  { by destruct fuel, h. }
  destruct fuel as [|fuel]; [cbn in Hf; lia|]. cbn [destroy_records head_ptr].
  destruct Hc as [Ec Hc]. apply list.Forall_cons in Hh as [Eb Hh].
  rewrite fmap_cons in Hn, Hnb. apply list.NoDup_cons in Hn as [Hc1 Hn].
  apply list.NoDup_cons in Hnb as [Hb1 Hnb].
  eapply run_step; [eapply load_ok, Ec|]. eapply run_step; [eapply free_ok, Eb|].
  eapply run_step; [eapply free_ok, Ec|]. cbn [rec_of rec_next].
  rewrite IH; [done| | |done|done|cbn in Hf; lia].
  - by apply chain_delete.
  - by apply holds_delete.
Qed.

Lemma destroy_ok p l h :
  repo_at p l h ->
  pldm_pdr_destroy (Some p) h
  = Ok (tt, Heap (allocs h) ∅ ∅ (delete p (h_repos h)) (h_nodes h) (h_trees h)).
Proof.
  intros Hr. unfold pldm_pdr_destroy. eapply run_step; [by apply (load_repo p l)|].
  destruct (fuel_enough p l h Hr) as [Hf Hle]. eapply run_step; [exact Hf|]. eapply run_step.
  { apply (destroy_records_ok _ l); [apply Hr..|lia]. }
  erewrite free_ok; [|apply Hr]. cbn. do 3 f_equal; apply dom_empty_iff_L; rewrite dom_drop_keys.
  - rewrite (ra_bufs_dom _ _ _ Hr). set_solver.
  - rewrite (ra_recs_dom _ _ _ Hr). set_solver.
Qed.

(** ** What the operations preserve *)

Record repo_inv (p : positive) (l : list cell) (h : heap) : Prop := {
  ri_at : repo_at p l h;
  ri_distinct : distinct l;
  ri_wf : Forall entry_wf (entries l)
}.

Lemma distinct_entries l : distinct l <-> NoDup (e_handle <$> entries l).
Proof. unfold distinct, entries. by rewrite <- list_fmap_compose. Qed.

Lemma renumber_above n l : Forall (fun e => n < e_handle e) (renumber n l).
Proof.
  revert n. induction l as [|e l IH]; intros n; cbn; [constructor|].
  constructor; [cbn; lia|]. eapply list.Forall_impl; [apply IH|]. cbn. lia.
Qed.

Lemma renumber_distinct n l : NoDup (e_handle <$> renumber n l).
Proof.
  revert n. induction l as [|e l IH]; intros n; [constructor|]. cbn [renumber].
  rewrite fmap_cons. apply list.NoDup_cons. split; [|apply IH].
  intros (x & Ex & Hx)%list_elem_of_fmap. pose proof (renumber_above (n + 1) l) as Ha.
  rewrite Forall_elem in Ha. specialize (Ha x Hx). cbn in Ex. lia.
Qed.

(** A member the new bytes do not reach. *)
Lemma splice_member off new l o n :
  (off + length new <= length l)%nat -> (o + n <= off \/ off + length new <= o)%nat ->
  slice o n (splice off new l) = slice o n l.
Proof.
  intros Hl [Hb|Ha]; unfold splice.
  - unfold slice. rewrite drop_app_le by (rewrite length_take; lia).
    rewrite take_app_le by (rewrite length_drop, length_take; lia).
    rewrite skipn_firstn_comm, take_take. f_equal. lia.
  - unfold slice. rewrite drop_app_ge by (rewrite length_take; lia). rewrite length_take.
    rewrite drop_app_ge by lia. rewrite drop_drop. do 2 f_equal. lia.
Qed.

Lemma wf_same e e' :
  e_size e' = e_size e -> e_type e' = e_type e -> e_member e' 19 1 = e_member e 19 1 ->
  entry_wf e -> entry_wf e'.
Proof. unfold entry_wf. intros -> -> ->. done. Qed.

Lemma wf_set_handle n e : SIZEOF_PDR_HDR <= e_size e -> entry_wf e -> entry_wf (set_handle n e).
Proof.
  intros Hs. unfold e_size in Hs. apply wf_same; [by apply set_handle_size| |];
    unfold e_type, e_member, set_handle; cbn [e_data]; rewrite splice_member; try done;
    rewrite le_enc_length; lia.
Qed.

Lemma wf_set_validity v e : 13 <= e_size e -> entry_wf e -> entry_wf (set_validity v e).
Proof.
  intros Hs. unfold e_size in Hs. apply wf_same.
  - unfold e_size, set_validity. cbn [e_data]. rewrite splice_length; [done|]. rewrite le_enc_length. lia.
  - unfold e_type, e_member, set_validity; cbn [e_data]. rewrite splice_member; try done;
    rewrite le_enc_length; lia.
  - unfold e_type, e_member, set_validity; cbn [e_data]. rewrite splice_member; try done;
    rewrite le_enc_length; lia.
Qed.

Lemma inv_sublist p l l' h' :
  distinct l -> Forall entry_wf (entries l) -> l' `sublist_of` l -> repo_at p l' h' -> repo_inv p l' h'.
Proof.
  intros Hd Hw Hs Hr. constructor; [done|by eapply distinct_sublist|].
  rewrite Forall_elem in *. intros e He. apply Hw. eapply sublist_subseteq; [|exact He].
  by apply fmap_sublist.
Qed.

Lemma wf_renumber n l :
  Forall (fun e => SIZEOF_PDR_HDR <= e_size e) l -> Forall entry_wf l -> Forall entry_wf (renumber n l).
Proof.
  revert n. induction l as [|e l IH]; intros n; cbn; [constructor|].
  rewrite !list.Forall_cons. intros [??] [??]. split; [by apply wf_set_handle|by apply IH].
Qed.

Lemma keep_incl d l : keep d l ⊆ l.
Proof.
  unfold keep. intros e. rewrite !list_elem_of_In, List.filter_In. tauto.
Qed.

Lemma inv_without p l l' h' d :
  Forall (fun e => SIZEOF_PDR_HDR <= e_size e) (entries l) ->
  distinct l -> Forall entry_wf (entries l) -> entries l' = without d (entries l) ->
  repo_at p l' h' -> repo_inv p l' h'.
Proof.
  intros Hsz Hd Hw E Hr. rewrite distinct_entries in Hd. unfold without in E.
  constructor; [done| |]; rewrite ?distinct_entries, E; destruct (existsb _ _); try done.
  - apply renumber_distinct.
  - rewrite Forall_elem in Hsz, Hw. apply wf_renumber; apply Forall_elem;
      intros e He%keep_incl; auto.
Qed.
