(* ===== verification/PdrRuns.v ===== *)
(** * Sequences of calls on a PDR repository

    A client's view: calls, what it sees of their results (return codes, handles,
    the bytes of the records found), and the list of entries that explains them.
    The theorems are about every sequence of calls. *)

From stdpp Require Import gmap.
From S2P Require Import Prelude Msgbuf PdrHeap Pdr PdrRepo PdrProps.

(** ** Calls and replies *)

Inductive pdr_op :=
  | Add (data : cmem) (size : Z) (remote : bool) (th : Z) (handle : option Z)
  | AddFru (th rsi et ei ci handle : Z)
  | Find (handle : Z)
  | FindType (t : Z)
  | FindRsi (rsi : Z)
  | LastInRange (first last : Z)
  | FindChild (et ei idx first last : Z)
  | UpdateTL (th tid eid : Z) (v : bool)
  | DelSensor (sensor : Z) (remote : bool)
  | DelEffecter (effecter : Z) (remote : bool)
  | DelHandle (handle : Z) (remote : bool)
  | DelFru (rsi : Z) (remote : bool)
  | RemoveTerminus (th : Z)
  | RemoveRemote
  | Count
  | Size.

Inductive reply :=
  | Code (rc : Z) (handle : option Z)
  | Content (found : option (list Z * Z))
  | Members (found : option (Z * Z * Z * Z))
  | Handle (found : option Z)
  | Number (n : Z)
  | Done.

Definition read_data (data : hptr) : H (list Z) := m ← load data; mret (bytes m).

Section client.
Context `{Allocator}.

Definition call (p : positive) (op : pdr_op) : H reply :=
  match op with
  | Add data size remote th handle =>
      '(rc, hd) ← pldm_pdr_add (Some p) (Some data) size remote th handle; mret (Code rc hd)
  | AddFru th rsi et ei ci handle =>
      '(rc, hd) ← pldm_pdr_add_fru_record_set (Some p) th rsi et ei ci (Some handle); mret (Code rc hd)
  | Find handle =>
      f ← pldm_pdr_find_record (Some p) handle;
      match found_ptr f with
      | None => mret (Content None)
      | Some _ => d ← read_data (found_data f); mret (Content (Some (d, found_next_handle f)))
      end
  | FindType t =>
      '(r, data, size) ← pldm_pdr_find_record_by_type (Some p) t None;
      match r with
      | None => mret (Content None)
      | Some _ => d ← read_data data; mret (Content (Some (d, size)))
      end
  | FindRsi rsi =>
      '(r, th, et, ei, ci) ← pldm_pdr_fru_record_set_find_by_rsi (Some p) rsi;
      mret (Members (match r with Some _ => Some (th, et, ei, ci) | None => None end))
  | LastInRange a b =>
      r ← pldm_pdr_find_last_in_range (Some p) a b;
      match r with
      | None => mret (Handle None)
      | Some _ => hd ← pldm_pdr_get_record_handle (Some p) r; mret (Handle (Some hd))
      end
  | FindChild et ei idx a b =>
      '(rc, cid) ← pldm_pdr_find_child_container_id_index_range_exclude (Some p) et ei idx a b 0;
      mret (Code rc (Some cid))
  | UpdateTL th tid eid v => _ ← pldm_pdr_update_TL_pdr (Some p) th tid eid v; mret Done
  | DelSensor id remote =>
      '(rc, hd) ← pldm_pdr_delete_by_sensor_id (Some p) id remote (Some 0); mret (Code rc hd)
  | DelEffecter id remote =>
      '(rc, hd) ← pldm_pdr_delete_by_effecter_id (Some p) id remote (Some 0); mret (Code rc hd)
  | DelHandle handle remote =>
      rc ← pldm_pdr_delete_by_record_handle (Some p) handle remote; mret (Code rc None)
  | DelFru rsi remote =>
      '(rc, hd) ← pldm_pdr_remove_fru_record_set_by_rsi (Some p) rsi remote (Some 0); mret (Code rc hd)
  | RemoveTerminus th => _ ← pldm_pdr_remove_pdrs_by_terminus_handle (Some p) th; mret Done
  | RemoveRemote => _ ← pldm_pdr_remove_remote_pdrs (Some p); mret Done
  | Count => n ← pldm_pdr_get_record_count (Some p); mret (Number n)
  | Size => n ← pldm_pdr_get_repo_size (Some p); mret (Number n)
  end.

Fixpoint calls (p : positive) (ops : list pdr_op) : H (list reply) :=
  match ops with
  | [] => mret []
  | op :: ops => r ← call p op; rs ← calls p ops; mret (r :: rs)
  end.
End client.

(** ** The specification: a list of entries *)

Fixpoint first_entry (P : entry -> bool) (l : list entry) : option (entry * list entry) :=
  match l with
  | [] => None
  | e :: l => if P e then Some (e, l) else first_entry P l
  end.

Definition first_handle (l : list entry) : Z := match l with [] => 0 | e :: _ => e_handle e end.

(** What is found, and the handle of the entry behind it: 0 at the end. *)
Definition lookup_entry (handle : Z) (l : list entry) : option (list Z * Z) :=
  let asked := match l with e :: _ => if handle =? 0 then e_handle e else handle | [] => handle end in
  match first_entry (fun e => e_handle e =? asked) l with
  | Some (e, rest) => Some (e_data e, first_handle rest)
  | None => None
  end.

Definition fru_image (th rsi et ei ci handle : Z) : list Z :=
  le_enc 4 handle ++ le_enc 1 1 ++ le_enc 1 PLDM_PDR_FRU_RECORD_SET ++ le_enc 2 0 ++
  le_enc 2 SIZEOF_FRU_RECORD_SET ++ le_enc 2 th ++ le_enc 2 rsi ++ le_enc 2 et ++ le_enc 2 ei ++ le_enc 2 ci.

Definition appended (l : list entry) (data : list Z) (remote : bool) (th : Z) (handle : option Z)
    (r : reply) (l' : list entry) : Prop :=
  match choose l handle with
  | None => r = Code (- EOVERFLOW) handle /\ l' = l
  | Some curr =>
      r = Code (- ENOMEM) handle /\ l' = l \/
      r = Code 0 (set_out handle curr) /\
        l' = l ++ [Entry curr (stored_data data handle curr) remote th]
  end.

Definition deletion (v : entry -> verdict) (missing : Z) (known : bool) (l : list entry)
    (r : reply) (l' : list entry) : Prop :=
  let '(rc, hd, es) := delete_first v missing l in
  r = Code rc (if known then Some (default 0 hd) else None) /\ l' = es.

Definition child_entry (et ei idx a b : Z) (e : entry) : bool :=
  (e_type e =? PLDM_PDR_ENTITY_ASSOCIATION) && negb (pldm_record_handle_in_range (e_handle e) a b)
  && (idx <? e_member e 19 1) && ((e_member e 13 2 =? et) && (e_member e 15 2 =? ei)).

Definition spec (op : pdr_op) (l : list entry) (r : reply) (l' : list entry) : Prop :=
  match op with
  | Add data size remote th handle =>
      appended l (take (Z.to_nat size) (bytes data)) remote th handle r l'
  | AddFru th rsi et ei ci handle =>
      appended l (fru_image th rsi et ei ci handle) false th (Some handle) r l'
  | Find handle => r = Content (lookup_entry handle l) /\ l' = l
  | FindType t =>
      r = Content ((fun '(e, _) => (e_data e, e_size e)) <$> first_entry (fun e => e_type e =? t) l)
      /\ l' = l
  | FindRsi rsi =>
      r = Members ((fun '(e, _) => (e_member e 10 2, e_member e 14 2, e_member e 16 2, e_member e 18 2)) <$>
            first_entry (fun e => (e_type e =? PLDM_PDR_FRU_RECORD_SET) && (e_member e 12 2 =? rsi)) l)
      /\ l' = l
  | LastInRange a b => (exists o, last_in_range a b l o /\ r = Handle (e_handle <$> o)) /\ l' = l
  | FindChild et ei idx a b =>
      r = match first_entry (child_entry et ei idx a b) l with
          | Some (e, _) => Code 0 (Some (e_member e (24 + 6 * Z.to_nat idx) 2))
          | None => Code (- ENOENT) (Some 0)
          end /\ l' = l
  | UpdateTL th tid eid v => r = Done /\ l' = alter_first (tl_match th tid eid) (set_validity v) l
  | DelSensor id remote => deletion (verdict_sensor id remote) (- ENOENT) true l r l'
  | DelEffecter id remote => deletion (verdict_effecter id remote) 0 true l r l'
  | DelHandle handle remote => deletion (verdict_handle handle remote) (- ENOENT) false l r l'
  | DelFru rsi remote => deletion (verdict_fru rsi remote) 0 true l r l'
  | RemoveTerminus th => r = Done /\ l' = without (fun e => e_terminus e =? th) l
  | RemoveRemote => r = Done /\ l' = without e_remote l
  | Count => r = Number (Z.of_nat (length l)) /\ l' = l
  | Size => r = Number (foldr (fun e t => e_size e + t) 0 l) /\ l' = l
  end.

(** The calls a client may make: the record it adds exists, the handle is not in
    use, the repository's counters do not overflow, and a record is as long as its
    type says. *)
Definition addable (l : list entry) (data : list Z) (remote : bool) (th : Z) (handle : option Z) : Prop :=
  SIZEOF_PDR_HDR <= Z.of_nat (length data) <= UINT32_MAX /\ bytes_ok data /\
  0 <= default 0 handle <= UINT32_MAX /\
  Z.of_nat (length l) < UINT32_MAX /\
  foldr (fun e t => e_size e + t) 0 l + Z.of_nat (length data) <= UINT32_MAX /\
  match choose l handle with
  | None => True
  | Some curr =>
      curr ∉ e_handle <$> l /\ entry_wf (Entry curr (stored_data data handle curr) remote th)
  end.

Definition legal (op : pdr_op) (l : list entry) : Prop :=
  match op with
  | Add data size remote th handle =>
      0 <= size <= mem_size data /\ addable l (take (Z.to_nat size) (bytes data)) remote th handle
  | AddFru th rsi et ei ci handle => addable l (fru_image th rsi et ei ci handle) false th (Some handle)
  | FindChild _ _ idx _ _ => 0 <= idx
  | _ => True
  end.

(** A run of the specification. *)
Inductive spec_run : list pdr_op -> list entry -> list reply -> list entry -> Prop :=
  | spec_done l : spec_run [] l [] l
  | spec_call op ops l r l1 rs l2 :
      spec op l r l1 -> spec_run ops l1 rs l2 -> spec_run (op :: ops) l (r :: rs) l2.

(** Every call is legal whatever the calls before it did. *)
Fixpoint legal_run (ops : list pdr_op) (l : list entry) : Prop :=
  match ops with
  | [] => True
  | op :: ops => legal op l /\ forall r l', spec op l r l' -> legal_run ops l'
  end.

(** ** From cells to entries *)

Lemma first_cell_entry P Q l :
  (forall c, P c = Q (c_entry c)) ->
  first_entry Q (entries l) = (fun '(c, rest) => (c_entry c, entries rest)) <$> first_cell P l.
Proof.
  intros E. induction l as [|c l IH]; cbn; [done|]. rewrite E.
  by destruct (Q (c_entry c)).
Qed.

Lemma first_handle_entries l : first_handle (entries l) = next_handle l.
Proof. by destruct l. Qed.

Lemma total_entries l : total l = foldr (fun e t => e_size e + t) 0 (entries l).
Proof. unfold total, entries. induction l as [|c l IH]; cbn; [done|]. by rewrite IH. Qed.

Lemma length_entries l : length (entries l) = length l.
Proof. apply length_fmap. Qed.

Section calls.
Context `{Allocator} (p : positive) (l : list cell) (h : heap) (Hi : repo_inv p l h).

(** The call reads: nothing changes. *)
Definition reads (op : pdr_op) : Prop :=
  exists r, call p op h = Ok (r, h) /\ spec op (entries l) r (entries l).

Definition respects (op : pdr_op) : Prop :=
  wp (call p op) h (fun r h' => exists l', repo_inv p l' h' /\ spec op (entries l) r (entries l')).

Lemma reads_respects op : reads op -> respects op.
Proof using Hi. intros (r & E & Hs). apply (wp_run _ _ r h); [done|]. by exists l. Qed.

Lemma read_data_ok c : c ∈ l -> read_data (Some (c_buf c)) h = Ok (e_data (c_entry c), h).
Proof using Hi.
  intros Hc. unfold read_data. eapply run_step; [by apply (load_buf p l h (ri_at _ _ _ Hi))|done].
Qed.

Lemma first_cell_in P c rest : first_cell P l = Some (c, rest) -> c ∈ l.
Proof.
  intros (l1 & -> & _)%first_cell_split. apply elem_of_app. right. by left.
Qed.

Lemma call_find handle : reads (Find handle).
Proof using Hi.
  pose proof (first_cell_entry (fun c => e_handle (c_entry c) =? asked_handle l handle)
    (fun e => e_handle e =? asked_handle l handle) l (fun _ => eq_refl)) as E.
  unfold reads, spec, lookup_entry.
  replace (match entries l with [] => handle | e :: _ => if handle =? 0 then e_handle e else handle end)
    with (asked_handle l handle) by (by destruct l).
  rewrite E. eexists. split; [|split; [reflexivity|done]]. cbn [call].
  eapply run_step; [by apply (find_record_ok p l h (ri_at _ _ _ Hi))|]. unfold find_spec.
  destruct (first_cell _ l) as [[c rest]|] eqn:Ec; [|done]. cbn.
  eapply run_step; [by eapply read_data_ok, first_cell_in|]. by rewrite first_handle_entries.
Qed.

Lemma call_find_type t : reads (FindType t).
Proof using Hi.
  pose proof (first_cell_entry (typed t) (fun e => e_type e =? t) l (fun _ => eq_refl)) as E.
  unfold reads, spec. rewrite E. eexists. split; [|split; [reflexivity|done]]. cbn [call].
  eapply run_step; [by apply (find_by_type_ok p l h (ri_at _ _ _ Hi) [] l)|].
  destruct (first_cell _ l) as [[c rest]|] eqn:Ec; [|done]. cbn.
  by eapply run_step; [by eapply read_data_ok, first_cell_in|].
Qed.

Lemma call_find_rsi rsi : reads (FindRsi rsi).
Proof using Hi.
  pose proof (first_cell_entry (rsi_match rsi)
    (fun e => (e_type e =? PLDM_PDR_FRU_RECORD_SET) && (e_member e 12 2 =? rsi)) l (fun _ => eq_refl)) as E.
  unfold reads, spec. rewrite E. eexists. split; [|split; [reflexivity|done]]. cbn [call].
  eapply run_step; [by apply (find_by_rsi_ok p l h (ri_at _ _ _ Hi) (ri_wf _ _ _ Hi))|].
  by destruct (first_cell _ l) as [[c rest]|].
Qed.

Lemma call_last_in_range a b : reads (LastInRange a b).
Proof using Hi.
  destruct (find_last_ok p l h (ri_at _ _ _ Hi) a b) as (o & E & Ho & Hin).
  exists (Handle (e_handle <$> (c_entry <$> o))). split; [|split; [by exists (c_entry <$> o)|done]].
  cbn [call]. eapply run_step; [exact E|]. destruct o as [c|]; [|done].
  cbn [fmap option_fmap option_map].
  destruct (list_elem_of_split l c (Hin c eq_refl)) as (l1 & l2 & El).
  unfold pldm_pdr_get_record_handle. eapply run_step; [|done].
  eapply run_step; [done|]. eapply run_step; [done|].
  by eapply run_step; [by apply (load_rec p l h (ri_at _ _ _ Hi) l1 c l2)|].
Qed.

Lemma call_find_child et ei idx a b : 0 <= idx -> reads (FindChild et ei idx a b).
Proof using Hi.
  intros Hidx. pose proof (first_cell_entry (child_match et ei idx a b)
    (child_entry et ei idx a b) l (fun _ => eq_refl)) as E.
  unfold reads, spec. rewrite E. eexists. split; [|split; [reflexivity|done]]. cbn [call].
  eapply run_step; [by apply (find_child_ok p l h (ri_at _ _ _ Hi)); [apply Hi|]|].
  by destruct (first_cell _ l) as [[c rest]|].
Qed.

Lemma call_count : reads Count.
Proof using Hi.
  eexists. split; [|split; [reflexivity|done]]. cbn [call]. eapply run_step.
  { unfold pldm_pdr_get_record_count. eapply run_step; [done|].
    by eapply run_step; [by apply (load_repo p l h (ri_at _ _ _ Hi))|]. }
  cbn [record_count]. by rewrite length_entries.
Qed.

Lemma call_size : reads Size.
Proof using Hi.
  eexists. split; [|split; [reflexivity|done]]. cbn [call]. eapply run_step.
  { unfold pldm_pdr_get_repo_size. eapply run_step; [done|].
    by eapply run_step; [by apply (load_repo p l h (ri_at _ _ _ Hi))|]. }
  cbn [repo_size]. by rewrite total_entries.
Qed.

(** *** Changes *)

Lemma entry_sizes : Forall (fun e => SIZEOF_PDR_HDR <= e_size e) (entries l).
Proof using Hi.
  eapply list.Forall_impl; [apply (entries_ok p l h), Hi|]. by intros e [_ [] _].
Qed.

Lemma call_update_TL th tid eid v : respects (UpdateTL th tid eid v).
Proof using Hi.
  unfold respects. cbn [call]. apply wp_bind. eapply wp_mono.
  { apply (update_TL_ok p l h (ri_at _ _ _ Hi) (ri_wf _ _ _ Hi)). }
  intros [] h' (l' & Hr' & E). apply wp_ret. exists l'. split; [|done].
  constructor; [done| |]; rewrite ?distinct_entries, E.
  - rewrite alter_first_fmap by done. apply distinct_entries, Hi.
  - apply alter_first_forall; [|apply Hi]. intros e Em He. apply wf_set_validity; [|done].
    destruct He as [Ht _]. unfold tl_match in Em. assert (e_type e = 1) as E1 by lia.
    specialize (Ht E1). lia.
Qed.

Lemma deletion_respects op v missing known :
  wp (call p op) h (fun r h' => deleted p l v missing (fun rc hd =>
     r = Code rc (if known : bool then Some (default 0 hd) else None)) h') ->
  (forall r l', deletion v missing known (entries l) r l' -> spec op (entries l) r l') ->
  respects op.
Proof using Hi.
  intros Hw Hspec. unfold respects. eapply wp_mono; [exact Hw|].
  intros r h' (l' & Hr' & Hs & Hres). exists l'. split.
  - by apply (inv_sublist p l); [apply Hi|apply Hi| |].
  - apply Hspec. unfold deletion. destruct (delete_first _ _ _) as [[rc hd] es]. tauto.
Qed.

(** The postcondition of a delete operation as the client sees it. *)
Lemma deleted_mono v missing (P Q : Z -> option Z -> Prop) h' :
  (forall rc hd, P rc hd -> Q rc hd) -> deleted p l v missing P h' -> deleted p l v missing Q h'.
Proof.
  intros HPQ (l' & Hr & Hs & Hres). exists l'. split; [done|]. split; [done|].
  destruct (delete_first _ _ _) as [[rc hd] es]. destruct Hres as [-> ?]. auto.
Qed.

Ltac delete_call lem :=
  cbn [call]; apply wp_bind; (eapply wp_mono; [apply lem; apply Hi|]);
  let r := fresh "r" in let h' := fresh "h'" in let Hd := fresh "Hd" in
  intros r h' Hd; cbn beta in Hd; destruct_and?; try destruct r as [? ?];
  apply wp_ret; (eapply deleted_mono; [|exact Hd]).

Lemma call_del_sensor id remote : respects (DelSensor id remote).
Proof using Hi.
  eapply deletion_respects; [|by intros r l' Hs].
  delete_call (delete_by_sensor_ok p l h). by intros rc [hd|] [= -> ->].
Qed.

Lemma call_del_effecter id remote : respects (DelEffecter id remote).
Proof using Hi.
  eapply deletion_respects; [|by intros r l' Hs].
  delete_call (delete_by_effecter_ok p l h). by intros rc [hd|] [= -> ->].
Qed.

Lemma call_del_handle handle remote : respects (DelHandle handle remote).
Proof using Hi.
  eapply deletion_respects; [|by intros r l' Hs].
  delete_call (delete_by_handle_ok p l h). by intros rc [hd|] ->.
Qed.

Lemma call_del_fru rsi remote : respects (DelFru rsi remote).
Proof using Hi.
  eapply deletion_respects; [|by intros r l' Hs].
  delete_call (remove_fru_ok p l h). by intros rc [hd|] [= -> ->].
Qed.

Lemma call_remove_terminus th : respects (RemoveTerminus th).
Proof using Hi.
  unfold respects. cbn [call]. apply wp_bind. eapply wp_mono.
  { by apply (remove_and_renumber_ok p l h (fun e => e_terminus e =? th)); [apply Hi|]. }
  intros [] h' (l' & Hr' & E). apply wp_ret. exists l'. split; [|done].
  eapply inv_without; [apply entry_sizes|apply Hi|apply Hi|exact E|done].
Qed.

Lemma call_remove_remote : respects RemoveRemote.
Proof using Hi.
  unfold respects. cbn [call]. apply wp_bind. eapply wp_mono.
  { by apply (remove_and_renumber_ok p l h e_remote); [apply Hi|]. }
  intros [] h' (l' & Hr' & E). apply wp_ret. exists l'. split; [|done].
  eapply inv_without; [apply entry_sizes|apply Hi|apply Hi|exact E|done].
Qed.

(** Appending an addable record. *)
Lemma append_respects data size remote th handle image :
  image = take (Z.to_nat size) (bytes data) -> 0 <= size <= mem_size data ->
  addable (entries l) image remote th handle ->
  wp (pldm_pdr_add (Some p) (Some data) size remote th handle) h (fun r h' =>
    exists l', repo_inv p l' h' /\
      appended (entries l) image remote th handle (Code r.1 r.2) (entries l')).
Proof using Hi.
  intros -> Hs (Hlen & Hb & Hh & Hn & Ht & Hc). rewrite length_entries in Hn.
  rewrite <- total_entries in Ht. rewrite length_take in Hlen, Ht. unfold mem_size in Hs.
  eapply wp_mono; [apply (add_ok p l h (ri_at _ _ _ Hi)); try done; unfold mem_size; lia|].
  intros r h' Hres. unfold appended. destruct (choose (entries l) handle) as [curr|].
  2: { destruct Hres as [-> ->]. by exists l. }
  destruct Hc as [Hfresh Hwf]. destruct Hres as [[-> Hr']|(c & -> & Hr' & Ec)].
  { exists l. split; [|by left]. constructor; [done|apply Hi..]. }
  exists (l ++ [c]). rewrite entries_app. split; [|right; cbn; by rewrite Ec].
  constructor; [done| |]; rewrite ?distinct_entries, entries_app; cbn; rewrite Ec.
  - rewrite fmap_app. apply list.NoDup_app. split; [apply distinct_entries, Hi|].
    split; [|apply NoDup_singleton]. intros x Hx. cbn. intros ->%list_elem_of_singleton. done.
  - apply Forall_app. split; [apply Hi|]. by apply Forall_singleton.
Qed.

Lemma call_add data size remote th handle :
  legal (Add data size remote th handle) (entries l) -> respects (Add data size remote th handle).
Proof using Hi.
  intros [Hs Ha]. unfold respects. cbn [call]. apply wp_bind.
  eapply wp_mono; [by eapply append_respects|]. intros [rc hd] h' (l' & Hi' & E).
  apply wp_ret. by exists l'.
Qed.

Lemma call_add_fru th rsi et ei ci handle :
  legal (AddFru th rsi et ei ci handle) (entries l) -> respects (AddFru th rsi et ei ci handle).
Proof using Hi.
  intros Ha. unfold respects. cbn [call]. apply wp_bind. unfold pldm_pdr_add_fru_record_set.
  eapply wp_mono; [eapply append_respects; [|done|exact Ha]; done|].
  intros [rc hd] h' (l' & Hi' & E). apply wp_ret. by exists l'.
Qed.

(** Every legal call does what the specification says. *)
Lemma call_ok op : legal op (entries l) -> respects op.
Proof using Hi.
  destruct op; intros Hl;
    eauto using call_add, call_add_fru, call_update_TL, call_del_sensor, call_del_effecter,
      call_del_handle, call_del_fru, call_remove_terminus, call_remove_remote;
    apply reads_respects;
    eauto using call_find, call_find_type, call_find_rsi, call_last_in_range, call_find_child,
      call_count, call_size.
Qed.
End calls.

Lemma calls_ok `{Allocator} p ops : forall l h,
  repo_inv p l h -> legal_run ops (entries l) ->
  wp (calls p ops) h (fun rs h' => exists l', repo_inv p l' h' /\ spec_run ops (entries l) rs (entries l')).
Proof.
  induction ops as [|op ops IH]; intros l h Hi Hl.
  { apply wp_ret. exists l. split; [done|constructor]. }
  destruct Hl as [Hop Hl]. cbn [calls]. apply wp_bind. eapply wp_mono; [by apply (call_ok p l h Hi)|].
  intros r h1 (l1 & Hi1 & Hs1). apply wp_bind. eapply wp_mono; [by apply (IH l1 h1 Hi1), (Hl r)|].
  intros rs h2 (l2 & Hi2 & Hs2). apply wp_ret. exists l2. split; [done|]. by econstructor.
Qed.

(** ** Legality is decidable *)

#[export] Instance byte_ok_dec b : Decision (byte_ok b).
Proof. unfold byte_ok. apply _. Defined.

#[export] Instance entry_wf_dec e : Decision (entry_wf e).
Proof. unfold entry_wf. apply _. Defined.

#[export] Instance addable_dec l data remote th handle : Decision (addable l data remote th handle).
Proof. unfold addable. destruct (choose l handle); apply _. Defined.

#[export] Instance legal_dec op l : Decision (legal op l).
Proof. destruct op; cbn [legal]; apply _. Defined.

(** ** The theorems *)

(** The blocks of a repository that was destroyed. *)
Definition released (p : positive) (h : heap) : Prop :=
  h_recs h = ∅ /\ h_bufs h = ∅ /\ h_repos h !! p = None.

(** C5: A PDR repository is a list of entries, whatever the client does with it.
    After pldm_pdr_init any sequence of legal calls - adding records with given or
    computed handles, finding, counting, updating terminus locators, deleting by
    sensor, effecter, handle or FRU set, removing a terminus or everything remote -
    returns without an access outside an object, use of freed memory or failed
    assertion; the replies are those of the list specification; and pldm_pdr_destroy
    then frees every block once, with nothing leaked. *)
Theorem pdr_repository_refines `{Allocator} ops :
  legal_run ops [] ->
  match pldm_pdr_init empty_heap with
  | Ok (Some p, h) =>
      exists rs h1 es h2, calls p ops h = Ok (rs, h1) /\ spec_run ops [] rs es /\
        pldm_pdr_destroy (Some p) h1 = Ok (tt, h2) /\ released p h2
  | Ok (None, _) => True
  | Fault _ => False
  end.
Proof.
  intros Hl. pose proof init_ok as Hi. destruct (pldm_pdr_init empty_heap) as [[[p|] h]|]; try done.
  assert (repo_inv p [] h) as Hinv by (constructor; [done|constructor|constructor]).
  destruct (wp_elim _ _ _ (calls_ok p ops [] h Hinv Hl)) as (rs & h1 & E & l1 & Hi1 & Hs).
  pose proof (destroy_ok p l1 h1 (ri_at _ _ _ Hi1)) as Ed.
  exists rs, h1, (entries l1). eexists. split_and!; [done|done|exact Ed|].
  split_and!; [done|done|]. cbn. apply lookup_delete_eq.
Qed.

(** Two local records, one of them with a computed handle, a remote one, a query,
    and the removal of what is remote. *)
Definition demo_locator : cmem := CMem 4096 ([0; 0; 0; 0; 1; 1; 0; 0; 9; 0] ++ [1; 0; 0; 7; 0; 0; 0; 1; 8]).

Definition demo_calls : list pdr_op :=
  [ Add demo_locator 19 true 1 (Some 0); AddFru 1 5 64 1 0 0; Find 0; UpdateTL 1 7 8 true;
    DelHandle 70000 true; RemoveRemote; Count ].

Lemma pdr_repository_refines_witness :
  legal_run demo_calls [] /\
  match @pldm_pdr_init (bounded_allocator 100) empty_heap with
  | Ok (Some p, h) =>
      exists rs h1 es h2, @calls (bounded_allocator 100) p demo_calls h = Ok (rs, h1) /\
        spec_run demo_calls [] rs es /\
        pldm_pdr_destroy (Some p) h1 = Ok (tt, h2) /\ released p h2
  | Ok (None, _) => True
  | Fault _ => False
  end.
Proof.
  assert (legal_run demo_calls []) as Hl.
  { unfold demo_calls. cbn [legal_run]. split; [by apply (bool_decide_unpack _); vm_compute|].
    intros r1 l1 H1. assert (Hc : legal (AddFru 1 5 64 1 0 0) l1).
    { cbn [spec] in H1. unfold appended in H1. vm_compute in H1.
      destruct H1 as [[_ ->]|[_ ->]]; by apply (bool_decide_unpack _); vm_compute. }
    split; [exact Hc|]. done. }
  split; [exact Hl|].
  exact (@pdr_repository_refines (bounded_allocator 100) demo_calls Hl).
Defined.

(** ** Walking a repository by record handle

    GetPDR as its callers use it: ask for handle 0, then for the next handle the
    reply names, until it names 0. *)

Fixpoint enumerate `{Allocator} (fuel : nat) (p : positive) (handle : Z) : H (list (list Z)) :=
  match fuel with
  | O => mret []
  | S fuel =>
      r ← call p (Find handle);
      match r with
      | Content (Some (d, next)) =>
          if next =? 0 then mret [d] else ds ← enumerate fuel p next; mret (d :: ds)
      | _ => mret []
      end
  end.

Lemma find_at `{Allocator} p l1 c l2 h handle :
  repo_inv p (l1 ++ c :: l2) h ->
  handle = e_handle (c_entry c) \/ handle = 0 /\ l1 = [] ->
  call p (Find handle) h = Ok (Content (Some (e_data (c_entry c), next_handle l2)), h).
Proof.
  intros Hi Hh. destruct (call_find p _ h Hi handle) as (r & E & Hr & _). rewrite E, Hr.
  unfold lookup_entry. rewrite entries_app. cbn [entries fmap list_fmap].
  pose proof (ri_distinct _ _ _ Hi) as Hd.
  assert (0 < e_handle (c_entry c)) as Hpos.
  { pose proof (cell_ok_in p _ h (ri_at _ _ _ Hi) l1 c l2 eq_refl) as Hc.
    pose proof (eo_handle _ (co_entry _ Hc)). lia. }
  set (asked := match _ with [] => handle | _ => _ end).
  assert (asked = e_handle (c_entry c)) as ->.
  { subst asked. destruct Hh as [->|[-> ->]]; [|done].
    rewrite (proj2 (Z.eqb_neq _ _)) by lia. by destruct l1. }
  assert (first_entry (fun e => e_handle e =? e_handle (c_entry c)) (entries l1 ++ c_entry c :: (c_entry <$> l2))
          = Some (c_entry c, c_entry <$> l2)) as ->.
  { assert (forall x, x ∈ l1 -> e_handle (c_entry x) <> e_handle (c_entry c)) as Hb
      by (intros x; by apply (distinct_before l1 c l2)).
    clear -Hb. induction l1 as [|x l1 IH]; cbn; [by rewrite Z.eqb_refl|].
    rewrite (proj2 (Z.eqb_neq _ _)) by (apply Hb; by left). apply IH. intros y Hy. apply Hb. by right. }
  by destruct l2.
Qed.

(** C11: Walking a repository by record handle sees every record once, in the order
    they were added, and ends: from handle 0 on, each reply's next record handle
    leads to the next record, and the last one's is 0.  The bytes seen are the
    records' and nothing changes. *)
Theorem pdr_walk_is_complete `{Allocator} p l h fuel :
  repo_inv p l h -> (length l <= fuel)%nat -> (0 < fuel)%nat ->
  enumerate fuel p 0 h = Ok (e_data <$> entries l, h).
Proof.
  intros Hi Hf Hpos.
  enough (forall fuel l2 l1 handle c, l = l1 ++ c :: l2 -> (length l2 < fuel)%nat ->
            handle = e_handle (c_entry c) \/ handle = 0 /\ l1 = [] ->
            enumerate fuel p handle h = Ok (e_data <$> entries (c :: l2), h)) as Hgo.
  { destruct l as [|c l]; [|by apply (Hgo fuel l [] 0 c eq_refl); [cbn in Hf; lia|right]].
    destruct fuel as [|fuel]; [lia|]. cbn [enumerate].
    destruct (call_find p [] h Hi 0) as (r & E & Hr & _). cbn in Hr. subst r.
    by eapply run_step; [exact E|]. }
  clear fuel Hf Hpos. induction fuel as [|fuel IH]; intros l2 l1 handle c E Hf Hh; [lia|].
  cbn [enumerate]. rewrite E in Hi. eapply run_step; [by apply (find_at p l1 c l2 h handle Hi)|].
  destruct l2 as [|d l2]; [done|]. cbn [next_handle].
  assert (l = (l1 ++ [c]) ++ d :: l2) as E2 by (by rewrite E, <- app_assoc).
  assert (1 <= e_handle (c_entry d)) as Hd.
  { rewrite <- E, E2 in Hi. pose proof (cell_ok_in p _ h (ri_at _ _ _ Hi) _ d l2 eq_refl) as Hc.
    apply (eo_handle _ (co_entry _ Hc)). }
  rewrite (proj2 (Z.eqb_neq _ _)) by lia.
  eapply run_step; [apply (IH l2 (l1 ++ [c]) _ d E2); [cbn in Hf; lia|by left]|done].
Qed.

(** A repository with two records. *)
Definition demo_cell (a b : positive) (handle : Z) : cell :=
  Cell a b 4096 (Entry handle (le_enc 4 handle ++ [1; 2; 0; 0; 0; 0]) false 1).

Definition demo_repo_cells : list cell := [demo_cell 2 3 1; demo_cell 4 5 65537].

Definition demo_repo_heap : heap :=
  Heap 5 (list_to_map ((fun c => (c_buf c, c_mem c)) <$> demo_repo_cells))
    (list_to_map [(2%positive, rec_of (demo_cell 2 3 1) (Some 4%positive));
                  (4%positive, rec_of (demo_cell 4 5 65537) None)])
    {[ 1%positive := Pdr 2 20 (Some 2%positive) (Some 4%positive) ]} ∅ ∅.

Lemma demo_repo_inv : repo_inv 1 demo_repo_cells demo_repo_heap.
Proof.
  constructor.
  - constructor; try by vm_compute.
    + by repeat constructor.
    + repeat constructor; vm_compute; congruence.
    + by apply (bool_decide_unpack _).
    + by apply (bool_decide_unpack _).
    + intros a [v Hv]. unfold demo_repo_heap in Hv. cbn in Hv.
      repeat (rewrite lookup_insert_Some in Hv; destruct Hv as [[<- _]|[_ Hv]]; [done|]).
      by rewrite lookup_empty in Hv.
    + intros a [v Hv]. unfold demo_repo_heap in Hv. cbn in Hv.
      repeat (rewrite lookup_insert_Some in Hv; destruct Hv as [[<- _]|[_ Hv]]; [done|]).
      by rewrite lookup_empty in Hv.
  - by apply (bool_decide_unpack _).
  - by apply (bool_decide_unpack _).
Qed.

Lemma pdr_walk_is_complete_witness :
  repo_inv 1 demo_repo_cells demo_repo_heap /\
  @enumerate (bounded_allocator 9) 2 1 0 demo_repo_heap
  = Ok (e_data <$> entries demo_repo_cells, demo_repo_heap).
Proof.
  split; [exact demo_repo_inv|].
  apply (@pdr_walk_is_complete (bounded_allocator 9) 1 demo_repo_cells demo_repo_heap 2 demo_repo_inv);
    cbn; lia.
Defined.

(** Two ways a deletion misses its record.  The handle comparison of
    pldm_pdr_delete_by_record_handle sees 16 bits of the header's handle: with a
    handle of 65536 or more nothing is ever found, present or not.  And
    pldm_pdr_delete_by_effecter_id, which its sibling for sensors answers with
    -ENOENT, reports success when no record matched. *)
Theorem pdr_deletions_that_miss `{Allocator} p l h handle remote effecter :
  repo_inv p l h -> 65536 <= handle ->
  wp (call p (DelHandle handle remote)) h (fun r h' => exists l', r = Code (- ENOENT) None /\
     repo_inv p l' h' /\ entries l' = entries l) /\
  (Forall (fun e => verdict_effecter effecter remote e = Pass) (entries l) ->
   wp (call p (DelEffecter effecter remote)) h (fun r h' => exists l', r = Code 0 (Some 0) /\
     repo_inv p l' h' /\ entries l' = entries l)).
Proof.
  intros Hi Hh.
  assert (forall v missing, Forall (fun e => v e = Pass) (entries l) ->
    delete_first v missing (entries l) = (missing, None, entries l)) as Hpass.
  { intros v missing Hv. pose proof (delete_first_app v missing (entries l) [] Hv) as E.
    cbn in E. by rewrite !app_nil_r in E. }
  split.
  - eapply wp_mono; [by apply (call_ok p l h Hi (DelHandle handle remote))|].
    intros r h' (l' & Hi' & Hs). exists l'. cbn [spec] in Hs. unfold deletion in Hs.
    rewrite Hpass in Hs; [naive_solver|].
    apply Forall_elem. intros e He. pose proof (entries_ok p l h (ri_at _ _ _ Hi)) as Hok.
    rewrite Forall_elem in Hok. unfold verdict_handle.
    assert (e_member e 0 2 < 65536) as Hlt.
    { pose proof (eo_bytes _ (Hok e He)) as Hb. unfold e_member.
      pose proof (le_dec_bound (slice 0 2 (e_data e)) ltac:(by apply Forall_slice)) as Hd.
      rewrite length_slice in Hd.
      pose proof (Z.pow_le_mono_r 256 (Z.of_nat (2 `min` (length (e_data e) - 0))) 2). lia. }
    rewrite (proj2 (Z.eqb_neq _ _)), andb_false_r by lia. done.
  - intros Hv. eapply wp_mono; [by apply (call_ok p l h Hi (DelEffecter effecter remote))|].
    intros r h' (l' & Hi' & Hs). exists l'. cbn [spec] in Hs. unfold deletion in Hs.
    rewrite Hpass in Hs by done. naive_solver.
Qed.

Lemma pdr_deletions_that_miss_witness :
  65536 <= 65537 /\ 65537 ∈ e_handle <$> entries demo_repo_cells /\
  wp (@call (bounded_allocator 9) 1 (DelHandle 65537 false)) demo_repo_heap (fun r h' => exists l',
     r = Code (- ENOENT) None /\ repo_inv 1 l' h' /\ entries l' = entries demo_repo_cells).
Proof.
  split; [lia|]. split; [by apply (bool_decide_unpack _)|].
  apply (@pdr_deletions_that_miss (bounded_allocator 9) 1 demo_repo_cells demo_repo_heap 65537 false 1
    demo_repo_inv). lia.
Defined.
