(* ===== verification/EntityTree.v ===== *)
(** * Entity association trees (src/dsp/pdr.c)

    A tree of malloc'ed nodes linked by first child and next sibling: building it,
    looking entities up, visiting, copying, deleting a subtree, destroying it.  The
    recursive functions take the number of nodes of the heap as fuel, which bounds
    the depth of any tree in it. *)

From stdpp Require Import gmap.
From S2P Require Import Prelude Msgbuf PdrHeap.

Abbreviation PLDM_ENTITY_ASSOCIAION_PHYSICAL := 0 (only parsing).
Abbreviation PLDM_ENTITY_ASSOCIAION_LOGICAL := 1 (only parsing).

(** ** Access *)

Definition pldm_entity_extract (node : hptr) : H pldm_entity :=
  _ ← lift (c_assert (bool_decide (node <> None)));
  n ← load node; mret (node_entity n).

Definition pldm_entity_node_get_remote_container_id (node : hptr) : H Z :=
  _ ← lift (c_assert (bool_decide (node <> None)));
  n ← load node; mret (remote_container_id n).

Definition pldm_entity_is_node_parent (node : hptr) : H bool :=
  _ ← lift (c_assert (bool_decide (node <> None)));
  n ← load node; mret (match first_child n with Some _ => true | None => false end).

Definition pldm_entity_get_parent (node : hptr) : H pldm_entity :=
  _ ← lift (c_assert (bool_decide (node <> None)));
  n ← load node; mret (node_parent n).

Definition pldm_entity_is_exist_parent (node : hptr) : H bool :=
  match node with
  | None => mret false
  | Some _ =>
      n ← load node;
      let p := node_parent n in
      mret (negb ((entity_type p =? 0) && (entity_instance_num p =? 0)
                  && (entity_container_id p =? 0)))
  end.

Definition pldm_is_empty_entity_assoc_tree (tree : hptr) : H bool :=
  t ← load tree;
  mret (match tree_root t with None => true | Some _ => false end).

Definition node_fuel : H nat := fun h => Ok (S (size (h_nodes h)), h).

(** [while (curr != NULL) { ...; curr = curr->next_sibling; }]: a fold over the
    siblings, left early when the body says [inr]. *)
Fixpoint siblings {S R} (fuel : nat) (curr : hptr) (body : S -> hptr -> pldm_entity_node -> H (S + R))
    (s : S) : H (S + R) :=
  match curr with
  | None => mret (inl s)
  | Some _ =>
    match fuel with
    | O => lift (Fault FFuel)
    | Datatypes.S fuel =>
        n ← load curr;
        x ← body s curr n;
        match x with
        | inr r => mret (inr r)
        | inl s => siblings fuel (next_sibling n) body s
        end
    end
  end.

(** The count is kept in a size_t; the caller gets a uint8_t. *)
Definition pldm_entity_get_num_children (node : hptr) (association_type' : Z) : H Z :=
  match node with
  | None => mret 0
  | Some _ =>
    if negb ((association_type' =? PLDM_ENTITY_ASSOCIAION_PHYSICAL)
             || (association_type' =? PLDM_ENTITY_ASSOCIAION_LOGICAL)) then mret 0
    else
      n ← load node;
      fuel ← node_fuel;
      x ← siblings (R := unit) fuel (first_child n) (fun count _ c =>
            mret (inl (if association_type c =? association_type' then count + 1 else count))) 0;
      match x with
      | inl count =>
          _ ← lift (c_assert (count <? UINT8_MAX));
          mret (if count <? UINT8_MAX then u8 count else 0)
      | inr _ => mret 0
      end
  end.

Definition pldm_is_current_parent_child (parent : hptr) (node : option pldm_entity) : H bool :=
  match parent, node with
  | Some _, Some e =>
      p ← load parent;
      fuel ← node_fuel;
      x ← siblings fuel (first_child p) (fun (_ : unit) _ c =>
            mret (if (entity_type e =? entity_type (node_entity c))
                     && (entity_instance_num e =? entity_instance_num (node_entity c))
                  then inr tt else inl tt)) tt;
      mret (match x with inr _ => true | inl _ => false end)
  | _, _ => mret false
  end.

(** ** Building *)

(** The last node of the run of [entity_type'] nodes, else the last node. *)
Fixpoint find_insertion_at (fuel : nat) (start : hptr) (entity_type' : Z) : H hptr :=
  match fuel with
  | O => lift (Fault FFuel)
  | S fuel =>
      n ← load start;
      match next_sibling n with
      | None => mret start
      | Some _ =>
          let this_type := entity_type (node_entity n) in
          next ← load (next_sibling n);
          if (this_type =? entity_type') && negb (this_type =? entity_type (node_entity next))
          then mret start
          else find_insertion_at fuel (next_sibling n) entity_type'
      end
  end.

Definition zero_entity : pldm_entity := Entity 0 0 0.

Definition node_size : Z := SIZEOF_ENTITY_NODE.

Section alloc.
Context `{Allocator}.

Definition pldm_entity_association_tree_init : H hptr :=
  malloc SIZEOF_ENTITY_TREE (fun _ _ => Tree None 0).

(** [entity] is in/out: the type and remote container go in, the instance and the
    container come out.  Every failure after the allocation frees the node. *)
Definition pldm_entity_association_tree_add_entity (tree : hptr) (entity : option pldm_entity)
    (entity_instance_number : Z) (parent : hptr) (association_type : Z)
    (is_remote is_update_container_id : bool) (container_id : Z)
  : H (hptr * option pldm_entity) :=
  match tree, entity with
  | Some _, Some e =>
    dup ← (match parent with
           | Some _ =>
               if entity_instance_number =? 0xffff then mret false
               else pldm_is_current_parent_child parent
                      (Some (Entity (entity_type e) entity_instance_number 0))
           | None => mret false
           end);
    if dup : bool then mret (None, entity) else
    if negb (association_type =? PLDM_ENTITY_ASSOCIAION_PHYSICAL)
       && negb (association_type =? PLDM_ENTITY_ASSOCIAION_LOGICAL) then mret (None, entity) else
    let instance := if entity_instance_number =? 0xffff then 1 else entity_instance_number in
    node ← malloc node_size (fun _ _ =>
      Node (Entity (entity_type e) instance 0) zero_entity 0 None None association_type);
    match node with
    | None => mret (None, entity)
    | Some _ =>
      let fail := _ ← free pldm_entity_node node; mret (None, entity) in
      let finish :=
        n ← load node;
        let out := node_entity n in
        mret (node, Some (Entity (entity_type e) (entity_instance_num out)
                            (if is_update_container_id then entity_container_id out
                             else entity_container_id e))) in
      t ← load tree;
      match tree_root t with
      | None =>
          match parent with
          | Some _ => fail
          | None =>
              _ ← store tree (Tree node (last_used_container_id t));
              finish
          end
      | Some _ =>
          pn ← (match parent with Some _ => p ← load parent; mret (Some p) | None => mret None end);
          match pn with
          | Some (Node pe _ _ None _ _) =>
              if last_used_container_id t =? UINT16_MAX then fail else
              _ ← update parent (set_first_child node);
              let remote0 := if is_remote then entity_container_id e else 0 in
              let '(cid, last) :=
                if is_update_container_id then
                  if negb (container_id =? 0xffff) then (container_id, last_used_container_id t)
                  else (u16 (last_used_container_id t + 1), u16 (last_used_container_id t + 1))
                else (entity_container_id e, last_used_container_id t) in
              let remote := if is_remote then remote0 else cid in
              _ ← store tree (Tree (tree_root t) last);
              _ ← store node (Node (Entity (entity_type e) instance cid) pe remote None None association_type);
              finish
          | _ =>
              let start := match pn with Some p => first_child p | None => tree_root t end in
              fuel ← node_fuel;
              prev ← find_insertion_at fuel start (entity_type e);
              match prev with
              | None => fail
              | Some _ =>
                  p ← load prev;
                  let same := entity_type (node_entity p) =? entity_type e in
                  if same && (entity_instance_num (node_entity p) =? UINT16_MAX) then fail else
                  let instance :=
                    if same then
                      if entity_instance_number =? 0xffff
                      then u16 (entity_instance_num (node_entity p) + 1) else entity_instance_number
                    else instance in
                  _ ← update prev (set_next_sibling node);
                  _ ← store node (Node (Entity (entity_type e) instance (entity_container_id (node_entity p)))
                                     (node_parent p) (entity_container_id e) None (next_sibling p)
                                     association_type);
                  finish
              end
          end
      end
    end
  | _, _ => mret (None, entity)
  end.

Definition pldm_entity_association_tree_add (tree : hptr) (entity : option pldm_entity)
    (entity_instance_number : Z) (parent : hptr) (association_type : Z) : H (hptr * option pldm_entity) :=
  pldm_entity_association_tree_add_entity tree entity entity_instance_number parent association_type
    false true 0xffff.
End alloc.

(** ** Visiting *)

Fixpoint get_num_nodes (fuel : nat) (node : hptr) (num : Z) : H Z :=
  match node with
  | None => mret num
  | Some _ =>
    match fuel with
    | O => lift (Fault FFuel)
    | S fuel =>
      n ← load node;
      num ← get_num_nodes fuel (next_sibling n) (num + 1);
      get_num_nodes fuel (first_child n) num
    end
  end.

(** Store into the caller's array of entities. *)
Definition array_set {A} (l : list A) (i : nat) (v : A) : outcome (list A) :=
  if (i <? length l)%nat then Ok (<[i := v]> l) else Fault FMemory.

Fixpoint entity_association_tree_visit (fuel : nat) (node : hptr) (entities : list pldm_entity)
    (index : nat) : H (list pldm_entity * nat) :=
  match node with
  | None => mret (entities, index)
  | Some _ =>
    match fuel with
    | O => lift (Fault FFuel)
    | S fuel =>
      n ← load node;
      entities ← lift (array_set entities index (node_entity n));
      '(entities, index) ← entity_association_tree_visit fuel (next_sibling n) entities (S index);
      entity_association_tree_visit fuel (first_child n) entities index
    end
  end.

(** The array the caller gets, with its size; NULL when there was no memory.  It
    belongs to the caller, so it is a value here and not a block of the heap. *)
Definition pldm_entity_association_tree_visit `{Allocator} (tree : hptr)
  : H (option (list pldm_entity) * Z) :=
  match tree with
  | None => mret (None, 0)
  | Some _ =>
    t ← load tree;
    match tree_root t with
    | None => mret (None, 0)
    | Some _ =>
        fuel ← node_fuel;
        size ← get_num_nodes fuel (tree_root t) 0;
        given ← malloc_given (size * SIZEOF_ENTITY);
        if given : bool then
          '(entities, _) ← entity_association_tree_visit fuel (tree_root t)
                             (replicate (Z.to_nat size) zero_entity) 0;
          mret (Some entities, size)
        else mret (None, 0)
    end
  end.

(** ** Destroying *)

Fixpoint entity_association_tree_destroy (fuel : nat) (node : hptr) : H unit :=
  match node with
  | None => mret tt
  | Some _ =>
    match fuel with
    | O => lift (Fault FFuel)
    | S fuel =>
      n ← load node;
      _ ← entity_association_tree_destroy fuel (next_sibling n);
      _ ← entity_association_tree_destroy fuel (first_child n);
      free pldm_entity_node node
    end
  end.

Definition pldm_entity_association_tree_destroy (tree : hptr) : H unit :=
  match tree with
  | None => mret tt
  | Some _ =>
      t ← load tree;
      fuel ← node_fuel;
      _ ← entity_association_tree_destroy fuel (tree_root t);
      free pldm_entity_association_tree tree
  end.

Definition pldm_entity_association_tree_destroy_root (tree : hptr) : H unit :=
  match tree with
  | None => mret tt
  | Some _ =>
      t ← load tree;
      fuel ← node_fuel;
      _ ← entity_association_tree_destroy fuel (tree_root t);
      store tree (Tree None 0)
  end.

(** ** Searching

    The recursive searches do not stop once something is found: a later match
    replaces [out]. *)

Definition pldm_entity_cmp (l r : pldm_entity) : bool :=
  (entity_type l =? entity_type r) && (entity_instance_num l =? entity_instance_num r)
  && (entity_container_id l =? entity_container_id r).

Fixpoint find_entity_ref_in_tree (fuel : nat) (tree_node : hptr) (entity : pldm_entity) (node : hptr)
  : H hptr :=
  match tree_node with
  | None => mret node
  | Some _ =>
    match fuel with
    | O => lift (Fault FFuel)
    | S fuel =>
      n ← load tree_node;
      if pldm_entity_cmp (node_entity n) entity then mret tree_node
      else
        node ← find_entity_ref_in_tree fuel (first_child n) entity node;
        find_entity_ref_in_tree fuel (next_sibling n) entity node
    end
  end.

(** [node] is the out-parameter's initial value. *)
Definition pldm_find_entity_ref_in_tree (tree : hptr) (entity : pldm_entity) (node : option hptr)
  : H (option hptr) :=
  match tree, node with
  | Some _, Some out =>
      t ← load tree;
      fuel ← node_fuel;
      out ← find_entity_ref_in_tree fuel (tree_root t) entity out;
      mret (Some out)
  | _, _ => mret node
  end.

Definition same_kind (a b : pldm_entity) : bool :=
  (entity_type a =? entity_type b) && (entity_instance_num a =? entity_instance_num b).

Definition set_container (e : pldm_entity) (cid : Z) : pldm_entity :=
  Entity (entity_type e) (entity_instance_num e) cid.

(** [entity] is in/out: a match overwrites its container id, which the rest of the
    search then compares with. *)
Fixpoint entity_association_tree_find_if_remote (fuel : nat) (node : hptr) (entity : pldm_entity)
    (out : hptr) (is_remote : bool) : H (pldm_entity * hptr) :=
  match node with
  | None => mret (entity, out)
  | Some _ =>
    match fuel with
    | O => lift (Fault FFuel)
    | S fuel =>
      n ← load node;
      if (negb is_remote || (remote_container_id n =? entity_container_id entity))
         && same_kind (node_entity n) entity
      then mret (set_container entity (entity_container_id (node_entity n)), node)
      else
        '(entity, out) ← entity_association_tree_find_if_remote fuel (next_sibling n) entity out is_remote;
        entity_association_tree_find_if_remote fuel (first_child n) entity out is_remote
    end
  end.

Definition pldm_entity_association_tree_find_with_locality (tree : hptr) (entity : option pldm_entity)
    (is_remote : bool) : H (hptr * option pldm_entity) :=
  match tree, entity with
  | Some _, Some e =>
      t ← load tree;
      fuel ← node_fuel;
      '(e, out) ← entity_association_tree_find_if_remote fuel (tree_root t) e None is_remote;
      mret (out, Some e)
  | _, _ => mret (None, entity)
  end.

Fixpoint entity_association_tree_find (fuel : nat) (node : hptr) (entity : pldm_entity) (out : hptr)
  : H (pldm_entity * hptr) :=
  match node with
  | None => mret (entity, out)
  | Some _ =>
    match fuel with
    | O => lift (Fault FFuel)
    | S fuel =>
      n ← load node;
      if same_kind (node_entity n) entity
      then mret (set_container entity (entity_container_id (node_entity n)), node)
      else
        '(entity, out) ← entity_association_tree_find fuel (next_sibling n) entity out;
        entity_association_tree_find fuel (first_child n) entity out
    end
  end.

Definition pldm_entity_association_tree_find (tree : hptr) (entity : option pldm_entity)
  : H (hptr * option pldm_entity) :=
  match tree, entity with
  | Some _, Some e =>
      t ← load tree;
      fuel ← node_fuel;
      '(e, out) ← entity_association_tree_find fuel (tree_root t) e None;
      mret (out, Some e)
  | _, _ => mret (None, entity)
  end.

(** ** Copying *)

(** Returns the code and what is stored through [new_node].  [fuel] bounds the
    depth, and the copy made so far is destroyed with the nodes there are then. *)
Fixpoint entity_association_tree_copy `{Allocator} (fuel : nat) (org_node : hptr) : H (Z * hptr) :=
  match org_node with
  | None => mret (0, None)
  | Some _ =>
    match fuel with
    | O => lift (Fault FFuel)
    | S fuel =>
      o ← load org_node;
      new ← malloc node_size (fun _ _ =>
        Node (node_entity o) (node_parent o) (remote_container_id o) None None (association_type o));
      match new with
      | None => mret (- ENOMEM, None)
      | Some _ =>
        '(rc, child) ← entity_association_tree_copy fuel (first_child o);
        _ ← update new (set_first_child child);
        if negb (rc =? 0) then _ ← free pldm_entity_node new; mret (rc, None)
        else
          '(rc, sibling) ← entity_association_tree_copy fuel (next_sibling o);
          _ ← update new (set_next_sibling sibling);
          if negb (rc =? 0) then
            n ← load new;
            destroy_fuel ← node_fuel;
            _ ← entity_association_tree_destroy destroy_fuel (first_child n);
            _ ← free pldm_entity_node new;
            mret (rc, None)
          else mret (0, new)
      end
    end
  end.

(** The new tree's root is left alone when there is nothing to copy. *)
Definition copy_root `{Allocator} (org_tree new_tree : hptr) : H Z :=
  o ← load org_tree;
  n ← load new_tree;
  _ ← store new_tree (Tree (tree_root n) (last_used_container_id o));
  match tree_root o with
  | None => mret 0
  | Some _ =>
      fuel ← node_fuel;
      '(rc, root) ← entity_association_tree_copy fuel (tree_root o);
      _ ← store new_tree (Tree root (last_used_container_id o));
      mret rc
  end.

Definition pldm_entity_association_tree_copy_root `{Allocator} (org_tree new_tree : hptr) : H unit :=
  _ ← lift (c_assert (bool_decide (org_tree <> None)));
  _ ← lift (c_assert (bool_decide (new_tree <> None)));
  _ ← copy_root org_tree new_tree;
  mret tt.

Definition pldm_entity_association_tree_copy_root_check `{Allocator} (org_tree new_tree : hptr) : H Z :=
  match org_tree, new_tree with
  | Some _, Some _ => copy_root org_tree new_tree
  | _, _ => mret (- EINVAL)
  end.

(** ** Deleting a subtree *)

(** The loop over the parent's children: unlink the first equal one and destroy
    [node]. *)
Fixpoint delete_child_loop (fuel : nat) (parent curr prev node : hptr) (entity : pldm_entity) : H unit :=
  match curr with
  | None => mret tt
  | Some _ =>
    match fuel with
    | O => lift (Fault FFuel)
    | S fuel =>
      c ← load curr;
      if pldm_entity_cmp entity (node_entity c) then
        p ← load parent;
        _ ← (if bool_decide (curr = first_child p)
             then update parent (set_first_child (next_sibling c))
             else match prev with
                  | Some _ => update prev (set_next_sibling (next_sibling c))
                  | None => mret tt
                  end);
        _ ← update curr (set_next_sibling None);
        destroy_fuel ← node_fuel;
        entity_association_tree_destroy destroy_fuel node
      else delete_child_loop fuel parent (next_sibling c) curr node entity
    end
  end.

Definition pldm_entity_association_tree_delete_node (tree : hptr) (entity : option pldm_entity) : H Z :=
  match tree, entity with
  | Some _, Some e =>
      node ← pldm_find_entity_ref_in_tree tree e (Some None);
      match node with
      | Some (Some a) =>
          n ← load (Some a);
          parent ← pldm_find_entity_ref_in_tree tree (node_parent n) (Some None);
          match parent with
          | Some (Some b) =>
              p ← load (T := pldm_entity_node) (Some b);
              fuel ← node_fuel;
              _ ← delete_child_loop fuel (Some b) (first_child p) None (Some a) e;
              mret 0
          | _ => mret (- ENOENT)
          end
      | _ => mret (- ENOENT)
      end
  | _, _ => mret (- EINVAL)
  end.
