(* ===== verification/TreeProps.v ===== *)
(** * What an entity association tree is (src/dsp/pdr.c)

    The nodes of EntityTree.v represent a forest in first-child/next-sibling form.
    The functions that read are shown to be functions of the forest, and those
    that build, copy and destroy to change it as meant. *)

From stdpp Require Import gmap.
From S2P Require Import Prelude Msgbuf PdrHeap EntityTree PdrRepo PdrProps.

(** ** Forests *)

Record ninfo := NInfo { ni_entity : pldm_entity; ni_parent : pldm_entity; ni_remote : Z; ni_type : Z }.

(** A node with its children and the siblings behind it. *)
Inductive forest :=
  | Nil
  | Br (a : positive) (d : ninfo) (children siblings : forest).

Definition root (f : forest) : hptr := match f with Nil => None | Br a _ _ _ => Some a end.

Definition node_of (d : ninfo) (ch sib : forest) : pldm_entity_node :=
  Node (ni_entity d) (ni_parent d) (ni_remote d) (root ch) (root sib) (ni_type d).

Fixpoint at_forest (m : gmap positive pldm_entity_node) (f : forest) : Prop :=
  match f with
  | Nil => True
  | Br a d ch sib => m !! a = Some (node_of d ch sib) /\ at_forest m ch /\ at_forest m sib
  end.

(** The nodes in the order the library visits them. *)
Fixpoint infos (f : forest) : list ninfo :=
  match f with Nil => [] | Br _ d ch sib => d :: infos sib ++ infos ch end.

Fixpoint blocks (f : forest) : list positive :=
  match f with Nil => [] | Br a _ ch sib => a :: blocks sib ++ blocks ch end.

(** The nodes of a forest, with their blocks. *)
Fixpoint nodes (f : forest) : list (positive * ninfo) :=
  match f with Nil => [] | Br a d ch sib => (a, d) :: nodes sib ++ nodes ch end.

Lemma blocks_nodes f : blocks f = fst <$> nodes f.
Proof. induction f; cbn; [done|]. rewrite fmap_app. congruence. Qed.

Lemma infos_nodes f : infos f = snd <$> nodes f.
Proof. induction f; cbn; [done|]. rewrite fmap_app. congruence. Qed.

Fixpoint depth (f : forest) : nat :=
  match f with Nil => 0 | Br _ _ ch sib => S (Nat.max (depth ch) (depth sib)) end.

(** The forest without the names of its blocks. *)
Fixpoint same_shape (f g : forest) : Prop :=
  match f, g with
  | Nil, Nil => True
  | Br _ d ch sib, Br _ d' ch' sib' => d = d' /\ same_shape ch ch' /\ same_shape sib sib'
  | _, _ => False
  end.

Lemma length_infos f : length (infos f) = length (blocks f).
Proof. induction f; cbn; rewrite ?length_app; lia. Qed.

Lemma depth_blocks f : (depth f <= length (blocks f))%nat.
Proof. induction f; cbn; rewrite ?length_app; lia. Qed.

Lemma blocks_in m f a : at_forest m f -> a ∈ blocks f -> is_Some (m !! a).
Proof.
  induction f as [|b d ch IHc sib IHs]; cbn; [intros _ []%elem_of_nil|].
  intros (E & Hc & Hs). rewrite elem_of_cons, elem_of_app. intros [->|[?|?]]; [by eexists|auto..].
Qed.

(** The nodes of the heap bound the depth: the fuel of the recursive functions. *)
Lemma depth_size m f : at_forest m f -> NoDup (blocks f) -> (depth f <= size m)%nat.
Proof.
  intros Hf Hn. etrans; [apply depth_blocks|].
  rewrite <- (size_list_to_set (C := gset positive) (blocks f)) by done.
  rewrite <- (size_dom (D := gset positive) m). apply subseteq_size.
  intros a Ha%elem_of_list_to_set. apply elem_of_dom. by eapply blocks_in.
Qed.

Lemma at_forest_insert m f a v : a ∉ blocks f -> at_forest m f -> at_forest (<[a := v]> m) f.
Proof.
  induction f as [|b d ch IHc sib IHs]; cbn; [done|].
  rewrite not_elem_of_cons, not_elem_of_app. intros (? & ? & ?) (E & ? & ?).
  split; [by rewrite lookup_insert_ne by done|auto].
Qed.

Lemma at_forest_weaken m m' f :
  (forall a, a ∈ blocks f -> m' !! a = m !! a) -> at_forest m f -> at_forest m' f.
Proof.
  induction f as [|b d ch IHc sib IHs]; cbn; [done|]. intros Hm (E & ? & ?).
  split_and!; [by rewrite Hm by left|apply IHc|apply IHs]; try done;
    intros a Ha; apply Hm; rewrite elem_of_cons, elem_of_app; auto.
Qed.

Lemma nodup_br a (l1 l2 : list positive) :
  NoDup (a :: l1 ++ l2) -> (a ∉ l1) /\ (a ∉ l2) /\ NoDup l1 /\ NoDup l2 /\ (forall x, x ∈ l1 -> x ∉ l2).
Proof.
  rewrite list.NoDup_cons, not_elem_of_app, list.NoDup_app. tauto.
Qed.

(** ** Visiting *)

Section reading.
Context (h : heap).

Lemma get_num_nodes_ok fuel f : forall num,
  at_forest (h_nodes h) f -> (depth f <= fuel)%nat ->
  get_num_nodes fuel (root f) num h = Ok (num + Z.of_nat (length (blocks f)), h).
Proof.
  revert f. induction fuel as [|fuel IH]; intros [|a d ch sib] num Hf Hd; cbn in Hd; try lia.
  1,2: cbn; rewrite Z.add_0_r; done.
  destruct Hf as (E & Hc & Hs). cbn [get_num_nodes root].
  eapply run_step; [eapply load_ok, E|]. cbn [node_of next_sibling first_child].
  eapply run_step; [apply IH; [done|lia]|]. rewrite IH by (done || lia).
  cbn [blocks length]. rewrite length_app. do 2 f_equal. lia.
Qed.

Lemma array_set_at {A} (done rest : list A) x v :
  array_set (done ++ x :: rest) (length done) v = Ok ((done ++ [v]) ++ rest).
Proof.
  unfold array_set. rewrite (proj2 (Nat.ltb_lt _ _)) by (rewrite length_app; cbn; lia).
  f_equal. rewrite <- app_assoc. rewrite insert_app_r_alt by lia. by rewrite Nat.sub_diag.
Qed.

Lemma visit_ok fuel f : forall done rest,
  at_forest (h_nodes h) f -> (depth f <= fuel)%nat -> (length (infos f) <= length rest)%nat ->
  entity_association_tree_visit fuel (root f) (done ++ rest) (length done) h
  = Ok ((done ++ (ni_entity <$> infos f)) ++ drop (length (infos f)) rest,
        (length done + length (infos f))%nat, h).
Proof.
  revert f. induction fuel as [|fuel IH]; intros [|a d ch sib] done rest Hf Hd Hl; cbn in Hd; try lia.
  1,2: cbn; rewrite app_nil_r, drop_0, Nat.add_0_r; done.
  destruct Hf as (E & Hc & Hs). cbn [infos length] in Hl. rewrite length_app in Hl.
  destruct rest as [|x rest]; [cbn in Hl; lia|]. cbn [length] in Hl.
  cbn [entity_association_tree_visit root].
  eapply run_step; [eapply load_ok, E|]. cbn [node_of node_entity next_sibling first_child].
  eapply run_step; [unfold lift; rewrite array_set_at; reflexivity|].
  replace (S (length done)) with (length (done ++ [ni_entity d])) by (rewrite length_app; cbn; lia).
  eapply run_step; [apply IH; [done|lia|lia]|].
  replace (length (done ++ [ni_entity d]) + length (infos sib))%nat
    with (length ((done ++ [ni_entity d]) ++ (ni_entity <$> infos sib)))
    by (rewrite !length_app, length_fmap; cbn; lia).
  rewrite IH; [|done|lia|rewrite length_drop; lia].
  rewrite drop_drop. cbn [infos fmap list_fmap length]. rewrite !fmap_app, !length_app, !length_fmap.
  cbn [length]. rewrite <- !app_assoc. cbn [app drop].
  do 3 f_equal; [by rewrite <- app_assoc|lia].
Qed.
End reading.

(** ** Destroying *)

Definition with_nodes (m : gmap positive pldm_entity_node) (h : heap) : heap :=
  Heap (allocs h) (h_bufs h) (h_recs h) (h_repos h) m (h_trees h).

Lemma lookup_drop_keys {V} (m : gmap positive V) ks a :
  drop_keys m ks !! a = if decide (a ∈ ks) then None else m !! a.
Proof.
  revert m. induction ks as [|k ks IH]; intros m; [done|].
  change (drop_keys m (k :: ks)) with (drop_keys (delete k m) ks). rewrite IH.
  destruct (decide (a ∈ ks)), (decide (a ∈ k :: ks)) as [Hin|Hin]; try done.
  - destruct Hin. by right.
  - apply elem_of_cons in Hin as [->|?]; [by rewrite lookup_delete_eq|done].
  - rewrite lookup_delete_ne; [done|]. intros ->. apply Hin. by left.
Qed.

Lemma destroy_nodes_ok fuel f : forall h,
  at_forest (h_nodes h) f -> NoDup (blocks f) -> (depth f <= fuel)%nat ->
  entity_association_tree_destroy fuel (root f) h
  = Ok (tt, with_nodes (drop_keys (h_nodes h) (blocks f)) h).
Proof.
  revert f. induction fuel as [|fuel IH]; intros [|a d ch sib] h Hf Hn Hd; cbn in Hd; try lia.
  1,2: by destruct h.
  destruct Hf as (E & Hc & Hs). destruct (nodup_br _ _ _ Hn) as (Ha1 & Ha2 & Hn1 & Hn2 & Hdis).
  cbn [entity_association_tree_destroy root].
  eapply run_step; [eapply load_ok, E|]. cbn [node_of next_sibling first_child].
  eapply run_step; [apply IH; [done|done|lia]|].
  eapply run_step.
  { apply IH; [|done|lia]. eapply at_forest_weaken; [|exact Hc]. intros b Hb. cbn [with_nodes h_nodes].
    rewrite lookup_drop_keys, decide_False; [done|]. intros Hb'. by eapply Hdis. }
  erewrite free_ok.
  2: { cbn [region node_region with_nodes h_nodes]. rewrite !lookup_drop_keys, !decide_False by done. exact E. }
  unfold with_nodes. cbn [region set_region node_region allocs h_bufs h_recs h_repos h_nodes h_trees blocks].
  do 3 f_equal. apply map_eq. intros b.
  change (drop_keys (h_nodes h) (a :: blocks sib ++ blocks ch)) with
    (drop_keys (delete a (h_nodes h)) (blocks sib ++ blocks ch)).
  rewrite lookup_drop_keys. destruct (decide (b = a)) as [->|Hne].
  - rewrite !lookup_delete_eq. by destruct (decide _).
  - rewrite !lookup_delete_ne, !lookup_drop_keys by done.
    destruct (decide (b ∈ blocks ch)), (decide (b ∈ blocks sib)), (decide (b ∈ _ ++ _)) as [Hin|Hin];
      try done; rewrite elem_of_app in Hin; tauto.
Qed.

(** ** Searching *)

(** The last match of the traversal, matches not descended into. *)
Fixpoint last_match (first : bool) (P : pldm_entity -> bool) (f : forest) (acc : option (positive * ninfo))
  : option (positive * ninfo) :=
  match f with
  | Nil => acc
  | Br a d ch sib =>
      if P (ni_entity d) then Some (a, d)
      else if first then last_match first P sib (last_match first P ch acc)
      else last_match first P ch (last_match first P sib acc)
  end.

Lemma last_match_found first P f acc :
  match last_match first P f acc with
  | Some (a, d) => acc = Some (a, d) \/ P (ni_entity d) = true /\ (a, d) ∈ nodes f
  | None => acc = None /\ Forall (fun d => P (ni_entity d) = false) (infos f)
  end.
Proof.
  revert acc. induction f as [|a d ch IHc sib IHs]; intros acc; cbn.
  { destruct acc as [[a d]|]; [by left|]. by split. }
  destruct (P (ni_entity d)) eqn:E.
  { right. split; [done|]. by left. }
  destruct first.
  - specialize (IHc acc). specialize (IHs (last_match true P ch acc)).
    destruct (last_match true P sib _) as [[b e]|].
    + rewrite !elem_of_cons, !elem_of_app.
      destruct IHs as [Eq|(? & ?)]; [rewrite Eq in IHc|]; naive_solver.
    + destruct IHs as [Eq Hs]. rewrite Eq in IHc. rewrite list.Forall_cons, Forall_app. naive_solver.
  - specialize (IHs acc). specialize (IHc (last_match false P sib acc)).
    destruct (last_match false P ch _) as [[b e]|].
    + rewrite !elem_of_cons, !elem_of_app.
      destruct IHc as [Eq|(? & ?)]; [rewrite Eq in IHs|]; naive_solver.
    + destruct IHc as [Eq Hs]. rewrite Eq in IHs. rewrite list.Forall_cons, Forall_app. naive_solver.
Qed.

Section searching.
Context (h : heap).

Lemma find_ref_ok fuel f entity : forall acc,
  at_forest (h_nodes h) f -> (depth f <= fuel)%nat ->
  find_entity_ref_in_tree fuel (root f) entity (fst <$> acc) h
  = Ok (fst <$> last_match true (fun e => pldm_entity_cmp e entity) f acc, h).
Proof.
  revert f. induction fuel as [|fuel IH]; intros [|a d ch sib] acc Hf Hd; cbn in Hd; try lia; try done.
  destruct Hf as (E & Hc & Hs). cbn [find_entity_ref_in_tree root last_match].
  eapply run_step; [eapply load_ok, E|]. cbn [node_of node_entity next_sibling first_child].
  destruct (pldm_entity_cmp _ _); [done|].
  eapply run_step; [apply IH; [done|lia]|]. apply IH; [done|lia].
Qed.

(** What the search does to the in/out entity. *)
Definition seen (entity : pldm_entity) (acc : option (positive * ninfo)) : pldm_entity :=
  match acc with
  | Some (_, d) => set_container entity (entity_container_id (ni_entity d))
  | None => entity
  end.

Lemma same_kind_container a e cid : same_kind a (set_container e cid) = same_kind a e.
Proof. done. Qed.

Lemma tree_find_ok fuel f entity : forall acc,
  at_forest (h_nodes h) f -> (depth f <= fuel)%nat ->
  entity_association_tree_find fuel (root f) (seen entity acc) (fst <$> acc) h
  = (let r := last_match false (fun e => same_kind e entity) f acc in Ok (seen entity r, fst <$> r, h)).
Proof.
  revert f. induction fuel as [|fuel IH]; intros [|a d ch sib] acc Hf Hd; cbn in Hd; try lia; try done.
  destruct Hf as (E & Hc & Hs). cbn [entity_association_tree_find root last_match].
  eapply run_step; [eapply load_ok, E|]. cbn [node_of node_entity next_sibling first_child].
  replace (same_kind (ni_entity d) (seen entity acc)) with (same_kind (ni_entity d) entity)
    by (destruct acc as [[? ?]|]; done).
  destruct (same_kind _ _); [by destruct acc as [[? ?]|]|].
  eapply run_step; [apply IH; [done|lia]|]. cbn beta zeta iota. apply IH; [done|lia].
Qed.
End searching.

(** ** Copying *)

(** What an operation on nodes leaves alone, and what it keeps. *)
Record nodes_only (h h' : heap) : Prop := {
  no_bufs : h_bufs h' = h_bufs h;
  no_recs : h_recs h' = h_recs h;
  no_repos : h_repos h' = h_repos h;
  no_trees : h_trees h' = h_trees h;
  no_allocs : (allocs h <= allocs h')%nat;
  no_fresh : names_below h' (h_nodes h')
}.

(** A copy of [f], in blocks of its own. *)
Record copied (f : forest) (h : heap) (q : hptr) (h' : heap) (g : forest) : Prop := {
  cp_root : root g = q;
  cp_shape : same_shape f g;
  cp_blocks : NoDup (blocks g);
  cp_new : Forall (fun b => (next_block h <= b)%positive) (blocks g);
  cp_at : at_forest (h_nodes h') g;
  cp_old : forall b, b ∉ blocks g -> h_nodes h' !! b = h_nodes h !! b
}.

Definition copy_post (f : forest) (h : heap) (r : Z * hptr) (h' : heap) : Prop :=
  nodes_only h h' /\
  ((r.1 = 0 /\ exists g, copied f h r.2 h' g) \/
   (r = (- ENOMEM, None) /\ h_nodes h' = h_nodes h)).

Lemma nodes_only_trans h1 h2 h3 : nodes_only h1 h2 -> nodes_only h2 h3 -> nodes_only h1 h3.
Proof. intros [] []. constructor; try congruence; try done. lia. Qed.

(** A change of existing nodes only. *)
Lemma nodes_only_with m h :
  names_below h (h_nodes h) -> dom m ⊆ dom (h_nodes h) -> nodes_only h (with_nodes m h).
Proof. intros Hn Hd. constructor; try done. by eapply names_below_dom. Qed.

Lemma next_block_mono h h' : (allocs h <= allocs h')%nat -> (next_block h <= next_block h')%positive.
Proof. unfold next_block. lia. Qed.

Lemma fresh_not_in {V} h (m : gmap positive V) a : names_below h m -> (next_block h <= a)%positive -> m !! a = None.
Proof.
  intros Hn Ha. destruct (m !! a) eqn:E; [|done]. specialize (Hn a ltac:(by eexists)). lia.
Qed.

Lemma old_not_new h f b :
  Forall (fun b => (next_block h <= b)%positive) (blocks f) -> (b < next_block h)%positive -> b ∉ blocks f.
Proof. rewrite Forall_elem. intros Hf Hb Hin. specialize (Hf b Hin). cbn in Hf. lia. Qed.

Lemma forest_kept h h' g f :
  names_below h (h_nodes h) -> at_forest (h_nodes h) f ->
  Forall (fun b => (next_block h <= b)%positive) (blocks g) ->
  (forall b, b ∉ blocks g -> h_nodes h' !! b = h_nodes h !! b) -> at_forest (h_nodes h') f.
Proof.
  intros Hn Hf Hg Ho. eapply at_forest_weaken; [|exact Hf]. intros b Hb. apply Ho.
  eapply old_not_new; [exact Hg|]. apply Hn. by eapply blocks_in.
Qed.

(** The copy with the children in place and the siblings to come. *)
Record halfway (h : heap) (new : positive) (d : ninfo) (gch : forest) (h' : heap) : Prop := {
  hw_only : nodes_only h h';
  hw_name : (next_block h <= new)%positive;
  hw_node : h_nodes h' !! new = Some (node_of d gch Nil);
  hw_names : names_below h (h_nodes h);
  hw_blocks : NoDup (new :: blocks gch);
  hw_new : Forall (fun b => (next_block h <= b)%positive) (new :: blocks gch);
  hw_at : at_forest (h_nodes h') gch;
  hw_old : forall b, b ∉ new :: blocks gch -> h_nodes h' !! b = h_nodes h !! b
}.

(** The new node before its links are set. *)
Definition lone_node (d : ninfo) : pldm_entity_node := node_of d Nil Nil.

Definition with_node (a : positive) (n : pldm_entity_node) (h : heap) : heap :=
  with_nodes (<[a := n]> (h_nodes h)) h.

Lemma nodes_only_node a n h :
  names_below h (h_nodes h) -> is_Some (h_nodes h !! a) -> nodes_only h (with_node a n h).
Proof.
  intros Hn Ha. apply nodes_only_with; [done|]. by rewrite dom_insert_lookup_L.
Qed.

(** The block a successful request adds. *)
Lemma nodes_only_new n h :
  names_below h (h_nodes h) -> nodes_only h (with_node (next_block h) n (tick h)).
Proof.
  intros Hn. constructor; try done; [cbn; lia|]. apply names_below_insert; [|unfold next_block; cbn; lia].
  by apply (names_below_weaken h); [|cbn; lia].
Qed.

(** The children copied after the new node, and linked to it. *)
Lemma halfway_intro h d ch child h2 gch :
  names_below h (h_nodes h) ->
  nodes_only (with_node (next_block h) (lone_node d) (tick h)) h2 ->
  copied ch (with_node (next_block h) (lone_node d) (tick h)) child h2 gch ->
  h_nodes h2 !! next_block h = Some (lone_node d) /\
  halfway h (next_block h) d gch (with_node (next_block h) (set_first_child child (lone_node d)) h2).
Proof.
  intros Hn Hno Hg. set (new := next_block h) in *.
  assert (Forall (fun b => (new < b)%positive) (blocks gch)) as Hlt.
  { eapply list.Forall_impl; [apply Hg|]. cbn. intros b. unfold new, next_block. cbn. lia. }
  assert (new ∉ blocks gch) as Hnc.
  { intros Hin. rewrite Forall_elem in Hlt. specialize (Hlt _ Hin). cbn in Hlt. lia. }
  assert (h_nodes h2 !! new = Some (lone_node d)) as Hn2.
  { rewrite (cp_old _ _ _ _ _ Hg) by done. apply lookup_insert_eq. }
  split; [done|]. split.
  - eapply nodes_only_trans; [by apply nodes_only_new|]. eapply nodes_only_trans; [exact Hno|].
    apply nodes_only_node; [apply Hno|by eexists].
  - done.
  - cbn. rewrite lookup_insert_eq. unfold node_of, set_first_child. cbn. by rewrite (cp_root _ _ _ _ _ Hg).
  - done.
  - apply list.NoDup_cons. split; [done|apply Hg].
  - constructor; [by unfold new|]. eapply list.Forall_impl; [exact Hlt|]. cbn. intros. fold new. lia.
  - apply at_forest_insert; [done|apply Hg].
  - intros b. rewrite not_elem_of_cons. intros [Hb1 Hb2]. cbn. rewrite lookup_insert_ne by done.
    rewrite (cp_old _ _ _ _ _ Hg) by done. cbn. by apply lookup_insert_ne.
Qed.

Lemma halfway_at h new d gch h' : halfway h new d gch h' -> at_forest (h_nodes h') (Br new d gch Nil).
Proof. intros Hw. split_and!; [apply Hw|apply Hw|done]. Qed.

Lemma halfway_kept h new d gch h' f :
  halfway h new d gch h' -> at_forest (h_nodes h) f -> at_forest (h_nodes h') f.
Proof.
  intros Hw Hf. apply (forest_kept h h' (Br new d gch Nil)); [apply Hw|done|apply Hw|apply Hw].
Qed.

(** What was new in [h'] is older than what a later copy makes. *)
Lemma halfway_before h new d gch h' g :
  halfway h new d gch h' -> Forall (fun b => (next_block h' <= b)%positive) (blocks g) ->
  forall b, b ∈ new :: blocks gch -> b ∉ blocks g.
Proof.
  intros Hw Hg b Hb. eapply old_not_new; [exact Hg|]. apply (no_fresh _ _ (hw_only _ _ _ _ _ Hw)).
  eapply (blocks_in _ (Br new d gch Nil)); [by eapply halfway_at|exact Hb].
Qed.

(** With the siblings linked the copy is complete. *)
Lemma halfway_complete h a new d ch gch sib gsib sibling h3 h4 :
  halfway h new d gch h3 -> same_shape ch gch -> copied sib h3 sibling h4 gsib ->
  copied (Br a d ch sib) h (Some new)
    (with_node new (set_next_sibling sibling (node_of d gch Nil)) h4)
    (Br new d gch gsib).
Proof.
  intros Hw Hs Hc. pose proof (halfway_before _ _ _ _ _ _ Hw (cp_new _ _ _ _ _ Hc)) as Hb.
  pose proof (hw_blocks _ _ _ _ _ Hw) as Hnd. apply list.NoDup_cons in Hnd as [Hnew Hnd].
  assert (forall b, b ∈ blocks gch -> b ∉ blocks gsib) as Hbc by (intros; apply Hb; by right).
  assert (new ∉ blocks gsib) as Hns by (apply Hb; by left).
  split.
  - done.
  - cbn. split_and!; [done|done|apply Hc].
  - cbn. apply list.NoDup_cons. rewrite not_elem_of_app. split; [done|]. apply list.NoDup_app.
    split_and!; [apply Hc| |done]. intros b ? ?. by eapply Hbc.
  - cbn. pose proof (hw_new _ _ _ _ _ Hw) as Hge. apply list.Forall_cons in Hge as [? ?].
    constructor; [done|]. apply Forall_app. split; [|done]. eapply list.Forall_impl; [apply Hc|].
    cbn. intros b. pose proof (next_block_mono _ _ (no_allocs _ _ (hw_only _ _ _ _ _ Hw))). lia.
  - cbn. split_and!.
    + rewrite lookup_insert_eq. unfold node_of, set_next_sibling. cbn. by rewrite (cp_root _ _ _ _ _ Hc).
    + apply at_forest_insert; [done|]. eapply at_forest_weaken; [|apply Hw]. intros b ?.
      apply Hc. by apply Hbc.
    + apply at_forest_insert; [done|apply Hc].
  - intros b. cbn. rewrite not_elem_of_cons, not_elem_of_app. intros (? & ? & ?).
    rewrite lookup_insert_ne by done. rewrite (cp_old _ _ _ _ _ Hc) by done.
    apply Hw. rewrite not_elem_of_cons. done.
Qed.

Lemma halfway_ext h new d gch h3 h4 :
  halfway h new d gch h3 -> nodes_only h3 h4 -> h_nodes h4 = h_nodes h3 -> halfway h new d gch h4.
Proof.
  intros [] Hno Eq. split; rewrite ?Eq; try done. by eapply nodes_only_trans.
Qed.

(** Without memory for the siblings what was copied goes again. *)
Lemma halfway_undone h new d gch h4 :
  halfway h new d gch h4 ->
  wp (destroy_fuel ← node_fuel;
      _ ← entity_association_tree_destroy destroy_fuel (root gch);
      _ ← free pldm_entity_node (Some new);
      mret (- ENOMEM, None : hptr)) h4
     (fun r h' => r = (- ENOMEM, None) /\ nodes_only h h' /\ h_nodes h' = h_nodes h).
Proof.
  intros Hw. pose proof (hw_blocks _ _ _ _ _ Hw) as Hnd. apply list.NoDup_cons in Hnd as [Hni Hnd].
  eapply wp_step; [reflexivity|]. eapply wp_step.
  { apply destroy_nodes_ok; [apply Hw|done|]. pose proof (depth_size _ _ (hw_at _ _ _ _ _ Hw) Hnd). lia. }
  eapply wp_step.
  { eapply free_ok. cbn [region node_region with_nodes h_nodes].
    rewrite lookup_drop_keys, decide_False by done. apply Hw. }
  apply wp_ret. cbn [region set_region node_region with_nodes h_nodes].
  assert (delete new (drop_keys (h_nodes h4) (blocks gch)) = h_nodes h) as Eq.
  { apply map_eq. intros b. change (delete new ?m) with (drop_keys m [new]).
    rewrite !lookup_drop_keys. destruct (decide (b ∈ new :: blocks gch)) as [Hb|Hb].
    - pose proof (hw_new _ _ _ _ _ Hw) as Hge. rewrite Forall_elem in Hge.
      rewrite (fresh_not_in h _ b (hw_names _ _ _ _ _ Hw) (Hge b Hb)). apply elem_of_cons in Hb as [->|Hb].
      + by rewrite decide_True by by left.
      + by rewrite (decide_True (P := b ∈ blocks gch)) by done; case_decide.
    - rewrite not_elem_of_cons in Hb. destruct Hb as [Hb1 Hb2].
      rewrite !decide_False by (done || by rewrite list_elem_of_singleton).
      apply Hw. by rewrite not_elem_of_cons. }
  split; [done|]. rewrite Eq. split; [|done]. destruct (hw_only _ _ _ _ _ Hw). constructor; try done.
  cbn. apply (names_below_weaken h); [apply Hw|done].
Qed.

Section copying_siblings.
Context `{Allocator}.

(** The second half of a copy, given the recursive call on the siblings. *)
Lemma copy_siblings_ok fuel h a d ch sib gch h3 new :
  halfway h new d gch h3 -> same_shape ch gch ->
  wp (entity_association_tree_copy fuel (root sib)) h3 (copy_post sib h3) ->
  wp ('(rc, sibling) ← entity_association_tree_copy fuel (root sib);
      _ ← update (Some new) (set_next_sibling sibling);
      if negb (rc =? 0) then
        n ← load (Some new);
        destroy_fuel ← node_fuel;
        _ ← entity_association_tree_destroy destroy_fuel (first_child n);
        _ ← free pldm_entity_node (Some new);
        mret (rc, None)
      else mret (0, Some new)) h3 (copy_post (Br a d ch sib) h).
Proof.
  intros Hw Hsh Hsib. apply wp_bind. eapply wp_mono; [exact Hsib|].
  intros [rc sibling] h4 [Hno Hp]. cbn [fst snd] in Hp. destruct Hp as [(-> & gsib & Hgs)|[[= -> ->] Eq]].
  - assert (h_nodes h4 !! new = Some (node_of d gch Nil)) as Hn4.
    { rewrite (cp_old _ _ _ _ _ Hgs); [apply Hw|]. eapply halfway_before; [exact Hw|apply Hgs|by left]. }
    eapply wp_step; [eapply update_ok, Hn4|]. apply wp_ret.
    split; [|left; split; [done|]; eexists; by eapply halfway_complete].
    eapply nodes_only_trans; [apply Hw|]. eapply nodes_only_trans; [exact Hno|].
    apply (nodes_only_node new); [apply Hno|by eexists].
  - assert (h_nodes h4 !! new = Some (node_of d gch Nil)) as Hn4 by (rewrite Eq; apply Hw).
    eapply wp_step; [eapply update_ok, Hn4|]. cbn [negb].
    eapply wp_step; [eapply load_ok, lookup_insert_eq|]. cbn [set_next_sibling node_of first_child].
    eapply wp_mono; [apply (halfway_undone h new d gch)|].
    + apply (halfway_ext _ _ _ _ h3); [done| |].
      * eapply nodes_only_trans; [exact Hno|]. apply (nodes_only_node new); [apply Hno|by eexists].
      * cbn. rewrite Eq. apply insert_id, Hw.
    + cbn beta. intros r h' (-> & ? & ?). split; [done|by right].
Qed.
End copying_siblings.

Section copying.
Context `{Allocator}.

Lemma copy_ok fuel f : forall h,
  names_below h (h_nodes h) -> at_forest (h_nodes h) f -> (depth f <= fuel)%nat ->
  wp (entity_association_tree_copy fuel (root f)) h (copy_post f h).
Proof.
  revert f. induction fuel as [|fuel IH]; intros [|a d ch sib] h Hn Hf Hd; cbn in Hd; try lia.
  1,2: apply wp_ret; split; [constructor; done|]; left; split; [done|]; exists Nil;
    split; cbn; done || constructor.
  destruct Hf as (E & Hc & Hs). cbn [entity_association_tree_copy root].
  eapply wp_step; [eapply load_ok, E|]. cbn [node_of first_child next_sibling].
  unfold malloc. apply wp_bind. unfold wp at 1.
  destruct (malloc_addr (allocs h) node_size) as [ad|].
  2: { apply wp_ret. split; [|by right]. constructor; try done; [cbn; lia|].
       by apply (names_below_weaken h); [|cbn; lia]. }
  change (set_region _ _) with (with_node (next_block h) (lone_node d) (tick h)).
  pose proof (nodes_only_new (lone_node d) h Hn) as Hone.
  assert (at_forest (h_nodes (with_node (next_block h) (lone_node d) (tick h))) ch) as Hc1.
  { apply at_forest_insert; [|done]. intros Hin%(blocks_in _ _ _ Hc)%Hn. lia. }
  apply wp_bind. eapply wp_mono; [apply IH; [apply Hone|exact Hc1|lia]|].
  intros [rc child] h2 [Hno2 Hp]. cbn [fst snd] in Hp. destruct Hp as [(-> & gch & Hg)|[[= -> ->] Eq]].
  - destruct (halfway_intro _ _ _ _ _ _ Hn Hno2 Hg) as [Hn2 Hw].
    eapply wp_step; [by eapply update_ok, Hn2|]. change (negb (0 =? 0)) with false. cbv iota.
    eapply copy_siblings_ok; [exact Hw|apply Hg|].
    apply IH; [apply Hw|by eapply halfway_kept|lia].
  - assert (h_nodes h2 !! next_block h = Some (lone_node d)) as Hn2
      by (rewrite Eq; apply lookup_insert_eq).
    eapply wp_step; [by eapply update_ok, Hn2|]. cbn [negb].
    eapply wp_step; [eapply free_ok, lookup_insert_eq|]. apply wp_ret.
    split; [|right; split; [done|]].
    + eapply nodes_only_trans; [exact Hone|]. eapply nodes_only_trans; [exact Hno2|].
      eapply nodes_only_trans; [by eapply (nodes_only_node (next_block h)); [apply Hno2|]|].
      apply nodes_only_with; [|rewrite dom_delete_L; apply subseteq_difference_l; done].
      apply names_below_insert; [apply Hno2|]. apply Hno2. by eexists.
    + cbn. rewrite delete_insert_eq, Eq. cbn. apply delete_insert_id. 
      apply (fresh_not_in h); [done|lia].
Qed.
End copying.
