(* ===== verification/TreeBuild.v ===== *)
(** * Growing an entity association tree (src/dsp/pdr.c)

    Adding nodes the way pldm_entity_association_tree_add does: instances and
    container ids chosen by the library.  The forest changes by one node, and the
    three fields of an entity identify one node of the tree. *)

From stdpp Require Import gmap.
From S2P Require Import Prelude Msgbuf PdrHeap EntityTree PdrRepo PdrProps TreeProps.

(** ** One more node *)

(** Other links for block [p], given its children and the siblings behind it. *)
Fixpoint relink (p : positive) (k : forest -> forest -> forest * forest) (f : forest) : forest :=
  match f with
  | Nil => Nil
  | Br a e ch sib =>
      if decide (a = p) then Br a e (k ch sib).1 (k ch sib).2
      else Br a e (relink p k ch) (relink p k sib)
  end.

(** [d] in block [x] as the sibling behind block [p], or as its first child. *)
Definition after (p x : positive) (d : ninfo) : forest -> forest :=
  relink p (fun ch sib => (ch, Br x d Nil sib)).
Definition under (p x : positive) (d : ninfo) : forest -> forest :=
  relink p (fun ch sib => (Br x d Nil ch, sib)).

Lemma root_relink p k f : root (relink p k f) = root f.
Proof. destruct f; cbn; [done|]. by case_decide. Qed.

Lemma relink_absent p k f : p ∉ blocks f -> relink p k f = f.
Proof.
  induction f as [|a e ch IHc sib IHs]; cbn; [done|].
  rewrite not_elem_of_cons, not_elem_of_app. intros (? & ? & ?). rewrite decide_False by done.
  by rewrite IHc, IHs.
Qed.

(** The node of a block: what it says, its children, the siblings behind it. *)
Fixpoint node_at (p : positive) (f : forest) : option (ninfo * forest * forest) :=
  match f with
  | Nil => None
  | Br a e ch sib =>
      if decide (a = p) then Some (e, ch, sib)
      else match node_at p ch with Some r => Some r | None => node_at p sib end
  end.

Lemma node_at_in p f : p ∈ blocks f <-> is_Some (node_at p f).
Proof.
  induction f as [|a e ch IHc sib IHs]; cbn.
  { rewrite elem_of_nil. split; [done|]. by intros []. }
  rewrite elem_of_cons, elem_of_app, IHc, IHs. case_decide as E.
  - subst. split; [by eexists|by left].
  - destruct (node_at p ch); split; intros Hx; naive_solver.
Qed.

Lemma node_at_heap m p f e ch sib :
  at_forest m f -> node_at p f = Some (e, ch, sib) ->
  m !! p = Some (node_of e ch sib) /\ at_forest m ch /\ at_forest m sib.
Proof.
  induction f as [|a d c IHc s IHs]; cbn; [done|]. intros (E & Hc & Hs).
  case_decide; [by intros [= -> -> ->]; subst|].
  destruct (node_at p c) as [r|] eqn:Ec; [|auto]. intros [= ->]. auto.
Qed.

Lemma node_at_blocks p f e ch sib b :
  node_at p f = Some (e, ch, sib) -> b ∈ blocks ch \/ b ∈ blocks sib -> b ∈ blocks f.
Proof.
  induction f as [|a d c IHc s IHs]; cbn; [done|].
  rewrite elem_of_cons, elem_of_app. case_decide; [intros [= -> -> ->]; tauto|].
  destruct (node_at p c) as [r|] eqn:Ec; [intros [= ->]|]; tauto.
Qed.

(** A node's own block is not among those behind and below it. *)
Lemma node_distinct p f e ch sib :
  NoDup (blocks f) -> node_at p f = Some (e, ch, sib) -> p ∉ blocks ch /\ p ∉ blocks sib /\ NoDup (blocks ch).
Proof.
  induction f as [|a d c IHc s IHs]; cbn; [done|]. intros (Ha1 & Ha2 & Hn1 & Hn2 & Hdis)%nodup_br.
  case_decide; [by intros [= -> -> ->]; subst|]. destruct (node_at p c) as [r|]; [intros [= ->]|]; auto.
Qed.

(** Induction on the path to [p] in a forest without repetitions: a relation between
    a forest and its relinked version follows from that of the node's. *)
Lemma relink_ind (P : forest -> forest -> Prop) p k f e ch sib :
  NoDup (blocks f) -> node_at p f = Some (e, ch, sib) ->
  P (Br p e ch sib) (Br p e (k ch sib).1 (k ch sib).2) ->
  (forall a u c s c', a <> p -> P c c' -> p ∈ blocks c -> p ∉ blocks s -> a ∉ blocks c ->
     (forall b, b ∈ blocks s -> b ∉ blocks c) -> root c' = root c -> P (Br a u c s) (Br a u c' s)) ->
  (forall a u c s s', a <> p -> P s s' -> p ∈ blocks s -> p ∉ blocks c -> a ∉ blocks s ->
     (forall b, b ∈ blocks s -> b ∉ blocks c) -> root s' = root s -> P (Br a u c s) (Br a u c s')) ->
  P f (relink p k f).
Proof.
  intros Hn Hp Hhere Hch Hsib. revert Hn Hp. induction f as [|a u c IHc s IHs]; cbn; [done|].
  intros (Ha1 & Ha2 & Hn1 & Hn2 & Hdis)%nodup_br. case_decide; [by intros [= -> -> ->]; subst|].
  destruct (node_at p c) as [r|] eqn:Ec; intros Hp.
  - injection Hp as ->. assert (p ∈ blocks c) as Hpc by (apply node_at_in; by eexists).
    assert (p ∉ blocks s) by (intros ?; by eapply Hdis).
    rewrite (relink_absent p k s) by done. apply Hch; auto using root_relink.
  - assert (p ∉ blocks c) as Hpc by (rewrite node_at_in, Ec; by intros []).
    rewrite (relink_absent p k c) by done.
    apply Hsib; try done; [auto| |by apply root_relink]. apply node_at_in. by eexists.
Qed.

Lemma at_forest_relink m m' p k f e ch sib :
  at_forest m f -> NoDup (blocks f) -> node_at p f = Some (e, ch, sib) ->
  (forall b, b ∈ blocks f -> b <> p -> m' !! b = m !! b) ->
  (at_forest m (Br p e ch sib) -> at_forest m' (Br p e (k ch sib).1 (k ch sib).2)) ->
  at_forest m' (relink p k f).
Proof.
  intros Hf Hn Hp Hm Hk. revert Hf Hm.
  refine (relink_ind (fun f f' => at_forest m f -> (forall b, b ∈ blocks f -> b <> p -> m' !! b = m !! b) ->
    at_forest m' f') p k f e ch sib Hn Hp _ _ _); [auto| |]; clear;
    cbn; intros a u c s t Ha IH Hin Hout Ha' Hdis Hroot (E & Hc & Hs) Hm; unfold node_of in *;
    (split; [rewrite Hm; [by rewrite ?Hroot|by left|done]|]); split.
  - apply IH; [done|]. intros b Hb. apply Hm. rewrite elem_of_cons, elem_of_app. auto.
  - eapply at_forest_weaken; [|exact Hs]. intros b Hb. apply Hm.
    { rewrite elem_of_cons, elem_of_app. auto. } by intros ->.
  - eapply at_forest_weaken; [|exact Hc]. intros b Hb. apply Hm.
    { rewrite elem_of_cons, elem_of_app. auto. } by intros ->.
  - apply IH; [done|]. intros b Hb. apply Hm. rewrite elem_of_cons, elem_of_app. auto.
Qed.

Lemma nodes_relink p k f e ch sib l :
  NoDup (blocks f) -> node_at p f = Some (e, ch, sib) ->
  nodes (Br p e (k ch sib).1 (k ch sib).2) ≡ₚ l ++ nodes (Br p e ch sib) ->
  nodes (relink p k f) ≡ₚ l ++ nodes f.
Proof.
  intros Hn Hp Hk. apply (relink_ind (fun f f' => nodes f' ≡ₚ l ++ nodes f) p k f e ch sib); try done;
    clear; cbn; intros a u c s t _ IH _ _ _ _ _; rewrite IH; solve_Permutation.
Qed.

Lemma nodes_after p x d f :
  NoDup (blocks f) -> p ∈ blocks f -> nodes (after p x d f) ≡ₚ (x, d) :: nodes f.
Proof.
  intros Hn [[[e ch] sib] Hp]%node_at_in. apply (nodes_relink p _ f e ch sib [(x, d)]); [done..|].
  cbn. rewrite app_nil_r. by constructor.
Qed.

Lemma nodes_under p x d f :
  NoDup (blocks f) -> p ∈ blocks f -> nodes (under p x d f) ≡ₚ (x, d) :: nodes f.
Proof.
  intros Hn [[[e ch] sib] Hp]%node_at_in. apply (nodes_relink p _ f e ch sib [(x, d)]); [done..|].
  cbn. rewrite app_nil_r. solve_Permutation.
Qed.

(** The heap follows: a new block, and the link of an old one. *)
Lemma at_forest_after m p x d f e ch sib :
  at_forest m f -> NoDup (blocks f) -> x ∉ blocks f -> node_at p f = Some (e, ch, sib) ->
  at_forest (<[x := node_of d Nil sib]> (<[p := node_of e ch (Br x d Nil sib)]> m)) (after p x d f).
Proof.
  intros Hf Hn Hx Hp. assert (x <> p) as Hxp.
  { intros ->. apply Hx, node_at_in. by eexists. }
  assert (x ∉ blocks ch /\ x ∉ blocks sib) as [Hxc Hxs] by (split; intros ?; eapply Hx, node_at_blocks; eauto).
  apply (at_forest_relink m _ p _ f e ch sib); [done..| |].
  - intros b Hb Hbp. rewrite !lookup_insert_ne; [done|done|]. by intros ->.
  - destruct (node_distinct _ _ _ _ _ Hn Hp) as (Hpc & Hps & _).
    cbn. intros (_ & Hc & Hs). rewrite lookup_insert_ne, !lookup_insert_eq by done.
    split_and!; try done; by repeat apply at_forest_insert.
Qed.

Lemma at_forest_under m p x d f e sib :
  at_forest m f -> NoDup (blocks f) -> x ∉ blocks f -> node_at p f = Some (e, Nil, sib) ->
  at_forest (<[x := node_of d Nil Nil]> (<[p := node_of e (Br x d Nil Nil) sib]> m)) (under p x d f).
Proof.
  intros Hf Hn Hx Hp. assert (x <> p) as Hxp.
  { intros ->. apply Hx, node_at_in. by eexists. }
  assert (x ∉ blocks sib) as Hxs by (intros ?; eapply Hx, node_at_blocks; eauto).
  apply (at_forest_relink m _ p _ f e Nil sib); [done..| |].
  - intros b Hb Hbp. rewrite !lookup_insert_ne; [done|done|]. by intros ->.
  - destruct (node_distinct _ _ _ _ _ Hn Hp) as (Hpc & Hps & _).
    cbn. intros (_ & Hc & Hs). rewrite lookup_insert_ne, !lookup_insert_eq by done.
    split_and!; try done; by repeat apply at_forest_insert.
Qed.

(** ** Where a sibling goes *)

Definition ni_kind (d : ninfo) : Z := entity_type (ni_entity d).
Definition ni_instance (d : ninfo) : Z := entity_instance_num (ni_entity d).
Definition ni_container (d : ninfo) : Z := entity_container_id (ni_entity d).

Fixpoint spine (f : forest) : list ninfo :=
  match f with Nil => [] | Br _ d _ sib => d :: spine sib end.

(** Whether the run of [ty] ends with a node [d] before the siblings [sib]. *)
Definition run_ends (ty : Z) (d : ninfo) (sib : forest) : bool :=
  match sib with
  | Nil => true
  | Br _ d' _ _ => (ni_kind d =? ty) && negb (ni_kind d =? ni_kind d')
  end.

Fixpoint insertion (ty : Z) (f : forest) : option (positive * ninfo) :=
  match f with
  | Nil => None
  | Br a d _ sib => if run_ends ty d sib then Some (a, d) else insertion ty sib
  end.

Fixpoint appended (ty : Z) (x : positive) (d : ninfo) (f : forest) : forest :=
  match f with
  | Nil => Nil
  | Br a e ch sib =>
      if run_ends ty e sib then Br a e ch (Br x d Nil sib) else Br a e ch (appended ty x d sib)
  end.

Lemma find_insertion_ok h fuel f ty :
  at_forest (h_nodes h) f -> (depth f <= fuel)%nat -> f <> Nil ->
  find_insertion_at fuel (root f) ty h = Ok (fst <$> insertion ty f, h).
Proof.
  revert f. induction fuel as [|fuel IH]; intros [|a d ch sib] Hf Hd Hne; cbn in Hd; try lia; try done.
  destruct Hf as (E & Hc & Hs). cbn [find_insertion_at root insertion].
  eapply run_step; [eapply load_ok, E|]. cbn [node_of next_sibling node_entity].
  destruct sib as [|b e ch' sib]; [done|]. cbn [root run_ends].
  pose proof Hs as (E' & _ & _).
  eapply run_step; [eapply load_ok, E'|]. cbn [node_of node_entity].
  unfold ni_kind. destruct (_ && _); [done|]. apply (IH (Br b e ch' sib)); [done|cbn in *; lia|done].
Qed.

Lemma insertion_some ty f : f <> Nil -> is_Some (insertion ty f).
Proof.
  induction f as [|a d ch _ sib IH]; [done|]. intros _. cbn.
  destruct (run_ends ty d sib) eqn:E; [by eexists|]. apply IH. by destruct sib.
Qed.

Lemma insertion_node ty f p d :
  NoDup (blocks f) -> insertion ty f = Some (p, d) -> exists ch sib, node_at p f = Some (d, ch, sib).
Proof.
  induction f as [|a e ch _ sib IH]; cbn; [done|]. intros (Ha1 & Ha2 & Hn1 & Hn2 & Hdis)%nodup_br.
  destruct (run_ends ty e sib) eqn:E.
  - intros [= <- <-]. rewrite decide_True by done. eauto.
  - intros Hp. destruct (IH Hn1 Hp) as (c & s & Es).
    assert (p ∈ blocks sib) as Hps by (apply node_at_in; by eexists).
    rewrite decide_False by by intros ->.
    destruct (node_at p ch) as [r|] eqn:Ec; [|eauto].
    exfalso. eapply Hdis; [exact Hps|]. apply node_at_in. by eexists.
Qed.

Lemma after_insertion ty x d f p e :
  NoDup (blocks f) -> insertion ty f = Some (p, e) -> after p x d f = appended ty x d f.
Proof.
  unfold after. induction f as [|a u ch _ sib IH]; cbn; [done|].
  intros (Ha1 & Ha2 & Hn1 & Hn2 & Hdis)%nodup_br. destruct (run_ends ty u sib) eqn:E.
  - intros [= <- <-]. by rewrite decide_True by done.
  - intros Hp. destruct (insertion_node _ _ _ _ Hn1 Hp) as (c & s & Es).
    assert (p ∈ blocks sib) as Hps by (apply node_at_in; by eexists).
    rewrite decide_False by by intros ->.
    rewrite (relink_absent p _ ch) by by apply Hdis. by rewrite <- IH.
Qed.

(** ** The invariant *)

(** One run per type, its instances ascending. *)
Fixpoint grouped (l : list ninfo) : Prop :=
  match l with
  | [] => True
  | x :: l =>
      Forall (fun y => ni_kind y = ni_kind x -> ni_instance x < ni_instance y) l /\
      match l with
      | y :: _ => ni_kind y <> ni_kind x -> Forall (fun z => ni_kind z <> ni_kind x) l
      | [] => True
      end /\ grouped l
  end.

(** The siblings below entity [e]: all in container [cid], with [e] as their parent. *)
Record group (e : pldm_entity) (cid : Z) (l : list ninfo) : Prop := {
  gr_parent : Forall (fun d => ni_parent d = e) l;
  gr_container : Forall (fun d => ni_container d = cid) l;
  gr_runs : grouped l
}.

Fixpoint kids_ok (f : forest) : Prop :=
  match f with
  | Nil => True
  | Br _ d ch sib => (exists cid, group (ni_entity d) cid (spine ch)) /\ kids_ok ch /\ kids_ok sib
  end.

(** The container ids in use below the top level. *)
Definition cid_of (f : forest) : list Z := match f with Nil => [] | Br _ d _ _ => [ni_container d] end.

Fixpoint cids (f : forest) : list Z :=
  match f with Nil => [] | Br _ d ch sib => cid_of ch ++ cids ch ++ cids sib end.

Record well_grown (f : forest) (last : Z) : Prop := {
  wg_top : group zero_entity 0 (spine f);
  wg_kids : kids_ok f;
  wg_cids : NoDup (0 :: cids f);
  wg_last : Forall (fun c => c <= last) (0 :: cids f)
}.

(** The last of a run of [ty] is the greatest. *)
Lemma insertion_greatest ty f p e z :
  grouped (spine f) -> insertion ty f = Some (p, e) -> z ∈ spine f -> ni_kind z = ty ->
  ni_kind e = ty /\ ni_instance z <= ni_instance e.
Proof.
  revert z. induction f as [|a u ch _ sib IH]; intros z; [done|]. cbn [spine insertion grouped].
  intros (Hlt & Hrun & Hg) Hp. rewrite elem_of_cons. destruct (run_ends ty u sib) eqn:E.
  - injection Hp as <- <-. intros [->|Hz] Ht; [by split|]. exfalso.
    destruct sib as [|b v c s]; cbn in Hz; [by apply elem_of_nil in Hz|]. cbn in E, Hrun.
    assert (ni_kind v <> ni_kind u) as Hne by lia. specialize (Hrun Hne).
    rewrite Forall_elem in Hrun. apply (Hrun z Hz). lia.
  - intros [->|Hz] Ht; [|by apply IH]. destruct sib as [|b v c s]; [done|].
    cbn in E. assert (ni_kind v = ty) as Hv by lia.
    destruct (IH v Hg Hp) as [? ?]; [by left|done|]. split; [done|].
    cbn in Hlt. apply list.Forall_cons in Hlt as [Hlt _]. specialize (Hlt ltac:(congruence)). lia.
Qed.

(** The entity that goes behind [e]. *)
Definition follows (e d : ninfo) : Prop := ni_kind e = ni_kind d -> ni_instance e < ni_instance d.

Lemma spine_appended_in ty x d f z : z ∈ spine (appended ty x d f) -> z = d \/ z ∈ spine f.
Proof.
  induction f as [|a u ch _ sib IH]; cbn; [by right|].
  destruct (run_ends ty u sib); cbn; rewrite !elem_of_cons; tauto.
Qed.

Lemma grouped_appended x d f p e :
  grouped (spine f) -> insertion (ni_kind d) f = Some (p, e) -> follows e d ->
  grouped (spine (appended (ni_kind d) x d f)).
Proof.
  induction f as [|a u ch _ sib IH]; [done|]. intros Hg Hp Hf. cbn [insertion appended] in *.
  pose proof (insertion_greatest (ni_kind d) (Br a u ch sib) p e) as Hgt. cbn [insertion] in Hgt.
  destruct (run_ends (ni_kind d) u sib) eqn:E; cbn [spine].
  - injection Hp as <- <-. destruct sib as [|b v c s]; cbn in *.
    { split; [|split; [intros ?; by repeat constructor|by split]]. constructor; [|done]. intros ?. by apply Hf. }
    destruct Hg as (Hlt & Hrun & Hg). assert (ni_kind v <> ni_kind u) as Hne by lia.
    assert (ni_kind u = ni_kind d) as Hud by lia. specialize (Hrun Hne). rewrite Hud in Hrun.
    split; [constructor; [intros _; by apply Hf|exact Hlt]|]. split; [by intros []|].
    split; [|split; [|exact Hg]].
    + eapply list.Forall_impl; [exact Hrun|]. cbn. intros z ? ?. done.
    + intros _. exact Hrun.
  - destruct sib as [|b v c s]; [done|]. destruct Hg as (Hlt & Hrun & Hg).
    assert (ni_kind u = ni_kind d -> ni_kind v = ni_kind d) as Huv by (cbn in E; lia).
    assert (grouped (spine (appended (ni_kind d) x d (Br b v c s)))) as Hg' by (by apply IH).
    assert (ni_kind d = ni_kind u -> ni_instance u < ni_instance d) as Hud.
    { intros Hd. destruct (Hgt u) as [He Hi]; [done|done|by left|done|]. specialize (Hf He). lia. }
    set (l := appended (ni_kind d) x d (Br b v c s)) in *.
    assert (exists rest, spine l = v :: rest) as [rest Erest].
    { unfold l. cbn [appended]. destruct (run_ends (ni_kind d) v s); cbn [spine]; eauto. }
    cbn [grouped]. split; [|split; [|exact Hg']].
    + apply Forall_elem. intros z [->|Hz]%spine_appended_in; [exact Hud|].
      by eapply Forall_elem in Hlt.
    + rewrite Erest, <- Erest. intros Hvu. specialize (Hrun Hvu). apply Forall_elem.
      intros z [->|Hz]%spine_appended_in; [intros Hd|by eapply Forall_elem in Hrun].
      apply Hvu. rewrite Huv by done. done.
Qed.

(** ** The invariant is kept *)

Lemma insertion_spine ty f p e : insertion ty f = Some (p, e) -> e ∈ spine f.
Proof.
  induction f as [|a u ch _ sib IH]; cbn; [done|].
  destruct (run_ends ty u sib); [intros [= _ <-]; by left|]. intros. right. auto.
Qed.

Lemma group_appended pe cid x d f p u :
  group pe cid (spine f) -> insertion (ni_kind d) f = Some (p, u) -> follows u d ->
  ni_parent d = ni_parent u -> ni_container d = ni_container u ->
  group pe cid (spine (appended (ni_kind d) x d f)).
Proof.
  intros [Hp Hc Hr] Hi Hf Ep Ec. pose proof (insertion_spine _ _ _ _ Hi) as Hu.
  rewrite Forall_elem in Hp, Hc.
  split; [| |by eapply grouped_appended]; apply Forall_elem; intros z [->|Hz]%spine_appended_in; auto.
  - rewrite Ep. by apply Hp.
  - rewrite Ec. by apply Hc.
Qed.

Lemma group_nil pe cid : group pe cid [].
Proof. split; by constructor. Qed.

Lemma group_one pe cid d : ni_parent d = pe -> ni_container d = cid -> group pe cid [d].
Proof. intros. split; repeat constructor; done. Qed.

Lemma kids_appended ty x d f : kids_ok f -> kids_ok (appended ty x d f).
Proof.
  induction f as [|a u ch _ sib IH]; cbn; [done|]. intros (Hg & Hc & Hs).
  destruct (run_ends ty u sib); cbn; split_and!; auto.
  exists 0. apply group_nil.
Qed.

Lemma cids_appended ty x d f : cids (appended ty x d f) = cids f /\ cid_of (appended ty x d f) = cid_of f.
Proof.
  induction f as [|a u ch _ sib [IH _]]; cbn; [done|].
  destruct (run_ends ty u sib); cbn; [done|]. by rewrite IH.
Qed.

(** Other children for one node. *)
Definition with_children (q : positive) (g : forest) : forest -> forest := relink q (fun _ sib => (g, sib)).

Lemma after_below q p x d f e ch sib :
  NoDup (blocks f) -> node_at q f = Some (e, ch, sib) -> p ∈ blocks ch ->
  after p x d f = with_children q (after p x d ch) f.
Proof.
  unfold after, with_children. induction f as [|a u c IHc s IHs]; cbn; [done|].
  intros (Ha1 & Ha2 & Hn1 & Hn2 & Hdis)%nodup_br. case_decide as Eq.
  - intros [= -> -> ->] Hp. rewrite decide_False by by intros ->.
    rewrite (relink_absent p _ sib); [done|]. intros ?. by eapply Hdis.
  - destruct (node_at q c) as [r|] eqn:Ec; intros Hq Hp.
    + injection Hq as ->. assert (p ∈ blocks c) as Hpc by (eapply node_at_blocks; eauto).
      rewrite decide_False by by intros ->. assert (q ∈ blocks c) as Hqc by (apply node_at_in; by eexists).
      rewrite IHc, !(relink_absent _ _ s) by (done || by intros ?; eapply Hdis). done.
    + assert (p ∈ blocks s) as Hps by (eapply node_at_blocks; eauto).
      rewrite decide_False by by intros ->. assert (q ∉ blocks c) as Hqc by (rewrite node_at_in, Ec; by intros []).
      rewrite IHs, !(relink_absent _ _ c) by (done || by apply Hdis). done.
Qed.

Lemma node_at_below q p f e ch sib r :
  NoDup (blocks f) -> node_at q f = Some (e, ch, sib) -> node_at p ch = Some r -> node_at p f = Some r.
Proof.
  induction f as [|a u c IHc s IHs]; cbn; [done|]. intros (Ha1 & Ha2 & Hn1 & Hn2 & Hdis)%nodup_br Hq Hp.
  assert (p ∈ blocks ch) as Hpc by (apply node_at_in; by eexists).
  case_decide as Eq.
  - injection Hq as -> -> ->. rewrite decide_False by by intros ->. by rewrite Hp.
  - destruct (node_at q c) as [r'|] eqn:Ec.
    + injection Hq as ->. assert (p ∈ blocks c) by (eapply node_at_blocks; eauto).
      rewrite decide_False by by intros ->. by rewrite (IHc Hn2 eq_refl Hp).
    + assert (p ∈ blocks s) as Hps by (eapply node_at_blocks; eauto).
      rewrite decide_False by by intros ->. destruct (node_at p c) as [r'|] eqn:Epc; [|by apply IHs].
      exfalso. eapply Hdis; [exact Hps|]. apply node_at_in. by eexists.
Qed.

Lemma under_with q x d f e sib :
  NoDup (blocks f) -> node_at q f = Some (e, Nil, sib) -> under q x d f = with_children q (Br x d Nil Nil) f.
Proof.
  unfold under, with_children. induction f as [|a u c IHc s IHs]; cbn; [done|].
  intros (Ha1 & Ha2 & Hn1 & Hn2 & Hdis)%nodup_br. case_decide; [by intros [= -> -> ->]|].
  destruct (node_at q c) as [r|] eqn:Ec; intros Hq.
  - injection Hq as ->. assert (q ∈ blocks c) as Hqc by (apply node_at_in; by eexists).
    rewrite IHc, !(relink_absent _ _ s) by (done || by intros ?; eapply Hdis). done.
  - assert (q ∉ blocks c) as Hqc by (rewrite node_at_in, Ec; by intros []).
    rewrite IHs, !(relink_absent _ _ c) by done. done.
Qed.

Lemma spine_with q g f : spine (with_children q g f) = spine f.
Proof.
  unfold with_children. induction f as [|a u c _ s IH]; cbn; [done|]. case_decide; cbn; [done|]. by rewrite IH.
Qed.

Lemma kids_with q g f e ch sib cid :
  NoDup (blocks f) -> node_at q f = Some (e, ch, sib) -> kids_ok f ->
  group (ni_entity e) cid (spine g) -> kids_ok g -> kids_ok (with_children q g f).
Proof.
  intros Hn Hq Hf Hg Hk. refine (proj2 (_ : spine _ = spine f /\ kids_ok _)). revert Hf.
  refine (relink_ind (fun f f' => kids_ok f -> spine f' = spine f /\ kids_ok f')
    q (fun _ sib => (g, sib)) f e ch sib Hn Hq _ _ _); cbn.
  - intros (_ & _ & ?). eauto.
  - intros a u c s c' _ IH _ _ _ _ _ (Hgc & Hc & Hs). destruct (IH Hc) as [-> ?]. done.
  - intros a u c s s' _ IH _ _ _ _ _ (Hgc & Hc & Hs). destruct (IH Hs) as [-> ?]. done.
Qed.

Lemma kids_at q f e ch sib :
  node_at q f = Some (e, ch, sib) -> kids_ok f -> (exists cid, group (ni_entity e) cid (spine ch)) /\ kids_ok ch.
Proof.
  induction f as [|a u c IHc s IHs]; cbn; [done|]. intros Hq (Hgc & Hc & Hs).
  case_decide; [by injection Hq as -> -> ->|].
  destruct (node_at q c) as [r|]; [injection Hq as ->|]; auto.
Qed.

Lemma cids_with q g f e ch sib l :
  NoDup (blocks f) -> node_at q f = Some (e, ch, sib) ->
  cid_of g ++ cids g ≡ₚ l ++ cid_of ch ++ cids ch -> cids (with_children q g f) ≡ₚ l ++ cids f.
Proof.
  intros Hn Hq Hl. refine (proj2 (_ : cid_of _ = cid_of f /\ cids _ ≡ₚ l ++ cids f)).
  refine (relink_ind (fun f f' => cid_of f' = cid_of f /\ cids f' ≡ₚ l ++ cids f)
    q (fun _ sib => (g, sib)) f e ch sib Hn Hq _ _ _); cbn.
  - split; [done|]. rewrite app_assoc, Hl, <- !app_assoc. done.
  - intros a u c s c' _ [-> IH] _ _ _ _ _. split; [done|]. rewrite IH. solve_Permutation.
  - intros a u c s s' _ [_ IH] _ _ _ _ _. split; [done|]. rewrite IH. solve_Permutation.
Qed.

Lemma well_grown_one d x last :
  ni_parent d = zero_entity -> ni_container d = 0 -> 0 <= last -> well_grown (Br x d Nil Nil) last.
Proof.
  intros. split; cbn.
  - by apply group_one.
  - split_and!; [|done|done]. exists 0. apply group_nil.
  - repeat constructor. apply not_elem_of_nil.
  - by repeat constructor.
Qed.

Lemma well_grown_top x d f p u last :
  well_grown f last -> insertion (ni_kind d) f = Some (p, u) -> follows u d ->
  ni_parent d = ni_parent u -> ni_container d = ni_container u ->
  well_grown (appended (ni_kind d) x d f) last.
Proof.
  intros [Ht Hk Hc Hl] Hi Hf Ep Ec. destruct (cids_appended (ni_kind d) x d f) as [E _].
  split; rewrite ?E; try done; [by eapply group_appended|by apply kids_appended].
Qed.

Lemma well_grown_below q x d f e ch sib p u last :
  NoDup (blocks f) -> well_grown f last -> node_at q f = Some (e, ch, sib) ->
  insertion (ni_kind d) ch = Some (p, u) -> follows u d ->
  ni_parent d = ni_parent u -> ni_container d = ni_container u ->
  well_grown (with_children q (appended (ni_kind d) x d ch) f) last.
Proof.
  intros Hn [Ht Hk Hc Hl] Hq Hi Hf Ep Ec. destruct (cids_appended (ni_kind d) x d ch) as [E1 E2].
  assert (cids (with_children q (appended (ni_kind d) x d ch) f) ≡ₚ cids f) as E.
  { apply (cids_with q _ f e ch sib []); [done..|]. by rewrite E1, E2. }
  destruct (kids_at _ _ _ _ _ Hq Hk) as [[cid Hg] Hkc].
  split; rewrite ?spine_with, ?E; try done.
  eapply kids_with; [done..| |by apply kids_appended]. by eapply group_appended.
Qed.

Lemma well_grown_under q x d f e sib last :
  NoDup (blocks f) -> well_grown f last -> node_at q f = Some (e, Nil, sib) ->
  ni_parent d = ni_entity e -> ni_container d = last + 1 ->
  well_grown (with_children q (Br x d Nil Nil) f) (last + 1).
Proof.
  intros Hn [Ht Hk Hc Hl] Hq Ep Ec.
  assert (cids (with_children q (Br x d Nil Nil) f) ≡ₚ [last + 1] ++ cids f) as E.
  { apply (cids_with q _ f e Nil sib); [done..|]. cbn. by rewrite Ec. }
  assert (last + 1 ∉ 0 :: cids f) as Hfresh.
  { intros Hin. rewrite Forall_elem in Hl. specialize (Hl _ Hin). cbn in Hl. lia. }
  split; rewrite ?spine_with, ?E; try done.
  - eapply kids_with; [done..|by apply (group_one _ (last + 1))|]. cbn. split_and!; [|done|done].
    exists 0. apply group_nil.
  - rewrite not_elem_of_cons in Hfresh. apply list.NoDup_cons in Hc as [H0 Hc]. cbn.
    apply list.NoDup_cons. rewrite not_elem_of_cons. split; [by split; [intros ?; naive_solver|]|].
    apply list.NoDup_cons. by split; [apply Hfresh|].
  - apply list.Forall_cons in Hl as [H0 Hl]. repeat constructor; [lia|lia|].
    eapply list.Forall_impl; [exact Hl|]. cbn. lia.
Qed.

(** ** What the invariant means *)

(** The nodes below the top level. *)
Fixpoint deep (f : forest) : list ninfo :=
  match f with Nil => [] | Br _ _ ch sib => spine ch ++ deep ch ++ deep sib end.

Lemma infos_spine_deep f : infos f ≡ₚ spine f ++ deep f.
Proof.
  induction f as [|a d ch IHc sib IHs]; cbn; [done|]. constructor. rewrite IHc, IHs. solve_Permutation.
Qed.

Lemma grouped_distinct l cid :
  grouped l -> Forall (fun d => ni_container d = cid) l -> NoDup (ni_entity <$> l).
Proof.
  induction l as [|x l IH]; cbn; [intros; constructor|]. intros (Hlt & _ & Hg) [_ Hc]%list.Forall_cons.
  apply list.NoDup_cons. split; [|by apply IH]. intros (y & Ey & Hy)%list_elem_of_fmap.
  rewrite Forall_elem in Hlt. specialize (Hlt y Hy). cbn in Hlt. unfold ni_kind, ni_instance in Hlt.
  rewrite Ey in Hlt. specialize (Hlt eq_refl). lia.
Qed.

Lemma spine_containers e cid f :
  group e cid (spine f) -> Forall (fun d => ni_container d ∈ cid_of f) (spine f).
Proof.
  intros [_ Hc _]. destruct f as [|a d ch sib]; [constructor|]. cbn in *.
  pose proof Hc as [E _]%list.Forall_cons. eapply list.Forall_impl; [exact Hc|]. cbn. intros z ->.
  rewrite E. by left.
Qed.

Lemma deep_distinct f :
  kids_ok f -> NoDup (cids f) ->
  NoDup (ni_entity <$> deep f) /\ Forall (fun d => ni_container d ∈ cids f) (deep f).
Proof.
  induction f as [|a d ch IHc sib IHs]; cbn; [split; constructor|].
  intros ([cid Hg] & Hkc & Hks) (Hn1 & Hd1 & (Hn2 & Hd2 & Hn3)%list.NoDup_app)%list.NoDup_app.
  destruct (IHc Hkc Hn2) as [Hc1 Hc2], (IHs Hks Hn3) as [Hs1 Hs2].
  pose proof (spine_containers _ _ _ Hg) as Hsp.
  split; [|rewrite !Forall_app; split_and!; eapply list.Forall_impl; [eassumption| |eassumption| |eassumption|];
    cbn; intros z ?; rewrite !elem_of_app; tauto].
  rewrite !fmap_app. rewrite Forall_elem in Hsp, Hc2, Hs2.
  apply list.NoDup_app. split_and!; [by eapply grouped_distinct; apply Hg| |].
  - intros ? (y & -> & Hy)%list_elem_of_fmap. rewrite elem_of_app. specialize (Hsp y Hy). cbn in Hsp.
    intros [(z & Ez & Hz)%list_elem_of_fmap|(z & Ez & Hz)%list_elem_of_fmap];
      eapply Hd1; [exact Hsp| |exact Hsp|]; unfold ni_container; rewrite Ez, elem_of_app;
      [left; by apply Hc2|right; by apply Hs2].
  - apply list.NoDup_app. split_and!; [done| |done].
    intros ? (y & -> & Hy)%list_elem_of_fmap (z & Ez & Hz)%list_elem_of_fmap.
    eapply Hd2; [by apply (Hc2 y)|]. cbn. unfold ni_container. rewrite Ez. by apply Hs2.
Qed.

(** Type, instance and container name one node. *)
Lemma well_grown_distinct f last : well_grown f last -> NoDup (ni_entity <$> infos f).
Proof.
  intros [Ht Hk Hc _]. apply list.NoDup_cons in Hc as [H0 Hc].
  rewrite infos_spine_deep, fmap_app. destruct (deep_distinct f Hk Hc) as [Hd Hin].
  apply list.NoDup_app. split_and!; [eapply grouped_distinct; apply Ht| |done].
  intros ? (y & -> & Hy)%list_elem_of_fmap (z & Ez & Hz)%list_elem_of_fmap.
  rewrite Forall_elem in Hin. specialize (Hin z Hz). cbn in Hin. unfold ni_container in Hin.
  rewrite <- Ez in Hin. destruct Ht as [_ Ht _]. rewrite Forall_elem in Ht. specialize (Ht y Hy).
  cbn in Ht. unfold ni_container in Ht. rewrite Ht in Hin. done.
Qed.

(** ** Adding a node *)

(** The tree object of block [t] and the forest hanging off it. *)
Record tree_at (t : positive) (h : heap) (f : forest) (last : Z) : Prop := {
  tr_tree : h_trees h !! t = Some (Tree (root f) last);
  tr_nodes : at_forest (h_nodes h) f;
  tr_blocks : NoDup (blocks f);
  tr_names : names_below h (h_nodes h);
  tr_trees : names_below h (h_trees h)
}.

Definition in_range (d : ninfo) : Prop := 0 <= ni_instance d <= UINT16_MAX.

(** A tree as the library grows it. *)
Record grown (t : positive) (h : heap) (f : forest) (last : Z) : Prop := {
  gw_at : tree_at t h f last;
  gw_ok : well_grown f last;
  gw_range : Forall in_range (infos f);
  gw_last : 0 <= last <= UINT16_MAX
}.

(** The parent a caller may name: none, or a node of the tree. *)
Definition parent_ok (f : forest) (parent : hptr) : Prop :=
  match parent with Some q => q ∈ blocks f | None => True end.

Definition parent_entity (f : forest) (parent : hptr) : pldm_entity :=
  match parent with
  | Some q => match node_at q f with Some (e, _, _) => ni_entity e | None => zero_entity end
  | None => zero_entity
  end.

(** The nodes a new node below [parent] will be a sibling of. *)
Definition siblings_at (f : forest) (parent : hptr) : list ninfo :=
  match parent with
  | Some q => match node_at q f with Some (_, ch, _) => spine ch | None => [] end
  | None => spine f
  end.

(** A number a caller may ask for: 0xffff, which lets the library choose, or one above
    those of the siblings of the type, or, where a parent is named, one that is taken. *)
Definition taken (ty no : Z) (l : list ninfo) : bool :=
  existsb (fun d => (ty =? ni_kind d) && (no =? ni_instance d)) l.

Definition number_ok (f : forest) (parent : hptr) (ty no : Z) : Prop :=
  no = 0xffff \/
  0 <= no < 0xffff /\
  (Forall (fun d => ni_kind d = ty -> ni_instance d < no) (siblings_at f parent) \/
   parent <> None /\ taken ty no (siblings_at f parent) = true).

(** The number of a node whose place has no sibling of its type. *)
Definition first_number (no : Z) : Z := if no =? 0xffff then 1 else no.

(** What an addition does: nothing, or one more node, with the number it was given. *)
Definition add_post (t : positive) (h : heap) (f : forest) (last : Z) (parent : hptr) (e : pldm_entity)
    (no association_type : Z) (r : hptr * option pldm_entity) (h' : heap) : Prop :=
  match r with
  | (None, out) => out = Some e /\ grown t h' f last /\ h_nodes h' = h_nodes h
  | (Some x, out) => exists d f' last',
      grown t h' f' last' /\ last <= last' /\ nodes f' ≡ₚ (x, d) :: nodes f /\
      h_nodes h !! x = None /\ out = Some (ni_entity d) /\ ni_kind d = entity_type e /\
      ni_parent d = parent_entity f parent /\ ni_type d = association_type /\
      (no <> 0xffff -> ni_instance d = no)
  end.

Lemma grown_weaken t h h' f last :
  grown t h f last -> (allocs h <= allocs h')%nat -> h_nodes h' = h_nodes h -> h_trees h' = h_trees h ->
  grown t h' f last.
Proof.
  intros [[] ? ? ?] Ha En Et. split; [|done..]. split; rewrite ?En, ?Et; try done;
    by eapply names_below_weaken.
Qed.

Lemma infos_perm f f' x d : nodes f' ≡ₚ (x, d) :: nodes f -> infos f' ≡ₚ d :: infos f.
Proof. intros E. by rewrite !infos_nodes, E. Qed.

Lemma blocks_perm f f' x d : nodes f' ≡ₚ (x, d) :: nodes f -> blocks f' ≡ₚ x :: blocks f.
Proof. intros E. by rewrite !blocks_nodes, E. Qed.

Lemma grown_more t h f last x d f' last' h' :
  grown t h f last -> (allocs h < allocs h')%nat -> x = next_block h ->
  h_trees h' = <[t := Tree (root f') last']> (h_trees h) ->
  at_forest (h_nodes h') f' -> dom (h_nodes h') ⊆ {[x]} ∪ dom (h_nodes h) ->
  nodes f' ≡ₚ (x, d) :: nodes f -> well_grown f' last' -> in_range d -> 0 <= last' <= UINT16_MAX ->
  grown t h' f' last'.
Proof.
  intros [[] ? Hr ?] Ha -> Et Hf' Hdom Hp Hw Hd Hl. split; try done.
  - split; try done.
    + rewrite Et. apply lookup_insert_eq.
    + rewrite (blocks_perm _ _ _ _ Hp). apply list.NoDup_cons. split; [|done].
      intros Hin%(blocks_in _ _ _ tr_nodes0)%tr_names0. lia.
    + intros b Hb%elem_of_dom%Hdom. apply elem_of_union in Hb as [->%elem_of_singleton|Hb%elem_of_dom%tr_names0];
        unfold next_block in *; lia.
    + rewrite Et. intros b [w Hw']. destruct (decide (b = t)) as [->|].
      * specialize (tr_trees0 t ltac:(by eexists)). unfold next_block in *. lia.
      * rewrite lookup_insert_ne in Hw' by done. specialize (tr_trees0 b ltac:(by eexists)).
        unfold next_block in *. lia.
  - rewrite (infos_perm _ _ _ _ Hp). by constructor.
Qed.

(** The library's own steps once the place for the new node [new] is known. *)
Definition link_behind (e : pldm_entity) (no kind : Z) (new : positive) (prev : hptr) : H (hptr * option pldm_entity) :=
  n ← load prev;
  let same := entity_type (node_entity n) =? entity_type e in
  if same && (entity_instance_num (node_entity n) =? UINT16_MAX)
  then _ ← free pldm_entity_node (Some new); mret (None, Some e) else
  let instance :=
    if same then if no =? 0xffff then u16 (entity_instance_num (node_entity n) + 1) else no
    else first_number no in
  _ ← update prev (set_next_sibling (Some new));
  _ ← store (Some new) (Node (Entity (entity_type e) instance (entity_container_id (node_entity n)))
                     (node_parent n) (entity_container_id e) None (next_sibling n) kind);
  n ← load (Some new);
  let out := node_entity n in
  mret (Some new, Some (Entity (entity_type e) (entity_instance_num out) (entity_container_id out))).

Definition link_in (e : pldm_entity) (no kind : Z) (new : positive) (start : hptr) : H (hptr * option pldm_entity) :=
  fuel ← node_fuel;
  prev ← find_insertion_at fuel start (entity_type e);
  match prev with
  | None => _ ← free pldm_entity_node (Some new); mret (None, Some e)
  | Some _ => link_behind e no kind new prev
  end.

Definition link_under (e : pldm_entity) (no kind : Z) (new q t : positive) (pe : pldm_entity) (tree : hptr) (last : Z)
  : H (hptr * option pldm_entity) :=
  if last =? UINT16_MAX then _ ← free pldm_entity_node (Some new); mret (None, Some e) else
  _ ← update (Some q) (set_first_child (Some new));
  _ ← store (Some t) (Tree tree (u16 (last + 1)));
  _ ← store (Some new) (Node (Entity (entity_type e) (first_number no) (u16 (last + 1))) pe (u16 (last + 1)) None None kind);
  n ← load (Some new);
  let out := node_entity n in
  mret (Some new, Some (Entity (entity_type e) (entity_instance_num out) (entity_container_id out))).

Section adding.
Context `{Allocator} (t : positive) (h : heap) (f : forest) (last : Z).
Context (Hg : grown t h f last).
Context (e : pldm_entity) (parent : hptr) (no kind : Z).
Context (Hno : 0 <= no <= UINT16_MAX).
Set Default Proof Using "Hg Hno".

Let new := next_block h.
Let d0 := NInfo (Entity (entity_type e) (first_number no) 0) zero_entity 0 kind.
Let h1 := with_node new (lone_node d0) (tick h).

Lemma new_unused : h_nodes h !! new = None.
Proof. apply (fresh_not_in h); [apply Hg|unfold new; lia]. Qed.

Lemma new_not_in : new ∉ blocks f.
Proof. intros [? E]%(blocks_in _ _ _ (tr_nodes _ _ _ _ (gw_at _ _ _ _ Hg))). by rewrite new_unused in E. Qed.

Lemma at_forest_new g : at_forest (h_nodes h) g -> at_forest (h_nodes h1) g.
Proof.
  intros Hf. apply at_forest_insert; [|done]. intros [? E]%(blocks_in _ _ _ Hf). by rewrite new_unused in E.
Qed.

Lemma add_fails_ok :
  wp (_ ← free pldm_entity_node (Some new); mret (None, Some e)) h1 (add_post t h f last parent e no kind).
Proof.
  eapply wp_step; [eapply free_ok, lookup_insert_eq|]. apply wp_ret.
  assert (delete new (h_nodes h1) = h_nodes h) as E by (apply delete_insert_id, new_unused).
  split; [done|]. split; [|exact E].
  eapply grown_weaken; [exact Hg|cbn; lia|exact E|done].
Qed.

(** The end of an addition that linked the node. *)
Lemma add_ends_ok h' f' last' n d :
  allocs h' = S (allocs h) -> h_trees h' = <[t := Tree (root f') last']> (h_trees h) ->
  h_nodes h' !! new = Some n -> node_entity n = ni_entity d ->
  at_forest (h_nodes h') f' -> dom (h_nodes h') ⊆ {[new]} ∪ dom (h_nodes h) ->
  nodes f' ≡ₚ (new, d) :: nodes f -> well_grown f' last' -> in_range d -> last <= last' <= UINT16_MAX ->
  ni_kind d = entity_type e -> ni_parent d = parent_entity f parent -> ni_type d = kind ->
  (no <> 0xffff -> ni_instance d = no) ->
  wp (n ← load (Some new);
      let out := node_entity n in
      mret (Some new, Some (Entity (entity_type e) (entity_instance_num out) (entity_container_id out))))
     h' (add_post t h f last parent e no kind).
Proof.
  intros Ha Et En Ed Hf' Hdom Hp Hw Hr Hl Hk Hpar Hty Hnum. eapply wp_step; [eapply load_ok, En|].
  apply wp_ret. exists d, f', last'. split_and!; try done; [|lia|apply new_unused|].
  - eapply grown_more; [exact Hg|lia|done|exact Et|done|exact Hdom|exact Hp|done|done|].
    pose proof (gw_last _ _ _ _ Hg). lia.
  - rewrite Ed. unfold ni_kind in Hk. rewrite <- Hk. by destruct (ni_entity d).
Qed.

(** The new node behind node [p], the end of its run. *)
Lemma append_ok p u c s :
  node_at p f = Some (u, c, s) -> in_range u -> ni_parent u = parent_entity f parent ->
  (no <> 0xffff -> ni_kind u = entity_type e -> ni_instance u < no) ->
  (forall d, ni_kind d = entity_type e -> follows u d -> ni_parent d = ni_parent u ->
     ni_container d = ni_container u -> well_grown (after p new d f) last) ->
  wp (link_behind e no kind new (Some p))
     h1 (add_post t h f last parent e no kind).
Proof.
  intros Hp Hu Hpar Habove Hwg. unfold link_behind. destruct (gw_at _ _ _ _ Hg) as [Ht Hf Hn Hnames _].
  destruct (node_at_heap _ _ _ _ _ _ Hf Hp) as (Ep & _ & _).
  assert (p <> new) as Hpn.
  { intros ->. apply new_not_in, node_at_in. by eexists. }
  assert (h_nodes h1 !! p = Some (node_of u c s)) as Ep1 by (by cbn; rewrite lookup_insert_ne by done).
  eapply wp_step; [eapply load_ok, Ep1|]. cbn [node_of node_entity node_parent next_sibling].
  cbv zeta. destruct (_ && _) eqn:Efull; [by apply add_fails_ok|].
  set (d := NInfo (Entity (entity_type e) (if entity_type (ni_entity u) =? entity_type e
    then if no =? 0xffff then u16 (entity_instance_num (ni_entity u) + 1) else no
    else first_number no) (entity_container_id (ni_entity u)))
    (ni_parent u) (entity_container_id e) kind).
  unfold in_range, ni_instance in Hu.
  assert (follows u d /\ in_range d /\ (no <> 0xffff -> ni_instance d = no)) as (Hfol & Hr & Hnum).
  { unfold follows, in_range, ni_kind, ni_instance, d in *. unfold first_number. cbn.
    destruct (entity_type (ni_entity u) =? entity_type e) eqn:Es, (Z.eqb_spec no 0xffff); [|split_and!; lia..].
    cbn in Efull. unfold u16. rewrite Z.mod_small by lia. split_and!; lia. }
  eapply wp_step; [eapply update_ok, Ep1|]. eapply wp_step.
  { eapply store_ok. cbn. rewrite lookup_insert_ne by done. apply lookup_insert_eq. }
  eapply (add_ends_ok _ (after p new d f) last _ d); try done.
  - cbn. unfold after. rewrite root_relink. symmetry. by apply insert_id.
  - apply lookup_insert_eq.
  - done.
  - apply (at_forest_after (h_nodes h1) p new d f u c s); [by apply at_forest_new|done| |done].
    apply new_not_in.
  - cbn. rewrite !dom_insert_L. assert (p ∈ dom (h_nodes h)) by (apply elem_of_dom; by eexists).
    clear -H. set_solver.
  - apply nodes_after; [done|]. apply node_at_in. by eexists.
  - by apply Hwg.
  - pose proof (gw_last _ _ _ _ Hg). lia.
Qed.

Lemma link_in_ok g :
  g <> Nil -> at_forest (h_nodes h) g -> NoDup (blocks g) ->
  (forall p u, insertion (entity_type e) g = Some (p, u) ->
     is_Some (node_at p f) /\ (forall r, node_at p f = Some r -> r.1.1 = u) /\ in_range u /\
     ni_parent u = parent_entity f parent /\
     (no <> 0xffff -> ni_kind u = entity_type e -> ni_instance u < no) /\
     forall d, ni_kind d = entity_type e -> follows u d -> ni_parent d = ni_parent u ->
       ni_container d = ni_container u -> well_grown (after p new d f) last) ->
  wp (link_in e no kind new (root g)) h1 (add_post t h f last parent e no kind).
Proof.
  intros Hne Hf Hn Hins. destruct (insertion_some (entity_type e) g Hne) as [[p u] Ei].
  destruct (Hins p u Ei) as ([[[u' c] s] Ep] & Hu & Hr & Hpar & Habove & Hwg).
  specialize (Hu _ Ep). cbn in Hu. subst u'. pose proof (at_forest_new g Hf) as Hf1.
  eapply wp_step; [reflexivity|]. eapply wp_step.
  { apply find_insertion_ok; [exact Hf1| |done]. pose proof (depth_size _ _ Hf1 Hn). lia. }
  rewrite Ei. by eapply append_ok.
Qed.

Lemma link_under_ok q qe sib :
  parent = Some q -> node_at q f = Some (qe, Nil, sib) ->
  wp (link_under e no kind new q t (ni_entity qe) (root f) last) h1 (add_post t h f last parent e no kind).
Proof.
  intros Epar Eq. unfold link_under. destruct (last =? UINT16_MAX) eqn:El; [by apply add_fails_ok|].
  destruct (gw_at _ _ _ _ Hg) as [Ht Hf Hn Hnames _]. pose proof (gw_last _ _ _ _ Hg) as Hl.
  destruct (node_at_heap _ _ _ _ _ _ Hf Eq) as (Enq & _ & _).
  assert (q ∈ blocks f) as Hq by (apply node_at_in; by eexists).
  assert (q <> new) as Hqn by (intros ->; by apply new_not_in).
  unfold u16. rewrite Z.mod_small by lia.
  assert (h_nodes h1 !! q = Some (node_of qe Nil sib)) as Eq1 by (cbn; rewrite lookup_insert_ne by done; done).
  set (d := NInfo (Entity (entity_type e) (first_number no) (last + 1)) (ni_entity qe) (last + 1) kind).
  eapply wp_step; [eapply update_ok, Eq1|]. eapply wp_step; [eapply store_ok; exact Ht|].
  eapply wp_step; [eapply store_ok; cbn; rewrite lookup_insert_ne by done; apply lookup_insert_eq|].
  eapply (add_ends_ok _ (under q new d f) (last + 1) _ d); try done.
  - cbn. unfold under. by rewrite root_relink.
  - apply lookup_insert_eq.
  - done.
  - apply (at_forest_under (h_nodes h1) q new d f qe sib); [by apply at_forest_new|done|apply new_not_in|done].
  - cbn. rewrite !dom_insert_L. assert (q ∈ dom (h_nodes h)) by (apply elem_of_dom; by eexists).
    clear -H. set_solver.
  - by apply nodes_under.
  - rewrite (under_with _ _ _ _ qe sib) by done. by eapply well_grown_under; [done|apply Hg|done..].
  - unfold in_range, d, first_number. cbn. destruct (Z.eqb_spec no 0xffff); lia.
  - lia.
  - rewrite Epar. cbn. by rewrite Eq.
  - intros. unfold d, first_number, ni_instance. cbn. by destruct (Z.eqb_spec no 0xffff).
Qed.
End adding.

Section adding_one.
Context `{Allocator} (t : positive) (h : heap) (f : forest) (last : Z).
Context (Hg : grown t h f last).
Set Default Proof Using "Hg".

Lemma info_in_range p f' : node_at p f = Some f' -> in_range (f'.1.1).
Proof.
  intros Hp. pose proof (gw_range _ _ _ _ Hg) as Hr. rewrite Forall_elem in Hr. apply Hr.
  clear -Hp. revert Hp. induction f as [|a u c IHc s IHs]; cbn; [done|].
  case_decide; [intros [= <-]; by left|]. rewrite elem_of_cons, elem_of_app.
  destruct (node_at p c) as [r|]; [intros [= ->]|]; tauto.
Qed.

(** The number is looked for among the children of a parent that is named. *)
Lemma is_child_ok q u ch sib ty no x :
  node_at q f = Some (u, ch, sib) ->
  pldm_is_current_parent_child (Some q) (Some (Entity ty no x)) h = Ok (taken ty no (spine ch), h).
Proof.
  intros Eq. destruct (gw_at _ _ _ _ Hg) as [_ Hf Hn _ _]. destruct (node_at_heap _ _ _ _ _ _ Hf Eq) as (E & Hch & _).
  destruct (node_distinct _ _ _ _ _ Hn Eq) as (_ & _ & Hnc). pose proof (depth_size _ _ Hch Hnc) as Hd.
  unfold pldm_is_current_parent_child. eapply run_step; [eapply load_ok, E|]. eapply run_step; [reflexivity|].
  cbn [node_of first_child]. set (body := fun (_ : unit) (_ : hptr) (c : pldm_entity_node) => _).
  assert (forall fuel g, at_forest (h_nodes h) g -> (depth g < fuel)%nat ->
    siblings fuel (root g) body tt h = Ok (if taken ty no (spine g) then inr tt else inl tt, h)) as Hloop.
  { clear. intros fuel g. revert fuel. induction g as [|a d c _ s IH]; intros [|fuel] Hg Hf; [lia|done|lia|].
    destruct Hg as (E & _ & Hs). cbn [siblings root]. eapply run_step; [eapply load_ok, E|].
    eapply run_step; [reflexivity|]. cbn [spine taken existsb node_of node_entity entity_type entity_instance_num].
    unfold ni_kind, ni_instance. destruct (_ && _); cbn [orb]; [done|].
    cbn [next_sibling]. apply IH; [done|]. cbn [depth] in Hf. lia. }
  eapply run_step; [apply Hloop; [done|lia]|]. by destruct (taken ty no (spine ch)).
Qed.

Lemma entity_add_ok e parent no kind :
  parent_ok f parent -> number_ok f parent (entity_type e) no ->
  wp (pldm_entity_association_tree_add (Some t) (Some e) no parent kind) h
     (add_post t h f last parent e no kind).
Proof.
  intros Hpar Hnum. pose proof info_in_range as Hir.
  assert (0 <= no <= UINT16_MAX) as Hno by (unfold number_ok in Hnum; lia).
  unfold pldm_entity_association_tree_add, pldm_entity_association_tree_add_entity.
  set (dup := match parent with
    | Some q => if no =? 0xffff then false else taken (entity_type e) no (siblings_at f parent)
    | None => false
    end).
  eapply (wp_step _ _ _ dup).
  { unfold dup. destruct parent as [q|]; [|done]. destruct (no =? 0xffff); [done|].
    destruct (proj1 (node_at_in _ _) Hpar) as [[[qe ch] sib] Eq]. cbn [siblings_at]. rewrite Eq. by eapply is_child_ok. }
  destruct dup eqn:Edup; [apply wp_ret; split; [done|]; split; [|done]; by eapply grown_weaken|].
  assert (forall w, w ∈ siblings_at f parent -> no <> 0xffff -> ni_kind w = entity_type e -> ni_instance w < no) as Habove.
  { intros w Hw Hne Hk. destruct Hnum as [|[_ [Hall|[Hp Ht]]]]; [done| |].
    - rewrite Forall_elem in Hall. by apply Hall.
    - unfold dup in Edup. destruct parent; [|done]. rewrite Ht in Edup. destruct (Z.eqb_spec no 0xffff); done. }
  clear dup Edup Hnum.
  destruct (negb _ && negb _); [apply wp_ret; split; [done|]; split; [|done]; by eapply grown_weaken|].
  unfold malloc. apply wp_bind. unfold wp at 1.
  destruct (malloc_addr (allocs h) node_size) as [ad|].
  2: { apply wp_ret. split; [done|]. split; [|done]. eapply grown_weaken; [exact Hg|cbn; lia|done|done]. }
  destruct (gw_at _ _ _ _ Hg) as [Ht Hf Hn Hnames _].
  eapply wp_step; [eapply load_ok; exact Ht|]. cbn [tree_root last_used_container_id].
  destruct f as [|a u c s] eqn:Ef; cbn [root].
  - destruct parent as [q|]; [by apply elem_of_nil in Hpar|].
    eapply wp_step; [eapply store_ok, Ht|].
    eapply (add_ends_ok _ _ _ _ Hg _ _ _ _ Hno _ (Br (next_block h)
      (NInfo (Entity (entity_type e) (first_number no) 0) zero_entity 0 kind) Nil Nil) last _
      (NInfo (Entity (entity_type e) (first_number no) 0) zero_entity 0 kind)); try done.
    + apply lookup_insert_eq.
    + done.
    + cbn. split_and!; [apply lookup_insert_eq|done|done].
    + cbn. rewrite dom_insert_L. done.
    + apply well_grown_one; [done|done|]. pose proof (gw_last _ _ _ _ Hg). lia.
    + unfold in_range, ni_instance, first_number. cbn. destruct (Z.eqb_spec no 0xffff); lia.
    + pose proof (gw_last _ _ _ _ Hg). lia.
    + intros. unfold ni_instance, first_number. cbn. by destruct (Z.eqb_spec no 0xffff).
  - rewrite <- Ef in *. assert (root f = Some a) as Er by by rewrite Ef.
    change (set_region _ _) with (with_node (next_block h)
      (lone_node (NInfo (Entity (entity_type e) (first_number no) 0) zero_entity 0 kind)) (tick h)).
    destruct parent as [q|].
    + destruct (proj1 (node_at_in _ _) Hpar) as [[[qe ch] sib] Eq].
      destruct (node_at_heap _ _ _ _ _ _ Hf Eq) as (Enq & Hch & _).
      assert (q <> next_block h) as Hqn by (intros ->; by eapply (new_not_in t h f last)).
      eapply (wp_step _ _ _ (Some (node_of qe ch sib))).
      { eapply run_step; [eapply load_ok; cbn; rewrite lookup_insert_ne by done; exact Enq|]. done. }
      destruct ch as [|b v c' s'] eqn:Ech; cbn [node_of root].
      * rewrite <- Er. exact (link_under_ok t h f last Hg e (Some q) no kind Hno q qe sib eq_refl Eq).
      * destruct (node_distinct _ _ _ _ _ Hn Eq) as (Hqc & _ & Hnc). rewrite <- Ech in *.
        apply (link_in_ok t h f last Hg e (Some q) no kind Hno ch); [by rewrite Ech|done|done|].
        intros p w Ei. destruct (insertion_node _ _ _ _ Hnc Ei) as (c2 & s2 & Ep).
        pose proof (node_at_below _ _ _ _ _ _ _ Hn Eq Ep) as Epf.
        rewrite Epf. split_and!; [by eexists|by intros ? [= <-]|by apply (Hir p _ Epf)| | |].
        -- pose proof (insertion_spine _ _ _ _ Ei) as Hw. destruct (gw_ok _ _ _ _ Hg) as [_ Hk _ _].
           destruct (kids_at _ _ _ _ _ Eq Hk) as [[cid [Hp _ _]] _]. rewrite Forall_elem in Hp.
           cbn. rewrite Eq. by apply Hp.
        -- apply Habove. cbn. rewrite Eq. by apply (insertion_spine _ _ _ _ Ei).
        -- intros d Hd Hfol Hdp Hdc. rewrite (after_below q p _ d f qe ch sib); [|done|done|apply node_at_in; by eexists].
           rewrite <- Hd in Ei. rewrite (after_insertion _ _ _ _ _ _ Hnc Ei).
           by eapply well_grown_below; [done|apply Hg|..].
    + rewrite <- Er. apply (link_in_ok t h f last Hg e None no kind Hno f); [by rewrite Ef|done|done|].
      intros p w Ei. destruct (insertion_node _ _ _ _ Hn Ei) as (c2 & s2 & Ep).
      rewrite Ep. split_and!; [by eexists|by intros ? [= <-]|by apply (Hir p _ Ep)| | |].
      * pose proof (insertion_spine _ _ _ _ Ei) as Hw. destruct (gw_ok _ _ _ _ Hg) as [[Hp _ _] _ _ _].
        rewrite Forall_elem in Hp. by apply Hp.
      * apply Habove. by apply (insertion_spine _ _ _ _ Ei).
      * intros d Hd Hfol Hdp Hdc. rewrite <- Hd in Ei. rewrite (after_insertion _ _ _ _ _ _ Hn Ei).
        by eapply well_grown_top; [apply Hg|..].
Qed.
End adding_one.
