(* ===== verification/TreeRuns.v ===== *)
(** * Entity association trees: what the library promises (src/dsp/pdr.c) *)

From stdpp Require Import gmap.
From S2P Require Import Prelude Msgbuf PdrHeap EntityTree PdrRepo PdrProps TreeProps TreeBuild.

(** ** Trees grown by the library *)

(** A heap holds one forest at a root. *)
Lemma at_forest_unique m f g : at_forest m f -> at_forest m g -> root f = root g -> f = g.
Proof.
  revert g. induction f as [|a d ch IHc sib IHs]; intros [|b d' ch' sib']; cbn; try done.
  intros (E & Hc & Hs) (E' & Hc' & Hs') [= <-]. rewrite E in E'. unfold node_of in E'.
  injection E' as ?????. rewrite (IHc ch'), (IHs sib') by done. f_equal.
  destruct d, d'; cbn in *; congruence.
Qed.

Lemma tree_at_unique t h f g last last' : tree_at t h f last -> tree_at t h g last' -> f = g /\ last = last'.
Proof.
  intros [E Hf _ _ _] [E' Hg _ _ _]. rewrite E in E'. injection E' as Er ->.
  split; [by eapply at_forest_unique|done].
Qed.

(** The trees a caller of pldm_entity_association_tree_init and
    pldm_entity_association_tree_add can have who takes parents from the tree and numbers
    as [number_ok] says. *)
Inductive tree_built `{Allocator} : positive -> heap -> Prop :=
  | built_init t h :
      pldm_entity_association_tree_init empty_heap = Ok (Some t, h) -> tree_built t h
  | built_add t h f last parent e no kind r h' :
      tree_built t h -> tree_at t h f last -> parent_ok f parent -> number_ok f parent (entity_type e) no ->
      pldm_entity_association_tree_add (Some t) (Some e) no parent kind h = Ok (r, h') ->
      tree_built t h'.

Lemma init_grown `{Allocator} t h :
  pldm_entity_association_tree_init empty_heap = Ok (Some t, h) -> grown t h Nil 0.
Proof.
  unfold pldm_entity_association_tree_init, malloc. destruct (malloc_addr _ _); [|done].
  intros [= <- <-]. split; [split| | |].
  - apply lookup_insert_eq.
  - done.
  - constructor.
  - cbn. intros a []. by rewrite lookup_empty in H.
  - apply names_below_insert; [|cbn; lia]. cbn. intros a []. by rewrite lookup_empty in H.
  - split; [apply group_nil|done| |]; cbn; repeat constructor. apply not_elem_of_nil. lia.
  - constructor.
  - cbn. lia.
Qed.

Lemma built_grown `{Allocator} t h : tree_built t h -> exists f last, grown t h f last.
Proof.
  induction 1 as [t h Hi|t h f last parent e no kind r h' _ (f' & last' & Hg) Ht Hp Hno Hadd].
  { exists Nil, 0. by apply init_grown. }
  destruct (tree_at_unique _ _ _ _ _ _ Ht (gw_at _ _ _ _ Hg)) as [-> ->].
  pose proof (entity_add_ok t h f' last' Hg e parent no kind Hp Hno) as Hok. unfold wp in Hok. rewrite Hadd in Hok.
  destruct r as [[x|] out]; cbn in Hok.
  - destruct Hok as (d & f2 & last2 & Hg2 & _). eauto.
  - destruct Hok as (_ & Hg2 & _). eauto.
Qed.

(** C16: However many entities are added with pldm_entity_association_tree_add, no two
    nodes of the tree carry the same type, instance number and container id, as long as
    every number the caller asks for is 0xffff, which leaves it to the library, or above
    those of the type's siblings at the place, or one that a named parent has already:
    the siblings of a type are numbered upwards and every node that gets children gets a
    container id of its own.  Such an addition in any such tree ends without fault, either
    with nothing changed or with one more node whose entity no other node has, below the
    parent the caller named and with the number that was asked for.  The condition is
    needed: [numbers_collide]. *)
Theorem tree_entities_unique `{Allocator} t h :
  tree_built t h ->
  exists f last,
    tree_at t h f last /\ NoDup (ni_entity <$> infos f) /\
    forall parent e no kind, parent_ok f parent -> number_ok f parent (entity_type e) no ->
      wp (pldm_entity_association_tree_add (Some t) (Some e) no parent kind) h (fun r h' =>
        match r with
        | (None, out) => out = Some e /\ h_nodes h' = h_nodes h /\ tree_at t h' f last
        | (Some x, out) => exists d f' last',
            tree_at t h' f' last' /\ nodes f' ≡ₚ (x, d) :: nodes f /\ out = Some (ni_entity d) /\
            ni_entity d ∉ ni_entity <$> infos f /\ ni_kind d = entity_type e /\
            ni_parent d = parent_entity f parent /\ ni_type d = kind /\
            (no <> 0xffff -> ni_instance d = no)
        end).
Proof.
  intros (f & last & Hg)%built_grown. exists f, last.
  split; [apply Hg|]. split; [by eapply well_grown_distinct, Hg|].
  intros parent e no kind Hp Hno. eapply wp_mono; [by apply entity_add_ok|].
  intros [[x|] out] h'; cbn; [|intros (-> & Hg' & ?); split_and!; [done|done|apply Hg']].
  intros (d & f' & last' & Hg' & _ & Hn & _ & -> & ? & ? & ? & ?). exists d, f', last'.
  split_and!; try done; [apply Hg'|].
  pose proof (well_grown_distinct _ _ (gw_ok _ _ _ _ Hg')) as Hd.
  rewrite (infos_perm _ _ _ _ Hn), fmap_cons in Hd. by apply list.NoDup_cons in Hd as [? _].
Qed.

(** A tree of three nodes: a chassis, and two fans in it. *)
Definition sample_alloc : Allocator := bounded_allocator 10.

Definition heap_after {A} (m : H A) (h : heap) : heap :=
  match m h with Ok (_, h') => h' | Fault _ => h end.

Definition sample_add `{Allocator} (ty : Z) (parent : hptr) : H (hptr * option pldm_entity) :=
  pldm_entity_association_tree_add (Some 1%positive) (Some (Entity ty 0 0)) 0xffff parent 0.

Definition sample_heap0 : heap := heap_after (pldm_entity_association_tree_init (H0 := sample_alloc)) empty_heap.
Definition sample_heap1 : heap := heap_after (sample_add (H0 := sample_alloc) 45 None) sample_heap0.
Definition sample_heap2 : heap := heap_after (sample_add (H0 := sample_alloc) 29 (Some 2%positive)) sample_heap1.
Definition sample_heap : heap := heap_after (sample_add (H0 := sample_alloc) 29 (Some 2%positive)) sample_heap2.

Definition sample_forest : forest :=
  Br 2 (NInfo (Entity 45 1 0) zero_entity 0 0)
    (Br 3 (NInfo (Entity 29 1 1) (Entity 45 1 0) 1 0) Nil
      (Br 4 (NInfo (Entity 29 2 1) (Entity 45 1 0) 0 0) Nil Nil)) Nil.

Lemma parent_ok_root f : parent_ok f (root f).
Proof. destruct f; [done|]. by left. Qed.

Lemma names_below_dec {V} h (m : gmap positive V) :
  bool_decide (Forall (fun x => (x.1 < next_block h)%positive) (map_to_list m)) = true -> names_below h m.
Proof.
  intros Hf%bool_decide_eq_true a [v Ha]. rewrite Forall_elem in Hf.
  apply (Hf (a, v)). by apply elem_of_map_to_list.
Qed.

(** One more node below the root of a tree the library built. *)
Lemma built_below_root `{Allocator} t h e kind r h' parent last :
  tree_built t h -> h_trees h !! t = Some (Tree parent last) ->
  pldm_entity_association_tree_add (Some t) (Some e) 0xffff parent kind h = Ok (r, h') -> tree_built t h'.
Proof.
  intros Hb Et Ha. destruct (built_grown _ _ Hb) as (f & l & Hg). pose proof (tr_tree _ _ _ _ (gw_at _ _ _ _ Hg)) as E.
  rewrite Et in E. injection E as -> ->. eapply built_add; [exact Hb|apply Hg|apply parent_ok_root|by left|exact Ha].
Qed.

Lemma sample_built : tree_built (H0 := sample_alloc) 1 sample_heap.
Proof.
  assert (tree_built (H0 := sample_alloc) 1 sample_heap0) as B0 by (apply built_init; vm_compute; reflexivity).
  assert (tree_built (H0 := sample_alloc) 1 sample_heap1) as B1.
  { apply (built_below_root (H0 := sample_alloc) 1 sample_heap0 (Entity 45 0 0) 0
      (Some 2%positive, Some (Entity 45 1 0)) sample_heap1 None 0 B0); vm_compute; reflexivity. }
  assert (tree_built (H0 := sample_alloc) 1 sample_heap2) as B2.
  { apply (built_below_root (H0 := sample_alloc) 1 sample_heap1 (Entity 29 0 0) 0
      (Some 3%positive, Some (Entity 29 1 1)) sample_heap2 (Some 2%positive) 0 B1); vm_compute; reflexivity. }
  apply (built_below_root (H0 := sample_alloc) 1 sample_heap2 (Entity 29 0 0) 0
    (Some 4%positive, Some (Entity 29 2 1)) sample_heap (Some 2%positive) 1 B2); vm_compute; reflexivity.
Qed.

Lemma sample_tree : tree_at 1 sample_heap sample_forest 1.
Proof.
  split.
  - by vm_compute.
  - by vm_compute.
  - apply (bool_decide_unpack _). by vm_compute.
  - apply names_below_dec. by vm_compute.
  - apply names_below_dec. by vm_compute.
Qed.

(** Numbers that are asked for, one after the other, of entities of type 45. *)
Fixpoint sample_numbers `{Allocator} (nos : list Z) (parent : hptr) : H (list (option pldm_entity)) :=
  match nos with
  | [] => mret []
  | no :: nos =>
    '(_, out) ← pldm_entity_association_tree_add (Some 1%positive) (Some (Entity 45 0 0)) no parent 0;
    rest ← sample_numbers nos parent;
    mret (out :: rest)
  end.

(** Without a parent a number that is taken is given again, and below one the library
    chooses a taken number when the numbers asked for did not ascend. *)
Lemma numbers_collide :
  (exists h, sample_numbers (H0 := sample_alloc) [1; 1] None sample_heap0
     = Ok ([Some (Entity 45 1 0); Some (Entity 45 1 0)], h)) /\
  exists h, sample_numbers (H0 := sample_alloc) [5; 4; 0xffff] (Some 2%positive) sample_heap1
     = Ok ([Some (Entity 45 5 1); Some (Entity 45 4 1); Some (Entity 45 5 1)], h).
Proof. split; eexists; vm_compute; reflexivity. Qed.

Lemma tree_entities_unique_witness :
  (tree_built (H0 := sample_alloc) 1 sample_heap /\ number_ok sample_forest (Some 2%positive) 29 7) /\
  NoDup (ni_entity <$> infos sample_forest) /\
  wp (pldm_entity_association_tree_add (H0 := sample_alloc) (Some 1%positive) (Some (Entity 29 0 0)) 7 (Some 2%positive) 0)
    sample_heap (fun r h' => forall x out, r = (Some x, out) -> exists d f' last',
      tree_at 1 h' f' last' /\ nodes f' ≡ₚ (x, d) :: nodes sample_forest /\ ni_instance d = 7).
Proof.
  assert (number_ok sample_forest (Some 2%positive) 29 7) as Hno.
  { right. split; [lia|]. left. apply (bool_decide_unpack (Forall (fun d => ni_kind d = 29 -> ni_instance d < 7) _)). by vm_compute. }
  split; [split; [apply sample_built|exact Hno]|].
  destruct (tree_entities_unique (H0 := sample_alloc) 1 sample_heap sample_built) as (f & last & Ht & Hd & Hadd).
  destruct (tree_at_unique _ _ _ _ _ _ Ht sample_tree) as [-> ->]. split; [exact Hd|].
  eapply wp_mono; [apply (Hadd (Some 2%positive) (Entity 29 0 0) 7 0); [by left|exact Hno]|].
  intros r h' Hr x out E. rewrite E in Hr. destruct Hr as (d & f' & last' & H1 & H2 & _ & _ & _ & _ & _ & H3).
  exists d, f', last'. split; [exact H1|]. split; [exact H2|]. apply H3. lia.
Defined.

(** ** Finding, visiting, destroying *)

Lemma pldm_entity_cmp_eq a b : pldm_entity_cmp a b = true <-> a = b.
Proof.
  unfold pldm_entity_cmp. destruct a, b; cbn. rewrite !andb_true_iff, !Z.eqb_eq.
  split; [intros [[-> ->] ->]; done|by intros [= -> -> ->]].
Qed.

Lemma nodup_fmap_inj {A B} (g : A -> B) l x y : NoDup (g <$> l) -> x ∈ l -> y ∈ l -> g x = g y -> x = y.
Proof.
  induction l as [|z l IH]; cbn; [by intros ? []%elem_of_nil|].
  intros [Hz Hl]%list.NoDup_cons [->|Hx]%elem_of_cons [->|Hy]%elem_of_cons E; auto.
  - destruct Hz. rewrite E. by apply list_elem_of_fmap_2.
  - destruct Hz. rewrite <- E. by apply list_elem_of_fmap_2.
Qed.

(** C39: In a tree no two of whose nodes have the same entity (as in every tree of
    [tree_entities_unique]), pldm_find_entity_ref_in_tree finds the node of each entity
    the tree has and none for any other; pldm_entity_association_tree_visit returns
    the entities of all nodes, each once, or nothing when there is no memory for the
    array; pldm_entity_association_tree_destroy frees the nodes of this tree and the
    tree, and no other block. *)
Theorem tree_reads_exact `{Allocator} t h f last :
  tree_at t h f last -> NoDup (ni_entity <$> infos f) ->
  (forall a d, (a, d) ∈ nodes f ->
     pldm_find_entity_ref_in_tree (Some t) (ni_entity d) (Some None) h = Ok (Some (Some a), h)) /\
  (forall e, e ∉ ni_entity <$> infos f ->
     pldm_find_entity_ref_in_tree (Some t) e (Some None) h = Ok (Some None, h)) /\
  wp (pldm_entity_association_tree_visit (Some t)) h (fun r h' =>
    h_nodes h' = h_nodes h /\ h_trees h' = h_trees h /\
    (r = (None, 0) \/ exists l, r = (Some l, Z.of_nat (length l)) /\ l ≡ₚ ni_entity <$> infos f)) /\
  pldm_entity_association_tree_destroy (Some t) h
  = Ok (tt, Heap (allocs h) (h_bufs h) (h_recs h) (h_repos h)
                 (drop_keys (h_nodes h) (blocks f)) (delete t (h_trees h))).
Proof.
  intros [Et Hf Hn Hnn Hnt] Hd. pose proof (depth_size _ _ Hf Hn) as Hfuel.
  assert (forall e, pldm_find_entity_ref_in_tree (Some t) e (Some None) h
    = Ok (Some (fst <$> last_match true (fun e' => pldm_entity_cmp e' e) f None), h)) as Hfind.
  { intros e. unfold pldm_find_entity_ref_in_tree. eapply run_step; [eapply load_ok; exact Et|].
    eapply run_step; [reflexivity|]. eapply run_step; [|reflexivity].
    apply (find_ref_ok h _ f e None); [done|lia]. }
  split_and!.
  - intros a d Hin. rewrite Hfind. set (P := fun e' => pldm_entity_cmp e' (ni_entity d)).
    pose proof (last_match_found true P f None) as Hl. destruct (last_match true P f None) as [[b e]|].
    + destruct Hl as [|[Hp Hb]]; [done|]. apply pldm_entity_cmp_eq in Hp.
      rewrite infos_nodes, <- list_fmap_compose in Hd.
      by injection (nodup_fmap_inj _ _ (b, e) (a, d) Hd Hb Hin Hp) as -> _.
    + destruct Hl as [_ Hl]. rewrite Forall_elem in Hl. specialize (Hl d). unfold P in Hl. cbn in Hl.
      rewrite (proj2 (pldm_entity_cmp_eq _ _)) in Hl by done. exfalso. specialize (Hl ltac:(
        rewrite infos_nodes; apply (list_elem_of_fmap_2 snd _ _ Hin))). done.
  - intros e He. rewrite Hfind. set (P := fun e' => pldm_entity_cmp e' e).
    pose proof (last_match_found true P f None) as Hl. destruct (last_match true P f None) as [[b d]|]; [|done].
    destruct Hl as [|[Hp Hb]]; [done|]. apply pldm_entity_cmp_eq in Hp. destruct He. rewrite <- Hp, infos_nodes.
    apply list_elem_of_fmap_2, (list_elem_of_fmap_2 snd _ _ Hb).
  - unfold pldm_entity_association_tree_visit. eapply wp_step; [eapply load_ok; exact Et|]. cbn [tree_root].
    destruct f as [|a d ch sib] eqn:Ef; [by apply wp_ret; split_and!; [..|left]|]. cbn [root].
    rewrite <- Ef in *. replace (Some a) with (root f) by by rewrite Ef.
    eapply wp_step; [reflexivity|]. eapply wp_step; [apply get_num_nodes_ok; [done|lia]|].
    unfold malloc_given. apply wp_bind. unfold wp at 1. destruct (malloc_addr _ _); [|by apply wp_ret; split_and!; [..|left]].
    rewrite Z.add_0_l, Nat2Z.id. eapply wp_step.
    { apply (visit_ok (tick h) _ f [] (replicate (length (blocks f)) zero_entity)); [done|cbn; lia|].
      by rewrite length_replicate, length_infos. }
    apply wp_ret. split_and!; [done..|right]. rewrite length_infos, drop_replicate, Nat.sub_diag, app_nil_r.
    eexists. split; [|reflexivity]. by rewrite <- length_infos, app_nil_l, length_fmap.
  - unfold pldm_entity_association_tree_destroy. eapply run_step; [eapply load_ok; exact Et|].
    eapply run_step; [reflexivity|]. eapply run_step; [apply destroy_nodes_ok; [done|done|cbn; lia]|].
    erewrite free_ok; [reflexivity|exact Et].
Qed.

Lemma sample_distinct : NoDup (ni_entity <$> infos sample_forest).
Proof. apply (bool_decide_unpack _). by vm_compute. Qed.

Lemma tree_reads_exact_witness :
  pldm_find_entity_ref_in_tree (Some 1%positive) (Entity 29 2 1) (Some None) sample_heap
  = Ok (Some (Some 4%positive), sample_heap) /\
  pldm_find_entity_ref_in_tree (Some 1%positive) (Entity 29 3 1) (Some None) sample_heap
  = Ok (Some None, sample_heap).
Proof.
  destruct (tree_reads_exact (H0 := sample_alloc) 1 sample_heap sample_forest 1 sample_tree sample_distinct)
    as (Hin & Hout & _). split.
  - apply (Hin 4%positive (NInfo (Entity 29 2 1) (Entity 45 1 0) 0 0)). cbn. do 2 right. by left.
  - apply Hout. cbn. rewrite !not_elem_of_cons. split_and!; [done..|apply not_elem_of_nil].
Defined.

(** ** Copying *)

Lemma copied_gone f h q h' g :
  copied f h q h' g -> names_below h (h_nodes h) -> drop_keys (h_nodes h') (blocks g) = h_nodes h.
Proof.
  intros [_ _ _ Hnew _ Hold] Hn. apply map_eq. intros b. rewrite lookup_drop_keys.
  destruct (decide (b ∈ blocks g)) as [Hb|Hb]; [|by apply Hold].
  rewrite Forall_elem in Hnew. symmetry. apply (fresh_not_in h); [done|by apply Hnew].
Qed.

(** A second tree next to the first, in blocks newer than heap [h]. *)
Record beside (t t2 : positive) (h : heap) (f g : forest) (last : Z) (h' : heap) : Prop := {
  bs_trees : h_trees h' = <[t2 := Tree (root g) last]> (h_trees h);
  bs_nodes : names_below h' (h_nodes h');
  bs_allocs : (allocs h <= allocs h')%nat;
  bs_blocks : NoDup (blocks g);
  bs_new : Forall (fun b => (next_block h <= b)%positive) (blocks g);
  bs_at : at_forest (h_nodes h') g;
  bs_old : forall b, b ∉ blocks g -> h_nodes h' !! b = h_nodes h !! b
}.

Section beside.
Context (t t2 : positive) (h : heap) (f g : forest) (last last2 : Z) (h' : heap).
Context (Ht : tree_at t h f last) (Ht2 : h_trees h !! t2 = Some (Tree None last2)) (Hne : t <> t2).
Context (Hb : beside t t2 h f g last h').
Set Default Proof Using "All".

Lemma beside_trees_fresh x : names_below h' (<[t2 := x]> (h_trees h)).
Proof.
  apply (names_below_weaken h); [|apply Hb]. intros b [w Hw]. apply (tr_trees _ _ _ _ Ht).
  destruct (decide (b = t2)) as [->|]; [by eexists|]. rewrite lookup_insert_ne in Hw by done. by eexists.
Qed.

Lemma beside_first : tree_at t h' f last.
Proof.
  split; [|by eapply forest_kept; [apply Ht|apply Ht|apply Hb|apply Hb]|apply Ht|apply Hb|].
  - rewrite (bs_trees _ _ _ _ _ _ _ Hb), lookup_insert_ne by done. apply Ht.
  - rewrite (bs_trees _ _ _ _ _ _ _ Hb). apply beside_trees_fresh.
Qed.

Lemma beside_second : tree_at t2 h' g last.
Proof.
  split; [|apply Hb..|]; rewrite (bs_trees _ _ _ _ _ _ _ Hb); [apply lookup_insert_eq|apply beside_trees_fresh].
Qed.

Lemma beside_apart b : b ∈ blocks f -> b ∉ blocks g.
Proof.
  intros Hin. apply (old_not_new h); [apply Hb|]. apply Ht. by eapply blocks_in; [apply Ht|].
Qed.

Lemma beside_destroyed :
  wp (pldm_entity_association_tree_destroy_root (Some t2)) h' (fun _ h2 =>
    h_nodes h2 = h_nodes h /\ tree_at t h2 f last /\ tree_at t2 h2 Nil 0).
Proof.
  unfold pldm_entity_association_tree_destroy_root. destruct beside_second as [Et Hf Hn Hnn Hnt].
  eapply wp_step; [eapply load_ok; exact Et|]. eapply wp_step; [reflexivity|].
  eapply wp_step; [apply destroy_nodes_ok; [done|done|]; pose proof (depth_size _ _ Hf Hn); cbn; lia|].
  assert (drop_keys (h_nodes h') (blocks g) = h_nodes h) as E.
  { eapply (copied_gone g h (root g) h'); [|apply Ht]. split; try apply Hb; [done|]. clear. induction g; by cbn. }
  rewrite E. unfold wp. erewrite store_ok; [|exact Et]. cbn [with_nodes h_nodes h_trees set_region region tree_region].
  rewrite (bs_trees _ _ _ _ _ _ _ Hb), insert_insert_eq. split; [done|].
  assert (names_below h' (h_nodes h)) as Hold by (eapply names_below_weaken; [apply Ht|apply Hb]).
  split; split; cbn; try done; try apply Ht; try by (apply lookup_insert_eq || constructor).
  - rewrite lookup_insert_ne by done. apply Ht.
  - apply beside_trees_fresh.
  - apply beside_trees_fresh.
Qed.
End beside.

(** pldm_entity_association_tree_copy_root_check either returns 0 and gives the new
    tree a forest with the same nodes in the same places, in blocks the original does
    not use, or returns -ENOMEM and leaves not one node behind; the original tree stays
    as it is both times.  pldm_entity_association_tree_destroy_root on the new tree
    frees the copy and nothing else. *)
Theorem tree_copy_or_nothing `{Allocator} t t2 h f last last2 :
  tree_at t h f last -> h_trees h !! t2 = Some (Tree None last2) -> t <> t2 ->
  wp (pldm_entity_association_tree_copy_root_check (Some t) (Some t2)) h (fun rc h' =>
    tree_at t h' f last /\
    (rc = 0 /\ (exists g, tree_at t2 h' g last /\ same_shape f g /\ forall b, b ∈ blocks f -> b ∉ blocks g) \/
     rc = - ENOMEM /\ tree_at t2 h' Nil last /\ h_nodes h' = h_nodes h) /\
    wp (pldm_entity_association_tree_destroy_root (Some t2)) h' (fun _ h2 =>
      h_nodes h2 = h_nodes h /\ tree_at t h2 f last /\ tree_at t2 h2 Nil 0)).
Proof.
  intros Ht Et2 Hne. pose proof Ht as [Et Hf Hn Hnn Hnt].
  unfold pldm_entity_association_tree_copy_root_check, copy_root.
  eapply wp_step; [eapply load_ok; exact Et|]. eapply wp_step; [eapply load_ok; exact Et2|].
  eapply wp_step; [eapply store_ok; exact Et2|]. cbn [last_used_container_id tree_root].
  set (h1 := set_region _ h). set (Q := fun rc h' => _).
  assert (forall g h', beside t t2 h f g last h' -> same_shape f g -> Q 0 h') as Hdone.
  { intros g h' Hb Hs. split; [by eapply beside_first|]. split; [left; split; [done|]|by eapply beside_destroyed].
    exists g. split_and!; [by eapply beside_second|done|by eapply beside_apart]. }
  assert (forall h', beside t t2 h f Nil last h' -> Q (- ENOMEM) h') as Hnone.
  { intros h' Hb. split; [by eapply beside_first|]. split; [right; split; [done|]|by eapply beside_destroyed].
    split; [by eapply beside_second|]. apply map_eq. intros b. by apply (bs_old _ _ _ _ _ _ _ Hb), not_elem_of_nil. }
  clearbody Q. destruct f as [|a d ch sib] eqn:Ef; cbn [root].
  - apply wp_ret, (Hdone Nil); [|done]. split; try done; constructor.
  - rewrite <- Ef in *. replace (Some a) with (root f) by by rewrite Ef.
    eapply wp_step; [reflexivity|]. apply wp_bind. eapply wp_mono.
    { apply (copy_ok _ f h1); [done|done|]. pose proof (depth_size _ _ Hf Hn). cbn. lia. }
    intros [rc q] h2 [Hno Hp]. cbn [fst snd] in Hp.
    assert (h_trees h2 !! t2 = Some (Tree None last)) as E2 by (rewrite (no_trees _ _ Hno); apply lookup_insert_eq).
    eapply wp_step; [eapply store_ok; exact E2|]. apply wp_ret.
    destruct Hp as [(-> & g & Hc)|[[= -> ->] Eq]].
    + apply (Hdone g); [|apply Hc]. split; try apply Hc; try apply Hno.
      cbn. by rewrite (no_trees _ _ Hno), (cp_root _ _ _ _ _ Hc); cbn; rewrite insert_insert_eq.
    + apply Hnone. split; try apply Hno; try done; try constructor.
      * cbn. rewrite (no_trees _ _ Hno). cbn. by rewrite insert_insert_eq.
      * cbn. intros b _. by rewrite Eq.
Qed.

Definition sample_pair : heap := heap_after (pldm_entity_association_tree_init (H0 := sample_alloc)) sample_heap.

Definition sample_copied : heap :=
  heap_after (pldm_entity_association_tree_copy_root_check (H0 := sample_alloc) (Some 1%positive) (Some 5%positive))
    sample_pair.

Lemma tree_copy_or_nothing_witness :
  tree_at 1 sample_pair sample_forest 1 /\
  exists h' g,
    pldm_entity_association_tree_copy_root_check (H0 := sample_alloc) (Some 1%positive) (Some 5%positive) sample_pair
    = Ok (0, h') /\ tree_at 5 h' g 1 /\ same_shape sample_forest g.
Proof.
  assert (tree_at 1 sample_pair sample_forest 1) as Ht.
  { split.
    - by vm_compute.
    - by vm_compute.
    - apply (bool_decide_unpack _). by vm_compute.
    - apply names_below_dec. by vm_compute.
    - apply names_below_dec. by vm_compute. }
  split; [exact Ht|].
  pose proof (tree_copy_or_nothing (H0 := sample_alloc) 1 5 sample_pair sample_forest 1 0 Ht
    ltac:(by vm_compute) ltac:(done)) as Hc.
  assert (pldm_entity_association_tree_copy_root_check (H0 := sample_alloc)
    (Some 1%positive) (Some 5%positive) sample_pair = Ok (0, sample_copied)) as E by (vm_compute; reflexivity).
  unfold wp at 1 in Hc. rewrite E in Hc. destruct Hc as (_ & [(_ & g & Hg & Hs & _)|(Hz & _)] & _); [|discriminate Hz].
  exists sample_copied, g. split; [exact E|]. split; [exact Hg|exact Hs].
Defined.
