(* ===== verification/PdrAssociation.v ===== *)
(** * Entity association PDRs (src/dsp/pdr.c)

    The records pdr.c writes from an entity association tree, the parser that reads
    one back, and the three functions that edit such a record in place. *)

From stdpp Require Import gmap.
From S2P Require Import Prelude Msgbuf PdrHeap Pdr EntityTree.

(** ** Writing a record from a node *)

(** An entity of a record, little-endian. *)
Definition entity_bytes (e : pldm_entity) : list Z :=
  le_enc 2 (entity_type e) ++ le_enc 2 (entity_instance_num e) ++ le_enc 2 (entity_container_id e).

(** The children of one association type, written one behind the other. *)
Fixpoint write_children (fuel : nat) (node : hptr) (type : Z) (pdr : cmem) (start : Z) : H cmem :=
  match node with
  | None => mret pdr
  | Some _ =>
    match fuel with
    | O => lift (Fault FFuel)
    | S fuel =>
      n ← load node;
      if association_type n =? type then
        pdr ← lift (mem_write pdr start (entity_bytes (node_entity n)));
        write_children fuel (next_sibling n) type pdr (start + SIZEOF_ENTITY)
      else write_children fuel (next_sibling n) type pdr start
    end
  end.

Section alloc.
Context `{Allocator}.

(** The PDR is calloc'ed and freed in the function, so it is a value here.  Returns
    the record handle, or the error. *)
Definition entity_association_pdr_add_children (curr repo : hptr) (size contained_count type : Z)
    (is_remote : bool) (terminus_handle handle : Z) : H Z :=
  given ← malloc_given size;
  if negb given then mret (- ENOMEM) else
  c ← load curr;
  let pdr := CMem 0 (zeros size) in
  first ← load (first_child c);
  pdr ← lift (mem_write pdr 0
    (le_enc 4 handle ++ le_enc 1 1 ++ le_enc 1 PLDM_PDR_ENTITY_ASSOCIATION ++ le_enc 2 0
     ++ le_enc 2 (size - SIZEOF_PDR_HDR)));
  pdr ← lift (mem_write pdr SIZEOF_PDR_HDR
    (le_enc 2 (entity_container_id (node_entity first)) ++ le_enc 1 type
     ++ entity_bytes (node_entity c) ++ le_enc 1 contained_count));
  fuel ← node_fuel;
  pdr ← write_children fuel (first_child c) type pdr 20;
  '(rc, out) ← pldm_pdr_add repo (Some pdr) size is_remote terminus_handle (Some handle);
  mret (if rc <? 0 then rc else default handle out).

Definition association_size (count : Z) : Z := u16 (SIZEOF_PDR_HDR + 10 + count * SIZEOF_ENTITY).

(** One record for the logical children and one for the physical ones. *)
Definition entity_association_pdr_add_entry (curr repo : hptr) (is_remote : bool)
    (terminus_handle handle : Z) : H Z :=
  logical ← pldm_entity_get_num_children curr PLDM_ENTITY_ASSOCIAION_LOGICAL;
  physical ← pldm_entity_get_num_children curr PLDM_ENTITY_ASSOCIAION_PHYSICAL;
  if (logical =? 0) && (physical =? 0) then
    mret (if handle =? 0 then - EINVAL else handle - 1)
  else
    x ← (if negb (logical =? 0) then
           rc ← entity_association_pdr_add_children curr repo (association_size logical) logical
                  PLDM_ENTITY_ASSOCIAION_LOGICAL is_remote terminus_handle handle;
           if rc <? 0 then mret (inl rc)
           else if negb (physical =? 0) then
             if UINT32_MAX <=? rc then mret (inl (- EOVERFLOW)) else mret (inr (rc + 1))
           else mret (inr handle)
         else mret (inr handle));
    match x with
    | inl rc => mret rc
    | inr handle =>
        if negb (physical =? 0) then
          entity_association_pdr_add_children curr repo (association_size physical) physical
            PLDM_ENTITY_ASSOCIAION_PHYSICAL is_remote terminus_handle handle
        else mret handle
    end.

(** [entities]: the caller's array, [None] for NULL. *)
Definition is_present (entity : pldm_entity) (entities : option (list pldm_entity)) : bool :=
  match entities with
  | None | Some [] => true
  | Some l => existsb (fun e => entity_type e =? entity_type entity) l
  end.

Fixpoint entity_association_pdr_add (fuel : nat) (curr repo : hptr) (entities : option (list pldm_entity))
    (is_remote : bool) (terminus_handle handle : Z) : H Z :=
  match curr with
  | None => mret handle
  | Some _ =>
    match fuel with
    | O => lift (Fault FFuel)
    | S fuel =>
      c ← load curr;
      x ← (if is_present (node_entity c) entities then
             rc ← entity_association_pdr_add_entry curr repo is_remote terminus_handle handle;
             mret (if rc <? 0 then inl rc
                   else if UINT32_MAX <=? rc then inl (- EOVERFLOW) else inr (rc + 1))
           else mret (inr handle));
      match x with
      | inl rc => mret rc
      | inr handle =>
          rc ← entity_association_pdr_add fuel (next_sibling c) repo entities is_remote terminus_handle handle;
          if rc <? 0 then mret rc
          else if negb (handle =? rc) && (UINT32_MAX <=? rc) then mret (- EOVERFLOW)
          else
            let handle := if negb (handle =? rc) then rc + 1 else handle in
            entity_association_pdr_add fuel (first_child c) repo entities is_remote terminus_handle handle
      end
    end
  end.

Definition INT_MIN : Z := -2147483648.

Definition pldm_entity_association_pdr_add (tree repo : hptr) (is_remote : bool) (terminus_handle : Z) : H Z :=
  match tree, repo with
  | Some _, Some _ =>
      t ← load tree;
      fuel ← node_fuel;
      rc ← entity_association_pdr_add fuel (tree_root t) repo None is_remote terminus_handle 0;
      _ ← lift (c_assert (INT_MIN <=? rc));
      mret (if rc <? 0 then rc else 0)
  | _, _ => mret 0
  end.

Definition pldm_entity_association_pdr_add_from_node_with_record_handle (node repo : hptr)
    (entities : option (option (list pldm_entity))) (is_remote : bool) (terminus_handle handle : Z) : H Z :=
  match node, repo, entities with
  | Some _, Some _, Some entities =>
      fuel ← node_fuel;
      rc ← entity_association_pdr_add fuel node repo entities is_remote terminus_handle handle;
      _ ← lift (c_assert (INT_MIN <=? rc));
      mret (if rc <? 0 then rc else 0)
  | _, _, _ => mret (- EINVAL)
  end.

Definition pldm_entity_association_pdr_add_from_node (node repo : hptr)
    (entities : option (option (list pldm_entity))) (is_remote : bool) (terminus_handle : Z) : H Z :=
  pldm_entity_association_pdr_add_from_node_with_record_handle node repo entities is_remote terminus_handle 0.
End alloc.

(** ** Reading a record *)

(** A little-endian member of [n] bytes at [off]. *)
Definition member (m : cmem) (off n : Z) : outcome Z :=
  raw ← mem_read m off n; mret (le_dec raw).

Definition read_entity (m : cmem) (off : Z) : outcome pldm_entity :=
  t ← member m off 2; i ← member m (off + 2) 2; c ← member m (off + 4) 2; mret (Entity t i c).

Fixpoint read_entities (n : nat) (m : cmem) (off : Z) : outcome (list pldm_entity) :=
  match n with
  | O => mret []
  | S n => e ← read_entity m off; l ← read_entities n m (off + SIZEOF_ENTITY); mret (e :: l)
  end.

(** What is stored through [num_entities] and [entities]: nothing when the record is
    refused.  [given]: whether there was memory for the array. *)
Definition pldm_entity_association_pdr_extract (pdr : option cmem) (pdr_len : Z) (outputs given : bool)
  : outcome (option (Z * list pldm_entity)) :=
  match pdr with
  | None => mret None
  | Some m =>
    if negb outputs then mret None
    else if pdr_len <? PDR_ENTITY_ASSOCIATION_MIN_SIZE then mret None
    else
      type ← member m 5 1;
      if negb (type =? PLDM_PDR_ENTITY_ASSOCIATION) then mret None else
      length ← member m 8 2;
      if UINTPTR_MAX - addr m <? SIZEOF_PDR_HDR + length then mret None
      else if pdr_len <? SIZEOF_PDR_HDR + length then mret None
      else if length <? SIZEOF_PDR_ENTITY_ASSOCIATION then mret None
      else
        num ← member m 19 1;
        if num =? 0 then mret None
        else if (pdr_len - 20) / SIZEOF_ENTITY <? num then mret None
        else if UINT8_MAX <=? num then mret None
        else if negb given then mret None
        else
          container ← read_entity m 13;
          children ← read_entities (Z.to_nat num) m 20;
          mret (Some (num + 1, container :: children))
  end.

(** ** Editing a record

    The three functions build a new record from an old one with two message
    buffers: [dst] over the new data, [src] over the old. *)

Abbreviation B2 := (stM (msgbuf * msgbuf)) (only parsing).

Definition on_dst {A} (m : B A) : B2 A := fun '(dst, src) =>
  '(a, dst) ← m dst; mret (a, (dst, src)).
Definition on_src {A} (m : B A) : B2 A := fun '(dst, src) =>
  '(a, src) ← m src; mret (a, (dst, src)).

(** pldm_msgbuf_copy(dst, src, type, name), its result not looked at. *)
Definition mb_copy (size : Z) : B2 unit := fun '(dst, src) =>
  '(_, dst, src) ← pldm__msgbuf_copy size dst src; mret (tt, (dst, src)).

(** The labels cleanup_dst_msgbuf and cleanup_src_msgbuf. *)
Definition fail_src (rc : Z) : B2 Z := on_src (pldm_msgbuf_ro_discard rc).
Definition fail_dst (rc : Z) : B2 Z :=
  rc ← on_dst (pldm_msgbuf_rw_discard rc); fail_src rc.

(** Both buffers declared, and both completed or discarded at the end.  The result
    and the new data. *)
Definition edit_scope {A} (new old : cmem) (body : B2 A) : outcome (A * cmem) :=
  '(a, (dst, src)) ← body (pldm__msgbuf_define new, pldm__msgbuf_define old);
  _ ← pldm__msgbuf_cleanup dst;
  _ ← pldm__msgbuf_cleanup src;
  mret (a, obj dst).

(** Everything of the old header but its length, and of the association part up to
    the number of children. *)
Definition copy_header : B2 unit :=
  _ ← mb_copy 4; _ ← mb_copy 1; _ ← mb_copy 1; mb_copy 2.
Definition copy_container : B2 unit :=
  _ ← mb_copy 2; _ ← mb_copy 1; _ ← mb_copy 2; _ ← mb_copy 2; mb_copy 2.
Definition copy_entity : B2 unit :=
  _ ← mb_copy 2; _ ← mb_copy 2; mb_copy 2.

Fixpoint copy_entities (n : nat) : B2 unit :=
  match n with O => mret tt | S n => _ ← copy_entity; copy_entities n end.

(** An entity the caller passes by pointer, as the host lays it out. *)
Definition entity_object (e : pldm_entity) : cmem := CMem 0 (entity_bytes e).

(** pldm_entity_association_pdr_add_contained_entity_to_remote_pdr from the first
    buffer initialisation to the last completion. *)
Definition grow_record (old : cmem) (old_size new_size : Z) (entity : pldm_entity) (new : cmem) : B2 Z :=
  rc ← on_src (pldm_msgbuf_ro_init_errno PDR_ENTITY_ASSOCIATION_MIN_SIZE old old_size);
  if_err rc return_ mret rc;;
  rc ← on_dst (pldm_msgbuf_rw_init_errno PDR_ENTITY_ASSOCIATION_MIN_SIZE new new_size);
  if_err rc return_ fail_src rc;;
  _ ← copy_header;
  '(rc, header_length) ← on_src (pldm_msgbuf_extract KU16 0);
  if_err rc return_ fail_dst rc;;
  if UINT16_MAX <? header_length + SIZEOF_ENTITY then fail_dst (- EOVERFLOW) else
  _ ← on_dst (pldm_msgbuf_insert KU16 (u16 (header_length + SIZEOF_ENTITY)));
  _ ← copy_container;
  '(rc, num_children) ← on_src (pldm_msgbuf_extract KU8 0);
  if_err rc return_ fail_dst rc;;
  if num_children =? UINT8_MAX then fail_dst (- EOVERFLOW) else
  _ ← on_dst (pldm_msgbuf_insert KU8 (u8 (num_children + 1)));
  _ ← copy_entities (Z.to_nat num_children);
  rc ← on_src pldm_msgbuf_ro_complete;
  if_err rc return_ on_dst (pldm_msgbuf_rw_discard rc);;
  rc ← on_src (pldm_msgbuf_ro_init_errno SIZEOF_ENTITY (entity_object entity) SIZEOF_ENTITY);
  if_err rc return_ on_dst (pldm_msgbuf_rw_discard rc);;
  _ ← copy_entity;
  rc ← on_dst pldm_msgbuf_rw_complete;
  if_err rc return_ fail_src rc;;
  on_src pldm_msgbuf_ro_complete.

(** The loop over the children of the record to shrink: all but [entity]. *)
Fixpoint keep_entities (n : nat) (entity : pldm_entity) : B2 Z :=
  match n with
  | O => mret 0
  | S n =>
      '(rc, t) ← on_src (pldm_msgbuf_extract KU16 0);
      if_err rc return_ mret rc;;
      '(rc, i) ← on_src (pldm_msgbuf_extract KU16 0);
      if_err rc return_ mret rc;;
      '(rc, c) ← on_src (pldm_msgbuf_extract KU16 0);
      if_err rc return_ mret rc;;
      if pldm_entity_cmp entity (Entity t i c) then keep_entities n entity
      else
        _ ← on_dst (pldm_msgbuf_insert KU16 t);
        _ ← on_dst (pldm_msgbuf_insert KU16 i);
        _ ← on_dst (pldm_msgbuf_insert KU16 c);
        keep_entities n entity
  end.

(** What is to happen with the record: replace it, unlink it because its last child
    goes, or nothing because of an error. *)
Inductive shrunk := Shrunk | LastChild | NotShrunk (rc : Z).

Definition shrink_record (old : cmem) (old_size new_size : Z) (entity : pldm_entity) (new : cmem) : B2 shrunk :=
  let fail (m : B2 Z) : B2 shrunk := rc ← m; mret (NotShrunk rc) in
  rc ← on_src (pldm_msgbuf_ro_init_errno PDR_ENTITY_ASSOCIATION_MIN_SIZE old old_size);
  if_err rc return_ mret (NotShrunk rc);;
  rc ← on_dst (pldm_msgbuf_rw_init_errno (PDR_ENTITY_ASSOCIATION_MIN_SIZE - SIZEOF_ENTITY) new new_size);
  if_err rc return_ fail (fail_src rc);;
  _ ← copy_header;
  '(rc, header_length) ← on_src (pldm_msgbuf_extract KU16 0);
  if_err rc return_ fail (fail_dst rc);;
  if header_length <? SIZEOF_ENTITY then fail (fail_dst (- EOVERFLOW)) else
  _ ← on_dst (pldm_msgbuf_insert KU16 (header_length - SIZEOF_ENTITY));
  _ ← copy_container;
  '(rc, num_children) ← on_src (pldm_msgbuf_extract KU8 0);
  if_err rc return_ fail (fail_dst rc);;
  if num_children =? 1 then _ ← fail_dst 0; mret LastChild
  else if num_children <? 1 then fail (fail_dst (- EOVERFLOW))
  else
    _ ← on_dst (pldm_msgbuf_insert KU8 (num_children - 1));
    rc ← keep_entities (Z.to_nat num_children) entity;
    if_err rc return_ fail (fail_dst rc);;
    rc ← on_dst pldm_msgbuf_rw_complete;
    if_err rc return_ fail (fail_src rc);;
    rc ← on_src pldm_msgbuf_ro_complete;
    if_err rc return_ mret (NotShrunk rc);;
    mret Shrunk.

(** pldm_entity_association_pdr_create_new from the first buffer initialisation to the
    last completion: the new data holds the one entity [entity] in [parent].  The
    container id goes where the span pointed, at the cursor of that moment. *)
Definition fill_record (handle : Z) (parent entity : pldm_entity) (new : cmem) : outcome (Z * cmem) :=
  let define := pldm__msgbuf_define in
  '(rc, dst) ← pldm_msgbuf_rw_init_errno PDR_ENTITY_ASSOCIATION_MIN_SIZE new PDR_ENTITY_ASSOCIATION_MIN_SIZE
                (define new);
  if_err rc return_ mret (rc, obj dst);;
  '(_, dst) ← pldm_msgbuf_insert KU32 handle dst;
  '(_, dst) ← pldm_msgbuf_insert KU8 1 dst;
  '(_, dst) ← pldm_msgbuf_insert KU8 PLDM_PDR_ENTITY_ASSOCIATION dst;
  '(_, dst) ← pldm_msgbuf_insert KU16 0 dst;
  '(_, dst) ← pldm_msgbuf_insert KU16 (PDR_ENTITY_ASSOCIATION_MIN_SIZE - SIZEOF_PDR_HDR) dst;
  let fail rc dst := '(rc, dst) ← pldm_msgbuf_rw_discard rc dst; mret (rc, obj dst) in
  '(rc, src_p) ← pldm_msgbuf_ro_init_errno SIZEOF_ENTITY (entity_object parent) SIZEOF_ENTITY
                   (define (entity_object parent));
  if_err rc return_ fail rc dst;;
  '(rc, src_c) ← pldm_msgbuf_ro_init_errno SIZEOF_ENTITY (entity_object entity) SIZEOF_ENTITY
                   (define (entity_object entity));
  if_err rc return_ ('(rc, _) ← pldm_msgbuf_ro_discard rc src_p; fail rc dst);;
  let container_id_at := default 0 (cursor dst) in
  '((rc, _), dst) ← pldm_msgbuf_rw_span_required 2 (Some None) dst;
  if_err rc return_ ('(rc, _) ← pldm_msgbuf_ro_discard rc src_c;
                     '(rc, _) ← pldm_msgbuf_ro_discard rc src_p; fail rc dst);;
  '(_, dst) ← pldm_msgbuf_insert KU8 PLDM_ENTITY_ASSOCIAION_PHYSICAL dst;
  '(_, dst, src_p) ← pldm__msgbuf_copy 2 dst src_p;
  '(_, dst, src_p) ← pldm__msgbuf_copy 2 dst src_p;
  '(_, dst, src_p) ← pldm__msgbuf_copy 2 dst src_p;
  '(_, dst) ← pldm_msgbuf_insert KU8 1 dst;
  '(_, dst, src_c) ← pldm__msgbuf_copy 2 dst src_c;
  '(_, dst, src_c) ← pldm__msgbuf_copy 2 dst src_c;
  '((_, container_id), src_c) ← pldm_msgbuf_extract KU16 0 src_c;
  '(_, dst) ← pldm_msgbuf_insert KU16 container_id dst;
  m ← mem_write (obj dst) container_id_at (le_enc 2 container_id);
  let dst := MsgBuf m (cursor dst) (remaining dst) in
  '(rc, _) ← pldm_msgbuf_ro_complete src_c;
  if_err rc return_ ('(rc, _) ← pldm_msgbuf_ro_discard rc src_p; fail rc dst);;
  '(rc, _) ← pldm_msgbuf_ro_complete src_p;
  if_err rc return_ fail rc dst;;
  '(rc, dst) ← pldm_msgbuf_rw_complete dst;
  mret (rc, obj dst).

(** The members of a new record; the terminus handle stays as malloc left it. *)
Definition set_new_record (handle size : Z) (data : hptr) (remote : bool) (r : pldm_pdr_record) : pldm_pdr_record :=
  PdrRecord handle size data (rec_next r) remote (terminus_handle r).

(** The labels cleanup_new_record_data and cleanup_new_record. *)
Definition drop_new (new data : hptr) (rc : Z) : H Z :=
  _ ← free cmem data; _ ← free pldm_pdr_record new; mret rc.

(** Put [new] in the place of [record] and free the old one. *)
Definition swap_record (repo record prev new data : hptr) : H Z :=
  c ← load record;
  rc ← pldm_pdr_replace_record repo record prev new;
  if_err rc return_ drop_new new data rc;;
  _ ← free cmem (rec_data c);
  _ ← free pldm_pdr_record record;
  mret rc.

Section editing.
Context `{Allocator}.

Definition pldm_entity_association_pdr_add_contained_entity_to_remote_pdr (repo : hptr)
    (entity : option pldm_entity) (handle : Z) : H Z :=
  match repo, entity with
  | Some _, Some entity =>
      r ← load repo;
      '(_, record, prev) ← pldm_pdr_find_record_by_handle (repo_first r) (repo_first r) handle;
      match record with
      | None => mret (- EINVAL)
      | Some _ =>
          c ← load record;
          pair ← new_record (rec_size c + SIZEOF_ENTITY);
          match pair with
          | None => mret (- ENOMEM)
          | Some (new, data) =>
              let new_size := u32 (rec_size c + SIZEOF_ENTITY) in
              _ ← update new (set_new_record (record_handle c) new_size data (is_remote c));
              old ← load (rec_data c);
              m ← load data;
              '(rc, m) ← lift (edit_scope m old (grow_record old (rec_size c) new_size entity m));
              _ ← store data m;
              if_err rc return_ drop_new new data rc;;
              swap_record repo record prev new data
          end
      end
  | _, _ => mret (- EINVAL)
  end.

(** [handle_out]: what [entity_record_handle] points to, [None] for NULL. *)
Definition pldm_entity_association_pdr_create_new (repo : hptr) (handle : Z)
    (parent entity : option pldm_entity) (handle_out : option Z) : H (Z * option Z) :=
  match repo, parent, entity, handle_out with
  | Some _, Some parent, Some entity, Some _ =>
      if handle =? UINT32_MAX then mret (- EOVERFLOW, handle_out) else
      r ← load repo;
      '(found, record, _) ← pldm_pdr_find_record_by_handle (repo_first r) (repo_first r) handle;
      if negb found then mret (- ENOENT, handle_out) else
      pair ← new_record PDR_ENTITY_ASSOCIATION_MIN_SIZE;
      match pair with
      | None => mret (- ENOMEM, handle_out)
      | Some (new, data) =>
          let new_handle := u32 (handle + 1) in
          _ ← update new (set_new_record new_handle PDR_ENTITY_ASSOCIATION_MIN_SIZE data false);
          m ← load data;
          '(rc, m) ← lift (fill_record new_handle parent entity m);
          _ ← store data m;
          if_err rc return_ (rc ← drop_new new data rc; mret (rc, Some new_handle));;
          rc ← pldm_pdr_insert_record repo record new;
          if_err rc return_ (rc ← drop_new new data rc; mret (rc, Some new_handle));;
          mret (rc, Some new_handle)
      end
  | _, _, _, _ => mret (- EINVAL, handle_out)
  end.
End editing.

(** *** Removing an entity *)

(** One record of the search: [None] to go on, a code and perhaps the record to stop.
    A record shorter than an entity association stops the search whatever its type. *)
Fixpoint find_in_children (n : nat) (entity : pldm_entity) : B (Z * bool) :=
  match n with
  | O => mret (0, false)
  | S n =>
      '(rc, t) ← pldm_msgbuf_extract KU16 0;
      if_err rc return_ mret (rc, false);;
      '(rc, i) ← pldm_msgbuf_extract KU16 0;
      if_err rc return_ mret (rc, false);;
      '(rc, c) ← pldm_msgbuf_extract KU16 0;
      if_err rc return_ mret (rc, false);;
      if pldm_entity_cmp entity (Entity t i c) then mret (0, true) else find_in_children n entity
  end.

(** The body of the loop over the records: the code, and whether the record holds the
    entity; a code of 0 without it lets the search go on. *)
Definition search_record (m : cmem) (size : Z) (same_remote : bool) (entity : pldm_entity)
  : outcome (Z * bool) :=
  '(r, _) ← msgbuf_scope m (
     rc ← pldm_msgbuf_ro_init_errno PDR_ENTITY_ASSOCIATION_MIN_SIZE m size;
     if_err rc return_ mret (rc, false);;
     _ ← pldm_msgbuf_ro_span_required 5 None;
     '(rc, type) ← pldm_msgbuf_extract KU8 0;
     if_err rc return_ (rc ← pldm_msgbuf_ro_discard rc; mret (rc, false));;
     if negb same_remote || negb (type =? PLDM_PDR_ENTITY_ASSOCIATION) then
       rc ← pldm_msgbuf_ro_complete; mret (rc, false)
     else
       _ ← pldm_msgbuf_ro_span_required 13 None;
       '(rc, num_children) ← pldm_msgbuf_extract KU8 0;
       if_err rc return_ (rc ← pldm_msgbuf_ro_discard rc; mret (rc, false));;
       '(rc, found) ← find_in_children (Z.to_nat num_children) entity;
       if_err rc return_ (rc ← pldm_msgbuf_ro_discard rc; mret (rc, false));;
       rc ← pldm_msgbuf_ro_complete; mret (rc, found));
  mret r.

Definition pldm_entity_association_find_record_handle_by_entity (repo : hptr) (entity : pldm_entity)
    (remote : bool) (handle : Z) : H (Z * Z) :=
  r ← load repo;
  x ← for_records (repo_first r) (fun _ c =>
        m ← load (rec_data c);
        '(rc, found) ← lift (search_record m (rec_size c) (Bool.eqb (is_remote c) remote) entity);
        mret (if found : bool then Some (rc, record_handle c)
              else if negb (rc =? 0) then Some (rc, handle) else None));
  mret (default (0, handle) x).

Section removing.
Context `{Allocator}.

Definition pldm_entity_association_pdr_remove_contained_entity (repo : hptr) (entity : option pldm_entity)
    (remote : bool) (handle : option Z) : H (Z * option Z) :=
  match repo, entity, handle with
  | Some _, Some entity, Some h0 =>
      r ← load repo;
      '(rc, h) ← pldm_entity_association_find_record_handle_by_entity repo entity remote h0;
      let handle := Some h in
      if_err rc return_ mret (rc, handle);;
      '(_, record, prev) ← pldm_pdr_find_record_by_handle (repo_first r) (repo_first r) h;
      match record with
      | None => mret (- EINVAL, handle)
      | Some _ =>
          c ← load record;
          if rec_size c <? SIZEOF_ENTITY then mret (- EOVERFLOW, handle) else
          pair ← new_record (rec_size c - SIZEOF_ENTITY);
          match pair with
          | None => mret (- ENOMEM, handle)
          | Some (new, data) =>
              let new_size := rec_size c - SIZEOF_ENTITY in
              _ ← update new (set_new_record (record_handle c) new_size data (is_remote c));
              old ← load (rec_data c);
              m ← load data;
              '(verdict, m) ← lift (edit_scope m old (shrink_record old (rec_size c) new_size entity m));
              _ ← store data m;
              match verdict with
              | NotShrunk rc => rc ← drop_new new data rc; mret (rc, handle)
              | LastChild =>
                  before ← pldm_pdr_get_prev_record repo record;
                  _ ← pldm_pdr_remove_record repo record before;
                  rc ← drop_new new data 0; mret (rc, handle)
              | Shrunk => rc ← swap_record repo record prev new data; mret (rc, handle)
              end
          end
      end
  | _, _, _ => mret (- EINVAL, handle)
  end.
End removing.
