(* ===== verification/AssociationProps.v ===== *)
(** * What an entity association PDR says (src/dsp/pdr.c)

    The layout of the record as a codec: what is written can be read back, and the
    functions that edit a record give the record with one child more or less. *)

From stdpp Require Import gmap.
From S2P Require Import Prelude Msgbuf PdrHeap Pdr EntityTree PdrAssociation PdrRepo PdrProps TreeProps TreeBuild.

(** ** The layout *)

Record association := Assoc {
  as_handle : Z; as_version : Z; as_change : Z; as_id : Z; as_kind : Z;
  as_container : pldm_entity; as_children : list pldm_entity
}.

Definition entities_bytes (l : list pldm_entity) : list Z := concat (entity_bytes <$> l).

Definition count (l : list pldm_entity) : Z := Z.of_nat (length l).

(** The header up to its length, the length, the rest up to the count. *)
Definition head_bytes (a : association) : list Z :=
  le_enc 4 (as_handle a) ++ le_enc 1 (as_version a) ++ le_enc 1 PLDM_PDR_ENTITY_ASSOCIATION
  ++ le_enc 2 (as_change a).
Definition container_bytes (a : association) : list Z :=
  le_enc 2 (as_id a) ++ le_enc 1 (as_kind a) ++ entity_bytes (as_container a).

Definition association_bytes (a : association) : list Z :=
  head_bytes a ++ le_enc 2 (10 + 6 * count (as_children a)) ++ container_bytes a
  ++ le_enc 1 (count (as_children a)) ++ entities_bytes (as_children a).

Definition entity_ok (e : pldm_entity) : Prop :=
  0 <= entity_type e < 65536 /\ 0 <= entity_instance_num e < 65536 /\ 0 <= entity_container_id e < 65536.

Lemma entity_bytes_length e : length (entity_bytes e) = 6%nat.
Proof. done. Qed.

Lemma entities_bytes_length l : Z.of_nat (length (entities_bytes l)) = 6 * count l.
Proof.
  unfold entities_bytes, count. induction l as [|e l IH]; [done|]. cbn [fmap list_fmap concat length].
  rewrite length_app, entity_bytes_length. lia.
Qed.

Lemma entities_bytes_app l l' : entities_bytes (l ++ l') = entities_bytes l ++ entities_bytes l'.
Proof. unfold entities_bytes. by rewrite fmap_app, concat_app. Qed.

Lemma association_bytes_length a : Z.of_nat (length (association_bytes a)) = 20 + 6 * count (as_children a).
Proof.
  unfold association_bytes, head_bytes, container_bytes.
  rewrite !length_app, !le_enc_length, entity_bytes_length. pose proof (entities_bytes_length (as_children a)). lia.
Qed.

Lemma bytes_ok_app l l' : bytes_ok l -> bytes_ok l' -> bytes_ok (l ++ l').
Proof. intros. by apply Forall_app. Qed.

Lemma association_bytes_ok a : bytes_ok (association_bytes a).
Proof.
  unfold association_bytes, head_bytes, container_bytes, entity_bytes.
  repeat apply bytes_ok_app; try apply le_enc_ok. unfold entities_bytes.
  induction (as_children a) as [|e l IH]; cbn [fmap list_fmap concat]; [constructor|].
  apply bytes_ok_app; [|done]. unfold entity_bytes. repeat apply bytes_ok_app; apply le_enc_ok.
Qed.

(** ** Reading *)

(** The object holds [raw] at [off]. *)
Definition at_off (m : cmem) (off : Z) (raw : list Z) : Prop :=
  exists pre post, bytes m = pre ++ raw ++ post /\ off = Z.of_nat (length pre).

Lemma at_off_app m off l l' : at_off m off (l ++ l') -> at_off m off l /\ at_off m (off + Z.of_nat (length l)) l'.
Proof.
  intros (pre & post & E & ->). rewrite <- app_assoc in E. split; [by exists pre, (l' ++ post)|].
  exists (pre ++ l), post. rewrite <- app_assoc, length_app. split; [done|lia].
Qed.

Lemma member_at m off k v :
  at_off m off (le_enc (Z.to_nat k) v) -> 0 <= v < 256 ^ k -> 0 <= k -> member m off k = Ok v.
Proof.
  intros Ha Hv Hk. set (n := Z.to_nat k) in *. assert (k = Z.of_nat n) as E by lia. rewrite E in *.
  clearbody n. clear E k Hk. revert Ha Hv. intros (pre & post & E & ->) Hv. unfold member.
  rewrite (mem_read_ok m _ _ (le_enc n v)).
  - cbn. rewrite le_dec_enc, Z.mod_small; [done|]. exact Hv.
  - lia.
  - lia.
  - unfold mem_size. rewrite E, !length_app, le_enc_length. lia.
  - rewrite !Nat2Z.id, E. by rewrite slice_app_mid by (done || by rewrite le_enc_length).
Qed.

Lemma read_entity_at m off e : entity_ok e -> at_off m off (entity_bytes e) -> read_entity m off = Ok e.
Proof.
  intros (? & ? & ?) Ha. unfold entity_bytes in Ha.
  apply at_off_app in Ha as [Ht Ha]. apply at_off_app in Ha as [Hi Hc].
  unfold read_entity. rewrite (member_at m off 2 (entity_type e)) by (done || cbn; lia). cbn [mbind outcome_bind].
  rewrite (member_at m (off + 2) 2 (entity_instance_num e)) by (done || cbn; lia). cbn [mbind outcome_bind].
  replace (off + 4) with (off + 2 + 2) by lia.
  rewrite (member_at m _ 2 (entity_container_id e)) by (done || cbn; lia). by destruct e.
Qed.

Lemma read_entities_at m l : forall off,
  Forall entity_ok l -> at_off m off (entities_bytes l) -> read_entities (length l) m off = Ok l.
Proof.
  induction l as [|e l IH]; intros off Hok H; [done|]. apply list.Forall_cons in Hok as [He Hl].
  unfold entities_bytes in H. cbn [fmap list_fmap concat] in H. apply at_off_app in H as [H1 H2].
  cbn [length read_entities]. rewrite (read_entity_at m off e He H1). cbn [mbind outcome_bind].
  rewrite entity_bytes_length in H2. change (Z.of_nat 6) with 6 in H2. by rewrite (IH _ Hl H2).
Qed.

Record association_ok (a : association) : Prop := {
  ao_handle : 0 <= as_handle a <= UINT32_MAX;
  ao_version : 0 <= as_version a <= UINT8_MAX;
  ao_change : 0 <= as_change a <= UINT16_MAX;
  ao_id : 0 <= as_id a <= UINT16_MAX;
  ao_kind : 0 <= as_kind a <= UINT8_MAX;
  ao_container : entity_ok (as_container a);
  ao_children : Forall entity_ok (as_children a);
  ao_count : 1 <= count (as_children a) <= UINT8_MAX
}.

(** An object that starts with the record. *)
Record holds_association (m : cmem) (a : association) : Prop := {
  ha_ok : mem_ok m;
  ha_bytes : exists rest, bytes m = association_bytes a ++ rest
}.

Lemma holds_at m a : holds_association m a ->
  at_off m 0 (head_bytes a) /\ at_off m 8 (le_enc 2 (10 + 6 * count (as_children a))) /\
  at_off m 10 (container_bytes a) /\ at_off m 19 (le_enc 1 (count (as_children a))) /\
  at_off m 20 (entities_bytes (as_children a)).
Proof.
  intros [_ [rest E]]. assert (at_off m 0 (association_bytes a)) as Ha by by exists [], rest.
  unfold association_bytes in Ha.
  apply at_off_app in Ha as [H1 Ha]. apply at_off_app in Ha as [H2 Ha]. apply at_off_app in Ha as [H3 Ha].
  apply at_off_app in Ha as [H4 H5].
  assert (length (head_bytes a) = 8%nat) as E1 by done.
  assert (length (container_bytes a) = 9%nat) as E2 by done.
  rewrite !E1, ?le_enc_length in *. rewrite !E2 in *. done.
Qed.

Lemma extract_association m a outputs :
  association_ok a -> holds_association m a -> count (as_children a) < UINT8_MAX ->
  pldm_entity_association_pdr_extract (Some m) (Z.of_nat (length (association_bytes a))) true outputs
  = Ok (if outputs : bool then Some (count (as_children a) + 1, as_container a :: as_children a) else None).
Proof.
  intros [] Hm Hc. destruct (holds_at _ _ Hm) as (Hh & Hl & Hcb & Hn & He).
  pose proof (association_bytes_length a) as Hlen.
  unfold pldm_entity_association_pdr_extract. cbn [negb]. cmp_case; [lia|].
  unfold head_bytes in Hh. rewrite !app_assoc in Hh. apply at_off_app in Hh as [Hh _].
  apply at_off_app in Hh as [_ Hty]. rewrite length_app, !le_enc_length in Hty.
  rewrite (member_at m 5 1 PLDM_PDR_ENTITY_ASSOCIATION) by (exact Hty || cbn; lia).
  cbn [mbind outcome_bind]. change (negb (_ =? _)) with false. cbv iota.
  rewrite (member_at m 8 2 (10 + 6 * count (as_children a))) by (exact Hl || cbn; lia).
  cbn [mbind outcome_bind]. destruct Hm as [[Ha Hend Hsz Hby] [rest E]].
  assert (Z.of_nat (length (association_bytes a)) <= mem_size m) by (unfold mem_size; rewrite E, length_app; lia).
  do 3 (cmp_case; [lia|]).
  rewrite (member_at m 19 1 (count (as_children a))) by (exact Hn || cbn; lia).
  cbn [mbind outcome_bind]. cmp_case; [lia|]. rewrite Hlen.
  replace ((20 + 6 * count (as_children a) - 20) / 6) with (count (as_children a))
    by (replace (20 + 6 * count (as_children a) - 20) with (count (as_children a) * 6) by lia;
        by rewrite Z.div_mul).
  do 2 (cmp_case; [lia|]). destruct outputs; [|done]. cbn [negb].
  unfold container_bytes in Hcb. rewrite app_assoc in Hcb. apply at_off_app in Hcb as [_ Hcb].
  rewrite (read_entity_at m 13 (as_container a)) by done. cbn [mbind outcome_bind].
  replace (Z.to_nat (count (as_children a))) with (length (as_children a)) by (unfold count; lia).
  by rewrite (read_entities_at m _ 20) by done.
Qed.

(** ** Editing *)

(** Steps of a body over the two buffers: [dst] is to have written [out], [src] to
    have read [pre] of its bytes [pre ++ post]. *)
Section two_buffers.
Context (new old : cmem) (nlen olen : Z).

Record editing (out pre post : list Z) (s : msgbuf * msgbuf) : Prop := {
  ed_dst : mb_wr new nlen out s.1;
  ed_src : mb_rd old olen (Z.of_nat (length pre)) s.2;
  ed_old : exists rest, bytes old = pre ++ post ++ rest;
  ed_fits : Z.of_nat (length pre + length post) <= olen
}.

Lemma on_dst_wp {A} (m : B A) dst src Q :
  wp m dst (fun a dst' => Q a (dst', src)) -> wp (on_dst m) (dst, src) Q.
Proof. unfold wp, on_dst. destruct (m dst) as [[a d]|]; done. Qed.

Lemma on_src_wp {A} (m : B A) dst src Q :
  wp m src (fun a src' => Q a (dst, src')) -> wp (on_src m) (dst, src) Q.
Proof. unfold wp, on_src. destruct (m src) as [[a s]|]; done. Qed.

Lemma copy_wp n raw out pre post s :
  editing out pre (raw ++ post) s -> Z.of_nat (length raw) = n ->
  Z.of_nat (length out) + n <= nlen ->
  wp (mb_copy n) s (fun _ => editing (out ++ raw) (pre ++ raw) post).
Proof.
  destruct s as [dst src]. intros [Hw Hr [rest E] Hf] Hn Hfit. cbn [fst snd] in *.
  pose proof Hr as [Ho Hrem ? ? Hmax (k & Hk & Hkc)]. pose proof (wr_remaining _ _ _ _ Hw).
  rewrite length_app in Hf. unfold wp, mb_copy, pldm__msgbuf_copy. pose proof (wr_max _ _ _ _ Hw).
  cmp_case; [lia|]. rewrite !(proj2 (Z.leb_le _ _)) by lia. cbn [andb].
  unfold msgbuf_advance. rewrite Hk. cbn [mbind outcome_bind obj]. rewrite Hkc, Ho by lia.
  assert (mem_read old (Z.of_nat (length pre)) n = Ok raw) as ->.
  { apply mem_read_ok; [lia|lia| |].
    - unfold mem_size. rewrite E, !length_app. lia.
    - rewrite E, Nat2Z.id, <- app_assoc. apply slice_app_mid; [done|lia]. }
  cbn [mbind outcome_bind]. pose proof (wr_step _ _ out raw dst Hw ltac:(lia)) as Hst.
  unfold wp in Hst. destruct (msgbuf_store raw dst) as [[rc d]|]; [|done]. destruct Hst as [_ Hst].
  cbn. split; cbn [fst snd].
  - done.
  - constructor; cbn; rewrite ?length_app; try lia; [done|]. eexists. split; [done|]. lia.
  - exists rest. by rewrite E, <- !app_assoc.
  - rewrite !length_app. lia.
Qed.

Lemma insert_wp k v out pre post s :
  editing out pre post s -> Z.of_nat (length out + kind_size k) <= nlen ->
  wp (on_dst (pldm_msgbuf_insert k v)) s (fun _ => editing (out ++ le_enc (kind_size k) v) pre post).
Proof.
  destruct s as [dst src]. intros [Hw Hr Ho Hf] Hfit. apply on_dst_wp. rewrite insert_kind.
  eapply wp_insert_wr; [exact Hw|pose proof (wr_max _ _ _ _ Hw); lia|]. intros b' Hb'. by split.
Qed.

Lemma extract_wp k v out pre post s :
  editing out pre (le_enc (kind_size k) v ++ post) s -> kind_ok k v ->
  wp (on_src (pldm_msgbuf_extract k 0)) s (fun r s' =>
    r = (0, v) /\ editing out (pre ++ le_enc (kind_size k) v) post s').
Proof.
  destruct s as [dst src]. intros [Hw Hr [rest E] Hf] Hv. apply on_src_wp. rewrite extract_kind.
  rewrite length_app, le_enc_length in Hf. pose proof (rd_max _ _ _ _ Hr).
  eapply wp_extract_rd; [exact Hr|lia|cbn [fst snd] in *; lia|]. intros b' Hb'.
  rewrite (proj2 (Z.leb_le _ _)) by lia. rewrite !Nat2Z.id, E, <- app_assoc.
  rewrite slice_app_mid by (done || by rewrite le_enc_length). rewrite kind_conv_enc by done.
  split; [done|]. split; cbn [fst snd].
  - done.
  - rewrite length_app, le_enc_length, Nat2Z.inj_add. exact Hb'.
  - exists rest. by rewrite E, <- !app_assoc.
  - rewrite length_app, le_enc_length. lia.
Qed.

Lemma entity_wp e out pre post s :
  editing out pre (entity_bytes e ++ post) s -> Z.of_nat (length out) + 6 <= nlen ->
  wp copy_entity s (fun _ => editing (out ++ entity_bytes e) (pre ++ entity_bytes e) post).
Proof.
  intros He Hfit. unfold copy_entity, entity_bytes in *. rewrite <- !app_assoc in He.
  apply wp_bind. eapply wp_mono; [eapply copy_wp; [exact He|done|lia]|]. intros [] s1 H1. cbn beta in H1.
  apply wp_bind. eapply wp_mono; [eapply copy_wp; [exact H1|done|rewrite length_app, le_enc_length; lia]|].
  intros [] s2 H2. cbn beta in H2.
  eapply wp_mono; [eapply copy_wp; [exact H2|done|rewrite !length_app, !le_enc_length; lia]|].
  intros [] s3 H3. cbn beta in H3. by rewrite <- !app_assoc in H3.
Qed.

Lemma entities_wp l out pre post s :
  editing out pre (entities_bytes l ++ post) s -> Z.of_nat (length out) + 6 * count l <= nlen ->
  wp (copy_entities (length l)) s (fun _ => editing (out ++ entities_bytes l) (pre ++ entities_bytes l) post).
Proof.
  revert out pre s. induction l as [|e l IH]; intros out pre s He Hfit.
  { apply wp_ret. unfold entities_bytes in *. cbn in *. by rewrite !app_nil_r. }
  unfold entities_bytes, count in *. cbn [fmap list_fmap concat length copy_entities] in *.
  rewrite <- app_assoc in He. apply wp_bind. eapply wp_mono; [eapply entity_wp; [exact He|lia]|].
  intros [] s1 Hs1. cbn beta in Hs1. eapply wp_mono; [apply IH; [exact Hs1|rewrite length_app, entity_bytes_length; lia]|].
  intros [] s2 H2. cbn beta in H2. by rewrite <- !app_assoc in H2.
Qed.
End two_buffers.

(** Both buffers from their declarations to the end of the function. *)
Lemma edit_scope_wp {A} new old (body : B2 A) (P : A -> cmem -> Prop) :
  wp body (pldm__msgbuf_define new, pldm__msgbuf_define old)
     (fun a s => mb_done s.1 /\ mb_done s.2 /\ P a (obj s.1)) ->
  exists a m, edit_scope new old body = Ok (a, m) /\ P a m.
Proof.
  intros Hw. destruct (wp_elim _ _ _ Hw) as (a & [dst src] & E & [Hc Hr] & [Hc' Hr'] & HP).
  exists a, (obj dst). split; [|done]. unfold edit_scope. rewrite E. cbn in *.
  unfold pldm__msgbuf_cleanup. by rewrite Hc, Hr, Hc', Hr'.
Qed.

Ltac copy_one H :=
  apply wp_bind; eapply wp_mono;
  [eapply copy_wp; [exact H|reflexivity|rewrite ?length_app, ?le_enc_length; cbn [Nat.add length]; lia]|];
  clear H; intros [] ? H; cbn beta in H.
Ltac copy_last H :=
  eapply wp_mono;
  [eapply copy_wp; [exact H|reflexivity|rewrite ?length_app, ?le_enc_length; cbn [Nat.add length]; lia]|];
  clear H; intros [] ? H; cbn beta in H; by rewrite <- ?app_assoc in H.

Section parts.
Context (new old : cmem) (nlen olen : Z) (a : association).

Lemma header_wp out pre post s :
  editing new old nlen olen out pre (head_bytes a ++ post) s -> Z.of_nat (length out) + 8 <= nlen ->
  wp copy_header s (fun _ => editing new old nlen olen (out ++ head_bytes a) (pre ++ head_bytes a) post).
Proof.
  intros He Hfit. unfold copy_header, head_bytes in *. rewrite <- !app_assoc in He.
  do 3 copy_one He. copy_last He.
Qed.

Lemma container_wp out pre post s :
  editing new old nlen olen out pre (container_bytes a ++ post) s -> Z.of_nat (length out) + 9 <= nlen ->
  wp copy_container s (fun _ => editing new old nlen olen (out ++ container_bytes a) (pre ++ container_bytes a) post).
Proof.
  intros He Hfit. unfold copy_container, container_bytes, entity_bytes in *. rewrite <- !app_assoc in He.
  do 4 copy_one He. copy_last He.
Qed.

(** The start of both edits: the two initialisations. *)
Lemma both_wp {A} minsize out0 (k : Z -> B2 A) (k' : Z -> B2 A) (Q : A -> msgbuf * msgbuf -> Prop) :
  mem_ok new -> mem_size new = nlen -> mem_ok old -> olen <= mem_size old -> 26 <= olen -> minsize <= nlen ->
  olen = Z.of_nat (length (association_bytes a)) -> (exists rest, bytes old = association_bytes a ++ rest) ->
  out0 = [] ->
  (forall s, editing new old nlen olen out0 [] (association_bytes a) s -> wp (k' 0) s Q) ->
  wp (rc ← on_src (pldm_msgbuf_ro_init_errno PDR_ENTITY_ASSOCIATION_MIN_SIZE old olen);
      if_err rc return_ k rc;;
      rc ← on_dst (pldm_msgbuf_rw_init_errno minsize new nlen);
      k' rc) (pldm__msgbuf_define new, pldm__msgbuf_define old) Q.
Proof.
  intros [Ha1 Ha2 Ha3 Ha4] Hn [Hb1 Hb2 Hb3 Hb4] Ho Hmin Hmin' Hl [rest E] -> HQ.
  apply wp_bind, on_src_wp. apply wp_init_rd; [done|lia|lia|lia|].
  intros src _. cmp_case; [|lia]. intros Hs. change (0 =? 0) with true. cbv iota.
  assert (0 <= mem_size new) by (unfold mem_size; lia).
  apply wp_bind, on_dst_wp. apply wp_init_wr; [done|lia|lia|lia|].
  intros dst _. cmp_case; [|lia]. intros Hd. apply HQ.
  split; cbn [fst snd length]; [exact Hd|exact Hs|by exists rest|lia].
Qed.
End parts.

Definition more_child (a : association) (e : pldm_entity) : association :=
  Assoc (as_handle a) (as_version a) (as_change a) (as_id a) (as_kind a) (as_container a) (as_children a ++ [e]).

Lemma wp_complete_wr m len out b Q :
  mb_wr m len out b -> Z.of_nat (length out) <= len ->
  (forall b', mb_done b' -> obj b' = wrote m out -> Q 0 b') -> wp pldm_msgbuf_rw_complete b Q.
Proof.
  intros [Ha ? Hr ? ? (k & ? & Hk)] Hl HQ.
  change (Q (pldm__msgbuf_validate (remaining b)) (MsgBuf (obj b) None INTMAX_MIN)).
  unfold pldm__msgbuf_validate. rewrite Hr. cmp_case; [lia|]. apply HQ; [done|].
  destruct Hk as [_ Hk]; [done|]. unfold wrote. rewrite <- Ha, <- Hk. cbn. by destruct (obj b).
Qed.

Lemma wrote_full m out : Z.of_nat (length out) = mem_size m -> wrote m out = CMem (addr m) out.
Proof. unfold wrote, mem_size. intros E. rewrite drop_ge by lia. by rewrite app_nil_r. Qed.

Lemma entity_object_ok e : mem_ok (entity_object e).
Proof.
  assert (mem_size (entity_object e) = 6) as E by done.
  split; rewrite ?E; cbn [entity_object addr bytes]; try lia. unfold entity_bytes.
  repeat apply bytes_ok_app; apply le_enc_ok.
Qed.

(** The new entity, from the caller's object, at the end. *)
Lemma new_entity_wp new old nlen olen out pre s e :
  editing new old nlen olen out pre [] s -> Z.of_nat (length out) + 6 = nlen -> mem_size new = nlen ->
  wp (rc ← on_src pldm_msgbuf_ro_complete;
      if_err rc return_ on_dst (pldm_msgbuf_rw_discard rc);;
      rc ← on_src (pldm_msgbuf_ro_init_errno SIZEOF_ENTITY (entity_object e) SIZEOF_ENTITY);
      if_err rc return_ on_dst (pldm_msgbuf_rw_discard rc);;
      _ ← copy_entity;
      rc ← on_dst pldm_msgbuf_rw_complete;
      if_err rc return_ fail_src rc;;
      on_src pldm_msgbuf_ro_complete) s
     (fun rc s => mb_done s.1 /\ mb_done s.2 /\ rc = 0 /\ obj s.1 = CMem (addr new) (out ++ entity_bytes e)).
Proof.
  destruct s as [dst src]. intros [Hw Hr _ Hf] Hl Hn. cbn [fst snd] in *.
  apply wp_bind, on_src_wp. eapply wp_complete_rd; [exact Hr|]. intros src1 _ _.
  rewrite (proj2 (Z.leb_le _ _)) by (rewrite length_nil in Hf; lia). change (0 =? 0) with true. cbv iota.
  apply wp_bind, on_src_wp. destruct (entity_object_ok e).
  assert (mem_size (entity_object e) = 6) as E6 by done.
  apply wp_init_rd; [done|rewrite E6; lia|lia|cbn [entity_object addr]; lia|].
  intros src2 _ Hs2. change (SIZEOF_ENTITY <=? SIZEOF_ENTITY) with true in Hs2 |- *. cbv iota in Hs2 |- *.
  change (0 =? 0) with true. cbv iota. apply wp_bind.
  assert (editing new (entity_object e) nlen 6 out [] (entity_bytes e ++ []) (dst, src2)) as He.
  { split; cbn [fst snd]; [exact Hw|exact Hs2|by exists []|cbn; lia]. }
  eapply wp_mono; [eapply entity_wp; [exact He|lia]|].
  intros [] [dst3 src3] [Hw3 Hr3 _ Hf3]. cbn [fst snd] in *.
  apply wp_bind, on_dst_wp. eapply wp_complete_wr; [exact Hw3|rewrite length_app, entity_bytes_length; lia|].
  intros dst4 Hd4 Ho4. change (0 =? 0) with true. cbv iota. apply on_src_wp.
  eapply wp_complete_rd; [exact Hr3|]. intros src4 Hs4 _. cbn [fst snd].
  split; [done|]. split; [done|]. split; [done|]. rewrite Ho4. apply wrote_full.
  rewrite length_app, entity_bytes_length. lia.
Qed.

(** One step of an edit: the lemma for it, then the state it leaves. *)
Ltac edit_step lem Hs :=
  apply wp_bind; eapply wp_mono; [eapply lem; [exact Hs|cbn; lia]|];
  clear Hs; intros ? ? Hs; cbn beta in Hs.
Ltac edit_read k Hs :=
  apply wp_bind; eapply wp_mono; [eapply (extract_wp _ _ _ _ k); [exact Hs|cbn; lia]|];
  clear Hs; intros ? ? [-> Hs]; change (0 =? 0) with true; cbv iota beta zeta.

Lemma count_app l l' : count (l ++ l') = count l + count l'.
Proof. unfold count. rewrite length_app. lia. Qed.

Lemma entities_bytes_cons e l : entities_bytes (e :: l) = entity_bytes e ++ entities_bytes l.
Proof. done. Qed.

Lemma entity_bytes_eq e : entity_bytes e
  = le_enc 2 (entity_type e) ++ le_enc 2 (entity_instance_num e) ++ le_enc 2 (entity_container_id e).
Proof. done. Qed.

Lemma entities_bytes_one e : entities_bytes [e] = entity_bytes e.
Proof. unfold entities_bytes. cbn [fmap list_fmap concat]. apply app_nil_r. Qed.

Lemma count_nat l : Z.to_nat (count l) = length l.
Proof. unfold count. lia. Qed.

Lemma grow_ok a e old new :
  association_ok a -> count (as_children a) < UINT8_MAX -> holds_association old a ->
  mem_ok new -> mem_size new = Z.of_nat (length (association_bytes a)) + 6 ->
  edit_scope new old (grow_record old (Z.of_nat (length (association_bytes a)))
    (Z.of_nat (length (association_bytes a)) + 6) e new)
  = Ok (0, CMem (addr new) (association_bytes (more_child a e))).
Proof.
  intros Ha Hc [Hmo Hold] Hmn Hsz. set (olen := Z.of_nat (length (association_bytes a))) in *.
  pose proof (association_bytes_length a) as Hlen. fold olen in Hlen. pose proof (ao_count _ Ha) as Hcount.
  destruct (edit_scope_wp new old (grow_record old olen (olen + 6) e new) (fun rc m =>
    rc = 0 /\ m = CMem (addr new) (association_bytes (more_child a e)))) as (? & ? & -> & -> & ->); [|done].
  assert (olen <= mem_size old) as Hfit.
  { destruct Hold as [rest E]. unfold mem_size. rewrite E, length_app. lia. }
  unfold grow_record. eapply (both_wp new old (olen + 6) olen a); try done; try lia.
  intros s Hs. change (0 =? 0) with true. cbv iota. unfold association_bytes in Hs.
  edit_step header_wp Hs. edit_read KU16 Hs. cmp_case; [lia|].
  edit_step insert_wp Hs. edit_step container_wp Hs. edit_read KU8 Hs. cmp_case; [lia|].
  edit_step insert_wp Hs. rewrite <- (app_nil_r (entities_bytes (as_children a))) in Hs. rewrite count_nat.
  edit_step entities_wp Hs.
  eapply wp_mono; [eapply new_entity_wp; [exact Hs| |done]|].
  - rewrite !length_app. cbn. pose proof (entities_bytes_length (as_children a)). lia.
  - cbn beta. intros rc fin (? & ? & -> & ->). split_and!; [done|done|done|]. f_equal.
    unfold association_bytes, more_child. cbn [as_children as_handle as_version as_change as_id as_kind as_container].
    rewrite count_app, entities_bytes_app. unfold u16, u8. rewrite !Z.mod_small by lia.
    change (count [e]) with 1. replace (10 + 6 * (count (as_children a) + 1)) with (10 + 6 * count (as_children a) + 6) by lia.
    rewrite <- !app_assoc. by rewrite entities_bytes_one.
Qed.

(** *** Without one entity *)

Definition others (e : pldm_entity) (l : list pldm_entity) : list pldm_entity :=
  List.filter (fun x => negb (pldm_entity_cmp e x)) l.

Definition fewer_children (a : association) (e : pldm_entity) : association :=
  Assoc (as_handle a) (as_version a) (as_change a) (as_id a) (as_kind a) (as_container a) (others e (as_children a)).

Lemma keep_wp new old nlen olen e l : forall out pre post s,
  Forall entity_ok l ->
  editing new old nlen olen out pre (entities_bytes l ++ post) s ->
  Z.of_nat (length out) + 6 * count (others e l) <= nlen ->
  wp (keep_entities (length l) e) s (fun rc s =>
    rc = 0 /\ editing new old nlen olen (out ++ entities_bytes (others e l)) (pre ++ entities_bytes l) post s).
Proof.
  induction l as [|x l IH]; intros out pre post s Hok He Hfit.
  { apply wp_ret. unfold entities_bytes in *. cbn in *. by rewrite !app_nil_r. }
  apply list.Forall_cons in Hok as [(? & ? & ?) Hok].
  rewrite entities_bytes_cons, entity_bytes_eq in He |- *.
  rewrite <- !app_assoc in He. cbn [length keep_entities].
  edit_read KU16 He. edit_read KU16 He. edit_read KU16 He. cbn [kind_size] in He.
  replace (Entity _ _ _) with x by by destruct x. unfold others in Hfit |- *. cbn [List.filter] in Hfit |- *.
  destruct (pldm_entity_cmp e x); cbn [negb] in Hfit |- *.
  - eapply wp_mono; [eapply IH; [done|exact He|exact Hfit]|]. cbn beta. intros rc fin [-> Hs'].
    split; [done|]. repeat rewrite <- app_assoc in Hs'. repeat rewrite <- app_assoc. exact Hs'.
  - unfold count in Hfit. cbn [length] in Hfit.
    do 3 (apply wp_bind; eapply wp_mono;
      [eapply insert_wp; [exact He|rewrite ?length_app, ?le_enc_length; cbn [kind_size]; lia]|];
      clear He; intros ? ? He; cbn beta in He).
    eapply wp_mono; [eapply IH; [done|exact He|]|].
    + rewrite ?length_app, ?le_enc_length; cbn [kind_size]. unfold count, others in *. lia.
    + cbn beta. intros rc fin [-> Hs']. split; [done|].
      rewrite entities_bytes_cons, entity_bytes_eq. repeat rewrite <- app_assoc in Hs'. repeat rewrite <- app_assoc. exact Hs'.
Qed.

Lemma shrink_ok a e old new :
  association_ok a -> holds_association old a -> 2 <= count (as_children a) ->
  count (others e (as_children a)) = count (as_children a) - 1 ->
  mem_ok new -> mem_size new = Z.of_nat (length (association_bytes a)) - 6 ->
  edit_scope new old (shrink_record old (Z.of_nat (length (association_bytes a)))
    (Z.of_nat (length (association_bytes a)) - 6) e new)
  = Ok (Shrunk, CMem (addr new) (association_bytes (fewer_children a e))).
Proof.
  intros Ha [Hmo Hold] Htwo Honce Hmn Hsz. set (olen := Z.of_nat (length (association_bytes a))) in *.
  pose proof (association_bytes_length a) as Hlen. fold olen in Hlen. pose proof (ao_count _ Ha) as Hcount.
  destruct (edit_scope_wp new old (shrink_record old olen (olen - 6) e new) (fun v m =>
    v = Shrunk /\ m = CMem (addr new) (association_bytes (fewer_children a e)))) as (? & ? & -> & -> & ->); [|done].
  assert (olen <= mem_size old) as Hfit.
  { destruct Hold as [rest E]. unfold mem_size. rewrite E, length_app. lia. }
  unfold shrink_record. eapply (both_wp new old (olen - 6) olen a); try done; try lia.
  intros s Hs. change (0 =? 0) with true. cbv iota zeta. unfold association_bytes in Hs.
  edit_step header_wp Hs. edit_read KU16 Hs. cmp_case; [lia|].
  edit_step insert_wp Hs. edit_step container_wp Hs. edit_read KU8 Hs. do 2 (cmp_case; [lia|]).
  edit_step insert_wp Hs. rewrite <- (app_nil_r (entities_bytes (as_children a))) in Hs. rewrite count_nat.
  apply wp_bind. eapply wp_mono; [eapply keep_wp; [apply Ha|exact Hs|cbn; lia]|]. clear Hs.
  intros ? [dst src] [-> [Hw Hr _ Hf]]. change (0 =? 0) with true. cbv iota. cbn [fst snd] in *.
  pose proof (entities_bytes_length (others e (as_children a))) as Hol.
  apply wp_bind, on_dst_wp. eapply wp_complete_wr; [exact Hw|rewrite !length_app; cbn; lia|].
  intros dst2 Hd2 Ho2. change (0 =? 0) with true. cbv iota. apply wp_bind, on_src_wp.
  eapply wp_complete_rd; [exact Hr|]. intros src2 Hs2 _. rewrite (proj2 (Z.leb_le _ _)) by (rewrite length_nil in Hf; lia).
  change (0 =? 0) with true. cbv iota. apply wp_ret. cbn [fst snd]. split_and!; [done|done|done|].
  rewrite Ho2, wrote_full by (rewrite !length_app; cbn; lia). f_equal.
  unfold association_bytes, fewer_children. cbn [as_children as_handle as_version as_change as_id as_kind as_container].
  rewrite Honce. replace (10 + 6 * (count (as_children a) - 1)) with (10 + 6 * count (as_children a) - 6) by lia.
  by rewrite <- !app_assoc.
Qed.
