(* ===== verification/AssociationRuns.v ===== *)
(** * From an entity association tree to PDRs and back (src/dsp/pdr.c) *)

From stdpp Require Import gmap.
From S2P Require Import Prelude Msgbuf PdrHeap Pdr EntityTree PdrAssociation PdrRepo PdrProps TreeProps TreeBuild TreeRuns AssociationProps.

(** ** Editing a record *)

Lemma others_app e l l' : others e (l ++ l') = others e l ++ others e l'.
Proof. apply List.filter_app. Qed.

Lemma others_absent e l : e ∉ l -> others e l = l.
Proof.
  induction l as [|x l IH]; [done|]. rewrite not_elem_of_cons. intros [Hx Hl]. unfold others. cbn.
  destruct (pldm_entity_cmp e x) eqn:E; cbn; [|by rewrite <- (IH Hl) at 2].
  exfalso. apply Hx. revert E. unfold pldm_entity_cmp. destruct e, x; cbn.
  rewrite !andb_true_iff, !Z.eqb_eq. intros [[-> ->] ->]. done.
Qed.

Lemma others_self e : others e [e] = [].
Proof. unfold others, pldm_entity_cmp. cbn. by rewrite !Z.eqb_refl. Qed.

Lemma more_child_ok a e :
  association_ok a -> entity_ok e -> count (as_children a) < UINT8_MAX -> association_ok (more_child a e).
Proof.
  intros [] He Hc. split; cbn; try done.
  - apply Forall_app. split; [done|]. by constructor.
  - rewrite count_app. change (count [e]) with 1. lia.
Qed.

Lemma holds_exact ad a :
  0 <= ad -> ad + Z.of_nat (length (association_bytes a)) <= UINTPTR_MAX ->
  Z.of_nat (length (association_bytes a)) <= INTMAX_MAX ->
  holds_association (CMem ad (association_bytes a)) a.
Proof.
  intros. split; [|exists []; by rewrite app_nil_r]. split; unfold mem_size; cbn; try done.
  apply association_bytes_ok.
Qed.

(** The layout of an entity association PDR as the library writes it is the one it
    reads: pldm_entity_association_pdr_extract on a record of 1 to 254 children returns
    the container followed by the children; adding a contained entity gives the record
    with that entity as its last child, header length and count adjusted; removing the
    entity again gives the first record back, byte for byte. *)
Theorem association_edit_roundtrip a e old new back :
  association_ok a -> entity_ok e -> count (as_children a) < UINT8_MAX -> e ∉ as_children a ->
  holds_association old a ->
  let size := Z.of_nat (length (association_bytes a)) in
  mem_ok new -> mem_size new = size + 6 -> mem_ok back -> mem_size back = size ->
  pldm_entity_association_pdr_extract (Some old) size true true
  = Ok (Some (count (as_children a) + 1, as_container a :: as_children a)) /\
  let grown := CMem (addr new) (association_bytes (more_child a e)) in
  edit_scope new old (grow_record old size (size + 6) e new) = Ok (0, grown) /\
  edit_scope back grown (shrink_record grown (size + 6) size e back)
  = Ok (Shrunk, CMem (addr back) (association_bytes a)).
Proof.
  intros Ha He Hc Hfresh Hold size Hmn Hn Hmb Hb. split; [by apply extract_association|].
  split; [by apply grow_ok|].
  pose proof (association_bytes_length a) as Hl. pose proof (association_bytes_length (more_child a e)) as Hl'.
  cbn [more_child as_children] in Hl'. rewrite count_app in Hl'. change (count [e]) with 1 in Hl'.
  assert (size + 6 = Z.of_nat (length (association_bytes (more_child a e)))) as E by (unfold size; lia).
  assert (others e (as_children a ++ [e]) = as_children a) as Eo.
  { by rewrite others_app, others_self, others_absent, app_nil_r. }
  rewrite E. replace size with (Z.of_nat (length (association_bytes (more_child a e))) - 6) by lia.
  destruct Hmn, Hmb. rewrite shrink_ok.
  - unfold fewer_children. cbn [more_child as_children as_handle as_version as_change as_id as_kind as_container].
    rewrite Eo. by destruct a.
  - by apply more_child_ok.
  - apply holds_exact; lia.
  - cbn. rewrite count_app. change (count [e]) with 1. pose proof (ao_count _ Ha). lia.
  - cbn [more_child as_children]. rewrite Eo, count_app. change (count [e]) with 1. lia.
  - by constructor.
  - lia.
Qed.

(** ** Writing a tree *)

(** The children of one association type. *)
Definition kids (type : Z) (f : forest) : list pldm_entity :=
  ni_entity <$> List.filter (fun d => ni_type d =? type) (spine f).

Lemma kids_cons type a d ch sib :
  kids type (Br a d ch sib) = if ni_type d =? type then ni_entity d :: kids type sib else kids type sib.
Proof. unfold kids. cbn. by destruct (ni_type d =? type). Qed.

Lemma count_cons e l : count (e :: l) = count l + 1.
Proof. unfold count. cbn [length]. lia. Qed.

Lemma splice_behind (pre new rest : list Z) :
  splice (length pre) new (pre ++ rest) = pre ++ new ++ drop (length new) rest.
Proof. unfold splice. rewrite take_app_length, drop_app_add. done. Qed.

Section reading_children.
Context (h : heap).

Lemma count_children_ok fuel f type : forall n,
  at_forest (h_nodes h) f -> (depth f <= fuel)%nat ->
  siblings (R := unit) fuel (root f) (fun count _ c =>
    mret (inl (if association_type c =? type then count + 1 else count))) n h
  = Ok (inl (n + count (kids type f)), h).
Proof.
  revert f. induction fuel as [|fuel IH]; intros [|a d ch sib] n Hf Hd; cbn in Hd; try lia;
    try (cbn; unfold count, kids; cbn; by rewrite Z.add_0_r).
  destruct Hf as (E & Hc & Hs). cbn [siblings root].
  eapply run_step; [eapply load_ok, E|]. eapply run_step; [reflexivity|]. cbv beta iota.
  cbn [node_of association_type next_sibling]. rewrite IH by (done || lia). rewrite kids_cons.
  destruct (ni_type d =? type); [rewrite count_cons|]; do 2 f_equal; f_equal; lia.
Qed.

Lemma get_num_children_ok q d ch sib type :
  h_nodes h !! q = Some (node_of d ch sib) -> at_forest (h_nodes h) ch -> NoDup (blocks ch) ->
  type = 0 \/ type = 1 -> count (kids type ch) < UINT8_MAX ->
  pldm_entity_get_num_children (Some q) type h = Ok (count (kids type ch), h).
Proof.
  intros E Hc Hn Ht Hlt. unfold pldm_entity_get_num_children.
  assert (negb ((type =? 0) || (type =? 1)) = false) as -> by (destruct Ht as [-> | ->]; done).
  eapply run_step; [eapply load_ok, E|]. eapply run_step; [reflexivity|]. cbn [node_of first_child].
  eapply run_step; [apply count_children_ok; [done|]; pose proof (depth_size _ _ Hc Hn); lia|].
  cbn beta iota. rewrite Z.add_0_l. rewrite (proj2 (Z.ltb_lt _ _)) by done. cbn.
  unfold mret, stM_ret, u8. rewrite Z.mod_small; [done|]. unfold count in *. lia.
Qed.

Lemma write_children_ok fuel f type : forall pdr start pre rest,
  at_forest (h_nodes h) f -> (depth f <= fuel)%nat ->
  bytes pdr = pre ++ rest -> start = Z.of_nat (length pre) ->
  6 * count (kids type f) <= Z.of_nat (length rest) ->
  write_children fuel (root f) type pdr start h
  = Ok (CMem (addr pdr) (pre ++ entities_bytes (kids type f)
      ++ drop (length (entities_bytes (kids type f))) rest), h).
Proof.
  revert f. induction fuel as [|fuel IH]; intros [|a d ch sib] pdr start pre rest Hf Hd Eb -> Hl; cbn in Hd; try lia;
    try (cbn; rewrite drop_0, <- Eb; by destruct pdr).
  destruct Hf as (E & Hc & Hs). cbn [write_children root].
  eapply run_step; [eapply load_ok, E|]. cbn [node_of association_type next_sibling node_entity].
  rewrite kids_cons in Hl |- *. destruct (ni_type d =? type).
  - rewrite count_cons in Hl. pose proof (entity_bytes_length (ni_entity d)) as He.
    assert (0 <= count (kids type sib)) by (unfold count; lia).
    eapply run_step.
    { unfold lift. rewrite mem_write_ok; [reflexivity|lia|].
      unfold mem_size. rewrite Eb, length_app, He. lia. }
    rewrite Eb, Nat2Z.id, splice_behind.
    rewrite (IH sib _ _ (pre ++ entity_bytes (ni_entity d)) (drop (length (entity_bytes (ni_entity d))) rest));
      [|done|lia| | |rewrite length_drop, He; lia].
    + cbn [addr]. rewrite entities_bytes_cons, length_app, drop_drop, <- !app_assoc. done.
    + cbn [bytes]. by rewrite <- ?app_assoc.
    + rewrite length_app, He. lia.
  - apply IH; try done. lia.
Qed.
End reading_children.

(** *** The repository's functions leave the nodes alone *)

Definition same_forest (h h' : heap) : Prop := h_nodes h' = h_nodes h /\ h_trees h' = h_trees h.

Definition keeps_forest {A} (m : H A) : Prop := forall h a h', m h = Ok (a, h') -> same_forest h h'.

(** A type of block other than nodes and trees. *)
Class Elsewhere (T : Type) `{Region T} := elsewhere : forall m h, same_forest h (set_region (T := T) m h).
#[export] Instance buf_elsewhere : Elsewhere cmem. Proof. done. Qed.
#[export] Instance record_elsewhere : Elsewhere pldm_pdr_record. Proof. done. Qed.
#[export] Instance repo_elsewhere : Elsewhere pldm_pdr. Proof. done. Qed.

Lemma keeps_ret {A} (a : A) : keeps_forest (mret a).
Proof. by intros h x h' [= <- <-]. Qed.

Lemma keeps_lift {A} (m : outcome A) : keeps_forest (lift m).
Proof. intros h x h'. unfold lift. destruct m; [|done]. by intros [= <- <-]. Qed.

Lemma keeps_bind {A B} (m : H A) (k : A -> H B) :
  keeps_forest m -> (forall a, keeps_forest (k a)) -> keeps_forest (m ≫= k).
Proof.
  intros Hm Hk h b h'. unfold mbind, stM_bind. destruct (m h) as [[a h1]|] eqn:E; [|done].
  intros E'. destruct (Hm _ _ _ E), (Hk _ _ _ _ E'). split; congruence.
Qed.

Section block_ops.
Context {T : Type} `{Elsewhere T}.

Lemma keeps_load p : keeps_forest (load (T := T) p).
Proof. intros h x h'. unfold load. repeat case_match; try done. by intros [= <- <-]. Qed.

Lemma keeps_store p (v : T) : keeps_forest (store p v).
Proof. intros h x h'. unfold store. repeat case_match; try done. intros [= <- <-]. apply elsewhere. Qed.

Lemma keeps_free p : keeps_forest (free T p).
Proof. intros h x h'. unfold free. repeat case_match; try done; intros [= <- <-]; [apply elsewhere|done]. Qed.

Lemma keeps_update p (f : T -> T) : keeps_forest (update p f).
Proof. apply keeps_bind; [apply keeps_load|]. intros. apply keeps_store. Qed.

Lemma keeps_malloc `{Allocator} size init : keeps_forest (malloc (T := T) size init).
Proof.
  intros h x h'. unfold malloc. destruct (malloc_addr _ _); [|by intros [= <- <-]].
  intros [= <- <-]. destruct (elsewhere (T := T) (<[next_block h := init z (malloc_junk (allocs h) size)]> (region h)) (tick h)).
  done.
Qed.
End block_ops.

Ltac keeps := repeat lazymatch goal with
  | |- keeps_forest (mret _) => apply keeps_ret
  | |- keeps_forest (lift _) => apply keeps_lift
  | |- keeps_forest (load _) => apply keeps_load
  | |- keeps_forest (store _ _) => apply keeps_store
  | |- keeps_forest (update _ _) => apply keeps_update
  | |- keeps_forest (free _ _) => apply keeps_free
  | |- keeps_forest (malloc _ _) => apply keeps_malloc
  | |- keeps_forest (_ ≫= _) => apply keeps_bind
  | |- keeps_forest (match ?x with _ => _ end) => destruct x
  | |- keeps_forest (let _ := _ in _) => cbv zeta
  | |- forall _, _ => intros ?
  end.

Lemma keeps_add `{Allocator} repo data size remote th handle :
  keeps_forest (pldm_pdr_add repo data size remote th handle).
Proof. unfold pldm_pdr_add, choose_handle, new_record, append_record, set_data_member. keeps. Qed.

(** *** One record *)

Definition child_id (ch : forest) : Z := match ch with Br _ d _ _ => ni_container d | Nil => 0 end.

(** The record of the children of one type. *)
Definition record_of (handle type : Z) (d : ninfo) (ch : forest) : association :=
  Assoc handle 1 0 (child_id ch) type (ni_entity d) (kids type ch).

Lemma association_size_ok n : 0 <= n <= UINT8_MAX -> association_size n = 20 + 6 * n.
Proof. intros. unfold association_size, u16. rewrite Z.mod_small by lia. lia. Qed.

(** The handle written into the header is the one the record has. *)
Lemma stored_record handle curr type d ch :
  (handle = 0 \/ handle = curr) ->
  stored_data (association_bytes (record_of handle type d ch)) (Some handle) curr
  = association_bytes (record_of curr type d ch).
Proof.
  intros Hh. unfold stored_data. destruct (Z.eqb_spec handle 0) as [->|]; [|by destruct Hh as [|<-]].
  unfold association_bytes, head_bytes. cbn [record_of as_handle as_version as_change as_id as_kind as_container as_children].
  rewrite <- !(app_assoc (le_enc 4 _)). unfold splice. rewrite take_0, le_enc_length. cbn [Nat.add app].
  f_equal.
Qed.

Lemma choose_handle_value l handle curr :
  choose l (Some handle) = Some curr -> handle = 0 \/ handle = curr.
Proof.
  unfold choose. cbn. destruct (Z.eqb_spec handle 0); [by left|]. cbn. intros [= ->]. by right.
Qed.

(** What one record does to the repository. *)
Definition record_post (p : positive) (l : list cell) (h : heap) (type : Z) (d : ninfo) (ch : forest)
    (rc : Z) (h' : heap) : Prop :=
  same_forest h h' /\
  (- EOVERFLOW <= rc < 0 /\ repo_at p l h' \/
   exists c, 1 <= rc <= UINT32_MAX /\ repo_at p (l ++ [c]) h' /\ e_handle (c_entry c) = rc /\
     e_data (c_entry c) = association_bytes (record_of rc type d ch)).

Section writing.
Context `{Allocator} (p : positive) (l : list cell) (h : heap).
Context (Hr : repo_at p l h).

Lemma tick_repo : repo_at p l (tick h).
Proof using Hr. apply (repo_at_allocs p l h (S (allocs h)) Hr). lia. Qed.

Lemma add_children_ok q d ch sib type remote th handle :
  h_nodes h !! q = Some (node_of d ch sib) -> at_forest (h_nodes h) ch -> NoDup (blocks ch) ->
  1 <= count (kids type ch) < UINT8_MAX -> 0 <= handle <= UINT32_MAX ->
  Z.of_nat (length l) < UINT32_MAX -> total l + 1600 <= UINT32_MAX ->
  wp (entity_association_pdr_add_children (Some q) (Some p) (association_size (count (kids type ch)))
        (count (kids type ch)) type remote th handle) h (record_post p l h type d ch).
Proof using Hr.
  intros E Hc Hn Hk Hh Hlen Htot. remember (count (kids type ch)) as n eqn:En.
  rewrite (association_size_ok n) by lia. unfold entity_association_pdr_add_children, malloc_given.
  apply wp_bind. unfold wp at 1.
  destruct (malloc_addr (allocs h) (20 + 6 * n)).
  2: { apply wp_ret. split; [done|]. left. split; [done|]. by apply tick_repo. }
  cbn [negb]. eapply wp_step; [eapply load_ok, E|]. cbn [node_of first_child node_entity].
  destruct ch as [|b e c' s'] eqn:Ech; [rewrite En in Hk; unfold count, kids in Hk; cbn in Hk; lia|].
  pose proof Hc as (Eb & _ & _). eapply wp_step; [eapply load_ok; exact Eb|]. cbn [node_of node_entity].
  rewrite <- Ech in *.
  set (A := le_enc 4 handle ++ _). set (B := le_enc 2 (entity_container_id _) ++ _).
  assert (length A = 10%nat /\ length B = 10%nat) as [EA EB] by done.
  set (Z0 := zeros (20 + 6 * n)).
  assert (Z.of_nat (length Z0) = 20 + 6 * n) as EZ by (apply zeros_length; lia).
  eapply wp_step.
  { unfold lift. rewrite mem_write_ok; [reflexivity|lia|]. unfold mem_size. cbn [bytes]. rewrite EA. lia. }
  cbn [addr bytes]. change (Z.to_nat 0) with (length (@nil Z)). rewrite <- (app_nil_l Z0), splice_behind, EA.
  cbn [app]. eapply wp_step.
  { unfold lift. rewrite mem_write_ok; [reflexivity|lia|]. unfold mem_size. cbn [bytes].
    rewrite length_app, length_drop, EA, EB. lia. }
  cbn [addr bytes]. change (Z.to_nat 10) with (length A). rewrite splice_behind, EB, drop_drop.
  eapply wp_step; [reflexivity|]. eapply wp_step.
  { eapply (write_children_ok (tick h) _ ch type _ 20 (A ++ B)); [exact Hc| | |by rewrite length_app, EA, EB|].
    - pose proof (depth_size _ _ Hc Hn). cbn. lia.
    - cbn [bytes]. by rewrite <- app_assoc.
    - rewrite length_drop, <- En. lia. }
  cbn [addr]. pose proof (entities_bytes_length (kids type ch)) as Ek. rewrite <- En in Ek.
  rewrite drop_drop, drop_ge, app_nil_r by lia.
  assert ((A ++ B) ++ entities_bytes (kids type ch) = association_bytes (record_of handle type d ch)) as EAB.
  { unfold A, B, association_bytes, head_bytes, container_bytes, record_of.
    cbn [as_handle as_version as_change as_id as_kind as_container as_children]. rewrite <- En.
    replace (20 + 6 * n - 10) with (10 + 6 * n) by lia. rewrite <- !app_assoc, Ech. done. }
  rewrite EAB. pose proof (association_bytes_length (record_of handle type d ch)) as Elen.
  cbn [record_of as_children] in Elen. rewrite <- En in Elen.
  set (data := association_bytes (record_of handle type d ch)) in *.
  assert (take (Z.to_nat (20 + 6 * n)) data = data) as Etake by (apply take_ge; lia).
  apply wp_bind. pose proof (PdrRepo.add_ok p l (tick h) tick_repo (CMem 0 data) (20 + 6 * n) remote th (Some handle)) as Hadd.
  cbn [bytes] in Hadd. rewrite Etake in Hadd. unfold wp in *.
  specialize (Hadd ltac:(lia) ltac:(unfold mem_size; cbn [bytes]; lia) (association_bytes_ok _) Hh Hlen ltac:(lia)).
  pose proof (keeps_add (Some p) (Some (CMem 0 data)) (20 + 6 * n) remote th (Some handle) (tick h)) as Hkeep.
  destruct (pldm_pdr_add _ _ _ _ _ _ _) as [[[rc out] h2]|]; [|done].
  specialize (Hkeep _ _ eq_refl). apply wp_ret. split; [exact Hkeep|].
  destruct (choose (entries l) (Some handle)) as [curr|] eqn:Ecur.
  - destruct Hadd as [[[= -> ->] Hr2]|(c & [= -> ->] & Hr2 & Ecell)]; [by left|right].
    exists c. cbn [set_out default]. change (0 <? 0) with false. cbv iota.
    pose proof (choose_bound (entries l) (Some handle) curr (entries_ok p l h Hr) Hh Ecur) as Hb.
    rewrite Ecell. cbn [e_handle e_data]. split; [exact Hb|]. split; [exact Hr2|]. split; [done|].
    apply stored_record. by eapply choose_handle_value.
  - destruct Hadd as [[= -> ->] ->]. left. split; [done|]. apply tick_repo.
Qed.
End writing.

(** *** The records of a tree *)

(** The records the functions write, in their order: type, node, children. *)
Definition of_node (d : ninfo) (ch : forest) : list (Z * ninfo * forest) :=
  (if count (kids 1 ch) =? 0 then [] else [(1, d, ch)]) ++
  (if count (kids 0 ch) =? 0 then [] else [(0, d, ch)]).

Fixpoint plan (f : forest) : list (Z * ninfo * forest) :=
  match f with Nil => [] | Br _ d ch sib => of_node d ch ++ plan sib ++ plan ch end.

(** Fewer than 255 children of a type everywhere, as the library asserts. *)
Fixpoint narrow (f : forest) : Prop :=
  match f with
  | Nil => True
  | Br _ _ ch sib => count (kids 0 ch) < UINT8_MAX /\ count (kids 1 ch) < UINT8_MAX /\ narrow ch /\ narrow sib
  end.

Definition written (c : cell) (x : Z * ninfo * forest) : Prop :=
  e_data (c_entry c) = association_bytes (record_of (e_handle (c_entry c)) x.1.1 x.1.2 x.2).

(** Room for [k] more records in the counters of the repository. *)
Definition room (l : list cell) (k : Z) : Prop :=
  Z.of_nat (length l) + k <= UINT32_MAX /\ total l + 1600 * k <= UINT32_MAX.

(** What a writer does: records behind those there were; all of them unless it fails. *)
Definition writes (p : positive) (l : list cell) (h : heap) (xs : list (Z * ninfo * forest)) (k : Z)
    (rc : Z) (h' : heap) : Prop :=
  same_forest h h' /\ - EOVERFLOW <= rc <= UINT32_MAX /\
  exists cells, repo_at p (l ++ cells) h' /\ (0 <= rc -> Forall2 written cells xs /\ forall j, room l (k + j) -> room (l ++ cells) j).

Lemma same_forest_trans h1 h2 h3 : same_forest h1 h2 -> same_forest h2 h3 -> same_forest h1 h3.
Proof. intros [] []. split; congruence. Qed.

Lemma room_weaken l k k' : k' <= k -> room l k -> room l k'.
Proof. unfold room. lia. Qed.

Lemma kids_count_nonneg type f : 0 <= count (kids type f).
Proof. unfold count. lia. Qed.

Lemma writes_more p l h xs k k' rc h' : k <= k' -> writes p l h xs k rc h' -> writes p l h xs k' rc h'.
Proof.
  intros Hk (Hs & Hrc & cells & Hr & Hw). split; [done|]. split; [done|]. exists cells. split; [done|].
  intros Hp. destruct (Hw Hp) as [? Hroom]. split; [done|]. intros j Hj. apply Hroom. eapply room_weaken; [|exact Hj]. lia.
Qed.

Section trees.
Context `{Allocator} (p : positive) (remote : bool) (th : Z).

(** One record as a writer. *)
Lemma record_writes l h q d ch sib type handle :
  repo_at p l h -> h_nodes h !! q = Some (node_of d ch sib) -> at_forest (h_nodes h) ch -> NoDup (blocks ch) ->
  1 <= count (kids type ch) < UINT8_MAX -> 0 <= handle <= UINT32_MAX -> room l 1 ->
  wp (entity_association_pdr_add_children (Some q) (Some p) (association_size (count (kids type ch)))
        (count (kids type ch)) type remote th handle) h (writes p l h [(type, d, ch)] 1).
Proof.
  intros Hr E Hc Hn Hk Hh [Hr1 Hr2]. eapply wp_mono; [apply (add_children_ok p l h Hr q d ch sib); try done; lia|].
  intros rc h' [Hs [[Hrc Hr']|(c & Hrc & Hr' & Eh & Ed)]].
  - split; [done|]. split; [lia|]. exists []. rewrite app_nil_r. split; [done|lia].
  - split; [done|]. split; [lia|]. exists [c]. split; [done|]. intros _. split.
    + repeat constructor. unfold written. cbn. by rewrite Ed, Eh.
    + intros j [Hj1 Hj2]. unfold room. rewrite length_app, total_app. cbn.
      unfold e_size. rewrite Ed, association_bytes_length. cbn [record_of as_children]. lia.
Qed.

(** Two writers, one after the other. *)
Lemma writes_then l h xs k ys j rc h1 (m : H Z) :
  writes p l h xs k rc h1 -> 0 <= rc -> room l (k + j) ->
  (forall cells, repo_at p (l ++ cells) h1 -> room (l ++ cells) j -> wp m h1 (writes p (l ++ cells) h1 ys j)) ->
  0 <= k -> 0 <= j ->
  wp m h1 (writes p l h (xs ++ ys) (k + j)).
Proof.
  intros (Hs & Hrc & cells & Hr & Hw) Hpos Hroom Hm Hk Hj. destruct (Hw Hpos) as [Hf Hroom1].
  eapply wp_mono; [apply (Hm cells Hr), Hroom1, Hroom|].
  intros rc' h2 (Hs2 & Hrc2 & cells2 & Hr2 & Hw2). split; [by eapply same_forest_trans|]. split; [done|].
  exists (cells ++ cells2). rewrite app_assoc. split; [done|]. intros Hpos2. destruct (Hw2 Hpos2) as [Hf2 Hroom2].
  split; [by apply Forall2_app|]. intros i Hi. apply Hroom2, Hroom1. eapply room_weaken; [|exact Hi]. lia.
Qed.

(** A writer that stops there. *)
Lemma writes_end l h xs k ys j rc rc' h1 :
  writes p l h xs k rc h1 -> - EOVERFLOW <= rc' -> rc' < 0 -> writes p l h ys j rc' h1.
Proof.
  intros (Hs & _ & cells & Hr & _) ? ?. split; [done|]. split; [lia|]. exists cells. split; [done|lia].
Qed.

Lemma writes_result l h xs k rc rc' h1 :
  writes p l h xs k rc h1 -> 0 <= rc -> 0 <= rc' <= UINT32_MAX -> writes p l h xs k rc' h1.
Proof.
  intros (Hs & _ & cells & Hr & Hw) ? ?. split; [done|]. split; [lia|]. exists cells. split; [done|].
  intros _. by apply Hw.
Qed.

Lemma writes_nothing l h rc :
  repo_at p l h -> - EOVERFLOW <= rc <= UINT32_MAX -> writes p l h [] 0 rc h.
Proof.
  intros Hr ?. split; [done|]. split; [done|]. exists []. rewrite app_nil_r. split; [done|].
  intros _. split; [constructor|]. intros j. by rewrite Z.add_0_l.
Qed.

Lemma add_entry_ok l h q d ch sib handle :
  repo_at p l h -> h_nodes h !! q = Some (node_of d ch sib) -> at_forest (h_nodes h) ch -> NoDup (blocks ch) ->
  count (kids 0 ch) < UINT8_MAX -> count (kids 1 ch) < UINT8_MAX -> 0 <= handle <= UINT32_MAX -> room l 2 ->
  wp (entity_association_pdr_add_entry (Some q) (Some p) remote th handle) h (writes p l h (of_node d ch) 2).
Proof.
  intros Hr E Hc Hn Hn0 Hn1 Hh Hroom. unfold entity_association_pdr_add_entry, of_node.
  pose proof (kids_count_nonneg 0 ch). pose proof (kids_count_nonneg 1 ch).
  eapply wp_step; [eapply (get_num_children_ok h q d ch sib 1); auto|].
  eapply wp_step; [eapply (get_num_children_ok h q d ch sib 0); auto|].
  destruct (Z.eqb_spec (count (kids 1 ch)) 0) as [E1|E1], (Z.eqb_spec (count (kids 0 ch)) 0) as [E0|E0];
    cbn [andb negb app].
  - apply wp_ret. destruct (Z.eqb_spec handle 0); apply (writes_more _ _ _ _ 0 2); try lia; apply writes_nothing; done || lia.
  - eapply wp_step; [reflexivity|]. cbv iota.
    eapply wp_mono; [eapply record_writes; try done; [lia|by eapply room_weaken; [|exact Hroom]]|].
    intros rc h' Hw. by apply (writes_more _ _ _ _ 1 2).
  - apply wp_bind, wp_bind.
    eapply wp_mono; [eapply record_writes; try done; [lia|by eapply room_weaken; [|exact Hroom]]|].
    intros rc h1 Hw. destruct (Z.ltb_spec rc 0).
    + apply wp_ret, wp_ret. by eapply writes_end; [|destruct Hw as (_ & ? & _); lia|].
    + apply wp_ret, wp_ret. apply (writes_more _ _ _ _ 1 2); [lia|].
      by eapply writes_result.
  - apply wp_bind, wp_bind.
    eapply wp_mono; [eapply record_writes; try done; [lia|by eapply room_weaken; [|exact Hroom]]|].
    intros rc h1 Hw. pose proof Hw as (Hs & Hrc & _). destruct (Z.ltb_spec rc 0).
    { apply wp_ret, wp_ret. by eapply writes_end; [exact Hw|lia|]. }
    destruct (Z.leb_spec UINT32_MAX rc).
    { apply wp_ret, wp_ret. by eapply writes_end; [exact Hw|lia|]. }
    apply wp_ret. cbv iota.
    apply (writes_then l h [(1, d, ch)] 1 [(0, d, ch)] 1 rc h1); [exact Hw|done|exact Hroom| |lia|lia].
    intros cells Hr1 Hroom1. destruct Hs as [En _].
    eapply record_writes; rewrite ?En; try done; lia.
Qed.

Lemma add_all_ok fuel f : forall l h handle,
  repo_at p l h -> at_forest (h_nodes h) f -> NoDup (blocks f) -> (depth f <= fuel)%nat -> narrow f ->
  0 <= handle <= UINT32_MAX -> room l (2 * Z.of_nat (length (blocks f))) ->
  wp (entity_association_pdr_add fuel (root f) (Some p) None remote th handle) h
     (writes p l h (plan f) (2 * Z.of_nat (length (blocks f)))).
Proof.
  revert f. induction fuel as [|fuel IH]; intros [|a d ch sib] l h handle Hr Hf Hn Hd Hnar Hh Hroom; cbn in Hd; try lia.
  1,2: apply wp_ret; apply writes_nothing; [done|lia].
  destruct Hf as (E & Hc & Hs). destruct (nodup_br _ _ _ Hn) as (_ & _ & Hns & Hnc & _).
  destruct Hnar as (Hn0 & Hn1 & Hnarc & Hnars). cbn [blocks length] in *. rewrite length_app in *.
  cbn [entity_association_pdr_add root plan]. eapply wp_step; [eapply load_ok, E|].
  cbn [is_present node_of node_entity next_sibling first_child].
  apply wp_bind, wp_bind.
  eapply wp_mono; [eapply (add_entry_ok l h a d ch sib); try done; eapply room_weaken; [|exact Hroom]; lia|].
  intros rc h1 Hw. pose proof Hw as (Hs1 & Hrc & _). apply wp_ret.
  destruct (Z.ltb_spec rc 0); [apply wp_ret; by eapply writes_end; [exact Hw|lia|]|].
  destruct (Z.leb_spec UINT32_MAX rc); [apply wp_ret; by eapply writes_end; [exact Hw|lia|]|].
  set (ks := 2 * Z.of_nat (length (blocks sib))). set (kc := 2 * Z.of_nat (length (blocks ch))).
  replace (2 * Z.of_nat _) with (2 + (ks + kc)) in * by lia.
  apply (writes_then l h _ 2 _ (ks + kc) rc h1); [exact Hw|done|exact Hroom| |lia|lia].
  intros cells Hr1 Hroom1. destruct Hs1 as [En1 _]. apply wp_bind.
  eapply wp_mono; [eapply (IH sib (l ++ cells) h1); rewrite ?En1; try done; [lia|lia|eapply room_weaken; [|exact Hroom1]; lia]|].
  intros rc2 h2 Hw2. fold ks in Hw2. pose proof Hw2 as (Hs2 & Hrc2 & _).
  destruct (Z.ltb_spec rc2 0); [apply wp_ret; by eapply writes_end; [exact Hw2|lia|]|].
  destruct (negb _ && _) eqn:Eov; [apply wp_ret; by eapply writes_end; [exact Hw2|lia|]|].
  apply (writes_then (l ++ cells) h1 _ ks _ kc rc2 h2); [exact Hw2|done|exact Hroom1| |lia|lia].
  intros cells2 Hr2 Hroom2. destruct Hs2 as [En2 _].
  eapply IH; rewrite ?En2, ?En1; try done; [lia|].
  destruct (Z.eqb_spec (rc + 1) rc2); cbn [negb andb] in Eov |- *; lia.
Qed.
End trees.

(** The entities of a forest fit their fields. *)
Fixpoint all_ok (f : forest) : Prop :=
  match f with Nil => True | Br _ d ch sib => entity_ok (ni_entity d) /\ all_ok ch /\ all_ok sib end.

Lemma kids_ok_entities type f : all_ok f -> Forall entity_ok (kids type f).
Proof.
  induction f as [|a d ch _ sib IH]; [constructor|]. cbn [all_ok]. intros (Hd & _ & Hs). rewrite kids_cons.
  destruct (ni_type d =? type); [constructor|]; auto.
Qed.

Lemma plan_ok f x :
  all_ok f -> narrow f -> x ∈ plan f ->
  entity_ok (ni_entity x.1.2) /\ all_ok x.2 /\ (x.1.1 = 0 \/ x.1.1 = 1) /\ 1 <= count (kids x.1.1 x.2) < UINT8_MAX.
Proof.
  induction f as [|a d ch IHc sib IHs]; cbn [plan all_ok narrow]; [by intros _ _ ?%elem_of_nil|].
  intros (Hd & Hc & Hs) (Hn0 & Hn1 & Hnc & Hns). rewrite !elem_of_app. intros [Hx|[Hx|Hx]]; [|auto..].
  unfold of_node in Hx. apply elem_of_app in Hx as [Hx|Hx].
  - destruct (Z.eqb_spec (count (kids 1 ch)) 0); [by apply elem_of_nil in Hx|].
    apply list_elem_of_singleton in Hx as ->. cbn [fst snd]. pose proof (kids_count_nonneg 1 ch). split_and!; auto; lia.
  - destruct (Z.eqb_spec (count (kids 0 ch)) 0); [by apply elem_of_nil in Hx|].
    apply list_elem_of_singleton in Hx as ->. cbn [fst snd]. pose proof (kids_count_nonneg 0 ch). split_and!; auto; lia.
Qed.

Lemma Forall2_impl_mem {A B} (P Q : A -> B -> Prop) l k :
  Forall2 P l k -> (forall x y, x ∈ l -> y ∈ k -> P x y -> Q x y) -> Forall2 Q l k.
Proof.
  induction 1 as [|x y l k Hxy _ IH]; intros Hi; constructor.
  - apply Hi; [by left|by left|done].
  - apply IH. intros. apply Hi; [by right|by right|done].
Qed.

(** What the parser gives for a record the library wrote. *)
Definition reads_back (c : cell) (x : Z * ninfo * forest) : Prop :=
  pldm_entity_association_pdr_extract (Some (c_mem c)) (e_size (c_entry c)) true true
  = Ok (Some (count (kids x.1.1 x.2) + 1, ni_entity x.1.2 :: kids x.1.1 x.2)).

Lemma written_reads_back c x :
  cell_ok c -> written c x -> entity_ok (ni_entity x.1.2) -> all_ok x.2 -> x.1.1 = 0 \/ x.1.1 = 1 ->
  1 <= count (kids x.1.1 x.2) < UINT8_MAX -> reads_back c x.
Proof.
  intros [Hentry Ha He] Hw Hd Hch Ht Hn. unfold written in Hw. set (a := record_of _ _ _ _) in Hw.
  assert (association_ok a) as Hok.
  { split; cbn [a record_of as_handle as_version as_change as_id as_kind as_container as_children]; try lia; try done.
    - destruct Hentry. lia.
    - destruct x as [[type d] ch]. cbn in *. destruct ch as [|b d' c' s']; cbn [child_id]; [lia|].
      destruct Hch as ((_ & _ & ?) & _). unfold ni_container. lia.
    - by apply kids_ok_entities. }
  unfold reads_back. pose proof (association_bytes_length a) as Hl. unfold e_size in *. rewrite Hw in *.
  cbn [a record_of as_children] in Hl.
  change (count (kids x.1.1 x.2)) with (count (as_children a)).
  change (ni_entity x.1.2 :: kids x.1.1 x.2) with (as_container a :: as_children a).
  apply extract_association; [done| |cbn; lia].
  unfold c_mem. rewrite Hw. apply holds_exact; lia.
Qed.

(** C21: pldm_entity_association_pdr_add ends without fault on every tree whose nodes
    have fewer than 255 children of each association type, and leaves the tree alone.
    When it returns 0 the repository has gained, behind the records it had, one record
    for each node and type of association it has children of, parents before siblings
    before children, logical before physical; and pldm_entity_association_pdr_extract
    on each of them gives back the node and those children in their order. *)
Theorem tree_to_pdrs_and_back `{Allocator} t p h f last l remote th :
  tree_at t h f last -> repo_at p l h -> narrow f -> all_ok f -> room l (2 * Z.of_nat (length (blocks f))) ->
  wp (pldm_entity_association_pdr_add (Some t) (Some p) remote th) h (fun rc h' =>
    same_forest h h' /\ rc <= 0 /\
    exists cells, repo_at p (l ++ cells) h' /\ (rc = 0 -> Forall2 reads_back cells (plan f))).
Proof.
  intros [Et Hf Hn _ _] Hr Hnar Hok Hroom. unfold pldm_entity_association_pdr_add.
  eapply wp_step; [eapply load_ok; exact Et|]. eapply wp_step; [reflexivity|]. cbn [tree_root].
  apply wp_bind. eapply wp_mono.
  { apply (add_all_ok p remote th _ f l h 0); try done. pose proof (depth_size _ _ Hf Hn). lia. }
  intros rc h' (Hs & Hrc & cells & Hr' & Hw). eapply wp_step.
  { unfold lift, c_assert, INT_MIN. rewrite (proj2 (Z.leb_le _ _)) by lia. reflexivity. }
  apply wp_ret. split; [done|]. split; [by destruct (Z.ltb_spec rc 0); lia|]. exists cells. split; [done|].
  intros Hz. destruct (Hw ltac:(destruct (Z.ltb_spec rc 0); lia)) as [Hfor _].
  apply (Forall2_impl_mem _ _ _ _ Hfor). intros c x Hc Hx Hcx.
  destruct (plan_ok f x Hok Hnar Hx) as (? & ? & ? & ?). apply written_reads_back; try done.
  pose proof (ra_cells _ _ _ Hr') as Hcells. rewrite Forall_elem in Hcells. apply Hcells.
  apply elem_of_app. by right.
Qed.

(** ** A search that stops early *)

Lemma search_short m size same entity :
  size < PDR_ENTITY_ASSOCIATION_MIN_SIZE -> search_record m size same entity = Ok (- EOVERFLOW, false).
Proof.
  intros Hs. unfold search_record, msgbuf_scope, pldm_msgbuf_ro_init_errno, pldm__msgbuf_init_errno.
  unfold mbind at 2, outcome_bind, mbind, stM_bind, outcome_bind. rewrite (proj2 (Z.ltb_lt _ _)) by done. done.
Qed.

(** pldm_entity_association_pdr_remove_contained_entity gives up at the first record
    shorter than an entity association PDR, whatever the record's type and wherever the
    entity is: with, say, a FRU record set (20 bytes) in front, no entity can be removed.
    The repository stays as it is. *)
Theorem association_search_stops `{Allocator} p c l h entity remote handle :
  repo_at p (c :: l) h -> e_size (c_entry c) < PDR_ENTITY_ASSOCIATION_MIN_SIZE ->
  pldm_entity_association_pdr_remove_contained_entity (Some p) (Some entity) remote (Some handle) h
  = Ok ((- EOVERFLOW, Some handle), h).
Proof.
  intros Hr Hs. unfold pldm_entity_association_pdr_remove_contained_entity.
  eapply run_step; [by apply (load_repo p (c :: l))|]. cbn [repo_first head_ptr].
  eapply (run_step _ _ _ (- EOVERFLOW, handle)); [|done].
  unfold pldm_entity_association_find_record_handle_by_entity.
  eapply run_step; [by apply (load_repo p (c :: l))|]. cbn [repo_first head_ptr].
  eapply (run_step _ _ _ (Some (- EOVERFLOW, handle))); [|done].
  unfold for_records. eapply run_step; [reflexivity|]. cbn [walk].
  eapply run_step; [by apply (load_rec p (c :: l) h Hr [] c l)|].
  eapply (run_step _ _ _ (Some (- EOVERFLOW, handle))); [|done].
  eapply run_step; [apply (load_buf p (c :: l) h Hr); by left|]. cbn [rec_of rec_size].
  eapply (run_step _ _ _ (- EOVERFLOW, false)); [|done]. unfold lift. by rewrite search_short.
Qed.

(** ** Concrete inputs *)

Definition sample_association : association :=
  Assoc 7 1 0 3 0 (Entity 45 1 0) [Entity 29 1 3; Entity 29 2 3].

Lemma zeros_mem ad n : 0 <= ad -> 0 <= n -> ad + n <= INTMAX_MAX -> mem_ok (CMem ad (zeros n)).
Proof.
  intros. pose proof (zeros_length n ltac:(lia)). split; unfold mem_size; cbn [addr bytes]; try lia. apply zeros_ok.
Qed.

Lemma association_edit_roundtrip_witness :
  let a := sample_association in
  let old := CMem 0 (association_bytes a) in
  let new := CMem 64 (zeros 38) in
  pldm_entity_association_pdr_extract (Some old) 32 true true
  = Ok (Some (3, [Entity 45 1 0; Entity 29 1 3; Entity 29 2 3])) /\
  edit_scope new old (grow_record old 32 38 (Entity 33 1 3) new)
  = Ok (0, CMem 64 (association_bytes (more_child a (Entity 33 1 3)))).
Proof.
  cbv zeta.
  pose proof (association_edit_roundtrip sample_association (Entity 33 1 3)
    (CMem 0 (association_bytes sample_association)) (CMem 64 (zeros 38)) (CMem 128 (zeros 32))) as Hc.
  cbv zeta in Hc. change (Z.of_nat (length (association_bytes sample_association))) with 32 in Hc.
  destruct Hc as (He & Hg & _).
  - split; try (unfold count, entity_ok; cbn; lia).
    repeat (apply list.Forall_cons; split; [unfold entity_ok; cbn; lia|]). constructor.
  - repeat split; cbn; lia.
  - reflexivity.
  - cbn. rewrite !not_elem_of_cons. split_and!; [discriminate..|apply not_elem_of_nil].
  - apply holds_exact; cbn; lia.
  - apply zeros_mem; lia.
  - reflexivity.
  - apply zeros_mem; lia.
  - reflexivity.
  - split; [exact He|exact Hg].
Defined.

(** The sample tree with an empty repository next to it. *)
Definition sample_both : heap := heap_after (pldm_pdr_init (H0 := sample_alloc)) sample_heap.

Definition sample_pdrs : Z * heap :=
  match pldm_entity_association_pdr_add (H0 := sample_alloc) (Some 1%positive) (Some 5%positive) false 9 sample_both with
  | Ok r => r
  | Fault _ => (1, sample_both)
  end.

Lemma sample_both_tree : tree_at 1 sample_both sample_forest 1.
Proof.
  split.
  - by vm_compute.
  - by vm_compute.
  - apply (bool_decide_unpack _). by vm_compute.
  - apply names_below_dec. by vm_compute.
  - apply names_below_dec. by vm_compute.
Qed.

Lemma sample_both_repo : repo_at 5 [] sample_both.
Proof.
  assert (h_recs sample_both = ∅) as Er by reflexivity. assert (h_bufs sample_both = ∅) as Eb by reflexivity.
  split; rewrite ?Er, ?Eb; try done; try constructor; try (apply names_below_dec; reflexivity).
Qed.

Lemma tree_to_pdrs_and_back_witness :
  tree_at 1 sample_both sample_forest 1 /\ repo_at 5 [] sample_both /\
  exists c,
    repo_at 5 [c] sample_pdrs.2 /\
    pldm_entity_association_pdr_extract (Some (c_mem c)) (e_size (c_entry c)) true true
    = Ok (Some (3, [Entity 45 1 0; Entity 29 1 1; Entity 29 2 1])).
Proof.
  split; [exact sample_both_tree|]. split; [exact sample_both_repo|].
  pose proof (tree_to_pdrs_and_back (H0 := sample_alloc) 1 5 sample_both sample_forest 1 [] false 9
    sample_both_tree sample_both_repo) as Hc.
  assert (pldm_entity_association_pdr_add (H0 := sample_alloc) (Some 1%positive) (Some 5%positive) false 9 sample_both
    = Ok (0, sample_pdrs.2)) as E by (vm_compute; reflexivity).
  unfold wp in Hc. rewrite E in Hc. destruct Hc as (_ & _ & cells & Hr & Hw).
  - cbn. split_and!; reflexivity.
  - cbn. unfold entity_ok. cbn. lia.
  - unfold room. cbn. lia.
  - specialize (Hw eq_refl). change (plan sample_forest) with
      [(0, NInfo (Entity 45 1 0) zero_entity 0 0, Br 3 (NInfo (Entity 29 1 1) (Entity 45 1 0) 1 0) Nil
         (Br 4 (NInfo (Entity 29 2 1) (Entity 45 1 0) 0 0) Nil Nil))] in Hw.
    inversion Hw as [|c x cells' xs Hc Hnil]; subst. inversion Hnil; subst. exists c. split; [exact Hr|exact Hc].
Defined.

(** A FRU record set in an otherwise empty repository. *)
Definition sample_fru : heap :=
  heap_after (pldm_pdr_add_fru_record_set (H0 := sample_alloc) (Some 1%positive) 1 1 1 1 1 (Some 0))
    (heap_after (pldm_pdr_init (H0 := sample_alloc)) empty_heap).

Definition sample_fru_cell : cell :=
  Cell 2 3 4096 (Entry 1 [1; 0; 0; 0; 1; 20; 0; 0; 10; 0; 1; 0; 1; 0; 1; 0; 1; 0; 1; 0] false 1).

Lemma sample_fru_repo : repo_at 1 [sample_fru_cell] sample_fru.
Proof.
  split; try (by vm_compute); try (apply names_below_dec; by vm_compute).
  - apply list.Forall_cons. split; [by vm_compute|constructor].
  - apply list.Forall_cons. split; [|constructor].
    split; [split|..]; unfold e_size; cbn; try lia.
    repeat (apply list.Forall_cons; split; [unfold byte_ok; lia|]). constructor.
  - repeat constructor. apply not_elem_of_nil.
  - repeat constructor. apply not_elem_of_nil.
Qed.

Lemma association_search_stops_witness :
  repo_at 1 [sample_fru_cell] sample_fru /\
  pldm_entity_association_pdr_remove_contained_entity (H0 := sample_alloc) (Some 1%positive)
    (Some (Entity 29 1 1)) false (Some 5) sample_fru
  = Ok ((- EOVERFLOW, Some 5), sample_fru).
Proof.
  split; [exact sample_fru_repo|].
  apply (association_search_stops (H0 := sample_alloc) 1 sample_fru_cell []); [exact sample_fru_repo|unfold e_size; cbn; lia].
Defined.
