(* ===== verification/InstanceId.v ===== *)
(** * Instance ids (src/requester/instance-id.c)

    Requesters of one machine share a lock file with one byte per terminus and
    instance id.  A requester owns an id while it holds the only lock on its byte.
    The functions are programs over fcntl(2) calls on an open file description; the
    kernel's locks are an interface with the documented behaviour of open file
    description locks as its laws, and any number of requesters run interleaved. *)

From stdpp Require Import gmap.
From S2P Require Import Prelude.

Local Open Scope Z_scope.

Abbreviation PLDM_TID_MAX := 256 (only parsing).
Abbreviation PLDM_INST_ID_MAX := 32 (only parsing).

Definition BIT (i : Z) : Z := Z.shiftl 1 i.

(** struct pldm_tid_state, and the array of them by tid. *)
Record pldm_tid_state := TidState { prev : Z; allocations : Z }.
Abbreviation pldm_instance_db := (Z -> pldm_tid_state) (only parsing).

Definition set_tid (ctx : pldm_instance_db) (tid : Z) (s : pldm_tid_state) : pldm_instance_db :=
  fun t => if t =? tid then s else ctx t.

Definition iid_next (cur : Z) : Z := (cur + 1) mod PLDM_INST_ID_MAX.

(** ** Programs over fcntl *)

(** The calls on [lock_db_fd], each for the one byte at an offset: a shared lock
    (F_OFD_SETLK, F_RDLCK), a query for an exclusive one (F_OFD_GETLK, F_WRLCK), an
    unlock (F_OFD_SETLK, F_UNLCK). *)
Inductive fcntl_call :=
  | set_rdlck (off : Z)
  | get_wrlck (off : Z)
  | set_unlck (off : Z).

(** l_type of the queried lock. *)
Inductive lock_type := F_RDLCK | F_WRLCK | F_UNLCK.

#[export] Instance lock_type_eq_dec : EqDecision lock_type.
Proof. solve_decision. Defined.

(** What a call answers: 0, with the lock type where it queries, or errno. *)
Inductive fcntl_reply :=
  | granted (type : lock_type)
  | failed (errno : Z).

Inductive prog (A : Type) :=
  | Ret (a : A)
  | Call (c : fcntl_call) (k : fcntl_reply -> prog A).
Arguments Ret {A} a.
Arguments Call {A} c k.

(** [errno == EAGAIN || errno == EINTR]. *)
Definition errno_code (errno : Z) : Z :=
  if (errno =? EAGAIN) || (errno =? EINTR) then - EAGAIN else - EPROTO.

Definition offset (tid iid : Z) : Z := tid * PLDM_INST_ID_MAX + iid.

(** *** Allocation and release

    A result: the code, the id stored through [iid], the state afterwards. *)

Definition id_result : Type := Z * option Z * pldm_instance_db.

(** The label release_cfls: unlock, then the code so far or the next id. *)
Definition release_cfls (ctx : pldm_instance_db) (off rc : Z) (continue : prog id_result) : prog id_result :=
  Call (set_unlck off) (fun r =>
    match r with
    | failed e => Ret (errno_code e, None, ctx)
    | granted _ => if rc <? 0 then Ret (rc, None, ctx) else continue
    end).

Definition claim (ctx : pldm_instance_db) (tid iid : Z) : pldm_instance_db :=
  set_tid ctx tid (TidState iid (Z.lor (allocations (ctx tid)) (BIT iid))).

(** The loop; [fuel] is more than the ids there are. *)
Fixpoint alloc_loop (fuel : nat) (ctx : pldm_instance_db) (tid l_iid : Z) : prog id_result :=
  match fuel with
  | O => Ret (- EAGAIN, None, ctx)
  | S fuel =>
      let l_iid := iid_next l_iid in
      if l_iid =? prev (ctx tid) then Ret (- EAGAIN, None, ctx)
      else if negb (Z.land (allocations (ctx tid)) (BIT l_iid) =? 0) then alloc_loop fuel ctx tid l_iid
      else
        let loff := offset tid l_iid in
        Call (set_rdlck loff) (fun r =>
          match r with
          | failed e => Ret (errno_code e, None, ctx)
          | granted _ =>
              Call (get_wrlck loff) (fun r =>
                match r with
                | failed e => release_cfls ctx loff (errno_code e) (alloc_loop fuel ctx tid l_iid)
                | granted F_UNLCK => Ret (0, Some l_iid, claim ctx tid l_iid)
                | granted F_RDLCK => release_cfls ctx loff 0 (alloc_loop fuel ctx tid l_iid)
                | granted F_WRLCK => release_cfls ctx loff (- EPROTO) (alloc_loop fuel ctx tid l_iid)
                end)
          end)
  end.

(** With both pointers there. *)
Definition alloc_body (ctx : pldm_instance_db) (tid : Z) : prog id_result :=
  let l_iid := prev (ctx tid) in
  if PLDM_INST_ID_MAX <=? l_iid then Ret (- EPROTO, None, ctx) else alloc_loop 33 ctx tid l_iid.

Definition free_body (ctx : pldm_instance_db) (tid iid : Z) : prog id_result :=
  if Z.land (allocations (ctx tid)) (BIT iid) =? 0 then Ret (- EINVAL, None, ctx)
  else
    Call (set_unlck (offset tid iid)) (fun r =>
      match r with
      | failed e => Ret (errno_code e, None, ctx)
      | granted _ =>
          Ret (0, None, set_tid ctx tid (TidState (prev (ctx tid))
                          (u32 (Z.ldiff (allocations (ctx tid)) (BIT iid)))))
      end).

(** [None] for a NULL pointer. *)
Definition pldm_instance_id_alloc (ctx : option pldm_instance_db) (tid : Z) (iid : option Z)
  : Z + prog id_result :=
  match ctx, iid with
  | Some ctx, Some _ => inr (alloc_body ctx tid)
  | _, _ => inl (- EINVAL)
  end.

Definition pldm_instance_id_free (ctx : option pldm_instance_db) (tid iid : Z) : Z + prog id_result :=
  match ctx with
  | Some ctx => inr (free_body ctx tid iid)
  | None => inl (- EINVAL)
  end.

(** *** The database object

    [size]: what stat(2) says of the file, [mem]: whether calloc succeeded, [fd] and
    [errno]: what open(2) did.  The result: the code and what [*ctx] becomes. *)
Definition db_init_state : pldm_instance_db := fun _ => TidState 31 0.

Definition pldm_instance_db_init (ctx : option (option pldm_instance_db)) (size : option Z) (mem : bool)
    (fd errno : Z) : Z * option (option pldm_instance_db) :=
  match ctx with
  | Some None =>
      match size with
      | None => (- EINVAL, ctx)
      | Some size =>
          if size <? PLDM_TID_MAX * PLDM_INST_ID_MAX then (- EINVAL, ctx)
          else if negb mem then (- ENOMEM, ctx)
          else if fd <? 0 then (- errno, ctx)
          else (0, Some (Some db_init_state))
      end
  | _ => (- EINVAL, ctx)
  end.

(** ** The lock file

    Requesters are named by numbers, one per open file description.  [holds l r off]:
    requester [r] has a shared lock on byte [off].  Nobody takes an exclusive one: the
    file is opened read-only. *)

Class LockFile := {
  locks : Type;
  holds : locks -> nat -> Z -> bool;
  unlocked : locks;
  (** [answers l r c a l']: the kernel may answer requester [r]'s call [c] with [a]. *)
  answers : locks -> nat -> fcntl_call -> fcntl_reply -> locks -> Prop;
  holds_unlocked : forall r off, holds unlocked r off = false;
  (** A call that fails changes nothing. *)
  failed_same : forall l r c e l', answers l r c (failed e) l' -> forall r' off, holds l' r' off = holds l r' off;
  (** A call only changes the caller's lock on the byte named. *)
  rdlck_granted : forall l r off t l', answers l r (set_rdlck off) (granted t) l' ->
    forall r' off', holds l' r' off' = if decide (r' = r /\ off' = off) then true else holds l r' off';
  unlck_granted : forall l r off t l', answers l r (set_unlck off) (granted t) l' ->
    forall r' off', holds l' r' off' = if decide (r' = r /\ off' = off) then false else holds l r' off';
  (** A query changes nothing and answers F_UNLCK only if no other description has a
      conflicting lock. *)
  wrlck_same : forall l r off t l', answers l r (get_wrlck off) (granted t) l' ->
    forall r' off', holds l' r' off' = holds l r' off';
  wrlck_free : forall l r off l', answers l r (get_wrlck off) (granted F_UNLCK) l' ->
    forall r', r' <> r -> holds l r' off = false
}.

(** ** Requesters, interleaved *)

Inductive activity :=
  | Idle
  | Allocating (tid : Z) (p : prog id_result)
  | Freeing (tid iid : Z) (p : prog id_result).

Section requesters.
Context `{LockFile}.

Record world := World {
  w_locks : locks;
  w_db : nat -> pldm_instance_db;
  w_act : nat -> activity
}.

Definition upd {A} (f : nat -> A) (r : nat) (a : A) : nat -> A :=
  fun r' => if decide (r' = r) then a else f r'.

(** One requester does one thing: calls a function, makes the next fcntl call of the
    one it is in, or returns from it.  Ids are those PLDM has: BIT is not defined in C
    from 64 on. *)
Inductive step : world -> world -> Prop :=
  | step_alloc l db act r tid :
      act r = Idle -> 0 <= tid < PLDM_TID_MAX ->
      step (World l db act) (World l db (upd act r (Allocating tid (alloc_body (db r) tid))))
  | step_free l db act r tid iid :
      act r = Idle -> 0 <= tid < PLDM_TID_MAX -> 0 <= iid < PLDM_INST_ID_MAX ->
      step (World l db act) (World l db (upd act r (Freeing tid iid (free_body (db r) tid iid))))
  | step_alloc_call l db act r tid c k a l' :
      act r = Allocating tid (Call c k) -> answers l r c a l' ->
      step (World l db act) (World l' db (upd act r (Allocating tid (k a))))
  | step_free_call l db act r tid iid c k a l' :
      act r = Freeing tid iid (Call c k) -> answers l r c a l' ->
      step (World l db act) (World l' db (upd act r (Freeing tid iid (k a))))
  | step_alloc_done l db act r tid rc out ctx :
      act r = Allocating tid (Ret (rc, out, ctx)) ->
      step (World l db act) (World l (upd db r ctx) (upd act r Idle))
  | step_free_done l db act r tid iid rc out ctx :
      act r = Freeing tid iid (Ret (rc, out, ctx)) ->
      step (World l db act) (World l (upd db r ctx) (upd act r Idle)).

Inductive reachable : world -> Prop :=
  | reach_start : reachable (World unlocked (fun _ => db_init_state) (fun _ => Idle))
  | reach_step w w' : reachable w -> step w w' -> reachable w'.

(** Requester [r] has instance id [iid] of [tid]: it was allocated and is not being
    freed. *)
Definition has_id (w : world) (r : nat) (tid iid : Z) : Prop :=
  0 <= iid < PLDM_INST_ID_MAX /\ Z.testbit (allocations (w_db w r tid)) iid = true /\
  match w_act w r with Freeing t i _ => ~ (t = tid /\ i = iid) | _ => True end.
End requesters.

(** ** Who owns what *)

(** The bytes of the ids a database has allocated. *)
Definition owned (ctx : pldm_instance_db) (off : Z) : Prop :=
  exists tid iid, 0 <= iid < PLDM_INST_ID_MAX /\ off = offset tid iid /\
    Z.testbit (allocations (ctx tid)) iid = true.

Lemma offset_inj tid iid tid' iid' :
  0 <= iid < PLDM_INST_ID_MAX -> 0 <= iid' < PLDM_INST_ID_MAX ->
  offset tid iid = offset tid' iid' -> tid = tid' /\ iid = iid'.
Proof. unfold offset. lia. Qed.

Lemma iid_next_range i : 0 <= iid_next i < PLDM_INST_ID_MAX.
Proof. unfold iid_next. apply Z.mod_pos_bound. lia. Qed.

Lemma bit_clear a i : 0 <= i -> Z.land a (BIT i) = 0 <-> Z.testbit a i = false.
Proof.
  intros Hi. unfold BIT. rewrite Z.shiftl_1_l. split.
  - intros E. assert (Z.testbit (Z.land a (2 ^ i)) i = false) as Ht by (rewrite E; apply Z.bits_0).
    rewrite Z.land_spec, Z.pow2_bits_true in Ht by done. by rewrite andb_true_r in Ht.
  - intros Ht. apply Z.bits_inj_0. intros n. rewrite Z.land_spec. destruct (Z.eq_dec n i) as [->|Hn].
    + by rewrite Ht.
    + rewrite Z.pow2_bits_false by lia. apply andb_false_r.
Qed.

Lemma owned_claim ctx tid iid o :
  0 <= iid < PLDM_INST_ID_MAX -> owned (claim ctx tid iid) o -> owned ctx o \/ o = offset tid iid.
Proof.
  intros Hi (t & i & Hr & -> & Ht). unfold claim, set_tid in Ht.
  destruct (Z.eqb_spec t tid) as [->|Hne]; [|left; by exists t, i].
  cbn in Ht. rewrite Z.lor_spec in Ht. unfold BIT in Ht. rewrite Z.shiftl_1_l in Ht.
  destruct (Z.eq_dec i iid) as [->|Hn]; [by right|].
  rewrite Z.pow2_bits_false, orb_false_r in Ht by lia. left. by exists tid, i.
Qed.

Lemma not_owned ctx tid iid :
  0 <= iid < PLDM_INST_ID_MAX -> Z.testbit (allocations (ctx tid)) iid = false -> ~ owned ctx (offset tid iid).
Proof.
  intros Hi Ht (t & i & Hr & E & Ht'). apply offset_inj in E as [-> ->]; [congruence|done|done].
Qed.

Lemma owned_released ctx tid iid o :
  0 <= iid < PLDM_INST_ID_MAX ->
  owned (set_tid ctx tid (TidState (prev (ctx tid)) (u32 (Z.ldiff (allocations (ctx tid)) (BIT iid))))) o ->
  owned ctx o /\ o <> offset tid iid.
Proof.
  intros Hi (t & i & Hr & -> & Ht). unfold set_tid in Ht.
  destruct (Z.eqb_spec t tid) as [->|Hne].
  - cbn in Ht. unfold u32 in Ht. change 4294967296 with (2 ^ 32) in Ht.
    rewrite Z.mod_pow2_bits_low, Z.ldiff_spec in Ht by lia. apply andb_true_iff in Ht as [Ht Hb].
    split; [by exists tid, i|]. intros [_ ->]%offset_inj; [|done..].
    unfold BIT in Hb. by rewrite Z.shiftl_1_l, Z.pow2_bits_true in Hb by lia.
  - split; [by exists t, i|]. intros [-> _]%offset_inj; done.
Qed.

(** A program that may run with locks on the bytes [K], of which [O] are its own and
    [D] are not to be given up: in the end it owns what its database says. *)
Fixpoint good (D K O : Z -> Prop) (p : prog id_result) : Prop :=
  match p with
  | Ret (_, _, ctx) => forall o, owned ctx o -> O o
  | Call (set_rdlck off) k =>
      (forall t, good D (fun o => K o \/ o = off) O (k (granted t))) /\ forall e, good D K O (k (failed e))
  | Call (get_wrlck off) k =>
      K off /\
      good D K (fun o => O o \/ o = off) (k (granted F_UNLCK)) /\
      (forall t, good D K O (k (granted t)) \/ t = F_UNLCK) /\ forall e, good D K O (k (failed e))
  | Call (set_unlck off) k =>
      ~ D off /\
      (forall t, good D (fun o => K o /\ o <> off) (fun o => O o /\ o <> off) (k (granted t))) /\
      forall e, good D K O (k (failed e))
  end.

Lemma release_good ctx tid iid rc (D K O : Z -> Prop) p :
  0 <= iid < PLDM_INST_ID_MAX -> Z.testbit (allocations (ctx tid)) iid = false ->
  (forall o, owned ctx o -> O o) -> (forall o, D o -> owned ctx o) ->
  (rc < 0 \/ good D (fun o => K o /\ o <> offset tid iid) (fun o => O o /\ o <> offset tid iid) p) ->
  good D K O (release_cfls ctx (offset tid iid) rc p).
Proof.
  intros Hi Hb HO HD Hp. pose proof (not_owned ctx tid iid Hi Hb) as Hno. cbn. split_and!.
  - intros HDo. by apply Hno, HD.
  - intros _. destruct (Z.ltb_spec rc 0); [|by destruct Hp as [|Hp]; [lia|]].
    cbn. intros o Ho. split; [auto|]. by intros ->.
  - intros _. cbn. auto.
Qed.

Lemma alloc_loop_good fuel ctx tid : forall l_iid (D K O : Z -> Prop),
  (forall o, owned ctx o -> O o) -> (forall o, D o -> owned ctx o) ->
  good D K O (alloc_loop fuel ctx tid l_iid).
Proof.
  induction fuel as [|fuel IH]; intros l D K O HO HD; [exact HO|]. cbn [alloc_loop].
  pose proof (iid_next_range l) as Hi. set (i := iid_next l) in *.
  destruct (i =? prev (ctx tid)); [exact HO|].
  destruct (Z.eqb_spec (Z.land (allocations (ctx tid)) (BIT i)) 0) as [Hb|Hb]; cbn [negb]; [|by apply IH].
  apply bit_clear in Hb; [|lia]. pose proof (not_owned ctx tid i Hi Hb) as Hno.
  assert (forall K' rc, good D K' O (release_cfls ctx (offset tid i) rc (alloc_loop fuel ctx tid i))) as Hrel.
  { intros K' rc. apply release_good; [done..|]. right. apply IH; [|done].
    intros o Ho. split; [auto|]. by intros ->. }
  cbn [good]. split; [|intros e o; apply HO]. intros _. split; [by right|]. split; [|split].
  - cbn. intros o Ho. apply owned_claim in Ho as [Ho| ->]; [left; auto|by right|done].
  - intros []; [left; apply Hrel..|by right].
  - intros e. apply Hrel.
Qed.

Lemma alloc_good ctx tid (D K O : Z -> Prop) :
  (forall o, owned ctx o -> O o) -> (forall o, D o -> owned ctx o) -> good D K O (alloc_body ctx tid).
Proof. intros HO HD. unfold alloc_body. case_match; [exact HO|by apply alloc_loop_good]. Qed.

Lemma free_good ctx tid iid (D K O : Z -> Prop) :
  0 <= iid < PLDM_INST_ID_MAX -> (forall o, owned ctx o -> O o) -> ~ D (offset tid iid) ->
  good D K O (free_body ctx tid iid).
Proof.
  intros Hi HO HD. unfold free_body. case_match; [exact HO|]. cbn. split_and!; [done| |intros _; exact HO].
  intros _ o Ho. apply owned_released in Ho as [? ?]; [|done]. auto.
Qed.

(** ** Mutual exclusion *)

Section exclusion.
Context `{LockFile}.

(** The bytes requester [r] has ids of and is not giving up. *)
Definition kept (w : world) (r : nat) (o : Z) : Prop := exists tid iid, has_id w r tid iid /\ o = offset tid iid.

Record exclusive (w : world) (K O : nat -> Z -> Prop) : Prop := {
  ex_held : forall r o, K r o -> holds (w_locks w) r o = true;
  ex_own : forall r o, O r o -> K r o;
  ex_apart : forall r r' o, O r o -> O r' o -> r = r';
  ex_kept : forall r o, kept w r o -> O r o;
  ex_run : forall r, match w_act w r with
                     | Idle => forall o, owned (w_db w r) o -> O r o
                     | Allocating _ p | Freeing _ _ p => good (kept w r) (K r) (O r) p
                     end
}.

Lemma kept_owned w r o : kept w r o -> owned (w_db w r) o.
Proof. intros (tid & iid & (Hi & Hb & _) & ->). by exists tid, iid. Qed.

Lemma upd_same {A} (f : nat -> A) r a : upd f r a r = a.
Proof. unfold upd. by rewrite decide_True. Qed.

Lemma upd_other {A} (f : nat -> A) r a r' : r' <> r -> upd f r a r' = f r'.
Proof. intros. unfold upd. by rewrite decide_False. Qed.

Lemma kept_other l l' (db db' : nat -> pldm_instance_db) act act' r' o :
  db' r' = db r' -> act' r' = act r' -> kept (World l' db' act') r' o <-> kept (World l db act) r' o.
Proof. intros Ed Ea. unfold kept, has_id. cbn. by rewrite Ed, Ea. Qed.

Lemma good_ext D D' K O p : (forall o, D o <-> D' o) -> good D K O p -> good D' K O p.
Proof.
  intros HD. revert K O. induction p as [[[? ?] ?]|c k IH]; intros K O; [done|]. destruct c; cbn.
  - intros [H1 H2]. split; intros; apply IH; auto.
  - intros (H1 & H2 & H3 & H4). split_and!; auto. intros t. destruct (H3 t); auto.
  - intros (H1 & H2 & H3). rewrite <- HD. split_and!; auto.
Qed.

(** A requester's own step: its new bytes, and nobody else's changed. *)
Lemma exclusive_step l l' db act db' act' K O r K' O' :
  exclusive (World l db act) K O ->
  (forall r', r' <> r -> db' r' = db r' /\ act' r' = act r') ->
  (forall r' o, r' <> r -> holds l r' o = true -> holds l' r' o = true) ->
  (forall o, K' o -> holds l' r o = true) -> (forall o, O' o -> K' o) ->
  (forall o r', O' o -> r' <> r -> ~ O r' o) ->
  (forall o, kept (World l' db' act') r o -> O' o) ->
  match act' r with
  | Idle => forall o, owned (db' r) o -> O' o
  | Allocating _ p | Freeing _ _ p => good (kept (World l' db' act') r) K' O' p
  end ->
  exclusive (World l' db' act') (upd K r K') (upd O r O').
Proof.
  intros [Hh Ho Ha Hk Hr] Hother Hlocks HK' HO' Hap Hkept Hrun. cbn in *.
  assert (forall r' o, r' <> r -> kept (World l' db' act') r' o <-> kept (World l db act) r' o) as Hsame.
  { intros r' o Hne. destruct (Hother r' Hne). by apply kept_other. }
  constructor; cbn.
  - intros r' o. destruct (decide (r' = r)) as [->|Hne]; [rewrite upd_same; apply HK'|].
    rewrite upd_other by done. intros. apply Hlocks; auto.
  - intros r' o. destruct (decide (r' = r)) as [->|Hne]; [rewrite !upd_same; apply HO'|].
    rewrite !upd_other by done. auto.
  - intros r1 r2 o. destruct (decide (r1 = r)) as [->|H1], (decide (r2 = r)) as [->|H2];
      rewrite ?upd_same, ?upd_other by done; intros; try done.
    + exfalso. by eapply Hap.
    + exfalso. by eapply Hap.
    + by eapply Ha.
  - intros r' o. destruct (decide (r' = r)) as [->|Hne]; [rewrite upd_same; apply Hkept|].
    rewrite upd_other by done. rewrite Hsame by done. auto.
  - intros r'. destruct (decide (r' = r)) as [->|Hne]; [rewrite !upd_same; apply Hrun|].
    rewrite !upd_other by done. destruct (Hother r' Hne) as [Ed Ea]. rewrite Ed, Ea.
    specialize (Hr r'). destruct (act r'); [done|..]; (eapply good_ext; [|exact Hr]; intros o; symmetry; by apply Hsame).
Qed.

(** The kernel's answer to a call of a good program. *)
Lemma answered l l' r c a k D (K O : nat -> Z -> Prop) :
  answers l r c a l' -> good D (K r) (O r) (Call c k) ->
  (forall r o, K r o -> holds l r o = true) -> (forall r o, O r o -> K r o) ->
  (forall o, D o -> O r o) -> (forall r r' o, O r o -> O r' o -> r = r') ->
  exists K' O', good D K' O' (k a) /\ (forall o, K' o -> holds l' r o = true) /\ (forall o, O' o -> K' o) /\
    (forall o, D o -> O' o) /\ (forall o r', O' o -> r' <> r -> ~ O r' o) /\
    (forall r' o, r' <> r -> holds l r' o = true -> holds l' r' o = true).
Proof.
  intros Hans Hg Hh Ho HD Hap. destruct a as [t|e].
  2: { pose proof (failed_same _ _ _ _ _ Hans) as Hs. exists (K r), (O r). split_and!; auto.
       - destruct c; cbn in Hg; apply Hg.
       - intros o ?. rewrite Hs. auto.
       - intros o r' Hr Hne Hr'. by apply Hne, (Hap r' r o).
       - intros r' o _ ?. by rewrite Hs. }
  destruct c as [off|off|off]; cbn in Hg.
  - destruct Hg as [Hg _]. pose proof (rdlck_granted _ _ _ _ _ Hans) as Hs.
    exists (fun o => K r o \/ o = off), (O r). split_and!; auto.
    + intros o Hko. rewrite Hs. case_decide; [done|]. destruct Hko; [auto|]. naive_solver.
    + intros o r' Hr Hne Hr'. by apply Hne, (Hap r' r o).
    + intros r' o Hne Hho. rewrite Hs, decide_False; [done|]. by intros [-> _].
  - destruct Hg as (HK & Hun & Hg & _). pose proof (wrlck_same _ _ _ _ _ Hans) as Hs.
    destruct (decide (t = F_UNLCK)) as [->|Ht].
    + exists (K r), (fun o => O r o \/ o = off). split_and!; auto.
      * intros o ?. rewrite Hs. auto.
      * intros o [?| ->]; auto.
      * intros o r' [Hr| ->] Hne Hr'; [by apply Hne, (Hap r' r o)|].
        apply Ho, Hh in Hr'. rewrite (wrlck_free _ _ _ _ Hans r' Hne) in Hr'. done.
      * intros r' o _ ?. by rewrite Hs.
    + exists (K r), (O r). split_and!; auto.
      * by destruct (Hg t).
      * intros o ?. rewrite Hs. auto.
      * intros o r' Hr Hne Hr'. by apply Hne, (Hap r' r o).
      * intros r' o _ ?. by rewrite Hs.
  - destruct Hg as (HnD & Hg & _). pose proof (unlck_granted _ _ _ _ _ Hans) as Hs.
    exists (fun o => K r o /\ o <> off), (fun o => O r o /\ o <> off). split_and!; auto.
    + intros o [? ?]. rewrite Hs, decide_False; [auto|]. naive_solver.
    + intros o [? ?]. auto.
    + intros o HDo. split; [auto|]. by intros ->.
    + intros o r' [Hr _] Hne Hr'. by apply Hne, (Hap r' r o).
    + intros r' o Hne Hho. rewrite Hs, decide_False; [done|]. by intros [-> _].
Qed.

Lemma owned_start o : ~ owned db_init_state o.
Proof. intros (tid & iid & _ & _ & Hb). cbn in Hb. by rewrite Z.bits_0 in Hb. Qed.

(** While requester [r] is in a call its program is good; others are unaffected. *)
Lemma exclusive_preserved w w' K O :
  exclusive w K O -> step w w' -> exists K' O', exclusive w' K' O'.
Proof.
  intros He Hstep. pose proof He as [Hh Ho Hap Hk Hrun].
  destruct Hstep as [l db act r tid Hact Ht|l db act r tid iid Hact Ht Hi|l db act r tid c k a l' Hact Hans
    |l db act r tid iid c k a l' Hact Hans|l db act r tid rc out ctx Hact|l db act r tid iid rc out ctx Hact];
    cbn in *; pose proof (Hrun r) as Hr; rewrite Hact in Hr.
  - eexists _, _. apply (exclusive_step l l db act db _ K O r (K r) (O r)); auto.
    + intros r' Hne. split; [done|by rewrite upd_other].
    + intros o r' ? ? ?. by assert (r' = r) by by eapply Hap.
    + intros o Hko%kept_owned. by apply Hr.
    + rewrite upd_same. apply alloc_good; [done|]. intros o. apply kept_owned.
  - eexists _, _. apply (exclusive_step l l db act db _ K O r (K r) (O r)); auto.
    + intros r' Hne. split; [done|by rewrite upd_other].
    + intros o r' ? ? ?. by assert (r' = r) by by eapply Hap.
    + intros o Hko%kept_owned. by apply Hr.
    + rewrite upd_same. apply free_good; [done..|]. intros (t & i & (Hi' & _ & Hnf) & E). cbn in Hnf.
      rewrite upd_same in Hnf. apply offset_inj in E as [-> ->]; auto.
  - destruct (answered l l' r c a k _ K O Hans Hr Hh Ho (Hk r) Hap) as (K' & O' & Hg & H1 & H2 & H3 & H4 & H5).
    assert (forall o, kept (World l' db (upd act r (Allocating tid (k a)))) r o <-> kept (World l db act) r o) as Hsame.
    { intros o. unfold kept, has_id. cbn. by rewrite upd_same, Hact. }
    eexists _, _. apply (exclusive_step l l' db act db _ K O r K' O'); auto.
    + intros r' Hne. split; [done|by rewrite upd_other].
    + intros o. rewrite Hsame. auto.
    + rewrite upd_same. eapply good_ext; [|exact Hg]. intros o. symmetry. apply Hsame.
  - destruct (answered l l' r c a k _ K O Hans Hr Hh Ho (Hk r) Hap) as (K' & O' & Hg & H1 & H2 & H3 & H4 & H5).
    assert (forall o, kept (World l' db (upd act r (Freeing tid iid (k a)))) r o <-> kept (World l db act) r o) as Hsame.
    { intros o. unfold kept, has_id. cbn. by rewrite upd_same, Hact. }
    eexists _, _. apply (exclusive_step l l' db act db _ K O r K' O'); auto.
    + intros r' Hne. split; [done|by rewrite upd_other].
    + intros o. rewrite Hsame. auto.
    + rewrite upd_same. eapply good_ext; [|exact Hg]. intros o. symmetry. apply Hsame.
  - eexists _, _. apply (exclusive_step l l db act _ _ K O r (K r) (O r)); auto.
    + intros r' Hne. by rewrite !upd_other.
    + intros o r' ? ? ?. by assert (r' = r) by by eapply Hap.
    + intros o Hko%kept_owned. cbn in Hko. rewrite upd_same in Hko. by apply Hr.
    + rewrite !upd_same. exact Hr.
  - eexists _, _. apply (exclusive_step l l db act _ _ K O r (K r) (O r)); auto.
    + intros r' Hne. by rewrite !upd_other.
    + intros o r' ? ? ?. by assert (r' = r) by by eapply Hap.
    + intros o Hko%kept_owned. cbn in Hko. rewrite upd_same in Hko. by apply Hr.
    + rewrite !upd_same. exact Hr.
Qed.

Lemma reachable_exclusive w : reachable w -> exists K O, exclusive w K O.
Proof.
  induction 1 as [|w w' _ (K & O & He) Hs]; [|by eapply exclusive_preserved].
  exists (fun _ _ => False), (fun _ _ => False). split; cbn; try done.
  - intros r o Hk. apply kept_owned in Hk. by apply owned_start in Hk.
  - intros r o Ho. by apply owned_start in Ho.
Qed.

(** C15: However many requesters allocate and free instance ids at the same time, with
    their fcntl calls interleaved in any way and any of the calls failing, no two of
    them ever have the same id of the same terminus, and a requester that has an id
    holds the lock on its byte of the lock file. *)
Theorem instance_ids_exclusive w r r' tid iid :
  reachable w -> has_id w r tid iid ->
  holds (w_locks w) r (offset tid iid) = true /\ (has_id w r' tid iid -> r = r').
Proof.
  intros (K & O & He)%reachable_exclusive Hid.
  assert (O r (offset tid iid)) as Ho by (apply (ex_kept _ _ _ He); by exists tid, iid).
  split; [apply (ex_held _ _ _ He), (ex_own _ _ _ He), Ho|].
  intros Hid'. apply (ex_apart _ _ _ He _ _ _ Ho), (ex_kept _ _ _ He). by exists tid, iid.
Qed.
End exclusion.

(** ** One requester at a time *)

(** The kernel without failures, while the other requesters hold still: [others off]
    says whether any of them has a lock on the byte. *)
Fixpoint run_alone (others : Z -> bool) (p : prog id_result) : id_result :=
  match p with
  | Ret a => a
  | Call (set_rdlck _) k => run_alone others (k (granted F_RDLCK))
  | Call (get_wrlck off) k => run_alone others (k (granted (if others off then F_RDLCK else F_UNLCK)))
  | Call (set_unlck _) k => run_alone others (k (granted F_UNLCK))
  end.

(** The ids after [i], all the way round to it: [n] of them. *)
Fixpoint ids_after (n : nat) (i : Z) : list Z :=
  match n with O => [] | S n => iid_next i :: ids_after n (iid_next i) end.

Definition available (others : Z -> bool) (ctx : pldm_instance_db) (tid i : Z) : bool :=
  negb (Z.testbit (allocations (ctx tid)) i) && negb (others (offset tid i)).

Lemma alloc_loop_alone others ctx tid n : forall fuel i,
  (n < fuel)%nat -> iid_next (default i (list.last (ids_after n i))) = prev (ctx tid) ->
  Forall (fun j => j <> prev (ctx tid)) (ids_after n i) ->
  run_alone others (alloc_loop fuel ctx tid i)
  = match List.find (available others ctx tid) (ids_after n i) with
    | Some iid => (0, Some iid, claim ctx tid iid)
    | None => (- EAGAIN, None, ctx)
    end.
Proof.
  induction n as [|n IH]; intros fuel i Hf Hlast Hne; (destruct fuel as [|fuel]; [lia|]); cbn [alloc_loop].
  - cbn in Hlast. rewrite Hlast, Z.eqb_refl. done.
  - cbn [ids_after List.find] in *. apply list.Forall_cons in Hne as [Hi Hne].
    destruct (Z.eqb_spec (iid_next i) (prev (ctx tid))); [done|].
    pose proof (iid_next_range i) as Hr. set (j := iid_next i) in *.
    assert (iid_next (default j (list.last (ids_after n j))) = prev (ctx tid)) as Hlast'.
    { rewrite <- Hlast. rewrite last_cons. by destruct (list.last (ids_after n j)). }
    specialize (IH fuel j ltac:(lia) Hlast' Hne). unfold available at 1.
    destruct (Z.eqb_spec (Z.land (allocations (ctx tid)) (BIT j)) 0) as [Hb|Hb]; cbn [negb].
    + apply bit_clear in Hb; [|lia]. rewrite Hb. cbn [negb andb run_alone].
      destruct (others (offset tid j)); cbn [negb]; [|done]. exact IH.
    + destruct (Z.testbit (allocations (ctx tid)) j) eqn:Ht; cbn [negb andb]; [exact IH|].
      exfalso. apply Hb. apply bit_clear; [lia|done].
Qed.

Lemma ids_after_31 p : 0 <= p < PLDM_INST_ID_MAX ->
  iid_next (default p (list.last (ids_after 31 p))) = p /\ Forall (fun j => j <> p) (ids_after 31 p).
Proof.
  intros Hp. assert (Forall (fun p => iid_next (default p (list.last (ids_after 31 p))) = p /\
    Forall (fun j => j <> p) (ids_after 31 p)) (Z.of_nat <$> seq 0 32)) as Hall.
  { apply (bool_decide_unpack _). by vm_compute. }
  rewrite Forall_elem in Hall. apply Hall. apply list_elem_of_fmap. exists (Z.to_nat p).
  split; [lia|]. apply elem_of_seq. lia.
Qed.

(** With the other requesters still and no call failing,
    pldm_instance_id_alloc gives the first id after the last one allocated, counting
    round from 31 to 0, that neither this database nor another requester has, and
    records it; if there is none among these 31 it returns -EAGAIN and changes nothing.
    So the last id allocated is never given again right away, not even when it is the
    only one free. *)
Theorem instance_id_alloc_next others ctx tid :
  0 <= prev (ctx tid) < PLDM_INST_ID_MAX ->
  run_alone others (alloc_body ctx tid)
  = match List.find (available others ctx tid) (ids_after 31 (prev (ctx tid))) with
    | Some iid => (0, Some iid, claim ctx tid iid)
    | None => (- EAGAIN, None, ctx)
    end /\
  ~ prev (ctx tid) ∈ ids_after 31 (prev (ctx tid)).
Proof.
  intros Hp. destruct (ids_after_31 _ Hp) as [Hl Hne]. split.
  - unfold alloc_body. rewrite (proj2 (Z.leb_gt _ _)) by lia. apply alloc_loop_alone; [lia|done..].
  - intros Hin. rewrite Forall_elem in Hne. by apply (Hne _ Hin).
Qed.

(** ** Concrete inputs *)

(** Locks as a table; the kernel may fail any call. *)
Definition table_answers (l : nat -> Z -> bool) (r : nat) (c : fcntl_call) (a : fcntl_reply) (l' : nat -> Z -> bool) : Prop :=
  match a with
  | failed _ => l' = l
  | granted t =>
      match c with
      | set_rdlck off => l' = fun r' o => if decide (r' = r /\ o = off) then true else l r' o
      | set_unlck off => l' = fun r' o => if decide (r' = r /\ o = off) then false else l r' o
      | get_wrlck off => l' = l /\ (t = F_UNLCK -> forall r', r' <> r -> l r' off = false)
      end
  end.

Program Definition table_locks : LockFile := {|
  locks := nat -> Z -> bool;
  holds l := l;
  unlocked := fun _ _ => false;
  answers := table_answers
|}.
Next Obligation. done. Qed.
Next Obligation. intros l r c e l' E r' off. cbn in E. by rewrite E. Qed.
Next Obligation. intros l r off t l' E r' off'. cbn in E. by rewrite E. Qed.
Next Obligation. intros l r off t l' E r' off'. cbn in E. by rewrite E. Qed.
Next Obligation. intros l r off t l' E r' off'. cbn in E. destruct E as [-> _]. done. Qed.
Next Obligation. intros l r off l' E r' Hne. cbn in E. destruct E as [_ E]. by apply E. Qed.

(** Requester 0 allocates for terminus 5: the first id is 0, its byte 160. *)
Lemma alloc_loop_try fuel ctx tid i j :
  iid_next i = j -> j <> prev (ctx tid) -> Z.land (allocations (ctx tid)) (BIT j) = 0 ->
  alloc_loop (S fuel) ctx tid i
  = Call (set_rdlck (offset tid j)) (fun r =>
      match r with
      | failed e => Ret (errno_code e, None, ctx)
      | granted _ =>
          Call (get_wrlck (offset tid j)) (fun r =>
            match r with
            | failed e => release_cfls ctx (offset tid j) (errno_code e) (alloc_loop fuel ctx tid j)
            | granted F_UNLCK => Ret (0, Some j, claim ctx tid j)
            | granted F_RDLCK => release_cfls ctx (offset tid j) 0 (alloc_loop fuel ctx tid j)
            | granted F_WRLCK => release_cfls ctx (offset tid j) (- EPROTO) (alloc_loop fuel ctx tid j)
            end)
      end).
Proof.
  intros <- Hp Hb. cbn [alloc_loop]. rewrite (proj2 (Z.eqb_neq _ _) Hp), Hb. reflexivity.
Qed.

Lemma alloc_first : alloc_body db_init_state 5 = alloc_loop 33 db_init_state 5 31.
Proof. unfold alloc_body, db_init_state. cbn [prev]. reflexivity. Qed.

Definition sample_locks : nat -> Z -> bool :=
  fun r o => if decide (r = 0%nat /\ o = 160) then true else false.

Lemma sample_allocated : exists w : world (H := table_locks), reachable w /\ has_id w 0 5 0.
Proof.
  pose (db := fun _ : nat => db_init_state). pose (act := fun _ : nat => Idle).
  pose proof (reach_start (H := table_locks)) as H0.
  pose proof (reach_step _ _ H0 (step_alloc (H := table_locks) _ db act 0%nat 5 eq_refl ltac:(lia))) as H1.
  assert (upd act 0%nat (Allocating 5 (alloc_body (db 0%nat) 5)) 0%nat
    = Allocating 5 (alloc_body db_init_state 5)) as E1 by reflexivity.
  rewrite alloc_first, (alloc_loop_try 32 db_init_state 5 31 0) in E1; [|reflexivity|discriminate|reflexivity].
  pose proof (reach_step _ _ H1 (step_alloc_call (H := table_locks) _ db _ 0%nat 5 _ _ (granted F_RDLCK)
    sample_locks E1 eq_refl)) as H2.
  cbn iota beta in H2.
  match type of H2 with reachable (World _ _ ?a) =>
    pose proof (reach_step _ _ H2 (step_alloc_call (H := table_locks) sample_locks db a 0%nat 5 _ _ (granted F_UNLCK)
      sample_locks eq_refl (conj eq_refl (fun _ r' Hr' => decide_False (P := r' = 0%nat /\ 160 = 160) _ _
         (fun E => Hr' (proj1 E)))))) as H3 end.
  cbn iota beta in H3.
  match type of H3 with reachable (World _ _ ?a) =>
    pose proof (reach_step _ _ H3 (step_alloc_done (H := table_locks) sample_locks db a 0%nat 5 _ _ _ eq_refl)) as H4 end.
  eexists. split; [exact H4|]. split; [lia|]. split; [reflexivity|]. exact I.
Qed.

Lemma instance_ids_exclusive_witness :
  exists w : world (H := table_locks), reachable w /\ has_id w 0 5 0 /\
    holds (w_locks w) 0 160 = true /\ (has_id w 1 5 0 -> 0%nat = 1%nat).
Proof.
  destruct sample_allocated as (w & Hr & Hi). exists w. split; [exact Hr|]. split; [exact Hi|].
  exact (instance_ids_exclusive (H := table_locks) w 0 1 5 0 Hr Hi).
Defined.

(** Ids 0 to 2 taken elsewhere; and every id but the last one. *)
Lemma instance_id_alloc_next_witness :
  run_alone (fun off => off <? 163) (alloc_body db_init_state 5) = (0, Some 3, claim db_init_state 5 3) /\
  run_alone (fun off => negb (off =? 191)) (alloc_body db_init_state 5) = (- EAGAIN, None, db_init_state).
Proof.
  split.
  - exact (proj1 (instance_id_alloc_next (fun off => off <? 163) db_init_state 5 ltac:(cbn; lia))).
  - exact (proj1 (instance_id_alloc_next (fun off => negb (off =? 191)) db_init_state 5 ltac:(cbn; lia))).
Defined.
