(* ===== verification/Responder.v ===== *)
(** * Requests a responder has to answer (src/responder.c)

    A transport keeps a cookie for each request that was received: who sent it and which
    request it is.  The cookies of a jar are a singly linked list in C memory whose head
    is a cookie of its own.  The jar refines a finite map from requests to cookies. *)

From stdpp Require Import gmap.
From S2P Require Import Prelude.

Local Open Scope Z_scope.

(** enum pldm_requester_error_codes (include/libpldm/pldm.h), as far as it is used. *)
Abbreviation PLDM_REQUESTER_SUCCESS := 0 (only parsing).
Abbreviation PLDM_REQUESTER_INVALID_SETUP := (-11) (only parsing).

(** What tells requests apart: terminus, instance id, PLDM type and command. *)
Definition request_key : Type := Z * Z * Z * Z.

(** struct pldm_responder_cookie *)
Record pldm_responder_cookie := Cookie { ck_key : request_key; ck_next : option positive }.

(** The cookies in memory by the names of their blocks. *)
Abbreviation cookies := (gmap positive pldm_responder_cookie) (only parsing).
Abbreviation JarM := (stM (gmap positive pldm_responder_cookie)) (only parsing).

Definition cookie_load (p : positive) : JarM pldm_responder_cookie := fun h =>
  match h !! p with Some c => Ok (c, h) | None => Fault FMemory end.

(** p->next = next *)
Definition set_ck_next (p : positive) (next : option positive) : JarM unit := fun h =>
  match h !! p with
  | Some c => Ok (tt, <[p := Cookie (ck_key c) next]> h)
  | None => Fault FMemory
  end.

Definition pldm_responder_cookie_eq (left right : request_key) : bool :=
  let '(tid, instance_id, type, command) := left in
  let '(tid', instance_id', type', command') := right in
  (tid =? tid') && (instance_id =? instance_id') && (type =? type') && (command =? command').

(** The loop of [pldm_responder_cookie_track]: whether the cookie is known, and the last one. *)
Fixpoint track_loop (fuel : nat) (cookie current : positive) (next : option positive)
  : JarM (bool * positive) :=
  match fuel with
  | O => fun _ => Fault FFuel
  | S fuel =>
    match next with
    | None => mret (false, current)
    | Some next =>
      n ← cookie_load next;
      c ← cookie_load cookie;
      if pldm_responder_cookie_eq (ck_key n) (ck_key c) then mret (true, current)
      else track_loop fuel cookie next (ck_next n)
    end
  end.

(** More rounds than there are cookies are not needed. *)
Definition pldm_responder_cookie_track (jar cookie : option positive) : JarM Z := fun h =>
  match jar, cookie with
  | Some jar, Some cookie =>
    (j ← cookie_load jar;
     '(known, current) ← track_loop (S (size h)) cookie jar (ck_next j);
     if known : bool then mret PLDM_REQUESTER_INVALID_SETUP
     else
     _ ← set_ck_next cookie None;
     _ ← set_ck_next current (Some cookie);
     mret PLDM_REQUESTER_SUCCESS) h
  | _, _ => Ok (PLDM_REQUESTER_INVALID_SETUP, h)
  end.

(** The loop of [pldm_responder_cookie_untrack]: [current] and [next] when it ends. *)
Fixpoint untrack_loop (fuel : nat) (key : request_key) (current : positive) (next : option positive)
  : JarM (positive * option positive) :=
  match fuel with
  | O => fun _ => Fault FFuel
  | S fuel =>
    match next with
    | None => mret (current, None)
    | Some n =>
      c ← cookie_load n;
      if pldm_responder_cookie_eq (ck_key c) key then mret (current, Some n)
      else untrack_loop fuel key n (ck_next c)
    end
  end.

Definition pldm_responder_cookie_untrack (jar : option positive) (key : request_key) : JarM (option positive) :=
  fun h =>
  match jar with
  | None => Ok (None, h)
  | Some jar =>
    (j ← cookie_load jar;
     '(current, next) ← untrack_loop (S (size h)) key jar (ck_next j);
     match next with
     | None => mret None
     | Some n =>
       c ← cookie_load n;
       _ ← set_ck_next current (ck_next c);
       mret (Some n)
     end) h
  end.

(** ** The list a jar holds *)

Fixpoint links (h : cookies) (p : option positive) (cs : list (positive * request_key)) : Prop :=
  match cs with
  | [] => p = None
  | (a, k) :: cs => p = Some a /\ exists next, h !! a = Some (Cookie k next) /\ links h next cs
  end.

Record jar_holds (h : cookies) (jar : positive) (cs : list (positive * request_key)) : Prop := {
  jar_links : exists key next, h !! jar = Some (Cookie key next) /\ links h next cs;
  jar_blocks : NoDup (jar :: cs.*1);
  jar_keys : NoDup cs.*2
}.

Lemma cookie_eq_spec k k' : pldm_responder_cookie_eq k k' = true <-> k = k'.
Proof. destruct k as [[[]]], k' as [[[]]]. cbn. split; [intros|intros [= -> -> -> ->]]; [f_equal; [f_equal; [f_equal|]|]|]; lia. Qed.

Lemma cookie_eq_false k k' : k <> k' -> pldm_responder_cookie_eq k k' = false.
Proof. intros. apply not_true_is_false. by rewrite cookie_eq_spec. Qed.

Lemma cookie_eq_refl k : pldm_responder_cookie_eq k k = true.
Proof. by apply cookie_eq_spec. Qed.

(** Cookies outside the list can change. *)
Lemma links_insert (h : cookies) p cs a c : a ∉ cs.*1 -> links h p cs -> links (<[a := c]> h) p cs.
Proof.
  revert p. induction cs as [|[b k] cs IH]; intros p; cbn; [done|].
  intros [Hab Ha]%not_elem_of_cons (-> & next & Hb & Hl). split; [done|]. exists next.
  rewrite lookup_insert_ne by done. auto.
Qed.

Lemma links_size (h : cookies) p cs : links h p cs -> NoDup cs.*1 -> (length cs <= size h)%nat.
Proof.
  revert h p. induction cs as [|[a k] cs IH]; intros h p; cbn; [lia|].
  intros (-> & next & Ha & Hl) [Hn Hd]%list.NoDup_cons.
  assert (links (delete a h) next cs) as Hl'.
  { clear -Hl Hn. revert next Hl. induction cs as [|[b kb] cs IH]; intros next; cbn; [done|].
    cbn in Hn. apply not_elem_of_cons in Hn as [Hab Hn]. intros (-> & n & Hb & Hl). split; [done|]. exists n.
    rewrite lookup_delete_ne by done. auto. }
  specialize (IH _ _ Hl' Hd). rewrite map_size_delete_Some in IH by eauto.
  assert (size h <> 0)%nat by (intros ->%map_size_empty_inv; by rewrite lookup_empty in Ha). lia.
Qed.

(** The last cookie, behind [cur]. *)
Fixpoint last_block (cur : positive) (cs : list (positive * request_key)) : positive :=
  match cs with [] => cur | (a, _) :: cs => last_block a cs end.

Lemma last_block_elem cur cs : last_block cur cs ∈ cur :: cs.*1.
Proof.
  revert cur. induction cs as [|[a k] cs IH]; intros cur; cbn; [apply list_elem_of_here|].
  apply list_elem_of_further, IH.
Qed.

Lemma track_loop_new (h : cookies) ck c cur next cs fuel :
  links h next cs -> h !! ck = Some c -> ck_key c ∉ cs.*2 -> (length cs < fuel)%nat ->
  track_loop fuel ck cur next h = Ok ((false, last_block cur cs), h).
Proof.
  intros Hl Hc. revert cur next fuel Hl. induction cs as [|[a k] cs IH]; intros cur next fuel Hl Hn Hf;
    (destruct fuel as [|fuel]; [cbn in Hf; lia|]); cbn in Hl.
  - by subst next.
  - destruct Hl as (-> & n & Ha & Hl). cbn in Hn. apply not_elem_of_cons in Hn as [Hk Hn].
    cbn -[pldm_responder_cookie_eq]. unfold mbind, stM_bind, cookie_load. rewrite Ha, Hc. cbn [ck_key ck_next].
    rewrite cookie_eq_false by done. apply IH; [done|done|cbn in Hf; lia].
Qed.

Lemma track_loop_known (h : cookies) ck c cur next cs fuel :
  links h next cs -> h !! ck = Some c -> ck_key c ∈ cs.*2 -> (length cs < fuel)%nat ->
  exists last, track_loop fuel ck cur next h = Ok ((true, last), h).
Proof.
  intros Hl Hc. revert cur next fuel Hl. induction cs as [|[a k] cs IH]; intros cur next fuel Hl Hn Hf.
  - by apply elem_of_nil in Hn.
  - destruct fuel as [|fuel]; [cbn in Hf; lia|]. destruct Hl as (-> & n & Ha & Hl).
    cbn -[pldm_responder_cookie_eq]. unfold mbind, stM_bind, cookie_load. rewrite Ha, Hc. cbn [ck_key ck_next].
    destruct (decide (k = ck_key c)) as [->|Hk].
    + rewrite cookie_eq_refl. by eexists.
    + rewrite cookie_eq_false by done. apply IH; [done| |cbn in Hf; lia].
      cbn in Hn. apply elem_of_cons in Hn as [?|]; [congruence|done].
Qed.

Lemma untrack_loop_unknown (h : cookies) key cur next cs fuel :
  links h next cs -> key ∉ cs.*2 -> (length cs < fuel)%nat ->
  exists last, untrack_loop fuel key cur next h = Ok ((last, None), h).
Proof.
  revert cur next fuel. induction cs as [|[a k] cs IH]; intros cur next fuel Hl Hn Hf;
    (destruct fuel as [|fuel]; [cbn in Hf; lia|]); cbn in Hl.
  - subst next. by eexists.
  - destruct Hl as (-> & n & Ha & Hl). cbn in Hn. apply not_elem_of_cons in Hn as [Hk Hn].
    cbn -[pldm_responder_cookie_eq]. unfold mbind, stM_bind, cookie_load. rewrite Ha. cbn [ck_key ck_next].
    rewrite cookie_eq_false by done. apply IH; [done|done|cbn in Hf; lia].
Qed.

Lemma untrack_loop_found (h : cookies) key cur next cs1 a cs2 fuel :
  links h next (cs1 ++ (a, key) :: cs2) -> key ∉ cs1.*2 -> (length cs1 < fuel)%nat ->
  untrack_loop fuel key cur next h = Ok ((last_block cur cs1, Some a), h).
Proof.
  revert cur next fuel. induction cs1 as [|[b k] cs1 IH]; intros cur next fuel Hl Hn Hf;
    (destruct fuel as [|fuel]; [cbn in Hf; lia|]); cbn in Hl; destruct Hl as (-> & n & Hb & Hl);
    cbn -[pldm_responder_cookie_eq]; unfold mbind, stM_bind, cookie_load; rewrite Hb; cbn [ck_key ck_next].
  - by rewrite cookie_eq_refl.
  - cbn in Hn. apply not_elem_of_cons in Hn as [Hk Hn]. rewrite cookie_eq_false by done.
    apply IH; [done|done|cbn in Hf; lia].
Qed.

(** Pointing the last of [cs1] to another list. *)
Lemma relink (h : cookies) cur kc next cs1 rest q cs2 :
  h !! cur = Some (Cookie kc next) -> links h next (cs1 ++ rest) -> NoDup (cur :: cs1.*1) ->
  links h q cs2 -> (forall x, x ∈ cur :: cs1.*1 -> x ∉ cs2.*1) ->
  exists kl nl, h !! last_block cur cs1 = Some (Cookie kl nl) /\
    let h' := <[last_block cur cs1 := Cookie kl q]> h in
    exists next', h' !! cur = Some (Cookie kc next') /\ links h' next' (cs1 ++ cs2).
Proof.
  revert cur kc next. induction cs1 as [|[a k] cs1 IH]; intros cur kc next Hcur Hl Hd Hq Hx.
  - exists kc, next. split; [done|]. exists q. cbn. rewrite lookup_insert_eq. split; [done|].
    apply links_insert; [|done]. apply Hx, list_elem_of_here.
  - destruct Hl as (-> & n & Ha & Hl). cbn in Hd. apply list.NoDup_cons in Hd as [Hca Hd].
    destruct (IH a k n Ha Hl Hd Hq) as (kl & nl & Hlast & n' & Ha' & Hl').
    { intros x Hxin. apply Hx. by apply list_elem_of_further. }
    exists kl, nl. split; [done|]. exists (Some a). cbn [last_block app links].
    assert (last_block a cs1 <> cur) as Hne by (intros Heq; apply Hca; rewrite <- Heq; apply last_block_elem).
    rewrite lookup_insert_ne by done. split; [done|]. eauto.
Qed.

(** ** The jar as a map from requests to cookies *)

Definition represents (h : cookies) (jar : positive) (m : gmap request_key positive) : Prop :=
  exists cs, jar_holds h jar cs /\ forall k a, m !! k = Some a <-> (a, k) ∈ cs.

Definition same_keys (h h' : cookies) : Prop := forall a, ck_key <$> h' !! a = ck_key <$> h !! a.

Lemma same_keys_next (h : cookies) a k n q : h !! a = Some (Cookie k n) -> same_keys h (<[a := Cookie k q]> h).
Proof. intros Ha b. destruct (decide (a = b)) as [<-|]; [by rewrite lookup_insert_eq, Ha|by rewrite lookup_insert_ne]. Qed.

Lemma same_keys_trans h1 h2 h3 : same_keys h1 h2 -> same_keys h2 h3 -> same_keys h1 h3.
Proof. intros H12 H23 a. by rewrite H23. Qed.

Lemma elem_key (cs : list (positive * request_key)) k : k ∈ cs.*2 <-> exists a, (a, k) ∈ cs.
Proof.
  rewrite list_elem_of_fmap. split; [intros ([a k'] & -> & Hin); by exists a|intros [a Hin]; by exists (a, k)].
Qed.

Lemma elem_block (cs : list (positive * request_key)) a : a ∈ cs.*1 <-> exists k, (a, k) ∈ cs.
Proof.
  rewrite list_elem_of_fmap. split; [intros ([a' k] & -> & Hin); by exists k|intros [k Hin]; by exists (a, k)].
Qed.

Lemma links_elem (h : cookies) p cs a k : links h p cs -> (a, k) ∈ cs -> exists n, h !! a = Some (Cookie k n).
Proof.
  revert p. induction cs as [|[b kb] cs IH]; intros p Hl Hin; [by apply elem_of_nil in Hin|].
  destruct Hl as (-> & n & Hb & Hl). apply elem_of_cons in Hin as [[= -> ->]|Hin]; eauto.
Qed.

Lemma track_step (h : cookies) jar m ck k n :
  represents h jar m -> ck <> jar -> h !! ck = Some (Cookie k n) ->
  match m !! k with
  | Some _ => pldm_responder_cookie_track (Some jar) (Some ck) h = Ok (PLDM_REQUESTER_INVALID_SETUP, h)
  | None => exists h', pldm_responder_cookie_track (Some jar) (Some ck) h = Ok (PLDM_REQUESTER_SUCCESS, h') /\
      represents h' jar (<[k := ck]> m) /\ same_keys h h'
  end.
Proof.
  intros (cs & [(kj & nj & Hj & Hl) Hb Hk] & Hm) Hne Hck.
  pose proof (links_size _ _ _ Hl (proj2 (proj1 (list.NoDup_cons _ _) Hb))) as Hsize.
  assert (pldm_responder_cookie_track (Some jar) (Some ck) h
    = ('(known, current) ← track_loop (S (size h)) ck jar nj;
       if known : bool then mret PLDM_REQUESTER_INVALID_SETUP
       else _ ← set_ck_next ck None; _ ← set_ck_next current (Some ck); mret PLDM_REQUESTER_SUCCESS) h) as ->.
  { unfold pldm_responder_cookie_track, mbind, stM_bind, cookie_load at 1. by rewrite Hj. }
  unfold mbind, stM_bind. destruct (m !! k) as [a|] eqn:Emk.
  { apply Hm in Emk. destruct (track_loop_known h ck (Cookie k n) jar nj cs (S (size h))) as [last ->]; [done|done| |lia|done].
    cbn [ck_key]. apply elem_key. eauto. }
  assert (k ∉ cs.*2) as Hnew. { rewrite elem_key. intros [a Ha]. apply Hm in Ha. congruence. }
  assert (ck ∉ cs.*1) as Hfree.
  { rewrite elem_block. intros [k' Hin]. destruct (links_elem _ _ _ _ _ Hl Hin) as [n' Hck'].
    assert (k' = k) as -> by congruence. apply Hnew, elem_key. eauto. }
  rewrite (track_loop_new h ck (Cookie k n)) with (cs := cs) by (done || lia).
  unfold set_ck_next at 1. rewrite Hck. cbn [ck_key]. set (h1 := <[ck := Cookie k None]> h).
  assert (h1 !! jar = Some (Cookie kj nj)) as Hj1 by (unfold h1; by rewrite lookup_insert_ne).
  destruct (relink h1 jar kj nj cs [] (Some ck) [(ck, k)]) as (kl & nl & Hlast & n' & Hj' & Hl').
  - done.
  - rewrite app_nil_r. by apply links_insert.
  - done.
  - split; [done|]. exists None. split; [|done]. apply lookup_insert_eq.
  - intros x Hx. apply not_elem_of_cons. split; [|apply not_elem_of_nil]. intros ->.
    apply elem_of_cons in Hx as [?|Hx]; done.
  - unfold set_ck_next. rewrite Hlast. cbn [ck_key]. eexists. split; [reflexivity|]. split.
    + exists (cs ++ [(ck, k)]). split.
      * constructor; [eauto| |]; rewrite ?fmap_app; cbn [fmap list_fmap fst snd].
        -- change (jar :: cs.*1 ++ [ck]) with ((jar :: cs.*1) ++ [ck]). apply list.NoDup_app. split_and!; [done| |by apply list.NoDup_singleton].
           intros x Hx ->%list_elem_of_singleton. apply elem_of_cons in Hx as [?|Hx]; done.
        -- apply list.NoDup_app. split_and!; [done| |by apply list.NoDup_singleton].
           intros x Hx ->%list_elem_of_singleton. done.
      * intros k' a. rewrite elem_of_app, list_elem_of_singleton. destruct (decide (k = k')) as [<-|Hkk].
        -- rewrite lookup_insert_eq. split; [intros [= <-]; by right|]. intros [Hin|[= ->]]; [|done].
           exfalso. apply Hnew, elem_key. eauto.
        -- rewrite lookup_insert_ne by done. rewrite Hm. split; [by left|]. intros [?|[= -> ->]]; done.
    + eapply same_keys_trans; [by eapply same_keys_next|]. by eapply same_keys_next.
Qed.

Lemma untrack_step (h : cookies) jar m k :
  represents h jar m ->
  exists h', pldm_responder_cookie_untrack (Some jar) k h = Ok (m !! k, h') /\
    represents h' jar (delete k m) /\ same_keys h h' /\ (m !! k = None -> h' = h).
Proof.
  intros (cs & [(kj & nj & Hj & Hl) Hb Hk] & Hm).
  pose proof (links_size _ _ _ Hl (proj2 (proj1 (list.NoDup_cons _ _) Hb))) as Hsize.
  unfold pldm_responder_cookie_untrack, mbind, stM_bind, cookie_load at 1. rewrite Hj. cbn [ck_next].
  destruct (m !! k) as [a|] eqn:Emk.
  2: { assert (k ∉ cs.*2) as Hnew. { rewrite elem_key. intros [a Ha]. apply Hm in Ha. congruence. }
       destruct (untrack_loop_unknown h k jar nj cs (S (size h))) as [last ->]; [done|done|lia|].
       exists h. split; [done|]. split; [|done]. exists cs. split; [by constructor; eauto|].
       intros k' a. rewrite <- Hm. destruct (decide (k = k')) as [<-|]; [by rewrite lookup_delete_eq, Emk|by rewrite lookup_delete_ne]. }
  apply Hm in Emk as Hin. apply list_elem_of_split in Hin as (cs1 & cs2 & ->).
  rewrite fmap_app in Hb. rewrite fmap_app in Hk. cbn [fmap list_fmap fst snd] in Hb, Hk.
  apply list.NoDup_app in Hk as (Hk1 & Hk12 & [Hka Hk2]%list.NoDup_cons).
  change (jar :: cs1.*1 ++ a :: cs2.*1) with ((jar :: cs1.*1) ++ a :: cs2.*1) in Hb.
  apply list.NoDup_app in Hb as (Hb1 & Hb12 & [Hba Hb2]%list.NoDup_cons).
  rewrite (untrack_loop_found h k) with (a := a) (cs1 := cs1) (cs2 := cs2); cycle 1;
    [done| |rewrite length_app in Hsize; cbn in Hsize; lia|].
  { intros Hin. apply (Hk12 _ Hin), list_elem_of_here. }
  assert (exists na, h !! a = Some (Cookie k na) /\ links h na cs2) as (na & Ha & Hl2).
  { clear -Hl. revert nj Hl. induction cs1 as [|[b kb] cs1 IH]; intros nj; cbn; [intros (_ & n & ? & ?); eauto|].
    intros (_ & n & _ & Hl). eauto. }
  unfold cookie_load. rewrite Ha. cbn [ck_next].
  destruct (relink h jar kj nj cs1 ((a, k) :: cs2) na cs2) as (kl & nl & Hlast & n' & Hj' & Hl');
    [done|done|done|done|intros x Hx Hx2; by apply (Hb12 x Hx), list_elem_of_further|].
  unfold set_ck_next. rewrite Hlast. cbn [ck_key]. eexists. split; [reflexivity|]. split; [|split; [by eapply same_keys_next|done]].
  exists (cs1 ++ cs2). split.
  - constructor; [eauto| |]; rewrite fmap_app.
    + change (NoDup ((jar :: cs1.*1) ++ cs2.*1)). apply list.NoDup_app. split_and!; [done| |done].
      intros x Hx Hx2. by apply (Hb12 x Hx), list_elem_of_further.
    + apply list.NoDup_app. split_and!; [done| |done]. intros x Hx Hx2. by apply (Hk12 x Hx), list_elem_of_further.
  - intros k' a'. rewrite elem_of_app. destruct (decide (k = k')) as [<-|Hkk].
    + rewrite lookup_delete_eq. split; [done|]. intros [Hin|Hin]; exfalso.
      * apply (Hk12 k); [apply elem_key; eauto|apply list_elem_of_here].
      * apply Hka, elem_key. eauto.
    + rewrite lookup_delete_ne by done. rewrite Hm, elem_of_app, elem_of_cons.
      split; [intros [?|[[= -> ->]|?]]; auto; done|intros [?|?]; auto].
Qed.

(** *** Runs *)

Inductive jar_op := Track (cookie : positive) | Untrack (key : request_key).
Inductive jar_answer := Tracked (rc : Z) | Untracked (cookie : option positive).

Definition jar_do (jar : positive) (op : jar_op) : JarM jar_answer :=
  match op with
  | Track ck => rc ← pldm_responder_cookie_track (Some jar) (Some ck); mret (Tracked rc)
  | Untrack k => p ← pldm_responder_cookie_untrack (Some jar) k; mret (Untracked p)
  end.

Fixpoint jar_run (jar : positive) (ops : list jar_op) : JarM (list jar_answer) :=
  match ops with
  | [] => mret []
  | op :: ops => a ← jar_do jar op; l ← jar_run jar ops; mret (a :: l)
  end.

(** What a finite map would answer, for cookies of the requests [key_of]. *)
Definition map_do (key_of : positive -> option request_key) (op : jar_op) (m : gmap request_key positive)
  : jar_answer * gmap request_key positive :=
  match op with
  | Track ck =>
    match key_of ck with
    | Some k => match m !! k with
                | Some _ => (Tracked PLDM_REQUESTER_INVALID_SETUP, m)
                | None => (Tracked PLDM_REQUESTER_SUCCESS, <[k := ck]> m)
                end
    | None => (Tracked PLDM_REQUESTER_INVALID_SETUP, m)
    end
  | Untrack k => (Untracked (m !! k), delete k m)
  end.

Fixpoint map_run (key_of : positive -> option request_key) (ops : list jar_op) (m : gmap request_key positive)
  : list jar_answer * gmap request_key positive :=
  match ops with
  | [] => ([], m)
  | op :: ops =>
    let '(a, m) := map_do key_of op m in
    let '(l, m) := map_run key_of ops m in (a :: l, m)
  end.

Lemma map_run_ext f g ops m : (forall a, f a = g a) -> map_run f ops m = map_run g ops m.
Proof.
  intros Hfg. revert m. induction ops as [|op ops IH]; intros m; [done|]. cbn [map_run].
  assert (map_do f op m = map_do g op m) as -> by (destruct op; cbn; [by rewrite Hfg|done]).
  destruct (map_do g op m) as [a m']. by rewrite IH.
Qed.

(** The cookies given to track exist, and none is the jar itself. *)
Definition op_ok (h : cookies) (jar : positive) (op : jar_op) : Prop :=
  match op with Track ck => ck <> jar /\ is_Some (h !! ck) | Untrack _ => True end.

Lemma same_keys_ok (h h' : cookies) jar op : same_keys h h' -> op_ok h jar op -> op_ok h' jar op.
Proof.
  intros Hs. destruct op as [ck|]; [|done]. intros [Hne [c Hc]]. split; [done|].
  specialize (Hs ck). rewrite Hc in Hs. destruct (h' !! ck); [by eexists|done].
Qed.

Lemma jar_do_refines (h : cookies) jar m op :
  represents h jar m -> op_ok h jar op ->
  exists h', jar_do jar op h = Ok ((map_do (fun a => ck_key <$> h !! a) op m).1, h') /\
    represents h' jar (map_do (fun a => ck_key <$> h !! a) op m).2 /\ same_keys h h'.
Proof.
  intros Hr Hok. destruct op as [ck|k]; cbn [jar_do map_do]; unfold mbind, stM_bind.
  - destruct Hok as [Hne [[k n] Hc]]. rewrite Hc. cbn [fmap option_fmap option_map ck_key].
    pose proof (track_step h jar m ck k n Hr Hne Hc) as Hs. destruct (m !! k).
    + rewrite Hs. exists h. done.
    + destruct Hs as (h' & -> & Hr' & Hk). exists h'. done.
  - destruct (untrack_step h jar m k Hr) as (h' & -> & Hr' & Hk & _). exists h'. done.
Qed.

(** C18: Whatever sequence of cookies is tracked and of requests untracked, the jar answers
    as a finite map from requests to cookies does: a cookie is refused exactly when its
    request is known, untracking gives the cookie of the request or NULL and forgets it,
    and the list in memory stands for the map afterwards.  No load or store goes wrong
    and no cookie changes but in its link. *)
Theorem responder_jar_refines (h : cookies) jar m ops :
  represents h jar m -> Forall (op_ok h jar) ops ->
  exists h', jar_run jar ops h = Ok ((map_run (fun a => ck_key <$> h !! a) ops m).1, h') /\
    represents h' jar (map_run (fun a => ck_key <$> h !! a) ops m).2 /\ same_keys h h'.
Proof.
  revert h m. induction ops as [|op ops IH]; intros h m Hr Hok; [by exists h|].
  apply list.Forall_cons in Hok as [Hop Hops]. cbn [jar_run map_run]. unfold mbind, stM_bind.
  destruct (jar_do_refines h jar m op Hr Hop) as (h1 & -> & Hr1 & Hk1).
  destruct (map_do _ op m) as [a m1]. cbn [fst snd] in Hr1.
  destruct (IH h1 m1 Hr1) as (h2 & Hrun & Hr2 & Hk2); [eapply list.Forall_impl; [exact Hops|]; intros; by eapply same_keys_ok|].
  rewrite Hrun. rewrite (map_run_ext _ (fun a => ck_key <$> h !! a) ops m1) in * by done.
  exists h2. destruct (map_run _ ops m1) as [l m2]. split_and!; [done|done|by eapply same_keys_trans].
Qed.

(** Two requests, one of them twice; the first is answered, and then received again. *)
Lemma responder_jar_refines_witness :
  let k1 := (9, 3, 2, 0x11) in let k2 := (9, 4, 2, 0x11) in
  let h : gmap positive pldm_responder_cookie :=
    list_to_map [(1%positive, Cookie (0, 0, 0, 0) None); (2%positive, Cookie k1 (Some 77%positive));
                 (3%positive, Cookie k2 None); (4%positive, Cookie k1 None)] in
  exists h', jar_run 1 [Track 2; Track 3; Track 4; Untrack k1; Track 4; Untrack k1; Untrack (9, 5, 2, 0x11)] h
    = Ok ([Tracked 0; Tracked 0; Tracked (-11); Untracked (Some 2%positive); Tracked 0;
           Untracked (Some 4%positive); Untracked None], h') /\
    represents h' 1 {[ k2 := 3%positive ]}.
Proof.
  intros k1 k2 h.
  destruct (responder_jar_refines h 1 ∅ [Track 2; Track 3; Track 4; Untrack k1; Track 4; Untrack k1; Untrack (9, 5, 2, 0x11)])
    as (h' & Hrun & Hr & _).
  - exists []. split; [|intros k a; rewrite lookup_empty; split; [done|intros Hin; by apply elem_of_nil in Hin]].
    constructor; [by repeat eexists|apply list.NoDup_singleton|apply NoDup_nil_2].
  - repeat constructor; try done; by eexists.
  - exists h'. split; [rewrite Hrun; f_equal|]. 
    replace ({[k2 := 3%positive]}) with (map_run (fun a => ck_key <$> h !! a) [Track 2; Track 3; Track 4; Untrack k1; Track 4; Untrack k1; Untrack (9, 5, 2, 0x11)] ∅).2; [done|].
    vm_compute. reflexivity.
Defined.
