(* ===== verification/Transport.v ===== *)
(** * Transports (src/transport/transport.c)

    The library sends and receives through a table of functions that a transport fills
    in.  The generic layer adds polling, checks, and the exchange of a request and its
    response within the time that the specification allows.  A transport is an interface
    with laws: what it hands over is a fresh block of the C heap, and on an error it
    leaves the heap as it was. *)

From stdpp Require Import gmap.
From S2P Require Import Prelude Msgbuf Layout Base Responder.

Local Open Scope Z_scope.

(** enum pldm_requester_error_codes (include/libpldm/pldm.h) *)
Abbreviation PLDM_REQUESTER_NOT_PLDM_MSG := (-2) (only parsing).
Abbreviation PLDM_REQUESTER_NOT_REQ_MSG := (-4) (only parsing).
Abbreviation PLDM_REQUESTER_SEND_FAIL := (-7) (only parsing).
Abbreviation PLDM_REQUESTER_RECV_FAIL := (-8) (only parsing).
Abbreviation PLDM_REQUESTER_INVALID_RECV_LEN := (-9) (only parsing).
Abbreviation PLDM_REQUESTER_SETUP_FAIL := (-10) (only parsing).
Abbreviation PLDM_REQUESTER_POLL_FAIL := (-12) (only parsing).
Abbreviation PLDM_REQUESTER_TRANSPORT_BUSY := (-13) (only parsing).

Abbreviation PLDM_MAX_TIDS := 256 (only parsing).
Abbreviation LONG_MAX := 9223372036854775807 (only parsing).
Abbreviation INT_MAX := 2147483647 (only parsing).

(** ** Memory of messages *)

(** The messages in the heap, by the names of their blocks. *)
Abbreviation msgs := (gmap positive (list Z)) (only parsing).

(** What malloc of a message may answer. *)
Class MsgAllocator := {
  new_msg : gmap positive (list Z) -> Z -> option positive;
  new_msg_fresh : forall m n p, new_msg m n = Some p -> m !! p = None
}.

(** ** Transports and the system *)

Section transport.
(** [W]: the state of the transport and of the system under it. *)
Context {W : Type}.

Abbreviation TM := (stM (W * gmap positive (list Z))) (only parsing).

(** struct pldm_transport: recv gives an error, or who sent the message, the block it is
    in and its length; init_pollfd a return code and the file descriptor. *)
Record pldm_transport := Transport {
  t_recv : TM (Z + Z * positive * Z);
  t_send : Z -> cmem -> Z -> TM Z;
  t_init_pollfd : option (TM (Z * Z))
}.

(** poll(2) for input on a descriptor, and libpldm_clock_gettime: seconds and nanoseconds. *)
Record host := Host {
  sys_poll : Z -> Z -> W -> Z * W;
  clock_gettime : W -> option (Z * Z) * W
}.

(** A call that does not touch the messages. *)
Definition on_world {A} (f : W -> A * W) : TM A := fun '(w, m) => let '(a, w) := f w in Ok (a, (w, m)).

(** free(3) *)
Definition free_msg (p : option positive) : TM unit := fun '(w, m) =>
  match p with
  | None => Ok (tt, (w, m))
  | Some p => match m !! p with Some _ => Ok (tt, (w, delete p m)) | None => Fault FMemory end
  end.

(** The header at the start of bytes. *)
Definition header_at (l : list Z) : outcome pldm_msg_hdr :=
  match hdr_parse (take 3 l) with Some h => Ok h | None => Fault FMemory end.

Definition msg_header (p : option positive) : TM pldm_msg_hdr := fun '(w, m) =>
  match p with
  | None => Fault FMemory
  | Some p => match m !! p with
              | Some l => h ← header_at l; mret (h, (w, m))
              | None => Fault FMemory
              end
  end.

Context (sys : host).

Definition pldm_transport_poll (transport : option pldm_transport) (timeout : Z) : TM Z :=
  match transport with
  | None => mret PLDM_REQUESTER_INVALID_SETUP
  | Some t =>
    match t_init_pollfd t with
    | None => mret 1
    | Some init_pollfd =>
      '(rc, fd) ← init_pollfd;
      if rc <? 0 then mret PLDM_REQUESTER_POLL_FAIL
      else
      rc ← on_world (sys_poll sys fd timeout);
      if rc <? 0 then mret PLDM_REQUESTER_POLL_FAIL else mret rc
    end
  end.

Definition pldm_transport_send_msg (transport : option pldm_transport) (tid : Z) (pldm_msg : option cmem)
    (msg_len : Z) : TM Z :=
  match transport, pldm_msg with
  | Some t, Some msg =>
    if msg_len <? 3 then mret PLDM_REQUESTER_NOT_REQ_MSG else t_send t tid msg msg_len
  | _, _ => mret PLDM_REQUESTER_INVALID_SETUP
  end.

(** The code, and what *tid, *pldm_msg and *msg_len become. *)
Definition pldm_transport_recv_msg (transport : option pldm_transport) (tid : Z) (pldm_msg : option positive)
    (msg_len : option Z) : TM (Z * Z * option positive * option Z) :=
  match transport, msg_len with
  | Some t, Some _ =>
    r ← t_recv t;
    match r with
    | inl rc => mret (rc, tid, pldm_msg, msg_len)
    | inr (src, p, length) =>
      if length <? 3 then
        _ ← free_msg (Some p);
        mret (PLDM_REQUESTER_INVALID_RECV_LEN, src, None, Some length)
      else mret (PLDM_REQUESTER_SUCCESS, src, Some p, Some length)
    end
  | _, _ => mret (PLDM_REQUESTER_INVALID_SETUP, tid, pldm_msg, msg_len)
  end.

(** ** Time *)

Record timeval := Timeval { tv_sec : Z; tv_usec : Z }.

(** A long: beyond it, signed overflow. *)
Definition as_long (z : Z) : outcome Z := _ ← c_assert ((- LONG_MAX - 1 <=? z) && (z <=? LONG_MAX)); mret z.

Definition timespec_to_timeval (ts : Z * Z) : timeval := Timeval ts.1 (Z.quot ts.2 1000).

Definition timeval_to_msec (tv : timeval) : outcome Z :=
  a ← as_long (tv_sec tv * 1000);
  as_long (a + Z.quot (tv_usec tv) 1000).

Definition timeval_validate_for_msec (tv : timeval) : bool :=
  if (tv_sec tv <? 0) || (tv_usec tv <? 0) || (1000000 <=? tv_usec tv) then false
  else if (LONG_MAX - 1000) / 1000 <? tv_sec tv then false
  else true.

Definition clock_gettimeval : TM (option timeval) :=
  r ← on_world (clock_gettime sys);
  mret (timespec_to_timeval <$> r).

(** timeradd(3), timersub(3), timercmp(3) *)
Definition timeradd (a b : timeval) : outcome timeval :=
  sec ← as_long (tv_sec a + tv_sec b);
  let usec := tv_usec a + tv_usec b in
  if 1000000 <=? usec then sec ← as_long (sec + 1); mret (Timeval sec (usec - 1000000))
  else mret (Timeval sec usec).

Definition timersub (a b : timeval) : outcome timeval :=
  sec ← as_long (tv_sec a - tv_sec b);
  let usec := tv_usec a - tv_usec b in
  if usec <? 0 then sec ← as_long (sec - 1); mret (Timeval sec (usec + 1000000))
  else mret (Timeval sec usec).

Definition timer_before (a b : timeval) : bool :=
  if tv_sec a =? tv_sec b then tv_usec a <? tv_usec b else tv_sec a <? tv_sec b.

Definition max_response_interval : timeval := Timeval 4 800000.

(** ** A request and its response *)

(** The messages that are thrown away before a request is sent: at most
    (PLDM_INSTANCE_MAX + 1) * PLDM_MAX_TIDS = 8192. *)
Definition max_stale : Z := (PLDM_INSTANCE_MAX + 1) * PLDM_MAX_TIDS.

(** The loop from [cnt] on, [rounds] rounds before the counter ends it: the counter, and
    what *pldm_resp_msg and *resp_msg_len are then. *)
Fixpoint drain (rounds : nat) (transport : option pldm_transport) (cnt : Z) (resp : option positive) (resp_len : option Z)
  : TM (Z * option positive * option Z) :=
  match rounds with
  | O => mret (cnt, resp, resp_len)
  | S rounds =>
    rc ← pldm_transport_poll transport 0;
    if negb (rc =? 1) then mret (cnt, resp, resp_len)
    else
    '(rc, _, resp, resp_len) ← pldm_transport_recv_msg transport 0 resp resp_len;
    if rc =? PLDM_REQUESTER_SUCCESS then
      _ ← free_msg resp;
      drain rounds transport (cnt + 1) resp resp_len
    else drain rounds transport (cnt + 1) resp resp_len
  end.

(** The loop that waits for the response until [last]; a round takes time. *)
Fixpoint await (fuel : nat) (transport : option pldm_transport) (tid : Z) (req : pldm_msg_hdr) (now last : timeval)
    (resp : option positive) (resp_len : option Z) : TM (Z * option positive * option Z) :=
  match fuel with
  | O => fun _ => Fault FFuel
  | S fuel =>
    if negb (timer_before now last) then mret (PLDM_REQUESTER_RECV_FAIL, resp, resp_len)
    else
    remaining ← lift (timersub last now);
    if negb (timeval_validate_for_msec remaining) then mret (PLDM_REQUESTER_POLL_FAIL, resp, resp_len)
    else
    msec ← lift (timeval_to_msec remaining);
    ret ← pldm_transport_poll transport (to_signed 32 (u32 msec));
    if ret <=? 0 then mret (PLDM_REQUESTER_RECV_FAIL, resp, resp_len)
    else
    now ← clock_gettimeval;
    match now with
    | None => mret (PLDM_REQUESTER_POLL_FAIL, resp, resp_len)
    | Some now =>
      '(rc, src_tid, resp, resp_len) ← pldm_transport_recv_msg transport 0 resp resp_len;
      if negb (rc =? PLDM_REQUESTER_SUCCESS) then await fuel transport tid req now last resp resp_len
      else if negb (src_tid =? tid) then
        _ ← free_msg resp;
        await fuel transport tid req now last resp resp_len
      else
      h ← msg_header resp;
      if negb (pldm_msg_hdr_correlate_response req h) then
        _ ← free_msg resp;
        await fuel transport tid req now last resp resp_len
      else mret (PLDM_REQUESTER_SUCCESS, resp, resp_len)
    end
  end.

(** Once the stale messages are gone. *)
Definition exchange (fuel : nat) (transport : option pldm_transport) (tid : Z) (msg : cmem) (req_len : Z)
    (req : pldm_msg_hdr) (resp : option positive) (resp_len : option Z) : TM (Z * option positive * option Z) :=
  rc ← pldm_transport_send_msg transport tid (Some msg) req_len;
  if negb (rc =? PLDM_REQUESTER_SUCCESS) then mret (rc, resp, resp_len)
  else
  now ← clock_gettimeval;
  match now with
  | None => mret (PLDM_REQUESTER_POLL_FAIL, resp, resp_len)
  | Some now =>
    last ← lift (timeradd now max_response_interval);
    await fuel transport tid req now last resp resp_len
  end.

(** [resp] and [resp_len] are what the pointers lead to; [fuel] bounds the rounds of waiting. *)
Definition pldm_transport_send_recv_msg (fuel : nat) (transport : option pldm_transport) (tid : Z)
    (pldm_req_msg : option cmem) (req_len : Z) (resp : option positive) (resp_len : option Z)
  : TM (Z * option positive * option Z) :=
  if (req_len <? 3) || negb (bool_decide (is_Some resp_len)) then mret (PLDM_REQUESTER_INVALID_SETUP, resp, resp_len)
  else
  match pldm_req_msg with
  | None => fun _ => Fault FMemory
  | Some msg =>
    req ← lift (header_at (bytes msg));
    if request req =? 0 then mret (PLDM_REQUESTER_NOT_REQ_MSG, resp, resp_len)
    else
    '(cnt, resp, resp_len) ← drain (S (Z.to_nat max_stale)) transport 0 resp resp_len;
    if cnt =? max_stale then mret (PLDM_REQUESTER_TRANSPORT_BUSY, resp, resp_len)
    else exchange fuel transport tid msg req_len req resp resp_len
  end.
End transport.
Arguments pldm_transport : clear implicits.
Arguments host : clear implicits.
