(* ===== verification/TransportProps.v ===== *)
(** * The exchange of messages over any transport

    What transport.c needs of a transport and of the system, and what it then promises:
    an exchange ends, no block is freed twice or forgotten, and a response that is handed
    over answers the request and is from the terminus it was sent to. *)

From stdpp Require Import gmap.
From S2P Require Import Prelude Msgbuf Layout Base Responder Transport.

Local Open Scope Z_scope.

(** ** Computations and their results *)

Definition gives {S A} (c : stM S A) (s : S) (Q : A -> S -> Prop) : Prop :=
  exists a s', c s = Ok (a, s') /\ Q a s'.

Lemma gives_ret {S A} (a : A) (s : S) (Q : A -> S -> Prop) : Q a s -> gives (mret a) s Q.
Proof. intros. by exists a, s. Qed.

Lemma gives_bind {S A B} (c : stM S A) (k : A -> stM S B) s Q Q' :
  gives c s Q -> (forall a s', Q a s' -> gives (k a) s' Q') -> gives (c ≫= k) s Q'.
Proof.
  intros (a & s' & E & H) Hk. destruct (Hk a s' H) as (b & s'' & E' & H'). exists b, s''.
  split; [|done]. unfold mbind, stM_bind. by rewrite E.
Qed.

Lemma gives_step {S A B} (c : stM S A) (k : A -> stM S B) s a s1 Q :
  c s = Ok (a, s1) -> gives (k a) s1 Q -> gives (c ≫= k) s Q.
Proof. intros E (b & s' & E' & H). exists b, s'. split; [|done]. unfold mbind, stM_bind. by rewrite E. Qed.

Lemma gives_lift {S A B} (o : outcome A) a (k : A -> stM S B) (s : S) Q :
  o = Ok a -> gives (k a) s Q -> gives (lift o ≫= k) s Q.
Proof. intros -> (b & s' & E & H). exists b, s'. split; [|done]. unfold mbind, stM_bind, lift. exact E. Qed.

(** A loop ends with such a result, or its fuel runs out, and then there was not [enough]. *)
Definition yields {S A} (enough : Prop) (c : stM S A) (s : S) (Q : A -> S -> Prop) : Prop :=
  gives c s Q \/ c s = Fault FFuel /\ ~ enough.

Lemma yields_enough {S A} (enough : Prop) (c : stM S A) s Q : enough -> yields enough c s Q -> gives c s Q.
Proof. intros He [?|[_ []]]; done. Qed.

Lemma yields_weaken {S A} (e e' : Prop) (c : stM S A) s Q : (e' -> e) -> yields e c s Q -> yields e' c s Q.
Proof. intros He [?|[? Hn]]; [by left|right]. split; [done|]. intros ?. by apply Hn, He. Qed.

Lemma yields_bind {S A B} e (c : stM S A) (k : A -> stM S B) s Q Q' :
  gives c s Q -> (forall a s', Q a s' -> yields e (k a) s' Q') -> yields e (c ≫= k) s Q'.
Proof.
  intros (a & s' & E & H) Hk. destruct (Hk a s' H) as [(b & s'' & E' & H')|[E' Hn]].
  - left. exists b, s''. split; [|done]. unfold mbind, stM_bind. by rewrite E.
  - right. split; [|done]. unfold mbind, stM_bind. by rewrite E.
Qed.

Lemma yields_step {S A B} e (c : stM S A) (k : A -> stM S B) s a s1 Q :
  c s = Ok (a, s1) -> yields e (k a) s1 Q -> yields e (c ≫= k) s Q.
Proof. intros E Hk. apply yields_bind with (Q := fun b s' => b = a /\ s' = s1); [by exists a, s1|]. by intros b s' [-> ->]. Qed.

Lemma yields_lift {S A B} e (o : outcome A) a (k : A -> stM S B) (s : S) Q :
  o = Ok a -> yields e (k a) s Q -> yields e (lift o ≫= k) s Q.
Proof. intros ->. by apply yields_step. Qed.

(** ** Time *)

Definition us (tv : timeval) : Z := tv_sec tv * 1000000 + tv_usec tv.
Definition tv_ok (tv : timeval) : Prop := 0 <= tv_sec tv <= 2 ^ 61 + 5 /\ 0 <= tv_usec tv < 1000000.

Lemma timer_before_us a b : tv_ok a -> tv_ok b -> timer_before a b = (us a <? us b).
Proof. unfold tv_ok, us, timer_before. intros [] []. destruct (Z.eqb_spec (tv_sec a) (tv_sec b)); lia. Qed.

Lemma as_long_ok z : - LONG_MAX - 1 <= z <= LONG_MAX -> as_long z = Ok z.
Proof. intros. unfold as_long, c_assert. by replace (_ && _) with true by lia. Qed.

Lemma timersub_us a b :
  tv_ok a -> tv_ok b -> us b <= us a ->
  exists r, timersub a b = Ok r /\ us r = us a - us b /\ 0 <= tv_sec r /\ 0 <= tv_usec r < 1000000.
Proof.
  unfold tv_ok, us, timersub. intros [Ha1 Ha2] [Hb1 Hb2] Hle. rewrite as_long_ok by lia. cbn [mbind outcome_bind].
  destruct (Z.ltb_spec (tv_usec a - tv_usec b) 0).
  - rewrite as_long_ok by lia. eexists. split; [reflexivity|]. cbn [tv_sec tv_usec]. lia.
  - eexists. split; [reflexivity|]. cbn [tv_sec tv_usec]. lia.
Qed.

Lemma interval_end now : tv_ok now -> tv_sec now <= 2 ^ 61 ->
  exists r, timeradd now max_response_interval = Ok r /\ us r = us now + 4800000 /\ tv_ok r.
Proof.
  unfold tv_ok, us, timeradd, max_response_interval. cbn [tv_sec tv_usec]. intros [Ha1 Ha2] Hb.
  rewrite as_long_ok by lia. cbn [mbind outcome_bind]. destruct (Z.leb_spec 1000000 (tv_usec now + 800000)).
  - rewrite as_long_ok by lia. eexists. split; [reflexivity|]. cbn [tv_sec tv_usec]. lia.
  - eexists. split; [reflexivity|]. cbn [tv_sec tv_usec]. lia.
Qed.

(** What is left of the interval, in milliseconds. *)
Lemma remaining_msec r :
  0 <= tv_sec r -> 0 <= tv_usec r < 1000000 -> us r <= 4800000 ->
  timeval_validate_for_msec r = true /\
  exists ms, timeval_to_msec r = Ok ms /\ 0 <= ms <= 4800 /\ to_signed 32 (u32 ms) = ms.
Proof.
  unfold us, timeval_validate_for_msec, timeval_to_msec. intros Hs Hu Hle. split.
  - replace ((tv_sec r <? 0) || (tv_usec r <? 0) || (1000000 <=? tv_usec r)) with false by lia.
    change ((LONG_MAX - 1000) / 1000) with 9223372036854774. by replace (9223372036854774 <? tv_sec r) with false by lia.
  - rewrite Z.quot_div_nonneg by lia.
    assert (0 <= tv_usec r / 1000 <= tv_usec r) as Hq by (split; [apply Z.div_pos|apply Z.div_le_upper_bound]; lia).
    pose proof (Z.mul_div_le (tv_usec r) 1000 ltac:(lia)).
    rewrite as_long_ok by lia. cbn [mbind outcome_bind]. rewrite as_long_ok by lia.
    eexists. split; [reflexivity|]. split; [lia|]. unfold u32, to_signed. rewrite Z.mod_small by lia.
    by replace (_ <? _) with true by lia.
Qed.

(** ** What a transport promises *)

Section exchange.
Context {W : Type} (t : pldm_transport W) (sys : host W).

(** [P] holds of the states that are reached; [R tid l]: the transport may say that [l]
    is from [tid]; [time] is the time, in parts of which a microsecond has [res]. *)
Context (P : W -> Prop) (R : Z -> list Z -> Prop) (res : Z) (time : W -> Z).

Class TransportLaws : Prop := {
  recv_law : forall w m, P w -> exists r w' m', t_recv t (w, m) = Ok (r, (w', m')) /\ P w' /\ time w <= time w' /\
    match r with
    | inl rc => rc <> PLDM_REQUESTER_SUCCESS /\ m' = m
    | inr (tid, p, n) => exists l, m !! p = None /\ m' = <[p := l]> m /\ n = len l /\ bytes_ok l /\ R tid l
    end;
  send_law : forall tid msg n w m, P w -> mem_ok msg -> 3 <= n <= mem_size msg ->
    exists rc w', t_send t tid msg n (w, m) = Ok (rc, (w', m)) /\ P w' /\ time w <= time w';
  pollfd_law : forall f, t_init_pollfd t = Some f -> forall w m, P w ->
    exists rc fd w', f (w, m) = Ok ((rc, fd), (w', m)) /\ P w' /\ time w <= time w'
}.

(** poll(2) is asked to wait for 0 to 4800 ms.  The monotonic clock does not go back; it
    may say the same at two readings. *)
Class HostLaws : Prop := {
  res_law : 0 < res;
  poll_law : forall fd ms w, P w -> 0 <= ms <= 4800 -> P (sys_poll sys fd ms w).2 /\ time w <= time (sys_poll sys fd ms w).2;
  clock_law : forall w, P w -> P (clock_gettime sys w).2 /\ time w <= time (clock_gettime sys w).2 /\
    forall s ns, (clock_gettime sys w).1 = Some (s, ns) ->
      0 <= s <= 2 ^ 61 /\ 0 <= ns < 1000000000 /\ time (clock_gettime sys w).2 / res = s * 1000000 + ns / 1000
}.

(** Time passes: of all readings, at most [res] say the same microsecond. *)
Class ClockRuns : Prop := {
  runs_law : forall w, P w -> time w < time (clock_gettime sys w).2
}.

Context {HT : TransportLaws} {HH : HostLaws}.

(** A state that is reached later, with the same messages. *)
Definition later (w : W) (m : gmap positive (list Z)) (s : W * gmap positive (list Z)) : Prop :=
  P s.1 /\ time w <= time s.1 /\ s.2 = m.

Lemma poll_gives w m ms : P w -> 0 <= ms <= 4800 -> gives (pldm_transport_poll sys (Some t) ms) (w, m) (fun _ => later w m).
Proof.
  intros Hw Hms. unfold pldm_transport_poll. destruct (t_init_pollfd t) as [f|] eqn:Ef; [|by apply gives_ret].
  destruct (pollfd_law f Ef w m Hw) as (rc & fd & w1 & E & Hw1 & Ht1).
  apply gives_bind with (Q := fun _ => later w m); [by exists (rc, fd), (w1, m)|].
  intros [rc' fd'] [w2 m2] (Hw2 & Ht2 & E2). cbn [fst snd] in *. subst m2. destruct (rc' <? 0); [by apply gives_ret|].
  pose proof (poll_law fd' ms w2 Hw2 Hms) as [Hw3 Ht3].
  apply gives_bind with (Q := fun _ => later w m).
  - exists (sys_poll sys fd' ms w2).1, ((sys_poll sys fd' ms w2).2, m).
    split; [unfold on_world; by destruct (sys_poll sys fd' ms w2)|]. split_and!; [done|cbn; lia|done].
  - intros rc2 s Hs. destruct (rc2 <? 0); by apply gives_ret.
Qed.

Lemma clock_gives w m :
  P w -> gives (clock_gettimeval sys) (w, m) (fun r s => later w m s /\ (ClockRuns -> time w < time s.1) /\
    forall tv, r = Some tv -> tv_ok tv /\ tv_sec tv <= 2 ^ 61 /\ us tv = time s.1 / res).
Proof.
  intros Hw. destruct (clock_law w Hw) as (Hw' & Ht & Htv). unfold clock_gettimeval.
  assert (ClockRuns -> time w < time (clock_gettime sys w).2) as Hruns by (intros HC; by apply runs_law).
  destruct (clock_gettime sys w) as [r w'] eqn:E. cbn [fst snd] in *.
  eexists _, (w', m). split; [unfold mbind, stM_bind, on_world; rewrite E; reflexivity|].
  split; [split_and!; [done|cbn; lia|done]|]. split; [done|]. intros tv Hr. destruct r as [[s ns]|]; [|done].
  injection Hr as <-. destruct (Htv s ns eq_refl) as (Hs & Hns & Heq). unfold tv_ok, us, timespec_to_timeval. cbn [tv_sec tv_usec fst snd].
  rewrite Z.quot_div_nonneg by lia. cbn [fst].
  assert (0 <= ns / 1000 < 1000000) by (split; [apply Z.div_pos|apply Z.div_lt_upper_bound]; lia). lia.
Qed.

(** A message that was received, in a block of its own. *)
Definition received (m : gmap positive (list Z)) (src : Z) (resp : option positive) (n : option Z)
    (m' : gmap positive (list Z)) : Prop :=
  exists p l, resp = Some p /\ m !! p = None /\ m' = <[p := l]> m /\ n = Some (len l) /\ 3 <= len l /\
    bytes_ok l /\ R src l.

Lemma recv_gives w m tid resp n :
  P w -> gives (pldm_transport_recv_msg (Some t) tid resp (Some n)) (w, m) (fun '(rc, src, resp', n') s =>
    P s.1 /\ time w <= time s.1 /\ is_Some n' /\ (exists r m1, t_recv t (w, m) = Ok (r, (s.1, m1))) /\
    if rc =? PLDM_REQUESTER_SUCCESS then received m src resp' n' s.2 else s.2 = m).
Proof.
  intros Hw. unfold pldm_transport_recv_msg.
  destruct (recv_law w m Hw) as (r & w1 & m1 & E & Hw1 & Ht1 & Hr).
  unfold gives, mbind, stM_bind. rewrite E. destruct r as [rc|[[src p] k]].
  - destruct Hr as [Hrc ->]. eexists _, _. split; [reflexivity|]. cbn [fst snd].
    replace (rc =? 0) with false by lia. eauto 10.
  - destruct Hr as (l & Hp & -> & -> & Hl & HR). destruct (Z.ltb_spec (len l) 3).
    + unfold free_msg. rewrite lookup_insert_eq. eexists _, _. split; [reflexivity|]. cbn.
      rewrite delete_insert_id by done. split_and!; eauto 10.
    + eexists _, _. split; [reflexivity|]. cbn. split_and!; eauto 10. exists p, l. auto 10.
Qed.

Lemma free_received (w : W) m src resp n m' : received m src resp n m' ->
  free_msg resp (w, m') = Ok (tt, (w, m)).
Proof.
  intros (p & l & -> & Hp & -> & _). unfold free_msg. rewrite lookup_insert_eq. by rewrite delete_insert_id.
Qed.

Lemma header_at_ok l : 3 <= len l -> exists h, header_at l = Ok h.
Proof.
  unfold len, header_at. destruct l as [|a [|b [|c l]]]; cbn [length]; [lia..|]. intros _. cbn. by eexists.
Qed.

(** ** Before the request *)

Lemma drain_gives rounds w m cnt resp n :
  P w -> gives (drain sys rounds (Some t) cnt resp (Some n)) (w, m) (fun '(cnt', _, n') s => later w m s /\ is_Some n').
Proof.
  revert w cnt resp n. induction rounds as [|rounds IH]; intros w cnt resp n Hw; cbn [drain].
  - apply gives_ret. split; [split_and!; [done|cbn; lia|done]|by eexists].
  - eapply gives_bind; [apply poll_gives; [done|lia]|]. intros rc [w1 m1] (Hw1 & Ht1 & E1). cbn [fst snd] in *. subst m1.
    destruct (rc =? 1); cbn [negb]; [|apply gives_ret; split; [split_and!; done|by eexists]].
    eapply gives_bind; [by apply recv_gives|]. intros [[[rc2 src] resp2] n2] [w2 m2] (Hw2 & Ht2 & [k ->] & _ & Hr). cbn [fst snd] in *.
    assert (forall r, gives (drain sys rounds (Some t) (cnt + 1) r (Some k)) (w2, m) (fun '(cnt', _, n') s => later w m s /\ is_Some n')) as Hgo.
    { intros r. destruct (IH w2 (cnt + 1) r k Hw2) as ([[c r'] n'] & s & E & (Hp & Ht & Hm) & Hn).
      exists (c, r', n'), s. split; [done|]. split; [|done]. split_and!; [done|lia|done]. }
    destruct (rc2 =? 0).
    + eapply gives_step; [by eapply free_received|apply Hgo].
    + subst m2. apply Hgo.
Qed.

(** ** The response *)

(** What is handed over: nothing, or a message of the terminus that answers the request. *)
Definition answered (tid : Z) (req : pldm_msg_hdr) (m : gmap positive (list Z)) (rc : Z) (resp : option positive)
    (n : option Z) (m' : gmap positive (list Z)) : Prop :=
  if rc =? PLDM_REQUESTER_SUCCESS then
    exists p l h, resp = Some p /\ m !! p = None /\ m' = <[p := l]> m /\ n = Some (len l) /\ 3 <= len l /\
      R tid l /\ header_at l = Ok h /\ pldm_msg_hdr_correlate_response req h = true
  else m' = m.

Definition exchanged (tid : Z) (req : pldm_msg_hdr) (m : gmap positive (list Z)) (r : Z * option positive * option Z)
    (s : W * gmap positive (list Z)) : Prop :=
  P s.1 /\ answered tid req m r.1.1 r.1.2 r.2 s.2.

(** [tick] is the time at which the clock said [now]. *)
Lemma await_yields fuel w m tid req now last tick resp n :
  P w -> tv_ok now -> tv_ok last -> us now = tick / res -> tick <= time w -> us last <= us now + 4800000 ->
  yields (ClockRuns /\ 0 < Z.of_nat fuel /\ us last * res - tick < Z.of_nat fuel)
    (await sys fuel (Some t) tid req now last resp (Some n)) (w, m) (exchanged tid req m).
Proof.
  pose proof res_law as Hres.
  revert w now tick resp n. induction fuel as [|fuel IH]; intros w now tick resp n Hw Hnow Hlast Hus Htick Hend.
  { right. split; [done|]. intros (_ & ? & _). lia. }
  cbn [await]. rewrite timer_before_us by done. destruct (Z.ltb_spec (us now) (us last)) as [Hlt|]; cbn [negb].
  2: { left. by apply gives_ret. }
  destruct (timersub_us last now) as (r & Er & Hur & Hs & Hu); [done|done|lia|].
  eapply yields_lift; [exact Er|]. destruct (remaining_msec r Hs Hu) as (-> & ms & Ems & Hms & Hint); [lia|]. cbn [negb].
  eapply yields_lift; [exact Ems|]. rewrite Hint.
  eapply yields_bind; [by apply poll_gives|]. intros ret [w1 m1] (Hw1 & Ht1 & E1). cbn [fst snd] in *. subst m1.
  destruct (ret <=? 0); [left; by apply gives_ret|].
  eapply yields_bind; [by apply clock_gives|]. intros tv [w2 m2] ((Hw2 & Ht2 & E2) & Ht2' & Htv). cbn [fst snd] in *. subst m2.
  destruct tv as [now'|]; [|left; by apply gives_ret]. destruct (Htv now' eq_refl) as (Hnow' & Hsec & Hus').
  eapply yields_bind; [by apply recv_gives|]. intros [[[rc src] resp2] n2] [w3 m3] (Hw3 & Ht3 & [k ->] & _ & Hr). cbn [fst snd] in *.
  assert (us now <= us now') as Hmono by (rewrite Hus, Hus'; apply Z.div_le_mono; lia).
  assert (tick < us last * res) as Hleft.
  { pose proof (Z.div_mod tick res ltac:(lia)). pose proof (Z.mod_pos_bound tick res Hres). rewrite Hus in Hlt. nia. }
  assert (forall r', yields (ClockRuns /\ 0 < Z.of_nat (S fuel) /\ us last * res - tick < Z.of_nat (S fuel))
    (await sys fuel (Some t) tid req now' last r' (Some k)) (w3, m) (exchanged tid req m)) as Hgo.
  { intros r'. eapply yields_weaken; [|apply (IH w3 now' (time w2) r' k); (done || lia)].
    intros (Hc & _ & Hf). specialize (Ht2' Hc). split; [done|]. lia. }
  destruct (rc =? 0) eqn:Erc; cbn [negb]; [|subst m3; apply Hgo].
  destruct (Z.eqb_spec src tid) as [->|]; cbn [negb].
  2: { eapply yields_step; [by eapply free_received|apply Hgo]. }
  destruct Hr as (p & l & -> & Hp & -> & [= ->] & Hl & Hb & HR). destruct (header_at_ok l Hl) as [h Eh].
  eapply yields_step with (a := h) (s1 := (w3, <[p := l]> m)).
  { unfold msg_header. by rewrite lookup_insert_eq, Eh. }
  destruct (pldm_msg_hdr_correlate_response req h) eqn:Ec; cbn [negb].
  - left. apply gives_ret. split; [done|]. unfold answered. cbn. exists p, l, h. auto 10.
  - eapply yields_step with (s1 := (w3, m)); [|apply Hgo].
    unfold free_msg. rewrite lookup_insert_eq. by rewrite delete_insert_id.
Qed.

Lemma exchange_yields fuel w m tid msg n req resp k :
  P w -> mem_ok msg -> 3 <= n <= mem_size msg ->
  yields (ClockRuns /\ 4800000 * res < Z.of_nat fuel)
    (exchange sys fuel (Some t) tid msg n req resp (Some k)) (w, m) (exchanged tid req m).
Proof.
  intros Hw Hmsg Hn. pose proof res_law as Hres. unfold exchange.
  destruct (send_law tid msg n w m Hw Hmsg Hn) as (rc & w1 & E1 & Hw1 & Ht1).
  eapply yields_step with (a := rc) (s1 := (w1, m)).
  { unfold pldm_transport_send_msg. replace (n <? 3) with false by lia. exact E1. }
  destruct (rc =? 0) eqn:Erc; cbn [negb].
  2: { left. apply gives_ret. split; [done|]. unfold answered. cbn [fst snd]. by rewrite Erc. }
  eapply yields_bind; [by apply clock_gives|]. intros tv [w2 m2] ((Hw2 & Ht2 & E2) & Ht2' & Htv). cbn [fst snd] in *. subst m2.
  destruct tv as [now|]; [|left; by apply gives_ret]. destruct (Htv now eq_refl) as (Hnow & Hsec & Hus).
  destruct (interval_end now Hnow Hsec) as (last & El & Hl & Hlok). eapply yields_lift; [exact El|].
  eapply yields_weaken; [|by apply (await_yields fuel w2 m tid req now last (time w2)); (done || lia)].
  intros [Hc Hf]. split; [done|]. split; [nia|]. rewrite Hl, Hus.
  pose proof (Z.mul_div_le (time w2) res Hres). pose proof (Z.mod_pos_bound (time w2) res Hres).
  pose proof (Z.div_mod (time w2) res ltac:(lia)). pose proof (Z.mul_comm (time w2 / res) res). lia.
Qed.

(** ** How many stale messages there are *)

Section queue.
(** [q]: the messages that wait to be received; none arrive meanwhile. *)
Context (q : W -> nat).

Class QueueLaws : Prop := {
  queue_poll : forall w m, P w -> gives (pldm_transport_poll sys (Some t) 0) (w, m)
    (fun rc s => q s.1 = q w /\ (rc = 1 <-> q w <> 0%nat));
  queue_recv : forall w m r w' m', P w -> t_recv t (w, m) = Ok (r, (w', m')) -> q w <> 0%nat -> q w' = (q w - 1)%nat
}.

Context {HQ : QueueLaws}.

Lemma gives_and {S A} (c : stM S A) s Q Q' : gives c s Q -> gives c s Q' -> gives c s (fun a s => Q a s /\ Q' a s).
Proof. intros (a & s1 & E & H) (b & s2 & E' & H'). rewrite E in E'. injection E' as <- <-. by exists a, s1. Qed.

(** The loop stops when the queue is empty, and after its last round. *)
Lemma drain_queue rounds w m cnt resp n :
  P w -> gives (drain sys rounds (Some t) cnt resp (Some n)) (w, m) (fun '(cnt', _, n') s =>
    later w m s /\ is_Some n' /\ cnt' = cnt + Z.of_nat (Nat.min (q w) rounds) /\ q s.1 = (q w - rounds)%nat).
Proof.
  revert w cnt resp n. induction rounds as [|rounds IH]; intros w cnt resp n Hw; cbn [drain].
  - apply gives_ret. split; [split; [done|split; [cbn; lia|done]]|]. split; [by eexists|]. cbn [fst]. lia.
  - eapply gives_bind; [apply gives_and; [apply poll_gives; [done|lia]|by apply queue_poll]|].
    intros rc [w1 m1] ((Hw1 & Ht1 & E1) & Hq1 & Hrc). cbn [fst snd] in *. subst m1.
    destruct (Z.eqb_spec rc 1) as [Hr1|Hr1]; cbn [negb].
    2: { assert (q w = 0%nat) as H0 by (destruct (decide (q w = 0%nat)) as [|H0]; [done|by apply Hrc in H0]).
         apply gives_ret. split; [done|]. split; [by eexists|]. cbn [fst]. lia. }
    apply Hrc in Hr1.
    eapply gives_bind; [by apply recv_gives|]. intros [[[rc2 src] resp2] n2] [w2 m2] (Hw2 & Ht2 & [k ->] & (r & mr & Er) & Hr). cbn [fst snd] in *.
    pose proof (queue_recv w1 m r w2 mr Hw1 Er ltac:(lia)) as Hq2.
    assert (forall r', gives (drain sys rounds (Some t) (cnt + 1) r' (Some k)) (w2, m) (fun '(cnt', _, n') s =>
      later w m s /\ is_Some n' /\ cnt' = cnt + Z.of_nat (Nat.min (q w) (S rounds)) /\ q s.1 = (q w - S rounds)%nat)) as Hgo.
    { intros r'. destruct (IH w2 (cnt + 1) r' k Hw2) as ([[c r''] n'] & s & E & (Hp & Ht & Hm) & Hn & Hc & Hqs).
      exists (c, r'', n'), s. split; [done|]. split; [split; [done|split; [lia|done]]|]. split; [done|]. lia. }
    destruct (rc2 =? 0).
    + eapply gives_step; [by eapply free_received|apply Hgo].
    + subst m2. apply Hgo.
Qed.
End queue.
End exchange.

Arguments TransportLaws {W} t P R time.
Arguments HostLaws {W} sys P res time.
Arguments ClockRuns {W} sys P time.
Arguments QueueLaws {W} t sys P q.

Lemma send_recv_yields {W : Type} (t : pldm_transport W) (sys : host W) (P : W -> Prop)
    (R : Z -> list Z -> Prop) res (time : W -> Z) fuel tid msg n req resp k w m :
  TransportLaws t P R time -> HostLaws sys P res time -> P w ->
  mem_ok msg -> 3 <= n <= mem_size msg -> header_at (bytes msg) = Ok req ->
  yields (ClockRuns sys P time /\ 4800000 * res < Z.of_nat fuel)
    (pldm_transport_send_recv_msg sys fuel (Some t) tid (Some msg) n resp (Some k)) (w, m) (exchanged P R tid req m).
Proof.
  intros HT HH Hw Hmsg Hn Hreq. unfold pldm_transport_send_recv_msg. replace (n <? 3) with false by lia.
  rewrite bool_decide_eq_true_2 by by eexists. cbn [negb orb]. eapply yields_lift; [exact Hreq|].
  destruct (request req =? 0); [left; by apply gives_ret|].
  eapply yields_bind; [by eapply drain_gives|]. intros [[cnt resp'] n'] [w1 m1] ((Hw1 & Ht1 & E1) & [k' ->]). cbn [fst snd] in *. subst m1.
  destruct (cnt =? max_stale); [left; by apply gives_ret|]. by eapply exchange_yields.
Qed.

(** C14: In an exchange over any transport nothing goes wrong, on a clock that does not go
    back: no block is freed twice, read when it is gone or forgotten, poll is only ever
    asked to wait between 0 and 4800 ms, and no time overflows.  If it succeeds, the one
    block that is new holds a whole message that the transport attributes to the terminus
    asked, and that answers the request: a response with the same instance id, type and
    command.  If it does not, the heap is as it was.  An exchange ends if time passes
    while it waits: when no more than [res] readings of the clock can say the same
    microsecond, it ends within 4800000 * [res] rounds.  The code has no other limit:
    [exchange_needs_time]. *)
Theorem transport_exchange {W : Type} (t : pldm_transport W) (sys : host W) (P : W -> Prop)
    (R : Z -> list Z -> Prop) res (time : W -> Z) fuel tid msg n req resp k w m :
  TransportLaws t P R time -> HostLaws sys P res time -> P w ->
  mem_ok msg -> 3 <= n <= mem_size msg -> header_at (bytes msg) = Ok req ->
  let run := pldm_transport_send_recv_msg sys fuel (Some t) tid (Some msg) n resp (Some k) in
  (gives run (w, m) (exchanged P R tid req m) \/ run (w, m) = Fault FFuel) /\
  (ClockRuns sys P time -> 4800000 * res < Z.of_nat fuel -> gives run (w, m) (exchanged P R tid req m)).
Proof.
  intros HT HH Hw Hmsg Hn Hreq run.
  pose proof (send_recv_yields t sys P R res time fuel tid msg n req resp k w m HT HH Hw Hmsg Hn Hreq) as H. split.
  - destruct H as [?|[? _]]; [by left|by right].
  - intros Hc Hf. eapply yields_enough; [|exact H]. done.
Qed.

(** Messages that nobody wants, as often as one looks, and a clock that stands still. *)
Definition babble : pldm_transport unit := Transport
  (fun s => Ok (inl PLDM_REQUESTER_RECV_FAIL, s)) (fun _ _ _ s => Ok (PLDM_REQUESTER_SUCCESS, s)) (Some (mret (0, 3))).
Definition stopped_host : host unit := Host (fun _ _ w => (1, w)) (fun w => (Some (0, 0), w)).

(** Without time that passes, waiting has no end. *)
Lemma exchange_needs_time fuel tid msg n req resp k m :
  3 <= n -> exchange stopped_host fuel (Some babble) tid msg n req resp (Some k) (tt, m) = Fault FFuel.
Proof.
  intros Hn. unfold exchange. replace (n <? 3) with false by lia.
  cbn -[await]. replace (n <? 3) with false by lia. cbn -[await].
  revert resp k. induction fuel as [|fuel IH]; intros resp k; [done|]. exact (IH resp k).
Qed.

(** When the transport is reported as busy.  With exactly 8192 messages waiting, the
    library receives them all, and then gives up without sending the request although
    none is left.  With any other number it sends: after it received all of them if there
    are less, with all but 8193 of them still waiting if there are more. *)
Theorem transport_busy {W : Type} (t : pldm_transport W) (sys : host W) (P : W -> Prop)
    (R : Z -> list Z -> Prop) res (time : W -> Z) (q : W -> nat) fuel tid msg n req resp k w m :
  TransportLaws t P R time -> HostLaws sys P res time -> QueueLaws t sys P q -> P w ->
  3 <= n -> header_at (bytes msg) = Ok req -> request req <> 0 ->
  exists w' resp' k', P w' /\ Z.of_nat (q w') = Z.max 0 (Z.of_nat (q w) - 8193) /\
    pldm_transport_send_recv_msg sys fuel (Some t) tid (Some msg) n resp (Some k) (w, m)
    = if decide (Z.of_nat (q w) = 8192) then Ok ((PLDM_REQUESTER_TRANSPORT_BUSY, resp', Some k'), (w', m))
      else exchange sys fuel (Some t) tid msg n req resp' (Some k') (w', m).
Proof.
  intros HT HH HQ Hw Hn Hreq Hreq0. unfold pldm_transport_send_recv_msg. replace (n <? 3) with false by lia.
  rewrite bool_decide_eq_true_2 by by eexists. cbn [negb orb].
  destruct (drain_queue t sys P R res time q (S (Z.to_nat max_stale)) w m 0 resp k Hw)
    as ([[cnt resp'] n'] & [w1 m1] & E & (Hw1 & Ht1 & E1) & [k' ->] & Hcnt & Hq). cbn [fst snd] in *. subst m1.
  exists w1, resp', k'. change max_stale with 8192 in *. assert (Z.of_nat (S (Z.to_nat 8192)) = 8193) as H8 by (rewrite Nat2Z.inj_succ, Z2Nat.id; lia).
  split; [done|]. split; [lia|].
  unfold mbind, stM_bind, lift. rewrite Hreq. replace (request req =? 0) with false by lia. rewrite E.
  destruct (decide _); [replace (cnt =? 8192) with true by lia|replace (cnt =? 8192) with false by lia]; done.
Qed.

(** ** A transport with a queue

    Messages in memory, in the order they were received.  A reading of the clock takes half
    a microsecond, so that two of them say the same. *)

Record inbox := Inbox { waiting : list (Z * list Z); half_us : Z }.

#[export] Program Instance fresh_allocator : MsgAllocator := {|
  new_msg m _ := Some (fresh (dom m))
|}.
Next Obligation. intros m _ p [= <-]. apply not_elem_of_dom, is_fresh. Qed.

Definition queue_recv_fn `{MsgAllocator} : stM (inbox * gmap positive (list Z)) (Z + Z * positive * Z) := fun '(w, m) =>
  match waiting w with
  | [] => Ok (inl PLDM_REQUESTER_RECV_FAIL, (w, m))
  | (tid, l) :: rest =>
    match new_msg m (len l) with
    | None => Ok (inl PLDM_REQUESTER_RECV_FAIL, (Inbox rest (half_us w), m))
    | Some p => Ok (inr (tid, p, len l), (Inbox rest (half_us w), <[p := l]> m))
    end
  end.

(** [reply] is what arrives when a message is sent. *)
Definition queue_transport `{MsgAllocator} (reply : list (Z * list Z)) : pldm_transport inbox :=
  Transport queue_recv_fn
    (fun _ _ _ '(w, m) => Ok (PLDM_REQUESTER_SUCCESS, (Inbox (waiting w ++ reply) (half_us w), m)))
    (Some (mret (0, 3))).

Definition queue_host : host inbox := Host
  (fun _ _ w => (match waiting w with [] => 0 | _ => 1 end, w))
  (fun w => (if half_us w <? 2 ^ 61 then Some ((half_us w + 1) / 2 / 1000000, (half_us w + 1) / 2 mod 1000000 * 1000) else None, Inbox (waiting w) (half_us w + 1))).

Definition inbox_ok (w : inbox) : Prop := Forall (fun m => bytes_ok m.2) (waiting w) /\ 0 <= half_us w.

Section queue_laws.
Context (al : MsgAllocator) (reply : list (Z * list Z)).
Hypothesis Hreply : Forall (fun m => bytes_ok m.2) reply.

Lemma queue_transport_laws : TransportLaws (queue_transport reply) inbox_ok (fun _ _ => True) half_us.
Proof.
  constructor.
  - intros [ws c] m [Hws Hc]. cbn [t_recv queue_transport]. unfold queue_recv_fn. cbn [waiting half_us] in *.
    destruct ws as [|[tid l] rest]; [do 3 eexists; split; [reflexivity|]; done|].
    apply list.Forall_cons in Hws as [Hl Hrest]. destruct (new_msg m (len l)) as [p|] eqn:Ep; do 3 eexists; (split; [reflexivity|]).
    + split; [done|]. split; [cbn; lia|]. exists l. split_and!; try done. by eapply new_msg_fresh.
    + done.
  - intros tid msg n [ws c] m [Hws Hc] Hm Hn. do 2 eexists. split; [reflexivity|]. cbn in *. split; [|lia].
    split; [by apply list.Forall_app|done].
  - intros f [= <-] [ws c] m Hw. by do 3 eexists.
Qed.

Lemma queue_host_laws : HostLaws queue_host inbox_ok 2 half_us.
Proof.
  constructor; [done|done|]. intros [ws c] [Hws Hc]. cbn [queue_host clock_gettime fst snd half_us waiting] in *.
  split; [split; [done|cbn; lia]|]. split; [lia|]. intros s ns Hr. destruct (Z.ltb_spec c (2 ^ 61)); [|done].
  injection Hr as <- <-. set (u := (c + 1) / 2).
  assert (0 <= u <= 2 ^ 61) as Hu by (unfold u; split; [apply Z.div_pos; lia|apply Z.div_le_upper_bound; lia]).
  pose proof (Z.mod_pos_bound u 1000000 ltac:(lia)). pose proof (Z.div_mod u 1000000 ltac:(lia)).
  split; [|split; [lia|rewrite Z.div_mul by lia; lia]].
  split; [apply Z.div_pos; lia|apply Z.div_le_upper_bound; lia].
Qed.

Lemma queue_clock_runs : ClockRuns queue_host inbox_ok half_us.
Proof. constructor. intros [ws c] _. cbn. lia. Qed.

Lemma queue_queue_laws : QueueLaws (queue_transport reply) queue_host inbox_ok (fun w => length (waiting w)).
Proof.
  constructor.
  - intros [ws c] m Hw. destruct ws; (eexists _, _; split; [reflexivity|]; cbn; lia).
  - intros [ws c] m r w' m' Hw. cbn [t_recv queue_transport]. unfold queue_recv_fn. cbn [waiting].
    destruct ws as [|[tid l] rest]; [done|]. destruct (new_msg m (len l)); intros [= _ <- _] _; cbn; lia.
Qed.
End queue_laws.

(** A stale message, then answers from another terminus, to another request, and the right one. *)
Lemma transport_exchange_witness :
  let req := [0x83; 0x02; 0x11] in
  let reply := [(7, [0x03; 0x02; 0x11; 0]); (9, [0x04; 0x02; 0x11; 0]); (9, [0x03; 0x02; 0x11; 0; 5])] in
  gives (pldm_transport_send_recv_msg queue_host (Z.to_nat 9600001) (Some (queue_transport reply)) 9
      (Some (CMem 4096 req)) 3 None (Some 0)) (Inbox [(9, [1])] 10, ∅)
    (exchanged inbox_ok (fun _ _ => True) 9 (MsgHdr 1 0 0 3 0 2 0x11) ∅) /\
    exists w, pldm_transport_send_recv_msg queue_host 4 (Some (queue_transport reply)) 9
      (Some (CMem 4096 req)) 3 None (Some 0) (Inbox [(9, [1])] 10, ∅)
    = Ok ((PLDM_REQUESTER_SUCCESS, Some 1%positive, Some 5), (w, {[1%positive := [0x03; 0x02; 0x11; 0; 5]]})).
Proof.
  intros req reply. split; [|eexists; vm_compute; reflexivity].
  destruct (transport_exchange (queue_transport reply) queue_host inbox_ok (fun _ _ => True) 2 half_us
    (Z.to_nat 9600001) 9 (CMem 4096 req) 3 (MsgHdr 1 0 0 3 0 2 0x11) None 0 (Inbox [(9, [1])] 10) ∅) as [_ H].
  - apply queue_transport_laws. apply (bool_decide_unpack (Forall (fun m => Forall (fun b => 0 <= b < 256) m.2) _)); by vm_compute.
  - apply queue_host_laws.
  - split; [apply (bool_decide_unpack (Forall (fun m => Forall (fun b => 0 <= b < 256) m.2) _)); by vm_compute|done].
  - constructor; [by vm_compute..|]. apply (bool_decide_unpack (Forall (fun b => 0 <= b < 256) _)). by vm_compute.
  - by vm_compute.
  - reflexivity.
  - apply H; [apply queue_clock_runs|rewrite Z2Nat.id; lia].
Defined.

Lemma transport_busy_witness :
  let w := Inbox (replicate 8192 (9, [1])) 10 in
  exists w' resp k, length (waiting w') = 0%nat /\
    pldm_transport_send_recv_msg queue_host 4 (Some (queue_transport [])) 9 (Some (CMem 4096 [0x83; 0x02; 0x11])) 3 None (Some 0) (w, ∅)
    = Ok ((PLDM_REQUESTER_TRANSPORT_BUSY, resp, k), (w', ∅)).
Proof.
  intros w.
  destruct (transport_busy (queue_transport []) queue_host inbox_ok (fun _ _ => True) 2 half_us (fun w => length (waiting w))
    4 9 (CMem 4096 [0x83; 0x02; 0x11]) 3 (MsgHdr 1 0 0 3 0 2 0x11) None 0 w ∅) as (w' & resp & k & _ & Hq & Hr).
  - apply queue_transport_laws. constructor.
  - apply queue_host_laws.
  - apply queue_queue_laws.
  - split; [|done]. apply Forall_replicate. by repeat constructor.
  - done.
  - reflexivity.
  - done.
  - assert (Z.of_nat (length (waiting w)) = 8192) as Hn by (by vm_compute). rewrite Hn in Hq, Hr.
    exists w', resp, (Some k). split; [lia|exact Hr].
Defined.
