(* ===== verification/Socket.v ===== *)
(** * The send buffer of a socket (src/transport/socket.c)

    The buffer of a socket is grown to hold the largest message that was sent, up to the
    limit of the system.  The calls of the system are parameters. *)

From S2P Require Import Prelude.

Local Open Scope Z_scope.

Section socket.
Context {K : Type}.

(** setsockopt and getsockopt with SO_SNDBUF: the return code, and the size that was got. *)
Record socket_options := SocketOptions {
  set_sndbuf : Z -> Z -> K -> Z * K;
  get_sndbuf : Z -> K -> (Z * Z) * K
}.

Context (opt : socket_options).

(** struct pldm_socket_sndbuf *)
Record pldm_socket_sndbuf := Sndbuf { sb_socket : Z; sb_size : Z; sb_max_size : Z }.

Definition pldm_socket_sndbuf_get (ctx : pldm_socket_sndbuf) (k : K) : Z * pldm_socket_sndbuf * K :=
  let '((rc, buf_size), k) := get_sndbuf opt (sb_socket ctx) k in
  if rc =? -1 then (-1, ctx, k)
  else (0, Sndbuf (sb_socket ctx) (Z.quot buf_size 2) (sb_max_size ctx), k).

(** [wmem_max]: the number in /proc/sys/net/core/wmem_max, [None] if it cannot be read. *)
Definition pldm_socket_sndbuf_init (ctx : pldm_socket_sndbuf) (socket : Z) (wmem_max : option Z) (k : K)
  : Z * pldm_socket_sndbuf * K :=
  if socket =? -1 then (-1, ctx, k)
  else
  let ctx := Sndbuf socket (sb_size ctx) (sb_max_size ctx) in
  match wmem_max with
  | None => (-1, ctx, k)
  | Some max_buf_size =>
    let max_buf_size := if 2147483647 <? max_buf_size then 2147483647 else max_buf_size in
    let ctx := Sndbuf socket (sb_size ctx) (to_signed 32 (u32 max_buf_size)) in
    let '(rc, ctx, k) := pldm_socket_sndbuf_get ctx k in
    (if rc =? 0 then 0 else -1, ctx, k)
  end.

Definition pldm_socket_sndbuf_accomodate (ctx : pldm_socket_sndbuf) (msg_len : Z) (k : K)
  : Z * pldm_socket_sndbuf * K :=
  if msg_len <? sb_size ctx then (0, ctx, k)
  else
  let msg_len := if sb_max_size ctx <? msg_len then sb_max_size ctx else msg_len in
  if sb_size ctx =? sb_max_size ctx then (0, ctx, k)
  else
  let '(rc, k) := set_sndbuf opt (sb_socket ctx) msg_len k in
  if rc =? -1 then (-1, ctx, k)
  else (0, Sndbuf (sb_socket ctx) msg_len (sb_max_size ctx), k).
End socket.
Arguments socket_options : clear implicits.
