(* ===== verification/AfMctp.v ===== *)
(** * The AF_MCTP transport (src/transport/af-mctp.c)

    Messages over a datagram socket of the kernel's MCTP network.  A terminus is a network
    and an endpoint id; a bound socket also receives requests, and keeps a cookie for each
    with the address that the response goes to. *)

From stdpp Require Import gmap.
From S2P Require Import Prelude Msgbuf Layout Base Responder Transport Socket.

Local Open Scope Z_scope.

Abbreviation MCTP_NET_ANY := 0 (only parsing).
Abbreviation MCTP_ADDR_ANY := 255 (only parsing).
Abbreviation MCTP_TAG_OWNER := 8 (only parsing).
Abbreviation MCTP_MSG_TYPE_PLDM := 1 (only parsing).
Abbreviation AF_MCTP := 45 (only parsing).
Abbreviation EWOULDBLOCK := EAGAIN (only parsing).

(** struct sockaddr_mctp *)
Record sockaddr_mctp := Smctp {
  smctp_family : Z; smctp_network : Z; smctp_addr : Z; smctp_type : Z; smctp_tag : Z
}.

Section af_mctp.
(** The state of the kernel. *)
Context {K : Type}.

(** The calls on the socket: the length of the next datagram (recv with MSG_PEEK and
    MSG_TRUNC), the datagram into a buffer of a size (its length, what is stored, where it is
    from), sending (-1 with errno, or a length), binding. *)
Record mctp_socket := MctpSocket {
  recv_peek : K -> Z * K;
  recvfrom : Z -> K -> (Z * list Z * sockaddr_mctp) * K;
  sendto : list Z -> sockaddr_mctp -> K -> (Z * Z) * K;
  bind_to : sockaddr_mctp -> K -> Z * K
}.

Context `{MsgAllocator} (opt : socket_options K) (net : mctp_socket).

(** malloc of a cookie. *)
Context (new_cookie : gmap positive pldm_responder_cookie -> option positive).

(** struct pldm_transport_af_mctp.  The jar is a cookie in the structure; a cookie of the
    jar is the first part of a struct pldm_responder_cookie_af_mctp, whose address part is
    in [cookie_smctp] under the same name. *)
Record pldm_transport_af_mctp := AfMctp {
  tid_map : list (Z * Z); socket_send_buf : pldm_socket_sndbuf; bound : bool; cookie_jar : positive;
  jar_cookies : gmap positive pldm_responder_cookie; cookie_smctp : gmap positive sockaddr_mctp; kernel : K
}.

Abbreviation AM := (stM (pldm_transport_af_mctp * gmap positive (list Z))) (only parsing).

Definition set_kernel (c : pldm_transport_af_mctp) (k : K) : pldm_transport_af_mctp :=
  AfMctp (tid_map c) (socket_send_buf c) (bound c) (cookie_jar c) (jar_cookies c) (cookie_smctp c) k.

Definition set_cookies (c : pldm_transport_af_mctp) (h : gmap positive pldm_responder_cookie)
    (a : gmap positive sockaddr_mctp) : pldm_transport_af_mctp :=
  AfMctp (tid_map c) (socket_send_buf c) (bound c) (cookie_jar c) h a (kernel c).

Definition on_kernel {A} (f : K -> A * K) : AM A := fun '(c, m) =>
  let '(a, k) := f (kernel c) in Ok (a, (set_kernel c k, m)).

(** A function of the responder on the cookies of the transport. *)
Definition on_cookies {A} (f : JarM A) : AM A := fun '(c, m) =>
  match f (jar_cookies c) with
  | Ok (a, h) => Ok (a, (set_cookies c h (cookie_smctp c), m))
  | Fault e => Fault e
  end.

(** ** Termini *)

Definition pldm_transport_af_mctp_lookup_fqe (ctx : pldm_transport_af_mctp) (tid : Z) : option (Z * Z) :=
  if tid =? 0 then None else Some (nth (Z.to_nat tid) (tid_map ctx) (0, 0)).

Fixpoint find_tid_from (i : Z) (l : list (Z * Z)) (network eid : Z) : option Z :=
  match l with
  | [] => None
  | (n, e) :: l => if (n =? network) && (e =? eid) then Some i else find_tid_from (i + 1) l network eid
  end.

Definition pldm_transport_af_mctp_find_tid (ctx : pldm_transport_af_mctp) (network eid : Z) : option Z :=
  find_tid_from 0 (tid_map ctx) network eid.

Definition pldm_transport_af_mctp_get_tid (ctx : pldm_transport_af_mctp) (network eid : Z) : option Z :=
  if (network =? 0) || (eid =? 0) then None
  else
  match pldm_transport_af_mctp_find_tid ctx network eid with
  | Some tid => Some tid
  | None => pldm_transport_af_mctp_find_tid ctx MCTP_NET_ANY eid
  end.

Definition pldm_transport_af_mctp_map_tid_fqe (ctx : pldm_transport_af_mctp) (tid network eid : Z)
  : Z * pldm_transport_af_mctp :=
  (0, AfMctp (<[Z.to_nat tid := (network, eid)]> (tid_map ctx)) (socket_send_buf ctx) (bound ctx) (cookie_jar ctx)
        (jar_cookies ctx) (cookie_smctp ctx) (kernel ctx)).

Definition pldm_transport_af_mctp_map_tid (ctx : pldm_transport_af_mctp) (tid eid : Z) :=
  pldm_transport_af_mctp_map_tid_fqe ctx tid MCTP_NET_ANY eid.

Definition pldm_transport_af_mctp_unmap_tid_fqe (ctx : pldm_transport_af_mctp) (tid : Z) :=
  pldm_transport_af_mctp_map_tid_fqe ctx tid 0 0.

Definition pldm_transport_af_mctp_unmap_tid (ctx : pldm_transport_af_mctp) (tid eid : Z) :=
  pldm_transport_af_mctp_map_tid_fqe ctx tid 0 0.

(** ** Receiving *)

(** A cookie of its own for a request; malloc leaves its link as it was. *)
Definition new_request_cookie (key : request_key) (addr : sockaddr_mctp) : AM (option positive) := fun '(c, m) =>
  match new_cookie (jar_cookies c) with
  | None => Ok (None, (c, m))
  | Some p => Ok (Some p, (set_cookies c (<[p := Cookie key None]> (jar_cookies c)) (<[p := addr]> (cookie_smctp c)), m))
  end.

Definition request_of (tid : Z) (h : pldm_msg_hdr) : request_key := (tid, instance_id h, type h, command h).

(** The label cleanup_msg. *)
Definition cleanup_msg {A} (p : positive) (res : Z) : AM (Z + A) := _ ← free_msg (Some p); mret (inl res).

Definition new_message (n : Z) : AM (option positive) := fun '(c, m) =>
  match new_msg m n with
  | None => Ok (None, (c, m))
  | Some p => Ok (Some p, (c, <[p := []]> m))
  end.

Definition fill_message (p : positive) (l : list Z) : AM unit := fun '(c, m) => Ok (tt, (c, <[p := l]> m)).

Definition pldm_transport_af_mctp_recv : AM (Z + Z * positive * Z) :=
  length ← on_kernel (recv_peek net);
  if length <=? 0 then mret (inl PLDM_REQUESTER_RECV_FAIL)
  else
  msg ← new_message length;
  match msg with
  | None => mret (inl PLDM_REQUESTER_RECV_FAIL)
  | Some p =>
    '(length, l, addr) ← on_kernel (recvfrom net length);
    _ ← fill_message p l;
    if length <? 3 then cleanup_msg p PLDM_REQUESTER_INVALID_RECV_LEN
    else
    c ← get;
    match pldm_transport_af_mctp_get_tid c.1 (smctp_network addr) (smctp_addr addr) with
    | None => cleanup_msg p PLDM_REQUESTER_RECV_FAIL
    | Some tid =>
      hdr ← msg_header (Some p);
      if bound c.1 && negb (request hdr =? 0) then
        cookie ← new_request_cookie (request_of tid hdr) addr;
        match cookie with
        | None => cleanup_msg p PLDM_REQUESTER_RECV_FAIL
        | Some ck =>
          rc ← on_cookies (pldm_responder_cookie_track (Some (cookie_jar c.1)) (Some ck));
          if negb (rc =? 0) then cleanup_msg p PLDM_REQUESTER_RECV_FAIL
          else mret (inr (tid, p, length))
        end
      else mret (inr (tid, p, length))
    end
  end.

(** ** Sending *)

(** Once the address is known: the buffer, and the call. *)
Definition transmit (msg : cmem) (msg_len : Z) (addr : sockaddr_mctp) : AM Z := fun '(c, m) =>
  if INT_MAX <? msg_len then Ok (PLDM_REQUESTER_SEND_FAIL, (c, m))
  else
  let '(rc, buf, k) := pldm_socket_sndbuf_accomodate opt (socket_send_buf c) msg_len (kernel c) in
  let c := AfMctp (tid_map c) buf (bound c) (cookie_jar c) (jar_cookies c) (cookie_smctp c) k in
  if negb (rc =? 0) then Ok (PLDM_REQUESTER_SEND_FAIL, (c, m))
  else
  l ← mem_read msg 0 msg_len;
  let '((rc, errno), k) := sendto net l addr (kernel c) in
  Ok (if rc =? -1 then
        if (errno =? EAGAIN) || (errno =? EWOULDBLOCK) then PLDM_REQUESTER_TRANSPORT_BUSY
        else PLDM_REQUESTER_SEND_FAIL
      else PLDM_REQUESTER_SUCCESS, (set_kernel c k, m)).

(** free(cookie), after its address was copied. *)
Definition take_cookie (ck : positive) : AM sockaddr_mctp := fun '(c, m) =>
  match jar_cookies c !! ck, cookie_smctp c !! ck with
  | Some _, Some a => Ok (a, (set_cookies c (delete ck (jar_cookies c)) (delete ck (cookie_smctp c)), m))
  | _, _ => Fault FMemory
  end.

(** smctp_tag &= ~MCTP_TAG_OWNER *)
Definition clear_tag_owner (a : sockaddr_mctp) : sockaddr_mctp :=
  Smctp (smctp_family a) (smctp_network a) (smctp_addr a) (smctp_type a) (Z.ldiff (smctp_tag a) MCTP_TAG_OWNER).

Definition pldm_transport_af_mctp_send (tid : Z) (msg : cmem) (msg_len : Z) : AM Z :=
  if msg_len <? 3 then mret PLDM_REQUESTER_SEND_FAIL
  else
  hdr ← lift (header_at (bytes msg));
  c ← get;
  if bound c.1 && (request hdr =? 0) then
    req ← on_cookies (pldm_responder_cookie_untrack (Some (cookie_jar c.1)) (request_of tid hdr));
    match req with
    | None => mret PLDM_REQUESTER_SEND_FAIL
    | Some ck =>
      addr ← take_cookie ck;
      transmit msg msg_len (clear_tag_owner addr)
    end
  else
    match pldm_transport_af_mctp_lookup_fqe c.1 tid with
    | None => mret PLDM_REQUESTER_SEND_FAIL
    | Some (network, eid) =>
      transmit msg msg_len (Smctp AF_MCTP network eid MCTP_MSG_TYPE_PLDM MCTP_TAG_OWNER)
    end.

(** ** The structure *)

Definition pldm_transport_af_mctp_init_pollfd : AM (Z * Z) := fun '(c, m) =>
  Ok ((0, sb_socket (socket_send_buf c)), (c, m)).

Definition af_mctp : pldm_transport pldm_transport_af_mctp :=
  Transport pldm_transport_af_mctp_recv pldm_transport_af_mctp_send (Some pldm_transport_af_mctp_init_pollfd).

(** [smctp] is NULL or an address, [len] its size; a struct sockaddr_mctp has 12 bytes. *)
Definition pldm_transport_af_mctp_bind (ctx : option pldm_transport_af_mctp) (smctp : option sockaddr_mctp) (len : Z)
  : Z * option pldm_transport_af_mctp :=
  match ctx with
  | None => (PLDM_REQUESTER_INVALID_SETUP, ctx)
  | Some c =>
    match smctp with
    | None =>
      if negb (len =? 0) then (PLDM_REQUESTER_INVALID_SETUP, ctx)
      else
      let '(rc, k) := bind_to net (Smctp AF_MCTP MCTP_NET_ANY MCTP_ADDR_ANY MCTP_MSG_TYPE_PLDM MCTP_TAG_OWNER) (kernel c) in
      if negb (rc =? 0) then (PLDM_REQUESTER_SETUP_FAIL, Some (set_kernel c k))
      else (PLDM_REQUESTER_SUCCESS, Some (AfMctp (tid_map c) (socket_send_buf c) true (cookie_jar c) (jar_cookies c) (cookie_smctp c) k))
    | Some a =>
      if negb (smctp_family a =? AF_MCTP) || negb (smctp_type a =? MCTP_MSG_TYPE_PLDM)
         || negb (smctp_tag a =? MCTP_TAG_OWNER) then (PLDM_REQUESTER_INVALID_SETUP, ctx)
      else if negb (len =? 12) then (PLDM_REQUESTER_INVALID_SETUP, ctx)
      else
      let '(rc, k) := bind_to net a (kernel c) in
      if negb (rc =? 0) then (PLDM_REQUESTER_SETUP_FAIL, Some (set_kernel c k))
      else (PLDM_REQUESTER_SUCCESS, Some (AfMctp (tid_map c) (socket_send_buf c) true (cookie_jar c) (jar_cookies c) (cookie_smctp c) k))
    end
  end.

(** [*ctx] is NULL or not; what calloc, socket, reading the limit and setting the time-out
    answer are inputs, and where the jar is put. *)
Definition pldm_transport_af_mctp_init (ctx : option (option pldm_transport_af_mctp)) (mem : option positive) (fd : Z)
    (wmem_max : option Z) (timeout_rc : Z) (k : K) : Z * option (option pldm_transport_af_mctp) :=
  match ctx with
  | Some None =>
    match mem with
    | None => (- ENOMEM, ctx)
    | Some jar =>
      if fd =? -1 then (-1, ctx)
      else
      let '(rc, buf, k) := pldm_socket_sndbuf_init opt (Sndbuf 0 0 0) fd wmem_max k in
      if negb (rc =? 0) then (-1, ctx)
      else if timeout_rc =? -1 then (-1, ctx)
      else (0, Some (Some (AfMctp (replicate 256 (0, 0)) buf false jar {[jar := Cookie (0, 0, 0, 0) None]} ∅ k)))
    end
  | _ => (- EINVAL, ctx)
  end.
End af_mctp.
Arguments mctp_socket : clear implicits.
Arguments pldm_transport_af_mctp : clear implicits.
