(* ===== verification/AfMctpProps.v ===== *)
(** * What the AF_MCTP transport does

    It implements the interface of transports, so exchanges over it are safe; and as a
    responder it answers where the request came from. *)

From stdpp Require Import gmap.
From S2P Require Import Prelude Msgbuf Layout Base Responder Transport TransportProps Socket AfMctp.

Local Open Scope Z_scope.

(** ** Cookies that come and go *)

Lemma represents_block (h : cookies) jar m k a : represents h jar m -> m !! k = Some a ->
  a <> jar /\ exists n, h !! a = Some (Cookie k n).
Proof.
  intros (cs & [(kj & nj & Hj & Hl) Hb Hk] & Hm) Ha. apply Hm in Ha. split.
  - intros ->. apply list.NoDup_cons in Hb as [Hb _]. apply Hb, elem_block. eauto.
  - by eapply links_elem.
Qed.

Lemma represents_injective (h : cookies) jar m k k' a :
  represents h jar m -> m !! k = Some a -> m !! k' = Some a -> k = k'.
Proof.
  intros Hr Ha Ha'. destruct (represents_block _ _ _ _ _ Hr Ha) as (_ & n & E).
  destruct (represents_block _ _ _ _ _ Hr Ha') as (_ & n' & E'). congruence.
Qed.

Lemma represents_fresh (h : cookies) jar m p c : represents h jar m -> h !! p = None -> represents (<[p := c]> h) jar m.
Proof.
  intros (cs & [(kj & nj & Hj & Hl) Hb Hk] & Hm) Hp. exists cs. split; [|done]. constructor; [|done|done].
  exists kj, nj. rewrite lookup_insert_ne by congruence. split; [done|]. apply links_insert; [|done].
  rewrite elem_block. intros [k Hin]. destruct (links_elem _ _ _ _ _ Hl Hin). congruence.
Qed.

Lemma links_delete (h : cookies) p cs a : a ∉ cs.*1 -> links h p cs -> links (delete a h) p cs.
Proof.
  revert p. induction cs as [|[b k] cs IH]; intros p; cbn; [done|].
  intros [Hab Ha]%not_elem_of_cons (-> & next & Hb & Hl). split; [done|]. exists next.
  rewrite lookup_delete_ne by done. auto.
Qed.

Lemma represents_free (h : cookies) jar m p :
  represents h jar m -> p <> jar -> (forall k, m !! k <> Some p) -> represents (delete p h) jar m.
Proof.
  intros (cs & [(kj & nj & Hj & Hl) Hb Hk] & Hm) Hp Hno. exists cs. split; [|done]. constructor; [|done|done].
  exists kj, nj. rewrite lookup_delete_ne by done. split; [done|]. apply links_delete; [|done].
  rewrite elem_block. intros [k Hin]. by apply (Hno k), Hm.
Qed.

Section af_mctp.
Context {K : Type} `{MsgAllocator} (opt : socket_options K) (net : mctp_socket K).
Context (new_cookie : gmap positive pldm_responder_cookie -> option positive).
Hypothesis new_cookie_fresh : forall h p, new_cookie h = Some p -> h !! p = None.

(** ** Requests that are to be answered

    [pm]: the address that the response to a request goes to. *)
Definition pending (c : pldm_transport_af_mctp K) (pm : gmap request_key sockaddr_mctp) : Prop :=
  exists m, represents (jar_cookies c) (cookie_jar c) m /\
    (forall k ck, m !! k = Some ck -> is_Some (cookie_smctp c !! ck)) /\
    forall k, pm !! k = m !! k ≫= fun ck => cookie_smctp c !! ck.

(** Only the cookies matter. *)
Lemma pending_ext c c' pm :
  jar_cookies c' = jar_cookies c -> cookie_jar c' = cookie_jar c -> cookie_smctp c' = cookie_smctp c ->
  pending c pm -> pending c' pm.
Proof. unfold pending. by intros -> -> ->. Qed.

(** A cookie for a request: the same requests pend while it is in no jar, and with it
    tracked one more, unless the request was known. *)
Lemma pending_cookie c pm p key addr :
  pending c pm -> jar_cookies c !! p = None ->
  let c1 := set_cookies c (<[p := Cookie key None]> (jar_cookies c)) (<[p := addr]> (cookie_smctp c)) in
  match pm !! key with
  | Some _ => pldm_responder_cookie_track (Some (cookie_jar c)) (Some p) (jar_cookies c1)
      = Ok (PLDM_REQUESTER_INVALID_SETUP, jar_cookies c1) /\ pending c1 pm
  | None => exists h, pldm_responder_cookie_track (Some (cookie_jar c)) (Some p) (jar_cookies c1)
      = Ok (PLDM_REQUESTER_SUCCESS, h) /\ pending (set_cookies c1 h (cookie_smctp c1)) (<[key := addr]> pm)
  end.
Proof.
  intros (m & Hr & Ha & Hpm) Hp c1.
  assert (forall k ck, m !! k = Some ck -> ck <> p) as Hne.
  { intros k ck Hk ->. destruct (represents_block _ _ _ _ _ Hr Hk) as (_ & n & E). congruence. }
  assert (forall k, m !! k ≫= (fun ck => cookie_smctp c1 !! ck) = m !! k ≫= (fun ck => cookie_smctp c !! ck)) as Hsame.
  { intros k. destruct (m !! k) as [ck|] eqn:Ek; [|done]. cbn. rewrite lookup_insert_ne; [done|]. intros <-. by apply (Hne _ _ Ek). }
  assert (represents (jar_cookies c1) (cookie_jar c1) m) as Hr1 by (apply represents_fresh; done).
  assert (p <> cookie_jar c) as Hjar.
  { intros ->. destruct Hr as (cs & [(kj & nj & Hj & _) _ _] & _). congruence. }
  pose proof (track_step (jar_cookies c1) (cookie_jar c) m p key None Hr1 Hjar ltac:(apply lookup_insert_eq)) as Ht.
  specialize (Hpm key) as Hkey. destruct (m !! key) as [ck|] eqn:Ek.
  - cbn in Hkey. rewrite Hkey. destruct (Ha _ _ Ek) as [a ->]. split; [exact Ht|].
    exists m. split; [done|]. split; [|intros k; rewrite Hpm; by rewrite Hsame].
    intros k ck' Hk'. cbn. rewrite lookup_insert_ne; [eauto|]. intros <-. by apply (Hne _ _ Hk').
  - cbn in Hkey. rewrite Hkey. destruct Ht as (h & Ht & Hr2 & Hs). exists h. split; [exact Ht|].
    exists (<[key := p]> m). split; [done|]. split.
    + intros k ck' Hk'. cbn. apply lookup_insert_Some in Hk' as [[<- <-]|[Hk Hk']]; [rewrite lookup_insert_eq; by eexists|].
      rewrite lookup_insert_ne; [eauto|]. intros <-. by apply (Hne _ _ Hk').
    + intros k. destruct (decide (key = k)) as [<-|Hk].
      * rewrite !lookup_insert_eq. cbn. by rewrite lookup_insert_eq.
      * rewrite !lookup_insert_ne by done. rewrite Hpm. symmetry. apply Hsame.
Qed.

(** Looking for the request of a response. *)
Lemma pending_answer c pm key :
  pending c pm ->
  match pm !! key with
  | None => pldm_responder_cookie_untrack (Some (cookie_jar c)) key (jar_cookies c) = Ok (None, jar_cookies c)
  | Some a => exists ck h, pldm_responder_cookie_untrack (Some (cookie_jar c)) key (jar_cookies c) = Ok (Some ck, h) /\
      is_Some (h !! ck) /\ cookie_smctp c !! ck = Some a /\
      pending (set_cookies c (delete ck h) (delete ck (cookie_smctp c))) (delete key pm)
  end.
Proof.
  intros (m & Hr & Ha & Hpm). destruct (untrack_step (jar_cookies c) (cookie_jar c) m key Hr) as (h & Hu & Hr' & Hs & Hno).
  rewrite Hpm. destruct (m !! key) as [ck|] eqn:Ek; cbn [mbind option_bind].
  2: { by rewrite Hu, Hno. }
  destruct (Ha _ _ Ek) as [a Ea]. rewrite Ea. exists ck, h. split; [done|].
  destruct (represents_block _ _ _ _ _ Hr Ek) as (Hjar & n & En). split.
  { apply (fmap_is_Some ck_key). rewrite Hs, En. by eexists. }
  split; [done|].
  assert (forall k, delete key m !! k <> Some ck) as Hout.
  { intros k Hk. apply lookup_delete_Some in Hk as [Hne Hk]. apply Hne. exact (represents_injective _ _ _ _ _ _ Hr Ek Hk). }
  exists (delete key m). split; [by apply represents_free|]. split.
  - intros k ck' Hk'. cbn. rewrite lookup_delete_ne by (intros <-; by apply (Hout k)).
    apply lookup_delete_Some in Hk' as [_ Hk']. eauto.
  - intros k. destruct (decide (key = k)) as [<-|Hk]; [by rewrite !lookup_delete_eq|].
    rewrite !lookup_delete_ne by done. rewrite Hpm. destruct (m !! k) as [ck'|] eqn:Ek'; [|done]. cbn.
    rewrite lookup_delete_ne; [done|]. intros <-. apply (Hout k). by rewrite lookup_delete_ne.
Qed.

(** Sending touches neither the cookies nor the messages. *)
Lemma transmit_keeps msg n addr c m rc c' m' :
  transmit opt net msg n addr (c, m) = Ok (rc, (c', m')) ->
  m' = m /\ jar_cookies c' = jar_cookies c /\ cookie_jar c' = cookie_jar c /\ cookie_smctp c' = cookie_smctp c /\
  tid_map c' = tid_map c /\ bound c' = bound c.
Proof.
  unfold transmit. destruct (INT_MAX <? n); [by intros [= _ <- <-]|].
  destruct (pldm_socket_sndbuf_accomodate opt (socket_send_buf c) n (kernel c)) as [[rc1 buf] k].
  destruct (rc1 =? 0); cbn [negb]; [|by intros [= _ <- <-]].
  destruct (mem_read msg 0 n) as [l|]; [|done]. cbn [mbind outcome_bind kernel].
  destruct (sendto net l addr k) as [[rc2 errno] k2]. by intros [= _ <- <-].
Qed.

(** ** A datagram *)

Lemma free_new {W} (w : W) (m : gmap positive (list Z)) p l :
  m !! p = None -> free_msg (Some p) (w, <[p := l]> m) = Ok (tt, (w, m)).
Proof. intros Hp. unfold free_msg. rewrite lookup_insert_eq. by rewrite delete_insert_id. Qed.

(** What recv makes of the datagram that the kernel gives it. *)
Lemma recv_datagram c m n k1 p size l a k2 :
  recv_peek net (kernel c) = (n, k1) -> 0 < n -> new_msg m n = Some p -> recvfrom net n k1 = ((size, l, a), k2) ->
  pldm_transport_af_mctp_recv net new_cookie (c, m)
  = let c2 := set_kernel c k2 in
    if size <? 3 then Ok (inl PLDM_REQUESTER_INVALID_RECV_LEN, (c2, m))
    else
    match pldm_transport_af_mctp_get_tid c (smctp_network a) (smctp_addr a) with
    | None => Ok (inl PLDM_REQUESTER_RECV_FAIL, (c2, m))
    | Some tid =>
      hdr ← header_at l;
      if bound c && negb (request hdr =? 0) then
        match new_cookie (jar_cookies c) with
        | None => Ok (inl PLDM_REQUESTER_RECV_FAIL, (c2, m))
        | Some ck =>
          let c3 := set_cookies c2 (<[ck := Cookie (request_of tid hdr) None]> (jar_cookies c)) (<[ck := a]> (cookie_smctp c)) in
          '(rc, h) ← pldm_responder_cookie_track (Some (cookie_jar c)) (Some ck) (jar_cookies c3);
          let c4 := set_cookies c3 h (cookie_smctp c3) in
          if rc =? 0 then Ok (inr (tid, p, size), (c4, <[p := l]> m)) else Ok (inl PLDM_REQUESTER_RECV_FAIL, (c4, m))
        end
      else Ok (inr (tid, p, size), (c2, <[p := l]> m))
    end.
Proof.
  intros Hpk Hn Hp Hrf. pose proof (new_msg_fresh _ _ _ Hp) as Hfresh.
  unfold pldm_transport_af_mctp_recv. unfold mbind at 1, stM_bind at 1, on_kernel at 1. rewrite Hpk. cbv beta iota zeta.
  replace (n <=? 0) with false by lia. unfold mbind at 1, stM_bind at 1, new_message at 1. rewrite Hp. cbv beta iota zeta.
  unfold mbind at 1, stM_bind at 1, on_kernel at 1. cbn [kernel set_kernel]. rewrite Hrf. cbv beta iota zeta.
  unfold mbind at 1, stM_bind at 1, fill_message at 1. rewrite insert_insert_eq. cbv beta iota zeta.
  assert (forall (A : Type) res c', @cleanup_msg K A p res (c', <[p := l]> m) = Ok (inl res, (c', m))) as Hclean.
  { intros A res c'. unfold cleanup_msg, mbind, stM_bind. by rewrite free_new. }
  change (set_kernel (set_kernel c k1) k2) with (set_kernel c k2).
  destruct (size <? 3); [apply Hclean|].
  unfold mbind at 1, stM_bind at 1, get at 1. cbn [fst].
  change (pldm_transport_af_mctp_get_tid (set_kernel c k2)) with (pldm_transport_af_mctp_get_tid c).
  destruct (pldm_transport_af_mctp_get_tid c _ _) as [tid|]; [|apply Hclean].
  unfold mbind at 1, stM_bind at 1, msg_header at 1. rewrite lookup_insert_eq.
  destruct (header_at l) as [hdr|e]; [|done]. cbn [mbind outcome_bind mret outcome_ret].
  change (bound (set_kernel c k2)) with (bound c). destruct (bound c && negb (request hdr =? 0)); [|done].
  unfold mbind at 1, stM_bind at 1, new_request_cookie at 1. change (jar_cookies (set_kernel c k2)) with (jar_cookies c).
  destruct (new_cookie (jar_cookies c)) as [ck|]; [|apply Hclean].
  unfold mbind at 1, stM_bind at 1, on_cookies at 1. cbn [jar_cookies set_cookies cookie_jar set_kernel cookie_smctp].
  destruct (pldm_responder_cookie_track _ _ _) as [[rc h]|e]; [|done]. cbn [mbind outcome_bind].
  destruct (rc =? 0); cbn [negb]; [done|apply Hclean].
Qed.

Lemma send_response c m tid msg n hdr :
  3 <= n -> header_at (bytes msg) = Ok hdr -> bound c = true -> request hdr = 0 ->
  pldm_transport_af_mctp_send opt net tid msg n (c, m)
  = '(req, h) ← pldm_responder_cookie_untrack (Some (cookie_jar c)) (request_of tid hdr) (jar_cookies c);
    let c1 := set_cookies c h (cookie_smctp c) in
    match req with
    | None => Ok (PLDM_REQUESTER_SEND_FAIL, (c1, m))
    | Some ck => ('(addr, s) ← take_cookie ck (c1, m); transmit opt net msg n (clear_tag_owner addr) s)
    end.
Proof.
  intros Hn Hh Hb Hr. unfold pldm_transport_af_mctp_send. replace (n <? 3) with false by lia.
  unfold mbind at 1, stM_bind at 1, lift. rewrite Hh. unfold mbind at 1, stM_bind at 1, get. cbn [fst].
  rewrite Hb. replace (request hdr =? 0) with true by lia. cbn [andb].
  unfold mbind at 1, stM_bind at 1, on_cookies. destruct (pldm_responder_cookie_untrack _ _ _) as [[req h]|e]; [|done].
  cbn [mbind outcome_bind]. destruct req as [ck|]; [|done]. unfold mbind, stM_bind, outcome_bind. by destruct (take_cookie _ _) as [[]|].
Qed.

(** A request that is received on a bound socket. *)
Lemma request_received c m pm n k1 p size l a k2 tid hdr ck :
  pending c pm -> bound c = true ->
  recv_peek net (kernel c) = (n, k1) -> 0 < n -> new_msg m n = Some p -> recvfrom net n k1 = ((size, l, a), k2) -> 3 <= size ->
  pldm_transport_af_mctp_get_tid c (smctp_network a) (smctp_addr a) = Some tid ->
  header_at l = Ok hdr -> request hdr <> 0 -> new_cookie (jar_cookies c) = Some ck ->
  exists c', kernel c' = k2 /\ tid_map c' = tid_map c /\ bound c' = true /\
  match pm !! request_of tid hdr with
  | Some _ => pldm_transport_af_mctp_recv net new_cookie (c, m) = Ok (inl PLDM_REQUESTER_RECV_FAIL, (c', m)) /\
      pending c' pm /\ dom (jar_cookies c') = {[ck]} ∪ dom (jar_cookies c)
  | None => pldm_transport_af_mctp_recv net new_cookie (c, m) = Ok (inr (tid, p, size), (c', <[p := l]> m)) /\
      pending c' (<[request_of tid hdr := a]> pm)
  end.
Proof.
  intros Hpm Hb Hpk Hn Hp Hrf Hsize Htid Hh Hr Hck.
  rewrite (recv_datagram c m n k1 p size l a k2) by done. cbv zeta. replace (size <? 3) with false by lia.
  rewrite Htid, Hh, Hb, Hck. cbn [mbind outcome_bind]. replace (request hdr =? 0) with false by lia. cbn [andb negb].
  set (c2 := set_kernel c k2).
  pose proof (pending_cookie c2 pm ck (request_of tid hdr) a ltac:(exact Hpm) (new_cookie_fresh _ _ Hck)) as Hpc. cbv zeta in Hpc.
  change (jar_cookies c2) with (jar_cookies c) in Hpc. change (cookie_jar c2) with (cookie_jar c) in Hpc.
  change (cookie_smctp c2) with (cookie_smctp c) in Hpc.
  destruct (pm !! request_of tid hdr).
  - destruct Hpc as [Ht Hp']. rewrite Ht. cbn [mbind outcome_bind Z.eqb]. eexists. split; [|split; [|split; [|split; [reflexivity|]]]]; try done.
    split; [exact Hp'|]. cbn. apply leibniz_equiv, dom_insert.
  - destruct Hpc as (h & Ht & Hp'). rewrite Ht. cbn [mbind outcome_bind Z.eqb]. eexists. split; [|split; [|split; [|split; [reflexivity|]]]]; done.
Qed.

(** A response on a bound socket. *)
Lemma response_sent c m pm tid msg n hdr :
  pending c pm -> bound c = true -> 3 <= n -> header_at (bytes msg) = Ok hdr -> request hdr = 0 ->
  match pm !! request_of tid hdr with
  | None => pldm_transport_af_mctp_send opt net tid msg n (c, m) = Ok (PLDM_REQUESTER_SEND_FAIL, (c, m))
  | Some a => exists c', kernel c' = kernel c /\ tid_map c' = tid_map c /\ bound c' = true /\
      socket_send_buf c' = socket_send_buf c /\ pending c' (delete (request_of tid hdr) pm) /\
      pldm_transport_af_mctp_send opt net tid msg n (c, m) = transmit opt net msg n (clear_tag_owner a) (c', m)
  end.
Proof.
  intros Hpm Hb Hn Hh Hr. rewrite (send_response c m tid msg n hdr) by done.
  pose proof (pending_answer c pm (request_of tid hdr) Hpm) as Hpa. destruct (pm !! request_of tid hdr) as [a|].
  - destruct Hpa as (ck & h & Hu & [x Hx] & Ha & Hp'). rewrite Hu. cbn [mbind outcome_bind].
    eexists. split_and!; [..|exact Hp'|]; try done. unfold take_cookie. cbn [jar_cookies set_cookies cookie_smctp]. by rewrite Hx, Ha.
  - rewrite Hpa. cbn [mbind outcome_bind]. by destruct c.
Qed.

(** ** The kernel *)

Section kernel.
(** [KP]: a state of the kernel that is reached; [arrived a l]: datagram [l] came from
    address [a]; [ktime] the time in microseconds. *)
Context (KP : K -> Prop) (arrived : sockaddr_mctp -> list Z -> Prop) (ktime : K -> Z).

(** A datagram that was looked at is still there to be received, whole; or receiving it
    fails.  Calls take time. *)
Class KernelLaws : Prop := {
  peek_law : forall k, KP k -> KP (recv_peek net k).2 /\ ktime k <= ktime (recv_peek net k).2;
  recvfrom_law : forall k n k', KP k -> recv_peek net k = (n, k') -> 0 < n ->
    exists size l a k'', recvfrom net n k' = ((size, l, a), k'') /\ KP k'' /\ ktime k' <= ktime k'' /\
      (size < 0 \/ size = n /\ len l = n /\ bytes_ok l /\ arrived a l);
  sendto_law : forall l a k, KP k -> KP (sendto net l a k).2 /\ ktime k <= ktime (sendto net l a k).2;
  sndbuf_law : forall fd n k, KP k -> KP (set_sndbuf opt fd n k).2 /\ ktime k <= ktime (set_sndbuf opt fd n k).2
}.

Context {HK : KernelLaws} (tm : list (Z * Z)).

(** The transport with the map of termini [tm]. *)
Definition af_mctp_ok (c : pldm_transport_af_mctp K) : Prop :=
  KP (kernel c) /\ tid_map c = tm /\ exists pm, pending c pm.

(** The datagram came from an address that the map gives to the terminus. *)
Definition from_terminus (tid : Z) (l : list Z) : Prop :=
  exists a, arrived a l /\
    forall c : pldm_transport_af_mctp K, tid_map c = tm -> pldm_transport_af_mctp_get_tid c (smctp_network a) (smctp_addr a) = Some tid.

Lemma get_tid_map (c c' : pldm_transport_af_mctp K) network eid : tid_map c = tid_map c' ->
  pldm_transport_af_mctp_get_tid c network eid = pldm_transport_af_mctp_get_tid c' network eid.
Proof. intros E. unfold pldm_transport_af_mctp_get_tid, pldm_transport_af_mctp_find_tid. by rewrite E. Qed.

Lemma af_mctp_ok_kernel c k : af_mctp_ok c -> KP k -> af_mctp_ok (set_kernel c k).
Proof. intros (_ & Ht & pm & Hpm) Hk. split; [done|]. split; [done|]. exists pm. exact Hpm. Qed.

Lemma transmit_ok msg n addr c m :
  af_mctp_ok c -> 3 <= n <= mem_size msg ->
  exists rc c', transmit opt net msg n addr (c, m) = Ok (rc, (c', m)) /\ af_mctp_ok c' /\ ktime (kernel c) <= ktime (kernel c').
Proof.
  intros Hc Hn. pose proof Hc as (Hk & Ht & pm & Hpm). unfold transmit.
  destruct (INT_MAX <? n); [eexists _, c; split; [done|]; split; [exact Hc|lia]|].
  destruct (pldm_socket_sndbuf_accomodate opt (socket_send_buf c) n (kernel c)) as [[rc1 buf] k] eqn:Ea.
  assert (KP k /\ ktime (kernel c) <= ktime k) as [Hk1 Ht1].
  { revert Ea. unfold pldm_socket_sndbuf_accomodate. destruct (n <? _); [intros [= _ _ <-]; split; [done|lia]|].
    destruct (_ =? _); [intros [= _ _ <-]; split; [done|lia]|].
    match goal with |- context [set_sndbuf opt ?fd ?v ?k0] => pose proof (sndbuf_law fd v k0 Hk) as Hs; destruct (set_sndbuf opt fd v k0) as [rc2 k2] end.
    destruct (rc2 =? -1); by intros [= _ _ <-]. }
  assert (af_mctp_ok (AfMctp (tid_map c) buf (bound c) (cookie_jar c) (jar_cookies c) (cookie_smctp c) k)) as Hok.
  { split; [done|]. split; [done|]. exists pm. exact Hpm. }
  destruct (rc1 =? 0); cbn [negb]; [|eexists _, _; split; [done|]; by split].
  rewrite (mem_read_ok msg 0 n (slice 0 (Z.to_nat n) (bytes msg))) by (done || lia). cbn [mbind outcome_bind kernel].
  pose proof (sendto_law (slice 0 (Z.to_nat n) (bytes msg)) addr k Hk1) as [Hk2 Ht2].
  destruct (sendto net _ addr k) as [[rc2 errno] k2]. eexists _, _. split; [done|]. cbn in Hk2, Ht2.
  split; [by apply af_mctp_ok_kernel|]. cbn. lia.
Qed.

Lemma af_mctp_laws : TransportLaws (af_mctp opt net new_cookie) af_mctp_ok from_terminus (fun c => ktime (kernel c)).
Proof.
  constructor; cbn [t_recv t_send t_init_pollfd af_mctp].
  - intros c m Hc. pose proof Hc as (Hk & Ht & pm & Hpm).
    destruct (recv_peek net (kernel c)) as [n k1] eqn:Ep. pose proof (peek_law (kernel c) Hk) as [Hk1 Ht1]. rewrite Ep in Hk1, Ht1. cbn [snd] in *.
    destruct (Z.leb_spec n 0).
    { exists (inl PLDM_REQUESTER_RECV_FAIL), (set_kernel c k1), m. split; [|split; [by apply af_mctp_ok_kernel|split; [exact Ht1|done]]].
      unfold pldm_transport_af_mctp_recv, mbind at 1, stM_bind at 1, on_kernel at 1. rewrite Ep. by replace (n <=? 0) with true by lia. }
    destruct (new_msg m n) as [p|] eqn:Em.
    2: { exists (inl PLDM_REQUESTER_RECV_FAIL), (set_kernel c k1), m. split; [|split; [by apply af_mctp_ok_kernel|split; [exact Ht1|done]]].
         unfold pldm_transport_af_mctp_recv, mbind at 1, stM_bind at 1, on_kernel at 1. rewrite Ep. cbv beta iota zeta.
         replace (n <=? 0) with false by lia. unfold mbind, stM_bind, new_message. by rewrite Em. }
    pose proof (new_msg_fresh _ _ _ Em) as Hfresh.
    destruct (recvfrom_law (kernel c) n k1 Hk Ep ltac:(lia)) as (size & l & a & k2 & Erf & Hk2 & Ht2 & Hd).
    rewrite (recv_datagram c m n k1 p size l a k2) by (done || lia). cbv zeta.
    assert (af_mctp_ok (set_kernel c k2)) as Hc2 by by apply af_mctp_ok_kernel.
    assert (ktime (kernel c) <= ktime k2) as Ht12 by lia.
    destruct (Z.ltb_spec size 3); [by eexists _, _, _|]. destruct Hd as [|(-> & Hl & Hb & Harr)]; [lia|].
    destruct (pldm_transport_af_mctp_get_tid c _ _) as [tid|] eqn:Etid; [|by eexists _, _, _].
    destruct (header_at_ok l ltac:(lia)) as [hdr Eh]. rewrite Eh. cbn [mbind outcome_bind].
    assert (from_terminus tid l) as HR.
    { exists a. split; [done|]. intros c' Hc'. rewrite <- Etid. apply get_tid_map. by rewrite Ht. }
    assert (exists l0, m !! p = None /\ <[p := l]> m = <[p := l0]> m /\ n = len l0 /\ bytes_ok l0 /\ from_terminus tid l0) as Hnew.
    { exists l. auto. }
    destruct (bound c && negb (request hdr =? 0)); [|by eexists _, _, _].
    destruct (new_cookie (jar_cookies c)) as [ck|] eqn:Eck; [|by eexists _, _, _].
    pose proof (pending_cookie c pm ck (request_of tid hdr) a Hpm (new_cookie_fresh _ _ Eck)) as Hpc. cbv zeta in Hpc.
    cbn [jar_cookies set_cookies set_kernel] in Hpc |- *.
    destruct (pm !! request_of tid hdr).
    + destruct Hpc as [-> Hp']. cbn [mbind outcome_bind Z.eqb]. eexists _, _, _. split; [reflexivity|].
      split; [|by split]. split; [done|]. split; [done|]. exists pm. exact Hp'.
    + destruct Hpc as (h & -> & Hp'). cbn [mbind outcome_bind Z.eqb]. eexists _, _, _. split; [reflexivity|].
      split; [|by split]. split; [done|]. split; [done|]. eexists. exact Hp'.
  - intros tid msg n c m Hc Hmsg Hn. pose proof Hc as (Hk & Ht & pm & Hpm).
    destruct (header_at_ok (bytes msg)) as [hdr Eh]; [unfold len, mem_size in *; lia|].
    destruct (bound c && (request hdr =? 0)) eqn:Eb.
    + apply andb_prop in Eb as [Eb Er]. apply Z.eqb_eq in Er.
      pose proof (response_sent c m pm tid msg n hdr Hpm Eb ltac:(lia) Eh Er) as Hs. destruct (pm !! request_of tid hdr) as [a|].
      * destruct Hs as (c' & Hk' & Ht' & _ & _ & Hpm' & ->).
        destruct (transmit_ok msg n (clear_tag_owner a) c' m) as (rc & c2 & E & Hc2 & Ht2); [split; [by rewrite Hk'|split; [by rewrite Ht'|eauto]]|done|].
        rewrite Hk' in Ht2. eauto 10.
      * rewrite Hs. eexists _, c. split; [done|]. split; [done|lia].
    + unfold pldm_transport_af_mctp_send, mbind, stM_bind, lift, get. replace (n <? 3) with false by lia. rewrite Eh. cbn [fst].
      rewrite Eb.
      destruct (pldm_transport_af_mctp_lookup_fqe c tid) as [[nw e]|]; [by apply transmit_ok|eexists _, c; split; [done|]; split; [done|lia]].
  - intros f [= <-] c m Hc. eexists _, _, c. split; [reflexivity|]. split; [done|lia].
Qed.
End kernel.
End af_mctp.
Arguments KernelLaws {K} opt net KP arrived ktime.

(** poll and the clock are calls of the kernel. *)
Definition kernel_host {K} (h : host K) : host (pldm_transport_af_mctp K) := Host
  (fun fd ms c => let '(r, k) := sys_poll h fd ms (kernel c) in (r, set_kernel c k))
  (fun c => let '(r, k) := clock_gettime h (kernel c) in (r, set_kernel c k)).

Lemma kernel_host_laws {K} (h : host K) KP res ktime tm :
  HostLaws h KP res ktime -> HostLaws (kernel_host h) (af_mctp_ok KP tm) res (fun c => ktime (kernel c)).
Proof.
  intros HL. constructor.
  - exact (res_law h KP res ktime).
  - intros fd ms c Hc Hms. pose proof (poll_law h KP res ktime fd ms (kernel c) (proj1 Hc) Hms) as [Hk Ht].
    cbn [kernel_host sys_poll]. destruct (sys_poll h fd ms (kernel c)) as [r k]. cbn in *.
    split; [by apply af_mctp_ok_kernel|done].
  - intros c Hc. pose proof (clock_law h KP res ktime (kernel c) (proj1 Hc)) as (Hk & Ht & Hv).
    cbn [kernel_host clock_gettime]. destruct (clock_gettime h (kernel c)) as [r k]. cbn in *.
    split; [by apply af_mctp_ok_kernel|done].
Qed.

Lemma kernel_clock_runs {K} (h : host K) KP ktime tm :
  ClockRuns h KP ktime -> ClockRuns (kernel_host h) (af_mctp_ok KP tm) (fun c => ktime (kernel c)).
Proof.
  intros HC. constructor. intros c [Hc _]. pose proof (runs_law h KP ktime (kernel c) Hc) as Ht.
  cbn [kernel_host clock_gettime]. by destruct (clock_gettime h (kernel c)).
Qed.

(** Over AF_MCTP an exchange ends if time passes, leaks and corrupts no message, and if it succeeds
    the response is one datagram, whole, that came from an address mapped to the terminus
    that was asked, and answers the request. *)
Theorem af_mctp_exchange {K} `{MsgAllocator} (opt : socket_options K) (net : mctp_socket K) (sys : host K)
    (new_cookie : gmap positive pldm_responder_cookie -> option positive) KP arrived res ktime tm
    fuel tid msg n req resp k c m :
  (forall h p, new_cookie h = Some p -> h !! p = None) ->
  KernelLaws opt net KP arrived ktime -> HostLaws sys KP res ktime -> af_mctp_ok KP tm c ->
  mem_ok msg -> 3 <= n <= mem_size msg -> header_at (bytes msg) = Ok req ->
  yields (ClockRuns sys KP ktime /\ 4800000 * res < Z.of_nat fuel)
    (pldm_transport_send_recv_msg (kernel_host sys) fuel (Some (af_mctp opt net new_cookie)) tid (Some msg) n resp (Some k))
    (c, m) (exchanged (af_mctp_ok KP tm) (from_terminus (K := K) arrived tm) tid req m).
Proof.
  intros Hnew HK HH Hc Hmsg Hn Hreq.
  eapply yields_weaken; [|by apply send_recv_yields with (res := res) (time := fun c => ktime (kernel c));
    [apply af_mctp_laws|apply kernel_host_laws|..]].
  intros [Hr Hf]. split; [by apply kernel_clock_runs|done].
Qed.

(** C17: A bound transport is a map from requests to the addresses that wait for them.  A
    request that arrives is entered with its address, unless the same request is already
    waiting, then it is thrown away, and its cookie stays in memory; a response goes to
    the address of its request, with the tag owner bit cleared, and the request is
    forgotten, whether or not it could be sent; a response that nobody waits for is not
    sent. *)
Theorem af_mctp_answers {K} `{MsgAllocator} (opt : socket_options K) (net : mctp_socket K)
    (new_cookie : gmap positive pldm_responder_cookie -> option positive) (c : pldm_transport_af_mctp K) pm m :
  (forall h p, new_cookie h = Some p -> h !! p = None) -> pending c pm -> bound c = true ->
  (forall n k1 p size l a k2 tid hdr ck,
     recv_peek net (kernel c) = (n, k1) -> 0 < n -> new_msg m n = Some p -> recvfrom net n k1 = ((size, l, a), k2) -> 3 <= size ->
     pldm_transport_af_mctp_get_tid c (smctp_network a) (smctp_addr a) = Some tid ->
     header_at l = Ok hdr -> request hdr <> 0 -> new_cookie (jar_cookies c) = Some ck ->
     exists c', kernel c' = k2 /\ tid_map c' = tid_map c /\ bound c' = true /\
     match pm !! request_of tid hdr with
     | Some _ => pldm_transport_af_mctp_recv net new_cookie (c, m) = Ok (inl PLDM_REQUESTER_RECV_FAIL, (c', m)) /\
         pending c' pm /\ dom (jar_cookies c') = {[ck]} ∪ dom (jar_cookies c)
     | None => pldm_transport_af_mctp_recv net new_cookie (c, m) = Ok (inr (tid, p, size), (c', <[p := l]> m)) /\
         pending c' (<[request_of tid hdr := a]> pm)
     end) /\
  (forall tid msg n hdr, 3 <= n -> header_at (bytes msg) = Ok hdr -> request hdr = 0 ->
     match pm !! request_of tid hdr with
     | None => pldm_transport_af_mctp_send opt net tid msg n (c, m) = Ok (PLDM_REQUESTER_SEND_FAIL, (c, m))
     | Some a => exists c', kernel c' = kernel c /\ tid_map c' = tid_map c /\
         pldm_transport_af_mctp_send opt net tid msg n (c, m) = transmit opt net msg n (clear_tag_owner a) (c', m) /\
         forall rc s, transmit opt net msg n (clear_tag_owner a) (c', m) = Ok (rc, s) ->
           s.2 = m /\ bound s.1 = true /\ pending s.1 (delete (request_of tid hdr) pm)
     end).
Proof.
  intros Hnew Hpm Hb. split.
  - intros n k1 p size l a k2 tid hdr ck. intros. by eapply request_received.
  - intros tid msg n hdr Hn Hh Hr. pose proof (response_sent opt net c m pm tid msg n hdr Hpm Hb Hn Hh Hr) as Hs.
    destruct (pm !! request_of tid hdr) as [a|]; [|done].
    destruct Hs as (c' & Hk & Ht & Hb' & _ & Hpm' & Hs). exists c'. split_and!; [done..|].
    intros rc [c2 m2] E. destruct (transmit_keeps _ _ _ _ _ _ _ _ _ _ E) as (-> & Hj & Hjar & Ha & _ & Hbd). cbn [fst snd].
    split_and!; [done|by rewrite Hbd|by eapply pending_ext].
Qed.

(** ** A kernel with queues *)

(** Datagrams in the order they arrive, those that arrive when something is sent, and what
    was sent. *)
Record mctp_kernel := MctpKernel {
  datagrams : list (list Z * sockaddr_mctp); replies : list (list Z * sockaddr_mctp);
  sent : list (list Z * sockaddr_mctp); k_time : Z
}.

Definition demo_net : mctp_socket mctp_kernel := MctpSocket
  (fun k => (match datagrams k with [] => -1 | (l, _) :: _ => len l end, k))
  (fun _ k => match datagrams k with
              | [] => ((-1, [], Smctp 0 0 0 0 0), k)
              | (l, a) :: rest => ((len l, l, a), MctpKernel rest (replies k) (sent k) (k_time k))
              end)
  (fun l a k => ((len l, 0), MctpKernel (datagrams k ++ replies k) [] (sent k ++ [(l, a)]) (k_time k)))
  (fun _ k => (0, k)).

Definition demo_options : socket_options mctp_kernel := SocketOptions (fun _ _ k => (0, k)) (fun _ k => ((0, 212992), k)).

Definition demo_host : host mctp_kernel := Host
  (fun _ _ k => (match datagrams k with [] => 0 | _ => 1 end, k))
  (fun k => (if k_time k <? 2 ^ 61 then Some ((k_time k + 1) / 1000000, (k_time k + 1) mod 1000000 * 1000) else None,
             MctpKernel (datagrams k) (replies k) (sent k) (k_time k + 1))).

Definition demo_cookie (h : gmap positive pldm_responder_cookie) : option positive := Some (fresh (dom h)).

Definition demo_ok (k : mctp_kernel) : Prop :=
  Forall (fun d => bytes_ok d.1) (datagrams k) /\ Forall (fun d => bytes_ok d.1) (replies k) /\ 0 <= k_time k.

Lemma demo_cookie_fresh h p : demo_cookie h = Some p -> h !! p = None.
Proof. intros [= <-]. apply not_elem_of_dom, is_fresh. Qed.

Lemma demo_kernel_laws : KernelLaws demo_options demo_net demo_ok (fun _ _ => True) k_time.
Proof.
  constructor; [done| | |done].
  - intros [ds rs ss t] n k' (Hd & Hr & Ht) [= <- <-] Hn. cbn [datagrams replies k_time demo_net recvfrom sent] in *.
    destruct ds as [|[l a] rest]; [done|]. apply list.Forall_cons in Hd as [Hl Hrest].
    do 4 eexists. split; [reflexivity|]. split; [done|]. split; [cbn; lia|]. right. done.
  - intros l a [ds rs ss t] (Hd & Hr & Ht). cbn in *. split; [|lia]. split_and!; [by apply list.Forall_app|by constructor|done].
Qed.

Lemma demo_clock_runs : ClockRuns demo_host demo_ok k_time.
Proof. constructor. intros [ds rs ss t] _. cbn. lia. Qed.

Lemma demo_host_laws : HostLaws demo_host demo_ok 1 k_time.
Proof.
  constructor; [done|done|]. intros [ds rs ss t] (Hd & Hr & Ht). cbn [demo_host clock_gettime fst snd k_time datagrams replies sent] in *.
  split; [split_and!; [done|done|cbn; lia]|]. split; [lia|]. rewrite Z.div_1_r. intros s ns E. destruct (Z.ltb_spec t (2 ^ 61)); [|done].
  injection E as <- <-. pose proof (Z.mod_pos_bound (t + 1) 1000000 ltac:(lia)). pose proof (Z.div_mod (t + 1) 1000000 ltac:(lia)).
  split; [|split; [lia|rewrite Z.div_mul by lia; lia]].
  split; [apply Z.div_pos; lia|apply Z.div_le_upper_bound; lia].
Qed.

(** A transport that is bound, with terminus 9 at endpoint 20 of network 1. *)
Definition demo_transport (k : mctp_kernel) : pldm_transport_af_mctp mctp_kernel :=
  AfMctp (<[9%nat := (1, 20)]> (replicate 256 (0, 0))) (Sndbuf 3 106496 212992) true 1
    {[ 1%positive := Cookie (0, 0, 0, 0) None ]} ∅ k.

Lemma demo_pending k : pending (demo_transport k) ∅.
Proof.
  exists ∅. split; [|split; [intros ? ? Hk; by rewrite lookup_empty in Hk|intros; by rewrite !lookup_empty]].
  exists []. split; [|intros k' a; rewrite lookup_empty; split; [done|intros Hin; by apply elem_of_nil in Hin]].
  constructor; [exists (0, 0, 0, 0), None; done|apply list.NoDup_singleton|apply NoDup_nil_2].
Qed.

Lemma af_mctp_exchange_witness :
  let other := Smctp 45 1 21 1 3 in let asked := Smctp 45 1 20 1 3 in
  let k := MctpKernel [] [([0x03; 0x02; 0x11; 0], other); ([0x03; 0x02; 0x11; 0; 5], asked)] [] 10 in
  gives (pldm_transport_send_recv_msg (kernel_host demo_host) (Z.to_nat 4800001)
      (Some (af_mctp demo_options demo_net demo_cookie)) 9 (Some (CMem 4096 [0x83; 0x02; 0x11])) 3 None (Some 0))
    (demo_transport k, ∅)
    (exchanged (af_mctp_ok demo_ok (tid_map (demo_transport k))) (from_terminus (K := mctp_kernel) (fun _ _ => True) (tid_map (demo_transport k))) 9
       (MsgHdr 1 0 0 3 0 2 0x11) ∅) /\
  exists c, pldm_transport_send_recv_msg (kernel_host demo_host) 3
      (Some (af_mctp demo_options demo_net demo_cookie)) 9 (Some (CMem 4096 [0x83; 0x02; 0x11])) 3 None (Some 0)
      (demo_transport k, ∅) = Ok ((PLDM_REQUESTER_SUCCESS, Some 1%positive, Some 5), (c, {[1%positive := [0x03; 0x02; 0x11; 0; 5]]})) /\
    sent (kernel c) = [([0x83; 0x02; 0x11], Smctp 45 1 20 1 8)].
Proof.
  intros other asked k. split; [|eexists; split; vm_compute; reflexivity].
  eapply (yields_enough (ClockRuns demo_host demo_ok k_time /\ 4800000 * 1 < Z.of_nat (Z.to_nat 4800001)));
    [split; [apply demo_clock_runs|rewrite Z2Nat.id; lia]|].
  apply af_mctp_exchange with (ktime := k_time).
  - apply demo_cookie_fresh.
  - apply demo_kernel_laws.
  - apply demo_host_laws.
  - split; [|split; [done|exists ∅; apply demo_pending]].
    split_and!; [constructor| |done]. apply (bool_decide_unpack (Forall (fun d => Forall (fun b => 0 <= b < 256) d.1) _)); by vm_compute.
  - constructor; [by vm_compute..|]. apply (bool_decide_unpack (Forall (fun b => 0 <= b < 256) _)). by vm_compute.
  - by vm_compute.
  - reflexivity.
Defined.

(** A request of endpoint 20, and its response. *)
Lemma af_mctp_answers_witness :
  let from := Smctp 45 1 20 1 11 in
  let k := MctpKernel [([0x83; 0x02; 0x11], from)] [] [] 10 in
  exists c p, pldm_transport_af_mctp_recv demo_net demo_cookie (demo_transport k, ∅) = Ok (inr (9, p, 3), (c, {[p := [0x83; 0x02; 0x11]]})) /\
    pending c {[ (9, 3, 2, 0x11) := from ]} /\
    exists c', pldm_transport_af_mctp_send demo_options demo_net 9 (CMem 4096 [0x03; 0x02; 0x11; 0]) 4 (c, {[p := [0x83; 0x02; 0x11]]})
      = Ok (PLDM_REQUESTER_SUCCESS, (c', {[p := [0x83; 0x02; 0x11]]})) /\
      sent (kernel c') = [([0x03; 0x02; 0x11; 0], Smctp 45 1 20 1 3)].
Proof.
  intros from k.
  destruct (af_mctp_answers demo_options demo_net demo_cookie (demo_transport k) ∅ ∅ demo_cookie_fresh (demo_pending k) eq_refl) as [Hrecv _].
  destruct (Hrecv 3 k 1%positive 3 [0x83; 0x02; 0x11] from (MctpKernel [] [] [] 10) 9 (MsgHdr 1 0 0 3 0 2 0x11) 2%positive)
    as (c & _ & _ & _ & E & Hp); [reflexivity|lia|by vm_compute|reflexivity|lia|by vm_compute|reflexivity|done|by vm_compute|].
  exists c, 1%positive. split; [exact E|]. split; [exact Hp|].
  vm_compute in E. injection E as <-. eexists. split; vm_compute; reflexivity.
Defined.
