(* ===== verification/MctpDemux.v ===== *)
(** * The transport to the MCTP demultiplexer (src/transport/mctp-demux.c)

    Messages over a local socket to a daemon that owns the MCTP link.  A message is
    prefixed with the endpoint id and the MCTP message type. *)

From stdpp Require Import gmap.
From S2P Require Import Prelude Msgbuf Layout Base Responder Transport TransportProps Socket.

Local Open Scope Z_scope.

Abbreviation MCTP_MSG_TYPE_PLDM := 1 (only parsing).
Abbreviation MCTP_MAX_NUM_EID := 256 (only parsing).

Section demux.
Context {K : Type}.

(** The calls on the socket: the length of the next message, receiving it to throw it
    away, receiving it whole into two buffers of sizes together (what recvmsg returns and
    the bytes), sending the bytes of two buffers, and what makes the socket. *)
Record demux_socket := DemuxSocket {
  demux_peek : K -> Z * K;
  demux_discard : Z -> K -> K;
  recvmsg : Z -> K -> (Z * list Z) * K;
  sendmsg : list Z -> K -> Z * K;
  demux_socket_call : K -> Z * K;
  demux_connect : K -> Z * K;
  demux_write : list Z -> K -> Z * K
}.

Context `{MsgAllocator} (opt : socket_options K) (net : demux_socket).

Record pldm_transport_mctp_demux := Demux {
  tid_eid_map : list Z; demux_send_buf : pldm_socket_sndbuf; demux_kernel : K
}.

Abbreviation DM := (stM (pldm_transport_mctp_demux * gmap positive (list Z))) (only parsing).

Definition on_demux {A} (f : K -> A * K) : DM A := fun '(c, m) =>
  let '(a, k) := f (demux_kernel c) in Ok (a, (Demux (tid_eid_map c) (demux_send_buf c) k, m)).

(** The socket, or -1. *)
Definition pldm_transport_mctp_demux_open (k : K) : Z * K :=
  let '(fd, k) := demux_socket_call net k in
  if fd =? -1 then (fd, k)
  else
  let '(rc, k) := demux_connect net k in
  if rc =? -1 then (-1, k)
  else
  let '(rc, k) := demux_write net [MCTP_MSG_TYPE_PLDM] k in
  if rc =? -1 then (-1, k) else (fd, k).

(** ** Endpoints *)

Fixpoint eid_from (i : Z) (l : list Z) (tid : Z) : option Z :=
  match l with [] => None | t :: l => if t =? tid then Some i else eid_from (i + 1) l tid end.

Definition pldm_transport_mctp_demux_get_eid (ctx : pldm_transport_mctp_demux) (tid : Z) : option Z :=
  eid_from 0 (tid_eid_map ctx) tid.

Definition pldm_transport_mctp_demux_get_tid (ctx : pldm_transport_mctp_demux) (eid : Z) : option Z :=
  let tid := nth (Z.to_nat eid) (tid_eid_map ctx) 0 in
  if negb (tid =? 0) then Some tid else None.

Definition pldm_transport_mctp_demux_map_tid (ctx : pldm_transport_mctp_demux) (tid eid : Z)
  : Z * pldm_transport_mctp_demux :=
  (0, Demux (<[Z.to_nat eid := tid]> (tid_eid_map ctx)) (demux_send_buf ctx) (demux_kernel ctx)).

Definition pldm_transport_mctp_demux_unmap_tid (ctx : pldm_transport_mctp_demux) (tid eid : Z) :=
  pldm_transport_mctp_demux_map_tid ctx 0 eid.

(** ** Messages *)

Definition cleanup_buf {A} (p : positive) (res : Z) : DM (Z + A) := _ ← free_msg (Some p); mret (inl res).

(** The block that is made has room for the prefix too; the prefix goes elsewhere. *)
Definition pldm_transport_mctp_demux_recv : DM (Z + Z * positive * Z) :=
  length ← on_demux (demux_peek net);
  if length <=? 0 then mret (inl PLDM_REQUESTER_RECV_FAIL)
  else
  '(c, m) ← get;
  match new_msg m length with
  | None => mret (inl PLDM_REQUESTER_RECV_FAIL)
  | Some p =>
    _ ← put (c, <[p := []]> m);
    if length <? 5 then
      _ ← on_demux (fun k => (tt, demux_discard net length k));
      cleanup_buf p PLDM_REQUESTER_INVALID_RECV_LEN
    else
    '(bytes, l) ← on_demux (recvmsg net length);
    if negb (length =? bytes) then cleanup_buf p PLDM_REQUESTER_INVALID_RECV_LEN
    else
    match l with
    | eid :: mctp_type :: msg =>
      '(c, m) ← get;
      _ ← put (c, <[p := msg]> m);
      if negb (mctp_type =? MCTP_MSG_TYPE_PLDM) then cleanup_buf p PLDM_REQUESTER_NOT_PLDM_MSG
      else
      match pldm_transport_mctp_demux_get_tid c eid with
      | None => cleanup_buf p PLDM_REQUESTER_RECV_FAIL
      | Some tid => mret (inr (tid, p, length - 2))
      end
    | _ => fun _ => Fault FMemory
    end
  end.

Definition pldm_transport_mctp_demux_send (tid : Z) (msg : cmem) (msg_len : Z) : DM Z := fun '(c, m) =>
  match pldm_transport_mctp_demux_get_eid c tid with
  | None => Ok (PLDM_REQUESTER_SEND_FAIL, (c, m))
  | Some eid =>
    if INT_MAX <? msg_len then Ok (PLDM_REQUESTER_SEND_FAIL, (c, m))
    else
    let '(rc, buf, k) := pldm_socket_sndbuf_accomodate opt (demux_send_buf c) msg_len (demux_kernel c) in
    if negb (rc =? 0) then Ok (PLDM_REQUESTER_SEND_FAIL, (Demux (tid_eid_map c) buf k, m))
    else
    l ← mem_read msg 0 msg_len;
    let '(rc, k) := sendmsg net ([eid; MCTP_MSG_TYPE_PLDM] ++ l) k in
    Ok (if rc =? -1 then PLDM_REQUESTER_SEND_FAIL else PLDM_REQUESTER_SUCCESS, (Demux (tid_eid_map c) buf k, m))
  end.

Definition pldm_transport_mctp_demux_init_pollfd : DM (Z * Z) := fun '(c, m) =>
  Ok ((0, sb_socket (demux_send_buf c)), (c, m)).

Definition mctp_demux : pldm_transport pldm_transport_mctp_demux :=
  Transport pldm_transport_mctp_demux_recv pldm_transport_mctp_demux_send (Some pldm_transport_mctp_demux_init_pollfd).

(** With the memory there is and a socket: the buffer is asked for. *)
Definition demux_with_socket (fd : Z) (wmem_max : option Z) (k : K) : option pldm_transport_mctp_demux :=
  if fd =? -1 then None
  else
  let '(rc, buf, k) := pldm_socket_sndbuf_init opt (Sndbuf 0 0 0) fd wmem_max k in
  if negb (rc =? 0) then None else Some (Demux (replicate 256 0) buf k).

(** [*ctx] is NULL or not, [mem] whether calloc succeeds. *)
Definition pldm_transport_mctp_demux_init (ctx : option (option pldm_transport_mctp_demux)) (mem : bool)
    (wmem_max : option Z) (k : K) : Z * option (option pldm_transport_mctp_demux) :=
  match ctx with
  | Some None =>
    if negb mem then (- ENOMEM, ctx)
    else
    let '(fd, k) := pldm_transport_mctp_demux_open k in
    match demux_with_socket fd wmem_max k with
    | None => (-1, ctx)
    | Some d => (0, Some (Some d))
    end
  | _ => (- EINVAL, ctx)
  end.

(** [fd] is what dup returns for the caller's descriptor. *)
Definition pldm_transport_mctp_demux_init_with_fd (mem : bool) (fd : Z) (wmem_max : option Z) (k : K)
  : option pldm_transport_mctp_demux :=
  if negb mem then None else demux_with_socket fd wmem_max k.

Definition pldm_transport_mctp_demux_get_socket_fd (ctx : option pldm_transport_mctp_demux) : Z :=
  match ctx with Some c => sb_socket (demux_send_buf c) | None => -1 end.
End demux.
Arguments demux_socket : clear implicits.
Arguments pldm_transport_mctp_demux : clear implicits.

(** ** What it does *)

Section props.
Context {K : Type} `{MsgAllocator} (opt : socket_options K) (net : demux_socket K).
Context (KP : K -> Prop) (arrived : list Z -> Prop) (ktime : K -> Z).

(** [arrived l]: the daemon sent [l]; a message is received whole, or not. *)
Class DemuxLaws : Prop := {
  demux_peek_law : forall k, KP k -> KP (demux_peek net k).2 /\ ktime k <= ktime (demux_peek net k).2;
  demux_discard_law : forall n k, KP k -> KP (demux_discard net n k) /\ ktime k <= ktime (demux_discard net n k);
  recvmsg_law : forall n k, KP k -> exists size l k', recvmsg net n k = ((size, l), k') /\ KP k' /\ ktime k <= ktime k' /\
    (0 <= size -> len l = size /\ bytes_ok l /\ arrived l);
  sendmsg_law : forall l k, KP k -> KP (sendmsg net l k).2 /\ ktime k <= ktime (sendmsg net l k).2;
  demux_sndbuf_law : forall fd n k, KP k -> KP (set_sndbuf opt fd n k).2 /\ ktime k <= ktime (set_sndbuf opt fd n k).2
}.

Context {HD : DemuxLaws} (tm : list Z).

Definition demux_ok (c : pldm_transport_mctp_demux K) : Prop := KP (demux_kernel c) /\ tid_eid_map c = tm.

(** The message came from an endpoint that is mapped to the terminus. *)
Definition mapped_terminus (tid : Z) (l : list Z) : Prop :=
  tid <> 0 /\ exists eid, nth (Z.to_nat eid) tm 0 = tid /\ arrived (eid :: MCTP_MSG_TYPE_PLDM :: l).

Lemma demux_clean (c : pldm_transport_mctp_demux K) (m : gmap positive (list Z)) p l A res :
  m !! p = None -> @cleanup_buf K A p res (c, <[p := l]> m) = Ok (inl res, (c, m)).
Proof. intros Hp. unfold cleanup_buf, mbind, stM_bind, free_msg. rewrite lookup_insert_eq. by rewrite delete_insert_id. Qed.

Lemma mctp_demux_laws : TransportLaws (mctp_demux opt net) demux_ok mapped_terminus (fun c => ktime (demux_kernel c)).
Proof.
  constructor; cbn [t_recv t_send t_init_pollfd mctp_demux].
  - intros [t b k] m [Hk Ht]. cbn [demux_kernel tid_eid_map] in *. subst t.
    unfold pldm_transport_mctp_demux_recv. unfold mbind at 1, stM_bind at 1, on_demux at 1. cbn [demux_kernel tid_eid_map demux_send_buf].
    pose proof (demux_peek_law k Hk) as [Hk1 Ht1]. destruct (demux_peek net k) as [n k1]. cbn [snd] in *.
    destruct (Z.leb_spec n 0); [by eexists _, _, _|]. unfold mbind at 1, stM_bind at 1, get at 1.
    destruct (new_msg m n) as [p|] eqn:Em; [|by eexists _, _, _]. pose proof (new_msg_fresh _ _ _ Em) as Hp.
    unfold mbind at 1, stM_bind at 1, put at 1. destruct (Z.ltb_spec n 5).
    { unfold mbind at 1, stM_bind at 1, on_demux at 1. cbn [demux_kernel]. rewrite demux_clean by done.
      pose proof (demux_discard_law n k1 Hk1) as [Hk2 Ht2]. eexists _, _, _. split; [reflexivity|]. split; [done|]. split; [cbn; lia|done]. }
    unfold mbind at 1, stM_bind at 1, on_demux at 1. cbn [demux_kernel tid_eid_map demux_send_buf].
    destruct (recvmsg_law n k1 Hk1) as (size & l & k2 & -> & Hk2 & Ht2 & Hl).
    destruct (Z.eqb_spec n size) as [<-|]; cbn [negb].
    2: { rewrite demux_clean by done. eexists _, _, _. split; [reflexivity|]. split; [done|]. split; [cbn; lia|done]. }
    destruct (Hl ltac:(lia)) as (Hn & Hb & Harr). unfold len in Hn. destruct l as [|eid [|ty msg]]; [cbn in Hn; lia|cbn in Hn; lia|].
    unfold mbind at 1, stM_bind at 1, get at 1. unfold mbind at 1, stM_bind at 1, put at 1. rewrite insert_insert_eq.
    destruct (Z.eqb_spec ty 1) as [->|]; cbn [negb].
    2: { rewrite demux_clean by done. eexists _, _, _. split; [reflexivity|]. split; [done|]. split; [cbn; lia|done]. }
    unfold pldm_transport_mctp_demux_get_tid. cbn [tid_eid_map].
    destruct (Z.eqb_spec (nth (Z.to_nat eid) tm 0) 0); cbn [negb].
    { rewrite demux_clean by done. eexists _, _, _. split; [reflexivity|]. split; [done|]. split; [cbn; lia|done]. }
    eexists _, _, _. split; [reflexivity|]. split; [done|]. split; [cbn; lia|]. exists msg.
    split_and!; [done|done|unfold len; cbn in Hn; lia|by apply list.Forall_cons in Hb as [_ [_ Hb]%list.Forall_cons]|split; [done|by exists eid]].
  - intros tid msg n [t b k] m [Hk Ht] Hmsg Hn. cbn [demux_kernel tid_eid_map] in *. subst t. unfold pldm_transport_mctp_demux_send.
    destruct (pldm_transport_mctp_demux_get_eid _ tid) as [eid|]; [|eexists _, _; split; [done|]; split; [done|cbn; lia]].
    destruct (INT_MAX <? n); [eexists _, _; split; [done|]; split; [done|cbn; lia]|]. cbn [demux_send_buf demux_kernel tid_eid_map].
    destruct (pldm_socket_sndbuf_accomodate opt b n k) as [[rc1 buf] k1] eqn:Ea.
    assert (KP k1 /\ ktime k <= ktime k1) as [Hk1 Ht1].
    { revert Ea. unfold pldm_socket_sndbuf_accomodate. destruct (n <? _); [intros [= _ _ <-]; split; [done|lia]|].
      destruct (_ =? _); [intros [= _ _ <-]; split; [done|lia]|].
      match goal with |- context [set_sndbuf opt ?fd ?v ?k0] => pose proof (demux_sndbuf_law fd v k0 Hk) as Hs; destruct (set_sndbuf opt fd v k0) as [rc2 k2] end.
      destruct (rc2 =? -1); by intros [= _ _ <-]. }
    destruct (rc1 =? 0); cbn [negb]; [|eexists _, _; split; [done|]; by split].
    rewrite (mem_read_ok msg 0 n (slice 0 (Z.to_nat n) (bytes msg))) by (done || lia). cbn [mbind outcome_bind].
    pose proof (sendmsg_law ([eid; 1] ++ slice 0 (Z.to_nat n) (bytes msg)) k1 Hk1) as [Hk2 Ht2].
    destruct (sendmsg net _ k1) as [rc2 k2]. eexists _, _. split; [done|]. cbn in Hk2, Ht2 |- *. split; [done|lia].
  - intros f [= <-] c m Hc. eexists _, _, c. split; [reflexivity|]. split; [done|lia].
Qed.
End props.
Arguments DemuxLaws {K} opt net KP arrived ktime.

(** poll and the clock are calls of the kernel. *)
Definition demux_host {K} (h : host K) : host (pldm_transport_mctp_demux K) := Host
  (fun fd ms c => let '(r, k) := sys_poll h fd ms (demux_kernel c) in (r, Demux (tid_eid_map c) (demux_send_buf c) k))
  (fun c => let '(r, k) := clock_gettime h (demux_kernel c) in (r, Demux (tid_eid_map c) (demux_send_buf c) k)).

Lemma demux_host_laws {K} (h : host K) KP res ktime tm :
  HostLaws h KP res ktime -> HostLaws (demux_host h) (demux_ok KP tm) res (fun c => ktime (demux_kernel c)).
Proof.
  intros HL. constructor.
  - exact (res_law h KP res ktime).
  - intros fd ms c Hc Hms. pose proof (poll_law h KP res ktime fd ms (demux_kernel c) (proj1 Hc) Hms) as [Hk Ht].
    cbn [demux_host sys_poll]. destruct (sys_poll h fd ms (demux_kernel c)) as [r k]. cbn in *.
    split; [split; [done|apply Hc]|done].
  - intros c Hc. pose proof (clock_law h KP res ktime (demux_kernel c) (proj1 Hc)) as (Hk & Ht & Hv).
    cbn [demux_host clock_gettime]. destruct (clock_gettime h (demux_kernel c)) as [r k]. cbn in *.
    split; [split; [done|apply Hc]|done].
Qed.

Lemma demux_clock_runs {K} (h : host K) KP ktime tm :
  ClockRuns h KP ktime -> ClockRuns (demux_host h) (demux_ok KP tm) (fun c => ktime (demux_kernel c)).
Proof.
  intros HC. constructor. intros c [Hc _]. pose proof (runs_law h KP ktime (demux_kernel c) Hc) as Ht.
  cbn [demux_host clock_gettime]. by destruct (clock_gettime h (demux_kernel c)).
Qed.

(** C40: Over the demultiplexer an exchange, on a clock that does not go back, leaks and
    corrupts no message, and if it succeeds the response is what the daemon sent, without
    the prefix, as a PLDM message of an endpoint that is mapped to the terminus that was
    asked, and answers the request.  It ends if time passes while it waits: when no more
    than [res] readings of the clock can say the same microsecond, within 4800000 * [res]
    rounds. *)
Theorem demux_exchange {K} `{MsgAllocator} (opt : socket_options K) (net : demux_socket K) (sys : host K)
    KP arrived res ktime tm fuel tid msg n req resp k c m :
  DemuxLaws opt net KP arrived ktime -> HostLaws sys KP res ktime -> demux_ok KP tm c ->
  mem_ok msg -> 3 <= n <= mem_size msg -> header_at (bytes msg) = Ok req ->
  let run := pldm_transport_send_recv_msg (demux_host sys) fuel (Some (mctp_demux opt net)) tid (Some msg) n resp (Some k) in
  let Q := exchanged (demux_ok KP tm) (mapped_terminus arrived tm) tid req m in
  (gives run (c, m) Q \/ run (c, m) = Fault FFuel) /\
  (ClockRuns sys KP ktime -> 4800000 * res < Z.of_nat fuel -> gives run (c, m) Q).
Proof.
  intros HD HH Hc Hmsg Hn Hreq run Q.
  assert (yields (ClockRuns (demux_host sys) (demux_ok KP tm) (fun c => ktime (demux_kernel c)) /\ 4800000 * res < Z.of_nat fuel) run (c, m) Q) as Hrun.
  { by apply send_recv_yields; [apply mctp_demux_laws|apply demux_host_laws|..]. }
  split.
  - destruct Hrun as [?|[? _]]; [by left|by right].
  - intros Hr Hf. eapply yields_enough; [|exact Hrun]. split; [by apply demux_clock_runs|done].
Qed.

(** ** A daemon that answers *)

Record demux_daemon := Daemon { incoming : list (list Z); answers : list (list Z); written : list (list Z); d_time : Z }.

Definition demo_daemon : demux_socket demux_daemon := DemuxSocket
  (fun d => (match incoming d with [] => -1 | l :: _ => len l end, d))
  (fun _ d => Daemon (tail (incoming d)) (answers d) (written d) (d_time d))
  (fun _ d => match incoming d with
              | [] => ((-1, []), d)
              | l :: rest => ((len l, l), Daemon rest (answers d) (written d) (d_time d))
              end)
  (fun l d => (len l, Daemon (incoming d ++ answers d) [] (written d ++ [l]) (d_time d)))
  (fun d => (3, d)) (fun d => (0, d)) (fun l d => (len l, d)).

Definition demo_daemon_options : socket_options demux_daemon := SocketOptions (fun _ _ d => (0, d)) (fun _ d => ((0, 212992), d)).

Definition demo_daemon_host : host demux_daemon := Host
  (fun _ _ d => (match incoming d with [] => 0 | _ => 1 end, d))
  (fun d => (if d_time d <? 2 ^ 61 then Some ((d_time d + 1) / 1000000, (d_time d + 1) mod 1000000 * 1000) else None,
             Daemon (incoming d) (answers d) (written d) (d_time d + 1))).

Definition demo_daemon_ok (d : demux_daemon) : Prop :=
  Forall (Forall byte_ok) (incoming d) /\ Forall (Forall byte_ok) (answers d) /\ 0 <= d_time d.

Lemma demo_daemon_laws : DemuxLaws demo_daemon_options demo_daemon demo_daemon_ok (fun _ => True) d_time.
Proof.
  constructor; [done| | | |done].
  - intros n [i a w t] (Hi & Ha & Ht). cbn in *. split; [|lia]. split_and!; [|done|done]. destruct Hi; [constructor|done].
  - intros n [i a w t] (Hi & Ha & Ht). cbn [incoming answers d_time demo_daemon recvmsg] in *. destruct i as [|l rest].
    + do 3 eexists. split; [reflexivity|]. split; [done|]. split; [cbn; lia|lia].
    + apply list.Forall_cons in Hi as [Hl Hrest]. do 3 eexists. split; [reflexivity|]. split; [done|]. split; [cbn; lia|done].
  - intros l [i a w t] (Hi & Ha & Ht). cbn in *. split; [|lia]. split_and!; [by apply list.Forall_app|constructor|done].
Qed.

Lemma demo_daemon_clock_runs : ClockRuns demo_daemon_host demo_daemon_ok d_time.
Proof. constructor. intros [i a w t] _. cbn. lia. Qed.

Lemma demo_daemon_host_laws : HostLaws demo_daemon_host demo_daemon_ok 1 d_time.
Proof.
  constructor; [done|done|]. intros [i a w t] (Hi & Ha & Ht). cbn [demo_daemon_host clock_gettime fst snd d_time incoming answers written] in *.
  split; [split_and!; [done|done|cbn; lia]|]. split; [lia|]. rewrite Z.div_1_r. intros s ns E. destruct (Z.ltb_spec t (2 ^ 61)); [|done].
  injection E as <- <-. pose proof (Z.mod_pos_bound (t + 1) 1000000 ltac:(lia)). pose proof (Z.div_mod (t + 1) 1000000 ltac:(lia)).
  split; [|split; [lia|rewrite Z.div_mul by lia; lia]].
  split; [apply Z.div_pos; lia|apply Z.div_le_upper_bound; lia].
Qed.

(** Terminus 9 is endpoint 20; before it answers, endpoint 21 does. *)
Lemma demux_exchange_witness :
  let d := Daemon [] [[21; 1; 0x03; 0x02; 0x11; 0]; [20; 1; 0x03; 0x02; 0x11; 0; 5]] [] 10 in
  let c := (pldm_transport_mctp_demux_map_tid (Demux (replicate 256 0) (Sndbuf 3 106496 212992) d) 9 20).2 in
  gives (pldm_transport_send_recv_msg (demux_host demo_daemon_host) (Z.to_nat 4800001)
      (Some (mctp_demux demo_daemon_options demo_daemon)) 9 (Some (CMem 4096 [0x83; 0x02; 0x11])) 3 None (Some 0)) (c, ∅)
    (exchanged (demux_ok demo_daemon_ok (tid_eid_map c)) (mapped_terminus (fun _ => True) (tid_eid_map c)) 9
       (MsgHdr 1 0 0 3 0 2 0x11) ∅) /\
  exists c', pldm_transport_send_recv_msg (demux_host demo_daemon_host) 3
      (Some (mctp_demux demo_daemon_options demo_daemon)) 9 (Some (CMem 4096 [0x83; 0x02; 0x11])) 3 None (Some 0) (c, ∅)
    = Ok ((PLDM_REQUESTER_SUCCESS, Some 1%positive, Some 5), (c', {[1%positive := [0x03; 0x02; 0x11; 0; 5]]})) /\
    written (demux_kernel c') = [[20; 1; 0x83; 0x02; 0x11]].
Proof.
  intros d c. split; [|eexists; split; vm_compute; reflexivity].
  destruct (demux_exchange demo_daemon_options demo_daemon demo_daemon_host demo_daemon_ok (fun _ => True) 1 d_time (tid_eid_map c)
    (Z.to_nat 4800001) 9 (CMem 4096 [0x83; 0x02; 0x11]) 3 (MsgHdr 1 0 0 3 0 2 0x11) None 0 c ∅) as [_ H].
  - apply demo_daemon_laws.
  - apply demo_daemon_host_laws.
  - split; [|done]. split_and!; [constructor| |done]. apply (bool_decide_unpack (Forall (Forall (fun b => 0 <= b < 256)) _)); by vm_compute.
  - constructor; [by vm_compute..|]. apply (bool_decide_unpack (Forall (fun b => 0 <= b < 256) _)). by vm_compute.
  - by vm_compute.
  - reflexivity.
  - apply H; [apply demo_daemon_clock_runs|rewrite Z2Nat.id; lia].
Defined.
