(* ===== verification/TransportTest.v ===== *)
(** * The scripted transport (src/transport/test.c)

    A transport for tests that plays a script: messages that it expects to be sent,
    messages that it receives, and times in which nothing happens.  What timerfd_settime
    and ppoll return are parameters. *)

From stdpp Require Import gmap.
From S2P Require Import Prelude Msgbuf Layout Base Responder Transport TransportProps.

Local Open Scope Z_scope.

(** struct pldm_transport_test_descriptor *)
Inductive pldm_transport_test_descriptor :=
  | TEST_ELEMENT_MSG_SEND (dst : Z) (msg : list Z)
  | TEST_ELEMENT_MSG_RECV (src : Z) (msg : list Z)
  | TEST_ELEMENT_LATENCY (ns : Z).

Section test.
Context {K : Type}.

(** Setting the timer to expire after some nanoseconds, 0 to disarm it; ppoll on it. *)
Record timer := Timer {
  timerfd_settime : Z -> Z -> K -> Z * K;
  ppoll : Z -> K -> Z * K
}.

Context `{MsgAllocator} (os : timer).

(** struct pldm_transport_test; [count] is the length of [seq]. *)
Record pldm_transport_test := TransportTest {
  seq : list pldm_transport_test_descriptor; cursor : Z; timerfd : Z; test_kernel : K
}.

Abbreviation XM := (stM (pldm_transport_test * gmap positive (list Z))) (only parsing).

Definition on_timer (f : K -> Z * K) : XM Z := fun '(c, m) =>
  let '(rc, k) := f (test_kernel c) in Ok (rc, (TransportTest (seq c) (cursor c) (timerfd c) k, m)).

Definition step_cursor : XM unit := fun '(c, m) =>
  Ok (tt, (TransportTest (seq c) (cursor c + 1) (timerfd c) (test_kernel c), m)).

(** test->seq[test->cursor] *)
Definition current_element (c : pldm_transport_test) : outcome pldm_transport_test_descriptor :=
  match seq c !! Z.to_nat (cursor c) with Some d => Ok d | None => Fault FMemory end.

Definition pldm_transport_test_init_pollfd : XM (Z * Z) :=
  '(c, _) ← get;
  let fd := timerfd c in
  rc ← on_timer (timerfd_settime os fd 0);
  if rc <? 0 then mret (PLDM_REQUESTER_POLL_FAIL, fd)
  else if len (seq c) <=? cursor c then mret (PLDM_REQUESTER_POLL_FAIL, fd)
  else
  desc ← lift (current_element c);
  match desc with
  | TEST_ELEMENT_LATENCY ns =>
    rc ← on_timer (timerfd_settime os fd ns);
    if rc <? 0 then mret (PLDM_REQUESTER_POLL_FAIL, fd)
    else _ ← step_cursor; mret (0, fd)
  | TEST_ELEMENT_MSG_RECV _ _ =>
    rc ← on_timer (timerfd_settime os fd 1);
    if rc <? 0 then mret (PLDM_REQUESTER_POLL_FAIL, fd)
    else
    rc ← on_timer (ppoll os fd);
    if rc <? 1 then mret (PLDM_REQUESTER_POLL_FAIL, fd) else mret (0, fd)
  | TEST_ELEMENT_MSG_SEND _ _ => mret (PLDM_REQUESTER_POLL_FAIL, fd)
  end.

Definition pldm_transport_test_recv : XM (Z + Z * positive * Z) :=
  '(c, m) ← get;
  if len (seq c) <=? cursor c then mret (inl PLDM_REQUESTER_RECV_FAIL)
  else
  desc ← lift (current_element c);
  match desc with
  | TEST_ELEMENT_MSG_RECV src msg =>
    match new_msg m (len msg) with
    | None => mret (inl PLDM_REQUESTER_RECV_FAIL)
    | Some p =>
      _ ← put (c, <[p := msg]> m);
      _ ← step_cursor;
      mret (inr (src, p, len msg))
    end
  | _ => mret (inl PLDM_REQUESTER_RECV_FAIL)
  end.

(** The test for the end of the script is off by one. *)
Definition pldm_transport_test_send (tid : Z) (msg : cmem) (msg_len : Z) : XM Z :=
  '(c, _) ← get;
  if len (seq c) <? cursor c then mret PLDM_REQUESTER_SEND_FAIL
  else
  desc ← lift (current_element c);
  match desc with
  | TEST_ELEMENT_MSG_SEND dst expected =>
    if negb (dst =? tid) then mret PLDM_REQUESTER_SEND_FAIL
    else if negb (len expected =? msg_len) then mret PLDM_REQUESTER_SEND_FAIL
    else
    l ← lift (mem_read msg 0 msg_len);
    if negb (bool_decide (l = expected)) then mret PLDM_REQUESTER_SEND_FAIL
    else _ ← step_cursor; mret PLDM_REQUESTER_SUCCESS
  | _ => mret PLDM_REQUESTER_SEND_FAIL
  end.

Definition transport_test : pldm_transport pldm_transport_test :=
  Transport pldm_transport_test_recv pldm_transport_test_send (Some pldm_transport_test_init_pollfd).

(** [mem]: whether malloc succeeds; [fd] and [errno] what timerfd_create returns. *)
Definition pldm_transport_test_init (ctx : option (option pldm_transport_test)) (script : list pldm_transport_test_descriptor)
    (mem : bool) (fd errno : Z) (k : K) : Z * option (option pldm_transport_test) :=
  match ctx with
  | Some None =>
    if negb mem then (- ENOMEM, ctx)
    else if fd <? 0 then (- errno, ctx)
    else (0, Some (Some (TransportTest script 0 fd k)))
  | _ => (- EINVAL, ctx)
  end.

(** ** Playing a script

    The timer works, and what is set to expire at once is ready. *)
Context (sys : host pldm_transport_test).
Hypothesis settime_ok : forall fd ns k, (timerfd_settime os fd ns k).1 = 0.
Hypothesis ppoll_ok : forall fd k, (ppoll os fd k).1 = 1.
Hypothesis poll_ok : forall fd ms w, exists k, sys_poll sys fd ms w = (1, TransportTest (seq w) (cursor w) (timerfd w) k).

(** The clock stands still, at some time. *)
Context (sec nsec : Z).
Hypothesis time_ok : 0 <= sec <= 2 ^ 61 /\ 0 <= nsec < 1000000000.
Hypothesis clock_ok : forall w, exists k, clock_gettime sys w = (Some (sec, nsec), TransportTest (seq w) (cursor w) (timerfd w) k).
Hypothesis memory_ok : forall m n, is_Some (new_msg m n).

(** Where the script is. *)
Definition script_at (w : pldm_transport_test) (rest : list pldm_transport_test_descriptor) : Prop :=
  0 <= cursor w /\ drop (Z.to_nat (cursor w)) (seq w) = rest.

Lemma script_current w d rest : script_at w (d :: rest) ->
  seq w !! Z.to_nat (cursor w) = Some d /\ cursor w < len (seq w) /\
  forall fd k, script_at (TransportTest (seq w) (cursor w + 1) fd k) rest.
Proof.
  intros [Hc Hd]. assert (seq w !! Z.to_nat (cursor w) = Some d) as Hl.
  { pose proof (lookup_drop (seq w) (Z.to_nat (cursor w)) 0) as Hl. rewrite Hd, Nat.add_0_r in Hl. by rewrite <- Hl. }
  split; [done|]. apply lookup_lt_Some in Hl. split; [unfold len; lia|]. intros fd k. split; [cbn; lia|].
  cbn. replace (Z.to_nat (cursor w + 1)) with (Z.to_nat (cursor w) + 1)%nat by lia. by rewrite <- drop_drop, Hd.
Qed.

Definition stays (w : pldm_transport_test) (m : gmap positive (list Z)) (s : pldm_transport_test * gmap positive (list Z)) : Prop :=
  seq s.1 = seq w /\ cursor s.1 = cursor w /\ s.2 = m.

Lemma on_timer_gives (f : K -> Z * K) rc w m : (f (test_kernel w)).1 = rc -> gives (on_timer f) (w, m) (fun r s => r = rc /\ stays w m s).
Proof. intros <-. unfold on_timer, gives. destruct (f (test_kernel w)) as [r k]. by eexists _, _. Qed.

Lemma poll_recv w m src msg rest ms :
  script_at w (TEST_ELEMENT_MSG_RECV src msg :: rest) ->
  gives (pldm_transport_poll sys (Some transport_test) ms) (w, m) (fun rc s => rc = 1 /\ stays w m s).
Proof.
  intros Hs. destruct (script_current _ _ _ Hs) as (Hl & Hc & _). unfold pldm_transport_poll. cbn [t_init_pollfd transport_test].
  eapply gives_bind with (Q := fun r s => r.1 = 0 /\ stays w m s).
  - unfold pldm_transport_test_init_pollfd. eapply gives_step; [reflexivity|]. cbv beta iota.
    eapply gives_bind; [apply (on_timer_gives _ 0), settime_ok|]. intros rc [w1 m1] (-> & Hq & Hcu & Hm). cbn [fst snd] in *. subst m1.
    replace (len (seq w) <=? cursor w) with false by lia. cbn [Z.ltb Z.compare].
    eapply gives_lift; [unfold current_element; by rewrite Hl|]. cbv beta iota.
    eapply gives_bind; [apply (on_timer_gives _ 0), settime_ok|]. intros rc [w2 m2] (-> & Hq2 & Hcu2 & Hm2). cbn [fst snd] in *. subst m2. cbn [Z.ltb Z.compare].
    eapply gives_bind; [apply (on_timer_gives _ 1), ppoll_ok|]. intros rc [w3 m3] (-> & Hq3 & Hcu3 & Hm3). cbn [fst snd] in *. subst m3. cbn.
    apply gives_ret. split; [done|]. split; cbn; [congruence|split; [congruence|done]].
  - intros [rc fd] [w1 m1] (Hrc & Hq & Hcu & Hm). cbn [fst snd] in *. subst rc m1. cbn [Z.ltb Z.compare].
    destruct (poll_ok fd ms w1) as [k Hk]. eapply gives_step with (s1 := (TransportTest (seq w1) (cursor w1) (timerfd w1) k, m)).
    { unfold on_world. by rewrite Hk. }
    cbn. apply gives_ret. split; [done|]. by split.
Qed.

Lemma poll_send w m dst msg rest ms :
  script_at w (TEST_ELEMENT_MSG_SEND dst msg :: rest) ->
  gives (pldm_transport_poll sys (Some transport_test) ms) (w, m) (fun rc s => rc < 0 /\ stays w m s).
Proof.
  intros Hs. destruct (script_current _ _ _ Hs) as (Hl & Hc & _). unfold pldm_transport_poll. cbn [t_init_pollfd transport_test].
  eapply gives_bind with (Q := fun r s => r.1 < 0 /\ stays w m s).
  - unfold pldm_transport_test_init_pollfd. eapply gives_step; [reflexivity|]. cbv beta iota.
    eapply gives_bind; [apply (on_timer_gives _ 0), settime_ok|]. intros rc [w1 m1] (-> & Hq & Hcu & Hm). cbn [fst snd] in *. subst m1.
    replace (len (seq w) <=? cursor w) with false by lia. cbn [Z.ltb Z.compare].
    eapply gives_lift; [unfold current_element; by rewrite Hl|]. cbv beta iota. apply gives_ret. by split.
  - intros [rc fd] [w1 m1] (Hrc & Hq & Hcu & Hm). cbn [fst snd] in *. subst m1. replace (rc <? 0) with true by lia.
    apply gives_ret. by split.
Qed.

(** Receiving a message of the script. *)
Lemma recv_script w m src msg rest tid resp n :
  script_at w (TEST_ELEMENT_MSG_RECV src msg :: rest) ->
  gives (pldm_transport_recv_msg (Some transport_test) tid resp (Some n)) (w, m) (fun '(rc, src', resp', n') s =>
    script_at s.1 rest /\ src' = src /\ n' = Some (len msg) /\
    if len msg <? 3 then rc = PLDM_REQUESTER_INVALID_RECV_LEN /\ s.2 = m
    else rc = PLDM_REQUESTER_SUCCESS /\ exists p, resp' = Some p /\ m !! p = None /\ s.2 = <[p := msg]> m).
Proof.
  intros Hs. destruct (script_current _ _ _ Hs) as (Hl & Hc & Hnext). destruct (memory_ok m (len msg)) as [p Hp].
  pose proof (new_msg_fresh _ _ _ Hp) as Hf. unfold pldm_transport_recv_msg. cbn [t_recv transport_test].
  eapply gives_step with (a := inr (src, p, len msg)) (s1 := (TransportTest (seq w) (cursor w + 1) (timerfd w) (test_kernel w), <[p := msg]> m)).
  { unfold pldm_transport_test_recv, mbind, stM_bind, get, put, step_cursor, lift, current_element.
    replace (len (seq w) <=? cursor w) with false by lia. rewrite Hl. by rewrite Hp. }
  cbv beta iota. destruct (Z.ltb_spec (len msg) 3).
  - eapply gives_step; [unfold free_msg; rewrite lookup_insert_eq; reflexivity|]. apply gives_ret. cbn [fst snd].
    split; [apply Hnext|]. split; [done|]. split; [done|]. split; [done|]. by rewrite delete_insert_id.
  - apply gives_ret. cbn [fst snd]. split; [apply Hnext|]. split; [done|]. split; [done|]. split; [done|]. eauto.
Qed.

Definition receives (l : list (Z * list Z)) : list pldm_transport_test_descriptor :=
  (fun d => TEST_ELEMENT_MSG_RECV d.1 d.2) <$> l.

(** The same place of the script, other than that nothing is known of the timer. *)
Lemma stays_script w m s rest : stays w m s -> script_at w rest -> script_at s.1 rest.
Proof. intros (Hq & Hc & _) [Hc0 Hd]. unfold script_at. by rewrite Hq, Hc. Qed.

Lemma drain_script stale dst msg rest rounds w m cnt resp n :
  script_at w (receives stale ++ TEST_ELEMENT_MSG_SEND dst msg :: rest) -> (length stale < rounds)%nat ->
  gives (drain sys rounds (Some transport_test) cnt resp (Some n)) (w, m) (fun '(cnt', _, n') s =>
    script_at s.1 (TEST_ELEMENT_MSG_SEND dst msg :: rest) /\ s.2 = m /\ is_Some n' /\ cnt' = cnt + len stale).
Proof.
  revert rounds w cnt resp n. induction stale as [|[src l] stale IH]; intros rounds w cnt resp n Hs Hr;
    (destruct rounds as [|rounds]; [cbn in Hr; lia|]); cbn [drain receives fmap list_fmap app] in *.
  - eapply gives_bind; [by apply (poll_send w m dst msg rest)|]. intros rc [w1 m1] [Hrc Hst]. pose proof Hst as (_ & _ & Hm). cbn [snd] in Hm. subst m1.
    replace (rc =? 1) with false by lia. cbn [negb]. apply gives_ret. split; [exact (stays_script _ _ _ _ Hst Hs)|].
    split; [done|]. split; [by eexists|]. unfold len. cbn. lia.
  - cbn [fst snd] in Hs. eapply gives_bind; [by eapply poll_recv|]. intros rc [w1 m1] [-> Hst]. pose proof Hst as (_ & _ & Hm). cbn [snd] in Hm. subst m1.
    cbn [Z.eqb Pos.eqb negb]. pose proof (stays_script _ _ _ _ Hst Hs) as Hs1. cbn [fst] in Hs1.
    eapply gives_bind; [by eapply recv_script|]. intros [[[rc2 src2] resp2] n2] [w2 m2] (Hs2 & -> & -> & Hrc). cbn [fst snd] in *.
    assert (forall r, gives (drain sys rounds (Some transport_test) (cnt + 1) r (Some (len l))) (w2, m) (fun '(cnt', _, n') s =>
      script_at s.1 (TEST_ELEMENT_MSG_SEND dst msg :: rest) /\ s.2 = m /\ is_Some n' /\ cnt' = cnt + len ((src, l) :: stale))) as Hgo.
    { intros r. destruct (IH rounds w2 (cnt + 1) r (len l) Hs2 ltac:(cbn in Hr; lia)) as ([[c r'] n'] & s & E & H1 & H2 & H3 & H4).
      exists (c, r', n'), s. split; [done|]. rewrite len_cons. split_and!; [done|done|done|lia]. }
    destruct (len l <? 3).
    + destruct Hrc as [-> ->]. apply Hgo.
    + destruct Hrc as [-> (p & -> & Hp & ->)]. cbn [Z.eqb].
      eapply gives_step; [unfold free_msg; rewrite lookup_insert_eq; reflexivity|]. rewrite delete_insert_id by done. apply Hgo.
Qed.

(** A message that does not answer the request [req] to [tid]. *)
Definition stray (tid : Z) (req : pldm_msg_hdr) (d : Z * list Z) : Prop :=
  len d.2 < 3 \/ d.1 <> tid \/ exists h, header_at d.2 = Ok h /\ pldm_msg_hdr_correlate_response req h = false.

Definition standing : timeval := timespec_to_timeval (sec, nsec).

Lemma standing_ok : tv_ok standing /\ tv_sec standing <= 2 ^ 61.
Proof.
  destruct time_ok as [Hs Hn]. unfold tv_ok, standing, timespec_to_timeval. cbn [tv_sec tv_usec fst snd].
  rewrite Z.quot_div_nonneg by lia. assert (0 <= nsec / 1000 < 1000000) by (split; [apply Z.div_pos|apply Z.div_lt_upper_bound]; lia). lia.
Qed.

Lemma clock_script w m : exists k, clock_gettimeval sys (w, m) = Ok (Some standing, (TransportTest (seq w) (cursor w) (timerfd w) k, m)).
Proof. destruct (clock_ok w) as [k Hk]. exists k. unfold clock_gettimeval, mbind, stM_bind, on_world. by rewrite Hk. Qed.

Lemma await_script noise tid req msg h rest fuel w m last resp n :
  script_at w (receives noise ++ TEST_ELEMENT_MSG_RECV tid msg :: rest) -> (length noise < fuel)%nat ->
  Forall (stray tid req) noise -> 3 <= len msg -> header_at msg = Ok h -> pldm_msg_hdr_correlate_response req h = true ->
  tv_ok last -> us last = us standing + 4800000 ->
  gives (await sys fuel (Some transport_test) tid req standing last resp (Some n)) (w, m) (fun '(rc, resp', n') s =>
    rc = PLDM_REQUESTER_SUCCESS /\ n' = Some (len msg) /\ script_at s.1 rest /\
    exists p, resp' = Some p /\ m !! p = None /\ s.2 = <[p := msg]> m).
Proof.
  intros Hs Hf Hn Hl Hh Hc Hlast Hus. destruct standing_ok as [Hst Hsec].
  destruct (timersub_us last standing Hlast Hst) as (r & Er & Hr & Hr1 & Hr2); [lia|].
  destruct (remaining_msec r Hr1 Hr2) as (Hv & ms & Ems & _); [lia|].
  revert fuel w resp n Hs Hf. induction noise as [|[src l] noise IH]; intros fuel w resp n Hs Hf;
    (destruct fuel as [|fuel]; [cbn in Hf; lia|]); cbn [await receives fmap list_fmap app fst snd] in *;
    rewrite timer_before_us by done; replace (us standing <? us last) with true by lia; cbn [negb];
    (eapply gives_lift; [exact Er|]); rewrite Hv; cbn [negb]; (eapply gives_lift; [exact Ems|]);
    (eapply gives_bind; [by eapply poll_recv|]); intros rc [w1 m1] [-> Hsw]; pose proof Hsw as (_ & _ & Hm); cbn [snd] in Hm; subst m1;
    cbn [Z.leb Z.compare]; pose proof (stays_script _ _ _ _ Hsw Hs) as Hs1; cbn [fst] in Hs1;
    destruct (clock_script w1 m) as [k Hk]; (eapply gives_step; [exact Hk|]); cbv beta iota;
    (eapply gives_bind; [eapply (recv_script (TransportTest (seq w1) (cursor w1) (timerfd w1) k)); exact Hs1|]);
    intros [[[rc2 src2] resp2] n2] [w2 m2] (Hs2 & -> & -> & Hrc); cbn [fst snd] in *.
  - replace (len msg <? 3) with false in Hrc by lia. destruct Hrc as [-> (p & -> & Hp & ->)]. cbn [Z.eqb negb].
    rewrite Z.eqb_refl. cbn [negb].
    eapply gives_step with (a := h) (s1 := (w2, <[p := msg]> m)); [unfold msg_header; by rewrite lookup_insert_eq, Hh|].
    rewrite Hc. cbn [negb]. apply gives_ret. split_and!; [done|done|done|eauto].
  - apply list.Forall_cons in Hn as [Hd Hn]. cbn [length] in Hf.
    assert (forall r', gives (await sys fuel (Some transport_test) tid req standing last r' (Some (len l))) (w2, m) (fun '(rc, resp', n') s =>
      rc = PLDM_REQUESTER_SUCCESS /\ n' = Some (len msg) /\ script_at s.1 rest /\
      exists p, resp' = Some p /\ m !! p = None /\ s.2 = <[p := msg]> m)) as Hgo by (intros r'; apply IH; [done|done|lia]).
    destruct (Z.ltb_spec (len l) 3).
    + destruct Hrc as [-> ->]. cbn [Z.eqb negb]. apply Hgo.
    + destruct Hrc as [-> (p & -> & Hp & ->)]. cbn [Z.eqb negb].
      assert (free_msg (Some p) (w2, <[p := l]> m) = Ok (tt, (w2, m))) as Hfree.
      { unfold free_msg. rewrite lookup_insert_eq. by rewrite delete_insert_id. }
      destruct Hd as [|[Hsrc|(h' & Hh' & Hc')]]; cbn [fst snd] in *; [lia| |].
      * replace (src =? tid) with false by lia. cbn [negb]. eapply gives_step; [exact Hfree|]. apply Hgo.
      * destruct (src =? tid); cbn [negb]; [|eapply gives_step; [exact Hfree|]; apply Hgo].
        eapply gives_step with (a := h') (s1 := (w2, <[p := l]> m)); [unfold msg_header; by rewrite lookup_insert_eq, Hh'|].
        rewrite Hc'. cbn [negb]. eapply gives_step; [exact Hfree|]. apply Hgo.
Qed.

(** What a script says is what happens. *)
Definition script_played (fuel : nat) : Prop :=
  forall stale noise tid msg n req resp h reply rest resp0 n0 w m,
  script_at w (receives stale ++ TEST_ELEMENT_MSG_SEND tid msg :: receives noise ++ TEST_ELEMENT_MSG_RECV tid resp :: rest) ->
  len stale < 8192 -> n = len msg -> 3 <= n -> header_at msg = Ok req -> request req <> 0 ->
  Forall (stray tid req) noise -> 3 <= len resp -> header_at resp = Ok h -> pldm_msg_hdr_correlate_response req h = true ->
  reply = CMem 0 msg -> (length noise < fuel)%nat ->
  gives (pldm_transport_send_recv_msg sys fuel (Some transport_test) tid (Some reply) n resp0 (Some n0)) (w, m)
    (fun '(rc, resp', n') s => rc = PLDM_REQUESTER_SUCCESS /\ n' = Some (len resp) /\ script_at s.1 rest /\
       exists p, resp' = Some p /\ m !! p = None /\ s.2 = <[p := resp]> m).

Lemma script_runs fuel : script_played fuel.
Proof.
  intros stale noise tid msg n req resp h reply rest resp0 n0 w m Hs Hstale -> Hn Hreq Hr Hnoise Hl Hh Hc -> Hf.
  unfold pldm_transport_send_recv_msg. replace (len msg <? 3) with false by lia.
  rewrite bool_decide_eq_true_2 by by eexists. cbn [negb orb bytes]. eapply gives_lift; [exact Hreq|]. replace (request req =? 0) with false by lia.
  eapply gives_bind; [eapply drain_script; [exact Hs|unfold len, max_stale in *; lia]|].
  intros [[cnt r1] n1] [w1 m1] (Hs1 & E1 & [k ->] & Hcnt). cbn [fst snd] in *. subst m1.
  replace (cnt =? max_stale) with false by (unfold max_stale in *; lia). unfold exchange.
  destruct (script_current _ _ _ Hs1) as (Hcur & Hlen & Hnext).
  eapply gives_step with (a := PLDM_REQUESTER_SUCCESS) (s1 := (TransportTest (seq w1) (cursor w1 + 1) (timerfd w1) (test_kernel w1), m)).
  { unfold pldm_transport_send_msg. replace (len msg <? 3) with false by lia. cbn [t_send transport_test].
    unfold pldm_transport_test_send, mbind, stM_bind, get, lift, current_element, step_cursor.
    replace (len (seq w1) <? cursor w1) with false by lia. rewrite Hcur. rewrite !Z.eqb_refl. cbn [negb].
    pose proof (mem_read_lies _ 0 msg (lies_prefix 0 msg [])) as Hread. rewrite app_nil_r in Hread. rewrite Hread.
    by rewrite bool_decide_eq_true_2. }
  cbn [Z.eqb negb].
  match goal with |- context [TransportTest ?a ?b ?c ?d] => destruct (clock_script (TransportTest a b c d) m) as [k2 Hk2] end.
  eapply gives_step; [exact Hk2|]. cbv beta iota. destruct standing_ok as [Hst Hsec].
  destruct (interval_end standing Hst Hsec) as (last & El & Hus & Hlast). eapply gives_lift; [exact El|].
  by eapply await_script.
Qed.
End test.

(** A script of the test transport is played as it is written: after any messages that
    are waiting (less than 8192), the request is compared with the one of the script, then
    every message that does not answer it, because it is too short, from another terminus
    or to another request, is taken and freed, and the exchange returns the response of the
    script, in a block of its own.  A request after the end of the script is compared with
    what lies behind it in memory. *)
Theorem test_scripts_play {K : Type} `{MsgAllocator} (os : timer) (sys : host pldm_transport_test) sec nsec :
  (forall fd ns (k : K), (timerfd_settime os fd ns k).1 = 0) -> (forall fd k, (ppoll os fd k).1 = 1) ->
  (forall fd ms w, exists k, sys_poll sys fd ms w = (1, TransportTest (seq w) (cursor w) (timerfd w) k)) ->
  0 <= sec <= 2 ^ 61 /\ 0 <= nsec < 1000000000 ->
  (forall w, exists k, clock_gettime sys w = (Some (sec, nsec), TransportTest (seq w) (cursor w) (timerfd w) k)) ->
  (forall m n, is_Some (new_msg m n)) ->
  (forall fuel, script_played os sys fuel) /\
  forall w m tid msg n, cursor w = len (seq w) -> pldm_transport_test_send (K := K) tid msg n (w, m) = Fault FMemory.
Proof.
  intros Hset Hpp Hpoll Htime Hclock Hmem. split; [intros fuel; by apply script_runs with (sec := sec) (nsec := nsec)|].
  intros w m tid msg n Hend. unfold pldm_transport_test_send, mbind, stM_bind, get, lift, current_element.
  rewrite Hend, Z.ltb_irrefl. rewrite lookup_ge_None_2; [done|]. unfold len. lia.
Qed.

Lemma test_scripts_play_witness :
  let os : timer (K := unit) := Timer (fun _ _ k => (0, k)) (fun _ k => (1, k)) in
  let sys : host pldm_transport_test := Host (fun _ _ w => (1, w)) (fun w => (Some (7, 500), w)) in
  let req := [0x83; 0x02; 0x11] in let resp := [0x03; 0x02; 0x11; 0] in
  let w := TransportTest (receives [(9, [1])] ++ TEST_ELEMENT_MSG_SEND 9 req ::
             receives [(8, resp); (9, [4; 2; 0x11])] ++ [TEST_ELEMENT_MSG_RECV 9 resp]) 0 3 tt in
  gives (pldm_transport_send_recv_msg sys 3 (Some (transport_test os)) 9 (Some (CMem 0 req)) 3 None (Some 0)) (w, ∅)
    (fun '(rc, resp', n') s => rc = PLDM_REQUESTER_SUCCESS /\ n' = Some 4 /\ exists p, resp' = Some p /\ s.2 = {[ p := resp ]}).
Proof.
  intros os sys req resp w.
  destruct (test_scripts_play os sys 7 500) as [Hp _]; [done|done| |lia| |by eexists|].
  - intros fd ms [s c f []]. by exists tt.
  - intros [s c f []]. by exists tt.
  - destruct (Hp 3%nat [(9, [1])] [(8, resp); (9, [4; 2; 0x11])] 9 req 3 (MsgHdr 1 0 0 3 0 2 0x11) resp (MsgHdr 0 0 0 3 0 2 0x11)
      (CMem 0 req) [] None 0 w ∅) as ([[rc r] n] & s & E & Hrc & Hn & _ & p & Hr & _ & Hm);
      [split; [apply Z.le_refl|reflexivity]|by vm_compute|reflexivity|lia|reflexivity|discriminate| |by vm_compute|reflexivity|reflexivity|reflexivity|cbn; lia|].
    + apply list.Forall_cons; split; [right; left; discriminate|]. apply list.Forall_cons; split; [|by constructor].
      right. right. eexists. split; reflexivity.
    + exists (rc, r, n), s. split; [exact E|]. split; [exact Hrc|]. split; [exact Hn|]. exists p. split; [exact Hr|exact Hm].
Defined.
