(* ===== verification/Fru.v ===== *)
(** * FRU records (src/dsp/fru.c)

    The messages that carry a table of FRU records, the encoder of a record, and the
    selection of the records and fields of a table that match a request.  A table is
    records one after the other, each a header of five bytes and its fields, of a type
    and a length of one byte each. *)

From S2P Require Import Prelude Msgbuf Layout Base Legacy.

(** ** Constants (include/libpldm/fru.h, base.h) *)

Abbreviation PLDM_FRU := 4 (only parsing).
Abbreviation PLDM_GET_FRU_RECORD_TABLE_METADATA := 0x01 (only parsing).
Abbreviation PLDM_GET_FRU_RECORD_TABLE := 0x02 (only parsing).
Abbreviation PLDM_SET_FRU_RECORD_TABLE := 0x03 (only parsing).
Abbreviation PLDM_GET_FRU_RECORD_BY_OPTION := 0x04 (only parsing).

(** ** GetFRURecordTableMetadata *)

Record pldm_get_fru_record_table_metadata_resp := FruMetadata {
  fm_completion_code : Z; fm_fru_data_major_version : Z; fm_fru_data_minor_version : Z;
  fm_fru_table_maximum_size : Z; fm_fru_table_length : Z; fm_total_record_set_identifiers : Z;
  fm_total_table_records : Z; fm_checksum : Z
}.

(** A request or response without a payload the encoder would write. *)
Definition encode_get_fru_record_table_metadata_req (instance_id : Z) (msg : option pldm_msg)
    (payload_length : Z) : outcome (Z * option pldm_msg) :=
  match msg with
  | None => Ok (PLDM_ERROR_INVALID_DATA, msg)
  | Some m =>
    if negb (payload_length =? 0) then Ok (PLDM_ERROR_INVALID_LENGTH, msg)
    else legacy_frame PLDM_REQUEST instance_id PLDM_FRU PLDM_GET_FRU_RECORD_TABLE_METADATA m header_only
  end.

Definition decode_get_fru_record_table_metadata_resp (msg : option pldm_msg) (payload_length : Z)
    (outs : option pldm_get_fru_record_table_metadata_resp)
  : outcome (Z * option pldm_get_fru_record_table_metadata_resp) :=
  match msg, outs with
  | Some msg, Some (FruMetadata _ major minor maximum length sets records checksum) =>
    cc ← member msg 0 1;
    if negb (cc =? PLDM_SUCCESS) then
      mret (PLDM_SUCCESS, Some (FruMetadata cc major minor maximum length sets records checksum))
    else if negb (payload_length =? 19) then
      mret (PLDM_ERROR_INVALID_LENGTH, Some (FruMetadata cc major minor maximum length sets records checksum))
    else
    major ← member msg 1 1;
    minor ← member msg 2 1;
    maximum ← member msg 3 4;
    length ← member msg 7 4;
    sets ← member msg 11 2;
    records ← member msg 13 2;
    checksum ← member msg 15 4;
    mret (PLDM_SUCCESS, Some (FruMetadata cc major minor maximum length sets records checksum))
  | _, _ => Ok (PLDM_ERROR_INVALID_DATA, outs)
  end.

Definition encode_get_fru_record_table_metadata_resp (instance_id : Z)
    (r : pldm_get_fru_record_table_metadata_resp) (msg : option pldm_msg) : outcome (Z * option pldm_msg) :=
  match msg with
  | None => Ok (PLDM_ERROR_INVALID_DATA, msg)
  | Some m =>
    legacy_frame PLDM_RESPONSE instance_id PLDM_FRU PLDM_GET_FRU_RECORD_TABLE_METADATA m (fun m =>
      m ← put_members m 0 [(1%nat, fm_completion_code r)];
      if negb (fm_completion_code r =? PLDM_SUCCESS) then mret (PLDM_SUCCESS, Some m)
      else
      m ← put_members m 1 [(1%nat, fm_fru_data_major_version r); (1%nat, fm_fru_data_minor_version r);
            (4%nat, fm_fru_table_maximum_size r); (4%nat, fm_fru_table_length r);
            (2%nat, fm_total_record_set_identifiers r); (2%nat, fm_total_table_records r);
            (4%nat, fm_checksum r)];
      mret (PLDM_SUCCESS, Some m))
  end.

(** ** GetFRURecordTable *)

Definition encode_get_fru_record_table_req (instance_id data_transfer_handle transfer_operation_flag : Z)
    (msg : option pldm_msg) (payload_length : Z) : outcome (Z * option pldm_msg) :=
  match msg with
  | None => Ok (PLDM_ERROR_INVALID_DATA, msg)
  | Some m =>
    if negb (payload_length =? 5) then Ok (PLDM_ERROR_INVALID_LENGTH, msg)
    else
    legacy_frame PLDM_REQUEST instance_id PLDM_FRU PLDM_GET_FRU_RECORD_TABLE m (fun m =>
      m ← put_members m 0 [(4%nat, data_transfer_handle); (1%nat, transfer_operation_flag)];
      mret (PLDM_SUCCESS, Some m))
  end.

(** data_transfer_handle, transfer_operation_flag *)
Definition decode_get_fru_record_table_req (msg : option pldm_msg) (payload_length : Z)
    (outs : option (Z * Z)) : outcome (Z * option (Z * Z)) :=
  match msg, outs with
  | Some msg, Some _ =>
    if negb (payload_length =? 5) then Ok (PLDM_ERROR_INVALID_LENGTH, outs)
    else
    handle ← member msg 0 4;
    flag ← member msg 4 1;
    mret (PLDM_SUCCESS, Some (handle, flag))
  | _, _ => Ok (PLDM_ERROR_INVALID_DATA, outs)
  end.

Definition encode_get_fru_record_table_resp (instance_id completion_code next_data_transfer_handle
    transfer_flag : Z) (msg : option pldm_msg) : outcome (Z * option pldm_msg) :=
  match msg with
  | None => Ok (PLDM_ERROR_INVALID_DATA, msg)
  | Some m =>
    legacy_frame PLDM_RESPONSE instance_id PLDM_FRU PLDM_GET_FRU_RECORD_TABLE m (fun m =>
      m ← put_members m 0 [(1%nat, completion_code)];
      if negb (completion_code =? PLDM_SUCCESS) then mret (PLDM_SUCCESS, Some m)
      else
      m ← put_members m 1 [(4%nat, next_data_transfer_handle); (1%nat, transfer_flag)];
      mret (PLDM_SUCCESS, Some m))
  end.

(** The table goes into the caller's object. *)
Record pldm_get_fru_record_table_resp := FruTableResp {
  ft_completion_code : Z; ft_next_data_transfer_handle : Z; ft_transfer_flag : Z;
  ft_fru_record_table_data : cmem; ft_fru_record_table_length : Z
}.

Definition decode_get_fru_record_table_resp_safe (msg : option pldm_msg) (payload_length : Z)
    (outs : option pldm_get_fru_record_table_resp) (max_fru_record_table_length : Z)
  : outcome (Z * option pldm_get_fru_record_table_resp) :=
  match msg, outs with
  | Some msg, Some (FruTableResp _ next flag data length) =>
    cc ← member msg 0 1;
    if negb (cc =? PLDM_SUCCESS) then mret (PLDM_SUCCESS, Some (FruTableResp cc next flag data length))
    else if payload_length <=? 6 then
      mret (PLDM_ERROR_INVALID_LENGTH, Some (FruTableResp cc next flag data length))
    else
    next ← member msg 1 4;
    flag ← member msg 5 1;
    let length := payload_length - 6 in
    if max_fru_record_table_length <? length then
      mret (PLDM_ERROR_INVALID_LENGTH, Some (FruTableResp cc next flag data length))
    else
    l ← payload_read msg 6 length;
    data ← mem_write data 0 l;
    mret (PLDM_SUCCESS, Some (FruTableResp cc next flag data length))
  | _, _ => Ok (PLDM_ERROR_INVALID_DATA, outs)
  end.

Definition decode_get_fru_record_table_resp (msg : option pldm_msg) (payload_length : Z)
    (outs : option pldm_get_fru_record_table_resp) :=
  decode_get_fru_record_table_resp_safe msg payload_length outs SIZE_MAX.

(** ** GetFRURecordByOption *)

Record pldm_get_fru_record_by_option_req := ByOptionReq {
  bo_data_transfer_handle : Z; bo_fru_table_handle : Z; bo_record_set_identifier : Z;
  bo_record_type : Z; bo_field_type : Z; bo_transfer_op_flag : Z
}.

Definition encode_get_fru_record_by_option_req (instance_id : Z) (r : pldm_get_fru_record_by_option_req)
    (msg : option pldm_msg) (payload_length : Z) : outcome (Z * option pldm_msg) :=
  match msg with
  | None => Ok (PLDM_ERROR_INVALID_DATA, msg)
  | Some m =>
    if negb (payload_length =? 11) then Ok (PLDM_ERROR_INVALID_LENGTH, msg)
    else
    legacy_frame PLDM_REQUEST instance_id PLDM_FRU PLDM_GET_FRU_RECORD_BY_OPTION m (fun m =>
      m ← put_members m 0 [(4%nat, bo_data_transfer_handle r); (2%nat, bo_fru_table_handle r);
            (2%nat, bo_record_set_identifier r); (1%nat, bo_record_type r); (1%nat, bo_field_type r);
            (1%nat, bo_transfer_op_flag r)];
      mret (PLDM_SUCCESS, Some m))
  end.

Definition decode_get_fru_record_by_option_req (msg : option pldm_msg) (payload_length : Z)
    (outs : option pldm_get_fru_record_by_option_req) : outcome (Z * option pldm_get_fru_record_by_option_req) :=
  match msg, outs with
  | Some msg, Some _ =>
    if negb (payload_length =? 11) then Ok (PLDM_ERROR_INVALID_LENGTH, outs)
    else
    handle ← member msg 0 4;
    table ← member msg 4 2;
    set ← member msg 6 2;
    type ← member msg 8 1;
    field ← member msg 9 1;
    flag ← member msg 10 1;
    mret (PLDM_SUCCESS, Some (ByOptionReq handle table set type field flag))
  | _, _ => Ok (PLDM_ERROR_INVALID_DATA, outs)
  end.

Definition encode_get_fru_record_by_option_resp (instance_id completion_code next_data_transfer_handle
    transfer_flag : Z) (fru_structure_data : option cmem) (data_size : Z) (msg : option pldm_msg)
    (payload_length : Z) : outcome (Z * option pldm_msg) :=
  match msg, fru_structure_data with
  | Some m, Some data =>
    if payload_length <? 6 then Ok (PLDM_ERROR_INVALID_LENGTH, msg)
    else if payload_length - 6 <? data_size then Ok (PLDM_ERROR_INVALID_LENGTH, msg)
    else
    legacy_frame PLDM_RESPONSE instance_id PLDM_FRU PLDM_GET_FRU_RECORD_BY_OPTION m (fun m =>
      m ← put_members m 0 [(1%nat, completion_code); (4%nat, next_data_transfer_handle); (1%nat, transfer_flag)];
      if negb (completion_code =? PLDM_SUCCESS) then mret (PLDM_SUCCESS, Some m)
      else
      l ← mem_read data 0 data_size;
      m ← payload_write m 6 l;
      mret (PLDM_SUCCESS, Some m))
  | _, _ => Ok (PLDM_ERROR_INVALID_DATA, msg)
  end.

(** completion_code, next_transfer_handle, transfer_flag, fru_structure_data *)
Definition decode_get_fru_record_by_option_resp (msg : option pldm_msg) (payload_length : Z)
    (outs : option (Z * Z * Z * variable_field)) : outcome (Z * option (Z * Z * Z * variable_field)) :=
  match msg, outs with
  | Some msg, Some (_, next, flag, data) =>
    cc ← member msg 0 1;
    if negb (cc =? PLDM_SUCCESS) then mret (PLDM_SUCCESS, Some (cc, next, flag, data))
    else if payload_length <? 6 then mret (PLDM_ERROR_INVALID_LENGTH, Some (cc, next, flag, data))
    else
    next ← member msg 1 4;
    flag ← member msg 5 1;
    mret (PLDM_SUCCESS, Some (cc, next, flag, VarField (Some (ptr_at (payload msg) 6)) (payload_length - 6)))
  | _, _ => Ok (PLDM_ERROR_INVALID_DATA, outs)
  end.

(** ** SetFRURecordTable *)

(** data_transfer_handle, transfer_flag, fru_table_data *)
Definition decode_set_fru_record_table_req (msg : option pldm_msg) (payload_length : Z)
    (outs : option (Z * Z * variable_field)) : outcome (Z * option (Z * Z * variable_field)) :=
  match msg, outs with
  | Some msg, Some _ =>
    if payload_length <=? 5 then Ok (PLDM_ERROR_INVALID_LENGTH, outs)
    else
    handle ← member msg 0 4;
    flag ← member msg 4 1;
    mret (PLDM_SUCCESS, Some (handle, flag, VarField (Some (ptr_at (payload msg) 5)) (payload_length - 5)))
  | _, _ => Ok (PLDM_ERROR_INVALID_DATA, outs)
  end.

Definition encode_set_fru_record_table_resp (instance_id completion_code next_data_transfer_handle
    payload_length : Z) (msg : option pldm_msg) : outcome (Z * option pldm_msg) :=
  match msg with
  | None => Ok (PLDM_ERROR_INVALID_DATA, msg)
  | Some m =>
    if negb (payload_length =? 5) then Ok (PLDM_ERROR_INVALID_LENGTH, msg)
    else
    legacy_frame PLDM_RESPONSE instance_id PLDM_FRU PLDM_SET_FRU_RECORD_TABLE m (fun m =>
      m ← put_members m 0 [(1%nat, completion_code); (4%nat, next_data_transfer_handle)];
      mret (PLDM_SUCCESS, Some m))
  end.

(** ** Records *)

Definition encode_fru_record (fru_table : option cmem) (total_size : Z) (curr_size : option Z)
    (record_set_id record_type num_frus encoding : Z) (tlvs : option cmem) (tlvs_size : Z)
  : outcome (Z * option cmem * option Z) :=
  match fru_table, curr_size with
  | Some table, Some size =>
    if tlvs_size =? 0 then Ok (PLDM_ERROR_INVALID_DATA, fru_table, curr_size)
    else if SIZE_MAX - size <? 5 then Ok (PLDM_ERROR_INVALID_LENGTH, fru_table, curr_size)
    else if SIZE_MAX - (size + 5) <? tlvs_size then Ok (PLDM_ERROR_INVALID_LENGTH, fru_table, curr_size)
    else if total_size <? size + 5 then Ok (PLDM_ERROR_INVALID_LENGTH, fru_table, curr_size)
    else if total_size - (size + 5) <? tlvs_size then Ok (PLDM_ERROR_INVALID_LENGTH, fru_table, curr_size)
    else
    table ← mem_write table size (members_bytes
      [(2%nat, record_set_id); (1%nat, record_type); (1%nat, num_frus); (1%nat, encoding)]);
    match tlvs with
    | None => mret (PLDM_SUCCESS, Some table, Some (size + 5))
    | Some tlvs =>
      l ← mem_read tlvs 0 tlvs_size;
      table ← mem_write table (size + 5) l;
      mret (PLDM_SUCCESS, Some table, Some (size + 5 + tlvs_size))
    end
  | _, _ => Ok (PLDM_ERROR_INVALID_DATA, fru_table, curr_size)
  end.

(** *** Selecting records *)

(** [p] is an offset into the table. *)
Definition is_table_end (p table_size : Z) : bool := table_size <=? p.

Section select.
(** The table, and the request: record set, record type and field type, 0 for any. *)
Context (table : cmem) (table_size rsi rt ft : Z).

Let table_terminator : Z := addr table + table_size.

(** On from a field at [tlv] whose size is [len], with the checks both loops make; a
    return code, and the field with its size.  uintptr_t wraps. *)
Definition next_field (tlv len : Z) : outcome (Z * Z * Z) :=
  if u64 (table_terminator - len) <? addr table + tlv then Ok (PLDM_ERROR_INVALID_LENGTH, tlv, len)
  else
  let tlv := tlv + len in
  if u64 (table_terminator - 2) <? addr table + tlv then Ok (PLDM_ERROR_INVALID_LENGTH, tlv, len)
  else
  length ← mem_le table (tlv + 1) 1;
  if table_size <? length then mret (PLDM_ERROR_INVALID_LENGTH, tlv, len)
  else mret (PLDM_SUCCESS, tlv, 2 + length).

Fixpoint skip_fields (n : nat) (tlv len : Z) : outcome (Z * Z * Z) :=
  match n with
  | O => mret (PLDM_SUCCESS, tlv, len)
  | S n =>
    '(rc, tlv, len) ← next_field tlv len;
    if_err rc return_ mret (rc, tlv, len);;
    skip_fields n tlv len
  end.

(** [room] is the size of the caller's object [out], [pos] where the next byte goes. *)
Fixpoint copy_fields (n : nat) (out : cmem) (room pos count tlv len : Z)
  : outcome (Z * cmem * Z * Z * Z * Z) :=
  match n with
  | O => mret (PLDM_SUCCESS, out, pos, count, tlv, len)
  | S n =>
    '(rc, tlv, len) ← next_field tlv len;
    if_err rc return_ mret (rc, out, pos, count, tlv, len);;
    if room - pos <? len then mret (PLDM_ERROR_INVALID_LENGTH, out, pos, count, tlv, len)
    else if u64 (table_terminator - (addr table + tlv)) <? len then
      mret (PLDM_ERROR_INVALID_LENGTH, out, pos, count, tlv, len)
    else
    type ← mem_le table tlv 1;
    if (type =? ft) || (ft =? 0) then
      l ← mem_read table tlv len;
      out ← mem_write out pos l;
      copy_fields n out room (pos + len) (count + 1) tlv len
    else copy_fields n out room pos count tlv len
  end.

(** Whether no header can follow behind the field at [tlv], so that the loop breaks. *)
Definition no_more_records (tlv len : Z) : bool :=
  u64 (table_terminator - 5) <? u64 (addr table + tlv + len).

(** The loop over the records from [src] on.  A record takes five bytes at least. *)
Fixpoint select_records (fuel : nat) (src : Z) (out : cmem) (room pos : Z) : outcome (Z * cmem * Z) :=
  match fuel with
  | O => Fault FFuel
  | S fuel =>
    if is_table_end src table_size then mret (PLDM_SUCCESS, out, pos)
    else
    id ← mem_le table src 2;
    type ← mem_le table (src + 2) 1;
    n ← mem_le table (src + 3) 1;
    if (negb (id =? rsi) && negb (rsi =? 0)) || (negb (type =? rt) && negb (rt =? 0)) then
      '(rc, tlv, len) ← skip_fields (Z.to_nat n) (src + 5) 0;
      if_err rc return_ mret (rc, out, pos);;
      if no_more_records tlv len then mret (PLDM_SUCCESS, out, pos)
      else select_records fuel (tlv + len) out room pos
    else if room - pos <? 5 then mret (PLDM_ERROR_INVALID_LENGTH, out, pos)
    else
    l ← mem_read table src 5;
    out ← mem_write out pos l;
    let dest := pos in
    '(rc, out, pos, count, tlv, len) ← copy_fields (Z.to_nat n) out room (pos + 5) 0 (src + 5) 0;
    if_err rc return_ mret (rc, out, pos);;
    out ← mem_write out (dest + 3) [u8 count];
    if no_more_records tlv len then mret (PLDM_SUCCESS, out, pos)
    else select_records fuel (tlv + len) out room pos
  end.
End select.

Definition get_fru_record_by_option (table : option cmem) (table_size : Z) (record_table : option cmem)
    (record_size : option Z) (rsi rt ft : Z) : outcome (Z * option cmem * option Z) :=
  match table, record_table, record_size with
  | Some t, Some out, Some room =>
    if table_size <? 8 then Ok (PLDM_ERROR_INVALID_LENGTH, record_table, record_size)
    else if UINTPTR_MAX - table_size <? addr t then Ok (PLDM_ERROR_INVALID_LENGTH, record_table, record_size)
    else if UINTPTR_MAX - room <? addr out then Ok (PLDM_ERROR_INVALID_LENGTH, record_table, record_size)
    else
    '(rc, out, pos) ← select_records t table_size rsi rt ft (S (Z.to_nat table_size)) 0 out room 0;
    if_err rc return_ mret (rc, Some out, record_size);;
    mret (PLDM_SUCCESS, Some out, Some pos)
  | _, _, _ => Ok (PLDM_ERROR, record_table, record_size)
  end.
