(* ===== verification/FruProps.v ===== *)
(** * What the selection of FRU records gives

    Safety on any table, and on a table of well formed records the selection as a filter
    of the list of records. *)

From S2P Require Import Prelude Msgbuf Layout Base Legacy Exchange Fru.

(** ** Any bytes *)

(** An object whose neighbourhood the pointer arithmetic does not leave the address
    space from: neither the first nor the last 257 bytes of it are mapped. *)
Definition mapped (table : cmem) (size : Z) : Prop :=
  mem_ok table /\ 0 <= size <= mem_size table /\ 257 <= addr table /\ addr table + size + 257 <= UINTPTR_MAX.

Lemma u64_small x : 0 <= x <= UINTPTR_MAX -> u64 x = x.
Proof. intros. apply Z.mod_small. lia. Qed.

Lemma mem_le_any m off n :
  mem_ok m -> 0 <= off -> off + Z.of_nat n <= mem_size m ->
  exists v, mem_le m off (Z.of_nat n) = Ok v /\ 0 <= v < 256 ^ Z.of_nat n.
Proof.
  intros Hm Ho Hn. exists (fld m (Z.to_nat off) n). split; [|apply fld_bound, mem_ok_bytes, Hm].
  unfold mem_le, mem_read. replace (_ && _) with true by lia. cbn. unfold fld. do 3 f_equal. lia.
Qed.

Section any.
Context (table : cmem) (size rsi rt ft : Z).
Hypothesis Ht : mapped table size.

(** A field at [tlv] and the size of it, from the start of the table. *)
Definition field_in (tlv len : Z) : Prop := 0 <= tlv <= size /\ 0 <= len <= 257.

Lemma next_field_safe tlv len :
  field_in tlv len ->
  exists rc tlv' len', next_field table size tlv len = Ok (rc, tlv', len') /\
    (rc = PLDM_ERROR_INVALID_LENGTH \/
     rc = PLDM_SUCCESS /\ field_in tlv' len' /\ tlv' = tlv + len /\ tlv' + 2 <= size /\ 2 <= len').
Proof.
  intros [H1 H2]. destruct Ht as (Hm & Hs & Ha & He). unfold next_field.
  rewrite u64_small by lia. cmp_case; [eauto 8|]. rewrite u64_small by lia. cmp_case; [eauto 8|].
  destruct (mem_le_any table (tlv + len + 1) 1 Hm) as (v & E & Hv); [lia..|].
  change (Z.of_nat 1) with 1 in E. rewrite E. cbn [mbind outcome_bind]. cmp_case; [eauto 8|].
  do 3 eexists. split; [reflexivity|]. right. unfold field_in. cbn in Hv. lia.
Qed.

Lemma skip_fields_safe n tlv len :
  field_in tlv len ->
  exists rc tlv' len', skip_fields table size n tlv len = Ok (rc, tlv', len') /\
    (rc = PLDM_ERROR_INVALID_LENGTH \/ rc = PLDM_SUCCESS /\ field_in tlv' len' /\ tlv <= tlv').
Proof.
  revert tlv len. induction n as [|n IH]; intros tlv len H; cbn [skip_fields].
  { do 3 eexists. split; [done|]. right. unfold field_in in *. lia. }
  destruct (next_field_safe tlv len H) as (rc & tlv' & len' & -> & [->|(-> & H' & E & _)]).
  { cbn. eauto 8. }
  cbn [mbind outcome_bind]. destruct (IH tlv' len' H') as (rc & t2 & l2 & -> & [->|(-> & H2 & E2)]); eauto 8.
  do 3 eexists. split; [done|]. right. unfold field_in in *. lia.
Qed.

(** The caller's object with the bytes behind the first [room] as they were. *)
Definition same_behind (room : Z) (m m' : cmem) : Prop :=
  addr m' = addr m /\ mem_size m' = mem_size m /\ drop (Z.to_nat room) (bytes m') = drop (Z.to_nat room) (bytes m).

Lemma same_behind_refl room m : same_behind room m m.
Proof. done. Qed.

Lemma write_inside room m m' off l :
  same_behind room m m' -> 0 <= off -> off + len l <= room -> room <= mem_size m ->
  exists m'', mem_write m' off l = Ok m'' /\ same_behind room m m''.
Proof.
  intros (Ha & Hs & Hd) Ho Hl Hr. unfold len in Hl. rewrite mem_write_ok by lia.
  eexists. split; [reflexivity|]. unfold same_behind, mem_size in *. cbn [addr bytes].
  split_and!; [done|rewrite splice_length; lia|]. rewrite <- Hd. unfold splice.
  rewrite app_assoc, drop_app_ge; rewrite length_app, length_take; [|lia]. rewrite drop_drop. f_equal. lia.
Qed.

Lemma copy_fields_safe n room out0 out pos count tlv len :
  field_in tlv len -> 0 <= pos <= room -> room <= mem_size out0 -> same_behind room out0 out ->
  exists rc out' pos' count' tlv' len',
    copy_fields table size ft n out room pos count tlv len = Ok (rc, out', pos', count', tlv', len') /\
    same_behind room out0 out' /\
    (rc = PLDM_ERROR_INVALID_LENGTH \/
     rc = PLDM_SUCCESS /\ field_in tlv' len' /\ tlv <= tlv' /\ pos <= pos' <= room).
Proof.
  revert out pos count tlv len. induction n as [|n IH]; intros out pos count tlv len H Hp Hr Hb; cbn [copy_fields].
  { do 6 eexists. split; [done|]. split; [done|]. right. unfold field_in in *. lia. }
  destruct (next_field_safe tlv len H) as (rc & tlv' & len' & -> & [->|(-> & H' & E & Hin & Hl)]).
  { cbn. do 6 eexists. split; [done|]. eauto. }
  cbn [mbind outcome_bind Z.eqb]. cmp_case; [do 6 eexists; split; [done|]; eauto|].
  destruct Ht as (Hm & Hs & Ha & He). assert (0 <= tlv') by (unfold field_in in H'; lia).
  rewrite u64_small by lia.
  cmp_case; [do 6 eexists; split; [done|]; eauto|].
  destruct (mem_le_any table tlv' 1 Hm) as (v & Ev & Hv); [lia..|].
  change (Z.of_nat 1) with 1 in Ev. rewrite Ev. cbn [mbind outcome_bind].
  unfold field_in in *. destruct ((v =? ft) || (ft =? 0)).
  - destruct (mem_read_in table tlv' len') as (l & -> & Hlen & _); [lia..|]. cbn [mbind outcome_bind].
    destruct (write_inside room out0 out pos l) as (out' & -> & Hb'); [done|lia|unfold Layout.len; lia|done|].
    cbn [mbind outcome_bind].
    destruct (IH out' (pos + len') (count + 1) tlv' len') as (rc & o2 & p2 & c2 & t2 & l2 & -> & Hb2 & Hres); [done|lia|done|done|].
    do 6 eexists. split; [done|]. split; [done|]. destruct Hres as [|(? & ? & ? & ?)]; [by left|right]. split_and!; (done || lia).
  - destruct (IH out pos count tlv' len') as (rc & o2 & p2 & c2 & t2 & l2 & -> & Hb2 & Hres); [done|lia|done|done|].
    do 6 eexists. split; [done|]. split; [done|]. destruct Hres as [|(? & ? & ? & ?)]; [by left|right]. split_and!; (done || lia).
Qed.

Lemma select_records_safe fuel src room out0 out pos :
  0 <= src <= size -> (src = size \/ src + 5 <= size) -> (Z.to_nat (size - src) < fuel)%nat ->
  0 <= pos <= room -> room <= mem_size out0 -> same_behind room out0 out ->
  exists rc out' pos', select_records table size rsi rt ft fuel src out room pos = Ok (rc, out', pos') /\
    same_behind room out0 out' /\
    (rc = PLDM_ERROR_INVALID_LENGTH \/ rc = PLDM_SUCCESS /\ 0 <= pos' <= room).
Proof.
  revert src out pos. induction fuel as [|fuel IH]; intros src out pos Hsrc Hend Hfuel Hp Hr Hb; [lia|].
  cbn [select_records]. unfold is_table_end. cmp_case; [do 3 eexists; split; [done|]; eauto|].
  destruct Ht as (Hm & Hs & Ha & He).
  assert (forall o k, 0 <= o -> o + Z.of_nat k <= 5 -> exists v, mem_le table (src + o) (Z.of_nat k) = Ok v /\ 0 <= v < 256 ^ Z.of_nat k) as Hle.
  { intros o k Ho Hk. apply mem_le_any; [done|lia|lia]. }
  destruct (Hle 0 2%nat) as (id & Ei & _); [lia..|]. destruct (Hle 2 1%nat) as (type & Et & _); [lia..|].
  destruct (Hle 3 1%nat) as (n & En & _); [lia..|]. rewrite Z.add_0_r in Ei. clear Hle.
  change (Z.of_nat 2) with 2 in Ei. change (Z.of_nat 1) with 1 in Et, En. rewrite Ei, Et, En.
  cbn [mbind outcome_bind].
  assert (field_in (src + 5) 0) as H0 by (unfold field_in; lia).
  assert (forall tlv l out' pos', field_in tlv l -> src + 5 <= tlv -> 0 <= pos' <= room -> same_behind room out0 out' ->
    exists rc o' p', (if no_more_records table size tlv l then mret (PLDM_SUCCESS, out', pos')
      else select_records table size rsi rt ft fuel (tlv + l) out' room pos') = Ok (rc, o', p') /\
    same_behind room out0 o' /\
    (rc = PLDM_ERROR_INVALID_LENGTH \/ rc = PLDM_SUCCESS /\ 0 <= p' <= room)) as Hnext.
  { intros tlv l out' pos' [H1 H2] H3 H4 H5. unfold no_more_records. rewrite !u64_small by lia.
    cmp_case; [do 3 eexists; split; [done|]; eauto|]. apply IH; (lia || done). }
  destruct (_ || _).
  - destruct (skip_fields_safe (Z.to_nat n) (src + 5) 0 H0) as (rc & tlv & l & -> & [->|(-> & H' & Hle)]).
    { cbn. do 3 eexists. split; [done|]. eauto. }
    cbn [mbind outcome_bind Z.eqb]. by apply Hnext.
  - cmp_case; [do 3 eexists; split; [done|]; eauto|].
    destruct (mem_read_in table src 5) as (h & -> & Hh & _); [lia..|]. cbn [mbind outcome_bind].
    destruct (write_inside room out0 out pos h) as (o1 & -> & Hb1); [done|lia|unfold len; lia|done|].
    cbn [mbind outcome_bind].
    destruct (copy_fields_safe (Z.to_nat n) room out0 o1 (pos + 5) 0 (src + 5) 0 H0)
      as (rc & o2 & p2 & c2 & tlv & l & -> & Hb2 & [->|(-> & H' & Htlv & Hp2)]); [lia|done|done|..].
    { cbn. do 3 eexists. split; [done|]. eauto. }
    cbn [mbind outcome_bind Z.eqb].
    destruct (write_inside room out0 o2 (pos + 3) [u8 c2]) as (o3 & -> & Hb3); [done|lia|unfold len; cbn; lia|done|].
    cbn [mbind outcome_bind]. apply Hnext; [done|lia|lia|done].
Qed.
End any.

(** C34: Whatever bytes a table of FRU records consists of, get_fru_record_by_option()
    returns: it reads nothing outside the table, and writes nothing behind the room its
    caller says there is.  It answers with a success and the size of what it wrote, or
    with an invalid length and the caller's size as it was. *)
Theorem fru_selection_safe table size out room rsi rt ft :
  mapped table size -> mem_ok out -> 0 <= room <= mem_size out ->
  exists rc out' room',
    get_fru_record_by_option (Some table) size (Some out) (Some room) rsi rt ft = Ok (rc, Some out', Some room') /\
    same_behind room out out' /\
    (rc = PLDM_SUCCESS /\ 0 <= room' <= room \/ rc = PLDM_ERROR_INVALID_LENGTH /\ room' = room).
Proof.
  intros Ht Ho Hr. pose proof Ht as (_ & Hs & _ & He). destruct Ho as [_ Ho _ _]. unfold get_fru_record_by_option.
  cmp_case; [do 3 eexists; split; [done|]; split; [done|lia]|]. cmp_case; [lia|]. cmp_case; [lia|].
  destruct (select_records_safe table size rsi rt ft Ht (S (Z.to_nat size)) 0 room out out 0)
    as (rc & out' & pos & -> & Hb & [->|(-> & Hp)]); [try lia; try done..| |];
    cbn [mbind outcome_bind Z.eqb]; do 3 eexists; (split; [done|]); (split; [done|lia]).
Qed.

(** ** Well formed tables *)

(** A field is its type and its value. *)
Record fru_record := FruRecord {
  fr_set : Z; fr_type : Z; fr_encoding : Z; fr_fields : list (Z * list Z)
}.

Definition field_bytes (f : Z * list Z) : list Z := f.1 :: len f.2 :: f.2.
Definition fru_fields_bytes (fs : list (Z * list Z)) : list Z := concat (field_bytes <$> fs).
Definition record_bytes (r : fru_record) : list Z :=
  le_enc 2 (fr_set r) ++ [fr_type r; len (fr_fields r); fr_encoding r] ++ fru_fields_bytes (fr_fields r).
Definition records_bytes (rs : list fru_record) : list Z := concat (record_bytes <$> rs).

Definition field_ok (f : Z * list Z) : Prop := byte_ok f.1 /\ bytes_ok f.2 /\ len f.2 < 256.
Definition record_ok (r : fru_record) : Prop :=
  u16_ok (fr_set r) /\ byte_ok (fr_type r) /\ byte_ok (fr_encoding r) /\ len (fr_fields r) < 256 /\
  Forall field_ok (fr_fields r).

(** What a request selects, 0 for any: records of a set and a type, fields of a type. *)
Definition record_matches (rsi rt : Z) (r : fru_record) : bool :=
  ((rsi =? 0) || (fr_set r =? rsi)) && ((rt =? 0) || (fr_type r =? rt)).
Definition field_matches (ft : Z) (f : Z * list Z) : bool := (ft =? 0) || (f.1 =? ft).
Definition select_fields (ft : Z) (r : fru_record) : fru_record :=
  FruRecord (fr_set r) (fr_type r) (fr_encoding r) (List.filter (field_matches ft) (fr_fields r)).
Definition selected (rsi rt ft : Z) (rs : list fru_record) : list fru_record :=
  select_fields ft <$> List.filter (record_matches rsi rt) rs.

(** Whether [room] is enough for the code: it asks for the room of a field before it
    looks at the type of it. *)
Fixpoint fields_fit (ft room : Z) (fs : list (Z * list Z)) : bool :=
  match fs with
  | [] => true
  | f :: fs =>
    (len (field_bytes f) <=? room) &&
    fields_fit ft (if field_matches ft f then room - len (field_bytes f) else room) fs
  end.
Fixpoint records_fit (rsi rt ft room : Z) (rs : list fru_record) : bool :=
  match rs with
  | [] => true
  | r :: rs =>
    if record_matches rsi rt r then
      (5 <=? room) && fields_fit ft (room - 5) (fr_fields r) &&
      records_fit rsi rt ft (room - len (record_bytes (select_fields ft r))) rs
    else records_fit rsi rt ft room rs
  end.

Lemma len_field f : len (field_bytes f) = 2 + len f.2.
Proof. unfold field_bytes. rewrite !len_cons. lia. Qed.

Lemma len_record r : len (record_bytes r) = 5 + len (fru_fields_bytes (fr_fields r)).
Proof. unfold record_bytes. rewrite !len_app, len_le_enc. unfold len. cbn. lia. Qed.

Lemma fru_fields_bytes_cons f fs : fru_fields_bytes (f :: fs) = field_bytes f ++ fru_fields_bytes fs.
Proof. done. Qed.

Section table.
Context (table : cmem) (size rsi rt ft : Z).
Hypothesis Ht : mapped table size.

(** On to a field that is there. *)
Lemma next_field_at tlv l f :
  field_in size tlv l -> lies table (tlv + l) (field_bytes f) -> field_ok f ->
  tlv + l + len (field_bytes f) <= size ->
  next_field table size tlv l = Ok (PLDM_SUCCESS, tlv + l, len (field_bytes f)).
Proof.
  intros [H1 H2] Hl (_ & _ & Hf) Hend. rewrite len_field in *. destruct Ht as (Hm & Hs & Ha & He).
  pose proof (len_nonneg f.2). unfold next_field.
  rewrite u64_small by lia. cmp_case; [lia|]. rewrite u64_small by lia. cmp_case; [lia|].
  assert (lies table (tlv + l + 1) (le_enc 1 (len f.2))) as Hlen.
  { rewrite le_enc_1 by lia. change (field_bytes f) with ([f.1] ++ [len f.2] ++ f.2) in Hl.
    apply lies_app in Hl as [_ Hl]. by apply lies_app in Hl as [Hl _]. }
  rewrite (mem_le_at table _ _ 1 1 _ Hlen eq_refl eq_refl) by (cbn; lia). cbn [mbind outcome_bind].
  cmp_case; [lia|]. done.
Qed.

Lemma skip_fields_at fs tlv l :
  field_in size tlv l -> lies table (tlv + l) (fru_fields_bytes fs) -> Forall field_ok fs ->
  tlv + l + len (fru_fields_bytes fs) <= size ->
  exists tlv' l', skip_fields table size (length fs) tlv l = Ok (PLDM_SUCCESS, tlv', l') /\
    field_in size tlv' l' /\ tlv' + l' = tlv + l + len (fru_fields_bytes fs).
Proof.
  intros Hin Hl Hfs. revert tlv l Hin Hl. induction Hfs as [|f fs Hf Hfs IH]; intros tlv l Hin Hl Hend; cbn [length skip_fields].
  { do 2 eexists. split; [done|]. split; [done|]. unfold len. cbn. lia. }
  rewrite fru_fields_bytes_cons, len_app in *. apply lies_app in Hl as [Hl1 Hl2].
  pose proof (len_nonneg (fru_fields_bytes fs)). pose proof (len_field f). pose proof (len_nonneg f.2).
  rewrite (next_field_at tlv l f) by (done || lia). cbn [mbind outcome_bind Z.eqb].
  destruct (IH (tlv + l) (len (field_bytes f))) as (t' & l' & -> & Hin' & E).
  - unfold field_in in *. destruct Hf as (_ & _ & ?). lia.
  - done.
  - lia.
  - do 2 eexists. split; [done|]. split; [done|]. lia.
Qed.

(** The next bytes of an object are written. *)
Lemma mem_write_into a pre rest new pos :
  pos = len pre -> len new <= len rest ->
  mem_write (CMem a (pre ++ rest)) pos new = Ok (CMem a ((pre ++ new) ++ drop (length new) rest)).
Proof.
  intros -> Hn. rewrite <- (take_drop (length new) rest) at 1.
  rewrite (mem_write_over a pre _ new) by (done || (rewrite length_take; unfold len in Hn; lia)).
  by rewrite <- app_assoc.
Qed.

Lemma copy_fields_at fs a pre rest room count tlv l :
  field_in size tlv l -> lies table (tlv + l) (fru_fields_bytes fs) -> Forall field_ok fs ->
  tlv + l + len (fru_fields_bytes fs) <= size -> 0 <= room - len pre <= len rest ->
  let kept := List.filter (field_matches ft) fs in
  let r := copy_fields table size ft (length fs) (CMem a (pre ++ rest)) room (len pre) count tlv l in
  if fields_fit ft (room - len pre) fs then
    exists tlv' l',
      r = Ok (PLDM_SUCCESS, CMem a ((pre ++ fru_fields_bytes kept) ++ drop (length (fru_fields_bytes kept)) rest),
              len pre + len (fru_fields_bytes kept), count + len kept, tlv', l') /\
      field_in size tlv' l' /\ tlv' + l' = tlv + l + len (fru_fields_bytes fs) /\
      len pre + len (fru_fields_bytes kept) <= room
  else exists out' pos' count' tlv' l', r = Ok (PLDM_ERROR_INVALID_LENGTH, out', pos', count', tlv', l').
Proof.
  intros Hin Hl Hfs. revert pre rest count tlv l Hin Hl.
  induction Hfs as [|f fs Hf Hfs IH]; intros pre rest count tlv l Hin Hl Hend Hroom; cbn [length copy_fields List.filter fields_fit].
  { do 2 eexists. split; [|split; [done|split; [unfold len; cbn; lia|change (len (fru_fields_bytes [])) with 0; lia]]].
    change (fru_fields_bytes []) with (@nil Z). change (length (@nil Z)) with 0%nat.
    rewrite app_nil_r, drop_0. change (@len Z []) with 0. change (@len (Z * list Z) []) with 0. by rewrite !Z.add_0_r. }
  rewrite fru_fields_bytes_cons, len_app in *. pose proof Hl as Hfield. apply lies_app in Hl as [Hl1 Hl2].
  pose proof (len_nonneg (fru_fields_bytes fs)). pose proof (len_field f). pose proof (len_nonneg f.2).
  destruct Ht as (Hm & Hs & Ha & He). pose proof Hin as [Hin1 Hin2]. pose proof Hf as (Hft & Hfv & Hfn).
  rewrite (next_field_at tlv l f) by (done || lia). cbn [mbind outcome_bind Z.eqb].
  rewrite u64_small by lia.
  destruct (Z.ltb_spec (room - len pre) (len (field_bytes f))), (Z.leb_spec (len (field_bytes f)) (room - len pre)); try lia.
  { cbn [andb]. do 5 eexists. reflexivity. }
  cbn [andb]. destruct (Z.ltb_spec (addr table + size - (addr table + (tlv + l))) (len (field_bytes f))); [lia|].
  assert (lies table (tlv + l) (le_enc 1 f.1)) as Htype.
  { rewrite le_enc_1 by done. change (field_bytes f) with ([f.1] ++ len f.2 :: f.2) in Hl1. by apply lies_app in Hl1 as [Hl1 _]. }
  rewrite (mem_le_at table _ _ 1 1 _ Htype eq_refl eq_refl) by (unfold byte_ok in Hft; cbn; lia). cbn [mbind outcome_bind].
  assert (field_in size (tlv + l) (len (field_bytes f))) as Hin' by (unfold field_in; lia).
  replace ((f.1 =? ft) || (ft =? 0)) with (field_matches ft f) by apply orb_comm.
  destruct (field_matches ft f).
  - rewrite (mem_read_lies table _ _ Hl1). cbn [mbind outcome_bind].
    rewrite (mem_write_into a pre rest (field_bytes f)) by (done || lia). cbn [mbind outcome_bind].
    replace (len pre + len (field_bytes f)) with (len (pre ++ field_bytes f)) by apply len_app.
    specialize (IH (pre ++ field_bytes f) (drop (length (field_bytes f)) rest) (count + 1) (tlv + l) (len (field_bytes f)) Hin' Hl2 ltac:(lia)).
    rewrite len_app in IH. cbn zeta in IH. rewrite Z.sub_add_distr in IH.
    assert (len (drop (length (field_bytes f)) rest) = len rest - len (field_bytes f)) as Hd
      by (unfold len in *; rewrite length_drop; lia).
    specialize (IH ltac:(lia)). rewrite len_app.
    destruct (fields_fit ft _ fs).
    + destruct IH as (t' & l' & -> & Hin2' & E' & Hfit). exists t', l'.
      split; [|split; [done|rewrite !fru_fields_bytes_cons, !len_app; split; [lia|lia]]].
      rewrite fru_fields_bytes_cons, !len_app, len_cons, length_app, <- !app_assoc, drop_drop, !Z.add_assoc. done.
    + exact IH.
  - specialize (IH pre rest count (tlv + l) (len (field_bytes f)) Hin' Hl2 ltac:(lia) Hroom). cbn zeta in IH.
    destruct (fields_fit ft _ fs); [|exact IH].
    destruct IH as (t' & l' & -> & Hin2' & E' & Hfit). exists t', l'. split; [reflexivity|]. split; [done|]. split; [lia|done].
Qed.

Lemma matches_code r :
  (negb (fr_set r =? rsi) && negb (rsi =? 0)) || (negb (fr_type r =? rt) && negb (rt =? 0))
  = negb (record_matches rsi rt r).
Proof.
  unfold record_matches. by destruct (fr_set r =? rsi), (rsi =? 0), (fr_type r =? rt), (rt =? 0).
Qed.

Lemma filter_length {A} (f : A -> bool) l : (length (List.filter f l) <= length l)%nat.
Proof. induction l as [|x l IH]; cbn; [lia|]. destruct (f x); cbn; lia. Qed.

(** A record that is there: its head, and where its fields are. *)
Lemma record_head_at src r :
  lies table src (record_bytes r) -> record_ok r ->
  mem_le table src 2 = Ok (fr_set r) /\ mem_le table (src + 2) 1 = Ok (fr_type r) /\
  mem_le table (src + 3) 1 = Ok (len (fr_fields r)) /\
  mem_read table src 5 = Ok (le_enc 2 (fr_set r) ++ [fr_type r; len (fr_fields r); fr_encoding r]) /\
  lies table (src + 5 + 0) (fru_fields_bytes (fr_fields r)).
Proof.
  intros Hl (Hid & Htype & Henc & Hn & Hfs). pose proof (len_nonneg (fr_fields r)). pose proof Hl as Hhead.
  unfold record_bytes in Hl, Hhead.
  change ([fr_type r; len (fr_fields r); fr_encoding r] ++ ?x)
    with ([fr_type r] ++ [len (fr_fields r)] ++ [fr_encoding r] ++ x) in Hhead.
  apply lies_app in Hhead as [Lid Hhead]. apply lies_app in Hhead as [Ltype Hhead].
  apply lies_app in Hhead as [Ln Hhead]. apply lies_app in Hhead as [Lenc Lfields].
  rewrite len_le_enc in *. change (len [_]) with 1 in *.
  rewrite <- (le_enc_1 (fr_type r)) in Ltype by done. rewrite <- (le_enc_1 (len (fr_fields r))) in Ln by (unfold byte_ok; lia).
  split_and!.
  - by apply (mem_le_at table _ _ 2 2 _ Lid).
  - by apply (mem_le_at table _ (src + 2) 1 1 _ Ltype).
  - apply (mem_le_at table _ (src + 3) 1 1 _ Ln); cbn; lia.
  - apply (mem_read_at table src src 5 (le_enc 2 (fr_set r) ++ [fr_type r; len (fr_fields r); fr_encoding r]));
      [|done|by rewrite len_app, len_le_enc].
    rewrite app_assoc in Hl. by apply lies_app in Hl as [Hl _].
  - by replace (src + 5 + 0) with (src + Z.of_nat 2 + 1 + 1 + 1) by lia.
Qed.

(** A record that matches: its head, the fields that match, and their count. *)
Lemma copy_record_at {T} (k : cmem -> Z -> Z -> Z -> outcome (Z * cmem * T)) (fail : Z -> cmem -> Z -> outcome (Z * cmem * T))
    src r a pre rest room :
  lies table src (record_bytes r) -> record_ok r -> src + len (record_bytes r) <= size ->
  5 <= room - len pre -> room - len pre <= len rest ->
  let kept := record_bytes (select_fields ft r) in
  let res :=
    l ← mem_read table src 5;
    out ← mem_write (CMem a (pre ++ rest)) (len pre) l;
    '(rc, out, pos, count, tlv, l) ←
      copy_fields table size ft (Z.to_nat (len (fr_fields r))) out room (len pre + 5) 0 (src + 5) 0;
    if_err rc return_ fail rc out pos;;
    out ← mem_write out (len pre + 3) [u8 count];
    k out pos tlv l in
  if fields_fit ft (room - len pre - 5) (fr_fields r) then
    exists tlv l, res = k (CMem a ((pre ++ kept) ++ drop (length kept) rest)) (len (pre ++ kept)) tlv l /\
      tlv + l = src + len (record_bytes r) /\ len (pre ++ kept) <= room
  else exists out' pos', res = fail PLDM_ERROR_INVALID_LENGTH out' pos'.
Proof.
  intros Hl Hr Hend Hroom Hrest. pose proof (lies_size _ _ _ Hl).
  destruct (record_head_at src r Hl Hr) as (_ & _ & _ & Hhead & Hfl). destruct Hr as (_ & _ & _ & Hn & Hfs).
  rewrite len_record in Hend. pose proof (len_nonneg (fru_fields_bytes (fr_fields r))).
  set (head := le_enc 2 (fr_set r) ++ [fr_type r; len (fr_fields r); fr_encoding r]) in *.
  assert (len head = 5) as Hhd by (unfold head; rewrite len_app, len_le_enc; done).
  cbn zeta. rewrite Hhead. cbn [mbind outcome_bind]. rewrite (mem_write_into a pre rest head) by (done || lia).
  cbn [mbind outcome_bind].
  assert (len (drop (length head) rest) = len rest - 5) as Hd by (unfold len in *; rewrite length_drop; lia).
  replace (Z.to_nat (len (fr_fields r))) with (length (fr_fields r)) by (unfold len; lia).
  destruct Ht as (_ & ? & _ & _).
  pose proof (copy_fields_at (fr_fields r) a (pre ++ head) (drop (length head) rest) room 0 (src + 5) 0
    ltac:(unfold field_in; lia) Hfl Hfs ltac:(lia)) as Hcopy.
  rewrite len_app, Hhd, Z.sub_add_distr in Hcopy. specialize (Hcopy ltac:(lia)). cbn zeta in Hcopy.
  destruct (fields_fit ft (room - len pre - 5) (fr_fields r)).
  2: { destruct Hcopy as (o & p & c & t & l & ->). cbn. eauto. }
  destruct Hcopy as (tlv & l & -> & _ & E & Hfit). cbn [mbind outcome_bind Z.eqb].
  set (kept := List.filter (field_matches ft) (fr_fields r)) in *.
  assert (len (record_bytes (select_fields ft r)) = 5 + len (fru_fields_bytes kept)) as Hsel by apply len_record.
  set (rest2 := drop (length (fru_fields_bytes kept)) (drop (length head) rest)).
  replace (((pre ++ head) ++ fru_fields_bytes kept) ++ rest2)
    with ((pre ++ le_enc 2 (fr_set r) ++ [fr_type r]) ++ [len (fr_fields r)] ++ ([fr_encoding r] ++ fru_fields_bytes kept ++ rest2))
    by (unfold head; rewrite <- !app_assoc; done).
  rewrite (mem_write_over a _ [len (fr_fields r)] [u8 (0 + len kept)])
    by (done || (rewrite !len_app, len_le_enc; unfold len; cbn; lia)).
  assert (u8 (0 + len kept) = len kept) as ->.
  { pose proof (filter_length (field_matches ft) (fr_fields r)) as Hk. fold kept in Hk. unfold u8, len in *.
    rewrite Z.mod_small; lia. }
  cbn [mbind outcome_bind]. exists tlv, l. rewrite len_record, len_app, Hsel. split; [|lia].
  f_equal; [|lia]. f_equal. unfold rest2. rewrite drop_drop.
  replace (length (record_bytes (select_fields ft r))) with (length head + length (fru_fields_bytes kept))%nat
    by (unfold len in *; lia).
  unfold record_bytes, select_fields. cbn [fr_set fr_type fr_fields fr_encoding]. by rewrite <- !app_assoc.
Qed.

(** The loop, from a record on. *)
Lemma select_records_at fuel rs a pre rest room src tail :
  lies table src (records_bytes rs ++ tail) -> Forall record_ok rs ->
  src + len (records_bytes rs) + len tail = size -> len tail < 5 ->
  0 <= room - len pre <= len rest -> (Z.to_nat (size - src) < fuel)%nat ->
  let out := records_bytes (selected rsi rt ft rs) in
  let r := select_records table size rsi rt ft fuel src (CMem a (pre ++ rest)) room (len pre) in
  rs <> [] ->
  if records_fit rsi rt ft (room - len pre) rs then
    r = Ok (PLDM_SUCCESS, CMem a ((pre ++ out) ++ drop (length out) rest), len pre + len out)
  else exists out' pos', r = Ok (PLDM_ERROR_INVALID_LENGTH, out', pos').
Proof.
  revert pre rest src rs. induction fuel as [|fuel IH]; intros pre rest src rs Hl Hrs Hsize Htail Hroom Hfuel; [lia|].
  intros out. subst out. intros r0 Hne. subst r0. destruct Hrs as [|r rs Hr Hrs]; [done|]. clear Hne.
  destruct Ht as (Hm & Hs & Ha & He).
  change (records_bytes (r :: rs)) with (record_bytes r ++ records_bytes rs) in *.
  rewrite len_app in Hsize. rewrite <- app_assoc in Hl. pose proof (lies_size _ _ _ Hl) as Hls.
  apply lies_app in Hl as [Hl Hnext]. pose proof (len_record r).
  pose proof (len_nonneg (fru_fields_bytes (fr_fields r))). pose proof (len_nonneg (records_bytes rs)). pose proof (len_nonneg tail).
  cbn [select_records]. unfold is_table_end. replace (size <=? src) with false by lia.
  destruct (record_head_at src r Hl Hr) as (-> & -> & -> & _ & Hfl). cbn [mbind outcome_bind].
  rewrite matches_code. cbn [records_fit]. unfold selected. cbn [List.filter fmap list_fmap].
  set (next := src + len (record_bytes r)) in *.
  assert (forall pre' rest' tlv l, tlv + l = next -> 0 <= room - len pre' <= len rest' ->
    let out := records_bytes (selected rsi rt ft rs) in
    let res := if no_more_records table size tlv l then mret (PLDM_SUCCESS, CMem a (pre' ++ rest'), len pre')
               else select_records table size rsi rt ft fuel (tlv + l) (CMem a (pre' ++ rest')) room (len pre') in
    if records_fit rsi rt ft (room - len pre') rs then
      res = Ok (PLDM_SUCCESS, CMem a ((pre' ++ out) ++ drop (length out) rest'), len pre' + len out)
    else exists out' pos', res = Ok (PLDM_ERROR_INVALID_LENGTH, out', pos')) as Hgo.
  { intros pre' rest' tlv l E Hr'. cbn zeta. unfold no_more_records.
    replace (addr table + tlv + l) with (addr table + next) by lia. rewrite !u64_small by lia. rewrite E.
    destruct rs as [|r2 rs].
    - replace (_ <? _) with true by (change (len (records_bytes [])) with 0 in Hsize; lia).
      cbn. unfold len at 2. cbn. by rewrite app_nil_r, drop_0, Z.add_0_r.
    - assert (5 <= len (records_bytes (r2 :: rs))).
      { change (records_bytes (r2 :: rs)) with (record_bytes r2 ++ records_bytes rs). rewrite len_app, len_record.
        pose proof (len_nonneg (fru_fields_bytes (fr_fields r2))). pose proof (len_nonneg (records_bytes rs)). lia. }
      replace (_ <? _) with false by lia. apply IH; (done || lia). }
  clear IH. destruct (record_matches rsi rt r) eqn:Em; cbn [negb].
  2: { replace (Z.to_nat (len (fr_fields r))) with (length (fr_fields r)) by (unfold len; lia).
       destruct (skip_fields_at (fr_fields r) (src + 5) 0 ltac:(unfold field_in; lia) Hfl ltac:(apply Hr)) as (tlv & l & -> & _ & E); [lia|].
       cbn [mbind outcome_bind Z.eqb]. apply Hgo; [unfold next; lia|done]. }
  destruct (Z.ltb_spec (room - len pre) 5), (Z.leb_spec 5 (room - len pre)); try lia; cbn [andb].
  { do 2 eexists. reflexivity. }
  pose proof (copy_record_at
    (fun out pos tlv l => if no_more_records table size tlv l then mret (PLDM_SUCCESS, out, pos)
       else select_records table size rsi rt ft fuel (tlv + l) out room pos)
    (fun rc out pos => mret (rc, out, pos)) src r a pre rest room Hl Hr ltac:(lia) ltac:(lia) ltac:(lia)) as Hcopy.
  cbn zeta in Hcopy. destruct (fields_fit ft (room - len pre - 5) (fr_fields r)); cbn [andb]; [|exact Hcopy].
  destruct Hcopy as (tlv & l & -> & E & Hfit).
  set (kept := record_bytes (select_fields ft r)) in *.
  specialize (Hgo (pre ++ kept) (drop (length kept) rest) tlv l E).
  rewrite len_app in Hgo, Hfit. specialize (Hgo ltac:(unfold len in *; rewrite length_drop; lia)).
  cbn zeta in Hgo. rewrite Z.sub_add_distr in Hgo. rewrite len_app. cbn [fmap list_fmap].
  change (records_bytes (select_fields ft r :: (select_fields ft <$> List.filter (record_matches rsi rt) rs)))
    with (kept ++ records_bytes (selected rsi rt ft rs)).
  destruct (records_fit rsi rt ft _ rs); [|exact Hgo].
  by rewrite Hgo, len_app, length_app, <- !app_assoc, !Z.add_assoc, drop_drop.
Qed.
End table.

(** ** A table from its records *)

(** The calls that append records to a table, while they succeed. *)
Fixpoint encode_records (table : option cmem) (total : Z) (curr : option Z) (rs : list fru_record)
  : outcome (Z * option cmem * option Z) :=
  match rs with
  | [] => Ok (PLDM_SUCCESS, table, curr)
  | r :: rs =>
    '(rc, table, curr) ← encode_fru_record table total curr (fr_set r) (fr_type r) (len (fr_fields r))
      (fr_encoding r) (Some (CMem 4096 (fru_fields_bytes (fr_fields r)))) (len (fru_fields_bytes (fr_fields r)));
    if_err rc return_ mret (rc, table, curr);;
    encode_records table total curr rs
  end.

Lemma encode_record_at r a pre rest total :
  record_ok r -> fr_fields r <> [] -> total <= SIZE_MAX ->
  len pre + len (record_bytes r) <= total -> total <= len pre + len rest ->
  encode_fru_record (Some (CMem a (pre ++ rest))) total (Some (len pre)) (fr_set r) (fr_type r) (len (fr_fields r))
    (fr_encoding r) (Some (CMem 4096 (fru_fields_bytes (fr_fields r)))) (len (fru_fields_bytes (fr_fields r)))
  = Ok (PLDM_SUCCESS, Some (CMem a ((pre ++ record_bytes r) ++ drop (length (record_bytes r)) rest)),
        Some (len (pre ++ record_bytes r))).
Proof.
  intros (Hid & Htype & Henc & Hn & _) Hne Hmax Hr Htotal. rewrite len_record in Hr. unfold encode_fru_record.
  assert (0 < len (fru_fields_bytes (fr_fields r))).
  { destruct (fr_fields r) as [|f fs]; [done|]. rewrite fru_fields_bytes_cons, len_app, len_field.
    pose proof (len_nonneg f.2). pose proof (len_nonneg (fru_fields_bytes fs)). lia. }
  pose proof (len_nonneg pre).
  repeat (cmp_case; [lia|]).
  set (head := members_bytes _). assert (head = le_enc 2 (fr_set r) ++ [fr_type r; len (fr_fields r); fr_encoding r]) as Ehead.
  { unfold head, members_bytes. cbn [fmap list_fmap concat]. rewrite !le_enc_1; [done|done|unfold byte_ok; pose proof (len_nonneg (fr_fields r)); lia|done]. }
  assert (len head = 5) as Hhd by (rewrite Ehead, len_app, len_le_enc; done). clearbody head.
  rewrite mem_write_into by (done || lia). cbn [mbind outcome_bind].
  rewrite mem_read_all by done. cbn [mbind outcome_bind].
  rewrite mem_write_into; [|rewrite len_app; lia|unfold len in *; rewrite length_drop; lia].
  cbn [mbind outcome_bind]. unfold record_bytes. rewrite (app_assoc _ [_; _; _]), <- Ehead.
  rewrite drop_drop, length_app, !len_app, Hhd, <- !app_assoc, !Z.add_assoc. done.
Qed.

Lemma encode_records_at rs a pre rest total :
  Forall record_ok rs -> Forall (fun r => fr_fields r <> []) rs -> total <= SIZE_MAX ->
  len pre + len (records_bytes rs) <= total -> total <= len pre + len rest ->
  encode_records (Some (CMem a (pre ++ rest))) total (Some (len pre)) rs
  = Ok (PLDM_SUCCESS, Some (CMem a ((pre ++ records_bytes rs) ++ drop (length (records_bytes rs)) rest)),
        Some (len pre + len (records_bytes rs))).
Proof.
  intros Hrs. revert pre rest. induction Hrs as [|r rs Hr Hrs IH]; intros pre rest Hf Hmax Hn Htotal; cbn [encode_records].
  { change (records_bytes []) with (@nil Z). change (len []) with 0. by rewrite app_nil_r, Z.add_0_r. }
  apply list.Forall_cons in Hf as [Hf1 Hf]. change (records_bytes (r :: rs)) with (record_bytes r ++ records_bytes rs) in *.
  rewrite len_app in Hn. pose proof (len_nonneg (records_bytes rs)).
  rewrite encode_record_at by (done || lia). cbn [mbind outcome_bind Z.eqb].
  assert (len (drop (length (record_bytes r)) rest) = len rest - len (record_bytes r)) as Hd
    by (unfold len in *; rewrite length_drop; lia).
  rewrite IH; [|done|done|rewrite len_app; lia|rewrite len_app; lia].
  rewrite drop_drop, length_app, !len_app, <- !app_assoc, Z.add_assoc. done.
Qed.

Lemma record_bytes_ok r : record_ok r -> bytes_ok (record_bytes r).
Proof.
  intros (Hid & Htype & Henc & Hn & Hfs). pose proof (len_nonneg (fr_fields r)). unfold record_bytes.
  rewrite !list.Forall_app. split_and!; [apply le_enc_ok|repeat constructor; unfold byte_ok in *; lia|].
  induction Hfs as [|f fs (H1 & H2 & H3) _ IH]; [constructor|]. rewrite fru_fields_bytes_cons. apply list.Forall_app.
  pose proof (len_nonneg f.2). split.
  - repeat (apply list.Forall_cons; split; [unfold byte_ok in *; lia|]). done.
  - apply IH; [|apply len_nonneg]. rewrite len_cons in Hn. lia.
Qed.

Lemma fields_fit_room ft fs room : len (fru_fields_bytes fs) <= room -> fields_fit ft room fs = true.
Proof.
  revert room. induction fs as [|f fs IH]; intros room Hr; [done|]. rewrite fru_fields_bytes_cons, len_app in Hr. cbn [fields_fit].
  pose proof (len_nonneg (fru_fields_bytes fs)). pose proof (len_nonneg (field_bytes f)).
  rewrite (proj2 (Z.leb_le _ _)) by lia. apply IH. destruct (field_matches ft f); lia.
Qed.

Lemma select_fields_short ft fs : len (fru_fields_bytes (List.filter (field_matches ft) fs)) <= len (fru_fields_bytes fs).
Proof.
  induction fs as [|f fs IH]; [done|]. cbn [List.filter]. pose proof (len_nonneg (field_bytes f)).
  destruct (field_matches ft f); rewrite ?fru_fields_bytes_cons, ?len_app; lia.
Qed.

Lemma records_fit_room rsi rt ft rs room :
  len (records_bytes (List.filter (record_matches rsi rt) rs)) <= room -> records_fit rsi rt ft room rs = true.
Proof.
  revert room. induction rs as [|r rs IH]; intros room Hr; [done|]. cbn [List.filter records_fit] in *.
  destruct (record_matches rsi rt r); [|by apply IH].
  change (records_bytes (r :: ?x)) with (record_bytes r ++ records_bytes x) in Hr. rewrite len_app, len_record in Hr.
  pose proof (len_nonneg (records_bytes (List.filter (record_matches rsi rt) rs))).
  pose proof (len_nonneg (fru_fields_bytes (fr_fields r))). pose proof (select_fields_short ft (fr_fields r)).
  rewrite (proj2 (Z.leb_le _ _)), fields_fit_room by lia. apply IH. rewrite len_record. cbn [select_fields fr_fields]. lia.
Qed.

(** C20: A table that encode_fru_record() builds from records is their bytes one after the
    other, and get_fru_record_by_option() on it answers with the records of the set and
    the type that were asked for, in order, each with its fields of the type that was
    asked for and the count of them.  Up to four bytes behind the last record make no
    difference.  The call is refused exactly when the caller's room does not reach for
    what the code asks: room for each field of a matching record, wanted or not; room
    for all of the matching records is always enough. *)
Theorem fru_table_selection rs a buf total extra b dst room rsi rt ft :
  rs <> [] -> Forall record_ok rs -> Forall (fun r => fr_fields r <> []) rs ->
  let n := len (records_bytes rs) in
  0 <= extra < 5 -> 8 <= n + extra -> n + extra <= total -> mapped (CMem a buf) total ->
  mem_ok (CMem b dst) -> 0 <= room <= len dst ->
  let table := CMem a (records_bytes rs ++ drop (length (records_bytes rs)) buf) in
  let result := records_bytes (selected rsi rt ft rs) in
  encode_records (Some (CMem a buf)) total (Some 0) rs = Ok (PLDM_SUCCESS, Some table, Some n) /\
  (if records_fit rsi rt ft room rs then
     get_fru_record_by_option (Some table) (n + extra) (Some (CMem b dst)) (Some room) rsi rt ft
     = Ok (PLDM_SUCCESS, Some (CMem b (result ++ drop (length result) dst)), Some (len result))
   else exists out',
     get_fru_record_by_option (Some table) (n + extra) (Some (CMem b dst)) (Some room) rsi rt ft
     = Ok (PLDM_ERROR_INVALID_LENGTH, Some out', Some room)) /\
  (len (records_bytes (List.filter (record_matches rsi rt) rs)) <= room -> records_fit rsi rt ft room rs = true).
Proof.
  intros Hne Hrs Hf n Hx H8 Htotal (Hm & Hs & Ha & He) Ho Hroom table result.
  unfold mem_size in Hs. cbn [bytes addr] in *. split; [|split; [|apply records_fit_room]].
  { apply (encode_records_at rs a [] buf total Hrs Hf); change (len (@nil Z)) with 0; unfold len in *; lia. }
  assert (length (bytes table) = length buf) as Hlen.
  { unfold table. cbn [bytes]. rewrite length_app, length_drop. unfold n, len in *. lia. }
  assert (mapped table (n + extra)) as Ht.
  { destruct Hm as [_ Hm2 Hm3 Hm4]. unfold mem_size in *. cbn [bytes addr] in *.
    split; [|unfold mem_size; rewrite Hlen; cbn [table addr]; unfold n, len in *; lia].
    constructor; unfold mem_size; rewrite ?Hlen; cbn [table addr bytes]; [lia..|].
    apply list.Forall_app. split; [|by apply Forall_drop]. unfold records_bytes.
    apply Forall_concat, list.Forall_fmap. eapply list.Forall_impl; [exact Hrs|]. intros r. apply record_bytes_ok. }
  pose proof (select_records_at table (n + extra) rsi rt ft Ht (S (Z.to_nat (n + extra))) rs b [] dst room 0
    (take (Z.to_nat extra) (drop (length (records_bytes rs)) buf))) as Hsel.
  change (len (@nil Z)) with 0 in Hsel. cbn zeta in Hsel. rewrite Z.sub_0_r in Hsel.
  assert (len (take (Z.to_nat extra) (drop (length (records_bytes rs)) buf)) = extra) as Hx2.
  { unfold len in *. rewrite length_take, length_drop. unfold n in *. lia. }
  rewrite Hx2 in Hsel. unfold get_fru_record_by_option. destruct Ho as [_ Ho _ _]. unfold mem_size in Ho. cbn [bytes addr] in Ho.
  replace (n + extra <? 8) with false by lia.
  replace (UINTPTR_MAX - (n + extra) <? addr table) with false by (cbn [table addr]; lia).
  replace (UINTPTR_MAX - room <? addr (CMem b dst)) with false by (cbn [addr]; unfold len in Hroom; lia).
  specialize (Hsel ltac:(split; [unfold mem_size; lia|]; exists (drop (Z.to_nat extra) (drop (length (records_bytes rs)) buf));
    cbn [table bytes]; rewrite <- app_assoc, take_drop; done) Hrs ltac:(fold n; lia) ltac:(lia) ltac:(lia) ltac:(lia) Hne).
  cbn [app] in Hsel. destruct (records_fit rsi rt ft room rs).
  - rewrite Hsel. done.
  - destruct Hsel as (out' & pos' & ->). cbn. eauto.
Qed.

(** ** On concrete tables *)

Ltac object_ok := constructor; [by vm_compute..|]; apply (bool_decide_unpack (Forall (fun b => 0 <= b < 256) _)); by vm_compute.

(** A record cut off in its second field, into 16 bytes. *)
Lemma fru_selection_safe_witness :
  exists rc out' room',
    get_fru_record_by_option (Some (CMem 8192 [1; 0; 1; 2; 1; 2; 1; 65; 3; 9; 66])) 11
      (Some (CMem 16384 (repeat 0 20))) (Some 16) 0 0 0 = Ok (rc, Some out', Some room') /\
    same_behind 16 (CMem 16384 (repeat 0 20)) out' /\
    (rc = PLDM_SUCCESS /\ 0 <= room' <= 16 \/ rc = PLDM_ERROR_INVALID_LENGTH /\ room' = 16).
Proof.
  apply fru_selection_safe; [|object_ok|by vm_compute].
  split; [object_ok|by vm_compute].
Defined.

(** Two record sets; the serial numbers (type 4) of the second are asked for. *)
Lemma fru_table_selection_witness :
  let rs := [FruRecord 1 1 1 [(4, [49])]; FruRecord 2 1 1 [(2, [77; 49]); (4, [50; 51])]] in
  let table := CMem 8192 (records_bytes rs ++ repeat 0 7) in
  encode_records (Some (CMem 8192 (repeat 0 28))) 28 (Some 0) rs = Ok (PLDM_SUCCESS, Some table, Some 21) /\
  get_fru_record_by_option (Some table) 25 (Some (CMem 16384 (repeat 0 10))) (Some 10) 2 0 4
  = Ok (PLDM_SUCCESS, Some (CMem 16384 [2; 0; 1; 1; 1; 4; 2; 50; 51; 0]), Some 9).
Proof.
  set (rs := [FruRecord 1 1 1 [(4, [49])]; FruRecord 2 1 1 [(2, [77; 49]); (4, [50; 51])]]).
  assert (Forall record_ok rs) as Hrs.
  { repeat (apply list.Forall_cons; split); [..|constructor]; split_and!; try done;
      repeat (apply list.Forall_cons; split); try constructor; split_and!; try done; repeat constructor; done. }
  assert (Forall (fun r => fr_fields r <> []) rs) as Hf by (repeat constructor; done).
  assert (mapped (CMem 8192 (repeat 0 28)) 28) as Hm by (split; [object_ok|by vm_compute]).
  assert (mem_ok (CMem 16384 (repeat 0 10))) as Ho by object_ok.
  destruct (fru_table_selection rs 8192 (repeat 0 28) 28 4 16384 (repeat 0 10) 10 2 0 4 ltac:(done) Hrs Hf
    ltac:(by vm_compute) ltac:(by vm_compute) ltac:(by vm_compute) Hm Ho ltac:(by vm_compute)) as (H1 & H2 & _).
  split; [exact H1|exact H2].
Defined.
