(* ===== verification/FruMessages.v ===== *)
(** * FRU messages: encoders against decoders *)

From S2P Require Import Prelude Msgbuf Layout Base Legacy Exchange Fru.

Section roundtrip.
Context (inst : Z) (msg : pldm_msg).
Hypothesis Hmem : mem_ok (payload msg).
Hypothesis Hi : 0 <= inst <= 31.

Definition metadata_ok (r : pldm_get_fru_record_table_metadata_resp) : Prop :=
  byte_ok (fm_fru_data_major_version r) /\ byte_ok (fm_fru_data_minor_version r) /\
  u32_ok (fm_fru_table_maximum_size r) /\ u32_ok (fm_fru_table_length r) /\
  u16_ok (fm_total_record_set_identifiers r) /\ u16_ok (fm_total_table_records r) /\ u32_ok (fm_checksum r).

Definition metadata_carried : Prop :=
  forall r r0, 19 <= mem_size (payload msg) -> fm_completion_code r = PLDM_SUCCESS -> metadata_ok r ->
  exists m, encode_get_fru_record_table_metadata_resp inst r (Some msg) = Ok (PLDM_SUCCESS, Some m) /\
    decode_get_fru_record_table_metadata_resp (Some m) 19 (Some r0) = Ok (PLDM_SUCCESS, Some r).

Lemma metadata_roundtrip : metadata_carried.
Proof.
  intros r r0 Hs Hcc (? & ? & ? & ? & ? & ? & ?). unfold encode_get_fru_record_table_metadata_resp.
  destruct r as [cc major minor maximum length sets records sum]. 
  cbn [fm_completion_code fm_fru_data_major_version fm_fru_data_minor_version fm_fru_table_maximum_size fm_fru_table_length
    fm_total_record_set_identifiers fm_total_table_records fm_checksum] in *. subst cc. cbn [Z.eqb negb].
  send_members. eexists. split; [reflexivity|].
  unfold decode_get_fru_record_table_metadata_resp. destruct r0. read_sent. done.
Qed.

(** An error is all there is in its response. *)
Definition metadata_error : Prop :=
  forall r r0 n, 1 <= mem_size (payload msg) -> byte_ok (fm_completion_code r) -> fm_completion_code r <> PLDM_SUCCESS ->
  exists m, encode_get_fru_record_table_metadata_resp inst r (Some msg) = Ok (PLDM_SUCCESS, Some m) /\
    decode_get_fru_record_table_metadata_resp (Some m) n (Some r0)
    = Ok (PLDM_SUCCESS, Some (FruMetadata (fm_completion_code r) (fm_fru_data_major_version r0)
        (fm_fru_data_minor_version r0) (fm_fru_table_maximum_size r0) (fm_fru_table_length r0)
        (fm_total_record_set_identifiers r0) (fm_total_table_records r0) (fm_checksum r0))).

Lemma metadata_error_roundtrip : metadata_error.
Proof.
  intros r r0 n Hs Hb Hcc. unfold encode_get_fru_record_table_metadata_resp. set (cc := fm_completion_code r) in *.
  send_members. replace (cc =? PLDM_SUCCESS) with false by lia. eexists. split; [reflexivity|].
  unfold decode_get_fru_record_table_metadata_resp. destruct r0. read_sent.
  by replace (cc =? PLDM_SUCCESS) with false by lia.
Qed.

Definition table_req_carried : Prop :=
  forall handle flag o0, 5 <= mem_size (payload msg) -> u32_ok handle -> byte_ok flag ->
  exists m, encode_get_fru_record_table_req inst handle flag (Some msg) 5 = Ok (PLDM_SUCCESS, Some m) /\
    decode_get_fru_record_table_req (Some m) 5 (Some o0) = Ok (PLDM_SUCCESS, Some (handle, flag)).

Lemma table_req_roundtrip : table_req_carried.
Proof.
  intros handle flag o0 Hs ? ?. unfold encode_get_fru_record_table_req. cbn [Z.eqb Pos.eqb negb]. send_members.
  eexists. split; [reflexivity|]. unfold decode_get_fru_record_table_req. destruct o0. cbn [Z.eqb Pos.eqb negb]. read_sent. done.
Qed.

(** The responder puts the table behind what the encoder writes. *)
Definition table_resp_carried : Prop :=
  forall next flag tbl c0 n0 f0 a d0 l0 max,
  6 + len tbl <= mem_size (payload msg) -> u32_ok next -> byte_ok flag -> bytes_ok tbl ->
  0 < len tbl <= max -> len tbl <= len d0 -> max <= SIZE_MAX ->
  exists m m', encode_get_fru_record_table_resp inst PLDM_SUCCESS next flag (Some msg) = Ok (PLDM_SUCCESS, Some m) /\
    payload_write m 6 tbl = Ok m' /\
    let result := Ok (PLDM_SUCCESS, Some (FruTableResp PLDM_SUCCESS next flag
                    (CMem a (tbl ++ drop (length tbl) d0)) (len tbl))) in
    decode_get_fru_record_table_resp_safe (Some m') (6 + len tbl) (Some (FruTableResp c0 n0 f0 (CMem a d0) l0)) max = result /\
    decode_get_fru_record_table_resp (Some m') (6 + len tbl) (Some (FruTableResp c0 n0 f0 (CMem a d0) l0)) = result.

Lemma table_resp_roundtrip : table_resp_carried.
Proof.
  intros next flag tbl c0 n0 f0 a d0 l0 max Hs ? ? Hb Hn Hd Hmax. unfold len in *.
  unfold encode_get_fru_record_table_resp. cbn [Z.eqb Pos.eqb negb]. send_members. do 2 eexists. split; [reflexivity|].
  rewrite payload_write_next by send_side. split; [reflexivity|].
  unfold decode_get_fru_record_table_resp, decode_get_fru_record_table_resp_safe.
  replace (6 + Z.of_nat (length tbl) - 6) with (Z.of_nat (length tbl)) by lia.
  read_sent. split; cmp_case; try lia; (replace (_ <? Z.of_nat (length tbl)) with false by lia);
    read_bytes tbl; by rewrite mem_write_first by lia.
Qed.

Definition option_req_ok (r : pldm_get_fru_record_by_option_req) : Prop :=
  u32_ok (bo_data_transfer_handle r) /\ u16_ok (bo_fru_table_handle r) /\ u16_ok (bo_record_set_identifier r) /\
  byte_ok (bo_record_type r) /\ byte_ok (bo_field_type r) /\ byte_ok (bo_transfer_op_flag r).

Definition option_req_carried : Prop :=
  forall r r0, 11 <= mem_size (payload msg) -> option_req_ok r ->
  exists m, encode_get_fru_record_by_option_req inst r (Some msg) 11 = Ok (PLDM_SUCCESS, Some m) /\
    decode_get_fru_record_by_option_req (Some m) 11 (Some r0) = Ok (PLDM_SUCCESS, Some r).

Lemma option_req_roundtrip : option_req_carried.
Proof.
  intros r r0 Hs (? & ? & ? & ? & ? & ?). unfold encode_get_fru_record_by_option_req. cbn [Z.eqb Pos.eqb negb]. send_members.
  eexists. split; [reflexivity|]. unfold decode_get_fru_record_by_option_req. cbn [Z.eqb Pos.eqb negb]. read_sent. by destruct r.
Qed.

(** The records of a response stay in the message. *)
Definition option_resp_carried : Prop :=
  forall next flag data a o0,
  6 + len data <= mem_size (payload msg) -> u32_ok next -> byte_ok flag -> bytes_ok data ->
  exists m f, encode_get_fru_record_by_option_resp inst PLDM_SUCCESS next flag (Some (CMem a data)) (len data) (Some msg)
      (6 + len data) = Ok (PLDM_SUCCESS, Some m) /\
    decode_get_fru_record_by_option_resp (Some m) (6 + len data) (Some o0)
    = Ok (PLDM_SUCCESS, Some (PLDM_SUCCESS, next, flag, f)) /\ points_to f data.

Lemma option_resp_roundtrip : option_resp_carried.
Proof.
  intros next flag data a o0 Hs ? ? Hd. unfold len in *. unfold encode_get_fru_record_by_option_resp.
  replace (6 + _ <? 6) with false by lia. replace (_ <? Z.of_nat _) with false by lia. send_members.
  do 2 eexists. split; [reflexivity|]. unfold decode_get_fru_record_by_option_resp. destruct o0 as [[[c0 n0] f0] v0].
  replace (6 + Z.of_nat (length data) - 6) with (Z.of_nat (length data)) by lia.
  read_sent. replace (_ <? 6) with false by lia. split; [reflexivity|]. points_here.
Qed.
End roundtrip.

(** What the encoders of FRU messages write, the decoders read: the metadata of a
    table, the requests for a table and for records by option, the table that a
    responder puts behind its header, which arrives in the requester's object with its
    length, and the records of a response by option, which the requester is pointed to.
    An error response is decoded to its completion code, whatever its length, and
    nothing else is touched. *)
Theorem fru_messages_roundtrip inst msg :
  mem_ok (payload msg) -> 0 <= inst <= 31 ->
  metadata_carried inst msg /\ metadata_error inst msg /\ table_req_carried inst msg /\
  table_resp_carried inst msg /\ option_req_carried inst msg /\ option_resp_carried inst msg.
Proof.
  intros. split_and!; [by apply metadata_roundtrip|by apply metadata_error_roundtrip|by apply table_req_roundtrip
    |by apply table_resp_roundtrip|by apply option_req_roundtrip|by apply option_resp_roundtrip].
Qed.

Lemma fru_messages_roundtrip_witness :
  let msg := Msg (MsgHdr 0 0 0 0 0 0 0) (CMem 4096 (replicate 12 9)) in
  let r := ByOptionReq 7 1 2 1 4 1 in
  exists m, encode_get_fru_record_by_option_req 5 r (Some msg) 11 = Ok (PLDM_SUCCESS, Some m) /\
    bytes (payload m) = [7; 0; 0; 0; 1; 0; 2; 0; 1; 4; 1; 9] /\
    decode_get_fru_record_by_option_req (Some m) 11 (Some (ByOptionReq 0 0 0 0 0 0)) = Ok (PLDM_SUCCESS, Some r).
Proof.
  destruct (fru_messages_roundtrip 5 (Msg (MsgHdr 0 0 0 0 0 0 0) (CMem 4096 (replicate 12 9)))
    ltac:(concrete) ltac:(lia)) as (_ & _ & _ & _ & H & _).
  destruct (H (ByOptionReq 7 1 2 1 4 1) (ByOptionReq 0 0 0 0 0 0)) as (m & E & D); [by vm_compute|by vm_compute|].
  exists m. split; [exact E|]. split; [|exact D]. vm_compute in E. injection E as <-. reflexivity.
Defined.
