(* ===== verification/Package.v ===== *)
(** * Firmware update packages (src/dsp/firmware_update.c, include/libpldm/firmware_update.h)

    The parser of a package file: the header with its checksums, then the firmware
    device records, the downstream device records and the component images, each
    through an iterator that remembers where the last record ended.  Nothing is
    copied: what the records hold are pointers into the package. *)

From S2P Require Import Prelude Msgbuf Layout Edac Base FwUpdate.

(** ** Constants *)

Abbreviation FR01H := 1 (only parsing).
Abbreviation FR02H := 2 (only parsing).
Abbreviation FR03H := 3 (only parsing).
Abbreviation FR04H := 4 (only parsing).

Definition PLDM_PACKAGE_HEADER_IDENTIFIER_V1_0 : list Z :=
  [0xF0; 0x18; 0x87; 0x8C; 0xCB; 0x7D; 0x49; 0x43; 0x98; 0x00; 0xA0; 0x2F; 0x05; 0x9A; 0xCA; 0x02].
Definition PLDM_PACKAGE_HEADER_IDENTIFIER_V1_1 : list Z :=
  [0x12; 0x44; 0xd2; 0x64; 0x8d; 0x7d; 0x47; 0x18; 0xa0; 0x30; 0xfc; 0x8a; 0x56; 0x58; 0x7d; 0x5a].
Definition PLDM_PACKAGE_HEADER_IDENTIFIER_V1_2 : list Z :=
  [0x31; 0x19; 0xce; 0x2f; 0xe8; 0x0a; 0x4a; 0x99; 0xaf; 0x6d; 0x46; 0xf8; 0xb1; 0x21; 0xf6; 0xbf].
Definition PLDM_PACKAGE_HEADER_IDENTIFIER_V1_3 : list Z :=
  [0x7b; 0x29; 0x1c; 0x99; 0x6d; 0xb6; 0x42; 0x08; 0x80; 0x1b; 0x02; 0x02; 0x6e; 0x46; 0x3c; 0x78].

Abbreviation PLDM_FWUP_PACKAGE_HEADER_FIXED_SIZE := 36 (only parsing).
Abbreviation PLDM_FWUP_FIRMWARE_DEVICE_ID_RECORD_MIN_SIZE := 11 (only parsing).
Abbreviation PLDM_FWUP_DOWNSTREAM_DEVICE_ID_RECORD_MIN_SIZE := 11 (only parsing).
Abbreviation PLDM_FWUP_COMPONENT_IMAGE_INFORMATION_MIN_SIZE := 22 (only parsing).
Abbreviation PLDM_FWUP_DEVICE_DESCRIPTOR_MIN_LEN := 5 (only parsing).
Abbreviation PLDM_TIMESTAMP104_SIZE := 13 (only parsing).

(** ** Data *)

Record pldm_package_format_pin := FormatPin {
  pin_magic : Z; pin_version : Z; pin_identifier : list Z; pin_revision : Z
}.

Inductive pldm_package_parse :=
  | PLDM_PACKAGE_PARSE_INIT
  | PLDM_PACKAGE_PARSE_COMPLETE
  | PLDM_PACKAGE_PARSE_HEADER
  | PLDM_PACKAGE_PARSE_FIRMWARE_DEVICES
  | PLDM_PACKAGE_PARSE_DOWNSTREAM_DEVICES
  | PLDM_PACKAGE_PARSE_COMPONENT_IMAGE_INFORMATION.

#[export] Instance pldm_package_parse_eq_dec : EqDecision pldm_package_parse.
Proof. solve_decision. Defined.

Record pldm__package_header_information := PkgHdr {
  package_header_identifier : list Z;
  package_header_format_revision : Z;
  package_release_date_time : list Z;
  component_bitmap_bit_length : Z;
  package_version_string_type : Z;
  package_version_string : variable_field
}.

Record pldm_package_firmware_device_id_record := FdRec {
  fd_descriptor_count : Z;
  device_update_option_flags : Z;
  component_image_set_version_string_type : Z;
  component_image_set_version_string : variable_field;
  fd_applicable_components : variable_field;
  fd_record_descriptors : variable_field;
  firmware_device_package_data : variable_field;
  fd_reference_manifest_data : variable_field
}.

Record pldm_package_downstream_device_id_record := DdRec {
  dd_descriptor_count : Z;
  update_option_flags : Z;
  self_contained_activation_min_version_string_type : Z;
  self_contained_activation_min_version_string : variable_field;
  self_contained_activation_min_version_comparison_stamp : Z;
  dd_applicable_components : variable_field;
  dd_record_descriptors : variable_field;
  package_data : variable_field;
  dd_reference_manifest_data : variable_field
}.

Record pldm_package_component_image_information := CompInfo {
  component_classification : Z;
  component_identifier : Z;
  component_comparison_stamp : Z;
  component_options : Z;
  requested_component_activation_method : Z;
  component_image : variable_field;
  component_version_string_type : Z;
  component_version_string : variable_field;
  component_opaque_data : variable_field
}.

(** struct pldm_package with its iterator, struct pldm_package_iter. *)
Record pldm_package := Pkg {
  pkg_pin : option pldm_package_format_pin;
  pkg_hdr : option pldm__package_header_information;
  pkg_state : pldm_package_parse;
  pkg_flags : Z;
  pkg_package : variable_field;
  pkg_areas : variable_field;
  iter_field : variable_field;
  iter_entries : Z
}.

(** The zero-initialised parser state callers start with. *)
Definition pkg_zero : pldm_package :=
  Pkg None None PLDM_PACKAGE_PARSE_INIT 0 (VarField None 0) (VarField None 0) (VarField None 0) 0.

Definition set_state (s : pldm_package_parse) (p : pldm_package) : pldm_package :=
  Pkg (pkg_pin p) (pkg_hdr p) s (pkg_flags p) (pkg_package p) (pkg_areas p) (iter_field p) (iter_entries p).
Definition set_areas (f : variable_field) (p : pldm_package) : pldm_package :=
  Pkg (pkg_pin p) (pkg_hdr p) (pkg_state p) (pkg_flags p) (pkg_package p) f (iter_field p) (iter_entries p).
Definition set_iter (f : variable_field) (n : Z) (p : pldm_package) : pldm_package :=
  Pkg (pkg_pin p) (pkg_hdr p) (pkg_state p) (pkg_flags p) (pkg_package p) (pkg_areas p) f n.
Definition set_iter_field (f : variable_field) (p : pldm_package) : pldm_package :=
  set_iter f (iter_entries p) p.

(** *** Object sizes, as LP64 lays the structs out (LIBPLDM_SIZEAT) *)

Definition SIZEAT_package_iter : Z := 80.
Definition SIZEAT_header_package_version_string : Z := 56.
Definition SIZEAT_fd_firmware_device_package_data : Z := 80.
Definition SIZEAT_fd_reference_manifest_data : Z := 96.
Definition SIZEAT_descriptor_data : Z := 16.
Definition SIZEAT_dd_package_data : Z := 88.
Definition SIZEAT_dd_reference_manifest_data : Z := 104.
Definition SIZEAT_component_version_string : Z := 56.
Definition SIZEAT_component_opaque_data : Z := 72.

(** revision_info[revision]: the identifier and the magic number. *)
Definition revision_info (revision : Z) : option (list Z * Z) :=
  match revision with
  | 0 => Some (replicate 16 0, 0)
  | 1 => Some (PLDM_PACKAGE_HEADER_IDENTIFIER_V1_0,
               SIZEAT_package_iter + SIZEAT_header_package_version_string +
               SIZEAT_fd_firmware_device_package_data + SIZEAT_descriptor_data +
               SIZEAT_component_version_string)
  | 2 => Some (PLDM_PACKAGE_HEADER_IDENTIFIER_V1_1,
               SIZEAT_package_iter + SIZEAT_header_package_version_string +
               SIZEAT_fd_firmware_device_package_data + SIZEAT_descriptor_data +
               SIZEAT_dd_package_data + SIZEAT_component_version_string)
  | 3 => Some (PLDM_PACKAGE_HEADER_IDENTIFIER_V1_2,
               SIZEAT_package_iter + SIZEAT_header_package_version_string +
               SIZEAT_fd_firmware_device_package_data + SIZEAT_descriptor_data +
               SIZEAT_dd_package_data + SIZEAT_component_opaque_data)
  | 4 => Some (PLDM_PACKAGE_HEADER_IDENTIFIER_V1_3,
               SIZEAT_package_iter + SIZEAT_header_package_version_string +
               SIZEAT_fd_reference_manifest_data + SIZEAT_descriptor_data +
               SIZEAT_dd_reference_manifest_data + SIZEAT_component_opaque_data)
  | _ => None
  end.

(** DEFINE_PLDM_PACKAGE_FORMAT_PIN_FR01H .. FR04H. *)
Definition DEFINE_PLDM_PACKAGE_FORMAT_PIN (revision : Z) : pldm_package_format_pin :=
  match revision_info revision with
  | Some (identifier, magic) => FormatPin magic 0 identifier revision
  | None => FormatPin 0 0 [] revision
  end.

(** ** Pieces the decoders share *)

(** Discard the buffer and return [rc]. *)
Definition stop {A} (rc : Z) (a : A) : B (Z * A) :=
  rc ← pldm_msgbuf_ro_discard rc; mret (rc, a).

Definition set_length (n : Z) (f : variable_field) : variable_field := VarField (vf_ptr f) n.
Definition set_ptr (p : ptr) (f : variable_field) : variable_field := VarField p (vf_length f).

(** Spans whose results go to the members of a field. *)
Definition span_required_to (n : Z) (f : variable_field) : B (Z * variable_field) :=
  '(rc, p) ← pldm_msgbuf_ro_span_required n (Some (vf_ptr f));
  mret (rc, match p with Some p => set_ptr p f | None => f end).

Definition span_until_to (trailer : Z) (f : variable_field) : B (Z * variable_field) :=
  '(rc, p, n) ← pldm_msgbuf_ro_span_until trailer (Some (vf_ptr f)) (Some (vf_length f));
  mret (rc, match p, n with Some p, Some n => VarField p n | _, _ => f end).

Definition span_remaining_to (f : variable_field) : B (Z * variable_field) :=
  '(rc, p, n) ← pldm_msgbuf_ro_span_remaining (vf_ptr f) (vf_length f);
  mret (rc, VarField p n).

(** [body] with a buffer declared for [m]; [m] is only read. *)
Definition ro_scope {A} (m : cmem) (body : B A) : outcome A :=
  '(a, _) ← msgbuf_scope m body; mret a.

(** ** The header *)

(** What the buffer yields for the integrity checks. *)
Record header_sums := Sums {
  package_header_checksum : Z;
  package_header_payload_size : Z;
  package_payload_checksum : Z;
  package_payload : variable_field
}.

Definition sums_zero : header_sums := Sums 0 0 0 (VarField None 0).

Definition known_identifier (id : list Z) : bool :=
  bool_decide (id = PLDM_PACKAGE_HEADER_IDENTIFIER_V1_0) ||
  bool_decide (id = PLDM_PACKAGE_HEADER_IDENTIFIER_V1_1) ||
  bool_decide (id = PLDM_PACKAGE_HEADER_IDENTIFIER_V1_2) ||
  bool_decide (id = PLDM_PACKAGE_HEADER_IDENTIFIER_V1_3).

Definition identifier_of (revision : Z) : option (list Z) := fst <$> revision_info revision.

(** The checks on the pin, before the package is looked at. *)
Definition pin_refused (pin : pldm_package_format_pin) : option Z :=
  if 0 <? pin_version pin then Some (- ENOTSUP)
  else if pin_revision pin =? 0 then Some (- EINVAL)
  else if FR04H <? pin_revision pin then Some (- ENOTSUP)
  else
    match revision_info (pin_revision pin) with
    | None => None
    | Some (identifier, magic) =>
        if negb (bool_decide (pin_identifier pin = identifier)) then Some (- ENOTSUP)
        else if negb (pin_magic pin =? magic) then Some (- EINVAL)
        else None
    end.

(** The end of the header, from the version string on: the areas, the checksums and,
    from revision 4 on, the payload. *)
Definition header_tail (hdr : pldm__package_header_information) (package_header_size : Z)
    (areas : variable_field)
  : B (Z * (pldm__package_header_information * variable_field * header_sums)) :=
  let checksums := if FR04H <=? package_header_format_revision hdr then 2 else 1 in
  '(_, f) ← span_required_to (vf_length (package_version_string hdr)) (package_version_string hdr);
  let hdr := PkgHdr (package_header_identifier hdr) (package_header_format_revision hdr)
               (package_release_date_time hdr) (component_bitmap_bit_length hdr)
               (package_version_string_type hdr) f in
  if package_header_size <? PLDM_FWUP_PACKAGE_HEADER_FIXED_SIZE + 3 + checksums * 4 then
    stop (- EOVERFLOW) (hdr, areas, sums_zero)
  else
    let payload_size := package_header_size - checksums * 4 in
    let variable_size := payload_size - PLDM_FWUP_PACKAGE_HEADER_FIXED_SIZE in
    if variable_size <? vf_length f then stop (- EOVERFLOW) (hdr, areas, sums_zero)
    else
      let areas_size := variable_size - vf_length f in
      '(rc, areas) ← span_required_to areas_size areas;
      if_err rc return_ stop rc (hdr, areas, sums_zero);;
      let areas := set_length areas_size areas in
      '(_, header_checksum) ← pldm_msgbuf_extract KU32 0;
      if FR04H <=? package_header_format_revision hdr then
        '(_, payload_checksum) ← pldm_msgbuf_extract KU32 0;
        '(rc, payload) ← span_remaining_to (VarField None 0);
        if_err rc return_ stop rc (hdr, areas, sums_zero);;
        rc ← pldm_msgbuf_ro_complete;
        mret (rc, (hdr, areas, Sums header_checksum payload_size payload_checksum payload))
      else
        rc ← pldm_msgbuf_ro_complete;
        mret (rc, (hdr, areas, Sums header_checksum payload_size 0 (VarField None 0))).

(** The header's fields up to the version string's length. *)
Definition header_fields (pin : pldm_package_format_pin) (hdr : pldm__package_header_information)
    (areas : variable_field)
  : B (Z * (pldm__package_header_information * variable_field * header_sums)) :=
  let '(PkgHdr id rev date bits vtype vstr) := hdr in
  '(rc, id) ← pldm_msgbuf_extract_array_uint8 16 id 16;
  if_err rc return_ stop rc (PkgHdr id rev date bits vtype vstr, areas, sums_zero);;
  if negb (known_identifier id) then
    stop (- ENOTSUP) (PkgHdr id rev date bits vtype vstr, areas, sums_zero)
  else
  '(rc, rev) ← pldm_msgbuf_extract KU8 rev;
  if_err rc return_ stop rc (PkgHdr id rev date bits vtype vstr, areas, sums_zero);;
  if rev <? FR01H then stop (- EPROTO) (PkgHdr id rev date bits vtype vstr, areas, sums_zero)
  else if pin_revision pin <? rev then
    stop (- ENOTSUP) (PkgHdr id rev date bits vtype vstr, areas, sums_zero)
  else if negb (bool_decide (identifier_of rev = Some id)) then
    stop (- ENOTSUP) (PkgHdr id rev date bits vtype vstr, areas, sums_zero)
  else
  '(rc, package_header_size) ← pldm_msgbuf_extract KU16 0;
  if_err rc return_ stop rc (PkgHdr id rev date bits vtype vstr, areas, sums_zero);;
  '(rc, date) ← pldm_msgbuf_extract_array_uint8 PLDM_TIMESTAMP104_SIZE date PLDM_TIMESTAMP104_SIZE;
  if_err rc return_ stop rc (PkgHdr id rev date bits vtype vstr, areas, sums_zero);;
  '(rc, bits) ← pldm_msgbuf_extract KU16 bits;
  if_err rc return_ stop rc (PkgHdr id rev date bits vtype vstr, areas, sums_zero);;
  if negb (Z.land bits 7 =? 0) then
    stop (- EPROTO) (PkgHdr id rev date bits vtype vstr, areas, sums_zero)
  else
  '(rc, vtype) ← pldm_msgbuf_extract KU8 vtype;
  if_err rc return_ stop rc (PkgHdr id rev date bits vtype vstr, areas, sums_zero);;
  if negb (is_string_type_valid vtype) then
    stop (- EPROTO) (PkgHdr id rev date bits vtype vstr, areas, sums_zero)
  else
  '(rc, n) ← pldm__msgbuf_extract_uint8_to_size (vf_length vstr);
  let hdr := PkgHdr id rev date bits vtype (set_length n vstr) in
  if_err rc return_ stop rc (hdr, areas, sums_zero);;
  header_tail hdr package_header_size areas.

Section nvidia.
(** Whether the library is built with the NVIDIA extensions (LIBPLDM_OEM_NVIDIA),
    which leave the payload checksum to the caller. *)
Context (nvidia : bool).

Definition decode_pldm_package_header_info_errno (data : cmem) (length : Z)
    (pin : pldm_package_format_pin) (hdr : pldm__package_header_information) (pkg : pldm_package)
  : outcome (Z * pldm__package_header_information * pldm_package) :=
  if negb (bool_decide (pkg_state pkg = PLDM_PACKAGE_PARSE_INIT)) then Ok (- EINVAL, hdr, pkg)
  else
    match pin_refused pin with
    | Some e => Ok (e, hdr, pkg)
    | None =>
        '(rc, (hdr, areas, sums)) ← ro_scope data (
           rc ← pldm_msgbuf_ro_init_errno PLDM_FWUP_PACKAGE_HEADER_FIXED_SIZE data length;
           if_err rc return_ mret (rc, (hdr, pkg_areas pkg, sums_zero));;
           header_fields pin hdr (pkg_areas pkg));
        let pkg := set_areas areas pkg in
        if_err rc return_ Ok (rc, hdr, pkg);;
        rc ← pldm_edac_crc32_validate (package_header_checksum sums) (Some data)
               (package_header_payload_size sums);
        if_err rc return_ Ok (rc, hdr, pkg);;
        rc ← (if negb nvidia && (FR04H <=? package_header_format_revision hdr)
              then pldm_edac_crc32_validate (package_payload_checksum sums)
                     (vf_ptr (package_payload sums)) (vf_length (package_payload sums))
              else mret 0);
        if_err rc return_ Ok (rc, hdr, pkg);;
        mret (0, hdr, Pkg (Some pin) (Some hdr) PLDM_PACKAGE_PARSE_HEADER 0
                        (VarField (Some data) length) (pkg_areas pkg) (iter_field pkg) (iter_entries pkg))
    end.

Definition decode_pldm_firmware_update_package (data : option cmem) (length : Z)
    (pin : option pldm_package_format_pin) (hdr : option pldm__package_header_information)
    (pkg : option pldm_package) (flags : Z)
  : outcome (Z * option pldm__package_header_information * option pldm_package) :=
  match data, pin, hdr, pkg with
  | Some data, Some pin, Some h, Some p =>
      if negb (flags =? 0) then Ok (- EINVAL, hdr, pkg)
      else
        '(rc, h, p) ← decode_pldm_package_header_info_errno data length pin h p;
        mret (rc, Some h, Some p)
  | _, _, _, _ => Ok (- EINVAL, hdr, pkg)
  end.
End nvidia.

(** ** Records with their length in front *)

(** Initialise the buffer on the record whose 16-bit length starts at [data]; [tail]
    becomes what follows it. *)
Definition pldm_msgbuf_init_dynamic_uint16 (req : Z) (data : cmem) (len : Z) (tail : variable_field)
  : B (Z * variable_field) :=
  rc ← pldm_msgbuf_ro_init_errno req data len;
  if_err rc return_ mret (rc, tail);;
  '(rc, dyn_length) ← pldm__msgbuf_extract_uint16_to_size 0;
  if_err rc return_ stop rc tail;;
  rc ← pldm_msgbuf_ro_complete;
  if_err rc return_ mret (rc, tail);;
  rc ← pldm_msgbuf_ro_init_errno req data len;
  if_err rc return_ mret (rc, tail);;
  '(rc, dyn_start) ← pldm_msgbuf_ro_span_required dyn_length (Some None);
  if_err rc return_ stop rc tail;;
  '(rc, tail) ← span_remaining_to tail;
  if_err rc return_ stop rc tail;;
  rc ← pldm_msgbuf_ro_complete;
  if_err rc return_ mret (rc, tail);;
  match dyn_start with
  | Some (Some dyn_start) =>
      rc ← pldm_msgbuf_ro_init_errno req dyn_start dyn_length;
      mret (rc, tail)
  | _ => lift (Fault FMemory)
  end.

Abbreviation fdrec := pldm_package_firmware_device_id_record (only parsing).

(** The record's variable parts: bitmap, version string, descriptors, package data,
    reference manifest. *)
Definition fd_record_tail (hdr : pldm__package_header_information) (field : variable_field) (rec : fdrec)
  : B (Z * (variable_field * fdrec)) :=
  let '(FdRec count flags vtype vstr bitmap descs pdata manifest) := rec in
  let bitmap_size := component_bitmap_bit_length hdr / 8 in
  _ ← lift (c_assert (Z.land (component_bitmap_bit_length hdr) 7 =? 0));
  '(rc, bitmap) ← span_required_to bitmap_size bitmap;
  if_err rc return_ stop rc (field, FdRec count flags vtype vstr bitmap descs pdata manifest);;
  let bitmap := set_length bitmap_size bitmap in
  '(_, vstr) ← span_required_to (vf_length vstr) vstr;
  '(_, descs) ← span_until_to (vf_length pdata + vf_length manifest) descs;
  '(_, pdata) ← span_required_to (vf_length pdata) pdata;
  let pdata := if vf_length pdata =? 0 then set_ptr None pdata else pdata in
  manifest ← (if FR04H <=? package_header_format_revision hdr then
                '(_, manifest) ← span_required_to (vf_length manifest) manifest; mret manifest
              else
                _ ← lift (c_assert (vf_length manifest =? 0)); mret (set_ptr None manifest));
  rc ← pldm_msgbuf_ro_complete_consumed;
  mret (rc, (field, FdRec count flags vtype vstr bitmap descs pdata manifest)).

(** The record's fixed fields; [field] is what is left to parse. *)
Definition fd_record_fields (hdr : pldm__package_header_information) (field : variable_field) (rec : fdrec)
  : B (Z * (variable_field * fdrec)) :=
  let '(FdRec count flags vtype vstr bitmap descs pdata manifest) := rec in
  '(_, _) ← pldm_msgbuf_extract KU16 0;
  '(_, count) ← pldm_msgbuf_extract KU8 count;
  '(_, flags) ← pldm_msgbuf_extract KU32 flags;
  '(rc, vtype) ← pldm_msgbuf_extract KU8 vtype;
  if_err rc return_ stop rc (field, FdRec count flags vtype vstr bitmap descs pdata manifest);;
  if negb (is_string_type_valid vtype) then
    stop (- EPROTO) (field, FdRec count flags vtype vstr bitmap descs pdata manifest)
  else
  '(rc, n) ← pldm__msgbuf_extract_uint8_to_size (vf_length vstr);
  let vstr := set_length n vstr in
  if_err rc return_ stop rc (field, FdRec count flags vtype vstr bitmap descs pdata manifest);;
  if vf_length vstr =? 0 then
    stop (- EPROTO) (field, FdRec count flags vtype vstr bitmap descs pdata manifest)
  else
  '(rc, n) ← pldm__msgbuf_extract_uint16_to_size (vf_length pdata);
  let pdata := set_length n pdata in
  if_err rc return_ stop rc (field, FdRec count flags vtype vstr bitmap descs pdata manifest);;
  '(rc, n) ← (if FR04H <=? package_header_format_revision hdr
              then pldm__msgbuf_extract_uint32_to_size (vf_length manifest)
              else mret (0, 0));
  let manifest := set_length n manifest in
  if_err rc return_ stop rc (field, FdRec count flags vtype vstr bitmap descs pdata manifest);;
  fd_record_tail hdr field (FdRec count flags vtype vstr bitmap descs pdata manifest).

Definition decode_pldm_package_firmware_device_id_record_errno
    (hdr : option pldm__package_header_information) (field : option variable_field) (rec : option fdrec)
  : outcome (Z * option variable_field * option fdrec) :=
  match hdr, field, rec with
  | Some h, Some f, Some r =>
      match vf_ptr f with
      | None => Ok (- EINVAL, field, rec)
      | Some data =>
          '(rc, (f, r)) ← ro_scope data (
             '(rc, f) ← pldm_msgbuf_init_dynamic_uint16 PLDM_FWUP_FIRMWARE_DEVICE_ID_RECORD_MIN_SIZE
                          data (vf_length f) f;
             if_err rc return_ mret (rc, (f, r));;
             fd_record_fields h f r);
          mret (rc, Some f, Some r)
      end
  | _, _, _ => Ok (- EINVAL, field, rec)
  end.

Abbreviation ddrec := pldm_package_downstream_device_id_record (only parsing).

Definition dd_record_tail (hdr : pldm__package_header_information) (field : variable_field) (rec : ddrec)
  : B (Z * (variable_field * ddrec)) :=
  let '(DdRec count flags vtype vstr stamp bitmap descs pdata manifest) := rec in
  let bitmap_size := component_bitmap_bit_length hdr / 8 in
  _ ← lift (c_assert (Z.land (component_bitmap_bit_length hdr) 7 =? 0));
  '(rc, bitmap) ← span_required_to bitmap_size bitmap;
  if_err rc return_ stop rc (field, DdRec count flags vtype vstr stamp bitmap descs pdata manifest);;
  let bitmap := set_length bitmap_size bitmap in
  '(_, vstr) ← span_required_to (vf_length vstr) vstr;
  '(_, stamp) ← (if Z.testbit flags 0 then pldm_msgbuf_extract KU32 stamp else mret (0, 0));
  '(_, descs) ← span_until_to (vf_length pdata + vf_length manifest) descs;
  '(_, pdata) ← span_required_to (vf_length pdata) pdata;
  manifest ← (if FR04H <=? package_header_format_revision hdr then
                '(_, manifest) ← span_required_to (vf_length manifest) manifest; mret manifest
              else
                _ ← lift (c_assert (vf_length manifest =? 0)); mret (set_ptr None manifest));
  rc ← pldm_msgbuf_ro_complete_consumed;
  mret (rc, (field, DdRec count flags vtype vstr stamp bitmap descs pdata manifest)).

Definition dd_record_fields (hdr : pldm__package_header_information) (field : variable_field) (rec : ddrec)
  : B (Z * (variable_field * ddrec)) :=
  let '(DdRec count flags vtype vstr stamp bitmap descs pdata manifest) := rec in
  '(_, _) ← pldm_msgbuf_extract KU16 0;
  '(_, count) ← pldm_msgbuf_extract KU8 count;
  '(rc, flags) ← pldm_msgbuf_extract KU32 flags;
  if_err rc return_ stop rc (field, DdRec count flags vtype vstr stamp bitmap descs pdata manifest);;
  '(rc, vtype) ← pldm_msgbuf_extract KU8 vtype;
  if_err rc return_ stop rc (field, DdRec count flags vtype vstr stamp bitmap descs pdata manifest);;
  if negb (is_string_type_valid vtype) then
    stop (- EPROTO) (field, DdRec count flags vtype vstr stamp bitmap descs pdata manifest)
  else
  '(rc, n) ← pldm__msgbuf_extract_uint8_to_size (vf_length vstr);
  let vstr := set_length n vstr in
  if_err rc return_ stop rc (field, DdRec count flags vtype vstr stamp bitmap descs pdata manifest);;
  '(rc, n) ← pldm__msgbuf_extract_uint16_to_size (vf_length pdata);
  let pdata := set_length n pdata in
  if_err rc return_ stop rc (field, DdRec count flags vtype vstr stamp bitmap descs pdata manifest);;
  '(_, n) ← (if FR04H <=? package_header_format_revision hdr
             then pldm__msgbuf_extract_uint32_to_size (vf_length manifest)
             else mret (0, 0));
  dd_record_tail hdr field (DdRec count flags vtype vstr stamp bitmap descs pdata (set_length n manifest)).

(** ** The iterators *)

(** The assertions at the head of the three iter_init functions. *)
Definition revisions_hold (pin : pldm_package_format_pin) (hdr : pldm__package_header_information)
  : outcome unit :=
  _ ← c_assert (FR01H <=? pin_revision pin);
  _ ← c_assert (pin_revision pin <=? FR04H);
  _ ← c_assert (FR01H <=? package_header_format_revision hdr);
  c_assert (package_header_format_revision hdr <=? pin_revision pin).

(** Read the number of entries with [extract] and leave the rest in the field; the
    result of the extraction is looked at if [checked]. *)
Definition iter_count (extract : Z -> B (Z * Z)) (checked : bool) (pkg : pldm_package)
  : outcome (Z * pldm_package) :=
  match vf_ptr (iter_field pkg) with
  | None => Fault FMemory
  | Some data =>
      ro_scope data (
        rc ← pldm_msgbuf_ro_init_errno 1 data (vf_length (iter_field pkg));
        if_err rc return_ mret (rc, pkg);;
        '(rc, entries) ← extract (iter_entries pkg);
        if checked && negb (rc =? 0) then stop rc pkg
        else
          '(_, f) ← span_remaining_to (iter_field pkg);
          rc ← pldm_msgbuf_ro_complete;
          mret (rc, set_iter f entries pkg))
  end.

Definition pldm_package_firmware_device_id_record_iter_init (pkg : option pldm_package)
  : outcome (Z * option pldm_package) :=
  match pkg with
  | Some p =>
      match pkg_pin p, pkg_hdr p with
      | Some pin, Some hdr =>
          _ ← revisions_hold pin hdr;
          if negb (bool_decide (pkg_state p = PLDM_PACKAGE_PARSE_HEADER)) then Ok (- EPROTO, pkg)
          else
            match vf_ptr (pkg_areas p) with
            | None => Ok (- EINVAL, pkg)
            | Some _ =>
                let p := set_iter_field (pkg_areas p) (set_state PLDM_PACKAGE_PARSE_FIRMWARE_DEVICES p) in
                '(rc, p) ← iter_count pldm__msgbuf_extract_uint8_to_size false p;
                mret (rc, Some p)
            end
      | _, _ => Ok (- EINVAL, pkg)
      end
  | None => Ok (- EINVAL, pkg)
  end.

Definition decode_pldm_package_firmware_device_id_record_from_iter (pkg : option pldm_package)
    (rec : option fdrec) : outcome (Z * option pldm_package * option fdrec) :=
  match pkg with
  | None => Ok (- EINVAL, pkg, rec)
  | Some p =>
      if negb (bool_decide (pkg_state p = PLDM_PACKAGE_PARSE_FIRMWARE_DEVICES)) then Ok (- EPROTO, pkg, rec)
      else
        '(rc, f, rec) ← decode_pldm_package_firmware_device_id_record_errno (pkg_hdr p)
                          (Some (iter_field p)) rec;
        mret (rc, Some (set_iter_field (default (iter_field p) f) p), rec)
  end.

Definition pldm_package_firmware_device_id_record_iter_end (pkg : pldm_package) : outcome bool :=
  _ ← c_assert (bool_decide (pkg_state pkg = PLDM_PACKAGE_PARSE_FIRMWARE_DEVICES));
  mret (iter_entries pkg =? 0).

(** [entries] is a size_t. *)
Definition pldm_package_firmware_device_id_record_iter_next (pkg : pldm_package)
  : outcome (bool * pldm_package) :=
  _ ← c_assert (bool_decide (pkg_state pkg = PLDM_PACKAGE_PARSE_FIRMWARE_DEVICES));
  if iter_entries pkg =? 0 then mret (false, pkg)
  else mret (true, set_iter (iter_field pkg) (u64 (iter_entries pkg - 1)) pkg).

Definition pldm_package_downstream_device_id_record_iter_init (pkg : option pldm_package)
  : outcome (Z * option pldm_package) :=
  match pkg with
  | Some p =>
      match pkg_pin p, pkg_hdr p with
      | Some pin, Some hdr =>
          _ ← revisions_hold pin hdr;
          if negb (bool_decide (pkg_state p = PLDM_PACKAGE_PARSE_FIRMWARE_DEVICES)) then Ok (- EPROTO, pkg)
          else if pin_revision pin =? FR01H then Ok (- EPROTO, pkg)
          else
            match vf_ptr (iter_field p) with
            | None => Ok (- EINVAL, pkg)
            | Some _ =>
                let p := set_state PLDM_PACKAGE_PARSE_DOWNSTREAM_DEVICES p in
                if package_header_format_revision hdr =? FR01H then
                  Ok (0, Some (set_iter (iter_field p) 0 p))
                else
                  '(rc, p) ← iter_count pldm__msgbuf_extract_uint8_to_size false p;
                  mret (rc, Some p)
            end
      | _, _ => Ok (- EINVAL, pkg)
      end
  | None => Ok (- EINVAL, pkg)
  end.

Definition decode_pldm_package_downstream_device_id_record_from_iter (pkg : option pldm_package)
    (rec : option ddrec) : outcome (Z * option pldm_package * option ddrec) :=
  match pkg, rec with
  | Some p, Some r =>
      match pkg_hdr p with
      | None => Ok (- EINVAL, pkg, rec)
      | Some hdr =>
          if negb (bool_decide (pkg_state p = PLDM_PACKAGE_PARSE_DOWNSTREAM_DEVICES))
          then Ok (- EPROTO, pkg, rec)
          else
            _ ← c_assert (FR01H <? package_header_format_revision hdr);
            match vf_ptr (iter_field p) with
            | None => Ok (- EINVAL, pkg, rec)
            | Some data =>
                '(rc, (f, r)) ← ro_scope data (
                   '(rc, f) ← pldm_msgbuf_init_dynamic_uint16 PLDM_FWUP_DOWNSTREAM_DEVICE_ID_RECORD_MIN_SIZE
                                data (vf_length (iter_field p)) (iter_field p);
                   if_err rc return_ stop rc (f, r);;
                   dd_record_fields hdr f r);
                mret (rc, Some (set_iter_field f p), Some r)
            end
      end
  | _, _ => Ok (- EINVAL, pkg, rec)
  end.

Definition pldm_package_downstream_device_id_record_iter_end (pkg : pldm_package) : outcome bool :=
  _ ← c_assert (bool_decide (pkg_state pkg = PLDM_PACKAGE_PARSE_DOWNSTREAM_DEVICES));
  mret (iter_entries pkg =? 0).

Definition pldm_package_downstream_device_id_record_iter_next (pkg : pldm_package)
  : outcome (bool * pldm_package) :=
  _ ← c_assert (bool_decide (pkg_state pkg = PLDM_PACKAGE_PARSE_DOWNSTREAM_DEVICES));
  if iter_entries pkg =? 0 then mret (false, pkg)
  else mret (true, set_iter (iter_field pkg) (u64 (iter_entries pkg - 1)) pkg).

Definition pldm_package_component_image_information_iter_init (pkg : option pldm_package)
  : outcome (Z * option pldm_package) :=
  match pkg with
  | Some p =>
      match pkg_pin p, pkg_hdr p with
      | Some pin, Some hdr =>
          _ ← revisions_hold pin hdr;
          let start :=
            match vf_ptr (iter_field p) with
            | None => Ok (- EINVAL, pkg)
            | Some _ =>
                let p := set_state PLDM_PACKAGE_PARSE_COMPONENT_IMAGE_INFORMATION p in
                '(rc, p) ← iter_count (pldm_msgbuf_extract KU16) true p;
                mret (rc, Some p)
            end in
          match pkg_state p with
          | PLDM_PACKAGE_PARSE_FIRMWARE_DEVICES =>
              if negb (pin_revision pin =? FR01H)
                 || negb (package_header_format_revision hdr =? pin_revision pin)
              then Ok (- EPROTO, pkg) else start
          | PLDM_PACKAGE_PARSE_DOWNSTREAM_DEVICES =>
              _ ← c_assert (negb (pin_revision pin =? FR01H)); start
          | _ => Ok (- EPROTO, pkg)
          end
      | _, _ => Ok (- EINVAL, pkg)
      end
  | None => Ok (- EINVAL, pkg)
  end.

Abbreviation compinfo := pldm_package_component_image_information (only parsing).

(** The component's fields and what follows it; with them go the location and size of
    its image. *)
Definition component_fields (hdr : pldm__package_header_information) (field : variable_field)
    (info : compinfo) : B (Z * (variable_field * compinfo * Z * Z)) :=
  let '(CompInfo class id stamp options method image vtype vstr opaque) := info in
  '(_, class) ← pldm_msgbuf_extract KU16 class;
  '(_, id) ← pldm_msgbuf_extract KU16 id;
  '(_, stamp) ← pldm_msgbuf_extract KU32 stamp;
  '(_, options) ← pldm_msgbuf_extract KU16 options;
  '(_, method) ← pldm_msgbuf_extract KU16 method;
  '(_, location) ← pldm_msgbuf_extract KU32 0;
  '(_, size) ← pldm_msgbuf_extract KU32 0;
  '(rc, vtype) ← pldm_msgbuf_extract KU8 vtype;
  if_err rc return_
    stop rc (field, CompInfo class id stamp options method image vtype vstr opaque, location, size);;
  if negb (is_string_type_valid vtype) then
    stop (- EPROTO) (field, CompInfo class id stamp options method image vtype vstr opaque, location, size)
  else
  '(rc, n) ← pldm__msgbuf_extract_uint8_to_size (vf_length vstr);
  let vstr := set_length n vstr in
  if_err rc return_
    stop rc (field, CompInfo class id stamp options method image vtype vstr opaque, location, size);;
  '(_, vstr) ← span_required_to (vf_length vstr) vstr;
  '(rc, opaque) ← (if FR03H <=? package_header_format_revision hdr then
                     '(rc, n) ← pldm__msgbuf_extract_uint32_to_size (vf_length opaque);
                     let opaque := set_length n opaque in
                     if_err rc return_ mret (rc, opaque);;
                     '(_, opaque) ← span_required_to (vf_length opaque) opaque;
                     mret (0, opaque)
                   else mret (0, set_length 0 opaque));
  if_err rc return_
    stop rc (field, CompInfo class id stamp options method image vtype vstr opaque, location, size);;
  let opaque := if vf_length opaque =? 0 then set_ptr None opaque else opaque in
  '(_, field) ← span_remaining_to field;
  rc ← pldm_msgbuf_ro_complete_consumed;
  mret (rc, (field, CompInfo class id stamp options method image vtype vstr opaque, location, size)).

(** Resolve the image in the package. *)
Definition component_image_at (package : cmem) (length location size : Z) (image : variable_field)
  : outcome (Z * variable_field) :=
  ro_scope package (
    rc ← pldm_msgbuf_ro_init_errno 0 package length;
    if_err rc return_ mret (rc, image);;
    '(_, _) ← pldm_msgbuf_ro_span_required location None;
    '(_, image) ← span_required_to size image;
    rc ← pldm_msgbuf_ro_complete;
    mret (rc, if rc =? 0 then set_length size image else image)).

Definition set_image (f : variable_field) (i : compinfo) : compinfo :=
  CompInfo (component_classification i) (component_identifier i) (component_comparison_stamp i)
    (component_options i) (requested_component_activation_method i) f
    (component_version_string_type i) (component_version_string i) (component_opaque_data i).

(** [pkg->hdr] is dereferenced without a check. *)
Definition decode_pldm_package_component_image_information_from_iter (pkg : option pldm_package)
    (info : option compinfo) : outcome (Z * option pldm_package * option compinfo) :=
  match pkg, info with
  | Some p, Some i =>
      if negb (bool_decide (pkg_state p = PLDM_PACKAGE_PARSE_COMPONENT_IMAGE_INFORMATION))
      then Ok (- EPROTO, pkg, info)
      else
        match vf_ptr (iter_field p), pkg_hdr p with
        | None, _ => Ok (- EINVAL, pkg, info)
        | Some _, None => Fault FMemory
        | Some data, Some hdr =>
            '(rc, (f, i, location, size)) ← ro_scope data (
               rc ← pldm_msgbuf_ro_init_errno PLDM_FWUP_COMPONENT_IMAGE_INFORMATION_MIN_SIZE data
                      (vf_length (iter_field p));
               if_err rc return_ mret (rc, (iter_field p, i, 0, 0));;
               component_fields hdr (iter_field p) i);
            let p := set_iter_field f p in
            if_err rc return_ Ok (rc, Some p, Some i);;
            if (0x000d <? component_classification i) && (component_classification i <? 0x8000)
            then Ok (- EPROTO, Some p, Some i)
            else
              match vf_ptr (pkg_package p) with
              | None => Fault FMemory
              | Some package =>
                  '(rc, image) ← component_image_at package (vf_length (pkg_package p)) location size
                                   (component_image i);
                  mret (rc, Some p, Some (set_image image i))
              end
        end
  | _, _ => Ok (- EINVAL, pkg, info)
  end.

Definition pldm_package_component_image_information_iter_end (pkg : pldm_package) : outcome bool :=
  _ ← c_assert (bool_decide (pkg_state pkg = PLDM_PACKAGE_PARSE_COMPLETE) && (iter_entries pkg =? 0)
                || bool_decide (pkg_state pkg = PLDM_PACKAGE_PARSE_COMPONENT_IMAGE_INFORMATION));
  mret (bool_decide (pkg_state pkg = PLDM_PACKAGE_PARSE_COMPLETE)).

Definition pldm_package_component_image_information_iter_next (pkg : pldm_package)
  : outcome (bool * pldm_package) :=
  if bool_decide (pkg_state pkg = PLDM_PACKAGE_PARSE_COMPLETE) then mret (false, pkg)
  else
    _ ← c_assert (bool_decide (pkg_state pkg = PLDM_PACKAGE_PARSE_COMPONENT_IMAGE_INFORMATION));
    let pkg := set_iter (iter_field pkg) (u64 (iter_entries pkg - 1)) pkg in
    if iter_entries pkg =? 0 then mret (false, set_state PLDM_PACKAGE_PARSE_COMPLETE pkg)
    else mret (true, pkg).

(** ** Descriptors *)

Record pldm_descriptor_iter := DescIter { di_field : option variable_field; di_count : Z }.

(** The iterator points at a field of the caller: what becomes of it is part of the
    result. *)
Definition decode_pldm_descriptor_from_iter (iter : option pldm_descriptor_iter)
    (desc : option pldm_descriptor)
  : outcome (Z * option pldm_descriptor_iter * option pldm_descriptor) :=
  match iter, desc with
  | Some (DescIter (Some f) n), Some (Descriptor dtype dlen _ as d) =>
      (** The field's pointer goes to the buffer as it is, NULL included. *)
      let m := default (CMem 0 []) (vf_ptr f) in
      '(rc, (f, d)) ← ro_scope m (
         rc ← pldm_msgbuf_ro_init_errno PLDM_FWUP_DEVICE_DESCRIPTOR_MIN_LEN m (vf_length f);
         if_err rc return_ mret (rc, (f, d));;
         '(_, dtype) ← pldm_msgbuf_extract KU16 dtype;
         '(rc, dlen) ← pldm_msgbuf_extract KU16 dlen;
         if_err rc return_ stop rc (f, Descriptor dtype dlen (descriptor_data d));;
         '(_, data) ← pldm_msgbuf_ro_span_required dlen (Some None);
         let d := Descriptor dtype dlen (default None data) in
         '(_, f) ← span_remaining_to (set_ptr None f);
         rc ← pldm_msgbuf_ro_complete;
         mret (rc, (f, d)));
      mret (rc, Some (DescIter (Some f) n), Some d)
  | _, _ => Ok (- EINVAL, iter, desc)
  end.

Definition pldm_descriptor_iter_end (iter : pldm_descriptor_iter) : bool := di_count iter =? 0.

Definition pldm_descriptor_iter_next (iter : pldm_descriptor_iter) : bool * pldm_descriptor_iter :=
  if di_count iter =? 0 then (false, iter)
  else (true, DescIter (di_field iter) (di_count iter - 1)).

Definition pldm_package_firmware_device_id_record_descriptor_iter_init (pkg : pldm_package) (rec : fdrec)
  : outcome pldm_descriptor_iter :=
  _ ← c_assert (bool_decide (pkg_state pkg = PLDM_PACKAGE_PARSE_FIRMWARE_DEVICES));
  mret (DescIter (Some (fd_record_descriptors rec)) (fd_descriptor_count rec)).

Definition pldm_package_downstream_device_id_record_descriptor_iter_init (pkg : pldm_package) (rec : ddrec)
  : pldm_descriptor_iter :=
  DescIter (Some (dd_record_descriptors rec)) (dd_descriptor_count rec).

(** ** The loops of the foreach macros

    The body of a loop collects what it is given; a body that fails, as one does that
    runs a loop over descriptors with the same [rc], ends the loop.  [fuel] is a
    bound on the number of rounds. *)

Fixpoint foreach_descriptor (fuel : nat) (iter : pldm_descriptor_iter)
  : outcome (Z * list pldm_descriptor) :=
  match fuel with
  | O => Fault FFuel
  | S fuel =>
      if pldm_descriptor_iter_end iter then mret (0, [])
      else
        '(rc, i, d) ← decode_pldm_descriptor_from_iter (Some iter) (Some (Descriptor 0 0 None));
        if_err rc return_ mret (rc, []);;
        match i, d with
        | Some i, Some d =>
            '(rc, ds) ← foreach_descriptor fuel (snd (pldm_descriptor_iter_next i));
            mret (rc, d :: ds)
        | _, _ => Fault FMemory
        end
  end.

Section foreach.
Context {R E : Type}.
Context (iter_end : pldm_package -> outcome bool)
        (decode : option pldm_package -> option R -> outcome (Z * option pldm_package * option R))
        (next : pldm_package -> outcome (bool * pldm_package))
        (body : pldm_package -> R -> outcome (Z * E)).

Fixpoint foreach_from (fuel : nat) (pkg : pldm_package) (rec : R) : outcome (Z * pldm_package * list E) :=
  match fuel with
  | O => Fault FFuel
  | S fuel =>
      e ← iter_end pkg;
      if (e : bool) then mret (0, pkg, [])
      else
        '(rc, p, r) ← decode (Some pkg) (Some rec);
        match p, r with
        | Some p, Some r =>
            if_err rc return_ mret (rc, p, []);;
            '(rc, x) ← body p r;
            '(_, p) ← next p;
            if_err rc return_ mret (rc, p, [x]);;
            '(rc, p, xs) ← foreach_from fuel p r;
            mret (rc, p, x :: xs)
        | _, _ => Fault FMemory
        end
  end.

Definition foreach (init : option pldm_package -> outcome (Z * option pldm_package))
    (fuel : nat) (pkg : pldm_package) (rec : R) : outcome (Z * pldm_package * list E) :=
  '(rc, p) ← init (Some pkg);
  match p with
  | Some p => if_err rc return_ mret (rc, p, []);; foreach_from fuel p rec
  | None => Fault FMemory
  end.
End foreach.

Definition fd_body (pkg : pldm_package) (rec : fdrec)
  : outcome (Z * (fdrec * list pldm_descriptor)) :=
  iter ← pldm_package_firmware_device_id_record_descriptor_iter_init pkg rec;
  '(rc, ds) ← foreach_descriptor (S (Z.to_nat (di_count iter))) iter;
  mret (rc, (rec, ds)).

Definition dd_body (pkg : pldm_package) (rec : ddrec)
  : outcome (Z * (ddrec * list pldm_descriptor)) :=
  let iter := pldm_package_downstream_device_id_record_descriptor_iter_init pkg rec in
  '(rc, ds) ← foreach_descriptor (S (Z.to_nat (di_count iter))) iter;
  mret (rc, (rec, ds)).

Definition comp_body (_ : pldm_package) (info : compinfo) : outcome (Z * compinfo) := mret (0, info).

Definition vf0 : variable_field := VarField None 0.

Definition foreach_pldm_package_firmware_device_id_record (fuel : nat) (pkg : pldm_package) :=
  foreach pldm_package_firmware_device_id_record_iter_end
    decode_pldm_package_firmware_device_id_record_from_iter
    pldm_package_firmware_device_id_record_iter_next fd_body
    pldm_package_firmware_device_id_record_iter_init fuel pkg
    (FdRec 0 0 0 vf0 vf0 vf0 vf0 vf0).

Definition foreach_pldm_package_downstream_device_id_record (fuel : nat) (pkg : pldm_package) :=
  foreach pldm_package_downstream_device_id_record_iter_end
    decode_pldm_package_downstream_device_id_record_from_iter
    pldm_package_downstream_device_id_record_iter_next dd_body
    pldm_package_downstream_device_id_record_iter_init fuel pkg
    (DdRec 0 0 0 vf0 0 vf0 vf0 vf0 vf0).

Definition foreach_pldm_package_component_image_information (fuel : nat) (pkg : pldm_package) :=
  foreach pldm_package_component_image_information_iter_end
    decode_pldm_package_component_image_information_from_iter
    pldm_package_component_image_information_iter_next comp_body
    pldm_package_component_image_information_iter_init fuel pkg
    (CompInfo 0 0 0 0 0 vf0 0 vf0 vf0).

(** ** A package as its user reads it

    The use the header file documents: the three loops one after the other, each if
    the one before went through; a pin of revision 1 has no downstream devices. *)

Record parsed := Parsed {
  p_header : pldm__package_header_information;
  p_devices : list (fdrec * list pldm_descriptor);
  p_downstream : list (ddrec * list pldm_descriptor);
  p_components : list compinfo
}.

Definition parse_package (nvidia : bool) (data : cmem) (length revision : Z)
    (hdr : pldm__package_header_information) : outcome (Z * parsed * pldm_package) :=
  let pin := DEFINE_PLDM_PACKAGE_FORMAT_PIN revision in
  let fuel := S (S (Z.to_nat length)) in
  '(rc, h, p) ← decode_pldm_firmware_update_package nvidia (Some data) length (Some pin)
                  (Some hdr) (Some pkg_zero) 0;
  match h, p with
  | Some h, Some p =>
      if_err rc return_ mret (rc, Parsed h [] [] [], p);;
      '(rc, p, fds) ← foreach_pldm_package_firmware_device_id_record fuel p;
      if_err rc return_ mret (rc, Parsed h fds [] [], p);;
      '(rc, p, dds) ← (if revision =? FR01H then mret (0, p, [])
                       else foreach_pldm_package_downstream_device_id_record fuel p);
      if_err rc return_ mret (rc, Parsed h fds dds [], p);;
      '(rc, p, comps) ← foreach_pldm_package_component_image_information fuel p;
      mret (rc, Parsed h fds dds comps, p)
  | _, _ => Fault FMemory
  end.

(** ** The older interface: one function per record, results copied into structs *)

(** struct pldm_package_header_information. *)
Record pldm_package_header_information := PkgHdrInfo {
  hi_uuid : list Z; package_header_format_version : Z; hi_package_header_size : Z;
  hi_release_date_time : list Z; hi_bitmap_bit_length : Z;
  hi_version_string_type : Z; hi_version_string_length : Z
}.

(** The header and parser objects on the stack; the header is not initialised, which
    nothing reads before it is set. *)
Definition decode_pldm_package_header_info (nvidia : bool) (data : option cmem) (length : Z)
    (info : option pldm_package_header_information) (package_version_str : option variable_field)
  : outcome (Z * option pldm_package_header_information * option variable_field) :=
  match data, info, package_version_str with
  | Some data, Some _, Some _ =>
      '(rc, hdr, _) ← decode_pldm_package_header_info_errno nvidia data length
                        (DEFINE_PLDM_PACKAGE_FORMAT_PIN FR04H)
                        (PkgHdr (replicate 16 0) 0 (replicate 13 0) 0 0 vf0) pkg_zero;
      if rc <? 0 then (e ← pldm_xlate_errno rc; mret (e, info, package_version_str))
      else
        size ← mem_le data 17 2;
        mret (PLDM_SUCCESS,
              Some (PkgHdrInfo (package_header_identifier hdr) (package_header_format_revision hdr) size
                      (package_release_date_time hdr) (component_bitmap_bit_length hdr)
                      (package_version_string_type hdr) (u8 (vf_length (package_version_string hdr)))),
              Some (package_version_string hdr))
  | _, _, _ => Ok (PLDM_ERROR_INVALID_DATA, info, package_version_str)
  end.

(** struct pldm_firmware_device_id_record, and the four fields that go with it. *)
Record pldm_firmware_device_id_record := FdIdRec {
  fir_record_length : Z; fir_descriptor_count : Z; fir_update_option_flags : Z;
  fir_string_type : Z; fir_string_length : Z; fir_pkg_data_length : Z;
  fir_applicable_components : variable_field; fir_version_str : variable_field;
  fir_record_descriptors : variable_field; fir_pkg_data : variable_field
}.

(** [None] for any of the pointers being NULL. *)
Definition decode_firmware_device_id_record (data : option cmem) (length bit_length : Z)
    (record : option pldm_firmware_device_id_record) (format_revision : Z)
  : outcome (Z * option pldm_firmware_device_id_record) :=
  match data, record with
  | Some data, Some _ =>
      '(rc, _, rec) ← decode_pldm_package_firmware_device_id_record_errno
                        (Some (PkgHdr [] (u8 format_revision) [] bit_length 0 vf0))
                        (Some (VarField (Some data) length))
                        (Some (FdRec 0 0 0 vf0 vf0 vf0 vf0 vf0));
      if rc <? 0 then (e ← pldm_xlate_errno rc; mret (e, record))
      else
        match rec with
        | None => Fault FMemory
        | Some r =>
            n ← mem_le data 0 2;
            mret (PLDM_SUCCESS,
                  Some (FdIdRec n (fd_descriptor_count r) (device_update_option_flags r)
                          (component_image_set_version_string_type r)
                          (u8 (vf_length (component_image_set_version_string r)))
                          (u16 (vf_length (firmware_device_package_data r)))
                          (fd_applicable_components r) (component_image_set_version_string r)
                          (fd_record_descriptors r) (firmware_device_package_data r)))
        end
  | _, _ => Ok (PLDM_ERROR_INVALID_DATA, record)
  end.

Abbreviation PLDM_FWUP_VENDOR_DEFINED := 0xffff (only parsing).

Definition get_descriptor_type_length (descriptor_type : Z) : Z :=
  match descriptor_type with
  | 0x0000 => 2 | 0x0001 => 4 | 0x0002 => 16 | 0x0003 => 3 | 0x0004 => 4 | 0x0005 => 3 | 0x0006 => 8
  | 0x0100 => 2 | 0x0101 => 2 | 0x0102 => 2 | 0x0103 => 1 | 0x0104 => 4 | 0x0105 => 4
  | 0x0106 => 40 | 0x0107 => 10 | 0x0108 => 16 | 0x0109 => 4
  | _ => 0
  end.

Definition decode_descriptor_type_length_value_errno (data : option cmem) (length : Z)
    (descriptor_type : option Z) (descriptor_data : option variable_field)
  : outcome (Z * option Z * option variable_field) :=
  match data, descriptor_type, descriptor_data with
  | Some m, Some _, Some _ =>
      if length <? PLDM_FWUP_DEVICE_DESCRIPTOR_MIN_LEN then
        Ok (- EOVERFLOW, descriptor_type, descriptor_data)
      else
        t ← mem_le m 0 2;
        n ← mem_le m 2 2;
        if negb (t =? PLDM_FWUP_VENDOR_DEFINED) && negb (n =? get_descriptor_type_length t)
        then Ok (- EBADMSG, Some t, descriptor_data)
        else if length <? 2 + 2 + n then Ok (- EOVERFLOW, Some t, descriptor_data)
        else Ok (0, Some t, Some (VarField (Some (ptr_at m 4)) n))
  | _, _, _ => Ok (- EINVAL, descriptor_type, descriptor_data)
  end.

(** Translate a negative code to a PLDM one. *)
Definition xlate {A} (r : outcome (Z * A)) : outcome (Z * A) :=
  '(rc, a) ← r;
  if rc <? 0 then (e ← pldm_xlate_errno rc; mret (e, a)) else mret (PLDM_SUCCESS, a).

Definition decode_descriptor_type_length_value (data : option cmem) (length : Z)
    (descriptor_type : option Z) (descriptor_data : option variable_field)
  : outcome (Z * (option Z * option variable_field)) :=
  xlate ('(rc, t, d) ← decode_descriptor_type_length_value_errno data length descriptor_type descriptor_data;
         mret (rc, (t, d))).

(** sizeof(struct pldm_vendor_defined_descriptor_title_data). *)
Definition decode_vendor_defined_descriptor_value_errno (data : option cmem) (length : Z)
    (title_type : option Z) (title : option variable_field) (value : option variable_field)
  : outcome (Z * (option Z * option variable_field * option variable_field)) :=
  match data, title_type, title, value with
  | Some m, Some _, Some _, Some _ =>
      if length <? 3 then Ok (- EOVERFLOW, (title_type, title, value))
      else
        t ← mem_le m 0 1;
        n ← mem_le m 1 1;
        if negb (is_string_type_valid t) || (n =? 0) then Ok (- EBADMSG, (title_type, title, value))
        else if length <? 3 + n then Ok (- EOVERFLOW, (title_type, title, value))
        else Ok (0, (Some t, Some (VarField (Some (ptr_at m 2)) n),
                     Some (VarField (Some (ptr_at m (2 + n))) (length - 1 - 1 - n))))
  | _, _, _, _ => Ok (- EINVAL, (title_type, title, value))
  end.

Definition decode_vendor_defined_descriptor_value (data : option cmem) (length : Z)
    (title_type : option Z) (title : option variable_field) (value : option variable_field) :=
  xlate (decode_vendor_defined_descriptor_value_errno data length title_type title value).

(** struct pldm_component_image_information, 22 bytes. *)
Record pldm_component_image_information := CompImage {
  comp_classification : Z; comp_identifier : Z; comp_comparison_stamp : Z;
  comp_options : Z; requested_comp_activation_method : Z; comp_location_offset : Z;
  comp_size : Z; comp_version_string_type : Z; comp_version_string_length : Z
}.

Abbreviation PLDM_FWUP_INVALID_COMPONENT_COMPARISON_TIMESTAMP := 0xffffffff (only parsing).

Definition decode_pldm_comp_image_info_errno (data : option cmem) (length : Z)
    (info : option pldm_component_image_information) (version : option variable_field)
  : outcome (Z * (option pldm_component_image_information * option variable_field)) :=
  match data, info, version with
  | Some m, Some _, Some _ =>
      if length <? 22 then Ok (- EOVERFLOW, (info, version))
      else
        vtype ← mem_le m 20 1;
        vlen ← mem_le m 21 1;
        if negb (is_string_type_valid vtype) || (vlen =? 0) then Ok (- EBADMSG, (info, version))
        else if length <? 22 + vlen then Ok (- EOVERFLOW, (info, version))
        else
          class ← mem_le m 0 2;
          id ← mem_le m 2 2;
          stamp ← mem_le m 4 4;
          options ← mem_le m 8 2;
          method ← mem_le m 10 2;
          location ← mem_le m 12 4;
          size ← mem_le m 16 4;
          let i := CompImage class id stamp options method location size vtype vlen in
          if negb (Z.testbit options 1) && negb (stamp =? PLDM_FWUP_INVALID_COMPONENT_COMPARISON_TIMESTAMP)
          then Ok (- EBADMSG, (Some i, version))
          else if (location =? 0) || (size =? 0) then Ok (- EBADMSG, (Some i, version))
          else Ok (0, (Some i, Some (VarField (Some (ptr_at m 22)) vlen)))
  | _, _, _ => Ok (- EINVAL, (info, version))
  end.

Definition decode_pldm_comp_image_info (data : option cmem) (length : Z)
    (info : option pldm_component_image_information) (version : option variable_field) :=
  xlate (decode_pldm_comp_image_info_errno data length info version).
