(* ===== verification/PackageSpec.v ===== *)
(** * What a firmware update package is

    The contents of a package as plain data, their layout in bytes, and what the
    records the parser of Package.v hands out say about the bytes they point at. *)

From S2P Require Import Prelude Msgbuf Layout Edac Base FwUpdate Package.

(** ** Contents *)

Record device := Device {
  d_flags : Z; d_string_type : Z; d_version : list Z; d_applicable : list Z;
  d_descriptors : list (Z * list Z); d_package_data : list Z; d_manifest : list Z
}.

Record downstream := Downstream {
  ds_flags : Z; ds_string_type : Z; ds_version : list Z; ds_stamp : Z; ds_applicable : list Z;
  ds_descriptors : list (Z * list Z); ds_package_data : list Z; ds_manifest : list Z
}.

Record component := Component {
  c_classification : Z; c_identifier : Z; c_stamp : Z; c_options : Z; c_method : Z;
  c_location : Z; c_size : Z; c_string_type : Z; c_version : list Z; c_opaque : list Z
}.

Record package := Package {
  k_revision : Z; k_date : list Z; k_bitmap_bits : Z; k_string_type : Z; k_version : list Z;
  k_devices : list device; k_downstream : list downstream; k_components : list component;
  k_payload : list Z
}.

(** ** Layout *)

Definition descriptor_bytes (d : Z * list Z) : list Z :=
  le_enc 2 d.1 ++ le_enc 2 (len d.2) ++ d.2.

(** A record behind its own length. *)
Definition sized (body : list Z) : list Z := le_enc 2 (2 + len body) ++ body.

Definition device_body (rev : Z) (d : device) : list Z :=
  le_enc 1 (len (d_descriptors d)) ++ le_enc 4 (d_flags d) ++ le_enc 1 (d_string_type d) ++
  le_enc 1 (len (d_version d)) ++ le_enc 2 (len (d_package_data d)) ++
  (if 4 <=? rev then le_enc 4 (len (d_manifest d)) else []) ++
  d_applicable d ++ d_version d ++ concat (descriptor_bytes <$> d_descriptors d) ++
  d_package_data d ++ (if 4 <=? rev then d_manifest d else []).

Definition device_bytes (rev : Z) (d : device) : list Z := sized (device_body rev d).

Definition downstream_body (rev : Z) (d : downstream) : list Z :=
  le_enc 1 (len (ds_descriptors d)) ++ le_enc 4 (ds_flags d) ++ le_enc 1 (ds_string_type d) ++
  le_enc 1 (len (ds_version d)) ++ le_enc 2 (len (ds_package_data d)) ++
  (if 4 <=? rev then le_enc 4 (len (ds_manifest d)) else []) ++
  ds_applicable d ++ ds_version d ++
  (if Z.testbit (ds_flags d) 0 then le_enc 4 (ds_stamp d) else []) ++
  concat (descriptor_bytes <$> ds_descriptors d) ++
  ds_package_data d ++ (if 4 <=? rev then ds_manifest d else []).

Definition downstream_bytes (rev : Z) (d : downstream) : list Z := sized (downstream_body rev d).

Definition component_bytes (rev : Z) (c : component) : list Z :=
  le_enc 2 (c_classification c) ++ le_enc 2 (c_identifier c) ++ le_enc 4 (c_stamp c) ++
  le_enc 2 (c_options c) ++ le_enc 2 (c_method c) ++ le_enc 4 (c_location c) ++ le_enc 4 (c_size c) ++
  le_enc 1 (c_string_type c) ++ le_enc 1 (len (c_version c)) ++ c_version c ++
  (if 3 <=? rev then le_enc 4 (len (c_opaque c)) ++ c_opaque c else []).

Definition areas_bytes (k : package) : list Z :=
  le_enc 1 (len (k_devices k)) ++ concat (device_bytes (k_revision k) <$> k_devices k) ++
  (if 2 <=? k_revision k
   then le_enc 1 (len (k_downstream k)) ++ concat (downstream_bytes (k_revision k) <$> k_downstream k)
   else []) ++
  le_enc 2 (len (k_components k)) ++ concat (component_bytes (k_revision k) <$> k_components k).

Definition checksums (rev : Z) : Z := if 4 <=? rev then 2 else 1.

Definition header_size (k : package) : Z :=
  36 + len (k_version k) + len (areas_bytes k) + 4 * checksums (k_revision k).

(** The part the header checksum covers. *)
Definition header_bytes (k : package) : list Z :=
  default [] (identifier_of (k_revision k)) ++ le_enc 1 (k_revision k) ++ le_enc 2 (header_size k) ++
  k_date k ++ le_enc 2 (k_bitmap_bits k) ++ le_enc 1 (k_string_type k) ++ le_enc 1 (len (k_version k)) ++
  k_version k ++ areas_bytes k.

Definition package_bytes (k : package) : list Z :=
  header_bytes k ++ le_enc 4 (crc32_ref 0 (header_bytes k)) ++
  (if 4 <=? k_revision k then le_enc 4 (crc32_ref 0 (k_payload k)) else []) ++ k_payload k.

(** ** Contents that have a layout

    Every value fits its field; records, descriptors and version strings are not
    empty where the parser insists; what a revision has no field for is not there. *)


Definition descriptor_fits (d : Z * list Z) : Prop :=
  u16_ok d.1 /\ 1 <= len d.2 < 65536 /\ bytes_ok d.2.

Record device_ok (rev bits : Z) (d : device) : Prop := {
  d_ok_count : len (d_descriptors d) < 256;
  d_ok_flags : u32_ok (d_flags d);
  d_ok_type : is_string_type_valid (d_string_type d) = true;
  d_ok_version : 1 <= len (d_version d) < 256 /\ bytes_ok (d_version d);
  d_ok_applicable : len (d_applicable d) = bits / 8 /\ bytes_ok (d_applicable d);
  d_ok_descriptors : Forall descriptor_fits (d_descriptors d);
  d_ok_data : len (d_package_data d) < 65536 /\ bytes_ok (d_package_data d);
  d_ok_manifest : bytes_ok (d_manifest d) /\ (rev < 4 -> d_manifest d = []);
  d_ok_size : len (device_body rev d) < 65534
}.

Record downstream_ok (rev bits : Z) (d : downstream) : Prop := {
  ds_ok_count : len (ds_descriptors d) < 256;
  ds_ok_flags : u32_ok (ds_flags d);
  ds_ok_type : is_string_type_valid (ds_string_type d) = true;
  ds_ok_version : len (ds_version d) < 256 /\ bytes_ok (ds_version d);
  ds_ok_stamp : u32_ok (ds_stamp d) /\ (Z.testbit (ds_flags d) 0 = false -> ds_stamp d = 0);
  ds_ok_applicable : len (ds_applicable d) = bits / 8 /\ bytes_ok (ds_applicable d);
  ds_ok_descriptors : Forall descriptor_fits (ds_descriptors d);
  ds_ok_data : len (ds_package_data d) < 65536 /\ bytes_ok (ds_package_data d);
  ds_ok_manifest : bytes_ok (ds_manifest d) /\ (rev < 4 -> ds_manifest d = []);
  ds_ok_size : len (downstream_body rev d) < 65534
}.

(** [size]: of the package, which the image is a part of. *)
Record component_ok (rev size : Z) (c : component) : Prop := {
  c_ok_classification : u16_ok (c_classification c) /\ ~ (0x000d < c_classification c < 0x8000);
  c_ok_identifier : u16_ok (c_identifier c);
  c_ok_stamp : u32_ok (c_stamp c);
  c_ok_options : u16_ok (c_options c);
  c_ok_method : u16_ok (c_method c);
  c_ok_image : u32_ok (c_location c) /\ u32_ok (c_size c) /\ c_location c + c_size c <= size;
  c_ok_type : is_string_type_valid (c_string_type c) = true;
  c_ok_version : len (c_version c) < 256 /\ bytes_ok (c_version c);
  c_ok_opaque : bytes_ok (c_opaque c) /\ u32_ok (len (c_opaque c)) /\ (rev < 3 -> c_opaque c = [])
}.

Record package_ok (k : package) : Prop := {
  k_ok_revision : 1 <= k_revision k <= 4;
  k_ok_date : len (k_date k) = 13 /\ bytes_ok (k_date k);
  k_ok_bits : 0 <= k_bitmap_bits k < 65536 /\ k_bitmap_bits k mod 8 = 0;
  k_ok_type : is_string_type_valid (k_string_type k) = true;
  k_ok_version : len (k_version k) < 256 /\ bytes_ok (k_version k);
  k_ok_devices : len (k_devices k) < 256 /\
    Forall (device_ok (k_revision k) (k_bitmap_bits k)) (k_devices k);
  k_ok_downstream : len (k_downstream k) < 256 /\
    Forall (downstream_ok (k_revision k) (k_bitmap_bits k)) (k_downstream k) /\
    (k_revision k = 1 -> k_downstream k = []);
  k_ok_components : len (k_components k) < 65536 /\
    Forall (component_ok (k_revision k) (len (package_bytes k))) (k_components k);
  k_ok_payload : bytes_ok (k_payload k);
  k_ok_size : header_size k < 65536
}.

(** ** What parsed records say *)

(** The bytes a field covers. *)
Definition text (f : variable_field) : list Z :=
  match vf_ptr f with Some p => slice 0 (Z.to_nat (vf_length f)) (bytes p) | None => [] end.

Definition view_descriptor (d : pldm_descriptor) : Z * list Z :=
  (descriptor_type d, text (VarField (descriptor_data d) (descriptor_length d))).

Definition view_device (r : pldm_package_firmware_device_id_record * list pldm_descriptor) : device :=
  let '(r, ds) := r in
  Device (device_update_option_flags r) (component_image_set_version_string_type r)
    (text (component_image_set_version_string r)) (text (fd_applicable_components r))
    (view_descriptor <$> ds) (text (firmware_device_package_data r)) (text (fd_reference_manifest_data r)).

Definition view_downstream (r : pldm_package_downstream_device_id_record * list pldm_descriptor)
  : downstream :=
  let '(r, ds) := r in
  Downstream (update_option_flags r) (self_contained_activation_min_version_string_type r)
    (text (self_contained_activation_min_version_string r))
    (self_contained_activation_min_version_comparison_stamp r) (text (dd_applicable_components r))
    (view_descriptor <$> ds) (text (package_data r)) (text (dd_reference_manifest_data r)).

(** A component as parsed, but for its image's place: only its bytes are known. *)
Definition view_component (i : pldm_package_component_image_information)
  : Z * Z * Z * Z * Z * list Z * Z * list Z * list Z :=
  (component_classification i, component_identifier i, component_comparison_stamp i,
   component_options i, requested_component_activation_method i, text (component_image i),
   component_version_string_type i, text (component_version_string i), text (component_opaque_data i)).

Definition component_content (package : list Z) (c : component)
  : Z * Z * Z * Z * Z * list Z * Z * list Z * list Z :=
  (c_classification c, c_identifier c, c_stamp c, c_options c, c_method c,
   slice (Z.to_nat (c_location c)) (Z.to_nat (c_size c)) package,
   c_string_type c, c_version c, c_opaque c).

(** ** What a header has to be

    Checks in the order in which they are made, each with the error that its failure
    is. *)

Fixpoint first_failure (checks : list (bool * Z)) : Z :=
  match checks with
  | [] => 0
  | (passed, error) :: rest => if passed then first_failure rest else error
  end.

Lemma first_pass c e l : c = true -> first_failure ((c, e) :: l) = first_failure l.
Proof. by intros ->. Qed.

Lemma first_fail c e l : c = false -> first_failure ((c, e) :: l) = e.
Proof. by intros ->. Qed.

Lemma first_failure_app l1 l2 :
  first_failure (l1 ++ l2) = if forallb fst l1 then first_failure l2 else first_failure l1.
Proof. induction l1 as [|[[] e] l1 IH]; [done|exact IH|done]. Qed.

(** The identifiers of the four revisions (DSP0267), and how large the objects are that
    callers of each revision know. *)
Definition format_identifier (revision : Z) : list Z :=
  match revision with
  | 1 => [0xf0; 0x18; 0x87; 0x8c; 0xcb; 0x7d; 0x49; 0x43; 0x98; 0x00; 0xa0; 0x2f; 0x05; 0x9a; 0xca; 0x02]
  | 2 => [0x12; 0x44; 0xd2; 0x64; 0x8d; 0x7d; 0x47; 0x18; 0xa0; 0x30; 0xfc; 0x8a; 0x56; 0x58; 0x7d; 0x5a]
  | 3 => [0x31; 0x19; 0xce; 0x2f; 0xe8; 0x0a; 0x4a; 0x99; 0xaf; 0x6d; 0x46; 0xf8; 0xb1; 0x21; 0xf6; 0xbf]
  | _ => [0x7b; 0x29; 0x1c; 0x99; 0x6d; 0xb6; 0x42; 0x08; 0x80; 0x1b; 0x02; 0x02; 0x6e; 0x46; 0x3c; 0x78]
  end.

Definition format_magic (revision : Z) : Z :=
  match revision with 1 => 288 | 2 => 376 | 3 => 392 | _ => 424 end.

(** What is asked of a pin, without the package. *)
Definition pin_checks (pin : pldm_package_format_pin) : list (bool * Z) :=
  [(pin_version pin <=? 0, - ENOTSUP);
   (negb (pin_revision pin =? 0), - EINVAL);
   (pin_revision pin <=? 4, - ENOTSUP);
   (bool_decide (pin_identifier pin = format_identifier (pin_revision pin)), - ENOTSUP);
   (pin_magic pin =? format_magic (pin_revision pin), - EINVAL)].

(** Where the header's checksum is: in front of the end of the header, and from revision 4
    on of the payload's checksum as well. *)
Definition checksum_at (m : cmem) : Z := fld m 17 2 - (if fld m 16 1 <? 4 then 4 else 8).

(** The first [len] bytes of [m] as a package up to [revision]: the fixed part, the
    identifier, the revision, whole bytes in the bitmap, the type of the version string,
    room for the fixed part and three counts, for the version string, and for the header. *)
Definition header_checks (m : cmem) (len revision : Z) : list (bool * Z) :=
  let identifier := slice 0 16 (bytes m) in
  [(36 <=? len, - EOVERFLOW);
   (bool_decide (identifier ∈ format_identifier <$> [1; 2; 3; 4]), - ENOTSUP);
   (1 <=? fld m 16 1, - EPROTO);
   (fld m 16 1 <=? revision, - ENOTSUP);
   (bool_decide (identifier = format_identifier (fld m 16 1)), - ENOTSUP);
   (fld m 32 2 mod 8 =? 0, - EPROTO);
   ((1 <=? fld m 34 1) && (fld m 34 1 <=? 5), - EPROTO);
   (36 + 3 <=? checksum_at m, - EOVERFLOW);
   (36 + fld m 35 1 <=? checksum_at m, - EOVERFLOW);
   (fld m 17 2 <=? len, - EOVERFLOW)].

(** The checksums: of the header, and from revision 4 on of the payload, which a library
    with the NVIDIA extensions leaves to its callers. *)
Definition sum_checks (m : cmem) (len : Z) (nvidia : bool) : list (bool * Z) :=
  [(fld m (Z.to_nat (checksum_at m)) 4 =? crc32_ref 0 (take (Z.to_nat (checksum_at m)) (bytes m)), - EUCLEAN);
   (nvidia || (fld m 16 1 <? 4) ||
    (fld m (Z.to_nat (checksum_at m + 4)) 4
     =? crc32_ref 0 (slice (Z.to_nat (fld m 17 2)) (Z.to_nat (len - fld m 17 2)) (bytes m))), - EUCLEAN)].

(** ** A package of the newest revision

    Two device records, a downstream device record and two component images, which lie
    in the header's first bytes. *)

Definition package_sample : package :=
  Package 4 (replicate 13 7) 8 1 [65; 66; 67]
    [Device 1 1 [1; 2] [3] [(2, replicate 16 9); (0xffff, [1])] [5; 5; 5] [6; 6];
     Device 0 1 [1; 2] [3] [(2, replicate 16 9)] [] []]
    [Downstream 1 1 [8] 77 [1] [(1, [1; 2; 3; 4])] [] [9; 9]]
    [Component 10 20 30 2 0 0 4 1 [66] [1; 2; 3]; Component 10 20 30 2 0 40 14 1 [] []]
    (replicate 20 5).

Definition sample_mem : cmem := CMem 64 (package_bytes package_sample).

(** A header object nothing has been written to. *)
Definition header_unset : pldm__package_header_information :=
  PkgHdr (replicate 16 0) 0 (replicate 13 0) 0 0 (VarField None 0).
