(* ===== verification/PackageProps.v ===== *)
(** * The record decoders of a package, exactly

    For any bytes, each decoder of Package.v returns without a fault; whether it
    accepts, and what the record then points at, is said in terms of the bytes. *)

From S2P Require Import Prelude Msgbuf Layout Edac Base FwUpdate Package PackageSpec.

(** ** Buffer steps of this component *)

(** An overflowed buffer whose position is lost. *)
Definition mb_bad (b : msgbuf) : Prop := mb_inv b /\ remaining b < 0.

Lemma mb_rd_inv_at m len c b : mb_rd m len c b -> INTMAX_MIN <= len - c -> mb_inv b.
Proof.
  intros [Ho Hr ? ? ? (k & Hk & Hkc)] ?. constructor; [lia..|].
  intros. exists k. rewrite Ho. split_and!; [done|lia..].
Qed.

Section steps.
Context (m : cmem) (len : Z).

Lemma wp_span_to n f c b Q :
  mb_rd m len c b -> 0 <= n -> c + n <= INTMAX_MAX ->
  (forall b', mb_rd m len (c + n) b' ->
     Q (if c + n <=? len then (0, set_ptr (Some (ptr_at m c)) f) else (- EOVERFLOW, f)) b') ->
  wp (span_required_to n f) b Q.
Proof.
  intros Hb Hn Hc HQ. unfold span_required_to. apply wp_bind. autounfold with msgbuf.
  eapply wp_span_required_rd; [exact Hb|done|done|]. intros b' Hb'. specialize (HQ b' Hb').
  destruct (_ <=? _); apply wp_ret; [exact HQ|]. by destruct f.
Qed.

Lemma wp_span_to_bad n f b Q :
  mb_bad b -> 0 <= n -> (forall r b', mb_bad b' -> vf_length r.2 = vf_length f -> Q r b') ->
  wp (span_required_to n f) b Q.
Proof.
  intros [Hb Hr] Hn HQ. unfold span_required_to. apply wp_bind. autounfold with msgbuf.
  eapply wp_mono; [by apply span_required_post|]. intros [rc p] b' (Hb' & _ & Ho). apply wp_ret.
  apply HQ; [split; [done|]; apply Ho; by left|]. cbn. by destruct p.
Qed.

Lemma wp_extract_bad k d b Q :
  mb_bad b -> (forall r b', mb_bad b' -> Q r b') -> wp (pldm_msgbuf_extract k d) b Q.
Proof.
  intros [Hb Hr] HQ. rewrite extract_kind. eapply wp_mono; [apply extract_post; [done|destruct k; cbn; lia]|].
  intros a b' (Hb' & _ & Ho). apply HQ. split; [done|]. apply Ho. by left.
Qed.

Lemma wp_until_to trailer f c b Q :
  mb_rd m len c b -> INTMAX_MIN <= len - c -> 0 <= trailer <= INTMAX_MAX ->
  (c + trailer <= len -> forall b', mb_rd m len (len - trailer) b' ->
     Q (0, VarField (Some (ptr_at m c)) (len - trailer - c)) b') ->
  (len < c + trailer -> forall r b', mb_bad b' -> Q r b') ->
  wp (span_until_to trailer f) b Q.
Proof.
  intros Hb Hmin Ht HQ Hbad. unfold span_until_to. apply wp_bind. autounfold with msgbuf.
  pose proof (mb_rd_inv_at _ _ _ _ Hb Hmin) as Hinv.
  destruct (Z.le_gt_cases (c + trailer) len) as [Hle|Hlt].
  - destruct Hb as [Ho Hr ? ? ? (k & Hk & Hkc)].
    unfold wp, pldm__msgbuf_span_until. cmp_case; [lia|]. rewrite Hr. cmp_case; [|lia].
    unfold msgbuf_advance. rewrite Hk, Hkc, Ho by lia. cbn.
    replace (len - c - trailer) with (len - trailer - c) by lia. apply HQ; [done|].
    constructor; cbn; try lia; [done|]. exists (c + (len - trailer - c)). split; [done|lia].
  - destruct Hb as [_ Hr ? ? ? _]. unfold wp, pldm__msgbuf_span_until. cmp_case; [lia|]. rewrite Hr.
    cmp_case; [lia|]. cmp_case; cbn; apply Hbad; try done; (split; [constructor|]); cbn; lia.
Qed.

Lemma wp_remaining_to f c b Q :
  mb_rd m len c b ->
  (c <= len -> forall b', mb_rd m len len b' -> Q (0, VarField (Some (ptr_at m c)) (len - c)) b') ->
  (len < c -> forall b', mb_rd m len c b' -> Q (- EOVERFLOW, f) b') ->
  wp (span_remaining_to f) b Q.
Proof.
  intros Hb HQ Hbad. unfold span_remaining_to. apply wp_bind. autounfold with msgbuf.
  unfold wp, pldm__msgbuf_span_remaining. pose proof Hb as [Ho Hr ? ? ? (k & Hk & Hkc)]. rewrite Hr. cmp_case.
  - destruct f. apply Hbad; [lia|done].
  - unfold msgbuf_advance. rewrite Hk, Hkc, Ho, Hr by lia. cbn. apply HQ; [lia|].
    constructor; cbn; try lia; [done|]. exists (c + (len - c)). split; [done|lia].
Qed.

Lemma wp_consumed_bad b Q :
  mb_bad b -> (forall b', mb_done b' -> Q (- EOVERFLOW) b') -> wp pldm_msgbuf_ro_complete_consumed b Q.
Proof.
  intros [_ Hr] HQ.
  change (Q (pldm__msgbuf_consumed (remaining b)) (MsgBuf (obj b) None INTMAX_MIN)).
  unfold pldm__msgbuf_consumed. do 2 (cmp_case; try lia). by apply HQ.
Qed.

Lemma wp_stop {A} rc (a : A) b Q : (forall b', mb_done b' -> Q (rc, a) b') -> wp (stop rc a) b Q.
Proof.
  intros HQ. unfold stop. apply wp_bind. apply wp_discard. intros b' Hb' _. apply wp_ret. by apply HQ.
Qed.
End steps.

Lemma ro_scope_wp {A} m (body : B A) (P : A -> Prop) :
  wp body (pldm__msgbuf_define m) (fun a b => mb_done b /\ P a) ->
  exists a, ro_scope m body = Ok a /\ P a.
Proof.
  intros H. destruct (msgbuf_scope_wp m body (fun a _ => P a) H) as (a & m' & E & HP).
  exists a. unfold ro_scope. by rewrite E.
Qed.

(** One buffer call: extractions as in Msgbuf.v, and these spans. *)
Ltac pk_extract := mb_extract; try ((cmp_case; [|lia]); rewrite ?Z.eqb_refl).

Ltac pk_span :=
  lazymatch goal with
  | H : mb_rd ?m ?len ?c ?b |- wp (span_required_to ?n ?f ≫= _) ?b _ =>
      apply wp_bind; apply (wp_span_to m len n f c b _ H); [lia|lia|];
      clear H; let b' := fresh "b" in intros b' H
  end.

Ltac pk_complete :=
  lazymatch goal with
  | H : mb_rd ?m ?len ?c ?b |- wp (pldm_msgbuf_ro_complete ≫= _) ?b _ =>
      apply wp_bind; apply (wp_complete_rd m len c b _ H);
      let b' := fresh "b" in let Hd := fresh "Hdone" in intros b' Hd _; clear H
  end.

(** What was asked for is there. *)
Ltac pk_there :=
  match goal with
  | |- context [if ?a <=? ?b then _ else _] => replace (a <=? b) with true by lia
  end; rewrite ?Z.eqb_refl.

(** ** Records behind their length *)

Lemma init_dynamic_ok req m len tail b Q :
  mem_ok m -> 0 <= len <= mem_size m -> 2 <= req -> 
  let L := fld m 0 2 in
  (req <= len -> req <= L <= len -> forall b', mb_rd m L 0 b' ->
     Q (0, VarField (Some (ptr_at m L)) (len - L)) b') ->
  (~ (req <= L <= len) -> forall tail' b', mb_done b' -> Q (- EOVERFLOW, tail') b') ->
  wp (pldm_msgbuf_init_dynamic_uint16 req m len tail) b Q.
Proof.
  intros Hm Hlen Hreq L HQ Hbad. pose proof Hm as [Ha He Hi Hbs].
  pose proof (fld_bound m 0 2 Hbs) as HL. fold L in HL. cbn in HL.
  unfold pldm_msgbuf_init_dynamic_uint16. autounfold with msgbuf. apply wp_bind.
  apply (wp_init_rd m len); [lia..|]. intros b1 _ Hb1.
  destruct (Z.leb_spec req len); cbn [Z.eqb Z.opp]; [|apply wp_ret, Hbad; [lia|done]].
  pk_extract. fold L. pk_complete. pk_there. apply wp_bind.
  apply (wp_init_rd m len); [lia..|]. intros b3 _. cmp_case; [|lia]. intros Hb3. rewrite Z.eqb_refl.
  mb_span. destruct (Z.leb_spec (0 + L) len); cbn [Z.eqb Z.opp].
  2: { apply wp_stop. intros. apply Hbad; [lia|done]. }
  apply wp_bind. eapply wp_remaining_to; [exact Hb3| |lia]. intros _ b5 Hb5. rewrite Z.eqb_refl.
  pk_complete. pk_there.
  rewrite Z.add_0_l, ptr_at_0. apply wp_bind. apply (wp_init_rd m L); [lia..|].
  intros b7 _. destruct (Z.leb_spec req L); intros Hb7; apply wp_ret.
  - by apply HQ.
  - apply Hbad; [lia|done].
Qed.

(** ** Device records

    Positions in a record: its fixed fields, 11 or 15 bytes; the bitmap, the version
    string, for a downstream device the stamp, then the descriptors, which are all that
    the package data and the manifest at the end leave. *)

Definition package_errors : list Z := [- EOVERFLOW; - EPROTO].

Definition fixed_size (rev : Z) : Z := if 4 <=? rev then 15 else 11.
Definition manifest_size (rev : Z) (m : cmem) : Z := if 4 <=? rev then fld m 11 4 else 0.
Definition bitmap_size (hdr : pldm__package_header_information) : Z := component_bitmap_bit_length hdr / 8.

Section records.
Context (hdr : pldm__package_header_information) (m : cmem) (L : Z).
Let rev := package_header_format_revision hdr.

(** Where the descriptors start after [extra] bytes of stamp, and how many bytes of
    them there are. *)
Definition descs_at (extra : Z) : Z := fixed_size rev + bitmap_size hdr + fld m 8 1 + extra.
Definition descs_len (extra : Z) : Z := L - descs_at extra - fld m 9 2 - manifest_size rev m.

Definition field_at (off n : Z) : variable_field := VarField (Some (ptr_at m off)) n.

Definition fd_fits : bool :=
  is_string_type_valid (fld m 7 1) && negb (fld m 8 1 =? 0) && (0 <=? descs_len 0).

Definition fd_at : pldm_package_firmware_device_id_record :=
  FdRec (fld m 2 1) (fld m 3 4) (fld m 7 1)
    (field_at (fixed_size rev + bitmap_size hdr) (fld m 8 1))
    (field_at (fixed_size rev) (bitmap_size hdr))
    (field_at (descs_at 0) (descs_len 0))
    (VarField (if fld m 9 2 =? 0 then None else Some (ptr_at m (descs_at 0 + descs_len 0))) (fld m 9 2))
    (VarField (if 4 <=? rev then Some (ptr_at m (descs_at 0 + descs_len 0 + fld m 9 2)) else None)
       (manifest_size rev m)).

Definition stamp_size : Z := if Z.testbit (fld m 3 4) 0 then 4 else 0.

Definition dd_fits : bool := is_string_type_valid (fld m 7 1) && (0 <=? descs_len stamp_size).

Definition dd_at : pldm_package_downstream_device_id_record :=
  let stamp := fixed_size rev + bitmap_size hdr + fld m 8 1 in
  DdRec (fld m 2 1) (fld m 3 4) (fld m 7 1)
    (field_at (fixed_size rev + bitmap_size hdr) (fld m 8 1))
    (if Z.testbit (fld m 3 4) 0 then fld m (Z.to_nat stamp) 4 else 0)
    (field_at (fixed_size rev) (bitmap_size hdr))
    (field_at (descs_at stamp_size) (descs_len stamp_size))
    (field_at (descs_at stamp_size + descs_len stamp_size) (fld m 9 2))
    (VarField (if 4 <=? rev
               then Some (ptr_at m (descs_at stamp_size + descs_len stamp_size + fld m 9 2)) else None)
       (manifest_size rev m)).

Hypothesis Hm : bytes_ok (bytes m).
Hypothesis Hbits : 0 <= component_bitmap_bit_length hdr < 65536.
Hypothesis H8 : component_bitmap_bit_length hdr mod 8 = 0.
Hypothesis HL : 11 <= L < 65536.

Lemma bits_land : Z.land (component_bitmap_bit_length hdr) 7 =? 0 = true.
Proof. rewrite (land_mod _ 3 7) by done. change (2 ^ 3) with 8. by rewrite H8. Qed.

Lemma bitmap_size_range : 0 <= bitmap_size hdr < 8192.
Proof. unfold bitmap_size. split; [apply Z.div_pos; lia|apply Z.div_lt_upper_bound; lia]. Qed.

Lemma manifest_size_range : 0 <= manifest_size rev m < 4294967296.
Proof. unfold manifest_size. destruct (4 <=? rev); [|lia]. apply (fld_bound m 11 4 Hm). Qed.

Definition record_post {R} (fits : bool) (at_ : R) (field : variable_field)
    : Z * (variable_field * R) -> msgbuf -> Prop := fun '(rc, (f, r)) b' =>
  mb_done b' /\ f = field /\ if fits then rc = 0 /\ r = at_ else rc ∈ package_errors.

Lemma refused {R} (fits : bool) (at_ : R) field rc f r b :
  fits = false -> f = field -> rc ∈ package_errors -> mb_done b -> record_post fits at_ field (rc, (f, r)) b.
Proof. intros -> -> ??. done. Qed.
End records.

(** A record is refused: the error is one of two, and it does not fit. *)
Ltac pk_refused :=
  first [ apply wp_stop | idtac ]; intros; apply refused;
  [ repeat match goal with x := _ : Z |- _ => subst x end;
    unfold fd_fits, dd_fits, descs_len, descs_at, fixed_size, manifest_size in *;
    repeat match goal with H : is_string_type_valid _ = _ |- _ => rewrite H end;
    rewrite ?andb_true_r, ?andb_false_r; try reflexivity; lia
  | done | repeat constructor | done ].

(** Fields at the same places, which are written differently. *)
Ltac pk_fields :=
  repeat match goal with
  | |- (if ?c then _ else _) = _ => destruct c
  | |- _ = (if ?c then _ else _) => destruct c
  | |- ?x = ?y => first [ reflexivity | lia | progress f_equal ]
  end.

(** The manifest, which ends the record. *)
Definition manifest_end {A} (rev : Z) (manifest : variable_field) (k : variable_field -> A) : B (Z * A) :=
  manifest ← (if FR04H <=? rev then
                '(_, manifest) ← span_required_to (vf_length manifest) manifest; mret manifest
              else
                _ ← lift (c_assert (vf_length manifest =? 0)); mret (set_ptr None manifest));
  rc ← pldm_msgbuf_ro_complete_consumed;
  mret (rc, k manifest).

Section records.
Context (hdr : pldm__package_header_information) (m : cmem) (L : Z).
Let rev := package_header_format_revision hdr.
Hypothesis Hm : bytes_ok (bytes m).
Hypothesis Hbits : 0 <= component_bitmap_bit_length hdr < 65536.
Hypothesis H8 : component_bitmap_bit_length hdr mod 8 = 0.
Hypothesis HL : 11 <= L < 65536.

Lemma manifest_end_bad {A} manifest (k : variable_field -> A) b Q :
  mb_bad b -> vf_length manifest = manifest_size rev m ->
  (forall f b', mb_done b' -> Q (- EOVERFLOW, k f) b') ->
  wp (manifest_end rev manifest k) b Q.
Proof.
  intros Hb El HQ. unfold manifest_end. apply wp_bind.
  pose proof (manifest_size_range hdr m Hm) as Hr. fold rev in Hr. unfold manifest_size in *.
  destruct (4 <=? rev).
  - apply wp_bind. apply wp_span_to_bad; [done|lia|]. intros [rc p] b2 Hb2 _. apply wp_ret, wp_bind.
    apply wp_consumed_bad; [done|]. intros. by apply wp_ret, HQ.
  - rewrite El. apply wp_bind, wp_ret, wp_ret, wp_bind. apply wp_consumed_bad; [done|].
    intros. by apply wp_ret, HQ.
Qed.

Lemma manifest_end_ok {A} manifest (k : variable_field -> A) c b Q :
  mb_rd m L c b -> vf_length manifest = manifest_size rev m -> c + manifest_size rev m = L ->
  (forall b', mb_done b' ->
     Q (0, k (VarField (if 4 <=? rev then Some (ptr_at m c) else None) (manifest_size rev m))) b') ->
  wp (manifest_end rev manifest k) b Q.
Proof.
  intros Hb El Hc HQ. unfold manifest_end. apply wp_bind. pose proof (rd_pos _ _ _ _ Hb).
  pose proof (manifest_size_range hdr m Hm) as Hr. fold rev in Hr. unfold manifest_size in *.
  destruct (4 <=? rev).
  - pk_span. pk_there. apply wp_ret. rewrite El in *. mb_consumed. apply wp_ret.
    replace (_ =? L) with true by lia. unfold set_ptr. rewrite El. by apply HQ.
  - rewrite El. apply wp_bind, wp_ret, wp_ret. mb_consumed. apply wp_ret.
    replace (_ =? L) with true by lia. unfold set_ptr. rewrite El. by apply HQ.
Qed.

Lemma fd_record_tail_ok field vstr bitmap descs pdata manifest b :
  mb_rd m L (fixed_size rev) b ->
  is_string_type_valid (fld m 7 1) = true ->
  vf_length vstr = fld m 8 1 -> fld m 8 1 <> 0 -> vf_length pdata = fld m 9 2 ->
  vf_length manifest = manifest_size rev m ->
  wp (fd_record_tail hdr field
        (FdRec (fld m 2 1) (fld m 3 4) (fld m 7 1) vstr bitmap descs pdata manifest)) b
    (record_post (fd_fits hdr m L) (fd_at hdr m L) field).
Proof.
  intros Hb Ht Ev Hv Ep Em.
  pose proof (bitmap_size_range hdr Hbits). pose proof (manifest_size_range hdr m Hm) as Hmr. fold rev in Hmr.
  pose proof (fld_bound m 8 1 Hm). pose proof (fld_bound m 9 2 Hm). cbn [Z.of_nat Pos.of_succ_nat] in *.
  change (256 ^ 1) with 256 in *. change (256 ^ 2) with 65536 in *.
  assert (11 <= fixed_size rev <= 15) as Hfix by (unfold fixed_size; destruct (4 <=? _); lia).
  unfold fd_record_tail. fold (bitmap_size hdr). rewrite (bits_land hdr H8). cbn [c_assert]. apply wp_bind.
  apply wp_ret. pk_span. cmp_case; cbn [Z.eqb Z.opp]; [|pk_refused].
  rewrite Ev. pk_span. match goal with |- context [if ?c then (0, _) else (_, vstr)] =>
    set (str := if c then (0, set_ptr (Some (ptr_at m (fixed_size rev + bitmap_size hdr))) vstr)
                else (- EOVERFLOW, vstr));
    assert (str = if c then (0, field_at m (fixed_size rev + bitmap_size hdr) (fld m 8 1))
                  else (- EOVERFLOW, vstr)) as Estr by (subst str; unfold field_at, set_ptr; by rewrite Ev) end.
  destruct str as [rcs str]. apply wp_bind.
  eapply wp_until_to; [exact Hb|lia|rewrite Ep, Em; lia|..]; intros Hfit.
  - clear b1 Hb. intros b1 Hb. replace (_ <=? L) with true in Estr by lia. injection Estr as -> ->.
    apply wp_bind.
    apply (wp_span_to m L _ _ _ _ _ Hb); [lia|lia|]. intros b2 Hb2. pk_there.
    eapply (manifest_end_ok manifest (fun manifest => _)); [exact Hb2|exact Em|lia|].
    intros b3 Hd. unfold record_post. split; [done|]. split; [done|]. unfold fd_fits.
    rewrite Ht. replace (fld m 8 1 =? 0) with false by lia. unfold descs_len, descs_at. fold rev.
    cbn [negb andb]. replace (0 <=? _) with true by lia. split; [done|].
    unfold fd_at, field_at, descs_len, descs_at, set_length, set_ptr. cbn [vf_ptr vf_length]. fold rev.
    rewrite Ep, Em. pk_fields.
  - intros [rc d] b' Hbad. apply wp_bind. apply wp_span_to_bad; [done|lia|]. intros [rc' p] b2 Hbad2 El.
    apply (manifest_end_bad manifest (fun manifest => _)); [done|done|]. intros. pk_refused.
Qed.
End records.

Section records.
Context (hdr : pldm__package_header_information).
Hypothesis Hbits : 0 <= component_bitmap_bit_length hdr < 65536.
Hypothesis H8 : component_bitmap_bit_length hdr mod 8 = 0.

Lemma fd_record_fields_ok m L field rec b :
  bytes_ok (bytes m) -> 11 <= L < 65536 -> mb_rd m L 0 b ->
  wp (fd_record_fields hdr field rec) b (record_post (fd_fits hdr m L) (fd_at hdr m L) field).
Proof.
  intros Hm HL Hb. destruct rec as [count flags vtype vstr bitmap descs pdata manifest].
  unfold fd_record_fields. do 4 pk_extract. cmp_case; [|pk_refused].
  pk_extract. cbn [vf_length set_length]. cmp_case; [pk_refused|]. pk_extract.
  cbn [vf_length set_length].
  destruct (Z.leb_spec 4 (package_header_format_revision hdr)) as [Hrev|Hrev]; [mb_extract|apply wp_bind, wp_ret].
  - destruct (Z.leb_spec 15 L); cbn [Z.eqb Z.opp]; [|].
    + apply fd_record_tail_ok; try done; unfold fixed_size, manifest_size;
        by replace (4 <=? _) with true by lia.
    + pose proof (bitmap_size_range hdr Hbits). pose proof (fld_bound m 8 1 Hm).
      pose proof (fld_bound m 9 2 Hm). pose proof (fld_bound m 11 4 Hm).
      apply wp_stop. intros. apply refused; try done; [|repeat constructor].
      unfold fd_fits, descs_len, descs_at, fixed_size, manifest_size.
      replace (4 <=? _) with true by lia. replace (0 <=? _) with false by lia. by rewrite andb_false_r.
  - cbn [Z.eqb]. apply fd_record_tail_ok; try done; unfold fixed_size, manifest_size;
      by replace (4 <=? _) with false by lia.
Qed.

(** What a device record parses to. *)
Lemma decode_fd_record_ok m len rec :
  mem_ok m -> 0 <= len <= mem_size m ->
  let L := fld m 0 2 in
  exists rc f r,
    decode_pldm_package_firmware_device_id_record_errno (Some hdr) (Some (VarField (Some m) len)) (Some rec)
    = Ok (rc, Some f, Some r) /\
    if (11 <=? L) && (L <=? len) && fd_fits hdr m L
    then rc = 0 /\ f = VarField (Some (ptr_at m L)) (len - L) /\ r = fd_at hdr m L
    else rc ∈ package_errors.
Proof.
  intros Hm Hlen L. unfold decode_pldm_package_firmware_device_id_record_errno. cbn [vf_ptr vf_length].
  match goal with |- context [ro_scope m ?k] =>
    destruct (ro_scope_wp m k (fun '(rc, (f, r)) =>
      if (11 <=? L) && (L <=? len) && fd_fits hdr m L
      then rc = 0 /\ f = VarField (Some (ptr_at m L)) (len - L) /\ r = fd_at hdr m L
      else rc ∈ package_errors)) as ([rc [f r]] & -> & H) end.
  2: { cbn [mbind outcome_bind]. by exists rc, f, r. }
  pose proof (fld_bound m 0 2 (mem_ok_bytes _ Hm)) as HL. fold L in HL.
  apply wp_bind. apply init_dynamic_ok; [done..|lia| |]; fold L.
  - intros Hl1 Hl2 b Hb. rewrite Z.eqb_refl. eapply wp_mono; [apply (fd_record_fields_ok m L); [apply Hm|cbn in *; lia|done]|].
    intros [rc [f r]] b' (Hd & -> & HP). split; [done|].
    replace (11 <=? L) with true by lia. replace (L <=? len) with true by lia. cbn [andb].
    destruct (fd_fits hdr m L); [|done]. by destruct HP as [-> ->].
  - intros Hno tail' b' Hd. cbn [Z.eqb Z.opp]. apply wp_ret. split; [done|].
    replace ((11 <=? L) && (L <=? len)) with false by lia. cbn [andb]. repeat constructor.
Qed.
End records.

(** *** Downstream devices *)

Section records.
Context (hdr : pldm__package_header_information) (m : cmem) (L : Z).
Let rev := package_header_format_revision hdr.
Hypothesis Hm : bytes_ok (bytes m).
Hypothesis Hbits : 0 <= component_bitmap_bit_length hdr < 65536.
Hypothesis H8 : component_bitmap_bit_length hdr mod 8 = 0.
Hypothesis HL : 11 <= L < 65536.

(** From the descriptors on, wherever they start. *)
Lemma dd_record_end field vstr bitmap descs pdata manifest c stamp b :
  (c = descs_at hdr m (stamp_size m) -> c <= L -> 
     stamp = (if Z.testbit (fld m 3 4) 0
              then fld m (Z.to_nat (fixed_size rev + bitmap_size hdr + fld m 8 1)) 4 else 0) /\
     vstr = field_at m (fixed_size rev + bitmap_size hdr) (fld m 8 1)) ->
  c = descs_at hdr m (stamp_size m) ->
  bitmap = field_at m (fixed_size rev) (bitmap_size hdr) ->
  mb_rd m L c b -> is_string_type_valid (fld m 7 1) = true ->
  vf_length pdata = fld m 9 2 -> vf_length manifest = manifest_size rev m -> c <= 66000 ->
  wp ('(_, descs) ← span_until_to (vf_length pdata + vf_length manifest) descs;
      '(_, pdata) ← span_required_to (vf_length pdata) pdata;
      manifest_end rev manifest (fun manifest =>
        (field, DdRec (fld m 2 1) (fld m 3 4) (fld m 7 1) vstr stamp bitmap descs pdata manifest))) b
    (record_post (dd_fits hdr m L) (dd_at hdr m L) field).
Proof.
  intros Hc Ec -> Hb Ht Ep Em Hmax.
  pose proof (manifest_size_range hdr m Hm) as Hmr. fold rev in Hmr. pose proof (rd_pos _ _ _ _ Hb).
  pose proof (fld_bound m 9 2 Hm). cbn [Z.of_nat Pos.of_succ_nat] in *. change (256 ^ 2) with 65536 in *.
  apply wp_bind. eapply wp_until_to; [exact Hb|lia|rewrite Ep, Em; lia|..]; intros Hfit.
  - clear b Hb. intros b1 Hb. destruct Hc as [-> ->]; [done|lia|].
    apply wp_bind. apply (wp_span_to m L _ _ _ _ _ Hb); [lia|lia|]. intros b2 Hb2. pk_there.
    eapply (manifest_end_ok hdr m L Hm HL manifest (fun manifest => _)); [exact Hb2|exact Em|fold rev; lia|].
    intros b3 Hd. unfold record_post. split; [done|]. split; [done|]. unfold dd_fits.
    rewrite Ht. unfold descs_len. rewrite <- Ec. fold rev.
    cbn [negb andb]. replace (0 <=? _) with true by lia. split; [done|].
    unfold dd_at, field_at, descs_len, set_length, set_ptr. rewrite <- Ec. cbn [vf_ptr vf_length]. fold rev.
    rewrite Ep, Em. pk_fields.
  - intros [rc d] b' Hbad. apply wp_bind. apply wp_span_to_bad; [done|lia|]. intros [rc' p] b2 Hbad2 El.
    apply (manifest_end_bad hdr m Hm manifest (fun manifest => _)); [done|done|]. intros.
    apply refused; try done; [|repeat constructor]. unfold dd_fits, descs_len. rewrite <- Ec. fold rev.
    replace (0 <=? _) with false by lia. by rewrite andb_false_r.
Qed.

Lemma dd_record_tail_ok field vstr stamp bitmap descs pdata manifest b :
  mb_rd m L (fixed_size rev) b ->
  is_string_type_valid (fld m 7 1) = true ->
  vf_length vstr = fld m 8 1 -> vf_length pdata = fld m 9 2 ->
  vf_length manifest = manifest_size rev m ->
  wp (dd_record_tail hdr field
        (DdRec (fld m 2 1) (fld m 3 4) (fld m 7 1) vstr stamp bitmap descs pdata manifest)) b
    (record_post (dd_fits hdr m L) (dd_at hdr m L) field).
Proof.
  intros Hb Ht Ev Ep Em.
  pose proof (bitmap_size_range hdr Hbits). pose proof (manifest_size_range hdr m Hm) as Hmr. fold rev in Hmr.
  pose proof (fld_bound m 8 1 Hm). pose proof (fld_bound m 9 2 Hm). cbn [Z.of_nat Pos.of_succ_nat] in *.
  change (256 ^ 1) with 256 in *. change (256 ^ 2) with 65536 in *.
  assert (11 <= fixed_size rev <= 15) as Hfix by (unfold fixed_size; destruct (4 <=? _); lia).
  unfold dd_record_tail. fold (bitmap_size hdr). rewrite (bits_land hdr H8). cbn [c_assert]. apply wp_bind.
  apply wp_ret. pk_span. cmp_case; cbn [Z.eqb Z.opp].
  2: { apply wp_stop. intros. apply refused; try done; [|repeat constructor].
    unfold dd_fits, descs_len, descs_at, stamp_size. fold rev.
    replace (0 <=? _) with false; [by rewrite andb_false_r|]. destruct (Z.testbit _ 0); lia. }
  rewrite Ev. pk_span.
  match goal with |- context [if ?c then (0, _) else (_, vstr)] =>
    set (str := if c then (0, set_ptr (Some (ptr_at m (fixed_size rev + bitmap_size hdr))) vstr)
                else (- EOVERFLOW, vstr));
    assert (str = if c then (0, field_at m (fixed_size rev + bitmap_size hdr) (fld m 8 1))
                  else (- EOVERFLOW, vstr)) as Estr by (subst str; unfold field_at, set_ptr; by rewrite Ev) end.
  destruct str as [rcs str]. unfold descs_at, stamp_size.
  assert (descs_at hdr m (stamp_size m)
    = fixed_size rev + bitmap_size hdr + fld m 8 1 + (if Z.testbit (fld m 3 4) 0 then 4 else 0)) as Hd by done.
  destruct (Z.testbit (fld m 3 4) 0) eqn:Eb.
  - apply wp_bind. apply (wp_extract_kind m L KU32 stamp _ _ _ _ Hb eq_refl); [cbn; lia|].
    intros b2 Hb2. cbn [kind_size kind_conv] in *. change (Z.of_nat 4) with 4 in *.
    fold (fld m (Z.to_nat (fixed_size rev + bitmap_size hdr + fld m 8 1)) 4).
    match goal with |- context [if ?c then (0, fld ?x ?o ?n) else ?e] =>
      set (st := if c then (0, fld x o n) else e);
      assert (st = if c then (0, fld x o n) else e) as Est by done end.
    destruct st as [rcst st].
    eapply (dd_record_end field str); [|exact (eq_sym Hd)| |exact Hb2|done..|lia].
    + intros Hc Hle. rewrite Eb. match type of Est with context [?a <=? L] => replace (a <=? L) with true in Est by lia end.
      replace (_ <=? L) with true in Estr by lia. injection Est as _ ->. injection Estr as _ ->. done.
    + done.
  - apply wp_bind, wp_ret. rewrite Z.add_0_r in Hd.
    eapply (dd_record_end field str); [|exact (eq_sym Hd)| |exact Hb|done..|lia].
    + intros Hc Hle. rewrite Eb. replace (_ <=? L) with true in Estr by lia. injection Estr as _ ->. done.
    + done.
Qed.
End records.

Section records.
Context (hdr : pldm__package_header_information).
Hypothesis Hbits : 0 <= component_bitmap_bit_length hdr < 65536.
Hypothesis H8 : component_bitmap_bit_length hdr mod 8 = 0.

(** A record too short for its fixed fields ends at the bitmap. *)
Lemma dd_record_tail_short m L field rec b :
  4 <= package_header_format_revision hdr -> L < 15 -> bytes_ok (bytes m) ->
  mb_rd m L 15 b ->
  wp (dd_record_tail hdr field rec) b (record_post (dd_fits hdr m L) (dd_at hdr m L) field).
Proof.
  intros Hrev HL Hm Hb. destruct rec as [count flags vtype vstr stamp bitmap descs pdata manifest].
  pose proof (bitmap_size_range hdr Hbits). unfold dd_record_tail. fold (bitmap_size hdr).
  rewrite (bits_land hdr H8). cbn [c_assert]. apply wp_bind, wp_ret. pk_span.
  cmp_case; [lia|]. cbn [Z.eqb Z.opp]. apply wp_stop. intros. apply refused; try done; [|repeat constructor].
  pose proof (manifest_size_range hdr m Hm). pose proof (fld_bound m 8 1 Hm). pose proof (fld_bound m 9 2 Hm).
  unfold dd_fits, descs_len, descs_at, stamp_size, fixed_size. replace (4 <=? _) with true by lia.
  replace (0 <=? _) with false; [by rewrite andb_false_r|]. destruct (Z.testbit _ 0); lia.
Qed.

Lemma dd_record_fields_ok m L field rec b :
  bytes_ok (bytes m) -> 11 <= L < 65536 -> mb_rd m L 0 b ->
  wp (dd_record_fields hdr field rec) b (record_post (dd_fits hdr m L) (dd_at hdr m L) field).
Proof.
  intros Hm HL Hb. destruct rec as [count flags vtype vstr stamp bitmap descs pdata manifest].
  unfold dd_record_fields. do 4 pk_extract. cmp_case; [|pk_refused].
  do 2 pk_extract.
  destruct (Z.leb_spec 4 (package_header_format_revision hdr)) as [Hrev|Hrev];
    [mb_extract|apply wp_bind, wp_ret].
  - destruct (Z.leb_spec 15 L); cbn [Z.eqb Z.opp].
    + apply dd_record_tail_ok; try done; unfold fixed_size, manifest_size;
        by replace (4 <=? _) with true by lia.
    + by apply dd_record_tail_short.
  - apply dd_record_tail_ok; try done; unfold fixed_size, manifest_size;
      by replace (4 <=? _) with false by lia.
Qed.

(** The parser's iterators step over one record. *)
Definition stepped {R} (fits : Z -> bool) (at_ : Z -> R) (m : cmem) (len : Z) (rc : Z) (f : variable_field)
    (r : R) : Prop :=
  let L := fld m 0 2 in
  if (11 <=? L) && (L <=? len) && fits L
  then rc = 0 /\ f = field_at m L (len - L) /\ r = at_ L
  else rc ∈ package_errors.

Lemma fd_from_iter_ok p m len rec :
  pkg_state p = PLDM_PACKAGE_PARSE_FIRMWARE_DEVICES -> pkg_hdr p = Some hdr ->
  iter_field p = VarField (Some m) len -> mem_ok m -> 0 <= len <= mem_size m ->
  exists rc f r,
    decode_pldm_package_firmware_device_id_record_from_iter (Some p) (Some rec)
    = Ok (rc, Some (set_iter_field f p), Some r) /\
    stepped (fd_fits hdr m) (fd_at hdr m) m len rc f r.
Proof.
  intros Hs Hh Hf Hm Hlen. unfold decode_pldm_package_firmware_device_id_record_from_iter.
  rewrite Hs, Hh, Hf. rewrite bool_decide_true by done. cbn [negb].
  destruct (decode_fd_record_ok hdr Hbits H8 m len rec Hm Hlen) as (rc & f & r & -> & H).
  cbn [mbind outcome_bind]. exists rc, f, r. split; [done|]. exact H.
Qed.

Lemma dd_from_iter_ok p m len rec :
  pkg_state p = PLDM_PACKAGE_PARSE_DOWNSTREAM_DEVICES -> pkg_hdr p = Some hdr ->
  1 < package_header_format_revision hdr ->
  iter_field p = VarField (Some m) len -> mem_ok m -> 0 <= len <= mem_size m ->
  exists rc f r,
    decode_pldm_package_downstream_device_id_record_from_iter (Some p) (Some rec)
    = Ok (rc, Some (set_iter_field f p), Some r) /\
    stepped (dd_fits hdr m) (dd_at hdr m) m len rc f r.
Proof.
  intros Hs Hh Hrev Hf Hm Hlen. unfold decode_pldm_package_downstream_device_id_record_from_iter.
  rewrite Hs, Hh, Hf. rewrite bool_decide_true by done. cbn [negb vf_ptr vf_length].
  replace (1 <? _) with true by lia. cbn [c_assert mbind outcome_bind].
  set (L := fld m 0 2).
  match goal with |- context [ro_scope m ?k] =>
    destruct (ro_scope_wp m k (fun '(rc, (f, r)) => stepped (dd_fits hdr m) (dd_at hdr m) m len rc f r))
      as ([rc [f r]] & -> & H) end.
  2: { cbn [mbind outcome_bind]. by exists rc, f, r. }
  pose proof (fld_bound m 0 2 (mem_ok_bytes _ Hm)) as HL. fold L in HL.
  apply wp_bind. apply init_dynamic_ok; [done..|lia| |]; fold L.
  - intros Hl1 Hl2 b Hb. rewrite Z.eqb_refl.
    eapply wp_mono; [apply (dd_record_fields_ok m L); [apply Hm|cbn in *; lia|done]|].
    intros [rc [f r]] b' (Hd & -> & HP). split; [done|]. unfold stepped. fold L.
    replace (11 <=? L) with true by lia. replace (L <=? len) with true by lia. cbn [andb].
    destruct (dd_fits hdr m L); [|done]. by destruct HP as [-> ->].
  - intros Hno tail' b' Hd. cbn [Z.eqb Z.opp]. apply wp_stop. intros. split; [done|].
    unfold stepped. fold L.
    replace ((11 <=? L) && (L <=? len)) with false by lia. cbn [andb]. repeat constructor.
Qed.
End records.

(** *** Descriptors *)

Definition descriptor_at (m : cmem) : pldm_descriptor :=
  Descriptor (fld m 0 2) (fld m 2 2) (Some (ptr_at m 4)).

Lemma descriptor_from_iter_ok m len n d :
  mem_ok m -> 0 <= len <= mem_size m ->
  exists rc f d',
    decode_pldm_descriptor_from_iter (Some (DescIter (Some (VarField (Some m) len)) n)) (Some d)
    = Ok (rc, Some (DescIter (Some f) n), Some d') /\
    if (5 <=? len) && (4 + fld m 2 2 <=? len)
    then rc = 0 /\ f = field_at m (4 + fld m 2 2) (len - (4 + fld m 2 2)) /\ d' = descriptor_at m
    else rc = - EOVERFLOW.
Proof.
  intros Hm Hlen. destruct d as [dtype dlen data]. unfold decode_pldm_descriptor_from_iter.
  cbn [vf_ptr vf_length default].
  match goal with |- context [ro_scope ?x ?k] =>
    destruct (ro_scope_wp x k (fun '(rc, (f, d')) =>
      if (5 <=? len) && (4 + fld m 2 2 <=? len)
      then rc = 0 /\ f = field_at m (4 + fld m 2 2) (len - (4 + fld m 2 2)) /\ d' = descriptor_at m
      else rc = - EOVERFLOW)) as ([rc [f d']] & E & H) end.
  2: { unfold id in *. rewrite E. cbn [mbind outcome_bind]. by exists rc, f, d'. }
  pose proof (fld_bound m 2 2 (mem_ok_bytes _ Hm)) as Hd. destruct Hm.
  unfold id. autounfold with msgbuf. apply wp_bind. apply (wp_init_rd m len); [lia..|]. intros b _.
  destruct (Z.leb_spec 5 len); cbn [Z.eqb Z.opp andb]; [intros Hb|intros; by apply wp_ret].
  do 2 pk_extract. mb_span.
  assert (exists rcs data', (if 4 + fld m 2 2 <=? len then (0, Some (Some (ptr_at m 4))) else (- EOVERFLOW, Some None))
    = (rcs, data') /\ (4 + fld m 2 2 <= len -> data' = Some (Some (ptr_at m 4)))) as (rcs & data' & -> & Hdata).
  { destruct (Z.leb_spec (4 + fld m 2 2) len); do 2 eexists; (split; [reflexivity|]); [done|lia]. }
  apply wp_bind. eapply wp_remaining_to; [exact Hb|..]; intros Hle b4 Hb4; pk_complete; apply wp_ret; (split; [done|]).
  - replace (4 + _ <=? len) with true by lia. rewrite Hdata by done. by rewrite Z.leb_refl.
  - replace (4 + _ <=? len) with false by lia. done.
Qed.

Lemma package_errors_neg rc : rc ∈ package_errors -> rc <> 0.
Proof. unfold package_errors. rewrite !elem_of_cons, elem_of_nil. lia. Qed.

(** ** Components *)

Section component.
Context (hdr : pldm__package_header_information).
Let rev := package_header_format_revision hdr.

Definition opaque_len (m : cmem) : Z :=
  if 3 <=? rev then fld m (Z.to_nat (22 + fld m 21 1)) 4 else 0.

(** The size of the component information. *)
Definition comp_total (m : cmem) : Z :=
  22 + fld m 21 1 + (if 3 <=? rev then 4 + opaque_len m else 0).

Definition comp_fits (m : cmem) (len : Z) : bool :=
  (22 <=? len) && is_string_type_valid (fld m 20 1) && (comp_total m <=? len) &&
  negb ((0x000d <? fld m 0 2) && (fld m 0 2 <? 0x8000)).

Definition comp_at (m package : cmem) : pldm_package_component_image_information :=
  CompInfo (fld m 0 2) (fld m 2 2) (fld m 4 4) (fld m 8 2) (fld m 10 2)
    (field_at package (fld m 12 4) (fld m 16 4)) (fld m 20 1)
    (field_at m 22 (fld m 21 1))
    (VarField (if opaque_len m =? 0 then None else Some (ptr_at m (22 + fld m 21 1 + 4))) (opaque_len m)).

Lemma opaque_len_range m : bytes_ok (bytes m) -> 0 <= opaque_len m < 4294967296.
Proof.
  intros Hm. unfold opaque_len. destruct (3 <=? rev); [|lia].
  apply (fld_bound m (Z.to_nat (22 + fld m 21 1)) 4 Hm).
Qed.

Lemma component_fields_ok m len field info b :
  bytes_ok (bytes m) -> 22 <= len -> mb_rd m len 0 b ->
  wp (component_fields hdr field info) b (fun '(rc, (f, i, location, size)) b' =>
    mb_done b' /\
    if is_string_type_valid (fld m 20 1) && (comp_total m <=? len)
    then rc = 0 /\ f = field_at m (comp_total m) (len - comp_total m) /\
      location = fld m 12 4 /\ size = fld m 16 4 /\
      i = CompInfo (fld m 0 2) (fld m 2 2) (fld m 4 4) (fld m 8 2) (fld m 10 2) (component_image info)
            (fld m 20 1) (field_at m 22 (fld m 21 1))
            (VarField (if opaque_len m =? 0 then None else Some (ptr_at m (22 + fld m 21 1 + 4)))
               (opaque_len m))
    else rc ∈ package_errors).
Proof.
  intros Hm Hlen Hb. destruct info as [class id stamp options method image vtype vstr opaque].
  pose proof (fld_bound m 21 1 Hm) as Hv. pose proof (opaque_len_range m Hm) as Hop.
  unfold component_fields. do 8 pk_extract.
  destruct (is_string_type_valid (fld m 20 1)) eqn:Et; cbn [negb andb].
  2: { apply wp_stop. intros. split; [done|]. repeat constructor. }
  pk_extract. cbn [vf_length set_length]. pk_span.
  match goal with |- context [if ?c then (0, ?x) else ?e] =>
    set (st := if c then (0, x) else e); assert (st = if c then (0, x) else e) as Est by done end.
  destruct st as [rcst st]. fold rev. unfold comp_total, opaque_len in *.
  destruct (3 <=? rev) eqn:Hrev.
  - apply wp_bind. mb_extract. set (n := fld m (Z.to_nat (22 + fld m 21 1)) 4) in *.
    destruct (Z.leb_spec (22 + fld m 21 1 + 4) len) as [Hle|Hlt]; cbn [Z.eqb Z.opp].
    2: { apply wp_ret. cbn [Z.eqb]. apply wp_stop. intros. split; [done|].
         replace (_ <=? len) with false by lia. repeat constructor. }
    rewrite (proj2 (Z.leb_le _ _)) in Est by lia. injection Est as -> ->.
    cbn [vf_length set_length]. pk_span.
    destruct (Z.leb_spec (22 + fld m 21 1 + 4 + n) len) as [Hn|Hn]; apply wp_ret; rewrite Z.eqb_refl.
    + apply wp_bind. eapply wp_remaining_to; [exact Hb|..]; intros Hle2 b12 Hb12; [|lia]. mb_consumed.
      rewrite Z.eqb_refl. apply wp_ret. split; [done|]. replace (_ <=? len) with true by lia.
      split; [done|]. unfold field_at, set_ptr, set_length. cbn [vf_ptr vf_length]. split_and!; pk_fields.
    + apply wp_bind. eapply wp_remaining_to; [exact Hb|..]; intros Hle2 b12 Hb12; [lia|]. mb_consumed.
      apply wp_ret. split; [done|]. replace (_ <=? len) with false by lia.
      repeat (cmp_case; try lia); repeat constructor.
  - apply wp_bind, wp_ret. cbn [Z.eqb].
    apply wp_bind. eapply wp_remaining_to; [exact Hb|..]; intros Hle2 b12 Hb12; mb_consumed; apply wp_ret;
      (split; [done|]).
    + rewrite (proj2 (Z.leb_le _ _)) in Est by lia. injection Est as -> ->.
      rewrite Z.eqb_refl. replace (_ <=? len) with true by lia.
      split; [done|]. unfold field_at, set_ptr, set_length. cbn [vf_ptr vf_length Z.eqb].
      split_and!; pk_fields.
    + replace (22 + fld m 21 1 + 0 <=? len) with false by lia.
      repeat (cmp_case; try lia); repeat constructor.
Qed.

Lemma component_image_at_ok pkg plen location size image :
  mem_ok pkg -> 0 <= plen <= mem_size pkg -> u32_ok location -> u32_ok size ->
  exists rc f, component_image_at pkg plen location size image = Ok (rc, f) /\
  if location + size <=? plen then rc = 0 /\ f = field_at pkg location size else rc = - EOVERFLOW.
Proof.
  intros [] Hplen Hloc Hsize. unfold u32_ok in *. unfold component_image_at.
  match goal with |- context [ro_scope pkg ?k] =>
    destruct (ro_scope_wp pkg k (fun '(rc, f) => if location + size <=? plen
      then rc = 0 /\ f = field_at pkg location size else rc = - EOVERFLOW)) as ([rc f] & -> & H) end.
  2: { by exists rc, f. }
  autounfold with msgbuf. apply wp_bind. apply (wp_init_rd pkg plen); [lia..|]. intros b _.
  pk_there. intros Hb. apply wp_bind. eapply wp_span_required_rd; [exact Hb|lia|lia|]. intros b1 Hb1.
  assert (forall x y, wp (let '(_, _) := if 0 + location <=? plen then (0, set_out x (Some (ptr_at pkg 0))) else (- EOVERFLOW, y) in
    '(_, image) ← span_required_to size image;
    rc ← pldm_msgbuf_ro_complete;
    mret (rc, if rc =? 0 then set_length size image else image)) b1
    (fun a b' => mb_done b' /\ let '(rc, f) := a in if location + size <=? plen
      then rc = 0 /\ f = field_at pkg location size else rc = - EOVERFLOW)) as Hgo; [|apply Hgo].
  intros x y. destruct (0 + location <=? plen).
  all: apply wp_bind; apply (wp_span_to pkg plen _ _ _ _ _ Hb1); [lia|lia|]; intros b2 Hb2.
  all: match goal with |- context [if ?c then (0, ?x) else ?e] =>
    set (st := if c then (0, x) else e); assert (st = if c then (0, x) else e) as Est by done end;
    destruct st as [rcst st]; pk_complete; apply wp_ret; (split; [done|]).
  all: destruct (Z.leb_spec (location + size) plen);
    match goal with |- context [?a <=? ?p] =>
      first [replace (a <=? p) with true in * by lia | replace (a <=? p) with false in * by lia] end;
    [|done]; injection Est as _ ->; done.
Qed.

(** What one component parses to, with its image in the package of [plen] bytes. *)
Definition comp_stepped (pkg : cmem) (plen : Z) (m : cmem) (len rc : Z) (f : variable_field)
    (i : pldm_package_component_image_information) : Prop :=
  if comp_fits m len && (fld m 12 4 + fld m 16 4 <=? plen)
  then rc = 0 /\ f = field_at m (comp_total m) (len - comp_total m) /\ i = comp_at m pkg
  else rc ∈ package_errors.

Lemma comp_from_iter_ok p m len pkg plen info :
  pkg_state p = PLDM_PACKAGE_PARSE_COMPONENT_IMAGE_INFORMATION -> pkg_hdr p = Some hdr ->
  iter_field p = VarField (Some m) len -> mem_ok m -> 0 <= len <= mem_size m ->
  pkg_package p = VarField (Some pkg) plen -> mem_ok pkg -> 0 <= plen <= mem_size pkg ->
  exists rc f i,
    decode_pldm_package_component_image_information_from_iter (Some p) (Some info)
    = Ok (rc, Some (set_iter_field f p), Some i) /\ comp_stepped pkg plen m len rc f i.
Proof.
  intros Hs Hh Hf Hm Hlen Hp Hpkg Hplen.
  unfold decode_pldm_package_component_image_information_from_iter.
  rewrite Hs, Hh, Hf. rewrite bool_decide_true by done. cbn [negb vf_ptr vf_length].
  match goal with |- context [ro_scope m ?k] =>
    destruct (ro_scope_wp m k (fun '(rc, (f, i, location, size)) =>
      if (22 <=? len) && is_string_type_valid (fld m 20 1) && (comp_total m <=? len)
      then rc = 0 /\ f = field_at m (comp_total m) (len - comp_total m) /\
        location = fld m 12 4 /\ size = fld m 16 4 /\
        i = CompInfo (fld m 0 2) (fld m 2 2) (fld m 4 4) (fld m 8 2) (fld m 10 2) (component_image info)
              (fld m 20 1) (field_at m 22 (fld m 21 1))
              (VarField (if opaque_len m =? 0 then None else Some (ptr_at m (22 + fld m 21 1 + 4)))
                 (opaque_len m))
      else rc ∈ package_errors)) as ([rc [[[f i] location] size]] & -> & H) end.
  { autounfold with msgbuf. apply wp_bind. destruct Hm.
    apply (wp_init_rd m len); [lia..|]. intros b _. destruct (Z.leb_spec 22 len); cbn [Z.eqb Z.opp andb].
    - intros Hb. eapply wp_mono; [by apply component_fields_ok|]. intros [rc [[[f i] lo] sz]] b' H'. exact H'.
    - intros Hb. apply wp_ret. split; [done|]. repeat constructor. }
  cbn [mbind outcome_bind]. unfold comp_stepped, comp_fits.
  destruct ((22 <=? len) && is_string_type_valid (fld m 20 1) && (comp_total m <=? len)); cbn [andb].
  2: { exists rc, f, i. assert (rc <> 0) as Hrc by by apply package_errors_neg.
       replace (rc =? 0) with false by lia. split; done. }
  destruct H as (-> & -> & -> & -> & ->). cbn [Z.eqb component_classification].
  destruct ((13 <? fld m 0 2) && (fld m 0 2 <? 32768)); cbn [negb andb].
  { do 3 eexists. split; [reflexivity|]. repeat constructor. }
  cbn [set_iter_field set_iter pkg_package]. rewrite Hp. cbn [vf_ptr vf_length].
  destruct (component_image_at_ok pkg plen (fld m 12 4) (fld m 16 4) (component_image info) Hpkg Hplen)
    as (rc & f & E & H); [apply (fld_bound m 12 4), Hm|apply (fld_bound m 16 4), Hm|].
  cbn [component_image]. rewrite E. cbn [mbind outcome_bind]. do 3 eexists. split; [reflexivity|].
  destruct (_ <=? plen).
  - by destruct H as [-> ->].
  - subst. repeat constructor.
Qed.
End component.

(** ** The counts in front of the records *)

Lemma iter_count_ok k extract checked p m len :
  (forall v, extract v = pldm_msgbuf_extract k v) \/
    (forall v, extract v = msgbuf_to_size (pldm_msgbuf_extract k) v) ->
  iter_field p = VarField (Some m) len -> mem_ok m -> 0 <= len <= mem_size m ->
  kind_conv k = le_dec -> (1 <= kind_size k)%nat ->
  exists rc p', iter_count extract checked p = Ok (rc, p') /\
    if Z.of_nat (kind_size k) <=? len
    then rc = 0 /\ p' = set_iter (field_at m (Z.of_nat (kind_size k)) (len - Z.of_nat (kind_size k)))
                          (fld m 0 (kind_size k)) p
    else rc = - EOVERFLOW /\ pkg_state p' = pkg_state p.
Proof.
  intros Hex Hf Hm Hlen Hk H1. unfold iter_count. rewrite Hf. cbn [vf_ptr vf_length].
  pose proof (kind_size_bound k).
  match goal with |- context [ro_scope m ?x] =>
    destruct (ro_scope_wp m x (fun '(rc, p') =>
      if Z.of_nat (kind_size k) <=? len
      then rc = 0 /\ p' = set_iter (field_at m (Z.of_nat (kind_size k)) (len - Z.of_nat (kind_size k)))
                            (fld m 0 (kind_size k)) p
      else rc = - EOVERFLOW /\ pkg_state p' = pkg_state p)) as ([rc p'] & -> & H') end.
  2: { by exists rc, p'. }
  destruct Hm. autounfold with msgbuf. apply wp_bind. apply (wp_init_rd m len); [lia..|]. intros b _.
  destruct (Z.leb_spec 1 len); cbn [Z.eqb Z.opp]; intros Hb.
  2: { apply wp_ret. split; [done|]. by replace (_ <=? len) with false by lia. }
  assert (forall Q, (forall b', mb_rd m len (Z.of_nat (kind_size k)) b' ->
     Q (if Z.of_nat (kind_size k) <=? len then (0, fld m 0 (kind_size k)) else (- EOVERFLOW, iter_entries p)) b') ->
     wp (extract (iter_entries p)) b Q) as Hext.
  { intros Q HQ. destruct Hex as [He|He]; rewrite He.
    - eapply wp_extract_kind; [exact Hb|reflexivity|lia|]. intros b' Hb'. rewrite Hk. by apply HQ.
    - eapply wp_to_size_rd; [intros; reflexivity|exact Hb|reflexivity|lia|]. intros b' Hb'.
      rewrite Hk. by apply HQ. }
  apply wp_bind, Hext. intros b1 Hb1. destruct (Z.leb_spec (Z.of_nat (kind_size k)) len) as [Hle|Hlt].
  - rewrite Z.eqb_refl, andb_false_r. cbn [negb]. apply wp_bind.
    eapply wp_remaining_to; [exact Hb1|..]; intros Hle2 b2 Hb2; [|lia]. pk_complete. apply wp_ret.
    split; [done|]. by rewrite Z.leb_refl.
  - cbn [Z.eqb Z.opp negb]. rewrite andb_true_r. destruct checked; [by apply wp_stop|].
    apply wp_bind. eapply wp_remaining_to; [exact Hb1|..]; intros Hle2 b2 Hb2; [lia|]. pk_complete. apply wp_ret.
    split; [done|]. by replace (_ <=? len) with false by lia.
Qed.

(** ** The header *)

Definition header_errors : list Z := [- EOVERFLOW; - EPROTO; - ENOTSUP].

Lemma string_type_range t : is_string_type_valid t = (1 <=? t) && (t <=? 5).
Proof.
  destruct (Z.leb_spec 1 t), (Z.leb_spec t 5); cbn [andb].
  1: { assert (t = 1 \/ t = 2 \/ t = 3 \/ t = 4 \/ t = 5) as [->|[->|[->|[->| ->]]]] by lia; done. }
  all: destruct t as [|[[[]|[]|]|[[]|[]|]|]|]; (done || lia).
Qed.

Lemma identifier_known id : known_identifier id = bool_decide (id ∈ format_identifier <$> [1; 2; 3; 4]).
Proof.
  unfold known_identifier. cbn [fmap list_fmap]. apply Bool.eq_true_iff_eq.
  rewrite !orb_true_iff, !bool_decide_eq_true, !elem_of_cons, elem_of_nil. cbn [format_identifier]. tauto.
Qed.

Lemma known_identifier_of rev id : identifier_of rev = Some id -> 1 <= rev <= 4 -> known_identifier id = true.
Proof.
  intros E Hr. assert (rev = 1 \/ rev = 2 \/ rev = 3 \/ rev = 4) as [-> | [-> | [-> | ->]]] by lia;
    injection E as <-; reflexivity.
Qed.

Section header.
Context (m : cmem) (len : Z).
Let rev := fld m 16 1.
Let hsize := fld m 17 2.
Let vlen := fld m 35 1.

(** Where the header checksum is. *)
Definition sum_at : Z := hsize - 4 * checksums rev.

Definition header_at : pldm__package_header_information :=
  PkgHdr (slice 0 16 (bytes m)) rev (slice 19 13 (bytes m)) (fld m 32 2) (fld m 34 1) (field_at m 36 vlen).

Definition areas_at : variable_field := field_at m (36 + vlen) (sum_at - 36 - vlen).

Definition sums_at : header_sums :=
  if 4 <=? rev
  then Sums (fld m (Z.to_nat sum_at) 4) sum_at (fld m (Z.to_nat (sum_at + 4)) 4) (field_at m hsize (len - hsize))
  else Sums (fld m (Z.to_nat sum_at) 4) sum_at 0 (VarField None 0).

(** The header is complete and of a revision up to [pin]. *)
Definition header_fits (pin : Z) : bool :=
  (36 <=? len) && bool_decide (identifier_of rev = Some (slice 0 16 (bytes m))) &&
  (1 <=? rev) && (rev <=? pin) && (fld m 32 2 mod 8 =? 0) && is_string_type_valid (fld m 34 1) &&
  (39 <=? sum_at) && (36 + vlen <=? sum_at) && (hsize <=? len).

Hypothesis Hm : mem_ok m.
Hypothesis Hlen : 0 <= len <= mem_size m.

Definition header_post (pin : Z)
    : Z * (pldm__package_header_information * variable_field * header_sums) -> Prop :=
  fun '(rc, (h, a, s)) =>
    if header_fits pin then rc = 0 /\ h = header_at /\ a = areas_at /\ s = sums_at
    else rc ∈ header_errors /\ rc = first_failure (header_checks m len pin).

Lemma header_refused pin rc x :
  header_fits pin = false -> rc = first_failure (header_checks m len pin) -> rc ∈ header_errors ->
  header_post pin (rc, x).
Proof. destruct x as [[h a] s]. intros E H ?. cbn. by rewrite E. Qed.

Lemma sum_at_checksum : sum_at = checksum_at m.
Proof. unfold sum_at, checksum_at, checksums, rev, hsize. destruct (Z.leb_spec 4 (fld m 16 1)), (Z.ltb_spec (fld m 16 1) 4); lia. Qed.

Lemma identifier_of_format id : 1 <= rev <= 4 -> identifier_of rev = Some id <-> id = format_identifier rev.
Proof.
  intros. assert (rev = 1 \/ rev = 2 \/ rev = 3 \/ rev = 4) as [-> | [-> | [-> | ->]]] by lia;
    (split; [intros E; by injection E as <-|by intros ->]).
Qed.

(** The checks behind the string type all fail in the same way. *)
Lemma tail_refused pin x :
  pin <= 4 -> 36 <= len -> identifier_of rev = Some (slice 0 16 (bytes m)) -> 1 <= rev <= pin ->
  fld m 32 2 mod 8 = 0 -> is_string_type_valid (fld m 34 1) = true ->
  (39 <=? sum_at) && (36 + vlen <=? sum_at) && (hsize <=? len) = false ->
  header_post pin (- EOVERFLOW, x).
Proof.
  intros Hp H36 Hid Hrev H8 Ht Hf. apply header_refused; [| |repeat constructor].
  { unfold header_fits. rewrite <- !andb_assoc in *. rewrite Hf. by rewrite !andb_false_r. }
  unfold header_checks. rewrite first_pass by lia. pose proof Hid as Hid'.
  apply identifier_of_format in Hid' as Ei; [|lia]. fold rev vlen hsize.
  rewrite first_pass.
  2: { rewrite <- identifier_known. apply (known_identifier_of rev); [done|lia]. }
  do 2 rewrite first_pass by lia. rewrite first_pass by by apply bool_decide_eq_true.
  rewrite first_pass by lia. rewrite first_pass by by rewrite <- string_type_range.
  rewrite <- sum_at_checksum. cbn [first_failure]. change (36 + 3) with 39.
  destruct (39 <=? sum_at), (36 + vlen <=? sum_at), (hsize <=? len); done.
Qed.

Lemma header_tail_ok pin areas vstr b :
  pin <= 4 -> 36 <= len -> identifier_of rev = Some (slice 0 16 (bytes m)) -> 1 <= rev <= pin ->
  fld m 32 2 mod 8 = 0 -> is_string_type_valid (fld m 34 1) = true ->
  vf_length vstr = vlen -> mb_rd m len 36 b ->
  wp (header_tail (PkgHdr (slice 0 16 (bytes m)) rev (slice 19 13 (bytes m)) (fld m 32 2) (fld m 34 1) vstr)
        hsize areas) b (fun a b' => mb_done b' /\ header_post pin a).
Proof.
  intros Hp4 H36 Hid Hrev H8 Ht Ev Hb. pose proof (mem_ok_bytes _ Hm) as Hbs.
  pose proof (fld_bound m 17 2 Hbs) as Hh. pose proof (fld_bound m 35 1 Hbs) as Hv. fold hsize in Hh. fold vlen in Hv.
  cbn in Hh, Hv. change (256 * 256) with 65536 in Hh.
  pose proof (fun x => tail_refused pin x Hp4 H36 Hid Hrev H8 Ht) as Hov.
  assert (header_fits pin = (39 <=? sum_at) && (36 + vlen <=? sum_at) && (hsize <=? len)) as Efit.
  { clear Hov. unfold header_fits. rewrite bool_decide_true, Ht by done.
    replace (36 <=? len) with true by lia. replace (1 <=? rev) with true by lia.
    replace (rev <=? pin) with true by lia. rewrite H8. cbn [Z.eqb andb]. done. }
  unfold header_tail. cbn [package_header_format_revision package_version_string
    package_header_identifier package_release_date_time component_bitmap_bit_length
    package_version_string_type]. rewrite Ev. pk_span.
  match goal with |- context [if ?c then (0, ?x) else ?e] =>
    set (st := if c then (0, x) else e); assert (st = if c then (0, x) else e) as Est by done end.
  assert (vf_length st.2 = vlen) as El by (rewrite Est; destruct (36 + vlen <=? len); exact Ev).
  destruct st as [rcst st]. cbn [snd] in El. rewrite El.
  fold (checksums rev). replace (36 + 3 + checksums rev * 4) with (4 * checksums rev + 39) by lia.
  replace (hsize - checksums rev * 4) with sum_at by (unfold sum_at; lia).
  destruct (Z.ltb_spec hsize (4 * checksums rev + 39)) as [Hs|Hs];
    [|destruct (Z.ltb_spec (sum_at - 36) vlen) as [Hs2|Hs2]].
  1, 2: apply wp_stop; intros; split; [done|]; apply Hov; unfold sum_at in *; lia.
  assert (1 <= checksums rev <= 2) as Hcs by (unfold checksums; destruct (4 <=? rev); lia).
  assert (39 <= sum_at) as Hsum by (unfold sum_at; lia). assert (sum_at <= hsize) by (unfold sum_at; lia).
  rewrite (proj2 (Z.leb_le _ _)) in Efit by lia. rewrite (proj2 (Z.leb_le (36 + vlen) _)) in Efit by lia.
  rewrite (proj2 (Z.leb_le 39 _)) in Hov by lia. rewrite (proj2 (Z.leb_le (36 + vlen) _)) in Hov by lia.
  cbn [andb] in Efit, Hov. pk_span. replace (36 + vlen + (sum_at - 36 - vlen)) with sum_at in * by lia.
  destruct (Z.leb_spec sum_at len) as [Hl|Hl]; cbn [Z.eqb Z.opp].
  2: { apply wp_stop; intros; split; [done|]. apply Hov. lia. }
  rewrite (proj2 (Z.leb_le _ _)) in Est by lia. injection Est as -> ->.
  unfold set_ptr, set_length. cbn [vf_ptr vf_length]. rewrite Ev.
  mb_extract. match goal with |- context [if ?c then (0, fld ?x ?o ?n) else ?e] =>
    set (ck := if c then (0, fld x o n) else e); assert (ck = if c then (0, fld x o n) else e) as Eck by done end.
  destruct ck as [rck ck]. destruct (Z.leb_spec 4 rev) as [Hr|Hr].
  - assert (checksums rev = 2) as E2 by (unfold checksums; by replace (4 <=? rev) with true by lia).
    mb_extract. match goal with |- context [if ?c then (0, fld ?x ?o ?n) else ?e] =>
      set (pk := if c then (0, fld x o n) else e); assert (pk = if c then (0, fld x o n) else e) as Epk by done end.
    destruct pk as [rpk pk]. apply wp_bind.
    assert (sum_at + 4 + 4 = hsize) as Eh by (unfold sum_at; lia).
    eapply wp_remaining_to; [exact Hb|..]; intros Hle b5 Hb5; cbn [Z.eqb Z.opp].
    + rewrite (proj2 (Z.leb_le _ _)) in Eck by lia. rewrite (proj2 (Z.leb_le _ _)) in Epk by lia.
      injection Eck as -> ->. injection Epk as -> ->.
      pk_complete. apply wp_ret. split; [done|]. rewrite Z.leb_refl. unfold header_post. rewrite Efit.
      replace (hsize <=? len) with true by lia. unfold sums_at. replace (4 <=? rev) with true by lia.
      rewrite Eh. done.
    + apply wp_stop; intros; split; [done|]. apply Hov. lia.
  - assert (checksums rev = 1) as E1 by (unfold checksums; by replace (4 <=? rev) with false by lia).
    assert (sum_at + 4 = hsize) as Eh by (unfold sum_at; lia).
    pk_complete. apply wp_ret. split; [done|]. destruct (Z.leb_spec (sum_at + 4) len).
    + injection Eck as -> ->. unfold header_post. rewrite Efit.
      replace (hsize <=? len) with true by lia. unfold sums_at. replace (4 <=? rev) with false by lia. done.
    + apply Hov. lia.
Qed.
End header.

Section header.
Context (m : cmem) (len : Z).
Hypothesis Hm : mem_ok m.
Hypothesis Hlen : 0 <= len <= mem_size m.

Lemma splice_all (new old : list Z) : length new = length old -> splice 0 new old = new.
Proof. intros E. unfold splice. cbn. rewrite drop_ge by lia. by rewrite app_nil_r. Qed.

(** The checks, each as the case at hand has it. *)
Ltac check_header :=
  unfold header_checks; cbv zeta; rewrite <- ?identifier_known, <- ?string_type_range;
  repeat first
    [ rewrite first_pass by first [lia | assumption | (apply bool_decide_eq_true; assumption)]
    | apply first_fail; first [lia | assumption | (apply bool_decide_eq_false; assumption)] ].

Lemma header_fields_ok pin hdr areas b :
  pin_revision pin <= 4 -> 36 <= len ->
  length (package_header_identifier hdr) = 16%nat -> length (package_release_date_time hdr) = 13%nat ->
  mb_rd m len 0 b ->
  wp (header_fields pin hdr areas) b (fun a b' => mb_done b' /\ header_post m len (pin_revision pin) a).
Proof.
  intros Hpin H36 Hid Hdate Hb. destruct hdr as [id rev0 date bits vtype vstr].
  cbn [package_header_identifier package_release_date_time] in *. pose proof (mem_ok_bytes _ Hm) as Hbs.
  assert (forall c n (old : list Z), length old = n -> (c + n <= 36)%nat ->
    splice 0 (slice c n (bytes m)) old = slice c n (bytes m)) as Hsp.
  { intros c n old Ho Hc. apply splice_all. rewrite length_slice. unfold mem_size in Hlen. lia. }
  assert (forall n rc x b', header_fits m len (pin_revision pin) = false ->
    rc = first_failure (header_checks m len (pin_revision pin)) -> rc ∈ header_errors ->
    mb_rd m len n b' -> wp (stop rc x) b' (fun a b'' => mb_done b'' /\ header_post m len (pin_revision pin) a)) as Hstop.
  { intros n rc x b' Hf Hrc ? _. apply wp_stop. intros. split; [done|]. by apply header_refused. }
  unfold header_fields. autounfold with msgbuf. apply wp_bind.
  eapply (wp_extract_array_rd m len 16 id 16 0); [exact Hb|lia|lia|lia|]. clear b Hb. intros b Hb.
  change (16 <? 16) with false in *. change (16 =? 0) with false. cbn match in *. pk_there.
  change (Z.to_nat 0) with 0%nat. change (Z.to_nat 16) with 16%nat. rewrite Hsp by (done || lia).
  change (0 + 16) with 16 in *.
  set (pinr := pin_revision pin) in *.
  destruct (known_identifier (slice 0 16 (bytes m))) eqn:Ek; cbn [negb].
  2: { eapply Hstop; [|symmetry; check_header|repeat constructor|exact Hb]. unfold header_fits.
       destruct (Z.leb_spec 36 len); [|done]. case_bool_decide as Hi; [|done].
       destruct (Z.leb_spec 1 (fld m 16 1)); [|done]. destruct (Z.leb_spec (fld m 16 1) pinr); [|done].
       exfalso. apply known_identifier_of in Hi; [congruence|lia]. }
  pk_extract. destruct (Z.ltb_spec (fld m 16 1) 1).
  { eapply Hstop; [|symmetry; check_header|repeat constructor|exact Hb]. unfold header_fits.
    replace (1 <=? fld m 16 1) with false by lia. by rewrite !andb_false_r. }
  destruct (Z.ltb_spec pinr (fld m 16 1)).
  { eapply Hstop; [|symmetry; check_header|repeat constructor|exact Hb]. unfold header_fits.
    replace (fld m 16 1 <=? pinr) with false by lia. by rewrite !andb_false_r. }
  rewrite (bool_decide_ext _ (slice 0 16 (bytes m) = format_identifier (fld m 16 1)))
    by (apply (identifier_of_format m); lia).
  destruct (bool_decide_reflect (slice 0 16 (bytes m) = format_identifier (fld m 16 1))) as [Hi|Hi]; cbn [negb].
  2: { assert (identifier_of (fld m 16 1) <> Some (slice 0 16 (bytes m))) by (rewrite (identifier_of_format m) by lia; done).
       eapply Hstop; [|symmetry; check_header|repeat constructor|exact Hb]. unfold header_fits.
       rewrite bool_decide_false by done. by rewrite !andb_false_r. }
  pk_extract. apply wp_bind.
  eapply (wp_extract_array_rd m len 13 date 13 19); [exact Hb|lia|lia|lia|]. clear b Hb. intros b' Hb.
  change (13 <? 13) with false in *. change (13 =? 0) with false. cbn match in *. pk_there.
  change (Z.to_nat 19) with 19%nat. change (Z.to_nat 13) with 13%nat. rewrite Hsp by (done || lia).
  change (19 + 13) with 32 in *. pk_extract.
  rewrite (land_mod _ 3 7) by done. change (2 ^ 3) with 8.
  destruct (Z.eqb_spec (fld m 32 2 mod 8) 0) as [H8|H8]; cbn [negb].
  2: { eapply Hstop; [|symmetry; check_header|repeat constructor|exact Hb]. unfold header_fits.
       replace (_ mod 8 =? 0) with false by lia. by rewrite !andb_false_r. }
  pk_extract. destruct (is_string_type_valid (fld m 34 1)) eqn:Et; cbn [negb].
  2: { eapply Hstop; [|symmetry; check_header|repeat constructor|exact Hb]. unfold header_fits. by rewrite Et, !andb_false_r. }
  pk_extract. apply header_tail_ok; try (done || lia). apply (identifier_of_format m); [lia|done].
Qed.

(** The checksums: the header's, and from revision 4 on the payload's, which a library
    with the NVIDIA extensions does not look at. *)
Definition sums_match (nvidia : bool) : bool :=
  let s := sums_at m len in
  (package_header_checksum s =? crc32_ref 0 (take (Z.to_nat (sum_at m)) (bytes m))) &&
  (nvidia || (fld m 16 1 <? 4) ||
   (package_payload_checksum s
    =? crc32_ref 0 (slice (Z.to_nat (fld m 17 2)) (Z.to_nat (len - fld m 17 2)) (bytes m)))).

Lemma crc32_validate_ok sum x size :
  bytes_ok (bytes x) -> 0 <= size <= mem_size x ->
  pldm_edac_crc32_validate sum (Some x) size
  = Ok (if sum =? crc32_ref 0 (take (Z.to_nat size) (bytes x)) then 0 else - EUCLEAN).
Proof.
  intros Hx Hs. unfold pldm_edac_crc32_validate. cbn [andb]. unfold pldm_edac_crc32.
  by rewrite crc32_extend_ref.
Qed.

Definition header_rc (nvidia : bool) (pin : pldm_package_format_pin) : Z :=
  first_failure (header_checks m len (pin_revision pin) ++ sum_checks m len nvidia).

Lemma header_passes pin : pin <= 4 -> forallb fst (header_checks m len pin) = header_fits m len pin.
Proof.
  intros Hp. unfold header_checks, header_fits. cbn [forallb fst].
  rewrite <- identifier_known, <- string_type_range, <- sum_at_checksum. change (36 + 3) with 39.
  destruct (36 <=? len); [|done]. destruct (Z.leb_spec 1 (fld m 16 1)); [|by rewrite !andb_false_r].
  destruct (Z.leb_spec (fld m 16 1) pin); [|by rewrite !andb_false_r].
  rewrite (bool_decide_ext (identifier_of _ = _) (slice 0 16 (bytes m) = format_identifier (fld m 16 1)))
    by (apply (identifier_of_format m); lia).
  destruct (bool_decide_reflect (slice 0 16 (bytes m) = format_identifier (fld m 16 1))) as [Hi|]; [|by rewrite !andb_false_r].
  rewrite (known_identifier_of (fld m 16 1) (slice 0 16 (bytes m)));
    [|apply (identifier_of_format m); [lia|done]|lia].
  cbn [andb]. by rewrite andb_true_r, <- !andb_assoc.
Qed.

Lemma decode_header_ok nvidia pin hdr pkg :
  pkg_state pkg = PLDM_PACKAGE_PARSE_INIT -> pin_refused pin = None -> pin_revision pin <= 4 ->
  length (package_header_identifier hdr) = 16%nat -> length (package_release_date_time hdr) = 13%nat ->
  exists rc h p,
    decode_pldm_package_header_info_errno nvidia m len pin hdr pkg = Ok (rc, h, p) /\
    if header_fits m len (pin_revision pin) && sums_match nvidia
    then rc = 0 /\ h = header_at m /\
      p = Pkg (Some pin) (Some (header_at m)) PLDM_PACKAGE_PARSE_HEADER 0 (VarField (Some m) len) (areas_at m)
            (iter_field pkg) (iter_entries pkg)
    else (rc ∈ - EUCLEAN :: header_errors /\ rc = header_rc nvidia pin) /\ p = set_areas (pkg_areas p) pkg.
Proof.
  intros Hs Hpin H4 Hid Hdate. unfold decode_pldm_package_header_info_errno.
  rewrite bool_decide_true by done. cbn [negb]. rewrite Hpin.
  match goal with |- context [ro_scope m ?k] =>
    destruct (ro_scope_wp m k (fun a => header_post m len (pin_revision pin) a))
      as ([rc [[h a] s]] & -> & H) end.
  { autounfold with msgbuf. apply wp_bind. destruct Hm. apply (wp_init_rd m len); [lia..|]. intros b _.
    destruct (Z.leb_spec 36 len); cbn [Z.eqb Z.opp]; intros Hb.
    - by apply header_fields_ok.
    - apply wp_ret. split; [done|]. apply header_refused; [|symmetry; check_header|repeat constructor].
      unfold header_fits. by replace (36 <=? len) with false by lia. }
  cbn [mbind outcome_bind]. unfold header_post in H.
  destruct (header_fits m len (pin_revision pin)) eqn:Ef; cbn [andb].
  2: { destruct H as [H Hrc].
       assert (rc <> 0) as Hne by (unfold header_errors in H; rewrite !elem_of_cons, elem_of_nil in H; lia).
       replace (rc =? 0) with false by lia. do 3 eexists. split; [reflexivity|]. split; [|done].
       split; [by constructor|]. unfold header_rc. by rewrite first_failure_app, header_passes, Ef. }
  assert (header_rc nvidia pin = first_failure (sum_checks m len nvidia)) as ->
    by (unfold header_rc; by rewrite first_failure_app, header_passes, Ef).
  destruct H as (-> & -> & -> & ->). cbn [Z.eqb].
  assert (39 <= sum_at m /\ sum_at m <= fld m 17 2 <= len) as (Hs1 & Hs2).
  { unfold header_fits in Ef. rewrite !andb_true_iff in Ef. unfold sum_at, checksums in *.
    destruct (4 <=? fld m 16 1); lia. }
  pose proof (mem_ok_bytes _ Hm) as Hbs.
  assert (package_header_payload_size (sums_at m len) = sum_at m) as -> by (unfold sums_at; by destruct (4 <=? _)).
  rewrite crc32_validate_ok by (done || lia). cbn [mbind outcome_bind]. unfold sums_match.
  destruct (Z.eqb_spec (package_header_checksum (sums_at m len))
    (crc32_ref 0 (take (Z.to_nat (sum_at m)) (bytes m)))); cbn [Z.eqb Z.opp andb].
  2: { do 3 eexists. split; [reflexivity|]. split; [|done]. split; [by constructor|].
       unfold sum_checks. rewrite first_fail; [done|]. rewrite <- sum_at_checksum. unfold sums_at in *.
       destruct (4 <=? fld m 16 1); cbn [package_header_checksum] in *; by apply Z.eqb_neq. }
  cbn [header_at package_header_format_revision].
  replace (4 <=? fld m 16 1) with (negb (fld m 16 1 <? 4)) by lia.
  destruct nvidia; cbn [negb andb orb]; [by do 3 eexists|].
  destruct (Z.ltb_spec (fld m 16 1) 4); cbn [negb andb orb]; [by do 3 eexists|].
  unfold sums_at. replace (4 <=? fld m 16 1) with true by lia.
  cbn [package_payload_checksum package_payload field_at vf_ptr vf_length].
  rewrite crc32_validate_ok; [|by apply Forall_drop|rewrite mem_size_ptr_at; lia].
  cbn [ptr_at bytes mbind outcome_bind]. fold (slice (Z.to_nat (fld m 17 2)) (Z.to_nat (len - fld m 17 2)) (bytes m)).
  destruct (_ =? crc32_ref _ _) eqn:Ep; cbn [Z.eqb Z.opp]; [by do 3 eexists|].
  do 3 eexists. split; [reflexivity|]. split; [|done]. split; [by constructor|].
  assert (fld m (Z.to_nat (checksum_at m)) 4 = crc32_ref 0 (take (Z.to_nat (checksum_at m)) (bytes m))) as Eh.
  { rewrite <- sum_at_checksum. revert e. unfold sums_at. by replace (4 <=? fld m 16 1) with true by lia. }
  unfold sum_checks. rewrite first_pass by by apply Z.eqb_eq.
  rewrite first_fail; [done|]. cbn [orb]. replace (fld m 16 1 <? 4) with false by lia. by rewrite <- sum_at_checksum.
Qed.
End header.
