(* ===== verification/PackageRuns.v ===== *)
(** * Parsing whole packages

    Safety for any bytes, through all the loops, and exactly which headers are accepted. *)

From S2P Require Import Prelude Msgbuf Layout Edac Base FwUpdate Package PackageSpec PackageProps.

(** ** The header *)

Lemma pin_refused_checks pin :
  0 <= pin_revision pin ->
  pin_refused pin = if forallb fst (pin_checks pin) then None else Some (first_failure (pin_checks pin)).
Proof.
  destruct pin as [magic version id rev]. cbn [pin_revision pin_version pin_identifier pin_magic]. intros Hr.
  unfold pin_refused, pin_checks. cbn [pin_revision pin_version pin_identifier pin_magic forallb first_failure fst].
  destruct (Z.ltb_spec 0 version), (Z.leb_spec version 0); try lia; [done|]. cbn [andb].
  destruct (Z.eqb_spec rev 0); [done|]. cbn [negb andb].
  destruct (Z.ltb_spec 4 rev), (Z.leb_spec rev 4); try lia; [done|]. cbn [andb].
  assert (rev = 1 \/ rev = 2 \/ rev = 3 \/ rev = 4) as Hrev by lia.
  assert (revision_info rev = Some (format_identifier rev, format_magic rev)) as ->
    by by destruct Hrev as [-> | [-> | [-> | ->]]].
  destruct (bool_decide _); [|done]. cbn [negb andb]. by destruct (magic =? _).
Qed.

Lemma sums_pass m len nvidia : sums_match m len nvidia = forallb fst (sum_checks m len nvidia).
Proof.
  unfold sums_match, sum_checks, sums_at. cbn [forallb fst]. rewrite andb_true_r, <- sum_at_checksum.
  destruct (Z.leb_spec 4 (fld m 16 1)), (Z.ltb_spec (fld m 16 1) 4); try lia; cbn [package_header_checksum]; [done|].
  by rewrite !orb_true_r.
Qed.

(** C29: which packages the header decoder accepts, and with which error it refuses the
    others.  For any bytes, any length up to what is there and any pin it returns the
    error of the first check that fails, in this order: the pin is of a version and a
    revision that the library knows, with the identifier of the revision and the sizes of
    its structures; the package has its fixed fields, a known identifier, a revision that
    is not 0 and not above the pin's, the identifier of that revision, a bitmap of whole
    bytes, a defined string type, a header size with room for the counts and for the
    version string, and as many bytes as that; the checksums are the CRC-32 of the header
    and, from revision 4 on and unless the library is built with the NVIDIA extensions,
    of the payload.  When no check fails, the header and the area field are those of the
    package and the parser is at its first stage; otherwise the parser is left at its
    start, and with a bad pin nothing is changed. *)
Theorem package_header_exact nvidia m len pin hdr :
  mem_ok m -> 0 <= len <= mem_size m -> 0 <= pin_revision pin ->
  length (package_header_identifier hdr) = 16%nat -> length (package_release_date_time hdr) = 13%nat ->
  let package_checks := header_checks m len (pin_revision pin) ++ sum_checks m len nvidia in
  exists h p,
    decode_pldm_firmware_update_package nvidia (Some m) len (Some pin) (Some hdr) (Some pkg_zero) 0
    = Ok (first_failure (pin_checks pin ++ package_checks), Some h, Some p) /\
    (if forallb fst (pin_checks pin ++ package_checks)
     then h = header_at m /\
       p = Pkg (Some pin) (Some (header_at m)) PLDM_PACKAGE_PARSE_HEADER 0 (VarField (Some m) len)
             (areas_at m) vf0 0
     else pkg_state p = PLDM_PACKAGE_PARSE_INIT) /\
    (forallb fst (pin_checks pin) = false -> h = hdr /\ p = pkg_zero).
Proof.
  intros Hm Hlen Hr Hid Hdate package_checks. unfold decode_pldm_firmware_update_package. cbn [Z.eqb negb].
  pose proof (pin_refused_checks pin Hr) as Hpin. rewrite first_failure_app, forallb_app.
  destruct (forallb fst (pin_checks pin)) eqn:Ep; cbn [andb].
  2: { unfold decode_pldm_package_header_info_errno. rewrite bool_decide_true by done. cbn [negb].
       rewrite Hpin. cbn. by do 2 eexists. }
  assert (pin_revision pin <= 4) as H4.
  { unfold pin_checks in Ep. cbn [forallb fst] in Ep. rewrite !andb_true_iff in Ep. lia. }
  destruct (decode_header_ok m len Hm Hlen nvidia pin hdr pkg_zero eq_refl Hpin H4 Hid Hdate)
    as (rc & h & p & -> & H). cbn [mbind outcome_bind]. unfold package_checks.
  rewrite forallb_app, (header_passes m len), <- sums_pass by done.
  destruct (_ && _) eqn:Ef.
  - destruct H as (-> & -> & ->). exists (header_at m). eexists. split; [|by split].
    rewrite first_failure_app, (header_passes m len) by done. apply andb_prop in Ef as [-> Es].
    rewrite sums_pass in Es. revert Es. unfold sum_checks. cbn [forallb fst first_failure].
    by repeat (destruct (_ || _) || destruct (_ =? _)).
  - destruct H as ((_ & ->) & Hp). exists h, p. split; [reflexivity|]. split; [by rewrite Hp|done].
Qed.

(** ** Safety *)

(** The field is empty or within the first [len] bytes of [m]. *)
Definition inside (m : cmem) (len : Z) (f : variable_field) : Prop :=
  0 <= vf_length f /\
  match vf_ptr f with
  | None => vf_length f = 0
  | Some q => exists k, 0 <= k /\ k + vf_length f <= len /\ q = ptr_at m k
  end.

Lemma inside_at m len k off n :
  0 <= k -> 0 <= off -> 0 <= n -> k + off + n <= len -> inside m len (field_at (ptr_at m k) off n).
Proof.
  intros. split; [done|]. cbn. exists (k + off). split_and!; [lia|lia|]. by apply ptr_at_ptr_at.
Qed.

Definition descriptor_inside (m : cmem) (len : Z) (d : pldm_descriptor) : Prop :=
  inside m len (VarField (descriptor_data d) (descriptor_length d)).

Definition device_inside (m : cmem) (len : Z)
    (r : pldm_package_firmware_device_id_record * list pldm_descriptor) : Prop :=
  let '(r, ds) := r in
  inside m len (component_image_set_version_string r) /\ inside m len (fd_applicable_components r) /\
  inside m len (fd_record_descriptors r) /\ inside m len (firmware_device_package_data r) /\
  inside m len (fd_reference_manifest_data r) /\ Forall (descriptor_inside m len) ds.

Definition downstream_inside (m : cmem) (len : Z)
    (r : pldm_package_downstream_device_id_record * list pldm_descriptor) : Prop :=
  let '(r, ds) := r in
  inside m len (self_contained_activation_min_version_string r) /\ inside m len (dd_applicable_components r) /\
  inside m len (dd_record_descriptors r) /\ inside m len (package_data r) /\
  inside m len (dd_reference_manifest_data r) /\ Forall (descriptor_inside m len) ds.

Definition component_inside (m : cmem) (len : Z) (i : pldm_package_component_image_information) : Prop :=
  inside m len (component_image i) /\ inside m len (component_version_string i) /\
  inside m len (component_opaque_data i).

Section inside.
Context (m : cmem) (len : Z).
Hypothesis Hm : mem_ok m.
Hypothesis Hlen : 0 <= len <= mem_size m.

(** A field the caller was given: it points into the message. *)
Definition field_inside (f : variable_field) : Prop := inside m len f /\ vf_ptr f <> None.

Lemma field_inside_at k off n :
  0 <= k -> 0 <= off -> 0 <= n -> k + off + n <= len -> field_inside (field_at (ptr_at m k) off n).
Proof. intros. split; [by apply inside_at|done]. Qed.

(** The next descriptor of a field, if there is room for one. *)
Lemma descriptor_step f n :
  field_inside f ->
  exists rc f' d, decode_pldm_descriptor_from_iter (Some (DescIter (Some f) n)) (Some (Descriptor 0 0 None))
    = Ok (rc, Some (DescIter (Some f') n), Some d) /\
    (rc = - EOVERFLOW \/ rc = 0 /\ field_inside f' /\ descriptor_inside m len d).
Proof.
  destruct f as [[q|] sz]; intros [[Hsz Hf] Hne]; [|done]. destruct Hf as (k & Hk & Hkl & ->). cbn [vf_length vf_ptr] in *.
  destruct (descriptor_from_iter_ok (ptr_at m k) sz n (Descriptor 0 0 None)) as (rc & f & d & E & H).
  { apply mem_ok_ptr_at; [done|lia]. } { rewrite mem_size_ptr_at; lia. }
  exists rc, f, d. split; [exact E|]. clear E. pose proof (fld_bound (ptr_at m k) 2 2) as Hd.
  assert (bytes_ok (bytes (ptr_at m k))) as Hbs by (apply Forall_drop, Hm). specialize (Hd Hbs).
  destruct (Z.leb_spec 5 sz); cbn [andb] in H; [|by left].
  destruct (Z.leb_spec (4 + fld (ptr_at m k) 2 2) sz); [|by left]. right.
  destruct H as (-> & -> & ->). split; [done|]. split; [apply field_inside_at; lia|].
  unfold descriptor_inside, descriptor_at. cbn [descriptor_data descriptor_length].
  apply (inside_at m len k 4); lia.
Qed.

(** Descriptors, as many as the count says or until one does not fit. *)
Lemma foreach_descriptor_ok fuel f n :
  inside m len f -> vf_ptr f <> None -> 0 <= n < Z.of_nat fuel ->
  exists rc ds, foreach_descriptor fuel (DescIter (Some f) n) = Ok (rc, ds) /\
    (rc = 0 \/ rc = - EOVERFLOW) /\ Forall (descriptor_inside m len) ds.
Proof.
  revert f n. induction fuel as [|fuel IH]; intros f n Hf Hne Hn; [lia|].
  cbn [foreach_descriptor]. unfold pldm_descriptor_iter_end. cbn [di_count].
  destruct (Z.eqb_spec n 0); [by do 2 eexists; split; [reflexivity|]; split; [left|]|].
  destruct (descriptor_step f n) as (rc & f' & d & -> & [-> | (-> & [Hf' Hne'] & Hd)]); [done|..];
    cbn [mbind outcome_bind Z.eqb Z.opp].
  { do 2 eexists. split; [reflexivity|]. split; [by right|done]. }
  unfold pldm_descriptor_iter_next. cbn [di_count di_field]. replace (n =? 0) with false by lia. cbn [snd].
  destruct (IH f' (n - 1)) as (rc & ds & -> & Hrc & Hds); [done|done|lia|].
  cbn [mbind outcome_bind]. do 2 eexists. split; [reflexivity|]. split; [done|]. by constructor.
Qed.

Context (hdr : pldm__package_header_information).
Hypothesis Hbits : 0 <= component_bitmap_bit_length hdr < 65536.

Lemma fd_at_inside k n L :
  0 <= k -> k + n <= len -> L <= n -> fd_fits hdr (ptr_at m k) L = true ->
  let r := fd_at hdr (ptr_at m k) L in
  inside m len (component_image_set_version_string r) /\ inside m len (fd_applicable_components r) /\
  inside m len (fd_record_descriptors r) /\ inside m len (firmware_device_package_data r) /\
  inside m len (fd_reference_manifest_data r) /\ vf_ptr (fd_record_descriptors r) <> None.
Proof.
  intros Hk Hn HL Hfit. assert (bytes_ok (bytes (ptr_at m k))) as Hbs by apply Forall_drop, Hm.
  pose proof (fld_bound _ 8 1 Hbs). pose proof (fld_bound _ 9 2 Hbs).
  pose proof (bitmap_size_range hdr Hbits). pose proof (manifest_size_range hdr _ Hbs).
  unfold fd_fits in Hfit. rewrite !andb_true_iff in Hfit. destruct Hfit as [_ Hfit].
  assert (11 <= fixed_size (package_header_format_revision hdr) <= 15) as Hfix
    by (unfold fixed_size; destruct (4 <=? _); lia).
  unfold fd_at. cbn zeta. cbn [component_image_set_version_string fd_applicable_components
    fd_record_descriptors firmware_device_package_data fd_reference_manifest_data].
  assert (0 <= descs_at hdr (ptr_at m k) 0) by (unfold descs_at; lia).
  unfold descs_len, descs_at in *. split_and!; try (apply inside_at; lia).
  - destruct (Z.eqb_spec (fld (ptr_at m k) 9 2) 0) as [E|E].
    + rewrite E. split; done.
    + apply (inside_at m len k); lia.
  - unfold manifest_size in *. destruct (4 <=? _); [|split; done]. apply (inside_at m len k); lia.
  - done.
Qed.

Lemma dd_at_inside k n L :
  0 <= k -> k + n <= len -> L <= n -> dd_fits hdr (ptr_at m k) L = true ->
  let r := dd_at hdr (ptr_at m k) L in
  inside m len (self_contained_activation_min_version_string r) /\ inside m len (dd_applicable_components r) /\
  inside m len (dd_record_descriptors r) /\ inside m len (package_data r) /\
  inside m len (dd_reference_manifest_data r) /\ vf_ptr (dd_record_descriptors r) <> None.
Proof.
  intros Hk Hn HL Hfit. assert (bytes_ok (bytes (ptr_at m k))) as Hbs by apply Forall_drop, Hm.
  pose proof (fld_bound _ 8 1 Hbs). pose proof (fld_bound _ 9 2 Hbs).
  pose proof (bitmap_size_range hdr Hbits). pose proof (manifest_size_range hdr _ Hbs).
  unfold dd_fits in Hfit. rewrite !andb_true_iff in Hfit. destruct Hfit as [_ Hfit].
  assert (11 <= fixed_size (package_header_format_revision hdr) <= 15) as Hfix
    by (unfold fixed_size; destruct (4 <=? _); lia).
  assert (0 <= stamp_size (ptr_at m k) <= 4) as Hst by (unfold stamp_size; destruct (Z.testbit _ 0); lia).
  unfold dd_at. cbn zeta. cbn [self_contained_activation_min_version_string dd_applicable_components
    dd_record_descriptors package_data dd_reference_manifest_data].
  assert (0 <= descs_at hdr (ptr_at m k) (stamp_size (ptr_at m k))) by (unfold descs_at; lia).
  unfold descs_len, descs_at in *. split_and!; try (apply inside_at; lia).
  - unfold manifest_size in *. destruct (4 <=? _); [|split; done]. apply (inside_at m len k); lia.
  - done.
Qed.

Lemma comp_at_inside k n :
  0 <= k -> k + n <= len -> comp_fits hdr (ptr_at m k) n = true ->
  fld (ptr_at m k) 12 4 + fld (ptr_at m k) 16 4 <= len ->
  component_inside m len (comp_at hdr (ptr_at m k) m).
Proof.
  intros Hk Hn Hfit Himg. assert (bytes_ok (bytes (ptr_at m k))) as Hbs by apply Forall_drop, Hm.
  pose proof (fld_bound _ 21 1 Hbs). pose proof (opaque_len_range hdr _ Hbs).
  pose proof (fld_bound _ 12 4 Hbs). pose proof (fld_bound _ 16 4 Hbs).
  unfold comp_fits in Hfit. rewrite !andb_true_iff in Hfit. destruct Hfit as [[_ Hfit] _].
  unfold component_inside, comp_at. cbn [component_image component_version_string component_opaque_data].
  unfold comp_total, opaque_len in *. split_and!.
  - rewrite <- (ptr_at_0 m) at 2. apply inside_at; lia.
  - apply inside_at; destruct (3 <=? _); lia.
  - destruct (3 <=? _); [|split; done]. match goal with |- context [if ?c then None else _] => destruct c eqn:E end.
    + apply Z.eqb_eq in E. rewrite E. split; done.
    + apply (inside_at m len k); lia.
Qed.
End inside.

(** ** The loops *)

Section foreach_rule.
Context {R E : Type}.
Context (iter_end : pldm_package -> outcome bool)
        (decode : option pldm_package -> option R -> outcome (Z * option pldm_package * option R))
        (next : pldm_package -> outcome (bool * pldm_package))
        (body : pldm_package -> R -> outcome (Z * E)).
Context (Inv Done : pldm_package -> Prop) (mu : pldm_package -> nat) (G : E -> Prop) (errs : list Z).

(** A round: the loop is at its end, or one more record is read and the rest is
    shorter, or there is an error. *)
Definition round_ok (p : pldm_package) (r : R) : Prop :=
  (iter_end p = Ok true /\ Done p) \/
  (iter_end p = Ok false /\
   exists rc p' r', decode (Some p) (Some r) = Ok (rc, Some p', Some r') /\
   ((rc <> 0 /\ rc ∈ errs) \/
    (rc = 0 /\ exists rcb x e p'', body p' r' = Ok (rcb, x) /\ next p' = Ok (e, p'') /\ G x /\
       (rcb = 0 \/ rcb ∈ errs) /\ Inv p'' /\ (mu p'' < mu p)%nat))).

Lemma foreach_rule fuel p r :
  (forall p r, Inv p -> round_ok p r) -> Inv p -> (mu p < fuel)%nat ->
  exists rc p' xs, foreach_from iter_end decode next body fuel p r = Ok (rc, p', xs) /\
    Forall G xs /\ (rc = 0 \/ rc ∈ errs) /\ (rc = 0 -> Inv p' /\ Done p').
Proof.
  intros Hround. revert p r. induction fuel as [|fuel IH]; intros p r HI Hf; [lia|].
  cbn [foreach_from]. destruct (Hround p r HI) as [[-> Hd]|[-> (rc & p' & r' & -> & H)]];
    cbn [mbind outcome_bind].
  - do 3 eexists. split; [reflexivity|]. split; [done|]. split; [by left|done].
  - destruct H as [[Hne Herr]|(-> & rcb & x & e & p'' & -> & -> & Hx & Hrcb & HI' & Hmu)].
    + replace (rc =? 0) with false by lia. do 3 eexists. split; [reflexivity|].
      split; [done|]. split; [by right|]. intros ->. done.
    + cbn [Z.eqb mbind outcome_bind]. destruct (Z.eqb_spec rcb 0) as [->|Hne].
      * destruct (IH p'' r' HI' ltac:(lia)) as (rc & q & xs & -> & Hxs & Hrc & Hend).
        cbn [mbind outcome_bind]. do 3 eexists. split; [reflexivity|]. split; [by constructor|]. done.
      * do 3 eexists. split; [reflexivity|]. split; [by constructor|].
        split; [destruct Hrcb; [done|by right]|done].
Qed.
End foreach_rule.

Section loops.
Context (m : cmem) (len : Z) (pin : pldm_package_format_pin) (hdr : pldm__package_header_information).
Hypothesis Hm : mem_ok m.
Hypothesis Hlen : 0 <= len <= mem_size m.
Hypothesis Hbits : 0 <= component_bitmap_bit_length hdr < 65536.
Hypothesis H8 : component_bitmap_bit_length hdr mod 8 = 0.
Hypothesis Hpin : 1 <= pin_revision pin <= 4.
Hypothesis Hrev : 1 <= package_header_format_revision hdr <= pin_revision pin.

(** The parser between two calls, at the stage [s], with what is left to parse. *)
Record at_stage (s : pldm_package_parse) (p : pldm_package) : Prop := {
  as_state : pkg_state p = s;
  as_pin : pkg_pin p = Some pin;
  as_hdr : pkg_hdr p = Some hdr;
  as_package : pkg_package p = VarField (Some m) len;
  as_iter : exists k n, iter_field p = field_at m k n /\ 0 <= k /\ 0 <= n /\ k + n <= len;
  as_entries : 0 <= iter_entries p <= SIZE_MAX
}.

Definition left (p : pldm_package) : nat := Z.to_nat (vf_length (iter_field p)).

Lemma at_stage_left s p : at_stage s p -> (left p < S (S (Z.to_nat len)))%nat.
Proof. intros [_ _ _ _ (k & n & E & ? & ? & ?) _]. unfold left. rewrite E. cbn. lia. Qed.

Lemma stepped_ok {R} (fits : Z -> bool) (at_ : Z -> R) k n rc f (r : R) :
  0 <= k -> 0 <= n -> k + n <= len -> stepped fits at_ (ptr_at m k) n rc f r ->
  (rc <> 0 /\ rc ∈ package_errors) \/
  (rc = 0 /\ exists L, L = fld (ptr_at m k) 0 2 /\ 11 <= L <= n /\ fits L = true /\
     f = field_at m (k + L) (n - L) /\ r = at_ L).
Proof.
  intros Hk Hn Hkn H. unfold stepped in H. destruct (_ && _ && _) eqn:E.
  - right. rewrite !andb_true_iff in E. destruct E as [[E1 E2] E3]. destruct H as (-> & -> & ->).
    split; [done|]. eexists. split; [reflexivity|]. split; [lia|]. split; [done|].
    unfold field_at. rewrite ptr_at_ptr_at by lia. done.
  - left. split; [by apply package_errors_neg|done].
Qed.

Lemma iter_at p k n : iter_field p = field_at m k n -> 0 <= k -> 0 <= n -> k + n <= len ->
  iter_field p = VarField (Some (ptr_at m k)) n /\ mem_ok (ptr_at m k) /\ 0 <= n <= mem_size (ptr_at m k).
Proof.
  intros -> ? ? ?. split; [done|]. split; [apply mem_ok_ptr_at; [done|lia]|]. rewrite mem_size_ptr_at; lia.
Qed.

Lemma step_stage s p k n e :
  at_stage s p -> 0 <= k -> 0 <= n -> k + n <= len -> 0 <= e <= SIZE_MAX ->
  at_stage s (set_iter (field_at m k n) e p).
Proof. intros [] ????. constructor; try done. cbn. by exists k, n. Qed.

Lemma u64_pred e : 0 < e <= SIZE_MAX -> u64 (e - 1) = e - 1.
Proof. intros. unfold u64. apply Z.mod_small. lia. Qed.

Lemma fd_round p r :
  at_stage PLDM_PACKAGE_PARSE_FIRMWARE_DEVICES p ->
  round_ok pldm_package_firmware_device_id_record_iter_end
    decode_pldm_package_firmware_device_id_record_from_iter
    pldm_package_firmware_device_id_record_iter_next fd_body
    (at_stage PLDM_PACKAGE_PARSE_FIRMWARE_DEVICES) (fun _ => True) left (device_inside m len)
    package_errors p r.
Proof.
  intros Hp. pose proof Hp as [Hs _ Hh _ (k & n & Hf & Hk & Hn & Hkn) He].
  unfold round_ok, pldm_package_firmware_device_id_record_iter_end. rewrite Hs, bool_decide_true by done.
  cbn [c_assert mbind outcome_bind]. destruct (Z.eqb_spec (iter_entries p) 0); [by constructor 1|constructor 2].
  split; [done|]. destruct (iter_at p k n Hf) as (Hf' & Hmk & Hnk); [done..|].
  destruct (fd_from_iter_ok hdr Hbits H8 p _ n r Hs Hh Hf' Hmk Hnk) as (rc & f & r' & -> & Hst).
  do 3 eexists. split; [reflexivity|]. apply stepped_ok in Hst; [|done..].
  destruct Hst as [?|(-> & L & EL & HL & Hfit & -> & ->)]; [by constructor 1|constructor 2]. split; [done|].
  destruct (fd_at_inside m len Hm hdr Hbits k n L) as (I1 & I2 & I3 & I4 & I5 & I6); [done|done|lia|done|].
  unfold fd_body, pldm_package_firmware_device_id_record_descriptor_iter_init.
  cbn [set_iter_field set_iter pkg_state]. rewrite Hs, bool_decide_true by done.
  cbn [c_assert mret outcome_ret mbind outcome_bind di_count].
  pose proof (fld_bound (ptr_at m k) 2 1 (mem_ok_bytes _ Hmk)) as Hc.
  assert (fd_descriptor_count (fd_at hdr (ptr_at m k) L) = fld (ptr_at m k) 2 1) as Ec by done.
  destruct (foreach_descriptor_ok m len Hm Hlen (S (Z.to_nat (fd_descriptor_count (fd_at hdr (ptr_at m k) L))))
    (fd_record_descriptors (fd_at hdr (ptr_at m k) L)) (fd_descriptor_count (fd_at hdr (ptr_at m k) L)))
    as (rcb & ds & -> & Hrcb & Hds); [done|done|lia|].
  cbn [mbind outcome_bind]. unfold pldm_package_firmware_device_id_record_iter_next.
  cbn [set_iter_field set_iter pkg_state iter_entries iter_field]. rewrite Hs, bool_decide_true by done.
  cbn [c_assert mbind outcome_bind]. replace (iter_entries p =? 0) with false by lia.
  do 4 eexists. split; [reflexivity|]. split; [reflexivity|]. split; [done|].
  split; [destruct Hrcb as [->| ->]; [by left|right; repeat constructor]|].
  split; [|unfold left; cbn; rewrite Hf; cbn; lia].
  rewrite u64_pred by lia. apply (step_stage _ p (k + L) (n - L) (iter_entries p - 1)); [done|lia..].
Qed.

Lemma dd_round p r :
  1 < package_header_format_revision hdr \/ iter_entries p = 0 ->
  at_stage PLDM_PACKAGE_PARSE_DOWNSTREAM_DEVICES p ->
  round_ok pldm_package_downstream_device_id_record_iter_end
    decode_pldm_package_downstream_device_id_record_from_iter
    pldm_package_downstream_device_id_record_iter_next dd_body
    (at_stage PLDM_PACKAGE_PARSE_DOWNSTREAM_DEVICES) (fun _ => True) left (downstream_inside m len)
    package_errors p r.
Proof.
  intros Hr1 Hp. pose proof Hp as [Hs _ Hh _ (k & n & Hf & Hk & Hn & Hkn) He].
  unfold round_ok, pldm_package_downstream_device_id_record_iter_end. rewrite Hs, bool_decide_true by done.
  cbn [c_assert mbind outcome_bind]. destruct (Z.eqb_spec (iter_entries p) 0); [by constructor 1|constructor 2].
  split; [done|]. destruct (iter_at p k n Hf) as (Hf' & Hmk & Hnk); [done..|].
  destruct (dd_from_iter_ok hdr Hbits H8 p _ n r Hs Hh ltac:(lia) Hf' Hmk Hnk) as (rc & f & r' & -> & Hst).
  do 3 eexists. split; [reflexivity|]. apply stepped_ok in Hst; [|done..].
  destruct Hst as [?|(-> & L & EL & HL & Hfit & -> & ->)]; [by constructor 1|constructor 2]. split; [done|].
  destruct (dd_at_inside m len Hm hdr Hbits k n L) as (I1 & I2 & I3 & I4 & I5 & I6); [done|done|lia|done|].
  unfold dd_body, pldm_package_downstream_device_id_record_descriptor_iter_init. cbn [di_count].
  pose proof (fld_bound (ptr_at m k) 2 1 (mem_ok_bytes _ Hmk)) as Hc.
  assert (dd_descriptor_count (dd_at hdr (ptr_at m k) L) = fld (ptr_at m k) 2 1) as Ec by done.
  destruct (foreach_descriptor_ok m len Hm Hlen (S (Z.to_nat (dd_descriptor_count (dd_at hdr (ptr_at m k) L))))
    (dd_record_descriptors (dd_at hdr (ptr_at m k) L)) (dd_descriptor_count (dd_at hdr (ptr_at m k) L)))
    as (rcb & ds & -> & Hrcb & Hds); [done|done|lia|].
  cbn [mbind outcome_bind]. unfold pldm_package_downstream_device_id_record_iter_next.
  cbn [set_iter_field set_iter pkg_state iter_entries iter_field]. rewrite Hs, bool_decide_true by done.
  cbn [c_assert mbind outcome_bind]. replace (iter_entries p =? 0) with false by lia.
  do 4 eexists. split; [reflexivity|]. split; [reflexivity|]. split; [done|].
  split; [destruct Hrcb as [->| ->]; [by left|right; repeat constructor]|].
  split; [|unfold left; cbn; rewrite Hf; cbn; lia].
  rewrite u64_pred by lia. apply (step_stage _ p (k + L) (n - L) (iter_entries p - 1)); [done|lia..].
Qed.

(** The component loop runs until the count, which it decrements first, is zero: the
    rest getting shorter is what ends it if the count starts there. *)
Definition at_components (p : pldm_package) : Prop :=
  at_stage PLDM_PACKAGE_PARSE_COMPONENT_IMAGE_INFORMATION p \/
  pkg_state p = PLDM_PACKAGE_PARSE_COMPLETE /\ iter_entries p = 0.

Lemma comp_round p r :
  at_components p ->
  round_ok pldm_package_component_image_information_iter_end
    decode_pldm_package_component_image_information_from_iter
    pldm_package_component_image_information_iter_next comp_body
    at_components (fun p => pkg_state p = PLDM_PACKAGE_PARSE_COMPLETE) left (component_inside m len)
    package_errors p r.
Proof.
  intros [Hp|[Hs He]]; unfold round_ok, pldm_package_component_image_information_iter_end.
  2: { constructor 1. rewrite Hs, He. done. }
  pose proof Hp as [Hs _ Hh Hpk (k & n & Hf & Hk & Hn & Hkn) He]. rewrite Hs.
  constructor 2. split; [done|]. destruct (iter_at p k n Hf) as (Hf' & Hmk & Hnk); [done..|].
  destruct (comp_from_iter_ok hdr p _ n m len r Hs Hh Hf' Hmk Hnk Hpk Hm Hlen) as (rc & f & i & -> & Hst).
  do 3 eexists. split; [reflexivity|]. unfold comp_stepped in Hst.
  destruct (comp_fits hdr (ptr_at m k) n) eqn:Hfit; cbn [andb] in Hst.
  2: { constructor 1. split; [by apply package_errors_neg|done]. }
  destruct (Z.leb_spec (fld (ptr_at m k) 12 4 + fld (ptr_at m k) 16 4) len).
  2: { constructor 1. split; [by apply package_errors_neg|done]. }
  constructor 2. destruct Hst as (-> & -> & ->). split; [done|].
  pose proof (comp_at_inside m len Hm hdr k n Hk Hkn Hfit ltac:(done)) as Hin.
  pose proof (mem_ok_bytes _ Hmk) as Hbs. pose proof (opaque_len_range hdr _ Hbs).
  pose proof (fld_bound _ 21 1 Hbs).
  assert (22 <= comp_total hdr (ptr_at m k) <= n) as Ht.
  { unfold comp_fits in Hfit. rewrite !andb_true_iff in Hfit. unfold comp_total in *. destruct (3 <=? _); lia. }
  unfold comp_body, pldm_package_component_image_information_iter_next.
  cbn [set_iter_field set_iter pkg_state iter_entries iter_field]. rewrite Hs.
  cbn [c_assert mret outcome_ret mbind outcome_bind]. rewrite !bool_decide_false by done.
  rewrite bool_decide_true by done. cbn [c_assert mret outcome_ret mbind outcome_bind].
  assert (0 <= u64 (iter_entries p - 1) <= SIZE_MAX) as Hu
    by (unfold u64; pose proof (Z.mod_pos_bound (iter_entries p - 1) 18446744073709551616); lia).
  assert (field_at (ptr_at m k) (comp_total hdr (ptr_at m k)) (n - comp_total hdr (ptr_at m k))
    = field_at m (k + comp_total hdr (ptr_at m k)) (n - comp_total hdr (ptr_at m k))) as Ef
    by (unfold field_at; by rewrite ptr_at_ptr_at by lia). rewrite Ef.
  assert (forall p', iter_field p' = field_at m (k + comp_total hdr (ptr_at m k)) (n - comp_total hdr (ptr_at m k)) ->
    (left p' < left p)%nat) as Hleft by (intros p' E; unfold left; rewrite Hf, E; cbn; lia).
  destruct (Z.eqb_spec (u64 (iter_entries p - 1)) 0) as [E0|E0];
    do 4 eexists; (split; [reflexivity|]); (split; [reflexivity|]); (split; [done|]);
    (split; [by constructor 1|]); (split; [|by apply Hleft]).
  - constructor 2. split; [done|]. exact E0.
  - constructor 1. apply (step_stage _ p (k + comp_total hdr (ptr_at m k)) (n - comp_total hdr (ptr_at m k))
      (u64 (iter_entries p - 1))); [done|lia..].
Qed.
End loops.

(** ** Between the loops *)

Section inits.
Context (m : cmem) (len : Z) (pin : pldm_package_format_pin) (hdr : pldm__package_header_information).
Hypothesis Hm : mem_ok m.
Hypothesis Hlen : 0 <= len <= mem_size m.
Hypothesis Hpin : 1 <= pin_revision pin <= 4.
Hypothesis Hrev : 1 <= package_header_format_revision hdr <= pin_revision pin.

(** What an iterator is left with when the count of [sz] bytes was there. *)
Definition counted (s : pldm_package_parse) (p : pldm_package) (sz : nat) (rc : Z) (p' : pldm_package) : Prop :=
  exists k n, iter_field p = field_at m k n /\ 0 <= k /\ k + n <= len /\
  if Z.of_nat sz <=? n
  then rc = 0 /\ at_stage m len pin hdr s p' /\
    iter_field p' = field_at m (k + Z.of_nat sz) (n - Z.of_nat sz) /\ iter_entries p' = fld (ptr_at m k) 0 sz
  else rc = - EOVERFLOW.

Lemma revisions_ok : revisions_hold pin hdr = Ok tt.
Proof.
  unfold revisions_hold. repeat (rewrite (proj2 (Z.leb_le _ _)) by lia; cbn [c_assert mbind outcome_bind]). done.
Qed.

Lemma counted_ok s extract checked p (kk : kind) :
  at_stage m len pin hdr s p ->
  (forall v, extract v = pldm_msgbuf_extract kk v) \/
    (forall v, extract v = msgbuf_to_size (pldm_msgbuf_extract kk) v) ->
  kind_conv kk = le_dec -> (kind_size kk <= 4)%nat ->
  exists rc p', iter_count extract checked p = Ok (rc, p') /\ counted s p (kind_size kk) rc p'.
Proof.
  intros Hp Hex Hconv Hkk. pose proof Hp as [Hs _ Hh _ (k & n & Hf & Hk & Hn & Hkn) He].
  destruct (iter_at m len Hm Hlen p k n Hf) as (Hf' & Hmk & Hnk); [done..|].
  pose proof (kind_size_bound kk).
  destruct (iter_count_ok kk extract checked p _ n Hex Hf' Hmk Hnk Hconv) as (rc & p' & E & H'); [lia|].
  exists rc, p'. split; [done|]. exists k, n. split_and!; [done|done|done|].
  destruct (Z.leb_spec (Z.of_nat (kind_size kk)) n); [|by destruct H'].
  destruct H' as [-> ->]. split; [done|].
  assert (field_at (ptr_at m k) (Z.of_nat (kind_size kk)) (n - Z.of_nat (kind_size kk))
    = field_at m (k + Z.of_nat (kind_size kk)) (n - Z.of_nat (kind_size kk))) as ->
    by (unfold field_at; by rewrite ptr_at_ptr_at by lia).
  split; [|done]. apply step_stage; [done|lia..|].
  pose proof (fld_bound (ptr_at m k) 0 (kind_size kk) (mem_ok_bytes _ Hmk)) as Hb.
  assert (256 ^ Z.of_nat (kind_size kk) <= 256 ^ 4) by (apply Z.pow_le_mono_r; lia). lia.
Qed.

Lemma to_stage s s' p : at_stage m len pin hdr s p -> at_stage m len pin hdr s' (set_state s' p).
Proof. by intros []. Qed.

Lemma field_ptr p k n : iter_field p = field_at m k n -> vf_ptr (iter_field p) = Some (ptr_at m k).
Proof. by intros ->. Qed.

Lemma fd_init_ok p k n :
  pkg_state p = PLDM_PACKAGE_PARSE_HEADER -> pkg_pin p = Some pin -> pkg_hdr p = Some hdr ->
  pkg_package p = VarField (Some m) len -> pkg_areas p = field_at m k n -> 0 <= k -> 0 <= n -> k + n <= len ->
  0 <= iter_entries p <= SIZE_MAX ->
  exists rc p', pldm_package_firmware_device_id_record_iter_init (Some p) = Ok (rc, Some p') /\
    counted PLDM_PACKAGE_PARSE_FIRMWARE_DEVICES (set_iter_field (pkg_areas p) p) 1 rc p'.
Proof.
  intros Hs Hp Hh Hpk Ha ? ? ? He. unfold pldm_package_firmware_device_id_record_iter_init.
  rewrite Hp, Hh, revisions_ok. cbn [mbind outcome_bind]. rewrite bool_decide_true by done. cbn [negb].
  rewrite Ha. cbn [field_at vf_ptr]. fold (field_at m k n).
  destruct (counted_ok PLDM_PACKAGE_PARSE_FIRMWARE_DEVICES pldm__msgbuf_extract_uint8_to_size false
    (set_iter_field (field_at m k n) (set_state PLDM_PACKAGE_PARSE_FIRMWARE_DEVICES p)) KU8)
    as (rc & p' & -> & H'); [|by right|done|cbn; lia|].
  { constructor; try done. by exists k, n. }
  cbn [mbind outcome_bind]. by exists rc, p'.
Qed.

Lemma dd_init_ok p :
  at_stage m len pin hdr PLDM_PACKAGE_PARSE_FIRMWARE_DEVICES p -> pin_revision pin <> 1 ->
  exists rc p', pldm_package_downstream_device_id_record_iter_init (Some p) = Ok (rc, Some p') /\
    if package_header_format_revision hdr =? 1
    then rc = 0 /\ p' = set_iter (iter_field p) 0 (set_state PLDM_PACKAGE_PARSE_DOWNSTREAM_DEVICES p)
    else counted PLDM_PACKAGE_PARSE_DOWNSTREAM_DEVICES p 1 rc p'.
Proof.
  intros Hst Hne. pose proof Hst as [Hs Hp Hh _ (k & n & Hf & Hk & Hn & Hkn) He].
  unfold pldm_package_downstream_device_id_record_iter_init.
  rewrite Hp, Hh, revisions_ok. cbn [mbind outcome_bind]. rewrite bool_decide_true by done. cbn [negb].
  replace (pin_revision pin =? 1) with false by lia. rewrite (field_ptr p k n Hf).
  destruct (package_header_format_revision hdr =? 1); [by do 2 eexists|].
  destruct (counted_ok PLDM_PACKAGE_PARSE_DOWNSTREAM_DEVICES pldm__msgbuf_extract_uint8_to_size false
    (set_state PLDM_PACKAGE_PARSE_DOWNSTREAM_DEVICES p) KU8) as (rc & p' & -> & H');
    [by eapply to_stage|by right|done|cbn; lia|]. by exists rc, p'.
Qed.

Lemma comp_init_ok p :
  (at_stage m len pin hdr PLDM_PACKAGE_PARSE_FIRMWARE_DEVICES p /\ pin_revision pin = 1) \/
  (at_stage m len pin hdr PLDM_PACKAGE_PARSE_DOWNSTREAM_DEVICES p /\ pin_revision pin <> 1) ->
  exists rc p', pldm_package_component_image_information_iter_init (Some p) = Ok (rc, Some p') /\
    counted PLDM_PACKAGE_PARSE_COMPONENT_IMAGE_INFORMATION p 2 rc p'.
Proof.
  intros Hst.
  assert (exists s, at_stage m len pin hdr s p) as (s & Hany) by (destruct Hst as [[? _]|[? _]]; eauto).
  pose proof Hany as [Hs Hp Hh _ (k & n & Hf & Hk & Hn & Hkn) He].
  destruct (counted_ok PLDM_PACKAGE_PARSE_COMPONENT_IMAGE_INFORMATION (pldm_msgbuf_extract KU16) true
    (set_state PLDM_PACKAGE_PARSE_COMPONENT_IMAGE_INFORMATION p) KU16) as (rc & p' & E & H');
    [by eapply to_stage|by left|done|cbn; lia|].
  exists rc, p'. split; [|exact H']. unfold pldm_package_component_image_information_iter_init.
  rewrite Hp, Hh, revisions_ok. cbn [mbind outcome_bind]. rewrite (field_ptr p k n Hf), E.
  destruct Hst as [[[-> _ _ _ _ _] Hpr]|[[-> _ _ _ _ _] Hpr]].
  - replace (pin_revision pin =? 1) with true by lia.
    replace (package_header_format_revision hdr =? pin_revision pin) with true by lia. done.
  - replace (pin_revision pin =? 1) with false by lia. done.
Qed.
End inits.

Lemma pin_ok revision : 1 <= revision <= 4 ->
  pin_refused (DEFINE_PLDM_PACKAGE_FORMAT_PIN revision) = None /\
  pin_revision (DEFINE_PLDM_PACKAGE_FORMAT_PIN revision) = revision.
Proof.
  intros H. assert (revision = 1 \/ revision = 2 \/ revision = 3 \/ revision = 4) as [-> | [-> | [-> | ->]]] by lia;
    done.
Qed.

Section header_facts.
Context (m : cmem) (len pin : Z).
Hypothesis Hm : mem_ok m.
Hypothesis Hfit : header_fits m len pin = true.

Lemma header_at_facts :
  0 <= component_bitmap_bit_length (header_at m) < 65536 /\
  component_bitmap_bit_length (header_at m) mod 8 = 0 /\
  1 <= package_header_format_revision (header_at m) <= pin /\
  exists k n, areas_at m = field_at m k n /\ 0 <= k /\ 0 <= n /\ k + n <= len /\
    inside m len (package_version_string (header_at m)).
Proof.
  pose proof (mem_ok_bytes _ Hm) as Hbs. pose proof (fld_bound m 32 2 Hbs). pose proof (fld_bound m 35 1 Hbs).
  unfold header_fits in Hfit. rewrite !andb_true_iff in Hfit. cbn [header_at component_bitmap_bit_length
    package_header_format_revision package_version_string].
  assert (sum_at m <= fld m 17 2) by (unfold sum_at, checksums; destruct (4 <=? _); lia).
  split; [cbn in *; lia|]. split; [lia|]. split; [lia|].
  unfold areas_at. do 2 eexists. split; [reflexivity|]. split_and!; [lia..|].
  rewrite <- (ptr_at_0 m) at 2. apply inside_at; lia.
Qed.
End header_facts.

Lemma header_error_neq rc : rc ∈ - EUCLEAN :: header_errors -> rc <> 0.
Proof. unfold header_errors. rewrite !elem_of_cons, elem_of_nil. lia. Qed.

Lemma header_error_nonzero rc : rc ∈ - EUCLEAN :: header_errors -> (rc =? 0) = false.
Proof. intros ?%header_error_neq. lia. Qed.

Lemma package_error_header rc : rc ∈ package_errors -> rc ∈ - EUCLEAN :: header_errors.
Proof. unfold package_errors, header_errors. rewrite !elem_of_cons, !elem_of_nil. tauto. Qed.

Section loops_ok.
Context (m : cmem) (len : Z) (pin : pldm_package_format_pin) (hdr : pldm__package_header_information).
Hypothesis Hm : mem_ok m.
Hypothesis Hlen : 0 <= len <= mem_size m.
Hypothesis Hbits : 0 <= component_bitmap_bit_length hdr < 65536.
Hypothesis H8 : component_bitmap_bit_length hdr mod 8 = 0.
Hypothesis Hpin : 1 <= pin_revision pin <= 4.
Hypothesis Hrev : 1 <= package_header_format_revision hdr <= pin_revision pin.
Let fuel := S (S (Z.to_nat len)).

(** What a loop leaves. *)
Definition loop_ok {E} (G : E -> Prop) (Done : pldm_package -> Prop)
    (res : outcome (Z * pldm_package * list E)) : Prop :=
  exists rc p xs, res = Ok (rc, p, xs) /\ Forall G xs /\ (rc = 0 \/ rc ∈ package_errors) /\ (rc = 0 -> Done p).

Lemma foreach_start {R E} iter_end decode next (body : pldm_package -> R -> outcome (Z * E)) init
    (Inv Done : pldm_package -> Prop) (G : E -> Prop) p r rc p' :
  init (Some p) = Ok (rc, Some p') -> (rc = 0 \/ rc ∈ package_errors) ->
  (rc = 0 -> Inv p') -> (forall q, Inv q -> (left q < fuel)%nat) ->
  (forall p r, Inv p -> round_ok iter_end decode next body Inv Done left G package_errors p r) ->
  loop_ok G (fun p => Inv p /\ Done p) (foreach iter_end decode next body init fuel p r).
Proof.
  intros Hinit Hrc HI Hf Hround. unfold foreach, loop_ok. rewrite Hinit. cbn [mbind outcome_bind].
  destruct (Z.eqb_spec rc 0) as [->|Hne].
  - destruct (foreach_rule iter_end decode next body Inv Done left G package_errors fuel p' r Hround)
      as (rc & q & xs & -> & Hxs & Hrc' & Hend); [by apply HI|by apply Hf, HI|]. by do 3 eexists.
  - do 3 eexists. split; [reflexivity|]. split; [done|]. split; [destruct Hrc; [done|by right]|done].
Qed.

Lemma counted_start s p sz rc p' :
  counted m len pin hdr s p sz rc p' ->
  (rc = 0 \/ rc ∈ package_errors) /\ (rc = 0 -> at_stage m len pin hdr s p').
Proof.
  intros (k & n & _ & _ & _ & H). destruct (_ <=? n).
  - destruct H as (-> & H & _). split; [by left|done].
  - subst. split; [right; repeat constructor|done].
Qed.

Lemma foreach_fd_ok p k n :
  pkg_state p = PLDM_PACKAGE_PARSE_HEADER -> pkg_pin p = Some pin -> pkg_hdr p = Some hdr ->
  pkg_package p = VarField (Some m) len -> pkg_areas p = field_at m k n -> 0 <= k -> 0 <= n -> k + n <= len ->
  0 <= iter_entries p <= SIZE_MAX ->
  loop_ok (device_inside m len) (at_stage m len pin hdr PLDM_PACKAGE_PARSE_FIRMWARE_DEVICES)
    (foreach_pldm_package_firmware_device_id_record fuel p).
Proof.
  intros. destruct (fd_init_ok m len pin hdr Hm Hlen Hpin Hrev p k n) as (rc & p' & E & Hc); [done..|].
  apply counted_start in Hc as [Hrc Hst].
  destruct (foreach_start _ _ _ fd_body _ _ (fun _ => True) (device_inside m len) p
    (FdRec 0 0 0 vf0 vf0 vf0 vf0 vf0) rc p' E Hrc Hst (at_stage_left m len pin hdr _)
    (fd_round m len pin hdr Hm Hlen Hbits H8)) as (rc' & q & xs & E' & Hxs & Hrc' & Hend).
  unfold foreach_pldm_package_firmware_device_id_record. exists rc', q, xs. split_and!; try done.
  intros Hz. by apply Hend.
Qed.

Lemma foreach_dd_ok p :
  at_stage m len pin hdr PLDM_PACKAGE_PARSE_FIRMWARE_DEVICES p -> pin_revision pin <> 1 ->
  loop_ok (downstream_inside m len) (at_stage m len pin hdr PLDM_PACKAGE_PARSE_DOWNSTREAM_DEVICES)
    (foreach_pldm_package_downstream_device_id_record fuel p).
Proof.
  intros Hp Hne. destruct (dd_init_ok m len pin hdr Hm Hlen Hpin Hrev p Hp Hne) as (rc & p' & E & Hc).
  unfold foreach_pldm_package_downstream_device_id_record.
  destruct (Z.eqb_spec (package_header_format_revision hdr) 1) as [H1|H1].
  - destruct Hc as [-> ->]. unfold foreach. rewrite E. cbn.
    do 3 eexists. split; [reflexivity|]. split; [done|]. split; [by left|]. intros _.
    destruct Hp. constructor; try done.
  - apply counted_start in Hc as [Hrc Hst].
    destruct (foreach_start pldm_package_downstream_device_id_record_iter_end
      decode_pldm_package_downstream_device_id_record_from_iter
      pldm_package_downstream_device_id_record_iter_next dd_body _ _ (fun _ => True) (downstream_inside m len) p
      (DdRec 0 0 0 vf0 0 vf0 vf0 vf0 vf0) rc p' E Hrc Hst (at_stage_left m len pin hdr _))
      as (rc' & q & xs & E' & Hxs & Hrc' & Hend).
    { intros q r Hq. apply (dd_round m len pin hdr Hm Hlen Hbits H8); [left; lia|done]. }
    exists rc', q, xs. split_and!; try done. intros Hz. by apply Hend.
Qed.

Lemma foreach_comp_ok p :
  (at_stage m len pin hdr PLDM_PACKAGE_PARSE_FIRMWARE_DEVICES p /\ pin_revision pin = 1) \/
  (at_stage m len pin hdr PLDM_PACKAGE_PARSE_DOWNSTREAM_DEVICES p /\ pin_revision pin <> 1) ->
  loop_ok (component_inside m len) (fun p => pkg_state p = PLDM_PACKAGE_PARSE_COMPLETE)
    (foreach_pldm_package_component_image_information fuel p).
Proof.
  intros Hp. destruct (comp_init_ok m len pin hdr Hm Hlen Hpin Hrev p Hp) as (rc & p' & E & Hc).
  apply counted_start in Hc as [Hrc Hst].
  unfold foreach_pldm_package_component_image_information, foreach. rewrite E. cbn [mbind outcome_bind].
  destruct (Z.eqb_spec rc 0) as [->|Hne].
  - destruct (foreach_rule pldm_package_component_image_information_iter_end
      decode_pldm_package_component_image_information_from_iter
      pldm_package_component_image_information_iter_next comp_body (at_components m len pin hdr)
      (fun p => pkg_state p = PLDM_PACKAGE_PARSE_COMPLETE) left (component_inside m len) package_errors fuel p'
      (CompInfo 0 0 0 0 0 vf0 0 vf0 vf0) (comp_round m len pin hdr Hm Hlen))
      as (rc & q & xs & -> & Hxs & Hrc' & Hend); [left; by apply Hst|by eapply at_stage_left, Hst|].
    do 3 eexists. split; [reflexivity|]. split_and!; [done|done|]. intros Hz. by apply Hend.
  - do 3 eexists. split; [reflexivity|]. split; [done|]. split; [destruct Hrc; [done|by right]|done].
Qed.
End loops_ok.

(** C12: parsing a package is safe whatever its bytes are.  The three loops, each with
    the loop over descriptors inside, run one after the other as the header file
    documents: every call returns, none reads outside the package or fails an
    assertion, and the loops end.  Every field of every record handed out, every
    descriptor's data and every component's image is empty or lies within the package.
    The result is zero, and then the parser has reached its last stage, or one of four
    errors. *)
Theorem package_parse_safe nvidia m len revision hdr :
  mem_ok m -> 0 <= len <= mem_size m -> 1 <= revision <= 4 ->
  length (package_header_identifier hdr) = 16%nat -> length (package_release_date_time hdr) = 13%nat ->
  exists rc r p,
    parse_package nvidia m len revision hdr = Ok (rc, r, p) /\
    (rc = 0 -> pkg_state p = PLDM_PACKAGE_PARSE_COMPLETE /\ inside m len (package_version_string (p_header r))) /\
    (rc <> 0 -> rc ∈ - EUCLEAN :: header_errors) /\
    Forall (device_inside m len) (p_devices r) /\ Forall (downstream_inside m len) (p_downstream r) /\
    Forall (component_inside m len) (p_components r).
Proof.
  intros Hm Hlen Hrevision Hid Hdate. destruct (pin_ok revision Hrevision) as [Hpin Hpr].
  unfold parse_package, decode_pldm_firmware_update_package. cbn [Z.eqb negb].
  set (pin := DEFINE_PLDM_PACKAGE_FORMAT_PIN revision) in *.
  destruct (decode_header_ok m len Hm Hlen nvidia pin hdr pkg_zero eq_refl Hpin ltac:(lia) Hid Hdate)
    as (rc & h & p & -> & H). cbn [mret outcome_ret mbind outcome_bind].
  destruct (header_fits m len (pin_revision pin)) eqn:Hfit; cbn [andb] in H.
  2: { destruct H as [[H _] ->]. rewrite header_error_nonzero by done. do 3 eexists.
       split; [reflexivity|]. split_and!; try done. intros ->. by apply header_error_neq in H. }
  destruct (sums_match m len nvidia).
  2: { destruct H as [[H _] ->]. rewrite header_error_nonzero by done. do 3 eexists.
       split; [reflexivity|]. split_and!; try done. intros ->. by apply header_error_neq in H. }
  destruct H as (-> & -> & ->). cbn [Z.eqb].
  destruct (header_at_facts m len _ Hm Hfit) as (Hbits & H8 & Hrev & k & n & Ha & Hk & Hn & Hkn & Hver).
  match goal with |- context [foreach_pldm_package_firmware_device_id_record _ ?x] =>
    destruct (foreach_fd_ok m len pin (header_at m) Hm Hlen Hbits H8 ltac:(lia) Hrev x k n)
      as (rc & p & fds & E & Hfds & Hrc & Hst); [reflexivity..|exact Ha|done|done|done|cbn; lia|] end.
  rewrite E. clear E. cbn [mbind outcome_bind].
  destruct (Z.eqb_spec rc 0) as [->|Hne].
  2: { do 3 eexists. split; [reflexivity|]. split_and!; try done. intros _. apply package_error_header.
       by destruct Hrc. }
  specialize (Hst eq_refl).
  assert (loop_ok (downstream_inside m len)
    (fun p => (at_stage m len pin (header_at m) PLDM_PACKAGE_PARSE_FIRMWARE_DEVICES p /\ pin_revision pin = 1) \/
       (at_stage m len pin (header_at m) PLDM_PACKAGE_PARSE_DOWNSTREAM_DEVICES p /\ pin_revision pin <> 1))
    (if revision =? 1 then Ok (0, p, []) else foreach_pldm_package_downstream_device_id_record (S (S (Z.to_nat len))) p))
    as (rc & q & dds & E & Hdds & Hrc2 & Hst2).
  { destruct (Z.eqb_spec revision 1).
    - do 3 eexists. split; [reflexivity|]. split; [done|]. split; [by left|]. left. split; [done|lia].
    - destruct (foreach_dd_ok m len pin (header_at m) Hm Hlen Hbits H8 ltac:(lia) Hrev p Hst ltac:(lia))
        as (rc & q & dds & -> & ? & ? & Hq). do 3 eexists. split; [reflexivity|]. split_and!; try done.
      intros Hz. right. split; [by apply Hq|lia]. }
  unfold mret, outcome_ret. rewrite E. clear E. cbn [mbind outcome_bind]. destruct (Z.eqb_spec rc 0) as [->|Hne].
  2: { do 3 eexists. split; [reflexivity|]. split_and!; try done. intros _. apply package_error_header.
       by destruct Hrc2. }
  destruct (foreach_comp_ok m len pin (header_at m) Hm Hlen ltac:(lia) Hrev q (Hst2 eq_refl))
    as (rc & w & comps & -> & Hcomps & Hrc3 & Hst3).
  cbn [mbind outcome_bind]. do 3 eexists. split; [reflexivity|]. split_and!; try done.
  - intros Hz. split; [by apply Hst3|]. destruct (header_at_facts m len _ Hm Hfit) as (_ & _ & _ & ? & ? & H'). by apply H'.
  - intros Hne. apply package_error_header. by destruct Hrc3.
Qed.

Lemma sample_mem_ok : mem_ok sample_mem.
Proof.
  constructor; [by vm_compute..|]. 
  apply (bool_decide_unpack (Forall (fun b => 0 <= b < 256) (bytes sample_mem))). by vm_compute.
Qed.
Lemma package_header_exact_witness :
  let pin := DEFINE_PLDM_PACKAGE_FORMAT_PIN 4 in
  (exists h p,
    decode_pldm_firmware_update_package false (Some sample_mem) (mem_size sample_mem)
      (Some pin) (Some header_unset) (Some pkg_zero) 0 = Ok (0, Some h, Some p) /\
    h = header_at sample_mem /\
    p = Pkg (Some pin) (Some (header_at sample_mem)) PLDM_PACKAGE_PARSE_HEADER 0
          (VarField (Some sample_mem) (mem_size sample_mem)) (areas_at sample_mem) vf0 0) /\
  exists h p,
    decode_pldm_firmware_update_package false (Some sample_mem) (mem_size sample_mem)
      (Some (FormatPin 423 0 (pin_identifier pin) 4)) (Some header_unset) (Some pkg_zero) 0
    = Ok (- EINVAL, Some h, Some p) /\ h = header_unset /\ p = pkg_zero.
Proof.
  intros pin. split.
  - destruct (package_header_exact false sample_mem (mem_size sample_mem) pin header_unset)
      as (h & p & E & H & _); [exact sample_mem_ok|by vm_compute|by vm_compute|reflexivity|reflexivity|].
    exists h, p. 
    assert (forallb fst (pin_checks pin ++ header_checks sample_mem (mem_size sample_mem) (pin_revision pin) ++
      sum_checks sample_mem (mem_size sample_mem) false) = true) as F by (vm_compute; reflexivity).
    assert (first_failure (pin_checks pin ++ header_checks sample_mem (mem_size sample_mem) (pin_revision pin) ++
      sum_checks sample_mem (mem_size sample_mem) false) = 0) as F0 by (vm_compute; reflexivity).
    rewrite F in H. rewrite F0 in E. split; [exact E|exact H].
  - destruct (package_header_exact false sample_mem (mem_size sample_mem) (FormatPin 423 0 (pin_identifier pin) 4) header_unset)
      as (h & p & E & _ & H); [exact sample_mem_ok|by vm_compute|by vm_compute|reflexivity|reflexivity|].
    exists h, p. split; [exact E|]. apply H. reflexivity.
Defined.

Lemma package_parse_safe_witness :
  exists rc r p,
    parse_package false sample_mem (mem_size sample_mem) 4 header_unset = Ok (rc, r, p) /\
    (rc = 0 -> pkg_state p = PLDM_PACKAGE_PARSE_COMPLETE /\
               inside sample_mem (mem_size sample_mem) (package_version_string (p_header r))) /\
    (rc <> 0 -> rc ∈ - EUCLEAN :: header_errors) /\
    Forall (device_inside sample_mem (mem_size sample_mem)) (p_devices r) /\
    Forall (downstream_inside sample_mem (mem_size sample_mem)) (p_downstream r) /\
    Forall (component_inside sample_mem (mem_size sample_mem)) (p_components r).
Proof.
  apply (package_parse_safe false sample_mem (mem_size sample_mem) 4 header_unset);
    [exact sample_mem_ok|by vm_compute|lia|reflexivity|reflexivity].
Defined.
