(* ===== verification/PackageRound.v ===== *)
(** * A package with a layout parses to its contents *)

From S2P Require Import Prelude Msgbuf Layout Edac Base FwUpdate Package PackageSpec PackageProps PackageRuns.

(** The bytes of a field that points at them. *)
Lemma text_lies m k l : lies m k l -> text (field_at m k (len l)) = l.
Proof.
  intros [Hk [post E]]. unfold text, field_at. cbn. rewrite E. unfold len. rewrite Nat2Z.id.
  unfold slice. by rewrite drop_0, take_app_length.
Qed.

(** ** Descriptors *)

Section descriptors.
Context (m : cmem).
Hypothesis Hm : mem_ok m.

(** One descriptor, of a field that goes on behind it. *)
Lemma descriptor_parse t data k n count :
  lies m k (descriptor_bytes (t, data)) -> descriptor_fits (t, data) -> 4 + len data <= n ->
  k + n <= mem_size m ->
  exists d, decode_pldm_descriptor_from_iter (Some (DescIter (Some (field_at m k n)) count)) (Some (Descriptor 0 0 None))
    = Ok (0, Some (DescIter (Some (field_at m (k + (4 + len data)) (n - (4 + len data)))) count), Some d) /\
    view_descriptor d = (t, data).
Proof.
  intros Hl ((Ht1 & Ht2) & Hdata & Hbs) Hn Hk. cbn [fst snd] in *. pose proof Hl as [[Hk0 _] _].
  change (descriptor_bytes (t, data)) with (le_enc 2 t ++ le_enc 2 (len data) ++ data) in *. pieces Hl.
  destruct (descriptor_from_iter_ok (ptr_at m k) n count (Descriptor 0 0 None))
    as (rc & f & d & E & H); [apply mem_ok_ptr_at; [done|lia]|rewrite mem_size_ptr_at; lia|].
  unfold field_at. rewrite E. clear E. rewrite (fld_lies m k 2 2 (len data)) in H by (done || lia).
  replace (5 <=? n) with true in H by lia. replace (4 + len data <=? n) with true in H by lia.
  cbn [andb] in H. destruct H as (-> & -> & ->). exists (descriptor_at (ptr_at m k)). split.
  { unfold field_at. by rewrite ptr_at_ptr_at by lia. }
  unfold view_descriptor, descriptor_at. cbn [descriptor_type descriptor_length descriptor_data].
  rewrite (fld_lies m k 0 2 t); [|by rewrite Z.add_0_r|lia|cbn; lia].
  rewrite (fld_lies m k 2 2 (len data)) by (done || lia). f_equal.
  rewrite ptr_at_ptr_at by lia. apply text_lies. by replace (k + 4) with (k + 2 + 2) by lia.
Qed.

Lemma len_descriptor t data : len (descriptor_bytes (t, data)) = 4 + len data.
Proof. unfold descriptor_bytes. cbn [fst snd]. rewrite !len_app, !len_le_enc. lia. Qed.

Lemma descriptors_parse ds k n fuel :
  lies m k (concat (descriptor_bytes <$> ds)) -> Forall descriptor_fits ds ->
  n = len (concat (descriptor_bytes <$> ds)) -> k + n <= mem_size m -> (length ds < fuel)%nat ->
  exists xs, foreach_descriptor fuel (DescIter (Some (field_at m k n)) (len ds)) = Ok (0, xs) /\
    view_descriptor <$> xs = ds.
Proof.
  intros Hl Hds. revert k n fuel Hl. induction Hds as [|[t data] ds Hd Hds IH]; intros k n [|fuel] Hl Hn Hk Hf;
    cbn [length] in Hf; try lia.
  { by exists []. }
  cbn [fmap list_fmap concat] in Hl, Hn. rewrite len_app, len_descriptor in Hn.
  apply lies_app in Hl as [Hl Hrest]. rewrite len_descriptor in Hrest.
  pose proof (len_nonneg (concat (descriptor_bytes <$> ds))) as Hnn.
  cbn [foreach_descriptor]. unfold pldm_descriptor_iter_end. cbn [di_count].
  rewrite len_cons. pose proof (len_nonneg ds) as Hcnt. replace (1 + len ds =? 0) with false by lia.
  destruct (descriptor_parse t data k n (1 + len ds)) as (d & -> & Hv); [done|done|lia|lia|].
  cbn [mbind outcome_bind Z.eqb]. unfold pldm_descriptor_iter_next. cbn [di_count di_field].
  replace (1 + len ds =? 0) with false by lia. cbn [snd]. replace (1 + len ds - 1) with (len ds) by lia.
  destruct (IH (k + (4 + len data)) (n - (4 + len data)) fuel) as (xs & -> & Hxs); [done|lia..|].
  cbn [mbind outcome_bind]. eexists. split; [reflexivity|]. cbn [fmap list_fmap]. by f_equal.
Qed.
End descriptors.

(** ** Device records *)

Lemma sized_at m k body : lies m k (sized body) -> len body < 65534 ->
  fld (ptr_at m k) 0 2 = 2 + len body /\ lies m (k + 2) body.
Proof.
  intros Hl Hb. pose proof Hl as [[Hk _] _]. pose proof (len_nonneg body). unfold sized in Hl. pieces Hl.
  split; [|done]. apply fld_lies; [by rewrite Z.add_0_r|done|cbn; lia].
Qed.

Lemma string_type_byte t : is_string_type_valid t = true -> 0 <= t < 256.
Proof. unfold is_string_type_valid. destruct t as [|[[|[]|]|[[]|[]|]|]|]; try done; lia. Qed.

Section records.
Context (m : cmem) (hdr : pldm__package_header_information).
Let rev := package_header_format_revision hdr.
Let bits := component_bitmap_bit_length hdr.
Hypothesis Hm : mem_ok m.
Hypothesis Hbits : 0 <= bits < 65536.

Lemma bits_size : bits / 8 = bitmap_size hdr.
Proof. done. Qed.

(** Some piece lies at the position the goal names. *)
Ltac found :=
  match goal with P : lies ?m ?p ?l |- lies ?m ?q ?l => replace q with p by lia; exact P end.

(** The bytes of a field of the record are a piece. *)
Ltac piece_text :=
  unfold field_at; rewrite ?ptr_at_ptr_at by lia;
  match goal with P : lies ?m ?p ?l |- text (VarField (Some (ptr_at ?m ?q)) ?n) = ?l =>
    replace q with p by lia; replace n with (len l) by lia; exact (text_lies m p l P) end.

(** The fields of a device record that lies at [k], and the pieces behind them. *)
Lemma device_fields k d :
  lies m k (device_bytes rev d) -> device_ok rev bits d ->
  let p := ptr_at m k in
  let at_ := k + fixed_size rev + bits / 8 in
  fld p 0 2 = len (device_bytes rev d) /\ fld p 2 1 = len (d_descriptors d) /\ fld p 3 4 = d_flags d /\
  fld p 7 1 = d_string_type d /\ fld p 8 1 = len (d_version d) /\ fld p 9 2 = len (d_package_data d) /\
  manifest_size rev p = len (d_manifest d) /\
  lies m (k + fixed_size rev) (d_applicable d) /\ lies m at_ (d_version d) /\
  lies m (at_ + len (d_version d)) (concat (descriptor_bytes <$> d_descriptors d)) /\
  lies m (at_ + len (d_version d) + len (concat (descriptor_bytes <$> d_descriptors d))) (d_package_data d) /\
  lies m (at_ + len (d_version d) + len (concat (descriptor_bytes <$> d_descriptors d)) + len (d_package_data d))
    (d_manifest d) /\
  len (device_bytes rev d) = fixed_size rev + bits / 8 + len (d_version d) +
    len (concat (descriptor_bytes <$> d_descriptors d)) + len (d_package_data d) + len (d_manifest d).
Proof.
  intros Hl [Hc Hf Ht [Hv _] [Ha _] _ [Hd _] [_ Hman] Hsz] p at_. pose proof Hl as [[Hk _] _].
  apply sized_at in Hl as [HL Hl]; [|done]. unfold p, at_.
  assert (len (device_bytes rev d) = 2 + len (device_body rev d)) as Elen
    by (unfold device_bytes, sized; by rewrite len_app, len_le_enc).
  rewrite HL, Elen. unfold u32_ok in Hf. apply string_type_byte in Ht.
  pose proof (len_nonneg (d_descriptors d)). pose proof (len_nonneg (d_package_data d)).
  pose proof (len_nonneg (d_manifest d)). pose proof (len_nonneg (d_version d)).
  pose proof (len_nonneg (d_applicable d)). pose proof (len_nonneg (concat (descriptor_bytes <$> d_descriptors d))).
  unfold device_body, fixed_size, manifest_size in *. rewrite !len_app, !len_le_enc in *.
  change (Z.of_nat 1) with 1 in *. change (Z.of_nat 2) with 2 in *. change (Z.of_nat 4) with 4 in *.
  destruct (Z.leb_spec 4 rev).
  - rewrite len_le_enc in *. change (Z.of_nat 4) with 4 in *. pieces Hl.
    rewrite (fld_lies m k 2 1 (len (d_descriptors d))); [|found|lia|cbn; lia].
    rewrite (fld_lies m k 3 4 (d_flags d)); [|found|lia|cbn; lia].
    rewrite (fld_lies m k 7 1 (d_string_type d)); [|found|lia|cbn; lia].
    rewrite (fld_lies m k 8 1 (len (d_version d))); [|found|lia|cbn; lia].
    rewrite (fld_lies m k 9 2 (len (d_package_data d))); [|found|lia|cbn; lia].
    rewrite (fld_lies m k 11 4 (len (d_manifest d))); [|found|lia|cbn; lia].
    rewrite <- Ha. split_and!; try done; try found; lia.
  - rewrite Hman in * by lia. change (len (@nil Z)) with 0 in *. pieces Hl.
    rewrite (fld_lies m k 2 1 (len (d_descriptors d))); [|found|lia|cbn; lia].
    rewrite (fld_lies m k 3 4 (d_flags d)); [|found|lia|cbn; lia].
    rewrite (fld_lies m k 7 1 (d_string_type d)); [|found|lia|cbn; lia].
    rewrite (fld_lies m k 8 1 (len (d_version d))); [|found|lia|cbn; lia].
    rewrite (fld_lies m k 9 2 (len (d_package_data d))); [|found|lia|cbn; lia].
    rewrite <- Ha. split_and!; try done; try found; lia.
Qed.

Lemma fixed_size_range : 11 <= fixed_size rev <= 15.
Proof. unfold fixed_size. destruct (4 <=? rev); lia. Qed.

Lemma at_places k a b : 0 <= k -> 0 <= a -> a = b -> ptr_at (ptr_at m k) a = ptr_at m (k + b).
Proof. intros. subst. by apply ptr_at_ptr_at. Qed.

Lemma text_if k (l : list Z) (b : bool) :
  lies m k l -> (b = true -> l = []) -> text (VarField (if b then None else Some (ptr_at m k)) (len l)) = l.
Proof. intros Hl Hb. destruct b; [by rewrite Hb|by apply text_lies]. Qed.

(** A device record in its layout parses to it. *)
Lemma device_parse k n d rc f r :
  lies m k (device_bytes rev d) -> device_ok rev bits d -> len (device_bytes rev d) <= n -> k + n <= mem_size m ->
  stepped (fd_fits hdr (ptr_at m k)) (fd_at hdr (ptr_at m k)) (ptr_at m k) n rc f r ->
  let L := len (device_bytes rev d) in
  rc = 0 /\ 0 <= L /\ f = field_at m (k + L) (n - L) /\
  exists ds, (forall p, pkg_state p = PLDM_PACKAGE_PARSE_FIRMWARE_DEVICES -> fd_body p r = Ok (0, (r, ds))) /\
    view_device (r, ds) = d.
Proof.
  intros Hl Hd Hn Hk Hst L. pose proof Hl as [[Hk0 _] _].
  destruct (device_fields k d Hl Hd) as (F0 & F2 & F3 & F7 & F8 & F9 & F11 & Pa & Pv & Pd & Pp & Pm & EL).
  fold L in F0, EL. pose proof Hd as [Hc _ Ht [Hv _] [Ha _] Hds [Hp _] [_ Hman] Hsz].
  pose proof (len_nonneg (d_descriptors d)). pose proof (len_nonneg (d_package_data d)).
  pose proof (len_nonneg (d_manifest d)). pose proof (len_nonneg (d_applicable d)).
  pose proof (len_nonneg (concat (descriptor_bytes <$> d_descriptors d))). pose proof fixed_size_range as Hfix.
  assert (descs_at hdr (ptr_at m k) 0 = fixed_size rev + bits / 8 + len (d_version d)) as Eda
    by (unfold descs_at; fold rev; rewrite F8, <- bits_size; lia).
  assert (descs_len hdr (ptr_at m k) L 0 = len (concat (descriptor_bytes <$> d_descriptors d))) as Edl
    by (unfold descs_len; fold rev; rewrite Eda, F9, F11; lia).
  unfold stepped in Hst. rewrite F0 in Hst. unfold fd_fits in Hst. rewrite F7, Ht, F8, Edl in Hst.
  replace (11 <=? L) with true in Hst by lia. replace (L <=? n) with true in Hst by (unfold L; lia).
  replace (len (d_version d) =? 0) with false in Hst by lia.
  replace (0 <=? len (concat (descriptor_bytes <$> d_descriptors d))) with true in Hst by lia.
  cbn [negb andb] in Hst. destruct Hst as (-> & -> & ->). split; [done|]. split; [lia|].
  split; [unfold field_at; by rewrite ptr_at_ptr_at by lia|].
  assert (fd_at hdr (ptr_at m k) L = FdRec (len (d_descriptors d)) (d_flags d) (d_string_type d)
    (field_at m (k + fixed_size rev + bits / 8) (len (d_version d)))
    (field_at m (k + fixed_size rev) (len (d_applicable d)))
    (field_at m (k + fixed_size rev + bits / 8 + len (d_version d)) (len (concat (descriptor_bytes <$> d_descriptors d))))
    (VarField (if len (d_package_data d) =? 0 then None else
       Some (ptr_at m (k + fixed_size rev + bits / 8 + len (d_version d) +
                       len (concat (descriptor_bytes <$> d_descriptors d))))) (len (d_package_data d)))
    (VarField (if 4 <=? rev then
       Some (ptr_at m (k + fixed_size rev + bits / 8 + len (d_version d) +
                       len (concat (descriptor_bytes <$> d_descriptors d)) + len (d_package_data d))) else None)
       (len (d_manifest d)))) as ->.
  { unfold fd_at. fold rev. rewrite F2, F3, F7, F8, F9, F11, Eda, Edl, <- bits_size, Ha. unfold field_at.
    rewrite !ptr_at_ptr_at by lia. pk_fields. }
  unfold fd_body, pldm_package_firmware_device_id_record_descriptor_iter_init, view_device.
  cbn [fd_record_descriptors fd_descriptor_count device_update_option_flags component_image_set_version_string_type
    component_image_set_version_string fd_applicable_components firmware_device_package_data fd_reference_manifest_data].
  destruct (descriptors_parse m Hm (d_descriptors d) (k + fixed_size rev + bits / 8 + len (d_version d))
    (len (concat (descriptor_bytes <$> d_descriptors d))) (S (Z.to_nat (len (d_descriptors d)))))
    as (xs & E & Hxs); [done|done|done|unfold L in *; lia|unfold len; lia|].
  exists xs. split.
  { intros p Hs. rewrite Hs, bool_decide_true by done. cbn [c_assert mret outcome_ret mbind outcome_bind di_count].
    by rewrite E. }
  rewrite Hxs, !text_lies by done. destruct d; f_equal; cbn in *.
  - apply text_if; [done|]. intros E0%Z.eqb_eq. unfold len in E0. by destruct d_package_data.
  - destruct (Z.leb_spec 4 rev); [by apply text_lies|]. by rewrite Hman.
Qed.
End records.

Section downstreams.
Context (m : cmem) (hdr : pldm__package_header_information).
Let rev := package_header_format_revision hdr.
Let bits := component_bitmap_bit_length hdr.
Hypothesis Hm : mem_ok m.
Hypothesis Hbits : 0 <= bits < 65536.

Ltac found :=
  match goal with P : lies ?m ?p ?l |- lies ?m ?q ?l => replace q with p by lia; exact P end.

Definition ds_stamp_size (d : downstream) : Z := if Z.testbit (ds_flags d) 0 then 4 else 0.

Lemma downstream_fields k d :
  lies m k (downstream_bytes rev d) -> downstream_ok rev bits d ->
  let p := ptr_at m k in
  let at_ := k + fixed_size rev + bits / 8 in
  let descs := at_ + len (ds_version d) + ds_stamp_size d in
  fld p 0 2 = len (downstream_bytes rev d) /\ fld p 2 1 = len (ds_descriptors d) /\ fld p 3 4 = ds_flags d /\
  fld p 7 1 = ds_string_type d /\ fld p 8 1 = len (ds_version d) /\ fld p 9 2 = len (ds_package_data d) /\
  manifest_size rev p = len (ds_manifest d) /\
  (Z.testbit (ds_flags d) 0 = true -> lies m (at_ + len (ds_version d)) (le_enc 4 (ds_stamp d))) /\
  lies m (k + fixed_size rev) (ds_applicable d) /\ lies m at_ (ds_version d) /\
  lies m descs (concat (descriptor_bytes <$> ds_descriptors d)) /\
  lies m (descs + len (concat (descriptor_bytes <$> ds_descriptors d))) (ds_package_data d) /\
  lies m (descs + len (concat (descriptor_bytes <$> ds_descriptors d)) + len (ds_package_data d)) (ds_manifest d) /\
  len (downstream_bytes rev d) = fixed_size rev + bits / 8 + len (ds_version d) + ds_stamp_size d +
    len (concat (descriptor_bytes <$> ds_descriptors d)) + len (ds_package_data d) + len (ds_manifest d).
Proof.
  intros Hl [Hc Hf Ht [Hv _] _ [Ha _] _ [Hd _] [_ Hman] Hsz] p at_ descs. pose proof Hl as [[Hk _] _].
  apply sized_at in Hl as [HL Hl]; [|done]. unfold p, descs, at_.
  assert (len (downstream_bytes rev d) = 2 + len (downstream_body rev d)) as Elen
    by (unfold downstream_bytes, sized; by rewrite len_app, len_le_enc).
  rewrite HL, Elen. unfold u32_ok in Hf. apply string_type_byte in Ht.
  pose proof (len_nonneg (ds_descriptors d)). pose proof (len_nonneg (ds_package_data d)).
  pose proof (len_nonneg (ds_manifest d)). pose proof (len_nonneg (ds_version d)).
  pose proof (len_nonneg (ds_applicable d)). pose proof (len_nonneg (concat (descriptor_bytes <$> ds_descriptors d))).
  unfold downstream_body, fixed_size, manifest_size, ds_stamp_size in *.
  assert (exists st, (if Z.testbit (ds_flags d) 0 then le_enc 4 (ds_stamp d) else []) = st /\
    len st = (if Z.testbit (ds_flags d) 0 then 4 else 0) /\
    (Z.testbit (ds_flags d) 0 = true -> st = le_enc 4 (ds_stamp d))) as (st & Est & Elst & Hst).
  { destruct (Z.testbit _ 0); eexists; (split; [reflexivity|]); (split; [first [apply len_le_enc | done]|done]). }
  rewrite Est in *. rewrite <- Elst. rewrite !len_app, !len_le_enc in *. pose proof (len_nonneg st).
  assert (forall p, lies m p st -> Z.testbit (ds_flags d) 0 = true -> lies m p (le_enc 4 (ds_stamp d))) as Hst2
    by (intros q Hq E; by rewrite <- Hst).
  change (Z.of_nat 1) with 1 in *. change (Z.of_nat 2) with 2 in *. change (Z.of_nat 4) with 4 in *.
  destruct (Z.leb_spec 4 rev).
  - rewrite len_le_enc in *. change (Z.of_nat 4) with 4 in *. pieces Hl.
    rewrite (fld_lies m k 2 1 (len (ds_descriptors d))); [|found|lia|cbn; lia].
    rewrite (fld_lies m k 3 4 (ds_flags d)); [|found|lia|cbn; lia].
    rewrite (fld_lies m k 7 1 (ds_string_type d)); [|found|lia|cbn; lia].
    rewrite (fld_lies m k 8 1 (len (ds_version d))); [|found|lia|cbn; lia].
    rewrite (fld_lies m k 9 2 (len (ds_package_data d))); [|found|lia|cbn; lia].
    rewrite (fld_lies m k 11 4 (len (ds_manifest d))); [|found|lia|cbn; lia].
    rewrite <- Ha. split_and!; try done; try found; try lia. apply Hst2. found.
  - rewrite Hman in * by lia. change (len (@nil Z)) with 0 in *. pieces Hl.
    rewrite (fld_lies m k 2 1 (len (ds_descriptors d))); [|found|lia|cbn; lia].
    rewrite (fld_lies m k 3 4 (ds_flags d)); [|found|lia|cbn; lia].
    rewrite (fld_lies m k 7 1 (ds_string_type d)); [|found|lia|cbn; lia].
    rewrite (fld_lies m k 8 1 (len (ds_version d))); [|found|lia|cbn; lia].
    rewrite (fld_lies m k 9 2 (len (ds_package_data d))); [|found|lia|cbn; lia].
    rewrite <- Ha. split_and!; try done; try found; try lia. apply Hst2. found.
Qed.

Lemma downstream_parse k n d rc f r :
  lies m k (downstream_bytes rev d) -> downstream_ok rev bits d -> len (downstream_bytes rev d) <= n ->
  k + n <= mem_size m ->
  stepped (dd_fits hdr (ptr_at m k)) (dd_at hdr (ptr_at m k)) (ptr_at m k) n rc f r ->
  let L := len (downstream_bytes rev d) in
  rc = 0 /\ 0 <= L /\ f = field_at m (k + L) (n - L) /\
  exists ds, (forall p, dd_body p r = Ok (0, (r, ds))) /\ view_downstream (r, ds) = d.
Proof.
  intros Hl Hd Hn Hk Hst L. pose proof Hl as [[Hk0 _] _].
  destruct (downstream_fields k d Hl Hd) as (F0 & F2 & F3 & F7 & F8 & F9 & F11 & Ps & Pa & Pv & Pd & Pp & Pm & EL).
  fold L in F0, EL. pose proof Hd as [Hc _ Ht [Hv _] [Hs Hs0] [Ha _] Hds [Hp _] [_ Hman] Hsz].
  pose proof (len_nonneg (ds_descriptors d)). pose proof (len_nonneg (ds_package_data d)).
  pose proof (len_nonneg (ds_manifest d)). pose proof (len_nonneg (ds_applicable d)).
  pose proof (len_nonneg (ds_version d)).
  pose proof (len_nonneg (concat (descriptor_bytes <$> ds_descriptors d))).
  pose proof (fixed_size_range hdr) as Hfix. fold rev in Hfix.
  assert (stamp_size (ptr_at m k) = ds_stamp_size d) as Ess by (unfold stamp_size; by rewrite F3).
  assert (0 <= ds_stamp_size d <= 4) as Hss by (unfold ds_stamp_size; destruct (Z.testbit _ 0); lia).
  assert (descs_at hdr (ptr_at m k) (ds_stamp_size d) = fixed_size rev + bits / 8 + len (ds_version d) + ds_stamp_size d)
    as Eda by (unfold descs_at; fold rev; rewrite F8; unfold bits, bitmap_size; lia).
  assert (descs_len hdr (ptr_at m k) L (ds_stamp_size d) = len (concat (descriptor_bytes <$> ds_descriptors d))) as Edl
    by (unfold descs_len; fold rev; rewrite Eda, F9, F11; lia).
  unfold stepped in Hst. rewrite F0 in Hst. unfold dd_fits in Hst. rewrite F7, Ht, Ess, Edl in Hst.
  replace (11 <=? L) with true in Hst by lia. replace (L <=? n) with true in Hst by (unfold L; lia).
  replace (0 <=? len (concat (descriptor_bytes <$> ds_descriptors d))) with true in Hst by lia.
  cbn [negb andb] in Hst. destruct Hst as (-> & -> & ->). split; [done|]. split; [lia|].
  split; [unfold field_at; by rewrite ptr_at_ptr_at by lia|].
  set (at_ := k + fixed_size rev + bits / 8 + len (ds_version d) + ds_stamp_size d) in *.
  assert (dd_at hdr (ptr_at m k) L = DdRec (len (ds_descriptors d)) (ds_flags d) (ds_string_type d)
    (field_at m (k + fixed_size rev + bits / 8) (len (ds_version d))) (ds_stamp d)
    (field_at m (k + fixed_size rev) (len (ds_applicable d)))
    (field_at m at_ (len (concat (descriptor_bytes <$> ds_descriptors d))))
    (field_at m (at_ + len (concat (descriptor_bytes <$> ds_descriptors d))) (len (ds_package_data d)))
    (VarField (if 4 <=? rev then
       Some (ptr_at m (at_ + len (concat (descriptor_bytes <$> ds_descriptors d)) + len (ds_package_data d))) else None)
       (len (ds_manifest d)))) as ->.
  { unfold dd_at. fold rev. rewrite Ess, F2, F3, F7, F8, F9, F11, Eda, Edl, Ha. unfold bitmap_size. fold bits.
    assert ((if Z.testbit (ds_flags d) 0
      then fld (ptr_at m k) (Z.to_nat (fixed_size rev + bits / 8 + len (ds_version d))) 4 else 0) = ds_stamp d) as ->.
    { destruct (Z.testbit (ds_flags d) 0); [|by rewrite Hs0]. apply fld_lies; [|lia|exact Hs].
      rewrite Z2Nat.id by lia. specialize (Ps eq_refl). unfold at_ in *. found. }
    unfold field_at. rewrite !ptr_at_ptr_at by lia. unfold at_. pk_fields. }
  unfold dd_body, pldm_package_downstream_device_id_record_descriptor_iter_init, view_downstream.
  cbn [dd_record_descriptors dd_descriptor_count update_option_flags di_count
    self_contained_activation_min_version_string_type self_contained_activation_min_version_string
    self_contained_activation_min_version_comparison_stamp dd_applicable_components package_data
    dd_reference_manifest_data].
  destruct (descriptors_parse m Hm (ds_descriptors d) at_
    (len (concat (descriptor_bytes <$> ds_descriptors d))) (S (Z.to_nat (len (ds_descriptors d)))))
    as (xs & E & Hxs); [done|done|done|unfold L, at_ in *; lia|unfold len; lia|].
  exists xs. split; [intros _; by rewrite E|].
  rewrite Hxs, !text_lies by done. destruct d; f_equal; cbn in *.
  destruct (Z.leb_spec 4 rev); [by apply text_lies|]. by rewrite Hman.
Qed.

(** *** Components *)

Lemma component_parse k n c rc f i :
  lies m k (component_bytes rev c) -> component_ok rev (mem_size m) c -> len (component_bytes rev c) <= n ->
  k + n <= mem_size m ->
  comp_stepped hdr m (mem_size m) (ptr_at m k) n rc f i ->
  let L := len (component_bytes rev c) in
  rc = 0 /\ 0 < L /\ f = field_at m (k + L) (n - L) /\ view_component i = component_content (bytes m) c.
Proof.
  intros Hl [[Hcl Hcl2] Hid Hst Hop Hme (Hlo & Hsi & Himg) Ht [Hv _] (_ & Ho & Ho3)] Hn Hk Hstep L.
  pose proof Hl as [[Hk0 _] _]. pose proof (string_type_byte _ Ht).
  pose proof (len_nonneg (c_version c)). pose proof (len_nonneg (c_opaque c)). unfold u16_ok, u32_ok in *.
  assert (L = comp_total hdr (ptr_at m k) /\ fld (ptr_at m k) 0 2 = c_classification c /\
    fld (ptr_at m k) 2 2 = c_identifier c /\ fld (ptr_at m k) 4 4 = c_stamp c /\ fld (ptr_at m k) 8 2 = c_options c /\
    fld (ptr_at m k) 10 2 = c_method c /\ fld (ptr_at m k) 12 4 = c_location c /\ fld (ptr_at m k) 16 4 = c_size c /\
    fld (ptr_at m k) 20 1 = c_string_type c /\ fld (ptr_at m k) 21 1 = len (c_version c) /\
    opaque_len hdr (ptr_at m k) = len (c_opaque c) /\ lies m (k + 22) (c_version c) /\
    (c_opaque c <> [] -> lies m (k + 22 + len (c_version c) + 4) (c_opaque c)))
    as (EL & F0 & F2 & F4 & F8 & F10 & F12 & F16 & F20 & F21 & Fo & Pv & Po).
  { unfold L, comp_total, opaque_len. fold rev. unfold component_bytes in *. rewrite !len_app, !len_le_enc in *.
    change (Z.of_nat 1) with 1 in *. change (Z.of_nat 2) with 2 in *. change (Z.of_nat 4) with 4 in *. pieces Hl.
    assert (fld (ptr_at m k) 21 1 = len (c_version c)) as -> by (apply fld_lies; [found|lia|cbn; lia]).
    destruct (Z.leb_spec 3 rev).
    - rewrite !len_app, len_le_enc in *. change (Z.of_nat 4) with 4 in *. pieces Hl.
      assert (fld (ptr_at m k) (Z.to_nat (22 + len (c_version c))) 4 = len (c_opaque c)) as ->
        by (apply fld_lies; [rewrite Z2Nat.id by lia; found|lia|cbn; lia]).
      split_and!; try (apply fld_lies; [found|lia|cbn; lia]); try lia; try found. intros _. found.
    - rewrite Ho3 in * by lia. change (len (@nil Z)) with 0 in *.
      split_and!; try (apply fld_lies; [found|lia|cbn; lia]); try lia; try found. intros Hx. by destruct Hx. }
  unfold comp_stepped, comp_fits in Hstep. rewrite F0, F12, F16, F20, Ht, <- EL in Hstep.
  assert (22 <= L) by (rewrite EL; unfold comp_total; destruct (3 <=? _); lia).
  replace (22 <=? n) with true in Hstep by (unfold L in *; lia).
  replace (L <=? n) with true in Hstep by (unfold L; lia).
  replace ((13 <? c_classification c) && (c_classification c <? 32768)) with false in Hstep by lia.
  replace (c_location c + c_size c <=? mem_size m) with true in Hstep by lia. cbn [negb andb] in Hstep.
  destruct Hstep as (-> & -> & ->). split; [done|]. split; [lia|].
  split; [unfold field_at; by rewrite ptr_at_ptr_at by lia|].
  unfold view_component, comp_at, component_content.
  cbn [component_classification component_identifier component_comparison_stamp component_options
    requested_component_activation_method component_image component_version_string_type component_version_string
    component_opaque_data].
  rewrite F0, F2, F4, F8, F10, F12, F16, F20, F21, Fo. unfold field_at. rewrite !ptr_at_ptr_at by lia.
  repeat match goal with |- (_, _) = (_, _) => f_equal end.
  - by apply text_lies.
  - destruct (Z.eqb_spec (len (c_opaque c)) 0) as [E|E].
    + unfold text. cbn. unfold len in E. by destruct (c_opaque c).
    + replace (k + (22 + len (c_version c) + 4)) with (k + 22 + len (c_version c) + 4) by lia. apply text_lies, Po.
      intros E'. by rewrite E' in E.
Qed.
End downstreams.

(** ** The loops over records in their layout *)

Section foreach_list.
Context {R E X V : Type} (m : cmem).
Context (iter_end : pldm_package -> outcome bool)
        (decode : option pldm_package -> option R -> outcome (Z * option pldm_package * option R))
        (next : pldm_package -> outcome (bool * pldm_package))
        (body : pldm_package -> R -> outcome (Z * E)).
Context (enc : X -> list Z) (P : X -> Prop) (view : E -> V) (content : X -> V).
(** The parser is at [k], with [n] bytes and [e] entries to go. *)
Context (at_ : pldm_package -> Z -> Z -> Z -> Prop).

Definition reads (p : pldm_package) (r : R) (k n e : Z) (x : X) : Prop :=
  iter_end p = Ok false /\ 0 < len (enc x) /\ exists p' r' y b p'',
  decode (Some p) (Some r) = Ok (0, Some p', Some r') /\ body p' r' = Ok (0, y) /\ next p' = Ok (b, p'') /\
  view y = content x /\ at_ p'' (k + len (enc x)) (n - len (enc x)) (e - 1).

Lemma foreach_list xs fuel p r k n :
  (forall p k n, at_ p k n 0 -> iter_end p = Ok true) ->
  (forall x p r k n e, at_ p k n e -> 0 < e -> lies m k (enc x) -> P x -> len (enc x) <= n ->
     reads p r k n e x) ->
  at_ p k n (len xs) -> lies m k (concat (enc <$> xs)) -> Forall P xs ->
  len (concat (enc <$> xs)) <= n -> n < Z.of_nat fuel ->
  exists p' ys, foreach_from iter_end decode next body fuel p r = Ok (0, p', ys) /\
    view <$> ys = content <$> xs /\
    at_ p' (k + len (concat (enc <$> xs))) (n - len (concat (enc <$> xs))) 0.
Proof.
  intros Hend Hround Hat Hl HP. revert fuel p r k n Hat Hl.
  induction HP as [|x xs Hx HP IH]; intros fuel p r k n Hat Hl Hn Hf; (destruct fuel as [|fuel]; [unfold len in Hn; lia|]);
    cbn [fmap list_fmap concat foreach_from] in *.
  - rewrite (Hend _ _ _ Hat). cbn [mbind outcome_bind]. exists p, []. split; [done|]. split; [done|].
    change (len (@nil Z)) with 0. by rewrite Z.add_0_r, Z.sub_0_r.
  - pose proof (len_nonneg (enc x)). pose proof (len_nonneg (concat (enc <$> xs))). rewrite len_app in *.
    rewrite len_cons in Hat. pose proof (len_nonneg xs). apply lies_app in Hl as [Hlx Hl].
    destruct (Hround x p r k n _ Hat ltac:(lia) Hlx Hx ltac:(lia))
      as (-> & Hpos & p' & r' & y & b & p'' & -> & Ebody & Enext & Hv & Hat').
    cbn [mbind outcome_bind Z.eqb]. rewrite Ebody. cbn [mbind outcome_bind]. rewrite Enext.
    cbn [mbind outcome_bind Z.eqb].
    destruct (IH fuel p'' r' (k + len (enc x)) (n - len (enc x))) as (q & ys & -> & Hys & Hq); try lia; try done.
    { replace (1 + len xs - 1) with (len xs) in Hat' by lia. exact Hat'. }
    cbn [mbind outcome_bind]. do 2 eexists. split; [reflexivity|]. cbn [fmap list_fmap]. rewrite Hv, Hys.
    split; [done|]. replace (k + (len (enc x) + _)) with (k + len (enc x) + len (concat (enc <$> xs))) by lia.
    replace (n - (len (enc x) + _)) with (n - len (enc x) - len (concat (enc <$> xs))) by lia. exact Hq.
Qed.
End foreach_list.

Section loops.
Context (m : cmem) (pin : pldm_package_format_pin) (hdr : pldm__package_header_information).
Let rev := package_header_format_revision hdr.
Let bits := component_bitmap_bit_length hdr.
Let size := mem_size m.
Hypothesis Hm : mem_ok m.
Hypothesis Hbits : 0 <= bits < 65536.
Hypothesis H8 : bits mod 8 = 0.

Definition stage_at (s : pldm_package_parse) (p : pldm_package) (k n e : Z) : Prop :=
  at_stage m size pin hdr s p /\ iter_field p = field_at m k n /\ iter_entries p = e /\
  0 <= k /\ 0 <= n /\ k + n <= size.

Lemma size_range : 0 <= size <= mem_size m.
Proof. unfold size, mem_size. lia. Qed.

Lemma step_at s p k n e L :
  stage_at s p k n e -> 0 < e -> 0 <= L <= n ->
  stage_at s (set_iter (field_at m (k + L) (n - L)) (u64 (e - 1)) p) (k + L) (n - L) (e - 1).
Proof.
  intros (Hst & Hf & He & Hk & Hn & Hkn) He0 HL. pose proof (as_entries _ _ _ _ _ _ Hst).
  rewrite u64_pred by lia. split_and!; try done; try lia. apply step_stage; [done|lia..].
Qed.

Lemma devices_reads d p r k n e :
  stage_at PLDM_PACKAGE_PARSE_FIRMWARE_DEVICES p k n e -> 0 < e -> lies m k (device_bytes rev d) ->
  device_ok rev bits d -> len (device_bytes rev d) <= n ->
  reads pldm_package_firmware_device_id_record_iter_end decode_pldm_package_firmware_device_id_record_from_iter
    pldm_package_firmware_device_id_record_iter_next fd_body (device_bytes rev) view_device (fun d => d)
    (stage_at PLDM_PACKAGE_PARSE_FIRMWARE_DEVICES) p r k n e d.
Proof.
  intros Hat He Hl Hd Hn. pose proof Hat as (Hst & Hf & Hent & Hk & Hn0 & Hkn).
  pose proof Hst as [Hs _ Hh _ _ _].
  destruct (iter_at m size Hm size_range p k n Hf) as (Hf' & Hmk & Hnk); [done..|].
  destruct (fd_from_iter_ok hdr Hbits H8 p _ n r Hs Hh Hf' Hmk Hnk) as (rc & f & r' & E & Hstep).
  destruct (device_parse m hdr Hm k n d rc f r' Hl Hd Hn Hkn Hstep) as (-> & HL & -> & ds & Hbody & Hv).
  assert (0 < len (device_bytes rev d)).
  { unfold device_bytes, sized. rewrite len_app, len_le_enc. pose proof (len_nonneg (device_body rev d)). lia. }
  unfold reads. rewrite E. unfold pldm_package_firmware_device_id_record_iter_end,
    pldm_package_firmware_device_id_record_iter_next.
  rewrite Hs, bool_decide_true by done. cbn [c_assert mbind outcome_bind]. rewrite Hent.
  replace (e =? 0) with false by lia. split; [done|]. split; [done|]. do 5 eexists. split; [reflexivity|].
  split; [by apply Hbody|]. cbn [set_iter_field set_iter pkg_state iter_entries iter_field]. rewrite Hs, bool_decide_true by done.
  cbn [c_assert mbind outcome_bind]. rewrite Hent. replace (e =? 0) with false by lia.
  split; [reflexivity|]. split; [exact Hv|]. exact (step_at _ p k n e _ Hat He (conj HL Hn)).
Qed.

Lemma downstreams_reads d p r k n e :
  1 < rev -> stage_at PLDM_PACKAGE_PARSE_DOWNSTREAM_DEVICES p k n e -> 0 < e ->
  lies m k (downstream_bytes rev d) -> downstream_ok rev bits d -> len (downstream_bytes rev d) <= n ->
  reads pldm_package_downstream_device_id_record_iter_end
    decode_pldm_package_downstream_device_id_record_from_iter
    pldm_package_downstream_device_id_record_iter_next dd_body (downstream_bytes rev) view_downstream (fun d => d)
    (stage_at PLDM_PACKAGE_PARSE_DOWNSTREAM_DEVICES) p r k n e d.
Proof.
  intros Hrev Hat He Hl Hd Hn. pose proof Hat as (Hst & Hf & Hent & Hk & Hn0 & Hkn).
  pose proof Hst as [Hs _ Hh _ _ _].
  destruct (iter_at m size Hm size_range p k n Hf) as (Hf' & Hmk & Hnk); [done..|].
  destruct (dd_from_iter_ok hdr Hbits H8 p _ n r Hs Hh Hrev Hf' Hmk Hnk) as (rc & f & r' & E & Hstep).
  destruct (downstream_parse m hdr Hm k n d rc f r' Hl Hd Hn Hkn Hstep) as (-> & HL & -> & ds & Hbody & Hv).
  assert (0 < len (downstream_bytes rev d)).
  { unfold downstream_bytes, sized. rewrite len_app, len_le_enc. pose proof (len_nonneg (downstream_body rev d)). lia. }
  unfold reads. rewrite E. unfold pldm_package_downstream_device_id_record_iter_end,
    pldm_package_downstream_device_id_record_iter_next.
  rewrite Hs, bool_decide_true by done. cbn [c_assert mbind outcome_bind]. rewrite Hent.
  replace (e =? 0) with false by lia. split; [done|]. split; [done|]. do 5 eexists. split; [reflexivity|].
  split; [by apply Hbody|]. cbn [set_iter_field set_iter pkg_state iter_entries iter_field]. rewrite Hs, bool_decide_true by done.
  cbn [c_assert mbind outcome_bind]. rewrite Hent. replace (e =? 0) with false by lia.
  split; [reflexivity|]. split; [exact Hv|]. exact (step_at _ p k n e _ Hat He (conj HL Hn)).
Qed.

(** After the last component the parser is done. *)
Definition components_at (p : pldm_package) (k n e : Z) : Prop :=
  if e =? 0 then pkg_state p = PLDM_PACKAGE_PARSE_COMPLETE /\ iter_entries p = 0
  else stage_at PLDM_PACKAGE_PARSE_COMPONENT_IMAGE_INFORMATION p k n e.

Lemma components_reads c p r k n e :
  components_at p k n e -> 0 < e -> lies m k (component_bytes rev c) -> component_ok rev size c ->
  len (component_bytes rev c) <= n ->
  reads pldm_package_component_image_information_iter_end
    decode_pldm_package_component_image_information_from_iter
    pldm_package_component_image_information_iter_next comp_body (component_bytes rev) view_component
    (component_content (bytes m)) components_at p r k n e c.
Proof.
  intros Hat He Hl Hc Hn. unfold components_at in Hat. replace (e =? 0) with false in Hat by lia.
  pose proof Hat as (Hst & Hf & Hent & Hk & Hn0 & Hkn). pose proof Hst as [Hs _ Hh Hp _ Hmax].
  destruct (iter_at m size Hm size_range p k n Hf) as (Hf' & Hmk & Hnk); [done..|].
  destruct (comp_from_iter_ok hdr p _ n m size r Hs Hh Hf' Hmk Hnk Hp Hm size_range) as (rc & f & i & E & Hstep).
  destruct (component_parse m hdr k n c rc f i Hl Hc Hn Hkn Hstep) as (-> & HL & -> & Hv).
  unfold reads. rewrite E. unfold pldm_package_component_image_information_iter_end,
    pldm_package_component_image_information_iter_next.
  pose proof (step_at _ p k n e _ Hat He (conj (Z.lt_le_incl _ _ HL) Hn)) as Hnext.
  assert (u64 (e - 1) = e - 1) as Eu by (apply u64_pred; lia). rewrite Eu in Hnext.
  rewrite Hs. split; [done|]. split; [done|]. unfold components_at.
  assert (e - 1 = 0 \/ e - 1 <> 0) as [E0|E0] by lia.
  all: do 5 eexists; split; [reflexivity|]; split; [reflexivity|].
  all: cbn [set_iter_field set_iter pkg_state iter_entries iter_field]; rewrite Hs, bool_decide_false by done.
  all: rewrite bool_decide_true by done; cbn [c_assert mbind outcome_bind]; rewrite Hent, Eu.
  - replace (e - 1 =? 0) with true by lia. split; [reflexivity|]. split; [exact Hv|]. done.
  - replace (e - 1 =? 0) with false by lia. split; [reflexivity|]. split; [exact Hv|]. exact Hnext.
Qed.
End loops.

(** ** The whole package *)

Lemma slice_lies m k n l : lies m k l -> n = length l -> slice (Z.to_nat k) n (bytes m) = l.
Proof. intros [_ [post E]] ->. unfold slice. by rewrite E, take_app_length. Qed.

Lemma field_at_inj m k n k' n' : field_at m k n = field_at m k' n' -> k = k' /\ n = n'.
Proof. unfold field_at, ptr_at. intros [= E E' En]. split; [lia|done]. Qed.

Lemma identifier_len rev : 1 <= rev <= 4 ->
  exists id, identifier_of rev = Some id /\ len id = 16.
Proof.
  intros H. assert (rev = 1 \/ rev = 2 \/ rev = 3 \/ rev = 4) as [-> | [-> | [-> | ->]]] by lia;
    by eexists.
Qed.

Section whole.
Context (a : Z) (k : package).
Let m := CMem a (package_bytes k).
Let vlen := len (k_version k).
Let hsum := 36 + vlen + len (areas_bytes k).
Hypothesis Hk : package_ok k.
Hypothesis Hm : mem_ok m.

Lemma len_header_bytes : len (header_bytes k) = hsum.
Proof.
  destruct Hk as [Hrev [Hdate _] _ _ _ _ _ _ _ _]. destruct (identifier_len _ Hrev) as (id & E & Hid).
  unfold header_bytes. rewrite E. change (default [] (Some id)) with id. rewrite !len_app, !len_le_enc, Hid, Hdate.
  unfold hsum, vlen. lia.
Qed.

Lemma package_lies : lies m 0 (package_bytes k).
Proof. split; [unfold mem_size; lia|]. exists []. by rewrite app_nil_r. Qed.

Lemma package_parts :
  lies m 0 (header_bytes k) /\ lies m hsum (le_enc 4 (crc32_ref 0 (header_bytes k))) /\
  (4 <= k_revision k -> lies m (hsum + 4) (le_enc 4 (crc32_ref 0 (k_payload k)))) /\
  lies m (header_size k) (k_payload k) /\ mem_size m = header_size k + len (k_payload k).
Proof.
  pose proof package_lies as Hl. pose proof len_header_bytes as E.
  assert (mem_size m = len (package_bytes k)) as -> by done.
  unfold package_bytes in *. apply lies_app in Hl as [H1 Hl]. rewrite E in *. apply lies_app in Hl as [H2 Hl].
  rewrite !len_app, !len_le_enc in *. rewrite E. change (Z.of_nat 4) with 4 in *. unfold header_size, checksums.
  fold vlen. destruct (Z.leb_spec 4 (k_revision k)).
  - apply lies_app in Hl as [H3 Hl]. rewrite !len_le_enc in *. change (Z.of_nat 4) with 4 in *.
    split_and!; try done; [|unfold hsum; lia].
    replace (36 + vlen + len (areas_bytes k) + 4 * 2) with (0 + hsum + 4 + 4) by (unfold hsum; lia). exact Hl.
  - change (len (@nil Z)) with 0 in *. cbn [app] in Hl. by split_and!; try done; unfold hsum; lia.
Qed.

Lemma header_parts :
  (exists id, identifier_of (k_revision k) = Some id /\ slice 0 16 (bytes m) = id) /\
  fld m 16 1 = k_revision k /\ fld m 17 2 = header_size k /\ slice 19 13 (bytes m) = k_date k /\
  fld m 32 2 = k_bitmap_bits k /\ fld m 34 1 = k_string_type k /\ fld m 35 1 = vlen /\
  lies m 36 (k_version k) /\ lies m (36 + vlen) (areas_bytes k).
Proof.
  destruct package_parts as [Hl _]. destruct Hk as [Hrev [Hdate _] [Hbits _] Ht [Hv _] _ _ _ _ Hsz].
  destruct (identifier_len _ Hrev) as (id & E & Hid). unfold header_bytes in Hl. rewrite E in Hl. change (default [] (Some id)) with id in Hl.
  apply string_type_byte in Ht. pose proof (len_nonneg (k_version k)). pose proof (len_nonneg (areas_bytes k)).
  assert (0 <= header_size k) by (unfold header_size, checksums; destruct (4 <=? _); lia).
  do 8 (let P := fresh "P" in apply lies_app in Hl as [P Hl]; rewrite ?len_le_enc, ?Hid, ?Hdate in Hl).
  change (Z.of_nat 1) with 1 in *. change (Z.of_nat 2) with 2 in *. fold vlen in Hl |- *.
  split; [exists id; split; [done|]; apply (slice_lies m 0); [done|unfold len in Hid; lia]|].
  rewrite <- (ptr_at_0 m). assert (0 <= vlen < 256) by (unfold vlen; lia).
  split; [apply fld_lies; [done|lia|cbn; lia]|]. split; [apply fld_lies; [done|lia|cbn; lia]|].
  split; [rewrite ptr_at_0; apply (slice_lies m 19); [done|unfold len in Hdate; lia]|].
  split; [apply fld_lies; [done|lia|cbn; lia]|]. split; [apply fld_lies; [done|lia|cbn; lia]|].
  split; [apply fld_lies; [done|lia|cbn; lia]|]. rewrite ptr_at_0. split; [done|].
  exact Hl.
Qed.

Lemma sum_at_hsum : sum_at m = hsum.
Proof.
  destruct header_parts as (_ & E & E' & _). unfold sum_at. rewrite E, E'. unfold header_size, hsum, vlen. lia.
Qed.

Lemma areas_size : (if 2 <=? k_revision k then 4 else 3) <= len (areas_bytes k).
Proof.
  unfold areas_bytes. rewrite !len_app, !len_le_enc. change (Z.of_nat 1) with 1. change (Z.of_nat 2) with 2.
  pose proof (len_nonneg (concat (device_bytes (k_revision k) <$> k_devices k))).
  pose proof (len_nonneg (concat (component_bytes (k_revision k) <$> k_components k))).
  destruct (2 <=? k_revision k); rewrite ?len_app, ?len_le_enc; change (Z.of_nat 1) with 1; unfold len in *; cbn; lia.
Qed.

Lemma header_bytes_ok : bytes_ok (header_bytes k) /\ bytes_ok (k_payload k).
Proof.
  pose proof (mem_ok_bytes _ Hm) as Hb. cbn in Hb. unfold package_bytes in Hb.
  rewrite !list.Forall_app in Hb. tauto.
Qed.

Lemma package_header_fits pin : k_revision k <= pin -> header_fits m (mem_size m) pin = true.
Proof.
  intros Hpin. destruct header_parts as ((id & Eid & Es) & E16 & E17 & E19 & E32 & E34 & E35 & _).
  destruct package_parts as (_ & _ & _ & _ & Ems). pose proof areas_size as Ha. pose proof sum_at_hsum as Esum.
  destruct Hk as [Hrev _ [_ H8] Ht _ _ _ _ _ _]. unfold header_fits. rewrite E16, E17, E32, E34, E35, Es, Esum.
  rewrite bool_decide_true by done. rewrite Ht, H8, Ems. pose proof (len_nonneg (k_payload k)).
  pose proof (len_nonneg (k_version k)). unfold header_size, checksums, hsum, vlen in *.
  destruct (2 <=? _), (4 <=? k_revision k); lia.
Qed.

Lemma package_sums_match nvidia : sums_match m (mem_size m) nvidia = true.
Proof.
  destruct header_parts as (_ & E16 & E17 & _). destruct package_parts as (Hh & Hs & Hp & Hpay & Ems).
  destruct header_bytes_ok as [Hb1 Hb2]. pose proof (crc32_ref_range _ Hb1). pose proof (crc32_ref_range _ Hb2).
  pose proof sum_at_hsum as Esum. pose proof areas_size. pose proof (len_nonneg (k_version k)).
  assert (0 <= hsum) by (unfold hsum, vlen; destruct (2 <=? _); lia).
  unfold sums_match, sums_at. rewrite E16, E17, Esum, Ems.
  assert (take (Z.to_nat hsum) (bytes m) = header_bytes k) as ->.
  { change (take (Z.to_nat hsum) (bytes m)) with (slice (Z.to_nat 0) (Z.to_nat hsum) (bytes m)).
    apply slice_lies; [done|]. pose proof len_header_bytes as E. unfold len in E. lia. }
  assert (fld m (Z.to_nat hsum) 4 = crc32_ref 0 (header_bytes k)) as Ec.
  { rewrite <- (ptr_at_0 m). apply fld_lies; [by replace (0 + Z.of_nat (Z.to_nat hsum)) with hsum by lia|lia|cbn; lia]. }
  destruct (Z.leb_spec 4 (k_revision k)) as [Hr|Hr]; cbn [package_header_checksum package_payload_checksum]; rewrite Ec, Z.eqb_refl.
  - assert (fld m (Z.to_nat (hsum + 4)) 4 = crc32_ref 0 (k_payload k)) as ->.
    { rewrite <- (ptr_at_0 m). apply fld_lies; [|lia|cbn; lia].
      replace (0 + Z.of_nat (Z.to_nat (hsum + 4))) with (hsum + 4) by lia. by apply Hp. }
    rewrite (slice_lies m _ _ _ Hpay) by (unfold len; lia). rewrite Z.eqb_refl. by rewrite !orb_true_r.
  - replace (k_revision k <? 4) with true by lia. by rewrite orb_true_r.
Qed.
End whole.

(** ** The three loops on a package in its layout *)

Section counts.
Context (m : cmem) (pin : pldm_package_format_pin) (hdr : pldm__package_header_information).

(** The count in front of the records has been read. *)
Lemma counted_lies s p sz rc p' k n v :
  counted m (mem_size m) pin hdr s p sz rc p' -> iter_field p = field_at m k n -> 0 <= k -> Z.of_nat sz <= n ->
  lies m k (le_enc sz v) -> 0 <= v < 256 ^ Z.of_nat sz ->
  rc = 0 /\ stage_at m pin hdr s p' (k + Z.of_nat sz) (n - Z.of_nat sz) v.
Proof.
  intros (k' & n' & Hf & Hk' & Hkn & H) Hf' Hk Hn Hl Hv. rewrite Hf in Hf'. apply field_at_inj in Hf' as [-> ->].
  replace (Z.of_nat sz <=? n) with true in H by lia. destruct H as (-> & Hst & E & E'). split; [done|].
  split_and!; try done; try lia. rewrite E'. apply fld_lies; [by rewrite Z.add_0_r|done..].
Qed.

Lemma foreach_records {R E X V} iter_end decode next (body : pldm_package -> R -> outcome (Z * E)) init
    (enc : X -> list Z) (P : X -> Prop) (view : E -> V) content at_ fuel p p' r k n xs :
  init (Some p) = Ok (0, Some p') ->
  (forall p k n, at_ p k n 0 -> iter_end p = Ok true) ->
  (forall x p r k n e, at_ p k n e -> 0 < e -> lies m k (enc x) -> P x -> len (enc x) <= n ->
     reads iter_end decode next body enc view content at_ p r k n e x) ->
  at_ p' k n (len xs) -> lies m k (concat (enc <$> xs)) -> Forall P xs ->
  len (concat (enc <$> xs)) <= n -> n < Z.of_nat fuel ->
  exists q ys, foreach iter_end decode next body init fuel p r = Ok (0, q, ys) /\
    view <$> ys = content <$> xs /\ at_ q (k + len (concat (enc <$> xs))) (n - len (concat (enc <$> xs))) 0.
Proof.
  intros Hi Hend Hround Hat Hl HP Hn Hf. unfold foreach. rewrite Hi. cbn [mbind outcome_bind Z.eqb].
  by eapply foreach_list.
Qed.

Lemma no_more_devices p k n :
  stage_at m pin hdr PLDM_PACKAGE_PARSE_FIRMWARE_DEVICES p k n 0 ->
  pldm_package_firmware_device_id_record_iter_end p = Ok true.
Proof.
  intros ([Hs _ _ _ _ _] & _ & He & _). unfold pldm_package_firmware_device_id_record_iter_end.
  rewrite Hs, bool_decide_true, He by done. done.
Qed.

Lemma no_more_downstreams p k n :
  stage_at m pin hdr PLDM_PACKAGE_PARSE_DOWNSTREAM_DEVICES p k n 0 ->
  pldm_package_downstream_device_id_record_iter_end p = Ok true.
Proof.
  intros ([Hs _ _ _ _ _] & _ & He & _). unfold pldm_package_downstream_device_id_record_iter_end.
  rewrite Hs, bool_decide_true, He by done. done.
Qed.

Lemma no_more_components p k n :
  components_at m pin hdr p k n 0 -> pldm_package_component_image_information_iter_end p = Ok true.
Proof.
  intros [Hs He]. unfold pldm_package_component_image_information_iter_end. rewrite Hs, He, bool_decide_true by done. done.
Qed.
End counts.

Section run.
Context (m : cmem) (pin : pldm_package_format_pin) (hdr : pldm__package_header_information).
Let rev := package_header_format_revision hdr.
Let bits := component_bitmap_bit_length hdr.
Let fuel := S (S (Z.to_nat (mem_size m))).
Hypothesis Hm : mem_ok m.
Hypothesis Hbits : 0 <= bits < 65536.
Hypothesis H8 : bits mod 8 = 0.
Hypothesis Hpin : 1 <= pin_revision pin <= 4.
Hypothesis Hrev : 1 <= rev <= pin_revision pin.

Lemma loop_fuel k n : 0 <= k -> k + n <= mem_size m -> n < Z.of_nat fuel.
Proof. unfold fuel, mem_size. lia. Qed.

Lemma device_loop p k n ds :
  pkg_state p = PLDM_PACKAGE_PARSE_HEADER -> pkg_pin p = Some pin -> pkg_hdr p = Some hdr ->
  pkg_package p = VarField (Some m) (mem_size m) -> pkg_areas p = field_at m k n -> 0 <= iter_entries p <= SIZE_MAX ->
  lies m k (le_enc 1 (len ds) ++ concat (device_bytes rev <$> ds)) -> len ds < 256 -> Forall (device_ok rev bits) ds ->
  1 + len (concat (device_bytes rev <$> ds)) <= n -> k + n <= mem_size m ->
  exists q ys, foreach_pldm_package_firmware_device_id_record fuel p = Ok (0, q, ys) /\ view_device <$> ys = ds /\
    stage_at m pin hdr PLDM_PACKAGE_PARSE_FIRMWARE_DEVICES q (k + (1 + len (concat (device_bytes rev <$> ds))))
      (n - (1 + len (concat (device_bytes rev <$> ds)))) 0.
Proof.
  intros Hs Hp Hh Hpk Ha He Hl Hc Hds Hn Hkn. pose proof Hl as [[Hk _] _]. apply lies_app in Hl as [Hl1 Hl2].
  rewrite len_le_enc in Hl2. change (Z.of_nat 1) with 1 in *. pose proof (len_nonneg ds).
  pose proof (len_nonneg (concat (device_bytes rev <$> ds))).
  destruct (fd_init_ok m (mem_size m) pin hdr Hm ltac:(unfold mem_size; lia) Hpin Hrev p k n)
    as (rc & p' & E & Hcount); [done..|lia|done|done|].
  destruct (counted_lies _ _ _ _ _ _ _ _ k n (len ds) Hcount) as [-> Hat]; [exact Ha|done|cbn; lia|done|cbn; lia|].
  change (Z.of_nat 1) with 1 in *.
  destruct (foreach_records m pldm_package_firmware_device_id_record_iter_end
    decode_pldm_package_firmware_device_id_record_from_iter
    pldm_package_firmware_device_id_record_iter_next fd_body _ (device_bytes rev) (device_ok rev bits) view_device (fun d => d)
    (stage_at m pin hdr PLDM_PACKAGE_PARSE_FIRMWARE_DEVICES)
    fuel p p' (FdRec 0 0 0 vf0 vf0 vf0 vf0 vf0) (k + 1) (n - 1) ds E (no_more_devices m pin hdr))
    as (q & ys & E' & Hys & Hq); try done; [|lia|apply (loop_fuel (k + 1)); lia|].
  { intros. by apply devices_reads. }
  exists q, ys. split; [exact E'|]. rewrite Hys, list_fmap_id. split; [done|].
  by rewrite Z.add_assoc, Z.sub_add_distr.
Qed.

Lemma downstream_loop p k n ds :
  1 < rev -> stage_at m pin hdr PLDM_PACKAGE_PARSE_FIRMWARE_DEVICES p k n 0 ->
  lies m k (le_enc 1 (len ds) ++ concat (downstream_bytes rev <$> ds)) -> len ds < 256 ->
  Forall (downstream_ok rev bits) ds -> 1 + len (concat (downstream_bytes rev <$> ds)) <= n ->
  exists q ys, foreach_pldm_package_downstream_device_id_record fuel p = Ok (0, q, ys) /\ view_downstream <$> ys = ds /\
    stage_at m pin hdr PLDM_PACKAGE_PARSE_DOWNSTREAM_DEVICES q (k + (1 + len (concat (downstream_bytes rev <$> ds))))
      (n - (1 + len (concat (downstream_bytes rev <$> ds)))) 0.
Proof.
  intros H1 (Hst & Hf & _ & Hk & _ & Hkn) Hl Hc Hds Hn. apply lies_app in Hl as [Hl1 Hl2].
  rewrite len_le_enc in Hl2. change (Z.of_nat 1) with 1 in *. pose proof (len_nonneg ds).
  pose proof (len_nonneg (concat (downstream_bytes rev <$> ds))).
  destruct (dd_init_ok m (mem_size m) pin hdr Hm ltac:(unfold mem_size; lia) Hpin Hrev p Hst ltac:(lia))
    as (rc & p' & E & Hcount).
  fold rev in Hcount. replace (rev =? 1) with false in Hcount by lia.
  destruct (counted_lies _ _ _ _ _ _ _ _ k n (len ds) Hcount) as [-> Hat]; [exact Hf|done|cbn; lia|done|cbn; lia|].
  change (Z.of_nat 1) with 1 in *.
  destruct (foreach_records m pldm_package_downstream_device_id_record_iter_end
    decode_pldm_package_downstream_device_id_record_from_iter
    pldm_package_downstream_device_id_record_iter_next dd_body _ (downstream_bytes rev) (downstream_ok rev bits) view_downstream (fun d => d)
    (stage_at m pin hdr PLDM_PACKAGE_PARSE_DOWNSTREAM_DEVICES)
    fuel p p' (DdRec 0 0 0 vf0 0 vf0 vf0 vf0 vf0) (k + 1) (n - 1) ds E (no_more_downstreams m pin hdr))
    as (q & ys & E' & Hys & Hq); try done; [|lia|apply (loop_fuel (k + 1)); lia|].
  { intros. by apply downstreams_reads. }
  exists q, ys. split; [exact E'|]. rewrite Hys, list_fmap_id. split; [done|].
  by rewrite Z.add_assoc, Z.sub_add_distr.
Qed.

(** A count of zero components is not taken for the end of the area: the loop asks for
    one more component, which is not there. *)
Lemma component_loop p k n cs :
  (stage_at m pin hdr PLDM_PACKAGE_PARSE_FIRMWARE_DEVICES p k n 0 /\ pin_revision pin = 1) \/
  (stage_at m pin hdr PLDM_PACKAGE_PARSE_DOWNSTREAM_DEVICES p k n 0 /\ pin_revision pin <> 1) ->
  lies m k (le_enc 2 (len cs) ++ concat (component_bytes rev <$> cs)) -> len cs < 65536 ->
  Forall (component_ok rev (mem_size m)) cs -> n = 2 + len (concat (component_bytes rev <$> cs)) ->
  exists rc q ys, foreach_pldm_package_component_image_information fuel p = Ok (rc, q, ys) /\
    view_component <$> ys = component_content (bytes m) <$> cs /\
    if bool_decide (cs = []) then rc ∈ package_errors else rc = 0 /\ pkg_state q = PLDM_PACKAGE_PARSE_COMPLETE.
Proof.
  intros Hp Hl Hc Hcs Hn. assert (exists s, stage_at m pin hdr s p k n 0) as (s & Hst & Hf & _ & Hk & _ & Hkn)
    by (destruct Hp as [[? _]|[? _]]; eauto).
  apply lies_app in Hl as [Hl1 Hl2]. rewrite len_le_enc in Hl2. change (Z.of_nat 2) with 2 in *.
  pose proof (len_nonneg cs). pose proof (len_nonneg (concat (component_bytes rev <$> cs))).
  destruct (comp_init_ok m (mem_size m) pin hdr Hm ltac:(unfold mem_size; lia) Hpin Hrev p)
    as (rc & p' & E & Hcount); [destruct Hp as [[[? _] ?]|[[? _] ?]]; auto|].
  destruct (counted_lies _ _ _ _ _ _ _ _ k n (len cs) Hcount) as [-> Hat]; [exact Hf|done|cbn; lia|done|cbn; lia|].
  change (Z.of_nat 2) with 2 in *. unfold foreach_pldm_package_component_image_information.
  case_bool_decide as Ecs.
  - subst cs. change (n = 2 + 0) in Hn. subst n. unfold foreach. rewrite E. cbn [mbind outcome_bind Z.eqb].
    destruct Hat as (Hs' & Hf' & _). pose proof Hs' as [Hs _ Hh Hp' _ _]. unfold fuel. cbn [foreach_from].
    assert (pldm_package_component_image_information_iter_end p' = Ok false) as ->
      by (unfold pldm_package_component_image_information_iter_end; by rewrite Hs).
    cbn [mbind outcome_bind].
    destruct (comp_from_iter_ok hdr p' (ptr_at m (k + 2)) 0 m (mem_size m) (CompInfo 0 0 0 0 0 vf0 0 vf0 vf0))
      as (rc & f & i & E' & Hstep); try done.
    { apply mem_ok_ptr_at; [done|lia]. } { rewrite mem_size_ptr_at; lia. } { unfold mem_size; lia. }
    unfold comp_stepped in Hstep. cbn [Z.leb Z.compare andb] in Hstep.
    rewrite E'. cbn [mbind outcome_bind].
    assert (rc <> 0) by (by apply package_errors_neg in Hstep). destruct (Z.eqb_spec rc 0); [done|].
    by do 3 eexists.
  - destruct (foreach_records m pldm_package_component_image_information_iter_end
    decode_pldm_package_component_image_information_from_iter
    pldm_package_component_image_information_iter_next comp_body _ (component_bytes rev) (component_ok rev (mem_size m)) view_component
      (component_content (bytes m)) (components_at m pin hdr) fuel p p' (CompInfo 0 0 0 0 0 vf0 0 vf0 vf0) (k + 2) (n - 2) cs E
      (no_more_components m pin hdr)) as (q & ys & E' & Hys & Hq); try done; [| |lia|apply (loop_fuel (k + 2)); lia|].
    { intros. by apply components_reads. }
    { unfold components_at. replace (len cs =? 0) with false; [done|]. destruct cs; [done|]. rewrite len_cons.
      pose proof (len_nonneg cs). lia. }
    exists 0, q, ys. split; [exact E'|]. split; [done|]. split; [done|]. apply Hq.
Qed.
End run.

Section areas.
Context (m : cmem) (pin : pldm_package_format_pin) (hdr : pldm__package_header_information).
Let rev := package_header_format_revision hdr.
Let bits := component_bitmap_bit_length hdr.
Hypothesis Hm : mem_ok m.
Hypothesis Hbits : 0 <= bits < 65536.
Hypothesis H8 : bits mod 8 = 0.
Hypothesis Hpin : 1 <= pin_revision pin <= 4.
Hypothesis Hrev : 1 <= rev <= pin_revision pin.

(** The second of the three loops, which a pin of revision 1 leaves out and a package
    of revision 1 has nothing for. *)
Lemma second_loop p k n ds :
  stage_at m pin hdr PLDM_PACKAGE_PARSE_FIRMWARE_DEVICES p k n 0 ->
  let area := if 2 <=? rev then le_enc 1 (len ds) ++ concat (downstream_bytes rev <$> ds) else [] in
  lies m k area -> len ds < 256 -> Forall (downstream_ok rev bits) ds -> (rev = 1 -> ds = []) -> len area <= n ->
  exists q ys,
    (if pin_revision pin =? 1 then mret (0, p, [])
     else foreach_pldm_package_downstream_device_id_record (S (S (Z.to_nat (mem_size m)))) p) = Ok (0, q, ys) /\
    view_downstream <$> ys = ds /\
    ((stage_at m pin hdr PLDM_PACKAGE_PARSE_FIRMWARE_DEVICES q (k + len area) (n - len area) 0 /\ pin_revision pin = 1) \/
     (stage_at m pin hdr PLDM_PACKAGE_PARSE_DOWNSTREAM_DEVICES q (k + len area) (n - len area) 0 /\ pin_revision pin <> 1)).
Proof.
  intros Hst area Hl Hc Hds Hno Hn. unfold area in *. clear area. destruct (Z.leb_spec 2 rev) as [H2|H2].
  - replace (pin_revision pin =? 1) with false by lia. rewrite len_app, len_le_enc in Hn |- *.
    change (Z.of_nat 1) with 1 in *.
    destruct (downstream_loop m pin hdr Hm Hbits H8 Hpin Hrev p k n ds) as (q & ys & -> & Hys & Hq); try done; [fold rev; lia|].
    exists q, ys. split; [done|]. split; [done|]. right. split; [exact Hq|lia].
  - rewrite Hno by lia. change (len (@nil Z)) with 0. rewrite Z.add_0_r, Z.sub_0_r.
    destruct (Z.eqb_spec (pin_revision pin) 1); [exists p, []; auto|].
    destruct Hst as (Hst & Hf & He & Hrest).
    destruct (dd_init_ok m (mem_size m) pin hdr Hm ltac:(unfold mem_size; lia) Hpin Hrev p Hst ltac:(lia))
      as (rc & p' & E & H'). fold rev in H'. replace (rev =? 1) with true in H' by lia. destruct H' as [-> ->].
    unfold foreach_pldm_package_downstream_device_id_record, foreach. rewrite E. cbn [mbind outcome_bind Z.eqb foreach_from].
    do 2 eexists. split; [reflexivity|]. split; [done|]. right. split; [|done].
    split; [|done]. destruct Hst as [_ ? ? ? ? ?]. by constructor; try done.
Qed.
(** The three loops over the areas of the package. *)
Lemma areas_loops p at_ k :
  package_ok k -> rev = k_revision k -> bits = k_bitmap_bits k -> len (package_bytes k) = mem_size m ->
  pkg_state p = PLDM_PACKAGE_PARSE_HEADER -> pkg_pin p = Some pin -> pkg_hdr p = Some hdr ->
  pkg_package p = VarField (Some m) (mem_size m) -> pkg_areas p = field_at m at_ (len (areas_bytes k)) ->
  0 <= iter_entries p <= SIZE_MAX -> lies m at_ (areas_bytes k) -> at_ + len (areas_bytes k) <= mem_size m ->
  exists p1 fds p2 dds rc p3 cs,
    foreach_pldm_package_firmware_device_id_record (S (S (Z.to_nat (mem_size m)))) p = Ok (0, p1, fds) /\
    (if pin_revision pin =? 1 then mret (0, p1, [])
     else foreach_pldm_package_downstream_device_id_record (S (S (Z.to_nat (mem_size m)))) p1) = Ok (0, p2, dds) /\
    foreach_pldm_package_component_image_information (S (S (Z.to_nat (mem_size m)))) p2 = Ok (rc, p3, cs) /\
    view_device <$> fds = k_devices k /\ view_downstream <$> dds = k_downstream k /\
    view_component <$> cs = component_content (bytes m) <$> k_components k /\
    if bool_decide (k_components k = []) then rc ∈ package_errors
    else rc = 0 /\ pkg_state p3 = PLDM_PACKAGE_PARSE_COMPLETE.
Proof.
  intros [_ _ _ _ _ [Hd Hds] (Hdd & Hdds & Hnone) [Hc Hcs] _ _] Er Eb Es Hs Hp Hh Hpk Ea Hi Hl Hin.
  unfold areas_bytes in *. rewrite <- Er, <- ?Eb, ?Es in *.
  set (areas := le_enc 1 (len (k_devices k)) ++ _) in *.
  set (area2 := if 2 <=? rev then _ else _) in *.
  assert (len areas = 1 + len (concat (device_bytes rev <$> k_devices k)) + len area2 +
    (2 + len (concat (component_bytes rev <$> k_components k)))) as Elen.
  { unfold areas. rewrite !len_app, !len_le_enc. lia. }
  unfold areas in Hl. rewrite app_assoc in Hl. apply lies_app in Hl as [Pd Hl]. apply lies_app in Hl as [Ps Pc].
  rewrite len_app, len_le_enc in Ps, Pc. change (Z.of_nat 1) with 1 in *.
  pose proof (len_nonneg area2). pose proof (len_nonneg (concat (device_bytes rev <$> k_devices k))).
  pose proof (len_nonneg (concat (component_bytes rev <$> k_components k))).
  destruct (device_loop m pin hdr Hm Hbits H8 Hpin Hrev p at_ (len areas) (k_devices k))
    as (p1 & fds & E1 & V1 & S1); [done..|fold rev; lia|lia|].
  destruct (second_loop p1 _ _ (k_downstream k) S1)
    as (p2 & dds & E2 & V2 & S2); [exact Ps|done|done|exact Hnone|fold rev area2; lia|].
  destruct (component_loop m pin hdr Hm Hpin Hrev p2 _ _ (k_components k) S2)
    as (rc & p3 & cs & E3 & V3 & Hend); [exact Pc|done|done|fold rev area2; lia|].
  by exists p1, fds, p2, dds, rc, p3, cs.
Qed.
End areas.

(** What the header says. *)
Definition view_header (h : pldm__package_header_information) : list Z * Z * list Z * Z * Z * list Z :=
  (package_header_identifier h, package_header_format_revision h, package_release_date_time h,
   component_bitmap_bit_length h, package_version_string_type h, text (package_version_string h)).

Definition header_content (k : package) : list Z * Z * list Z * Z * Z * list Z :=
  (default [] (identifier_of (k_revision k)), k_revision k, k_date k, k_bitmap_bits k, k_string_type k, k_version k).

Section header_views.
Context (a : Z) (k : package).
Let m := CMem a (package_bytes k).
Hypothesis Hk : package_ok k.
Hypothesis Hm : mem_ok m.

Lemma package_header_view :
  view_header (header_at m) = header_content k /\
  package_header_format_revision (header_at m) = k_revision k /\
  component_bitmap_bit_length (header_at m) = k_bitmap_bits k.
Proof.
  destruct (header_parts a k Hk Hm) as ((id & Eid & Es) & E16 & _ & E19 & E32 & E34 & E35 & Pv & _). split; [|done].
  unfold view_header, header_content, header_at. cbn [package_header_identifier package_header_format_revision
    package_release_date_time component_bitmap_bit_length package_version_string_type package_version_string].
  unfold m. rewrite Eid, Es, E16, E19, E32, E34, E35. do 5 f_equal. by apply text_lies.
Qed.

Lemma package_areas :
  areas_at m = field_at m (36 + len (k_version k)) (len (areas_bytes k)) /\
  lies m (36 + len (k_version k)) (areas_bytes k) /\
  36 + len (k_version k) + len (areas_bytes k) <= mem_size m.
Proof.
  destruct (header_parts a k Hk Hm) as (_ & _ & _ & _ & _ & _ & E35 & _ & Pa).
  destruct (package_parts a k Hk Hm) as (_ & _ & _ & _ & Ems). pose proof (len_nonneg (k_payload k)).
  split_and!; [|done|unfold m; rewrite Ems; unfold header_size, checksums; destruct (4 <=? _); lia].
  unfold areas_at, m. rewrite E35, (sum_at_hsum a k Hk Hm). f_equal. lia.
Qed.
End header_views.

(** C13: a package parses to its contents.  The bytes of a package with well-formed
    contents of a revision no newer than the pin's are accepted, checksums included,
    and the header, the device records with their descriptors, the downstream device
    records and the component images that the three loops hand out are the package's,
    in order, each field pointing at the bytes the layout puts there.  A package with
    no component image is refused all the same, after its device records: the last
    loop does not see that there is none. *)
Theorem package_roundtrip nvidia a k revision hdr :
  package_ok k -> mem_ok (CMem a (package_bytes k)) -> k_revision k <= revision <= 4 ->
  length (package_header_identifier hdr) = 16%nat -> length (package_release_date_time hdr) = 13%nat ->
  let m := CMem a (package_bytes k) in
  exists rc r p,
    parse_package nvidia m (mem_size m) revision hdr = Ok (rc, r, p) /\
    view_header (p_header r) = header_content k /\ view_device <$> p_devices r = k_devices k /\
    view_downstream <$> p_downstream r = k_downstream k /\
    view_component <$> p_components r = component_content (package_bytes k) <$> k_components k /\
    if bool_decide (k_components k = []) then rc ∈ package_errors
    else rc = 0 /\ pkg_state p = PLDM_PACKAGE_PARSE_COMPLETE.
Proof.
  intros Hk Hm Hr Hid Hdate m. pose proof Hk as [Hrev _ [Hbits H8] _ _ _ _ _ _ _].
  destruct (pin_ok revision ltac:(lia)) as [Hpin Hpr]. unfold parse_package, decode_pldm_firmware_update_package.
  cbn [Z.eqb negb]. set (pin := DEFINE_PLDM_PACKAGE_FORMAT_PIN revision) in *.
  destruct (decode_header_ok m (mem_size m) Hm ltac:(unfold mem_size; lia) nvidia pin hdr pkg_zero eq_refl Hpin
    ltac:(lia) Hid Hdate) as (rc & h & p & -> & Hh).
  pose proof (package_header_fits a k Hk Hm (pin_revision pin) ltac:(lia)) as Efit.
  pose proof (package_sums_match a k Hk Hm nvidia) as Esums. fold m in Efit, Esums. rewrite Efit, Esums in Hh.
  destruct Hh as (-> & -> & ->). cbn [mret outcome_ret mbind outcome_bind Z.eqb].
  destruct (package_header_view a k Hk Hm) as (Eh & Er & Eb). destruct (package_areas a k Hk Hm) as (Ea & La & Hin).
  fold m in Eh, Er, Eb, Ea, La, Hin.
  match goal with |- context [foreach_pldm_package_firmware_device_id_record _ ?x] =>
    destruct (areas_loops m pin (header_at m) Hm ltac:(lia) ltac:(rewrite Eb; lia) ltac:(lia) ltac:(lia) x
      (36 + len (k_version k)) k) as (p1 & fds & p2 & dds & rc & p3 & cs & E1 & E2 & E3 & V1 & V2 & V3 & Hend) end;
    try done; [].
  rewrite E1. cbn [mbind outcome_bind Z.eqb]. rewrite <- Hpr, E2. cbn [mbind outcome_bind Z.eqb].
  rewrite E3. cbn [mbind outcome_bind mret outcome_ret]. by do 3 eexists.
Qed.

Lemma package_sample_ok : package_ok package_sample.
Proof.
  constructor; repeat first [ split | apply list.Forall_cons | apply list.Forall_nil_2 | done
    | by vm_compute | intros; lia | progress unfold u16_ok, u32_ok ].
  all: vm_compute; intuition congruence.
Qed.

Lemma package_roundtrip_witness :
  exists rc r p,
    parse_package false sample_mem (mem_size sample_mem) 4 header_unset = Ok (rc, r, p) /\
    view_header (p_header r) = header_content package_sample /\
    view_device <$> p_devices r = k_devices package_sample /\
    view_downstream <$> p_downstream r = k_downstream package_sample /\
    view_component <$> p_components r
    = component_content (package_bytes package_sample) <$> k_components package_sample /\
    rc = 0 /\ pkg_state p = PLDM_PACKAGE_PARSE_COMPLETE.
Proof.
  exact (package_roundtrip false 64 package_sample 4 header_unset package_sample_ok sample_mem_ok
    (conj (Z.le_refl 4) (Z.le_refl 4)) eq_refl eq_refl).
Defined.
