(* ===== verification/BiosTable.v ===== *)
(** * BIOS tables (src/dsp/bios_table.c)

    The string table, the attribute table and the attribute value table of DSP0247:
    one encoder and a set of field decoders per kind of entry, the iterator over a
    table with the searches built on it, the padding and the checksum at a table's end,
    and the copy of a value table with an entry replaced.

    Entries and tables are memory objects; a pointer to an entry of a table is an
    interior pointer, so that reading past the table's end is a fault.  The functions
    that give out handles count in static variables, which are the state of their
    computations. *)

From S2P Require Import Prelude Msgbuf Layout Edac Base.

(** ** Constants and structures of libpldm/bios.h *)

Abbreviation PLDM_BIOS_ENUMERATION := 0x0 (only parsing).
Abbreviation PLDM_BIOS_STRING := 0x1 (only parsing).
Abbreviation PLDM_BIOS_INTEGER := 0x3 (only parsing).
Abbreviation PLDM_BIOS_ENUMERATION_READ_ONLY := 0x80 (only parsing).
Abbreviation PLDM_BIOS_STRING_READ_ONLY := 0x81 (only parsing).
Abbreviation PLDM_BIOS_INTEGER_READ_ONLY := 0x83 (only parsing).

Inductive pldm_bios_table_types :=
  | PLDM_BIOS_STRING_TABLE
  | PLDM_BIOS_ATTR_TABLE
  | PLDM_BIOS_ATTR_VAL_TABLE.

(** Sizes and offsets of the packed structures: struct pldm_bios_string_table_entry,
    struct pldm_bios_attr_table_entry, struct pldm_bios_attr_val_table_entry. *)
Abbreviation SIZEOF_string_entry := 5 (only parsing).
Abbreviation OFFSET_name := 4 (only parsing).
Abbreviation SIZEOF_attr_entry := 6 (only parsing).
Abbreviation OFFSET_metadata := 5 (only parsing).
Abbreviation SIZEOF_val_entry := 4 (only parsing).
Abbreviation OFFSET_value := 3 (only parsing).

(** The [n] first elements of a C array that has these. *)
Definition array_read (l : list Z) (n : Z) : outcome (list Z) :=
  if n <=? len l then Ok (take (Z.to_nat n) l) else Fault FMemory.

(** strlen: the bytes before the first zero, which has to be in the object. *)
Fixpoint strlen_from (l : list Z) : outcome Z :=
  match l with
  | [] => Fault FMemory
  | b :: l => if b =? 0 then Ok 0 else n ← strlen_from l; mret (1 + n)
  end.

Definition strlen (s : cmem) : outcome Z := strlen_from (bytes s).

(** What the static length functions make of a length: -1 when it does not fit. *)
Definition as_ssize (len : Z) : Z := if SSIZE_MAX <? len then -1 else len.

(** The macro: [type] is [expected], read-only or not. *)
Definition ATTR_TYPE_EXPECT (type expected : Z) : bool := (type =? expected) || (type =? Z.lor expected 0x80).

(** ** String entries *)

(** get_bios_string_handle and get_bios_attr_handle, over their static counters. *)
Definition get_bios_handle : stM Z (Z * Z) := fun handle =>
  if handle =? UINT16_MAX then Fault FAssert else Ok ((PLDM_SUCCESS, handle), handle + 1).

Definition pldm_bios_table_string_entry_encode_length (string_length : Z) : Z :=
  SIZEOF_string_entry - 1 + string_length.

Definition pldm_bios_table_string_entry_encode (entry : option cmem) (entry_length : Z)
    (str : option cmem) (str_length : Z) : stM Z (Z * option cmem) :=
  if str_length =? 0 then mret (PLDM_ERROR_INVALID_DATA, entry)
  else
    match entry, str with
    | Some e, Some s =>
        let length := pldm_bios_table_string_entry_encode_length str_length in
        if entry_length <? length then mret (PLDM_ERROR_INVALID_LENGTH, entry)
        else if u64 (entry_length - (SIZEOF_string_entry - 1)) <? str_length then
          mret (PLDM_ERROR_INVALID_LENGTH, entry)
        else
          '(rc, handle) ← get_bios_handle;
          if_err rc return_ mret (rc, entry);;
          e ← lift (mem_write e 0 (le_enc 2 handle));
          e ← lift (mem_write e 2 (le_enc 2 str_length));
          name ← lift (mem_read s 0 str_length);
          e ← lift (mem_write e OFFSET_name name);
          mret (PLDM_SUCCESS, Some e)
    | _, _ => mret (PLDM_ERROR_INVALID_DATA, entry)
    end.

Definition pldm_bios_table_string_entry_decode_handle (entry : cmem) : outcome Z := mem_le entry 0 2.

Definition pldm_bios_table_string_entry_decode_string_length (entry : cmem) : outcome Z := mem_le entry 2 2.

Definition pldm_bios_table_string_entry_decode_string (entry buffer : option cmem) (size : Z)
  : outcome (Z * option cmem) :=
  match entry, buffer with
  | Some e, Some b =>
      if size =? 0 then mret (PLDM_ERROR_INVALID_LENGTH, buffer)
      else
        length ← pldm_bios_table_string_entry_decode_string_length e;
        let length := if length <? size - 1 then length else size - 1 in
        name ← mem_read e OFFSET_name length;
        b ← mem_write b 0 name;
        b ← mem_write b length [0];
        mret (PLDM_SUCCESS, Some b)
  | _, _ => mret (PLDM_ERROR_INVALID_DATA, buffer)
  end.

Definition string_table_entry_length (table_entry : cmem) : outcome Z :=
  n ← pldm_bios_table_string_entry_decode_string_length table_entry;
  mret (as_ssize (SIZEOF_string_entry - 1 + n)).

(** ** Attribute entries *)

Definition attr_table_entry_encode_header (entry : cmem) (length attr_type string_handle : Z)
  : stM Z (Z * cmem) :=
  if length <? SIZEOF_attr_entry then mret (PLDM_ERROR_INVALID_LENGTH, entry)
  else
    '(rc, handle) ← get_bios_handle;
    if_err rc return_ mret (rc, entry);;
    entry ← lift (mem_write entry 0 (le_enc 2 handle));
    entry ← lift (mem_write entry 2 [attr_type]);
    entry ← lift (mem_write entry 3 (le_enc 2 string_handle));
    mret (PLDM_SUCCESS, entry).

Definition pldm_bios_table_attr_entry_decode_attribute_handle (entry : cmem) : outcome Z := mem_le entry 0 2.
Definition pldm_bios_table_attr_entry_decode_attribute_type (entry : cmem) : outcome Z := mem_le entry 2 1.
Definition pldm_bios_table_attr_entry_decode_string_handle (entry : cmem) : outcome Z := mem_le entry 3 2.

(** *** Enumerations *)

Record pldm_bios_table_attr_entry_enum_info := EnumInfo {
  ei_name_handle : Z; ei_read_only : bool; pv_num : Z; pv_handle : list Z; def_num : Z; def_index : list Z
}.

Definition pldm_bios_table_attr_entry_enum_encode_length (pv_num def_num : Z) : Z :=
  SIZEOF_attr_entry - 1 + 1 + pv_num * 2 + 1 + def_num.

(** The loop over [pv_hdls]. *)
Fixpoint put_handles (handles : list Z) (n : nat) (off : Z) (entry : cmem) : outcome cmem :=
  match n with
  | O => Ok entry
  | S n =>
      match handles with
      | [] => Fault FMemory
      | h :: handles => entry ← mem_write entry off (le_enc 2 h); put_handles handles n (off + 2) entry
      end
  end.

Definition pldm_bios_table_attr_entry_enum_encode (entry : option cmem) (entry_length : Z)
    (info : option pldm_bios_table_attr_entry_enum_info) : stM Z (Z * option cmem) :=
  match entry, info with
  | Some e, Some info =>
      let length := pldm_bios_table_attr_entry_enum_encode_length (pv_num info) (def_num info) in
      if entry_length <? length then mret (PLDM_ERROR_INVALID_LENGTH, entry)
      else
        let attr_type := if ei_read_only info then PLDM_BIOS_ENUMERATION_READ_ONLY else PLDM_BIOS_ENUMERATION in
        '(rc, e) ← attr_table_entry_encode_header e entry_length attr_type (ei_name_handle info);
        if_err rc return_ mret (rc, Some e);;
        e ← lift (mem_write e OFFSET_metadata [pv_num info]);
        e ← lift (put_handles (pv_handle info) (Z.to_nat (pv_num info)) (OFFSET_metadata + 1) e);
        e ← lift (mem_write e (OFFSET_metadata + (1 + pv_num info * 2)) [def_num info]);
        defs ← lift (array_read (def_index info) (def_num info));
        e ← lift (mem_write e (OFFSET_metadata + (1 + pv_num info * 2 + 1)) defs);
        mret (PLDM_SUCCESS, Some e)
  | _, _ => mret (PLDM_ERROR_INVALID_DATA, entry)
  end.

Definition pldm_bios_table_attr_entry_enum_decode_pv_num (entry : option cmem) (pv_num : option Z)
  : outcome (Z * option Z) :=
  match entry, pv_num with
  | Some e, Some _ =>
      t ← mem_le e 2 1;
      if ATTR_TYPE_EXPECT t PLDM_BIOS_ENUMERATION then
        n ← mem_le e OFFSET_metadata 1; mret (PLDM_SUCCESS, Some n)
      else mret (PLDM_ERROR_INVALID_DATA, pv_num)
  | _, _ => mret (PLDM_ERROR_INVALID_DATA, pv_num)
  end.

Definition pldm_bios_table_attr_entry_enum_decode_def_num (entry : option cmem) (def_num : option Z)
  : outcome (Z * option Z) :=
  match entry, def_num with
  | Some e, Some _ =>
      t ← mem_le e 2 1;
      if ATTR_TYPE_EXPECT t PLDM_BIOS_ENUMERATION then
        pv_num ← mem_le e OFFSET_metadata 1;
        n ← mem_le e (OFFSET_metadata + (1 + 2 * pv_num)) 1; mret (PLDM_SUCCESS, Some n)
      else mret (PLDM_ERROR_INVALID_DATA, def_num)
  | _, _ => mret (PLDM_ERROR_INVALID_DATA, def_num)
  end.

(** Handles [i] to [i + n - 1]. *)
Fixpoint get_handles (e : cmem) (off : Z) (n : nat) : outcome (list Z) :=
  match n with
  | O => Ok []
  | S n => h ← mem_le e off 2; hs ← get_handles e (off + 2) n; mret (h :: hs)
  end.

(** The array [pv_hdls] has at least [pv_num] elements; the first ones are replaced. *)
Definition pldm_bios_table_attr_entry_enum_decode_pv_hdls (entry : option cmem) (pv_hdls : option (list Z))
    (pv_num : Z) : outcome (Z * option (list Z)) :=
  match entry, pv_hdls with
  | Some e, Some hdls =>
      t ← mem_le e 2 1;
      if ATTR_TYPE_EXPECT t PLDM_BIOS_ENUMERATION then
        num ← mem_le e OFFSET_metadata 1;
        let num := if num <? pv_num then num else pv_num in
        hs ← get_handles e (OFFSET_metadata + 1) (Z.to_nat num);
        if num <=? len hdls then mret (PLDM_SUCCESS, Some (hs ++ drop (Z.to_nat num) hdls)) else Fault FMemory
      else mret (PLDM_ERROR_INVALID_DATA, pv_hdls)
  | _, _ => mret (PLDM_ERROR_INVALID_DATA, pv_hdls)
  end.

Definition pldm_bios_table_attr_entry_enum_decode_def_indices (entry def_indices : cmem) (def_num : Z)
  : outcome (Z * cmem) :=
  '(_, num) ← pldm_bios_table_attr_entry_enum_decode_def_num (Some entry) (Some 0);
  let num := default 0 num in
  let num := if num <? def_num then num else def_num in
  pv_num ← mem_le entry OFFSET_metadata 1;
  p ← mem_read entry (OFFSET_metadata + (1 + pv_num * 2 + 1)) num;
  def_indices ← mem_write def_indices 0 p;
  mret (num, def_indices).

Definition attr_table_entry_length_enum (entry : cmem) : outcome Z :=
  pv_num ← mem_le entry OFFSET_metadata 1;
  '(_, def_num) ← pldm_bios_table_attr_entry_enum_decode_def_num (Some entry) (Some 0);
  mret (as_ssize (pldm_bios_table_attr_entry_enum_encode_length pv_num (default 0 def_num))).

(** *** Strings *)

Record pldm_bios_table_attr_entry_string_info := StringInfo {
  si_name_handle : Z; si_read_only : bool; string_type : Z; min_length : Z; max_length : Z; def_length : Z;
  def_string : option cmem
}.

(** struct attr_table_string_entry_fields: string_type at 0, min_length at 1, max_length
    at 3, def_length at 5, def_string at 7. *)
Definition pldm_bios_table_attr_entry_string_encode_length (def_str_len : Z) : Z :=
  SIZEOF_attr_entry - 1 + 8 - 1 + def_str_len.

Abbreviation PLDM_STRING_TYPE_MAX := 5 (only parsing).
Abbreviation PLDM_STRING_TYPE_VENDOR := 0xff (only parsing).

(** The code and the message; the messages are those of the source. *)
Inductive errmsg :=
  | MinimumStringLength_greater | Wrong_DefaultStringLength | Wrong_StringType | DefaultString_length
  | Wrong_DefaultValue | Wrong_ScalarIncrement | LowerBound_greater | ScalarIncrement_zero
  | Wrong_DefaultValue_or_ScalarIncrement.

Definition pldm_bios_table_attr_entry_string_info_check (info : pldm_bios_table_attr_entry_string_info)
  : outcome (Z * option errmsg) :=
  if max_length info <? min_length info then
    mret (PLDM_ERROR_INVALID_DATA, Some MinimumStringLength_greater)
  else if (min_length info =? max_length info) && negb (def_length info =? min_length info) then
    mret (PLDM_ERROR_INVALID_DATA, Some Wrong_DefaultStringLength)
  else if (max_length info <? def_length info) || (def_length info <? min_length info) then
    mret (PLDM_ERROR_INVALID_DATA, Some Wrong_DefaultStringLength)
  else if (PLDM_STRING_TYPE_MAX <? string_type info) && negb (string_type info =? PLDM_STRING_TYPE_VENDOR) then
    mret (PLDM_ERROR_INVALID_DATA, Some Wrong_StringType)
  else
    match def_string info with
    | None => mret (PLDM_SUCCESS, None)
    | Some s =>
        n ← strlen s;
        if negb (def_length info =? n) then mret (PLDM_ERROR_INVALID_DATA, Some DefaultString_length)
        else mret (PLDM_SUCCESS, None)
    end.

Definition pldm_bios_table_attr_entry_string_encode (entry : option cmem) (entry_length : Z)
    (info : option pldm_bios_table_attr_entry_string_info) : stM Z (Z * option cmem) :=
  match entry, info with
  | Some e, Some info =>
      let length := pldm_bios_table_attr_entry_string_encode_length (def_length info) in
      if entry_length <? length then mret (PLDM_ERROR_INVALID_LENGTH, entry)
      else
        '(rc, _) ← lift (pldm_bios_table_attr_entry_string_info_check info);
        if_err rc return_ mret (PLDM_ERROR_INVALID_DATA, entry);;
        let attr_type := if si_read_only info then PLDM_BIOS_STRING_READ_ONLY else PLDM_BIOS_STRING in
        '(rc, e) ← attr_table_entry_encode_header e entry_length attr_type (si_name_handle info);
        if_err rc return_ mret (rc, Some e);;
        e ← lift (mem_write e OFFSET_metadata [string_type info]);
        e ← lift (mem_write e (OFFSET_metadata + 1) (le_enc 2 (min_length info)));
        e ← lift (mem_write e (OFFSET_metadata + 3) (le_enc 2 (max_length info)));
        e ← lift (mem_write e (OFFSET_metadata + 5) (le_enc 2 (def_length info)));
        match def_string info with
        | Some s =>
            if def_length info =? 0 then mret (PLDM_SUCCESS, Some e)
            else
              text ← lift (mem_read s 0 (def_length info));
              e ← lift (mem_write e (OFFSET_metadata + 7) text);
              mret (PLDM_SUCCESS, Some e)
        | None => mret (PLDM_SUCCESS, Some e)
        end
  | _, _ => mret (PLDM_ERROR_INVALID_DATA, entry)
  end.

Definition pldm_bios_table_attr_entry_string_decode_def_string_length (entry : option cmem)
    (def_string_length : option Z) : outcome (Z * option Z) :=
  match entry, def_string_length with
  | Some e, Some _ =>
      t ← mem_le e 2 1;
      if ATTR_TYPE_EXPECT t PLDM_BIOS_STRING then
        n ← mem_le e (OFFSET_metadata + 5) 2; mret (PLDM_SUCCESS, Some n)
      else mret (PLDM_ERROR_INVALID_DATA, def_string_length)
  | _, _ => mret (PLDM_ERROR_INVALID_DATA, def_string_length)
  end.

Definition pldm_bios_table_attr_entry_string_decode_string_type (entry : cmem) : outcome Z :=
  mem_le entry OFFSET_metadata 1.
Definition pldm_bios_table_attr_entry_string_decode_max_length (entry : cmem) : outcome Z :=
  mem_le entry (OFFSET_metadata + 3) 2.
Definition pldm_bios_table_attr_entry_string_decode_min_length (entry : cmem) : outcome Z :=
  mem_le entry (OFFSET_metadata + 1) 2.

(** The length is a uint16_t, also after the comparison with the buffer's size. *)
Definition pldm_bios_table_attr_entry_string_decode_def_string (entry buffer : option cmem) (size : Z)
  : outcome (Z * option cmem) :=
  match entry, buffer with
  | Some e, Some b =>
      if size =? 0 then mret (0, buffer)
      else
        '(rc, length) ← pldm_bios_table_attr_entry_string_decode_def_string_length entry (Some 0);
        if_err rc return_ mret (0, buffer);;
        let length := default 0 length in
        let length := u16 (if length <? size - 1 then length else size - 1) in
        text ← mem_read e (OFFSET_metadata + 7) length;
        b ← mem_write b 0 text;
        b ← mem_write b length [0];
        mret (length, Some b)
  | _, _ => mret (0, buffer)
  end.

Definition attr_table_entry_length_string (entry : cmem) : outcome Z :=
  '(_, n) ← pldm_bios_table_attr_entry_string_decode_def_string_length (Some entry) (Some 0);
  mret (as_ssize (pldm_bios_table_attr_entry_string_encode_length (default 0 n))).

(** *** Integers *)

Record pldm_bios_table_attr_entry_integer_info := IntegerInfo {
  ii_name_handle : Z; ii_read_only : bool; lower_bound : Z; upper_bound : Z; scalar_increment : Z;
  default_value : Z
}.

(** struct attr_table_integer_entry_fields is 28 bytes. *)
Definition pldm_bios_table_attr_entry_integer_encode_length : Z := SIZEOF_attr_entry - 1 + 28.

Definition pldm_bios_table_attr_entry_integer_info_check (info : pldm_bios_table_attr_entry_integer_info)
  : Z * option errmsg :=
  if lower_bound info =? upper_bound info then
    if negb (default_value info =? lower_bound info) then (PLDM_ERROR_INVALID_DATA, Some Wrong_DefaultValue)
    else if negb (scalar_increment info =? 0) then (PLDM_ERROR_INVALID_DATA, Some Wrong_ScalarIncrement)
    else (PLDM_SUCCESS, None)
  else if upper_bound info <? lower_bound info then (PLDM_ERROR_INVALID_DATA, Some LowerBound_greater)
  else if (upper_bound info <? default_value info) || (default_value info <? lower_bound info) then
    (PLDM_ERROR_INVALID_DATA, Some Wrong_DefaultValue)
  else if scalar_increment info =? 0 then (PLDM_ERROR_INVALID_DATA, Some ScalarIncrement_zero)
  else if negb (u64 (default_value info - lower_bound info) mod scalar_increment info =? 0) then
    (PLDM_ERROR_INVALID_DATA, Some Wrong_DefaultValue_or_ScalarIncrement)
  else (PLDM_SUCCESS, None).

Definition pldm_bios_table_attr_entry_integer_encode (entry : option cmem) (entry_length : Z)
    (info : option pldm_bios_table_attr_entry_integer_info) : stM Z (Z * option cmem) :=
  match entry, info with
  | Some e, Some info =>
      if entry_length <? pldm_bios_table_attr_entry_integer_encode_length then
        mret (PLDM_ERROR_INVALID_LENGTH, entry)
      else if negb (fst (pldm_bios_table_attr_entry_integer_info_check info) =? PLDM_SUCCESS) then
        mret (PLDM_ERROR_INVALID_DATA, entry)
      else
        let attr_type := if ii_read_only info then PLDM_BIOS_INTEGER_READ_ONLY else PLDM_BIOS_INTEGER in
        '(rc, e) ← attr_table_entry_encode_header e entry_length attr_type (ii_name_handle info);
        if_err rc return_ mret (rc, Some e);;
        e ← lift (mem_write e OFFSET_metadata (le_enc 8 (lower_bound info)));
        e ← lift (mem_write e (OFFSET_metadata + 8) (le_enc 8 (upper_bound info)));
        e ← lift (mem_write e (OFFSET_metadata + 16) (le_enc 4 (scalar_increment info)));
        e ← lift (mem_write e (OFFSET_metadata + 20) (le_enc 8 (default_value info)));
        mret (PLDM_SUCCESS, Some e)
  | _, _ => mret (PLDM_ERROR_INVALID_DATA, entry)
  end.

(** The four results: lower bound, upper bound, increment, default value. *)
Definition pldm_bios_table_attr_entry_integer_decode (entry : cmem) : outcome (Z * Z * Z * Z) :=
  lower ← mem_le entry OFFSET_metadata 8;
  upper ← mem_le entry (OFFSET_metadata + 8) 8;
  scalar ← mem_le entry (OFFSET_metadata + 16) 4;
  def ← mem_le entry (OFFSET_metadata + 20) 8;
  mret (lower, upper, scalar, def).

Definition attr_table_entry_length_integer (_ : cmem) : outcome Z :=
  mret (as_ssize pldm_bios_table_attr_entry_integer_encode_length).

(** *** The length of any entry *)

Definition table_entry_length : Type := Z * (cmem -> outcome Z).

Fixpoint find_table_entry_length_by_type (attr_type : Z) (handlers : list table_entry_length)
  : option table_entry_length :=
  match handlers with
  | [] => None
  | h :: handlers =>
      if attr_type =? fst h then Some h else find_table_entry_length_by_type attr_type handlers
  end.

Definition attr_table_entries : list table_entry_length :=
  [(PLDM_BIOS_ENUMERATION, attr_table_entry_length_enum);
   (PLDM_BIOS_ENUMERATION_READ_ONLY, attr_table_entry_length_enum);
   (PLDM_BIOS_STRING, attr_table_entry_length_string);
   (PLDM_BIOS_STRING_READ_ONLY, attr_table_entry_length_string);
   (PLDM_BIOS_INTEGER, attr_table_entry_length_integer);
   (PLDM_BIOS_INTEGER_READ_ONLY, attr_table_entry_length_integer)].

Definition attr_table_entry_length (entry : cmem) : outcome Z :=
  t ← mem_le entry 2 1;
  match find_table_entry_length_by_type t attr_table_entries with
  | None => Fault FAssert
  | Some h => snd h entry
  end.

(** ** Attribute value entries *)

Definition pldm_bios_table_attr_value_entry_decode_attribute_handle (entry : cmem) : outcome Z := mem_le entry 0 2.
Definition pldm_bios_table_attr_value_entry_decode_attribute_type (entry : cmem) : outcome Z := mem_le entry 2 1.

Definition pldm_bios_table_attr_value_entry_encode_enum_length (count : Z) : Z := SIZEOF_val_entry - 1 + 1 + count.

Definition pldm_bios_table_attr_value_entry_enum_decode_number (entry : cmem) : outcome Z :=
  mem_le entry OFFSET_value 1.

Definition pldm_bios_table_attr_value_entry_enum_decode_handles (entry handles : cmem) (number : Z)
  : outcome (Z * cmem) :=
  curr_num ← pldm_bios_table_attr_value_entry_enum_decode_number entry;
  let curr_num := if number <? curr_num then number else curr_num in
  hs ← mem_read entry (OFFSET_value + 1) curr_num;
  handles ← mem_write handles 0 hs;
  mret (curr_num, handles).

(** The head of the three value encoders. *)
Definition put_value_header (e : cmem) (attr_handle attr_type : Z) : outcome cmem :=
  e ← mem_write e 0 (le_enc 2 attr_handle); mem_write e 2 [attr_type].

(** A length that does not fit is noticed when the header has been written. *)
Definition pldm_bios_table_attr_value_entry_encode_enum (entry : option cmem)
    (entry_length attr_handle attr_type count : Z) (handles : option cmem) : outcome (Z * option cmem) :=
  match entry, handles with
  | Some e, Some h =>
      if negb (ATTR_TYPE_EXPECT attr_type PLDM_BIOS_ENUMERATION) then mret (PLDM_ERROR_INVALID_DATA, entry)
      else if entry_length <? SIZEOF_val_entry then mret (PLDM_ERROR_INVALID_LENGTH, entry)
      else
        e ← put_value_header e attr_handle attr_type;
        e ← mem_write e OFFSET_value [count];
        if entry_length - SIZEOF_val_entry <? count then mret (PLDM_ERROR_INVALID_LENGTH, Some e)
        else
          hs ← mem_read h 0 count;
          e ← mem_write e (OFFSET_value + 1) hs;
          mret (PLDM_SUCCESS, Some e)
  | _, _ => mret (PLDM_ERROR_INVALID_DATA, entry)
  end.

Definition attr_value_table_entry_length_enum (entry : cmem) : outcome Z :=
  n ← pldm_bios_table_attr_value_entry_enum_decode_number entry;
  mret (as_ssize (pldm_bios_table_attr_value_entry_encode_enum_length n)).

Definition pldm_bios_table_attr_value_entry_encode_string_length (string_length : Z) : Z :=
  SIZEOF_val_entry - 1 + 2 + string_length.

Definition pldm_bios_table_attr_value_entry_string_decode_length (entry : cmem) : outcome Z :=
  mem_le entry OFFSET_value 2.

Definition pldm_bios_table_attr_value_entry_string_decode_string (entry : cmem) : outcome variable_field :=
  n ← pldm_bios_table_attr_value_entry_string_decode_length entry;
  mret (VarField (Some (ptr_at entry (OFFSET_value + 2))) n).

Definition pldm_bios_table_attr_value_entry_encode_string (entry : option cmem)
    (entry_length attr_handle attr_type str_length : Z) (str : option cmem) : outcome (Z * option cmem) :=
  match entry with
  | None => mret (PLDM_ERROR_INVALID_DATA, entry)
  | Some e =>
      match str with
      | None =>
          if negb (str_length =? 0) then mret (PLDM_ERROR_INVALID_DATA, entry)
          else if negb (ATTR_TYPE_EXPECT attr_type PLDM_BIOS_STRING) then mret (PLDM_ERROR_INVALID_DATA, entry)
          else if entry_length <? SIZEOF_val_entry - 1 + 2 then mret (PLDM_ERROR_INVALID_LENGTH, entry)
          else
            e ← put_value_header e attr_handle attr_type;
            e ← mem_write e OFFSET_value (le_enc 2 0);
            mret (PLDM_SUCCESS, Some e)
      | Some s =>
          if negb (ATTR_TYPE_EXPECT attr_type PLDM_BIOS_STRING) then mret (PLDM_ERROR_INVALID_DATA, entry)
          else if entry_length <? SIZEOF_val_entry - 1 + 2 then mret (PLDM_ERROR_INVALID_LENGTH, entry)
          else
            e ← put_value_header e attr_handle attr_type;
            if entry_length - (SIZEOF_val_entry - 1 + 2) <? str_length then
              mret (PLDM_ERROR_INVALID_LENGTH, Some e)
            else
              text ← mem_read s 0 str_length;
              e ← mem_write e (OFFSET_value + 2) text;
              e ← mem_write e OFFSET_value (le_enc 2 str_length);
              mret (PLDM_SUCCESS, Some e)
      end
  end.

Definition attr_value_table_entry_length_string (entry : cmem) : outcome Z :=
  n ← pldm_bios_table_attr_value_entry_string_decode_length entry;
  mret (as_ssize (pldm_bios_table_attr_value_entry_encode_string_length n)).

Definition pldm_bios_table_attr_value_entry_encode_integer_length : Z := SIZEOF_val_entry - 1 + 8.

Definition pldm_bios_table_attr_value_entry_encode_integer (entry : option cmem)
    (entry_length attr_handle attr_type cv : Z) : outcome (Z * option cmem) :=
  match entry with
  | None => mret (PLDM_ERROR_INVALID_DATA, entry)
  | Some e =>
      if negb (ATTR_TYPE_EXPECT attr_type PLDM_BIOS_INTEGER) then mret (PLDM_ERROR_INVALID_DATA, entry)
      else if entry_length <? pldm_bios_table_attr_value_entry_encode_integer_length then
        mret (PLDM_ERROR_INVALID_LENGTH, entry)
      else
        e ← put_value_header e attr_handle attr_type;
        e ← mem_write e OFFSET_value (le_enc 8 cv);
        mret (PLDM_SUCCESS, Some e)
  end.

Definition pldm_bios_table_attr_value_entry_integer_decode_cv (entry : cmem) : outcome Z :=
  mem_le entry OFFSET_value 8.

Definition attr_value_table_entry_length_integer (_ : cmem) : outcome Z :=
  mret (as_ssize pldm_bios_table_attr_value_entry_encode_integer_length).

Definition attr_value_table_entries : list table_entry_length :=
  [(PLDM_BIOS_ENUMERATION, attr_value_table_entry_length_enum);
   (PLDM_BIOS_ENUMERATION_READ_ONLY, attr_value_table_entry_length_enum);
   (PLDM_BIOS_STRING, attr_value_table_entry_length_string);
   (PLDM_BIOS_STRING_READ_ONLY, attr_value_table_entry_length_string);
   (PLDM_BIOS_INTEGER, attr_value_table_entry_length_integer);
   (PLDM_BIOS_INTEGER_READ_ONLY, attr_value_table_entry_length_integer)].

Definition attr_value_table_entry_length (entry : cmem) : outcome Z :=
  t ← mem_le entry 2 1;
  match find_table_entry_length_by_type t attr_value_table_entries with
  | None => Fault FAssert
  | Some h => snd h entry
  end.

(** The result is a size_t. *)
Definition pldm_bios_table_attr_value_entry_length (entry : cmem) : outcome Z :=
  n ← attr_value_table_entry_length entry; mret (u64 n).

Definition pldm_bios_table_attr_value_entry_decode_handle (entry : cmem) : outcome Z := mem_le entry 0 2.

(** ** Padding and checksum *)

Definition pad_size_get (size_without_pad : Z) : Z := (4 - size_without_pad mod 4) mod 4.

(** From the offset [table_end]; gives the offset behind the padding. *)
Fixpoint pad_append (pad_size : nat) (table : cmem) (table_end : Z) : outcome (cmem * Z) :=
  match pad_size with
  | O => Ok (table, table_end)
  | S n => table ← mem_write table table_end [0]; pad_append n table (table_end + 1)
  end.

Definition checksum_append (table : cmem) (table_end checksum : Z) : outcome (cmem * Z) :=
  table ← mem_write table table_end (le_enc 4 checksum); mret (table, table_end + 4).

Definition pldm_bios_table_pad_checksum_size (size_without_pad : Z) : Z := pad_size_get size_without_pad + 4.

Definition pldm_bios_table_append_pad_checksum (table : option cmem) (capacity : Z) (size : option Z)
  : outcome (Z * option cmem * option Z) :=
  match table, size with
  | Some t, Some n =>
      let pad_checksum_size := pldm_bios_table_pad_checksum_size n in
      if SIZE_MAX - pad_checksum_size <? n then mret (PLDM_ERROR_INVALID_LENGTH, table, size)
      else
        let total_length := n + pad_checksum_size in
        if capacity <? total_length then mret (PLDM_ERROR_INVALID_LENGTH, table, size)
        else if UINTPTR_MAX - n <? addr t then mret (PLDM_ERROR_INVALID_LENGTH, table, size)
        else
          let pad_size := pad_size_get n in
          '(t, table_end) ← pad_append (Z.to_nat pad_size) t n;
          checksum ← pldm_edac_crc32 (Some t) (n + pad_size);
          '(t, _) ← checksum_append t table_end checksum;
          mret (PLDM_SUCCESS, Some t, Some total_length)
  | _, _ => mret (PLDM_ERROR_INVALID_DATA, table, size)
  end.

Definition pldm_bios_table_checksum (table : option cmem) (size : Z) : outcome bool :=
  match table with
  | None => mret false
  | Some t =>
      if size <? 12 then mret false
      else
        src_crc ← mem_le t (size - 4) 4;
        dst_crc ← pldm_edac_crc32 table (size - 4);
        mret (src_crc =? dst_crc)
  end.

(** ** The iterator *)

Record pldm_bios_table_iter := TableIter {
  table_data : cmem; table_len : Z; current_pos : Z; entry_length_handler : cmem -> outcome Z
}.

Definition table_entry_length_of (type : pldm_bios_table_types) : cmem -> outcome Z :=
  match type with
  | PLDM_BIOS_STRING_TABLE => string_table_entry_length
  | PLDM_BIOS_ATTR_TABLE => attr_table_entry_length
  | PLDM_BIOS_ATTR_VAL_TABLE => attr_value_table_entry_length
  end.

Abbreviation pad_and_check_max := 7 (only parsing).

Definition pldm_bios_table_iter_is_end (iter : option pldm_bios_table_iter) : outcome bool :=
  match iter with
  | None => mret true
  | Some it =>
      if table_len it <? current_pos it then mret true
      else if table_len it - current_pos it <=? pad_and_check_max then mret true
      else
        len ← entry_length_handler it (ptr_at (table_data it) (current_pos it));
        mret (len <? 0)
  end.

Definition pldm_bios_table_iter_value (iter : pldm_bios_table_iter) : cmem :=
  ptr_at (table_data iter) (current_pos iter).

Definition set_pos (pos : Z) (it : pldm_bios_table_iter) : pldm_bios_table_iter :=
  TableIter (table_data it) (table_len it) pos (entry_length_handler it).

Definition pldm_bios_table_iter_next (it : pldm_bios_table_iter) : outcome pldm_bios_table_iter :=
  e ← pldm_bios_table_iter_is_end (Some it);
  if (e : bool) then mret it
  else
    rc ← entry_length_handler it (pldm_bios_table_iter_value it);
    if rc <? 0 then mret it else mret (set_pos (u64 (current_pos it + rc)) it).

(** The search; [fuel] bounds the number of entries looked at. *)
Fixpoint pldm_bios_table_entry_find_by_iter (fuel : nat) (it : pldm_bios_table_iter)
    (equal : cmem -> outcome bool) : outcome (option cmem) :=
  match fuel with
  | O => Fault FFuel
  | S fuel =>
      e ← pldm_bios_table_iter_is_end (Some it);
      if (e : bool) then mret None
      else
        let entry := pldm_bios_table_iter_value it in
        hit ← equal entry;
        if (hit : bool) then mret (Some entry)
        else it ← pldm_bios_table_iter_next it; pldm_bios_table_entry_find_by_iter fuel it equal
  end.

Section allocation.
(** Whether malloc fails, which ends the program at the assertion behind it. *)
Context (oom : bool).

Definition pldm_bios_table_iter_create (table : cmem) (length : Z) (type : pldm_bios_table_types)
  : outcome pldm_bios_table_iter :=
  _ ← c_assert (negb oom); mret (TableIter table length 0 (table_entry_length_of type)).

Definition pldm_bios_table_entry_find_from_table (table : cmem) (length : Z) (type : pldm_bios_table_types)
    (equal : cmem -> outcome bool) : outcome (option cmem) :=
  iter ← pldm_bios_table_iter_create table length type;
  pldm_bios_table_entry_find_by_iter (S (Z.to_nat length)) iter equal.

Definition string_table_handle_equal (handle : Z) (entry : cmem) : outcome bool :=
  h ← pldm_bios_table_string_entry_decode_handle entry; mret (h =? handle).

Definition pldm_bios_table_string_find_by_handle (table : cmem) (length handle : Z) : outcome (option cmem) :=
  pldm_bios_table_entry_find_from_table table length PLDM_BIOS_STRING_TABLE (string_table_handle_equal handle).

Definition string_table_string_equal (str : cmem) (str_length : Z) (entry : cmem) : outcome bool :=
  n ← pldm_bios_table_string_entry_decode_string_length entry;
  if negb (str_length =? n) then mret false
  else
    name ← mem_read entry OFFSET_name str_length;
    text ← mem_read str 0 str_length;
    mret (bool_decide (name = text)).

(** The length of [str] is kept in 16 bits. *)
Definition pldm_bios_table_string_find_by_string (table : cmem) (length : Z) (str : cmem)
  : outcome (option cmem) :=
  n ← strlen str;
  pldm_bios_table_entry_find_from_table table length PLDM_BIOS_STRING_TABLE
    (string_table_string_equal str (u16 n)).

Definition attr_table_handle_equal (handle : Z) (entry : cmem) : outcome bool :=
  h ← pldm_bios_table_attr_entry_decode_attribute_handle entry; mret (h =? handle).

Definition pldm_bios_table_attr_find_by_handle (table : cmem) (length handle : Z) : outcome (option cmem) :=
  pldm_bios_table_entry_find_from_table table length PLDM_BIOS_ATTR_TABLE (attr_table_handle_equal handle).

Definition attr_table_string_handle_equal (handle : Z) (entry : cmem) : outcome bool :=
  h ← pldm_bios_table_attr_entry_decode_string_handle entry; mret (h =? handle).

Definition pldm_bios_table_attr_find_by_string_handle (table : cmem) (length handle : Z)
  : outcome (option cmem) :=
  pldm_bios_table_entry_find_from_table table length PLDM_BIOS_ATTR_TABLE
    (attr_table_string_handle_equal handle).

Definition attr_value_table_handle_equal (handle : Z) (entry : cmem) : outcome bool :=
  h ← pldm_bios_table_attr_value_entry_decode_handle entry; mret (h =? handle).

Definition pldm_bios_table_attr_value_find_by_handle (table : cmem) (length handle : Z)
  : outcome (option cmem) :=
  pldm_bios_table_entry_find_from_table table length PLDM_BIOS_ATTR_VAL_TABLE
    (attr_value_table_handle_equal handle).

(** ** A value table with an entry replaced *)

(** The loop: the code, the destination and the number of bytes copied. *)
Fixpoint copy_entries (fuel : nat) (it : pldm_bios_table_iter) (entry : cmem) (entry_length : Z)
    (dest_table : cmem) (buffer_length copied_length : Z) : outcome (Z * cmem * Z) :=
  match fuel with
  | O => Fault FFuel
  | S fuel =>
      e ← pldm_bios_table_iter_is_end (Some it);
      if (e : bool) then mret (PLDM_SUCCESS, dest_table, copied_length)
      else
        let tmp := pldm_bios_table_iter_value it in
        n ← attr_value_table_entry_length tmp;
        let it := set_pos (u64 (current_pos it + u64 n)) it in
        h ← mem_le tmp 0 2;
        h' ← mem_le entry 0 2;
        same_type ← (if h =? h' then t ← mem_le tmp 2 1; t' ← mem_le entry 2 1; mret (t =? t') else mret true);
        if negb same_type then mret (PLDM_ERROR_INVALID_DATA, dest_table, copied_length)
        else
          let '(length, tmp) := if h =? h' then (entry_length, entry) else (u64 n, tmp) in
          if buffer_length <? u64 (copied_length + length) then
            mret (PLDM_ERROR_INVALID_LENGTH, dest_table, copied_length)
          else
            l ← mem_read tmp 0 length;
            dest_table ← mem_write dest_table copied_length l;
            copy_entries fuel it entry entry_length dest_table buffer_length (u64 (copied_length + length))
  end.

Definition pldm_bios_table_attr_value_copy_and_update (src_table : cmem) (src_length : Z)
    (dest_table : cmem) (dest_length : Z) (entry : cmem) (entry_length : Z) : outcome (Z * cmem * Z) :=
  iter ← pldm_bios_table_iter_create src_table src_length PLDM_BIOS_ATTR_VAL_TABLE;
  let buffer_length := dest_length in
  '(rc, dest_table, copied_length) ← copy_entries (S (Z.to_nat src_length)) iter entry entry_length dest_table
                                       buffer_length 0;
  if_err rc return_ mret (rc, dest_table, dest_length);;
  let pad_checksum_size := pldm_bios_table_pad_checksum_size copied_length in
  if buffer_length <? u64 (pad_checksum_size + copied_length) then
    mret (PLDM_ERROR_INVALID_LENGTH, dest_table, dest_length)
  else
    '(rc, t, n) ← pldm_bios_table_append_pad_checksum (Some dest_table) buffer_length (Some copied_length);
    mret (rc, default dest_table t, if rc =? PLDM_SUCCESS then default dest_length n else dest_length).
End allocation.
