(* ===== verification/BiosMessages.v ===== *)
(** * BIOS control and configuration messages (src/dsp/bios.c)

    Date and time, and the messages that carry the tables and attribute values of
    BiosTable.v.  The decoders of variable-sized messages point into the message. *)

From S2P Require Import Prelude Msgbuf Layout Utils Base Legacy.

(** ** Constants (include/libpldm/base.h, bios.h) *)

Abbreviation PLDM_BIOS := 3 (only parsing).
Abbreviation PLDM_GET_BIOS_TABLE := 0x01 (only parsing).
Abbreviation PLDM_SET_BIOS_TABLE := 0x02 (only parsing).
Abbreviation PLDM_SET_BIOS_ATTRIBUTE_CURRENT_VALUE := 0x07 (only parsing).
Abbreviation PLDM_GET_BIOS_ATTRIBUTE_CURRENT_VALUE_BY_HANDLE := 0x08 (only parsing).
Abbreviation PLDM_GET_DATE_TIME := 0x0c (only parsing).
Abbreviation PLDM_SET_DATE_TIME := 0x0d (only parsing).

(** ** Date and time *)

(** The members of a date and time in the requests and responses. *)
Record date_time := DateTime {
  dt_seconds : Z; dt_minutes : Z; dt_hours : Z; dt_day : Z; dt_month : Z; dt_year : Z
}.

Definition encode_get_date_time_req (instance_id : Z) (msg : option pldm_msg) : outcome (Z * option pldm_msg) :=
  match msg with
  | None => Ok (PLDM_ERROR_INVALID_DATA, msg)
  | Some m => legacy_frame PLDM_REQUEST instance_id PLDM_BIOS PLDM_GET_DATE_TIME m header_only
  end.

(** The source stores the completion code a second time in front of the time. *)
Definition encode_get_date_time_resp (instance_id completion_code : Z) (t : date_time) (msg : option pldm_msg)
  : outcome (Z * option pldm_msg) :=
  match msg with
  | None => Ok (PLDM_ERROR_INVALID_DATA, msg)
  | Some m =>
    legacy_frame PLDM_RESPONSE instance_id PLDM_BIOS PLDM_GET_DATE_TIME m (fun m =>
      m ← put_members m 0 [(1%nat, completion_code)];
      if negb (completion_code =? PLDM_SUCCESS) then mret (PLDM_SUCCESS, Some m)
      else
      m ← put_members m 1 [(1%nat, dt_seconds t); (1%nat, dt_minutes t); (1%nat, dt_hours t);
            (1%nat, dt_day t); (1%nat, dt_month t); (2%nat, dt_year t)];
      mret (PLDM_SUCCESS, Some m))
  end.

(** completion_code, and the time if there is one *)
Definition decode_get_date_time_resp (msg : option pldm_msg) (payload_length : Z)
    (outs : option (Z * date_time)) : outcome (Z * option (Z * date_time)) :=
  match msg, outs with
  | Some msg, Some (_, t) =>
    cc ← member msg 0 1;
    if negb (cc =? PLDM_SUCCESS) then mret (PLDM_SUCCESS, Some (cc, t))
    else if negb (payload_length =? 8) then mret (PLDM_ERROR_INVALID_LENGTH, Some (cc, t))
    else
    seconds ← member msg 1 1;
    minutes ← member msg 2 1;
    hours ← member msg 3 1;
    day ← member msg 4 1;
    month ← member msg 5 1;
    year ← member msg 6 2;
    mret (PLDM_SUCCESS, Some (cc, DateTime seconds minutes hours day month year))
  | _, _ => Ok (PLDM_ERROR_INVALID_DATA, outs)
  end.

Definition legal (t : date_time) : bool :=
  is_time_legal (dt_seconds t) (dt_minutes t) (dt_hours t) (dt_day t) (dt_month t) (dt_year t).

Definition encode_set_date_time_req (instance_id : Z) (t : date_time) (msg : option pldm_msg) (payload_length : Z)
  : outcome (Z * option pldm_msg) :=
  match msg with
  | None => Ok (PLDM_ERROR_INVALID_DATA, msg)
  | Some m =>
    if negb (payload_length =? 7) then Ok (PLDM_ERROR_INVALID_LENGTH, msg)
    else if negb (legal t) then Ok (PLDM_ERROR_INVALID_DATA, msg)
    else
    legacy_frame PLDM_REQUEST instance_id PLDM_BIOS PLDM_SET_DATE_TIME m (fun m =>
      m ← put_members m 0 [(1%nat, pldm_bcd_dec2bcd8 (dt_seconds t)); (1%nat, pldm_bcd_dec2bcd8 (dt_minutes t));
            (1%nat, pldm_bcd_dec2bcd8 (dt_hours t)); (1%nat, pldm_bcd_dec2bcd8 (dt_day t));
            (1%nat, pldm_bcd_dec2bcd8 (dt_month t)); (2%nat, pldm_bcd_dec2bcd16 (dt_year t))];
      mret (PLDM_SUCCESS, Some m))
  end.

Definition decode_set_date_time_req (msg : option pldm_msg) (payload_length : Z) (outs : option date_time)
  : outcome (Z * option date_time) :=
  match msg, outs with
  | Some msg, Some _ =>
    if negb (payload_length =? 7) then Ok (PLDM_ERROR_INVALID_LENGTH, outs)
    else
    seconds ← member msg 0 1;
    minutes ← member msg 1 1;
    hours ← member msg 2 1;
    day ← member msg 3 1;
    month ← member msg 4 1;
    year ← member msg 5 2;
    let t := DateTime (pldm_bcd_bcd2dec8 seconds) (pldm_bcd_bcd2dec8 minutes) (pldm_bcd_bcd2dec8 hours)
               (pldm_bcd_bcd2dec8 day) (pldm_bcd_bcd2dec8 month) (pldm_bcd_bcd2dec16 year) in
    if negb (legal t) then mret (PLDM_ERROR_INVALID_DATA, Some t)
    else mret (PLDM_SUCCESS, Some t)
  | _, _ => Ok (PLDM_ERROR_INVALID_DATA, outs)
  end.

Definition encode_set_date_time_resp (instance_id completion_code : Z) (msg : option pldm_msg)
    (payload_length : Z) : outcome (Z * option pldm_msg) :=
  match msg with
  | None => Ok (PLDM_ERROR_INVALID_DATA, msg)
  | Some m =>
    if negb (payload_length =? 1) then Ok (PLDM_ERROR_INVALID_LENGTH, msg)
    else
    legacy_frame PLDM_RESPONSE instance_id PLDM_BIOS PLDM_SET_DATE_TIME m (fun m =>
      m ← put_members m 0 [(1%nat, completion_code)];
      mret (PLDM_SUCCESS, Some m))
  end.

Definition decode_set_date_time_resp (msg : option pldm_msg) (payload_length : Z) (completion_code : option Z)
  : outcome (Z * option Z) :=
  match msg, completion_code with
  | Some msg, Some _ =>
    cc ← member msg 0 1;
    if negb (cc =? PLDM_SUCCESS) then mret (PLDM_SUCCESS, Some cc)
    else if negb (payload_length =? 1) then mret (PLDM_ERROR_INVALID_LENGTH, Some cc)
    else mret (PLDM_SUCCESS, Some cc)
  | _, _ => Ok (PLDM_ERROR_INVALID_DATA, completion_code)
  end.

(** ** GetBIOSTable *)

(** [payload_length] counts the message with its header of three bytes. *)
Definition encode_get_bios_table_resp (instance_id completion_code next_transfer_handle transfer_flag : Z)
    (table_data : option cmem) (payload_length : Z) (msg : option pldm_msg) : outcome (Z * option pldm_msg) :=
  match msg with
  | None => Ok (PLDM_ERROR_INVALID_DATA, msg)
  | Some m =>
    legacy_frame PLDM_RESPONSE instance_id PLDM_BIOS PLDM_GET_BIOS_TABLE m (fun m =>
      m ← put_members m 0 [(1%nat, completion_code)];
      if negb (completion_code =? PLDM_SUCCESS) then mret (PLDM_SUCCESS, Some m)
      else
      m ← put_members m 1 [(4%nat, next_transfer_handle); (1%nat, transfer_flag)];
      match table_data with
      | Some table =>
        if 9 <? payload_length then
          l ← mem_read table 0 (payload_length - 9);
          m ← payload_write m 6 l;
          mret (PLDM_SUCCESS, Some m)
        else mret (PLDM_SUCCESS, Some m)
      | None => mret (PLDM_SUCCESS, Some m)
      end)
  end.

Definition encode_get_bios_table_req (instance_id transfer_handle transfer_op_flag table_type : Z)
    (msg : option pldm_msg) : outcome (Z * option pldm_msg) :=
  match msg with
  | None => Ok (PLDM_ERROR_INVALID_DATA, msg)
  | Some m =>
    legacy_frame PLDM_REQUEST instance_id PLDM_BIOS PLDM_GET_BIOS_TABLE m (fun m =>
      m ← put_members m 0 [(4%nat, transfer_handle); (1%nat, transfer_op_flag); (1%nat, table_type)];
      mret (PLDM_SUCCESS, Some m))
  end.

(** transfer_handle, transfer_op_flag, table_type *)
Definition decode_get_bios_table_req (msg : option pldm_msg) (payload_length : Z) (outs : option (Z * Z * Z))
  : outcome (Z * option (Z * Z * Z)) :=
  match msg, outs with
  | Some msg, Some _ =>
    if negb (payload_length =? 6) then Ok (PLDM_ERROR_INVALID_LENGTH, outs)
    else
    handle ← member msg 0 4;
    flag ← member msg 4 1;
    type ← member msg 5 1;
    mret (PLDM_SUCCESS, Some (handle, flag, type))
  | _, _ => Ok (PLDM_ERROR_INVALID_DATA, outs)
  end.

(** completion_code, next_transfer_handle, transfer_flag, bios_table_offset *)
Definition decode_get_bios_table_resp (msg : option pldm_msg) (payload_length : Z) (outs : option (Z * Z * Z * Z))
  : outcome (Z * option (Z * Z * Z * Z)) :=
  match msg, outs with
  | Some msg, Some (cc, next, flag, offset) =>
    if payload_length <=? 6 then Ok (PLDM_ERROR_INVALID_LENGTH, outs)
    else
    cc ← member msg 0 1;
    if negb (cc =? PLDM_SUCCESS) then mret (PLDM_SUCCESS, Some (cc, next, flag, offset))
    else
    next ← member msg 1 4;
    flag ← member msg 5 1;
    mret (PLDM_SUCCESS, Some (cc, next, flag, 6))
  | _, _ => Ok (PLDM_ERROR_INVALID_DATA, outs)
  end.

(** ** Attribute values *)

Definition encode_get_bios_attribute_current_value_by_handle_req (instance_id transfer_handle transfer_op_flag
    attribute_handle : Z) (msg : option pldm_msg) : outcome (Z * option pldm_msg) :=
  match msg with
  | None => Ok (PLDM_ERROR_INVALID_DATA, msg)
  | Some m =>
    legacy_frame PLDM_REQUEST instance_id PLDM_BIOS PLDM_GET_BIOS_ATTRIBUTE_CURRENT_VALUE_BY_HANDLE m (fun m =>
      m ← put_members m 0 [(4%nat, transfer_handle); (1%nat, transfer_op_flag); (2%nat, attribute_handle)];
      mret (PLDM_SUCCESS, Some m))
  end.

(** The completion code is read before the length is looked at.
    completion_code, next_transfer_handle, transfer_flag, attribute_data *)
Definition decode_get_bios_attribute_current_value_by_handle_resp (msg : option pldm_msg) (payload_length : Z)
    (outs : option (Z * Z * Z * variable_field)) : outcome (Z * option (Z * Z * Z * variable_field)) :=
  match msg, outs with
  | Some msg, Some (_, next, flag, data) =>
    cc ← member msg 0 1;
    if negb (cc =? PLDM_SUCCESS) then mret (PLDM_SUCCESS, Some (cc, next, flag, data))
    else if payload_length <=? 6 then mret (PLDM_ERROR_INVALID_LENGTH, Some (cc, next, flag, data))
    else
    next ← member msg 1 4;
    flag ← member msg 5 1;
    mret (PLDM_SUCCESS, Some (cc, next, flag, VarField (Some (ptr_at (payload msg) 6)) (payload_length - 7 + 1)))
  | _, _ => Ok (PLDM_ERROR_INVALID_DATA, outs)
  end.

(** transfer_handle, transfer_op_flag, attribute_handle *)
Definition decode_get_bios_attribute_current_value_by_handle_req (msg : option pldm_msg) (payload_length : Z)
    (outs : option (Z * Z * Z)) : outcome (Z * option (Z * Z * Z)) :=
  match msg, outs with
  | Some msg, Some _ =>
    if negb (payload_length =? 7) then Ok (PLDM_ERROR_INVALID_LENGTH, outs)
    else
    handle ← member msg 0 4;
    flag ← member msg 4 1;
    attribute ← member msg 5 2;
    mret (PLDM_SUCCESS, Some (handle, flag, attribute))
  | _, _ => Ok (PLDM_ERROR_INVALID_DATA, outs)
  end.

Definition encode_get_bios_current_value_by_handle_resp (instance_id completion_code next_transfer_handle
    transfer_flag : Z) (attribute_data : option cmem) (attribute_length : Z) (msg : option pldm_msg)
  : outcome (Z * option pldm_msg) :=
  match msg, attribute_data with
  | Some m, Some data =>
    legacy_frame PLDM_RESPONSE instance_id PLDM_BIOS PLDM_GET_BIOS_ATTRIBUTE_CURRENT_VALUE_BY_HANDLE m (fun m =>
      m ← put_members m 0 [(1%nat, completion_code)];
      if negb (completion_code =? PLDM_SUCCESS) then mret (PLDM_SUCCESS, Some m)
      else
      m ← put_members m 1 [(4%nat, next_transfer_handle); (1%nat, transfer_flag)];
      l ← mem_read data 0 attribute_length;
      m ← payload_write m 6 l;
      mret (PLDM_SUCCESS, Some m))
  | _, _ => Ok (PLDM_ERROR_INVALID_DATA, msg)
  end.

Definition encode_set_bios_attribute_current_value_req (instance_id transfer_handle transfer_flag : Z)
    (attribute_data : option cmem) (attribute_length : Z) (msg : option pldm_msg) (payload_length : Z)
  : outcome (Z * option pldm_msg) :=
  match msg, attribute_data with
  | Some m, Some data =>
    if payload_length <? 5 then Ok (PLDM_ERROR_INVALID_LENGTH, msg)
    else if payload_length - 5 <? attribute_length then Ok (PLDM_ERROR_INVALID_LENGTH, msg)
    else
    legacy_frame PLDM_REQUEST instance_id PLDM_BIOS PLDM_SET_BIOS_ATTRIBUTE_CURRENT_VALUE m (fun m =>
      m ← put_members m 0 [(4%nat, transfer_handle); (1%nat, transfer_flag)];
      l ← mem_read data 0 attribute_length;
      m ← payload_write m 5 l;
      mret (PLDM_SUCCESS, Some m))
  | _, _ => Ok (PLDM_ERROR_INVALID_DATA, msg)
  end.

(** transfer_handle, transfer_flag, attribute *)
Definition decode_set_bios_attribute_current_value_req (msg : option pldm_msg) (payload_length : Z)
    (outs : option (Z * Z * variable_field)) : outcome (Z * option (Z * Z * variable_field)) :=
  match msg, outs with
  | Some msg, Some _ =>
    if payload_length <? 5 then Ok (PLDM_ERROR_INVALID_LENGTH, outs)
    else
    handle ← member msg 0 4;
    flag ← member msg 4 1;
    mret (PLDM_SUCCESS, Some (handle, flag, VarField (Some (ptr_at (payload msg) 5)) (payload_length - 5)))
  | _, _ => Ok (PLDM_ERROR_INVALID_DATA, outs)
  end.

(** ** SetBIOSTable *)

Definition encode_set_bios_table_req (instance_id transfer_handle transfer_flag table_type : Z)
    (table_data : option cmem) (table_length : Z) (msg : option pldm_msg) (payload_length : Z)
  : outcome (Z * option pldm_msg) :=
  match msg, table_data with
  | Some m, Some data =>
    if payload_length <? 6 then Ok (PLDM_ERROR_INVALID_LENGTH, msg)
    else if payload_length - 6 <? table_length then Ok (PLDM_ERROR_INVALID_LENGTH, msg)
    else if table_length <? payload_length - 6 then Ok (PLDM_ERROR_INVALID_LENGTH, msg)
    else
    legacy_frame PLDM_REQUEST instance_id PLDM_BIOS PLDM_SET_BIOS_TABLE m (fun m =>
      m ← put_members m 0 [(4%nat, transfer_handle); (1%nat, transfer_flag); (1%nat, table_type)];
      l ← mem_read data 0 table_length;
      m ← payload_write m 6 l;
      mret (PLDM_SUCCESS, Some m))
  | _, _ => Ok (PLDM_ERROR_INVALID_DATA, msg)
  end.

(** transfer_handle, transfer_flag, table_type, table *)
Definition decode_set_bios_table_req (msg : option pldm_msg) (payload_length : Z)
    (outs : option (Z * Z * Z * variable_field)) : outcome (Z * option (Z * Z * Z * variable_field)) :=
  match msg, outs with
  | Some msg, Some _ =>
    if payload_length <? 6 then Ok (PLDM_ERROR_INVALID_LENGTH, outs)
    else
    handle ← member msg 0 4;
    flag ← member msg 4 1;
    type ← member msg 5 1;
    mret (PLDM_SUCCESS, Some (handle, flag, type, VarField (Some (ptr_at (payload msg) 6)) (payload_length - 6)))
  | _, _ => Ok (PLDM_ERROR_INVALID_DATA, outs)
  end.

(** *** Responses that are a completion code and the next transfer handle *)

Definition encode_next_handle_resp (command instance_id completion_code next_transfer_handle : Z)
    (msg : option pldm_msg) : outcome (Z * option pldm_msg) :=
  match msg with
  | None => Ok (PLDM_ERROR_INVALID_DATA, msg)
  | Some m =>
    legacy_frame PLDM_RESPONSE instance_id PLDM_BIOS command m (fun m =>
      m ← put_members m 0 [(1%nat, completion_code); (4%nat, next_transfer_handle)];
      mret (PLDM_SUCCESS, Some m))
  end.

(** completion_code, next_transfer_handle *)
Definition decode_next_handle_resp (msg : option pldm_msg) (payload_length : Z) (outs : option (Z * Z))
  : outcome (Z * option (Z * Z)) :=
  match msg, outs with
  | Some msg, Some (_, next) =>
    cc ← member msg 0 1;
    if negb (cc =? PLDM_SUCCESS) then mret (PLDM_SUCCESS, Some (cc, next))
    else if negb (payload_length =? 5) then mret (PLDM_ERROR_INVALID_LENGTH, Some (cc, next))
    else
    next ← member msg 1 4;
    mret (PLDM_SUCCESS, Some (cc, next))
  | _, _ => Ok (PLDM_ERROR_INVALID_DATA, outs)
  end.

Definition encode_set_bios_attribute_current_value_resp :=
  encode_next_handle_resp PLDM_SET_BIOS_ATTRIBUTE_CURRENT_VALUE.
Definition decode_set_bios_attribute_current_value_resp := decode_next_handle_resp.
Definition encode_set_bios_table_resp := encode_next_handle_resp PLDM_SET_BIOS_TABLE.
Definition decode_set_bios_table_resp := decode_next_handle_resp.
