(* ===== verification/BiosRound.v ===== *)
(** * BIOS messages: encoders against decoders *)

From S2P Require Import Prelude Msgbuf Layout Utils Base Legacy Exchange BiosMessages.

(** ** Dates *)

(** A property of the numbers from [z] on. *)
Fixpoint all_from (n : nat) (z : Z) (f : Z -> bool) : bool :=
  match n with O => true | S n => f z && all_from n (z + 1) f end.

Lemma all_from_spec n z f y : all_from n z f = true -> z <= y < z + Z.of_nat n -> f y = true.
Proof.
  revert z. induction n as [|n IH]; intros z; cbn [all_from]; [lia|].
  intros [Hz Hn]%andb_prop Hy. destruct (decide (y = z)) as [->|]; [done|]. apply (IH (z + 1)); [done|lia].
Qed.

(** Four BCD digits hold a year up to 9999, and by their unused codes up to 15999. *)
Lemma bcd_year y : 0 <= y < 65536 -> (pldm_bcd_bcd2dec16 (pldm_bcd_dec2bcd16 y) =? y) = (y <? 16000).
Proof.
  intros Hy. apply eqb_prop.
  apply (all_from_spec (Z.to_nat 65536) 0
    (fun y => Bool.eqb (pldm_bcd_bcd2dec16 (pldm_bcd_dec2bcd16 y) =? y) (y <? 16000)) y); [by vm_compute|lia].
Qed.

Lemma bcd_small y : 0 <= y < 100 -> pldm_bcd_bcd2dec8 (pldm_bcd_dec2bcd8 y) = y.
Proof.
  intros Hy. apply Z.eqb_eq.
  apply (all_from_spec (Z.to_nat 100) 0 (fun y => pldm_bcd_bcd2dec8 (pldm_bcd_dec2bcd8 y) =? y) y); [by vm_compute|lia].
Qed.

Lemma legal_bounds t :
  legal t = true ->
  1970 <= dt_year t /\ 1 <= dt_month t <= 12 /\ 1 <= dt_day t <= 31 /\ dt_hours t <= 23 /\ dt_minutes t <= 59 /\ dt_seconds t <= 59.
Proof.
  unfold legal, is_time_legal. destruct ((dt_month t <? 1) || (12 <? dt_month t)) eqn:Em; [done|].
  assert (1 <= dt_month t <= 12) as Hm by lia.
  assert (day_map (dt_month t) <= 31 /\ (dt_month t = 2 -> day_map (dt_month t) = 28)) as [Hd H2].
  { assert (exists m, dt_month t = m) as [m Em2] by eauto. rewrite Em2 in *.
    assert (m = 1 \/ m = 2 \/ m = 3 \/ m = 4 \/ m = 5 \/ m = 6 \/ m = 7 \/ m = 8 \/ m = 9 \/ m = 10 \/ m = 11 \/ m = 12)
      as [->|[->|[->|[->|[->|[->|[->|[->|[->|[->|[->| ->]]]]]]]]]]] by lia; cbn; lia. }
  destruct ((dt_month t =? 2) && _) eqn:Ef; intros Hl; repeat split; try lia.
  all: match type of Hl with (if ?c then _ else _) = _ => destruct c eqn:Ec; [done|] end; try lia.
Qed.

Lemma u8_ok x : byte_ok (u8 x).
Proof. unfold byte_ok, u8. pose proof (Z.mod_pos_bound x 256). lia. Qed.

Lemma bcd8_ok x : byte_ok (pldm_bcd_dec2bcd8 x).
Proof. apply u8_ok. Qed.

Lemma bcd16_ok x : u16_ok (pldm_bcd_dec2bcd16 x).
Proof. unfold u16_ok, pldm_bcd_dec2bcd16, u16. pose proof (Z.mod_pos_bound (Z.lor (pldm_bcd_dec2bcd8 (u8 (x mod 100))) (Z.shiftl (pldm_bcd_dec2bcd8 (u8 (x / 100))) 8)) 65536). lia. Qed.

Section roundtrip.
Context (inst : Z) (msg : pldm_msg).
Hypothesis Hmem : mem_ok (payload msg).
Hypothesis Hi : 0 <= inst <= 31.

Definition date_time_ok (t : date_time) : Prop :=
  byte_ok (dt_seconds t) /\ byte_ok (dt_minutes t) /\ byte_ok (dt_hours t) /\ byte_ok (dt_day t) /\
  byte_ok (dt_month t) /\ u16_ok (dt_year t).

Definition get_time_carried : Prop :=
  forall t c0 t0, 8 <= mem_size (payload msg) -> date_time_ok t ->
  exists m, encode_get_date_time_resp inst PLDM_SUCCESS t (Some msg) = Ok (PLDM_SUCCESS, Some m) /\
    decode_get_date_time_resp (Some m) 8 (Some (c0, t0)) = Ok (PLDM_SUCCESS, Some (PLDM_SUCCESS, t)).

Lemma get_time_roundtrip : get_time_carried.
Proof.
  intros t c0 t0 Hs (? & ? & ? & ? & ? & ?). unfold encode_get_date_time_resp. send_members. eexists. split; [reflexivity|].
  unfold decode_get_date_time_resp. read_sent. cbn [Z.eqb Pos.eqb negb]. by destruct t.
Qed.


(** A time goes out in BCD, and comes back unless the year is too large for it. *)
Definition set_time_carried : Prop :=
  forall t t0, 7 <= mem_size (payload msg) -> date_time_ok t ->
  if legal t then
    exists m, encode_set_date_time_req inst t (Some msg) 7 = Ok (PLDM_SUCCESS, Some m) /\
      if dt_year t <? 16000 then decode_set_date_time_req (Some m) 7 (Some t0) = Ok (PLDM_SUCCESS, Some t)
      else exists rc t', decode_set_date_time_req (Some m) 7 (Some t0) = Ok (rc, Some t') /\ dt_year t' <> dt_year t
  else encode_set_date_time_req inst t (Some msg) 7 = Ok (PLDM_ERROR_INVALID_DATA, Some msg).

Lemma set_time_roundtrip : set_time_carried.
Proof.
  intros t t0 Hs (? & ? & ? & ? & ? & Hy). unfold encode_set_date_time_req. cbn [Z.eqb Pos.eqb negb].
  destruct (legal t) eqn:Hl; [cbn [negb]|done]. pose proof (legal_bounds t Hl) as Hb.
  pose proof (bcd8_ok (dt_seconds t)). pose proof (bcd8_ok (dt_minutes t)). pose proof (bcd8_ok (dt_hours t)).
  pose proof (bcd8_ok (dt_day t)). pose proof (bcd8_ok (dt_month t)). pose proof (bcd16_ok (dt_year t)).
  send_members. eexists. split; [reflexivity|].
  unfold decode_set_date_time_req. cbn [Z.eqb Pos.eqb negb]. read_sent. unfold byte_ok in *.
  rewrite !bcd_small by lia. pose proof (bcd_year (dt_year t) Hy) as Hyear. destruct (dt_year t <? 16000).
  - apply Z.eqb_eq in Hyear. rewrite Hyear. destruct t as [s mi h d mo y]. cbn [dt_seconds dt_minutes dt_hours dt_day dt_month dt_year] in *. by rewrite Hl.
  - apply Z.eqb_neq in Hyear. match goal with |- context [negb ?c] => destruct c end; do 2 eexists; (split; [reflexivity|done]).
Qed.

Definition set_time_resp_carried : Prop :=
  forall cc c0, 1 <= mem_size (payload msg) -> byte_ok cc ->
  exists m, encode_set_date_time_resp inst cc (Some msg) 1 = Ok (PLDM_SUCCESS, Some m) /\
    decode_set_date_time_resp (Some m) 1 (Some c0) = Ok (PLDM_SUCCESS, Some cc).

Lemma set_time_resp_roundtrip : set_time_resp_carried.
Proof.
  intros cc c0 Hs Hcc. unfold encode_set_date_time_resp. cbn [Z.eqb Pos.eqb negb]. send_members.
  eexists. split; [reflexivity|]. unfold decode_set_date_time_resp. read_sent. by destruct (cc =? 0).
Qed.

Definition bios_table_reqs_carried : Prop :=
  forall handle flag type attribute o0, 7 <= mem_size (payload msg) ->
  u32_ok handle -> byte_ok flag -> byte_ok type -> u16_ok attribute ->
  (exists m, encode_get_bios_table_req inst handle flag type (Some msg) = Ok (PLDM_SUCCESS, Some m) /\
    decode_get_bios_table_req (Some m) 6 (Some o0) = Ok (PLDM_SUCCESS, Some (handle, flag, type))) /\
  (exists m, encode_get_bios_attribute_current_value_by_handle_req inst handle flag attribute (Some msg) = Ok (PLDM_SUCCESS, Some m) /\
    decode_get_bios_attribute_current_value_by_handle_req (Some m) 7 (Some o0) = Ok (PLDM_SUCCESS, Some (handle, flag, attribute))).

Lemma bios_table_reqs_roundtrip : bios_table_reqs_carried.
Proof.
  intros handle flag type attribute o0 Hs ????. split.
  - unfold encode_get_bios_table_req. send_members. eexists. split; [reflexivity|].
    unfold decode_get_bios_table_req. cbn [Z.eqb Pos.eqb negb]. read_sent. done.
  - unfold encode_get_bios_attribute_current_value_by_handle_req. send_members. eexists. split; [reflexivity|].
    unfold decode_get_bios_attribute_current_value_by_handle_req. cbn [Z.eqb Pos.eqb negb]. read_sent. done.
Qed.

(** A table in a response; the length that the encoder takes has the header in it. *)
Definition bios_table_resp_carried : Prop :=
  forall next flag tbl a c0 n0 f0 o0,
  6 + len tbl <= mem_size (payload msg) -> u32_ok next -> byte_ok flag -> bytes_ok tbl -> 0 < len tbl ->
  exists m, encode_get_bios_table_resp inst PLDM_SUCCESS next flag (Some (CMem a tbl)) (3 + 6 + len tbl) (Some msg)
      = Ok (PLDM_SUCCESS, Some m) /\
    decode_get_bios_table_resp (Some m) (6 + len tbl) (Some (c0, n0, f0, o0))
    = Ok (PLDM_SUCCESS, Some (PLDM_SUCCESS, next, flag, 6)) /\
    lies (payload m) 6 tbl.

Lemma bios_table_resp_roundtrip : bios_table_resp_carried.
Proof.
  intros next flag tbl a c0 n0 f0 o0 Hs ? ? Hb Hn. unfold len in *. unfold encode_get_bios_table_resp.
  send_members. replace (9 <? 3 + 6 + Z.of_nat (length tbl)) with true by lia.
  replace (3 + 6 + Z.of_nat (length tbl) - 9) with (Z.of_nat (length tbl)) by lia. send_members.
  eexists. split; [reflexivity|]. unfold decode_get_bios_table_resp. replace (_ <=? 6) with false by lia.
  read_sent. split; [done|]. cbn [payload]. split; [lia|]. eexists. cbn [bytes le_enc app]. reflexivity.
Qed.

Definition get_value_carried : Prop :=
  forall next flag data a c0 n0 f0 v0, 6 + len data <= mem_size (payload msg) -> 0 < len data ->
  u32_ok next -> byte_ok flag -> bytes_ok data ->
  exists m f, encode_get_bios_current_value_by_handle_resp inst PLDM_SUCCESS next flag (Some (CMem a data)) (len data) (Some msg)
      = Ok (PLDM_SUCCESS, Some m) /\
    decode_get_bios_attribute_current_value_by_handle_resp (Some m) (6 + len data) (Some (c0, n0, f0, v0))
    = Ok (PLDM_SUCCESS, Some (PLDM_SUCCESS, next, flag, f)) /\ points_to f data.

Lemma get_value_roundtrip : get_value_carried.
Proof.
  intros next flag data a c0 n0 f0 v0 Hs Hn ? ? Hd. unfold len in *. unfold encode_get_bios_current_value_by_handle_resp.
  send_members. do 2 eexists. split; [reflexivity|]. unfold decode_get_bios_attribute_current_value_by_handle_resp.
  replace (_ <=? 6) with false by lia. replace (6 + Z.of_nat (length data) - 7 + 1) with (Z.of_nat (length data)) by lia.
  read_sent. split; [reflexivity|]. points_here.
Qed.

(** A value and a table that are set: neither is copied by the decoder. *)
Definition set_value_carried : Prop :=
  forall handle flag data a o0, 5 + len data <= mem_size (payload msg) ->
  u32_ok handle -> byte_ok flag -> bytes_ok data ->
  exists m f, encode_set_bios_attribute_current_value_req inst handle flag (Some (CMem a data)) (len data) (Some msg) (5 + len data)
      = Ok (PLDM_SUCCESS, Some m) /\
    decode_set_bios_attribute_current_value_req (Some m) (5 + len data) (Some o0)
    = Ok (PLDM_SUCCESS, Some (handle, flag, f)) /\ points_to f data.

Lemma set_value_roundtrip : set_value_carried.
Proof.
  intros handle flag data a o0 Hs ? ? Hd. unfold len in *. unfold encode_set_bios_attribute_current_value_req.
  replace (5 + _ <? 5) with false by lia. replace (_ <? Z.of_nat _) with false by lia.
  send_members. do 2 eexists. split; [reflexivity|]. unfold decode_set_bios_attribute_current_value_req.
  replace (5 + _ <? 5) with false by lia. replace (5 + Z.of_nat (length data) - 5) with (Z.of_nat (length data)) by lia.
  read_sent. split; [reflexivity|]. points_here.
Qed.

Definition set_table_carried : Prop :=
  forall handle flag type data a o0, 6 + len data <= mem_size (payload msg) ->
  u32_ok handle -> byte_ok flag -> byte_ok type -> bytes_ok data ->
  exists m f, encode_set_bios_table_req inst handle flag type (Some (CMem a data)) (len data) (Some msg) (6 + len data)
      = Ok (PLDM_SUCCESS, Some m) /\
    decode_set_bios_table_req (Some m) (6 + len data) (Some o0)
    = Ok (PLDM_SUCCESS, Some (handle, flag, type, f)) /\ points_to f data.

Lemma set_table_roundtrip : set_table_carried.
Proof.
  intros handle flag type data a o0 Hs ? ? ? Hd. unfold len in *. unfold encode_set_bios_table_req.
  replace (6 + _ <? 6) with false by lia. replace (6 + _ - 6) with (Z.of_nat (length data)) by lia. rewrite !Z.ltb_irrefl.
  send_members. do 2 eexists. split; [reflexivity|]. unfold decode_set_bios_table_req.
  replace (6 + _ <? 6) with false by lia. replace (6 + Z.of_nat (length data) - 6) with (Z.of_nat (length data)) by lia.
  read_sent. split; [reflexivity|]. points_here.
Qed.

(** A response of a completion code and a handle: an error comes back without the handle. *)
Definition next_handle_carried (encode : Z -> Z -> Z -> option pldm_msg -> outcome (Z * option pldm_msg))
    (decode : option pldm_msg -> Z -> option (Z * Z) -> outcome (Z * option (Z * Z))) : Prop :=
  forall cc next c0 n0, 5 <= mem_size (payload msg) -> byte_ok cc -> u32_ok next ->
  exists m, encode inst cc next (Some msg) = Ok (PLDM_SUCCESS, Some m) /\
    decode (Some m) 5 (Some (c0, n0)) = Ok (PLDM_SUCCESS, Some (cc, if cc =? PLDM_SUCCESS then next else n0)).

Lemma next_handle_roundtrip command :
  command = PLDM_SET_BIOS_ATTRIBUTE_CURRENT_VALUE \/ command = PLDM_SET_BIOS_TABLE ->
  next_handle_carried (encode_next_handle_resp command) decode_next_handle_resp.
Proof.
  intros Hc cc next c0 n0 Hs ? ?. unfold encode_next_handle_resp.
  destruct Hc as [-> | ->]; send_members; eexists; (split; [reflexivity|]);
    unfold decode_next_handle_resp; read_sent; by destruct (cc =? 0).
Qed.
End roundtrip.

(** C35: What the encoders of BIOS control messages write, the decoders read: the date
    and time of a response, that of a request, which travels in BCD, and is refused
    before it is sent if it is no date; the requests for a table and for a value; a
    table, a value, and the table or value that is set, at the place that the decoder
    gives and with their length; the completion codes and handles of the answers.  The
    years of a legal date are not bounded: from 16000 on they do not fit the four digits
    of BCD and come back as another year. *)
Theorem bios_messages_roundtrip inst msg :
  mem_ok (payload msg) -> 0 <= inst <= 31 ->
  get_time_carried inst msg /\ set_time_carried inst msg /\ set_time_resp_carried inst msg /\
  bios_table_reqs_carried inst msg /\ bios_table_resp_carried inst msg /\ get_value_carried inst msg /\
  set_value_carried inst msg /\ set_table_carried inst msg /\
  next_handle_carried inst msg encode_set_bios_attribute_current_value_resp decode_set_bios_attribute_current_value_resp /\
  next_handle_carried inst msg encode_set_bios_table_resp decode_set_bios_table_resp.
Proof.
  intros. split_and!; [by apply get_time_roundtrip|by apply set_time_roundtrip|by apply set_time_resp_roundtrip
    |by apply bios_table_reqs_roundtrip|by apply bios_table_resp_roundtrip|by apply get_value_roundtrip|by apply set_value_roundtrip
    |by apply set_table_roundtrip|apply next_handle_roundtrip; auto..].
Qed.

(** A date of the year 16000 is legal, and arrives as the first day of another year. *)
Lemma bios_messages_roundtrip_witness :
  let msg := Msg (MsgHdr 0 0 0 0 0 0 0) (CMem 4096 (replicate 8 9)) in
  let t := DateTime 30 59 23 28 2 2024 in
  let t' := DateTime 0 0 0 1 1 16000 in
  (exists m, encode_set_date_time_req 5 t (Some msg) 7 = Ok (PLDM_SUCCESS, Some m) /\
    bytes (payload m) = [0x30; 0x59; 0x23; 0x28; 0x02; 0x24; 0x20; 9] /\
    decode_set_date_time_req (Some m) 7 (Some t') = Ok (PLDM_SUCCESS, Some t)) /\
  exists m rc t2, encode_set_date_time_req 5 t' (Some msg) 7 = Ok (PLDM_SUCCESS, Some m) /\
    decode_set_date_time_req (Some m) 7 (Some t) = Ok (rc, Some t2) /\ dt_year t2 <> 16000.
Proof.
  destruct (bios_messages_roundtrip 5 (Msg (MsgHdr 0 0 0 0 0 0 0) (CMem 4096 (replicate 8 9)))
    ltac:(concrete) ltac:(lia)) as (_ & H & _).
  split.
  - specialize (H (DateTime 30 59 23 28 2 2024) (DateTime 0 0 0 1 1 16000)).
    destruct H as (m & E & D); [by vm_compute|by vm_compute|].
    exists m. split; [exact E|]. split; [|exact D]. vm_compute in E. injection E as <-. reflexivity.
  - specialize (H (DateTime 0 0 0 1 1 16000) (DateTime 30 59 23 28 2 2024)).
    destruct H as (m & E & rc & t2 & D & Hy); [by vm_compute|by vm_compute|].
    exists m, rc, t2. split; [exact E|]. split; [exact D|exact Hy].
Defined.
