(* ===== verification/BiosSpec.v ===== *)
(** * What BIOS tables are

    The entries of the three tables as data, their layout in bytes, and what a table
    is: the entries one after the other, padding and the checksum.  One interface, a
    class, says what the iterator of BiosTable.v relies on: how the length of an entry
    is found in its bytes. *)

From S2P Require Import Prelude Msgbuf Layout Edac Base BiosTable.

(** ** Entries *)

Record bios_string := BString { bs_handle : Z; bs_name : list Z }.

Inductive attr_kind :=
  | AEnum (values defaults : list Z)
  | AString (type min max : Z) (default : list Z)
  | AInteger (lower upper increment default : Z).

Record attr := Attr { a_handle : Z; a_read_only : bool; a_name : Z; a_kind : attr_kind }.

Inductive value_kind :=
  | VEnum (indices : list Z)
  | VString (text : list Z)
  | VInteger (value : Z).

Record value := Value { v_handle : Z; v_read_only : bool; v_kind : value_kind }.

(** ** Layout *)

Definition string_bytes (s : bios_string) : list Z :=
  le_enc 2 (bs_handle s) ++ le_enc 2 (len (bs_name s)) ++ bs_name s.

Definition type_code (read_only : bool) (code : Z) : Z := if read_only then 0x80 + code else code.

Definition attr_type (a : attr) : Z :=
  type_code (a_read_only a)
    (match a_kind a with AEnum _ _ => 0 | AString _ _ _ _ => 1 | AInteger _ _ _ _ => 3 end).

Definition metadata_bytes (k : attr_kind) : list Z :=
  match k with
  | AEnum values defaults =>
      le_enc 1 (len values) ++ concat (le_enc 2 <$> values) ++ le_enc 1 (len defaults) ++ defaults
  | AString type min max text =>
      le_enc 1 type ++ le_enc 2 min ++ le_enc 2 max ++ le_enc 2 (len text) ++ text
  | AInteger lower upper increment default =>
      le_enc 8 lower ++ le_enc 8 upper ++ le_enc 4 increment ++ le_enc 8 default
  end.

Definition attr_bytes (a : attr) : list Z :=
  le_enc 2 (a_handle a) ++ le_enc 1 (attr_type a) ++ le_enc 2 (a_name a) ++ metadata_bytes (a_kind a).

Definition value_type (v : value) : Z :=
  type_code (v_read_only v) (match v_kind v with VEnum _ => 0 | VString _ => 1 | VInteger _ => 3 end).

Definition value_body (k : value_kind) : list Z :=
  match k with
  | VEnum indices => le_enc 1 (len indices) ++ indices
  | VString text => le_enc 2 (len text) ++ text
  | VInteger v => le_enc 8 v
  end.

Definition value_bytes (v : value) : list Z :=
  le_enc 2 (v_handle v) ++ le_enc 1 (value_type v) ++ value_body (v_kind v).

(** ** Entries that have a layout *)

Definition word (n : nat) (v : Z) : Prop := 0 <= v < 256 ^ Z.of_nat n.

Definition string_ok (s : bios_string) : Prop :=
  word 2 (bs_handle s) /\ 1 <= len (bs_name s) < 65536 /\ bytes_ok (bs_name s).

(** What the checks of the encoders ask for, apart from the fields' widths. *)
Definition string_info_ok (type min max : Z) (n : Z) : Prop :=
  min <= n <= max /\ (type <= 5 \/ type = 255).

Definition integer_info_ok (lower upper increment default : Z) : Prop :=
  lower <= default <= upper /\
  (lower = upper -> increment = 0) /\
  (lower <> upper -> increment <> 0 /\ (default - lower) mod increment = 0).

Definition kind_ok (k : attr_kind) : Prop :=
  match k with
  | AEnum values defaults =>
      len values < 256 /\ Forall (word 2) values /\ len defaults < 256 /\ bytes_ok defaults
  | AString type min max text =>
      word 1 type /\ word 2 min /\ word 2 max /\ len text < 65536 /\ bytes_ok text
  | AInteger lower upper increment default =>
      word 8 lower /\ word 8 upper /\ word 4 increment /\ word 8 default
  end.

Definition attr_ok (a : attr) : Prop := word 2 (a_handle a) /\ word 2 (a_name a) /\ kind_ok (a_kind a).

Definition value_ok (v : value) : Prop :=
  word 2 (v_handle v) /\
  match v_kind v with
  | VEnum indices => len indices < 256 /\ bytes_ok indices
  | VString text => len text < 65536 /\ bytes_ok text
  | VInteger v => word 8 v
  end.

(** ** Tables *)

Class BiosEntry (E : Type) := {
  entry_table : pldm_bios_table_types;
  entry_bytes : E -> list Z;
  entry_ok : E -> Prop;
  (** The handler of the entry's table finds the length in the entry's bytes. *)
  entry_length_exact : forall p e,
    entry_ok e -> lies p 0 (entry_bytes e) -> table_entry_length_of entry_table p = Ok (len (entry_bytes e));
  entry_size : forall e, entry_ok e -> 4 <= len (entry_bytes e) < 131072;
  entry_bytes_ok : forall e, entry_ok e -> bytes_ok (entry_bytes e)
}.

Section table.
Context {E : Type} `{BiosEntry E}.

Definition entries_bytes (es : list E) : list Z := concat (entry_bytes <$> es).

(** Zeros up to a multiple of four. *)
Definition padded (l : list Z) : list Z := l ++ replicate (Z.to_nat (pad_size_get (len l))) 0.

Definition sealed (l : list Z) : list Z := padded l ++ le_enc 4 (crc32_ref 0 (padded l)).

Definition table_bytes (es : list E) : list Z := sealed (entries_bytes es).
End table.

(** ** Entries through the functions of the component, by kind *)

(** Encode [a] with the handle that comes next. *)
Definition encode_attr (entry : option cmem) (entry_length : Z) (a : attr) (text : option cmem)
  : stM Z (Z * option cmem) :=
  match a_kind a with
  | AEnum values defaults =>
      pldm_bios_table_attr_entry_enum_encode entry entry_length
        (Some (EnumInfo (a_name a) (a_read_only a) (len values) values (len defaults) defaults))
  | AString type min max t =>
      pldm_bios_table_attr_entry_string_encode entry entry_length
        (Some (StringInfo (a_name a) (a_read_only a) type min max (len t) text))
  | AInteger lower upper increment default =>
      pldm_bios_table_attr_entry_integer_encode entry entry_length
        (Some (IntegerInfo (a_name a) (a_read_only a) lower upper increment default))
  end.

(** The zeros an array has room for, of which [n] get used. *)
Definition room (n : Z) : list Z := replicate (Z.to_nat n) 0.

Definition decode_string (e : cmem) : outcome (option bios_string) :=
  handle ← pldm_bios_table_string_entry_decode_handle e;
  n ← pldm_bios_table_string_entry_decode_string_length e;
  '(rc, text) ← pldm_bios_table_string_entry_decode_string (Some e) (Some (CMem 0 (room 65536))) 65536;
  mret (match text with
        | Some b => if rc =? 0 then Some (BString handle (take (Z.to_nat n) (bytes b))) else None
        | None => None
        end).

(** Read an entry with the decoders for its type; 256 elements is room enough. *)
Definition decode_attr (e : cmem) : outcome (option attr) :=
  handle ← pldm_bios_table_attr_entry_decode_attribute_handle e;
  type ← pldm_bios_table_attr_entry_decode_attribute_type e;
  name ← pldm_bios_table_attr_entry_decode_string_handle e;
  let read_only := 0x80 <=? type in
  match Z.land type 0x7f with
  | 0 =>
      '(rc, n) ← pldm_bios_table_attr_entry_enum_decode_pv_num (Some e) (Some 0);
      '(rc', hs) ← pldm_bios_table_attr_entry_enum_decode_pv_hdls (Some e) (Some (room 256)) 255;
      '(count, defs) ← pldm_bios_table_attr_entry_enum_decode_def_indices e (CMem 0 (room 256)) 255;
      mret (if (rc =? 0) && (rc' =? 0)
            then Some (Attr handle read_only name
                   (AEnum (take (Z.to_nat (default 0 n)) (default [] hs)) (take (Z.to_nat count) (bytes defs))))
            else None)
  | 1 =>
      t ← pldm_bios_table_attr_entry_string_decode_string_type e;
      min ← pldm_bios_table_attr_entry_string_decode_min_length e;
      max ← pldm_bios_table_attr_entry_string_decode_max_length e;
      '(n, text) ← pldm_bios_table_attr_entry_string_decode_def_string (Some e) (Some (CMem 0 (room 65536))) 65536;
      mret (match text with
            | Some b => Some (Attr handle read_only name (AString t min max (take (Z.to_nat n) (bytes b))))
            | None => None
            end)
  | 3 =>
      '(lower, upper, increment, def) ← pldm_bios_table_attr_entry_integer_decode e;
      mret (Some (Attr handle read_only name (AInteger lower upper increment def)))
  | _ => mret None
  end.

Definition encode_value (entry : option cmem) (entry_length : Z) (v : value) (data : cmem)
  : outcome (Z * option cmem) :=
  match v_kind v with
  | VEnum indices =>
      pldm_bios_table_attr_value_entry_encode_enum entry entry_length (v_handle v) (value_type v) (len indices)
        (Some data)
  | VString text =>
      pldm_bios_table_attr_value_entry_encode_string entry entry_length (v_handle v) (value_type v) (len text)
        (Some data)
  | VInteger n =>
      pldm_bios_table_attr_value_entry_encode_integer entry entry_length (v_handle v) (value_type v) n
  end.

Definition decode_value (e : cmem) : outcome (option value) :=
  handle ← pldm_bios_table_attr_value_entry_decode_attribute_handle e;
  type ← pldm_bios_table_attr_value_entry_decode_attribute_type e;
  let read_only := 0x80 <=? type in
  match Z.land type 0x7f with
  | 0 =>
      '(n, hs) ← pldm_bios_table_attr_value_entry_enum_decode_handles e (CMem 0 (room 256)) 255;
      mret (Some (Value handle read_only (VEnum (take (Z.to_nat n) (bytes hs)))))
  | 1 =>
      f ← pldm_bios_table_attr_value_entry_string_decode_string e;
      text ← (match vf_ptr f with Some p => mem_read p 0 (vf_length f) | None => mret [] end);
      mret (Some (Value handle read_only (VString text)))
  | 3 =>
      n ← pldm_bios_table_attr_value_entry_integer_decode_cv e;
      mret (Some (Value handle read_only (VInteger n)))
  | _ => mret None
  end.
