(* ===== verification/BiosProps.v ===== *)
(** * The entries of BIOS tables

    The three instances of the interface the iterator relies on, the round trips of the
    encoders and decoders, and the checks of the encoders. *)

From S2P Require Import Prelude Msgbuf Layout Edac Base BiosTable BiosSpec.

(** ** Lengths of entries *)

Lemma as_ssize_small n : n <= SSIZE_MAX -> as_ssize n = n.
Proof. intros. unfold as_ssize. by replace (SSIZE_MAX <? n) with false by lia. Qed.

Lemma word_bound n v : word n v -> 0 <= v < 256 ^ Z.of_nat n.
Proof. done. Qed.

Lemma type_code_range ro c : 0 <= c < 4 -> 0 <= type_code ro c < 256.
Proof. unfold type_code. destruct ro; lia. Qed.

Lemma attr_type_range a : 0 <= attr_type a < 256.
Proof. apply type_code_range. destruct (a_kind a); lia. Qed.

Lemma value_type_range v : 0 <= value_type v < 256.
Proof. apply type_code_range. destruct (v_kind v); lia. Qed.

Lemma handles_len values : len (concat (le_enc 2 <$> values)) = 2 * len values.
Proof.
  induction values as [|v values IH]; [done|]. cbn [fmap list_fmap concat]. rewrite len_app, len_le_enc, len_cons.
  cbn [fmap] in IH. lia.
Qed.

Lemma concat_bytes_ok {A} (f : A -> list Z) l : (forall x, x ∈ l -> bytes_ok (f x)) -> bytes_ok (concat (f <$> l)).
Proof.
  intros Hf. induction l as [|x l IH]; [by constructor|]. cbn [fmap list_fmap concat].
  apply list.Forall_app. split; [apply Hf; left|]. apply IH. intros y Hy. apply Hf. by right.
Qed.

#[export] Hint Resolve le_enc_ok : bytes.

(** A concatenation of fields and byte strings. *)
Ltac bytes := repeat (apply list.Forall_app; split); auto with bytes; try (apply concat_bytes_ok; auto with bytes).

#[export] Program Instance string_entry : BiosEntry bios_string := {|
  entry_table := PLDM_BIOS_STRING_TABLE;
  entry_bytes := string_bytes;
  entry_ok := string_ok
|}.
Next Obligation.
  intros p [h name] (Hh & Hn & _) Hl. unfold string_bytes in *. cbn [bs_handle bs_name] in *.
  rewrite !len_app, !len_le_enc. pieces Hl. cbn [table_entry_length_of]. unfold string_table_entry_length,
    pldm_bios_table_string_entry_decode_string_length. read_piece. rewrite as_ssize_small by lia. f_equal. lia.
Qed.
Next Obligation.
  intros [h name] (_ & Hn & _). unfold string_bytes. rewrite !len_app, !len_le_enc. cbn in *. lia.
Qed.
Next Obligation. intros [h name] (_ & _ & Hn). unfold string_bytes. bytes. Qed.

Lemma metadata_size k : kind_ok k -> 2 <= len (metadata_bytes k) < 131000.
Proof.
  destruct k as [vs ds|t mn mx s|]; cbn [kind_ok metadata_bytes]; intros Hk;
    rewrite !len_app, ?handles_len, !len_le_enc; [| |cbn; lia].
  - destruct Hk as (? & _ & ? & _). pose proof (len_nonneg vs). pose proof (len_nonneg ds). lia.
  - destruct Hk as (_ & _ & _ & ? & _). pose proof (len_nonneg s). lia.
Qed.

Lemma expect_type ro c : (c = 0 \/ c = 1 \/ c = 3) -> ATTR_TYPE_EXPECT (type_code ro c) c = true.
Proof. intros [-> | [-> | ->]]; by destruct ro. Qed.

(** The number of defaults is behind the values. *)
Lemma enum_def_num p h ro name vs ds :
  lies p 0 (attr_bytes (Attr h ro name (AEnum vs ds))) -> len vs < 256 -> len ds < 256 ->
  pldm_bios_table_attr_entry_enum_decode_def_num (Some p) (Some 0) = Ok (PLDM_SUCCESS, Some (len ds)).
Proof.
  intros Hl Hv Hd. pose proof (attr_type_range (Attr h ro name (AEnum vs ds))) as Ht.
  unfold attr_bytes in Hl. cbn [metadata_bytes a_kind a_name a_handle] in Hl. pieces Hl.
  rewrite handles_len in *. pose proof (len_nonneg vs). pose proof (len_nonneg ds).
  unfold pldm_bios_table_attr_entry_enum_decode_def_num. repeat read_piece.
  unfold attr_type. cbn [a_read_only a_kind]. rewrite expect_type by auto. reflexivity.
Qed.

Lemma string_def_length p h ro name t mn mx s :
  lies p 0 (attr_bytes (Attr h ro name (AString t mn mx s))) -> len s < 65536 ->
  pldm_bios_table_attr_entry_string_decode_def_string_length (Some p) (Some 0) = Ok (PLDM_SUCCESS, Some (len s)).
Proof.
  intros Hl Hs. pose proof (attr_type_range (Attr h ro name (AString t mn mx s))) as Ht.
  unfold attr_bytes in Hl. cbn [metadata_bytes a_kind a_name a_handle] in Hl. pieces Hl. pose proof (len_nonneg s).
  unfold pldm_bios_table_attr_entry_string_decode_def_string_length. repeat read_piece.
  unfold attr_type. cbn [a_read_only a_kind]. rewrite expect_type by auto. reflexivity.
Qed.

Lemma find_attr_length ro k :
  find_table_entry_length_by_type (attr_type (Attr 0 ro 0 k)) attr_table_entries
  = Some (attr_type (Attr 0 ro 0 k),
          match k with AEnum _ _ => attr_table_entry_length_enum | AString _ _ _ _ => attr_table_entry_length_string
          | AInteger _ _ _ _ => attr_table_entry_length_integer end).
Proof. by destruct k, ro. Qed.

#[export] Program Instance attr_entry : BiosEntry attr := {|
  entry_table := PLDM_BIOS_ATTR_TABLE;
  entry_bytes := attr_bytes;
  entry_ok := attr_ok
|}.
Next Obligation.
  intros p [h ro name k] (Hh & Hname & Hk) Hl. cbn [a_handle a_name a_kind] in *.
  pose proof (attr_type_range (Attr h ro name k)) as Ht. pose proof (metadata_size k Hk) as Hs.
  pose proof Hl as Hall. unfold attr_bytes in Hl |- *. rewrite !len_app, !len_le_enc. cbn [a_kind a_name a_handle] in *.
  cbn [table_entry_length_of]. unfold attr_table_entry_length.
  do 3 (apply lies_app in Hl as [?P Hl]; rewrite ?len_le_enc in Hl).
  change (Z.of_nat 2) with 2 in *. change (Z.of_nat 1) with 1 in *. read_piece.
  rewrite (find_attr_length ro k : find_table_entry_length_by_type (attr_type (Attr h ro name k)) _ = _).
  cbn [snd]. destruct k as [vs ds|t mn mx s|]; cbn [kind_ok metadata_bytes] in *.
  - destruct Hk as (Hv & _ & Hd & _). unfold attr_table_entry_length_enum.
    pose proof (enum_def_num _ _ _ _ _ _ Hall Hv Hd) as E. pieces Hl. rewrite handles_len in *. pose proof (len_nonneg vs).
    read_piece. rewrite E. cbn [mbind outcome_bind mret outcome_ret default].
    unfold pldm_bios_table_attr_entry_enum_encode_length. rewrite !len_app, handles_len, !len_le_enc in *.
    cbn [from_option id] in *. rewrite as_ssize_small by lia. f_equal. lia.
  - destruct Hk as (_ & _ & _ & Hd & _). unfold attr_table_entry_length_string.
    rewrite (string_def_length _ _ _ _ _ _ _ _ Hall Hd). cbn [mbind outcome_bind mret outcome_ret].
    unfold pldm_bios_table_attr_entry_string_encode_length. rewrite !len_app, !len_le_enc in *. cbn [from_option id] in *.
    rewrite as_ssize_small by lia. f_equal. lia.
  - reflexivity.
Qed.
Next Obligation.
  intros [h ro name k] (_ & _ & Hk). pose proof (metadata_size _ Hk). unfold attr_bytes.
  rewrite !len_app, !len_le_enc. cbn [a_kind] in *. lia.
Qed.
Next Obligation.
  intros [h ro name k] (_ & _ & Hk). unfold attr_bytes. bytes. destruct k; cbn [kind_ok metadata_bytes a_kind] in *.
  - destruct Hk as (_ & _ & _ & Hd). bytes.
  - destruct Hk as (_ & _ & _ & _ & Hs). bytes.
  - bytes.
Qed.

Lemma value_body_size k :
  match k with VEnum i => len i < 256 | VString s => len s < 65536 | VInteger _ => True end ->
  1 <= len (value_body k) < 66000 /\
  (match k with VEnum i => 1 + len i | VString s => 2 + len s | VInteger _ => 8 end) = len (value_body k).
Proof.
  destruct k as [i|s|v]; cbn [value_body]; rewrite ?len_app, !len_le_enc; intros;
    [pose proof (len_nonneg i)|pose proof (len_nonneg s)|]; lia.
Qed.

Lemma find_value_length ro k :
  find_table_entry_length_by_type (value_type (Value 0 ro k)) attr_value_table_entries
  = Some (value_type (Value 0 ro k),
          match k with VEnum _ => attr_value_table_entry_length_enum | VString _ => attr_value_table_entry_length_string
          | VInteger _ => attr_value_table_entry_length_integer end).
Proof. by destruct k, ro. Qed.

Lemma value_length p v :
  value_ok v -> lies p 0 (value_bytes v) -> attr_value_table_entry_length p = Ok (len (value_bytes v)).
Proof.
  destruct v as [h ro k]. intros (Hh & Hk) Hl. cbn [v_handle v_kind] in *.
  pose proof (value_type_range (Value h ro k)) as Ht. unfold value_bytes in *.
  rewrite !len_app, !len_le_enc. cbn [v_kind v_handle] in *. unfold attr_value_table_entry_length.
  do 2 (apply lies_app in Hl as [?P Hl]; rewrite ?len_le_enc in Hl).
  change (Z.of_nat 2) with 2 in *. change (Z.of_nat 1) with 1 in *. read_piece.
  rewrite (find_value_length ro k : find_table_entry_length_by_type (value_type (Value h ro k)) _ = _).
  cbn [snd]. destruct k as [i|s|v]; cbn [value_body] in *.
  - destruct Hk as [Hi _]. pose proof (len_nonneg i). pieces Hl.
    unfold attr_value_table_entry_length_enum, pldm_bios_table_attr_value_entry_enum_decode_number. read_piece.
    unfold pldm_bios_table_attr_value_entry_encode_enum_length. rewrite !len_app, !len_le_enc, as_ssize_small by lia.
    f_equal. lia.
  - destruct Hk as [Hi _]. pose proof (len_nonneg s). pieces Hl.
    unfold attr_value_table_entry_length_string, pldm_bios_table_attr_value_entry_string_decode_length. read_piece.
    unfold pldm_bios_table_attr_value_entry_encode_string_length. rewrite !len_app, !len_le_enc, as_ssize_small by lia.
    f_equal. lia.
  - reflexivity.
Qed.

#[export] Program Instance value_entry : BiosEntry value := {|
  entry_table := PLDM_BIOS_ATTR_VAL_TABLE;
  entry_bytes := value_bytes;
  entry_ok := value_ok
|}.
Next Obligation. intros p e He Hl. by apply value_length. Qed.
Next Obligation.
  intros [h ro k] (_ & Hk). unfold value_bytes. rewrite !len_app, !len_le_enc. cbn [v_kind] in *.
  destruct k as [i|s|v]; [destruct Hk as [Hk _]|destruct Hk as [Hk _]|];
    cbn [value_body]; rewrite ?len_app, !len_le_enc; [pose proof (len_nonneg i)|pose proof (len_nonneg s)|]; lia.
Qed.
Next Obligation.
  intros [h ro k] (_ & Hk). unfold value_bytes. bytes.
  destruct k as [i|s|v]; cbn [v_kind value_body] in *; try destruct Hk; bytes.
Qed.

(** ** Encoding *)

Lemma next_handle h : 0 <= h < 65535 -> get_bios_handle h = Ok ((PLDM_SUCCESS, h), h + 1).
Proof. intros. unfold get_bios_handle. by replace (h =? UINT16_MAX) with false by lia. Qed.

Lemma string_encode ad old n str name h :
  0 <= h < 65535 -> 1 <= len name < 65536 -> lies str 0 name ->
  4 + len name <= n -> 4 + len name <= len old -> n <= SIZE_MAX ->
  pldm_bios_table_string_entry_encode (Some (CMem ad old)) n (Some str) (len name) h
  = Ok ((PLDM_SUCCESS, Some (CMem ad (string_bytes (BString h name) ++ drop (length (string_bytes (BString h name))) old))),
        h + 1).
Proof.
  intros Hh Hn Hs Hfit Hold Hsz. unfold pldm_bios_table_string_entry_encode,
    pldm_bios_table_string_entry_encode_length.
  replace (len name =? 0) with false by lia. replace (n <? 5 - 1 + len name) with false by lia.
  unfold u64. rewrite (Z.mod_small (n - (5 - 1))) by lia. replace (n - (5 - 1) <? len name) with false by lia.
  erewrite bind_ok by (apply next_handle; lia). cbn [Z.eqb].
  do 4 (erewrite lift_ok; [|first [by apply (mem_read_lies _ _ _ Hs) | by write_piece]]).
  unfold string_bytes. cbn [bs_handle bs_name]. by rewrite <- !app_assoc.
Qed.

Definition attr_header (h t name : Z) : list Z := le_enc 2 h ++ le_enc 1 t ++ le_enc 2 name.

Lemma attr_header_encode ad old n t name h :
  0 <= h < 65535 -> 0 <= t < 256 -> 6 <= n -> 5 <= len old ->
  attr_table_entry_encode_header (CMem ad old) n t name h
  = Ok ((PLDM_SUCCESS, CMem ad (attr_header h t name ++ drop (length (attr_header h t name)) old)), h + 1).
Proof.
  intros Hh Ht Hn Hold. unfold attr_table_entry_encode_header. replace (n <? 6) with false by lia.
  erewrite bind_ok by (apply next_handle; lia). cbn [Z.eqb]. rewrite <- (le_enc_1 t) by done.
  do 3 (erewrite lift_ok; [|by write_piece]). unfold attr_header. by rewrite <- !app_assoc.
Qed.

Lemma attr_header_len h t name : len (attr_header h t name) = 5.
Proof. done. Qed.

Lemma put_handles_ok ad old vs pre :
  len pre + 2 * len vs <= len old ->
  put_handles vs (length vs) (len pre) (CMem ad (pre ++ drop (length pre) old))
  = Ok (CMem ad ((pre ++ concat (le_enc 2 <$> vs)) ++ drop (length (pre ++ concat (le_enc 2 <$> vs))) old)).
Proof.
  revert pre. induction vs as [|v vs IH]; intros pre Hl; cbn [put_handles length fmap list_fmap concat].
  - by rewrite app_nil_r.
  - rewrite len_cons in Hl. pose proof (len_nonneg vs).
    rewrite (mem_write_at ad (len pre) pre (le_enc 2 v) old) by (rewrite ?len_le_enc; lia). cbn [mbind outcome_bind].
    replace (len pre + 2) with (len (pre ++ le_enc 2 v)) by (rewrite len_app, len_le_enc; lia).
    rewrite IH by (rewrite len_app, len_le_enc; lia). cbn [fmap]. by rewrite (app_assoc pre).
Qed.

Lemma array_read_all l : array_read l (len l) = Ok l.
Proof. unfold array_read. rewrite Z.leb_refl. unfold len. by rewrite Nat2Z.id, take_ge by lia. Qed.

(** What an encoder leaves: the entry in front, the rest of the buffer untouched. *)
Definition encoded (ad : Z) (l old : list Z) : cmem := CMem ad (l ++ drop (length l) old).

(** The default string of [a], where it has one, is the C string that is passed. *)
Definition text_given (a : attr) (text : option cmem) : Prop :=
  match a_kind a with
  | AString _ _ _ t =>
      match text with Some s => lies s 0 (t ++ [0]) /\ Forall (fun b => b <> 0) t | None => t = [] end
  | _ => True
  end.

Definition info_ok (k : attr_kind) : Prop :=
  match k with
  | AEnum _ _ => True
  | AString type min max t => string_info_ok type min max (len t)
  | AInteger lower upper increment default => integer_info_ok lower upper increment default
  end.

Lemma enum_encode ad old n ro name vs ds h :
  0 <= h < 65535 -> kind_ok (AEnum vs ds) ->
  let l := attr_bytes (Attr h ro name (AEnum vs ds)) in
  len l <= n -> len l <= len old ->
  encode_attr (Some (CMem ad old)) n (Attr h ro name (AEnum vs ds)) None h
  = Ok ((PLDM_SUCCESS, Some (encoded ad l old)), h + 1).
Proof.
  intros Hh (Hv & _ & Hd & _) l Hn Hold. pose proof (len_nonneg vs). pose proof (len_nonneg ds).
  pose proof (attr_type_range (Attr h ro name (AEnum vs ds))) as Ht.
  assert (len l = 5 + (1 + (2 * len vs + (1 + len ds)))) as El.
  { unfold l, attr_bytes. cbn [metadata_bytes a_kind]. rewrite !len_app, handles_len, !len_le_enc. lia. }
  unfold encode_attr. cbn [a_kind a_name a_read_only]. unfold pldm_bios_table_attr_entry_enum_encode.
  cbn [pv_num def_num ei_read_only ei_name_handle pv_handle def_index].
  unfold pldm_bios_table_attr_entry_enum_encode_length. replace (n <? _) with false by lia.
  change (if ro then 0x80 else 0) with (attr_type (Attr h ro name (AEnum vs ds))).
  erewrite bind_ok by (apply attr_header_encode; lia). cbn [Z.eqb]. fold (len vs).
  set (hd := attr_header _ _ _). assert (len hd = 5) as Eh by apply attr_header_len.
  rewrite <- (le_enc_1 (len vs)), <- (le_enc_1 (len ds)) by lia.
  erewrite lift_ok; [|by write_piece].
  erewrite lift_ok; [|unfold len at 1; rewrite Nat2Z.id; replace (5 + 1) with (len (hd ++ le_enc 1 (len vs)))
    by (rewrite len_app, len_le_enc; lia); apply put_handles_ok; rewrite len_app, len_le_enc; lia].
  erewrite lift_ok; [|rewrite (mem_write_at ad); [reflexivity|rewrite !len_app, handles_len, !len_le_enc; lia..]].
  erewrite lift_ok; [|apply array_read_all].
  erewrite lift_ok; [|rewrite (mem_write_at ad); [reflexivity|rewrite !len_app, handles_len, !len_le_enc; lia..]].
  unfold encoded, l, attr_bytes, hd, attr_header. cbn [metadata_bytes a_kind a_name a_handle]. by rewrite <- !app_assoc.
Qed.

Lemma strlen_lies s t : lies s 0 (t ++ [0]) -> Forall (fun b => b <> 0) t -> strlen s = Ok (len t).
Proof.
  intros [_ [post E]] Hz. change (drop (Z.to_nat 0) (bytes s)) with (bytes s) in E. unfold strlen. rewrite E.
  clear E. induction Hz as [|b t Hb Hz IH]; [done|]. cbn [app strlen_from].
  destruct (Z.eqb_spec b 0); [done|]. cbn [app] in IH. rewrite IH. cbn. by rewrite len_cons.
Qed.

(** The checks of the encoders are what the data sheet of an attribute asks for. *)
#[export] Instance string_info_ok_dec type min max n : Decision (string_info_ok type min max n).
Proof. unfold string_info_ok. apply _. Defined.

#[export] Instance integer_info_ok_dec lower upper increment default :
  Decision (integer_info_ok lower upper increment default).
Proof. unfold integer_info_ok. apply _. Defined.

(** The result of a check: a message with every refusal. *)
Definition checked (ok : bool) (r : Z * option errmsg) : Prop :=
  if ok then r = (PLDM_SUCCESS, None) else exists msg, r = (PLDM_ERROR_INVALID_DATA, Some msg).

Lemma string_check h ro name type min max t text :
  0 <= type < 256 -> text_given (Attr h ro name (AString type min max t)) text ->
  exists r, pldm_bios_table_attr_entry_string_info_check (StringInfo name ro type min max (len t) text) = Ok r /\
    checked (bool_decide (string_info_ok type min max (len t))) r.
Proof.
  intros Ht Hx. unfold pldm_bios_table_attr_entry_string_info_check, string_info_ok. cbn [min_length max_length def_length
    string_type def_string].
  repeat match goal with
  | |- context [if ?c then _ else _] =>
      lazymatch c with bool_decide _ => fail | _ => destruct c eqn:?; [eexists; split; [reflexivity|];
        rewrite bool_decide_false by lia; by eexists|] end
  end.
  rewrite bool_decide_true by lia. cbn [text_given a_kind] in Hx.
  destruct text as [s|]; [|by eexists]. destruct Hx as [Hl Hz]. rewrite (strlen_lies s t Hl Hz).
  cbn [mbind outcome_bind mret outcome_ret]. rewrite Z.eqb_refl. by eexists.
Qed.

Lemma integer_check name ro lower upper increment default :
  word 8 lower -> word 8 upper -> word 8 default -> 0 <= increment ->
  checked (bool_decide (integer_info_ok lower upper increment default))
    (pldm_bios_table_attr_entry_integer_info_check (IntegerInfo name ro lower upper increment default)).
Proof.
  intros Hl Hu Hd Hi. unfold word in *. cbn in Hl, Hu, Hd.
  unfold pldm_bios_table_attr_entry_integer_info_check, integer_info_ok.
  cbn [lower_bound upper_bound default_value scalar_increment]. destruct (Z.eqb_spec lower upper) as [<-|Hne].
  - destruct (Z.eqb_spec default lower), (Z.eqb_spec increment 0); cbn [negb];
      first [rewrite bool_decide_true by lia; done | rewrite bool_decide_false by lia; by eexists].
  - destruct (Z.ltb_spec upper lower); [rewrite bool_decide_false by lia; by eexists|].
    destruct (Z.ltb_spec upper default), (Z.ltb_spec default lower); cbn [orb];
      try (rewrite bool_decide_false by lia; by eexists).
    destruct (Z.eqb_spec increment 0); [rewrite bool_decide_false by lia; by eexists|].
    unfold u64. rewrite (Z.mod_small (default - lower) 18446744073709551616) by lia.
    destruct (Z.eqb_spec ((default - lower) mod increment) 0); cbn [negb].
    + rewrite bool_decide_true by lia. done.
    + rewrite bool_decide_false by lia. by eexists.
Qed.

Lemma attr_len a :
  len (attr_bytes a) = 5 + len (metadata_bytes (a_kind a)).
Proof. unfold attr_bytes. rewrite !len_app, !len_le_enc. lia. Qed.

Lemma attr_encode ad old n a text h :
  0 <= h < 65535 -> a_handle a = h -> kind_ok (a_kind a) -> info_ok (a_kind a) -> text_given a text ->
  len (attr_bytes a) <= n -> len (attr_bytes a) <= len old ->
  encode_attr (Some (CMem ad old)) n a text h
  = Ok ((PLDM_SUCCESS, Some (encoded ad (attr_bytes a) old)), h + 1).
Proof.
  destruct a as [h' ro name k]. cbn [a_handle a_kind]. intros Hh -> Hk Hi Hx Hn Hold.
  pose proof (attr_type_range (Attr h ro name k)) as Ht. pose proof (metadata_size k Hk) as Hm.
  rewrite attr_len in Hn, Hold. cbn [a_kind] in Hn, Hold.
  destruct k as [vs ds|t mn mx s|lo hi inc def].
  - rewrite <- (enum_encode ad old n ro name vs ds h) by (rewrite ?attr_len; done). done.
  - unfold encode_attr. cbn [a_kind a_name a_read_only]. unfold pldm_bios_table_attr_entry_string_encode.
    destruct Hk as (Hty & _ & _ & Hs & _). pose proof (len_nonneg s).
    destruct (string_check h ro name t mn mx s text) as (r & E & Hc); [done|exact Hx|].
    cbn [info_ok] in Hi. rewrite bool_decide_true in Hc by done. cbn [checked] in Hc. subst r.
    cbn [def_length si_read_only si_name_handle string_type min_length max_length def_string].
    cbn [metadata_bytes] in *. rewrite !len_app, !len_le_enc in *.
    unfold pldm_bios_table_attr_entry_string_encode_length. replace (n <? _) with false by lia.
    erewrite lift_ok by exact E. cbn [Z.eqb].
    change (if ro then 0x81 else 1) with (attr_type (Attr h ro name (AString t mn mx s))).
    erewrite bind_ok by (apply attr_header_encode; lia). cbn [Z.eqb].
    set (hd := attr_header _ _ _). assert (len hd = 5) as Eh by apply attr_header_len.
    rewrite <- (le_enc_1 t) by done. do 4 (erewrite lift_ok; [|by write_piece]).
    unfold encoded, attr_bytes. cbn [metadata_bytes a_kind a_name a_handle].
    destruct text as [x|].
    + destruct Hx as [Hx _]. destruct (Z.eqb_spec (len s) 0) as [E0|E0].
      * destruct s; [|by rewrite len_cons in E0; pose proof (len_nonneg s); lia].
        rewrite app_nil_r. unfold hd, attr_header. by rewrite <- !app_assoc.
      * apply lies_app in Hx as [Hx _]. erewrite lift_ok; [|by apply (mem_read_lies _ _ _ Hx)].
        erewrite lift_ok; [|by write_piece]. unfold hd, attr_header. by rewrite <- !app_assoc.
    + cbn [text_given a_kind] in Hx. subst s. rewrite app_nil_r. unfold hd, attr_header. by rewrite <- !app_assoc.
  - unfold encode_attr. cbn [a_kind a_name a_read_only]. unfold pldm_bios_table_attr_entry_integer_encode.
    destruct Hk as (Hlo & Hhi & Hinc & Hdef). pose proof (integer_check name ro lo hi inc def Hlo Hhi Hdef ltac:(apply Hinc)) as Hc.
    cbn [info_ok] in Hi. rewrite bool_decide_true in Hc by done. cbn [checked] in Hc. rewrite Hc. cbn [fst Z.eqb negb].
    cbn [ii_read_only ii_name_handle lower_bound upper_bound scalar_increment default_value].
    cbn [metadata_bytes] in *. rewrite !len_app, !len_le_enc in *.
    unfold pldm_bios_table_attr_entry_integer_encode_length. replace (n <? _) with false by lia.
    change (if ro then 0x83 else 3) with (attr_type (Attr h ro name (AInteger lo hi inc def))).
    erewrite bind_ok by (apply attr_header_encode; lia). cbn [Z.eqb].
    set (hd := attr_header _ _ _). assert (len hd = 5) as Eh by apply attr_header_len.
    do 4 (erewrite lift_ok; [|by write_piece]).
    unfold encoded, attr_bytes. cbn [metadata_bytes a_kind a_name a_handle]. unfold hd, attr_header.
    by rewrite <- !app_assoc.
Qed.

(** ** Decoding *)

Lemma get_handles_lies p vs k :
  Forall (word 2) vs -> lies p k (concat (le_enc 2 <$> vs)) -> get_handles p k (length vs) = Ok vs.
Proof.
  intros Hv. revert k. induction Hv as [|v vs Hv Hvs IH]; intros k Hl; [done|].
  cbn [length get_handles fmap list_fmap concat] in *. pieces Hl. read_piece.
  rewrite IH by exact Hl. done.
Qed.

Lemma to_nat_len {A} (l : list A) : Z.to_nat (len l) = length l.
Proof. apply Nat2Z.id. Qed.

Lemma room_len n : 0 <= n -> len (room n) = n.
Proof. intros. unfold room, len. rewrite length_replicate. lia. Qed.

Lemma type_split ro c : (c = 0 \/ c = 1 \/ c = 3) ->
  Z.land (type_code ro c) 0x7f = c /\ (0x80 <=? type_code ro c) = ro.
Proof. intros [-> | [-> | ->]]; by destruct ro. Qed.

(** What a decoder puts into its buffer. *)
Lemma fill_room n l :
  len l <= n -> 0 <= n -> exists post, mem_write (CMem 0 (room n)) 0 l = Ok (CMem 0 (l ++ post)).
Proof.
  intros Hl Hn. rewrite mem_write_first; [by eexists|]. pose proof (room_len n Hn). unfold len in *. lia.
Qed.

Lemma decode_enum p h ro name vs ds :
  attr_ok (Attr h ro name (AEnum vs ds)) -> lies p 0 (attr_bytes (Attr h ro name (AEnum vs ds))) ->
  decode_attr p = Ok (Some (Attr h ro name (AEnum vs ds))).
Proof.
  intros (Hh & Hname & Hv & Hvs & Hd & Hds) Hl. cbn [a_handle a_name] in *.
  pose proof (enum_def_num _ _ _ _ _ _ Hl Hv Hd) as En. pose proof (attr_type_range (Attr h ro name (AEnum vs ds))) as Ht.
  destruct (type_split ro 0) as [Eland Ero]; [by left|].
  unfold attr_bytes in Hl. cbn [metadata_bytes a_kind a_name a_handle] in Hl. pieces Hl. rewrite handles_len in *.
  pose proof (len_nonneg vs). pose proof (len_nonneg ds).
  unfold decode_attr, pldm_bios_table_attr_entry_decode_attribute_handle,
    pldm_bios_table_attr_entry_decode_attribute_type, pldm_bios_table_attr_entry_decode_string_handle,
    pldm_bios_table_attr_entry_enum_decode_pv_num, pldm_bios_table_attr_entry_enum_decode_pv_hdls,
    pldm_bios_table_attr_entry_enum_decode_def_indices.
  do 3 read_piece. unfold attr_type. cbn [a_read_only a_kind].
  change (type_code ro 0) with (attr_type (Attr h ro name (AEnum vs ds))) in Eland, Ero |- *. rewrite Eland, Ero.
  repeat read_piece. replace (if len vs <? 255 then len vs else 255) with (len vs) by (cmp_case; lia).
  unfold attr_type. cbn [a_read_only a_kind]. rewrite expect_type by auto.
  cbn [mbind outcome_bind mret outcome_ret]. rewrite to_nat_len.
  rewrite (get_handles_lies p vs) by (try done; by replace (5 + 1) with (0 + 2 + 1 + 2 + 1) by lia).
  cbn [mbind outcome_bind]. rewrite (room_len 256) by lia. replace (len vs <=? 256) with true by lia.
  cbn [mbind outcome_bind]. rewrite En. cbn [mbind outcome_bind default from_option id].
  replace (if len ds <? 255 then len ds else 255) with (len ds) by (cmp_case; lia).
  repeat read_piece. destruct (fill_room 256 ds) as [post ->]; [lia..|]. cbn [mbind outcome_bind mret outcome_ret bytes Z.eqb andb from_option id].
  rewrite !to_nat_len, !take_app_length. done.
Qed.

Lemma decode_attr_string p h ro name t mn mx s :
  attr_ok (Attr h ro name (AString t mn mx s)) -> lies p 0 (attr_bytes (Attr h ro name (AString t mn mx s))) ->
  decode_attr p = Ok (Some (Attr h ro name (AString t mn mx s))).
Proof.
  intros (Hh & Hname & Hty & Hmn & Hmx & Hs & Hbs) Hl. cbn [a_handle a_name] in *. unfold word in Hty.
  pose proof (string_def_length _ _ _ _ _ _ _ _ Hl Hs) as En.
  pose proof (attr_type_range (Attr h ro name (AString t mn mx s))) as Ht.
  destruct (type_split ro 1) as [Eland Ero]; [by auto|].
  unfold attr_bytes in Hl. cbn [metadata_bytes a_kind a_name a_handle] in Hl. pieces Hl. pose proof (len_nonneg s).
  unfold decode_attr, pldm_bios_table_attr_entry_decode_attribute_handle,
    pldm_bios_table_attr_entry_decode_attribute_type, pldm_bios_table_attr_entry_decode_string_handle,
    pldm_bios_table_attr_entry_string_decode_string_type, pldm_bios_table_attr_entry_string_decode_min_length,
    pldm_bios_table_attr_entry_string_decode_max_length, pldm_bios_table_attr_entry_string_decode_def_string.
  repeat read_piece.
  change (type_code ro 1) with (attr_type (Attr h ro name (AString t mn mx s))) in Eland, Ero. rewrite Eland, Ero.
  change (65536 =? 0) with false. cbn [mbind outcome_bind]. rewrite En.
  cbn [mbind outcome_bind default from_option id Z.eqb].
  replace (if len s <? 65536 - 1 then len s else 65536 - 1) with (len s) by (cmp_case; lia).
  unfold u16. rewrite Z.mod_small by lia. read_piece.
  rewrite mem_write_first by (pose proof (room_len 65536 ltac:(lia)); unfold len in *; lia).
  cbn [mbind outcome_bind].
  rewrite (mem_write_at 0 (len s) s [0] (room 65536)) by (rewrite ?room_len by lia; change (len [0]) with 1; lia).
  cbn [mbind outcome_bind mret outcome_ret bytes]. by rewrite to_nat_len, <- app_assoc, take_app_length.
Qed.

Lemma decode_attr_lies p a : attr_ok a -> lies p 0 (attr_bytes a) -> decode_attr p = Ok (Some a).
Proof.
  destruct a as [h ro name [vs ds|t mn mx s|lo hi inc def]]; [apply decode_enum|apply decode_attr_string|].
  intros (Hh & Hname & Hlo & Hhi & Hinc & Hdef) Hl. cbn [a_handle a_name] in *.
  pose proof (attr_type_range (Attr h ro name (AInteger lo hi inc def))) as Ht.
  destruct (type_split ro 3) as [Eland Ero]; [by auto|].
  unfold attr_bytes in Hl. cbn [metadata_bytes a_kind a_name a_handle] in Hl. pieces Hl.
  unfold decode_attr, pldm_bios_table_attr_entry_decode_attribute_handle,
    pldm_bios_table_attr_entry_decode_attribute_type, pldm_bios_table_attr_entry_decode_string_handle,
    pldm_bios_table_attr_entry_integer_decode.
  repeat read_piece.
  change (type_code ro 3) with (attr_type (Attr h ro name (AInteger lo hi inc def))) in Eland, Ero. rewrite Eland, Ero.
  by repeat read_piece.
Qed.

(** ** Values *)

(** The caller's bytes for a value that is passed by address. *)
Definition data_given (k : value_kind) (data : cmem) : Prop :=
  match k with VEnum indices => lies data 0 indices | VString text => lies data 0 text | VInteger _ => True end.

Definition value_header (v : value) : list Z := le_enc 2 (v_handle v) ++ le_enc 1 (value_type v).

Lemma put_value_header_ok ad old v :
  3 <= len old ->
  put_value_header (CMem ad old) (v_handle v) (value_type v)
  = Ok (CMem ad (value_header v ++ drop (length (value_header v)) old)).
Proof.
  intros Hold. unfold put_value_header. rewrite <- (le_enc_1 (value_type v)) by apply value_type_range.
  write_piece. by write_piece.
Qed.

Lemma value_header_len v : len (value_header v) = 3.
Proof. done. Qed.

Lemma value_encode ad old n v data :
  value_ok v -> data_given (v_kind v) data -> len (value_bytes v) <= n -> len (value_bytes v) <= len old ->
  encode_value (Some (CMem ad old)) n v data = Ok (PLDM_SUCCESS, Some (encoded ad (value_bytes v) old)).
Proof.
  destruct v as [h ro k]. intros (Hh & Hk) Hd Hn Hold. cbn [v_kind] in *.
  set (v := Value h ro k) in *. assert (value_bytes v = value_header v ++ value_body k) as Ev
    by (unfold value_bytes, value_header; by rewrite <- app_assoc).
  rewrite Ev in *. rewrite len_app, value_header_len in Hn, Hold. pose proof (value_header_len v) as Eh.
  unfold encode_value. subst v. cbn [v_kind].
  destruct k as [i|s|x]; cbn [value_body data_given] in *; rewrite ?len_app, len_le_enc in Hn, Hold.
  - destruct Hk as [Hi _]. pose proof (len_nonneg i). unfold pldm_bios_table_attr_value_entry_encode_enum.
    replace (ATTR_TYPE_EXPECT _ _) with true by (by destruct ro). cbn [negb].
    replace (n <? 4) with false by lia. rewrite (put_value_header_ok ad old (Value h ro (VEnum i))) by lia.
    cbn [mbind outcome_bind]. rewrite <- (le_enc_1 (len i)) by lia. write_piece.
    replace (n - 4 <? len i) with false by lia. rewrite (mem_read_lies _ _ _ Hd). cbn [mbind outcome_bind].
    write_piece. unfold encoded. by rewrite <- app_assoc.
  - destruct Hk as [Hi _]. pose proof (len_nonneg s). unfold pldm_bios_table_attr_value_entry_encode_string.
    replace (ATTR_TYPE_EXPECT _ _) with true by (by destruct ro). cbn [negb].
    replace (n <? 4 - 1 + 2) with false by lia. rewrite (put_value_header_ok ad old (Value h ro (VString s))) by lia.
    cbn [mbind outcome_bind].
    replace (n - (4 - 1 + 2) <? len s) with false by lia. rewrite (mem_read_lies _ _ _ Hd). cbn [mbind outcome_bind].
    destruct (mem_write_gap ad (value_header (Value h ro (VString s))) (le_enc 2 (len s)) s old) as (m' & E1 & E2).
    { rewrite Eh, len_le_enc. lia. }
    rewrite Eh, len_le_enc in E1. rewrite Eh in E2. change (3 + 2) with (3 + Z.of_nat 2). rewrite E1.
    cbn [mbind outcome_bind]. rewrite E2. done.
  - unfold pldm_bios_table_attr_value_entry_encode_integer.
    replace (ATTR_TYPE_EXPECT _ _) with true by (by destruct ro). cbn [negb].
    unfold pldm_bios_table_attr_value_entry_encode_integer_length.
    replace (n <? 4 - 1 + 8) with false by lia. rewrite (put_value_header_ok ad old (Value h ro (VInteger x))) by lia.
    cbn [mbind outcome_bind]. by write_piece.
Qed.

Lemma decode_value_lies p v : value_ok v -> lies p 0 (value_bytes v) -> decode_value p = Ok (Some v).
Proof.
  destruct v as [h ro k]. intros (Hh & Hk) Hl. cbn [v_handle v_kind] in *.
  pose proof (value_type_range (Value h ro k)) as Ht.
  destruct (type_split ro (match k with VEnum _ => 0 | VString _ => 1 | VInteger _ => 3 end)) as [Eland Ero];
    [destruct k; auto|].
  unfold value_bytes in Hl. cbn [v_kind v_handle] in Hl.
  change (type_code ro _) with (value_type (Value h ro k)) in Eland, Ero.
  unfold decode_value, pldm_bios_table_attr_value_entry_decode_attribute_handle,
    pldm_bios_table_attr_value_entry_decode_attribute_type, pldm_bios_table_attr_value_entry_enum_decode_handles,
    pldm_bios_table_attr_value_entry_enum_decode_number, pldm_bios_table_attr_value_entry_string_decode_string,
    pldm_bios_table_attr_value_entry_string_decode_length, pldm_bios_table_attr_value_entry_integer_decode_cv.
  destruct k as [i|s|x]; cbn [value_body] in Hl; pieces Hl; repeat read_piece; rewrite Eland, Ero; cbn match.
  - destruct Hk as [Hi _]. pose proof (len_nonneg i). repeat read_piece.
    replace (if 255 <? len i then 255 else len i) with (len i) by (cmp_case; lia). repeat read_piece.
    destruct (fill_room 256 i) as [post ->]; [lia..|]. cbn [mbind outcome_bind mret outcome_ret bytes].
    by rewrite to_nat_len, take_app_length.
  - destruct Hk as [Hi _]. pose proof (len_nonneg s). repeat read_piece. cbn [vf_ptr vf_length].
    pose proof (lies_size _ _ _ Hl). assert (lies (ptr_at p (3 + 2)) 0 s) as Hs by (apply lies_ptr_at; [lia|done|exact Hl]).
    rewrite (mem_read_lies _ _ _ Hs). done.
  - by repeat read_piece.
Qed.

Lemma decode_string_lies p s : string_ok s -> lies p 0 (string_bytes s) -> decode_string p = Ok (Some s).
Proof.
  destruct s as [h name]. intros (Hh & Hn & _) Hl. cbn [bs_handle bs_name] in *. unfold string_bytes in Hl.
  cbn [bs_handle bs_name] in Hl. pieces Hl.
  unfold decode_string, pldm_bios_table_string_entry_decode_handle, pldm_bios_table_string_entry_decode_string,
    pldm_bios_table_string_entry_decode_string_length.
  repeat read_piece. change (65536 =? 0) with false. cbn match.
  replace (if len name <? 65536 - 1 then len name else 65536 - 1) with (len name) by (cmp_case; lia).
  repeat read_piece.
  rewrite mem_write_first by (pose proof (room_len 65536 ltac:(lia)); unfold len in *; lia).
  cbn [mbind outcome_bind].
  rewrite (mem_write_at 0 (len name) name [0] (room 65536)) by (rewrite ?room_len by lia; change (len [0]) with 1; lia).
  cbn [mbind outcome_bind mret outcome_ret bytes Z.eqb]. by rewrite to_nat_len, <- app_assoc, take_app_length.
Qed.

(** An attribute that does not fit or does not pass the check leaves no trace. *)
Lemma attr_encode_short e n a text h :
  n < len (attr_bytes a) -> encode_attr (Some e) n a text h = Ok ((PLDM_ERROR_INVALID_LENGTH, Some e), h).
Proof.
  rewrite attr_len. destruct a as [h' ro name [vs ds|t mn mx s|lo hi inc def]]; cbn [a_kind metadata_bytes];
    rewrite ?len_app, ?handles_len, !len_le_enc; intros Hn; unfold encode_attr; cbn [a_kind].
  - unfold pldm_bios_table_attr_entry_enum_encode, pldm_bios_table_attr_entry_enum_encode_length.
    cbn [pv_num def_num]. by replace (n <? _) with true by lia.
  - unfold pldm_bios_table_attr_entry_string_encode, pldm_bios_table_attr_entry_string_encode_length.
    cbn [def_length]. by replace (n <? _) with true by lia.
  - unfold pldm_bios_table_attr_entry_integer_encode, pldm_bios_table_attr_entry_integer_encode_length.
    by replace (n <? _) with true by lia.
Qed.

Lemma attr_encode_refused e n a text h :
  len (attr_bytes a) <= n -> kind_ok (a_kind a) -> text_given a text -> ~ info_ok (a_kind a) ->
  encode_attr (Some e) n a text h = Ok ((PLDM_ERROR_INVALID_DATA, Some e), h).
Proof.
  rewrite attr_len. destruct a as [h' ro name [vs ds|t mn mx s|lo hi inc def]]; cbn [a_kind metadata_bytes info_ok];
    rewrite ?len_app, ?handles_len, !len_le_enc; intros Hn Hk Hx Hno; unfold encode_attr; cbn [a_kind a_name a_read_only];
    [by destruct Hno|..].
  - unfold pldm_bios_table_attr_entry_string_encode, pldm_bios_table_attr_entry_string_encode_length.
    cbn [def_length]. replace (n <? _) with false by lia.
    destruct Hk as (Ht & _). destruct (string_check h' ro name t mn mx s text Ht Hx) as (r & E & Hc).
    rewrite bool_decide_false in Hc by done. destruct Hc as [msg ->].
    by erewrite lift_ok by exact E.
  - unfold pldm_bios_table_attr_entry_integer_encode, pldm_bios_table_attr_entry_integer_encode_length.
    replace (n <? _) with false by lia. destruct Hk as (Hlo & Hhi & Hinc & Hdef).
    pose proof (integer_check name ro lo hi inc def Hlo Hhi Hdef ltac:(apply Hinc)) as Hc.
    rewrite bool_decide_false in Hc by done. destruct Hc as [msg ->]. done.
Qed.

Lemma encoded_lies ad l old : lies (encoded ad l old) 0 l.
Proof. apply lies_prefix. Qed.

(** what the encoders of BIOS table entries write, the decoders read back.  For
    strings, for attributes of the three types, read-only or not, and for their values,
    the encoder returns success, writes exactly the entry's layout to the front of the
    buffer, and, for strings and attributes, gives the entry the next handle; the
    decoders for the entry's type then return what was encoded.  An attribute entry
    that does not fit its buffer is refused, and so is one whose default is outside its
    bounds, off its increment or of an undefined string type, with nothing written and
    no handle spent. *)
Theorem bios_entries_roundtrip ad old n :
  n <= len old -> n <= SIZE_MAX ->
  (forall s str, string_ok s -> lies str 0 (bs_name s) -> bs_handle s < 65535 -> len (string_bytes s) <= n ->
     let e := encoded ad (string_bytes s) old in
     pldm_bios_table_string_entry_encode (Some (CMem ad old)) n (Some str) (len (bs_name s)) (bs_handle s)
     = Ok ((PLDM_SUCCESS, Some e), bs_handle s + 1) /\
     decode_string e = Ok (Some s)) /\
  (forall a text, attr_ok a -> text_given a text -> a_handle a < 65535 ->
     let e := encoded ad (attr_bytes a) old in
     (len (attr_bytes a) <= n -> info_ok (a_kind a) ->
      encode_attr (Some (CMem ad old)) n a text (a_handle a) = Ok ((PLDM_SUCCESS, Some e), a_handle a + 1) /\
      decode_attr e = Ok (Some a)) /\
     (len (attr_bytes a) <= n -> ~ info_ok (a_kind a) ->
      encode_attr (Some (CMem ad old)) n a text (a_handle a)
      = Ok ((PLDM_ERROR_INVALID_DATA, Some (CMem ad old)), a_handle a)) /\
     (n < len (attr_bytes a) ->
      encode_attr (Some (CMem ad old)) n a text (a_handle a)
      = Ok ((PLDM_ERROR_INVALID_LENGTH, Some (CMem ad old)), a_handle a))) /\
  (forall v data, value_ok v -> data_given (v_kind v) data -> len (value_bytes v) <= n ->
     let e := encoded ad (value_bytes v) old in
     encode_value (Some (CMem ad old)) n v data = Ok (PLDM_SUCCESS, Some e) /\
     decode_value e = Ok (Some v)).
Proof.
  intros Hn Hsz. split_and!.
  - intros [h name] str Hs Hl Hh Hfit e. pose proof Hs as (Hw & Hlen & _). cbn [bs_handle bs_name] in *.
    unfold word in Hw. split; [|apply decode_string_lies; [done|apply encoded_lies]].
    assert (len (string_bytes (BString h name)) = 4 + len name) as El
      by (unfold string_bytes; rewrite !len_app, !len_le_enc; cbn [bs_name]; lia).
    apply string_encode; lia || done.
  - intros a text Ha Hx Hh e. pose proof Ha as (Hw & _ & Hk). unfold word in Hw. split_and!; intros Hfit.
    + intros Hi. split; [apply attr_encode; lia || done|]. apply decode_attr_lies; [done|apply encoded_lies].
    + intros Hi. by apply attr_encode_refused.
    + by apply attr_encode_short.
  - intros v data Hv Hd Hfit e. split; [apply value_encode; lia || done|].
    apply decode_value_lies; [done|apply encoded_lies].
Qed.

Lemma bios_entries_roundtrip_witness :
  let old := replicate 64 0xee in
  let s := BString 7 [65; 66] in
  let a := Attr 3 true 7 (AString 1 1 10 [67; 68]) in
  let bad := Attr 3 false 7 (AInteger 0 10 3 5) in
  let v := Value 3 false (VEnum [0; 2]) in
  let text := CMem 0 [67; 68; 0] in
  (pldm_bios_table_string_entry_encode (Some (CMem 16 old)) 64 (Some (CMem 0 [65; 66])) 2 7
   = Ok ((PLDM_SUCCESS, Some (encoded 16 (string_bytes s) old)), 8) /\
   decode_string (encoded 16 (string_bytes s) old) = Ok (Some s)) /\
  (encode_attr (Some (CMem 16 old)) 64 a (Some text) 3
   = Ok ((PLDM_SUCCESS, Some (encoded 16 (attr_bytes a) old)), 4) /\
   decode_attr (encoded 16 (attr_bytes a) old) = Ok (Some a)) /\
  encode_attr (Some (CMem 16 old)) 64 bad None 3 = Ok ((PLDM_ERROR_INVALID_DATA, Some (CMem 16 old)), 3) /\
  (encode_value (Some (CMem 16 old)) 64 v (CMem 0 [0; 2])
   = Ok (PLDM_SUCCESS, Some (encoded 16 (value_bytes v) old)) /\
   decode_value (encoded 16 (value_bytes v) old) = Ok (Some v)).
Proof.
  intros old s a bad v text.
  destruct (bios_entries_roundtrip 16 old 64) as (Hs & Ha & Hv); [by vm_compute|by vm_compute|].
  assert (bytes_ok [65; 66] /\ bytes_ok [67; 68] /\ bytes_ok [0; 2]) as (B1 & B2 & B3)
    by (split_and!; repeat constructor; unfold byte_ok; lia).
  assert (string_ok s /\ attr_ok a /\ attr_ok bad /\ value_ok v) as (Os & Oa & Ob & Ov)
    by (unfold string_ok, attr_ok, value_ok; split_and!; done).
  assert (text_given a (Some text)) as Ht
    by (split; [exact (lies_prefix 0 [67; 68; 0] [])|repeat constructor; lia]).
  assert (info_ok (a_kind a)) as Hi by (split; [by vm_compute|left; lia]).
  assert (~ info_ok (a_kind bad)) as Hb by (intros (_ & _ & Hinc); destruct Hinc as [_ Hinc]; [done|]; by vm_compute in Hinc).
  split; [exact (Hs s (CMem 0 [65; 66]) Os (lies_prefix 0 [65; 66] []) eq_refl ltac:(by vm_compute))|].
  destruct (Ha a (Some text) Oa Ht eq_refl) as (H1 & _ & _).
  destruct (Ha bad None Ob I eq_refl) as (_ & H2 & _).
  split; [exact (H1 ltac:(by vm_compute) Hi)|]. split; [exact (H2 ltac:(by vm_compute) Hb)|].
  exact (Hv v (CMem 0 [0; 2]) Ov (lies_prefix 0 [0; 2] []) ltac:(by vm_compute)).
Defined.
