(* ===== verification/BiosRuns.v ===== *)
(** * Whole BIOS tables: iteration, search, update

    Against the interface of BiosSpec.v: the iterator visits the entries of a table in
    order and stops in front of the padding, so that the searches are searches in the
    list of entries; and the copy of a value table with one entry replaced is the
    update of the list, padded and with its checksum. *)

From S2P Require Import Prelude Msgbuf Layout Edac Base BiosTable BiosSpec BiosProps.

(** ** The end of a table *)

Lemma pad_size_range n : 0 <= pad_size_get n <= 3.
Proof. unfold pad_size_get. pose proof (Z.mod_pos_bound (4 - n mod 4) 4). lia. Qed.

Lemma padded_len l : len (padded l) = len l + pad_size_get (len l).
Proof.
  unfold padded. rewrite len_app. unfold len at 2. rewrite length_replicate. pose proof (pad_size_range (len l)). lia.
Qed.

Lemma sealed_len l : len (sealed l) = len l + pad_size_get (len l) + 4.
Proof. unfold sealed. rewrite len_app, padded_len, len_le_enc. lia. Qed.

Section walk.
Context {E : Type} `{BiosEntry E}.

Lemma entries_cons e es : entries_bytes (e :: es) = entry_bytes e ++ entries_bytes es.
Proof. done. Qed.

Lemma table_entries_app es es' : entries_bytes (es ++ es') = entries_bytes es ++ entries_bytes es'.
Proof. unfold entries_bytes. by rewrite fmap_app, concat_app. Qed.

(** Every entry takes at least four bytes. *)
Lemma entries_len es : Forall entry_ok es -> 4 * len es <= len (entries_bytes es).
Proof.
  induction 1 as [|e es He Hes IH]; [done|]. rewrite entries_cons, len_app, len_cons.
  pose proof (entry_size e He). lia.
Qed.

Context (m : cmem) (L : Z).
Hypothesis HL : 0 <= L <= INTMAX_MAX.

Definition iter_at (pos : Z) : pldm_bios_table_iter := TableIter m L pos (table_entry_length_of (entry_table (E:=E))).

(** The iterator is at [pos], [es] are still to come, and the table ends behind them. *)
Definition to_come (pos : Z) (es : list E) : Prop :=
  Forall entry_ok es /\ lies m pos (entries_bytes es) /\
  4 <= L - (pos + len (entries_bytes es)) <= 7.

Lemma to_come_nil pos : to_come pos [] -> pldm_bios_table_iter_is_end (Some (iter_at pos)) = Ok true.
Proof.
  intros (_ & _ & Hb). change (len (entries_bytes [])) with 0 in Hb. unfold pldm_bios_table_iter_is_end, iter_at.
  cbn [table_len current_pos]. replace (L <? pos) with false by lia. by replace (L - pos <=? 7) with true by lia.
Qed.

Lemma to_come_cons pos e es :
  to_come pos (e :: es) ->
  lies (ptr_at m pos) 0 (entry_bytes e) /\ to_come (pos + len (entry_bytes e)) es /\
  table_entry_length_of (entry_table (E:=E)) (ptr_at m pos) = Ok (len (entry_bytes e)) /\
  pldm_bios_table_iter_is_end (Some (iter_at pos)) = Ok false /\
  u64 (pos + len (entry_bytes e)) = pos + len (entry_bytes e) /\ 4 <= len (entry_bytes e) < 131072.
Proof.
  intros (Hes & Hl & Hb). inversion Hes as [|? ? He Hes']; subst.
  pose proof (entry_size e He) as Hsz. pose proof (entries_len es Hes'). pose proof (len_nonneg es).
  rewrite entries_cons in Hl, Hb. rewrite len_app in Hb. apply lies_app in Hl as [Hl1 Hl2].
  pose proof (lies_size _ _ _ Hl1) as Hs1.
  assert (lies (ptr_at m pos) 0 (entry_bytes e)) as Hp by (apply lies_ptr_at; [lia|done|by rewrite Z.add_0_r]).
  pose proof (entry_length_exact _ _ He Hp) as El. split_and!; try done; try lia.
  - split_and!; [done|done|lia..].
  - unfold pldm_bios_table_iter_is_end, iter_at. cbn [table_len current_pos entry_length_handler table_data].
    replace (L <? pos) with false by lia. replace (L - pos <=? 7) with false by lia. rewrite El.
    cbn [mbind outcome_bind mret outcome_ret]. by replace (len (entry_bytes e) <? 0) with false by lia.
  - unfold u64. apply Z.mod_small. lia.
Qed.

(** The search finds the first entry with the property the comparison decides. *)
Lemma find_by_iter_ok (P : E -> Prop) `{forall e, Decision (P e)} equal es fuel pos :
  to_come pos es -> (length es < fuel)%nat ->
  (forall p e, e ∈ es -> lies p 0 (entry_bytes e) -> equal p = Ok (bool_decide (P e))) ->
  pldm_bios_table_entry_find_by_iter fuel (iter_at pos) equal
  = Ok (match list_find P es with
        | Some (i, _) => Some (ptr_at m (pos + len (entries_bytes (take i es))))
        | None => None
        end).
Proof.
  revert fuel pos. induction es as [|e es IH]; intros [|fuel] pos Hat Hf Heq; cbn [length] in Hf; try lia;
    cbn [pldm_bios_table_entry_find_by_iter].
  { by rewrite to_come_nil. }
  destruct (to_come_cons _ _ _ Hat) as (Hp & Hat' & El & -> & Eu & Hsz). cbn [mbind outcome_bind].
  unfold pldm_bios_table_iter_value at 1. cbn [table_data current_pos iter_at].
  rewrite (Heq _ e) by (done || left). cbn [mbind outcome_bind list_find].
  case_bool_decide as HP; cbn [mret outcome_ret].
  { rewrite decide_True by done. by rewrite take_0, Z.add_0_r. }
  rewrite decide_False by done. unfold pldm_bios_table_iter_next.
  rewrite (proj1 (proj2 (proj2 (proj2 (to_come_cons _ _ _ Hat))))).
  cbn [mbind outcome_bind]. unfold pldm_bios_table_iter_value. cbn [table_data current_pos entry_length_handler iter_at].
  rewrite El. cbn [mbind outcome_bind]. replace (_ <? 0) with false by lia. rewrite Eu. cbn [mret outcome_ret mbind outcome_bind].
  change (set_pos (pos + len (entry_bytes e)) (iter_at pos)) with (iter_at (pos + len (entry_bytes e))).
  rewrite IH; [|done|lia|intros p x Hx; apply Heq; by right].
  destruct (list_find P es) as [[i x]|]; [|done]. cbn [fmap option_fmap option_map prod_map take fst snd id]. rewrite entries_cons, len_app. do 3 f_equal. lia.
Qed.
End walk.

(** ** Searches *)

(** [m] holds, from its start, the table of [es]. *)
Definition table_at {E} `{BiosEntry E} (m : cmem) (es : list E) : Prop :=
  mem_ok m /\ Forall entry_ok es /\ lies m 0 (table_bytes es).

(** The first entry of the table with the property. *)
Definition first_entry {E} `{BiosEntry E} (m : cmem) (es : list E) (P : E -> Prop) `{forall e, Decision (P e)}
  : option cmem :=
  match list_find P es with
  | Some (i, _) => Some (ptr_at m (len (entries_bytes (take i es))))
  | None => None
  end.

Lemma table_to_come {E} `{BiosEntry E} m (es : list E) :
  table_at m es -> to_come m (len (table_bytes es)) 0 es /\ 0 <= len (table_bytes es) <= INTMAX_MAX.
Proof.
  intros (Hm & Hes & Hl). pose proof (lies_size _ _ _ Hl) as [_ Hsz]. destruct Hm. pose proof (len_nonneg (table_bytes es)).
  split; [|lia]. unfold table_bytes, sealed, padded in Hl. rewrite <- !app_assoc in Hl. apply lies_app in Hl as [Hl _].
  split_and!; [done|done|..].
  all: unfold table_bytes; rewrite sealed_len; pose proof (pad_size_range (len (entries_bytes es))); lia.
Qed.

Lemma find_from_table_ok {E} `{BiosEntry E} m (es : list E) (P : E -> Prop) `{forall e, Decision (P e)} type equal :
  table_at m es -> type = entry_table (E:=E) -> (forall p e, e ∈ es -> lies p 0 (entry_bytes e) -> equal p = Ok (bool_decide (P e))) ->
  pldm_bios_table_entry_find_from_table false m (len (table_bytes es)) type equal = Ok (first_entry m es P).
Proof.
  intros Hat -> Heq. destruct (table_to_come m es Hat) as [Hto HL]. destruct Hat as (_ & Hes & _).
  unfold pldm_bios_table_entry_find_from_table, pldm_bios_table_iter_create. cbn [negb c_assert mbind outcome_bind mret outcome_ret].
  unfold first_entry. pose proof (entries_len es Hes). pose proof (pad_size_range (len (entries_bytes es))).
  assert (length es < S (Z.to_nat (len (table_bytes es))))%nat as Hf
    by (unfold table_bytes; rewrite sealed_len; unfold len in *; lia).
  exact (find_by_iter_ok m _ HL P equal es _ 0 Hto Hf Heq).
Qed.


Lemma bool_decide_eqb (a b : Z) : bool_decide (a = b) = (a =? b).
Proof. case_bool_decide; lia. Qed.

Lemma string_lies p s : string_ok s -> lies p 0 (string_bytes s) ->
  mem_le p 0 2 = Ok (bs_handle s) /\ mem_le p 2 2 = Ok (len (bs_name s)) /\ lies p 4 (bs_name s).
Proof.
  intros (Hh & Hn & _) Hl. unfold string_bytes in Hl. pieces Hl. repeat read_piece. done.
Qed.

Lemma attr_lies p a : attr_ok a -> lies p 0 (attr_bytes a) ->
  mem_le p 0 2 = Ok (a_handle a) /\ mem_le p 3 2 = Ok (a_name a).
Proof.
  intros (Hh & Hn & _) Hl. unfold attr_bytes in Hl. do 3 (apply lies_app in Hl as [?P Hl]; rewrite ?len_le_enc in Hl).
  change (Z.of_nat 2) with 2 in *. change (Z.of_nat 1) with 1 in *. by repeat read_piece.
Qed.

Lemma value_lies p v : value_ok v -> lies p 0 (value_bytes v) ->
  mem_le p 0 2 = Ok (v_handle v) /\ mem_le p 2 1 = Ok (value_type v).
Proof.
  intros (Hh & _) Hl. pose proof (value_type_range v). unfold value_bytes in Hl.
  do 2 (apply lies_app in Hl as [?P Hl]; rewrite ?len_le_enc in Hl).
  change (Z.of_nat 2) with 2 in *. change (Z.of_nat 1) with 1 in *. by repeat read_piece.
Qed.

(** The search in a value table; the other searches are alike. *)
Lemma values_find m (es : list value) handle :
  table_at m es ->
  pldm_bios_table_attr_value_find_by_handle false m (len (table_bytes es)) handle
  = Ok (first_entry m es (fun v => v_handle v = handle)).
Proof.
  intros Hat. apply find_from_table_ok; [done|done|]. intros p e He Hl.
  assert (value_ok e) as Hok by (destruct Hat as (_ & Hes & _); by eapply Forall_elem in He).
  destruct (value_lies p e Hok Hl) as (E & _). unfold attr_value_table_handle_equal,
    pldm_bios_table_attr_value_entry_decode_handle. rewrite E. cbn. by rewrite bool_decide_eqb.
Qed.

(** C30: the searches find exactly the first entry with the key.  In a string table, an
    attribute table or a value table with any entries, followed by its padding and
    checksum, looking for a handle, for an attribute's name or for a string returns a
    pointer to the first entry that has it, and NULL when none has.  Every search ends,
    and none looks at the padding or the checksum as if it were an entry. *)
Theorem bios_tables_search m :
  (forall (es : list bios_string) handle, table_at m es ->
     pldm_bios_table_string_find_by_handle false m (len (table_bytes es)) handle
     = Ok (first_entry m es (fun s => bs_handle s = handle))) /\
  (forall (es : list bios_string) str name, table_at m es ->
     lies str 0 (name ++ [0]) -> Forall (fun b => b <> 0) name -> len name < 65536 ->
     pldm_bios_table_string_find_by_string false m (len (table_bytes es)) str
     = Ok (first_entry m es (fun s => bs_name s = name))) /\
  (forall (es : list attr) handle, table_at m es ->
     pldm_bios_table_attr_find_by_handle false m (len (table_bytes es)) handle
     = Ok (first_entry m es (fun a => a_handle a = handle)) /\
     pldm_bios_table_attr_find_by_string_handle false m (len (table_bytes es)) handle
     = Ok (first_entry m es (fun a => a_name a = handle))) /\
  (forall (es : list value) handle, table_at m es ->
     pldm_bios_table_attr_value_find_by_handle false m (len (table_bytes es)) handle
     = Ok (first_entry m es (fun v => v_handle v = handle))).
Proof.
  split_and!.
  - intros es handle Hat. apply find_from_table_ok; [done|done|]. intros p e He Hl.
    assert (string_ok e) as Hok by (destruct Hat as (_ & Hes & _); by eapply Forall_elem in He).
    destruct (string_lies p e Hok Hl) as (E & _). unfold string_table_handle_equal,
      pldm_bios_table_string_entry_decode_handle. rewrite E. cbn. by rewrite bool_decide_eqb.
  - intros es str name Hat Hs Hz Hn. unfold pldm_bios_table_string_find_by_string.
    rewrite (strlen_lies str name Hs Hz). cbn [mbind outcome_bind]. pose proof (len_nonneg name).
    unfold u16. rewrite Z.mod_small by lia. apply lies_app in Hs as [Hs _].
    apply find_from_table_ok; [done|done|]. intros p e He Hl.
    assert (string_ok e) as Hok by (destruct Hat as (_ & Hes & _); by eapply Forall_elem in He).
    destruct (string_lies p e Hok Hl) as (_ & E & Hp). unfold string_table_string_equal,
      pldm_bios_table_string_entry_decode_string_length. rewrite E. cbn [mbind outcome_bind].
    destruct (Z.eqb_spec (len name) (len (bs_name e))) as [El|El]; cbn [negb mret outcome_ret].
    + rewrite El, (mem_read_lies _ _ _ Hp). cbn [mbind outcome_bind]. rewrite <- El, (mem_read_lies _ _ _ Hs). done.
    + rewrite bool_decide_false; [done|]. intros E'. by rewrite E' in El.
  - intros es handle Hat. assert (forall e, e ∈ es -> attr_ok e) as Hok
      by (destruct Hat as (_ & Hes & _); by apply Forall_elem).
    split; (apply find_from_table_ok; [done|done|]); intros p e He Hl;
      destruct (attr_lies p e (Hok e He) Hl) as [E E'].
    + unfold attr_table_handle_equal, pldm_bios_table_attr_entry_decode_attribute_handle. rewrite E. cbn.
      by rewrite bool_decide_eqb.
    + unfold attr_table_string_handle_equal, pldm_bios_table_attr_entry_decode_string_handle. rewrite E'. cbn.
      by rewrite bool_decide_eqb.
  - intros es handle Hat. by apply values_find.
Qed.

(** ** Padding and checksum *)

Lemma pad_append_ok a pre old n :
  len pre + Z.of_nat n <= len old ->
  pad_append n (CMem a (pre ++ drop (length pre) old)) (len pre)
  = Ok (CMem a ((pre ++ replicate n 0) ++ drop (length (pre ++ replicate n 0)) old), len pre + Z.of_nat n).
Proof.
  revert pre. induction n as [|n IH]; intros pre Hn; cbn [pad_append replicate].
  - by rewrite app_nil_r, Z.add_0_r.
  - rewrite (mem_write_at a (len pre) pre [0] old) by (try done; change (len [0]) with 1; lia).
    cbn [mbind outcome_bind]. replace (len pre + 1) with (len (pre ++ [0])) by (rewrite len_app; done).
    rewrite IH by (rewrite len_app; change (len [0]) with 1; lia). rewrite <- (app_assoc pre). cbn [app].
    rewrite len_app. change (len [0]) with 1. do 2 f_equal. lia.
Qed.

Lemma table_append_ok a body old capacity :
  mem_ok (CMem a (body ++ drop (length body) old)) -> len (sealed body) <= capacity <= len old ->
  pldm_bios_table_append_pad_checksum (Some (CMem a (body ++ drop (length body) old))) capacity (Some (len body))
  = Ok (PLDM_SUCCESS, Some (encoded a (sealed body) old), Some (len (sealed body))).
Proof.
  intros Hm Hcap. pose proof (pad_size_range (len body)) as Hp. pose proof (len_nonneg body).
  assert (mem_size (CMem a (body ++ drop (length body) old)) = len old) as Hsz.
  { rewrite sealed_len in Hcap. unfold mem_size, len in *. cbn. rewrite length_app, length_drop. lia. }
  pose proof Hm as [Ha Hend Hmax Hbs]. rewrite Hsz in *. cbn [addr] in *. rewrite sealed_len in Hcap.
  unfold pldm_bios_table_append_pad_checksum, pldm_bios_table_pad_checksum_size.
  replace (SIZE_MAX - _ <? _) with false by lia. replace (capacity <? _) with false by lia.
  cbn [addr]. replace (UINTPTR_MAX - _ <? a) with false by lia.
  rewrite pad_append_ok by lia. cbn [mbind outcome_bind]. fold (padded body).
  rewrite Z2Nat.id by lia. rewrite <- padded_len.
  assert (bytes_ok (padded body ++ drop (length (padded body)) old)) as Hbp.
  { apply list.Forall_app in Hbs as [Hb1 Hb2]. unfold padded. bytes.
    - apply Forall_replicate. unfold byte_ok. lia.
    - rewrite length_app, <- drop_drop. by apply Forall_drop. }
  unfold pldm_edac_crc32.
  rewrite crc32_extend_ref; [|exact Hbp|unfold mem_size; cbn; rewrite length_app, length_drop; unfold len; lia].
  cbn [mbind outcome_bind bytes]. rewrite to_nat_len, take_app_length.
  unfold checksum_append. rewrite (mem_write_at a (len (padded body)) (padded body) _ old)
    by (rewrite ?padded_len, ?len_le_enc; lia).
  cbn [mbind outcome_bind mret outcome_ret]. unfold encoded. fold (sealed body).
  rewrite sealed_len. do 3 f_equal. lia.
Qed.

(** A table of at least twelve bytes passes the check of its checksum; a shorter one
    never does. *)
Lemma checksum_ok m body :
  mem_ok m -> bytes_ok body -> lies m 0 (sealed body) ->
  pldm_bios_table_checksum (Some m) (len (sealed body)) = Ok (12 <=? len (sealed body)).
Proof.
  intros Hm Hb Hl. unfold pldm_bios_table_checksum. rewrite Z.leb_antisym.
  destruct (Z.ltb_spec (len (sealed body)) 12); [done|]. cbn [negb].
  assert (len (sealed body) - 4 = len (padded body)) as -> by (unfold sealed; rewrite len_app, len_le_enc; lia).
  pose proof (len_nonneg (padded body)). pose proof (lies_size _ _ _ Hl) as [_ Hsz].
  unfold sealed in Hl, Hsz. rewrite len_app, len_le_enc in Hsz. apply lies_app in Hl as [Hl1 Hl2].
  assert (bytes_ok (padded body)) as Hbp by (unfold padded; bytes; apply Forall_replicate; unfold byte_ok; lia).
  pose proof (crc32_ref_range _ Hbp). read_piece. unfold pldm_edac_crc32.
  rewrite crc32_extend_ref; [|by destruct Hm|lia]. cbn [mbind outcome_bind]. rewrite to_nat_len.
  pose proof (lies_slice _ _ _ Hl1) as Es. unfold slice in Es. rewrite drop_0 in Es. rewrite Es.
  cbn [mret outcome_ret]. by rewrite Z.eqb_refl.
Qed.

(** ** Updating a value table *)

(** The list with [v] in the place of every value of its attribute. *)
Definition update_values (v : value) (es : list value) : list value :=
  (fun e => if v_handle e =? v_handle v then v else e) <$> es.

(** Why the copy of [es] into a buffer of [room] bytes stops, if it does: the entries
    are copied in order, and the type is looked at before the room. *)
Fixpoint copy_refused (v : value) (es : list value) (room : Z) : option Z :=
  match es with
  | [] => None
  | e :: es =>
      if (v_handle e =? v_handle v) && negb (value_type e =? value_type v) then Some PLDM_ERROR_INVALID_DATA
      else
        let n := len (value_bytes (if v_handle e =? v_handle v then v else e)) in
        if room <? n then Some PLDM_ERROR_INVALID_LENGTH else copy_refused v es (room - n)
  end.

Section update.
Context (m : cmem) (L : Z) (entry : cmem) (v : value) (a : Z) (old : list Z) (capacity : Z).
Hypothesis HL : 0 <= L <= INTMAX_MAX.
Hypothesis Hv : value_ok v.
Hypothesis Hentry : lies entry 0 (value_bytes v).
Hypothesis Hcap : 0 <= capacity <= len old.
Hypothesis Hold : len old <= INTMAX_MAX.

Lemma copy_entries_ok es fuel pos pre :
  to_come m L pos es -> (length es < fuel)%nat -> len pre <= capacity ->
  exists rc dest n,
    copy_entries fuel (iter_at (E:=value) m L pos) entry (len (value_bytes v)) (CMem a (pre ++ drop (length pre) old))
      capacity (len pre) = Ok (rc, dest, n) /\
    match copy_refused v es (capacity - len pre) with
    | Some e => rc = e /\ addr dest = a /\ mem_size dest = len old
    | None => rc = PLDM_SUCCESS /\ dest = encoded a (pre ++ entries_bytes (update_values v es)) old /\
        n = len (pre ++ entries_bytes (update_values v es)) /\ n <= capacity
    end.
Proof.
  revert fuel pos pre. induction es as [|e es IH]; intros [|fuel] pos pre Hat Hf Hpre; cbn [length] in Hf; try lia;
    cbn [copy_entries copy_refused].
  { rewrite to_come_nil by done. do 3 eexists. split; [reflexivity|].
    unfold encoded. change (entries_bytes (update_values v [])) with (@nil Z). by rewrite app_nil_r. }
  destruct (to_come_cons m L HL _ _ _ Hat) as (Hp & Hat' & El & -> & Eu & Hsz).
  assert (value_ok e) as He by (destruct Hat as (Hes & _); by inversion Hes).
  cbn [mbind outcome_bind]. unfold pldm_bios_table_iter_value. cbn [table_data current_pos iter_at].
  destruct (value_lies _ _ He Hp) as [Eh Et]. destruct (value_lies _ _ Hv Hentry) as [Eh' Et'].
  cbn [table_entry_length_of entry_table value_entry] in El. rewrite El. cbn [mbind outcome_bind].
  rewrite Eh, Eh', Et, Et'. cbn [mbind outcome_bind].
  assert (u64 (len (entry_bytes e)) = len (value_bytes e)) as En by (unfold u64; rewrite Z.mod_small by lia; done).
  rewrite En. change (len (entry_bytes e)) with (len (value_bytes e)) in *. rewrite Eu.
  change (set_pos (pos + len (value_bytes e)) (iter_at m L pos)) with (iter_at (E:=value) m L (pos + len (value_bytes e))).
  pose proof (entry_size v Hv) as Hvsz. change (len (entry_bytes v)) with (len (value_bytes v)) in Hvsz.
  assert (exists x p, (if v_handle e =? v_handle v then (len (value_bytes v), entry) else (len (value_bytes e), ptr_at m pos))
      = (len (value_bytes x), p) /\ x = (if v_handle e =? v_handle v then v else e) /\ lies p 0 (value_bytes x) /\
      4 <= len (value_bytes x) < 131072) as (x & p & Ex & Hx & Hlx & Hxsz).
  { destruct (v_handle e =? v_handle v); do 2 eexists; (split; [reflexivity|]); split_and!; try done; lia. }
  assert ((if v_handle e =? v_handle v then mret (value_type e =? value_type v) else mret true)
    = Ok (negb ((v_handle e =? v_handle v) && negb (value_type e =? value_type v)))) as Ety
    by (destruct (v_handle e =? v_handle v), (value_type e =? value_type v); done).
  rewrite Ety. cbn [mbind outcome_bind]. rewrite negb_involutive.
  destruct ((v_handle e =? v_handle v) && negb (value_type e =? value_type v)).
  { do 3 eexists. split; [reflexivity|]. split_and!; [done|done|]. unfold mem_size, len in *. cbn.
    rewrite length_app, length_drop. lia. }
  rewrite Ex, <- Hx. assert (u64 (len pre + len (value_bytes x)) = len pre + len (value_bytes x)) as ->
    by (unfold u64; apply Z.mod_small; pose proof (len_nonneg pre); lia).
  destruct (Z.ltb_spec (capacity - len pre) (len (value_bytes x))) as [Hroom|Hroom].
  { replace (capacity <? _) with true by lia. do 3 eexists. split; [reflexivity|]. split_and!; [done|done|].
    unfold mem_size, len in *. cbn. rewrite length_app, length_drop. lia. }
  replace (capacity <? _) with false by lia. rewrite (mem_read_lies _ _ _ Hlx). cbn [mbind outcome_bind].
  rewrite (mem_write_at a (len pre) pre (value_bytes x) old) by (done || lia). cbn [mbind outcome_bind].
  rewrite <- len_app. destruct (IH fuel (pos + len (value_bytes e)) (pre ++ value_bytes x)) as (rc & dest & n & E & Hres);
    [done|lia|rewrite len_app; lia|].
  exists rc, dest, n. split; [exact E|]. rewrite len_app, Z.sub_add_distr in Hres.
  destruct (copy_refused v es (capacity - len pre - len (value_bytes x))); [done|].
  assert (pre ++ entries_bytes (update_values v (e :: es)) = (pre ++ value_bytes x) ++ entries_bytes (update_values v es)) as ->.
  { unfold update_values. cbn [fmap list_fmap]. rewrite entries_cons, <- Hx, <- app_assoc. done. }
  exact Hres.
Qed.
End update.

(** The entry at an index is where its pointer points. *)
Lemma entry_lies {E} `{BiosEntry E} m (es : list E) i e :
  table_at m es -> es !! i = Some e -> lies (ptr_at m (len (entries_bytes (take i es)))) 0 (entry_bytes e).
Proof.
  intros (_ & _ & Hl) Hi. unfold table_bytes, sealed, padded in Hl. rewrite <- !app_assoc in Hl.
  apply lies_app in Hl as [Hl _]. pose proof (take_drop_middle es i e Hi) as Es. rewrite <- Es in Hl.
  rewrite table_entries_app, entries_cons in Hl. apply lies_app in Hl as [_ Hl]. apply lies_app in Hl as [Hl _].
  pose proof (lies_size _ _ _ Hl). pose proof (len_nonneg (entry_bytes e)).
  apply lies_ptr_at; [lia|done|]. by rewrite Z.add_0_r, Z.add_0_l in *.
Qed.

Lemma value_update_ok v es : value_ok v -> Forall value_ok es -> Forall value_ok (update_values v es).
Proof.
  intros Hv Hes. apply Forall_fmap. eapply list.Forall_impl; [exact Hes|]. intros e He. cbn.
  by destruct (v_handle e =? v_handle v).
Qed.

Lemma update_only v es x : x ∈ update_values v es -> v_handle x = v_handle v -> x = v.
Proof.
  unfold update_values. rewrite list_elem_of_fmap. intros (e & -> & _).
  destruct (Z.eqb_spec (v_handle e) (v_handle v)); [done|]. congruence.
Qed.

Lemma bytes_concat_ok {E} `{BiosEntry E} (es : list E) : Forall entry_ok es -> bytes_ok (entries_bytes es).
Proof.
  intros Hes. unfold entries_bytes. apply concat_bytes_ok. intros e He. apply entry_bytes_ok.
  by eapply Forall_elem in He.
Qed.

Lemma table_bytes_ok {E} `{BiosEntry E} (es : list E) : Forall entry_ok es -> bytes_ok (table_bytes es).
Proof.
  intros Hes. unfold table_bytes, sealed, padded. pose proof (bytes_concat_ok es Hes). bytes.
  apply Forall_replicate. unfold byte_ok. lia.
Qed.

(** What [encoded] makes of an object. *)
Lemma encoded_mem_ok a l old :
  mem_ok (CMem a old) -> bytes_ok l -> len l <= len old -> mem_ok (encoded a l old).
Proof.
  intros [Ha Hend Hmax Hbs] Hl Hn. assert (mem_size (encoded a l old) = mem_size (CMem a old)) as E.
  { unfold mem_size, encoded, len in *. cbn. rewrite length_app, length_drop. lia. }
  constructor; rewrite ?E; try done. apply list.Forall_app. split; [done|]. by apply Forall_drop.
Qed.

Lemma copy_refused_error v es room e : copy_refused v es room = Some e -> (e =? 0) = false.
Proof.
  revert room. induction es as [|x es IH]; intros room; cbn [copy_refused]; [done|].
  destruct (_ && _); [by intros [= <-]|]. destruct (room <? _); [by intros [= <-]|]. apply IH.
Qed.

(** The new value is what a search in the new table finds. *)
Lemma updated_found dest v es :
  table_at dest (update_values v es) -> v_handle v ∈ (v_handle <$> es) ->
  exists p, pldm_bios_table_attr_value_find_by_handle false dest (len (table_bytes (update_values v es))) (v_handle v)
    = Ok (Some p) /\ decode_value p = Ok (Some v).
Proof.
  intros Hat Hin. rewrite values_find by done.
  unfold first_entry. destruct (list_find _ _) as [[i x]|] eqn:Ef.
  - apply list_find_Some in Ef as (Hi & Hx & _). eexists. split; [reflexivity|].
    assert (x = v) as -> by (eapply update_only; [by eapply list_elem_of_lookup_2|done]).
    apply decode_value_lies; [|exact (entry_lies (E:=value) dest _ i v Hat Hi)].
    destruct Hat as (_ & Hes & _). rewrite Forall_lookup in Hes. by eapply Hes.
  - exfalso. apply list_find_None in Ef. apply list_elem_of_fmap in Hin as (e & Eh & He).
    rewrite Forall_elem in Ef. apply (Ef v); [|done]. unfold update_values. apply list_elem_of_fmap.
    exists e. split; [|done]. by rewrite Eh, Z.eqb_refl.
Qed.

(** C19: updating an attribute value rewrites the table as the list.  Copying a value
    table with any entries to another buffer with a new entry puts the new entry in the
    place of every entry of its attribute, leaves the others and the order alone, and
    closes the table with its padding and checksum.  The copy is refused, and the
    caller's length left alone, exactly when an entry of the attribute has another
    type, reached before the buffer is full, or when the buffer is too small for the
    entries, the padding and the checksum.  The new table passes the check of its
    checksum if it has the twelve bytes this check asks for, and a search in it for the
    attribute finds the new value, if the old table had one. *)
Theorem bios_value_update m es entry v a old capacity :
  table_at m es -> value_ok v -> lies entry 0 (value_bytes v) -> mem_ok (CMem a old) -> 0 <= capacity <= len old ->
  let es' := update_values v es in
  exists rc dest n,
    pldm_bios_table_attr_value_copy_and_update false m (len (table_bytes es)) (CMem a old) capacity entry
      (len (value_bytes v)) = Ok (rc, dest, n) /\
    match copy_refused v es capacity with
    | Some e => rc = e /\ n = capacity
    | None =>
        if capacity <? len (table_bytes es') then rc = PLDM_ERROR_INVALID_LENGTH /\ n = capacity
        else
          rc = PLDM_SUCCESS /\ n = len (table_bytes es') /\ dest = encoded a (table_bytes es') old /\
          table_at dest es' /\ pldm_bios_table_checksum (Some dest) n = Ok (12 <=? n) /\
          (v_handle v ∈ (v_handle <$> es) ->
           exists p, pldm_bios_table_attr_value_find_by_handle false dest n (v_handle v) = Ok (Some p) /\
             decode_value p = Ok (Some v))
    end.
Proof.
  intros Hat Hv Hl Hm Hcap es'. subst es'. destruct (table_to_come m es Hat) as [Hto HL]. destruct Hat as (Hmm & Hes & Hlt).
  assert (len old <= INTMAX_MAX) as Hmax by (destruct Hm; done). pose proof (entries_len es Hes).
  pose proof (pad_size_range (len (entries_bytes es))). pose proof (value_update_ok v es Hv Hes) as Hes'.
  destruct (copy_entries_ok m (len (table_bytes es)) entry v a old capacity HL Hv Hl Hcap Hmax es
    (S (Z.to_nat (len (table_bytes es)))) 0 []) as (rc & dest & n & E & Hres); [done| |change (len (@nil Z)) with 0; lia|].
  { unfold table_bytes. rewrite sealed_len. unfold len in *. lia. }
  cbn [app length] in *. change (len (@nil Z)) with 0 in *. rewrite drop_0 in E. rewrite Z.sub_0_r in Hres.
  unfold pldm_bios_table_attr_value_copy_and_update, pldm_bios_table_iter_create.
  cbn [negb c_assert mret outcome_ret mbind outcome_bind].
  change (TableIter m (len (table_bytes es)) 0 (table_entry_length_of PLDM_BIOS_ATTR_VAL_TABLE))
    with (iter_at (E:=value) m (len (table_bytes es)) 0). rewrite E. cbn [mbind outcome_bind].
  destruct (copy_refused v es capacity) as [e|] eqn:Er.
  { destruct Hres as (-> & _). rewrite (copy_refused_error _ _ _ _ Er). by do 3 eexists. }
  destruct Hres as (-> & -> & -> & Hn). cbn [Z.eqb]. 
  assert (len (table_bytes (update_values v es)) = pldm_bios_table_pad_checksum_size (len (entries_bytes (update_values v es))) + len (entries_bytes (update_values v es)))
    as El by (unfold table_bytes, pldm_bios_table_pad_checksum_size; rewrite sealed_len; lia).
  pose proof (pad_size_range (len (entries_bytes (update_values v es)))). pose proof (len_nonneg (entries_bytes (update_values v es))).
  unfold u64. rewrite Z.mod_small by (unfold pldm_bios_table_pad_checksum_size; lia). rewrite <- El.
  destruct (Z.ltb_spec capacity (len (table_bytes (update_values v es)))) as [Hfull|Hfit]; [by do 3 eexists|].
  unfold encoded. rewrite table_append_ok;
    [|apply (encoded_mem_ok a _ old); [done|by apply bytes_concat_ok|lia]
     |fold (table_bytes (update_values v es)); lia].
  cbn [mbind outcome_bind mret outcome_ret default from_option id Z.eqb]. do 3 eexists. split; [reflexivity|].
  fold (table_bytes (update_values v es)). assert (mem_ok (encoded a (table_bytes (update_values v es)) old)) as Hdm
    by (apply encoded_mem_ok; [done|by apply table_bytes_ok|lia]).
  assert (table_at (encoded a (table_bytes (update_values v es)) old) (update_values v es)) as Hdt by (split_and!; [done|done|apply encoded_lies]).
  split_and!; try done.
  - apply checksum_ok; [done|by apply bytes_concat_ok|apply encoded_lies].
  - intros Hin. by apply updated_found.
Qed.

(** ** Tables at work *)

Ltac sample_ok :=
  repeat (apply Forall_cons_2 || apply Forall_nil_2);
  cbn [entry_ok string_entry value_entry]; unfold string_ok, value_ok; cbn; split_and!; try done; repeat (apply Forall_cons_2 || apply Forall_nil_2);
  unfold byte_ok; lia.

(** A table on its own in a buffer. *)
Lemma sample_table {E} `{BiosEntry E} (es : list E) a :
  0 < a -> a + len (table_bytes es) <= INTMAX_MAX -> Forall entry_ok es -> table_at (CMem a (table_bytes es)) es.
Proof.
  intros Ha He Hes. split_and!; [|done|].
  - constructor; unfold mem_size; cbn [addr bytes]; fold (len (table_bytes es)); [lia|lia|lia|by apply table_bytes_ok].
  - pose proof (lies_prefix a (table_bytes es) []) as Hl. by rewrite app_nil_r in Hl.
Qed.

Definition sample_strings : list bios_string := [BString 0 [65]; BString 1 [66; 67]; BString 2 [66; 67]].
Definition sample_values : list value := [Value 1 false (VEnum [0]); Value 2 false (VString [65; 66])].

Lemma bios_tables_search_witness :
  let m := CMem 64 (table_bytes sample_strings) in
  let n := len (table_bytes sample_strings) in
  pldm_bios_table_string_find_by_handle false m n 2 = Ok (Some (ptr_at m 11)) /\
  pldm_bios_table_string_find_by_handle false m n 3 = Ok None /\
  pldm_bios_table_string_find_by_string false m n (CMem 0 [66; 67; 0]) = Ok (Some (ptr_at m 5)) /\
  pldm_bios_table_string_find_by_string false m n (CMem 0 [66; 0]) = Ok None.
Proof.
  intros m n. destruct (bios_tables_search m) as (Hh & Hs & _).
  assert (table_at m sample_strings) as Hat.
  { apply (sample_table sample_strings 64); [done|by vm_compute|]. sample_ok. }
  split; [exact (Hh sample_strings 2 Hat)|]. split; [exact (Hh sample_strings 3 Hat)|].
  split.
  - exact (Hs sample_strings (CMem 0 [66; 67; 0]) [66; 67] Hat (lies_prefix 0 [66; 67; 0] []) ltac:(by repeat constructor) eq_refl).
  - exact (Hs sample_strings (CMem 0 [66; 0]) [66] Hat (lies_prefix 0 [66; 0] []) ltac:(by repeat constructor) eq_refl).
Defined.

Lemma bios_value_update_witness :
  let es := sample_values in
  let m := CMem 64 (table_bytes es) in
  let v := Value 1 false (VEnum [1; 2]) in
  let es' := [v; Value 2 false (VString [65; 66])] in
  let old := room 32 in
  let new := encoded 16 (table_bytes es') old in
  pldm_bios_table_attr_value_copy_and_update false m (len (table_bytes es)) (CMem 16 old) 32 (CMem 0 (value_bytes v))
    (len (value_bytes v)) = Ok (PLDM_SUCCESS, new, len (table_bytes es')) /\
  pldm_bios_table_checksum (Some new) (len (table_bytes es')) = Ok true.
Proof.
  intros es m v es' old new.
  assert (table_at m es) as Hat by (apply (sample_table es 64); [done|by vm_compute|]; sample_ok).
  assert (value_ok v) as Hv by (unfold v; sample_ok).
  assert (mem_ok (CMem 16 old)) as Hm by (constructor; [done|by vm_compute|by vm_compute|by apply Forall_replicate]).
  destruct (bios_value_update m es (CMem 0 (value_bytes v)) v 16 old 32 Hat Hv (lies_prefix 0 (value_bytes v) []) Hm)
    as (rc & dest & n & E & Hres); [by vm_compute|].
  change (update_values v es) with es' in Hres. cbn [copy_refused] in Hres. destruct Hres as (-> & -> & -> & _ & Hc & _).
  split; [exact E|exact Hc].
Defined.
