(* ===== verification/Platform.v ===== *)
(** * Platform monitoring and control: the commands (src/dsp/platform.c)

    PDR access, effecters, sensors, event receivers and the terminus UID.  An array of
    structs of bytes in the caller's memory is the list of their tuples.  An argument
    that groups the outputs of a decoder is [None] when one of the pointers is NULL. *)

From S2P Require Import Prelude Msgbuf Layout Base Legacy.

(** ** Constants *)

Abbreviation PLDM_PLATFORM := 2 (only parsing).
Abbreviation PLDM_GET_TERMINUS_UID := 0x03 (only parsing).
Abbreviation PLDM_SET_EVENT_RECEIVER := 0x04 (only parsing).
Abbreviation PLDM_GET_EVENT_RECEIVER := 0x05 (only parsing).
Abbreviation PLDM_SET_NUMERIC_SENSOR_ENABLE := 0x10 (only parsing).
Abbreviation PLDM_GET_SENSOR_READING := 0x11 (only parsing).
Abbreviation PLDM_GET_STATE_SENSOR_READINGS := 0x21 (only parsing).
Abbreviation PLDM_SET_NUMERIC_EFFECTER_ENABLE := 0x30 (only parsing).
Abbreviation PLDM_SET_NUMERIC_EFFECTER_VALUE := 0x31 (only parsing).
Abbreviation PLDM_GET_NUMERIC_EFFECTER_VALUE := 0x32 (only parsing).
Abbreviation PLDM_SET_STATE_EFFECTER_ENABLES := 0x38 (only parsing).
Abbreviation PLDM_SET_STATE_EFFECTER_STATES := 0x39 (only parsing).
Abbreviation PLDM_GET_STATE_EFFECTER_STATES := 0x3a (only parsing).
Abbreviation PLDM_GET_PDR_REPOSITORY_INFO := 0x50 (only parsing).
Abbreviation PLDM_GET_PDR := 0x51 (only parsing).

Abbreviation PLDM_END := 4 (only parsing).
Abbreviation PLDM_FAILED := 2 (only parsing).
Abbreviation EFFECTER_OPER_STATE_UNAVAILABLE := 3 (only parsing).
Abbreviation EFFECTER_OPER_STATE_INTEST := 8 (only parsing).
Abbreviation PLDM_SET_SENSOR_UNAVAILABLE := 2 (only parsing).
Abbreviation PLDM_STATE_EVENTS_ONLY_ENABLED := 4 (only parsing).
Abbreviation PLDM_TRANSPORT_PROTOCOL_TYPE_MCTP := 0 (only parsing).
Abbreviation PLDM_EVENT_MESSAGE_GLOBAL_ENABLE_ASYNC_KEEP_ALIVE := 3 (only parsing).

(** ** Values whose type comes with them *)

(** The C type behind a data size of a sensor or an effecter. *)
Definition data_size_kind (tag : Z) : option kind :=
  match tag with
  | 0 => Some KU8 | 1 => Some KI8 | 2 => Some KU16 | 3 => Some KI16 | 4 => Some KU32 | 5 => Some KI32
  | 6 => Some KU64 | 7 => Some KI64 | _ => None
  end.

Definition range_field_kind (tag : Z) : option kind :=
  match tag with
  | 0 => Some KU8 | 1 => Some KI8 | 2 => Some KU16 | 3 => Some KI16 | 4 => Some KU32 | 5 => Some KI32
  | 6 => Some KR32 | 7 => Some KU64 | 8 => Some KI64 | _ => None
  end.

(** Extract into the front of the object [dst], a buffer or a union, in host order. *)
Definition extract_value (k : option kind) (dst : list Z) : B (Z * list Z) :=
  match k with
  | None => mret (- PLDM_ERROR_INVALID_DATA, dst)
  | Some k =>
    '(rc, v) ← pldm_msgbuf_extract k 0;
    if_err rc return_ mret (rc, dst);;
    dst ← lift (array_store dst (le_enc (kind_size k) v));
    mret (0, dst)
  end.

Definition pldm_msgbuf_extract_sensor_data (tag : Z) := extract_value (data_size_kind tag).
Definition pldm_msgbuf_extract_sensor_value (tag : Z) := extract_value (data_size_kind tag).
Definition pldm_msgbuf_extract_effecter_value (tag : Z) := extract_value (data_size_kind tag).
Definition pldm__msgbuf_extract_effecter_data (tag : Z) := extract_value (data_size_kind tag).
Definition pldm__msgbuf_extract_range_field_format (tag : Z) := extract_value (range_field_kind tag).

(** The bytes of a value in the encoders, which pair the signed and unsigned sizes. *)
Definition value_width (tag : Z) : Z :=
  if (tag =? 0) || (tag =? 1) then 1
  else if (tag =? 2) || (tag =? 3) then 2
  else if (tag =? 4) || (tag =? 5) then 4
  else if (tag =? 6) || (tag =? 7) then 8
  else 0.

(** Read a value of [n] bytes through the caller's pointer, and convert it. *)
Definition value_bytes (p : cmem) (n : Z) : outcome (list Z) :=
  v ← mem_le p 0 n; mret (le_enc (Z.to_nat n) v).

(** ** PDR access *)

Record pldm_get_pdr_req := GetPdrReq {
  gp_record_handle : Z; gp_data_transfer_handle : Z; gp_transfer_op_flag : Z;
  gp_request_count : Z; gp_record_change_number : Z
}.

Definition encode_get_pdr_req (instance_id : Z) (r : pldm_get_pdr_req) (msg : option pldm_msg)
    (payload_length : Z) : outcome (Z * option pldm_msg) :=
  match msg with
  | None => Ok (PLDM_ERROR_INVALID_DATA, msg)
  | Some m =>
    if negb (payload_length =? 13) then Ok (PLDM_ERROR_INVALID_LENGTH, msg)
    else
    legacy_frame PLDM_REQUEST instance_id PLDM_PLATFORM PLDM_GET_PDR m (fun m =>
      m ← put_members m 0 [(4%nat, gp_record_handle r); (4%nat, gp_data_transfer_handle r);
            (1%nat, gp_transfer_op_flag r); (2%nat, gp_request_count r); (2%nat, gp_record_change_number r)];
      mret (PLDM_SUCCESS, Some m))
  end.

Definition decode_get_pdr_req (msg : option pldm_msg) (payload_length : Z) (outs : option pldm_get_pdr_req)
  : outcome (Z * option pldm_get_pdr_req) :=
  match msg, outs with
  | Some msg, Some r =>
    if negb (payload_length =? 13) then Ok (PLDM_ERROR_INVALID_LENGTH, outs)
    else
    '(rc, r) ← legacy_decode 13 msg payload_length r (
      '(_, record_hndl) ← pldm_msgbuf_extract KU32 (gp_record_handle r);
      '(_, data_transfer_hndl) ← pldm_msgbuf_extract KU32 (gp_data_transfer_handle r);
      '(_, transfer_op_flag) ← pldm_msgbuf_extract KU8 (gp_transfer_op_flag r);
      '(_, request_cnt) ← pldm_msgbuf_extract KU16 (gp_request_count r);
      '(_, record_chg_num) ← pldm_msgbuf_extract KU16 (gp_record_change_number r);
      finish pldm_msgbuf_ro_complete
        (GetPdrReq record_hndl data_transfer_hndl transfer_op_flag request_cnt record_chg_num));
    mret (rc, Some r)
  | _, _ => Ok (PLDM_ERROR_INVALID_DATA, outs)
  end.

(** [record_data] is what follows the fixed members of the response. *)
Record pldm_get_pdr_resp := GetPdrResp {
  gr_completion_code : Z; gr_next_record_handle : Z; gr_next_data_transfer_handle : Z;
  gr_transfer_flag : Z; gr_response_count : Z; gr_record_data : list Z
}.

Definition encode_get_pdr_resp (instance_id completion_code next_record_hndl next_data_transfer_hndl
    transfer_flag resp_cnt : Z) (record_data : option cmem) (transfer_crc : Z) (msg : option pldm_msg)
  : outcome (Z * option pldm_msg) :=
  match msg with
  | None => Ok (PLDM_ERROR_INVALID_DATA, msg)
  | Some m =>
    legacy_frame PLDM_RESPONSE instance_id PLDM_PLATFORM PLDM_GET_PDR m (fun m =>
      m ← put_members m 0 [(1%nat, completion_code)];
      if negb (completion_code =? PLDM_SUCCESS) then mret (PLDM_SUCCESS, Some m)
      else
      m ← put_members m 1 [(4%nat, next_record_hndl); (4%nat, next_data_transfer_hndl);
            (1%nat, transfer_flag); (2%nat, resp_cnt)];
      m ← (match record_data with
           | Some p => if 0 <? resp_cnt then l ← mem_read p 0 resp_cnt; payload_write m 12 l else mret m
           | None => mret m
           end);
      m ← (if transfer_flag =? PLDM_END then payload_write m (12 + resp_cnt) [transfer_crc] else mret m);
      mret (PLDM_SUCCESS, Some m))
  end.

(** The outputs of the older decoder: the record goes to a buffer of the caller, of the
    length it says, if there is one. *)
Definition decode_get_pdr_resp (msg : option pldm_msg) (payload_length : Z)
    (outs : option (Z * Z * Z * Z * Z)) (record_data : option (list Z)) (record_data_length : Z)
    (transfer_crc : option Z)
  : outcome (Z * option (Z * Z * Z * Z * Z) * option (list Z) * option Z) :=
  match msg, outs, transfer_crc with
  | Some msg, Some (cc, next, nextdt, flag, cnt), Some crc =>
    '(rc, (outs, record_data, crc)) ← legacy_decode 12 msg payload_length
        ((cc, next, nextdt, flag, cnt), record_data, crc) (
      checked (pldm_msgbuf_extract KU8 cc)
        (fun cc => ((cc, next, nextdt, flag, cnt), record_data, crc)) (fun cc =>
      if negb (cc =? PLDM_SUCCESS) then
        rc ← pldm_msgbuf_ro_complete; mret (rc, ((cc, next, nextdt, flag, cnt), record_data, crc))
      else
      '(_, next) ← pldm_msgbuf_extract KU32 next;
      '(_, nextdt) ← pldm_msgbuf_extract KU32 nextdt;
      '(_, flag) ← pldm_msgbuf_extract KU8 flag;
      checked (pldm_msgbuf_extract KU16 cnt)
        (fun cnt => ((cc, next, nextdt, flag, cnt), record_data, crc)) (fun cnt =>
      let outs := (cc, next, nextdt, flag, cnt) in
      let tail record_data :=
        '(_, crc) ← (if flag =? PLDM_END then pldm_msgbuf_extract KU8 crc else mret (0, crc));
        finish pldm_msgbuf_ro_complete (outs, record_data, crc) in
      match record_data with
      | Some d =>
        if 0 <? cnt then
          if record_data_length <? cnt then refuse PLDM_ERROR_INVALID_LENGTH (outs, record_data, crc)
          else
          checked (pldm_msgbuf_extract_array_uint8 cnt d cnt)
            (fun d => (outs, Some d, crc)) (fun d => tail (Some d))
        else tail record_data
      | None => tail record_data
      end)));
    mret (rc, Some outs, record_data, Some crc)
  | _, _, _ => Ok (PLDM_ERROR_INVALID_DATA, outs, record_data, transfer_crc)
  end.

Definition decode_get_pdr_resp_safe (msg : option pldm_msg) (payload_length : Z)
    (resp : option pldm_get_pdr_resp) (resp_len : Z) (transfer_crc : option Z)
  : outcome (Z * option pldm_get_pdr_resp * option Z) :=
  match msg, resp, transfer_crc with
  | Some msg, Some r, Some crc =>
    rc ← pldm_msg_has_error msg payload_length;
    if negb (rc =? 0) then
      mret (0, Some (GetPdrResp rc (gr_next_record_handle r) (gr_next_data_transfer_handle r)
                       (gr_transfer_flag r) (gr_response_count r) (gr_record_data r)), Some crc)
    else
    '(rc, (r, crc)) ← decode_frame 12 msg payload_length (r, crc) (
      '(_, cc) ← pldm_msgbuf_extract KU8 (gr_completion_code r);
      '(_, next) ← pldm_msgbuf_extract KU32 (gr_next_record_handle r);
      '(_, nextdt) ← pldm_msgbuf_extract KU32 (gr_next_data_transfer_handle r);
      checked_errno (pldm_msgbuf_extract KU8 (gr_transfer_flag r))
        (fun flag => (GetPdrResp cc next nextdt flag (gr_response_count r) (gr_record_data r), crc)) (fun flag =>
      checked_errno (pldm_msgbuf_extract KU16 (gr_response_count r))
        (fun cnt => (GetPdrResp cc next nextdt flag cnt (gr_record_data r), crc)) (fun cnt =>
      checked_errno (pldm__msgbuf_extract_array_void cnt (gr_record_data r) (u64 (resp_len - 12)))
        (fun d => (GetPdrResp cc next nextdt flag cnt d, crc)) (fun d =>
      '(_, crc) ← (if flag =? PLDM_END then pldm_msgbuf_extract KU8 crc else mret (0, crc));
      finish_errno pldm_msgbuf_ro_complete_consumed (GetPdrResp cc next nextdt flag cnt d, crc)))));
    mret (rc, Some r, Some crc)
  | _, _, _ => Ok (- EINVAL, resp, transfer_crc)
  end.

Definition encode_get_pdr_repository_info_req (instance_id : Z) (msg : option pldm_msg)
    (payload_length : Z) : outcome (Z * option pldm_msg) :=
  match msg with
  | None => Ok (- EINVAL, msg)
  | Some m =>
    let '(rc, m) := pack_into PLDM_REQUEST instance_id PLDM_PLATFORM PLDM_GET_PDR_REPOSITORY_INFO m in
    mret (rc, Some m)
  end.

Record pldm_pdr_repository_info_resp := RepoInfoResp {
  pi_completion_code : Z; pi_repository_state : Z; pi_update_time : list Z; pi_oem_update_time : list Z;
  pi_record_count : Z; pi_repository_size : Z; pi_largest_record_size : Z;
  pi_data_transfer_handle_timeout : Z
}.

(** A time stamp the caller may leave out. *)
Definition put_time (m : pldm_msg) (off : Z) (time : option cmem) : outcome pldm_msg :=
  match time with
  | Some p => l ← mem_read p 0 13; payload_write m off l
  | None => mret m
  end.

Definition encode_get_pdr_repository_info_resp (instance_id completion_code repository_state : Z)
    (update_time oem_update_time : option cmem)
    (record_count repository_size largest_record_size data_transfer_handle_timeout : Z)
    (msg : option pldm_msg) : outcome (Z * option pldm_msg) :=
  match msg with
  | None => Ok (PLDM_ERROR_INVALID_DATA, msg)
  | Some m =>
    legacy_frame PLDM_RESPONSE instance_id PLDM_PLATFORM PLDM_GET_PDR_REPOSITORY_INFO m (fun m =>
      m ← put_members m 0 [(1%nat, completion_code)];
      if negb (completion_code =? PLDM_SUCCESS) then mret (PLDM_SUCCESS, Some m)
      else
      m ← put_members m 1 [(1%nat, repository_state)];
      m ← put_time m 2 update_time;
      m ← put_time m 15 oem_update_time;
      m ← put_members m 28 [(4%nat, record_count); (4%nat, repository_size);
            (4%nat, largest_record_size); (1%nat, data_transfer_handle_timeout)];
      mret (PLDM_SUCCESS, Some m))
  end.

Definition decode_get_pdr_repository_info_resp (msg : option pldm_msg) (payload_length : Z)
    (outs : option pldm_pdr_repository_info_resp) : outcome (Z * option pldm_pdr_repository_info_resp) :=
  match msg, outs with
  | Some msg, Some r =>
    let '(RepoInfoResp cc state time oem count size largest timeout) := r in
    '(rc, r) ← legacy_decode 41 msg payload_length r (
      checked_cc cc (fun cc => RepoInfoResp cc state time oem count size largest timeout) (fun cc =>
      checked (pldm_msgbuf_extract KU8 state)
        (fun state => RepoInfoResp cc state time oem count size largest timeout) (fun state =>
      if PLDM_FAILED <? state then
        refuse PLDM_ERROR_INVALID_DATA (RepoInfoResp cc state time oem count size largest timeout)
      else
      checked (pldm__msgbuf_extract_array_void 13 time 13)
        (fun time => RepoInfoResp cc state time oem count size largest timeout) (fun time =>
      checked (pldm__msgbuf_extract_array_void 13 oem 13)
        (fun oem => RepoInfoResp cc state time oem count size largest timeout) (fun oem =>
      '(_, count) ← pldm_msgbuf_extract KU32 count;
      '(_, size) ← pldm_msgbuf_extract KU32 size;
      '(_, largest) ← pldm_msgbuf_extract KU32 largest;
      '(_, timeout) ← pldm_msgbuf_extract KU8 timeout;
      finish pldm_msgbuf_ro_complete (RepoInfoResp cc state time oem count size largest timeout))))));
    mret (rc, Some r)
  | _, _ => Ok (PLDM_ERROR_INVALID_DATA, outs)
  end.

Definition decode_get_pdr_repository_info_resp_safe (msg : option pldm_msg) (payload_length : Z)
    (resp : option pldm_pdr_repository_info_resp) : outcome (Z * option pldm_pdr_repository_info_resp) :=
  match msg, resp with
  | Some msg, Some r =>
    let '(RepoInfoResp cc state time oem count size largest timeout) := r in
    rc ← pldm_msg_has_error msg payload_length;
    if negb (rc =? 0) then mret (0, Some (RepoInfoResp rc state time oem count size largest timeout))
    else
    '(rc, r) ← decode_frame 41 msg payload_length r (
      checked_errno (pldm_msgbuf_extract KU8 cc)
        (fun cc => RepoInfoResp cc state time oem count size largest timeout) (fun cc =>
      '(_, state) ← pldm_msgbuf_extract KU8 state;
      checked_errno (pldm__msgbuf_extract_array_void 13 time 13)
        (fun time => RepoInfoResp cc state time oem count size largest timeout) (fun time =>
      checked_errno (pldm__msgbuf_extract_array_void 13 oem 13)
        (fun oem => RepoInfoResp cc state time oem count size largest timeout) (fun oem =>
      '(_, count) ← pldm_msgbuf_extract KU32 count;
      '(_, size) ← pldm_msgbuf_extract KU32 size;
      '(_, largest) ← pldm_msgbuf_extract KU32 largest;
      '(_, timeout) ← pldm_msgbuf_extract KU8 timeout;
      finish_errno pldm_msgbuf_ro_complete_consumed
        (RepoInfoResp cc state time oem count size largest timeout)))));
    mret (rc, Some r)
  | _, _ => Ok (- EINVAL, resp)
  end.

(** ** State effecters *)

Definition set_effecter_state_field : Type := Z * Z.   (* set_request, effecter_state *)

Definition pairs_bytes (l : list (Z * Z)) : list Z := concat ((fun '(a, b) => [a; b]) <$> l).

(** A response that is its completion code. *)
Definition encode_cc_resp (instance_id command completion_code : Z) (msg : option pldm_msg)
  : outcome (Z * option pldm_msg) :=
  match msg with
  | None => Ok (PLDM_ERROR_INVALID_DATA, msg)
  | Some m =>
    legacy_frame PLDM_RESPONSE instance_id PLDM_PLATFORM command m (fun m =>
      m ← payload_write m 0 [completion_code];
      mret (PLDM_SUCCESS, Some m))
  end.

Definition encode_set_state_effecter_states_resp (instance_id completion_code : Z) (msg : option pldm_msg) :=
  encode_cc_resp instance_id PLDM_SET_STATE_EFFECTER_STATES completion_code msg.

Definition encode_set_state_effecter_states_req (instance_id effecter_id comp_effecter_count : Z)
    (field : option (list set_effecter_state_field)) (msg : option pldm_msg)
  : outcome (Z * option pldm_msg) :=
  match msg, field with
  | Some m, Some field =>
    if (comp_effecter_count <? 1) || (8 <? comp_effecter_count) then Ok (PLDM_ERROR_INVALID_DATA, msg)
    else
    legacy_frame PLDM_REQUEST instance_id PLDM_PLATFORM PLDM_SET_STATE_EFFECTER_STATES m (fun m =>
      m ← put_members m 0 [(2%nat, effecter_id); (1%nat, comp_effecter_count)];
      l ← array_first field comp_effecter_count;
      m ← payload_write m 3 (pairs_bytes l);
      mret (PLDM_SUCCESS, Some m))
  | _, _ => Ok (PLDM_ERROR_INVALID_DATA, msg)
  end.

Definition decode_set_state_effecter_states_resp (msg : option pldm_msg) (payload_length : Z)
    (completion_code : option Z) : outcome (Z * option Z) :=
  match msg, completion_code with
  | Some m, Some _ =>
    cc ← member m 0 1;
    if negb (cc =? PLDM_SUCCESS) then mret (PLDM_SUCCESS, Some cc)
    else if 1 <? payload_length then mret (PLDM_ERROR_INVALID_LENGTH, Some cc)
    else mret (PLDM_SUCCESS, Some cc)
  | _, _ => Ok (PLDM_ERROR_INVALID_DATA, completion_code)
  end.

Definition extract_pair (p : Z * Z) : B (Z * Z) :=
  '(_, a) ← pldm_msgbuf_extract KU8 p.1;
  '(_, b) ← pldm_msgbuf_extract KU8 p.2;
  mret (a, b).

Definition decode_set_state_effecter_states_req (msg : option pldm_msg) (payload_length : Z)
    (outs : option (Z * Z * list set_effecter_state_field))
  : outcome (Z * option (Z * Z * list set_effecter_state_field)) :=
  match msg, outs with
  | Some msg, Some (id, count, field) =>
    if 19 <? payload_length then Ok (PLDM_ERROR_INVALID_LENGTH, outs)
    else
    '(rc, outs) ← legacy_decode 3 msg payload_length (id, count, field) (
      '(_, id) ← pldm_msgbuf_extract KU16 id;
      checked (pldm_msgbuf_extract KU8 count) (fun count => (id, count, field)) (fun count =>
      if 8 <? count then refuse PLDM_ERROR_INVALID_DATA (id, count, field)
      else
      field ← each extract_pair (Z.to_nat count) field;
      finish pldm_msgbuf_ro_complete (id, count, field)));
    mret (rc, Some outs)
  | _, _ => Ok (PLDM_ERROR_INVALID_DATA, outs)
  end.

Definition set_effecter_op_field : Type := Z * Z.   (* effecter_op_state, event_msg_enable *)

Definition encode_set_state_effecter_enables_req (instance_id effecter_id comp_effecter_count : Z)
    (field : option (list set_effecter_op_field)) (msg : option pldm_msg) : outcome (Z * option pldm_msg) :=
  match msg, field with
  | Some m, Some field =>
    if (comp_effecter_count <? 1) || (8 <? comp_effecter_count) then Ok (PLDM_ERROR_INVALID_DATA, msg)
    else
    legacy_frame PLDM_REQUEST instance_id PLDM_PLATFORM PLDM_SET_STATE_EFFECTER_ENABLES m (fun m =>
      m ← put_members m 0 [(2%nat, effecter_id); (1%nat, comp_effecter_count)];
      l ← array_first field comp_effecter_count;
      m ← payload_write m 3 (pairs_bytes l);
      mret (PLDM_SUCCESS, Some m))
  | _, _ => Ok (PLDM_ERROR_INVALID_DATA, msg)
  end.

(** effecter_op_state, pending_state, present_state *)
Definition get_effecter_state_field : Type := Z * Z * Z.

Record pldm_get_state_effecter_states_resp := EffStatesResp {
  es_completion_code : Z; es_comp_effecter_count : Z; es_field : list get_effecter_state_field
}.

Definition encode_get_state_effecter_states_req (instance_id effecter_id : Z) (msg : option pldm_msg)
    (payload_length : Z) : outcome (Z * option pldm_msg) :=
  match msg with
  | None => Ok (- EINVAL, msg)
  | Some m =>
    '(rc, msg, _) ← encode_frame PLDM_REQUEST instance_id PLDM_PLATFORM PLDM_GET_STATE_EFFECTER_STATES
        2 m payload_length (
      _ ← pldm_msgbuf_insert KU16 effecter_id;
      rc ← pldm_msgbuf_rw_complete_consumed;
      mret (rc, payload_length));
    mret (rc, msg)
  end.

Definition decode_get_state_effecter_states_req (msg : option pldm_msg) (payload_length : Z)
    (effecter_id : option Z) : outcome (Z * option Z) :=
  match msg, effecter_id with
  | Some msg, Some id =>
    '(rc, id) ← decode_frame 2 msg payload_length id (
      '(_, id) ← pldm_msgbuf_extract KU16 id;
      finish_errno pldm_msgbuf_ro_complete_consumed id);
    mret (rc, Some id)
  | _, _ => Ok (- EINVAL, effecter_id)
  end.

Definition extract_triple (p : Z * Z * Z) : B (Z * Z * Z) :=
  let '(a, b, c) := p in
  '(_, a) ← pldm_msgbuf_extract KU8 a;
  '(_, b) ← pldm_msgbuf_extract KU8 b;
  '(_, c) ← pldm_msgbuf_extract KU8 c;
  mret (a, b, c).

Definition decode_get_state_effecter_states_resp (msg : option pldm_msg) (payload_length : Z)
    (resp : option pldm_get_state_effecter_states_resp)
  : outcome (Z * option pldm_get_state_effecter_states_resp) :=
  match msg, resp with
  | Some msg, Some (EffStatesResp cc count field) =>
    '(rc, r) ← decode_frame 2 msg payload_length (EffStatesResp cc count field) (
      checked_errno (pldm_msgbuf_extract KU8 cc) (fun cc => EffStatesResp cc count field) (fun cc =>
      if negb (cc =? PLDM_SUCCESS) then
        finish_errno pldm_msgbuf_ro_complete (EffStatesResp cc count field)
      else
      checked_errno (pldm_msgbuf_extract KU8 count) (fun count => EffStatesResp cc count field) (fun count =>
      if (count <? 1) || (8 <? count) then refuse (- EBADMSG) (EffStatesResp cc count field)
      else
      field ← each extract_triple (Z.to_nat count) field;
      finish_errno pldm_msgbuf_ro_complete_consumed (EffStatesResp cc count field))));
    mret (rc, Some r)
  | _, _ => Ok (- EINVAL, resp)
  end.

(** The loop over [n] fields of the response. *)
Fixpoint insert_triples (n : nat) (l : list get_effecter_state_field) : B unit :=
  match n, l with
  | O, _ => mret tt
  | S n, (a, b, c) :: l =>
    _ ← pldm_msgbuf_insert KU8 a;
    _ ← pldm_msgbuf_insert KU8 b;
    _ ← pldm_msgbuf_insert KU8 c;
    insert_triples n l
  | S _, [] => fun _ => Fault FMemory
  end.

Definition encode_get_state_effecter_states_resp (instance_id : Z)
    (resp : option pldm_get_state_effecter_states_resp) (msg : option pldm_msg) (payload_length : Z)
  : outcome (Z * option pldm_msg) :=
  match msg, resp with
  | Some m, Some (EffStatesResp cc count field) =>
    if (count <? 1) || (8 <? count) then Ok (- EBADMSG, msg)
    else
    '(rc, msg, _) ← encode_frame PLDM_RESPONSE instance_id PLDM_PLATFORM PLDM_GET_STATE_EFFECTER_STATES
        2 m payload_length (
      _ ← pldm_msgbuf_insert KU8 cc;
      _ ← pldm_msgbuf_insert KU8 count;
      _ ← insert_triples (Z.to_nat count) field;
      rc ← pldm_msgbuf_rw_complete_consumed;
      mret (rc, payload_length));
    mret (rc, msg)
  | _, _ => Ok (- EINVAL, msg)
  end.

(** ** Numeric effecters *)

Definition encode_set_numeric_effecter_enable_req (instance_id effecter_id effecter_operational_state : Z)
    (msg : option pldm_msg) : outcome (Z * option pldm_msg) :=
  match msg with
  | None => Ok (PLDM_ERROR_INVALID_DATA, msg)
  | Some m =>
    if EFFECTER_OPER_STATE_UNAVAILABLE <? effecter_operational_state then Ok (PLDM_ERROR_INVALID_DATA, msg)
    else
    legacy_frame PLDM_REQUEST instance_id PLDM_PLATFORM PLDM_SET_NUMERIC_EFFECTER_ENABLE m (fun m =>
      m ← put_members m 0 [(2%nat, effecter_id); (1%nat, effecter_operational_state)];
      mret (PLDM_SUCCESS, Some m))
  end.

(** The value goes to the caller's eight bytes, in host order. *)
Definition decode_set_numeric_effecter_value_req (msg : option pldm_msg) (payload_length : Z)
    (outs : option (Z * Z * list Z)) : outcome (Z * option (Z * Z * list Z)) :=
  match msg, outs with
  | Some msg, Some (id, size, value) =>
    '(rc, outs) ← legacy_decode 4 msg payload_length (id, size, value) (
      '(_, id) ← pldm_msgbuf_extract KU16 id;
      '(rc, size) ← pldm_msgbuf_extract KU8 size;
      if_err rc return_ refuse PLDM_ERROR_INVALID_DATA (id, size, value);;
      if 7 <? size then refuse PLDM_ERROR_INVALID_DATA (id, size, value)
      else
      '(_, value) ← pldm_msgbuf_extract_effecter_value size value;
      finish pldm_msgbuf_ro_complete (id, size, value));
    mret (rc, Some outs)
  | _, _ => Ok (PLDM_ERROR_INVALID_DATA, outs)
  end.

Definition encode_set_numeric_effecter_value_resp (instance_id completion_code : Z) (msg : option pldm_msg)
    (payload_length : Z) : outcome (Z * option pldm_msg) :=
  match msg with
  | None => Ok (PLDM_ERROR_INVALID_DATA, msg)
  | Some m =>
    if negb (payload_length =? 1) then Ok (PLDM_ERROR_INVALID_LENGTH, msg)
    else
    legacy_frame PLDM_RESPONSE instance_id PLDM_PLATFORM PLDM_SET_NUMERIC_EFFECTER_VALUE m (fun m =>
      m ← payload_write m 0 [completion_code];
      mret (PLDM_SUCCESS, Some m))
  end.

Definition encode_set_numeric_effecter_value_req (instance_id effecter_id effecter_data_size : Z)
    (effecter_value : option cmem) (msg : option pldm_msg) (payload_length : Z)
  : outcome (Z * option pldm_msg) :=
  match msg, effecter_value with
  | Some m, Some v =>
    if 7 <? effecter_data_size then Ok (PLDM_ERROR_INVALID_DATA, msg)
    else
    legacy_frame PLDM_REQUEST instance_id PLDM_PLATFORM PLDM_SET_NUMERIC_EFFECTER_VALUE m (fun m =>
      let n := value_width effecter_data_size in
      if negb (payload_length =? 3 + n) then mret (PLDM_ERROR_INVALID_LENGTH, Some m)
      else
      l ← value_bytes v n;
      m ← payload_write m 3 l;
      m ← put_members m 0 [(2%nat, effecter_id); (1%nat, effecter_data_size)];
      mret (PLDM_SUCCESS, Some m))
  | _, _ => Ok (PLDM_ERROR_INVALID_DATA, msg)
  end.

Definition decode_set_numeric_effecter_value_resp (msg : option pldm_msg) (payload_length : Z)
    (completion_code : option Z) : outcome (Z * option Z) :=
  match msg, completion_code with
  | Some m, Some _ =>
    if negb (payload_length =? 1) then Ok (PLDM_ERROR_INVALID_LENGTH, completion_code)
    else cc ← member m 0 1; mret (PLDM_SUCCESS, Some cc)
  | _, _ => Ok (PLDM_ERROR_INVALID_DATA, completion_code)
  end.

Definition encode_get_numeric_effecter_value_req (instance_id effecter_id : Z) (msg : option pldm_msg)
  : outcome (Z * option pldm_msg) :=
  match msg with
  | None => Ok (PLDM_ERROR_INVALID_DATA, msg)
  | Some m =>
    legacy_frame PLDM_REQUEST instance_id PLDM_PLATFORM PLDM_GET_NUMERIC_EFFECTER_VALUE m (fun m =>
      m ← put_members m 0 [(2%nat, effecter_id)];
      mret (PLDM_SUCCESS, Some m))
  end.

Definition encode_get_numeric_effecter_value_resp (instance_id completion_code effecter_data_size
    effecter_oper_state : Z) (pending_value present_value : option cmem) (msg : option pldm_msg)
    (payload_length : Z) : outcome (Z * option pldm_msg) :=
  match msg, pending_value, present_value with
  | Some m, Some pending, Some present =>
    if 7 <? effecter_data_size then Ok (PLDM_ERROR_INVALID_DATA, msg)
    else if EFFECTER_OPER_STATE_INTEST <? effecter_oper_state then Ok (PLDM_ERROR_INVALID_DATA, msg)
    else
    legacy_frame PLDM_RESPONSE instance_id PLDM_PLATFORM PLDM_GET_NUMERIC_EFFECTER_VALUE m (fun m =>
      m ← put_members m 0 [(1%nat, completion_code); (1%nat, effecter_data_size);
            (1%nat, effecter_oper_state)];
      let n := value_width effecter_data_size in
      if negb (payload_length =? 3 + n + n) then mret (PLDM_ERROR_INVALID_LENGTH, Some m)
      else
      l ← value_bytes pending n;
      m ← payload_write m 3 l;
      l ← value_bytes present n;
      m ← payload_write m (3 + n) l;
      mret (PLDM_SUCCESS, Some m))
  | _, _, _ => Ok (PLDM_ERROR_INVALID_DATA, msg)
  end.

Definition decode_get_numeric_effecter_value_req (msg : option pldm_msg) (payload_length : Z)
    (effecter_id : option Z) : outcome (Z * option Z) :=
  match msg, effecter_id with
  | Some msg, Some id =>
    '(rc, id) ← legacy_decode 2 msg payload_length id (
      '(_, id) ← pldm_msgbuf_extract KU16 id;
      finish pldm_msgbuf_ro_complete_consumed id);
    mret (rc, Some id)
  | _, _ => Ok (PLDM_ERROR_INVALID_DATA, effecter_id)
  end.

(** Completion code, data size, operational state, pending and present value.  The
    source does not ask for the first to be given. *)
Definition decode_get_numeric_effecter_value_resp (msg : option pldm_msg) (payload_length : Z)
    (outs : option (Z * Z * Z * list Z * list Z)) : outcome (Z * option (Z * Z * Z * list Z * list Z)) :=
  match msg, outs with
  | Some msg, Some (cc, size, state, pending, present) =>
    '(rc, outs) ← legacy_decode 5 msg payload_length (cc, size, state, pending, present) (
      checked_cc cc (fun cc => (cc, size, state, pending, present)) (fun cc =>
      checked (pldm_msgbuf_extract KU8 size) (fun size => (cc, size, state, pending, present)) (fun size =>
      if 7 <? size then refuse PLDM_ERROR_INVALID_DATA (cc, size, state, pending, present)
      else
      checked (pldm_msgbuf_extract KU8 state) (fun state => (cc, size, state, pending, present)) (fun state =>
      if EFFECTER_OPER_STATE_INTEST <? state then
        refuse PLDM_ERROR_INVALID_DATA (cc, size, state, pending, present)
      else
      '(_, pending) ← pldm_msgbuf_extract_effecter_value size pending;
      '(_, present) ← pldm_msgbuf_extract_effecter_value size present;
      finish pldm_msgbuf_ro_complete_consumed (cc, size, state, pending, present)))));
    mret (rc, Some outs)
  | _, _ => Ok (PLDM_ERROR_INVALID_DATA, outs)
  end.

(** ** Sensors *)

(** sensor_op_state, present_state, previous_state, event_state *)
Definition get_sensor_state_field : Type := Z * Z * Z * Z.

Definition state_bytes (f : get_sensor_state_field) : list Z := let '(a, b, c, d) := f in [a; b; c; d].

Definition encode_get_state_sensor_readings_resp (instance_id completion_code comp_sensor_count : Z)
    (field : list get_sensor_state_field) (msg : option pldm_msg) : outcome (Z * option pldm_msg) :=
  match msg with
  | None => Ok (PLDM_ERROR_INVALID_DATA, msg)
  | Some m =>
    if (comp_sensor_count <? 1) || (8 <? comp_sensor_count) then Ok (PLDM_ERROR_INVALID_DATA, msg)
    else
    legacy_frame PLDM_RESPONSE instance_id PLDM_PLATFORM PLDM_GET_STATE_SENSOR_READINGS m (fun m =>
      m ← put_members m 0 [(1%nat, completion_code); (1%nat, comp_sensor_count)];
      l ← array_first field comp_sensor_count;
      m ← payload_write m 2 (concat (state_bytes <$> l));
      mret (PLDM_SUCCESS, Some m))
  end.

Definition encode_get_state_sensor_readings_req (instance_id sensor_id sensor_rearm reserved : Z)
    (msg : option pldm_msg) : outcome (Z * option pldm_msg) :=
  match msg with
  | None => Ok (PLDM_ERROR_INVALID_DATA, msg)
  | Some m =>
    legacy_frame PLDM_REQUEST instance_id PLDM_PLATFORM PLDM_GET_STATE_SENSOR_READINGS m (fun m =>
      m ← put_members m 0 [(2%nat, sensor_id); (1%nat, sensor_rearm); (1%nat, reserved)];
      mret (PLDM_SUCCESS, Some m))
  end.

Definition extract_states (f : get_sensor_state_field) : B get_sensor_state_field :=
  let '(a, b, c, d) := f in
  '(_, a) ← pldm_msgbuf_extract KU8 a;
  '(_, b) ← pldm_msgbuf_extract KU8 b;
  '(_, c) ← pldm_msgbuf_extract KU8 c;
  '(_, d) ← pldm_msgbuf_extract KU8 d;
  mret (a, b, c, d).

Definition decode_get_state_sensor_readings_resp (msg : option pldm_msg) (payload_length : Z)
    (outs : option (Z * Z * list get_sensor_state_field))
  : outcome (Z * option (Z * Z * list get_sensor_state_field)) :=
  match msg, outs with
  | Some msg, Some (cc, count, field) =>
    '(rc, outs) ← legacy_decode 2 msg payload_length (cc, count, field) (
      checked_cc cc (fun cc => (cc, count, field)) (fun cc =>
      checked (pldm_msgbuf_extract KU8 count) (fun count => (cc, count, field)) (fun count =>
      if (count <? 1) || (8 <? count) then refuse PLDM_ERROR_INVALID_DATA (cc, count, field)
      else
      field ← each extract_states (Z.to_nat count) field;
      finish pldm_msgbuf_ro_complete_consumed (cc, count, field))));
    mret (rc, Some outs)
  | _, _ => Ok (PLDM_ERROR_INVALID_DATA, outs)
  end.

Definition decode_get_state_sensor_readings_req (msg : option pldm_msg) (payload_length : Z)
    (outs : option (Z * Z * Z)) : outcome (Z * option (Z * Z * Z)) :=
  match msg, outs with
  | Some msg, Some (id, rearm, reserved) =>
    '(rc, outs) ← legacy_decode 4 msg payload_length (id, rearm, reserved) (
      '(_, id) ← pldm_msgbuf_extract KU16 id;
      '(_, rearm) ← pldm_msgbuf_extract KU8 rearm;
      '(_, reserved) ← pldm_msgbuf_extract KU8 reserved;
      finish pldm_msgbuf_ro_complete (id, rearm, reserved));
    mret (rc, Some outs)
  | _, _ => Ok (PLDM_ERROR_INVALID_DATA, outs)
  end.

Record pldm_platform_set_numeric_sensor_enable_req := SensorEnableReq {
  se_sensor_id : Z; se_sensor_operational_state : Z; se_sensor_event_message_enable : Z
}.

Definition encode_pldm_platform_set_numeric_sensor_enable_req (instance_id : Z)
    (req : option pldm_platform_set_numeric_sensor_enable_req) (msg : option pldm_msg)
    (payload_length : option Z) : outcome (Z * option pldm_msg * option Z) :=
  match req, msg, payload_length with
  | Some r, Some m, Some len =>
    if (PLDM_SET_SENSOR_UNAVAILABLE <? se_sensor_operational_state r)
       || (4 <? se_sensor_event_message_enable r) then Ok (- EINVAL, msg, payload_length)
    else
    encode_frame PLDM_REQUEST instance_id PLDM_PLATFORM PLDM_SET_NUMERIC_SENSOR_ENABLE 4 m len (
      _ ← pldm_msgbuf_insert KU16 (se_sensor_id r);
      _ ← pldm_msgbuf_insert KU8 (se_sensor_operational_state r);
      _ ← pldm_msgbuf_insert KU8 (se_sensor_event_message_enable r);
      pldm_msgbuf_complete_used len len)
  | _, _, _ => Ok (- EINVAL, msg, payload_length)
  end.

Definition decode_pldm_platform_set_numeric_sensor_enable_resp (msg : option pldm_msg) (payload_length : Z)
    (completion_code : option Z) : outcome (Z * option Z) :=
  match msg, completion_code with
  | Some msg, Some cc =>
    '(rc, cc) ← decode_frame 1 msg payload_length cc (
      '(_, cc) ← pldm_msgbuf_extract KU8 cc;
      finish_errno pldm_msgbuf_ro_complete_consumed cc);
    mret (rc, Some cc)
  | _, _ => Ok (- EINVAL, completion_code)
  end.

Definition decode_set_numeric_sensor_enable_req (msg : option pldm_msg) (payload_length : Z)
    (req : option pldm_platform_set_numeric_sensor_enable_req)
  : outcome (Z * option pldm_platform_set_numeric_sensor_enable_req) :=
  match msg, req with
  | Some msg, Some r =>
    '(rc, r) ← decode_frame 0 msg payload_length r (
      '(_, id) ← pldm_msgbuf_extract KU16 (se_sensor_id r);
      '(_, state) ← pldm_msgbuf_extract KU8 (se_sensor_operational_state r);
      '(_, enable) ← pldm_msgbuf_extract KU8 (se_sensor_event_message_enable r);
      let r := SensorEnableReq id state enable in
      rc ← pldm_msgbuf_ro_complete_consumed;
      if_err rc return_ mret (rc, r);;
      if PLDM_SET_SENSOR_UNAVAILABLE <? se_sensor_operational_state r then mret (- EPROTO, r)
      else if PLDM_STATE_EVENTS_ONLY_ENABLED <? se_sensor_event_message_enable r then mret (- EPROTO, r)
      else mret (0, r));
    mret (rc, Some r)
  | _, _ => Ok (- EINVAL, req)
  end.

(** op_state, event_enable *)
Definition pldm_set_state_sensor_enable_field : Type := Z * Z.

Record pldm_set_state_sensor_enables_req := SensorEnablesReq {
  sse_sensor_id : Z; sse_field_count : Z; sse_fields : list pldm_set_state_sensor_enable_field
}.

(** The loop of the decoder: the fields up to the one that ends it, and how it ended. *)
Fixpoint extract_enables (n : nat) (l : list pldm_set_state_sensor_enable_field)
  : B (option Z * list pldm_set_state_sensor_enable_field) :=
  match n, l with
  | O, _ => mret (None, l)
  | S n, f :: l =>
    '(_, op) ← pldm_msgbuf_extract KU8 0;
    '(rc, event) ← pldm_msgbuf_extract KU8 0;
    if_err rc return_ (rc ← pldm_msgbuf_ro_discard rc; mret (Some rc, f :: l));;
    if (PLDM_SET_SENSOR_UNAVAILABLE <? op) || (PLDM_STATE_EVENTS_ONLY_ENABLED <? event) then
      rc ← pldm_msgbuf_ro_discard (- EPROTO); mret (Some rc, f :: l)
    else
    '(e, l) ← extract_enables n l;
    mret (e, (op, event) :: l)
  | S _, [] => fun _ => Fault FMemory
  end.

(** Two of the returns leave the buffer as it is: its destructor asserts that it was
    completed or discarded. *)
Definition decode_set_state_sensor_enables_req (msg : option pldm_msg) (payload_length : Z)
    (req : option pldm_set_state_sensor_enables_req)
  : outcome (Z * option pldm_set_state_sensor_enables_req) :=
  match msg, req with
  | Some msg, Some (SensorEnablesReq id count fields) =>
    '(rc, r) ← decode_frame 3 msg payload_length (SensorEnablesReq id count fields) (
      '(_, id) ← pldm_msgbuf_extract KU16 id;
      '(rc, count) ← pldm_msgbuf_extract KU8 count;
      if_err rc return_ mret (rc, SensorEnablesReq id count fields);;
      if (count <? 1) || (8 <? count) then mret (- EPROTO, SensorEnablesReq id count fields)
      else
      '(e, fields) ← extract_enables (Z.to_nat count) fields;
      match e with
      | Some rc => mret (rc, SensorEnablesReq id count fields)
      | None => finish_errno pldm_msgbuf_ro_complete_consumed (SensorEnablesReq id count fields)
      end);
    mret (rc, Some r)
  | _, _ => Ok (- EINVAL, req)
  end.

Definition encode_get_sensor_reading_req (instance_id sensor_id rearm_event_state : Z) (msg : option pldm_msg)
  : outcome (Z * option pldm_msg) :=
  match msg with
  | None => Ok (PLDM_ERROR_INVALID_DATA, msg)
  | Some m =>
    legacy_frame PLDM_REQUEST instance_id PLDM_PLATFORM PLDM_GET_SENSOR_READING m (fun m =>
      m ← put_members m 0 [(2%nat, sensor_id); (1%nat, rearm_event_state)];
      mret (PLDM_SUCCESS, Some m))
  end.

Definition decode_get_sensor_reading_req (msg : option pldm_msg) (payload_length : Z) (outs : option (Z * Z))
  : outcome (Z * option (Z * Z)) :=
  match msg, outs with
  | Some msg, Some (id, rearm) =>
    '(rc, outs) ← legacy_decode 3 msg payload_length (id, rearm) (
      '(_, id) ← pldm_msgbuf_extract KU16 id;
      '(_, rearm) ← pldm_msgbuf_extract KU8 rearm;
      finish pldm_msgbuf_ro_complete (id, rearm));
    mret (rc, Some outs)
  | _, _ => Ok (PLDM_ERROR_INVALID_DATA, outs)
  end.

Record pldm_get_sensor_reading_resp := SensorReading {
  sr_completion_code : Z; sr_sensor_data_size : Z; sr_sensor_operational_state : Z;
  sr_sensor_event_message_enable : Z; sr_present_state : Z; sr_previous_state : Z; sr_event_state : Z;
  sr_present_reading : list Z
}.

Definition encode_get_sensor_reading_resp (instance_id : Z) (r : pldm_get_sensor_reading_resp)
    (present_reading : option cmem) (msg : option pldm_msg) (payload_length : Z)
  : outcome (Z * option pldm_msg) :=
  match msg, present_reading with
  | Some m, Some v =>
    if 7 <? sr_sensor_data_size r then Ok (PLDM_ERROR_INVALID_DATA, msg)
    else
    legacy_frame PLDM_RESPONSE instance_id PLDM_PLATFORM PLDM_GET_SENSOR_READING m (fun m =>
      m ← put_members m 0 [(1%nat, sr_completion_code r); (1%nat, sr_sensor_data_size r);
            (1%nat, sr_sensor_operational_state r); (1%nat, sr_sensor_event_message_enable r);
            (1%nat, sr_present_state r); (1%nat, sr_previous_state r); (1%nat, sr_event_state r)];
      let n := value_width (sr_sensor_data_size r) in
      if n =? 0 then mret (PLDM_ERROR_INVALID_DATA, Some m)
      else if negb (payload_length =? 7 + n) then mret (PLDM_ERROR_INVALID_LENGTH, Some m)
      else
      l ← value_bytes v n;
      m ← payload_write m 7 l;
      mret (PLDM_SUCCESS, Some m))
  | _, _ => Ok (PLDM_ERROR_INVALID_DATA, msg)
  end.

Definition decode_get_sensor_reading_resp (msg : option pldm_msg) (payload_length : Z)
    (outs : option pldm_get_sensor_reading_resp) : outcome (Z * option pldm_get_sensor_reading_resp) :=
  match msg, outs with
  | Some msg, Some (SensorReading cc size op enable present previous event reading) =>
    '(rc, outs) ← legacy_decode 8 msg payload_length
        (SensorReading cc size op enable present previous event reading) (
      checked_cc cc (fun cc => SensorReading cc size op enable present previous event reading) (fun cc =>
      checked (pldm_msgbuf_extract KU8 size)
        (fun size => SensorReading cc size op enable present previous event reading) (fun size =>
      if 7 <? size then
        refuse PLDM_ERROR_INVALID_DATA (SensorReading cc size op enable present previous event reading)
      else
      '(_, op) ← pldm_msgbuf_extract KU8 op;
      '(_, enable) ← pldm_msgbuf_extract KU8 enable;
      '(_, present) ← pldm_msgbuf_extract KU8 present;
      '(_, previous) ← pldm_msgbuf_extract KU8 previous;
      '(_, event) ← pldm_msgbuf_extract KU8 event;
      '(_, reading) ← pldm_msgbuf_extract_sensor_value size reading;
      finish pldm_msgbuf_ro_complete_consumed
        (SensorReading cc size op enable present previous event reading))));
    mret (rc, Some outs)
  | _, _ => Ok (PLDM_ERROR_INVALID_DATA, outs)
  end.

(** ** Event receivers *)

Definition encode_get_event_receiver_req (instance_id : Z) (msg : option pldm_msg) (payload_length : Z)
  : outcome (Z * option pldm_msg) :=
  match msg with
  | None => Ok (- EINVAL, msg)
  | Some m =>
    let '(rc, m) := pack_into PLDM_REQUEST instance_id PLDM_PLATFORM PLDM_GET_EVENT_RECEIVER m in
    mret (rc, Some m)
  end.

(** Of the union of addresses only the MCTP endpoint is ever used. *)
Record pldm_get_event_receiver_resp := ReceiverResp {
  er_completion_code : Z; er_transport_protocol_type : Z; er_mctp_eid : Z
}.

(** The length is read and written without a check of its pointer. *)
Definition encode_get_event_receiver_resp (instance_id : Z)
    (event_receiver_info : option pldm_get_event_receiver_resp) (msg : option pldm_msg) (payload_length : Z)
  : outcome (Z * option pldm_msg * option Z) :=
  match msg, event_receiver_info with
  | Some m, Some r =>
    if negb (er_transport_protocol_type r =? PLDM_TRANSPORT_PROTOCOL_TYPE_MCTP) then
      Ok (- ENOTSUP, msg, Some payload_length)
    else
    encode_frame PLDM_RESPONSE instance_id PLDM_PLATFORM PLDM_GET_EVENT_RECEIVER 2 m payload_length (
      _ ← pldm_msgbuf_insert KU8 (er_completion_code r);
      _ ← pldm_msgbuf_insert KU8 (er_transport_protocol_type r);
      _ ← pldm_msgbuf_insert KU8 (er_mctp_eid r);
      pldm_msgbuf_complete_used payload_length payload_length)
  | _, _ => Ok (- EINVAL, msg, Some payload_length)
  end.

(** The response object is used without a check of its pointer. *)
Definition decode_get_event_receiver_resp (msg : option pldm_msg) (payload_length : Z)
    (r : pldm_get_event_receiver_resp) : outcome (Z * pldm_get_event_receiver_resp) :=
  match msg with
  | None => Ok (- EINVAL, r)
  | Some msg =>
    let '(ReceiverResp cc type eid) := r in
    rc ← pldm_msg_has_error msg payload_length;
    if negb (rc =? 0) then mret (0, ReceiverResp rc type eid)
    else
    decode_frame 2 msg payload_length r (
      '(_, cc) ← pldm_msgbuf_extract KU8 cc;
      checked_errno (pldm_msgbuf_extract KU8 type) (fun type => ReceiverResp cc type eid) (fun type =>
      if negb (type =? PLDM_TRANSPORT_PROTOCOL_TYPE_MCTP) then refuse (- ENOTSUP) (ReceiverResp cc type eid)
      else
      '(_, eid) ← pldm_msgbuf_extract KU8 eid;
      finish_errno pldm_msgbuf_ro_complete_consumed (ReceiverResp cc type eid)))
  end.

Record pldm_set_event_receiver_req := SetReceiverReq {
  rv_event_message_global_enable : Z; rv_transport_protocol_type : Z;
  rv_event_receiver_address_info : Z; rv_heartbeat_timer : Z
}.

Definition encode_set_event_receiver_req (instance_id : Z) (r : pldm_set_event_receiver_req)
    (msg : option pldm_msg) : outcome (Z * option pldm_msg) :=
  match msg with
  | None => Ok (PLDM_ERROR_INVALID_DATA, msg)
  | Some m =>
    if negb (rv_transport_protocol_type r =? PLDM_TRANSPORT_PROTOCOL_TYPE_MCTP) then
      Ok (PLDM_ERROR_INVALID_DATA, msg)
    else
    legacy_frame PLDM_REQUEST instance_id PLDM_PLATFORM PLDM_SET_EVENT_RECEIVER m (fun m =>
      m ← put_members m 0 [(1%nat, rv_event_message_global_enable r);
            (1%nat, rv_transport_protocol_type r); (1%nat, rv_event_receiver_address_info r)];
      if rv_event_message_global_enable r =? PLDM_EVENT_MESSAGE_GLOBAL_ENABLE_ASYNC_KEEP_ALIVE then
        if rv_heartbeat_timer r =? 0 then mret (PLDM_ERROR_INVALID_DATA, Some m)
        else m ← put_members m 3 [(2%nat, rv_heartbeat_timer r)]; mret (PLDM_SUCCESS, Some m)
      else mret (PLDM_SUCCESS, Some m))
  end.

Definition decode_set_event_receiver_resp (msg : option pldm_msg) (payload_length : Z)
    (completion_code : option Z) : outcome (Z * option Z) :=
  match msg, completion_code with
  | Some msg, Some cc =>
    '(rc, cc) ← legacy_decode 1 msg payload_length cc (
      '(_, cc) ← pldm_msgbuf_extract KU8 cc;
      finish pldm_msgbuf_ro_complete cc);
    mret (rc, Some cc)
  | _, _ => Ok (PLDM_ERROR_INVALID_DATA, completion_code)
  end.

Definition decode_set_event_receiver_req (msg : option pldm_msg) (payload_length : Z)
    (outs : option pldm_set_event_receiver_req) : outcome (Z * option pldm_set_event_receiver_req) :=
  match msg, outs with
  | Some msg, Some (SetReceiverReq enable type address timer) =>
    '(rc, outs) ← legacy_decode 3 msg payload_length (SetReceiverReq enable type address timer) (
      '(_, enable) ← pldm_msgbuf_extract KU8 enable;
      '(_, type) ← pldm_msgbuf_extract KU8 type;
      '(_, address) ← pldm_msgbuf_extract KU8 address;
      let keep_alive := enable =? PLDM_EVENT_MESSAGE_GLOBAL_ENABLE_ASYNC_KEEP_ALIVE in
      '(_, timer) ← (if keep_alive then pldm_msgbuf_extract KU16 timer else mret (0, timer));
      let r := SetReceiverReq enable type address timer in
      rc ← pldm_msgbuf_ro_complete;
      if_err rc return_ (rc ← lift (pldm_xlate_errno rc); mret (rc, r));;
      if keep_alive && (timer =? 0) then mret (PLDM_ERROR_INVALID_DATA, r)
      else mret (PLDM_SUCCESS, r));
    mret (rc, Some outs)
  | _, _ => Ok (PLDM_ERROR_INVALID_DATA, outs)
  end.

Definition encode_set_event_receiver_resp (instance_id completion_code : Z) (msg : option pldm_msg) :=
  encode_cc_resp instance_id PLDM_SET_EVENT_RECEIVER completion_code msg.

(** ** Terminus UID *)

Definition encode_get_terminus_uid_req (instance_id : Z) (msg : option pldm_msg)
  : outcome (Z * option pldm_msg) :=
  match msg with
  | None => Ok (PLDM_ERROR_INVALID_DATA, msg)
  | Some m => legacy_frame PLDM_REQUEST instance_id PLDM_PLATFORM PLDM_GET_TERMINUS_UID m header_only
  end.

Definition decode_get_terminus_UID_resp (msg : option pldm_msg) (payload_length : Z)
    (completion_code : option Z) (uuid : option (list Z)) : outcome (Z * option Z * option (list Z)) :=
  match msg, completion_code, uuid with
  | Some m, Some _, Some u =>
    cc ← member m 0 1;
    if negb (cc =? PLDM_SUCCESS) then mret (PLDM_SUCCESS, Some cc, uuid)
    else if 17 <? payload_length then mret (PLDM_ERROR_INVALID_LENGTH, Some cc, uuid)
    else
    l ← payload_read m 1 16;
    u ← array_store u l;
    mret (PLDM_SUCCESS, Some cc, Some u)
  | _, _, _ => Ok (PLDM_ERROR_INVALID_DATA, completion_code, uuid)
  end.
