(* ===== verification/PlatformEvents.v ===== *)
(** * Platform monitoring and control: events (src/dsp/platform.c)

    The event messages, the data of each class of events, and the events that announce
    changes of a PDR repository. *)

From S2P Require Import Prelude Msgbuf Layout Base Legacy Platform.

(** ** Constants *)

Abbreviation PLDM_PLATFORM_EVENT_MESSAGE := 0x0a (only parsing).
Abbreviation PLDM_POLL_FOR_PLATFORM_EVENT_MESSAGE := 0x0b (only parsing).
Abbreviation PLDM_EVENT_MESSAGE_SUPPORTED := 0x0c (only parsing).
Abbreviation PLDM_EVENT_MESSAGE_BUFFER_SIZE := 0x0d (only parsing).
Abbreviation PLDM_GET_NEXTPART := 0 (only parsing).
Abbreviation PLDM_GET_FIRSTPART := 1 (only parsing).
Abbreviation PLDM_ACKNOWLEDGEMENT_ONLY := 2 (only parsing).
Abbreviation PLDM_PLATFORM_EVENT_ID_NULL := 0x0000 (only parsing).
Abbreviation PLDM_PLATFORM_EVENT_ID_FRAGMENT := 0xffff (only parsing).
Abbreviation PLDM_START_AND_END := 5 (only parsing).
Abbreviation PLDM_EVENT_LOGGING_REJECTED := 5 (only parsing).
Abbreviation PLDM_CPER_EVENT := 7 (only parsing).
Abbreviation PLDM_MESSAGE_TYPE_ASYNCHRONOUS_WITH_HEARTBEAT := 3 (only parsing).
Abbreviation PLDM_SENSOR_OP_STATE := 0 (only parsing).
Abbreviation PLDM_STATE_SENSOR_STATE := 1 (only parsing).
Abbreviation PLDM_NUMERIC_SENSOR_STATE := 2 (only parsing).
Abbreviation REFRESH_ENTIRE_REPOSITORY := 0 (only parsing).

(** ** Event messages *)

Definition decode_platform_event_message_req (msg : option pldm_msg) (payload_length : Z)
    (outs : option (Z * Z * Z * Z)) : outcome (Z * option (Z * Z * Z * Z)) :=
  match msg, outs with
  | Some msg, Some (version, tid, class, offset) =>
    '(rc, outs) ← legacy_decode 3 msg payload_length (version, tid, class, offset) (
      '(_, version) ← pldm_msgbuf_extract KU8 version;
      '(_, tid) ← pldm_msgbuf_extract KU8 tid;
      '(_, class) ← pldm_msgbuf_extract KU8 class;
      rc ← pldm_msgbuf_ro_complete;
      if_err rc return_ (rc ← lift (pldm_xlate_errno rc); mret (rc, (version, tid, class, offset)));;
      mret (PLDM_SUCCESS, (version, tid, class, 3)));
    mret (rc, Some outs)
  | _, _ => Ok (PLDM_ERROR_INVALID_DATA, outs)
  end.

Definition encode_platform_event_message_req (instance_id format_version tid event_class : Z)
    (event_data : option cmem) (event_data_length : Z) (msg : option pldm_msg) (payload_length : Z)
  : outcome (Z * option pldm_msg) :=
  if negb (format_version =? 1) then Ok (PLDM_ERROR_INVALID_DATA, msg)
  else
  match msg, event_data with
  | Some m, Some data =>
    if event_data_length =? 0 then Ok (PLDM_ERROR_INVALID_DATA, msg)
    else if SIZE_MAX - 3 <? event_data_length then Ok (PLDM_ERROR_INVALID_LENGTH, msg)
    else if negb (payload_length =? 3 + event_data_length) then Ok (PLDM_ERROR_INVALID_LENGTH, msg)
    else if (PLDM_CPER_EVENT <? event_class) && negb ((0xf0 <=? event_class) && (event_class <=? 0xfe)) then
      Ok (PLDM_ERROR_INVALID_DATA, msg)
    else
    legacy_frame PLDM_REQUEST instance_id PLDM_PLATFORM PLDM_PLATFORM_EVENT_MESSAGE m (fun m =>
      m ← put_members m 0 [(1%nat, format_version); (1%nat, tid); (1%nat, event_class)];
      l ← mem_read data 0 event_data_length;
      m ← payload_write m 3 l;
      mret (PLDM_SUCCESS, Some m))
  | _, _ => Ok (PLDM_ERROR_INVALID_DATA, msg)
  end.

Definition encode_platform_event_message_resp (instance_id completion_code platform_event_status : Z)
    (msg : option pldm_msg) : outcome (Z * option pldm_msg) :=
  match msg with
  | None => Ok (PLDM_ERROR_INVALID_DATA, msg)
  | Some m =>
    if PLDM_EVENT_LOGGING_REJECTED <? platform_event_status then Ok (PLDM_ERROR_INVALID_DATA, msg)
    else
    legacy_frame PLDM_RESPONSE instance_id PLDM_PLATFORM PLDM_PLATFORM_EVENT_MESSAGE m (fun m =>
      m ← put_members m 0 [(1%nat, completion_code); (1%nat, platform_event_status)];
      mret (PLDM_SUCCESS, Some m))
  end.

Definition decode_platform_event_message_resp (msg : option pldm_msg) (payload_length : Z)
    (outs : option (Z * Z)) : outcome (Z * option (Z * Z)) :=
  match msg, outs with
  | Some msg, Some (cc, status) =>
    '(rc, outs) ← legacy_decode 2 msg payload_length (cc, status) (
      checked_cc cc (fun cc => (cc, status)) (fun cc =>
      checked (pldm_msgbuf_extract KU8 status) (fun status => (cc, status)) (fun status =>
      if PLDM_EVENT_LOGGING_REJECTED <? status then refuse PLDM_ERROR_INVALID_DATA (cc, status)
      else finish pldm_msgbuf_ro_complete (cc, status))));
    mret (rc, Some outs)
  | _, _ => Ok (PLDM_ERROR_INVALID_DATA, outs)
  end.

Definition pldm_platform_poll_for_platform_event_message_validate
    (transfer_operation_flag event_id_to_acknowledge : Z) : Z :=
  if ((transfer_operation_flag =? PLDM_GET_FIRSTPART)
      && negb (event_id_to_acknowledge =? PLDM_PLATFORM_EVENT_ID_NULL))
     || ((transfer_operation_flag =? PLDM_GET_NEXTPART)
         && negb (event_id_to_acknowledge =? PLDM_PLATFORM_EVENT_ID_FRAGMENT))
     || ((transfer_operation_flag =? PLDM_ACKNOWLEDGEMENT_ONLY)
         && (event_id_to_acknowledge =? PLDM_PLATFORM_EVENT_ID_FRAGMENT))
     || ((transfer_operation_flag =? PLDM_ACKNOWLEDGEMENT_ONLY)
         && (event_id_to_acknowledge =? PLDM_PLATFORM_EVENT_ID_NULL))
     || (PLDM_ACKNOWLEDGEMENT_ONLY <? transfer_operation_flag)
  then - EPROTO else 0.

Record pldm_poll_for_platform_event_message_req := PollReq {
  pq_format_version : Z; pq_transfer_operation_flag : Z; pq_data_transfer_handle : Z;
  pq_event_id_to_acknowledge : Z
}.

Definition encode_poll_for_platform_event_message_req (instance_id : Z)
    (r : pldm_poll_for_platform_event_message_req) (msg : option pldm_msg) (payload_length : Z)
  : outcome (Z * option pldm_msg) :=
  match msg with
  | None => Ok (PLDM_ERROR_INVALID_DATA, msg)
  | Some m =>
    let rc := pldm_platform_poll_for_platform_event_message_validate (pq_transfer_operation_flag r)
                (pq_event_id_to_acknowledge r) in
    if rc <? 0 then Ok (PLDM_ERROR_INVALID_DATA, msg)
    else
    legacy_frame PLDM_REQUEST instance_id PLDM_PLATFORM PLDM_POLL_FOR_PLATFORM_EVENT_MESSAGE m (fun m =>
      legacy_encode 4 m payload_length (
        _ ← pldm_msgbuf_insert KU8 (pq_format_version r);
        _ ← pldm_msgbuf_insert KU8 (pq_transfer_operation_flag r);
        _ ← pldm_msgbuf_insert KU32 (pq_data_transfer_handle r);
        _ ← pldm_msgbuf_insert KU16 (pq_event_id_to_acknowledge r);
        finish_xlate pldm_msgbuf_rw_complete))
  end.

Definition decode_poll_for_platform_event_message_req (msg : option pldm_msg) (payload_length : Z)
    (outs : option pldm_poll_for_platform_event_message_req)
  : outcome (Z * option pldm_poll_for_platform_event_message_req) :=
  match msg, outs with
  | Some msg, Some (PollReq version flag handle id) =>
    '(rc, outs) ← legacy_decode 8 msg payload_length (PollReq version flag handle id) (
      '(_, version) ← pldm_msgbuf_extract KU8 version;
      checked (pldm_msgbuf_extract KU8 flag) (fun flag => PollReq version flag handle id) (fun flag =>
      if PLDM_ACKNOWLEDGEMENT_ONLY <? flag then
        refuse PLDM_ERROR_INVALID_DATA (PollReq version flag handle id)
      else
      '(_, handle) ← pldm_msgbuf_extract KU32 handle;
      checked (pldm_msgbuf_extract KU16 id) (fun id => PollReq version flag handle id) (fun id =>
      if pldm_platform_poll_for_platform_event_message_validate flag id <? 0 then
        refuse PLDM_ERROR_INVALID_DATA (PollReq version flag handle id)
      else finish pldm_msgbuf_ro_complete (PollReq version flag handle id))));
    mret (rc, Some outs)
  | _, _ => Ok (PLDM_ERROR_INVALID_DATA, outs)
  end.

Record pldm_poll_for_platform_event_message_resp := PollResp {
  pr_completion_code : Z; pr_tid : Z; pr_event_id : Z; pr_next_data_transfer_handle : Z;
  pr_transfer_flag : Z; pr_event_class : Z; pr_event_data_size : Z;
  pr_event_data : option cmem; pr_event_data_integrity_checksum : Z
}.

Definition ends_transfer (transfer_flag : Z) : bool :=
  (transfer_flag =? PLDM_END) || (transfer_flag =? PLDM_START_AND_END).

Definition encode_poll_for_platform_event_message_resp (instance_id : Z)
    (r : pldm_poll_for_platform_event_message_resp) (msg : option pldm_msg) (payload_length : Z)
  : outcome (Z * option pldm_msg) :=
  match msg with
  | None => Ok (PLDM_ERROR_INVALID_DATA, msg)
  | Some m =>
    legacy_frame PLDM_RESPONSE instance_id PLDM_PLATFORM PLDM_POLL_FOR_PLATFORM_EVENT_MESSAGE m (fun m =>
      legacy_encode 4 m payload_length (
        _ ← pldm_msgbuf_insert KU8 (pr_completion_code r);
        _ ← pldm_msgbuf_insert KU8 (pr_tid r);
        rc ← pldm_msgbuf_insert KU16 (pr_event_id r);
        if_err rc return_ discard_xlate rc;;
        if (pr_event_id r =? 0xffff) || (pr_event_id r =? 0) then
          if negb (4 =? payload_length) then pldm_msgbuf_rw_discard PLDM_ERROR_INVALID_LENGTH
          else finish_xlate pldm_msgbuf_rw_complete
        else
        if (match pr_event_data r with None => true | Some _ => false end) && (0 <? pr_event_data_size r) then
          pldm_msgbuf_rw_discard PLDM_ERROR_INVALID_DATA
        else
        _ ← pldm_msgbuf_insert KU32 (pr_next_data_transfer_handle r);
        _ ← pldm_msgbuf_insert KU8 (pr_transfer_flag r);
        _ ← pldm_msgbuf_insert KU8 (pr_event_class r);
        rc ← pldm_msgbuf_insert KU32 (pr_event_data_size r);
        if_err rc return_ discard_xlate rc;;
        rc ← (match pr_event_data r with
              | Some data =>
                if 0 <? pr_event_data_size r then
                  pldm_msgbuf_insert_array_uint8 (pr_event_data_size r) data (pr_event_data_size r)
                else mret 0
              | None => mret 0
              end);
        if_err rc return_ discard_xlate rc;;
        _ ← (if ends_transfer (pr_transfer_flag r)
             then pldm_msgbuf_insert KU32 (pr_event_data_integrity_checksum r) else mret 0);
        finish_xlate pldm_msgbuf_rw_complete))
  end.

(** An error response makes its completion code the result. *)
Definition decode_poll_for_platform_event_message_resp (msg : option pldm_msg) (payload_length : Z)
    (outs : option pldm_poll_for_platform_event_message_resp)
  : outcome (Z * option pldm_poll_for_platform_event_message_resp) :=
  match msg, outs with
  | Some msg, Some (PollResp cc tid id next flag class size data sum) =>
    '(rc, outs) ← legacy_decode 4 msg payload_length (PollResp cc tid id next flag class size data sum) (
      checked (pldm_msgbuf_extract KU8 cc)
        (fun cc => PollResp cc tid id next flag class size data sum) (fun cc =>
      if negb (cc =? PLDM_SUCCESS) then refuse cc (PollResp cc tid id next flag class size data sum)
      else
      '(_, tid) ← pldm_msgbuf_extract KU8 tid;
      checked (pldm_msgbuf_extract KU16 id)
        (fun id => PollResp cc tid id next flag class size data sum) (fun id =>
      if (id =? 0) || (id =? 0xffff) then
        refuse PLDM_SUCCESS (PollResp cc tid id next flag class size data sum)
      else
      '(_, next) ← pldm_msgbuf_extract KU32 next;
      checked (pldm_msgbuf_extract KU8 flag)
        (fun flag => PollResp cc tid id next flag class size data sum) (fun flag =>
      '(_, class) ← pldm_msgbuf_extract KU8 class;
      checked (pldm_msgbuf_extract KU32 size)
        (fun size => PollResp cc tid id next flag class size data sum) (fun size =>
      if payload_length <? size then
        refuse PLDM_ERROR_INVALID_DATA (PollResp cc tid id next flag class size data sum)
      else
      data ← (if 0 <? size then
                '(_, p) ← pldm_msgbuf_ro_span_required size (Some data); mret (default data p)
              else mret data);
      '(_, sum) ← (if ends_transfer flag then pldm_msgbuf_extract KU32 sum else mret (0, sum));
      finish pldm_msgbuf_ro_complete_consumed (PollResp cc tid id next flag class size data sum))))));
    mret (rc, Some outs)
  | _, _ => Ok (PLDM_ERROR_INVALID_DATA, outs)
  end.

(** The message is written to without a check of its pointer. *)
Definition encode_event_message_buffer_size_req (instance_id event_receiver_max_buffer_size : Z) (m : pldm_msg)
  : outcome (Z * option pldm_msg) :=
  legacy_frame PLDM_REQUEST instance_id PLDM_PLATFORM PLDM_EVENT_MESSAGE_BUFFER_SIZE m (fun m =>
    m ← put_members m 0 [(2%nat, event_receiver_max_buffer_size)];
    mret (PLDM_SUCCESS, Some m)).

Definition decode_event_message_buffer_size_resp (msg : option pldm_msg) (payload_length : Z)
    (outs : option (Z * Z)) : outcome (Z * option (Z * Z)) :=
  match msg, outs with
  | Some msg, Some (cc, size) =>
    '(rc, outs) ← legacy_decode 3 msg payload_length (cc, size) (
      checked_cc cc (fun cc => (cc, size)) (fun cc =>
      '(_, size) ← pldm_msgbuf_extract KU16 size;
      finish pldm_msgbuf_ro_complete_consumed (cc, size)));
    mret (rc, Some outs)
  | _, _ => Ok (PLDM_ERROR_INVALID_DATA, outs)
  end.

Definition encode_event_message_supported_req (instance_id format_version : Z) (msg : option pldm_msg)
  : outcome (Z * option pldm_msg) :=
  if negb (format_version =? 1) then Ok (PLDM_ERROR_INVALID_DATA, msg)
  else
  match msg with
  | None => Ok (PLDM_ERROR_INVALID_DATA, msg)
  | Some m =>
    legacy_frame PLDM_REQUEST instance_id PLDM_PLATFORM PLDM_EVENT_MESSAGE_SUPPORTED m (fun m =>
      m ← put_members m 0 [(1%nat, format_version)];
      mret (PLDM_SUCCESS, Some m))
  end.

Definition extract_u8 (d : Z) : B Z := '(_, v) ← pldm_msgbuf_extract KU8 d; mret v.

Definition decode_event_message_supported_resp (msg : option pldm_msg) (payload_length : Z)
    (outs : option (Z * Z * Z * Z * list Z)) (event_class_count : Z)
  : outcome (Z * option (Z * Z * Z * Z * list Z)) :=
  match msg, outs with
  | Some msg, Some (cc, sync, support, number, class) =>
    '(rc, outs) ← legacy_decode 4 msg payload_length (cc, sync, support, number, class) (
      checked_cc cc (fun cc => (cc, sync, support, number, class)) (fun cc =>
      checked (pldm_msgbuf_extract KU8 sync) (fun sync => (cc, sync, support, number, class)) (fun sync =>
      if PLDM_MESSAGE_TYPE_ASYNCHRONOUS_WITH_HEARTBEAT <? sync then
        refuse PLDM_ERROR_INVALID_DATA (cc, sync, support, number, class)
      else
      '(_, support) ← pldm_msgbuf_extract KU8 support;
      checked (pldm_msgbuf_extract KU8 number)
        (fun number => (cc, sync, support, number, class)) (fun number =>
      if number =? 0 then finish pldm_msgbuf_ro_complete (cc, sync, support, number, class)
      else if event_class_count <? number then
        refuse PLDM_ERROR_INVALID_LENGTH (cc, sync, support, number, class)
      else
      class ← each extract_u8 (Z.to_nat number) class;
      finish pldm_msgbuf_ro_complete_consumed (cc, sync, support, number, class)))));
    mret (rc, Some outs)
  | _, _ => Ok (PLDM_ERROR_INVALID_DATA, outs)
  end.

(** ** Sensor events *)

(** [event_data] is [None] when the caller only asks for the size. *)
Definition encode_sensor_event_data (event_data : option cmem) (event_data_size sensor_id
    sensor_event_class sensor_offset event_state previous_event_state : Z)
  : outcome (Z * option cmem * Z) :=
  match event_data with
  | None => Ok (PLDM_SUCCESS, None, 6)
  | Some e =>
    if event_data_size <? 6 then Ok (PLDM_ERROR_INVALID_LENGTH, event_data, 0)
    else
    e ← mem_write e 0 (le_enc 2 sensor_id);
    e ← mem_write e 2 (le_enc 1 sensor_event_class);
    e ← mem_write e 3 [sensor_offset];
    e ← mem_write e 4 [event_state];
    e ← mem_write e 5 [previous_event_state];
    mret (PLDM_SUCCESS, Some e, 6)
  end.

Definition decode_sensor_event_data (event_data : option cmem) (event_data_length : Z)
    (outs : option (Z * Z * Z)) : outcome (Z * option (Z * Z * Z)) :=
  match event_data, outs with
  | Some e, Some (id, class, offset) =>
    '(rc, outs) ← legacy_scope 5 e event_data_length (id, class, offset) (
      if event_data_length <? 3 then refuse PLDM_ERROR_INVALID_LENGTH (id, class, offset)
      else
      let data_length := event_data_length - 3 in
      '(_, id) ← pldm_msgbuf_extract KU16 id;
      checked (pldm_msgbuf_extract KU8 class) (fun class => (id, class, offset)) (fun class =>
      let go := finish pldm_msgbuf_ro_complete (id, class, 3) in
      if class =? PLDM_SENSOR_OP_STATE then
        if negb (data_length =? 2) then refuse PLDM_ERROR_INVALID_LENGTH (id, class, offset) else go
      else if class =? PLDM_STATE_SENSOR_STATE then
        if negb (data_length =? 3) then refuse PLDM_ERROR_INVALID_LENGTH (id, class, offset) else go
      else if class =? PLDM_NUMERIC_SENSOR_STATE then
        if (data_length <? 4) || (11 <? data_length) then
          refuse PLDM_ERROR_INVALID_LENGTH (id, class, offset)
        else go
      else refuse PLDM_ERROR_INVALID_DATA (id, class, offset)));
    mret (rc, Some outs)
  | _, _ => Ok (PLDM_ERROR_INVALID_DATA, outs)
  end.

Definition decode_sensor_op_data (sensor_data : option cmem) (sensor_data_length : Z) (outs : option (Z * Z))
  : outcome (Z * option (Z * Z)) :=
  match sensor_data, outs with
  | Some e, Some (present, previous) =>
    '(rc, outs) ← legacy_scope 2 e sensor_data_length (present, previous) (
      '(_, present) ← pldm_msgbuf_extract KU8 present;
      '(_, previous) ← pldm_msgbuf_extract KU8 previous;
      finish pldm_msgbuf_ro_complete_consumed (present, previous));
    mret (rc, Some outs)
  | _, _ => Ok (PLDM_ERROR_INVALID_DATA, outs)
  end.

Definition decode_state_sensor_data (sensor_data : option cmem) (sensor_data_length : Z)
    (outs : option (Z * Z * Z)) : outcome (Z * option (Z * Z * Z)) :=
  match sensor_data, outs with
  | Some e, Some (offset, state, previous) =>
    '(rc, outs) ← legacy_scope 3 e sensor_data_length (offset, state, previous) (
      '(_, offset) ← pldm_msgbuf_extract KU8 offset;
      '(_, state) ← pldm_msgbuf_extract KU8 state;
      '(_, previous) ← pldm_msgbuf_extract KU8 previous;
      finish pldm_msgbuf_ro_complete_consumed (offset, state, previous));
    mret (rc, Some outs)
  | _, _ => Ok (PLDM_ERROR_INVALID_DATA, outs)
  end.

(** Event state, previous event state, data size and the reading, as 32 bits. *)
Definition decode_numeric_sensor_data (sensor_data : option cmem) (sensor_data_length : Z)
    (outs : option (Z * Z * Z * Z)) : outcome (Z * option (Z * Z * Z * Z)) :=
  match sensor_data, outs with
  | Some e, Some (state, previous, size, reading) =>
    if 11 <? sensor_data_length then Ok (PLDM_ERROR_INVALID_LENGTH, outs)
    else
    '(rc, outs) ← legacy_scope 4 e sensor_data_length (state, previous, size, reading) (
      '(_, state) ← pldm_msgbuf_extract KU8 state;
      '(_, previous) ← pldm_msgbuf_extract KU8 previous;
      checked (pldm_msgbuf_extract KU8 size) (fun size => (state, previous, size, reading)) (fun size =>
      match data_size_kind size with
      | None => refuse PLDM_ERROR_INVALID_DATA (state, previous, size, reading)
      | Some k =>
        '(rc, val) ← pldm_msgbuf_extract k 0;
        let reading := if rc =? 0 then u32 val else reading in
        finish pldm_msgbuf_ro_complete_consumed (state, previous, size, reading)
      end));
    mret (rc, Some outs)
  | _, _ => Ok (PLDM_ERROR_INVALID_DATA, outs)
  end.

Record pldm_numeric_sensor_event_data := NumEventData {
  ne_event_state : Z; ne_previous_event_state : Z; ne_sensor_data_size : Z; ne_present_reading : list Z
}.

Definition decode_numeric_sensor_event_data (sensor_data : option cmem) (sensor_data_length : Z)
    (event_data : option pldm_numeric_sensor_event_data)
  : outcome (Z * option pldm_numeric_sensor_event_data) :=
  match sensor_data, event_data with
  | Some e, Some (NumEventData state previous size reading) =>
    if 11 <? sensor_data_length then Ok (PLDM_ERROR_INVALID_LENGTH, event_data)
    else
    '(rc, d) ← legacy_scope 4 e sensor_data_length (NumEventData state previous size reading) (
      '(_, state) ← pldm_msgbuf_extract KU8 state;
      '(_, previous) ← pldm_msgbuf_extract KU8 previous;
      checked (pldm_msgbuf_extract KU8 size) (fun size => NumEventData state previous size reading) (fun size =>
      '(rc, reading) ← pldm_msgbuf_extract_sensor_data size reading;
      let d := NumEventData state previous size reading in
      if_err rc return_
        (rc ← pldm_msgbuf_ro_discard rc;
         if rc =? - PLDM_ERROR_INVALID_DATA then mret (PLDM_ERROR_INVALID_DATA, d)
         else rc ← lift (pldm_xlate_errno rc); mret (rc, d));;
      finish pldm_msgbuf_ro_complete_consumed d));
    mret (rc, Some d)
  | _, _ => Ok (PLDM_ERROR_INVALID_DATA, event_data)
  end.

(** ** CPER and SMBIOS events *)

(** Version, type, length and a pointer behind them: the length is not compared with
    what is there. *)
Definition decode_pldm_cper_event_data (event_data : option cmem) (event_data_length : Z)
    (outs : option (Z * Z * Z * option cmem)) : outcome (Z * option (Z * Z * Z * option cmem)) :=
  match event_data, outs with
  | Some e, Some _ =>
    if event_data_length <? 4 then Ok (PLDM_ERROR_INVALID_LENGTH, outs)
    else
    version ← mem_le e 0 1;
    type ← mem_le e 1 1;
    length ← mem_le e 2 2;
    mret (PLDM_SUCCESS, Some (version, type, length, Some (ptr_at e 4)))
  | _, _ => Ok (PLDM_ERROR_INVALID_DATA, outs)
  end.

Record pldm_platform_cper_event := CperEvent {
  ce_format_version : Z; ce_format_type : Z; ce_event_data_length : Z; ce_event_data : list Z
}.

Definition pldm_platform_cper_event_event_data (e : pldm_platform_cper_event) : list Z := ce_event_data e.

Definition decode_pldm_platform_cper_event (event_data : option cmem) (event_data_length : Z)
    (cper_event : option pldm_platform_cper_event) (cper_event_length : Z)
  : outcome (Z * option pldm_platform_cper_event) :=
  match event_data, cper_event with
  | Some e, Some (CperEvent version type length data) =>
    if cper_event_length <? 4 then Ok (- EINVAL, cper_event)
    else
    '(rc, c) ← errno_scope 4 e event_data_length (CperEvent version type length data) (
      '(_, version) ← pldm_msgbuf_extract KU8 version;
      checked_errno (pldm_msgbuf_extract KU8 type) (fun type => CperEvent version type length data) (fun type =>
      if negb (type =? 0) && negb (type =? 1) then refuse (- EPROTO) (CperEvent version type length data)
      else
      checked_errno (pldm_msgbuf_extract KU16 length)
        (fun length => CperEvent version type length data) (fun length =>
      if cper_event_length - 4 <? length then refuse (- EOVERFLOW) (CperEvent version type length data)
      else
      checked_errno (pldm_msgbuf_extract_array_uint8 length data (cper_event_length - 4))
        (fun data => CperEvent version type length data) (fun data =>
      finish_errno pldm_msgbuf_ro_complete_consumed (CperEvent version type length data)))));
    mret (rc, Some c)
  | _, _ => Ok (- EINVAL, cper_event)
  end.

Definition decode_pldm_smbios_event_data (event_data : option cmem) (event_data_length : Z)
    (outs : option (Z * Z * option cmem)) : outcome (Z * option (Z * Z * option cmem)) :=
  match event_data, outs with
  | Some e, Some _ =>
    if event_data_length <? 4 then Ok (PLDM_ERROR_INVALID_LENGTH, outs)
    else
    version ← mem_le e 0 1;
    length ← mem_le e 1 2;
    mret (PLDM_SUCCESS, Some (version, length, Some (ptr_at e 3)))
  | _, _ => Ok (PLDM_ERROR_INVALID_DATA, outs)
  end.

(** ** Changes of a PDR repository *)

(** One change record: operation, number of entries, entries. *)
Definition put_change_record (e : cmem) (off operation number : Z) (entries : list Z) : outcome cmem :=
  e ← mem_write e off [operation];
  e ← mem_write e (off + 1) [number];
  l ← array_first entries number;
  mem_write e (off + 2) (concat (le_enc 4 <$> l)).

Fixpoint put_change_records (n : nat) (operations numbers : list Z) (entries : list (list Z)) (off : Z)
    (e : cmem) : outcome cmem :=
  match n, operations, numbers, entries with
  | O, _, _, _ => mret e
  | S n, operation :: operations, number :: numbers, es :: entries =>
    e ← put_change_record e off operation number es;
    put_change_records n operations numbers entries (off + 2 + 4 * number) e
  | S _, _, _, _ => Fault FMemory
  end.

Definition encode_pldm_pdr_repository_chg_event_data (event_data_format number_of_change_records : Z)
    (event_data_operations numbers_of_change_entries : option (list Z))
    (change_entries : option (list (list Z))) (event_data : option cmem) (max_change_records_size : Z)
  : outcome (Z * option cmem * option Z) :=
  match event_data_operations, numbers_of_change_entries, change_entries with
  | Some operations, Some numbers, Some entries =>
    ns ← array_first numbers number_of_change_records;
    let expected_size := 2 + number_of_change_records + number_of_change_records
                         + foldr (fun n s => 4 * n + s) 0 ns in
    match event_data with
    | None => mret (PLDM_SUCCESS, None, Some expected_size)
    | Some e =>
      if max_change_records_size <? expected_size then
        mret (PLDM_ERROR_INVALID_LENGTH, Some e, Some expected_size)
      else
      e ← mem_write e 0 [event_data_format];
      e ← mem_write e 1 [number_of_change_records];
      e ← put_change_records (Z.to_nat number_of_change_records) operations numbers entries 2 e;
      mret (PLDM_SUCCESS, Some e, Some expected_size)
    end
  | _, _, _ => Ok (PLDM_ERROR_INVALID_DATA, event_data, None)
  end.

(** Format, number of records and where they are. *)
Definition decode_pldm_pdr_repository_chg_event_data (event_data : option cmem) (event_data_size : Z)
    (outs : option (Z * Z * Z)) : outcome (Z * option (Z * Z * Z)) :=
  match event_data, outs with
  | Some e, Some (format, number, offset) =>
    '(rc, outs) ← legacy_scope 2 e event_data_size (format, number, offset) (
      '(_, format) ← pldm_msgbuf_extract KU8 format;
      checked (pldm_msgbuf_extract KU8 number) (fun number => (format, number, offset)) (fun number =>
      if (format =? REFRESH_ENTIRE_REPOSITORY) && negb (number =? 0) then
        refuse PLDM_ERROR_INVALID_DATA (format, number, offset)
      else
      _ ← pldm_msgbuf_ro_span_required (number * 2) None;
      finish pldm_msgbuf_ro_complete (format, number, 2)));
    mret (rc, Some outs)
  | _, _ => Ok (PLDM_ERROR_INVALID_DATA, outs)
  end.

Definition decode_pldm_pdr_repository_change_record_data (change_record_data : option cmem)
    (change_record_data_size : Z) (outs : option (Z * Z * Z)) : outcome (Z * option (Z * Z * Z)) :=
  match change_record_data, outs with
  | Some e, Some (operation, number, offset) =>
    '(rc, outs) ← legacy_scope 2 e change_record_data_size (operation, number, offset) (
      '(_, operation) ← pldm_msgbuf_extract KU8 operation;
      checked (pldm_msgbuf_extract KU8 number) (fun number => (operation, number, offset)) (fun number =>
      _ ← pldm_msgbuf_ro_span_required (number * 4) None;
      finish pldm_msgbuf_ro_complete (operation, number, 2)));
    mret (rc, Some outs)
  | _, _ => Ok (PLDM_ERROR_INVALID_DATA, outs)
  end.

(** ** Poll events *)

Record pldm_message_poll_event := PollEvent {
  pe_format_version : Z; pe_event_id : Z; pe_data_transfer_handle : Z
}.

Definition reserved_event_id (id : Z) : bool := (id =? 0x0000) || (id =? 0xffff).

Definition decode_pldm_message_poll_event_data (event_data : option cmem) (event_data_length : Z)
    (poll_event : option pldm_message_poll_event) : outcome (Z * option pldm_message_poll_event) :=
  match event_data, poll_event with
  | Some e, Some (PollEvent version id handle) =>
    '(rc, p) ← errno_scope 7 e event_data_length (PollEvent version id handle) (
      '(_, version) ← pldm_msgbuf_extract KU8 version;
      checked_errno (pldm_msgbuf_extract KU16 id) (fun id => PollEvent version id handle) (fun id =>
      if reserved_event_id id then refuse (- EPROTO) (PollEvent version id handle)
      else
      '(_, handle) ← pldm_msgbuf_extract KU32 handle;
      finish_errno pldm_msgbuf_ro_complete_consumed (PollEvent version id handle)));
    mret (rc, Some p)
  | _, _ => Ok (- EINVAL, poll_event)
  end.

Definition encode_pldm_message_poll_event_data (poll_event : option pldm_message_poll_event)
    (event_data : option cmem) (event_data_length : Z) : outcome (Z * option cmem) :=
  match poll_event, event_data with
  | Some p, Some e =>
    if reserved_event_id (pe_event_id p) then Ok (- EPROTO, event_data)
    else
    '(rc, e) ← msgbuf_scope e (
      rc ← pldm_msgbuf_rw_init_errno 7 e event_data_length;
      if_err rc return_ mret rc;;
      _ ← pldm_msgbuf_insert KU8 (pe_format_version p);
      _ ← pldm_msgbuf_insert KU16 (pe_event_id p);
      _ ← pldm_msgbuf_insert KU32 (pe_data_transfer_handle p);
      pldm_msgbuf_rw_complete_consumed);
    mret (rc, Some e)
  | _, _ => Ok (- EINVAL, event_data)
  end.
