(* ===== verification/PlatformPdr.v ===== *)
(** * Platform monitoring and control: PDRs (src/dsp/platform.c)

    The decoders of numeric sensor and effecter, entity auxiliary names, file descriptor
    and Redfish PDRs, the encoders of state sensor, state effecter and file descriptor
    PDRs, and the iterators over what they contain.  A union of numbers is its eight
    bytes, a real32_t its representation. *)

From S2P Require Import Prelude Msgbuf Layout Base Legacy Platform.

(** ** The common header *)

Record pldm_value_pdr_hdr := ValueHdr {
  vh_record_handle : Z; vh_version : Z; vh_type : Z; vh_record_change_num : Z; vh_length : Z
}.

(** The length is compared after the size of the buffer's own struct, 16, is added to
    it. *)
Definition pldm_msgbuf_extract_value_pdr_hdr (hdr : pldm_value_pdr_hdr) (lower upper : Z)
  : B (Z * pldm_value_pdr_hdr) :=
  '(_, handle) ← pldm_msgbuf_extract KU32 (vh_record_handle hdr);
  '(_, version) ← pldm_msgbuf_extract KU8 (vh_version hdr);
  '(_, type) ← pldm_msgbuf_extract KU8 (vh_type hdr);
  '(_, change) ← pldm_msgbuf_extract KU16 (vh_record_change_num hdr);
  '(rc, length) ← pldm_msgbuf_extract KU16 (vh_length hdr);
  let hdr := ValueHdr handle version type change length in
  if_err rc return_ mret (rc, hdr);;
  if length + 16 <? lower then mret (- EOVERFLOW, hdr)
  else if upper <? length then mret (- EOVERFLOW, hdr)
  else mret (0, hdr).

(** ** Numeric sensor PDRs

    The members of the struct in three groups: up to the data size, up to the format of
    the ranges, and the ranges. *)

Record numeric_sensor_head := NsHead {
  ns_terminus_handle : Z; ns_sensor_id : Z; ns_entity_type : Z; ns_entity_instance_num : Z;
  ns_container_id : Z; ns_sensor_init : Z; ns_sensor_auxiliary_names_pdr : Z; ns_base_unit : Z;
  ns_unit_modifier : Z; ns_rate_unit : Z; ns_base_oem_unit_handle : Z; ns_aux_unit : Z;
  ns_aux_unit_modifier : Z; ns_aux_rate_unit : Z; ns_rel : Z; ns_aux_oem_unit_handle : Z;
  ns_is_linear : Z; ns_sensor_data_size : Z
}.

Record numeric_sensor_body := NsBody {
  ns_resolution : Z; ns_offset : Z; ns_accuracy : Z; ns_plus_tolerance : Z; ns_minus_tolerance : Z;
  ns_hysteresis : list Z; ns_supported_thresholds : Z; ns_threshold_and_hysteresis_volatility : Z;
  ns_state_transition_interval : Z; ns_update_interval : Z; ns_max_readable : list Z;
  ns_min_readable : list Z; ns_range_field_format : Z
}.

Record numeric_sensor_ranges := NsRanges {
  ns_range_field_support : Z; ns_nominal_value : list Z; ns_normal_max : list Z; ns_normal_min : list Z;
  ns_warning_high : list Z; ns_warning_low : list Z; ns_critical_high : list Z; ns_critical_low : list Z;
  ns_fatal_high : list Z; ns_fatal_low : list Z
}.

Record pldm_numeric_sensor_value_pdr := NumericSensorPdr {
  ns_hdr : pldm_value_pdr_hdr; ns_head : numeric_sensor_head; ns_body : numeric_sensor_body;
  ns_ranges : numeric_sensor_ranges
}.

Definition extract_sensor_head (h : numeric_sensor_head) : B (Z * numeric_sensor_head) :=
  '(_, terminus_handle) ← pldm_msgbuf_extract KU16 (ns_terminus_handle h);
  '(_, sensor_id) ← pldm_msgbuf_extract KU16 (ns_sensor_id h);
  '(_, entity_type) ← pldm_msgbuf_extract KU16 (ns_entity_type h);
  '(_, entity_instance_num) ← pldm_msgbuf_extract KU16 (ns_entity_instance_num h);
  '(_, container_id) ← pldm_msgbuf_extract KU16 (ns_container_id h);
  '(_, sensor_init) ← pldm_msgbuf_extract KU8 (ns_sensor_init h);
  '(_, sensor_auxiliary_names_pdr) ← pldm_msgbuf_extract KU8 (ns_sensor_auxiliary_names_pdr h);
  '(_, base_unit) ← pldm_msgbuf_extract KU8 (ns_base_unit h);
  '(_, unit_modifier) ← pldm_msgbuf_extract KI8 (ns_unit_modifier h);
  '(_, rate_unit) ← pldm_msgbuf_extract KU8 (ns_rate_unit h);
  '(_, base_oem_unit_handle) ← pldm_msgbuf_extract KU8 (ns_base_oem_unit_handle h);
  '(_, aux_unit) ← pldm_msgbuf_extract KU8 (ns_aux_unit h);
  '(_, aux_unit_modifier) ← pldm_msgbuf_extract KI8 (ns_aux_unit_modifier h);
  '(_, aux_rate_unit) ← pldm_msgbuf_extract KU8 (ns_aux_rate_unit h);
  '(_, rel) ← pldm_msgbuf_extract KU8 (ns_rel h);
  '(_, aux_oem_unit_handle) ← pldm_msgbuf_extract KU8 (ns_aux_oem_unit_handle h);
  '(_, is_linear) ← pldm_msgbuf_extract KU8 (ns_is_linear h);
  '(rc, sensor_data_size) ← pldm_msgbuf_extract KU8 (ns_sensor_data_size h);
  mret (rc, NsHead terminus_handle sensor_id entity_type entity_instance_num container_id sensor_init
              sensor_auxiliary_names_pdr base_unit unit_modifier rate_unit base_oem_unit_handle aux_unit
              aux_unit_modifier aux_rate_unit rel aux_oem_unit_handle is_linear sensor_data_size).

Definition extract_sensor_body (size : Z) (d : numeric_sensor_body) : B (Z * numeric_sensor_body) :=
  '(_, resolution) ← pldm_msgbuf_extract KR32 (ns_resolution d);
  '(_, offset) ← pldm_msgbuf_extract KR32 (ns_offset d);
  '(_, accuracy) ← pldm_msgbuf_extract KU16 (ns_accuracy d);
  '(_, plus_tolerance) ← pldm_msgbuf_extract KU8 (ns_plus_tolerance d);
  '(_, minus_tolerance) ← pldm_msgbuf_extract KU8 (ns_minus_tolerance d);
  '(_, hysteresis) ← pldm_msgbuf_extract_sensor_data size (ns_hysteresis d);
  '(_, thresholds) ← pldm_msgbuf_extract KU8 (ns_supported_thresholds d);
  '(_, volatility) ← pldm_msgbuf_extract KU8 (ns_threshold_and_hysteresis_volatility d);
  '(_, state_interval) ← pldm_msgbuf_extract KR32 (ns_state_transition_interval d);
  '(_, update_interval) ← pldm_msgbuf_extract KR32 (ns_update_interval d);
  '(_, max_readable) ← pldm_msgbuf_extract_sensor_data size (ns_max_readable d);
  '(_, min_readable) ← pldm_msgbuf_extract_sensor_data size (ns_min_readable d);
  '(rc, format) ← pldm_msgbuf_extract KU8 (ns_range_field_format d);
  mret (rc, NsBody resolution offset accuracy plus_tolerance minus_tolerance hysteresis thresholds
              volatility state_interval update_interval max_readable min_readable format).

Definition extract_sensor_ranges (format : Z) (r : numeric_sensor_ranges) : B numeric_sensor_ranges :=
  '(_, support) ← pldm_msgbuf_extract KU8 (ns_range_field_support r);
  '(_, nominal) ← pldm__msgbuf_extract_range_field_format format (ns_nominal_value r);
  '(_, normal_max) ← pldm__msgbuf_extract_range_field_format format (ns_normal_max r);
  '(_, normal_min) ← pldm__msgbuf_extract_range_field_format format (ns_normal_min r);
  '(_, warning_high) ← pldm__msgbuf_extract_range_field_format format (ns_warning_high r);
  '(_, warning_low) ← pldm__msgbuf_extract_range_field_format format (ns_warning_low r);
  '(_, critical_high) ← pldm__msgbuf_extract_range_field_format format (ns_critical_high r);
  '(_, critical_low) ← pldm__msgbuf_extract_range_field_format format (ns_critical_low r);
  '(_, fatal_high) ← pldm__msgbuf_extract_range_field_format format (ns_fatal_high r);
  '(_, fatal_low) ← pldm__msgbuf_extract_range_field_format format (ns_fatal_low r);
  mret (NsRanges support nominal normal_max normal_min warning_high warning_low critical_high critical_low
          fatal_high fatal_low).

Definition decode_numeric_sensor_pdr_data (pdr_data : option cmem) (pdr_data_length : Z)
    (pdr_value : option pldm_numeric_sensor_value_pdr) : outcome (Z * option pldm_numeric_sensor_value_pdr) :=
  match pdr_data, pdr_value with
  | Some data, Some (NumericSensorPdr hdr head body ranges) =>
    '(rc, p) ← legacy_scope 69 data pdr_data_length (NumericSensorPdr hdr head body ranges) (
      checked (pldm_msgbuf_extract_value_pdr_hdr hdr 69 pdr_data_length)
        (fun hdr => NumericSensorPdr hdr head body ranges) (fun hdr =>
      checked (extract_sensor_head head) (fun head => NumericSensorPdr hdr head body ranges) (fun head =>
      if 7 <? ns_sensor_data_size head then
        refuse PLDM_ERROR_INVALID_DATA (NumericSensorPdr hdr head body ranges)
      else
      checked (extract_sensor_body (ns_sensor_data_size head) body)
        (fun body => NumericSensorPdr hdr head body ranges) (fun body =>
      if 8 <? ns_range_field_format body then
        refuse PLDM_ERROR_INVALID_DATA (NumericSensorPdr hdr head body ranges)
      else
      ranges ← extract_sensor_ranges (ns_range_field_format body) ranges;
      finish pldm_msgbuf_ro_complete (NumericSensorPdr hdr head body ranges)))));
    mret (rc, Some p)
  | _, _ => Ok (PLDM_ERROR_INVALID_DATA, pdr_value)
  end.

(** ** Numeric effecter PDRs *)

Record numeric_effecter_head := NeHead {
  nf_terminus_handle : Z; nf_effecter_id : Z; nf_entity_type : Z; nf_entity_instance : Z;
  nf_container_id : Z; nf_effecter_semantic_id : Z; nf_effecter_init : Z; nf_effecter_auxiliary_names : Z;
  nf_base_unit : Z; nf_unit_modifier : Z; nf_rate_unit : Z; nf_base_oem_unit_handle : Z; nf_aux_unit : Z;
  nf_aux_unit_modifier : Z; nf_aux_rate_unit : Z; nf_aux_oem_unit_handle : Z; nf_is_linear : Z;
  nf_effecter_data_size : Z
}.

Record numeric_effecter_body := NeBody {
  nf_resolution : Z; nf_offset : Z; nf_accuracy : Z; nf_plus_tolerance : Z; nf_minus_tolerance : Z;
  nf_state_transition_interval : Z; nf_transition_interval : Z; nf_max_settable : list Z;
  nf_min_settable : list Z; nf_range_field_format : Z
}.

Record numeric_effecter_ranges := NeRanges {
  nf_range_field_support : Z; nf_nominal_value : list Z; nf_normal_max : list Z; nf_normal_min : list Z;
  nf_rated_max : list Z; nf_rated_min : list Z
}.

Record pldm_numeric_effecter_value_pdr := NumericEffecterPdr {
  nf_hdr : pldm_value_pdr_hdr; nf_head : numeric_effecter_head; nf_body : numeric_effecter_body;
  nf_ranges : numeric_effecter_ranges
}.

Definition extract_effecter_head (h : numeric_effecter_head) : B (Z * numeric_effecter_head) :=
  '(_, terminus_handle) ← pldm_msgbuf_extract KU16 (nf_terminus_handle h);
  '(_, effecter_id) ← pldm_msgbuf_extract KU16 (nf_effecter_id h);
  '(_, entity_type) ← pldm_msgbuf_extract KU16 (nf_entity_type h);
  '(_, entity_instance) ← pldm_msgbuf_extract KU16 (nf_entity_instance h);
  '(_, container_id) ← pldm_msgbuf_extract KU16 (nf_container_id h);
  '(_, effecter_semantic_id) ← pldm_msgbuf_extract KU16 (nf_effecter_semantic_id h);
  '(_, effecter_init) ← pldm_msgbuf_extract KU8 (nf_effecter_init h);
  '(_, effecter_auxiliary_names) ← pldm_msgbuf_extract KU8 (nf_effecter_auxiliary_names h);
  '(_, base_unit) ← pldm_msgbuf_extract KU8 (nf_base_unit h);
  '(_, unit_modifier) ← pldm_msgbuf_extract KI8 (nf_unit_modifier h);
  '(_, rate_unit) ← pldm_msgbuf_extract KU8 (nf_rate_unit h);
  '(_, base_oem_unit_handle) ← pldm_msgbuf_extract KU8 (nf_base_oem_unit_handle h);
  '(_, aux_unit) ← pldm_msgbuf_extract KU8 (nf_aux_unit h);
  '(_, aux_unit_modifier) ← pldm_msgbuf_extract KI8 (nf_aux_unit_modifier h);
  '(_, aux_rate_unit) ← pldm_msgbuf_extract KU8 (nf_aux_rate_unit h);
  '(_, aux_oem_unit_handle) ← pldm_msgbuf_extract KU8 (nf_aux_oem_unit_handle h);
  '(_, is_linear) ← pldm_msgbuf_extract KU8 (nf_is_linear h);
  '(rc, effecter_data_size) ← pldm_msgbuf_extract KU8 (nf_effecter_data_size h);
  mret (rc, NeHead terminus_handle effecter_id entity_type entity_instance container_id effecter_semantic_id
              effecter_init effecter_auxiliary_names base_unit unit_modifier rate_unit base_oem_unit_handle
              aux_unit aux_unit_modifier aux_rate_unit aux_oem_unit_handle is_linear effecter_data_size).

Definition extract_effecter_body (size : Z) (d : numeric_effecter_body) : B (Z * numeric_effecter_body) :=
  '(_, resolution) ← pldm_msgbuf_extract KR32 (nf_resolution d);
  '(_, offset) ← pldm_msgbuf_extract KR32 (nf_offset d);
  '(_, accuracy) ← pldm_msgbuf_extract KU16 (nf_accuracy d);
  '(_, plus_tolerance) ← pldm_msgbuf_extract KU8 (nf_plus_tolerance d);
  '(_, minus_tolerance) ← pldm_msgbuf_extract KU8 (nf_minus_tolerance d);
  '(_, state_interval) ← pldm_msgbuf_extract KR32 (nf_state_transition_interval d);
  '(_, interval) ← pldm_msgbuf_extract KR32 (nf_transition_interval d);
  '(_, max_settable) ← pldm__msgbuf_extract_effecter_data size (nf_max_settable d);
  '(_, min_settable) ← pldm__msgbuf_extract_effecter_data size (nf_min_settable d);
  '(rc, format) ← pldm_msgbuf_extract KU8 (nf_range_field_format d);
  mret (rc, NeBody resolution offset accuracy plus_tolerance minus_tolerance state_interval interval
              max_settable min_settable format).

Definition extract_effecter_ranges (format : Z) (r : numeric_effecter_ranges) : B numeric_effecter_ranges :=
  '(_, support) ← pldm_msgbuf_extract KU8 (nf_range_field_support r);
  '(_, nominal) ← pldm__msgbuf_extract_range_field_format format (nf_nominal_value r);
  '(_, normal_max) ← pldm__msgbuf_extract_range_field_format format (nf_normal_max r);
  '(_, normal_min) ← pldm__msgbuf_extract_range_field_format format (nf_normal_min r);
  '(_, rated_max) ← pldm__msgbuf_extract_range_field_format format (nf_rated_max r);
  '(_, rated_min) ← pldm__msgbuf_extract_range_field_format format (nf_rated_min r);
  mret (NeRanges support nominal normal_max normal_min rated_max rated_min).

(** The return after a bad header leaves the buffer as it is. *)
Definition decode_numeric_effecter_pdr_data (pdr_data : option cmem) (pdr_data_length : Z)
    (pdr_value : option pldm_numeric_effecter_value_pdr)
  : outcome (Z * option pldm_numeric_effecter_value_pdr) :=
  match pdr_data, pdr_value with
  | Some data, Some (NumericEffecterPdr hdr0 head body ranges) =>
    '(rc, p) ← legacy_scope 63 data pdr_data_length (NumericEffecterPdr hdr0 head body ranges) (
      '(rc, hdr) ← pldm_msgbuf_extract_value_pdr_hdr (ValueHdr 0 0 0 0 0) 63 pdr_data_length;
      if_err rc return_
        (rc ← lift (pldm_xlate_errno rc); mret (rc, NumericEffecterPdr hdr0 head body ranges));;
      checked (extract_effecter_head head) (fun head => NumericEffecterPdr hdr head body ranges) (fun head =>
      if 7 <? nf_effecter_data_size head then
        refuse PLDM_ERROR_INVALID_DATA (NumericEffecterPdr hdr head body ranges)
      else
      checked (extract_effecter_body (nf_effecter_data_size head) body)
        (fun body => NumericEffecterPdr hdr head body ranges) (fun body =>
      if 8 <? nf_range_field_format body then
        refuse PLDM_ERROR_INVALID_DATA (NumericEffecterPdr hdr head body ranges)
      else
      ranges ← extract_effecter_ranges (nf_range_field_format body) ranges;
      finish pldm_msgbuf_ro_complete_consumed (NumericEffecterPdr hdr head body ranges))));
    mret (rc, Some p)
  | _, _ => Ok (PLDM_ERROR_INVALID_DATA, pdr_value)
  end.

(** ** State sensor and state effecter PDRs

    Both are a struct in the caller's memory, filled in but for the version, the type
    and the length, with a count of composite sensors or effecters at [count_at] and the
    possible states from [states_at].  The conversions to little endian change nothing
    on the hosts modelled here. *)

Abbreviation PLDM_STATE_SENSOR_PDR := 4 (only parsing).
Abbreviation PLDM_STATE_EFFECTER_PDR := 11 (only parsing).

(** The loop over the possible states: where it ends. *)
Fixpoint walk_possible_states (n : nat) (states : cmem) (off : Z) : outcome Z :=
  match n with
  | O => mret off
  | S n =>
    _ ← mem_le states off 2;
    size ← mem_le states (off + 2) 1;
    walk_possible_states n states (off + 3 + size)
  end.

Definition encode_state_pdr (type count_at states_at : Z) (pdr : option cmem) (allocation_size : Z)
    (possible_states : option cmem) (possible_states_size : Z) (actual_size : option Z)
  : outcome (Z * option cmem * option Z) :=
  match pdr, possible_states, actual_size with
  | Some p, Some states, Some _ =>
    if SIZE_MAX - states_at <? possible_states_size then Ok (PLDM_ERROR, pdr, actual_size)
    else if allocation_size <? states_at + possible_states_size then
      Ok (PLDM_ERROR_INVALID_LENGTH, pdr, actual_size)
    else
    count ← mem_le p count_at 1;
    calculated ← walk_possible_states (Z.to_nat count) states 0;
    if negb (possible_states_size =? calculated) then mret (PLDM_ERROR, pdr, Some 0)
    else
    let actual := states_at + possible_states_size in
    p ← mem_write p 4 [1];
    p ← mem_write p 5 [type];
    p ← mem_write p 8 (le_enc 2 (u16 (actual - 10)));
    l ← mem_read states 0 possible_states_size;
    p ← mem_write p states_at l;
    mret (PLDM_SUCCESS, Some p, Some actual)
  | _, _, _ => Ok (PLDM_ERROR, pdr, actual_size)
  end.

Definition encode_state_effecter_pdr := encode_state_pdr PLDM_STATE_EFFECTER_PDR 24 25.
Definition encode_state_sensor_pdr := encode_state_pdr PLDM_STATE_SENSOR_PDR 22 23.

(** *** Iteration over the states of an effecter PDR *)

Record pldm_platform_state_effecter_pdr_iter := EffIter {
  ei_field : variable_field; ei_current_states : variable_field; ei_total_count : Z; ei_current_index : Z
}.

(** state_set_id, possible_states_size *)
Definition state_effecter_possible_states : Type := Z * Z.

Definition pldm_platform_state_effecter_pdr_iter_init (pdr : option cmem) (pdr_size : Z)
  : outcome (pldm_platform_state_effecter_pdr_iter * Z) :=
  let none := EffIter (VarField None 0) (VarField None 0) 0 0 in
  match pdr with
  | None => Ok (none, - EINVAL)
  | Some p =>
    if pdr_size <? 26 then Ok (none, - EOVERFLOW)
    else
    count ← mem_le p 24 1;
    mret (EffIter (VarField (Some (ptr_at p 25)) (pdr_size - 25)) (VarField None 0) count 0, 0)
  end.

Definition pldm_platform_state_effecter_pdr_iter_end (i : pldm_platform_state_effecter_pdr_iter) : bool :=
  ei_total_count i <=? ei_current_index i.

Definition pldm_platform_state_effecter_pdr_iter_next (i : pldm_platform_state_effecter_pdr_iter)
  : bool * pldm_platform_state_effecter_pdr_iter :=
  if ei_total_count i <=? ei_current_index i then (false, i)
  else (true, EffIter (ei_field i) (ei_current_states i) (ei_total_count i) (u8 (ei_current_index i + 1))).

Definition decode_pldm_platform_state_effecter_pdr_from_iter (iter : option pldm_platform_state_effecter_pdr_iter)
    (states : option state_effecter_possible_states)
  : outcome (Z * option pldm_platform_state_effecter_pdr_iter * option state_effecter_possible_states) :=
  match iter, states with
  | Some (EffIter (VarField (Some p) n) current total index), Some (id, size) =>
    '(rc, (i, s)) ← errno_scope 0 p n (EffIter (VarField (Some p) n) current total index, (id, size)) (
      '(_, id) ← pldm_msgbuf_extract KU16 id;
      checked_errno (pldm_msgbuf_extract KU8 size)
        (fun size => (EffIter (VarField (Some p) n) current total index, (id, size))) (fun size =>
      '(rc, cp) ← pldm_msgbuf_ro_span_required size (Some (vf_ptr current));
      let cp := default None cp in
      if_err rc return_
        refuse rc (EffIter (VarField (Some p) n) (VarField cp (vf_length current)) total index, (id, size));;
      '(_, fp, fn) ← pldm_msgbuf_ro_span_remaining (Some p) n;
      finish_errno pldm_msgbuf_ro_complete_consumed
        (EffIter (VarField fp fn) (VarField cp size) total index, (id, size))));
    mret (rc, Some i, Some s)
  | _, _ => Ok (- EINVAL, iter, states)
  end.

Record pldm_platform_state_effecter_pdr_possible_states_iter := StatesIter {
  psi_field : variable_field; psi_total_count : Z; psi_current_index : Z
}.

(** The count is an uint8_t. *)
Definition pldm_platform_state_effecter_pdr_possible_states_iter_init
    (outer_iter : option pldm_platform_state_effecter_pdr_iter)
  : pldm_platform_state_effecter_pdr_possible_states_iter * Z :=
  match outer_iter with
  | Some i =>
    match vf_ptr (ei_current_states i) with
    | Some _ => (StatesIter (ei_current_states i) (u8 (vf_length (ei_current_states i))) 0, 0)
    | None => (StatesIter (VarField None 0) 0 0, - EINVAL)
    end
  | None => (StatesIter (VarField None 0) 0 0, - EINVAL)
  end.

Definition pldm_platform_state_effecter_pdr_possible_states_iter_end
    (i : pldm_platform_state_effecter_pdr_possible_states_iter) : bool :=
  psi_total_count i <=? psi_current_index i.

Definition pldm_platform_state_effecter_pdr_possible_states_iter_next
    (i : pldm_platform_state_effecter_pdr_possible_states_iter)
  : bool * pldm_platform_state_effecter_pdr_possible_states_iter :=
  if psi_total_count i <=? psi_current_index i then (false, i)
  else (true, StatesIter (psi_field i) (psi_total_count i) (u8 (psi_current_index i + 1))).

Definition decode_pldm_platform_state_effecter_pdr_possible_states_from_iter
    (iter : option pldm_platform_state_effecter_pdr_possible_states_iter) (state : option Z)
  : outcome (Z * option pldm_platform_state_effecter_pdr_possible_states_iter * option Z) :=
  match iter, state with
  | Some (StatesIter (VarField (Some p) n) total index), Some s =>
    '(rc, (i, s)) ← errno_scope 0 p n (StatesIter (VarField (Some p) n) total index, s) (
      '(_, s) ← pldm_msgbuf_extract KU8 s;
      '(_, fp, fn) ← pldm_msgbuf_ro_span_remaining (Some p) n;
      finish_errno pldm_msgbuf_ro_complete_consumed (StatesIter (VarField fp fn) total index, s));
    mret (rc, Some i, Some s)
  | _, _ => Ok (- EINVAL, iter, state)
  end.

(** The two loops as their macros write them, collecting what their bodies see.  An
    index of eight bits moves up in each round: 256 rounds are enough. *)
Fixpoint states_loop (fuel : nat) (i : pldm_platform_state_effecter_pdr_possible_states_iter) (rc : Z)
  : outcome (Z * list Z) :=
  match fuel with
  | O => Fault FFuel
  | S fuel =>
    if negb (rc =? 0) || pldm_platform_state_effecter_pdr_possible_states_iter_end i then mret (rc, [])
    else
    '(rc, i', s) ← decode_pldm_platform_state_effecter_pdr_possible_states_from_iter (Some i) (Some 0);
    if negb (rc =? 0) then mret (rc, [])
    else
    let '(_, i) := pldm_platform_state_effecter_pdr_possible_states_iter_next (default i i') in
    '(rc, l) ← states_loop fuel i rc;
    mret (rc, default 0 s :: l)
  end.

Definition foreach_pldm_platform_state_effecter_pdr_states (i : pldm_platform_state_effecter_pdr_iter)
  : outcome (Z * list Z) :=
  let '(states, rc) := pldm_platform_state_effecter_pdr_possible_states_iter_init (Some i) in
  states_loop 257 states rc.

(** Each round of the outer loop runs the inner one, and goes on if that went well. *)
Fixpoint effecters_loop (fuel : nat) (i : pldm_platform_state_effecter_pdr_iter) (rc : Z)
  : outcome (Z * list (Z * list Z)) :=
  match fuel with
  | O => Fault FFuel
  | S fuel =>
    if negb (rc =? 0) || pldm_platform_state_effecter_pdr_iter_end i then mret (rc, [])
    else
    '(rc, i', s) ← decode_pldm_platform_state_effecter_pdr_from_iter (Some i) (Some (0, 0));
    if negb (rc =? 0) then mret (rc, [])
    else
    let i := default i i' in
    '(rc, l) ← foreach_pldm_platform_state_effecter_pdr_states i;
    let '(_, i) := pldm_platform_state_effecter_pdr_iter_next i in
    '(rc, ls) ← effecters_loop fuel i rc;
    mret (rc, (fst (default (0, 0) s), l) :: ls)
  end.

Definition foreach_pldm_platform_state_effecter_pdr_possible_states (pdr : cmem) (pdr_size : Z)
  : outcome (Z * list (Z * list Z)) :=
  '(i, rc) ← pldm_platform_state_effecter_pdr_iter_init (Some pdr) pdr_size;
  effecters_loop 257 i rc.

(** ** Entity auxiliary names PDRs *)

(** The struct is followed by [auxiliary_name_data], an object of its own here, whose
    strings the names point to once the index is built; 40 bytes come before it. *)
Record pldm_entity_auxiliary_names_pdr := AuxNamesPdr {
  an_hdr : pldm_value_pdr_hdr; an_entity_type : Z; an_entity_instance_num : Z; an_entity_container_id : Z;
  an_shared_name_count : Z; an_name_string_count : Z; an_auxiliary_name_data_size : Z;
  an_auxiliary_name_data : cmem
}.

(** First pass: the names, each behind its tag. *)
Fixpoint copy_names (n : nat) (dst src : msgbuf) : outcome (Z * msgbuf * msgbuf) :=
  match n with
  | O => mret (0, dst, src)
  | S n =>
    '(_, src) ← pldm_msgbuf_ro_span_string_ascii None None src;
    '(rc, dst, src) ← pldm_msgbuf_copy_string_utf16 dst src;
    if_err rc return_ mret (rc, dst, src);;
    copy_names n dst src
  end.

(** Second pass: the tags. *)
Fixpoint copy_tags (n : nat) (dst src : msgbuf) : outcome (Z * msgbuf * msgbuf) :=
  match n with
  | O => mret (0, dst, src)
  | S n =>
    '(rc, dst, src) ← pldm_msgbuf_copy_string_ascii dst src;
    if_err rc return_ mret (rc, dst, src);;
    '(_, src) ← pldm_msgbuf_ro_span_string_utf16 None None src;
    copy_tags n dst src
  end.

(** The two passes over [names], with the buffers in use at each exit discarded. *)
Definition copy_strings (n : nat) (names : cmem) (names_len : Z) (dst : msgbuf)
  : outcome (Z * msgbuf) :=
  let fail_dst rc dst := pldm_msgbuf_rw_discard rc dst in
  let fail_src rc dst src :=
    '(rc, src) ← pldm_msgbuf_ro_discard rc src;
    _ ← pldm__msgbuf_cleanup src;
    fail_dst rc dst in
  '(rc, src) ← pldm_msgbuf_ro_init_errno names_len names names_len (pldm__msgbuf_define names);
  if rc <? 0 then _ ← pldm__msgbuf_cleanup src; fail_dst rc dst
  else
  '(rc, dst, src) ← copy_names n dst src;
  if_err rc return_ fail_src rc dst src;;
  '(rc, src) ← pldm_msgbuf_ro_complete_consumed src;
  if rc <? 0 then _ ← pldm__msgbuf_cleanup src; fail_dst rc dst
  else
  '(rc, src) ← pldm_msgbuf_ro_init_errno names_len names names_len src;
  if rc <? 0 then _ ← pldm__msgbuf_cleanup src; fail_dst rc dst
  else
  '(rc, dst, src) ← copy_tags n dst src;
  if_err rc return_ fail_src rc dst src;;
  '(rc, src) ← pldm_msgbuf_ro_complete src;
  _ ← pldm__msgbuf_cleanup src;
  if_err rc return_ fail_dst rc dst;;
  pldm_msgbuf_rw_complete dst.

Definition decode_entity_auxiliary_names_pdr (data : option cmem) (data_length : Z)
    (pdr : option pldm_entity_auxiliary_names_pdr) (pdr_length : Z)
  : outcome (Z * option pldm_entity_auxiliary_names_pdr) :=
  match data, pdr with
  | Some d, Some p =>
    _ ← c_assert (Z.land (addr (an_auxiliary_name_data p)) 1 =? 0);
    if (pdr_length <? data_length) || (pdr_length <? 40) then Ok (- EINVAL, pdr)
    else
    let '(AuxNamesPdr hdr ty num cid shared count size aux) := p in
    '(rc, (p, names)) ← errno_scope 8 d data_length (p, None) (
      checked_errno (pldm_msgbuf_extract_value_pdr_hdr hdr 8 data_length)
        (fun hdr => (AuxNamesPdr hdr ty num cid shared count size aux, None)) (fun hdr =>
      '(_, ty) ← pldm_msgbuf_extract KU16 ty;
      '(_, num) ← pldm_msgbuf_extract KU16 num;
      '(_, cid) ← pldm_msgbuf_extract KU16 cid;
      '(_, shared) ← pldm_msgbuf_extract KU8 shared;
      checked_errno (pldm_msgbuf_extract KU8 count)
        (fun count => (AuxNamesPdr hdr ty num cid shared count size aux, None)) (fun count =>
      let p := AuxNamesPdr hdr ty num cid shared count size aux in
      '(rc, names, names_len) ← pldm_msgbuf_ro_span_remaining None 0;
      if rc <? 0 then mret (rc, (p, None))
      else
      rc ← pldm_msgbuf_ro_complete_consumed;
      mret (rc, (p, (fun names => (names, names_len)) <$> names)))));
    if_err rc return_ mret (rc, Some p);;
    match names with
    | None => Fault FAssert
    | Some (names, names_len) =>
      let size := pdr_length - 40 in
      let with_data aux :=
        Some (AuxNamesPdr (an_hdr p) (an_entity_type p) (an_entity_instance_num p) (an_entity_container_id p)
                (an_shared_name_count p) (an_name_string_count p) size aux) in
      '(rc, aux) ← msgbuf_scope aux (
        rc ← pldm_msgbuf_rw_init_errno size aux size;
        if rc <? 0 then mret rc
        else copy_strings (Z.to_nat (an_name_string_count p)) names names_len);
      mret (rc, with_data aux)
    end
  | _, _ => Ok (- EINVAL, pdr)
  end.

(** The loops of the index: the start of each of [n] strings. *)
Fixpoint span_strings (span : option ptr -> option Z -> B (Z * option ptr * option Z)) (n : nat)
  : B (list ptr) :=
  match n with
  | O => mret []
  | S n =>
    '(_, loc, _) ← span (Some None) None;
    locs ← span_strings span n;
    mret (default None loc :: locs)
  end.

(** [names] is the array the caller has set the struct's member to, as pairs of tag and
    name. *)
Definition decode_pldm_entity_auxiliary_names_pdr_index (pdr : option pldm_entity_auxiliary_names_pdr)
    (names : option (list (ptr * ptr))) : outcome (Z * option (list (ptr * ptr))) :=
  match pdr with
  | None => Ok (- EINVAL, names)
  | Some p =>
    let count := an_name_string_count p in
    if (count =? 0) && (if names then true else false) then Ok (- EINVAL, names)
    else if (0 <? count) && (if names then false else true) then Ok (- EINVAL, names)
    else if count =? 0 then Ok (0, names)
    else
    '(rc, names) ← errno_scope (count * 3) (an_auxiliary_name_data p) (an_auxiliary_name_data_size p)
        (default [] names) (
      name_locs ← span_strings pldm_msgbuf_ro_span_string_utf16 (Z.to_nat count);
      tag_locs ← span_strings pldm_msgbuf_ro_span_string_ascii (Z.to_nat count);
      _ ← lift (array_first (default [] names) count);
      rc ← pldm_msgbuf_ro_complete_consumed;
      mret (rc, zip tag_locs name_locs ++ drop (Z.to_nat count) (default [] names)));
    mret (rc, Some names)
  end.

(** ** File descriptor PDRs *)

Record pldm_platform_file_descriptor_pdr := FilePdr {
  fl_hdr : pldm_value_pdr_hdr; fl_terminus_handle : Z; fl_file_identifier : Z; fl_entity_type : Z;
  fl_entity_instance_num : Z; fl_entity_container_id : Z; fl_superior_directory_file_identifier : Z;
  fl_file_classification : Z; fl_oem_file_classification : Z; fl_file_capabilities : Z;
  fl_file_version : ver32_t; fl_file_maximum_size : Z; fl_file_maximum_file_descriptor_count : Z;
  fl_file_name : variable_field; fl_oem_file_classification_name : variable_field
}.

(** A string behind its length of one byte, into the field [f]. *)
Definition span_field (n : Z) (f : variable_field) : B variable_field :=
  '(_, p) ← pldm_msgbuf_ro_span_required n (Some (vf_ptr f));
  mret (VarField (default (vf_ptr f) p) n).

Definition decode_pldm_platform_file_descriptor_pdr (data : option cmem) (data_length : Z)
    (pdr : option pldm_platform_file_descriptor_pdr) : outcome (Z * option pldm_platform_file_descriptor_pdr) :=
  match data, pdr with
  | Some d, Some (FilePdr hdr th fi ty num cid dir class oem caps ver max_size max_count name oem_name) =>
    '(rc, p) ← errno_scope 36 d data_length
        (FilePdr hdr th fi ty num cid dir class oem caps ver max_size max_count name oem_name) (
      checked_errno (pldm_msgbuf_extract_value_pdr_hdr hdr 36 data_length)
        (fun hdr => FilePdr hdr th fi ty num cid dir class oem caps ver max_size max_count name oem_name)
        (fun hdr =>
      '(_, th) ← pldm_msgbuf_extract KU16 th;
      '(_, fi) ← pldm_msgbuf_extract KU16 fi;
      '(_, ty) ← pldm_msgbuf_extract KU16 ty;
      '(_, num) ← pldm_msgbuf_extract KU16 num;
      '(_, cid) ← pldm_msgbuf_extract KU16 cid;
      '(_, dir) ← pldm_msgbuf_extract KU16 dir;
      '(_, class) ← pldm_msgbuf_extract KU8 class;
      '(_, oem) ← pldm_msgbuf_extract KU8 oem;
      '(_, caps) ← pldm_msgbuf_extract KU16 caps;
      '(_, va) ← pldm_msgbuf_extract KU8 (alpha ver);
      '(_, vu) ← pldm_msgbuf_extract KU8 (update ver);
      '(_, vmin) ← pldm_msgbuf_extract KU8 (minor ver);
      '(_, vmaj) ← pldm_msgbuf_extract KU8 (major ver);
      let ver := Ver32 va vu vmin vmaj in
      '(_, max_size) ← pldm_msgbuf_extract KU32 max_size;
      '(_, max_count) ← pldm_msgbuf_extract KU8 max_count;
      let pdr name oem_name :=
        FilePdr hdr th fi ty num cid dir class oem caps ver max_size max_count name oem_name in
      checked_errno (pldm__msgbuf_extract_uint8_to_size (vf_length name))
        (fun n => pdr (VarField (vf_ptr name) n) oem_name) (fun n =>
      name ← span_field n name;
      if oem =? 0 then
        finish_errno pldm_msgbuf_ro_complete_consumed (pdr name (VarField (vf_ptr oem_name) 0))
      else
      checked_errno (pldm__msgbuf_extract_uint8_to_size 0)
        (fun n => pdr name (VarField (vf_ptr oem_name) n)) (fun n =>
      oem_name ← span_field n oem_name;
      finish_errno pldm_msgbuf_ro_complete_consumed (pdr name oem_name)))));
    mret (rc, Some p)
  | _, _ => Ok (- EINVAL, pdr)
  end.

(** [None] for a length of [data_len] that is not given is not among the cases: the
    source reads it without a check. *)
Definition encode_pldm_platform_file_descriptor_pdr (pdr : option pldm_platform_file_descriptor_pdr)
    (data : option cmem) (data_len : Z) : outcome (Z * option cmem * Z) :=
  match pdr, data with
  | Some p, Some d =>
    let n := vf_length (fl_file_name p) in
    let k := vf_length (fl_oem_file_classification_name p) in
    match vf_ptr (fl_file_name p) with
    | None => Ok (- EINVAL, data, data_len)
    | Some name =>
      if n <=? 1 then Ok (- EINVAL, data, data_len)
      else if (1 <? k) && (match vf_ptr (fl_oem_file_classification_name p) with None => true | _ => false end)
      then Ok (- EINVAL, data, data_len)
      else if (255 <? n) || (255 <? k) then Ok (- EINVAL, data, data_len)
      else
      let pdr_len := 36 + n + (if 1 <? k then k + 1 else 0) in
      if negb (vh_length (fl_hdr p) =? pdr_len - 10) then Ok (- EINVAL, data, data_len)
      else
      '(rc, used, d) ← msgbuf_scope d (
        rc ← pldm_msgbuf_rw_init_errno pdr_len d data_len;
        if_err rc return_ mret (rc, data_len);;
        _ ← insert_fields [(KU32, vh_record_handle (fl_hdr p)); (KU8, vh_version (fl_hdr p));
              (KU8, vh_type (fl_hdr p)); (KU16, vh_record_change_num (fl_hdr p)); (KU16, vh_length (fl_hdr p));
              (KU16, fl_terminus_handle p); (KU16, fl_file_identifier p); (KU16, fl_entity_type p);
              (KU16, fl_entity_instance_num p); (KU16, fl_entity_container_id p);
              (KU16, fl_superior_directory_file_identifier p); (KU8, fl_file_classification p);
              (KU8, fl_oem_file_classification p); (KU16, fl_file_capabilities p)];
        rc ← pldm__msgbuf_insert_array_void 4 (CMem 0 (ver32_bytes (fl_file_version p))) 4;
        if_err rc return_ (rc ← pldm_msgbuf_rw_discard rc; mret (rc, data_len));;
        _ ← insert_fields [(KU32, fl_file_maximum_size p); (KU8, fl_file_maximum_file_descriptor_count p);
              (KU8, u8 n)];
        rc ← pldm__msgbuf_insert_array_void n name n;
        if_err rc return_ (rc ← pldm_msgbuf_rw_discard rc; mret (rc, data_len));;
        if negb (1 <? k) then pldm_msgbuf_complete_used data_len data_len
        else
        _ ← pldm_msgbuf_insert KU8 (u8 k);
        rc ← pldm__msgbuf_insert_array_void k (field_object (fl_oem_file_classification_name p)) k;
        if_err rc return_ (rc ← pldm_msgbuf_rw_discard rc; mret (rc, data_len));;
        pldm_msgbuf_complete_used data_len data_len);
      mret (rc, Some d, used)
    end
  | _, _ => Ok (- EINVAL, data, data_len)
  end.

(** ** Redfish PDRs *)

Record pldm_platform_redfish_resource_pdr := ResourcePdr {
  rp_hdr : pldm_value_pdr_hdr; rp_resource_id : Z; rp_resource_flags : Z; rp_containing_resource_id : Z;
  rp_proposed_containing_resource_name : variable_field; rp_sub_uri : variable_field;
  rp_additional_resource_id_count : Z; rp_additional_resources : variable_field;
  rp_major_schema_version : ver32_t; rp_major_schema_dictionary_length_bytes : Z;
  rp_major_schema_dictionary_signature : Z; rp_major_schema_name : variable_field;
  rp_oem_count : Z; rp_oem_names : variable_field
}.

(** A field that begins or ends at the cursor. *)
Definition field_begin : B variable_field := fun b =>
  let '(_, f) := pldm__msgbuf_field_begin b in Ok (f, b).
Definition field_end (f : variable_field) : B (Z * variable_field) := fun b =>
  Ok (pldm__msgbuf_field_end b f, b).

(** [n] elements, each through [element]; the return code of the first that fails. *)
Fixpoint skip_elements (element : B Z) (n : nat) : B Z :=
  match n with
  | O => mret 0
  | S n =>
    rc ← element;
    if_err rc return_ mret rc;;
    skip_elements element n
  end.

(** A length through [to_size] and that many bytes. *)
Definition skip_string (to_size : Z -> B (Z * Z)) : B Z :=
  '(rc, n) ← to_size 0;
  if_err rc return_ mret rc;;
  _ ← pldm_msgbuf_ro_span_required n None;
  mret 0.

Definition skip_additional_resource : B Z :=
  _ ← pldm_msgbuf_extract KU32 0;
  skip_string pldm__msgbuf_extract_uint16_to_size.

(** The elements between two positions of the cursor as a field of the PDR. *)
Definition elements_field {O} (element : B Z) (n : Z) (o : variable_field -> O)
    (k : variable_field -> B (Z * O)) : B (Z * O) :=
  f ← field_begin;
  rc ← skip_elements element (Z.to_nat n);
  if_err rc return_ refuse rc (o f);;
  checked_errno (field_end f) o k.

Definition decode_pldm_platform_redfish_resource_pdr (data : option cmem) (data_length : Z)
    (pdr : option pldm_platform_redfish_resource_pdr) : outcome (Z * option pldm_platform_redfish_resource_pdr) :=
  match data, pdr with
  | Some d, Some (ResourcePdr hdr id flags parent pname uri acount additional ver dlen dsig sname ocount onames) =>
    '(rc, p) ← errno_scope 41 d data_length
        (ResourcePdr hdr id flags parent pname uri acount additional ver dlen dsig sname ocount onames) (
      checked_errno (pldm_msgbuf_extract_value_pdr_hdr hdr 41 data_length)
        (fun hdr => ResourcePdr hdr id flags parent pname uri acount additional ver dlen dsig sname ocount onames)
        (fun hdr =>
      '(_, id) ← pldm_msgbuf_extract KU32 id;
      '(_, flags) ← pldm_msgbuf_extract KU8 flags;
      '(_, parent) ← pldm_msgbuf_extract KU32 parent;
      checked_errno (pldm__msgbuf_extract_uint16_to_size (vf_length pname))
        (fun n => ResourcePdr hdr id flags parent (VarField (vf_ptr pname) n) uri acount additional ver dlen
                    dsig sname ocount onames) (fun n =>
      pname ← span_field n pname;
      checked_errno (pldm__msgbuf_extract_uint16_to_size (vf_length uri))
        (fun n => ResourcePdr hdr id flags parent pname (VarField (vf_ptr uri) n) acount additional ver dlen
                    dsig sname ocount onames) (fun n =>
      uri ← span_field n uri;
      checked_errno (pldm_msgbuf_extract KU16 acount)
        (fun acount => ResourcePdr hdr id flags parent pname uri acount additional ver dlen dsig sname ocount
                         onames) (fun acount =>
      elements_field skip_additional_resource acount
        (fun additional => ResourcePdr hdr id flags parent pname uri acount additional ver dlen dsig sname
                             ocount onames) (fun additional =>
      '(_, va) ← pldm_msgbuf_extract KU8 (alpha ver);
      '(_, vu) ← pldm_msgbuf_extract KU8 (update ver);
      '(_, vmin) ← pldm_msgbuf_extract KU8 (minor ver);
      '(_, vmaj) ← pldm_msgbuf_extract KU8 (major ver);
      let ver := Ver32 va vu vmin vmaj in
      '(_, dlen) ← pldm_msgbuf_extract KU16 dlen;
      '(_, dsig) ← pldm_msgbuf_extract KU32 dsig;
      checked_errno (pldm__msgbuf_extract_uint8_to_size (vf_length sname))
        (fun n => ResourcePdr hdr id flags parent pname uri acount additional ver dlen dsig
                    (VarField (vf_ptr sname) n) ocount onames) (fun n =>
      sname ← span_field n sname;
      checked_errno (pldm_msgbuf_extract KU16 ocount)
        (fun ocount => ResourcePdr hdr id flags parent pname uri acount additional ver dlen dsig sname ocount
                         onames) (fun ocount =>
      elements_field (skip_string pldm__msgbuf_extract_uint16_to_size) ocount
        (fun onames => ResourcePdr hdr id flags parent pname uri acount additional ver dlen dsig sname ocount
                         onames) (fun onames =>
      finish_errno pldm_msgbuf_ro_complete_consumed
        (ResourcePdr hdr id flags parent pname uri acount additional ver dlen dsig sname ocount onames))))))))));
    mret (rc, Some p)
  | _, _ => Ok (- EINVAL, pdr)
  end.

(** The four iterators over fields of these PDRs have the same struct, which counts the
    entries left. *)
Record redfish_iter := RedfishIter { ri_field : variable_field; ri_entries : Z }.

Definition pldm_platform_redfish_resource_pdr_additional_resource_iter_init
    (p : pldm_platform_redfish_resource_pdr) : redfish_iter :=
  RedfishIter (rp_additional_resources p) (rp_additional_resource_id_count p).

Definition pldm_platform_redfish_resource_pdr_oem_name_iter_init (p : pldm_platform_redfish_resource_pdr)
  : redfish_iter := RedfishIter (rp_oem_names p) (rp_oem_count p).

Definition redfish_iter_end (i : redfish_iter) : bool := ri_entries i =? 0.

Definition redfish_iter_next (i : redfish_iter) : bool * redfish_iter :=
  if ri_entries i =? 0 then (false, i) else (true, RedfishIter (ri_field i) (ri_entries i - 1)).

(** The rest of the field, for the next round. *)
Definition rest_of_field {O} (f : variable_field) (o : variable_field -> O) : B (Z * O) :=
  '(_, p, n) ← pldm_msgbuf_ro_span_remaining (vf_ptr f) (vf_length f);
  finish_errno pldm_msgbuf_ro_complete_consumed (o (VarField p n)).

(** id, sub_uri *)
Definition additional_resource : Type := Z * variable_field.

Definition decode_pldm_platform_redfish_resource_pdr_additional_resource_from_iter (iter : option redfish_iter)
    (additional_resource : option additional_resource)
  : outcome (Z * option redfish_iter * option (Z * variable_field)) :=
  match iter, additional_resource with
  | Some (RedfishIter (VarField (Some p) n) entries), Some (id, uri) =>
    let f := VarField (Some p) n in
    '(rc, (i, a)) ← errno_scope 7 p n (RedfishIter f entries, (id, uri)) (
      '(_, id) ← pldm_msgbuf_extract KU32 id;
      checked_errno (pldm__msgbuf_extract_uint16_to_size (vf_length uri))
        (fun k => (RedfishIter f entries, (id, VarField (vf_ptr uri) k))) (fun k =>
      uri ← span_field k uri;
      rest_of_field f (fun f => (RedfishIter f entries, (id, uri)))));
    mret (rc, Some i, Some a)
  | _, _ => Ok (- EINVAL, iter, additional_resource)
  end.

Definition decode_pldm_platform_redfish_resource_pdr_oem_name_from_iter (iter : option redfish_iter)
    (oem_name : option variable_field) : outcome (Z * option redfish_iter * option variable_field) :=
  match iter, oem_name with
  | Some (RedfishIter (VarField (Some p) n) entries), Some name =>
    let f := VarField (Some p) n in
    '(rc, (i, a)) ← errno_scope 3 p n (RedfishIter f entries, name) (
      checked_errno (pldm__msgbuf_extract_uint16_to_size (vf_length name))
        (fun k => (RedfishIter f entries, VarField (vf_ptr name) k)) (fun k =>
      name ← span_field k name;
      rest_of_field f (fun f => (RedfishIter f entries, name))));
    mret (rc, Some i, Some a)
  | _, _ => Ok (- EINVAL, iter, oem_name)
  end.

Record pldm_platform_redfish_action_pdr := ActionPdr {
  ap_hdr : pldm_value_pdr_hdr; ap_action_pdr_index : Z; ap_related_resource_count : Z;
  ap_related_resources : variable_field; ap_action_count : Z; ap_actions : variable_field
}.

(** Name and path. *)
Definition skip_action : B Z :=
  rc ← skip_string pldm__msgbuf_extract_uint8_to_size;
  if_err rc return_ mret rc;;
  skip_string pldm__msgbuf_extract_uint8_to_size.

Definition skip_resource_id : B Z := _ ← pldm_msgbuf_ro_span_required 4 None; mret 0.

Definition decode_pldm_platform_redfish_action_pdr (data : option cmem) (data_length : Z)
    (pdr : option pldm_platform_redfish_action_pdr) : outcome (Z * option pldm_platform_redfish_action_pdr) :=
  match data, pdr with
  | Some d, Some (ActionPdr hdr index rcount related acount actions) =>
    '(rc, p) ← errno_scope 14 d data_length (ActionPdr hdr index rcount related acount actions) (
      checked_errno (pldm_msgbuf_extract_value_pdr_hdr hdr 14 data_length)
        (fun hdr => ActionPdr hdr index rcount related acount actions) (fun hdr =>
      '(_, index) ← pldm_msgbuf_extract KU8 index;
      checked_errno (pldm_msgbuf_extract KU16 rcount)
        (fun rcount => ActionPdr hdr index rcount related acount actions) (fun rcount =>
      elements_field skip_resource_id rcount
        (fun related => ActionPdr hdr index rcount related acount actions) (fun related =>
      checked_errno (pldm_msgbuf_extract KU8 acount)
        (fun acount => ActionPdr hdr index rcount related acount actions) (fun acount =>
      elements_field skip_action acount
        (fun actions => ActionPdr hdr index rcount related acount actions) (fun actions =>
      finish_errno pldm_msgbuf_ro_complete_consumed (ActionPdr hdr index rcount related acount actions)))))));
    mret (rc, Some p)
  | _, _ => Ok (- EINVAL, pdr)
  end.

Definition pldm_platform_redfish_action_pdr_related_resource_id_iter_init (p : pldm_platform_redfish_action_pdr)
  : redfish_iter := RedfishIter (ap_related_resources p) (ap_related_resource_count p).

Definition pldm_platform_redfish_action_pdr_action_iter_init (p : pldm_platform_redfish_action_pdr)
  : redfish_iter := RedfishIter (ap_actions p) (ap_action_count p).

Definition decode_pldm_platform_redfish_action_pdr_related_resource_id_from_iter (iter : option redfish_iter)
    (res : option Z) : outcome (Z * option redfish_iter * option Z) :=
  match iter, res with
  | Some (RedfishIter (VarField (Some p) n) entries), Some r =>
    let f := VarField (Some p) n in
    '(rc, (i, r)) ← errno_scope 4 p n (RedfishIter f entries, r) (
      '(_, r) ← pldm_msgbuf_extract KU32 r;
      rest_of_field f (fun f => (RedfishIter f entries, r)));
    mret (rc, Some i, Some r)
  | _, _ => Ok (- EINVAL, iter, res)
  end.

(** name, path *)
Definition redfish_action : Type := variable_field * variable_field.

Definition decode_pldm_platform_redfish_action_pdr_action_from_iter (iter : option redfish_iter)
    (action : option redfish_action) : outcome (Z * option redfish_iter * option redfish_action) :=
  match iter, action with
  | Some (RedfishIter (VarField (Some p) n) entries), Some (name, path) =>
    let f := VarField (Some p) n in
    '(rc, (i, a)) ← errno_scope 4 p n (RedfishIter f entries, (name, path)) (
      checked_errno (pldm__msgbuf_extract_uint8_to_size (vf_length name))
        (fun k => (RedfishIter f entries, (VarField (vf_ptr name) k, path))) (fun k =>
      name ← span_field k name;
      checked_errno (pldm__msgbuf_extract_uint8_to_size (vf_length path))
        (fun k => (RedfishIter f entries, (name, VarField (vf_ptr path) k))) (fun k =>
      path ← span_field k path;
      rest_of_field f (fun f => (RedfishIter f entries, (name, path))))));
    mret (rc, Some i, Some a)
  | _, _ => Ok (- EINVAL, iter, action)
  end.
