(* ===== verification/PlatformSafe.v ===== *)
(** * Platform monitoring and control: any bytes in a decoder

    No message, event or PDR makes a decoder of platform.c read outside of it, write
    outside of the caller's objects, fail an assertion or leave its buffer open, but for
    the two that do. *)

From S2P Require Import Prelude Msgbuf Layout Base Legacy Safety Platform PlatformEvents PlatformPdr.

(** ** Values and elements *)

Lemma safe_value k dst b Q :
  live b -> (8 <= length dst)%nat ->
  (forall rc d b', live b' -> obj b' = obj b -> (clean b' -> clean b) -> length d = length dst ->
     rc = 0 \/ rc = - EOVERFLOW \/ rc = - PLDM_ERROR_INVALID_DATA -> Q (rc, d) b') ->
  wp (extract_value k dst) b Q.
Proof.
  intros Hb Hd HQ. unfold extract_value. destruct k as [k|]; [|apply wp_ret, HQ; auto].
  pose proof (kind_size_bound k).
  apply wp_bind, safe_extract; [done|]. intros rc v b' [] Hrc _ _. cmp_case.
  - apply wp_bind.
    destruct (live_array_store (le_enc (kind_size k) v) dst
      (fun d => d = splice 0 (le_enc (kind_size k) v) dst)) as (d & E & ->);
      [by rewrite le_enc_length; lia|done|].
    eapply wp_run; [unfold lift; rewrite E; reflexivity|].
    apply wp_ret, HQ; [done..|naive_solver| |lia]. apply splice_length. rewrite le_enc_length. lia.
  - apply wp_ret, HQ; [done..|naive_solver|done|lia].
Qed.

#[export] Hint Unfold pldm_msgbuf_extract_sensor_data pldm_msgbuf_extract_sensor_value
  pldm_msgbuf_extract_effecter_value pldm__msgbuf_extract_effecter_data
  pldm__msgbuf_extract_range_field_format : safe.

Ltac safe_more :=
  repeat first
    [ progress safe_call
    | lazymatch goal with
      | |- wp (extract_value _ _) _ _ => apply safe_value; [step_done|safe_side|intros ? ? ? ? ? ? ? ?]
      end; cbv beta iota ].

Ltac open_fields :=
  split_pairs;
  repeat match goal with
  | x : get_sensor_state_field |- _ => destruct x
  | x : get_effecter_state_field |- _ => destruct x
  | x : set_effecter_state_field |- _ => destruct x
  | x : pldm_set_state_sensor_enable_field |- _ => destruct x
  end; split_pairs.

Ltac element_safe :=
  let Q := fresh "Q" in let HQ := fresh "HQ" in
  intros ? ? Q ? HQ; open_fields; safe_more; apply HQ;
  [step_done|repeat match goal with H : step _ _ _ |- _ => destruct H end; congruence
  |repeat match goal with H : step _ _ _ |- _ => destruct H end; naive_solver].

Lemma extract_pair_safe : safe_element extract_pair.
Proof. unfold extract_pair. element_safe. Qed.

Lemma extract_triple_safe : safe_element extract_triple.
Proof. unfold extract_triple. element_safe. Qed.

Lemma extract_states_safe : safe_element extract_states.
Proof. unfold extract_states. element_safe. Qed.

Lemma extract_u8_safe : safe_element extract_u8.
Proof. unfold extract_u8. element_safe. Qed.

#[export] Hint Extern 1 (safe_element _) =>
  first [exact extract_pair_safe | exact extract_triple_safe | exact extract_states_safe
        | exact extract_u8_safe] : safe.

(** What a caller's object promises, if it is given. *)
Definition promised {A} (o : option A) (P : A -> Prop) : Prop :=
  match o with Some a => P a | None => True end.

(** The function a term calls, below the regrouping of its outputs. *)
Ltac head_of t :=
  lazymatch t with
  | outs2 ?t => head_of t
  | outs3 ?t => head_of t
  | ?f _ => head_of f
  | ?f => f
  end.

(** A whole decoder: its arguments case by case, its guards, its buffer. *)
Ltac safe_decoder :=
  intros; lazymatch goal with |- returns _ _ ?t => let f := head_of t in unfold f end;
  repeat match goal with
  | |- context [match ?o with Some _ => _ | None => _ end] => is_var o; destruct o
  end; open_fields;
  repeat match goal with |- context [match ?x with _ => _ end] => is_var x; destruct x end;
  repeat match goal with H : promised _ _ |- _ => cbn in H end; repeat safe_scope; safe_more; try done.

Ltac safe_decoders :=
  repeat lazymatch goal with |- _ /\ _ => split | |- forall _, _ => intro | |- _ -> _ => intro end; safe_decoder.

Section decoders.
Context (h : pldm_msg_hdr) (m : cmem) (len : Z).
Hypothesis Hm : mem_ok m.
Hypothesis Hlen : 0 <= len <= mem_size m.
Abbreviation msg := (Some (Msg h m)) (only parsing).

(** Access to the PDRs of a terminus. *)
Definition pdr_access_decoders : Prop :=
  (forall outs, returns refusal anything (decode_get_pdr_req msg len outs)) /\
  (forall outs record n crc, promised record (fun d => n <= Z.of_nat (length d)) ->
     returns refusal anything (outs3 (decode_get_pdr_resp msg len outs record n crc))) /\
  (forall resp n crc, promised resp (fun r => u64 (n - 12) <= Z.of_nat (length (gr_record_data r))) ->
     returns errno anything (outs2 (decode_get_pdr_resp_safe msg len resp n crc))) /\
  (forall outs, promised outs (fun r => length (pi_update_time r) = 13%nat /\
                                        length (pi_oem_update_time r) = 13%nat) ->
     returns refusal anything (decode_get_pdr_repository_info_resp msg len outs) /\
     returns errno anything (decode_get_pdr_repository_info_resp_safe msg len outs)).

Lemma pdr_access_safe : pdr_access_decoders.
Proof. unfold pdr_access_decoders. safe_decoders. Qed.

(** Effecters.  One response decoder reads its completion code whatever the length. *)
Definition effecters_decoders : Prop :=
  (forall cc, cc = None \/ 1 <= mem_size m -> returns refusal anything (decode_set_state_effecter_states_resp msg len cc)) /\
  (forall cc, mem_size m = 0 -> decode_set_state_effecter_states_resp msg len (Some cc) = Fault FMemory) /\
  (forall outs, promised outs (fun '(_, _, field) => (8 <= length field)%nat) ->
     returns refusal anything (decode_set_state_effecter_states_req msg len outs)) /\
  (forall id, returns errno anything (decode_get_state_effecter_states_req msg len id)) /\
  (forall resp, promised resp (fun r => (8 <= length (es_field r))%nat) ->
     returns errno anything (decode_get_state_effecter_states_resp msg len resp)) /\
  (forall outs, promised outs (fun '(_, _, value) => (8 <= length value)%nat) ->
     returns refusal anything (decode_set_numeric_effecter_value_req msg len outs)) /\
  (forall cc, returns refusal anything (decode_set_numeric_effecter_value_resp msg len cc)) /\
  (forall id, returns refusal anything (decode_get_numeric_effecter_value_req msg len id)) /\
  (forall outs, promised outs (fun '(_, _, _, pending, present) =>
       (8 <= length pending)%nat /\ (8 <= length present)%nat) ->
     returns refusal anything (decode_get_numeric_effecter_value_resp msg len outs)).

Lemma set_states_resp_safe cc :
  cc = None \/ 1 <= mem_size m -> returns refusal anything (decode_set_state_effecter_states_resp msg len cc).
Proof. intros [->|?]; safe_decoder. Qed.

Lemma effecters_safe : effecters_decoders.
Proof.
  split; [exact set_states_resp_safe|]. split.
  { intros cc Hz. unfold decode_set_state_effecter_states_resp, member, payload_read. cbn [payload].
    by rewrite mem_read_outside by lia. }
  safe_decoders.
Qed.

(** Sensors. *)
Definition sensors_decoders : Prop :=
  (forall outs, promised outs (fun '(_, _, field) => (8 <= length field)%nat) ->
     returns refusal anything (decode_get_state_sensor_readings_resp msg len outs)) /\
  (forall outs, returns refusal anything (decode_get_state_sensor_readings_req msg len outs)) /\
  (forall cc, returns errno anything (decode_pldm_platform_set_numeric_sensor_enable_resp msg len cc)) /\
  (forall req, returns errno anything (decode_set_numeric_sensor_enable_req msg len req)) /\
  (forall outs, returns refusal anything (decode_get_sensor_reading_req msg len outs)) /\
  (forall outs, promised outs (fun r => (8 <= length (sr_present_reading r))%nat) ->
     returns refusal anything (decode_get_sensor_reading_resp msg len outs)).

Lemma sensors_safe : sensors_decoders.
Proof. unfold sensors_decoders. safe_decoders. Qed.

(** What the response with the terminus UID is read for is not there: the completion
    code, or the 16 bytes behind a code of success. *)
Definition uid_cut_off : bool := (mem_size m <? 1) || (fld m 0 1 =? 0) && (mem_size m <? 17).

Lemma terminus_uid_cut_off cc u :
  uid_cut_off = true -> decode_get_terminus_UID_resp msg len (Some cc) (Some u) = Fault FMemory.
Proof.
  unfold uid_cut_off, decode_get_terminus_UID_resp. intros H.
  destruct (Z.ltb_spec (mem_size m) 1) as [E|E].
  { unfold member, payload_read. cbn [payload]. by rewrite (mem_read_outside m 0 1) by lia. }
  rewrite (member_ok h m 0 1 ltac:(lia) : member (Msg h m) 0 1 = _). cbn [mbind outcome_bind orb] in *. apply andb_prop in H as [-> H]. cbn [negb].
  replace (17 <? len) with false by lia. unfold payload_read. cbn [payload]. by rewrite mem_read_outside by lia.
Qed.

Lemma terminus_uid_safe cc uuid :
  promised uuid (fun u => length u = 16%nat) -> cc = None \/ uuid = None \/ uid_cut_off = false ->
  returns refusal anything (outs2 (decode_get_terminus_UID_resp msg len cc uuid)).
Proof.
  intros Hu [->|[->|H]]; [safe_decoder..|]. unfold decode_get_terminus_UID_resp.
  destruct cc, uuid as [u|]; try (apply returns_ok; [safe_code|done]). cbn in Hu. unfold uid_cut_off in H.
  destruct (Z.ltb_spec (mem_size m) 1); [done|]. rewrite (member_ok h m 0 1 ltac:(lia) : member (Msg h m) 0 1 = _). cbn [mbind outcome_bind orb] in *.
  destruct (fld m 0 1 =? PLDM_SUCCESS); cbn [negb andb] in *; [|apply returns_ok; [safe_code|done]].
  cmp_case; [apply returns_ok; [safe_code|done]|]. unfold payload_read. cbn [payload].
  destruct (mem_read_in m 1 16) as (r & -> & Hr & _); [lia..|]. cbn [mbind outcome_bind].
  unfold array_store. rewrite (proj2 (Nat.leb_le _ _)) by lia. apply returns_ok; [safe_code|done].
Qed.

(** Event receivers and the terminus UID. *)
Definition receivers_decoders : Prop :=
  (forall r, returns errno anything (decode_get_event_receiver_resp msg len r)) /\
  (forall cc, returns refusal anything (decode_set_event_receiver_resp msg len cc)) /\
  (forall outs, returns refusal anything (decode_set_event_receiver_req msg len outs)) /\
  (forall cc uuid, promised uuid (fun u => length u = 16%nat) -> cc = None \/ uuid = None \/ uid_cut_off = false ->
     returns refusal anything (outs2 (decode_get_terminus_UID_resp msg len cc uuid))) /\
  (forall cc u, uid_cut_off = true -> decode_get_terminus_UID_resp msg len (Some cc) (Some u) = Fault FMemory).

Lemma receivers_safe : receivers_decoders.
Proof.
  split; [safe_decoder|]. split; [safe_decoder|]. split; [safe_decoder|].
  split; [exact terminus_uid_safe|exact terminus_uid_cut_off].
Qed.

(** Event messages. *)
Definition event_messages_decoders : Prop :=
  (forall outs, returns refusal anything (decode_platform_event_message_req msg len outs)) /\
  (forall outs, returns refusal anything (decode_platform_event_message_resp msg len outs)) /\
  (forall outs, returns refusal anything (decode_poll_for_platform_event_message_req msg len outs)) /\
  (forall outs, returns (fun rc => 0 < rc < 256) anything
     (decode_poll_for_platform_event_message_resp msg len outs)) /\
  (forall outs, returns refusal anything (decode_event_message_buffer_size_resp msg len outs)) /\
  (forall outs count, promised outs (fun '(_, _, _, _, class) => count <= Z.of_nat (length class)) ->
     returns refusal anything (decode_event_message_supported_resp msg len outs count)).

Lemma event_messages_safe : event_messages_decoders.
Proof. unfold event_messages_decoders. safe_decoders. Qed.
End decoders.

(** ** Event data and PDRs *)

#[export] Hint Unfold pldm_msgbuf_extract_value_pdr_hdr extract_sensor_head extract_sensor_body
  extract_sensor_ranges extract_effecter_head extract_effecter_body extract_effecter_ranges : safe.

Section data.
Context (m : cmem) (len : Z).
Hypothesis Hm : mem_ok m.
Hypothesis Hlen : 0 <= len <= mem_size m.
Abbreviation data := (Some m) (only parsing).

(** The data of the events. *)
Definition event_data_decoders : Prop :=
  (forall outs, returns refusal anything (decode_sensor_event_data data len outs)) /\
  (forall outs, returns refusal anything (decode_sensor_op_data data len outs)) /\
  (forall outs, returns refusal anything (decode_state_sensor_data data len outs)) /\
  (forall outs, returns refusal anything (decode_numeric_sensor_data data len outs)) /\
  (forall d, promised d (fun d => (8 <= length (ne_present_reading d))%nat) ->
     returns refusal anything (decode_numeric_sensor_event_data data len d)) /\
  (forall outs, returns refusal anything (decode_pldm_cper_event_data data len outs)) /\
  (forall e n, promised e (fun e => Z.of_nat (length (ce_event_data e)) = n - 4) ->
     returns errno anything (decode_pldm_platform_cper_event data len e n)) /\
  (forall outs, returns refusal anything (decode_pldm_smbios_event_data data len outs)) /\
  (forall outs, returns refusal anything (decode_pldm_pdr_repository_chg_event_data data len outs)) /\
  (forall outs, returns refusal anything (decode_pldm_pdr_repository_change_record_data data len outs)) /\
  (forall p, returns errno anything (decode_pldm_message_poll_event_data data len p)).

Lemma event_data_safe : event_data_decoders.
Proof. unfold event_data_decoders. safe_decoders. Qed.

(** The unions of the caller's object are of eight bytes. *)
Definition union_room (l : list Z) : Prop := (8 <= length l)%nat.

Definition sensor_pdr_room (p : pldm_numeric_sensor_value_pdr) : Prop :=
  (let b := ns_body p in
   union_room (ns_hysteresis b) /\ union_room (ns_max_readable b) /\ union_room (ns_min_readable b)) /\
  (let r := ns_ranges p in
   union_room (ns_nominal_value r) /\ union_room (ns_normal_max r) /\ union_room (ns_normal_min r) /\
   union_room (ns_warning_high r) /\ union_room (ns_warning_low r) /\ union_room (ns_critical_high r) /\
   union_room (ns_critical_low r) /\ union_room (ns_fatal_high r) /\ union_room (ns_fatal_low r)).

Definition effecter_pdr_room (p : pldm_numeric_effecter_value_pdr) : Prop :=
  (union_room (nf_max_settable (nf_body p)) /\ union_room (nf_min_settable (nf_body p))) /\
  (let r := nf_ranges p in
   union_room (nf_nominal_value r) /\ union_room (nf_normal_max r) /\ union_room (nf_normal_min r) /\
   union_room (nf_rated_max r) /\ union_room (nf_rated_min r)).

Lemma sensor_pdr_safe pdr :
  promised pdr sensor_pdr_room -> returns refusal anything (decode_numeric_sensor_pdr_data data len pdr).
Proof. unfold sensor_pdr_room, union_room. safe_decoder. Qed.

(** *** Two returns that forget the buffer *)

(** The header of a numeric effecter PDR the decoder does not take: its length, with 16
    added to it, is below the minimum, or it is above the length of the whole PDR. *)
Definition bad_effecter_header : bool := (fld m 8 2 + 16 <? 63) || (len <? fld m 8 2).

Lemma wp_value_pdr_hdr hdr lower b (Q : Z * pldm_value_pdr_hdr -> msgbuf -> Prop) :
  mb_rd m len 0 b -> 10 <= len ->
  (forall b', mb_rd m len 10 b' ->
     let h := ValueHdr (fld m 0 4) (fld m 4 1) (fld m 5 1) (fld m 6 2) (fld m 8 2) in
     Q (if (fld m 8 2 + 16 <? lower) || (len <? fld m 8 2) then - EOVERFLOW else 0, h) b') ->
  wp (pldm_msgbuf_extract_value_pdr_hdr hdr lower len) b Q.
Proof.
  intros Hb Hl HQ. unfold pldm_msgbuf_extract_value_pdr_hdr. do 5 mb_extract_in.
  specialize (HQ _ Hb). cbv zeta in HQ. repeat (cmp_case; [by apply wp_ret|]). by apply wp_ret.
Qed.

Lemma effecter_pdr_safe pdr :
  promised pdr effecter_pdr_room -> (63 <= len -> bad_effecter_header = false) ->
  returns refusal anything (decode_numeric_effecter_pdr_data data len pdr).
Proof.
  unfold effecter_pdr_room, union_room. intros Hroom Hh. unfold decode_numeric_effecter_pdr_data.
  destruct pdr as [[]|]; [|apply returns_ok; [safe_code|done]]. cbn in Hroom.
  eapply (returns_bind refusal anything); [|intros; apply returns_ok; [safe_code|done]].
  apply legacy_scope_reads; [assumption..|safe_code|]. intros b Hb Hl.
  apply wp_bind, (wp_value_pdr_hdr _ _ b _ Hb); [lia|]. intros b' Hb'.
  specialize (Hh Hl). unfold bad_effecter_header in Hh. rewrite Hh. cbn [Z.eqb].
  assert (live b') by (apply (rd_live m len 10); (done || lia)). clear Hb Hb' Hh.
  safe_more. all: done.
Qed.

Lemma effecter_pdr_bad_header pdr :
  63 <= len -> bad_effecter_header = true ->
  decode_numeric_effecter_pdr_data data len (Some pdr) = Fault FAssert.
Proof.
  intros Hl Hh. unfold decode_numeric_effecter_pdr_data, legacy_scope. destruct pdr.
  rewrite (scope_left_open 63 m len Hm Hlen (fun rc => rc ← lift (pldm_xlate_errno rc); mret (rc, _)));
    [done|done|].
  intros b Hb. apply wp_bind, (wp_value_pdr_hdr _ _ b _ Hb); [lia|]. intros b' Hb'.
  unfold bad_effecter_header in Hh. rewrite Hh. cbn.
  destruct Hb' as [_ _ _ _ _ (k & Hk & _)]. by exists k.
Qed.

(** The number of fields a request to enable state sensors may have. *)
Definition bad_enable_count : bool := (fld m 2 1 <? 1) || (8 <? fld m 2 1).

Lemma safe_enables n l b Q :
  live b -> (n <= length l)%nat ->
  (forall e l' b', (match e with Some rc => mb_done b' /\ errno rc | None => live b' end) -> Q (e, l') b') ->
  wp (extract_enables n l) b Q.
Proof.
  revert l b Q. induction n as [|n IH]; intros [|f l] b Q Hb Hn HQ; cbn [extract_enables length] in *;
    try lia; try by apply wp_ret, HQ.
  safe_more.
  1,2: apply HQ; split; [assumption|safe_code].
  1: apply IH; [step_done|lia|]; intros e2 l2 b2 He; apply wp_ret; by apply HQ.
  apply HQ. split; [assumption|safe_code].
Qed.

Lemma sensor_enables_safe h req :
  promised req (fun r => (8 <= length (sse_fields r))%nat) -> (3 <= len -> bad_enable_count = false) ->
  returns errno anything (decode_set_state_sensor_enables_req (Some (Msg h m)) len req).
Proof.
  intros Hroom Hh. unfold decode_set_state_sensor_enables_req.
  destruct req as [[]|]; [|apply returns_ok; [safe_code|done]]. cbn in Hroom.
  eapply (returns_bind errno anything); [|intros; apply returns_ok; [safe_code|done]].
  apply errno_scope_reads; [assumption..|safe_code|]. cbn [payload]. intros b Hb Hl.
  do 2 mb_extract_in. specialize (Hh Hl). unfold bad_enable_count in Hh. rewrite Hh.
  assert (live b1) by (apply (rd_live m len 3); (done || lia)). clear Hb.
  apply wp_bind, safe_enables; [done|lia|]. intros [rc|] l' b' He; safe_more; try done.
  destruct He. split; [done|]. split; [by right|done].
Qed.

Lemma sensor_enables_bad_count h req :
  3 <= len -> bad_enable_count = true ->
  decode_set_state_sensor_enables_req (Some (Msg h m)) len (Some req) = Fault FAssert.
Proof.
  intros Hl Hh. unfold decode_set_state_sensor_enables_req, decode_frame. destruct req. cbn [payload].
  rewrite (scope_left_open 3 m len Hm Hlen (fun rc => mret (rc, _))); [done|done|].
  intros b Hb. do 2 mb_extract_in. unfold bad_enable_count in Hh. rewrite Hh.
  destruct Hb as [_ _ _ _ _ (k & Hk & _)]. by exists k.
Qed.
End data.

(** ** Fields that point into a PDR *)

(** The field is bytes of the record: it starts at an offset of it and ends within its
    length. *)
Definition field_in (m : cmem) (len : Z) (f : variable_field) : Prop :=
  exists c, vf_ptr f = Some (ptr_at m c) /\ 0 <= c /\ 0 <= vf_length f /\ c + vf_length f <= len.

(** What an iterator has left is bytes of the record. *)
Definition iter_ok (m : cmem) (len : Z) (i : redfish_iter) : Prop := field_in m len (ri_field i).

(** Fields of fields. *)
Lemma field_in_part m len c n f :
  0 <= c -> c + n <= len -> field_in (ptr_at m c) n f -> field_in m len f.
Proof.
  intros Hc Hn (d & Hp & ? & ? & ?). exists (c + d). rewrite Hp, ptr_at_ptr_at by done. split_and!; [done|lia..].
Qed.

(** A buffer on the record [m], which ends at [len]. *)
Definition field_of (b : msgbuf) (f : variable_field) : Prop := spans b (vf_ptr f) (vf_length f).

Lemma field_of_in m len b f : field_of b f -> obj b = m -> buf_end b = len -> field_in m len f.
Proof. intros (c & Hp & ? & ? & ?) <- <-. by exists c. Qed.

(** What a call leaves of the buffer. *)
Record kept (b b' : msgbuf) : Prop := {
  kept_obj : obj b' = obj b;
  kept_clean : clean b' -> clean b;
  kept_end : clean b' -> buf_end b' = buf_end b
}.

Lemma step_kept rc b b' : step rc b b' -> kept b b'.
Proof. intros []. constructor; [done|naive_solver|done]. Qed.

Lemma kept_refl b : kept b b.
Proof. done. Qed.

Lemma kept_trans b1 b2 b3 : kept b1 b2 -> kept b2 b3 -> kept b1 b3.
Proof. intros [] []. constructor; [congruence|auto|]. intros C. rewrite kept_end1; auto. Qed.

Lemma safe_span_field n f b Q :
  live b -> 0 <= n ->
  (forall f' b', live b' -> kept b b' -> (clean b' -> field_of b f') -> Q f' b') ->
  wp (span_field n f) b Q.
Proof.
  intros Hb Hn HQ. unfold span_field. autounfold with msgbuf. apply wp_bind, safe_span; [done|done|].
  intros rc p b' Hs Hrc' Hp _. pose proof (step_kept _ _ _ Hs) as Hk. destruct Hs as [Hb' Ho Hc _ Hrc].
  apply wp_ret, HQ; [done..|]. intros C. destruct (Hc C) as [_ Hz]. unfold field_of. cbn.
  specialize (Hp ltac:(lia)). by destruct p.
Qed.

Lemma safe_field_begin b (Q : variable_field -> msgbuf -> Prop) :
  live b -> (forall f, (vf_ptr f = None \/ field_of b f) -> Q f b) -> wp field_begin b Q.
Proof.
  intros Hb HQ. unfold wp, field_begin, pldm__msgbuf_field_begin. cmp_case; apply HQ; [|by left].
  destruct (mb_inv_cursor _ (live_inv _ Hb)) as (c & Hc & ? & ?); [lia|].
  right. unfold field_of, cursor_ptr, buf_end. cbn. rewrite Hc. exists c. unfold buf_end. rewrite Hc. cbn.
  split_and!; [done|lia..].
Qed.

Lemma safe_field_end f b b0 Q :
  (vf_ptr f = None \/ field_of b0 f) ->
  (forall rc f', rc = 0 \/ rc = - EINVAL \/ rc = - EOVERFLOW -> (rc = 0 -> field_of b0 f') -> Q (rc, f') b) ->
  wp (field_end f) b Q.
Proof.
  intros Hf HQ. unfold wp, field_end, pldm__msgbuf_field_end. unfold field_of in *.
  destruct (vf_ptr f) as [p|]; [|apply HQ; [lia|done]]. destruct Hf as [|(c & ? & ? & ? & ?)]; [done|].
  repeat (cmp_case; [|by apply HQ; [lia|]] || (cmp_case; [by apply HQ; [lia|]|])).
  apply HQ; [lia|]. cbn. exists c. split_and!; [done|lia..].
Qed.

(** An element a decoder passes by. *)
Definition passes (element : B Z) : Prop :=
  forall b Q, live b ->
  (forall rc b', live b' -> kept b b' -> rc = 0 \/ rc = - EOVERFLOW -> Q rc b') -> wp element b Q.

Lemma safe_skip element n b Q :
  passes element -> live b ->
  (forall rc b', live b' -> kept b b' -> rc = 0 \/ rc = - EOVERFLOW -> Q rc b') ->
  wp (skip_elements element n) b Q.
Proof.
  intros He. revert b Q. induction n as [|n IH]; intros b Q Hb HQ; cbn [skip_elements].
  { apply wp_ret, HQ; auto using kept_refl. }
  apply wp_bind, He; [done|]. intros rc b1 Hb1 Hk1 Hrc. cmp_case; [|by apply wp_ret, HQ].
  apply IH; [done|]. intros rc2 b2 Hb2 Hk2 Hrc2. apply HQ; [done|by eapply kept_trans|done].
Qed.

(** The calls so far, from the first buffer to the last. *)
Ltac kept_chain :=
  solve [repeat match goal with H : step _ _ _ |- _ => apply step_kept in H end;
         eauto 10 using kept_trans, kept_refl].

Ltac passes_safe :=
  let b := fresh "b" in let Q := fresh "Q" in let Hb := fresh "Hb" in let HQ := fresh "HQ" in
  intros b Q Hb HQ; safe_more; apply HQ; first [step_done|safe_code|kept_chain].

Lemma skip_u16_passes : passes (skip_string pldm__msgbuf_extract_uint16_to_size).
Proof. unfold skip_string. passes_safe. Qed.
Lemma skip_u8_passes : passes (skip_string pldm__msgbuf_extract_uint8_to_size).
Proof. unfold skip_string. passes_safe. Qed.
Lemma skip_resource_passes : passes skip_additional_resource.
Proof. unfold skip_additional_resource, skip_string. passes_safe. Qed.
Lemma skip_action_passes : passes skip_action.
Proof. unfold skip_action, skip_string. passes_safe. Qed.
Lemma skip_resource_id_passes : passes skip_resource_id.
Proof. unfold skip_resource_id. passes_safe. Qed.

#[export] Hint Resolve skip_u16_passes skip_u8_passes skip_resource_passes skip_action_passes
  skip_resource_id_passes : safe.
#[export] Hint Unfold elements_field rest_of_field : safe.

Ltac safe_fields :=
  repeat first
    [ progress safe_more
    | lazymatch goal with
      | |- wp (span_field _ _) _ _ => apply safe_span_field; [step_done|safe_side|intros ? ? ? ? ?]
      | |- wp field_begin _ _ => apply safe_field_begin; [step_done|intros ? ?]
      | |- wp (field_end _) _ _ => eapply safe_field_end; [eassumption|intros ? ? ? ?]
      | |- wp (skip_elements _ _) _ _ =>
          apply safe_skip; [solve [auto with safe]|step_done|intros ? ? ? ? ?]
      end; cbv beta iota ].

(** What a success says of the calls before it. *)
Ltac safe_chain :=
  intros; safe_facts;
  repeat match goal with H : step _ _ _ |- _ => let C := fresh "C" in pose proof (step_clean _ _ _ H) as C; apply step_kept in H end;
  repeat match goal with H : kept _ _ |- _ => destruct H end;
  repeat match goal with
  | H : clean ?b -> _, C : clean ?b |- _ => specialize (H C)
  | H : clean _ /\ _ |- _ => destruct H
  | H : ?rc = 0 -> spans _ _ _, H1 : ?rc = 0 \/ ?rc = - EOVERFLOW, H2 : ?rc = 0 \/ ?rc = - EINVAL |- _ =>
      specialize (H ltac:(clear - H1 H2; lia))
  end.

Ltac field_found :=
  match goal with
  | H : field_of ?b ?f |- field_in _ _ ?f => apply (field_of_in _ _ b _ H); congruence
  | H : spans ?b ?p ?n |- field_in _ _ (VarField ?p ?n) => apply (field_of_in _ _ b (VarField p n) H); congruence
  end.

(** The goals the run leaves: what a success yields, of the record or of a field of it. *)
Ltac field_yield :=
  unfold iter_ok; cbn [ri_field fst snd];
  first [field_found | contradiction
    | lazymatch goal with Hpart : forall f, field_in _ _ f -> _ |- _ => apply Hpart; field_found end].

Ltac safe_yield := safe_chain; first [discriminate | contradiction | field_yield | hnf; cbn; split_and!; intros; field_yield].

Section fields.
Context (m : cmem) (len : Z).
Hypothesis Hm : mem_ok m.
Hypothesis Hlen : 0 <= len <= mem_size m.
Abbreviation data := (Some m) (only parsing).

Definition file_pdr_fields (p : pldm_platform_file_descriptor_pdr) : Prop :=
  field_in m len (fl_file_name p) /\
  (fl_oem_file_classification p <> 0 -> field_in m len (fl_oem_file_classification_name p)).

Lemma file_pdr_safe pdr :
  returns errno (fun o => promised o file_pdr_fields) (decode_pldm_platform_file_descriptor_pdr data len pdr).
Proof.
  unfold decode_pldm_platform_file_descriptor_pdr.
  destruct pdr as [[]|]; [|apply returns_ok; [safe_code|done]].
  eapply (returns_bind errno file_pdr_fields); [|intros; apply returns_ok; [safe_code|done]].
  apply errno_scope_within; [assumption..|safe_code|]. intros b Hb Ho He Hl. safe_fields. all: safe_yield.
Qed.

Definition resource_pdr_fields (p : pldm_platform_redfish_resource_pdr) : Prop :=
  field_in m len (rp_proposed_containing_resource_name p) /\ field_in m len (rp_sub_uri p) /\
  field_in m len (rp_additional_resources p) /\ field_in m len (rp_major_schema_name p) /\ field_in m len (rp_oem_names p).

Lemma resource_pdr_safe pdr :
  returns errno (fun o => promised o resource_pdr_fields) (decode_pldm_platform_redfish_resource_pdr data len pdr).
Proof.
  unfold decode_pldm_platform_redfish_resource_pdr.
  destruct pdr as [[]|]; [|apply returns_ok; [safe_code|done]].
  eapply (returns_bind errno resource_pdr_fields); [|intros; apply returns_ok; [safe_code|done]].
  apply errno_scope_within; [assumption..|safe_code|]. intros b Hb Ho He Hl. safe_fields. all: safe_yield.
Qed.

Definition action_pdr_fields (p : pldm_platform_redfish_action_pdr) : Prop :=
  field_in m len (ap_related_resources p) /\ field_in m len (ap_actions p).

Lemma action_pdr_safe pdr :
  returns errno (fun o => promised o action_pdr_fields) (decode_pldm_platform_redfish_action_pdr data len pdr).
Proof.
  unfold decode_pldm_platform_redfish_action_pdr.
  destruct pdr as [[]|]; [|apply returns_ok; [safe_code|done]].
  eapply (returns_bind errno action_pdr_fields); [|intros; apply returns_ok; [safe_code|done]].
  apply errno_scope_within; [assumption..|safe_code|]. intros b Hb Ho He Hl. safe_fields. all: safe_yield.
Qed.
End fields.

(** *** One round of an iterator *)

(** The caller's iterator and object, given; [P] of what they become. *)
Ltac iterator P :=
  lazymatch goal with |- returns _ _ (outs2 ?t) => let f := head_of t in unfold f end;
  rewrite outs2_bind;
  eapply (returns_bind errno P); [|intros ? [? ?] ? ?; apply returns_ok; [safe_code|done]];
  apply errno_scope_within; [assumption..|safe_code|]; intros; safe_fields; safe_yield.

Section iterators.
Context (m : cmem) (len : Z).
Hypothesis Hm : mem_ok m.
Hypothesis Hlen : 0 <= len <= mem_size m.

(** Any object behind the iterator, and one more round after this one. *)
Definition redfish_iterators (i : redfish_iter) : Prop :=
  (forall a, returns errno (fun '(i', a') => promised i' (iter_ok m len) /\ promised a' (fun a => field_in m len a.2))
     (outs2 (decode_pldm_platform_redfish_resource_pdr_additional_resource_from_iter (Some i) (Some a)))) /\
  (forall a, returns errno (fun '(i', a') => promised i' (iter_ok m len) /\ promised a' (field_in m len))
     (outs2 (decode_pldm_platform_redfish_resource_pdr_oem_name_from_iter (Some i) (Some a)))) /\
  (forall a, returns errno (fun '(i', _) => promised i' (iter_ok m len))
     (outs2 (decode_pldm_platform_redfish_action_pdr_related_resource_id_from_iter (Some i) (Some a)))) /\
  (forall a, returns errno (fun '(i', a') => promised i' (iter_ok m len) /\
                              promised a' (fun a => field_in m len a.1 /\ field_in m len a.2))
     (outs2 (decode_pldm_platform_redfish_action_pdr_action_from_iter (Some i) (Some a)))).

Lemma redfish_iterators_safe i : iter_ok m len i -> redfish_iterators i.
Proof.
  destruct i as [[p n] entries]. intros (c & Hp & Hc & Hn & Hcn). unfold redfish_iterators.
  cbn [vf_ptr vf_length ri_field] in *. subst p.
  assert (mem_ok (ptr_at m c)) by (apply mem_ok_ptr_at; (done || lia)).
  assert (0 <= n <= mem_size (ptr_at m c)) by (rewrite mem_size_ptr_at by lia; lia).
  pose proof (fun f => field_in_part m len c n f Hc Hcn) as Hpart.
  split_and!; intros a.
  - destruct a. iterator (fun x : redfish_iter * (Z * variable_field) => iter_ok m len x.1 /\ field_in m len x.2.2).
  - iterator (fun x : redfish_iter * variable_field => iter_ok m len x.1 /\ field_in m len x.2).
  - iterator (fun x : redfish_iter * Z => iter_ok m len x.1).
  - destruct a. iterator (fun x : redfish_iter * (variable_field * variable_field) =>
      iter_ok m len x.1 /\ field_in m len x.2.1 /\ field_in m len x.2.2).
Qed.
End iterators.

(** ** The theorems *)

(** C22: the 41 decoders of platform messages and event data on any payload, of any bytes
    and any length up to what is there.  38 of them always return: they read nothing
    outside of the payload, write nothing outside of the caller's objects, which have the
    room the interface asks for, fail no assertion, leave their buffer closed, and answer
    success or one of the refusals of their kind.  The other three do so but for the
    payloads that are stated, on which they fault: the response to
    SetStateEffecterStates when there is not the one byte of its completion code; the
    response with the terminus UID when there is no completion code, or one of success
    and fewer than 16 bytes behind it; the request to enable state sensors, of three
    bytes or more, when it counts none or more than eight, where the assertion of the
    buffer's destructor fails. *)
Theorem platform_decoders_safe h m len :
  mem_ok m -> 0 <= len <= mem_size m ->
  (pdr_access_decoders h m len /\ effecters_decoders h m len /\ sensors_decoders h m len /\
   receivers_decoders h m len /\ event_messages_decoders h m len /\ event_data_decoders m len) /\
  (forall req, promised req (fun r => (8 <= length (sse_fields r))%nat) ->
     (3 <= len -> bad_enable_count m = false) ->
     returns errno anything (decode_set_state_sensor_enables_req (Some (Msg h m)) len req)) /\
  (forall req, 3 <= len -> bad_enable_count m = true ->
     decode_set_state_sensor_enables_req (Some (Msg h m)) len (Some req) = Fault FAssert).
Proof.
  intros Hm Hl.
  split; [|split; intros; [by apply sensor_enables_safe|by apply sensor_enables_bad_count]].
  split_and!; [by apply pdr_access_safe|by apply effecters_safe|by apply sensors_safe|by apply receivers_safe
              |by apply event_messages_safe|by apply event_data_safe].
Qed.

Lemma platform_decoders_safe_witness :
  let h := MsgHdr 0 0 0 0 0 2 0x31 in
  let m := CMem 4096 [7; 0; 9; 1; 2; 3; 4; 5; 6; 7; 8; 9; 10; 11; 12; 13; 14; 15] in
  let short := CMem 4096 [0; 1; 2] in
  let req := SensorEnablesReq 0 0 (replicate 8 (0, 0)) in
  (mem_ok m /\ bad_enable_count m = true) /\
  effecters_decoders h m 18 /\ event_data_decoders m 18 /\
  decode_set_state_sensor_enables_req (Some (Msg h m)) 18 (Some req) = Fault FAssert /\
  decode_get_terminus_UID_resp (Some (Msg h short)) 3 (Some 0) (Some (replicate 16 0)) = Fault FMemory.
Proof.
  assert (mem_ok (CMem 4096 [7; 0; 9; 1; 2; 3; 4; 5; 6; 7; 8; 9; 10; 11; 12; 13; 14; 15])) as Hm by concrete.
  destruct (platform_decoders_safe (MsgHdr 0 0 0 0 0 2 0x31) _ 18 Hm ltac:(concrete))
    as ((_ & He & _ & _ & _ & Hd) & _ & Hf).
  destruct (platform_decoders_safe (MsgHdr 0 0 0 0 0 2 0x31) (CMem 4096 [0; 1; 2]) 3 ltac:(concrete) ltac:(concrete))
    as ((_ & _ & _ & (_ & _ & _ & _ & Hu) & _) & _).
  split; [split; [exact Hm|reflexivity]|]. split; [exact He|]. split; [exact Hd|]. split.
  - apply Hf; [lia|reflexivity].
  - apply Hu. reflexivity.
Defined.

(** C31: the PDR decoders on any bytes.  A numeric sensor, file descriptor, Redfish
    resource or Redfish action PDR of any content and length is decoded or refused, and
    every field of a decoded one points into the record itself, from an offset of it to
    no more than its length; each round of an iterator over a field of the record is
    decoded or refused in the same way, hands out fields that lie in the record and leaves
    the iterator on a part of it, so that any number of rounds does.  The decoder of
    numeric effecter PDRs is safe when the length in the header is one it takes, and
    otherwise fails the assertion of its buffer's destructor. *)
Theorem pdr_decoders_safe m len :
  mem_ok m -> 0 <= len <= mem_size m ->
  (forall pdr, promised pdr sensor_pdr_room ->
     returns refusal anything (decode_numeric_sensor_pdr_data (Some m) len pdr)) /\
  (forall pdr, promised pdr effecter_pdr_room -> (63 <= len -> bad_effecter_header m len = false) ->
     returns refusal anything (decode_numeric_effecter_pdr_data (Some m) len pdr)) /\
  (forall pdr, 63 <= len -> bad_effecter_header m len = true ->
     decode_numeric_effecter_pdr_data (Some m) len (Some pdr) = Fault FAssert) /\
  (forall pdr, returns errno (fun o => promised o (file_pdr_fields m len))
     (decode_pldm_platform_file_descriptor_pdr (Some m) len pdr)) /\
  (forall pdr, returns errno (fun o => promised o (resource_pdr_fields m len))
     (decode_pldm_platform_redfish_resource_pdr (Some m) len pdr)) /\
  (forall pdr, returns errno (fun o => promised o (action_pdr_fields m len))
     (decode_pldm_platform_redfish_action_pdr (Some m) len pdr)) /\
  (forall i, iter_ok m len i -> redfish_iterators m len i).
Proof.
  intros Hm Hl. split_and!; intros;
    [by apply sensor_pdr_safe|by apply effecter_pdr_safe|by apply effecter_pdr_bad_header|by apply file_pdr_safe
    |by apply resource_pdr_safe|by apply action_pdr_safe|by apply redfish_iterators_safe].
Qed.

Lemma pdr_decoders_safe_witness :
  let m := CMem 4096 (replicate 63 0) in
  let pdr := NumericEffecterPdr (ValueHdr 0 0 0 0 0) (NeHead 0 0 0 0 0 0 0 0 0 0 0 0 0 0 0 0 0 0)
    (NeBody 0 0 0 0 0 0 0 (replicate 8 0) (replicate 8 0) 0)
    (NeRanges 0 (replicate 8 0) (replicate 8 0) (replicate 8 0) (replicate 8 0) (replicate 8 0)) in
  (mem_ok m /\ effecter_pdr_room pdr) /\
  bad_effecter_header m 63 = true /\
  decode_numeric_effecter_pdr_data (Some m) 63 (Some pdr) = Fault FAssert /\
  forall pdr, returns errno (fun o => promised o (action_pdr_fields m 63))
    (decode_pldm_platform_redfish_action_pdr (Some m) 63 pdr).
Proof.
  assert (mem_ok (CMem 4096 (replicate 63 0))) as Hm by concrete.
  destruct (pdr_decoders_safe _ 63 Hm ltac:(concrete)) as (_ & _ & Hf & _ & _ & Ha & _).
  split; [split; [exact Hm|repeat split; cbn; unfold union_room; cbn; lia]|]. split; [reflexivity|]. split; [|exact Ha].
  apply Hf; [lia|reflexivity].
Defined.
