(* ===== verification/PlatformRound.v ===== *)
(** * Platform monitoring and control: encoders against decoders

    What the encoders of platform.c put into a message, its decoders take out of it. *)

From S2P Require Import Prelude Msgbuf Layout Base Legacy Exchange Safety Platform PlatformEvents.

(** ** Decoding a message that is known *)

Section known.
Context (minsize : Z) (m : cmem) (len : Z).
Hypothesis Hmem : mem_ok m.
Hypothesis Hlen : 0 <= len <= mem_size m.

Lemma legacy_scope_is {A} (init : A) body rc a :
  minsize <= len ->
  (forall b, mb_rd m len 0 b -> wp body b (fun r b' => mb_done b' /\ r = (rc, a))) ->
  legacy_scope minsize m len init body = Ok (rc, a).
Proof.
  intros Hmin Hbody.
  destruct (legacy_scope_fits minsize m len Hmem Hlen init body (fun rc' a' => rc' = rc /\ a' = a) Hmin)
    as (rc' & a' & -> & -> & ->); [|done].
  intros b Hb. eapply wp_mono; [by apply Hbody|]. by intros [] ? [? [= -> ->]].
Qed.

Lemma errno_scope_is {A} (init : A) body rc a :
  minsize <= len ->
  (forall b, mb_rd m len 0 b -> wp body b (fun r b' => mb_done b' /\ r = (rc, a))) ->
  errno_scope minsize m len init body = Ok (rc, a).
Proof.
  intros Hmin Hbody.
  destruct (decode_frame_fits minsize (Msg (packed 0 0 0 0) m) len Hmem Hlen init body
    (fun rc' a' => rc' = rc /\ a' = a) Hmin) as (rc' & a' & E & -> & ->); [|exact E].
  intros b Hb. eapply wp_mono; [by apply Hbody|]. by intros [] ? [? [= -> ->]].
Qed.
End known.

Lemma wp_array_at m len c n room d b Q :
  mb_rd m len c b -> 0 <= n <= room -> room <= Z.of_nat (length d) -> c + n <= len ->
  (forall b', mb_rd m len (c + n) b' ->
     Q (0, splice 0 (slice (Z.to_nat c) (Z.to_nat n) (bytes m)) d) b') ->
  wp (pldm__msgbuf_extract_array_void n d room) b Q.
Proof.
  intros Hb Hn Hd Hc HQ. pose proof (rd_max _ _ _ _ Hb).
  eapply wp_extract_array_rd; [exact Hb|lia..|]. cmp_case; [lia|]. cmp_case; [subst n; apply HQ|].
  cmp_case; [|lia]. done.
Qed.

(** A value is carried as its bytes. *)
Lemma le_enc_mod n v : le_enc n v = le_enc n (v mod 256 ^ Z.of_nat n).
Proof.
  rewrite <- le_dec_enc. pose proof (le_enc_dec _ (le_enc_ok n v)) as E.
  by rewrite le_enc_length in E.
Qed.

Lemma kind_conv_bytes k raw :
  bytes_ok raw -> length raw = kind_size k -> le_enc (kind_size k) (kind_conv k raw) = raw.
Proof.
  intros Hr Hl. assert (le_enc (kind_size k) (le_dec raw) = raw) as E by (rewrite <- Hl; by apply le_enc_dec).
  pose proof (le_dec_bound raw Hr) as Hb. rewrite Hl in Hb.
  destruct k; try exact E.
  all: rewrite <- E at 2; rewrite le_enc_mod; symmetry; rewrite le_enc_mod; symmetry; f_equal;
    unfold kind_conv, to_signed; case_match; [done|];
    match goal with |- (_ - ?p) mod ?q = _ =>
      replace p with q by done; rewrite <- Zminus_mod_idemp_r, Z_mod_same_full, Z.sub_0_r end; done.
Qed.

Lemma wp_value_at m len c tag k d b Q :
  mb_rd m len c b -> bytes_ok (bytes m) -> data_size_kind tag = Some k -> c + Z.of_nat (kind_size k) <= len ->
  (kind_size k <= length d)%nat ->
  (forall b', mb_rd m len (c + Z.of_nat (kind_size k)) b' ->
     Q (0, splice 0 (slice (Z.to_nat c) (kind_size k) (bytes m)) d) b') ->
  wp (extract_value (data_size_kind tag) d) b Q.
Proof.
  intros Hb Hm -> Hc Hd HQ. pose proof (rd_max _ _ _ _ Hb). pose proof (rd_len _ _ _ _ Hb).
  pose proof (rd_pos _ _ _ _ Hb). unfold extract_value.
  apply wp_bind. eapply wp_extract_kind; [exact Hb|reflexivity|lia|]. intros b' Hb'. cmp_case; [|lia].
  cbn [Z.eqb negb]. apply wp_bind.
  assert (length (slice (Z.to_nat c) (kind_size k) (bytes m)) = kind_size k) as Hs.
  { rewrite length_slice. unfold mem_size in *. lia. }
  rewrite kind_conv_bytes by (done || by apply Forall_slice).
  eapply wp_run; [unfold lift, array_store; rewrite (proj2 (Nat.leb_le _ _)) by lia; reflexivity|].
  apply wp_ret. by apply HQ.
Qed.

(** The value at the caller's pointer, as the encoders copy it. *)
Lemma value_bytes_ok p n :
  mem_ok p -> 0 <= n <= mem_size p -> value_bytes p n = Ok (slice 0 (Z.to_nat n) (bytes p)).
Proof.
  intros [] Hn. unfold value_bytes, mem_le.
  destruct (mem_read_in p 0 n) as (raw & -> & Hl & Hr); [lia..|]. cbn [mbind outcome_bind mret outcome_ret].
  change (Z.to_nat 0) with 0%nat in Hr. rewrite <- Hr. f_equal. replace (Z.to_nat n) with (length raw) by lia.
  apply le_enc_dec. subst raw. by apply Forall_slice.
Qed.

(** A loop over elements that are known. *)
Section each.
Context {A : Type} (m : cmem) (len : Z) (step : A -> B A) (w : A -> list Z) (k : nat).
Hypothesis Hw : forall a, length (w a) = k.
Hypothesis Hstep : forall a a0 c b Q,
  mb_rd m len c b -> c + Z.of_nat k <= len -> slice (Z.to_nat c) k (bytes m) = w a ->
  (forall b', mb_rd m len (c + Z.of_nat k) b' -> Q a b') -> wp (step a0) b Q.

Lemma wp_each_at xs l c b Q :
  mb_rd m len c b -> 0 <= c -> (length xs <= length l)%nat ->
  c + Z.of_nat (length (concat (w <$> xs))) <= len ->
  slice (Z.to_nat c) (length (concat (w <$> xs))) (bytes m) = concat (w <$> xs) ->
  (forall b', mb_rd m len (c + Z.of_nat (length (concat (w <$> xs)))) b' ->
     Q (xs ++ drop (length xs) l) b') ->
  wp (each step (length xs) l) b Q.
Proof.
  revert l c b Q. induction xs as [|x xs IH]; intros [|a l] c b Q Hb Hc Hl Hlen Hs HQ; cbn [length each] in *; try lia.
  1,2: apply wp_ret, HQ; cbn [fmap list_fmap concat length]; by rewrite Z.add_0_r.
  cbn [fmap list_fmap concat] in *. rewrite length_app, Hw in *.
  assert (length (slice (Z.to_nat c) (k + length (concat (w <$> xs))) (bytes m)) = k + length (concat (w <$> xs)))%nat as Hsl
    by by rewrite Hs, length_app, Hw.
  apply wp_bind. eapply (Hstep x); [exact Hb|lia| |].
  { rewrite <- (take_slice k (Z.to_nat c) (k + length (concat (w <$> xs)))), Hs by lia.
    rewrite take_app_length'; [done|by rewrite Hw]. }
  intros b1 Hb1. apply wp_bind. eapply IH; [exact Hb1|lia|lia|lia| |].
  { replace (Z.to_nat (c + Z.of_nat k)) with (Z.to_nat c + k)%nat by lia.
    replace (length (concat (w <$> xs))) with (k + length (concat (w <$> xs)) - k)%nat at 1 by lia.
    rewrite <- drop_slice, Hs, drop_app_length' by (by rewrite Hw). done. }
  intros b2 Hb2. apply wp_ret. cbn [app drop]. apply HQ.
  by replace (c + Z.of_nat (k + length (concat (w <$> xs)))) with (c + Z.of_nat k + Z.of_nat (length (concat (w <$> xs)))) by lia.
Qed.
End each.

Lemma fld_of_slice m c k l o n :
  slice c k (bytes m) = l -> (o + n <= k)%nat -> fld m (c + o) n = le_dec (slice o n l).
Proof. intros <- H. unfold fld. by rewrite slice_slice by lia. Qed.

(** Elements of bytes. *)
Ltac element_at Hs :=
  repeat match goal with
  | H : mb_rd ?m ?len ?c ?b |- wp (pldm_msgbuf_extract ?k ?d ≫= _) ?b _ =>
      mb_extract; rewrite (proj2 (Z.leb_le _ len)) by lia; cbv beta iota
  end; apply wp_ret;
  rewrite <- ?Z.add_assoc; change (1 + (1 + 1)) with 3; change (1 + 1) with 2;
  repeat match goal with |- context [fld ?m (Z.to_nat (?c + ?o)) ?n] =>
    replace (Z.to_nat (c + o)) with (Z.to_nat c + Z.to_nat o)%nat by lia end;
  match goal with |- context [fld ?m (Z.to_nat ?c) 1] =>
    replace (fld m (Z.to_nat c) 1) with (fld m (Z.to_nat c + 0) 1) by (by rewrite Nat.add_0_r) end;
  repeat (erewrite fld_of_slice by (exact Hs || (cbn; lia)));
  change (Z.to_nat 1) with 1%nat; change (Z.to_nat 2) with 2%nat; change (Z.to_nat 3) with 3%nat;
  cbn [slice take drop firstn skipn le_dec]; rewrite ?Z.mul_0_r, ?Z.add_0_r.

Lemma pair_at m len a a0 c b Q :
  mb_rd m len c b -> c + Z.of_nat 2 <= len -> slice (Z.to_nat c) 2 (bytes m) = (fun '(x, y) => [x; y]) a ->
  (forall b', mb_rd m len (c + Z.of_nat 2) b' -> Q a b') -> wp (extract_pair a0) b Q.
Proof.
  intros Hb Hc Hs HQ. pose proof (rd_pos _ _ _ _ Hb). pose proof (rd_max _ _ _ _ Hb).
  destruct a as [x y], a0 as [x0 y0]. unfold extract_pair. element_at Hs. unfold slice. cbn.
  rewrite ?Z.mul_0_r, ?Z.add_0_r. apply HQ. by replace (c + Z.of_nat 2) with (c + 1 + 1) by lia.
Qed.

Lemma states_at m len a a0 c b Q :
  mb_rd m len c b -> c + Z.of_nat 4 <= len -> slice (Z.to_nat c) 4 (bytes m) = state_bytes a ->
  (forall b', mb_rd m len (c + Z.of_nat 4) b' -> Q a b') -> wp (extract_states a0) b Q.
Proof.
  intros Hb Hc Hs HQ. pose proof (rd_pos _ _ _ _ Hb). pose proof (rd_max _ _ _ _ Hb).
  destruct a as [[[x y] z] t], a0 as [[[x0 y0] z0] t0]. unfold extract_states. cbn [state_bytes] in Hs. element_at Hs.
  unfold slice. cbn. rewrite ?Z.mul_0_r, ?Z.add_0_r. apply HQ.
  by replace (c + Z.of_nat 4) with (c + 1 + 1 + 1 + 1) by lia.
Qed.

Lemma wp_each_n {A} m len (step : A -> B A) w k xs n l c b Q :
  (forall a, length (w a) = k) ->
  (forall a a0 c b Q, mb_rd m len c b -> c + Z.of_nat k <= len -> slice (Z.to_nat c) k (bytes m) = w a ->
     (forall b', mb_rd m len (c + Z.of_nat k) b' -> Q a b') -> wp (step a0) b Q) ->
  mb_rd m len c b -> n = Z.of_nat (length xs) -> (length xs <= length l)%nat ->
  c + Z.of_nat k * n <= len ->
  slice (Z.to_nat c) (k * length xs) (bytes m) = concat (w <$> xs) ->
  (forall b', mb_rd m len (c + Z.of_nat k * n) b' -> Q (xs ++ drop (length xs) l) b') ->
  wp (each step (Z.to_nat n) l) b Q.
Proof.
  intros Hw Hstep Hb -> Hl Hlen Hs HQ. rewrite Nat2Z.id.
  assert (length (concat (w <$> xs)) = k * length xs)%nat as Hc.
  { clear - Hw. induction xs as [|x xs IH]; cbn; [lia|]. rewrite length_app, Hw, IH. lia. }
  eapply wp_each_at; [exact Hw|exact Hstep|exact Hb|apply (rd_pos _ _ _ _ Hb)|done|rewrite Hc; lia|by rewrite Hc|].
  rewrite Hc. intros b' Hb'. apply HQ.
  by replace (c + Z.of_nat k * Z.of_nat (length xs)) with (c + Z.of_nat (k * length xs)) by lia.
Qed.

(** *** The tactics *)

(** One step of a decoder at a known place. *)
Ltac known_call :=
  lazymatch goal with
  | |- wp (checked _ _ _) _ _ => unfold checked at 1
  | |- wp (checked_errno _ _ _) _ _ => unfold checked_errno at 1
  | |- wp (checked_cc _ _ _) _ _ => unfold checked_cc at 1
  | |- wp (finish _ _) _ _ => unfold finish, finish_xlate
  | |- wp (finish_errno _ _) _ _ => unfold finish_errno
  | |- wp (mret _) _ _ => apply wp_ret
  | H : mb_rd ?m ?len ?c ?b |- wp (pldm_msgbuf_extract ?k ?d ≫= _) ?b _ => mb_extract_in; wire_at
  | H : mb_rd ?m ?len ?c ?b |- wp (pldm__msgbuf_extract_array_void ?n ?d ?k ≫= _) ?b _ =>
      apply wp_bind; apply (wp_array_at m len c n k d b _ H); [lia..|];
      clear H; let b' := fresh "b" in intros b' H; cbn [bytes]; wire_run
  | H : mb_rd ?m ?len ?c ?b |- wp (extract_value _ _ ≫= _) ?b _ =>
      apply wp_bind; eapply (wp_value_at m len c); [exact H|by apply mem_ok_bytes|eassumption|lia|lia|];
      clear H; let b' := fresh "b" in intros b' H; cbn [bytes] in *; wire_run
  | H : mb_rd ?m ?len ?c ?b, E : ?n = Z.of_nat (length ?xs) |- wp (each extract_pair (Z.to_nat ?n) ?l ≫= _) ?b _ =>
      apply wp_bind; apply (wp_each_n m len extract_pair (fun '(x, y) => [x; y]) 2 xs n l c b);
      [by intros []|apply pair_at|exact H|exact E|lia|lia|cbn [bytes]; wire_run; done|];
      clear H; let b' := fresh "b" in intros b' H
  | H : mb_rd ?m ?len ?c ?b, E : ?n = Z.of_nat (length ?xs) |- wp (each extract_states (Z.to_nat ?n) ?l ≫= _) ?b _ =>
      apply wp_bind; apply (wp_each_n m len extract_states state_bytes 4 xs n l c b);
      [by intros [[[? ?] ?] ?]|apply states_at|exact H|exact E|lia|lia|cbn [bytes]; wire_run; done|];
      clear H; let b' := fresh "b" in intros b' H
  | H : mb_rd ?m ?len ?c ?b |- wp (pldm_msgbuf_ro_span_required ?n ?out ≫= _) ?b _ =>
      apply wp_bind; autounfold with msgbuf; apply (wp_span_required_rd m len n out c b _ H); [lia|lia|];
      clear H; let b' := fresh "b" in intros b' H; rewrite (proj2 (Z.leb_le _ len)) by lia; cbn [set_out default]
  | |- wp (pldm_msgbuf_extract_effecter_value _ _ ≫= _) _ _ => unfold pldm_msgbuf_extract_effecter_value
  | |- wp (pldm_msgbuf_extract_sensor_value _ _ ≫= _) _ _ => unfold pldm_msgbuf_extract_sensor_value
  | |- wp (pldm_msgbuf_extract_array_uint8 _ _ _ ≫= _) _ _ => unfold pldm_msgbuf_extract_array_uint8
  | H : mb_rd ?m ?len ?c ?b |- wp (pldm_msgbuf_ro_complete ≫= _) ?b _ =>
      apply wp_bind; apply (wp_complete_rd m len c b _ H); intros ? ? ?;
      rewrite (proj2 (Z.leb_le c len)) by lia; cbn [Z.eqb negb]
  | H : mb_rd ?m ?len ?c ?b |- wp (pldm_msgbuf_ro_complete_consumed ≫= _) ?b _ =>
      apply wp_bind; apply (wp_complete_consumed_rd m len c b _ H); intros ? ? ?;
      rewrite (proj2 (Z.eqb_eq c len)) by lia; cbn [Z.eqb negb]
  | |- wp ((_ ≫= _) ≫= _) _ _ => apply wp_bind
  | |- wp (if ?x =? ?x then _ else _) _ _ => rewrite Z.eqb_refl
  | |- wp (mret _ ≫= _) _ _ => apply wp_bind, wp_ret
  | |- wp ((if ?x =? ?x then _ else _) ≫= _) _ _ => rewrite Z.eqb_refl
  | |- wp ((if ?c then _ else _) ≫= _) _ _ =>
      first [match goal with E : c = _ |- _ => rewrite E end | replace c with true by lia | replace c with false by lia]
  | |- wp (if ?c then _ else _) _ _ =>
      first [match goal with E : c = _ |- _ => rewrite E end | replace c with true by lia | replace c with false by lia]
  end; cbv beta iota; cbn [negb].

(** ** Encoders that run a buffer *)

Lemma wp_rw_complete m len out b Q :
  mb_wr m len out b -> Z.of_nat (length out) <= len ->
  (forall b', mb_done b' -> obj b' = wrote m out -> Q 0 b') -> wp pldm_msgbuf_rw_complete b Q.
Proof.
  intros [Ha Hs Hr ? ? (k & ? & Hk)] Hl HQ. destruct Hk as [_ Hk]; [done|].
  change (Q (pldm__msgbuf_validate (remaining b)) (MsgBuf (obj b) None INTMAX_MIN)).
  unfold pldm__msgbuf_validate. rewrite Hr. cmp_case; [lia|].
  apply HQ; [done|]. cbn. unfold wrote. rewrite <- Ha, <- Hk. by destruct (obj b).
Qed.

Lemma legacy_encode_is minsize m len body rc w :
  mem_ok (payload m) -> 0 <= len <= mem_size (payload m) -> minsize <= len ->
  (forall b, mb_wr (payload m) len [] b ->
     wp body b (fun r b' => mb_done b' /\ r = rc /\ obj b' = wrote (payload m) w)) ->
  legacy_encode minsize m len body = Ok (rc, Some (Msg (hdr m) (wrote (payload m) w))).
Proof.
  intros [] Hlen Hmin Hbody. unfold legacy_encode.
  match goal with |- context [msgbuf_scope ?o ?k] =>
    destruct (msgbuf_scope_wp o k (fun r p => r = rc /\ p = wrote (payload m) w)) as (r & p & -> & -> & ->); [|done] end.
  autounfold with msgbuf. apply wp_bind, wp_init_wr; [lia..|]. intros b _. cmp_case; [|lia]. intros Hb. cmp_case; [|done].
  eapply wp_mono; [by apply Hbody|]. intros r b' (? & ? & ?). done.
Qed.

(** The insertions fit: a step, and the end. *)
Ltac insert_call :=
  lazymatch goal with
  | |- wp (pldm_msgbuf_insert _ _ ≫= _) _ _ => mb_insert; try (rewrite (proj2 (Z.leb_le _ _)) by wr_len; cbn [Z.eqb negb])
  | H : mb_wr ?m ?len ?out ?b |- wp (pldm_msgbuf_insert_array_uint8 ?n ?src ?n ≫= _) ?b _ =>
      mb_insert_array; mb_fits; cbn [negb bytes] in *;
      match goal with E : n = Z.of_nat (length ?raw), H : mb_wr _ _ _ _ |- _ =>
        replace (slice 0 (Z.to_nat n) raw) with raw in H by (subst n; unfold slice; by rewrite Nat2Z.id, drop_0, firstn_all) end
  | |- wp (finish_xlate _) _ _ => unfold finish_xlate
  | H : mb_wr ?m ?len ?out ?b |- wp (pldm_msgbuf_rw_complete ≫= _) ?b _ =>
      apply wp_bind; apply (wp_rw_complete m len out b _ H); [wr_len|]; intros ? ? ?; cbn [Z.eqb negb]
  | |- wp (mret _ ≫= _) _ _ => apply wp_bind, wp_ret
  | |- wp (mret _) _ _ => apply wp_ret
  | |- wp (if ?c then _ else _) _ _ =>
      first [match goal with E : c = _ |- _ => rewrite E end | replace c with true by lia | replace c with false by lia]
  | |- wp ((if ?c then _ else _) ≫= _) _ _ =>
      first [match goal with E : c = _ |- _ => rewrite E end | replace c with true by lia | replace c with false by lia]
  end; cbv beta iota.
(** Run the decoder on it. *)
Ltac read_known :=
  unfold legacy_decode;
  repeat match goal with |- context [decode_frame ?k ?msg ?l ?i ?b] =>
    change (decode_frame k msg l i b) with (errno_scope k (payload msg) l i b) end;
  cbn [payload];
  let E := fresh in
  match goal with
  | |- context [legacy_scope ?k ?m ?n ?i ?b] =>
      eassert (legacy_scope k m n i b = Ok (_, _)) as E;
      [apply (legacy_scope_is k m n); [assumption|lia|lia|intros ? ?]|]
  | |- context [errno_scope ?k ?m ?n ?i ?b] =>
      eassert (errno_scope k m n i b = Ok (_, _)) as E;
      [apply (errno_scope_is k m n); [assumption|lia|lia|intros ? ?]|]
  end; [repeat known_call; split; [assumption|reflexivity]|];
  rewrite E; clear E; cbn [mbind outcome_bind mret outcome_ret].

(** A response whose first byte is a success. *)
Ltac no_error :=
  rewrite has_error_ok by lia; replace (_ <? 1) with false by lia; wire_at; cbn [mbind outcome_bind Z.eqb negb].

(** An encoder that packs the header itself. *)
Lemma encode_frame_is ty inst pty cmd minsize msg len body n w :
  ty ∈ [PLDM_RESPONSE; PLDM_REQUEST; PLDM_ASYNC_REQUEST_NOTIFY] -> 0 <= inst <= 31 -> 0 <= pty < 64 ->
  mem_ok (payload msg) -> 0 <= len <= mem_size (payload msg) -> minsize <= len ->
  (forall b, mb_wr (payload msg) len [] b ->
     wp body b (fun '(rc, l) b' => mb_done b' /\ rc = 0 /\ l = n /\ obj b' = wrote (payload msg) w)) ->
  encode_frame ty inst pty cmd minsize msg len body
  = Ok (0, Some (Msg (packed ty inst pty cmd) (wrote (payload msg) w)), Some n).
Proof.
  intros Hty Hi Hp Hm Hl Hmin Hbody.
  destruct (encode_frame_fits ty inst pty cmd minsize msg len Hty Hi Hp Hm Hl body
    (fun rc l m => rc = 0 /\ l = n /\ m = wrote (payload msg) w) Hmin) as (rc & l & m & -> & -> & -> & ->); [|done].
  intros b Hb. eapply wp_mono; [by apply Hbody|]. by intros [].
Qed.

(** The end of an encoder that inserted [fs]. *)
Ltac fields_used fs :=
  lazymatch goal with H : mb_wr ?m ?len ?out ?b |- wp (pldm_msgbuf_complete_used ?len ?u) ?b ?Q =>
    eapply (wp_used_fits m len out (fields_bytes fs) u _ b Q H);
    [unfold fields_bytes; cbn [fmap list_fmap concat kind_size]; by rewrite ?app_nil_r, <- ?app_assoc
    |reflexivity|unfold fields_bytes; cbn [fmap list_fmap concat kind_size]; rewrite ?length_app, ?le_enc_length; cbn [length]; lia
    |by intros]
  end.

(** [fs] is what is inserted, and all of it is used. *)
Ltac send_fields fs :=
  match goal with |- context [encode_frame ?ty ?inst ?pty ?cmd ?k ?msg ?len ?body] =>
    let E := fresh in
    assert (encode_frame ty inst pty cmd k msg len body
      = Ok (0, Some (Msg (packed ty inst pty cmd) (wrote (payload msg) (fields_bytes fs))),
            Some (Z.of_nat (length (fields_bytes fs))))) as E;
    [apply encode_frame_is; [repeat constructor|assumption|lia|assumption|lia|cbn in *; lia|];
     intros ? ?; repeat mb_insert; fields_used fs
    |rewrite E; clear E; cbn [mbind outcome_bind mret outcome_ret]]
  end.

(** The message an encoder leaves is the one that is stated. *)
Ltac bytes_sent :=
  cbn [mbind outcome_bind mret outcome_ret];
  match goal with |- _ (_, Some (Msg _ (wrote _ ?out))) = Ok (_, Some ?m) =>
    let E := fresh in
    try (is_var m; subst m); unfold sent_as;
    match goal with |- _ = Ok (_, Some (Msg _ (wrote _ ?out'))) =>
      assert (out = out') as E;
      [unfold members_bytes; cbn [fmap list_fmap concat app]; rewrite ?app_nil_r, <- ?app_assoc; cbn [app]; reflexivity
      |rewrite E; reflexivity] end
  end.

Section roundtrip.
Context (inst : Z) (msg : pldm_msg).
Hypothesis Hmem : mem_ok (payload msg).
Hypothesis Hi : 0 <= inst <= 31.

Definition get_pdr_req_carried : Prop :=
  forall r r0,
  13 <= mem_size (payload msg) -> u32_ok (gp_record_handle r) -> u32_ok (gp_data_transfer_handle r) ->
  byte_ok (gp_transfer_op_flag r) -> u16_ok (gp_request_count r) -> u16_ok (gp_record_change_number r) ->
  let m := sent_as PLDM_REQUEST inst PLDM_PLATFORM PLDM_GET_PDR msg (
     le_enc 4 (gp_record_handle r) ++ le_enc 4 (gp_data_transfer_handle r) ++ le_enc 1 (gp_transfer_op_flag r) ++
     le_enc 2 (gp_request_count r) ++ le_enc 2 (gp_record_change_number r)) in
  encode_get_pdr_req inst r (Some msg) 13 = Ok (PLDM_SUCCESS, Some m) /\
    decode_get_pdr_req (Some m) 13 (Some r0) = Ok (PLDM_SUCCESS, Some r).

Lemma get_pdr_req_roundtrip : get_pdr_req_carried.
Proof.
  intros r r0.
  intros Hs ????? m.
  unfold encode_get_pdr_req. cbn [Z.eqb Pos.eqb negb]. send_members. split; [bytes_sent|]. unfold m, sent_as.
  unfold decode_get_pdr_req. cbn [Z.eqb Pos.eqb negb]. known_message.
  read_known. by destruct r.
Qed.

(** A record, if there is one. *)
Lemma sent_record {A} (n : Z) (rec : list A) (f : list A -> pldm_msg) (out : list A) :
  n = Z.of_nat (length rec) -> (if 0 <? n then Ok (f (out ++ rec)) else mret (f out)) = Ok (f (out ++ rec)).
Proof. intros ->. cmp_case; [done|]. destruct rec; [by rewrite app_nil_r|cbn in *; lia]. Qed.

(** A record behind its twelve bytes, and its checksum behind it. *)
Definition get_pdr_resp_carried : Prop :=
  forall next nextdt flag rec a crc c0 d0 crc0,
  12 + Z.of_nat (length rec) + 1 <= mem_size (payload msg) -> Z.of_nat (length rec) < 65536 ->
  bytes_ok rec -> u32_ok next -> u32_ok nextdt -> byte_ok flag -> byte_ok crc ->
  (length rec <= length d0)%nat ->
  let n := Z.of_nat (length rec) in
  let len := 12 + n + (if flag =? PLDM_END then 1 else 0) in
  let m := sent_as PLDM_RESPONSE inst PLDM_PLATFORM PLDM_GET_PDR msg (
     le_enc 1 0 ++ le_enc 4 next ++ le_enc 4 nextdt ++ le_enc 1 flag ++ le_enc 2 n ++ rec ++
     (if flag =? PLDM_END then le_enc 1 crc else [])) in
  encode_get_pdr_resp inst PLDM_SUCCESS next nextdt flag n (Some (CMem a rec)) crc (Some msg)
      = Ok (PLDM_SUCCESS, Some m) /\
    decode_get_pdr_resp (Some m) len (Some c0) (Some d0) (Z.of_nat (length d0)) (Some crc0)
    = Ok (PLDM_SUCCESS, Some (PLDM_SUCCESS, next, nextdt, flag, n), Some (splice 0 rec d0),
          Some (if flag =? PLDM_END then crc else crc0)) /\
    forall r0 resp_len, length (gr_record_data r0) = length d0 -> u64 (resp_len - 12) = Z.of_nat (length d0) ->
    decode_get_pdr_resp_safe (Some m) len (Some r0) resp_len (Some crc0)
    = Ok (0, Some (GetPdrResp 0 next nextdt flag n (splice 0 rec (gr_record_data r0))),
          Some (if flag =? PLDM_END then crc else crc0)).

Lemma get_pdr_resp_roundtrip : get_pdr_resp_carried.
Proof.
  intros next nextdt flag rec a crc c0 d0 crc0.
  intros Hs Hn Hrec ?? Hf Hcrc Hd n len m. unfold encode_get_pdr_resp. rewrite <- (le_enc_1 crc) by done. unfold m; clear m.
  cbn [Z.eqb Pos.eqb negb]. send_members. cbn [Z.eqb Pos.eqb negb].
  rewrite (sent_record n rec (fun l => Msg _ (wrote (payload msg) l))) by done. cbn [mbind outcome_bind].
  unfold decode_get_pdr_resp, decode_get_pdr_resp_safe. destruct c0 as [[[[? ?] ?] ?] ?].
  assert (n = Z.of_nat (length rec)) as En by done. clearbody n.
  destruct (decide (rec = [])) as [->|Hne]; [cbn in En|assert (0 < n) by (destruct rec; [done|cbn in *; lia])].
  all: destruct (Z.eqb_spec flag PLDM_END) as [->|Hfl]; send_members.
  all: split; [bytes_sent|]; unfold sent_as; unfold len; known_message; split; [read_known; try done|intros r0 rl Hr Hl].
  all: no_error.
  all: read_known; try done. all: by subst n.
Qed.

(** A repository with both of its time stamps. *)
Definition repository_info_carried : Prop :=
  forall state t1 t2 a1 a2 count size largest timeout r0,
  41 <= mem_size (payload msg) -> 0 <= state <= PLDM_FAILED -> length t1 = 13%nat -> length t2 = 13%nat ->
  bytes_ok t1 -> bytes_ok t2 -> u32_ok count -> u32_ok size -> u32_ok largest -> byte_ok timeout ->
  length (pi_update_time r0) = 13%nat -> length (pi_oem_update_time r0) = 13%nat ->
  let m := sent_as PLDM_RESPONSE inst PLDM_PLATFORM PLDM_GET_PDR_REPOSITORY_INFO msg (
     le_enc 1 0 ++ le_enc 1 state ++ t1 ++ t2 ++ le_enc 4 count ++ le_enc 4 size ++ le_enc 4 largest ++
     le_enc 1 timeout) in
  encode_get_pdr_repository_info_resp inst PLDM_SUCCESS state (Some (CMem a1 t1)) (Some (CMem a2 t2))
      count size largest timeout (Some msg) = Ok (PLDM_SUCCESS, Some m) /\
    decode_get_pdr_repository_info_resp (Some m) 41 (Some r0)
    = Ok (PLDM_SUCCESS, Some (RepoInfoResp PLDM_SUCCESS state t1 t2 count size largest timeout)) /\
    decode_get_pdr_repository_info_resp_safe (Some m) 41 (Some r0)
    = Ok (0, Some (RepoInfoResp PLDM_SUCCESS state t1 t2 count size largest timeout)).

Lemma repository_info_roundtrip : repository_info_carried.
Proof.
  intros state t1 t2 a1 a2 count size largest timeout r0.
  intros Hs Hst Ht1 Ht2 ?????? Hr1 Hr2 m.
  assert (byte_ok state) by (unfold byte_ok; lia).
  unfold encode_get_pdr_repository_info_resp, put_time. cbn [Z.eqb Pos.eqb negb]. send_members.
  split; [bytes_sent|]. unfold m, sent_as. unfold decode_get_pdr_repository_info_resp, decode_get_pdr_repository_info_resp_safe.
  destruct r0. cbn in Hr1, Hr2. known_message. split.
  - read_known. rewrite !splice_whole by lia. done.
  - no_error.
    read_known. rewrite !splice_whole by lia. done.
Qed.

Lemma array_first_all {A} (l : list A) n : n = Z.of_nat (length l) -> array_first l n = Ok l.
Proof.
  intros ->. unfold array_first. rewrite Z.leb_refl, (proj2 (Z.leb_le 0 _)) by lia. cbn [andb].
  by rewrite Nat2Z.id, firstn_all.
Qed.

Definition pair_ok (p : Z * Z) : Prop := byte_ok p.1 /\ byte_ok p.2.

Lemma pairs_bytes_ok l : Forall pair_ok l -> bytes_ok (pairs_bytes l).
Proof.
  unfold pairs_bytes. induction 1 as [|[x y] l [? ?] Hl IH]; cbn; [constructor|]. by do 2 (constructor; [done|]).
Qed.

Lemma pairs_bytes_length l : length (pairs_bytes l) = (2 * length l)%nat.
Proof. unfold pairs_bytes. induction l as [|[x y] l IH]; cbn in *; lia. Qed.

(** Composite states behind an effecter and their number. *)
Definition effecter_states_req_carried : Prop :=
  forall id (l l0 : list (Z * Z)) i0 c0,
  1 <= Z.of_nat (length l) <= 8 -> 3 + 2 * Z.of_nat (length l) <= mem_size (payload msg) -> u16_ok id ->
  Forall pair_ok l -> (8 <= length l0)%nat ->
  let n := Z.of_nat (length l) in
  let m := sent_as PLDM_REQUEST inst PLDM_PLATFORM PLDM_SET_STATE_EFFECTER_STATES msg (
     le_enc 2 id ++ le_enc 1 n ++ concat ((fun '(request, state) => [request; state]) <$> l)) in
  encode_set_state_effecter_states_req inst id n (Some l) (Some msg) = Ok (PLDM_SUCCESS, Some m) /\
    decode_set_state_effecter_states_req (Some m) (3 + 2 * n) (Some (i0, c0, l0))
    = Ok (PLDM_SUCCESS, Some (id, n, l ++ drop (length l) l0)).

Lemma effecter_states_req_roundtrip : effecter_states_req_carried.
Proof.
  intros id l l0 i0 c0.
  intros Hl Hs ? Hp Hl0 n m. unfold encode_set_state_effecter_states_req.
  replace (_ || _) with false by lia. pose proof (pairs_bytes_ok l Hp). pose proof (pairs_bytes_length l).
  assert (byte_ok n) by (unfold byte_ok; lia). assert (n = Z.of_nat (length l)) as En by done. clearbody n.
  rewrite legacy_frame_ok by (done || (repeat constructor)). send_members.
  rewrite array_first_all by done. cbn [mbind outcome_bind]. send_members.
  split; [bytes_sent|]. unfold m, sent_as.
  change (concat ((fun '(request, state) => [request; state]) <$> l)) with (pairs_bytes l). unfold decode_set_state_effecter_states_req.
  replace (19 <? _) with false by lia. known_message.
  read_known. done.
Qed.

(** A number of the size its tag says, and the object it is read from. *)
Definition value_ok (tag : Z) (raw : list Z) : Prop :=
  0 <= tag <= 7 /\ bytes_ok raw /\ Z.of_nat (length raw) = value_width tag.

Lemma value_kind tag : 0 <= tag <= 7 ->
  exists k, data_size_kind tag = Some k /\ value_width tag = Z.of_nat (kind_size k).
Proof.
  intros H. assert (tag ∈ [0; 1; 2; 3; 4; 5; 6; 7]) as Hin by (rewrite !elem_of_cons; lia).
  rewrite !elem_of_cons in Hin. unfold value_width.
  destruct Hin as [->|[->|[->|[->|[->|[->|[->|[->|Hn]]]]]]]]; [eexists; split; reflexivity..|by inversion Hn].
Qed.

Lemma value_bytes_all a raw n :
  mem_ok (CMem a raw) -> n = Z.of_nat (length raw) -> value_bytes (CMem a raw) n = Ok raw.
Proof.
  intros Hm ->. rewrite value_bytes_ok by (done || (unfold mem_size; cbn; lia)).
  unfold slice. cbn [bytes]. by rewrite Nat2Z.id, drop_0, firstn_all.
Qed.

(** Bytes written before the members in front of them. *)
Lemma write_behind {A} h fs off l (k : pldm_msg -> outcome A) :
  off = Z.of_nat (length (members_bytes fs)) -> off + Z.of_nat (length l) <= mem_size (payload msg) ->
  (m ← payload_write (Msg h (wrote (payload msg) [])) off l; m ← put_members m 0 fs; k m)
  = k (Msg h (wrote (payload msg) (members_bytes fs ++ l))).
Proof.
  intros -> Hs. rewrite wrote_nil. unfold payload_write. cbn [payload hdr].
  rewrite mem_write_ok by lia. cbn [mbind outcome_bind].
  assert (Z.to_nat (Z.of_nat (length (members_bytes fs))) = length (members_bytes fs)) as -> by lia.
  set (m1 := CMem _ _). assert (mem_size m1 = mem_size (payload msg)) as Hm1.
  { unfold mem_size, m1 in *. cbn. rewrite splice_length; lia. }
  cbn [mret outcome_ret mbind outcome_bind]. rewrite <- (wrote_nil m1), (put_members_ok h m1 fs []) by (cbn; lia). cbn [mbind outcome_bind app].
  replace (wrote m1 (members_bytes fs)) with (wrote (payload msg) (members_bytes fs ++ l)); [done|].
  unfold wrote, m1, splice. cbn [addr bytes].
  rewrite drop_app_length' by (rewrite length_take; unfold mem_size in *; lia). by rewrite length_app, app_assoc.
Qed.

Definition numeric_value_req_carried : Prop :=
  forall id tag a raw i0 s0 v0,
  mem_ok (CMem a raw) -> value_ok tag raw -> 11 <= mem_size (payload msg) -> u16_ok id -> length v0 = 8%nat ->
  let n := 3 + value_width tag in
  let m := sent_as PLDM_REQUEST inst PLDM_PLATFORM PLDM_SET_NUMERIC_EFFECTER_VALUE msg (
     le_enc 2 id ++ le_enc 1 tag ++ raw) in
  encode_set_numeric_effecter_value_req inst id tag (Some (CMem a raw)) (Some msg) n
      = Ok (PLDM_SUCCESS, Some m) /\
    decode_set_numeric_effecter_value_req (Some m) n (Some (i0, s0, v0))
    = Ok (PLDM_SUCCESS, Some (id, tag, splice 0 raw v0)).

Lemma numeric_value_req_roundtrip : numeric_value_req_carried.
Proof.
  intros id tag a raw i0 s0 v0.
  intros Ha (Ht & Hr & Hl) Hs ? Hv0 n m. destruct (value_kind tag Ht) as (k & Hk & Hw). pose proof (kind_size_bound k).
  assert (byte_ok tag) by (unfold byte_ok; lia).
  unfold encode_set_numeric_effecter_value_req. replace (7 <? tag) with false by lia.
  rewrite legacy_frame_ok by (done || (repeat constructor)). rewrite Z.eqb_refl. cbn [negb].
  rewrite value_bytes_all by done. cbn [mbind outcome_bind].
  rewrite write_behind by (cbn; lia). split; [bytes_sent|]. unfold m, sent_as.
  unfold decode_set_numeric_effecter_value_req. known_message. unfold n. read_known. done.
Qed.

Definition numeric_value_resp_carried : Prop :=
  forall tag state a1 raw1 a2 raw2 c0 s0 o0 v1 v2,
  mem_ok (CMem a1 raw1) -> mem_ok (CMem a2 raw2) -> value_ok tag raw1 -> value_ok tag raw2 ->
  0 <= state <= EFFECTER_OPER_STATE_INTEST -> 19 <= mem_size (payload msg) ->
  length v1 = 8%nat -> length v2 = 8%nat ->
  let n := 3 + value_width tag + value_width tag in
  let m := sent_as PLDM_RESPONSE inst PLDM_PLATFORM PLDM_GET_NUMERIC_EFFECTER_VALUE msg (
     le_enc 1 0 ++ le_enc 1 tag ++ le_enc 1 state ++ raw1 ++ raw2) in
  encode_get_numeric_effecter_value_resp inst PLDM_SUCCESS tag state (Some (CMem a1 raw1))
      (Some (CMem a2 raw2)) (Some msg) n = Ok (PLDM_SUCCESS, Some m) /\
    decode_get_numeric_effecter_value_resp (Some m) n (Some (c0, s0, o0, v1, v2))
    = Ok (PLDM_SUCCESS, Some (PLDM_SUCCESS, tag, state, splice 0 raw1 v1, splice 0 raw2 v2)).

Lemma numeric_value_resp_roundtrip : numeric_value_resp_carried.
Proof.
  intros tag state a1 raw1 a2 raw2 c0 s0 o0 v1 v2.
  intros Ha1 Ha2 (Ht & Hr1 & Hl1) (_ & Hr2 & Hl2) Hst Hs Hv1 Hv2 n m.
  destruct (value_kind tag Ht) as (k & Hk & Hw). pose proof (kind_size_bound k).
  assert (byte_ok tag /\ byte_ok state) as [? ?] by (unfold byte_ok; lia).
  unfold encode_get_numeric_effecter_value_resp. replace (7 <? tag) with false by lia.
  replace (_ <? state) with false by lia. send_members. unfold n. rewrite Z.eqb_refl. cbn [negb].
  rewrite !value_bytes_all by done. cbn [mbind outcome_bind]. send_members. split; [bytes_sent|]. unfold m, sent_as.
  unfold decode_get_numeric_effecter_value_resp. known_message. read_known. done.
Qed.

(** The composite states of a sensor. *)
Definition states_ok (f : get_sensor_state_field) : Prop := bytes_ok (state_bytes f).

Lemma sensor_states_bytes l :
  Forall states_ok l ->
  bytes_ok (concat (state_bytes <$> l)) /\ length (concat (state_bytes <$> l)) = (4 * length l)%nat.
Proof.
  induction 1 as [|f l Hf _ [IH1 IH2]]; cbn [fmap list_fmap concat length]; [split; [constructor|done]|].
  rewrite length_app, IH2. split; [by apply list.Forall_app|]. destruct f as [[[? ?] ?] ?]. cbn. lia.
Qed.

Definition sensor_readings_resp_carried : Prop :=
  forall (l l0 : list get_sensor_state_field) c0 n0,
  1 <= Z.of_nat (length l) <= 8 -> 2 + 4 * Z.of_nat (length l) <= mem_size (payload msg) ->
  Forall states_ok l -> (8 <= length l0)%nat ->
  let n := Z.of_nat (length l) in
  let m := sent_as PLDM_RESPONSE inst PLDM_PLATFORM PLDM_GET_STATE_SENSOR_READINGS msg (
     le_enc 1 0 ++ le_enc 1 n ++
     concat ((fun '(operational, present, previous, event) => [operational; present; previous; event]) <$> l)) in
  encode_get_state_sensor_readings_resp inst PLDM_SUCCESS n l (Some msg) = Ok (PLDM_SUCCESS, Some m) /\
    decode_get_state_sensor_readings_resp (Some m) (2 + 4 * n) (Some (c0, n0, l0))
    = Ok (PLDM_SUCCESS, Some (PLDM_SUCCESS, n, l ++ drop (length l) l0)).

Lemma sensor_readings_resp_roundtrip : sensor_readings_resp_carried.
Proof.
  intros l l0 c0 n0.
  intros Hl Hs Hf Hl0 n m. destruct (sensor_states_bytes l Hf) as [? ?].
  assert (byte_ok n) by (unfold byte_ok; lia). assert (n = Z.of_nat (length l)) as En by done. clearbody n.
  unfold encode_get_state_sensor_readings_resp. replace (_ || _) with false by lia. send_members.
  rewrite array_first_all by done. cbn [mbind outcome_bind]. send_members. split; [bytes_sent|]. unfold m, sent_as.
  change (concat ((fun '(operational, present, previous, event) => [operational; present; previous; event]) <$> l))
    with (concat (state_bytes <$> l)).
  unfold decode_get_state_sensor_readings_resp. known_message. read_known. done.
Qed.

Definition sensor_readings_req_carried : Prop :=
  forall id rearm reserved o0,
  4 <= mem_size (payload msg) -> u16_ok id -> byte_ok rearm -> byte_ok reserved ->
  let m := sent_as PLDM_REQUEST inst PLDM_PLATFORM PLDM_GET_STATE_SENSOR_READINGS msg (
     le_enc 2 id ++ le_enc 1 rearm ++ le_enc 1 reserved) in
  encode_get_state_sensor_readings_req inst id rearm reserved (Some msg) = Ok (PLDM_SUCCESS, Some m) /\
    decode_get_state_sensor_readings_req (Some m) 4 (Some o0) = Ok (PLDM_SUCCESS, Some (id, rearm, reserved)).

Lemma sensor_readings_req_roundtrip : sensor_readings_req_carried.
Proof.
  intros id rearm reserved o0.
  intros ???? m. unfold encode_get_state_sensor_readings_req. send_members. split; [bytes_sent|]. unfold m, sent_as.
  destruct o0 as [[? ?] ?]. unfold decode_get_state_sensor_readings_req. known_message. read_known. done.
Qed.

Definition sensor_reading_carried : Prop :=
  forall r a raw r0,
  mem_ok (CMem a raw) -> value_ok (sr_sensor_data_size r) raw -> sr_completion_code r = PLDM_SUCCESS ->
  byte_ok (sr_sensor_operational_state r) -> byte_ok (sr_sensor_event_message_enable r) ->
  byte_ok (sr_present_state r) -> byte_ok (sr_previous_state r) -> byte_ok (sr_event_state r) ->
  15 <= mem_size (payload msg) -> length (sr_present_reading r0) = 8%nat ->
  let n := 7 + value_width (sr_sensor_data_size r) in
  let m := sent_as PLDM_RESPONSE inst PLDM_PLATFORM PLDM_GET_SENSOR_READING msg (
     le_enc 1 0 ++ le_enc 1 (sr_sensor_data_size r) ++ le_enc 1 (sr_sensor_operational_state r) ++
     le_enc 1 (sr_sensor_event_message_enable r) ++ le_enc 1 (sr_present_state r) ++ le_enc 1 (sr_previous_state r) ++
     le_enc 1 (sr_event_state r) ++ raw) in
  encode_get_sensor_reading_resp inst r (Some (CMem a raw)) (Some msg) n = Ok (PLDM_SUCCESS, Some m) /\
    decode_get_sensor_reading_resp (Some m) n (Some r0)
    = Ok (PLDM_SUCCESS, Some (SensorReading PLDM_SUCCESS (sr_sensor_data_size r) (sr_sensor_operational_state r)
        (sr_sensor_event_message_enable r) (sr_present_state r) (sr_previous_state r) (sr_event_state r)
        (splice 0 raw (sr_present_reading r0)))).

Lemma sensor_reading_roundtrip : sensor_reading_carried.
Proof.
  intros r a raw r0.
  intros Ha (Ht & Hr & Hl) Hcc ????? Hs Hr0 n m. unfold n. destruct (value_kind _ Ht) as (k & Hk & Hw).
  pose proof (kind_size_bound k). assert (byte_ok (sr_sensor_data_size r)) by (unfold byte_ok; lia).
  unfold encode_get_sensor_reading_resp. rewrite Hcc. replace (7 <? _) with false by lia. send_members.
  replace (value_width _ =? 0) with false by lia. rewrite Z.eqb_refl. cbn [negb].
  rewrite value_bytes_all by done. cbn [mbind outcome_bind]. send_members. split; [bytes_sent|]. unfold m, sent_as.
  unfold decode_get_sensor_reading_resp. destruct r0. cbn in Hr0. known_message. read_known. done.
Qed.

Definition sensor_reading_req_carried : Prop :=
  forall id rearm o0,
  3 <= mem_size (payload msg) -> u16_ok id -> byte_ok rearm ->
  let m := sent_as PLDM_REQUEST inst PLDM_PLATFORM PLDM_GET_SENSOR_READING msg (
     le_enc 2 id ++ le_enc 1 rearm) in
  encode_get_sensor_reading_req inst id rearm (Some msg) = Ok (PLDM_SUCCESS, Some m) /\
    decode_get_sensor_reading_req (Some m) 3 (Some o0) = Ok (PLDM_SUCCESS, Some (id, rearm)).

Lemma sensor_reading_req_roundtrip : sensor_reading_req_carried.
Proof.
  intros id rearm o0.
  intros ??? m. unfold encode_get_sensor_reading_req. send_members. split; [bytes_sent|]. unfold m, sent_as.
  destruct o0 as [? ?]. unfold decode_get_sensor_reading_req. known_message. read_known. done.
Qed.

Definition event_receiver_carried : Prop :=
  forall r r0,
  5 <= mem_size (payload msg) -> byte_ok (rv_event_message_global_enable r) ->
  rv_transport_protocol_type r = PLDM_TRANSPORT_PROTOCOL_TYPE_MCTP ->
  byte_ok (rv_event_receiver_address_info r) -> u16_ok (rv_heartbeat_timer r) ->
  (rv_event_message_global_enable r = PLDM_EVENT_MESSAGE_GLOBAL_ENABLE_ASYNC_KEEP_ALIVE -> rv_heartbeat_timer r <> 0) ->
  let keep := rv_event_message_global_enable r =? PLDM_EVENT_MESSAGE_GLOBAL_ENABLE_ASYNC_KEEP_ALIVE in
  let m := sent_as PLDM_REQUEST inst PLDM_PLATFORM PLDM_SET_EVENT_RECEIVER msg (
     le_enc 1 (rv_event_message_global_enable r) ++ le_enc 1 0 ++ le_enc 1 (rv_event_receiver_address_info r) ++
     (if keep then le_enc 2 (rv_heartbeat_timer r) else [])) in
  encode_set_event_receiver_req inst r (Some msg) = Ok (PLDM_SUCCESS, Some m) /\
    decode_set_event_receiver_req (Some m) (if keep then 5 else 3) (Some r0)
    = Ok (PLDM_SUCCESS, Some (SetReceiverReq (rv_event_message_global_enable r) PLDM_TRANSPORT_PROTOCOL_TYPE_MCTP
        (rv_event_receiver_address_info r) (if keep then rv_heartbeat_timer r else rv_heartbeat_timer r0))).

Lemma event_receiver_roundtrip : event_receiver_carried.
Proof.
  intros r r0.
  intros Hs ? Hty ?? Hkeep keep m. unfold keep, encode_set_event_receiver_req. rewrite Hty. cbn [Z.eqb negb]. send_members. unfold m, keep; clear m keep.
  destruct r0 as [re rt ra rh]. unfold decode_set_event_receiver_req.
  destruct (Z.eqb_spec (rv_event_message_global_enable r) PLDM_EVENT_MESSAGE_GLOBAL_ENABLE_ASYNC_KEEP_ALIVE) as [E|E].
  - specialize (Hkeep E). rewrite E in *. replace (_ =? 0) with false by lia. send_members.
    split; [bytes_sent|]. unfold sent_as. known_message. read_known. done.
  - send_members. split; [bytes_sent|]. unfold sent_as. known_message. read_known. done.
Qed.

(** Any event data behind its class: the decoder says where. *)
Definition event_message_req_carried : Prop :=
  forall tid class a raw o0,
  let n := Z.of_nat (length raw) in
  0 < n -> 3 + n <= mem_size (payload msg) -> bytes_ok raw -> byte_ok tid ->
  0 <= class <= PLDM_CPER_EVENT \/ 0xf0 <= class <= 0xfe ->
  exists m, encode_platform_event_message_req inst 1 tid class (Some (CMem a raw)) n (Some msg) (3 + n)
      = Ok (PLDM_SUCCESS, Some m) /\
    decode_platform_event_message_req (Some m) (3 + n) (Some o0) = Ok (PLDM_SUCCESS, Some (1, tid, class, 3)) /\
    slice 3 (length raw) (bytes (payload m)) = raw.

Lemma event_message_req_roundtrip : event_message_req_carried.
Proof.
  intros tid class a raw o0.
  intros n Hn Hs Hr ? Hc. assert (byte_ok class) by (unfold byte_ok; lia). pose proof (mem_ok_intmax _ Hmem).
  assert (n = Z.of_nat (length raw)) as En by done. clearbody n.
  unfold encode_platform_event_message_req. cbn [Z.eqb Pos.eqb negb].
  replace (n =? 0) with false by lia. replace (SIZE_MAX - 3 <? n) with false by lia. rewrite Z.eqb_refl. cbn [negb].
  replace (_ && _) with false by lia. send_members. eexists. split; [reflexivity|].
  destruct o0 as [[[? ?] ?] ?]. unfold decode_platform_event_message_req. known_message. split; [read_known; done|].
  cbn [payload bytes]. wire_run. done.
Qed.

Definition event_message_resp_carried : Prop :=
  forall status o0,
  0 <= status <= PLDM_EVENT_LOGGING_REJECTED -> 2 <= mem_size (payload msg) ->
  exists m, encode_platform_event_message_resp inst PLDM_SUCCESS status (Some msg) = Ok (PLDM_SUCCESS, Some m) /\
    decode_platform_event_message_resp (Some m) 2 (Some o0) = Ok (PLDM_SUCCESS, Some (PLDM_SUCCESS, status)).

Lemma event_message_resp_roundtrip : event_message_resp_carried.
Proof.
  intros status o0.
  intros Hst Hs. assert (byte_ok status) by (unfold byte_ok; lia). unfold encode_platform_event_message_resp.
  replace (_ <? status) with false by lia. send_members. eexists. split; [reflexivity|].
  destruct o0 as [? ?]. unfold decode_platform_event_message_resp. known_message. read_known. done.
Qed.

Definition poll_req_carried : Prop :=
  forall r r0,
  8 <= mem_size (payload msg) -> byte_ok (pq_format_version r) -> u32_ok (pq_data_transfer_handle r) ->
  u16_ok (pq_event_id_to_acknowledge r) -> 0 <= pq_transfer_operation_flag r ->
  pldm_platform_poll_for_platform_event_message_validate (pq_transfer_operation_flag r)
    (pq_event_id_to_acknowledge r) = 0 ->
  exists m, encode_poll_for_platform_event_message_req inst r (Some msg) 8 = Ok (PLDM_SUCCESS, Some m) /\
    decode_poll_for_platform_event_message_req (Some m) 8 (Some r0) = Ok (PLDM_SUCCESS, Some r).

Lemma poll_req_roundtrip : poll_req_carried.
Proof.
  intros r r0.
  intros Hs ??? Hf Hv. unfold encode_poll_for_platform_event_message_req. rewrite Hv. cbn [Z.ltb Z.compare].
  assert (pq_transfer_operation_flag r <= 2).
  { unfold pldm_platform_poll_for_platform_event_message_validate in Hv. destruct (_ || _) eqn:E in Hv; [done|]. lia. }
  assert (byte_ok (pq_transfer_operation_flag r)) by (unfold byte_ok; lia).
  rewrite legacy_frame_ok by (done || (repeat constructor)). rewrite wrote_nil.
  erewrite (legacy_encode_is 4 (Msg _ (payload msg)) 8);
    [|done|cbn [payload]; lia|lia|intros b Hb; cbn [payload] in *; repeat insert_call; split_and!; [assumption|reflexivity|eassumption]].
  eexists. split; [reflexivity|]. cbn [hdr payload].
  destruct r0 as [pv pf ph pi]. unfold decode_poll_for_platform_event_message_req. known_message. read_known. by destruct r.
Qed.

(** An event behind its fourteen bytes, and its checksum behind it if it ends here. *)
Definition poll_resp_carried : Prop :=
  forall tid id next flag class a raw sum r0,
  let n := Z.of_nat (length raw) in
  let len := 14 + n + (if ends_transfer flag then 4 else 0) in
  0 < n < 4294967296 -> 14 + n + 4 <= mem_size (payload msg) -> bytes_ok raw -> byte_ok tid ->
  0 < id < 65535 -> u32_ok next -> byte_ok flag -> byte_ok class -> u32_ok sum ->
  exists m, encode_poll_for_platform_event_message_resp inst
      (PollResp PLDM_SUCCESS tid id next flag class n (Some (CMem a raw)) sum) (Some msg) len = Ok (PLDM_SUCCESS, Some m) /\
    decode_poll_for_platform_event_message_resp (Some m) len (Some r0)
    = Ok (PLDM_SUCCESS, Some (PollResp PLDM_SUCCESS tid id next flag class n (Some (ptr_at (payload m) 14))
        (if ends_transfer flag then sum else pr_event_data_integrity_checksum r0))) /\
    slice 0 (length raw) (bytes (ptr_at (payload m) 14)) = raw.

Lemma poll_resp_roundtrip : poll_resp_carried.
Proof.
  intros tid id next flag class a raw sum r0.
  intros n len Hn Hs Hr ? Hid ????. pose proof (mem_ok_intmax _ Hmem).
  assert (u16_ok id /\ u32_ok n) as [? ?] by (unfold u16_ok, u32_ok; lia).
  unfold len; clear len. assert (n = Z.of_nat (length raw)) as En by done. clearbody n.
  unfold encode_poll_for_platform_event_message_resp.
  rewrite legacy_frame_ok by (done || (repeat constructor)). rewrite wrote_nil.
  assert (mem_size (CMem a raw) = n) as Hraw by (unfold mem_size; cbn; lia).
  assert (0 <= (if ends_transfer flag then 4 else 0) <= 4) as Hf by (destruct (ends_transfer flag); lia).
  destruct r0 as [pc pt pi pn pf pcl ps pd psum]. unfold decode_poll_for_platform_event_message_resp.
  destruct (ends_transfer flag) eqn:Ef;
  (erewrite (legacy_encode_is 4 (Msg _ (payload msg)));
    [|done|cbn [payload]; lia|lia|intros b Hb; cbn [payload pr_completion_code pr_tid pr_event_id pr_event_data pr_event_data_size pr_next_data_transfer_handle pr_transfer_flag pr_event_class pr_event_data_integrity_checksum] in *; 
    repeat insert_call]).
  all: match goal with |- wp _ _ _ => fail | |- _ /\ _ => split_and!; [assumption|reflexivity|eassumption] | _ => idtac end.
  all: eexists; split; [reflexivity|]; cbn [hdr payload].
  all: known_message. all: split; [read_known; done|].
  all: unfold ptr_at; cbn [payload bytes];
    match goal with |- slice 0 ?k (drop _ ?l) = _ => change (slice 14 k l = raw) end; by wire_run.
Qed.

End roundtrip.

(** ** The theorems *)

(** C32: what a terminus encodes for platform monitoring and control is a message of
    exactly the stated bytes behind the header of its command, and its peer decodes it.
    GetPDR requests and responses with a record and its checksum, under both of the
    decoders; the PDR repository's state and time stamps; the states of composite
    effecters and sensors; numeric effecter and sensor values of every size and sign,
    byte for byte; the event receiver with its heartbeat timer only in the mode that has
    one: each field lies at its offset of the specification in its width, low byte first,
    and comes back, and the caller's objects keep what the message does not cover. *)
Theorem platform_commands_roundtrip inst msg :
  mem_ok (payload msg) -> 0 <= inst <= 31 ->
  get_pdr_req_carried inst msg /\ get_pdr_resp_carried inst msg /\ repository_info_carried inst msg /\
  effecter_states_req_carried inst msg /\ numeric_value_req_carried inst msg /\
  numeric_value_resp_carried inst msg /\ sensor_readings_req_carried inst msg /\
  sensor_readings_resp_carried inst msg /\ sensor_reading_req_carried inst msg /\
  sensor_reading_carried inst msg /\ event_receiver_carried inst msg.
Proof.
  intros. split_and!; [by apply get_pdr_req_roundtrip|by apply get_pdr_resp_roundtrip
    |by apply repository_info_roundtrip|by apply effecter_states_req_roundtrip|by apply numeric_value_req_roundtrip
    |by apply numeric_value_resp_roundtrip|by apply sensor_readings_req_roundtrip
    |by apply sensor_readings_resp_roundtrip|by apply sensor_reading_req_roundtrip
    |by apply sensor_reading_roundtrip|by apply event_receiver_roundtrip].
Qed.

Lemma platform_commands_roundtrip_witness :
  let msg := Msg (MsgHdr 0 0 0 0 0 0 0) (CMem 4096 (replicate 24 9)) in
  let m := Msg (MsgHdr 0 0 0 5 0 2 0x51)
    (CMem 4096 ([0; 7; 0; 0; 0; 8; 0; 0; 0; 4; 3; 0; 1; 2; 3; 170] ++ replicate 8 9)) in
  encode_get_pdr_resp 5 PLDM_SUCCESS 7 8 PLDM_END 3 (Some (CMem 64 [1; 2; 3])) 170 (Some msg) = Ok (PLDM_SUCCESS, Some m) /\
  decode_get_pdr_resp (Some m) 16 (Some (0, 0, 0, 0, 0)) (Some [4; 4; 4; 4]) 4 (Some 0)
  = Ok (PLDM_SUCCESS, Some (0, 7, 8, 4, 3), Some [1; 2; 3; 4], Some 170).
Proof.
  destruct (platform_commands_roundtrip 5 (Msg (MsgHdr 0 0 0 0 0 0 0) (CMem 4096 (replicate 24 9)))
    ltac:(concrete) ltac:(lia)) as (_ & H & _).
  destruct (H 7 8 PLDM_END [1; 2; 3] 64 170 (0, 0, 0, 0, 0) [4; 4; 4; 4] 0) as (E & D & _).
  1-8: concrete.
  split; [exact E|exact D].
Defined.

(** events from the terminus that has them to the one that logs them.  An event
    message gives its class and says where the data is that was put there; the answer
    gives its status; a poll request that keeps the rules for its operation flag and
    event id decodes to itself, and the answer to it gives the event with a pointer to
    its data, and the checksum exactly when the part is the last one. *)
Theorem platform_events_roundtrip inst msg :
  mem_ok (payload msg) -> 0 <= inst <= 31 ->
  event_message_req_carried inst msg /\ event_message_resp_carried inst msg /\
  poll_req_carried inst msg /\ poll_resp_carried inst msg.
Proof.
  intros. split_and!; [by apply event_message_req_roundtrip|by apply event_message_resp_roundtrip
    |by apply poll_req_roundtrip|by apply poll_resp_roundtrip].
Qed.

Lemma platform_events_roundtrip_witness :
  let msg := Msg (MsgHdr 0 0 0 0 0 0 0) (CMem 4096 (replicate 24 9)) in
  let r := PollReq 1 PLDM_ACKNOWLEDGEMENT_ONLY 0 77 in
  exists m, encode_poll_for_platform_event_message_req 5 r (Some msg) 8 = Ok (PLDM_SUCCESS, Some m) /\
    take 9 (bytes (payload m)) = [1; 2; 0; 0; 0; 0; 77; 0; 9] /\
    decode_poll_for_platform_event_message_req (Some m) 8 (Some (PollReq 0 0 0 0)) = Ok (PLDM_SUCCESS, Some r).
Proof.
  destruct (platform_events_roundtrip 5 (Msg (MsgHdr 0 0 0 0 0 0 0) (CMem 4096 (replicate 24 9)))
    ltac:(concrete) ltac:(lia)) as (_ & _ & H & _).
  destruct (H (PollReq 1 PLDM_ACKNOWLEDGEMENT_ONLY 0 77) (PollReq 0 0 0 0)) as (m & E & D).
  1-6: concrete.
  exists m. split; [exact E|]. split; [|exact D]. vm_compute in E. injection E as <-. reflexivity.
Defined.
