(* ===== verification/PlatformStates.v ===== *)
(** * The possible states of sensors and effecters

    The encoders of state sensor and state effecter PDRs, and the two nested iterators
    over the possible states of an effecter PDR, against the list of sets of states that
    the bytes are. *)

From S2P Require Import Prelude Msgbuf Layout Base Legacy Exchange Safety Platform PlatformPdr PlatformSafe PlatformRound.

(** ** The sets of states and their bytes *)

(** The id of a state set, and the bit field of its states. *)
Definition state_set : Type := Z * list Z.

Definition set_ok (s : state_set) : Prop := u16_ok s.1 /\ bytes_ok s.2 /\ Z.of_nat (length s.2) < 256.
Definition set_bytes (s : state_set) : list Z := le_enc 2 s.1 ++ le_enc 1 (Z.of_nat (length s.2)) ++ s.2.
Definition sets_bytes (l : list state_set) : list Z := concat (set_bytes <$> l).

(** The reference reading of [n] sets. *)
Fixpoint read_sets (n : nat) (l : list Z) : option (list state_set) :=
  match n with
  | O => Some []
  | S n =>
    match l with
    | a :: b :: size :: l =>
      if size <=? Z.of_nat (length l) then
        cons (le_dec [a; b], take (Z.to_nat size) l) <$> read_sets n (drop (Z.to_nat size) l)
      else None
    | _ => None
    end
  end.

Lemma read_sets_bytes ls rest :
  Forall set_ok ls -> read_sets (length ls) (sets_bytes ls ++ rest) = Some ls.
Proof.
  induction 1 as [|[id st] ls (Hid & Hst & Hn) _ IH]; [done|]. cbn [fst snd] in *.
  unfold sets_bytes. cbn [fmap list_fmap concat length]. fold (sets_bytes ls). unfold set_bytes. cbn [fst snd].
  rewrite <- !app_assoc, (le_enc_1 (Z.of_nat _)) by lia.
  assert (exists x y, le_enc 2 id = [x; y] /\ le_dec [x; y] = id) as (x & y & -> & Hd).
  { do 2 eexists. split; [reflexivity|]. apply (le_dec_enc_id 2 id). exact Hid. }
  cbn [app read_sets]. rewrite length_app, (proj2 (Z.leb_le _ _)) by lia.
  rewrite Nat2Z.id, take_app_length, drop_app_length, IH, Hd. done.
Qed.

Lemma set_bytes_length s : length (set_bytes s) = (3 + length s.2)%nat.
Proof. unfold set_bytes. by rewrite !length_app, !le_enc_length. Qed.

Lemma sets_bytes_ok ls : Forall set_ok ls -> bytes_ok (sets_bytes ls).
Proof.
  induction 1 as [|s ls (_ & Hs & _) _ IH]; [constructor|]. unfold sets_bytes in *. cbn [fmap list_fmap concat].
  unfold set_bytes. rewrite !list.Forall_app. split_and!; [apply le_enc_ok|apply le_enc_ok|done|done].
Qed.

(** ** The encoders *)

Lemma walk_sets a pre ls post :
  Forall set_ok ls ->
  walk_possible_states (length ls) (CMem a (pre ++ sets_bytes ls ++ post)) (len pre)
  = Ok (len pre + len (sets_bytes ls)).
Proof.
  intros Hls. revert pre. induction Hls as [|[id st] ls (Hid & Hst & Hn) _ IH]; intros pre.
  { cbn. unfold len. cbn. by rewrite Z.add_0_r. }
  cbn [fst snd] in *. cbn [length walk_possible_states]. unfold sets_bytes. cbn [fmap list_fmap concat].
  fold (sets_bytes ls). unfold set_bytes. cbn [fst snd]. rewrite <- !app_assoc.
  assert (forall q l r, lies (CMem a (q ++ l ++ r)) (len q) l) as Hlies.
  { intros q l r. split; [unfold mem_size, len; cbn; rewrite !length_app; lia|]. exists r. cbn.
    unfold len. by rewrite Nat2Z.id, drop_app_length. }
  rewrite (mem_le_at _ _ _ 2 2 _ (Hlies pre (le_enc 2 id) _) eq_refl eq_refl) by exact Hid. cbn [mbind outcome_bind].
  assert (lies (CMem a (pre ++ le_enc 2 id ++ le_enc 1 (Z.of_nat (length st)) ++ st ++ sets_bytes ls ++ post))
            (len pre + 2) (le_enc 1 (Z.of_nat (length st)))) as Hl.
  { rewrite (app_assoc pre). replace (len pre + 2) with (len (pre ++ le_enc 2 id))
      by (rewrite len_app, len_le_enc; lia). apply Hlies. }
  rewrite (mem_le_at _ _ _ 1 1 _ Hl eq_refl eq_refl) by (cbn; lia). cbn [mbind outcome_bind].
  specialize (IH (pre ++ le_enc 2 id ++ le_enc 1 (Z.of_nat (length st)) ++ st)).
  rewrite !len_app, !len_le_enc, <- !app_assoc in IH. rewrite !len_app, !len_le_enc.
  replace (len pre + 3 + Z.of_nat (length st)) with (len pre + (Z.of_nat 2 + (Z.of_nat 1 + len st))) by (unfold len; lia).
  rewrite IH. f_equal. lia.
Qed.

(** A PDR before and after: the handle, the version and type, the change number, the
    length, the members up to the count of sets, the count, and the possible states. *)
Definition state_pdr (a : Z) (handle vt change length members : list Z) (count : Z) (states : list Z) : cmem :=
  CMem a (handle ++ vt ++ change ++ length ++ members ++ [count] ++ states).

Lemma encode_state_pdr_ok type a handle vt change hlen members ls room states_a actual0 :
  length handle = 4%nat -> length vt = 2%nat -> length change = 2%nat -> length hlen = 2%nat ->
  Forall set_ok ls -> Z.of_nat (length ls) < 256 -> len (sets_bytes ls) <= len room ->
  let count_at := 10 + len members in
  let size := count_at + 1 + len (sets_bytes ls) in
  count_at + 1 + len room <= INTMAX_MAX ->
  encode_state_pdr type count_at (count_at + 1)
    (Some (state_pdr a handle vt change hlen members (Z.of_nat (length ls)) room)) (count_at + 1 + len room)
    (Some (CMem states_a (sets_bytes ls))) (len (sets_bytes ls)) (Some actual0)
  = Ok (PLDM_SUCCESS,
        Some (state_pdr a handle [1; type] change (le_enc 2 (u16 (size - 10))) members (Z.of_nat (length ls))
                (sets_bytes ls ++ drop (length (sets_bytes ls)) room)), Some size).
Proof.
  intros Hh Hv Hc Hl Hls Hn Hroom count_at size Hmax.
  pose proof (len_nonneg (sets_bytes ls)). pose proof (len_nonneg members).
  unfold encode_state_pdr, state_pdr. replace (_ <? len (sets_bytes ls)) with false by (unfold count_at; lia).
  replace (_ <? count_at + 1 + len (sets_bytes ls)) with false by lia.
  assert (len handle = 4 /\ len vt = 2 /\ len change = 2 /\ len hlen = 2) as (? & ? & ? & ?) by (unfold len; lia).
  assert (lies (CMem a (handle ++ vt ++ change ++ hlen ++ members ++ [Z.of_nat (length ls)] ++ room))
            count_at (le_enc 1 (Z.of_nat (length ls)))) as Hcount.
  { rewrite le_enc_1 by lia. set (pre := handle ++ vt ++ change ++ hlen ++ members).
    assert (len pre = count_at) as Hpre by (unfold pre; rewrite !len_app; lia).
    replace (handle ++ _) with (pre ++ [Z.of_nat (length ls)] ++ room) by (unfold pre; by rewrite <- !app_assoc).
    rewrite <- Hpre. split; [unfold mem_size, len; cbn; rewrite length_app; lia|]. exists room. cbn [bytes].
    unfold len. by rewrite Nat2Z.id, drop_app_length. }
  rewrite (mem_le_at _ _ count_at 1 1 _ Hcount eq_refl eq_refl) by (cbn; lia). cbn [mbind outcome_bind].
  rewrite Nat2Z.id. pose proof (walk_sets states_a [] ls [] Hls) as W. rewrite app_nil_r in W. cbn [app] in W.
  change (len (@nil Z)) with 0 in W. rewrite W, Z.add_0_l. cbn [mbind outcome_bind]. rewrite Z.eqb_refl. cbn [negb].
  clear W Hcount.
  destruct vt as [|v0 [|t0 [|]]]; try done.
  change ([v0; t0] ++ ?r) with ([v0] ++ [t0] ++ r).
  rewrite (mem_write_over a handle [v0] [1] ([t0] ++ change ++ hlen ++ members ++ [_] ++ room) 4) by (done || lia).
  cbn [mbind outcome_bind]. rewrite (app_assoc handle [1]).
  rewrite (mem_write_over a (handle ++ [1]) [t0] [type] (change ++ hlen ++ members ++ [_] ++ room) 5)
    by (done || (rewrite len_app; unfold len in *; cbn; lia)).
  cbn [mbind outcome_bind]. rewrite (app_assoc (handle ++ [1])), (app_assoc _ change).
  rewrite (mem_write_over a _ hlen (le_enc 2 _) (members ++ [_] ++ room) 8)
    by (rewrite ?le_enc_length; done || (rewrite !len_app; unfold len in *; cbn; lia)).
  cbn [mbind outcome_bind]. rewrite mem_read_all by done. cbn [mbind outcome_bind].
  assert (exists old rest, room = old ++ rest /\ length old = length (sets_bytes ls)) as (old & rest & -> & Ho).
  { exists (take (length (sets_bytes ls)) room), (drop (length (sets_bytes ls)) room). rewrite take_drop.
    split; [done|]. rewrite length_take. unfold len in *. lia. }
  rewrite !(app_assoc (_ ++ _) (le_enc 2 _)), !(app_assoc (_ ++ _) members), !(app_assoc (_ ++ _) [_]).
  rewrite (mem_write_over a _ old (sets_bytes ls) rest (count_at + 1))
    by (first [done | rewrite !len_app, len_le_enc; unfold count_at, len in *; cbn; lia]).
  cbn [mbind outcome_bind]. rewrite <- Ho, drop_app_length, <- !app_assoc. done.
Qed.

(** ** The iterators *)

Lemma wp_span_rest m len c out n b Q :
  mb_rd m len c b -> c <= len ->
  (forall b', mb_rd m len len b' -> Q (0, Some (ptr_at m c), len - c) b') ->
  wp (pldm__msgbuf_span_remaining out n) b Q.
Proof.
  intros [Ho Hr ? ? ? (k & Hk & Hkc)] Hc HQ. unfold wp, pldm__msgbuf_span_remaining. cmp_case; [lia|].
  unfold msgbuf_advance. rewrite Hk. cbn [mbind outcome_bind obj]. rewrite Hkc, Ho, Hr by lia. apply HQ.
  constructor; cbn; try lia; [done|]. exists (c + (len - c)). split; [done|lia].
Qed.

Section iterators.
Context (p : cmem) (n : Z).
Hypothesis Hp : mem_ok p.
Hypothesis Hn : 0 <= n <= mem_size p.

Ltac rest_call :=
  lazymatch goal with
  | H : mb_rd ?m ?len ?c ?b |- wp (_ (Some _) _ ≫= _) ?b _ =>
      apply wp_bind; autounfold with msgbuf; apply (wp_span_rest m len c _ _ b _ H); [lia|];
      clear H; let b' := fresh "b" in intros b' H
  end; cbv beta iota.

(** One state of a set. *)
Lemma state_from_iter total index s0 :
  1 <= n ->
  decode_pldm_platform_state_effecter_pdr_possible_states_from_iter
    (Some (StatesIter (VarField (Some p) n) total index)) (Some s0)
  = Ok (0, Some (StatesIter (VarField (Some (ptr_at p 1)) (n - 1)) total index), Some (fld p 0 1)).
Proof.
  intros H1. unfold decode_pldm_platform_state_effecter_pdr_possible_states_from_iter.
  rewrite (errno_scope_is 0 p n Hp Hn _ _ 0 (StatesIter (VarField (Some (ptr_at p 1)) (n - 1)) total index, fld p 0 1));
    [done|lia|].
  intros b Hb. mb_extract_in. rest_call. repeat known_call. split; [assumption|reflexivity].
Qed.

(** A set behind the ones before it. *)
Lemma set_from_iter current total index s0 :
  3 <= n -> 3 + fld p 2 1 <= n ->
  decode_pldm_platform_state_effecter_pdr_from_iter
    (Some (EffIter (VarField (Some p) n) current total index)) (Some s0)
  = Ok (0, Some (EffIter (VarField (Some (ptr_at p (3 + fld p 2 1))) (n - (3 + fld p 2 1)))
                   (VarField (Some (ptr_at p 3)) (fld p 2 1)) total index), Some (fld p 0 2, fld p 2 1)).
Proof.
  intros H3 Hs. destruct s0 as [i0 z0]. unfold decode_pldm_platform_state_effecter_pdr_from_iter.
  pose proof (fld_bound p 2 1 ltac:(by apply mem_ok_bytes)).
  rewrite (errno_scope_is 0 p n Hp Hn _ _ 0 (EffIter (VarField (Some (ptr_at p (3 + fld p 2 1))) (n - (3 + fld p 2 1)))
                   (VarField (Some (ptr_at p 3)) (fld p 2 1)) total index, (fld p 0 2, fld p 2 1)));
    [done|lia|].
  intros b Hb. mb_extract_in. unfold checked_errno at 1. mb_extract_in. cbn [negb].
  repeat known_call. rest_call. repeat known_call. split; [assumption|reflexivity].
Qed.

(** A set that is not all there. *)
Lemma set_from_iter_short current total index s0 :
  n < 3 \/ n < 3 + fld p 2 1 ->
  exists rc i s, errno rc /\ decode_pldm_platform_state_effecter_pdr_from_iter
    (Some (EffIter (VarField (Some p) n) current total index)) (Some s0) = Ok (rc, i, s).
Proof.
  intros Hs. destruct s0 as [i0 z0]. unfold decode_pldm_platform_state_effecter_pdr_from_iter.
  pose proof (fld_bound p 2 1 ltac:(by apply mem_ok_bytes)) as Hf.
  edestruct (errno_scope_reads errno (fun _ => False) 0 p n (EffIter (VarField (Some p) n) current total index, (i0, z0)) Hp Hn) as (rc & a & E & Hrc & HP).
  3: { setoid_rewrite E. destruct a as [i s]. cbn. exists rc, (Some i), (Some s). split; [|done].
       destruct Hrc as [->|]; [by destruct (HP eq_refl)|done]. }
  - unfold errno; lia.
  - assert (forall rc o b, errno rc -> wp (refuse rc o) b (ends errno (fun _ : pldm_platform_state_effecter_pdr_iter * state_effecter_possible_states => False))) as Hrefuse.
    { intros. unfold refuse, pldm_msgbuf_ro_discard. apply wp_bind, wp_discard. intros. apply wp_ret.
      split; [done|]. split; [by right|]. unfold errno in *. lia. }
    intros b Hb _. unfold checked_errno at 1.
    mb_extract. cmp_case; mb_extract; (cmp_case; [|by apply Hrefuse; unfold errno; lia]); [|lia].
    rewrite Z.eqb_refl. apply wp_bind. autounfold with msgbuf.
    apply (wp_span_required_rd p n _ _ 3 b1 _ Hb); [lia|cbn in Hf; lia|].
    intros b2 _. rewrite (proj2 (Z.leb_gt _ _)) by lia. apply Hrefuse. unfold errno. lia.
Qed.
End iterators.

(** ** The loops *)

Definition set_there (p : cmem) (n : Z) : bool := (3 <=? n) && (3 + fld p 2 1 <=? n).

Lemma read_sets_step k p n :
  mem_ok p -> 0 <= n <= mem_size p ->
  read_sets (S k) (take (Z.to_nat n) (bytes p))
  = if set_there p n then
      cons (fld p 0 2, take (Z.to_nat (fld p 2 1)) (bytes (ptr_at p 3))) <$>
        read_sets k (take (Z.to_nat (n - (3 + fld p 2 1))) (bytes (ptr_at p (3 + fld p 2 1))))
    else None.
Proof.
  intros Hp Hn. pose proof (fld_bound p 2 1 ltac:(by apply mem_ok_bytes)) as Hf. unfold set_there.
  destruct (Z.leb_spec 3 n).
  - destruct p as [a l]. unfold mem_size in Hn. cbn [bytes addr ptr_at] in *.
    destruct l as [|x [|y [|z l]]]; cbn [length] in Hn; try lia.
    replace (fld (CMem a (x :: y :: z :: l)) 2 1) with z in * by (unfold fld, slice; cbn; rewrite take_0; cbn; lia).
    replace (fld (CMem a (x :: y :: z :: l)) 0 2) with (le_dec [x; y]) by done.
    replace (Z.to_nat n) with (3 + Z.to_nat (n - 3))%nat by lia. cbn [Nat.add take read_sets].
    rewrite length_take. 
    destruct (Z.leb_spec (3 + z) n), (Z.leb_spec z (Z.of_nat (Nat.min (Z.to_nat (n - 3)) (length l)))); cbn [andb]; try lia; [|done]. cbn [ptr_at bytes addr].
    change (Z.to_nat 3) with 3%nat. replace (Z.to_nat (3 + z)) with (3 + Z.to_nat z)%nat by lia.
    cbn [Nat.add drop]. rewrite take_take, Nat.min_l by lia.
    replace (drop (Z.to_nat z) (take _ l)) with (take (Z.to_nat (n - (3 + z))) (drop (Z.to_nat z) l)); [done|].
    rewrite skipn_firstn_comm. f_equal; lia.
  - cbn. assert (length (take (Z.to_nat n) (bytes p)) < 3)%nat by (rewrite length_take; lia).
    by destruct (take _ _) as [|? [|? [|? ?]]]; cbn in *; try lia.
Qed.

Lemma states_loop_all fuel p n total index :
  mem_ok p -> 0 <= n <= mem_size p -> 0 <= index -> index + n = total -> total < 256 -> (Z.to_nat n < fuel)%nat ->
  states_loop fuel (StatesIter (VarField (Some p) n) total index) 0 = Ok (0, take (Z.to_nat n) (bytes p)).
Proof.
  revert p n index. induction fuel as [|fuel IH]; intros p n index Hp Hn Hi Ht H256 Hfuel; [lia|].
  cbn [states_loop]. unfold pldm_platform_state_effecter_pdr_possible_states_iter_end.
  cbn [psi_total_count psi_current_index Z.eqb negb orb]. destruct (Z.leb_spec total index).
  { replace n with 0 by lia. done. }
  rewrite state_from_iter by (done || lia). cbn [mbind outcome_bind Z.eqb negb from_option id].
  unfold pldm_platform_state_effecter_pdr_possible_states_iter_next. cbn [psi_total_count psi_current_index psi_field].
  replace (total <=? index) with false by lia. replace (u8 (index + 1)) with (index + 1) by (unfold u8; rewrite Z.mod_small; lia). cbn [mbind outcome_bind Z.eqb negb from_option id].
  assert (0 <= 1 <= mem_size p) by lia.
  rewrite IH; [|by apply mem_ok_ptr_at|unfold mem_size in *; cbn; rewrite length_drop; lia|lia..].
  cbn [mbind outcome_bind]. destruct p as [a l]. unfold mem_size in *. cbn [bytes] in *.
  destruct l as [|x l]; cbn in Hn; [lia|]. replace (Z.to_nat n) with (S (Z.to_nat (n - 1))) by lia.
  unfold fld, slice. cbn. rewrite take_0. cbn. by rewrite Z.add_0_r.
Qed.

Lemma effecters_loop_sets fuel p n k total index current :
  mem_ok p -> 0 <= n <= mem_size p -> 0 <= index -> index + Z.of_nat k = total -> total < 256 -> (k < fuel)%nat ->
  let r := effecters_loop fuel (EffIter (VarField (Some p) n) current total index) 0 in
  match read_sets k (take (Z.to_nat n) (bytes p)) with
  | Some ls => r = Ok (0, ls)
  | None => exists rc ls, errno rc /\ r = Ok (rc, ls)
  end.
Proof.
  revert p n k index current. induction fuel as [|fuel IH]; intros p n k index current Hp Hn Hi Ht H256 Hfuel; [lia|].
  cbn zeta. cbn [effecters_loop]. unfold pldm_platform_state_effecter_pdr_iter_end.
  cbn [ei_total_count ei_current_index Z.eqb negb orb]. destruct k as [|k].
  { replace (total <=? index) with true by lia. done. }
  replace (total <=? index) with false by lia. rewrite read_sets_step by done.
  pose proof (fld_bound p 2 1 ltac:(by apply mem_ok_bytes)) as Hf. cbn in Hf.
  destruct (set_there p n) eqn:Hset; unfold set_there in Hset.
  2: { destruct (set_from_iter_short p n Hp Hn current total index (0, 0)) as (rc & i & s & Hrc & E); [lia|].
       unfold state_effecter_possible_states in *. rewrite E. cbn [mbind outcome_bind]. replace (negb (rc =? 0)) with true by (unfold errno in Hrc; lia).
       by exists rc, []. }
  apply andb_prop in Hset as [H3 Hs]. apply Z.leb_le in H3, Hs.
  pose proof (set_from_iter p n Hp Hn current total index (0, 0) H3 Hs) as E.
  unfold state_effecter_possible_states in *. rewrite E. cbn [mbind outcome_bind Z.eqb negb from_option id].
  unfold foreach_pldm_platform_state_effecter_pdr_states, pldm_platform_state_effecter_pdr_possible_states_iter_init.
  cbn [ei_current_states vf_ptr vf_length]. replace (u8 (fld p 2 1)) with (fld p 2 1) by (unfold u8; rewrite Z.mod_small; lia).
  assert (forall j, 0 <= j <= n -> mem_ok (ptr_at p j) /\ mem_size (ptr_at p j) = mem_size p - j) as Hptr.
  { intros j Hj. split; [apply mem_ok_ptr_at; [done|lia]|]. unfold mem_size in *. cbn. rewrite length_drop. lia. }
  destruct (Hptr 3 ltac:(lia)) as [H3ok H3n]. destruct (Hptr (3 + fld p 2 1) ltac:(lia)) as [Hrok Hrn].
  rewrite states_loop_all; [|done|lia..]. cbn [mbind outcome_bind].
  unfold pldm_platform_state_effecter_pdr_iter_next. cbn [ei_total_count ei_current_index ei_field ei_current_states].
  replace (total <=? index) with false by lia. 
  replace (u8 (index + 1)) with (index + 1) by (unfold u8; rewrite Z.mod_small; lia).
  specialize (IH (ptr_at p (3 + fld p 2 1)) (n - (3 + fld p 2 1)) k (index + 1)
    (VarField (Some (ptr_at p 3)) (fld p 2 1)) Hrok ltac:(lia) ltac:(lia) ltac:(lia) H256 ltac:(lia)). cbn zeta in IH.
  destruct (read_sets k _) as [ls|]; cbn [fmap option_fmap option_map].
  - rewrite IH. done.
  - destruct IH as (rc & ls & Hrc & ->). cbn. eauto.
Qed.

(** The reference reading of a state effecter PDR: the count of sets behind the 24 bytes
    of its other members, the sets, and room for one byte of them at least. *)
Definition state_effecter_sets (l : list Z) : option (list state_set) :=
  if (length l <? 26)%nat then None else read_sets (Z.to_nat (le_dec (slice 24 1 l))) (drop 25 l).

Lemma foreach_sets p size :
  mem_ok p -> 26 <= size <= mem_size p ->
  let r := foreach_pldm_platform_state_effecter_pdr_possible_states p size in
  match read_sets (Z.to_nat (fld p 24 1)) (drop 25 (take (Z.to_nat size) (bytes p))) with
  | Some ls => r = Ok (0, ls)
  | None => exists rc ls, errno rc /\ r = Ok (rc, ls)
  end.
Proof.
  intros Hp Hn. cbn zeta. unfold foreach_pldm_platform_state_effecter_pdr_possible_states,
    pldm_platform_state_effecter_pdr_iter_init. replace (size <? 26) with false by lia.
  assert (mem_le p 24 1 = Ok (fld p 24 1)) as ->.
  { unfold mem_le, mem_read. by replace (_ && _) with true by lia. }
  pose proof (fld_bound p 24 1 ltac:(by apply mem_ok_bytes)) as Hf. cbn in Hf. cbn [mbind outcome_bind].
  rewrite skipn_firstn_comm. replace (Z.to_nat size - 25)%nat with (Z.to_nat (size - 25)) by lia.
  change (drop 25 (bytes p)) with (bytes (ptr_at p 25)).
  assert (mem_ok (ptr_at p 25)) by (apply mem_ok_ptr_at; [done|lia]).
  apply effecters_loop_sets; [done|..]; try lia.
  unfold mem_size in *. cbn. rewrite length_drop. lia.
Qed.

(** C33: The two nested loops over the possible states of a state effecter PDR (the macros
    of platform.h with the iterators behind them) give exactly the sets that the bytes of
    the PDR are, in order, whatever the bytes; when the PDR is too short for the sets it
    counts, the outer loop ends with one of the errors of the iterators.  It ends in every
    case, and reads nothing behind the size it was given. *)
Theorem possible_states_iteration p size :
  mem_ok p -> 0 <= size <= mem_size p ->
  match state_effecter_sets (take (Z.to_nat size) (bytes p)) with
  | Some ls => foreach_pldm_platform_state_effecter_pdr_possible_states p size = Ok (0, ls)
  | None => exists rc ls, errno rc /\
      foreach_pldm_platform_state_effecter_pdr_possible_states p size = Ok (rc, ls)
  end.
Proof.
  intros Hp Hn. unfold state_effecter_sets.
  assert (length (take (Z.to_nat size) (bytes p)) = Z.to_nat size) as ->
    by (rewrite length_take; unfold mem_size in Hn; lia).
  destruct (Nat.ltb_spec (Z.to_nat size) 26).
  - exists (- EOVERFLOW), []. split; [unfold errno; lia|].
    unfold foreach_pldm_platform_state_effecter_pdr_possible_states, pldm_platform_state_effecter_pdr_iter_init.
    by replace (size <? 26) with true by lia.
  - assert (slice 24 1 (take (Z.to_nat size) (bytes p)) = slice 24 1 (bytes p)) as ->.
    { unfold slice. rewrite skipn_firstn_comm, take_take. f_equal. lia. }
    apply foreach_sets; [done|lia].
Qed.

Lemma possible_states_iteration_witness :
  let p := CMem 4096 (repeat 0 24 ++ [2] ++ [196; 0; 2; 6; 1] ++ [3; 1; 1; 9] ++ [77]) in
  foreach_pldm_platform_state_effecter_pdr_possible_states p 34 = Ok (0, [(196, [6; 1]); (259, [9])]) /\
  exists rc ls, errno rc /\ foreach_pldm_platform_state_effecter_pdr_possible_states p 33 = Ok (rc, ls).
Proof.
  assert (mem_ok (CMem 4096 (repeat 0 24 ++ [2] ++ [196; 0; 2; 6; 1] ++ [3; 1; 1; 9] ++ [77]))) as Hp
    by (constructor; [by vm_compute..|]; apply (bool_decide_unpack (Forall (fun b => 0 <= b < 256) _)); by vm_compute).
  split.
  - exact (possible_states_iteration _ 34 Hp ltac:(by vm_compute)).
  - exact (possible_states_iteration _ 33 Hp ltac:(by vm_compute)).
Defined.

Lemma state_pdr_states a handle vt change hlen members count states :
  length handle = 4%nat -> length vt = 2%nat -> length change = 2%nat -> length hlen = 2%nat ->
  length members = 14%nat ->
  slice 24 1 (bytes (state_pdr a handle vt change hlen members count states)) = [count] /\
  drop 25 (bytes (state_pdr a handle vt change hlen members count states)) = states.
Proof.
  intros Hh Hv Hc Hl Hm. unfold state_pdr, slice. cbn [bytes].
  rewrite (app_assoc handle), (app_assoc _ change), (app_assoc _ hlen), (app_assoc _ members).
  set (pre := (_ ++ members)). assert (length pre = 24%nat) as Hpre by (unfold pre; rewrite !length_app; lia).
  split; [rewrite <- Hpre at 1; by rewrite drop_app_length|].
  rewrite (app_assoc pre). replace 25%nat with (length (pre ++ [count])) by (rewrite length_app; cbn; lia).
  apply drop_app_length.
Qed.

(** A state effecter PDR comes back: the encoder writes the version, the type, the
    length and the sets of possible states into the PDR, leaves every other byte as it
    was, and reports the size; the two loops over the result give the sets. *)
Theorem state_effecter_pdr_roundtrip a handle vt change hlen members ls room states_a actual0 :
  length handle = 4%nat -> length vt = 2%nat -> length change = 2%nat -> length hlen = 2%nat ->
  length members = 14%nat -> Forall set_ok ls -> (0 < length ls < 256)%nat ->
  len (sets_bytes ls) <= len room ->
  let before := state_pdr a handle vt change hlen members (Z.of_nat (length ls)) room in
  let size := 25 + len (sets_bytes ls) in
  let after := state_pdr a handle [1; PLDM_STATE_EFFECTER_PDR] change (le_enc 2 (u16 (size - 10))) members
                 (Z.of_nat (length ls)) (sets_bytes ls ++ drop (length (sets_bytes ls)) room) in
  mem_ok before ->
  encode_state_effecter_pdr (Some before) (25 + len room) (Some (CMem states_a (sets_bytes ls)))
    (len (sets_bytes ls)) (Some actual0) = Ok (PLDM_SUCCESS, Some after, Some size) /\
  foreach_pldm_platform_state_effecter_pdr_possible_states after size = Ok (0, ls).
Proof.
  intros Hh Hv Hc Hl Hm Hls Hn Hroom before size after Hb.
  assert (len members = 14) as Hm' by (unfold len; lia).
  assert (mem_size before = 25 + len room) as Hsize.
  { unfold before, state_pdr, mem_size, len. cbn [bytes]. rewrite !length_app. cbn. lia. }
  assert (mem_ok after /\ mem_size after = mem_size before) as [Ha Has].
  { destruct Hb as [Hb1 Hb2 Hb3 Hb4]. unfold mem_size in *. unfold before, after, state_pdr in *. cbn [bytes addr] in *.
    assert (length (handle ++ [1; PLDM_STATE_EFFECTER_PDR] ++ change ++ le_enc 2 (u16 (size - 10)) ++ members ++
              [Z.of_nat (length ls)] ++ sets_bytes ls ++ drop (length (sets_bytes ls)) room)
            = length (handle ++ vt ++ change ++ hlen ++ members ++ [Z.of_nat (length ls)] ++ room)) as E.
    { rewrite !length_app, le_enc_length, length_drop. unfold len in *. cbn. lia. }
    rewrite E. split; [|done]. constructor; unfold mem_size; cbn [bytes addr]; rewrite ?E; [done..|].
    rewrite !list.Forall_app in *. destruct Hb4 as (? & ? & ? & ? & ? & ? & ?).
    split_and!; try done; [repeat constructor; unfold byte_ok; lia|apply le_enc_ok|by apply sets_bytes_ok|by apply Forall_drop]. }
  split.
  - unfold encode_state_effecter_pdr.
    pose proof (encode_state_pdr_ok PLDM_STATE_EFFECTER_PDR a handle vt change hlen members ls room states_a actual0
      Hh Hv Hc Hl Hls ltac:(lia) Hroom) as E. cbn zeta in E. rewrite Hm' in E. apply E.
    destruct Hb as [_ _ Hb _]. lia.
  - pose proof (len_nonneg (sets_bytes ls)).
    assert (3 <= len (sets_bytes ls)).
    { destruct ls as [|s0 ls]; [cbn in Hn; lia|]. unfold sets_bytes. cbn [fmap list_fmap concat]. rewrite len_app.
      pose proof (len_nonneg (concat (set_bytes <$> ls))). unfold len at 1. rewrite set_bytes_length. lia. }
    pose proof (foreach_sets after size Ha ltac:(unfold size; lia)) as E. cbn zeta in E. unfold fld in E.
    destruct (state_pdr_states a handle [1; PLDM_STATE_EFFECTER_PDR] change (le_enc 2 (u16 (size - 10))) members
      (Z.of_nat (length ls)) (sets_bytes ls ++ drop (length (sets_bytes ls)) room)) as [E1 E2];
      [done..|apply le_enc_length|done|]. fold after in E1, E2. rewrite E1, skipn_firstn_comm, E2 in E.
    replace (Z.to_nat size - 25)%nat with (length (sets_bytes ls)) in E by (unfold size, len; lia).
    rewrite take_app_length in E. cbn [le_dec] in E. rewrite Z.mul_0_r, Z.add_0_r, Nat2Z.id in E.
    pose proof (read_sets_bytes ls [] Hls) as R. rewrite app_nil_r in R. by rewrite R in E.
Qed.

Lemma state_effecter_pdr_roundtrip_witness :
  let ls := [(196, [6; 1]); (259, [9])] in
  let pdr vt z sets := state_pdr 4096 [1; 0; 0; 0] vt [0; 0] z (repeat 0 14) 2 sets in
  let after := pdr [1; 11] [24; 0] (sets_bytes ls ++ [255; 255; 255]) in
  encode_state_effecter_pdr (Some (pdr [7; 9] [0; 0] (repeat 255 12))) 37
    (Some (CMem 8192 (sets_bytes ls))) 9 (Some 0) = Ok (PLDM_SUCCESS, Some after, Some 34) /\
  foreach_pldm_platform_state_effecter_pdr_possible_states after 34 = Ok (0, ls).
Proof.
  refine (state_effecter_pdr_roundtrip 4096 [1; 0; 0; 0] [7; 9] [0; 0] [0; 0] (repeat 0 14)
    [(196, [6; 1]); (259, [9])] (repeat 255 12) 8192 0 eq_refl eq_refl eq_refl eq_refl eq_refl _ _ _ _).
  - repeat constructor; cbn; lia.
  - cbn; lia.
  - by vm_compute.
  - constructor; [by vm_compute..|]. apply (bool_decide_unpack (Forall (fun b => 0 <= b < 256) _)). by vm_compute.
Defined.
