(* ===== verification/Downstream.v ===== *)
(** * Devices and their downstream devices (src/dsp/firmware_update.c)

    The commands an update agent asks a device with what it is, what firmware it has and
    which devices are behind it, with the iterators over the answers
    (include/libpldm/firmware_update.h), the request that starts the update of a
    downstream device, and the security revision. *)

From S2P Require Import Prelude Msgbuf Layout Base Legacy FwUpdate Package.

Abbreviation PLDM_REQUEST_DOWNSTREAM_DEVICE_UPDATE := 0x20 (only parsing).
Abbreviation PLDM_UPDATE_SECURITY_REVISION := 0x22 (only parsing).
Abbreviation PLDM_QUERY_DOWNSTREAM_DEVICES_RESP_BYTES := 10 (only parsing).
Abbreviation PLDM_QUERY_DOWNSTREAM_IDENTIFIERS_REQ_BYTES := 5 (only parsing).
Abbreviation PLDM_QUERY_DOWNSTREAM_IDENTIFIERS_RESP_MIN_LEN := 12 (only parsing).
Abbreviation PLDM_GET_DOWNSTREAM_FIRMWARE_PARAMETERS_REQ_BYTES := 5 (only parsing).
Abbreviation PLDM_GET_DOWNSTREAM_FIRMWARE_PARAMETERS_RESP_MIN_LEN := 12 (only parsing).
Abbreviation PLDM_DOWNSTREAM_DEVICE_PARAMETERS_ENTRY_MIN_LEN := 36 (only parsing).
Abbreviation PLDM_DOWNSTREAM_DEVICE_UPDATE_REQUEST_BYTES := 7 (only parsing).
Abbreviation PLDM_DOWNSTREAM_DEVICE_UPDATE_RESPONSE_MIN_BYTES := 4 (only parsing).
Abbreviation PLDM_DOWNSTREAM_DEVICE_UPDATE_RESPONSE_BYTES := 6 (only parsing).
Abbreviation PLDM_DOWNSTREAM_DEVICE_WILL_SEND_GET_PACKAGE_DATA := 2 (only parsing).
Abbreviation PLDM_FWUP_UPDATE_SECURITY_REVISION_REQ_BYTES := 5 (only parsing).
Abbreviation PLDM_FWUP_BASELINE_TRANSFER_SIZE := 32 (only parsing).
Abbreviation PLDM_FWUP_MIN_OUTSTANDING_REQ := 1 (only parsing).

Definition is_downstream_device_update_support_valid (resp : Z) : bool :=
  match resp with 0 | 1 => true | _ => false end.

Definition is_transfer_operation_flag_valid (transfer_op_flag : Z) : bool :=
  match transfer_op_flag with 0 | 1 => true | _ => false end.

(** [pldm_msgbuf_complete] where the caller's length is not written. *)
Definition complete_only (len : Z) : B (Z * Z) := rc ← pldm_msgbuf_rw_complete; mret (rc, len).

(** ** The device itself *)

Definition encode_query_device_identifiers_req (instance_id payload_length : Z) (msg : option pldm_msg)
  : outcome (Z * option pldm_msg) :=
  match msg with
  | None => Ok (PLDM_ERROR_INVALID_DATA, msg)
  | Some _ =>
    if negb (payload_length =? 0) then Ok (PLDM_ERROR_INVALID_LENGTH, msg)
    else encode_pldm_header_only PLDM_REQUEST instance_id PLDM_FWUP PLDM_QUERY_DEVICE_IDENTIFIERS msg
  end.

(** The outputs are the completion code, the length of the identifiers, the number of
    descriptors and the pointer to them; [None] if one of them is NULL. *)
Definition decode_query_device_identifiers_resp (msg : option pldm_msg) (payload_length : Z)
    (outs : option (Z * Z * Z * ptr)) : outcome (Z * option (Z * Z * Z * ptr)) :=
  match msg, outs with
  | Some m, Some (_, len, count, data) =>
    cc ← member m 0 1;
    if negb (cc =? PLDM_SUCCESS) then mret (PLDM_SUCCESS, Some (cc, len, count, data))
    else if payload_length <? 6 then mret (PLDM_ERROR_INVALID_LENGTH, Some (cc, len, count, data))
    else
    len ← member m 1 4;
    if len <? PLDM_FWUP_DEVICE_DESCRIPTOR_MIN_LEN then
      mret (PLDM_ERROR_INVALID_LENGTH, Some (cc, len, count, data))
    else if negb (payload_length =? u64 (6 + len)) then
      mret (PLDM_ERROR_INVALID_LENGTH, Some (cc, len, count, data))
    else
    count ← member m 5 1;
    if count =? 0 then mret (PLDM_ERROR_INVALID_DATA, Some (cc, len, count, data))
    else mret (PLDM_SUCCESS, Some (cc, len, count, Some (ptr_at (payload m) 6)))
  | _, _ => Ok (PLDM_ERROR_INVALID_DATA, outs)
  end.

Definition encode_get_firmware_parameters_req (instance_id payload_length : Z) (msg : option pldm_msg)
  : outcome (Z * option pldm_msg) :=
  match msg with
  | None => Ok (PLDM_ERROR_INVALID_DATA, msg)
  | Some _ =>
    if negb (payload_length =? 0) then Ok (PLDM_ERROR_INVALID_LENGTH, msg)
    else encode_pldm_header_only PLDM_REQUEST instance_id PLDM_FWUP PLDM_GET_FIRMWARE_PARAMETERS msg
  end.

Record pldm_get_firmware_parameters_resp := FwpResp {
  gfp_completion_code : Z; gfp_capabilities_during_update : Z; gfp_comp_count : Z;
  gfp_active_comp_image_set_ver_str_type : Z; gfp_active_comp_image_set_ver_str_len : Z;
  gfp_pending_comp_image_set_ver_str_type : Z; gfp_pending_comp_image_set_ver_str_len : Z
}.

(** A variable field that stands at [off], or is empty. *)
Definition field_or_null (m : cmem) (off n : Z) : variable_field :=
  if n =? 0 then VarField None 0 else VarField (Some (ptr_at m off)) n.

Definition decode_get_firmware_parameters_resp (msg : option pldm_msg) (payload_length : Z)
    (outs : option (pldm_get_firmware_parameters_resp * variable_field * variable_field * variable_field))
  : outcome (Z * option (pldm_get_firmware_parameters_resp * variable_field * variable_field * variable_field)) :=
  match msg, outs with
  | Some m, Some (FwpResp _ caps count atype alen ptype plen, active, pending, table) =>
    if payload_length =? 0 then Ok (PLDM_ERROR_INVALID_DATA, outs)
    else
    cc ← member m 0 1;
    let outs := Some (FwpResp cc caps count atype alen ptype plen, active, pending, table) in
    if negb (cc =? PLDM_SUCCESS) then mret (PLDM_SUCCESS, outs)
    else if payload_length <? 11 then mret (PLDM_ERROR_INVALID_LENGTH, outs)
    else
    atype ← member m 7 1;
    alen ← member m 8 1;
    if negb (is_string_type_valid atype) || (alen =? 0) then mret (PLDM_ERROR_INVALID_DATA, outs)
    else
    ptype ← member m 9 1;
    plen ← member m 10 1;
    if (if plen =? 0 then negb (ptype =? PLDM_STR_TYPE_UNKNOWN) else negb (is_string_type_valid ptype)) then
      mret (PLDM_ERROR_INVALID_DATA, outs)
    else
    let partial_response_length := 11 + alen + plen in
    if payload_length <? partial_response_length then mret (PLDM_ERROR_INVALID_LENGTH, outs)
    else
    caps ← member m 1 4;
    count ← member m 5 2;
    let table :=
      if (partial_response_length <? payload_length) && negb (count =? 0)
      then VarField (Some (ptr_at (payload m) (11 + alen + plen))) (payload_length - partial_response_length)
      else VarField None 0 in
    mret (PLDM_SUCCESS,
      Some (FwpResp cc caps count atype alen ptype plen,
        VarField (Some (ptr_at (payload m) 11)) alen,
        field_or_null (payload m) (11 + alen) plen, table))
  | _, _ => Ok (PLDM_ERROR_INVALID_DATA, outs)
  end.

Record pldm_component_parameter_entry := CompParam {
  cp_comp_classification : Z; cp_comp_identifier : Z; cp_comp_classification_index : Z;
  cp_active_comp_comparison_stamp : Z; cp_active_comp_ver_str_type : Z; cp_active_comp_ver_str_len : Z;
  cp_active_comp_release_date : list Z;
  cp_pending_comp_comparison_stamp : Z; cp_pending_comp_ver_str_type : Z; cp_pending_comp_ver_str_len : Z;
  cp_pending_comp_release_date : list Z;
  cp_comp_activation_methods : Z; cp_capabilities_during_update : Z
}.

(** [data] is the part of a component parameter table that is left. *)
Definition decode_get_firmware_parameters_resp_comp_entry (data : ptr) (length : Z)
    (outs : option (pldm_component_parameter_entry * variable_field * variable_field))
  : outcome (Z * option (pldm_component_parameter_entry * variable_field * variable_field)) :=
  match data, outs with
  | Some d, Some _ =>
    if length <? 39 then Ok (PLDM_ERROR_INVALID_LENGTH, outs)
    else
    alen ← mem_le d 10 1;
    plen ← mem_le d 24 1;
    if length <? 39 + alen + plen then Ok (PLDM_ERROR_INVALID_LENGTH, outs)
    else
    class ← mem_le d 0 2;
    id ← mem_le d 2 2;
    index ← mem_le d 4 1;
    astamp ← mem_le d 5 4;
    atype ← mem_le d 9 1;
    adate ← mem_read d 11 PLDM_FWUP_COMPONENT_RELEASE_DATA_LEN;
    pstamp ← mem_le d 19 4;
    ptype ← mem_le d 23 1;
    pdate ← mem_read d 25 PLDM_FWUP_COMPONENT_RELEASE_DATA_LEN;
    methods ← mem_le d 33 2;
    caps ← mem_le d 35 4;
    mret (PLDM_SUCCESS,
      Some (CompParam class id index astamp atype alen adate pstamp ptype plen pdate methods caps,
        field_or_null d 39 alen, field_or_null d (39 + alen) plen))
  | _, _ => Ok (PLDM_ERROR_INVALID_DATA, outs)
  end.

(** ** Downstream devices *)

Definition encode_query_downstream_devices_req (instance_id : Z) (msg : option pldm_msg)
  : Z * option pldm_msg :=
  match msg with
  | None => (- EINVAL, msg)
  | Some _ =>
    encode_pldm_header_only_errno PLDM_REQUEST instance_id PLDM_FWUP PLDM_QUERY_DOWNSTREAM_DEVICES msg
  end.

Record pldm_query_downstream_devices_resp := QdResp {
  qd_completion_code : Z; qd_downstream_device_update_supported : Z;
  qd_number_of_downstream_devices : Z; qd_max_number_of_downstream_devices : Z; qd_capabilities : Z
}.

Definition decode_query_downstream_devices_resp (msg : option pldm_msg) (payload_length : Z)
    (resp_data : option pldm_query_downstream_devices_resp)
  : outcome (Z * option pldm_query_downstream_devices_resp) :=
  match msg, resp_data with
  | Some m, Some (QdResp cc0 supported number max caps as r) =>
    if payload_length =? 0 then Ok (- EINVAL, resp_data)
    else
    '(rc, r) ← decode_frame 1 m payload_length r (
      checked_errno (pldm_msgbuf_extract KU8 cc0) (fun cc => QdResp cc supported number max caps) (fun cc =>
      let r := QdResp cc supported number max caps in
      if negb (cc =? PLDM_SUCCESS) then finish_errno pldm_msgbuf_ro_complete r
      else if payload_length <? PLDM_QUERY_DOWNSTREAM_DEVICES_RESP_BYTES then refuse (- EBADMSG) r
      else
      checked_errno (pldm_msgbuf_extract KU8 supported) (fun s => QdResp cc s number max caps) (fun supported =>
      if negb (is_downstream_device_update_support_valid supported) then
        refuse (- EINVAL) (QdResp cc supported number max caps)
      else
      '(_, number) ← pldm_msgbuf_extract KU16 number;
      '(_, max) ← pldm_msgbuf_extract KU16 max;
      '(_, caps) ← pldm_msgbuf_extract KU32 caps;
      finish_errno pldm_msgbuf_ro_complete_consumed (QdResp cc supported number max caps))));
    mret (rc, Some r)
  | _, _ => Ok (- EINVAL, resp_data)
  end.

Record pldm_query_downstream_identifiers_req := QiReq {
  qi_data_transfer_handle : Z; qi_transfer_operation_flag : Z
}.

Definition encode_query_downstream_identifiers_req (instance_id : Z)
    (params_req : option pldm_query_downstream_identifiers_req) (msg : option pldm_msg) (payload_length : Z)
  : outcome (Z * option pldm_msg) :=
  match msg, params_req with
  | Some m, Some (QiReq handle flag) =>
    if negb (is_transfer_operation_flag_valid flag) then Ok (- EINVAL, msg)
    else
    '(rc, m, _) ← encode_frame PLDM_REQUEST instance_id PLDM_FWUP PLDM_QUERY_DOWNSTREAM_IDENTIFIERS
        PLDM_QUERY_DOWNSTREAM_IDENTIFIERS_REQ_BYTES m payload_length (
      _ ← pldm_msgbuf_insert KU32 handle;
      _ ← pldm_msgbuf_insert KU8 flag;
      complete_only payload_length);
    mret (rc, m)
  | _, _ => Ok (- EINVAL, msg)
  end.

Record pldm_query_downstream_identifiers_resp := QiResp {
  qi_completion_code : Z; qi_next_data_transfer_handle : Z; qi_transfer_flag : Z;
  qi_downstream_devices_length : Z; qi_number_of_downstream_devices : Z
}.

Record pldm_downstream_device_iter := DevIter { dv_field : variable_field; dv_devs : Z }.

(** What is left of the outputs when a buffer is done: the iterator is set on success
    only, so [it] says what it becomes. *)
Definition set_iter_on {A I} (rc : Z) (r : A) (it new : I) : B (Z * (A * I)) :=
  mret (rc, (r, if rc =? 0 then new else it)).

Definition decode_query_downstream_identifiers_resp (msg : option pldm_msg) (payload_length : Z)
    (outs : option (pldm_query_downstream_identifiers_resp * pldm_downstream_device_iter))
  : outcome (Z * option (pldm_query_downstream_identifiers_resp * pldm_downstream_device_iter)) :=
  match msg, outs with
  | Some m, Some (QiResp cc0 next flag dlen number as r, it) =>
    if payload_length =? 0 then Ok (- EINVAL, outs)
    else
    '(rc, o) ← decode_frame 1 m payload_length (r, it) (
      checked_errno (pldm_msgbuf_extract KU8 cc0) (fun cc => (QiResp cc next flag dlen number, it)) (fun cc =>
      let o := (QiResp cc next flag dlen number, it) in
      if negb (cc =? PLDM_SUCCESS) then finish_errno pldm_msgbuf_ro_complete o
      else if payload_length <? PLDM_QUERY_DOWNSTREAM_IDENTIFIERS_RESP_MIN_LEN then refuse (- EBADMSG) o
      else
      '(_, next) ← pldm_msgbuf_extract KU32 next;
      '(_, flag) ← pldm_msgbuf_extract KU8 flag;
      checked_errno (pldm_msgbuf_extract KU32 dlen) (fun n => (QiResp cc next flag n number, it)) (fun dlen =>
      '(_, number) ← pldm_msgbuf_extract KU16 number;
      '(_, remaining) ← pldm_msgbuf_ro_span_required dlen (Some None);
      rc ← pldm_msgbuf_ro_complete;
      set_iter_on rc (QiResp cc next flag dlen number) it
        (DevIter (VarField (default None remaining) dlen) number))));
    mret (rc, Some o)
  | _, _ => Ok (- EINVAL, outs)
  end.

Definition pldm_downstream_device_iter_end (iter : pldm_downstream_device_iter) : bool := dv_devs iter =? 0.

Definition pldm_downstream_device_iter_next (iter : pldm_downstream_device_iter)
  : bool * pldm_downstream_device_iter :=
  if dv_devs iter =? 0 then (false, iter) else (true, DevIter (dv_field iter) (dv_devs iter - 1)).

Record pldm_downstream_device := DownDevice {
  downstream_device_index : Z; downstream_descriptor_count : Z
}.

Definition decode_pldm_downstream_device_from_iter (iter : option pldm_downstream_device_iter)
    (dev : option pldm_downstream_device)
  : outcome (Z * option pldm_downstream_device_iter * option pldm_downstream_device) :=
  match iter, dev with
  | Some (DevIter (VarField (Some p) n as f) devs), Some (DownDevice index count as d) =>
    '(rc, (f, d)) ← ro_scope p (
      rc ← pldm_msgbuf_ro_init_errno 3 p n;
      if_err rc return_ mret (rc, (f, d));;
      '(_, index) ← pldm_msgbuf_extract KU16 index;
      '(_, count) ← pldm_msgbuf_extract KU8 count;
      '(_, f) ← span_remaining_to f;
      rc ← pldm_msgbuf_ro_complete;
      mret (rc, (f, DownDevice index count)));
    mret (rc, Some (DevIter f devs), Some d)
  | _, _ => Ok (- EINVAL, iter, dev)
  end.

(** The descriptors of a device are taken from the field of the device iterator: what is
    behind them is where the next device starts. *)
Definition pldm_downstream_device_descriptor_iter_init (devs : pldm_downstream_device_iter)
    (dev : pldm_downstream_device) : pldm_descriptor_iter :=
  DescIter (Some (dv_field devs)) (downstream_descriptor_count dev).

(** [foreach_pldm_downstream_device_descriptor], with a body that collects; the field
    is the caller's. *)
Fixpoint descriptors_from (fuel : nat) (iter : pldm_descriptor_iter)
  : outcome (Z * option variable_field * list pldm_descriptor) :=
  match fuel with
  | O => Fault FFuel
  | S fuel =>
    if pldm_descriptor_iter_end iter then mret (0, di_field iter, [])
    else
    '(rc, i, d) ← decode_pldm_descriptor_from_iter (Some iter) (Some (Descriptor 0 0 None));
    match i, d with
    | Some i, Some d =>
      if_err rc return_ mret (rc, di_field i, []);;
      '(rc, f, ds) ← descriptors_from fuel (snd (pldm_descriptor_iter_next i));
      mret (rc, f, d :: ds)
    | _, _ => Fault FMemory
    end
  end.

(** The two loops of the documentation of the header, one in the other.  The body of
    the outer one leaves it where the inner one fails; [fuel] bounds the rounds of the
    outer one. *)
Fixpoint foreach_pldm_downstream_device (fuel : nat) (devs : pldm_downstream_device_iter)
  : outcome (Z * pldm_downstream_device_iter * list (pldm_downstream_device * list pldm_descriptor)) :=
  match fuel with
  | O => Fault FFuel
  | S fuel =>
    if pldm_downstream_device_iter_end devs then mret (0, devs, [])
    else
    '(rc, i, d) ← decode_pldm_downstream_device_from_iter (Some devs) (Some (DownDevice 0 0));
    match i, d with
    | Some i, Some d =>
      if_err rc return_ mret (rc, i, []);;
      let di := pldm_downstream_device_descriptor_iter_init i d in
      '(rc, f, ds) ← descriptors_from (S (Z.to_nat (di_count di))) di;
      let i := DevIter (default (dv_field i) f) (dv_devs i) in
      if_err rc return_ mret (rc, i, [(d, ds)]);;
      '(rc, i, xs) ← foreach_pldm_downstream_device fuel (snd (pldm_downstream_device_iter_next i));
      mret (rc, i, (d, ds) :: xs)
    | _, _ => Fault FMemory
    end
  end.

(** ** The firmware of downstream devices *)

Record pldm_get_downstream_firmware_parameters_req := GdReq {
  gd_data_transfer_handle : Z; gd_transfer_operation_flag : Z
}.

Definition encode_get_downstream_firmware_parameters_req (instance_id : Z)
    (params_req : option pldm_get_downstream_firmware_parameters_req) (msg : option pldm_msg)
    (payload_length : Z) : outcome (Z * option pldm_msg) :=
  match msg, params_req with
  | Some m, Some (GdReq handle flag) =>
    if negb (is_transfer_operation_flag_valid flag) then Ok (- EBADMSG, msg)
    else
    '(rc, m, _) ← encode_frame PLDM_REQUEST instance_id PLDM_FWUP PLDM_QUERY_DOWNSTREAM_FIRMWARE_PARAMETERS
        PLDM_GET_DOWNSTREAM_FIRMWARE_PARAMETERS_REQ_BYTES m payload_length (
      _ ← pldm_msgbuf_insert KU32 handle;
      _ ← pldm_msgbuf_insert KU8 flag;
      complete_only payload_length);
    mret (rc, m)
  | _, _ => Ok (- EINVAL, msg)
  end.

Record pldm_get_downstream_firmware_parameters_resp := GdResp {
  gd_completion_code : Z; gd_next_data_transfer_handle : Z; gd_transfer_flag : Z;
  gd_fdp_capabilities_during_update : Z; gd_downstream_device_count : Z
}.

Record pldm_downstream_device_parameters_iter := ParIter { dp_field : variable_field; dp_entries : Z }.

Definition decode_get_downstream_firmware_parameters_resp (msg : option pldm_msg) (payload_length : Z)
    (outs : option (pldm_get_downstream_firmware_parameters_resp * pldm_downstream_device_parameters_iter))
  : outcome (Z * option (pldm_get_downstream_firmware_parameters_resp * pldm_downstream_device_parameters_iter)) :=
  match msg, outs with
  | Some m, Some (GdResp cc0 next flag caps count as r, it) =>
    '(rc, o) ← decode_frame 1 m payload_length (r, it) (
      checked_errno (pldm_msgbuf_extract KU8 cc0) (fun cc => (GdResp cc next flag caps count, it)) (fun cc =>
      let o := (GdResp cc next flag caps count, it) in
      if negb (cc =? PLDM_SUCCESS) then finish_errno pldm_msgbuf_ro_complete o
      else if payload_length <? PLDM_GET_DOWNSTREAM_FIRMWARE_PARAMETERS_RESP_MIN_LEN then refuse (- EBADMSG) o
      else
      '(_, next) ← pldm_msgbuf_extract KU32 next;
      '(_, flag) ← pldm_msgbuf_extract KU8 flag;
      '(_, caps) ← pldm_msgbuf_extract KU32 caps;
      '(_, count) ← pldm_msgbuf_extract KU16 count;
      let r := GdResp cc next flag caps count in
      checked_errno (span_remaining_to (VarField None 0)) (fun _ => (r, it)) (fun f =>
      rc ← pldm_msgbuf_ro_complete;
      set_iter_on rc r it (ParIter f count))));
    mret (rc, Some o)
  | _, _ => Ok (- EINVAL, outs)
  end.

Definition pldm_downstream_device_parameters_iter_end (iter : pldm_downstream_device_parameters_iter) : bool :=
  dp_entries iter =? 0.

Definition pldm_downstream_device_parameters_iter_next (iter : pldm_downstream_device_parameters_iter)
  : bool * pldm_downstream_device_parameters_iter :=
  if dp_entries iter =? 0 then (false, iter) else (true, ParIter (dp_field iter) (dp_entries iter - 1)).

(** The dates are arrays of nine bytes, the last for a terminator. *)
Record pldm_downstream_device_parameters_entry := ParEntry {
  pe_downstream_device_index : Z;
  pe_active_comp_comparison_stamp : Z; pe_active_comp_ver_str_type : Z; pe_active_comp_ver_str_len : Z;
  pe_active_comp_release_date : list Z;
  pe_pending_comp_comparison_stamp : Z; pe_pending_comp_ver_str_type : Z; pe_pending_comp_ver_str_len : Z;
  pe_pending_comp_release_date : list Z;
  pe_comp_activation_methods : Z; pe_capabilities_during_update : Z;
  pe_active_comp_ver_str : ptr; pe_pending_comp_ver_str : ptr
}.

Definition extract_release_date (date : list Z) : B (Z * list Z) :=
  pldm_msgbuf_extract_array_char PLDM_FWUP_COMPONENT_RELEASE_DATA_LEN date (Z.of_nat (length date)).

Definition nul_terminated (date : list Z) : list Z := <[8%nat := 0]> date.

Definition decode_pldm_downstream_device_parameters_entry_from_iter
    (iter : option pldm_downstream_device_parameters_iter)
    (entry : option pldm_downstream_device_parameters_entry)
  : outcome (Z * option (pldm_downstream_device_parameters_iter * pldm_downstream_device_parameters_entry)) :=
  match iter, entry with
  | Some (ParIter (VarField (Some p) n) entries as it),
    Some (ParEntry index astamp atype alen adate pstamp ptype plen pdate methods caps avstr pvstr as e) =>
    '(rc, o) ← errno_scope PLDM_DOWNSTREAM_DEVICE_PARAMETERS_ENTRY_MIN_LEN p n (it, e) (
      '(_, index) ← pldm_msgbuf_extract KU16 index;
      '(_, astamp) ← pldm_msgbuf_extract KU32 astamp;
      '(_, atype) ← pldm_msgbuf_extract KU8 atype;
      checked_errno (pldm_msgbuf_extract KU8 alen)
        (fun alen => (it, ParEntry index astamp atype alen adate pstamp ptype plen pdate methods caps avstr pvstr)) (fun alen =>
      checked_errno (extract_release_date adate)
        (fun adate => (it, ParEntry index astamp atype alen adate pstamp ptype plen pdate methods caps avstr pvstr)) (fun adate =>
      let adate := nul_terminated adate in
      '(_, pstamp) ← pldm_msgbuf_extract KU32 pstamp;
      '(_, ptype) ← pldm_msgbuf_extract KU8 ptype;
      checked_errno (pldm_msgbuf_extract KU8 plen)
        (fun plen => (it, ParEntry index astamp atype alen adate pstamp ptype plen pdate methods caps avstr pvstr)) (fun plen =>
      checked_errno (extract_release_date pdate)
        (fun pdate => (it, ParEntry index astamp atype alen adate pstamp ptype plen pdate methods caps avstr pvstr)) (fun pdate =>
      let pdate := nul_terminated pdate in
      '(_, methods) ← pldm_msgbuf_extract KU16 methods;
      '(_, caps) ← pldm_msgbuf_extract KU32 caps;
      checked_errno (span_required_to alen (VarField None 0))
        (fun _ => (it, ParEntry index astamp atype alen adate pstamp ptype plen pdate methods caps avstr pvstr)) (fun f =>
      let avstr := vf_ptr f in
      checked_errno (span_required_to plen f)
        (fun _ => (it, ParEntry index astamp atype alen adate pstamp ptype plen pdate methods caps avstr pvstr)) (fun f =>
      let e := ParEntry index astamp atype alen adate pstamp ptype plen pdate methods caps avstr (vf_ptr f) in
      checked_errno (span_remaining_to (VarField None 0)) (fun _ => (it, e)) (fun rest =>
      finish_errno pldm_msgbuf_ro_complete (ParIter rest entries, e)))))))));
    mret (rc, Some o)
  | _, _ => Ok (- EINVAL, match iter, entry with Some i, Some e => Some (i, e) | _, _ => None end)
  end.

(** [foreach_pldm_downstream_device_parameters_entry]. *)
Fixpoint foreach_pldm_downstream_device_parameters_entry (fuel : nat)
    (params : pldm_downstream_device_parameters_iter) (entry : pldm_downstream_device_parameters_entry)
  : outcome (Z * pldm_downstream_device_parameters_iter * list pldm_downstream_device_parameters_entry) :=
  match fuel with
  | O => Fault FFuel
  | S fuel =>
    if pldm_downstream_device_parameters_iter_end params then mret (0, params, [])
    else
    '(rc, o) ← decode_pldm_downstream_device_parameters_entry_from_iter (Some params) (Some entry);
    match o with
    | Some (params, entry) =>
      if_err rc return_ mret (rc, params, []);;
      '(rc, params, es) ← foreach_pldm_downstream_device_parameters_entry fuel
          (snd (pldm_downstream_device_parameters_iter_next params)) entry;
      mret (rc, params, entry :: es)
    | None => Fault FMemory
    end
  end.

(** ** Updating a downstream device *)

Record pldm_request_downstream_device_update_req := RdReq {
  rd_maximum_downstream_device_transfer_size : Z; rd_maximum_outstanding_transfer_requests : Z;
  rd_downstream_device_package_data_length : Z
}.

Definition encode_request_downstream_device_update_req (instance_id : Z)
    (req_data : option pldm_request_downstream_device_update_req) (msg : option pldm_msg)
    (payload_length : option Z) : outcome (Z * option pldm_msg * option Z) :=
  match req_data, msg, payload_length with
  | Some (RdReq size outstanding pkg), Some m, Some len =>
    if (size <? PLDM_FWUP_BASELINE_TRANSFER_SIZE) || (outstanding <? PLDM_FWUP_MIN_OUTSTANDING_REQ) then
      Ok (- EINVAL, msg, payload_length)
    else
    encode_frame PLDM_REQUEST instance_id PLDM_FWUP PLDM_REQUEST_DOWNSTREAM_DEVICE_UPDATE
        PLDM_DOWNSTREAM_DEVICE_UPDATE_REQUEST_BYTES m len (
      _ ← pldm_msgbuf_insert KU32 size;
      _ ← pldm_msgbuf_insert KU8 outstanding;
      _ ← pldm_msgbuf_insert KU16 pkg;
      pldm_msgbuf_complete_used len len)
  | _, _, _ => Ok (- EINVAL, msg, payload_length)
  end.

Definition decode_request_downstream_device_update_req (msg : option pldm_msg) (payload_length : Z)
    (req : option pldm_request_downstream_device_update_req)
  : outcome (Z * option pldm_request_downstream_device_update_req) :=
  match msg, req with
  | Some m, Some (RdReq size outstanding pkg as r) =>
    '(rc, r) ← decode_frame PLDM_DOWNSTREAM_DEVICE_UPDATE_REQUEST_BYTES m payload_length r (
      '(_, size) ← pldm_msgbuf_extract KU32 size;
      '(_, outstanding) ← pldm_msgbuf_extract KU8 outstanding;
      '(_, pkg) ← pldm_msgbuf_extract KU16 pkg;
      finish_errno pldm_msgbuf_ro_complete_consumed (RdReq size outstanding pkg));
    mret (rc, Some r)
  | _, _ => Ok (- EINVAL, req)
  end.

Record pldm_request_downstream_device_update_resp := RdResp {
  rd_completion_code : Z; rd_downstream_device_meta_data_length : Z;
  rd_downstream_device_will_send_get_package_data : Z; rd_get_package_data_maximum_transfer_size : Z
}.

Definition encode_request_downstream_device_update_resp (instance_id : Z)
    (resp_data : option pldm_request_downstream_device_update_resp) (msg : option pldm_msg)
    (payload_length : option Z) : outcome (Z * option pldm_msg * option Z) :=
  match resp_data, msg, payload_length with
  | Some (RdResp cc meta will max), Some m, Some len =>
    encode_frame PLDM_RESPONSE instance_id PLDM_FWUP PLDM_REQUEST_DOWNSTREAM_DEVICE_UPDATE
        PLDM_DOWNSTREAM_DEVICE_UPDATE_RESPONSE_MIN_BYTES m len (
      _ ← pldm_msgbuf_insert KU8 cc;
      _ ← pldm_msgbuf_insert KU16 meta;
      _ ← pldm_msgbuf_insert KU8 will;
      _ ← (if will =? PLDM_DOWNSTREAM_DEVICE_WILL_SEND_GET_PACKAGE_DATA
           then pldm_msgbuf_insert KU16 max else mret 0);
      pldm_msgbuf_complete_used len len)
  | _, _, _ => Ok (- EINVAL, msg, payload_length)
  end.

(** The completion code is looked for in a payload of the constant size, whatever the
    length of this one. *)
Definition decode_request_downstream_device_update_resp (msg : option pldm_msg) (payload_length : Z)
    (resp_data : option pldm_request_downstream_device_update_resp)
  : outcome (Z * option pldm_request_downstream_device_update_resp) :=
  match msg, resp_data with
  | Some m, Some (RdResp cc meta will max as r) =>
    rc ← pldm_msg_has_error m PLDM_DOWNSTREAM_DEVICE_UPDATE_RESPONSE_BYTES;
    if negb (rc =? 0) then mret (0, Some (RdResp rc meta will max))
    else
    '(rc, r) ← decode_frame PLDM_DOWNSTREAM_DEVICE_UPDATE_RESPONSE_MIN_BYTES m payload_length r (
      '(_, cc) ← pldm_msgbuf_extract KU8 cc;
      '(_, meta) ← pldm_msgbuf_extract KU16 meta;
      '(_, will) ← pldm_msgbuf_extract KU8 will;
      max ← (if will =? PLDM_DOWNSTREAM_DEVICE_WILL_SEND_GET_PACKAGE_DATA
             then '(_, max) ← pldm_msgbuf_extract KU16 max; mret max else mret max);
      finish_errno pldm_msgbuf_ro_complete_consumed (RdResp cc meta will max));
    mret (rc, Some r)
  | _, _ => Ok (- EINVAL, resp_data)
  end.

(** ** Security revisions *)

Record pldm_fwup_update_security_revision_req := SrReq {
  sr_component_classification : Z; sr_component_identifier : Z; sr_component_classification_index : Z
}.

Definition encode_pldm_fwup_update_security_revision_req (instance_id : Z)
    (req : option pldm_fwup_update_security_revision_req) (msg : option pldm_msg)
    (payload_length : option Z) : outcome (Z * option pldm_msg * option Z) :=
  match req, msg, payload_length with
  | Some (SrReq class id index), Some m, Some len =>
    encode_frame PLDM_REQUEST instance_id PLDM_FWUP PLDM_UPDATE_SECURITY_REVISION
        PLDM_FWUP_UPDATE_SECURITY_REVISION_REQ_BYTES m len (
      _ ← pldm_msgbuf_insert KU16 class;
      _ ← pldm_msgbuf_insert KU16 id;
      _ ← pldm_msgbuf_insert KU8 index;
      pldm_msgbuf_complete_used len len)
  | _, _, _ => Ok (- EINVAL, msg, payload_length)
  end.

Definition decode_pldm_fwup_update_security_revision_resp (msg : option pldm_msg) (payload_length : Z)
    (completion_code : option Z) : outcome (Z * option Z) :=
  match msg, completion_code with
  | Some m, Some cc =>
    '(rc, cc) ← decode_frame 1 m payload_length cc (
      '(_, cc) ← pldm_msgbuf_extract KU8 cc;
      finish_errno pldm_msgbuf_ro_complete_consumed cc);
    mret (rc, Some cc)
  | _, _ => Ok (- EINVAL, completion_code)
  end.
