(* ===== verification/DownstreamProps.v ===== *)
(** * Downstream devices: any bytes, and the answers of a device read back

    What one step of the iterators over downstream devices and their firmware does, for
    any bytes; that the loops end inside the message; and that they find the devices and
    descriptors a response was laid out from. *)

From S2P Require Import Prelude Msgbuf Layout Base Legacy Safety FwUpdate Package PackageSpec PackageProps PackageRuns PackageRound Exchange PlatformSafe PlatformRound Downstream.

(** ** One step of an iterator *)

Section steps.
Context (m : cmem) (n : Z).
Hypothesis Hm : mem_ok m.
Hypothesis Hn : 0 <= n <= mem_size m.

Definition device_at : pldm_downstream_device := DownDevice (fld m 0 2) (fld m 2 1).

Lemma device_from_iter_ok devs d :
  exists rc f d',
    decode_pldm_downstream_device_from_iter (Some (DevIter (VarField (Some m) n) devs)) (Some d)
    = Ok (rc, Some (DevIter f devs), Some d') /\
    if 3 <=? n then rc = 0 /\ f = field_at m 3 (n - 3) /\ d' = device_at else rc = - EOVERFLOW.
Proof.
  destruct d as [index count]. unfold decode_pldm_downstream_device_from_iter.
  match goal with |- context [ro_scope ?x ?k] =>
    destruct (ro_scope_wp x k (fun '(rc, (f, d')) =>
      if 3 <=? n then rc = 0 /\ f = field_at m 3 (n - 3) /\ d' = device_at else rc = - EOVERFLOW))
      as ([rc [f d']] & E & H) end.
  2: { rewrite E. cbn [mbind outcome_bind]. by exists rc, f, d'. }
  destruct Hm. autounfold with msgbuf. apply wp_bind. apply (wp_init_rd m n); [lia..|]. intros b _.
  destruct (Z.leb_spec 3 n); cbn [Z.eqb Z.opp]; [intros Hb|intros; by apply wp_ret].
  do 2 pk_extract. apply wp_bind. eapply wp_remaining_to; [exact Hb|..]; intros Hle b4 Hb4; [|lia].
  pk_complete. apply wp_ret. split; [done|]. by replace (n <=? n) with true by lia.
Qed.

(** The strings of an entry of the parameter table follow its fixed part. *)
Definition entry_total : Z := 36 + fld m 7 1 + fld m 21 1.

Definition nul_date (off : nat) : list Z := slice off 8 (bytes m) ++ [0].

Definition entry_at : pldm_downstream_device_parameters_entry :=
  ParEntry (fld m 0 2) (fld m 2 4) (fld m 6 1) (fld m 7 1) (nul_date 8) (fld m 16 4) (fld m 20 1) (fld m 21 1)
    (nul_date 22) (fld m 30 2) (fld m 32 4) (Some (ptr_at m 36)) (Some (ptr_at m (36 + fld m 7 1))).
End steps.
Section entry.
Context (m : cmem) (n : Z).
Hypothesis Hm : mem_ok m.
Hypothesis Hn : 0 <= n <= mem_size m.

Lemma nul_terminated_date off d :
  (off + 8 <= length (bytes m))%nat -> length d = 9%nat ->
  nul_terminated (splice 0 (slice off 8 (bytes m)) d) = nul_date m off.
Proof.
  intros Hl Hd. unfold nul_terminated, nul_date. assert (length (slice off 8 (bytes m)) = 8%nat) as Hs by (rewrite length_slice; lia).
  generalize dependent (slice off 8 (bytes m)). intros s Hs. unfold splice. cbn [Nat.add]. rewrite Hs. destruct (drop 8 d) as [|x r] eqn:E.
  { apply (f_equal length) in E. rewrite length_drop in E. cbn in E. lia. }
  assert (r = []) as ->. { apply (f_equal length) in E. rewrite length_drop in E. destruct r; [done|cbn in E; lia]. }
  change (take 0 d ++ s ++ [x]) with (s ++ [x]). rewrite (insert_app_r_alt s) by lia. by rewrite Hs.
Qed.

Ltac in_entry := unfold checked_errno at 1; pk_extract.

Lemma wp_date m' len' c d b (Q : Z * list Z -> msgbuf -> Prop) :
  mb_rd m' len' c b -> length d = 9%nat -> c + 8 <= len' -> len' <= INTMAX_MAX ->
  (forall b', mb_rd m' len' (c + 8) b' -> Q (0, splice 0 (slice (Z.to_nat c) 8 (bytes m')) d) b') ->
  wp (extract_release_date d) b Q.
Proof.
  intros Hb Hd Hc Hl HQ. unfold extract_release_date, pldm_msgbuf_extract_array_char. rewrite Hd.
  eapply (wp_extract_array_rd m' len'); [exact Hb|lia|lia|lia|].
  intros b' Hb'. cbn [Z.ltb Z.compare] in *. replace (Z.of_nat 9 <? 8) with false in * by done.
  replace (c + 8 <=? len') with true by lia. by apply HQ.
Qed.

Lemma entry_from_iter_ok entries e :
  length (pe_active_comp_release_date e) = 9%nat -> length (pe_pending_comp_release_date e) = 9%nat ->
  exists rc it e',
    decode_pldm_downstream_device_parameters_entry_from_iter (Some (ParIter (VarField (Some m) n) entries)) (Some e)
    = Ok (rc, Some (it, e')) /\
    if (36 <=? n) && (entry_total m <=? n)
    then rc = 0 /\ it = ParIter (field_at m (entry_total m) (n - entry_total m)) entries /\ e' = entry_at m
    else rc = - EOVERFLOW.
Proof.
  destruct e as [index astamp atype alen adate pstamp ptype plen pdate methods caps avstr pvstr].
  cbn [pe_active_comp_release_date pe_pending_comp_release_date]. intros Ha Hp.
  unfold decode_pldm_downstream_device_parameters_entry_from_iter.
  match goal with |- context [errno_scope 36 m n ?i ?k] =>
    assert (exists rc o, errno_scope 36 m n i k = Ok (rc, o) /\
      if (36 <=? n) && (entry_total m <=? n)
      then rc = 0 /\ o = (ParIter (field_at m (entry_total m) (n - entry_total m)) entries, entry_at m)
      else rc = - EOVERFLOW) as (rc & [it e] & -> & H) end.
  2: { cbn [mbind outcome_bind]. do 3 eexists. split; [reflexivity|]. destruct (_ && _); naive_solver. }
  pose proof (fld_bound m 7 1 (mem_ok_bytes _ Hm)) as Hal. pose proof (fld_bound m 21 1 (mem_ok_bytes _ Hm)) as Hpl.
  unfold errno_scope.
  match goal with |- context [msgbuf_scope ?x ?k] =>
    destruct (msgbuf_scope_wp x k (fun '(rc, o) _ => if (36 <=? n) && (entry_total m <=? n)
      then rc = 0 /\ o = (ParIter (field_at m (entry_total m) (n - entry_total m)) entries, entry_at m)
      else rc = - EOVERFLOW)) as ([rc o] & mx & -> & H) end.
  2: { cbn [mbind outcome_bind]. by exists rc, o. }
  pose proof Hm as []. assert (Z.of_nat (length (bytes m)) = mem_size m) as Hsize by done.
  autounfold with msgbuf. apply wp_bind. apply (wp_init_rd m n); [lia..|]. intros b _.
  destruct (Z.leb_spec 36 n); cbn [Z.eqb Z.opp andb]; [intros Hb|intros; by apply wp_ret].
  do 3 pk_extract. in_entry. unfold checked_errno at 1. apply wp_bind.
  eapply wp_date; [exact Hb|done|lia|lia|]. clear Hb. intros bd1 Hb. cbn [Z.eqb negb Z.add Pos.add Pos.succ Z.to_nat Pos.to_nat Pos.iter_op Init.Nat.add].
  rewrite nul_terminated_date by (done || lia).
  do 2 pk_extract. in_entry. unfold checked_errno at 1. apply wp_bind.
  eapply wp_date; [exact Hb|done|lia|lia|]. clear Hb. intros bd2 Hb. cbn [Z.eqb negb Z.add Pos.add Pos.succ Z.to_nat Pos.to_nat Pos.iter_op Init.Nat.add].
  rewrite nul_terminated_date by (done || lia).
  do 2 pk_extract. unfold checked_errno at 1. pk_span. unfold entry_total.
  destruct (Z.leb_spec (36 + fld m 7 1) n) as [Hle|Hgt]; cbn [Z.eqb Z.opp].
  2: { apply wp_bind, wp_discard. intros bd3 Hd _. apply wp_ret. split; [done|]. by replace (_ <=? n) with false by lia. }
  unfold checked_errno at 1. pk_span.
  destruct (Z.leb_spec (36 + fld m 7 1 + fld m 21 1) n) as [Hle'|Hgt]; cbn [Z.eqb Z.opp].
  2: { apply wp_bind, wp_discard. intros bd3 Hd _. apply wp_ret. by split. }
  unfold checked_errno at 1. apply wp_bind. eapply wp_remaining_to; [exact Hb|..]; intros Hle2 bd9 Hb9; [|lia].
  cbn [Z.eqb]. unfold finish_errno. pk_complete. apply wp_ret. split; [done|]. by replace (n <=? n) with true by lia.
Qed.
End entry.

(** ** The loops, over any bytes *)

Section loops.
Context (m : cmem) (len : Z).
Hypothesis Hm : mem_ok m.
Hypothesis Hlen : 0 <= len <= mem_size m.

Lemma descriptors_from_ok fuel f n :
  field_inside m len f -> 0 <= n < Z.of_nat fuel ->
  exists rc f' ds, descriptors_from fuel (DescIter (Some f) n) = Ok (rc, Some f', ds) /\
    (rc = - EOVERFLOW \/ rc = 0 /\ field_inside m len f' /\ Layout.len ds = n) /\
    Forall (descriptor_inside m len) ds.
Proof.
  revert f n. induction fuel as [|fuel IH]; intros f n Hf Hn; [lia|].
  cbn [descriptors_from]. unfold pldm_descriptor_iter_end. cbn [di_count].
  destruct (Z.eqb_spec n 0); [do 3 eexists; split; [reflexivity|]; split; [by right|done]|].
  destruct (descriptor_step m len Hm Hlen f n) as (rc & f' & d & -> & [-> | (-> & Hf' & Hd)]); [done|..];
    cbn [mbind outcome_bind Z.eqb Z.opp].
  { do 3 eexists. split; [reflexivity|]. split; [by left|done]. }
  unfold pldm_descriptor_iter_next. cbn [di_count di_field]. replace (n =? 0) with false by lia. cbn [snd].
  destruct (IH f' (n - 1)) as (rc & f2 & ds & -> & Hrc & Hds); [done|lia|].
  cbn [mbind outcome_bind]. do 3 eexists. split; [reflexivity|]. split; [|by constructor].
  destruct Hrc as [-> | (-> & ? & ?)]; [by left|right]. split_and!; [done|done|]. rewrite len_cons. lia.
Qed.

Definition devices_inside (x : pldm_downstream_device * list pldm_descriptor) : Prop :=
  Forall (descriptor_inside m len) x.2.

(** As many devices as announced, or until one of them or of their descriptors does not
    fit. *)
Lemma foreach_device_ok fuel f devs :
  field_inside m len f -> 0 <= devs < Z.of_nat fuel ->
  exists rc it xs, foreach_pldm_downstream_device fuel (DevIter f devs) = Ok (rc, it, xs) /\
    (rc = - EOVERFLOW \/ rc = 0 /\ dv_devs it = 0 /\ Layout.len xs = devs) /\ Forall devices_inside xs.
Proof.
  revert f devs. induction fuel as [|fuel IH]; intros f devs Hf Hn; [lia|].
  cbn [foreach_pldm_downstream_device]. unfold pldm_downstream_device_iter_end. cbn [dv_devs].
  destruct (Z.eqb_spec devs 0); [do 3 eexists; split; [reflexivity|]; split; [by right|done]|].
  destruct f as [[q|] sz]; destruct Hf as [[Hsz Hf] Hne]; [|done]. destruct Hf as (k & Hk & Hkl & ->). cbn [vf_length vf_ptr] in *.
  destruct (device_from_iter_ok (ptr_at m k) sz) with (devs := devs) (d := DownDevice 0 0) as (rc & f & d & -> & H).
  { apply mem_ok_ptr_at; [done|lia]. } { rewrite mem_size_ptr_at; lia. }
  cbn [mbind outcome_bind]. destruct (Z.leb_spec 3 sz); cbn [Z.eqb Z.opp] in H.
  2: { subst. cbn [Z.eqb Z.opp]. do 3 eexists. split; [reflexivity|]. split; [by left|done]. }
  destruct H as (-> & -> & ->). cbn [Z.eqb]. unfold pldm_downstream_device_descriptor_iter_init. cbn [dv_field di_count dv_devs].
  assert (bytes_ok (bytes (ptr_at m k))) as Hbs by (apply Forall_drop, Hm).
  pose proof (fld_bound (ptr_at m k) 2 1 Hbs) as Hc. cbn [device_at downstream_descriptor_count].
  destruct (descriptors_from_ok (S (Z.to_nat (fld (ptr_at m k) 2 1))) (field_at (ptr_at m k) 3 (sz - 3))
    (fld (ptr_at m k) 2 1)) as (rc & f' & ds & -> & Hrc & Hds); [apply field_inside_at; lia|lia|].
  cbn [mbind outcome_bind from_option]. unfold id. destruct Hrc as [-> | (-> & Hf' & Hl)]; cbn [Z.eqb Z.opp].
  { do 3 eexists. split; [reflexivity|]. split; [by left|]. by constructor. }
  unfold pldm_downstream_device_iter_next. cbn [dv_devs dv_field]. replace (devs =? 0) with false by lia. cbn [snd].
  destruct (IH f' (devs - 1)) as (rc & it & xs & -> & Hrc & Hxs); [done|lia|].
  cbn [mbind outcome_bind]. do 3 eexists. split; [reflexivity|]. split; [|by constructor].
  destruct Hrc as [-> | (-> & ? & ?)]; [by left|right]. split_and!; [done|done|]. rewrite len_cons. lia.
Qed.

(** The strings of an entry are inside and its dates are terminated. *)
Definition entry_inside (e : pldm_downstream_device_parameters_entry) : Prop :=
  inside m len (VarField (pe_active_comp_ver_str e) (pe_active_comp_ver_str_len e)) /\
  inside m len (VarField (pe_pending_comp_ver_str e) (pe_pending_comp_ver_str_len e)) /\
  pe_active_comp_release_date e !! 8%nat = Some 0 /\ pe_pending_comp_release_date e !! 8%nat = Some 0.

Definition dates_fit (e : pldm_downstream_device_parameters_entry) : Prop :=
  length (pe_active_comp_release_date e) = 9%nat /\ length (pe_pending_comp_release_date e) = 9%nat.

Lemma nul_date_shape (q : cmem) off :
  (off + 8 <= length (bytes q))%nat -> length (nul_date q off) = 9%nat /\ nul_date q off !! 8%nat = Some 0.
Proof.
  intros Hq. unfold nul_date. assert (length (slice off 8 (bytes q)) = 8%nat) as Hs by (rewrite length_slice; lia).
  rewrite length_app, Hs. split; [done|]. by rewrite lookup_app_r, Hs by lia.
Qed.

Lemma foreach_entry_ok fuel f n e :
  field_inside m len f -> 0 <= n < Z.of_nat fuel -> dates_fit e ->
  exists rc it es, foreach_pldm_downstream_device_parameters_entry fuel (ParIter f n) e = Ok (rc, it, es) /\
    (rc = - EOVERFLOW \/ rc = 0 /\ dp_entries it = 0 /\ Layout.len es = n) /\ Forall entry_inside es.
Proof.
  revert f n e. induction fuel as [|fuel IH]; intros f n e Hf Hn [Ha Hp]; [lia|].
  cbn [foreach_pldm_downstream_device_parameters_entry]. unfold pldm_downstream_device_parameters_iter_end. cbn [dp_entries].
  destruct (Z.eqb_spec n 0); [do 3 eexists; split; [reflexivity|]; split; [by right|done]|].
  destruct f as [[q|] sz]; destruct Hf as [[Hsz Hf] Hne]; [|done]. destruct Hf as (k & Hk & Hkl & ->). cbn [vf_length vf_ptr] in *.
  assert (mem_ok (ptr_at m k)) as Hq by (apply mem_ok_ptr_at; [done|lia]).
  assert (mem_size (ptr_at m k) = mem_size m - k) as Hqs by (apply mem_size_ptr_at; lia).
  destruct (entry_from_iter_ok (ptr_at m k) sz Hq ltac:(lia) n e Ha Hp) as (rc & it & e' & -> & H).
  cbn [mbind outcome_bind]. destruct (Z.leb_spec 36 sz); cbn [andb] in H.
  2: { subst. cbn [Z.eqb Z.opp]. do 3 eexists. split; [reflexivity|]. split; [by left|done]. }
  pose proof (fld_bound (ptr_at m k) 7 1 (mem_ok_bytes _ Hq)) as Hal.
  pose proof (fld_bound (ptr_at m k) 21 1 (mem_ok_bytes _ Hq)) as Hpl.
  unfold entry_total in H. destruct (Z.leb_spec (36 + fld (ptr_at m k) 7 1 + fld (ptr_at m k) 21 1) sz).
  2: { subst. cbn [Z.eqb Z.opp]. do 3 eexists. split; [reflexivity|]. split; [by left|done]. }
  destruct H as (-> & -> & ->). cbn [Z.eqb]. unfold pldm_downstream_device_parameters_iter_next. cbn [dp_entries dp_field].
  replace (n =? 0) with false by lia. cbn [snd].
  assert (36 <= length (bytes (ptr_at m k)))%nat as Hb by (assert (Z.of_nat (length (bytes (ptr_at m k))) = mem_size (ptr_at m k)) by done; lia).
  destruct (nul_date_shape (ptr_at m k) 8) as [Ha1 Ha2]; [lia|]. destruct (nul_date_shape (ptr_at m k) 22) as [Hp1 Hp2]; [lia|].
  edestruct (IH (field_at (ptr_at m k) (36 + fld (ptr_at m k) 7 1 + fld (ptr_at m k) 21 1)
    (sz - (36 + fld (ptr_at m k) 7 1 + fld (ptr_at m k) 21 1))) (n - 1) (entry_at (ptr_at m k)))
    as (rc & it & es & -> & Hrc & Hes); [apply field_inside_at; lia|lia|by split|].
  cbn [mbind outcome_bind]. do 3 eexists. split; [reflexivity|]. split.
  { destruct Hrc as [-> | (-> & ? & ?)]; [by left|right]. split_and!; [done|done|]. rewrite len_cons. lia. }
  constructor; [|done]. unfold entry_inside, entry_at. cbn [pe_active_comp_ver_str pe_active_comp_ver_str_len pe_pending_comp_ver_str pe_pending_comp_ver_str_len pe_active_comp_release_date pe_pending_comp_release_date].
  split_and!; [apply (inside_at m len k 36 (fld (ptr_at m k) 7 1)); lia
    |apply (inside_at m len k (36 + fld (ptr_at m k) 7 1) (fld (ptr_at m k) 21 1)); lia|exact Ha2|exact Hp2].
Qed.
End loops.

(** ** The fixed part of the answers *)

Section answers.
Context (h : pldm_msg_hdr) (m : cmem) (n : Z).
Hypothesis Hm : mem_ok m.
Hypothesis Hn : 0 <= n <= mem_size m.

Definition identifiers_at : pldm_query_downstream_identifiers_resp * pldm_downstream_device_iter :=
  (QiResp 0 (fld m 1 4) (fld m 5 1) (fld m 6 4) (fld m 10 2), DevIter (field_at m 12 (fld m 6 4)) (fld m 10 2)).

(** Success is an error of the device, or the whole answer. *)
Lemma identifiers_resp_ok r it :
  exists rc o, decode_query_downstream_identifiers_resp (Some (Msg h m)) n (Some (r, it)) = Ok (rc, Some o) /\
    (rc = 0 \/ errno rc) /\
    (rc = 0 -> (qi_completion_code o.1 <> 0 /\ o.2 = it) \/ (12 + fld m 6 4 <= n /\ o = identifiers_at)) /\
    (fld m 0 1 = 0 -> 12 + fld m 6 4 <= n -> rc = 0 /\ o = identifiers_at).
Proof.
  destruct r as [cc0 next flag dlen number]. unfold decode_query_downstream_identifiers_resp.
  pose proof (fld_bound m 6 4 (mem_ok_bytes _ Hm)) as Hd. unfold errno.
  destruct (Z.eqb_spec n 0). { do 2 eexists. split; [reflexivity|]. split_and!; [lia|lia|lia]. }
  match goal with |- context [decode_frame 1 ?x n ?i ?k] =>
    destruct (decode_frame_fits 1 x n Hm Hn i k (fun rc o =>
      (rc = 0 \/ errno rc) /\
      (rc = 0 -> (qi_completion_code o.1 <> 0 /\ o.2 = it) \/ (12 + fld m 6 4 <= n /\ o = identifiers_at)) /\
      (fld m 0 1 = 0 -> 12 + fld m 6 4 <= n -> rc = 0 /\ o = identifiers_at))) as (rc & o & -> & H) end; [lia| |].
  2: { cbn [mbind outcome_bind]. by exists rc, o. }
  cbn [payload] in *. intros b Hb. unfold checked_errno at 1. pk_extract.
  destruct (Z.eqb_spec (fld m 0 1) 0) as [Hcc|Hcc]; cbn [negb].
  2: { unfold finish_errno. pk_complete. apply wp_ret. split; [done|]. replace (1 <=? n) with true by lia.
       split_and!; [by left| |done]. intros _. left. done. }
  cmp_case.
  { unfold refuse. apply wp_bind, wp_discard. intros b2 Hd2 _. apply wp_ret. split; [done|]. unfold errno. lia. }
  do 2 pk_extract. unfold checked_errno at 1. do 2 pk_extract. mb_span.
  assert (exists rcs p, (if 12 + fld m 6 4 <=? n then (0, Some (Some (ptr_at m 12))) else (- EOVERFLOW, Some None))
    = (rcs, p) /\ (12 + fld m 6 4 <= n -> p = Some (Some (ptr_at m 12)))) as (rcs & p & -> & Hp).
  { destruct (Z.leb_spec (12 + fld m 6 4) n); do 2 eexists; (split; [reflexivity|]); [done|lia]. }
  pk_complete. unfold set_iter_on. apply wp_ret. split; [done|]. unfold identifiers_at. rewrite Hcc.
  destruct (Z.leb_spec (12 + fld m 6 4) n).
  - rewrite Hp by lia. cbn [Z.eqb]. split_and!; [by left|by right|done].
  - split_and!; [right; unfold errno; lia|done|lia].
Qed.

Definition parameters_at : pldm_get_downstream_firmware_parameters_resp * pldm_downstream_device_parameters_iter :=
  (GdResp 0 (fld m 1 4) (fld m 5 1) (fld m 6 4) (fld m 10 2), ParIter (field_at m 12 (n - 12)) (fld m 10 2)).

Lemma parameters_resp_ok r it :
  exists rc o, decode_get_downstream_firmware_parameters_resp (Some (Msg h m)) n (Some (r, it)) = Ok (rc, Some o) /\
    (rc = 0 \/ errno rc) /\
    (rc = 0 -> (gd_completion_code o.1 <> 0 /\ o.2 = it) \/ (12 <= n /\ o = parameters_at)) /\
    (fld m 0 1 = 0 -> 12 <= n -> rc = 0 /\ o = parameters_at).
Proof.
  destruct r as [cc0 next flag caps count]. unfold decode_get_downstream_firmware_parameters_resp. unfold errno.
  destruct (Z.ltb_spec n 1).
  { rewrite decode_frame_short by lia. do 2 eexists. split; [reflexivity|]. split_and!; [lia|lia|lia]. }
  match goal with |- context [decode_frame 1 ?x n ?i ?k] =>
    destruct (decode_frame_fits 1 x n Hm Hn i k (fun rc o =>
      (rc = 0 \/ errno rc) /\
      (rc = 0 -> (gd_completion_code o.1 <> 0 /\ o.2 = it) \/ (12 <= n /\ o = parameters_at)) /\
      (fld m 0 1 = 0 -> 12 <= n -> rc = 0 /\ o = parameters_at))) as (rc & o & -> & H2) end; [lia| |].
  2: { cbn [mbind outcome_bind]. by exists rc, o. }
  cbn [payload] in *. intros b Hb. unfold checked_errno at 1. pk_extract.
  destruct (Z.eqb_spec (fld m 0 1) 0) as [Hcc|Hcc]; cbn [negb].
  2: { unfold finish_errno. pk_complete. apply wp_ret. split; [done|]. replace (1 <=? n) with true by lia.
       split_and!; [by left| |done]. intros _. left. done. }
  cmp_case.
  { unfold refuse. apply wp_bind, wp_discard. intros b2 Hd2 _. apply wp_ret. split; [done|]. unfold errno. lia. }
  do 4 pk_extract. unfold checked_errno at 1. apply wp_bind.
  eapply wp_remaining_to; [exact Hb|..]; intros Hle b9 Hb9; [|lia]. cbn [Z.eqb].
  pk_complete. unfold set_iter_on. apply wp_ret. split; [done|]. unfold parameters_at. rewrite Hcc.
  replace (n <=? n) with true by lia. cbn [Z.eqb]. split_and!; [by left|by right|done].
Qed.

Lemma devices_answer_safe r : returns errno anything (decode_query_downstream_devices_resp (Some (Msg h m)) n r).
Proof. destruct r as [[]|]; safe_decoder. Qed.

Lemma update_answer_safe r :
  r = None \/ 1 <= mem_size m -> returns errno anything (decode_request_downstream_device_update_resp (Some (Msg h m)) n r).
Proof.
  intros [->|Hs]; [safe_decoder|]. destruct r as [[]|]; [|safe_decoder]. unfold decode_request_downstream_device_update_resp.
  change (pldm_msg_has_error (Msg h m) 6) with (member (Msg h m) 0 1).
  repeat safe_scope; safe_more; try done.
Qed.

(** Two decoders read the completion code although the payload is empty. *)
Lemma update_answer_reads_past r :
  mem_size m = 0 -> decode_request_downstream_device_update_resp (Some (Msg h m)) n (Some r) = Fault FMemory.
Proof.
  intros Hz. destruct r. unfold decode_request_downstream_device_update_resp.
  change (pldm_msg_has_error (Msg h m) 6) with (mem_read m 0 1 ≫= fun l => mret (le_dec l)).
  by rewrite mem_read_outside by lia.
Qed.

Lemma identifiers_answer_reads_past outs :
  mem_size m = 0 -> decode_query_device_identifiers_resp (Some (Msg h m)) n (Some outs) = Fault FMemory.
Proof.
  intros Hz. destruct outs as [[[cc len] count] data]. unfold decode_query_device_identifiers_resp, member, payload_read.
  cbn [payload]. by rewrite (mem_read_outside m 0 1) by lia.
Qed.

Lemma update_request_safe r : returns errno anything (decode_request_downstream_device_update_req (Some (Msg h m)) n r).
Proof. destruct r as [[]|]; safe_decoder. Qed.

Lemma revision_answer_safe r :
  returns errno anything (decode_pldm_fwup_update_security_revision_resp (Some (Msg h m)) n r).
Proof. safe_decoder. Qed.

(** What the older decoders point to when they succeed. *)
Definition identifiers_inside (o : option (Z * Z * Z * ptr)) : Prop :=
  match o with
  | Some (cc, len, count, data) => cc = PLDM_SUCCESS -> inside m n (VarField data len) /\ 5 <= len /\ count <> 0
  | None => False
  end.

Lemma identifiers_answer_safe outs :
  outs = None \/ 1 <= mem_size m ->
  returns refusal identifiers_inside (decode_query_device_identifiers_resp (Some (Msg h m)) n outs).
Proof.
  intros Hs. destruct outs as [[[[cc0 len] count] data]|].
  2: { apply returns_ok; [unfold refusal; lia|done]. }
  destruct Hs as [?|Hs]; [done|].
  unfold decode_query_device_identifiers_resp. read_members.
  destruct (Z.eqb_spec (fld m 0 1) 0) as [Hcc|Hcc]; cbn [negb].
  2: { apply returns_ok; [by left|]. done. }
  cmp_case; [apply returns_ok; [unfold refusal; lia|done]|]. read_members.
  pose proof (fld_bound m 1 4 (mem_ok_bytes _ Hm)). unfold u64. rewrite Z.mod_small by (cbn in *; lia).
  cmp_case; [apply returns_ok; [unfold refusal; lia|done]|].
  destruct (Z.eqb_spec n (6 + fld m 1 4)); cbn [negb]; [|apply returns_ok; [unfold refusal; lia|done]].
  read_members. cmp_case; [apply returns_ok; [unfold refusal; lia|done]|].
  apply returns_ok; [by left|]. intros _ _. cbn [payload]. split; [|lia]. split; [cbn; lia|]. exists 6. cbn. split_and!; [lia|lia|done].
Qed.

Definition fwp_inside (o : option (pldm_get_firmware_parameters_resp * variable_field * variable_field * variable_field)) : Prop :=
  match o with
  | Some (r, active, pending, table) =>
    gfp_completion_code r = PLDM_SUCCESS -> inside m n active /\ inside m n pending /\ inside m n table
  | None => False
  end.

Lemma field_or_null_inside q len off k :
  0 <= off -> 0 <= k -> off + k <= len -> inside q len (field_or_null q off k).
Proof.
  intros. unfold field_or_null. destruct (Z.eqb_spec k 0); (split; [cbn; lia|]); [done|].
  cbn. exists off. split_and!; [lia|lia|done].
Qed.

Lemma fw_parameters_answer_safe outs :
  returns refusal fwp_inside (decode_get_firmware_parameters_resp (Some (Msg h m)) n outs).
Proof.
  destruct outs as [[[[[cc0 caps count atype alen ptype plen] active] pending] table]|].
  2: { apply returns_ok; [unfold refusal; lia|done]. }
  unfold decode_get_firmware_parameters_resp.
  cmp_case; [apply returns_ok; [unfold refusal; lia|done]|]. read_members.
  destruct (Z.eqb_spec (fld m 0 1) 0) as [Hcc|Hcc]; cbn [negb]; [|by apply returns_ok; [left|]].
  cmp_case; [apply returns_ok; [unfold refusal; lia|done]|]. read_members.
  pose proof (fld_bound m 8 1 (mem_ok_bytes _ Hm)). pose proof (fld_bound m 10 1 (mem_ok_bytes _ Hm)).
  destruct (_ || _); [apply returns_ok; [unfold refusal; lia|done]|]. read_members.
  match goal with |- returns _ _ (if ?c then _ else _) => destruct c end; [apply returns_ok; [unfold refusal; lia|done]|].
  cmp_case; [apply returns_ok; [unfold refusal; lia|done]|]. read_members.
  apply returns_ok; [by left|]. intros _ _. cbn [payload]. split_and!.
  - split; [cbn; lia|]. exists 11. cbn. split_and!; [lia|lia|done].
  - apply field_or_null_inside; lia.
  - destruct (_ && _) eqn:E; [|by split]. apply andb_true_iff in E as [E _].
    split; [cbn [vf_length]; lia|]. cbn [vf_ptr vf_length]. eexists. split_and!; [| |reflexivity]; lia.
Qed.
End answers.

Definition comp_entry_inside (m : cmem) (n : Z)
    (o : option (pldm_component_parameter_entry * variable_field * variable_field)) : Prop :=
  match o with
  | Some (_, active, pending) => inside m n active /\ inside m n pending
  | None => False
  end.

Lemma comp_entry_safe m n outs :
  mem_ok m -> 0 <= n <= mem_size m ->
  returns refusal (comp_entry_inside m n) (decode_get_firmware_parameters_resp_comp_entry (Some m) n outs).
Proof.
  intros Hm Hn. destruct outs as [[[e0 a0] p0]|]; [|apply returns_ok; [unfold refusal; lia|done]].
  unfold decode_get_firmware_parameters_resp_comp_entry.
  cmp_case; [apply returns_ok; [unfold refusal; lia|done]|].
  assert (forall off k, 0 <= off -> 0 <= k -> off + k <= n ->
    mem_le m off k = Ok (fld m (Z.to_nat off) (Z.to_nat k))) as Hread.
  { intros off k ? ? ?. pose proof (member_ok (MsgHdr 0 0 0 0 0 0 0) m (Z.to_nat off) (Z.to_nat k)) as E.
    rewrite !Z2Nat.id in E by lia. apply E. lia. }
  rewrite (Hread 10 1), (Hread 24 1) by lia. cbn [mbind outcome_bind].
  change (Z.to_nat 10) with 10%nat. change (Z.to_nat 24) with 24%nat. change (Z.to_nat 1) with 1%nat.
  pose proof (fld_bound m 10 1 (mem_ok_bytes _ Hm)). pose proof (fld_bound m 24 1 (mem_ok_bytes _ Hm)).
  cmp_case; [apply returns_ok; [unfold refusal; lia|done]|].
  rewrite (Hread 0 2), (Hread 2 2), (Hread 4 1), (Hread 5 4), (Hread 9 1) by lia.
  cbn [mbind outcome_bind]. apply returns_read; [lia|]. intros adate _.
  rewrite (Hread 19 4), (Hread 23 1) by lia.
  cbn [mbind outcome_bind]. apply returns_read; [lia|]. intros pdate _.
  rewrite (Hread 33 2), (Hread 35 4) by lia. cbn [mbind outcome_bind].
  apply returns_ok; [by left|]. intros _. split; apply field_or_null_inside; lia.
Qed.

(** ** Answers laid out from what they say *)

(** A device: its index and its descriptors. *)
Definition down_bytes (d : Z * list (Z * list Z)) : list Z :=
  le_enc 2 d.1 ++ le_enc 1 (len d.2) ++ concat (descriptor_bytes <$> d.2).

Definition down_fits (d : Z * list (Z * list Z)) : Prop :=
  u16_ok d.1 /\ len d.2 < 256 /\ Forall descriptor_fits d.2.

Definition view_down (x : pldm_downstream_device * list pldm_descriptor) : Z * list (Z * list Z) :=
  (downstream_device_index x.1, view_descriptor <$> x.2).

(** The firmware of a device. *)
Record down_firmware := DownFw {
  df_index : Z; df_stamp : Z; df_type : Z; df_version : list Z; df_date : list Z;
  df_pending_stamp : Z; df_pending_type : Z; df_pending_version : list Z; df_pending_date : list Z;
  df_methods : Z; df_capabilities : Z
}.

Definition firmware_bytes (f : down_firmware) : list Z :=
  le_enc 2 (df_index f) ++ le_enc 4 (df_stamp f) ++ le_enc 1 (df_type f) ++ le_enc 1 (len (df_version f)) ++
  df_date f ++ le_enc 4 (df_pending_stamp f) ++ le_enc 1 (df_pending_type f) ++
  le_enc 1 (len (df_pending_version f)) ++ df_pending_date f ++ le_enc 2 (df_methods f) ++
  le_enc 4 (df_capabilities f) ++ df_version f ++ df_pending_version f.

Definition firmware_fits (f : down_firmware) : Prop :=
  (u16_ok (df_index f) /\ u32_ok (df_stamp f) /\ byte_ok (df_type f) /\ u32_ok (df_pending_stamp f) /\
   byte_ok (df_pending_type f) /\ u16_ok (df_methods f) /\ u32_ok (df_capabilities f)) /\
  len (df_version f) < 256 /\ len (df_pending_version f) < 256 /\ len (df_date f) = 8 /\ len (df_pending_date f) = 8.

Definition view_firmware (e : pldm_downstream_device_parameters_entry) : down_firmware :=
  DownFw (pe_downstream_device_index e) (pe_active_comp_comparison_stamp e) (pe_active_comp_ver_str_type e)
    (text (VarField (pe_active_comp_ver_str e) (pe_active_comp_ver_str_len e)))
    (take 8 (pe_active_comp_release_date e))
    (pe_pending_comp_comparison_stamp e) (pe_pending_comp_ver_str_type e)
    (text (VarField (pe_pending_comp_ver_str e) (pe_pending_comp_ver_str_len e)))
    (take 8 (pe_pending_comp_release_date e)) (pe_comp_activation_methods e) (pe_capabilities_during_update e).

Section layout.
Context (m : cmem).
Hypothesis Hm : mem_ok m.

Lemma descriptors_from_parse ds k n fuel :
  lies m k (concat (descriptor_bytes <$> ds)) -> Forall descriptor_fits ds ->
  len (concat (descriptor_bytes <$> ds)) <= n -> k + n <= mem_size m -> (length ds < fuel)%nat ->
  let used := len (concat (descriptor_bytes <$> ds)) in
  exists xs, descriptors_from fuel (DescIter (Some (field_at m k n)) (len ds))
    = Ok (0, Some (field_at m (k + used) (n - used)), xs) /\ view_descriptor <$> xs = ds.
Proof.
  intros Hl Hds. revert k n fuel Hl. induction Hds as [|[t data] ds Hd Hds IH]; intros k n [|fuel] Hl Hn Hk Hf;
    cbn [length] in Hf; try lia; cbn zeta.
  { exists []. cbn [fmap list_fmap concat len length Z.of_nat]. by rewrite Z.add_0_r, Z.sub_0_r. }
  cbn [fmap list_fmap concat] in *. rewrite len_app, len_descriptor in *.
  apply lies_app in Hl as [Hl Hrest]. rewrite len_descriptor in Hrest.
  pose proof (len_nonneg (concat (descriptor_bytes <$> ds))) as Hnn.
  cbn [descriptors_from]. unfold pldm_descriptor_iter_end. cbn [di_count].
  rewrite len_cons. pose proof (len_nonneg ds) as Hcnt. replace (1 + len ds =? 0) with false by lia.
  destruct (descriptor_parse m Hm t data k n (1 + len ds)) as (d & -> & Hv); [done|done|unfold fmap in *; lia|lia|].
  cbn [mbind outcome_bind Z.eqb]. unfold pldm_descriptor_iter_next. cbn [di_count di_field].
  replace (1 + len ds =? 0) with false by lia. cbn [snd]. replace (1 + len ds - 1) with (len ds) by lia.
  destruct (IH (k + (4 + len data)) (n - (4 + len data)) fuel) as (xs & -> & Hxs); [done|unfold fmap in *; lia..|].
  cbn [mbind outcome_bind]. exists (d :: xs). split; [|cbn [fmap list_fmap]; by f_equal].
  unfold field_at, fmap in *.
  match goal with |- mret (_, Some (VarField (Some (ptr_at m ?a)) ?b), _) = Ok (_, Some (VarField (Some (ptr_at m ?c)) ?e), _) =>
    replace a with c by lia; by replace b with e by lia end.
Qed.

Lemma devices_parse ds k n fuel :
  lies m k (concat (down_bytes <$> ds)) -> Forall down_fits ds ->
  len (concat (down_bytes <$> ds)) = n -> k + n <= mem_size m -> (length ds < fuel)%nat ->
  exists it xs, foreach_pldm_downstream_device fuel (DevIter (field_at m k n) (len ds)) = Ok (0, it, xs) /\
    dv_devs it = 0 /\ vf_length (dv_field it) = 0 /\ view_down <$> xs = ds.
Proof.
  intros Hl Hds. revert k n fuel Hl. induction Hds as [|[index descs] ds Hd Hds IH]; intros k n [|fuel] Hl Hn Hk Hf;
    cbn [length] in Hf; try lia.
  { do 2 eexists. split; [reflexivity|]. subst n. by split_and!. }
  cbn [fmap list_fmap concat] in Hl, Hn. destruct Hd as ((Hi1 & Hi2) & Hc & Hdescs). cbn [fst snd] in *.
  unfold down_bytes at 1 in Hl. cbn [fst snd] in Hl. rewrite <- !app_assoc in Hl.
  pose proof Hl as [[Hk0 _] _]. pieces Hl. rename Hl into Hrest.
  match goal with P : lies m _ (concat (descriptor_bytes <$> descs)) |- _ => rename P into Hdl end.
  unfold down_bytes at 1 in Hn. cbn [fst snd] in Hn. rewrite !len_app, !len_le_enc in Hn.
  pose proof (len_nonneg (concat (down_bytes <$> ds))). pose proof (len_nonneg (concat (descriptor_bytes <$> descs))).
  cbn [foreach_pldm_downstream_device]. unfold pldm_downstream_device_iter_end. cbn [dv_devs].
  rewrite len_cons. pose proof (len_nonneg ds). replace (1 + len ds =? 0) with false by lia.
  unfold field_at at 1. unfold fmap in *.
  destruct (device_from_iter_ok (ptr_at m k) n) with (devs := 1 + len ds) (d := DownDevice 0 0) as (rc & f & d & -> & Hstep).
  { apply mem_ok_ptr_at; [done|lia]. } { rewrite mem_size_ptr_at; lia. }
  replace (3 <=? n) with true in Hstep by lia. destruct Hstep as (-> & -> & ->). cbn [mbind outcome_bind Z.eqb].
  unfold pldm_downstream_device_descriptor_iter_init, device_at. cbn [dv_field di_count dv_devs downstream_descriptor_count].
  pose proof (len_nonneg descs).
  rewrite (fld_lies m k 0 2 index); [|by rewrite Z.add_0_r|lia|cbn; lia].
  rewrite (fld_lies m k 2 1 (len descs)) by (done || (cbn; lia)).
  unfold field_at. rewrite ptr_at_ptr_at by lia. fold (field_at m (k + 3) (n - 3)).
  destruct (descriptors_from_parse descs (k + 3) (n - 3) (S (Z.to_nat (len descs)))) as (xs & E & Hxs).
  { by replace (k + 3) with (k + 2 + 1) by lia. } { done. } { unfold fmap; lia. } { lia. } { unfold len. lia. }
  rewrite E. clear E. cbn [mbind outcome_bind from_option Z.eqb]. unfold id, pldm_downstream_device_iter_next. cbn [dv_devs dv_field].
  replace (1 + len ds =? 0) with false by lia. cbn [snd]. replace (1 + len ds - 1) with (len ds) by lia.
  unfold fmap. set (used := len (concat (list_fmap _ _ descriptor_bytes descs))) in *.
  destruct (IH (k + 3 + used) (n - 3 - used) fuel) as (it & ys & -> & ? & ? & Hys).
  { replace (k + 3 + used) with (k + 2 + 1 + used) by lia. exact Hrest. } { lia. } { lia. } { lia. }
  cbn [mbind outcome_bind]. do 2 eexists. split; [reflexivity|]. split_and!; [done|done|].
  cbn [list_fmap]. unfold view_down at 1. cbn [fst snd downstream_device_index]. unfold fmap in *. by repeat f_equal.
Qed.

Lemma fld_at k p o n v :
  lies m p (le_enc n v) -> p = k + Z.of_nat o -> 0 <= k -> 0 <= v < 256 ^ Z.of_nat n -> fld (ptr_at m k) o n = v.
Proof. intros Hl ->. by apply fld_lies. Qed.

Lemma slice_at k p o d :
  lies m p d -> p = k + Z.of_nat o -> 0 <= k -> len d = 8 -> slice o 8 (bytes (ptr_at m k)) = d.
Proof.
  intros [_ [post E]] -> Hk Hd. unfold slice, ptr_at. cbn [bytes]. rewrite drop_drop.
  replace (Z.to_nat k + o)%nat with (Z.to_nat (k + Z.of_nat o)) by lia. rewrite E.
  apply take_app_length'. unfold len in Hd. lia.
Qed.

Lemma text_at k p o l :
  lies m p l -> p = k + o -> 0 <= k -> 0 <= o -> text (VarField (Some (ptr_at (ptr_at m k) o)) (len l)) = l.
Proof. intros Hl -> Hk Ho. rewrite ptr_at_ptr_at by done. by apply text_lies. Qed.

Lemma firmwares_parse fs k n fuel e :
  lies m k (concat (firmware_bytes <$> fs)) -> Forall firmware_fits fs ->
  len (concat (firmware_bytes <$> fs)) = n -> k + n <= mem_size m -> (length fs < fuel)%nat -> dates_fit e ->
  exists it es, foreach_pldm_downstream_device_parameters_entry fuel (ParIter (field_at m k n) (len fs)) e = Ok (0, it, es) /\
    dp_entries it = 0 /\ vf_length (dp_field it) = 0 /\ view_firmware <$> es = fs.
Proof.
  intros Hl Hfs. revert k n fuel e Hl. induction Hfs as [|f fs Hd Hfs IH]; intros k n [|fuel] e Hl Hn Hk Hf He;
    cbn [length] in Hf; try lia.
  { do 2 eexists. split; [reflexivity|]. subst n. by split_and!. }
  cbn [fmap list_fmap concat] in Hl, Hn. unfold fmap in *.
  destruct f as [index stamp type version date pstamp ptype pversion pdate methods caps].
  destruct Hd as ((Hu1 & Hu2 & Hu3 & Hu4 & Hu5 & Hu6 & Hu7) & Hv & Hpv & Hdt & Hpd).
  cbn [df_index df_stamp df_type df_version df_date df_pending_stamp df_pending_type df_pending_version df_pending_date
    df_methods df_capabilities] in *.
  unfold u16_ok, u32_ok, byte_ok in *.
  pose proof (len_nonneg version). pose proof (len_nonneg pversion).
  unfold firmware_bytes at 1 in Hl. unfold firmware_bytes at 1 in Hn.
  cbn [df_index df_stamp df_type df_version df_date df_pending_stamp df_pending_type df_pending_version df_pending_date
    df_methods df_capabilities] in Hl, Hn. rewrite <- !app_assoc in Hl.
  rewrite !len_app, !len_le_enc, Hdt, Hpd in Hn.
  match type of Hn with context [len ?x] => lazymatch x with concat _ => pose proof (len_nonneg x); set (rest := len x) in * end end.
  pose proof Hl as [[Hk0 _] _]. pieces Hl. rewrite Hdt, Hpd in *.
  cbn [foreach_pldm_downstream_device_parameters_entry]. unfold pldm_downstream_device_parameters_iter_end. cbn [dp_entries].
  rewrite len_cons. pose proof (len_nonneg fs). replace (1 + len fs =? 0) with false by lia.
  assert (mem_ok (ptr_at m k)) as Hq by (apply mem_ok_ptr_at; [done|lia]).
  assert (mem_size (ptr_at m k) = mem_size m - k) as Hqs by (apply mem_size_ptr_at; lia).
  unfold field_at at 1. destruct He as [He1 He2].
  destruct (entry_from_iter_ok (ptr_at m k) n Hq ltac:(lia) (1 + len fs) e He1 He2) as (rc & it & e' & -> & Hstep).
  unfold entry_total, entry_at in Hstep. unfold nul_date in Hstep.
  rewrite (fld_at k _ 7 1 (len version) P2), (fld_at k _ 21 1 (len pversion) P6), (fld_at k _ 0 2 index P),
    (fld_at k _ 2 4 stamp P0), (fld_at k _ 6 1 type P1), (fld_at k _ 16 4 pstamp P4), (fld_at k _ 20 1 ptype P5),
    (fld_at k _ 30 2 methods P8), (fld_at k _ 32 4 caps P9),
    (slice_at k _ 8 date P3), (slice_at k _ 22 pdate P7) in Hstep by (done || lia).
  replace (36 <=? n) with true in Hstep by lia. replace (_ <=? n) with true in Hstep by lia.
  destruct Hstep as (-> & -> & ->). cbn [mbind outcome_bind Z.eqb].
  unfold pldm_downstream_device_parameters_iter_next. cbn [dp_entries dp_field].
  replace (1 + len fs =? 0) with false by lia. cbn [snd]. replace (1 + len fs - 1) with (len fs) by lia.
  unfold field_at at 1. rewrite (ptr_at_ptr_at m k (36 + len version + len pversion)) by lia.
  match goal with |- context [foreach_pldm_downstream_device_parameters_entry fuel (ParIter ?f _) ?e] =>
    destruct (IH (k + (36 + len version + len pversion)) (n - (36 + len version + len pversion)) fuel e)
      as (it & es & E & ? & ? & Hes) end.
  { match type of Hl with lies m ?p _ => by replace (k + (36 + len version + len pversion)) with p by lia end. } { lia. } { lia. } { lia. }
  { unfold len in Hdt, Hpd. split; cbn [pe_active_comp_release_date pe_pending_comp_release_date]; rewrite length_app; cbn [length]; lia. }
  unfold field_at in E. rewrite E. clear E. cbn [mbind outcome_bind]. do 2 eexists. split; [reflexivity|]. split_and!; [done|done|].
  cbn [list_fmap]. f_equal; [|exact Hes]. unfold view_firmware. cbn [pe_downstream_device_index pe_active_comp_comparison_stamp
    pe_active_comp_ver_str_type pe_active_comp_ver_str_len pe_active_comp_release_date pe_pending_comp_comparison_stamp
    pe_pending_comp_ver_str_type pe_pending_comp_ver_str_len pe_pending_comp_release_date pe_comp_activation_methods
    pe_capabilities_during_update pe_active_comp_ver_str pe_pending_comp_ver_str].
  rewrite (text_at k _ 36 version P10), (text_at k _ (36 + len version) pversion P11) by lia.
  unfold len in Hdt, Hpd. by rewrite !take_app_length' by lia.
Qed.
End layout.

(** ** Updating a downstream device *)

Section requests.
Context (inst : Z) (msg : pldm_msg).
Hypothesis Hmem : mem_ok (payload msg).
Hypothesis Hi : 0 <= inst <= 31.

Definition update_req_ok (r : pldm_request_downstream_device_update_req) : Prop :=
  32 <= rd_maximum_downstream_device_transfer_size r < 4294967296 /\
  1 <= rd_maximum_outstanding_transfer_requests r < 256 /\ u16_ok (rd_downstream_device_package_data_length r).

Definition update_req_carried : Prop :=
  forall r r0 n, 7 <= n <= mem_size (payload msg) -> update_req_ok r ->
  exists m, encode_request_downstream_device_update_req inst (Some r) (Some msg) (Some n) = Ok (0, Some m, Some 7) /\
    decode_request_downstream_device_update_req (Some m) 7 (Some r0) = Ok (0, Some r).

Lemma update_req_roundtrip : update_req_carried.
Proof.
  intros [size outstanding pkg] r0 n Hs (? & ? & ?). unfold encode_request_downstream_device_update_req.
  cbn [rd_maximum_downstream_device_transfer_size rd_maximum_outstanding_transfer_requests
    rd_downstream_device_package_data_length] in *.
  replace (_ || _) with false by lia. send_fields [(KU32, size); (KU8, outstanding); (KU16, pkg)].
  eexists. split; [reflexivity|]. unfold decode_request_downstream_device_update_req. destruct r0. known_message.
  read_known. done.
Qed.

Definition update_resp_ok (r : pldm_request_downstream_device_update_resp) : Prop :=
  rd_completion_code r = 0 /\ u16_ok (rd_downstream_device_meta_data_length r) /\
  byte_ok (rd_downstream_device_will_send_get_package_data r) /\ u16_ok (rd_get_package_data_maximum_transfer_size r).

(** The maximum transfer size is on the wire only where the device will ask for package
    data. *)
Definition update_resp_carried : Prop :=
  forall r r0 n, 6 <= n <= mem_size (payload msg) -> update_resp_ok r ->
  let sends := rd_downstream_device_will_send_get_package_data r =? 2 in
  let used := if sends then 6 else 4 in
  exists m, encode_request_downstream_device_update_resp inst (Some r) (Some msg) (Some n) = Ok (0, Some m, Some used) /\
    decode_request_downstream_device_update_resp (Some m) used (Some r0)
    = Ok (0, Some (RdResp 0 (rd_downstream_device_meta_data_length r) (rd_downstream_device_will_send_get_package_data r)
        (if sends then rd_get_package_data_maximum_transfer_size r else rd_get_package_data_maximum_transfer_size r0))).

Lemma update_resp_roundtrip : update_resp_carried.
Proof.
  intros [cc meta will max] r0 n Hs (Hcc & ? & ? & ?). unfold encode_request_downstream_device_update_resp.
  cbn [rd_completion_code rd_downstream_device_meta_data_length rd_downstream_device_will_send_get_package_data
    rd_get_package_data_maximum_transfer_size] in *. subst cc.
  destruct r0 as [cc0 meta0 will0 max0]. unfold decode_request_downstream_device_update_resp.
  destruct (Z.eqb_spec will 2) as [->|Hw]; cbv zeta.
  - send_fields [(KU8, 0); (KU16, meta); (KU8, 2); (KU16, max)].
    eexists. split; [reflexivity|]. known_message. no_error. read_known. done.
  - match goal with |- context [encode_frame ?ty ?inst ?pty ?cmd ?k ?msg ?len ?body] =>
      assert (encode_frame ty inst pty cmd k msg len body
        = encode_frame ty inst pty cmd k msg len (_ ← pldm_msgbuf_insert KU8 0; _ ← pldm_msgbuf_insert KU16 meta;
            _ ← pldm_msgbuf_insert KU8 will; pldm_msgbuf_complete_used n n)) as -> by done end.
    send_fields [(KU8, 0); (KU16, meta); (KU8, will)].
    eexists. split; [reflexivity|]. known_message. no_error. read_known. done.
Qed.

(** The request the older device answers without a body. *)
Definition revision_req_carried : Prop :=
  forall class id index n, 5 <= n <= mem_size (payload msg) -> u16_ok class -> u16_ok id -> byte_ok index ->
  encode_pldm_fwup_update_security_revision_req inst (Some (SrReq class id index)) (Some msg) (Some n)
  = Ok (0, Some (Msg (packed PLDM_REQUEST inst PLDM_FWUP PLDM_UPDATE_SECURITY_REVISION)
             (wrote (payload msg) (fields_bytes [(KU16, class); (KU16, id); (KU8, index)]))), Some 5).

Lemma revision_req_is : revision_req_carried.
Proof.
  intros class id index n Hs ? ? ?. unfold encode_pldm_fwup_update_security_revision_req.
  by send_fields [(KU16, class); (KU16, id); (KU8, index)].
Qed.
End requests.

(** ** The theorems *)

(** A response of a device with devices behind it: the fixed part, and what is behind. *)
Definition identifiers_response (next flag : Z) (ds : list (Z * list (Z * list Z))) : list Z :=
  le_enc 1 0 ++ le_enc 4 next ++ le_enc 1 flag ++ le_enc 4 (len (concat (down_bytes <$> ds))) ++
  le_enc 2 (len ds) ++ concat (down_bytes <$> ds).

Definition parameters_response (next flag caps : Z) (fs : list down_firmware) : list Z :=
  le_enc 1 0 ++ le_enc 4 next ++ le_enc 1 flag ++ le_enc 4 caps ++ le_enc 2 (len fs) ++ concat (firmware_bytes <$> fs).

Definition identifiers_read : Prop :=
  forall h m next flag ds r it,
  mem_ok m -> u32_ok next -> byte_ok flag -> Forall down_fits ds -> len ds < 65536 ->
  len (concat (down_bytes <$> ds)) < 4294967296 -> lies m 0 (identifiers_response next flag ds) ->
  exists it1 it2 xs,
    decode_query_downstream_identifiers_resp (Some (Msg h m)) (len (identifiers_response next flag ds)) (Some (r, it))
    = Ok (0, Some (QiResp 0 next flag (len (concat (down_bytes <$> ds))) (len ds), it1)) /\
    foreach_pldm_downstream_device (S (length ds)) it1 = Ok (0, it2, xs) /\
    dv_devs it2 = 0 /\ vf_length (dv_field it2) = 0 /\ view_down <$> xs = ds.

Lemma identifiers_are_read : identifiers_read.
Proof.
  intros h m next flag ds r it Hm ? ? Hds Hc Hd Hl. unfold u32_ok, byte_ok in *.
  pose proof (lies_size _ _ _ Hl) as [_ Hsz]. unfold identifiers_response in *.
  rewrite !len_app, !len_le_enc in *. pose proof (len_nonneg (concat (down_bytes <$> ds))). pose proof (len_nonneg ds).
  pieces Hl. cbn [Z.add Pos.add Pos.succ] in *.
  match goal with |- context [decode_query_downstream_identifiers_resp _ ?n _] =>
    destruct (identifiers_resp_ok h m n Hm ltac:(lia) r it) as (rc & o & -> & _ & _ & Hread) end.
  assert (forall n o v, lies m (Z.of_nat o) (le_enc n v) -> 0 <= v < 256 ^ Z.of_nat n -> fld m o n = v) as Hfld.
  { intros n o' v Hv Hb. rewrite <- (fld_at m 0 (Z.of_nat o') o' n v Hv ltac:(lia) ltac:(lia) Hb). by destruct m. }
  destruct Hread as [-> ->].
  { apply (Hfld 1%nat 0%nat 0); [done|cbn; lia]. }
  { rewrite (Hfld 4%nat 6%nat (len (concat (down_bytes <$> ds)))); [lia|done|cbn; lia]. }
  unfold identifiers_at.
  rewrite (Hfld 4%nat 1%nat next), (Hfld 1%nat 5%nat flag), (Hfld 4%nat 6%nat (len (concat (down_bytes <$> ds)))),
    (Hfld 2%nat 10%nat (len ds)) by (done || (cbn; lia)).
  destruct (devices_parse m Hm ds 12 _ (S (length ds)) Hl Hds eq_refl) as (it2 & xs & E & ? & ? & Hxs); [lia|lia|].
  exists (DevIter (field_at m 12 (len (concat (down_bytes <$> ds)))) (len ds)), it2, xs. split_and!; try done.
Qed.

Definition parameters_read : Prop :=
  forall h m next flag caps fs r it e,
  mem_ok m -> u32_ok next -> byte_ok flag -> u32_ok caps -> Forall firmware_fits fs -> len fs < 65536 -> dates_fit e ->
  lies m 0 (parameters_response next flag caps fs) ->
  exists it1 it2 es,
    decode_get_downstream_firmware_parameters_resp (Some (Msg h m)) (len (parameters_response next flag caps fs)) (Some (r, it))
    = Ok (0, Some (GdResp 0 next flag caps (len fs), it1)) /\
    foreach_pldm_downstream_device_parameters_entry (S (length fs)) it1 e = Ok (0, it2, es) /\
    dp_entries it2 = 0 /\ vf_length (dp_field it2) = 0 /\ view_firmware <$> es = fs.

Lemma parameters_are_read : parameters_read.
Proof.
  intros h m next flag caps fs r it e Hm ? ? ? Hfs Hc He Hl. unfold u32_ok, byte_ok in *.
  pose proof (lies_size _ _ _ Hl) as [_ Hsz]. unfold parameters_response in *.
  rewrite !len_app, !len_le_enc in *. pose proof (len_nonneg (concat (firmware_bytes <$> fs))). pose proof (len_nonneg fs).
  pieces Hl. cbn [Z.add Pos.add Pos.succ] in *.
  match goal with |- context [decode_get_downstream_firmware_parameters_resp _ ?n _] =>
    destruct (parameters_resp_ok h m n Hm ltac:(lia) r it) as (rc & o & -> & _ & _ & Hread); set (N := n) in * end.
  assert (forall n o v, lies m (Z.of_nat o) (le_enc n v) -> 0 <= v < 256 ^ Z.of_nat n -> fld m o n = v) as Hfld.
  { intros n o' v Hv Hb. rewrite <- (fld_at m 0 (Z.of_nat o') o' n v Hv ltac:(lia) ltac:(lia) Hb). by destruct m. }
  destruct Hread as [-> ->].
  { apply (Hfld 1%nat 0%nat 0); [done|cbn; lia]. } { lia. }
  unfold parameters_at.
  rewrite (Hfld 4%nat 1%nat next), (Hfld 1%nat 5%nat flag), (Hfld 4%nat 6%nat caps),
    (Hfld 2%nat 10%nat (len fs)) by (done || (cbn; lia)).
  destruct (firmwares_parse m Hm fs 12 (N - 12) (S (length fs)) e Hl Hfs) as (it2 & es & E & ? & ? & Hxs); [lia|lia|lia|done|].
  exists (ParIter (field_at m 12 (N - 12)) (len fs)), it2, es. split_and!; try done.
Qed.

(** What the two answers with iterators promise for any bytes. *)
Definition identifiers_safe (h : pldm_msg_hdr) (m : cmem) (n : Z) : Prop :=
  forall r it, exists rc r1 it1,
    decode_query_downstream_identifiers_resp (Some (Msg h m)) n (Some (r, it)) = Ok (rc, Some (r1, it1)) /\
    (rc = 0 \/ errno rc) /\
    (rc = 0 -> qi_completion_code r1 <> 0 /\ it1 = it \/
      field_inside m n (dv_field it1) /\
      exists rc2 it2 xs,
        foreach_pldm_downstream_device (S (Z.to_nat (dv_devs it1))) it1 = Ok (rc2, it2, xs) /\
        (rc2 = - EOVERFLOW \/ rc2 = 0 /\ dv_devs it2 = 0 /\ len xs = dv_devs it1) /\
        Forall (devices_inside m n) xs).

Definition parameters_safe (h : pldm_msg_hdr) (m : cmem) (n : Z) : Prop :=
  forall r it e, dates_fit e -> exists rc r1 it1,
    decode_get_downstream_firmware_parameters_resp (Some (Msg h m)) n (Some (r, it)) = Ok (rc, Some (r1, it1)) /\
    (rc = 0 \/ errno rc) /\
    (rc = 0 -> gd_completion_code r1 <> 0 /\ it1 = it \/
      field_inside m n (dp_field it1) /\
      exists rc2 it2 es,
        foreach_pldm_downstream_device_parameters_entry (S (Z.to_nat (dp_entries it1))) it1 e = Ok (rc2, it2, es) /\
        (rc2 = - EOVERFLOW \/ rc2 = 0 /\ dp_entries it2 = 0 /\ len es = dp_entries it1) /\
        Forall (entry_inside m n) es).

Lemma field_start_inside m n off k :
  0 <= off -> 0 <= k -> off + k <= n -> field_inside m n (field_at m off k).
Proof. intros. split; [|done]. split; [done|]. cbn. exists off. split_and!; [lia|lia|done]. Qed.

Lemma identifiers_safe_ok h m n : mem_ok m -> 0 <= n <= mem_size m -> identifiers_safe h m n.
Proof.
  intros Hm Hn r it. destruct (identifiers_resp_ok h m n Hm Hn r it) as (rc & [r1 it1] & -> & Hrc & H & _).
  exists rc, r1, it1. split; [reflexivity|]. split; [exact Hrc|]. intros E. destruct (H E) as [[? ?] | [Hd Ho]]; [by left|right].
  injection Ho as -> ->. pose proof (fld_bound m 6 4 (mem_ok_bytes _ Hm)). pose proof (fld_bound m 10 2 (mem_ok_bytes _ Hm)).
  cbn [dv_field dv_devs]. pose proof (field_start_inside m n 12 (fld m 6 4) ltac:(lia) ltac:(lia) Hd) as Hf.
  split; [exact Hf|]. apply foreach_device_ok; [done|done|exact Hf|lia].
Qed.

Lemma parameters_safe_ok h m n : mem_ok m -> 0 <= n <= mem_size m -> parameters_safe h m n.
Proof.
  intros Hm Hn r it e He. destruct (parameters_resp_ok h m n Hm Hn r it) as (rc & [r1 it1] & -> & Hrc & H & _).
  exists rc, r1, it1. split; [reflexivity|]. split; [exact Hrc|]. intros E. destruct (H E) as [[? ?] | [Hd Ho]]; [by left|right].
  injection Ho as -> ->. pose proof (fld_bound m 10 2 (mem_ok_bytes _ Hm)).
  cbn [dp_field dp_entries]. pose proof (field_start_inside m n 12 (n - 12) ltac:(lia) ltac:(lia) ltac:(lia)) as Hf.
  split; [exact Hf|]. apply foreach_entry_ok; [done|done|exact Hf|lia|done].
Qed.

(** C36: Whatever bytes a device answers with, seven of the nine decoders of the agent's
    inventory return, with success or one of their errors, and read inside the payload
    only: what they hand out covers bytes inside of it.  The loops over downstream
    devices, over their descriptors and over their firmware end after the announced number
    of rounds at most, either because a device does not fit, which is -EOVERFLOW, or
    having seen all of them, and every string of an entry is inside the payload and every
    date terminated.  The other two, for the answers to RequestDownstreamDeviceUpdate and
    QueryDeviceIdentifiers, do the same unless there is no byte of a payload: then both read the
    completion code behind its end. *)
Theorem downstream_decoders_safe h m n :
  mem_ok m -> 0 <= n <= mem_size m ->
  (identifiers_safe h m n /\ parameters_safe h m n /\
   (forall r, returns errno anything (decode_query_downstream_devices_resp (Some (Msg h m)) n r)) /\
   (forall r, returns errno anything (decode_request_downstream_device_update_req (Some (Msg h m)) n r)) /\
   (forall r, returns errno anything (decode_pldm_fwup_update_security_revision_resp (Some (Msg h m)) n r)) /\
   (forall outs, returns refusal (fwp_inside m n) (decode_get_firmware_parameters_resp (Some (Msg h m)) n outs)) /\
   (forall outs, returns refusal (comp_entry_inside m n) (decode_get_firmware_parameters_resp_comp_entry (Some m) n outs))) /\
  (forall r, r = None \/ 1 <= mem_size m ->
     returns errno anything (decode_request_downstream_device_update_resp (Some (Msg h m)) n r)) /\
  (forall outs, outs = None \/ 1 <= mem_size m ->
     returns refusal (identifiers_inside m n) (decode_query_device_identifiers_resp (Some (Msg h m)) n outs)) /\
  (mem_size m = 0 ->
     (forall r, decode_request_downstream_device_update_resp (Some (Msg h m)) n (Some r) = Fault FMemory) /\
     (forall outs, decode_query_device_identifiers_resp (Some (Msg h m)) n (Some outs) = Fault FMemory)).
Proof.
  intros Hm Hn. split.
  { split; [by apply identifiers_safe_ok|]. split; [by apply parameters_safe_ok|].
    split_and!; intros; [by apply devices_answer_safe|by apply update_request_safe|by apply revision_answer_safe
      |by apply fw_parameters_answer_safe|by apply comp_entry_safe]. }
  split_and!; intros; [by apply update_answer_safe|by apply identifiers_answer_safe|].
  split; intros; [by apply update_answer_reads_past|by apply identifiers_answer_reads_past].
Qed.

Lemma downstream_decoders_safe_witness :
  let m := CMem 4096 ([0; 7; 0; 0; 0; 5; 9; 0; 0; 0; 2; 0] ++ [1; 0; 1; 2; 0; 2; 0; 8; 9]) in
  (exists r1 it1 it2 xs,
    decode_query_downstream_identifiers_resp (Some (Msg (MsgHdr 0 0 0 0 0 0 0) m)) 21
      (Some (QiResp 0 0 0 0 0, DevIter (VarField None 0) 0)) = Ok (0, Some (r1, it1)) /\
    foreach_pldm_downstream_device 3 it1 = Ok (- EOVERFLOW, it2, xs) /\ length xs = 1%nat) /\
  decode_query_device_identifiers_resp (Some (Msg (MsgHdr 0 0 0 0 0 0 0) (CMem 4096 []))) 0 (Some (0, 0, 0, None))
  = Fault FMemory.
Proof.
  split.
  - destruct (downstream_decoders_safe (MsgHdr 0 0 0 0 0 0 0)
      (CMem 4096 ([0; 7; 0; 0; 0; 5; 9; 0; 0; 0; 2; 0] ++ [1; 0; 1; 2; 0; 2; 0; 8; 9])) 21
      ltac:(concrete) ltac:(by vm_compute)) as [[H _] _].
    destruct (H (QiResp 0 0 0 0 0) (DevIter (VarField None 0) 0)) as (rc & r1 & it1 & E & _ & Hok).
    vm_compute in E. injection E as <- <- <-. destruct (Hok eq_refl) as [[Hcc _] | [_ (rc2 & it2 & xs & E & _)]]; [by destruct Hcc|].
    vm_compute in E. injection E as <- <- <-. do 4 eexists. split; [vm_compute; reflexivity|]. split; [vm_compute; reflexivity|done].
  - destruct (downstream_decoders_safe (MsgHdr 0 0 0 0 0 0 0) (CMem 4096 []) 0 ltac:(concrete) ltac:(by vm_compute))
      as (_ & _ & _ & H). apply H. reflexivity.
Defined.

(** C37: What a device says about the devices behind it is what the agent reads.  A
    QueryDownstreamIdentifiers response laid out from a list of devices, each with its
    descriptors, decodes to its fixed part, and the two loops of the header file, one in
    the other, find these devices and descriptors, in order, and end at the last byte;
    the same for a GetDownstreamFirmwareParameters response and the firmware of each
    device.  The request to update a downstream device survives the wire, its response
    too, with the maximum transfer size where the device asks for package data, and the
    request for a new security revision is its three fields. *)
Theorem downstream_roundtrip :
  identifiers_read /\ parameters_read /\
  forall inst msg, mem_ok (payload msg) -> 0 <= inst <= 31 ->
    update_req_carried inst msg /\ update_resp_carried inst msg /\ revision_req_carried inst msg.
Proof.
  split; [exact identifiers_are_read|]. split; [exact parameters_are_read|]. intros. split_and!;
    [by apply update_req_roundtrip|by apply update_resp_roundtrip|by apply revision_req_is].
Qed.

Lemma downstream_roundtrip_witness :
  let ds := [(3, [(2, [1; 2; 3; 4]); (1, [5; 6])]); (4, [(0xffff, [9])])] in
  let m := CMem 4096 (identifiers_response 7 5 ds ++ [1; 1]) in
  exists it1 it2 xs,
    decode_query_downstream_identifiers_resp (Some (Msg (MsgHdr 0 0 0 0 0 0 0) m)) (len (identifiers_response 7 5 ds))
      (Some (QiResp 0 0 0 0 0, DevIter (VarField None 0) 0))
    = Ok (0, Some (QiResp 0 7 5 25 2, it1)) /\
    foreach_pldm_downstream_device 3 it1 = Ok (0, it2, xs) /\ view_down <$> xs = ds.
Proof.
  destruct downstream_roundtrip as [H _].
  destruct (H (MsgHdr 0 0 0 0 0 0 0)
    (CMem 4096 (identifiers_response 7 5 [(3, [(2, [1; 2; 3; 4]); (1, [5; 6])]); (4, [(0xffff, [9])])] ++ [1; 1])) 7 5
    [(3, [(2, [1; 2; 3; 4]); (1, [5; 6])]); (4, [(0xffff, [9])])] (QiResp 0 0 0 0 0) (DevIter (VarField None 0) 0))
    as (it1 & it2 & xs & E & L & _ & _ & V); [concrete|by vm_compute|by vm_compute| |by vm_compute|by vm_compute| |].
  { repeat first [by vm_compute | constructor]. }
  { apply lies_prefix. }
  exists it1, it2, xs. split; [exact E|]. split; [exact L|exact V].
Defined.
