(* ===== verification/FileTransfer.v ===== *)
(** * File transfer messages (src/dsp/file.c)

    The codecs of DfOpen, DfClose and DfHeartbeat, what the decoders make of any bytes,
    and that requests and responses survive the wire, errors included. *)

From S2P Require Import Prelude Msgbuf Layout Base Legacy Safety Exchange PlatformSafe PlatformRound.

Abbreviation PLDM_FILE := 7 (only parsing).
Abbreviation PLDM_FILE_CMD_DF_OPEN := 0x1 (only parsing).
Abbreviation PLDM_FILE_CMD_DF_CLOSE := 0x2 (only parsing).
Abbreviation PLDM_FILE_CMD_DF_HEARTBEAT := 0x3 (only parsing).
Abbreviation PLDM_DF_OPEN_REQ_BYTES := 4 (only parsing).
Abbreviation PLDM_DF_OPEN_RESP_BYTES := 3 (only parsing).
Abbreviation PLDM_DF_CLOSE_REQ_BYTES := 4 (only parsing).
Abbreviation PLDM_DF_CLOSE_RESP_BYTES := 1 (only parsing).
Abbreviation PLDM_DF_HEARTBEAT_REQ_BYTES := 6 (only parsing).
Abbreviation PLDM_DF_HEARTBEAT_RESP_BYTES := 5 (only parsing).

(** ** Data *)

Record pldm_file_df_open_req := DfOpenReq { file_identifier : Z; file_attribute : Z }.
Record pldm_file_df_open_resp := DfOpenResp { do_completion_code : Z; do_file_descriptor : Z }.
Record pldm_file_df_close_req := DfCloseReq { dc_file_descriptor : Z; df_close_options : Z }.
Record pldm_file_df_close_resp := DfCloseResp { dc_completion_code : Z }.
Record pldm_file_df_heartbeat_req := DfBeatReq { db_file_descriptor : Z; requester_max_interval : Z }.
Record pldm_file_df_heartbeat_resp := DfBeatResp { db_completion_code : Z; responder_max_interval : Z }.

(** ** Codecs

    [payload_length] is followed without a look at it, once the header is packed: NULL is
    a fault. *)

Definition file_frame (ty inst cmd minsize : Z) (m : pldm_msg) (payload_length : option Z) (body : Z -> B (Z * Z))
  : outcome (Z * option pldm_msg * option Z) :=
  match payload_length with
  | Some len => encode_frame ty inst PLDM_FILE cmd minsize m len (body len)
  | None =>
    let '(rc, m) := pack_into ty inst PLDM_FILE cmd m in
    if_err rc return_ mret (rc, Some m, None);;
    Fault FMemory
  end.

Definition encode_pldm_file_df_open_req (instance_id : Z) (req : option pldm_file_df_open_req)
    (msg : option pldm_msg) (payload_length : option Z) : outcome (Z * option pldm_msg * option Z) :=
  match req, msg with
  | Some (DfOpenReq id attr), Some m =>
    file_frame PLDM_REQUEST instance_id PLDM_FILE_CMD_DF_OPEN PLDM_DF_OPEN_REQ_BYTES m payload_length (fun len =>
      _ ← pldm_msgbuf_insert KU16 id;
      _ ← pldm_msgbuf_insert KU16 attr;
      pldm_msgbuf_complete_used len len)
  | _, _ => Ok (- EINVAL, msg, payload_length)
  end.

Definition decode_pldm_file_df_open_req (msg : option pldm_msg) (payload_length : Z)
    (req : option pldm_file_df_open_req) : outcome (Z * option pldm_file_df_open_req) :=
  match msg, req with
  | Some m, Some (DfOpenReq id attr as r) =>
    '(rc, r) ← decode_frame PLDM_DF_OPEN_REQ_BYTES m payload_length r (
      '(_, id) ← pldm_msgbuf_extract KU16 id;
      '(_, attr) ← pldm_msgbuf_extract KU16 attr;
      finish_errno pldm_msgbuf_ro_complete_consumed (DfOpenReq id attr));
    mret (rc, Some r)
  | _, _ => Ok (- EINVAL, req)
  end.

Definition encode_pldm_file_df_open_resp (instance_id : Z) (resp : option pldm_file_df_open_resp)
    (msg : option pldm_msg) (payload_length : option Z) : outcome (Z * option pldm_msg * option Z) :=
  match msg, resp with
  | Some m, Some (DfOpenResp cc fd) =>
    file_frame PLDM_RESPONSE instance_id PLDM_FILE_CMD_DF_OPEN PLDM_DF_OPEN_RESP_BYTES m payload_length (fun len =>
      _ ← pldm_msgbuf_insert KU8 cc;
      _ ← (if cc =? PLDM_SUCCESS then pldm_msgbuf_insert KU16 fd else mret 0);
      pldm_msgbuf_complete_used len len)
  | _, _ => Ok (- EINVAL, msg, payload_length)
  end.

Definition decode_pldm_file_df_open_resp (msg : option pldm_msg) (payload_length : Z)
    (resp : option pldm_file_df_open_resp) : outcome (Z * option pldm_file_df_open_resp) :=
  match msg, resp with
  | Some m, Some (DfOpenResp cc fd as r) =>
    rc ← pldm_msg_has_error m payload_length;
    if negb (rc =? 0) then mret (0, Some (DfOpenResp rc fd))
    else
    '(rc, r) ← decode_frame PLDM_DF_OPEN_RESP_BYTES m payload_length r (
      '(_, cc) ← pldm_msgbuf_extract KU8 cc;
      if negb (cc =? PLDM_SUCCESS) then finish_errno pldm_msgbuf_ro_complete (DfOpenResp cc fd)
      else
      '(_, fd) ← pldm_msgbuf_extract KU16 fd;
      finish_errno pldm_msgbuf_ro_complete_consumed (DfOpenResp cc fd));
    mret (rc, Some r)
  | _, _ => Ok (- EINVAL, resp)
  end.

Definition encode_pldm_file_df_close_req (instance_id : Z) (req : option pldm_file_df_close_req)
    (msg : option pldm_msg) (payload_length : option Z) : outcome (Z * option pldm_msg * option Z) :=
  match req, msg with
  | Some (DfCloseReq fd options), Some m =>
    file_frame PLDM_REQUEST instance_id PLDM_FILE_CMD_DF_CLOSE PLDM_DF_CLOSE_REQ_BYTES m payload_length (fun len =>
      _ ← pldm_msgbuf_insert KU16 fd;
      _ ← pldm_msgbuf_insert KU16 options;
      pldm_msgbuf_complete_used len len)
  | _, _ => Ok (- EINVAL, msg, payload_length)
  end.

Definition decode_pldm_file_df_close_req (msg : option pldm_msg) (payload_length : Z)
    (req : option pldm_file_df_close_req) : outcome (Z * option pldm_file_df_close_req) :=
  match msg, req with
  | Some m, Some (DfCloseReq fd options as r) =>
    '(rc, r) ← decode_frame PLDM_DF_CLOSE_REQ_BYTES m payload_length r (
      '(_, fd) ← pldm_msgbuf_extract KU16 fd;
      '(_, options) ← pldm_msgbuf_extract KU16 options;
      finish_errno pldm_msgbuf_ro_complete_consumed (DfCloseReq fd options));
    mret (rc, Some r)
  | _, _ => Ok (- EINVAL, req)
  end.

Definition encode_pldm_file_df_close_resp (instance_id : Z) (resp : option pldm_file_df_close_resp)
    (msg : option pldm_msg) (payload_length : option Z) : outcome (Z * option pldm_msg * option Z) :=
  match msg, resp with
  | Some m, Some (DfCloseResp cc) =>
    file_frame PLDM_RESPONSE instance_id PLDM_FILE_CMD_DF_CLOSE PLDM_DF_CLOSE_RESP_BYTES m payload_length (fun len =>
      _ ← pldm_msgbuf_insert KU8 cc;
      pldm_msgbuf_complete_used len len)
  | _, _ => Ok (- EINVAL, msg, payload_length)
  end.

(** An empty payload is no error to [pldm_msg_has_error]. *)
Definition decode_pldm_file_df_close_resp (msg : option pldm_msg) (payload_length : Z)
    (resp : option pldm_file_df_close_resp) : outcome (Z * option pldm_file_df_close_resp) :=
  match msg, resp with
  | Some m, Some _ =>
    rc ← pldm_msg_has_error m payload_length;
    mret (0, Some (DfCloseResp rc))
  | _, _ => Ok (- EINVAL, resp)
  end.

Definition encode_pldm_file_df_heartbeat_req (instance_id : Z) (req : option pldm_file_df_heartbeat_req)
    (msg : option pldm_msg) (payload_length : option Z) : outcome (Z * option pldm_msg * option Z) :=
  match req, msg with
  | Some (DfBeatReq fd interval), Some m =>
    file_frame PLDM_REQUEST instance_id PLDM_FILE_CMD_DF_HEARTBEAT PLDM_DF_HEARTBEAT_REQ_BYTES m payload_length (fun len =>
      _ ← pldm_msgbuf_insert KU16 fd;
      _ ← pldm_msgbuf_insert KU32 interval;
      pldm_msgbuf_complete_used len len)
  | _, _ => Ok (- EINVAL, msg, payload_length)
  end.

Definition decode_pldm_file_df_heartbeat_resp (msg : option pldm_msg) (payload_length : Z)
    (resp : option pldm_file_df_heartbeat_resp) : outcome (Z * option pldm_file_df_heartbeat_resp) :=
  match msg, resp with
  | Some m, Some (DfBeatResp cc interval as r) =>
    rc ← pldm_msg_has_error m payload_length;
    if negb (rc =? 0) then mret (0, Some (DfBeatResp rc interval))
    else
    '(rc, r) ← decode_frame PLDM_DF_HEARTBEAT_RESP_BYTES m payload_length r (
      '(_, cc) ← pldm_msgbuf_extract KU8 cc;
      '(_, interval) ← pldm_msgbuf_extract KU32 interval;
      finish_errno pldm_msgbuf_ro_complete_consumed (DfBeatResp cc interval));
    mret (rc, Some r)
  | _, _ => Ok (- EINVAL, resp)
  end.

Definition decode_pldm_file_df_heartbeat_req (msg : option pldm_msg) (payload_length : Z)
    (req : option pldm_file_df_heartbeat_req) : outcome (Z * option pldm_file_df_heartbeat_req) :=
  match msg, req with
  | Some m, Some (DfBeatReq fd interval as r) =>
    '(rc, r) ← decode_frame PLDM_DF_HEARTBEAT_REQ_BYTES m payload_length r (
      '(_, fd) ← pldm_msgbuf_extract KU16 fd;
      '(_, interval) ← pldm_msgbuf_extract KU32 interval;
      finish_errno pldm_msgbuf_ro_complete_consumed (DfBeatReq fd interval));
    mret (rc, Some r)
  | _, _ => Ok (- EINVAL, req)
  end.

Definition encode_pldm_file_df_heartbeat_resp (instance_id : Z) (resp : option pldm_file_df_heartbeat_resp)
    (msg : option pldm_msg) (payload_length : option Z) : outcome (Z * option pldm_msg * option Z) :=
  match msg, resp with
  | Some m, Some (DfBeatResp cc interval) =>
    file_frame PLDM_RESPONSE instance_id PLDM_FILE_CMD_DF_HEARTBEAT PLDM_DF_HEARTBEAT_RESP_BYTES m payload_length (fun len =>
      _ ← pldm_msgbuf_insert KU8 cc;
      _ ← (if cc =? PLDM_SUCCESS then pldm_msgbuf_insert KU32 interval else mret 0);
      pldm_msgbuf_complete_used len len)
  | _, _ => Ok (- EINVAL, msg, payload_length)
  end.

(** ** Any bytes *)

Definition open_req_typed (r : pldm_file_df_open_req) : Prop := u16_ok (file_identifier r) /\ u16_ok (file_attribute r).
Definition open_resp_typed (r : pldm_file_df_open_resp) : Prop :=
  byte_ok (do_completion_code r) /\ u16_ok (do_file_descriptor r).
Definition close_req_typed (r : pldm_file_df_close_req) : Prop :=
  u16_ok (dc_file_descriptor r) /\ u16_ok (df_close_options r).
Definition close_resp_typed (r : pldm_file_df_close_resp) : Prop := byte_ok (dc_completion_code r).
Definition beat_req_typed (r : pldm_file_df_heartbeat_req) : Prop :=
  u16_ok (db_file_descriptor r) /\ u32_ok (requester_max_interval r).
Definition beat_resp_typed (r : pldm_file_df_heartbeat_resp) : Prop :=
  byte_ok (db_completion_code r) /\ u32_ok (responder_max_interval r).

(** A payload of [n] bytes that has to be [size] long: shorter ones leave the object as it
    is, longer ones are read and then refused. *)
Definition read_whole {A} (n size : Z) (value old : A) : outcome (Z * option A) :=
  Ok (if n <? size then (- EOVERFLOW, Some old) else if n =? size then (0, Some value) else (- EBADMSG, Some value)).

(** The completion code of a payload of [n] bytes; an empty one counts as a success. *)
Definition code_of (m : cmem) (n : Z) : Z := if n <? 1 then 0 else fld m 0 1.

Section exact.
Context (h : pldm_msg_hdr) (m : cmem) (n : Z).
Hypothesis Hm : mem_ok m.
Hypothesis Hn : 0 <= n <= mem_size m.

Lemma frame_exact {A} size (init value : A) body :
  (forall b, mb_rd m n 0 b -> size <= n ->
     wp body b (fun r b' => mb_done b' /\ r = (if size =? n then 0 else if size <? n then - EBADMSG else - EOVERFLOW, value))) ->
  ('(rc, r) ← decode_frame size (Msg h m) n init body; mret (rc, Some r)) = read_whole n size value init.
Proof.
  intros Hbody. unfold read_whole. destruct (Z.ltb_spec n size); [by rewrite decode_frame_short|].
  change (decode_frame size (Msg h m) n init body) with (errno_scope size m n init body).
  rewrite (errno_scope_is size m n Hm Hn init body (if size =? n then 0 else if size <? n then - EBADMSG else - EOVERFLOW) value);
    [|done|auto].
  cbn [mbind outcome_bind]. destruct (Z.eqb_spec size n), (Z.eqb_spec n size); try lia; [done|].
  by replace (size <? n) with true by lia.
Qed.

Ltac whole :=
  apply frame_exact; intros b Hb ?; do 2 mb_extract_in; unfold finish_errno; apply wp_bind;
  match goal with H : mb_rd _ _ ?c ?b |- _ => apply (wp_complete_consumed_rd m n c b _ H) end;
  intros; by apply wp_ret.

Lemma open_req_exact r :
  decode_pldm_file_df_open_req (Some (Msg h m)) n (Some r) = read_whole n 4 (DfOpenReq (fld m 0 2) (fld m 2 2)) r.
Proof. destruct r. whole. Qed.

Lemma close_req_exact r :
  decode_pldm_file_df_close_req (Some (Msg h m)) n (Some r) = read_whole n 4 (DfCloseReq (fld m 0 2) (fld m 2 2)) r.
Proof. destruct r. whole. Qed.

Lemma beat_req_exact r :
  decode_pldm_file_df_heartbeat_req (Some (Msg h m)) n (Some r) = read_whole n 6 (DfBeatReq (fld m 0 2) (fld m 2 4)) r.
Proof. destruct r. whole. Qed.

Lemma close_resp_exact r :
  decode_pldm_file_df_close_resp (Some (Msg h m)) n (Some r) = Ok (0, Some (DfCloseResp (code_of m n))).
Proof. unfold decode_pldm_file_df_close_resp. by rewrite has_error_ok by done. Qed.

Lemma open_resp_exact r :
  decode_pldm_file_df_open_resp (Some (Msg h m)) n (Some r)
  = if code_of m n =? 0 then read_whole n 3 (DfOpenResp 0 (fld m 1 2)) r
    else Ok (0, Some (DfOpenResp (code_of m n) (do_file_descriptor r))).
Proof.
  destruct r as [cc fd]. unfold decode_pldm_file_df_open_resp. rewrite has_error_ok by done. fold (code_of m n).
  cbn [mbind outcome_bind]. destruct (Z.eqb_spec (code_of m n) 0) as [E|E]; cbn [negb]; [|done].
  apply frame_exact. intros b Hb Hl. unfold code_of in E. replace (n <? 1) with false in E by lia.
  mb_extract_in. rewrite E. cbn [Z.eqb negb]. mb_extract_in. unfold finish_errno. apply wp_bind.
  match goal with H : mb_rd _ _ ?c ?b |- _ => apply (wp_complete_consumed_rd m n c b _ H) end.
  intros. by apply wp_ret.
Qed.

Lemma beat_resp_exact r :
  decode_pldm_file_df_heartbeat_resp (Some (Msg h m)) n (Some r)
  = if code_of m n =? 0 then read_whole n 5 (DfBeatResp 0 (fld m 1 4)) r
    else Ok (0, Some (DfBeatResp (code_of m n) (responder_max_interval r))).
Proof.
  destruct r as [cc fd]. unfold decode_pldm_file_df_heartbeat_resp. rewrite has_error_ok by done. fold (code_of m n).
  cbn [mbind outcome_bind]. destruct (Z.eqb_spec (code_of m n) 0) as [E|E]; cbn [negb]; [|done].
  apply frame_exact. intros b Hb Hl. unfold code_of in E. replace (n <? 1) with false in E by lia.
  mb_extract_in. rewrite E. mb_extract_in. unfold finish_errno. apply wp_bind.
  match goal with H : mb_rd _ _ ?c ?b |- _ => apply (wp_complete_consumed_rd m n c b _ H) end.
  intros. by apply wp_ret.
Qed.
End exact.

(** The response to DfClose that is not there is a success. *)
Lemma df_close_resp_empty h m r :
  decode_pldm_file_df_close_resp (Some (Msg h m)) 0 (Some r) = Ok (0, Some (DfCloseResp PLDM_SUCCESS)).
Proof. done. Qed.

(** ** From the encoder to the decoder *)

Section carried.
Context (inst : Z) (msg : pldm_msg).
Hypothesis Hmem : mem_ok (payload msg).
Hypothesis Hi : 0 <= inst <= 31.

(** [enc] writes [used] bytes of the [n] it has, which [dec] reads as [a]. *)
Definition exchanged {A} (enc : option pldm_msg -> option Z -> outcome (Z * option pldm_msg * option Z))
    (dec : option pldm_msg -> Z -> option A -> outcome (Z * option A)) (used : Z) (a0 a : A) (n : Z) : Prop :=
  exists m, enc (Some msg) (Some n) = Ok (0, Some m, Some used) /\ dec (Some m) used (Some a0) = Ok (0, Some a).

Definition requests_carried : Prop :=
  (forall r r0 n, open_req_typed r -> 4 <= n <= mem_size (payload msg) ->
     exchanged (encode_pldm_file_df_open_req inst (Some r)) decode_pldm_file_df_open_req 4 r0 r n) /\
  (forall r r0 n, close_req_typed r -> 4 <= n <= mem_size (payload msg) ->
     exchanged (encode_pldm_file_df_close_req inst (Some r)) decode_pldm_file_df_close_req 4 r0 r n) /\
  (forall r r0 n, beat_req_typed r -> 6 <= n <= mem_size (payload msg) ->
     exchanged (encode_pldm_file_df_heartbeat_req inst (Some r)) decode_pldm_file_df_heartbeat_req 6 r0 r n).

Lemma requests_roundtrip : requests_carried.
Proof.
  unfold requests_carried, exchanged. split_and!.
  - intros [id attr] [id0 attr0] n [? ?] Hs. cbn [file_identifier file_attribute] in *.
    unfold encode_pldm_file_df_open_req, file_frame. send_fields [(KU16, id); (KU16, attr)].
    eexists. split; [reflexivity|]. unfold decode_pldm_file_df_open_req. known_message. read_known. done.
  - intros [id attr] [id0 attr0] n [? ?] Hs. cbn [dc_file_descriptor df_close_options] in *.
    unfold encode_pldm_file_df_close_req, file_frame. send_fields [(KU16, id); (KU16, attr)].
    eexists. split; [reflexivity|]. unfold decode_pldm_file_df_close_req. known_message. read_known. done.
  - intros [id attr] [id0 attr0] n [? ?] Hs. cbn [db_file_descriptor requester_max_interval] in *.
    unfold encode_pldm_file_df_heartbeat_req, file_frame. send_fields [(KU16, id); (KU32, attr)].
    eexists. split; [reflexivity|]. unfold decode_pldm_file_df_heartbeat_req. known_message. read_known. done.
Qed.

(** A response carries its value with a success, and its completion code alone with an
    error; the buffer must have room for the value all the same. *)
Definition responses_carried : Prop :=
  (forall r r0 n, open_resp_typed r -> 3 <= n <= mem_size (payload msg) ->
     exchanged (encode_pldm_file_df_open_resp inst (Some r)) decode_pldm_file_df_open_resp
       (if do_completion_code r =? 0 then 3 else 1) r0
       (DfOpenResp (do_completion_code r) (do_file_descriptor (if do_completion_code r =? 0 then r else r0))) n) /\
  (forall r r0 n, close_resp_typed r -> 1 <= n <= mem_size (payload msg) ->
     exchanged (encode_pldm_file_df_close_resp inst (Some r)) decode_pldm_file_df_close_resp 1 r0 r n) /\
  (forall r r0 n, beat_resp_typed r -> 5 <= n <= mem_size (payload msg) ->
     exchanged (encode_pldm_file_df_heartbeat_resp inst (Some r)) decode_pldm_file_df_heartbeat_resp
       (if db_completion_code r =? 0 then 5 else 1) r0
       (DfBeatResp (db_completion_code r) (responder_max_interval (if db_completion_code r =? 0 then r else r0))) n).

(** One that is only a completion code. *)
Lemma send_code cmd minsize cc n (body : Z -> B (Z * Z)) :
  cc <> 0 -> 1 <= minsize <= n -> n <= mem_size (payload msg) ->
  (forall b, body n b = (_ ← pldm_msgbuf_insert KU8 cc; pldm_msgbuf_complete_used n n) b) ->
  file_frame PLDM_RESPONSE inst cmd minsize msg (Some n) body
  = Ok (0, Some (Msg (packed PLDM_RESPONSE inst PLDM_FILE cmd) (wrote (payload msg) (fields_bytes [(KU8, cc)]))), Some 1).
Proof.
  intros Hcc Hmin Hn Hbody. unfold file_frame.
  rewrite (encode_frame_is PLDM_RESPONSE inst PLDM_FILE cmd minsize msg n (body n) 1 (fields_bytes [(KU8, cc)])); [done|..];
    [repeat constructor|done|lia|done|lia|lia|].
  intros b Hb. unfold wp. rewrite Hbody. change (wp (_ ← pldm_msgbuf_insert KU8 cc; pldm_msgbuf_complete_used n n) b
    (fun '(rc, l) b' => mb_done b' /\ rc = 0 /\ l = 1 /\ obj b' = wrote (payload msg) (fields_bytes [(KU8, cc)]))).
  mb_insert. fields_used [(KU8, cc)].
Qed.

Lemma responses_roundtrip : responses_carried.
Proof.
  unfold responses_carried, exchanged. split_and!.
  - intros [cc fd] [cc0 fd0] n [? ?] Hs. cbn [do_completion_code do_file_descriptor] in *.
    unfold encode_pldm_file_df_open_resp, decode_pldm_file_df_open_resp.
    destruct (Z.eqb_spec cc 0) as [->|Hcc].
    + unfold file_frame. cbn [Z.eqb]. send_fields [(KU8, 0); (KU16, fd)]. eexists. split; [reflexivity|].
      known_message. no_error. read_known. done.
    + rewrite (send_code _ _ cc) by (done || lia). eexists. split; [reflexivity|]. known_message. no_error.
      replace (cc =? 0) with false by lia. done.
  - intros [cc] [cc0] n ? Hs. unfold close_resp_typed in *. cbn [dc_completion_code] in *.
    unfold encode_pldm_file_df_close_resp, decode_pldm_file_df_close_resp, file_frame.
    send_fields [(KU8, cc)]. eexists. split; [reflexivity|]. known_message. no_error. done.
  - intros [cc fd] [cc0 fd0] n [? ?] Hs. cbn [db_completion_code responder_max_interval] in *.
    unfold encode_pldm_file_df_heartbeat_resp, decode_pldm_file_df_heartbeat_resp.
    destruct (Z.eqb_spec cc 0) as [->|Hcc].
    + unfold file_frame. cbn [Z.eqb]. send_fields [(KU8, 0); (KU32, fd)]. eexists. split; [reflexivity|].
      known_message. no_error. read_known. done.
    + rewrite (send_code _ _ cc) by (done || lia). eexists. split; [reflexivity|]. known_message. no_error.
      replace (cc =? 0) with false by lia. done.
Qed.
End carried.

(** C38: What the decoders of file transfer messages answer for any bytes and any length
    of the payload, field by field.  Each request has one length: a shorter payload is
    refused with the object unchanged, one of that length gives the fields at their
    offsets, low byte first, a longer one is refused.  A response whose completion code is
    an error is a success of the decoder, with the code and the rest of the object
    unchanged; one with a success has one length, as a request does, and gives its field
    behind the code; the response to DfClose, which is its code alone, is not asked for
    its length, so that an empty one is a success. *)
Theorem file_decoders_exact h m n :
  mem_ok m -> 0 <= n <= mem_size m ->
  (forall r, decode_pldm_file_df_open_req (Some (Msg h m)) n (Some r)
     = read_whole n 4 (DfOpenReq (fld m 0 2) (fld m 2 2)) r) /\
  (forall r, decode_pldm_file_df_close_req (Some (Msg h m)) n (Some r)
     = read_whole n 4 (DfCloseReq (fld m 0 2) (fld m 2 2)) r) /\
  (forall r, decode_pldm_file_df_heartbeat_req (Some (Msg h m)) n (Some r)
     = read_whole n 6 (DfBeatReq (fld m 0 2) (fld m 2 4)) r) /\
  (forall r, decode_pldm_file_df_open_resp (Some (Msg h m)) n (Some r)
     = if code_of m n =? 0 then read_whole n 3 (DfOpenResp 0 (fld m 1 2)) r
       else Ok (0, Some (DfOpenResp (code_of m n) (do_file_descriptor r)))) /\
  (forall r, decode_pldm_file_df_close_resp (Some (Msg h m)) n (Some r) = Ok (0, Some (DfCloseResp (code_of m n)))) /\
  (forall r, decode_pldm_file_df_heartbeat_resp (Some (Msg h m)) n (Some r)
     = if code_of m n =? 0 then read_whole n 5 (DfBeatResp 0 (fld m 1 4)) r
       else Ok (0, Some (DfBeatResp (code_of m n) (responder_max_interval r)))).
Proof.
  intros. split_and!; intros; [by apply open_req_exact|by apply close_req_exact|by apply beat_req_exact
    |by apply open_resp_exact|by apply close_resp_exact|by apply beat_resp_exact].
Qed.

Lemma file_decoders_exact_witness :
  let msg := Some (Msg (MsgHdr 0 0 0 0 0 0 0) (CMem 4096 [0; 0x34; 0x12; 9])) in
  let failed := Some (Msg (MsgHdr 0 0 0 0 0 0 0) (CMem 4096 [5])) in
  decode_pldm_file_df_open_resp msg 3 (Some (DfOpenResp 7 8)) = Ok (0, Some (DfOpenResp 0 0x1234)) /\
  decode_pldm_file_df_open_resp msg 4 (Some (DfOpenResp 7 8)) = Ok (- EBADMSG, Some (DfOpenResp 0 0x1234)) /\
  decode_pldm_file_df_open_resp failed 1 (Some (DfOpenResp 7 8)) = Ok (0, Some (DfOpenResp 5 8)).
Proof.
  destruct (file_decoders_exact (MsgHdr 0 0 0 0 0 0 0) (CMem 4096 [0; 0x34; 0x12; 9]) 3
    ltac:(concrete) ltac:(by vm_compute)) as (_ & _ & _ & H3 & _).
  destruct (file_decoders_exact (MsgHdr 0 0 0 0 0 0 0) (CMem 4096 [0; 0x34; 0x12; 9]) 4
    ltac:(concrete) ltac:(by vm_compute)) as (_ & _ & _ & H4 & _).
  destruct (file_decoders_exact (MsgHdr 0 0 0 0 0 0 0) (CMem 4096 [5]) 1
    ltac:(concrete) ltac:(by vm_compute)) as (_ & _ & _ & H1 & _).
  split; [exact (H3 _)|]. split; [exact (H4 _)|exact (H1 _)].
Defined.

(** What the encoders of file transfer messages write, the decoders read: the
    requests to open and close a file and the heartbeat with both of their fields, the
    responses with their value on a success, and with the completion code alone, in one
    byte, on an error, which leaves the value the requester had. *)
Theorem file_messages_roundtrip inst msg :
  mem_ok (payload msg) -> 0 <= inst <= 31 -> requests_carried inst msg /\ responses_carried inst msg.
Proof. intros. split; [by apply requests_roundtrip|by apply responses_roundtrip]. Qed.

Lemma file_messages_roundtrip_witness :
  let msg := Msg (MsgHdr 0 0 0 0 0 0 0) (CMem 4096 (replicate 8 7)) in
  exists m, encode_pldm_file_df_heartbeat_req 3 (Some (DfBeatReq 0x102 0x3040506)) (Some msg) (Some 8) = Ok (0, Some m, Some 6) /\
    bytes (payload m) = [2; 1; 6; 5; 4; 3; 7; 7] /\
    decode_pldm_file_df_heartbeat_req (Some m) 6 (Some (DfBeatReq 0 0)) = Ok (0, Some (DfBeatReq 0x102 0x3040506)).
Proof.
  destruct (file_messages_roundtrip 3 (Msg (MsgHdr 0 0 0 0 0 0 0) (CMem 4096 (replicate 8 7)))
    ltac:(concrete) ltac:(lia)) as [(_ & _ & H) _].
  destruct (H (DfBeatReq 0x102 0x3040506) (DfBeatReq 0 0) 8) as (m & E & D); [by vm_compute|by vm_compute|].
  exists m. split; [exact E|]. split; [|exact D]. vm_compute in E. injection E as <-. reflexivity.
Defined.
