(* ===== verification/OemIbm.v ===== *)
(** * IBM's messages (src/oem/ibm)

    The codecs of file_io.c, for files a host and its BMC exchange in messages or
    through memory, of host.c, for the status of alerts, and of platform.c, for the
    event of a changed BIOS attribute; and that they fit. *)

From S2P Require Import Prelude Msgbuf Layout Base Legacy Exchange.

Abbreviation PLDM_OEM := 0x3f (only parsing).
Abbreviation PLDM_PLATFORM := 0x02 (only parsing).
Abbreviation PLDM_PLATFORM_EVENT_MESSAGE := 0x0a (only parsing).
Abbreviation PLDM_GET_FILE_TABLE := 0x1 (only parsing).
Abbreviation PLDM_READ_FILE := 0x4 (only parsing).
Abbreviation PLDM_WRITE_FILE := 0x5 (only parsing).
Abbreviation PLDM_NEW_FILE_AVAILABLE := 0xa (only parsing).
Abbreviation PLDM_READ_FILE_BY_TYPE := 0xb (only parsing).
Abbreviation PLDM_WRITE_FILE_BY_TYPE := 0xc (only parsing).
Abbreviation PLDM_FILE_ACK := 0xd (only parsing).
Abbreviation PLDM_NEW_FILE_AVAILABLE_WITH_META_DATA := 0xe (only parsing).
Abbreviation PLDM_FILE_ACK_WITH_META_DATA := 0xf (only parsing).
Abbreviation PLDM_HOST_GET_ALERT_STATUS := 0xf0 (only parsing).
Abbreviation PLDM_EVENT_TYPE_OEM_EVENT_BIOS_ATTRIBUTE_UPDATE := 0xf0 (only parsing).

(** ** Shapes *)

(** [*p = v] where [p] was not compared with NULL. *)
Definition assign (p : option Z) (v : Z) : outcome (option Z) :=
  match p with Some _ => Ok (Some v) | None => Fault FMemory end.

(** A request or response of fixed members behind its header. *)
Definition oem_members (ty instance_id command null : Z) (msg : option pldm_msg) (fs : list (nat * Z))
  : outcome (Z * option pldm_msg) :=
  match msg with
  | None => Ok (null, msg)
  | Some m =>
    legacy_frame ty instance_id PLDM_OEM command m (fun m =>
      m ← put_members m 0 fs;
      mret (PLDM_SUCCESS, Some m))
  end.

(** A response with a length behind its completion code, on a success. *)
Definition cc_length (completion_code length : Z) : list (nat * Z) :=
  if completion_code =? PLDM_SUCCESS then [(1%nat, completion_code); (4%nat, length)] else [(1%nat, completion_code)].

(** And its decoder, from a payload of exactly [size] bytes. *)
Definition decode_cc_length (size : Z) (msg : option pldm_msg) (payload_length : Z) (outs : option (Z * Z))
  : outcome (Z * option (Z * Z)) :=
  match msg, outs with
  | Some m, Some (_, length) =>
    if negb (payload_length =? size) then Ok (PLDM_ERROR_INVALID_LENGTH, outs)
    else
    cc ← member m 0 1;
    if cc =? PLDM_SUCCESS then
      length ← member m 1 4; mret (PLDM_SUCCESS, Some (cc, length))
    else mret (PLDM_SUCCESS, Some (cc, length))
  | _, _ => Ok (PLDM_ERROR_INVALID_DATA, outs)
  end.

(** A response that is a completion code. *)
Definition decode_cc (msg : option pldm_msg) (payload_length : Z) (completion_code : option Z)
  : outcome (Z * option Z) :=
  match msg, completion_code with
  | Some m, Some _ =>
    if negb (payload_length =? 1) then Ok (PLDM_ERROR_INVALID_LENGTH, completion_code)
    else cc ← member m 0 1; mret (PLDM_SUCCESS, Some cc)
  | _, _ => Ok (PLDM_ERROR_INVALID_DATA, completion_code)
  end.

(** ** Files through memory *)

Definition decode_rw_file_memory_req (msg : option pldm_msg) (payload_length : Z)
    (outs : option (Z * Z * Z * Z)) : outcome (Z * option (Z * Z * Z * Z)) :=
  match msg, outs with
  | Some m, Some _ =>
    if negb (payload_length =? 20) then Ok (PLDM_ERROR_INVALID_LENGTH, outs)
    else
    file_handle ← member m 0 4;
    offset ← member m 4 4;
    length ← member m 8 4;
    address ← member m 12 8;
    mret (PLDM_SUCCESS, Some (file_handle, offset, length, address))
  | _, _ => Ok (PLDM_ERROR_INVALID_DATA, outs)
  end.

Definition encode_rw_file_memory_resp (instance_id command completion_code length : Z) (msg : option pldm_msg)
  : outcome (Z * option pldm_msg) :=
  oem_members PLDM_RESPONSE instance_id command PLDM_ERROR_INVALID_LENGTH msg (cc_length completion_code length).

Definition encode_rw_file_memory_req (instance_id command file_handle offset length address : Z)
    (msg : option pldm_msg) : outcome (Z * option pldm_msg) :=
  oem_members PLDM_REQUEST instance_id command PLDM_ERROR_INVALID_DATA msg
    [(4%nat, file_handle); (4%nat, offset); (4%nat, length); (8%nat, address)].

Definition decode_rw_file_memory_resp (msg : option pldm_msg) (payload_length : Z) (outs : option (Z * Z))
  : outcome (Z * option (Z * Z)) := decode_cc_length 5 msg payload_length outs.

(** ** The table of files *)

Definition decode_get_file_table_req (msg : option pldm_msg) (payload_length : Z) (outs : option (Z * Z * Z))
  : outcome (Z * option (Z * Z * Z)) :=
  match msg, outs with
  | Some m, Some _ =>
    if negb (payload_length =? 6) then Ok (PLDM_ERROR_INVALID_LENGTH, outs)
    else
    transfer_handle ← member m 0 4;
    transfer_opflag ← member m 4 1;
    table_type ← member m 5 1;
    mret (PLDM_SUCCESS, Some (transfer_handle, transfer_opflag, table_type))
  | _, _ => Ok (PLDM_ERROR_INVALID_DATA, outs)
  end.

Definition encode_get_file_table_resp (instance_id completion_code next_transfer_handle transfer_flag : Z)
    (table_data : ptr) (table_size : Z) (msg : option pldm_msg) : outcome (Z * option pldm_msg) :=
  match msg with
  | Some m =>
    if (completion_code =? PLDM_SUCCESS) && negb (given table_data) then Ok (PLDM_ERROR_INVALID_LENGTH, msg)
    else
    legacy_frame PLDM_RESPONSE instance_id PLDM_OEM PLDM_GET_FILE_TABLE m (fun m =>
      m ← payload_write m 0 [completion_code];
      if completion_code =? PLDM_SUCCESS then
        m ← put_members m 1 [(4%nat, next_transfer_handle); (1%nat, transfer_flag)];
        l ← mem_read (default (CMem 0 []) table_data) 0 table_size;
        m ← payload_write m 6 l;
        mret (PLDM_SUCCESS, Some m)
      else mret (PLDM_SUCCESS, Some m))
  | None => Ok (PLDM_ERROR_INVALID_LENGTH, msg)
  end.

Definition encode_get_file_table_req (instance_id transfer_handle transfer_opflag table_type : Z)
    (msg : option pldm_msg) : outcome (Z * option pldm_msg) :=
  oem_members PLDM_REQUEST instance_id PLDM_GET_FILE_TABLE PLDM_ERROR_INVALID_DATA msg
    [(4%nat, transfer_handle); (1%nat, transfer_opflag); (1%nat, table_type)].

(** The outputs: completion code, next handle, flag, where the table starts, its
    length. *)
Definition decode_get_file_table_resp (msg : option pldm_msg) (payload_length : Z)
    (outs : option (Z * Z * Z * Z * Z)) : outcome (Z * option (Z * Z * Z * Z * Z)) :=
  match msg, outs with
  | Some m, Some (_, next, flag, start, length) =>
    if payload_length <=? 6 then Ok (PLDM_ERROR_INVALID_LENGTH, outs)
    else
    cc ← member m 0 1;
    if negb (cc =? PLDM_SUCCESS) then mret (PLDM_SUCCESS, Some (cc, next, flag, start, length))
    else
    next ← member m 1 4;
    flag ← member m 5 1;
    mret (PLDM_SUCCESS, Some (cc, next, flag, 6, payload_length - 6))
  | _, _ => Ok (PLDM_ERROR_INVALID_DATA, outs)
  end.

(** ** Files in messages *)

Definition decode_read_file_req (msg : option pldm_msg) (payload_length : Z) (outs : option (Z * Z * Z))
  : outcome (Z * option (Z * Z * Z)) :=
  match msg, outs with
  | Some m, Some _ =>
    if negb (payload_length =? 12) then Ok (PLDM_ERROR_INVALID_LENGTH, outs)
    else
    file_handle ← member m 0 4;
    offset ← member m 4 4;
    length ← member m 8 4;
    mret (PLDM_SUCCESS, Some (file_handle, offset, length))
  | _, _ => Ok (PLDM_ERROR_INVALID_DATA, outs)
  end.

Definition encode_read_file_req (instance_id file_handle offset length : Z) (msg : option pldm_msg)
  : outcome (Z * option pldm_msg) :=
  if given msg && (length =? 0) then Ok (PLDM_ERROR_INVALID_LENGTH, msg)
  else oem_members PLDM_REQUEST instance_id PLDM_READ_FILE PLDM_ERROR_INVALID_DATA msg
    [(4%nat, file_handle); (4%nat, offset); (4%nat, length)].

(** The sum of the size and the length is one of 32 bits. *)
Definition decode_read_file_resp (msg : option pldm_msg) (payload_length : Z) (outs : option (Z * Z))
    (file_data_offset : option Z) : outcome (Z * option (Z * Z) * option Z) :=
  match msg, outs with
  | Some m, Some (_, length) =>
    if payload_length <? 5 then Ok (PLDM_ERROR_INVALID_LENGTH, outs, file_data_offset)
    else
    cc ← member m 0 1;
    if cc =? PLDM_SUCCESS then
      length ← member m 1 4;
      if negb (payload_length =? u32 (5 + length)) then
        mret (PLDM_ERROR_INVALID_LENGTH, Some (cc, length), file_data_offset)
      else
      file_data_offset ← assign file_data_offset 5;
      mret (PLDM_SUCCESS, Some (cc, length), file_data_offset)
    else mret (PLDM_SUCCESS, Some (cc, length), file_data_offset)
  | _, _ => Ok (PLDM_ERROR_INVALID_DATA, outs, file_data_offset)
  end.

Definition encode_read_file_resp (instance_id completion_code length : Z) (msg : option pldm_msg)
  : outcome (Z * option pldm_msg) :=
  oem_members PLDM_RESPONSE instance_id PLDM_READ_FILE PLDM_ERROR_INVALID_DATA msg (cc_length completion_code length).

(** [offset] and [file_data_offset] are not compared with NULL. *)
Definition decode_write_file_req (msg : option pldm_msg) (payload_length : Z) (outs : option (Z * Z))
    (offset file_data_offset : option Z) : outcome (Z * option (Z * Z) * option Z * option Z) :=
  match msg, outs with
  | Some m, Some _ =>
    if payload_length <? 12 then Ok (PLDM_ERROR_INVALID_LENGTH, outs, offset, file_data_offset)
    else
    file_handle ← member m 0 4;
    o ← member m 4 4;
    offset ← assign offset o;
    length ← member m 8 4;
    if negb (payload_length =? u32 (12 + length)) then
      mret (PLDM_ERROR_INVALID_LENGTH, Some (file_handle, length), offset, file_data_offset)
    else
    file_data_offset ← assign file_data_offset 12;
    mret (PLDM_SUCCESS, Some (file_handle, length), offset, file_data_offset)
  | _, _ => Ok (PLDM_ERROR_INVALID_DATA, outs, offset, file_data_offset)
  end.

Definition encode_write_file_req (instance_id file_handle offset length : Z) (msg : option pldm_msg)
  : outcome (Z * option pldm_msg) :=
  if given msg && (length =? 0) then Ok (PLDM_ERROR_INVALID_LENGTH, msg)
  else oem_members PLDM_REQUEST instance_id PLDM_WRITE_FILE PLDM_ERROR_INVALID_DATA msg
    [(4%nat, file_handle); (4%nat, offset); (4%nat, length)].

Definition decode_write_file_resp (msg : option pldm_msg) (payload_length : Z) (outs : option (Z * Z))
  : outcome (Z * option (Z * Z)) := decode_cc_length 5 msg payload_length outs.

Definition encode_write_file_resp (instance_id completion_code length : Z) (msg : option pldm_msg)
  : outcome (Z * option pldm_msg) :=
  oem_members PLDM_RESPONSE instance_id PLDM_WRITE_FILE PLDM_ERROR_INVALID_DATA msg (cc_length completion_code length).

(** ** Files by type *)

Definition decode_rw_file_by_type_memory_req (msg : option pldm_msg) (payload_length : Z)
    (outs : option (Z * Z * Z * Z * Z)) : outcome (Z * option (Z * Z * Z * Z * Z)) :=
  match msg, outs with
  | Some m, Some _ =>
    if negb (payload_length =? 22) then Ok (PLDM_ERROR_INVALID_LENGTH, outs)
    else
    file_type ← member m 0 2;
    file_handle ← member m 2 4;
    offset ← member m 6 4;
    length ← member m 10 4;
    address ← member m 14 8;
    mret (PLDM_SUCCESS, Some (file_type, file_handle, offset, length, address))
  | _, _ => Ok (PLDM_ERROR_INVALID_DATA, outs)
  end.

Definition encode_rw_file_by_type_memory_resp (instance_id command completion_code length : Z)
    (msg : option pldm_msg) : outcome (Z * option pldm_msg) :=
  oem_members PLDM_RESPONSE instance_id command PLDM_ERROR_INVALID_DATA msg (cc_length completion_code length).

Definition encode_rw_file_by_type_memory_req (instance_id command file_type file_handle offset length address : Z)
    (msg : option pldm_msg) : outcome (Z * option pldm_msg) :=
  oem_members PLDM_REQUEST instance_id command PLDM_ERROR_INVALID_DATA msg
    [(2%nat, file_type); (4%nat, file_handle); (4%nat, offset); (4%nat, length); (8%nat, address)].

Definition decode_rw_file_by_type_memory_resp (msg : option pldm_msg) (payload_length : Z) (outs : option (Z * Z))
  : outcome (Z * option (Z * Z)) := decode_cc_length 5 msg payload_length outs.

Definition decode_rw_file_by_type_req (msg : option pldm_msg) (payload_length : Z) (outs : option (Z * Z * Z * Z))
  : outcome (Z * option (Z * Z * Z * Z)) :=
  match msg, outs with
  | Some m, Some _ =>
    if payload_length <? 14 then Ok (PLDM_ERROR_INVALID_LENGTH, outs)
    else
    file_type ← member m 0 2;
    file_handle ← member m 2 4;
    offset ← member m 6 4;
    length ← member m 10 4;
    mret (PLDM_SUCCESS, Some (file_type, file_handle, offset, length))
  | _, _ => Ok (PLDM_ERROR_INVALID_DATA, outs)
  end.

Definition by_type_command (command : Z) : bool :=
  (command =? PLDM_READ_FILE_BY_TYPE) || (command =? PLDM_WRITE_FILE_BY_TYPE).

Definition encode_rw_file_by_type_resp (instance_id command completion_code length : Z) (msg : option pldm_msg)
  : outcome (Z * option pldm_msg) :=
  if negb (by_type_command command) then Ok (PLDM_ERROR_INVALID_DATA, msg)
  else oem_members PLDM_RESPONSE instance_id command PLDM_ERROR_INVALID_DATA msg (cc_length completion_code length).

Definition encode_rw_file_by_type_req (instance_id command file_type file_handle offset length : Z)
    (msg : option pldm_msg) : outcome (Z * option pldm_msg) :=
  if negb (by_type_command command) then Ok (PLDM_ERROR_INVALID_DATA, msg)
  else oem_members PLDM_REQUEST instance_id command PLDM_ERROR_INVALID_DATA msg
    [(2%nat, file_type); (4%nat, file_handle); (4%nat, offset); (4%nat, length)].

Definition decode_rw_file_by_type_resp (msg : option pldm_msg) (payload_length : Z) (outs : option (Z * Z))
  : outcome (Z * option (Z * Z)) := decode_cc_length 5 msg payload_length outs.

(** ** New files and acknowledgements *)

Definition decode_new_file_req (msg : option pldm_msg) (payload_length : Z) (outs : option (Z * Z * Z))
  : outcome (Z * option (Z * Z * Z)) :=
  match msg, outs with
  | Some m, Some _ =>
    if negb (payload_length =? 14) then Ok (PLDM_ERROR_INVALID_LENGTH, outs)
    else
    file_type ← member m 0 2;
    file_handle ← member m 2 4;
    length ← member m 6 8;
    mret (PLDM_SUCCESS, Some (file_type, file_handle, length))
  | _, _ => Ok (PLDM_ERROR_INVALID_DATA, outs)
  end.

Definition encode_new_file_resp (instance_id completion_code : Z) (msg : option pldm_msg)
  : outcome (Z * option pldm_msg) :=
  oem_members PLDM_RESPONSE instance_id PLDM_NEW_FILE_AVAILABLE PLDM_ERROR_INVALID_DATA msg [(1%nat, completion_code)].

Definition encode_new_file_req (instance_id file_type file_handle length : Z) (msg : option pldm_msg)
  : outcome (Z * option pldm_msg) :=
  oem_members PLDM_REQUEST instance_id PLDM_NEW_FILE_AVAILABLE PLDM_ERROR_INVALID_DATA msg
    [(2%nat, file_type); (4%nat, file_handle); (8%nat, length)].

Definition decode_new_file_resp (msg : option pldm_msg) (payload_length : Z) (completion_code : option Z)
  : outcome (Z * option Z) := decode_cc msg payload_length completion_code.

(** [file_status] is not compared with NULL. *)
Definition decode_file_ack_req (msg : option pldm_msg) (payload_length : Z) (outs : option (Z * Z))
    (file_status : option Z) : outcome (Z * option (Z * Z) * option Z) :=
  match msg, outs with
  | Some m, Some _ =>
    if negb (payload_length =? 7) then Ok (PLDM_ERROR_INVALID_LENGTH, outs, file_status)
    else
    file_type ← member m 0 2;
    file_handle ← member m 2 4;
    s ← member m 6 1;
    file_status ← assign file_status s;
    mret (PLDM_SUCCESS, Some (file_type, file_handle), file_status)
  | _, _ => Ok (PLDM_ERROR_INVALID_DATA, outs, file_status)
  end.

Definition encode_file_ack_resp (instance_id completion_code : Z) (msg : option pldm_msg)
  : outcome (Z * option pldm_msg) :=
  oem_members PLDM_RESPONSE instance_id PLDM_FILE_ACK PLDM_ERROR_INVALID_DATA msg [(1%nat, completion_code)].

Definition encode_file_ack_req (instance_id file_type file_handle file_status : Z) (msg : option pldm_msg)
  : outcome (Z * option pldm_msg) :=
  oem_members PLDM_REQUEST instance_id PLDM_FILE_ACK PLDM_ERROR_INVALID_DATA msg
    [(2%nat, file_type); (4%nat, file_handle); (1%nat, file_status)].

Definition decode_file_ack_resp (msg : option pldm_msg) (payload_length : Z) (completion_code : option Z)
  : outcome (Z * option Z) := decode_cc msg payload_length completion_code.

(** ** With meta data *)

Record file_meta_data := MetaData {
  file_meta_data_1 : Z; file_meta_data_2 : Z; file_meta_data_3 : Z; file_meta_data_4 : Z
}.

Definition meta_members (meta : file_meta_data) : list (nat * Z) :=
  [(4%nat, file_meta_data_1 meta); (4%nat, file_meta_data_2 meta); (4%nat, file_meta_data_3 meta);
   (4%nat, file_meta_data_4 meta)].

(** The four words from [off], to pointers that are not compared with NULL: [None] if one
    of them is. *)
Definition decode_meta (m : pldm_msg) (off : Z) (meta : option file_meta_data) : outcome (option file_meta_data) :=
  m1 ← member m off 4;
  m2 ← member m (off + 4) 4;
  m3 ← member m (off + 8) 4;
  m4 ← member m (off + 12) 4;
  match meta with Some _ => Ok (Some (MetaData m1 m2 m3 m4)) | None => Fault FMemory end.

Definition encode_file_ack_with_meta_data_req (instance_id file_type file_handle file_status : Z)
    (meta : file_meta_data) (msg : option pldm_msg) : outcome (Z * option pldm_msg) :=
  oem_members PLDM_REQUEST instance_id PLDM_FILE_ACK_WITH_META_DATA PLDM_ERROR_INVALID_DATA msg
    ([(2%nat, file_type); (4%nat, file_handle); (1%nat, file_status)] ++ meta_members meta).

Definition decode_file_ack_with_meta_data_resp (msg : option pldm_msg) (payload_length : Z)
    (completion_code : option Z) : outcome (Z * option Z) := decode_cc msg payload_length completion_code.

Definition decode_file_ack_with_meta_data_req (msg : option pldm_msg) (payload_length : Z) (outs : option (Z * Z))
    (file_status : option Z) (meta : option file_meta_data)
  : outcome (Z * option (Z * Z) * option Z * option file_meta_data) :=
  match msg, outs with
  | Some m, Some _ =>
    if negb (payload_length =? 23) then Ok (PLDM_ERROR_INVALID_LENGTH, outs, file_status, meta)
    else
    file_type ← member m 0 2;
    file_handle ← member m 2 4;
    s ← member m 6 1;
    file_status ← assign file_status s;
    meta ← decode_meta m 7 meta;
    mret (PLDM_SUCCESS, Some (file_type, file_handle), file_status, meta)
  | _, _ => Ok (PLDM_ERROR_INVALID_DATA, outs, file_status, meta)
  end.

Definition encode_file_ack_with_meta_data_resp (instance_id completion_code : Z) (msg : option pldm_msg)
  : outcome (Z * option pldm_msg) :=
  oem_members PLDM_RESPONSE instance_id PLDM_FILE_ACK_WITH_META_DATA PLDM_ERROR_INVALID_DATA msg
    [(1%nat, completion_code)].

Definition encode_new_file_with_metadata_req (instance_id file_type file_handle length : Z) (meta : file_meta_data)
    (msg : option pldm_msg) : outcome (Z * option pldm_msg) :=
  oem_members PLDM_REQUEST instance_id PLDM_NEW_FILE_AVAILABLE_WITH_META_DATA PLDM_ERROR_INVALID_DATA msg
    ([(2%nat, file_type); (4%nat, file_handle); (8%nat, length)] ++ meta_members meta).

(** The completion code is read twice where it is a success. *)
Definition decode_new_file_with_metadata_resp (msg : option pldm_msg) (payload_length : Z)
    (completion_code : option Z) : outcome (Z * option Z) :=
  match msg, completion_code with
  | Some m, Some _ =>
    if negb (payload_length =? 1) then Ok (PLDM_ERROR_INVALID_LENGTH, completion_code)
    else
    cc ← member m 0 1;
    cc ← (if cc =? PLDM_SUCCESS then member m 0 1 else mret cc);
    mret (PLDM_SUCCESS, Some cc)
  | _, _ => Ok (PLDM_ERROR_INVALID_DATA, completion_code)
  end.

Definition decode_new_file_with_metadata_req (msg : option pldm_msg) (payload_length : Z)
    (outs : option (Z * Z * Z)) (meta : option file_meta_data)
  : outcome (Z * option (Z * Z * Z) * option file_meta_data) :=
  match msg, outs with
  | Some m, Some _ =>
    if negb (payload_length =? 30) then Ok (PLDM_ERROR_INVALID_LENGTH, outs, meta)
    else
    file_type ← member m 0 2;
    file_handle ← member m 2 4;
    length ← member m 6 8;
    meta ← decode_meta m 14 meta;
    mret (PLDM_SUCCESS, Some (file_type, file_handle, length), meta)
  | _, _ => Ok (PLDM_ERROR_INVALID_DATA, outs, meta)
  end.

(** It is the code that is already in the message that is looked at. *)
Definition encode_new_file_with_metadata_resp (instance_id completion_code : Z) (msg : option pldm_msg)
  : outcome (Z * option pldm_msg) :=
  match msg with
  | None => Ok (PLDM_ERROR_INVALID_DATA, msg)
  | Some m =>
    legacy_frame PLDM_RESPONSE instance_id PLDM_OEM PLDM_NEW_FILE_AVAILABLE_WITH_META_DATA m (fun m =>
      there ← member m 0 1;
      if there =? PLDM_SUCCESS then
        m ← payload_write m 0 [completion_code]; mret (PLDM_SUCCESS, Some m)
      else mret (PLDM_SUCCESS, Some m))
  end.

(** ** Alerts (host.c) *)

Definition encode_get_alert_status_req (instance_id version_id : Z) (msg : option pldm_msg) (payload_length : Z)
  : outcome (Z * option pldm_msg) :=
  if given msg && negb (payload_length =? 1) then Ok (PLDM_ERROR_INVALID_LENGTH, msg)
  else oem_members PLDM_REQUEST instance_id PLDM_HOST_GET_ALERT_STATUS PLDM_ERROR_INVALID_LENGTH msg
    [(1%nat, version_id)].

Definition decode_get_alert_status_resp (msg : option pldm_msg) (payload_length : Z) (outs : option (Z * Z * Z))
  : outcome (Z * option (Z * Z * Z)) :=
  match msg, outs with
  | Some m, Some (_, rack_entry, pri_cec_node) =>
    cc ← member m 0 1;
    if negb (cc =? PLDM_SUCCESS) then mret (PLDM_SUCCESS, Some (cc, rack_entry, pri_cec_node))
    else if negb (payload_length =? 9) then mret (PLDM_ERROR_INVALID_LENGTH, Some (cc, rack_entry, pri_cec_node))
    else
    rack_entry ← member m 1 4;
    pri_cec_node ← member m 5 4;
    mret (PLDM_SUCCESS, Some (cc, rack_entry, pri_cec_node))
  | _, _ => Ok (PLDM_ERROR_INVALID_DATA, outs)
  end.

Definition decode_get_alert_status_req (msg : option pldm_msg) (payload_length : Z) (version_id : option Z)
  : outcome (Z * option Z) := decode_cc msg payload_length version_id.

Definition encode_get_alert_status_resp (instance_id completion_code rack_entry pri_cec_node : Z)
    (msg : option pldm_msg) (payload_length : Z) : outcome (Z * option pldm_msg) :=
  if given msg && negb (payload_length =? 9) then Ok (PLDM_ERROR_INVALID_DATA, msg)
  else oem_members PLDM_RESPONSE instance_id PLDM_HOST_GET_ALERT_STATUS PLDM_ERROR_INVALID_LENGTH msg
    [(1%nat, completion_code); (4%nat, rack_entry); (4%nat, pri_cec_node)].

(** ** The event of a BIOS attribute (platform.c) *)

Definition encode_bios_attribute_update_event_req (instance_id format_version tid num_handles : Z)
    (list_of_handles : ptr) (payload_length : Z) (msg : option pldm_msg) : outcome (Z * option pldm_msg) :=
  if negb (format_version =? 1) then Ok (PLDM_ERROR_INVALID_DATA, msg)
  else
  match msg, list_of_handles with
  | Some m, Some handles =>
    if num_handles =? 0 then Ok (PLDM_ERROR_INVALID_DATA, msg)
    else if SIZE_MAX / num_handles <? 2 then Ok (PLDM_ERROR_INVALID_LENGTH, msg)
    else if payload_length <? 3 + 1 then Ok (PLDM_ERROR_INVALID_LENGTH, msg)
    else if payload_length - (3 + 1) <? num_handles * 2 then Ok (PLDM_ERROR_INVALID_LENGTH, msg)
    else
    legacy_frame PLDM_REQUEST instance_id PLDM_PLATFORM PLDM_PLATFORM_EVENT_MESSAGE m (fun m =>
      m ← put_members m 0 [(1%nat, format_version); (1%nat, tid);
            (1%nat, PLDM_EVENT_TYPE_OEM_EVENT_BIOS_ATTRIBUTE_UPDATE); (1%nat, num_handles)];
      l ← mem_read handles 0 (num_handles * 2);
      m ← payload_write m 4 l;
      mret (PLDM_SUCCESS, Some m))
  | _, _ => Ok (PLDM_ERROR_INVALID_DATA, msg)
  end.

(** ** From the encoder to the decoder *)

Definition u64_ok (v : Z) : Prop := 0 <= v < 18446744073709551616.

Section carried.
Context (inst : Z) (msg : pldm_msg).
Hypothesis Hmem : mem_ok (payload msg).
Hypothesis Hi : 0 <= inst <= 31.

(** [enc] succeeds on [msg], and [dec] makes [a] of the [used] bytes it wrote. *)
Definition carries {A} (enc : option pldm_msg -> outcome (Z * option pldm_msg))
    (dec : option pldm_msg -> Z -> outcome A) (used : Z) (a : A) : Prop :=
  exists m, enc (Some msg) = Ok (PLDM_SUCCESS, Some m) /\ dec (Some m) used = Ok a.

(** The sides of a message of members. *)
Ltac exchange enc dec :=
  unfold carries, u64_ok in *; unfold enc, oem_members, cc_length, meta_members; cbn [Z.eqb given andb app file_meta_data_1 file_meta_data_2 file_meta_data_3 file_meta_data_4]; send_members;
  eexists; (split; [reflexivity|]); unfold dec, decode_cc_length, decode_cc, decode_meta, assign; cbn [Z.eqb Pos.eqb negb]; read_sent; try done.

Definition memory_requests : Prop :=
  (forall cmd handle off n addr o0, byte_ok cmd -> u32_ok handle -> u32_ok off -> u32_ok n -> u64_ok addr ->
     20 <= mem_size (payload msg) ->
     carries (encode_rw_file_memory_req inst cmd handle off n addr)
       (fun m l => decode_rw_file_memory_req m l (Some o0)) 20 (PLDM_SUCCESS, Some (handle, off, n, addr))) /\
  (forall cmd ty handle off n addr o0, byte_ok cmd -> u16_ok ty -> u32_ok handle -> u32_ok off -> u32_ok n ->
     u64_ok addr -> 22 <= mem_size (payload msg) ->
     carries (encode_rw_file_by_type_memory_req inst cmd ty handle off n addr)
       (fun m l => decode_rw_file_by_type_memory_req m l (Some o0)) 22 (PLDM_SUCCESS, Some (ty, handle, off, n, addr))) /\
  (forall cmd ty handle off n o0, by_type_command cmd = true -> u16_ok ty -> u32_ok handle -> u32_ok off -> u32_ok n ->
     14 <= mem_size (payload msg) ->
     carries (encode_rw_file_by_type_req inst cmd ty handle off n)
       (fun m l => decode_rw_file_by_type_req m l (Some o0)) 14 (PLDM_SUCCESS, Some (ty, handle, off, n))).

Lemma memory_requests_roundtrip : memory_requests.
Proof.
  unfold memory_requests. split_and!; intros.
  - exchange encode_rw_file_memory_req decode_rw_file_memory_req.
  - exchange encode_rw_file_by_type_memory_req decode_rw_file_by_type_memory_req.
  - unfold carries, encode_rw_file_by_type_req. rewrite H. cbn [negb].
    exchange encode_rw_file_by_type_req decode_rw_file_by_type_req.
Qed.
(** The responses with a length: on a success all five bytes, on an error the code alone,
    behind which the requester is handed whatever the payload held. *)
Definition length_responses : Prop :=
  forall cc n c0 n0, byte_ok cc -> u32_ok n -> 5 <= mem_size (payload msg) ->
  let result := (PLDM_SUCCESS, Some (cc, if cc =? PLDM_SUCCESS then n else n0)) in
  (forall cmd, carries (encode_rw_file_memory_resp inst cmd cc n)
     (fun m l => decode_rw_file_memory_resp m l (Some (c0, n0))) 5 result) /\
  (forall cmd, carries (encode_rw_file_by_type_memory_resp inst cmd cc n)
     (fun m l => decode_rw_file_by_type_memory_resp m l (Some (c0, n0))) 5 result) /\
  (forall cmd, by_type_command cmd = true ->
     carries (encode_rw_file_by_type_resp inst cmd cc n)
       (fun m l => decode_rw_file_by_type_resp m l (Some (c0, n0))) 5 result) /\
  carries (encode_write_file_resp inst cc n) (fun m l => decode_write_file_resp m l (Some (c0, n0))) 5 result.

Lemma cc_length_roundtrip null cmd cc n c0 n0 :
  byte_ok cc -> u32_ok n -> 5 <= mem_size (payload msg) ->
  carries (fun m => oem_members PLDM_RESPONSE inst cmd null m (cc_length cc n))
    (fun m l => decode_cc_length 5 m l (Some (c0, n0))) 5
    (PLDM_SUCCESS, Some (cc, if cc =? PLDM_SUCCESS then n else n0)).
Proof.
  intros Hcc Hn Hs. unfold carries, oem_members, cc_length, decode_cc_length.
  destruct (Z.eqb_spec cc PLDM_SUCCESS) as [->|Hne].
  - send_members. eexists. split; [reflexivity|]. cbn [Z.eqb Pos.eqb negb]. read_sent. done.
  - send_members. eexists. split; [reflexivity|]. cbn [Z.eqb Pos.eqb negb]. read_sent.
    by replace (cc =? PLDM_SUCCESS) with false by lia.
Qed.

Lemma length_responses_roundtrip : length_responses.
Proof.
  intros cc n c0 n0 Hcc Hn Hs result. split_and!; intros; try by apply cc_length_roundtrip.
  unfold encode_rw_file_by_type_resp, carries. rewrite H. by apply cc_length_roundtrip.
Qed.

(** Files in messages: their data is where the decoder says. *)
Definition file_messages : Prop :=
  (forall handle off n o0, u32_ok handle -> u32_ok off -> u32_ok n -> n <> 0 -> 12 <= mem_size (payload msg) ->
     carries (encode_read_file_req inst handle off n) (fun m l => decode_read_file_req m l (Some o0)) 12
       (PLDM_SUCCESS, Some (handle, off, n))) /\
  (forall handle off data o0 f0 p0, u32_ok handle -> u32_ok off -> bytes_ok data -> 0 < len data ->
     12 + len data < 4294967296 -> 12 + len data <= mem_size (payload msg) ->
     exists m m', encode_write_file_req inst handle off (len data) (Some msg) = Ok (PLDM_SUCCESS, Some m) /\
       payload_write m 12 data = Ok m' /\ lies (payload m') 12 data /\
       decode_write_file_req (Some m') (12 + len data) (Some o0) (Some f0) (Some p0)
       = Ok (PLDM_SUCCESS, Some (handle, len data), Some off, Some 12)) /\
  (forall data o0 p0, bytes_ok data -> 5 + len data < 4294967296 -> 5 + len data <= mem_size (payload msg) ->
     exists m m', encode_read_file_resp inst PLDM_SUCCESS (len data) (Some msg) = Ok (PLDM_SUCCESS, Some m) /\
       payload_write m 5 data = Ok m' /\ lies (payload m') 5 data /\
       decode_read_file_resp (Some m') (5 + len data) (Some o0) (Some p0)
       = Ok (PLDM_SUCCESS, Some (PLDM_SUCCESS, len data), Some 5)).

Lemma lies_wrote (m : cmem) (pre l : list Z) off : off = len pre -> lies (wrote m (pre ++ l)) off l.
Proof.
  intros ->. unfold wrote. split; [unfold mem_size, len; cbn [bytes]; rewrite !length_app; lia|].
  exists (drop (length (pre ++ l)) (bytes m)). unfold len. cbn [bytes]. rewrite Nat2Z.id, <- app_assoc.
  by rewrite drop_app_length.
Qed.

Lemma file_exchange_roundtrip : file_messages.
Proof.
  unfold file_messages. split_and!.
  - intros handle off n o0 ? ? ? Hn Hs. unfold carries, encode_read_file_req, decode_read_file_req.
    replace (n =? 0) with false by lia. rewrite andb_false_r. unfold oem_members. send_members.
    eexists. split; [reflexivity|]. cbn [Z.eqb Pos.eqb negb]. read_sent. done.
  - intros handle off data o0 f0 p0 ? ? Hd Hpos Hmax Hs. unfold encode_write_file_req, decode_write_file_req, len in *.
    replace (Z.of_nat (length data) =? 0) with false by lia. rewrite andb_false_r. unfold oem_members. send_members.
    do 2 eexists. split; [reflexivity|]. rewrite payload_write_next by send_side. split; [reflexivity|].
    split; [by apply lies_wrote|]. replace (12 + _ <? 12) with false by lia. read_sent. unfold assign. cbn [mbind outcome_bind]. unfold u32.
    rewrite Z.mod_small by lia. by rewrite Z.eqb_refl.
  - intros data o0 p0 Hd Hmax Hs. unfold encode_read_file_resp, decode_read_file_resp, oem_members, cc_length, len in *.
    destruct o0 as [c0 n0]. cbn [Z.eqb]. send_members.
    do 2 eexists. split; [reflexivity|]. rewrite payload_write_next by send_side. split; [reflexivity|].
    split; [by apply lies_wrote|]. replace (5 + _ <? 5) with false by lia. read_sent. unfold assign. cbn [mbind outcome_bind]. unfold u32.
    rewrite Z.mod_small by lia. by rewrite Z.eqb_refl.
Qed.

(** The table of files. *)
Definition table_messages : Prop :=
  (forall handle flag ty o0, u32_ok handle -> byte_ok flag -> byte_ok ty -> 6 <= mem_size (payload msg) ->
     carries (encode_get_file_table_req inst handle flag ty) (fun m l => decode_get_file_table_req m l (Some o0)) 6
       (PLDM_SUCCESS, Some (handle, flag, ty))) /\
  (forall next flag a table o0, u32_ok next -> byte_ok flag -> bytes_ok table -> 0 < len table ->
     6 + len table <= mem_size (payload msg) ->
     exists m, encode_get_file_table_resp inst PLDM_SUCCESS next flag (Some (CMem a table)) (len table) (Some msg)
         = Ok (PLDM_SUCCESS, Some m) /\ lies (payload m) 6 table /\
       decode_get_file_table_resp (Some m) (6 + len table) (Some o0)
       = Ok (PLDM_SUCCESS, Some (PLDM_SUCCESS, next, flag, 6, len table))) /\
  (forall cc next flag table n o0, cc <> PLDM_SUCCESS -> byte_ok cc -> 1 <= mem_size (payload msg) ->
     exists m, encode_get_file_table_resp inst cc next flag table n (Some msg) = Ok (PLDM_SUCCESS, Some m) /\
       decode_get_file_table_resp (Some m) 1 (Some o0) = Ok (PLDM_ERROR_INVALID_LENGTH, Some o0)).

Lemma table_messages_roundtrip : table_messages.
Proof.
  unfold table_messages. split_and!.
  - intros. exchange encode_get_file_table_req decode_get_file_table_req.
  - intros next flag a table o0 ? ? Ht Hpos Hs. unfold encode_get_file_table_resp, decode_get_file_table_resp, len in *.
    destruct o0 as [[[[c0 n0] f0] s0] l0]. cbn [Z.eqb andb negb given]. change [PLDM_SUCCESS] with (le_enc 1 0). send_members. cbn [Z.eqb]. send_members.
    cbn [from_option id]. send_members.
    eexists. split; [reflexivity|].
    split; [by apply (lies_wrote _ (le_enc 1 0 ++ members_bytes [(4%nat, next); (1%nat, flag)]))|].
    replace (6 + _ <=? 6) with false by lia. read_sent.
    by replace (6 + Z.of_nat (length table) - 6) with (Z.of_nat (length table)) by lia.
  - intros cc next flag table n o0 Hne ? Hs. unfold encode_get_file_table_resp, decode_get_file_table_resp.
    replace (cc =? PLDM_SUCCESS) with false by lia. cbn [andb]. send_members. eexists. split; [reflexivity|].
    by destruct o0 as [[[[c0 n0] f0] s0] l0].
Qed.

(** New files and what became of them. *)
Definition meta_ok (d : file_meta_data) : Prop :=
  u32_ok (file_meta_data_1 d) /\ u32_ok (file_meta_data_2 d) /\ u32_ok (file_meta_data_3 d) /\ u32_ok (file_meta_data_4 d).

Definition notice_messages : Prop :=
  (forall ty handle n o0, u16_ok ty -> u32_ok handle -> u64_ok n -> 14 <= mem_size (payload msg) ->
     carries (encode_new_file_req inst ty handle n) (fun m l => decode_new_file_req m l (Some o0)) 14
       (PLDM_SUCCESS, Some (ty, handle, n))) /\
  (forall ty handle n d o0 d0, u16_ok ty -> u32_ok handle -> u64_ok n -> meta_ok d -> 30 <= mem_size (payload msg) ->
     carries (encode_new_file_with_metadata_req inst ty handle n d)
       (fun m l => decode_new_file_with_metadata_req m l (Some o0) (Some d0)) 30
       (PLDM_SUCCESS, Some (ty, handle, n), Some d)) /\
  (forall ty handle s o0 s0, u16_ok ty -> u32_ok handle -> byte_ok s -> 7 <= mem_size (payload msg) ->
     carries (encode_file_ack_req inst ty handle s) (fun m l => decode_file_ack_req m l (Some o0) (Some s0)) 7
       (PLDM_SUCCESS, Some (ty, handle), Some s)) /\
  (forall ty handle s d o0 s0 d0, u16_ok ty -> u32_ok handle -> byte_ok s -> meta_ok d -> 23 <= mem_size (payload msg) ->
     carries (encode_file_ack_with_meta_data_req inst ty handle s d)
       (fun m l => decode_file_ack_with_meta_data_req m l (Some o0) (Some s0) (Some d0)) 23
       (PLDM_SUCCESS, Some (ty, handle), Some s, Some d)).

Lemma notice_messages_roundtrip : notice_messages.
Proof.
  unfold notice_messages. split_and!; intros.
  - exchange encode_new_file_req decode_new_file_req.
  - destruct d as [m1 m2 m3 m4]. destruct H2 as (? & ? & ? & ?). cbn [file_meta_data_1 file_meta_data_2 file_meta_data_3 file_meta_data_4] in *.
    exchange encode_new_file_with_metadata_req decode_new_file_with_metadata_req.
  - exchange encode_file_ack_req decode_file_ack_req.
  - destruct d as [m1 m2 m3 m4]. destruct H2 as (? & ? & ? & ?). cbn [file_meta_data_1 file_meta_data_2 file_meta_data_3 file_meta_data_4] in *.
    exchange encode_file_ack_with_meta_data_req decode_file_ack_with_meta_data_req.
Qed.
(** Responses that are a completion code.  One of them is lost on a message that holds an
    error already. *)
Definition code_responses : Prop :=
  forall cc c0, byte_ok cc -> 1 <= mem_size (payload msg) ->
  carries (encode_new_file_resp inst cc) (fun m l => decode_new_file_resp m l (Some c0)) 1 (PLDM_SUCCESS, Some cc) /\
  carries (encode_file_ack_resp inst cc) (fun m l => decode_file_ack_resp m l (Some c0)) 1 (PLDM_SUCCESS, Some cc) /\
  carries (encode_file_ack_with_meta_data_resp inst cc)
    (fun m l => decode_file_ack_with_meta_data_resp m l (Some c0)) 1 (PLDM_SUCCESS, Some cc) /\
  carries (encode_new_file_with_metadata_resp inst cc)
    (fun m l => decode_new_file_with_metadata_resp m l (Some c0)) 1
    (PLDM_SUCCESS, Some (if fld (payload msg) 0 1 =? PLDM_SUCCESS then cc else fld (payload msg) 0 1)).

Lemma member_wrote_nil h (m : cmem) (off n : nat) :
  Z.of_nat off + Z.of_nat n <= mem_size m ->
  member (Msg h (wrote m [])) (Z.of_nat off) (Z.of_nat n) = Ok (fld m off n).
Proof. intros H. rewrite wrote_nil. by apply member_ok. Qed.

Lemma code_responses_roundtrip : code_responses.
Proof.
  intros cc c0 Hcc Hs. split_and!.
  - exchange encode_new_file_resp decode_new_file_resp.
  - exchange encode_file_ack_resp decode_file_ack_resp.
  - exchange encode_file_ack_with_meta_data_resp decode_file_ack_with_meta_data_resp.
  - unfold carries, encode_new_file_with_metadata_resp, decode_new_file_with_metadata_resp.
    rewrite legacy_frame_ok by (done || (repeat constructor)).
    rewrite (member_wrote_nil _ (payload msg) 0 1) by lia. cbn [mbind outcome_bind].
    destruct (Z.eqb_spec (fld (payload msg) 0 1) PLDM_SUCCESS) as [E|E].
    + rewrite <- (le_enc_1 cc) by done. send_members. eexists. split; [reflexivity|]. cbn [Z.eqb Pos.eqb negb].
      read_sent. destruct (cc =? PLDM_SUCCESS); cbn [mbind outcome_bind]; [|done]. read_members. wire_at. done.
    + eexists. split; [reflexivity|]. cbn [Z.eqb Pos.eqb negb].
      rewrite (member_wrote_nil _ (payload msg) 0 1) by lia. cbn [mbind outcome_bind].
      by replace (_ =? PLDM_SUCCESS) with false by lia.
Qed.

(** Alerts, and the event of BIOS attributes. *)
Definition host_messages : Prop :=
  (forall v v0, byte_ok v -> 1 <= mem_size (payload msg) ->
     carries (fun m => encode_get_alert_status_req inst v m 1) (fun m l => decode_get_alert_status_req m l (Some v0)) 1
       (PLDM_SUCCESS, Some v)) /\
  (forall cc rack node c0 r0 n0, byte_ok cc -> u32_ok rack -> u32_ok node -> 9 <= mem_size (payload msg) ->
     carries (fun m => encode_get_alert_status_resp inst cc rack node m 9)
       (fun m l => decode_get_alert_status_resp m l (Some (c0, r0, n0))) 9
       (PLDM_SUCCESS, Some (cc, if cc =? PLDM_SUCCESS then rack else r0, if cc =? PLDM_SUCCESS then node else n0))) /\
  (forall tid a handles n, byte_ok tid -> 0 < n < 256 -> len handles = 2 * n -> 4 + 2 * n <= mem_size (payload msg) ->
     exists m, encode_bios_attribute_update_event_req inst 1 tid n (Some (CMem a handles)) (4 + 2 * n) (Some msg)
         = Ok (PLDM_SUCCESS, Some m) /\
       lies (payload m) 0 (members_bytes [(1%nat, 1); (1%nat, tid); (1%nat, 0xf0); (1%nat, n)]) /\
       lies (payload m) 4 handles).

Lemma host_messages_roundtrip : host_messages.
Proof.
  unfold host_messages. split_and!.
  - intros. exchange encode_get_alert_status_req decode_get_alert_status_req.
  - intros cc rack node c0 r0 n0 Hcc ? ? Hs. unfold carries, encode_get_alert_status_resp, oem_members. cbn [given andb Z.eqb Pos.eqb negb].
    send_members. eexists. split; [reflexivity|]. unfold decode_get_alert_status_resp. read_sent.
    destruct (cc =? PLDM_SUCCESS); cbn [negb mbind outcome_bind]; [|done]. read_members. wire_at. done.
  - intros tid a handles n ? Hn Hl Hs. unfold encode_bios_attribute_update_event_req. cbn [Z.eqb Pos.eqb negb].
    replace (n =? 0) with false by lia.
    replace (SIZE_MAX / n <? 2) with false.
    2: { symmetry. apply Z.ltb_ge. apply Z.div_le_lower_bound; lia. }
    replace (4 + 2 * n <? 3 + 1) with false by lia. replace (4 + 2 * n - (3 + 1) <? n * 2) with false by lia.
    replace (n * 2) with (Z.of_nat (length handles)) by (unfold len in Hl; lia). unfold len in Hl.
    send_members. eexists. split; [reflexivity|]. cbn [payload]. split; [|by apply lies_wrote].
    apply (lies_app _ 0 _ handles). by apply (lies_wrote _ []).
Qed.
End carried.

(** IBM's messages survive the wire: the requests to move files through memory or in
    messages, their responses, with a length on a success and the completion code alone on
    an error, the table of files, the notices of new files and their acknowledgements,
    with and without meta data, the status of alerts, and the event of BIOS attributes
    laid out as its struct says; where data follows a message, it lies where the decoder
    says.  Two of them do not: the error response to GetFileTable is refused for its
    length, and a completion code for a new file with meta data is lost on a message
    whose first byte is not 0 yet. *)
Theorem ibm_messages_roundtrip inst msg :
  mem_ok (payload msg) -> 0 <= inst <= 31 ->
  memory_requests inst msg /\ length_responses inst msg /\ file_messages inst msg /\ table_messages inst msg /\
  notice_messages inst msg /\ code_responses inst msg /\ host_messages inst msg.
Proof.
  intros. split_and!; [by apply memory_requests_roundtrip|by apply length_responses_roundtrip|by apply file_exchange_roundtrip
    |by apply table_messages_roundtrip|by apply notice_messages_roundtrip|by apply code_responses_roundtrip
    |by apply host_messages_roundtrip].
Qed.

Lemma ibm_messages_roundtrip_witness :
  let msg := Msg (MsgHdr 0 0 0 0 0 0 0) (CMem 4096 (0x87 :: replicate 29 0)) in
  exists m, encode_new_file_with_metadata_resp 3 PLDM_SUCCESS (Some msg) = Ok (PLDM_SUCCESS, Some m) /\
    decode_new_file_with_metadata_resp (Some m) 1 (Some 0) = Ok (PLDM_SUCCESS, Some 0x87).
Proof.
  destruct (ibm_messages_roundtrip 3 (Msg (MsgHdr 0 0 0 0 0 0 0) (CMem 4096 (0x87 :: replicate 29 0)))
    ltac:(concrete) ltac:(lia)) as (_ & _ & _ & _ & _ & H & _).
  destruct (H PLDM_SUCCESS 0) as (_ & _ & _ & m & E & D); [by vm_compute|by vm_compute|].
  exists m. split; [exact E|exact D].
Defined.
