(* ===== verification/OemOthers.v ===== *)
(** * Meta's and NVIDIA's messages (src/oem/meta/file_io.c, src/oem/nvidia)

    Reading and writing files, with structs that end in an array of the size the caller
    allocated, and the reading of an energy counter. *)

From S2P Require Import Prelude Msgbuf Layout Base Legacy Safety Exchange PlatformSafe PlatformRound.

Abbreviation PLDM_OEM := 0x3f (only parsing).
Abbreviation E2BIG := 7 (only parsing).

(** ** Meta: files *)

Abbreviation PLDM_OEM_META_FILE_IO_CMD_READ_FILE := 0x3 (only parsing).
Abbreviation PLDM_OEM_META_FILE_IO_READ_ATTR := 0 (only parsing).
Abbreviation PLDM_OEM_META_FILE_IO_READ_DATA := 1 (only parsing).
Abbreviation PLDM_OEM_META_FILE_IO_WRITE_REQ_MIN_LENGTH := 5 (only parsing).
Abbreviation PLDM_OEM_META_FILE_IO_READ_REQ_MIN_LENGTH := 3 (only parsing).
Abbreviation PLDM_OEM_META_FILE_IO_READ_RESP_MIN_SIZE := 4 (only parsing).

(** The sizes of the structs, their last array left out and their padding included. *)
Abbreviation SIZEOF_WRITE_REQ := 8 (only parsing).
Abbreviation SIZEOF_READ_REQ := 16 (only parsing).
Abbreviation SIZEOF_READ_RESP := 24 (only parsing).

(** [mw_data] is the rest of the caller's allocation. *)
Record pldm_oem_meta_file_io_write_req := MetaWrite { mw_handle : Z; mw_length : Z; mw_data : list Z }.

Definition pldm_oem_meta_file_io_write_req_data (req : pldm_oem_meta_file_io_write_req) : list Z := mw_data req.

Definition decode_oem_meta_file_io_write_req (msg : option pldm_msg) (payload_length : Z)
    (req : option pldm_oem_meta_file_io_write_req) (req_length : Z)
  : outcome (Z * option pldm_oem_meta_file_io_write_req) :=
  match msg, req with
  | Some m, Some (MetaWrite handle length data as r) =>
    if req_length <? SIZEOF_WRITE_REQ then Ok (- EINVAL, req)
    else
    '(rc, r) ← decode_frame PLDM_OEM_META_FILE_IO_WRITE_REQ_MIN_LENGTH m payload_length r (
      '(_, handle) ← pldm_msgbuf_extract KU8 handle;
      checked_errno (pldm_msgbuf_extract KU32 length) (fun n => MetaWrite handle n data) (fun length =>
      checked_errno (pldm_msgbuf_extract_array_uint8 length data (req_length - SIZEOF_WRITE_REQ))
        (fun data => MetaWrite handle length data) (fun data =>
      finish_errno pldm_msgbuf_ro_complete_consumed (MetaWrite handle length data))));
    mret (rc, Some r)
  | _, _ => Ok (- EINVAL, req)
  end.

(** [fresh] is what malloc() gives for the array of [payload_length] bytes behind the
    struct, NULL included; [data] is the caller's object, whose size nobody knows. *)
Definition decode_oem_meta_file_io_req (msg : option pldm_msg) (payload_length : Z)
    (outs : option (Z * Z * cmem)) (fresh : option (list Z)) : outcome (Z * option (Z * Z * cmem)) :=
  match msg, outs with
  | Some _, Some (_, _, data) =>
    if SIZE_MAX - SIZEOF_WRITE_REQ <? payload_length then rc ← pldm_xlate_errno (- EOVERFLOW); mret (rc, outs)
    else
    '(rc, request) ← decode_oem_meta_file_io_write_req msg payload_length (MetaWrite 0 0 <$> fresh)
      (SIZEOF_WRITE_REQ + payload_length);
    if rc <? 0 then rc ← pldm_xlate_errno rc; mret (rc, outs)
    else
    match request with
    | Some r =>
      l ← mem_read (CMem 0 (mw_data r)) 0 (mw_length r);
      data ← mem_write data 0 l;
      mret (0, Some (mw_handle r, mw_length r, data))
    | None => Fault FMemory
    end
  | _, _ => rc ← pldm_xlate_errno (- EINVAL); mret (rc, outs)
  end.

Record pldm_oem_meta_file_io_read_req := MetaRead {
  mr_version : Z; mr_handle : Z; mr_option : Z; mr_length : Z; mr_transferFlag : Z; mr_offset : Z
}.

Definition decode_oem_meta_file_io_read_req (msg : option pldm_msg) (payload_length : Z)
    (req : option pldm_oem_meta_file_io_read_req) : outcome (Z * option pldm_oem_meta_file_io_read_req) :=
  match msg, req with
  | Some m, Some (MetaRead version handle opt length flag offset as r) =>
    if SIZEOF_READ_REQ <? version then Ok (- E2BIG, req)
    else
    '(rc, r) ← decode_frame PLDM_OEM_META_FILE_IO_READ_REQ_MIN_LENGTH m payload_length r (
      '(_, handle) ← pldm_msgbuf_extract KU8 handle;
      checked_errno (pldm_msgbuf_extract KU8 opt) (fun o => MetaRead version handle o length flag offset) (fun opt =>
      checked_errno (pldm_msgbuf_extract KU8 length) (fun n => MetaRead version handle opt n flag offset) (fun length =>
      let r := MetaRead version handle opt length flag offset in
      if opt =? PLDM_OEM_META_FILE_IO_READ_ATTR then
        if negb (length =? 0) then refuse (- EPROTO) r
        else finish_errno pldm_msgbuf_ro_complete_consumed r
      else if opt =? PLDM_OEM_META_FILE_IO_READ_DATA then
        '(_, flag) ← pldm_msgbuf_extract KU8 flag;
        '(_, offset) ← pldm_msgbuf_extract KU16 offset;
        finish_errno pldm_msgbuf_ro_complete_consumed (MetaRead version handle opt length flag offset)
      else refuse (- EPROTO) r)));
    mret (rc, Some r)
  | _, _ => Ok (- EINVAL, req)
  end.

(** The two views of the union, as the caller filled them. *)
Record pldm_oem_meta_file_io_read_resp := MetaReadResp {
  mp_version : Z; mp_completion_code : Z; mp_handle : Z; mp_option : Z; mp_length : Z;
  mp_attr_size : Z; mp_attr_crc32 : Z; mp_data_transferFlag : Z; mp_data_offset : Z;
  mp_data : cmem
}.

Definition pldm_oem_meta_file_io_read_resp_data (resp : pldm_oem_meta_file_io_read_resp) : cmem := mp_data resp.

Definition encode_oem_meta_file_io_read_resp (instance_id : Z) (resp : option pldm_oem_meta_file_io_read_resp)
    (resp_len : Z) (responseMsg : option pldm_msg) (payload_length : Z) : outcome (Z * option pldm_msg) :=
  match resp, responseMsg with
  | Some r, Some m =>
    if resp_len <? SIZEOF_READ_RESP then Ok (- EINVAL, responseMsg)
    else if SIZEOF_READ_RESP <? mp_version r then Ok (- E2BIG, responseMsg)
    else
    '(rc, m, _) ← encode_frame PLDM_RESPONSE instance_id PLDM_OEM PLDM_OEM_META_FILE_IO_CMD_READ_FILE
        PLDM_OEM_META_FILE_IO_READ_RESP_MIN_SIZE m payload_length (
      _ ← pldm_msgbuf_insert KU8 (mp_completion_code r);
      _ ← pldm_msgbuf_insert KU8 (mp_handle r);
      _ ← pldm_msgbuf_insert KU8 (mp_option r);
      _ ← pldm_msgbuf_insert KU8 (mp_length r);
      if mp_option r =? PLDM_OEM_META_FILE_IO_READ_ATTR then
        _ ← pldm_msgbuf_insert KU16 (mp_attr_size r);
        _ ← pldm_msgbuf_insert KU32 (mp_attr_crc32 r);
        rc ← pldm_msgbuf_rw_complete; mret (rc, payload_length)
      else if mp_option r =? PLDM_OEM_META_FILE_IO_READ_DATA then
        _ ← pldm_msgbuf_insert KU8 (mp_data_transferFlag r);
        _ ← pldm_msgbuf_insert KU16 (mp_data_offset r);
        rc ← pldm_msgbuf_insert_array_uint8 (mp_length r) (mp_data r) (resp_len - SIZEOF_READ_RESP);
        if_err rc return_ (rc ← pldm_msgbuf_rw_discard rc; mret (rc, payload_length));;
        rc ← pldm_msgbuf_rw_complete; mret (rc, payload_length)
      else rc ← pldm_msgbuf_rw_discard (- EPROTO); mret (rc, payload_length));
    mret (rc, m)
  | _, _ => Ok (- EINVAL, responseMsg)
  end.

(** ** NVIDIA: energy counters *)

Abbreviation PLDM_OEM_GET_ENERGYCOUNT_SENSOR_READING := 0x11 (only parsing).
Abbreviation PLDM_GET_OEM_ENERGYCOUNT_SENSOR_READING_MIN_RESP_BYTES := 4 (only parsing).

Definition encode_get_oem_energy_count_sensor_reading_req (instance_id sensor_id : Z) (msg : option pldm_msg)
  : outcome (Z * option pldm_msg) :=
  match msg with
  | None => Ok (PLDM_ERROR_INVALID_DATA, msg)
  | Some m =>
    legacy_frame PLDM_REQUEST instance_id PLDM_OEM PLDM_OEM_GET_ENERGYCOUNT_SENSOR_READING m (fun m =>
      m ← put_members m 0 [(2%nat, sensor_id)];
      mret (PLDM_SUCCESS, Some m))
  end.

(** The bytes of a reading of the data type: 0 to 7, two for each width. *)
Definition reading_width (sensor_data_size : Z) : Z :=
  match sensor_data_size with
  | 0 | 1 => 1
  | 2 | 3 => 2
  | 4 | 5 => 4
  | _ => 8
  end.

(** [sensor_data_size] comes with the type the caller has room for, [present_reading] is
    that room.  The bytes of the reading are little endian there too. *)
Definition decode_get_oem_energy_count_sensor_reading_resp (msg : option pldm_msg) (payload_length : Z)
    (outs : option (Z * Z * Z * list Z)) : outcome (Z * option (Z * Z * Z * list Z)) :=
  match msg, outs with
  | Some m, Some (_, size, state, reading) =>
    cc ← member m 0 1;
    let outs := Some (cc, size, state, reading) in
    if negb (cc =? PLDM_SUCCESS) then mret (PLDM_SUCCESS, outs)
    else if payload_length <? PLDM_GET_OEM_ENERGYCOUNT_SENSOR_READING_MIN_RESP_BYTES then
      mret (PLDM_ERROR_INVALID_LENGTH, outs)
    else
    s ← member m 1 1;
    if 7 <? s then mret (PLDM_ERROR_INVALID_DATA, outs)
    else if size <? s then mret (PLDM_ERROR_INVALID_LENGTH, outs)
    else
    st ← member m 2 1;
    if negb (payload_length =? 4 + (reading_width s - 1)) then
      mret (PLDM_ERROR_INVALID_LENGTH, Some (cc, s, st, reading))
    else
    raw ← payload_read m 3 (reading_width s);
    reading ← array_store reading raw;
    mret (PLDM_SUCCESS, Some (cc, s, st, reading))
  | _, _ => Ok (PLDM_ERROR_INVALID_DATA, outs)
  end.

(** ** Any bytes *)

Section decoders.
Context (h : pldm_msg_hdr) (m : cmem) (n : Z).
Hypothesis Hm : mem_ok m.
Hypothesis Hn : 0 <= n <= mem_size m.

(** The array behind a struct has the size that the length of the allocation says. *)
Definition write_req_room (req : pldm_oem_meta_file_io_write_req) (req_length : Z) : Prop :=
  SIZEOF_WRITE_REQ <= req_length -> len (mw_data req) = req_length - SIZEOF_WRITE_REQ.

Lemma write_req_safe req req_length :
  promised req (fun r => write_req_room r req_length) ->
  returns errno anything (decode_oem_meta_file_io_write_req (Some (Msg h m)) n req req_length).
Proof.
  intros Hr. destruct req as [[handle length data]|]; [|safe_decoder].
  unfold decode_oem_meta_file_io_write_req. unfold promised, write_req_room, len in Hr. cbn [mw_data] in Hr.
  cmp_case; [apply returns_ok; [right; unfold errno; lia|done]|]. specialize (Hr ltac:(lia)).
  repeat safe_scope; safe_more; done.
Qed.

Lemma read_req_safe req :
  returns (fun rc => errno rc \/ rc = - E2BIG) anything (decode_oem_meta_file_io_read_req (Some (Msg h m)) n req).
Proof.
  destruct req as [[version handle opt length flag offset]|]; [|apply returns_ok; [unfold errno; lia|done]].
  unfold decode_oem_meta_file_io_read_req. cmp_case; [apply returns_ok; [lia|done]|].
  match goal with |- returns _ _ ('(_, _) ← ?t; _) => assert (returns errno anything t) as (rc & a & -> & Hrc & _) end.
  { repeat safe_scope; safe_more; done. }
  cbn [mbind outcome_bind]. apply returns_ok; [|done]. unfold errno in *. lia.
Qed.

Lemma reading_width_range s : 0 <= s <= 7 -> 1 <= reading_width s <= 8.
Proof. intros. assert (s ∈ [0; 1; 2; 3; 4; 5; 6; 7]) as Hs by (rewrite !elem_of_cons; lia). 
  repeat (apply elem_of_cons in Hs as [->|Hs]; [cbn; lia|]). by apply elem_of_nil in Hs.
Qed.

(** The caller's room must be that of the type it names, which is all that is written. *)
Lemma reading_safe outs :
  1 <= mem_size m ->
  promised outs (fun '(_, size, _, reading) => reading_width size <= len reading /\ 0 <= size <= 7) ->
  returns refusal anything (decode_get_oem_energy_count_sensor_reading_resp (Some (Msg h m)) n outs).
Proof.
  intros Hs Hr. destruct outs as [[[[cc0 size] state] reading]|]; [|apply returns_ok; [unfold refusal; lia|done]].
  destruct Hr as [Hr Hsz]. unfold decode_get_oem_energy_count_sensor_reading_resp. read_members.
  cmp_case; cbn [negb]; [|by apply returns_ok; [left|]].
  cmp_case; [apply returns_ok; [unfold refusal; lia|done]|]. read_members.
  pose proof (fld_bound m 1 1 (mem_ok_bytes _ Hm)) as Hb. set (s := fld m 1 1) in *.
  cmp_case; [apply returns_ok; [unfold refusal; lia|done]|].
  cmp_case; [apply returns_ok; [unfold refusal; lia|done]|]. read_members.
  pose proof (reading_width_range s ltac:(lia)).
  assert (reading_width s <= reading_width size) as Hw.
  { assert (s ∈ [0; 1; 2; 3; 4; 5; 6; 7]) as Hin by (rewrite !elem_of_cons; lia).
    assert (size ∈ [0; 1; 2; 3; 4; 5; 6; 7]) as Hin' by (rewrite !elem_of_cons; lia).
    clearbody s. repeat (apply elem_of_cons in Hin as [->|Hin]; [|]); try (by apply elem_of_nil in Hin);
      repeat (apply elem_of_cons in Hin' as [->|Hin']; [cbn; lia|]); by apply elem_of_nil in Hin'. }
  destruct (Z.eqb_spec n (4 + (reading_width s - 1))); cbn [negb]; [|apply returns_ok; [unfold refusal; lia|done]].
  unfold payload_read. cbn [payload]. apply returns_read; [lia|]. intros raw Hraw.
  apply returns_store; [unfold len in *; lia|]. by apply returns_ok; [left|].
Qed.
End decoders.

(** ** What the messages say *)

Section messages.
Context (inst : Z) (msg : pldm_msg).
Hypothesis Hmem : mem_ok (payload msg).
Hypothesis Hi : 0 <= inst <= 31.

(** A response to a read: attributes, or a piece of the file. *)
Definition read_resp_fields (r : pldm_oem_meta_file_io_read_resp) : list (kind * Z) :=
  [(KU8, mp_completion_code r); (KU8, mp_handle r); (KU8, mp_option r); (KU8, mp_length r)] ++
  (if mp_option r =? PLDM_OEM_META_FILE_IO_READ_ATTR then [(KU16, mp_attr_size r); (KU32, mp_attr_crc32 r)]
   else [(KU8, mp_data_transferFlag r); (KU16, mp_data_offset r)]).

Definition read_resp_written : Prop :=
  forall cc handle length size crc flag offset version a data resp_len n,
  SIZEOF_READ_RESP <= resp_len -> version <= SIZEOF_READ_RESP -> n <= mem_size (payload msg) ->
  (10 <= n -> exists m,
     let r := MetaReadResp version cc handle 0 length size crc flag offset (CMem a data) in
     encode_oem_meta_file_io_read_resp inst (Some r) resp_len (Some msg) n = Ok (0, Some m) /\
     payload m = wrote (payload msg) (fields_bytes (read_resp_fields r))) /\
  (bytes_ok data -> length = len data -> length <= resp_len - SIZEOF_READ_RESP -> 7 + length <= n -> exists m,
     let r := MetaReadResp version cc handle 1 length size crc flag offset (CMem a data) in
     encode_oem_meta_file_io_read_resp inst (Some r) resp_len (Some msg) n = Ok (0, Some m) /\
     payload m = wrote (payload msg) (fields_bytes (read_resp_fields r) ++ data)).

Lemma read_resp_is_written : read_resp_written.
Proof.
  intros cc handle length size crc flag offset version a data resp_len n Hr Hv Hn. split.
  - intros Hs. unfold encode_oem_meta_file_io_read_resp.
    replace (resp_len <? SIZEOF_READ_RESP) with false by lia. cbn [mp_version]. replace (SIZEOF_READ_RESP <? version) with false by lia.
    set (r := MetaReadResp version cc handle 0 length size crc flag offset (CMem a data)).
    match goal with |- context [encode_frame ?ty ?i ?p ?c ?k ?ms ?l ?body] =>
      rewrite (encode_frame_is ty i p c k ms l body n (fields_bytes (read_resp_fields r)));
      [by eexists|repeat constructor|done|lia|done|lia|lia|] end.
    intros b Hb. unfold r.
    cbn [mp_completion_code mp_handle mp_option mp_length mp_attr_size mp_attr_crc32 mp_data_transferFlag mp_data_offset mp_data Z.eqb].
    repeat insert_call. split_and!; [assumption|done|done|].
    match goal with H : obj _ = _ |- _ => rewrite H end. by f_equal.
  - intros Hd Hl Hroom Hs. unfold encode_oem_meta_file_io_read_resp. pose proof (len_nonneg data). pose proof Hmem as [? ?].
    replace (resp_len <? SIZEOF_READ_RESP) with false by lia. cbn [mp_version]. replace (SIZEOF_READ_RESP <? version) with false by lia.
    set (r := MetaReadResp version cc handle 1 length size crc flag offset (CMem a data)).
    match goal with |- context [encode_frame ?ty ?i ?p ?c ?k ?ms ?l ?body] =>
      rewrite (encode_frame_is ty i p c k ms l body n (fields_bytes (read_resp_fields r) ++ data));
      [by eexists|repeat constructor|done|lia|done|lia|lia|] end.
    intros b Hb. unfold r.
    cbn [mp_completion_code mp_handle mp_option mp_length mp_attr_size mp_attr_crc32 mp_data_transferFlag mp_data_offset mp_data Z.eqb Pos.eqb].
    unfold len in *. repeat insert_call. apply wp_bind; autounfold with msgbuf.
    lazymatch goal with H : mb_wr ?m ?l ?out ?b |- wp (_ ?c ?src ?k) ?b _ =>
      apply (wp_insert_array_wr m l c src k out b _ H); [lia|unfold mem_size; cbn; lia|wr_len|]; clear H; intros b' Hb' end.
    mb_fits. rewrite Hl, Nat2Z.id in Hb'. unfold slice in Hb'. cbn [bytes] in Hb'. rewrite drop_0, firstn_all in Hb'. apply wp_bind. eapply wp_rw_complete; [exact Hb'|wr_len|]. intros b'' Hd' Hobj. repeat insert_call.
    split_and!; [done|done|done|]. rewrite Hobj. f_equal. rewrite <- Hl, <- !app_assoc. reflexivity.
Qed.
End messages.

(** Whatever the peer sent, the decoders of Meta's and NVIDIA's messages stay inside the
    message and inside what the caller gave them, and refuse with one of their codes; the
    response to a read says its attributes or its piece of the file, byte for byte. *)
Theorem oem_messages_safe h m n inst msg :
  mem_ok m -> 0 <= n <= mem_size m -> mem_ok (payload msg) -> 0 <= inst <= 31 ->
  (forall req l, promised req (fun r => write_req_room r l) ->
     returns errno anything (decode_oem_meta_file_io_write_req (Some (Msg h m)) n req l)) /\
  (forall req, returns (fun rc => errno rc \/ rc = - E2BIG) anything (decode_oem_meta_file_io_read_req (Some (Msg h m)) n req)) /\
  (forall outs, 1 <= mem_size m ->
     promised outs (fun '(_, size, _, reading) => reading_width size <= len reading /\ 0 <= size <= 7) ->
     returns refusal anything (decode_get_oem_energy_count_sensor_reading_resp (Some (Msg h m)) n outs)) /\
  read_resp_written inst msg.
Proof.
  intros. split_and!; intros; [by apply write_req_safe|by apply read_req_safe|by apply reading_safe|by apply read_resp_is_written].
Qed.
